(* ===== verification/_CoqProject ===== *)
-Q . S2P
Prelude.v
BpfMap.v
CString.v
DnsExpress.v
Layer.v
TcpConnect.v
TcpConnectCli.v
MapHelpers.v
Hist.v
TcpRtt.v
Probes.v
Ksyms.v
Syms.v
Hashmap.v
StrSet.v
Nlattr.v
RingBuf.v
Btf.v
BtfBuild.v
CoreTypes.v
CoreRelo.v
ProgLink.v
BtfVisit.v
BtfExt.v
Dedup.v
TypeGraph.v
DedupTypes.v
DedupEquiv.v
DedupTable.v
DedupPasses.v
DedupRefs.v
DedupVisit.v
DedupCompact.v
DedupRemap.v
DedupStrings.v
DedupCheck.v
DedupSound.v
ProgLinfo.v
BtfDump.v
DumpOrder.v
DumpPad.v
UsdtArg.v
UsdtManager.v
UsdtTargets.v
RingLive.v
Kconfig.v
Externs.v
ExternsLoad.v
