(* ===== verification/Prelude.v ===== *)
(** * lno: verification of its observability programs

    lno observes the Linux network stack with eBPF.  The repository holds
    programs that run in the kernel (probes, an XDP responder, a traffic
    filter), the command-line tools that load them and print what they
    collect, and the C libraries the tools stand on: the helpers of
    src/plugin/libbpf-test and libbpf itself.  This development models the
    parts with logic of their own and proves what each promises.

    ** Parts, files and their correspondence to the code

    Paths are relative to src/plugin; LIBBPF is libbpf-test/libbpf/src.

    - [Prelude]: machine integers as [Z] with explicit wrap-around ([u32],
      [s32], ...), byte memory with loads and stores that fail outside the
      object, C strings, byte order; the tactics [zbool], [zcase],
      [width_lia] and the hint database [mem].
    - [BpfMap]: kernel maps as an interface.  [BpfMapOps] is the helpers,
      [BpfHashLaws] and [BpfArrayLaws] what their documentation promises;
      [Hmap] and [Amap] are concrete maps that satisfy the laws.  The kernel
      programs are proved against the interface.
    - [CString]: [strtol] and [strtoul] of the C standard, and decimal
      printing.
    - [DnsExpress]: ciliumebpf/dnsExpress/dnsExpress.c, the XDP program that
      answers DNS queries from a map; the whole handler [xdp_dns].
    - [Layer]: ciliumebpf/layer/layer.c, ten probes along the path of a
      packet, sharing an array of times and a ring buffer.
    - [TcpConnect], [TcpConnectCli]: libbpf-test/okk/tcpconnect.bpf.c and
      tcpconnect.c, the connect tracer on both sides of the kernel boundary.
      The client writes the configuration the kernel side reads; the
      theorems of [TcpConnectCli] compose the two.  Events go through one
      ring per CPU, whose helper may lose them; the count of lost ones is
      in the ring, before the next event.
    - [MapHelpers]: libbpf-test/map_helpers.c, reading a whole map; its
      system calls are the interface [BpfMapIterOps].  Batch calls may fail
      with any error.
    - [Hist]: the histogram printer of libbpf-test/trace_helpers.c.
    - [TcpRtt]: libbpf-test/tcprtt.bpf.c and tcprtt.c, which fill and print
      the histograms of round-trip times, on [BpfMap] and [Hist].
    - [Probes]: the small programs, a Module each (libbpf-test/doesnotok/
      tc_test.bpf.c, libbpfgo/tcpdrop, softirq, execve, ciliumebpf/interrupt
      and stack, and ../netfilter/demo.c).
    - [Ksyms], [Syms]: the symbol tables of libbpf-test/trace_helpers.c, of
      the kernel and of processes; the string table [Syms] uses is the
      interface [StrTabLaws], ELF access the record [libelf].
    - [Hashmap], [StrSet]: LIBBPF/hashmap.c and strset.c; [StrSet] keys a
      [Hashmap] by offsets into its own growing buffer.
    - [Nlattr]: LIBBPF/nlattr.c, the parser of netlink attributes.
    - [RingBuf]: LIBBPF/ringbuf.c, the consumer of a ring buffer, as a
      function of a fixed ring and as transitions interleaved with the
      producer ([step], [reachable]).
    - [Btf]: LIBBPF/btf.c, loading, indexing, converting and querying type
      information; its index grows with [libbpf_add_mem] of [StrSet].
    - [BtfBuild]: LIBBPF/btf.c, building type information ([btf__add_*]):
      the image of [Btf] split into a type section and a [StrSet], and put
      together again.
    - [CoreTypes], [CoreRelo]: the CO-RE relocations of LIBBPF/relo_core.c,
      with the comparison of types and the search for candidates of
      LIBBPF/libbpf.c, reading both objects through [Btf].
    - [ProgLink]: LIBBPF/libbpf.c, relocation of the programs of an object:
      subprograms appended to the programs that call them, and references
      to maps, variables and kernel functions filled in, on the
      instructions [CoreRelo] patches.
    - [BtfVisit]: LIBBPF/btf.c, the visitors over the type ids and string
      offsets of a type; [BtfExt]: the section .BTF.ext, line and function
      information and CO-RE relocations, loading it and collecting it for a
      program.
    - [Dedup]: LIBBPF/btf.c, deduplication, all its passes ([btf__dedup]).  Its
      proof is in parts: [TypeGraph] is the graph the types of an object
      stand for, [DedupTypes], [DedupEquiv] and [DedupTable] the comparison
      of two graphs and the hash table of candidates, [DedupPasses] and
      [DedupRefs] the passes over primitive, composite and reference types,
      [DedupVisit], [DedupCompact] and [DedupRemap] the renumbering,
      [DedupStrings] the strings, [DedupCheck] decision procedures for the
      hypotheses, and [DedupSound] puts them together.
    - [ProgLinfo]: LIBBPF/bpf_prog_linfo.c, line information by instruction
      and by address.
    - [BtfDump]: LIBBPF/btf_dump.c, printing types as C: the order of the
      definitions ([DumpOrder]), unique names, declarations, and the padding
      of structures ([DumpPad]).
    - [UsdtArg], [UsdtManager], [UsdtTargets]: LIBBPF/usdt.c and usdt.bpf.h,
      user-space probes: parsing the arguments of a probe and reading them in
      the kernel, the specification ids shared between probes, and the probe
      addresses found in an ELF file.
    - [RingLive]: progress of the ring buffer of [RingBuf].
    - [Kconfig], [Externs], [ExternsLoad]: LIBBPF/libbpf.c, external variables:
      reading kernel configurations; collecting the externs of an object and
      placing their values in a map; resolving all of them when it is loaded.

    ** Conventions

    A definition has the name of its C function.  A function that changes
    state returns the new state, a program that emits events appends them to
    a list.  An outer [None] is undefined behaviour: an access outside an
    object, a NULL dereference, an over-wide shift, a signed overflow.  A
    theorem that a function returns [Some] therefore states its memory
    safety.  Error codes are the negative numbers of the code, or [inl].
    Code outside the repository (kernel helpers, libelf, allocation,
    callbacks) is a parameter or a class of documented laws; an allocator is
    a function from the requested size to success, so any set of sizes may
    be refused, but two requests of one size fare alike.

    ** What the theorems show

    - Functional correctness of the programs: the DNS reply byte for byte
      ([xdp_dns_reply]) with an IP checksum that verifies, the events and
      counts of the connect tracer under interleaving threads, the
      accumulated histogram and its printed intervals, port filters and
      options from the command line to the kernel's decision, the egress
      filter against the fields on the wire.
    - Memory safety on arbitrary input: packets ([xdp_dns_safe]), netlink
      messages ([nla_parse_safe]), BTF images ([btf_new_sound]), .BTF.ext
      sections, command lines ([command_line_config_safe]).
    - Linking: relocating the calls of an entry program appends every
      function reachable from it exactly once, and each call reaches the
      instruction it names ([relocate_calls_links]).
    - CO-RE: a matching specification names the same path in the target
      types, with the bit offset of that path ([core_match_same_path]); the
      comparison of types decides compatibility of the trees the types stand
      for and ends on all of them ([types_compat_decides]); the load and
      shifts calculated for a bit-field read exactly its bits
      ([bitfield_relo_equiv]); patching has one of five outcomes, each with
      its condition and with what it leaves of the instruction
      ([core_patch_insn_bounds]).
    - Refinement of abstract specifications: the layer tracer's probes to a
      table of times and messages ([layer_run_refines]), the hash map to a
      finite map under any hash function ([hashmap_refines_map]), the ring
      consumer to exactly-once delivery ([ring_exactly_once]).
    - Round trips: string interning, attribute streams, a BTF object
      written in the other byte order and loaded again, a BTF object
      built by any calls of [btf__add_*], which loads as the list of types
      those calls specify ([btf_build_roundtrip]), and the arguments of a
      user-space probe, from their text to their values in the kernel
      ([usdt_args_read]).
    - Deduplication loses no definition and invents none: every new type is
      a copy of an old one mapped to it, every definition is mapped to one
      with its name, numbers and members, and only references may weaken, from
      a definition to its forward declaration ([btf_dedup_sound]), on the
      termination and soundness of the comparison of type graphs, cycles
      included ([is_equiv_sound]).  How many duplicates it finds is not
      stated.
    - .BTF.ext and line information: any bytes are refused or loaded whole
      ([btf_ext_new_sound]), and a line is found by address exactly if the
      information can be told apart by function ([prog_linfo_new_dissects]).
    - Printing: every definition comes behind those it needs
      ([dump_order_sorted]), and padding takes a member to its offset
      ([padding_reaches_member]).
    - User-space probes: the probes of a note section are found
      ([collect_finds_targets]), and over any sequence of attachments and
      detachments the events of a probe find its own specification, up to
      the first use of a list of ids that was freed
      ([usdt_probes_find_specs]).
    - Externs: the first line of a configuration that names an option decides
      and nothing else in the map changes ([kconfig_first_value]), places neither overlap nor waste room
      ([externs_placed]), and a successful load has resolved every variable
      to what it stands for ([externs_resolved]).
    - Liveness: under any interleaving with its producer the ring's consumer
      delivers every finished record within four of its own steps
      ([ring_delivers_eventually]).
    - Completeness of iteration ([dump_hash_complete], for any answers of
      the batch calls, and [print_map_complete]), lookup of symbols by address
      and name, sizes without wrap-around ([btf_resolve_size_exact]), the rows
      and bars of a printed histogram ([print_log2_hist_correct]).
    - Facts next to the theorems record where the code departs from what it
      means to do, on concrete input.

    ** Bounds and fuel

    Loops that C bounds by a constant or a counter are structural on it.
    Others take fuel: the inner loop of the ring consumer one round more
    than the bytes between consumer and producer, each record taking eight bytes
    or more, and its outer loop three rounds, the second of which
    finds nothing new while the producer is idle ([process_ring_delivers];
    [step] has no fuel); the BTF section loop [type_len + 1] rounds of
    twelve bytes or more; the attribute loop one round more than the bytes
    left; the binary search of the symbol tables one round more than the
    entries, its interval shrinking every time; the loops over a
    map's keys are bounded by the caller's room or by an argument, and the
    theorems hold for every bound above the number of keys.  Skipping modifiers and
    typedefs takes two rounds more than there are types, enough for every
    chain that ends, since none visits a type twice; the comparison of types
    takes more fuel than its function prototypes are nested; matching a
    member has one round per level of anonymous members, each of which takes
    one of the 64 places of [raw_spec]; the load of a bit-field doubles at
    most five times; [bpf_object__reloc_code] calls itself once per function
    appended, and has fuel for every program and one more.  In deduplication
    resolving an id takes one round per type and one more, the comparison of
    two graphs has fuel for every pair of types it can record, and a
    reference is followed through chains of distinct types.  The loops over
    sections of .BTF.ext have a round per eight bytes.  Ordering types for
    printing has fuel for every type at every rank of the hypothesis, the
    parser of probe arguments thirteen rounds for the twelve arguments a
    specification can hold.  Reading a configuration has one round more than
    the file has bytes, each line taking one or more.  A loop out of
    fuel has no result, so a theorem that there is a result includes
    termination.  The recursion
    of [btf__align_of], which the code does not bound, has its fuel as an
    argument, and the facts about it hold for any amount; collecting externs
    gives it one round more than there are types, as a deeper recursion has
    met a type twice and does not end.  The depth of BTF type resolution, 32,
    is the code's own.

    ** Hypotheses worth knowing

    Deduplication is proved for objects without a base and without .BTF.ext,
    whose chains of reference types end, and in which the definitions a
    forward declaration may stand for are all equivalent.  The order of
    printing is proved for ids within the object and types marked as
    referenced the way [btf_dump_mark_referenced] does.  User-space probes
    take what libelf reads, the mappings of the process and the results of
    attaching as arguments, addresses below 2^61, and memory for the strings
    of [sscanf].  Reading a configuration wants a text without NUL bytes and
    values other than a single quote, which has a fact of its own; lines longer
    than the buffer count as several, as [gzgets] reads them.  Resolving
    externs wants the BTF of the object, the kernel and its modules as it is
    loaded, without a type that contains itself except through a struct or
    union ([types_wf]), and an object that is loaded, not written out as a
    light skeleton.  Buffers that unbounded [fscanf] formats fill have the
    conditions that they are not overrun: names of at most 255 bytes in
    /proc/kallsyms ([name_ok]), and modes and paths that fit in
    /proc/PID/maps ([line_fits]); facts and findings show what happens
    otherwise.  The DNS responder wants the helper to resize the packet at
    hand.

    ** Not modelled

    System call wrappers, ELF access, skeletons and Go programs have no
    logic to verify here.  Of libbpf, what is left out is: copying types
    between BTF objects ([btf__add_type], [btf__add_btf]); printing data by
    its type; the register syntax of probe arguments on architectures other
    than x86-64; opening an ELF object, its names and options, creating maps
    and attaching programs (libbpf.c), among them the rewriting of the BTF
    sections of externs and the driver that runs the relocations of
    [CoreRelo] and [ProgLink] over the sections of a file, with its cache of
    candidates; the linker (linker.c), which merges ELF sections through
    libelf, and the generator of light skeletons (gen_loader.c).  The version
    of the running kernel and the BTF of its modules are arguments.  Messages,
    and what only prepares them ([bpf_core_format_spec]), are left out
    everywhere.
    Programs that cannot be compiled as they are in the repository
    (libbpfgo/http_filter, libbpfgo/netfilter) have no behaviour to model;
    okk/dnscache.c calls name conversions the repository does not contain. *)

From Stdlib Require Export ZArith Lia.
From stdpp Require Export base gmap sets list strings vector.

(** ** Machine integers

    A w-bit integer is a [Z]; every arithmetic result the C code stores in
    a w-bit variable is wrapped explicitly. *)

Declare Scope c_scope.
Delimit Scope c_scope with c.
#[export] Set Default Goal Selector "!".

Open Scope Z_scope.

Definition wrap (w x : Z) : Z := x mod 2 ^ w.

Abbreviation u8 := (wrap 8).
Abbreviation u16 := (wrap 16).
Abbreviation u32 := (wrap 32).
Abbreviation u64 := (wrap 64).

(** Two's-complement reading of the low [w] bits. *)
Definition swrap (w x : Z) : Z := (x + 2 ^ (w - 1)) mod 2 ^ w - 2 ^ (w - 1).

#[global] Arguments wrap : simpl never.
#[global] Arguments swrap : simpl never.

Abbreviation s32 := (swrap 32).
Abbreviation s64 := (swrap 64).

Abbreviation UINT32_MAX := 4294967295 (only parsing).
Abbreviation INT_MAX := 2147483647 (only parsing).
Abbreviation SIZE_MAX := 18446744073709551615 (only parsing).

(** The errno values the code returns negated. *)
Abbreviation ENOENT := 2 (only parsing).
Abbreviation E2BIG := 7 (only parsing).
Abbreviation ENOMEM := 12 (only parsing).
Abbreviation EEXIST := 17 (only parsing).
Abbreviation EINVAL := 22 (only parsing).
Abbreviation ENOTSUP := 95 (only parsing).

(** C truth values. *)
Definition bool_to_Z (b : bool) : Z := if b then 1 else 0.

(** ** Byte-addressed memory

    A memory object is the list of its bytes, a pointer into it is the
    offset from its start.  A load or store outside the object has no
    result: [None] is the undefined behaviour (or, for an eBPF program, the
    access the kernel verifier refuses). *)

Definition ld8 (m : list Z) (off : Z) : option Z :=
  if off <? 0 then None else m !! Z.to_nat off.

Definition st8 (m : list Z) (off v : Z) : option (list Z) :=
  if (0 <=? off) && (off <? Z.of_nat (length m))
  then Some (<[Z.to_nat off := u8 v]> m) else None.

(** Array subscripts: reading or writing outside the array has no result. *)
Definition aref {A} (l : list A) (i : Z) : option A :=
  if i <? 0 then None else l !! Z.to_nat i.

Definition aset {A} (l : list A) (i : Z) (v : A) : option (list A) :=
  if (0 <=? i) && (i <? Z.of_nat (length l)) then Some (<[Z.to_nat i := v]> l) else None.

(** Multi-byte accesses are little-endian, the byte order of the targets
    the programs are built for. *)
Definition ld16 (m : list Z) (off : Z) : option Z :=
  b0 ← ld8 m off; b1 ← ld8 m (off + 1); Some (b0 + 256 * b1).

Definition ld32 (m : list Z) (off : Z) : option Z :=
  lo ← ld16 m off; hi ← ld16 m (off + 2); Some (lo + 65536 * hi).

Definition st16 (m : list Z) (off v : Z) : option (list Z) :=
  m1 ← st8 m off v; st8 m1 (off + 1) (v / 256).

Definition st32 (m : list Z) (off v : Z) : option (list Z) :=
  m1 ← st16 m off v; st16 m1 (off + 2) (v / 65536).

(** [memcpy] of a whole byte string to [off]; [n] bytes read from [off]. *)
Fixpoint st_bytes (m : list Z) (off : Z) (bs : list Z) : option (list Z) :=
  match bs with
  | [] => Some m
  | b :: bs' => m1 ← st8 m off b; st_bytes m1 (off + 1) bs'
  end.

Fixpoint ld_bytes (m : list Z) (off : Z) (n : nat) : option (list Z) :=
  match n with
  | O => Some []
  | S n' => b ← ld8 m off; bs ← ld_bytes m (off + 1) n'; Some (b :: bs)
  end.

(** The bytes of a 32-bit word in memory. *)
Definition le32 (x : Z) : list Z := [u8 x; u8 (x / 256); u8 (x / 65536); u8 (x / 16777216)].

(** Byte-order conversions ([bpf_htons], [htonl], [bswap_16], [bswap_32]
    on a little-endian host). *)
Definition bswap16 (x : Z) : Z := u8 x * 256 + u8 (x / 256).

Definition bswap32 (x : Z) : Z :=
  bswap16 (u16 x) * 65536 + bswap16 (u16 (x / 65536)).

Abbreviation bpf_htons := bswap16 (only parsing).
Abbreviation bpf_ntohs := bswap16 (only parsing).
Abbreviation bpf_htonl := bswap32 (only parsing).
Abbreviation htons := bswap16 (only parsing).
Abbreviation ntohs := bswap16 (only parsing).
Abbreviation htonl := bswap32 (only parsing).

Definition is_byte (b : Z) : Prop := 0 <= b < 256.

Definition bytes_ok (m : list Z) : Prop := Forall is_byte m.

(** ** C strings: the bytes before the first NUL at or after an offset. *)

Fixpoint until_nul (l : list Z) : option (list Z) :=
  match l with
  | [] => None
  | b :: l' => if b =? 0 then Some [] else s ← until_nul l'; Some (b :: s)
  end.

Definition cstr (m : list Z) (off : Z) : option (list Z) :=
  if off <? 0 then None else until_nul (drop (Z.to_nat off) m).

(** [strcmp] on NUL-free byte strings (sign only, bytes compared as
    [unsigned char]). *)
Fixpoint strcmp (a b : list Z) : Z :=
  match a, b with
  | [], [] => 0
  | [], _ :: _ => -1
  | _ :: _, [] => 1
  | x :: a', y :: b' => if x =? y then strcmp a' b' else if x <? y then -1 else 1
  end.

Definition strneq0 (l : list Z) : Prop := Forall (λ b, b ≠ 0) l.

(** The bytes of a literal. *)
Definition lit (s : string) : list Z :=
  map (λ a, Z.of_nat (Ascii.nat_of_ascii a)) (String.list_ascii_of_string s).

(** ** Automation *)

Ltac pow2 := change (2 ^ 8) with 256 in *; change (2 ^ 16) with 65536 in *;
  change (2 ^ 32) with 4294967296 in *;
  change (2 ^ 64) with 18446744073709551616 in *;
  change (2 ^ (32 - 1)) with 2147483648 in *;
  change (2 ^ (64 - 1)) with 9223372036854775808 in *.

(** Unfold the machine-width operations and leave the goal to [lia]. *)
Ltac width_lia := unfold wrap, swrap, is_byte in *; pow2; Z.to_euclidean_division_equations; lia.

(** Split the boolean comparisons of the goal and the hypotheses. *)
Ltac zbool :=
  repeat match goal with
  | H : (_ && _)%bool = true |- _ => apply andb_true_iff in H as [? ?]
  | H : (_ || _)%bool = false |- _ => apply orb_false_iff in H as [? ?]
  | H : (_ <? _) = true |- _ => apply Z.ltb_lt in H
  | H : (_ <? _) = false |- _ => apply Z.ltb_ge in H
  | H : (_ <=? _) = true |- _ => apply Z.leb_le in H
  | H : (_ <=? _) = false |- _ => apply Z.leb_gt in H
  | H : (_ =? _) = true |- _ => apply Z.eqb_eq in H
  | H : (_ =? _) = false |- _ => apply Z.eqb_neq in H
  | H : negb _ = true |- _ => apply negb_true_iff in H
  | H : negb _ = false |- _ => apply negb_false_iff in H
  end.

(** Case analysis on the test of the goal's outermost conditional. *)
Ltac zcase :=
  match goal with
  | |- context [if ?b then _ else _] => destruct b eqn:?; zbool
  end.

(** Peel the binds of a hypothesis that a computation succeeded. *)
Ltac inv_bind H :=
  repeat (apply bind_Some in H as (? & ? & H)).

(** ** Integer lemmas *)

Lemma wrap_range w x : 0 <= w -> 0 <= wrap w x < 2 ^ w.
Proof. intros. unfold wrap. apply Z.mod_pos_bound, Z.pow_pos_nonneg; lia. Qed.

Lemma wrap_small w x : 0 <= x < 2 ^ w -> wrap w x = x.
Proof. intros. unfold wrap. by apply Z.mod_small. Qed.

Lemma wrap_wrap w x : wrap w (wrap w x) = wrap w x.
Proof. unfold wrap. apply Zmod_mod. Qed.

Lemma swrap_small w x :
  0 < w -> - 2 ^ (w - 1) <= x < 2 ^ (w - 1) -> swrap w x = x.
Proof.
  intros Hw Hx. unfold swrap.
  assert (2 ^ w = 2 * 2 ^ (w - 1)) as E.
  { rewrite <- Z.pow_succ_r by lia. f_equal; lia. }
  rewrite Z.mod_small; lia.
Qed.

Lemma land_65535 x : Z.land x 65535 = x mod 65536.
Proof. change 65535 with (Z.ones 16). by rewrite Z.land_ones. Qed.

Lemma bswap16_invol x : 0 <= x < 65536 -> bswap16 (bswap16 x) = x.
Proof. intros. unfold bswap16. width_lia. Qed.

Lemma bswap16_range x : 0 <= bswap16 x < 65536.
Proof. unfold bswap16. width_lia. Qed.

Lemma bswap16_inj x y :
  0 <= x < 65536 -> 0 <= y < 65536 -> bswap16 x = bswap16 y -> x = y.
Proof. intros Hx Hy E. rewrite <- (bswap16_invol x), <- (bswap16_invol y), E; done. Qed.

Lemma bswap32_range x : 0 <= bswap32 x < 4294967296.
Proof.
  unfold bswap32. pose proof (bswap16_range (u16 x)).
  pose proof (bswap16_range (u16 (x / 65536))). lia.
Qed.

Lemma bswap32_invol x : 0 <= x < 4294967296 -> bswap32 (bswap32 x) = x.
Proof.
  intros Hx. unfold bswap32.
  pose proof (bswap16_range (u16 x)) as H1.
  pose proof (bswap16_range (u16 (x / 65536))) as H2.
  replace (u16 (bswap16 (u16 x) * 65536 + bswap16 (u16 (x / 65536))))
    with (bswap16 (u16 (x / 65536))) by width_lia.
  replace (u16 ((bswap16 (u16 x) * 65536 + bswap16 (u16 (x / 65536))) / 65536))
    with (bswap16 (u16 x)) by width_lia.
  rewrite !bswap16_invol by width_lia. width_lia.
Qed.

(** The four bytes of a 32-bit value and of its byte swap. *)
Lemma byte_split x : exists b0 b1 b2 b3 q,
  is_byte b0 /\ is_byte b1 /\ is_byte b2 /\ is_byte b3 /\
  x = b0 + 256 * b1 + 65536 * b2 + 16777216 * b3 + 4294967296 * q.
Proof.
  exists (x mod 256), (x / 256 mod 256), (x / 65536 mod 256), (x / 16777216 mod 256), (x / 4294967296).
  unfold is_byte. repeat split; try (apply Z.mod_pos_bound; lia).
  Z.to_euclidean_division_equations; lia.
Qed.
Lemma bswap32_bytes x : 
  u8 (bswap32 x) = u8 (x / 16777216) /\ u8 (bswap32 x / 256) = u8 (x / 65536) /\
  u8 (bswap32 x / 65536) = u8 (x / 256) /\ u8 (bswap32 x / 65536 / 256) = u8 x.
Proof.
  destruct (byte_split x) as (b0 & b1 & b2 & b3 & q & H0 & H1 & H2 & H3 & ->).
  set (x := _ + 4294967296 * q).
  assert (E0 : u8 x = b0) by (unfold x; width_lia).
  assert (E1 : u8 (x / 256) = b1) by (unfold x; width_lia).
  assert (E2 : u8 (x / 65536) = b2) by (unfold x; width_lia).
  assert (E3 : u8 (x / 16777216) = b3) by (unfold x; width_lia).
  assert (E : bswap32 x = b0 * 16777216 + b1 * 65536 + b2 * 256 + b3).
  { unfold bswap32, bswap16.
    replace (u8 (u16 x)) with b0 by (unfold x; width_lia).
    replace (u8 (u16 x / 256)) with b1 by (unfold x; width_lia).
    replace (u8 (u16 (x / 65536))) with b2 by (unfold x; width_lia).
    replace (u8 (u16 (x / 65536) / 256)) with b3 by (unfold x; width_lia). lia. }
  rewrite E, E0, E1, E2, E3. clearbody x. clear E E0 E1 E2 E3.
  repeat split; width_lia.
Qed.

(** ** Load/store lemmas *)

Lemma ld8_Some m off : 0 <= off < Z.of_nat (length m) -> is_Some (ld8 m off).
Proof.
  intros. unfold ld8. destruct (off <? 0) eqn:?; zbool; [lia|].
  apply lookup_lt_is_Some. lia.
Qed.

Lemma aref_Some {A} (l : list A) i : 0 <= i < Z.of_nat (length l) -> is_Some (aref l i).
Proof.
  intros. unfold aref. destruct (i <? 0) eqn:?; zbool; [lia|].
  apply lookup_lt_is_Some. lia.
Qed.

Lemma aref_nat {A} (l : list A) (n : nat) : aref l (Z.of_nat n) = l !! n.
Proof. unfold aref. destruct (_ <? 0) eqn:?; zbool; [lia|]. by rewrite Nat2Z.id. Qed.

Lemma aset_Some {A} (l : list A) i v :
  0 <= i < Z.of_nat (length l) -> aset l i v = Some (<[Z.to_nat i := v]> l).
Proof. intros. unfold aset. zcase; [done|lia]. Qed.

Lemma aset_nat {A} (l : list A) (n : nat) v :
  (n < length l)%nat -> aset l (Z.of_nat n) v = Some (<[n := v]> l).
Proof. intros. rewrite aset_Some by lia. by rewrite Nat2Z.id. Qed.

Lemma aset_inv {A} (l : list A) i v l' : aset l i v = Some l' ->
  0 <= i < Z.of_nat (length l) /\ l' = <[Z.to_nat i := v]> l.
Proof. unfold aset. zcase; [|done]. intros [= <-]. split; [lia|done]. Qed.

Lemma aref_aset_eq {A} (l : list A) i v l' : aset l i v = Some l' -> aref l' i = Some v.
Proof.
  intros [Hi ->]%aset_inv. unfold aref. destruct (Z.ltb_spec i 0); [lia|].
  apply list_lookup_insert_eq. lia.
Qed.

Lemma aref_aset_ne {A} (l : list A) i j v l' : aset l i v = Some l' -> i <> j -> aref l' j = aref l j.
Proof.
  intros [Hi ->]%aset_inv Hne. unfold aref. destruct (Z.ltb_spec j 0); [done|].
  apply list_lookup_insert_ne. lia.
Qed.

Lemma aref_bounds {A} (l : list A) i v : aref l i = Some v -> 0 <= i < Z.of_nat (length l).
Proof.
  unfold aref. destruct (Z.ltb_spec i 0); [done|]. intros Hl%lookup_lt_Some. lia.
Qed.

Lemma aset_defined {A} (l : list A) i v x : aref l i = Some v -> exists l', aset l i x = Some l'.
Proof. intros H%aref_bounds. rewrite aset_Some by lia. by eexists. Qed.

Lemma aref_app {A} (l1 l2 : list A) i :
  aref (l1 ++ l2) i = if i <? Z.of_nat (length l1) then aref l1 i else aref l2 (i - Z.of_nat (length l1)).
Proof.
  unfold aref. destruct (Z.ltb_spec i 0), (Z.ltb_spec i (Z.of_nat (length l1))); try done; try lia.
  - rewrite lookup_app_l by lia. done.
  - destruct (Z.ltb_spec (i - Z.of_nat (length l1)) 0); [lia|]. rewrite lookup_app_r by lia. f_equal. lia.
Qed.

Lemma aref_nil {A} i : aref (@nil A) i = None.
Proof. unfold aref. by destruct (i <? 0). Qed.

Lemma aref_elem {A} (l : list A) x : x ∈ l <-> exists i, aref l i = Some x.
Proof.
  split.
  - intros [n Hn]%list_elem_of_lookup_1. exists (Z.of_nat n). by rewrite aref_nat.
  - intros [i Hi]. unfold aref in Hi. destruct (i <? 0); [done|]. by eapply list_elem_of_lookup_2.
Qed.

Lemma aref_map {A B} (f : A -> B) l i : aref (map f l) i = f <$> aref l i.
Proof. unfold aref. destruct (i <? 0); [done|]. apply list_lookup_fmap. Qed.

Lemma ld8_bounds m off v : ld8 m off = Some v -> 0 <= off < Z.of_nat (length m).
Proof.
  unfold ld8. destruct (off <? 0) eqn:?; [done|]. intros H%lookup_lt_Some. zbool. lia.
Qed.

Lemma ld8_byte m off v : bytes_ok m -> ld8 m off = Some v -> is_byte v.
Proof.
  unfold ld8. intros Hm. destruct (off <? 0); [done|]. intros H.
  by eapply Forall_lookup_1 in Hm.
Qed.

Lemma ld16_Some m off : 0 <= off -> off + 2 <= Z.of_nat (length m) -> is_Some (ld16 m off).
Proof.
  intros. unfold ld16.
  destruct (ld8_Some m off) as [? ->]; [lia|].
  destruct (ld8_Some m (off + 1)) as [? ->]; [lia|]. by eexists.
Qed.

Lemma ld16_bounds m off v :
  ld16 m off = Some v -> 0 <= off /\ off + 2 <= Z.of_nat (length m).
Proof.
  unfold ld16. intros H. inv_bind H.
  apply ld8_bounds in H0, H1. lia.
Qed.

Lemma ld16_range m off v : bytes_ok m -> ld16 m off = Some v -> 0 <= v < 65536.
Proof.
  unfold ld16. intros Hm H. inv_bind H. simplify_eq.
  apply (ld8_byte _ _ _ Hm) in H0, H1. width_lia.
Qed.

Lemma ld32_Some m off : 0 <= off -> off + 4 <= Z.of_nat (length m) -> is_Some (ld32 m off).
Proof.
  intros. unfold ld32.
  destruct (ld16_Some m off) as [? ->]; [lia..|].
  destruct (ld16_Some m (off + 2)) as [? ->]; [lia..|]. by eexists.
Qed.

Lemma ld32_bounds m off v :
  ld32 m off = Some v -> 0 <= off /\ off + 4 <= Z.of_nat (length m).
Proof.
  unfold ld32. intros H. inv_bind H. apply ld16_bounds in H0, H1. lia.
Qed.

Lemma ld32_range m off v : bytes_ok m -> ld32 m off = Some v -> 0 <= v < 4294967296.
Proof.
  unfold ld32. intros Hm H. inv_bind H. simplify_eq.
  apply (ld16_range _ _ _ Hm) in H0, H1. lia.
Qed.

Lemma st8_Some m off v :
  0 <= off < Z.of_nat (length m) -> st8 m off v = Some (<[Z.to_nat off := u8 v]> m).
Proof. intros. unfold st8. zcase; [done|lia]. Qed.

Lemma st8_inv m off v m' :
  st8 m off v = Some m' ->
  0 <= off < Z.of_nat (length m) /\ m' = <[Z.to_nat off := u8 v]> m.
Proof. unfold st8. zcase; [|done]. intros [= <-]. split; [lia|done]. Qed.

Lemma st8_length m off v m' : st8 m off v = Some m' -> length m' = length m.
Proof. intros [_ ->]%st8_inv. apply length_insert. Qed.

Lemma st8_bytes_ok m off v m' : bytes_ok m -> st8 m off v = Some m' -> bytes_ok m'.
Proof.
  intros Hm [_ ->]%st8_inv. apply Forall_insert; [done|]. width_lia.
Qed.

Lemma st_bytes_length bs : forall m off m',
  st_bytes m off bs = Some m' -> length m' = length m.
Proof.
  induction bs as [|b bs IH]; simpl; intros m off m' H; [by simplify_eq|].
  inv_bind H. apply IH in H. apply st8_length in H0. congruence.
Qed.

Lemma st_bytes_Some bs : forall m off,
  0 <= off -> off + Z.of_nat (length bs) <= Z.of_nat (length m) ->
  is_Some (st_bytes m off bs).
Proof.
  induction bs as [|b bs IH]; simpl; intros m off H1 H2; [by eexists|].
  rewrite st8_Some by lia. simpl. apply IH; [lia|].
  rewrite length_insert. lia.
Qed.

(** A [memcpy] replaces exactly the window it is told to. *)
Lemma st_bytes_app bs : forall pre mid post,
  length mid = length bs -> bytes_ok bs ->
  st_bytes (pre ++ mid ++ post) (Z.of_nat (length pre)) bs = Some (pre ++ bs ++ post).
Proof.
  induction bs as [|b bs IH]; intros pre mid post Hl Hb.
  { destruct mid; [|done]. done. }
  destruct mid as [|x mid]; [done|]. simpl in Hl. injection Hl as Hl.
  inversion Hb as [|? ? Hb1 Hb2]; subst. cbn [st_bytes].
  rewrite st8_Some by (rewrite length_app; simpl; lia). cbn [mbind option_bind].
  rewrite Nat2Z.id, insert_app_r_alt by lia.
  rewrite Nat.sub_diag. simpl. rewrite (wrap_small 8) by (pow2; done).
  replace (pre ++ b :: mid ++ post) with ((pre ++ [b]) ++ mid ++ post)
    by (by rewrite <- app_assoc).
  replace (Z.of_nat (length pre) + 1) with (Z.of_nat (length (pre ++ [b])))
    by (rewrite length_app; simpl; lia).
  rewrite IH by done. by rewrite <- app_assoc.
Qed.

Lemma ld_bytes_app bs : forall pre post,
  ld_bytes (pre ++ bs ++ post) (Z.of_nat (length pre)) (length bs) = Some bs.
Proof.
  induction bs as [|b bs IH]; intros pre post; [done|]. cbn [ld_bytes length].
  replace (ld8 (pre ++ (b :: bs) ++ post) (Z.of_nat (length pre))) with (Some b).
  2: { unfold ld8. zcase; [lia|]. rewrite Nat2Z.id, lookup_app_r by lia.
       by rewrite Nat.sub_diag. }
  cbn [mbind option_bind].
  specialize (IH (pre ++ [b]) post).
  rewrite <- app_assoc, length_app in IH. simpl in IH.
  replace (Z.of_nat (length pre) + 1) with (Z.of_nat (length pre + 1)) by lia.
  simpl. by rewrite IH.
Qed.

(** Concrete byte strings. *)
Lemma bytes_ok_dec m : forallb (λ b, (0 <=? b) && (b <? 256)) m = true -> bytes_ok m.
Proof.
  intros H. apply Forall_forall. intros b Hb. rewrite forallb_forall in H.
  specialize (H b ltac:(by apply list_elem_of_In)). zbool. split; lia.
Qed.

(** ** String lemmas *)

Lemma until_nul_app s rest : strneq0 s -> until_nul (s ++ 0 :: rest) = Some s.
Proof.
  induction s as [|b s IH]; [done|]. intros Hs. inversion Hs; subst. simpl.
  destruct (b =? 0) eqn:?; zbool; [done|]. by rewrite IH.
Qed.

Lemma until_nul_inv l s :
  until_nul l = Some s -> strneq0 s /\ exists rest, l = s ++ 0 :: rest.
Proof.
  revert s. induction l as [|b l IH]; intros s; simpl; [done|].
  destruct (b =? 0) eqn:E; zbool.
  - intros [= <-]. split; [constructor|]. exists l. by subst.
  - intros (s' & H & [= <-])%bind_Some. destruct (IH _ H) as (Hs & rest & ->).
    split; [by constructor|]. by exists rest.
Qed.

Lemma strcmp_eq a b : strcmp a b = 0 <-> a = b.
Proof.
  revert b. induction a as [|x a IH]; intros [|y b]; simpl; split; try done.
  - destruct (x =? y) eqn:?; zbool; [|by destruct (x <? y)].
    intros ->%IH. by subst.
  - intros [= -> ->]. rewrite Z.eqb_refl. by apply IH.
Qed.

Create HintDb mem.
#[export] Hint Resolve ld8_Some ld16_Some ld32_Some st_bytes_Some : mem.
#[export] Hint Resolve st8_bytes_ok ld8_byte ld16_range ld32_range : mem.
