(* ===== verification/BpfMap.v ===== *)
(** * The BPF map interface

    The eBPF programs keep their state in kernel maps and reach it through
    the helpers [bpf_map_lookup_elem], [bpf_map_update_elem] and
    [bpf_map_delete_elem].  The kernel's implementation is not part of this
    repository: the helpers are the operations of a type class and what
    their documentation promises (src/plugin/ciliumebpf/headers/
    bpf_helper_defs.h) are the laws of two further classes, one for hash
    maps and one for array maps.  Every program's theorems are proved
    against the interface.  [Hmap] and [Amap] are two concrete maps that
    satisfy the laws; they serve to evaluate the programs on examples. *)

From S2P Require Import Prelude.

(** Update flags. *)
Abbreviation BPF_ANY := 0 (only parsing).
Abbreviation BPF_NOEXIST := 1 (only parsing).
Abbreviation BPF_EXIST := 2 (only parsing).

(** [bpf_map_store m k v] is the map after a program wrote [v] through the
    pointer [bpf_map_lookup_elem] returned for [k]. *)
Class BpfMapOps (K V M : Type) := {
  bpf_map_lookup_elem : M -> K -> option V;
  bpf_map_update_elem : M -> K -> V -> Z -> Z * M;
  bpf_map_delete_elem : M -> K -> Z * M;
  bpf_map_store : M -> K -> V -> M;
}.

(** Two map states are equivalent when no lookup tells them apart. *)
Definition map_equiv {K V M} `{!BpfMapOps K V M} (m1 m2 : M) : Prop :=
  forall k, bpf_map_lookup_elem m1 k = bpf_map_lookup_elem m2 k.

Class BpfHashLaws (K V M : Type) `{!EqDecision K} `{!BpfMapOps K V M} := {
  hash_update_ok (m : M) (k k' : K) (v : V) fl :
    fst (bpf_map_update_elem m k v fl) = 0 ->
    bpf_map_lookup_elem (snd (bpf_map_update_elem m k v fl)) k'
    = if decide (k = k') then Some v else bpf_map_lookup_elem m k';
  hash_update_err (m : M) (k k' : K) (v : V) fl :
    fst (bpf_map_update_elem m k v fl) <> 0 ->
    bpf_map_lookup_elem (snd (bpf_map_update_elem m k v fl)) k'
    = bpf_map_lookup_elem m k';
  hash_update_noexist (m : M) (k : K) (v : V) :
    is_Some (bpf_map_lookup_elem m k) ->
    fst (bpf_map_update_elem m k v BPF_NOEXIST) = - EEXIST;
  hash_delete (m : M) (k k' : K) :
    bpf_map_lookup_elem (snd (bpf_map_delete_elem m k)) k'
    = if decide (k = k') then None else bpf_map_lookup_elem m k';
  hash_delete_ret (m : M) (k : K) :
    fst (bpf_map_delete_elem m k) = 0 <-> is_Some (bpf_map_lookup_elem m k);
  hash_store (m : M) (k k' : K) (v : V) :
    is_Some (bpf_map_lookup_elem m k) ->
    bpf_map_lookup_elem (bpf_map_store m k v) k'
    = if decide (k = k') then Some v else bpf_map_lookup_elem m k';
}.

(** An array map of [n] elements: every index below [n] is always present
    and can always be overwritten. *)
Class BpfArrayLaws (n : Z) (V M : Type) `{!BpfMapOps Z V M} := {
  array_lookup (m : M) k :
    is_Some (bpf_map_lookup_elem m k) <-> 0 <= k < n;
  array_update (m : M) k k' v :
    0 <= k < n ->
    bpf_map_lookup_elem (snd (bpf_map_update_elem m k v BPF_ANY)) k'
    = if decide (k = k') then Some v else bpf_map_lookup_elem m k';
  array_update_oob (m : M) k k' v :
    ~ (0 <= k < n) ->
    bpf_map_lookup_elem (snd (bpf_map_update_elem m k v BPF_ANY)) k'
    = bpf_map_lookup_elem m k';
}.

(** The helper the tracing programs share: look a key up, and if it is
    absent try to insert the initial value first.  The pointer returned is
    the value's slot, [None] is NULL. *)
Definition bpf_map_lookup_or_try_init {K V M} `{!BpfMapOps K V M}
    (map : M) (key : K) (init : V) : option V * M :=
  match bpf_map_lookup_elem map key with
  | Some val => (Some val, map)
  | None =>
      let '(err, map) := bpf_map_update_elem map key init BPF_NOEXIST in
      if negb (err =? 0) && negb (err =? - EEXIST) then (None, map)
      else (bpf_map_lookup_elem map key, map)
  end.

(** ** Concrete maps *)

Record Hmap (K V : Type) `{Countable K} := mkHmap {
  hm_max : nat;
  hm_entries : gmap K V;
}.
Arguments mkHmap {K V _ _} _ _.
Arguments hm_max {K V _ _} _.
Arguments hm_entries {K V _ _} _.

#[export] Instance hmap_ops {K V} `{Countable K} : BpfMapOps K V (Hmap K V) := {
  bpf_map_lookup_elem m k := hm_entries m !! k;
  bpf_map_update_elem m k v fl :=
    match hm_entries m !! k with
    | Some _ =>
        if fl =? BPF_NOEXIST then (- EEXIST, m)
        else (0, mkHmap (hm_max m) (<[k := v]> (hm_entries m)))
    | None =>
        if fl =? BPF_EXIST then (- ENOENT, m)
        else if (hm_max m <=? size (hm_entries m))%nat then (- E2BIG, m)
        else (0, mkHmap (hm_max m) (<[k := v]> (hm_entries m)))
    end;
  bpf_map_delete_elem m k :=
    match hm_entries m !! k with
    | Some _ => (0, mkHmap (hm_max m) (delete k (hm_entries m)))
    | None => (- ENOENT, m)
    end;
  bpf_map_store m k v := mkHmap (hm_max m) (<[k := v]> (hm_entries m));
}.

Record Amap (n : nat) (V : Type) := mkAmap { am_elems : vec V n }.
Arguments mkAmap {n V} _.
Arguments am_elems {n V} _.

Definition amap_lookup {n V} (m : Amap n V) (k : Z) : option V :=
  if k <? 0 then None else vec_to_list (am_elems m) !! Z.to_nat k.

Definition amap_insert {n V} (m : Amap n V) (k : Z) (v : V) : Amap n V :=
  match decide (Z.to_nat k < n)%nat with
  | left H => mkAmap (vinsert (nat_to_fin H) v (am_elems m))
  | right _ => m
  end.

#[export] Instance amap_ops {n V} : BpfMapOps Z V (Amap n V) := {
  bpf_map_lookup_elem := amap_lookup;
  bpf_map_update_elem m k v fl :=
    if fl =? BPF_NOEXIST then (- EEXIST, m)
    else if (k <? 0) || (Z.of_nat n <=? k) then (- E2BIG, m)
    else (0, amap_insert m k v);
  bpf_map_delete_elem m k := (- EINVAL, m);
  bpf_map_store := amap_insert;
}.

(** ** The concrete maps satisfy the laws *)

#[export] Instance map_equiv_equivalence {K V M} `{!BpfMapOps K V M} :
  Equivalence (map_equiv (K := K) (V := V) (M := M)).
Proof.
  split; unfold map_equiv.
  - by intros x k.
  - by intros x y H k.
  - intros x y z H1 H2 k. by rewrite H1, H2.
Qed.

#[export] Instance hmap_laws {K V} `{Countable K} : BpfHashLaws K V (Hmap K V).
Proof.
  split; simpl.
  - intros m k k' v fl. repeat (case_match; simpl; try done); intros _.
    all: by subst; simplify_map_eq.
  - intros m k k' v fl. repeat (case_match; simpl; try done).
  - intros m k v [? ->]. done.
  - intros m k k'. destruct (hm_entries m !! k) eqn:E; simpl.
    + by rewrite lookup_delete.
    + case_decide; [by subst|done].
  - intros m k. destruct (hm_entries m !! k) eqn:E; simpl.
    + split; [by eexists|done].
    + split; [done|]. by intros [? ?].
  - intros m k k' v _. by rewrite lookup_insert.
Qed.

Lemma amap_insert_lookup {n V} (m : Amap n V) k k' v :
  0 <= k < Z.of_nat n ->
  amap_lookup (amap_insert m k v) k'
  = if decide (k = k') then Some v else amap_lookup m k'.
Proof.
  intros Hk. unfold amap_lookup, amap_insert.
  destruct (decide _) as [H|H]; [|lia]. simpl.
  destruct (k' <? 0) eqn:?; zbool.
  { rewrite decide_False by lia. done. }
  rewrite vec_to_list_insert, fin_to_nat_to_fin.
  rewrite list_lookup_insert.
  destruct (decide (k = k')) as [->|Hne].
  - rewrite decide_True; [done|]. split; [done|]. by rewrite length_vec_to_list.
  - rewrite decide_False; [done|]. lia.
Qed.

#[export] Instance amap_laws {n : nat} {V} : BpfArrayLaws (Z.of_nat n) V (Amap n V).
Proof.
  split; simpl.
  - intros m k. unfold amap_lookup. destruct (k <? 0) eqn:?; zbool.
    + split; [by intros [? ?]|lia].
    + rewrite lookup_lt_is_Some, length_vec_to_list. lia.
  - intros m k k' v Hk. destruct ((k <? 0) || (Z.of_nat n <=? k)) eqn:E.
    + apply orb_true_iff in E as [?|?]; zbool; lia.
    + simpl. by apply amap_insert_lookup.
  - intros m k k' v Hk. destruct ((k <? 0) || (Z.of_nat n <=? k)) eqn:E; [done|].
    zbool. lia.
Qed.

(** ** Consequences of the laws *)

Section HashFacts.
Context {K V M : Type} `{!EqDecision K} `{!BpfMapOps K V M} `{!BpfHashLaws K V M}.
Implicit Types (m : M) (k : K) (v : V).

(** After [bpf_map_lookup_or_try_init] either the slot returned is the
    stored value of the key and every other key is as before, or NULL was
    returned and the map is unchanged. *)
Lemma lookup_or_try_init_spec m k init :
  let '(r, m') := bpf_map_lookup_or_try_init m k init in
  match r with
  | Some v =>
      v = default init (bpf_map_lookup_elem m k) /\
      forall k', bpf_map_lookup_elem m' k'
            = if decide (k = k') then Some v else bpf_map_lookup_elem m k'
  | None => bpf_map_lookup_elem m k = None /\ map_equiv m' m
  end.
Proof.
  unfold bpf_map_lookup_or_try_init.
  destruct (bpf_map_lookup_elem m k) as [val|] eqn:E.
  { split; [done|]. intros k'. case_decide; congruence. }
  destruct (bpf_map_update_elem m k init BPF_NOEXIST) as [err m'] eqn:U.
  pose proof (hash_update_ok m k) as Hok. pose proof (hash_update_err m k) as Herr.
  specialize (fun k' => Hok k' init BPF_NOEXIST) as Hok.
  specialize (fun k' => Herr k' init BPF_NOEXIST) as Herr.
  rewrite U in Hok, Herr. simpl in Hok, Herr.
  destruct (negb (err =? 0) && negb (err =? - EEXIST)) eqn:B; zbool.
  - split; [done|]. intros k'. by apply Herr.
  - destruct (decide (err = 0)) as [->|Hne].
    + rewrite (Hok k) by done. rewrite decide_True by done.
      split; [done|]. intros k'. by rewrite Hok.
    + rewrite (Herr k), E by done. split; [done|]. intros k'. by apply Herr.
Qed.

Lemma hash_delete_equiv m1 m2 k :
  map_equiv m1 m2 ->
  map_equiv (snd (bpf_map_delete_elem m1 k)) (snd (bpf_map_delete_elem m2 k)).
Proof. intros H k'. rewrite !hash_delete. by case_decide. Qed.

#[export] Instance bpf_map_lookup_proper :
  Proper (map_equiv ==> (=) ==> (=)) (bpf_map_lookup_elem (K := K) (V := V) (M := M)).
Proof. intros m1 m2 H k ? <-. apply H. Qed.
End HashFacts.

