(* ===== verification/CString.v ===== *)
(** * The C library's number parsing, on NUL-terminated strings

    A pointer into a C string is the suffix it points at, without the
    terminating NUL: [[]] is a pointer to the NUL itself, two pointers into
    the same string are equal iff their suffixes have the same length, and
    [p + 1] is the tail.  [strtol] and [strtoul] are the C standard's, base
    10, on an LP64 target: value, end pointer and [errno] (0 or ERANGE). *)

From S2P Require Import Prelude.

Definition ERANGE : Z := 34.
Definition LONG_MAX : Z := 9223372036854775807.
Definition LONG_MIN : Z := -9223372036854775808.
Definition ULONG_MAX : Z := 18446744073709551615.

Definition isspace (c : Z) : bool := (c =? 32) || ((9 <=? c) && (c <=? 13)).
Definition isdigit (c : Z) : bool := (48 <=? c) && (c <=? 57).

Fixpoint skip_space (s : list Z) : list Z :=
  match s with
  | c :: s' => if isspace c then skip_space s' else s
  | [] => []
  end.

(** The longest prefix of digits, its value on top of [acc], how many
    there were, and the rest. *)
Fixpoint digits (acc : Z) (n : nat) (s : list Z) : Z * nat * list Z :=
  match s with
  | c :: s' => if isdigit c then digits (acc * 10 + (c - 48)) (S n) s' else (acc, n, s)
  | [] => (acc, n, [])
  end.

Definition sign (s : list Z) : bool * list Z :=
  match s with
  | c :: s' => if c =? 43 then (false, s') else if c =? 45 then (true, s') else (false, s)
  | [] => (false, [])
  end.

Definition strtol (s : list Z) : Z * list Z * Z :=
  let '(neg, s2) := sign (skip_space s) in
  let '(v, n, rest) := digits 0 0 s2 in
  if bool_decide (n = 0%nat) then (0, s, 0) else
  let v := if neg : bool then - v else v in
  if v >? LONG_MAX then (LONG_MAX, rest, ERANGE)
  else if v <? LONG_MIN then (LONG_MIN, rest, ERANGE)
  else (v, rest, 0).

Definition strtoul (s : list Z) : Z * list Z * Z :=
  let '(neg, s2) := sign (skip_space s) in
  let '(v, n, rest) := digits 0 0 s2 in
  if bool_decide (n = 0%nat) then (0, s, 0) else
  if v >? ULONG_MAX then (ULONG_MAX, rest, ERANGE)
  else (u64 (if neg : bool then - v else v), rest, 0).

(** ** Decimal literals *)

Definition dec_value (ds : list Z) : Z := fold_left (fun acc c => acc * 10 + (c - 48)) ds 0.

(** A nonempty string of digits. *)
Definition numeral (ds : list Z) : Prop := ds <> [] /\ Forall (fun c => isdigit c = true) ds.

(** A string that does not continue a number. *)
Definition stops (s : list Z) : Prop :=
  match s with c :: _ => isdigit c = false | [] => True end.

Lemma isdigit_range c : isdigit c = true -> 48 <= c <= 57.
Proof. unfold isdigit. intros ?; zbool. lia. Qed.

Lemma digits_app ds rest : forall acc n,
  Forall (fun c => isdigit c = true) ds -> stops rest ->
  digits acc n (ds ++ rest)
  = (fold_left (fun acc c => acc * 10 + (c - 48)) ds acc, (n + length ds)%nat, rest).
Proof.
  induction ds as [|c ds IH]; intros acc n Hd Hr; simpl.
  - rewrite Nat.add_0_r. destruct rest as [|c rest]; simpl in *; [done|]. by rewrite Hr.
  - inversion Hd; subst. rewrite H1, IH by done. do 2 f_equal. lia.
Qed.

Lemma fold_dec_nonneg ds : forall acc,
  0 <= acc -> Forall (fun c => isdigit c = true) ds ->
  0 <= fold_left (fun acc c => acc * 10 + (c - 48)) ds acc.
Proof.
  induction ds as [|c ds IH]; intros acc Ha Hd; simpl; [done|].
  inversion Hd; subst. apply isdigit_range in H1. apply IH; [lia|done].
Qed.

Lemma dec_value_nonneg ds : numeral ds -> 0 <= dec_value ds.
Proof. intros [_ H]. by apply fold_dec_nonneg. Qed.

Lemma numeral_prefix ds rest :
  numeral ds -> sign (skip_space (ds ++ rest)) = (false, ds ++ rest).
Proof.
  intros [Hn Hd]. destruct ds as [|c ds]; [done|]. inversion Hd; subst.
  apply isdigit_range in H1. simpl.
  replace (isspace c) with false by (symmetry; unfold isspace; lia). unfold sign.
  zcase; [lia|]. zcase; [lia|]. done.
Qed.

(** [strtol] and [strtoul] on a numeral in range: its value, and the end
    pointer right behind it. *)
Lemma strtol_numeral ds rest :
  numeral ds -> stops rest -> dec_value ds <= LONG_MAX ->
  strtol (ds ++ rest) = (dec_value ds, rest, 0).
Proof.
  intros Hn Hr Hv. pose proof (dec_value_nonneg ds Hn). unfold strtol.
  rewrite numeral_prefix by done. destruct Hn as [Hne Hd].
  rewrite digits_app by done. simpl. fold (dec_value ds).
  rewrite bool_decide_false by (by destruct ds).
  unfold LONG_MAX, LONG_MIN in *. zcase; [lia|]. by zcase; [lia|].
Qed.

Lemma strtoul_numeral ds rest :
  numeral ds -> stops rest -> dec_value ds <= ULONG_MAX ->
  strtoul (ds ++ rest) = (dec_value ds, rest, 0).
Proof.
  intros Hn Hr Hv. pose proof (dec_value_nonneg ds Hn). unfold strtoul.
  rewrite numeral_prefix by done. destruct Hn as [Hne Hd].
  rewrite digits_app by done. simpl. fold (dec_value ds).
  rewrite bool_decide_false by (by destruct ds).
  unfold ULONG_MAX in *. zcase; [lia|]. by rewrite wrap_small by (pow2; lia).
Qed.

(** The end pointer is a suffix of the string: no read past the NUL. *)
Lemma skip_space_suffix s : skip_space s `suffix_of` s.
Proof.
  induction s as [|c s IH]; simpl; [done|]. destruct (isspace c); [|done].
  by apply suffix_cons_r.
Qed.

Lemma digits_suffix s : forall acc n, (digits acc n s).2 `suffix_of` s.
Proof.
  induction s as [|c s IH]; intros acc n; simpl; [done|]. destruct (isdigit c); [|done].
  by apply suffix_cons_r.
Qed.

Lemma sign_suffix s : (sign s).2 `suffix_of` s.
Proof.
  destruct s as [|c s]; [done|]. simpl. zcase; [by apply suffix_cons_r|].
  zcase; [by apply suffix_cons_r|done].
Qed.

Lemma strtol_suffix s : (strtol s).1.2 `suffix_of` s.
Proof.
  unfold strtol. destruct (sign (skip_space s)) as [neg s2] eqn:E.
  destruct (digits 0 0 s2) as [[v n] rest] eqn:D.
  assert (rest `suffix_of` s).
  { etrans; [|apply skip_space_suffix]. etrans; [|apply sign_suffix].
    rewrite E. pose proof (digits_suffix s2 0 0) as H. by rewrite D in H. }
  repeat case_match; simpl; done.
Qed.

Lemma strtol_range s : LONG_MIN <= (strtol s).1.1 <= LONG_MAX.
Proof.
  unfold strtol. destruct (sign (skip_space s)) as [neg s2].
  destruct (digits 0 0 s2) as [[v n] rest].
  unfold LONG_MIN, LONG_MAX. zcase; [simpl; lia|].
  set (w := if neg then _ else _). zcase; [simpl; lia|]. zcase; simpl; lia.
Qed.

Lemma strtoul_range s : 0 <= (strtoul s).1.1 <= ULONG_MAX.
Proof.
  unfold strtoul. destruct (sign (skip_space s)) as [neg s2].
  destruct (digits 0 0 s2) as [[v n] rest].
  unfold ULONG_MAX. zcase; [simpl; lia|]. zcase; [simpl; lia|].
  cbn [fst]. set (w := if neg then _ else _). width_lia.
Qed.

(** ** Printing numbers, [%u] and [%d] *)

Fixpoint dec_digits (fuel : nat) (n : Z) : list Z :=
  match fuel with
  | O => []
  | S fuel => (if n <? 10 then [] else dec_digits fuel (n / 10)) ++ [48 + n mod 10]
  end.

Definition dec_u (n : Z) : list Z := dec_digits 20 n.
Definition dec_s (n : Z) : list Z := if n <? 0 then 45 :: dec_u (- n) else dec_u n.

Lemma fold_dec_app l1 l2 acc : fold_left (fun acc c => acc * 10 + (c - 48)) (l1 ++ l2) acc =
  fold_left (fun acc c => acc * 10 + (c - 48)) l2 (fold_left (fun acc c => acc * 10 + (c - 48)) l1 acc).
Proof. apply fold_left_app. Qed.

Lemma dec_digits_spec fuel : forall n, 0 <= n < 10 ^ Z.of_nat fuel -> (0 < fuel)%nat ->
  numeral (dec_digits fuel n) /\ dec_value (dec_digits fuel n) = n.
Proof.
  induction fuel as [|fuel IH]; intros n Hn Hf; [lia|]. cbn [dec_digits].
  pose proof (Z.mod_pos_bound n 10 ltac:(lia)). pose proof (Z.div_mod n 10).
  assert (Hd : isdigit (48 + n mod 10) = true) by (unfold isdigit; lia).
  unfold numeral, dec_value. rewrite fold_dec_app. destruct (Z.ltb_spec n 10).
  - cbn [app fold_left]. rewrite (Z.mod_small n) in * by lia. split; [|lia]. split; [done|by repeat constructor].
  - destruct fuel as [|fuel]; [cbn in Hn; lia|].
    destruct (IH (n / 10)) as [[Hne Hds] Hv]; [|lia|].
    { split; [apply Z.div_pos; lia|]. apply Z.div_lt_upper_bound; [lia|].
      rewrite (Nat2Z.inj_succ (S fuel)), Z.pow_succ_r in Hn; lia. }
    fold (dec_value (dec_digits (S fuel) (n / 10))). rewrite Hv. cbn [fold_left].
    split; [|lia]. split; [by intros [_ ?]%app_eq_nil|]. apply Forall_app. split; [done|by repeat constructor].
Qed.

Lemma dec_u_spec n : 0 <= n < 10 ^ 20 -> numeral (dec_u n) /\ dec_value (dec_u n) = n.
Proof. intros Hn. apply dec_digits_spec; [exact Hn|lia]. Qed.

