(* ===== verification/DnsExpress.v ===== *)
(** * The XDP DNS responder (src/plugin/ciliumebpf/dnsExpress/dnsExpress.c)

    [xdp_dns] answers A queries for cached names directly from the driver:
    it parses the Ethernet/IPv4/UDP/DNS headers, looks the question up in
    the map [xdns_a_records], rewrites the packet into a response and sends
    it back.  The copy in src/plugin/libbpf-test/okk/dnscache.bpf.c has the
    same functions.

    A packet is the list of its bytes between [ctx->data] and
    [ctx->data_end]; a pointer into it is its offset from [ctx->data].
    [None] is an access outside the packet (or outside [dns_buffer]).  The
    code is modelled as it is compiled by default: DEBUG, BCC_SEC and EDNS
    are not defined.  [bpf_xdp_adjust_tail] is a kernel helper and a
    parameter: it returns the resized packet, or [None] for a nonzero
    return, which leaves the packet alone. *)

From S2P Require Import Prelude BpfMap.

Definition MAX_DNS_NAME_LENGTH : nat := 256.

Definition XDP_PASS : Z := 2.
Definition XDP_TX : Z := 3.

Definition IPPROTO_UDP : Z := 17.

(** ** Data *)

Record dns_hdr := {
  transaction_id : Z;
  rd : Z; tc : Z; aa : Z; opcode : Z; qr : Z;
  rcode : Z; cd : Z; ad : Z; z : Z; ra : Z;
  q_count : Z; ans_count : Z; auth_count : Z; add_count : Z;
}.

(** The fields of the header at [off]; bit-fields are allocated from the
    least significant bit. *)
Definition dns_hdr_at (p : list Z) (off : Z) : option dns_hdr :=
  id ← ld16 p off; f1 ← ld8 p (off + 2); f2 ← ld8 p (off + 3);
  qc ← ld16 p (off + 4); an ← ld16 p (off + 6);
  au ← ld16 p (off + 8); ar ← ld16 p (off + 10);
  Some {| transaction_id := id;
          rd := f1 mod 2; tc := f1 / 2 mod 2; aa := f1 / 4 mod 2;
          opcode := f1 / 8 mod 16; qr := f1 / 128 mod 2;
          rcode := f2 mod 16; cd := f2 / 16 mod 2; ad := f2 / 32 mod 2;
          z := f2 / 64 mod 2; ra := f2 / 128 mod 2;
          q_count := qc; ans_count := an; auth_count := au; add_count := ar |}.

(** The key of the cache: [record_type] and [class] in host order. *)
Record dns_query := {
  record_type : Z;
  class : Z;
  name : list Z;
}.

#[export] Instance dns_query_eq_dec : EqDecision dns_query.
Proof. solve_decision. Defined.

#[export] Instance dns_query_countable : Countable dns_query.
Proof.
  refine (inj_countable' (λ q, (record_type q, class q, name q))
            (λ t, {| record_type := t.1.1; class := t.1.2; name := t.2 |}) _).
  by intros [].
Defined.

(** The cached answer; [ip_addr] is [in_addr.s_addr] as stored in memory. *)
Record a_record := {
  ip_addr : Z;
  ttl : Z;
}.

(** What the program reads and writes: the packet and the static
    [dns_buffer]. *)
Record xdp_state := {
  pkt : list Z;
  dns_buffer : list Z;
}.

Definition sizeof_ethhdr : Z := 14.
Definition sizeof_iphdr : Z := 20.
Definition sizeof_udphdr : Z := 8.
Definition sizeof_dns_hdr : Z := 12.
Definition sizeof_dns_response : Z := 12.
Definition sizeof_in_addr : Z := 4.

(** ** Operations *)

(** The body of the loop of [parse_query]; [fuel] is the number of
    iterations left of the [MAX_DNS_NAME_LENGTH] the loop makes at most. *)
Fixpoint parse_query_loop (fuel : nat) (p : list Z) (cursor namepos : Z)
    (q : dns_query) : option (Z * dns_query) :=
  let data_end := Z.of_nat (length p) in
  match fuel with
  | O => Some (-1, q)
  | S fuel =>
      if data_end <? cursor + 1 then Some (-1, q) else
      c ← ld8 p cursor;
      if c =? 0 then
        if data_end <? cursor + 5 then Some (namepos + 1 + 2 + 2, q)
        else
          t ← ld16 p (cursor + 1);
          cl ← ld16 p (cursor + 3);
          Some (namepos + 1 + 2 + 2,
                {| record_type := bpf_htons t; class := bpf_htons cl; name := name q |})
      else
        nm ← st8 (name q) namepos c;
        parse_query_loop fuel p (cursor + 1) (namepos + 1)
          {| record_type := record_type q; class := class q; name := nm |}
  end.

Definition parse_query (p : list Z) (query_start : Z) : option (Z * dns_query) :=
  let q := {| record_type := 0; class := 0; name := replicate MAX_DNS_NAME_LENGTH 0 |} in
  parse_query_loop MAX_DNS_NAME_LENGTH p query_start 0 q.

Definition match_a_records {M} `{!BpfMapOps dns_query a_record M}
    (xdns_a_records : M) (q : dns_query) : Z * option a_record :=
  match bpf_map_lookup_elem xdns_a_records q with
  | Some record => (0, Some {| ip_addr := ip_addr record; ttl := ttl record |})
  | None => (-1, None)
  end.

(** [qr = 1; ra = 1; ans_count = bpf_htons(1)]. *)
Definition modify_dns_header_response (p : list Z) (dns_hdr : Z) : option (list Z) :=
  f1 ← ld8 p (dns_hdr + 2);
  p ← st8 p (dns_hdr + 2) (Z.lor f1 128);
  f2 ← ld8 p (dns_hdr + 3);
  p ← st8 p (dns_hdr + 3) (Z.lor f2 128);
  st16 p (dns_hdr + 6) (bpf_htons 1).

(** Writes the answer record at the start of [buf] and the address at
    [buf[*buf_size]]; returns the buffer and the new [*buf_size]. *)
Definition create_query_response (a : a_record) (buf : list Z) (buf_size : Z)
    : option (list Z * Z) :=
  buf ← st16 buf 0 (bpf_htons 49164 (* 0xc00c *));
  buf ← st16 buf 2 (bpf_htons 1);
  buf ← st16 buf 4 (bpf_htons 1);
  buf ← st32 buf 6 (bpf_htonl (ttl a));
  buf ← st16 buf 10 (bpf_htons sizeof_in_addr);
  let buf_size := buf_size + sizeof_dns_response in
  buf ← st32 buf buf_size (ip_addr a);
  Some (buf, buf_size + sizeof_in_addr).

(** The byte-by-byte loop of [copy_to_pkt_buf]. *)
Fixpoint copy_loop (n : nat) (p : list Z) (dst : Z) (srcb : list Z) (i : Z)
    : option (list Z) :=
  match n with
  | O => Some p
  | S n => b ← ld8 srcb i; p ← st8 p (dst + i) b; copy_loop n p dst srcb (i + 1)
  end.

Definition builtin_memcpy (p : list Z) (dst : Z) (srcb : list Z) (n : nat)
    : option (list Z) :=
  bs ← ld_bytes srcb 0 n; st_bytes p dst bs.

Definition copy_to_pkt_buf (p : list Z) (dst : Z) (srcb : list Z) (n : Z)
    : option (list Z) :=
  if Z.of_nat (length p) >=? dst + n then
    if n =? 16 then builtin_memcpy p dst srcb 16
    else if n =? 27 then builtin_memcpy p dst srcb 27
    else copy_loop (Z.to_nat n) p dst srcb 0
  else Some p.

Fixpoint swap_mac_loop (n : nat) (p : list Z) (src_mac dst_mac : Z) (i : Z)
    : option (list Z) :=
  match n with
  | O => Some p
  | S n =>
      tmp_src ← ld8 p (src_mac + i);
      d ← ld8 p (dst_mac + i);
      p ← st8 p (src_mac + i) d;
      p ← st8 p (dst_mac + i) tmp_src;
      swap_mac_loop n p src_mac dst_mac (i + 1)
  end.

Definition swap_mac (p : list Z) (src_mac dst_mac : Z) : option (list Z) :=
  swap_mac_loop 6 p src_mac dst_mac 0.

(** The accumulation loop of [update_ip_checksum]: [i] runs over the even
    offsets below [len]. *)
Fixpoint checksum_loop (fuel : nat) (p : list Z) (data len checksum_location i acc : Z)
    : option Z :=
  match fuel with
  | O => None
  | S fuel =>
      if i <? len then
        val ← (if data + i =? checksum_location then Some 0 else ld16 p (data + i));
        checksum_loop fuel p data len checksum_location (i + 2) (u32 (acc + val))
      else Some acc
  end.

Definition checksum_fold (accumulator : Z) : Z :=
  let overflow := u16 (Z.shiftr accumulator 16) in
  let accumulator := Z.land accumulator 65535 in
  let accumulator := u32 (accumulator + overflow) in
  let accumulator := u32 (accumulator + Z.shiftr accumulator 16) in
  let accumulator := Z.land accumulator 65535 in
  u16 (Z.lxor accumulator 65535).

Definition update_ip_checksum (p : list Z) (data len checksum_location : Z)
    : option (list Z) :=
  accumulator ← checksum_loop (S (Z.to_nat len)) p data len checksum_location 0 0;
  st16 p checksum_location (checksum_fold accumulator).

Section XdpDns.
Context {M : Type} `{!BpfMapOps dns_query a_record M}.
Variable bpf_xdp_adjust_tail : list Z -> Z -> option (list Z).

(** Swap of two 32-bit and of two 16-bit fields. *)
Definition swap32 (p : list Z) (a b : Z) : option (list Z) :=
  t ← ld32 p a; u ← ld32 p b; p ← st32 p a u; st32 p b t.

Definition swap16 (p : list Z) (a b : Z) : option (list Z) :=
  t ← ld16 p a; u ← ld16 p b; p ← st16 p a u; st16 p b t.

(** The part of [xdp_dns] that runs after the tail was adjusted: copy the
    answer, fix lengths, swap the addresses and update the checksum. *)
Definition xdp_dns_finish (p : list Z) (dns_buf : list Z) (query_length buf_size : Z)
    : option (Z * xdp_state) :=
  let data_end := Z.of_nat (length p) in
  p ← copy_to_pkt_buf p
        (sizeof_ethhdr + sizeof_iphdr + sizeof_udphdr + sizeof_dns_hdr + query_length)
        dns_buf buf_size;
  let eth := 0 in
  let ip := sizeof_ethhdr in
  let udp := sizeof_ethhdr + sizeof_iphdr in
  if data_end <? sizeof_ethhdr + sizeof_iphdr + sizeof_udphdr
  then Some (XDP_PASS, {| pkt := p; dns_buffer := dns_buf |}) else
  let iplen := u16 (data_end - sizeof_ethhdr) in
  let udplen := u16 (data_end - sizeof_ethhdr - sizeof_iphdr) in
  p ← st16 p (ip + 2) (bpf_htons iplen);
  p ← st16 p (udp + 4) (bpf_htons udplen);
  p ← swap_mac p (eth + 6) eth;
  p ← swap32 p (ip + 12) (ip + 16);
  p ← st16 p (udp + 6) 0;
  p ← swap16 p udp (udp + 2);
  p ← update_ip_checksum p ip sizeof_iphdr (ip + 10);
  Some (XDP_TX, {| pkt := p; dns_buffer := dns_buf |}).

(** The part of [xdp_dns] that builds the answer for a cached query. *)
Definition xdp_dns_answer (st : xdp_state) (dns_hdr query_length : Z) (a : a_record)
    : option (Z * xdp_state) :=
  let data_end := Z.of_nat (length (pkt st)) in
  p ← modify_dns_header_response (pkt st) dns_hdr;
  '(buf, buf_size) ← create_query_response a (dns_buffer st) 0;
  let answer_start := dns_hdr + sizeof_dns_hdr + query_length in
  let tailadjust := s32 (answer_start + buf_size - data_end) in
  match bpf_xdp_adjust_tail p tailadjust with
  | None => Some (XDP_PASS, {| pkt := p; dns_buffer := buf |})
  | Some p => xdp_dns_finish p buf query_length buf_size
  end.

Definition xdp_dns (xdns_a_records : M) (st : xdp_state) : option (Z * xdp_state) :=
  let p := pkt st in
  let data_end := Z.of_nat (length p) in
  if data_end <? sizeof_ethhdr + sizeof_iphdr then Some (XDP_PASS, st) else
  h_proto ← ld16 p 12;
  if negb (h_proto =? bpf_htons 2048 (* 0x0800 *)) then Some (XDP_PASS, st) else
  let ip := sizeof_ethhdr in
  protocol ← ld8 p (ip + 9);
  if protocol =? IPPROTO_UDP then
    if data_end <? sizeof_ethhdr + sizeof_iphdr + sizeof_udphdr then Some (XDP_PASS, st) else
    let udp := sizeof_ethhdr + sizeof_iphdr in
    dest ← ld16 p (udp + 2);
    if dest =? bpf_htons 53 then
      if data_end <? sizeof_ethhdr + sizeof_iphdr + sizeof_udphdr + sizeof_dns_hdr
      then Some (XDP_PASS, st) else
      let hdr := sizeof_ethhdr + sizeof_iphdr + sizeof_udphdr in
      h ← dns_hdr_at p hdr;
      if (qr h =? 0) && (opcode h =? 0) then
        let query_start := hdr + sizeof_dns_hdr in
        '(query_length, q) ← parse_query p query_start;
        if query_length <? 1 then Some (XDP_PASS, st) else
        match match_a_records xdns_a_records q with
        | (res, Some a) =>
            if res =? 0 then xdp_dns_answer st hdr query_length a
            else Some (XDP_PASS, st)
        | (_, None) => Some (XDP_PASS, st)
        end
      else Some (XDP_PASS, st)
    else Some (XDP_PASS, st)
  else Some (XDP_PASS, st).
End XdpDns.

(** ** Specification *)

(** The packet that is answered: an untagged Ethernet frame with a
    20-byte IPv4 header, UDP to port 53, a standard query and one
    question; [trailer] is whatever follows the question. *)
Record request := {
  eth_dst : list Z; eth_src : list Z;
  ip_ver_tos : list Z; ip_len : list Z; ip_mid : list Z; ip_chk : list Z;
  ip_src : list Z; ip_dst : list Z;
  udp_src : list Z; udp_len : list Z; udp_chk : list Z;
  dns_id : list Z; flags1 : Z; flags2 : Z;
  dns_qd : list Z; dns_an : list Z; dns_ns_ar : list Z;
  qname : list Z; qtype : list Z; qclass : list Z;
  trailer : list Z;
}.

Definition question (r : request) : list Z := qname r ++ [0] ++ qtype r ++ qclass r.

Definition request_bytes (r : request) : list Z :=
  eth_dst r ++ eth_src r ++ [8; 0] ++
  ip_ver_tos r ++ ip_len r ++ ip_mid r ++ [IPPROTO_UDP] ++ ip_chk r ++ ip_src r ++ ip_dst r ++
  udp_src r ++ [0; 53] ++ udp_len r ++ udp_chk r ++
  dns_id r ++ [flags1 r; flags2 r] ++ dns_qd r ++ dns_an r ++ dns_ns_ar r ++
  question r ++ trailer r.

Definition request_wf (r : request) : Prop :=
  length (eth_dst r) = 6%nat /\ length (eth_src r) = 6%nat /\
  length (ip_ver_tos r) = 2%nat /\ length (ip_len r) = 2%nat /\
  length (ip_mid r) = 5%nat /\ length (ip_chk r) = 2%nat /\
  length (ip_src r) = 4%nat /\ length (ip_dst r) = 4%nat /\
  length (udp_src r) = 2%nat /\ length (udp_len r) = 2%nat /\
  length (udp_chk r) = 2%nat /\ length (dns_id r) = 2%nat /\
  length (dns_qd r) = 2%nat /\ length (dns_an r) = 2%nat /\
  length (dns_ns_ar r) = 4%nat /\
  length (qtype r) = 2%nat /\ length (qclass r) = 2%nat /\
  strneq0 (qname r) /\ (length (qname r) < MAX_DNS_NAME_LENGTH)%nat /\
  (* a standard query: QR = 0 and OPCODE = 0 *)
  flags1 r / 8 = 0 /\
  bytes_ok (request_bytes r) /\ Z.of_nat (length (request_bytes r)) < 65536.

(** A 16-bit and a 32-bit value in network byte order, a 32-bit value as it
    lies in the memory of the host. *)
Definition be16 (x : Z) : list Z := [u8 (x / 256); u8 x].
Definition be32 (x : Z) : list Z := [u8 (x / 16777216); u8 (x / 65536); u8 (x / 256); u8 x].
Definition le16 (x : Z) : list Z := [u8 x; u8 (x / 256)].
Definition le32 (x : Z) : list Z := [u8 x; u8 (x / 256); u8 (x / 65536); u8 (x / 16777216)].

(** The answer record: a pointer to the question's name, type A, class IN,
    TTL and the address. *)
Definition answer_bytes (a : a_record) : list Z :=
  [192; 12] ++ be16 1 ++ be16 1 ++ be32 (ttl a) ++ be16 4 ++ le32 (ip_addr a).

(** RFC 1071: the 16-bit words of a header, their ones' complement sum, and
    the checksum. *)
Fixpoint words_of (l : list Z) : list Z :=
  match l with
  | a :: b :: l' => (a + 256 * b) :: words_of l'
  | _ => []
  end.

Definition zsum (ws : list Z) : Z := foldr Z.add 0 ws.

Definition ones_sum (s : Z) : Z := if s =? 0 then 0 else (s - 1) mod 65535 + 1.

Definition rfc1071 (hdr : list Z) : Z := 65535 - ones_sum (zsum (words_of hdr)).

Definition reply_ip (r : request) (len : Z) (chk : list Z) : list Z :=
  ip_ver_tos r ++ be16 (len - 14) ++ ip_mid r ++ [IPPROTO_UDP] ++ chk ++ ip_dst r ++ ip_src r.

(** The reply: addresses and ports swapped, lengths and header checksum
    recomputed, UDP checksum cleared, QR and RA set, one answer; the rest
    of the request header and the question are kept, the trailer is cut. *)
Definition reply_bytes (r : request) (a : a_record) : list Z :=
  let len := 54 + Z.of_nat (length (question r)) + 16 in
  eth_src r ++ eth_dst r ++ [8; 0] ++
  reply_ip r len (le16 (rfc1071 (reply_ip r len [0; 0]))) ++
  [0; 53] ++ udp_src r ++ be16 (len - 34) ++ [0; 0] ++
  dns_id r ++ [Z.lor (flags1 r) 128; Z.lor (flags2 r) 128] ++ dns_qd r ++ [0; 1] ++ dns_ns_ar r ++
  question r ++ answer_bytes a.

(** The cache key of a request. *)
Definition request_key (r : request) : dns_query :=
  {| record_type := hd 0 (qtype r) * 256 + hd 0 (tail (qtype r));
     class := hd 0 (qclass r) * 256 + hd 0 (tail (qclass r));
     name := qname r ++ replicate (MAX_DNS_NAME_LENGTH - length (qname r)) 0 |}.

(** The request once its header has been made that of a response (QR, RA
    and the answer count): the packet [xdp_dns] asks the helper to resize,
    by [reply_tail_delta] bytes. *)
Definition marked_bytes (r : request) : list Z :=
  eth_dst r ++ eth_src r ++ [8; 0] ++
  ip_ver_tos r ++ ip_len r ++ ip_mid r ++ [IPPROTO_UDP] ++ ip_chk r ++ ip_src r ++ ip_dst r ++
  udp_src r ++ [0; 53] ++ udp_len r ++ udp_chk r ++
  dns_id r ++ [Z.lor (flags1 r) 128; Z.lor (flags2 r) 128] ++ dns_qd r ++ [0; 1] ++ dns_ns_ar r ++
  question r ++ trailer r.

Definition reply_tail_delta (r : request) : Z := 16 - Z.of_nat (length (trailer r)).

(** What [bpf_xdp_adjust_tail] promises on success: the length changes by
    [delta] and the bytes of the common prefix are kept. *)
Definition adjust_tail_ok (adjust : list Z -> Z -> option (list Z)) : Prop :=
  forall p delta p', adjust p delta = Some p' ->
    Z.of_nat (length p') = Z.of_nat (length p) + delta /\
    (exists n, take n p' = take n p /\ n = Nat.min (length p) (length p')).

(** ** Word-level memory lemmas *)

Lemma st16_eq m off v :
  0 <= off -> off + 2 <= Z.of_nat (length m) ->
  st16 m off v
  = Some (<[Z.to_nat (off + 1) := u8 (v / 256)]> (<[Z.to_nat off := u8 v]> m)).
Proof.
  intros. unfold st16. rewrite st8_Some by lia. simpl.
  by rewrite st8_Some by (rewrite length_insert; lia).
Qed.

Lemma st32_eq m off v :
  0 <= off -> off + 4 <= Z.of_nat (length m) ->
  st32 m off v
  = Some (<[Z.to_nat (off + 3) := u8 (v / 65536 / 256)]>
         (<[Z.to_nat (off + 2) := u8 (v / 65536)]>
         (<[Z.to_nat (off + 1) := u8 (v / 256)]> (<[Z.to_nat off := u8 v]> m)))).
Proof.
  intros. unfold st32. rewrite st16_eq by lia. simpl.
  rewrite st16_eq by (rewrite ?length_insert; lia).
  by replace (off + 2 + 1) with (off + 3) by lia.
Qed.

Lemma st8_ok m off v :
  0 <= off < Z.of_nat (length m) ->
  exists m', st8 m off v = Some m' /\ length m' = length m.
Proof. intros. rewrite st8_Some by lia. eexists. split; [done|]. by rewrite length_insert. Qed.

Lemma st16_ok m off v :
  0 <= off -> off + 2 <= Z.of_nat (length m) ->
  exists m', st16 m off v = Some m' /\ length m' = length m.
Proof. intros. rewrite st16_eq by lia. eexists. split; [done|]. by rewrite !length_insert. Qed.

Lemma st32_ok m off v :
  0 <= off -> off + 4 <= Z.of_nat (length m) ->
  exists m', st32 m off v = Some m' /\ length m' = length m.
Proof. intros. rewrite st32_eq by lia. eexists. split; [done|]. by rewrite !length_insert. Qed.

(** Run one memory access of the goal: replace the load or store by the
    value it has, given the bounds. *)
Ltac mem_step :=
  match goal with
  | |- context [ld8 ?m ?o] =>
      let v := fresh "v" in let E := fresh "E" in
      destruct (ld8_Some m o) as [v E]; [lia|]; rewrite E; cbn [mbind option_bind]
  | |- context [ld16 ?m ?o] =>
      let v := fresh "v" in let E := fresh "E" in
      destruct (ld16_Some m o) as [v E]; [lia|lia|]; rewrite E; cbn [mbind option_bind]
  | |- context [ld32 ?m ?o] =>
      let v := fresh "v" in let E := fresh "E" in
      destruct (ld32_Some m o) as [v E]; [lia|lia|]; rewrite E; cbn [mbind option_bind]
  | |- context [st8 ?m ?o ?x] =>
      let v := fresh "m" in let E := fresh "E" in let L := fresh "L" in
      destruct (st8_ok m o x) as (v & E & L); [lia|]; rewrite E; cbn [mbind option_bind]
  | |- context [st16 ?m ?o ?x] =>
      let v := fresh "m" in let E := fresh "E" in let L := fresh "L" in
      destruct (st16_ok m o x) as (v & E & L); [lia|lia|]; rewrite E; cbn [mbind option_bind]
  | |- context [st32 ?m ?o ?x] =>
      let v := fresh "m" in let E := fresh "E" in let L := fresh "L" in
      destruct (st32_ok m o x) as (v & E & L); [lia|lia|]; rewrite E; cbn [mbind option_bind]
  end.

(** ** Parsing the question *)

Lemma parse_query_loop_total fuel : forall p cursor namepos q,
  0 <= cursor -> 0 <= namepos ->
  namepos + Z.of_nat fuel <= Z.of_nat (length (name q)) ->
  exists n q', parse_query_loop fuel p cursor namepos q = Some (n, q') /\
    (n = -1 \/
     (namepos + 5 <= n <= namepos + 4 + Z.of_nat fuel /\
      cursor + (n - namepos) - 4 <= Z.of_nat (length p))).
Proof.
  induction fuel as [|fuel IH]; intros p cursor namepos q Hc Hn Hl; cbn [parse_query_loop].
  { eexists _, _. split; [done|]. by left. }
  zcase; [eexists _, _; split; [done|]; by left|].
  mem_step. zcase.
  - zcase; [eexists _, _; split; [done|]; right; lia|].
    mem_step. mem_step. eexists _, _. split; [done|]. right. lia.
  - mem_step.
    destruct (IH p (cursor + 1) (namepos + 1)
                {| record_type := record_type q; class := class q; name := m |})
      as (n & q' & -> & Hr); simpl; [lia..|].
    exists n, q'. split; [done|]. lia.
Qed.

Lemma parse_query_total p start :
  0 <= start ->
  exists n q, parse_query p start = Some (n, q) /\
    (n = -1 \/ (5 <= n <= 260 /\ start + n - 4 <= Z.of_nat (length p))).
Proof.
  intros H. destruct (parse_query_loop_total MAX_DNS_NAME_LENGTH p start 0
    {| record_type := 0; class := 0; name := replicate MAX_DNS_NAME_LENGTH 0 |})
    as (n & q & E & Hr).
  - done.
  - done.
  - done.
  - exists n, q. split; [exact E|]. unfold MAX_DNS_NAME_LENGTH in Hr. lia.
Qed.

(** The loop on a packet whose bytes at the cursor are a NUL-free string:
    the string is appended to the name. *)
Lemma parse_query_loop_name s : forall fuel pre done_ rest q,
  strneq0 s -> bytes_ok s -> (length s <= fuel)%nat ->
  name q = done_ ++ replicate fuel 0 ->
  parse_query_loop fuel (pre ++ s ++ rest) (Z.of_nat (length pre)) (Z.of_nat (length done_)) q
  = parse_query_loop (fuel - length s) (pre ++ s ++ rest)
      (Z.of_nat (length (pre ++ s))) (Z.of_nat (length (done_ ++ s)))
      {| record_type := record_type q; class := class q;
         name := (done_ ++ s) ++ replicate (fuel - length s) 0 |}.
Proof.
  induction s as [|b s IH]; intros fuel pre done_ rest q Hs Hb Hf Hq.
  { rewrite !app_nil_r, Nat.sub_0_r. destruct q; simpl in *; by subst. }
  destruct fuel as [|fuel]; [simpl in Hf; lia|].
  inversion Hs as [|? ? Hb0 Hs']; inversion Hb as [|? ? Hbb Hb']; subst.
  cbn [parse_query_loop].
  destruct (_ <? _) eqn:E1; zbool; [rewrite !length_app in E1; simpl in E1; lia|].
  replace (ld8 (pre ++ (b :: s) ++ rest) (Z.of_nat (length pre))) with (Some b).
  2: { unfold ld8. zcase; [lia|]. rewrite Nat2Z.id, lookup_app_r by lia.
       by rewrite Nat.sub_diag. }
  cbn [mbind option_bind]. destruct (b =? 0) eqn:?; zbool; [done|].
  rewrite Hq. rewrite st8_Some by (rewrite length_app, length_replicate; lia).
  cbn [mbind option_bind]. rewrite Nat2Z.id, insert_app_r_alt by lia.
  rewrite Nat.sub_diag. cbn [replicate insert list_insert].
  rewrite (wrap_small 8) by (pow2; done).
  replace (done_ ++ b :: replicate fuel 0) with ((done_ ++ [b]) ++ replicate fuel 0)
    by (by rewrite <- app_assoc).
  replace (Z.of_nat (length pre) + 1) with (Z.of_nat (length (pre ++ [b])))
    by (rewrite length_app; simpl; lia).
  replace (Z.of_nat (length done_) + 1) with (Z.of_nat (length (done_ ++ [b])))
    by (rewrite length_app; simpl; lia).
  replace (pre ++ (b :: s) ++ rest) with ((pre ++ [b]) ++ s ++ rest)
    by (by rewrite <- app_assoc).
  rewrite (IH fuel (pre ++ [b]) (done_ ++ [b]) rest); [|done|done|simpl in Hf; lia|done].
  rewrite <- !app_assoc. by simpl.
Qed.

(** A complete question is parsed into the key and its length. *)
Lemma parse_query_question pre s t1 t0 c1 c0 rest :
  strneq0 s -> bytes_ok (s ++ [t1; t0; c1; c0]) -> (length s < MAX_DNS_NAME_LENGTH)%nat ->
  parse_query (pre ++ s ++ [0; t1; t0; c1; c0] ++ rest) (Z.of_nat (length pre))
  = Some (Z.of_nat (length s) + 5,
          {| record_type := t1 * 256 + t0; class := c1 * 256 + c0;
             name := s ++ replicate (MAX_DNS_NAME_LENGTH - length s) 0 |}).
Proof.
  intros Hs Hb Hl. apply Forall_app in Hb as [Hb Ht].
  unfold parse_query. change 0 with (Z.of_nat (length (@nil Z))) at 2.
  rewrite (parse_query_loop_name s MAX_DNS_NAME_LENGTH pre [] _ _ Hs Hb);
    [|lia|done].
  cbn [app record_type class].
  destruct (MAX_DNS_NAME_LENGTH - length s)%nat as [|k] eqn:Ek; [lia|].
  cbn [parse_query_loop].
  set (P := pre ++ s ++ _).
  assert (HP : P = (pre ++ s) ++ [0; t1; t0; c1; c0] ++ rest) by (unfold P; by rewrite <- app_assoc).
  assert (HL : Z.of_nat (length P) = Z.of_nat (length (pre ++ s)) + 5 + Z.of_nat (length rest))
    by (rewrite HP, (length_app (pre ++ s)), length_app; simpl; lia).
  assert (Hld : forall i, 0 <= i < 5 ->
    ld8 P (Z.of_nat (length (pre ++ s)) + i) = [0; t1; t0; c1; c0] !! Z.to_nat i).
  { intros i Hi. unfold ld8. zcase; [lia|]. rewrite HP, lookup_app_r by lia.
    replace (Z.to_nat _ - _)%nat with (Z.to_nat i) by lia.
    by rewrite lookup_app_l by (simpl; lia). }
  set (L := Z.of_nat (length (pre ++ s))) in *.
  assert (H0 : ld8 P (L + 0) = Some 0) by exact (Hld 0 ltac:(lia)).
  assert (H1 : ld8 P (L + 1) = Some t1) by exact (Hld 1 ltac:(lia)).
  assert (H2 : ld8 P (L + 1 + 1) = Some t0) by (rewrite <- Z.add_assoc; exact (Hld 2 ltac:(lia))).
  assert (H3 : ld8 P (L + 3) = Some c1) by exact (Hld 3 ltac:(lia)).
  assert (H4 : ld8 P (L + 3 + 1) = Some c0) by (rewrite <- Z.add_assoc; exact (Hld 4 ltac:(lia))).
  rewrite Z.add_0_r in H0. zcase; [lia|]. rewrite H0. cbn [mbind option_bind].
  rewrite Z.eqb_refl. zcase; [lia|]. unfold ld16.
  rewrite H1, H2, H3, H4. cbn [mbind option_bind name].
  do 2 f_equal; [lia|]. inversion Ht as [|? ? ? Ht2]; inversion Ht2 as [|? ? ? Ht3];
  inversion Ht3 as [|? ? ? Ht4]; inversion Ht4; subst.
  f_equal; unfold bswap16; width_lia.
Qed.

(** ** The checksum *)

Lemma lxor_65535 a : 0 <= a < 65536 -> Z.lxor a 65535 = 65535 - a.
Proof.
  intros Ha. change 65535 with (Z.ones 16).
  assert (E : Z.land a (Z.lxor a (Z.ones 16)) = 0).
  { apply Z.bits_inj'. intros n Hn. rewrite Z.land_spec, Z.lxor_spec, Z.bits_0.
    destruct (Z.ltb_spec n 16).
    - rewrite Z.ones_spec_low by lia. by destruct (Z.testbit a n).
    - rewrite <- (Z.mod_small a (2 ^ 16)) by (pow2; lia).
      by rewrite Z.mod_pow2_bits_high by lia. }
  apply Z.add_nocarry_lxor in E.
  rewrite <- Z.lxor_assoc, Z.lxor_nilpotent, Z.lxor_0_l in E. lia.
Qed.

Lemma checksum_fold_eq s :
  0 <= s < 4294967296 -> checksum_fold s = 65535 - ones_sum s.
Proof.
  intros Hs. unfold checksum_fold. cbv zeta.
  rewrite !land_65535, !Z.shiftr_div_pow2 by lia.
  rewrite (wrap_small 16 (s / 2 ^ 16)) by (pow2; width_lia). pow2.
  assert (H1 : 0 <= s mod 65536 + s / 65536 < 131072) by width_lia.
  rewrite (wrap_small 32 (s mod 65536 + s / 65536)) by (pow2; lia).
  set (t := s mod 65536 + s / 65536) in *.
  rewrite (wrap_small 32) by (pow2; width_lia).
  assert (H2 : 0 <= (t + t / 65536) mod 65536 < 65536) by (apply Z.mod_pos_bound; lia).
  rewrite lxor_65535 by done. rewrite (wrap_small 16) by (pow2; lia).
  f_equal. unfold ones_sum, t. zcase; [subst; done|]. width_lia.
Qed.

Lemma ones_sum_range s : 0 <= s -> 0 <= ones_sum s <= 65535.
Proof. intros. unfold ones_sum. zcase; [lia|]. width_lia. Qed.

(** Adding the checksum to the sum it was computed from gives the all-ones
    word: the verification of RFC 1071. *)
Lemma checksum_fold_verify s :
  0 <= s -> s + 65535 < 4294967296 -> checksum_fold (s + checksum_fold s) = 0.
Proof.
  intros H0 H1. rewrite (checksum_fold_eq s) by lia.
  pose proof (ones_sum_range s H0).
  rewrite checksum_fold_eq by lia.
  unfold ones_sum in *. destruct (s =? 0) eqn:?; zbool; [by subst|].
  zcase; width_lia.
Qed.

(** The words the loop visits: from [i] up to [len], the word at [loc]
    counted as zero. *)
Fixpoint loop_words (n : nat) (p : list Z) (data loc i : Z) : option (list Z) :=
  match n with
  | O => Some []
  | S n =>
      w ← (if data + i =? loc then Some 0 else ld16 p (data + i));
      ws ← loop_words n p data loc (i + 2); Some (w :: ws)
  end.

Lemma loop_words_range n : forall p data loc i ws,
  bytes_ok p -> loop_words n p data loc i = Some ws ->
  Forall (fun w => 0 <= w < 65536) ws /\ length ws = n.
Proof.
  induction n as [|n IH]; intros p data loc i ws Hp; cbn [loop_words]; [by intros [= <-]|].
  intros H. inv_bind H. simplify_eq. destruct (IH _ _ _ _ _ Hp H1) as [? <-].
  split; [|done]. constructor; [|done].
  destruct (_ =? _); [simplify_eq; lia|]. by eapply ld16_range in H0.
Qed.

Lemma zsum_range ws :
  Forall (fun w => 0 <= w < 65536) ws -> 0 <= zsum ws <= 65535 * Z.of_nat (length ws).
Proof. induction 1; simpl; [lia|]. unfold zsum in *. simpl in *. lia. Qed.

Lemma checksum_loop_words n : forall fuel p data len loc i acc ws,
  len = i + 2 * Z.of_nat n -> (n < fuel)%nat -> bytes_ok p ->
  loop_words n p data loc i = Some ws ->
  0 <= acc -> acc + zsum ws < 4294967296 ->
  checksum_loop fuel p data len loc i acc = Some (acc + zsum ws).
Proof.
  induction n as [|n IH]; intros fuel p data len loc i acc ws Hlen Hf Hp Hw Ha Hs;
    (destruct fuel as [|fuel]; [lia|]); cbn [checksum_loop loop_words] in *.
  { simplify_eq. zcase; [lia|]. unfold zsum in *; simpl in *. by rewrite Z.add_0_r. }
  inv_bind Hw. simplify_eq. zcase; [|lia].
  destruct (loop_words_range _ _ _ _ _ _ Hp H0) as [Hr _].
  pose proof (zsum_range _ Hr) as Hz. unfold zsum in *; simpl in *.
  assert (0 <= x < 65536).
  { destruct (_ =? _); [simplify_eq; lia|]. by eapply ld16_range in H. }
  rewrite H. cbn [mbind option_bind]. rewrite (wrap_small 32) by (pow2; lia).
  rewrite (IH _ _ _ _ _ _ _ x0); [f_equal; lia|lia|lia|done|done|lia|lia].
Qed.

Lemma loop_words_some n : forall p data loc i,
  0 <= data + i -> data + i + 2 * Z.of_nat n <= Z.of_nat (length p) ->
  is_Some (loop_words n p data loc i).
Proof.
  induction n as [|n IH]; intros p data loc i H1 H2; cbn [loop_words]; [done|].
  assert (exists w, (if data + i =? loc then Some 0 else ld16 p (data + i)) = Some w) as [w ->].
  { zcase; [by eexists|]. apply ld16_Some; lia. }
  cbn [mbind option_bind]. destruct (IH p data loc (i + 2)) as [ws ->]; [lia..|]. done.
Qed.

Lemma update_ip_checksum_eq p data n loc :
  bytes_ok p -> 0 <= data -> data + 2 * Z.of_nat n <= Z.of_nat (length p) ->
  Z.of_nat n <= 65536 -> 0 <= loc -> loc + 2 <= Z.of_nat (length p) ->
  exists ws, loop_words n p data loc 0 = Some ws /\
    update_ip_checksum p data (2 * Z.of_nat n) loc
    = st16 p loc (65535 - ones_sum (zsum ws)).
Proof.
  intros Hp Hd Hl Hn Hloc Hloc2.
  destruct (loop_words_some n p data loc 0) as [ws Hws]; [lia..|].
  exists ws. split; [done|]. unfold update_ip_checksum.
  destruct (loop_words_range _ _ _ _ _ _ Hp Hws) as [Hr Hlen].
  pose proof (zsum_range _ Hr) as Hz.
  rewrite (checksum_loop_words n _ p data _ loc 0 0 ws); [|lia|lia|done|done|lia|lia].
  cbn [mbind option_bind]. rewrite checksum_fold_eq; [done|lia].
Qed.
(** ** Totality of the packet operations *)

Lemma swap_mac_loop_ok n : forall p a b i,
  0 <= a + i -> 0 <= b + i ->
  a + i + Z.of_nat n <= Z.of_nat (length p) -> b + i + Z.of_nat n <= Z.of_nat (length p) ->
  exists p', swap_mac_loop n p a b i = Some p' /\ length p' = length p.
Proof.
  induction n as [|n IH]; intros p a b i H1 H2 H3 H4; cbn [swap_mac_loop]; [by eexists|].
  do 4 mem_step. destruct (IH m0 a b (i + 1)) as (p' & -> & Hl); [lia..|].
  eexists. split; [done|]. congruence.
Qed.

Lemma checksum_loop_total fuel : forall p data len loc i acc,
  (0 < fuel)%nat -> len <= i + 2 * Z.of_nat fuel - 2 -> 0 <= data + i ->
  data + i + 2 * ((len - i + 1) / 2) <= Z.of_nat (length p) ->
  is_Some (checksum_loop fuel p data len loc i acc).
Proof.
  induction fuel as [|fuel IH]; intros p data len loc i acc H0 H1 H2 H3; [lia|].
  cbn [checksum_loop]. zcase; [|done].
  assert (exists w, (if data + i =? loc then Some 0 else ld16 p (data + i)) = Some w) as [w ->]
    by (zcase; [by eexists|]; apply ld16_Some; width_lia).
  cbn [mbind option_bind]. apply IH; width_lia.
Qed.

Lemma update_ip_checksum_ok p data len loc :
  0 <= data -> 0 <= len -> data + 2 * ((len + 1) / 2) <= Z.of_nat (length p) ->
  0 <= loc -> loc + 2 <= Z.of_nat (length p) ->
  exists p', update_ip_checksum p data len loc = Some p' /\ length p' = length p.
Proof.
  intros. unfold update_ip_checksum.
  destruct (checksum_loop_total (S (Z.to_nat len)) p data len loc 0 0) as [acc ->];
    [lia|lia|lia|by rewrite Z.sub_0_r, Z.add_0_r|].
  cbn [mbind option_bind]. apply st16_ok; lia.
Qed.

Lemma ld_bytes_length n : forall m off bs, ld_bytes m off n = Some bs -> length bs = n.
Proof.
  induction n as [|n IH]; cbn [ld_bytes]; intros m off bs H; [by simplify_eq|].
  inv_bind H. simplify_eq. simpl. f_equal. by eapply IH.
Qed.

Lemma ld_bytes_Some n : forall m off,
  0 <= off -> off + Z.of_nat n <= Z.of_nat (length m) -> is_Some (ld_bytes m off n).
Proof.
  induction n as [|n IH]; intros m off H1 H2; cbn [ld_bytes]; [done|].
  mem_step. destruct (IH m (off + 1)) as [bs ->]; [lia..|]. done.
Qed.

Lemma builtin_memcpy_ok p dst srcb n :
  0 <= dst -> dst + Z.of_nat n <= Z.of_nat (length p) -> (n <= length srcb)%nat ->
  exists p', builtin_memcpy p dst srcb n = Some p' /\ length p' = length p.
Proof.
  intros. unfold builtin_memcpy. destruct (ld_bytes_Some n srcb 0) as [bs E]; [lia..|].
  rewrite E. cbn [mbind option_bind]. apply ld_bytes_length in E.
  destruct (st_bytes_Some bs p dst) as [p' E']; [lia..|]. exists p'. split; [done|].
  by eapply st_bytes_length.
Qed.

Lemma copy_loop_ok n : forall p dst srcb i,
  0 <= i -> 0 <= dst + i -> dst + i + Z.of_nat n <= Z.of_nat (length p) ->
  i + Z.of_nat n <= Z.of_nat (length srcb) ->
  exists p', copy_loop n p dst srcb i = Some p' /\ length p' = length p.
Proof.
  induction n as [|n IH]; intros p dst srcb i H0 H1 H2 H3; cbn [copy_loop]; [by eexists|].
  do 2 mem_step. destruct (IH m dst srcb (i + 1)) as (p' & -> & Hl); [lia..|].
  eexists. split; [done|]. congruence.
Qed.

Lemma copy_to_pkt_buf_ok p dst srcb n :
  0 <= dst -> 0 <= n <= Z.of_nat (length srcb) ->
  exists p', copy_to_pkt_buf p dst srcb n = Some p' /\ length p' = length p.
Proof.
  intros. unfold copy_to_pkt_buf. destruct (_ >=? _) eqn:E; [|by eexists].
  apply Z.geb_le in E. zcase; [apply builtin_memcpy_ok; lia|].
  zcase; [apply builtin_memcpy_ok; lia|]. apply copy_loop_ok; lia.
Qed.

Lemma modify_dns_header_response_ok p h :
  0 <= h -> h + 12 <= Z.of_nat (length p) ->
  exists p', modify_dns_header_response p h = Some p' /\ length p' = length p.
Proof.
  intros. unfold modify_dns_header_response. do 4 mem_step.
  destruct (st16_ok m0 (h + 6) (bpf_htons 1)) as (m1 & -> & L1); [lia..|].
  eexists. split; [done|]. congruence.
Qed.

Lemma create_query_response_ok a buf :
  length buf = 512%nat ->
  exists buf', create_query_response a buf 0 = Some (buf', 16) /\ length buf' = 512%nat.
Proof.
  intros. unfold create_query_response, sizeof_dns_response, sizeof_in_addr.
  do 6 mem_step. eexists. split; [done|]. congruence.
Qed.

Lemma dns_hdr_at_ok p off :
  0 <= off -> off + 12 <= Z.of_nat (length p) -> is_Some (dns_hdr_at p off).
Proof. intros. unfold dns_hdr_at. do 7 mem_step. by eexists. Qed.

Lemma xdp_dns_finish_ok p buf ql :
  0 <= ql -> length buf = 512%nat ->
  exists r st, xdp_dns_finish p buf ql 16 = Some (r, st) /\
    (r = XDP_PASS \/ r = XDP_TX) /\ length (dns_buffer st) = 512%nat /\
    length (pkt st) = length p.
Proof.
  intros Hq Hb. unfold xdp_dns_finish, sizeof_ethhdr, sizeof_iphdr, sizeof_udphdr,
    sizeof_dns_hdr.
  destruct (copy_to_pkt_buf_ok p (14 + 20 + 8 + 12 + ql) buf 16) as (p1 & -> & L1); [lia..|].
  cbn [mbind option_bind]. zcase; [eexists _, _; repeat split; simpl; [by left|done|done]|].
  do 2 mem_step. unfold swap_mac.
  match goal with |- context [swap_mac_loop _ ?m _ _ _] =>
    destruct (swap_mac_loop_ok 6 m (0 + 6) 0 0) as (p2 & -> & L2); [lia..|] end.
  cbn [mbind option_bind]. unfold swap32, swap16. do 9 mem_step.
  match goal with |- context [update_ip_checksum ?m _ _ _] =>
    destruct (update_ip_checksum_ok m 14 20 (14 + 10)) as (p3 & -> & Lp3) end;
    [lia|lia|change ((20 + 1) / 2) with 10; lia|lia|lia|].
  cbn [mbind option_bind]. eexists _, _. repeat split; simpl; [by right|done|]. congruence.
Qed.

(** ** The reply *)

Lemma u8_lo a b : is_byte a -> u8 (a + 256 * b) = a.
Proof. intros. width_lia. Qed.

Lemma u8_hi a b : is_byte a -> is_byte b -> u8 ((a + 256 * b) / 256) = b.
Proof. intros. width_lia. Qed.

Lemma u8_32 a b c d :
  is_byte a -> is_byte b -> is_byte c -> is_byte d ->
  let v := a + 256 * b + 65536 * (c + 256 * d) in
  u8 v = a /\ u8 (v / 256) = b /\ u8 (v / 65536) = c /\ u8 (v / 65536 / 256) = d.
Proof. intros. cbv zeta. repeat split; width_lia. Qed.

Lemma u8_bswap16 x : u8 (bswap16 x) = u8 (x / 256) /\ u8 (bswap16 x / 256) = u8 x.
Proof. unfold bswap16. split; width_lia. Qed.

Lemma u8_byte x : is_byte (u8 x).
Proof. width_lia. Qed.

Lemma u8_id x : is_byte x -> u8 x = x.
Proof. intros. width_lia. Qed.

(** The answer buffer after [create_query_response]. *)
Lemma create_query_response_eq a buf :
  length buf = 512%nat ->
  create_query_response a buf 0 = Some (answer_bytes a ++ drop 16 buf, 16).
Proof.
  intros Hl. unfold create_query_response, sizeof_dns_response, sizeof_in_addr.
  repeat (rewrite st16_eq by (rewrite ?length_insert; lia); cbn [mbind option_bind]).
  rewrite st32_eq by (rewrite ?length_insert; lia); cbn [mbind option_bind].
  rewrite st16_eq by (rewrite ?length_insert; lia); cbn [mbind option_bind].
  rewrite st32_eq by (rewrite ?length_insert; lia); cbn [mbind option_bind].
  do 2 f_equal.
  do 16 (destruct buf as [|? buf]; [done|]).
  unfold answer_bytes, be16, be32, le32. cbn -[wrap Z.div bswap32 bswap16].
  destruct (u8_bswap16 49164) as [-> ->]. destruct (u8_bswap16 1) as [-> ->].
  destruct (u8_bswap16 4) as [-> ->].
  destruct (bswap32_bytes (ttl a)) as (-> & -> & -> & ->).
  by replace (ip_addr a / 65536 / 256) with (ip_addr a / 16777216) by width_lia.
Qed.

(** Expand a list of known length into its elements. *)
Ltac cells :=
  repeat match goal with
  | H : length ?l = S _ |- _ => destruct l; [done|simpl in H; injection H as H]
  | H : length ?l = O |- _ => apply nil_length_inv in H; subst l
  end.

(** Run the stores of the goal on explicit cells: compute the index, then
    replace the cell. *)
Ltac cell_insert :=
  repeat match goal with
  | |- context [Z.to_nat ?o] =>
      let n := eval vm_compute in (Z.to_nat o) in change (Z.to_nat o) with n
  end;
  cbn [mbind option_bind insert list_insert].

Ltac cell_step :=
  first [ rewrite st8_Some by (cbn [length]; lia)
        | rewrite st16_eq by (cbn [length]; lia)
        | rewrite st32_eq by (cbn [length]; lia) ];
  cell_insert.

Ltac cell_load :=
  match goal with
  | |- context [ld8 ?m ?o] =>
      let v := eval cbv [ld8 Z.ltb Z.compare Pos.compare Pos.compare_cont lookup list_lookup Z.to_nat Pos.to_nat Pos.iter_op
           Z.add Pos.add Pos.succ Nat.add] in (ld8 m o) in
      change (ld8 m o) with v
  end; cbn [mbind option_bind].

Section Reply.
Context (h0 h1 h2 h3 h4 h5 h6 h7 h8 h9 h10 h11 h12 h13 h14 h15 h16 h17 h18 h19 h20 h21
  h22 h23 h24 h25 h26 h27 h28 h29 h30 h31 h32 h33 h34 h35 h36 h37 h38 h39 h40 h41 : Z).
Context (tl : list Z).

(** The first 42 bytes of a frame: Ethernet, IPv4 and UDP headers. *)
Let frame : list Z :=
  h0 :: h1 :: h2 :: h3 :: h4 :: h5 :: h6 :: h7 :: h8 :: h9 :: h10 :: h11 :: h12 :: h13 ::
  h14 :: h15 :: h16 :: h17 :: h18 :: h19 :: h20 :: h21 :: h22 :: h23 :: h24 :: h25 :: h26 ::
  h27 :: h28 :: h29 :: h30 :: h31 :: h32 :: h33 :: h34 :: h35 :: h36 :: h37 :: h38 :: h39 ::
  h40 :: h41 :: tl.

(** The effect of the header rewriting of [xdp_dns_finish] on it. *)
Lemma finish_header len :
  bytes_ok frame -> 0 <= len < 65536 ->
  (p ← st16 frame 16 (bpf_htons len);
   p ← st16 p 38 (bpf_htons (u16 (len - 20)));
   p ← swap_mac p 6 0;
   p ← swap32 p 26 30;
   p ← st16 p 40 0;
   p ← swap16 p 34 36;
   update_ip_checksum p 14 20 24)
  = Some ([h6; h7; h8; h9; h10; h11; h0; h1; h2; h3; h4; h5; h12; h13; h14; h15] ++ be16 len ++
          [h18; h19; h20; h21; h22; h23] ++
          le16 (rfc1071 ([h14; h15] ++ be16 len ++ [h18; h19; h20; h21; h22; h23; 0; 0] ++
                         [h30; h31; h32; h33; h26; h27; h28; h29])) ++
          [h30; h31; h32; h33; h26; h27; h28; h29; h36; h37; h34; h35] ++
          be16 (u16 (len - 20)) ++ [0; 0] ++ tl).
Proof.
  intros Hb Hlen. unfold frame.
  assert (Hbs := Hb). unfold bytes_ok, frame in Hbs.
  repeat match goal with H : Forall is_byte (_ :: _) |- _ => apply Forall_cons in H as [? H] end.
  do 2 cell_step.
  unfold swap_mac. cbn [swap_mac_loop].
  repeat (do 2 cell_load; do 2 cell_step).
  unfold swap32, ld32, ld16. do 8 cell_load. do 2 cell_step.
  cell_step. unfold swap16, ld16. do 4 cell_load. do 2 cell_step.
  destruct (u8_bswap16 len) as [-> ->]. destruct (u8_bswap16 (u16 (len - 20))) as [-> ->].
  destruct (u8_32 h26 h27 h28 h29) as (-> & -> & -> & ->); try done.
  destruct (u8_32 h30 h31 h32 h33) as (-> & -> & -> & ->); try done.
  rewrite !u8_lo, !u8_hi by done. rewrite !(u8_id _) by (done || apply u8_byte).
  change (u8 (0 / 256)) with 0. change (u8 0) with 0.
  match goal with |- update_ip_checksum ?p _ _ _ = _ => set (P := p) end.
  assert (HP : bytes_ok P).
  { unfold P, bytes_ok. repeat (apply Forall_cons; split; [first [done|apply u8_byte|lia]|]). done. }
  destruct (update_ip_checksum_eq P 14 10 24 HP) as (ws & Hws & E);
    [lia|unfold P; cbn [length]; lia|lia|lia|unfold P; cbn [length]; lia|].
  change (2 * Z.of_nat 10) with 20 in E. rewrite E.
  assert (Hw : ws = words_of ([h14; h15] ++ be16 len ++ [h18; h19; h20; h21; h22; h23; 0; 0] ++
                         [h30; h31; h32; h33; h26; h27; h28; h29])).
  { assert (H' : forall o, o = Some ws -> forall l, o = Some l -> ws = l) by (intros; congruence).
    apply (H' _ Hws). reflexivity. }
  rewrite st16_eq by (unfold P; cbn [length]; lia).
  unfold rfc1071. rewrite <- Hw. reflexivity.
Qed.
End Reply.

(** [xdp_dns_finish] on a packet of 54 header bytes, a question and 16 bytes
    to be overwritten. *)
Lemma xdp_dns_finish_reply hdr42 dns q w ans brest :
  length hdr42 = 42%nat -> length dns = 12%nat -> length w = 16%nat -> length ans = 16%nat ->
  bytes_ok (hdr42 ++ dns ++ q) -> bytes_ok ans ->
  54 + Z.of_nat (length q) + 16 < 65536 ->
  xdp_dns_finish (hdr42 ++ dns ++ q ++ w) (ans ++ brest) (Z.of_nat (length q)) 16
  = (let len := 54 + Z.of_nat (length q) + 16 in
     let p := hdr42 ++ dns ++ q ++ ans in
     p ← st16 p 16 (bpf_htons (len - 14));
     p ← st16 p 38 (bpf_htons (u16 (len - 14 - 20)));
     p ← swap_mac p 6 0;
     p ← swap32 p 26 30;
     p ← st16 p 40 0;
     p ← swap16 p 34 36;
     p ← update_ip_checksum p 14 20 24;
     Some (XDP_TX, {| pkt := p; dns_buffer := ans ++ brest |})).
Proof.
  intros L1 L2 L3 L4 Hb Ha Hlen. unfold xdp_dns_finish.
  set (P := hdr42 ++ dns ++ q ++ w).
  assert (LP : Z.of_nat (length P) = 54 + Z.of_nat (length q) + 16)
    by (unfold P; rewrite !length_app; lia).
  assert (HC : copy_to_pkt_buf P (54 + Z.of_nat (length q)) (ans ++ brest) 16
               = Some (hdr42 ++ dns ++ q ++ ans)).
  { unfold copy_to_pkt_buf. rewrite LP.
    replace (_ >=? _) with true by (symmetry; apply Z.geb_le; lia). cbn [Z.eqb Pos.eqb].
    unfold builtin_memcpy. pose proof (ld_bytes_app ans [] brest) as El.
    cbn [app] in El. rewrite L4 in El. change (Z.of_nat (length (@nil Z))) with 0 in El.
    rewrite El. cbn [mbind option_bind].
    replace (54 + Z.of_nat (length q)) with (Z.of_nat (length (hdr42 ++ dns ++ q)))
      by (rewrite !length_app; lia).
    unfold P. rewrite (app_assoc dns), (app_assoc hdr42 (dns ++ q) w).
    rewrite <- (app_nil_r w) at 1. rewrite st_bytes_app; [|congruence|done].
    by rewrite app_nil_r, <- !app_assoc. }
  unfold sizeof_ethhdr, sizeof_iphdr, sizeof_udphdr, sizeof_dns_hdr.
  change (14 + 20 + 8 + 12) with 54. rewrite HC. cbn [mbind option_bind]. rewrite LP.
  destruct (_ <? 14 + 20 + 8) eqn:?; zbool; [lia|].
  rewrite (wrap_small 16 (54 + Z.of_nat (length q) + 16 - 14)) by (pow2; lia). done.
Qed.

Lemma lor_128_byte f : is_byte f -> is_byte (Z.lor f 128).
Proof.
  intros Hf. unfold is_byte in *.
  assert (0 <= Z.lor f 128) by (apply Z.lor_nonneg; lia). split; [done|].
  destruct (Z.eq_dec (Z.lor f 128) 0) as [->|Hn]; [lia|].
  change 256 with (2 ^ 8). apply Z.log2_lt_pow2; [lia|]. rewrite Z.log2_lor by lia.
  assert (Z.log2 f < 8).
  { destruct (Z.eq_dec f 0) as [->|]; [done|]. apply Z.log2_lt_pow2; [lia|]. pow2; lia. }
  change (Z.log2 128) with 7. lia.
Qed.

(** The header modification on explicit cells. *)
Lemma modify_dns_header_response_eq hdr42 i0 i1 f1 f2 c0 c1 a0 a1 tl :
  length hdr42 = 42%nat -> is_byte f1 -> is_byte f2 ->
  modify_dns_header_response (hdr42 ++ i0 :: i1 :: f1 :: f2 :: c0 :: c1 :: a0 :: a1 :: tl) 42
  = Some (hdr42 ++ i0 :: i1 :: Z.lor f1 128 :: Z.lor f2 128 :: c0 :: c1 :: 0 :: 1 :: tl).
Proof.
  intros Hl H1 H2.
  assert (Hlor : forall f, is_byte f -> u8 (Z.lor f 128) = Z.lor f 128)
    by (intros; by apply u8_id, lor_128_byte).
  unfold modify_dns_header_response. cells. cbn [app].
  cell_load. cell_step. cell_load. cell_step. cell_step.
  rewrite !Hlor by done. done.
Qed.

Section Request.
Context {M : Type} `{!BpfMapOps dns_query a_record M}.
Variable adjust_tail : list Z -> Z -> option (list Z).

Definition frame_hdr (r : request) : list Z :=
  eth_dst r ++ eth_src r ++ [8; 0] ++
  ip_ver_tos r ++ ip_len r ++ ip_mid r ++ [IPPROTO_UDP] ++ ip_chk r ++ ip_src r ++ ip_dst r ++
  udp_src r ++ [0; 53] ++ udp_len r ++ udp_chk r.

Lemma request_bytes_split r :
  request_bytes r
  = frame_hdr r ++ (dns_id r ++ [flags1 r; flags2 r] ++ dns_qd r ++ dns_an r ++ dns_ns_ar r) ++
    question r ++ trailer r.
Proof. unfold request_bytes, frame_hdr. by rewrite <- !app_assoc. Qed.

Lemma marked_bytes_split r :
  marked_bytes r
  = frame_hdr r ++ (dns_id r ++ [Z.lor (flags1 r) 128; Z.lor (flags2 r) 128] ++ dns_qd r ++
      [0; 1] ++ dns_ns_ar r) ++ question r ++ trailer r.
Proof. unfold marked_bytes, frame_hdr. by rewrite <- !app_assoc. Qed.

Lemma frame_hdr_length r : request_wf r -> length (frame_hdr r) = 42%nat.
Proof.
  unfold request_wf, frame_hdr. intros H. destruct_and! H.
  rewrite !length_app. simpl. lia.
Qed.

Lemma request_wf_bytes r :
  request_wf r ->
  bytes_ok (frame_hdr r) /\ bytes_ok [flags1 r; flags2 r] /\ bytes_ok (dns_id r) /\
  bytes_ok (dns_qd r) /\ bytes_ok (dns_ns_ar r) /\ bytes_ok (question r).
Proof.
  intros Hwf. assert (Hb : bytes_ok (request_bytes r)) by apply Hwf. clear Hwf.
  unfold bytes_ok in *. rewrite request_bytes_split, !Forall_app in Hb. tauto.
Qed.

(** A request with a cached key reaches the answering code. *)
Lemma xdp_dns_hit (recs : M) r a buf :
  request_wf r -> bpf_map_lookup_elem recs (request_key r) = Some a ->
  xdp_dns adjust_tail recs {| pkt := request_bytes r; dns_buffer := buf |}
  = xdp_dns_answer adjust_tail {| pkt := request_bytes r; dns_buffer := buf |} 42
      (Z.of_nat (length (question r))) a.
Proof.
  intros Hwf Hrec. pose proof (frame_hdr_length r Hwf) as L42.
  pose proof (request_bytes_split r) as Hsplit.
  destruct (request_wf_bytes r Hwf) as (_ & Hbf & _ & _ & _ & Hbq).
  assert (Hq : parse_query (request_bytes r) 54
               = Some (Z.of_nat (length (question r)), request_key r)).
  { unfold request_wf in Hwf. destruct_and! Hwf. rewrite Hsplit.
    rewrite app_assoc. set (pre := frame_hdr r ++ _).
    assert (Lpre : Z.of_nat (length pre) = 54).
    { unfold pre. rewrite !length_app. simpl. lia. }
    rewrite <- Lpre. unfold question, request_key.
    destruct (qtype r) as [|t1 [|t0 [|? ?]]] eqn:Et; try done.
    destruct (qclass r) as [|c1 [|c0 [|? ?]]] eqn:Ec; try done.
    rewrite <- !app_assoc. cbn [app hd tail].
    pose proof (parse_query_question pre (qname r) t1 t0 c1 c0 (trailer r)) as Hpq.
    cbn [app] in Hpq. rewrite Hpq.
    - f_equal. f_equal. rewrite length_app. simpl. lia.
    - done.
    - unfold question in Hbq. rewrite Et, Ec in Hbq. unfold bytes_ok in Hbq |- *.
      apply Forall_app in Hbq as [? Hbq]. inversion Hbq. by apply Forall_app.
    - done. }
  assert (LP : 54 <= Z.of_nat (length (request_bytes r))).
  { rewrite Hsplit, !length_app. unfold request_wf in Hwf. destruct_and! Hwf. simpl. lia. }
  assert (Hld : ld16 (request_bytes r) 12 = Some 8 /\ ld8 (request_bytes r) 23 = Some 17 /\
                ld16 (request_bytes r) 36 = Some (256 * 53) /\
                exists h, dns_hdr_at (request_bytes r) 42 = Some h /\ qr h = 0 /\ opcode h = 0).
  { unfold request_wf in Hwf. destruct_and! Hwf.
    assert (Hf : is_byte (flags1 r)).
    { by inversion Hbf. }
    destruct r; simpl in *; cells. repeat split. eexists. split; [reflexivity|].
    simpl. split; width_lia. }
  destruct Hld as (E1 & E2 & E3 & h & E4 & Hqr & Hop).
  unfold xdp_dns. cbn [pkt]. unfold sizeof_ethhdr, sizeof_iphdr, sizeof_udphdr, sizeof_dns_hdr.
  zcase; [lia|]. rewrite E1. cbn [mbind option_bind].
  change (negb (8 =? bswap16 2048)) with false. cbv iota.
  change (14 + 9) with 23. rewrite E2. cbn [mbind option_bind].
  change (17 =? IPPROTO_UDP) with true. cbv iota.
  zcase; [lia|]. change (14 + 20 + 2) with 36. rewrite E3. cbn [mbind option_bind].
  change (256 * 53 =? bswap16 53) with true. cbv iota. zcase; [lia|].
  change (14 + 20 + 8) with 42. rewrite E4. cbn [mbind option_bind]. rewrite Hqr, Hop.
  cbn [Z.eqb andb]. change (42 + 12) with 54. rewrite Hq. cbn [mbind option_bind].
  zcase.
  { exfalso. unfold question in *. rewrite !length_app in *. simpl in *. lia. }
  unfold match_a_records. rewrite Hrec. by destruct a.
Qed.

(** The header rewriting of a request. *)
Lemma modify_request r :
  request_wf r ->
  modify_dns_header_response (request_bytes r) 42 = Some (marked_bytes r).
Proof.
  rewrite marked_bytes_split.
  intros Hwf. pose proof (frame_hdr_length r Hwf) as L42.
  assert (Hf : is_byte (flags1 r) /\ is_byte (flags2 r)).
  { destruct (request_wf_bytes r Hwf) as (_ & Hbf & _).
    inversion Hbf as [|? ? ? Hbf']. by inversion Hbf'. }
  destruct Hf as [Hf1 Hf2]. rewrite request_bytes_split.
  unfold request_wf in Hwf. destruct_and! Hwf.
  destruct (dns_id r) as [|i0 [|i1 [|? ?]]]; try done.
  destruct (dns_qd r) as [|c0 [|c1 [|? ?]]]; try done.
  destruct (dns_an r) as [|a0 [|a1 [|? ?]]]; try done.
  cbn [app]. rewrite modify_dns_header_response_eq by done. done.
Qed.
End Request.

(** The header rewriting of [xdp_dns_finish] on a request's frame. *)
Lemma finish_frame r len tl :
  request_wf r -> bytes_ok tl -> 0 <= len < 65536 ->
  (p ← st16 (frame_hdr r ++ tl) 16 (bpf_htons len);
   p ← st16 p 38 (bpf_htons (u16 (len - 20)));
   p ← swap_mac p 6 0;
   p ← swap32 p 26 30;
   p ← st16 p 40 0;
   p ← swap16 p 34 36;
   update_ip_checksum p 14 20 24)
  = Some (eth_src r ++ eth_dst r ++ [8; 0] ++
          reply_ip r (len + 14) (le16 (rfc1071 (reply_ip r (len + 14) [0; 0]))) ++
          [0; 53] ++ udp_src r ++ be16 (u16 (len - 20)) ++ [0; 0] ++ tl).
Proof.
  intros Hwf Ht Hlen. assert (Hb : bytes_ok (frame_hdr r ++ tl)).
  { unfold bytes_ok in *. apply Forall_app. split; [by apply request_wf_bytes|done]. }
  unfold reply_ip. replace (len + 14 - 14) with len by lia.
  unfold request_wf in Hwf. destruct_and! Hwf. destruct r; simpl in *; cells.
  eapply finish_header; done.
Qed.

Lemma answer_bytes_ok a : length (answer_bytes a) = 16%nat /\ bytes_ok (answer_bytes a).
Proof.
  split; [done|]. unfold answer_bytes, bytes_ok, be16, be32, le32. cbn [app].
  repeat (apply Forall_cons; split; [first [apply u8_byte|unfold is_byte; lia]|]). done.
Qed.

(** A resized packet keeps the common prefix and has the new length. *)
Lemma adjust_tail_prefix (adjust : list Z -> Z -> option (list Z)) pre t delta p' k :
  adjust_tail_ok adjust -> adjust (pre ++ t) delta = Some p' ->
  Z.of_nat (length t) + delta = Z.of_nat k ->
  exists w, p' = pre ++ w /\ length w = k.
Proof.
  intros Hadj Ha Hk. destruct (Hadj _ _ _ Ha) as (Hl & n & Ht & Hn).
  rewrite length_app in Hl.
  exists (drop (length pre) p'). split; [|rewrite length_drop; lia].
  rewrite <- (take_drop (length pre) p') at 1. f_equal.
  apply (f_equal (take (length pre))) in Ht.
  rewrite !take_take, Nat.min_l in Ht by (rewrite length_app in Hn; lia).
  by rewrite Ht, take_app_length.
Qed.

(** Re-associate the binds of [xdp_dns_finish]: the header rewriting, then
    the verdict. *)
Lemma finish_bind {B} (p0 : list Z) (o1 o2 : Z) (k : list Z -> option B) p' :
  (p ← st16 p0 16 o1; p ← st16 p 38 o2; p ← swap_mac p 6 0; p ← swap32 p 26 30;
   p ← st16 p 40 0; p ← swap16 p 34 36; update_ip_checksum p 14 20 24) = Some p' ->
  (p ← st16 p0 16 o1; p ← st16 p 38 o2; p ← swap_mac p 6 0; p ← swap32 p 26 30;
   p ← st16 p 40 0; p ← swap16 p 34 36; p ← update_ip_checksum p 14 20 24; k p) = k p'.
Proof.
  intros H. do 6 (apply bind_Some in H as (? & E & H); rewrite E; cbn [mbind option_bind]; clear E).
  by rewrite H.
Qed.

Lemma zsum_insert ws k v w :
  ws !! k = Some w -> zsum (<[k := v]> ws) = zsum ws - w + v.
Proof.
  revert k. induction ws as [|x ws IH]; intros [|k] H; simpl in *; simplify_eq.
  - unfold zsum. simpl. lia.
  - specialize (IH _ H). unfold zsum in *. simpl. lia.
Qed.

Lemma ld16_insert_ne p off i j a b :
  0 <= off -> (i <> Z.to_nat off)%nat -> (i <> S (Z.to_nat off))%nat ->
  (j <> Z.to_nat off)%nat -> (j <> S (Z.to_nat off))%nat ->
  ld16 (<[i := a]> (<[j := b]> p)) off = ld16 p off.
Proof.
  intros. unfold ld16, ld8. destruct (off <? 0) eqn:?; zbool; [lia|].
  destruct (off + 1 <? 0) eqn:?; zbool; [lia|].
  replace (Z.to_nat (off + 1)) with (S (Z.to_nat off)) by lia.
  by rewrite !list_lookup_insert_ne by done.
Qed.

Lemma ld16_stored p off v :
  0 <= off -> off + 2 <= Z.of_nat (length p) -> 0 <= v < 65536 ->
  ld16 (<[Z.to_nat (off + 1) := u8 (v / 256)]> (<[Z.to_nat off := u8 v]> p)) off = Some v.
Proof.
  intros. unfold ld16, ld8. destruct (off <? 0) eqn:?; zbool; [lia|].
  destruct (off + 1 <? 0) eqn:?; zbool; [lia|].
  rewrite (list_lookup_insert_ne _ (Z.to_nat (off + 1)) (Z.to_nat off)) by lia.
  rewrite (list_lookup_insert_eq p (Z.to_nat off)) by lia.
  cbn [mbind option_bind]. rewrite list_lookup_insert_eq by (rewrite length_insert; lia).
  cbn [mbind option_bind]. f_equal. width_lia.
Qed.

(** Storing a value at the skipped word makes the full loop see it. *)
Lemma loop_words_store_before n : forall p data loc i ws a b,
  0 <= data + i -> data + i + 2 * Z.of_nat n <= loc \/ loc + 2 <= data + i ->
  loop_words n p data loc i = Some ws -> 0 <= loc ->
  loop_words n (<[Z.to_nat (loc + 1) := a]> (<[Z.to_nat loc := b]> p)) data (-1) i = Some ws.
Proof.
  induction n as [|n IH]; intros p data loc i ws a b H1 H2 Hw Hl; cbn [loop_words] in *; [done|].
  inv_bind Hw. simplify_eq.
  destruct (data + i =? loc) eqn:E; zbool; [lia|].
  destruct (data + i =? -1) eqn:E'; zbool; [lia|].
  rewrite ld16_insert_ne by lia. rewrite H. cbn [mbind option_bind].
  rewrite (IH _ _ _ _ x0) by (done || lia). done.
Qed.

Lemma loop_words_store_at n : forall k p data i ws v,
  (k < n)%nat -> 0 <= data + i -> data + i + 2 * Z.of_nat n <= Z.of_nat (length p) ->
  0 <= v < 65536 ->
  let loc := data + i + 2 * Z.of_nat k in
  loop_words n p data loc i = Some ws ->
  loop_words n (<[Z.to_nat (loc + 1) := u8 (v / 256)]> (<[Z.to_nat loc := u8 v]> p)) data (-1) i
  = Some (<[k := v]> ws) /\ ws !! k = Some 0.
Proof.
  induction n as [|n IH]; intros k p data i ws v Hk H1 H2 Hv loc Hw; [lia|].
  cbn [loop_words] in *. inv_bind Hw. simplify_eq.
  destruct (data + i =? -1) eqn:E'; zbool; [lia|].
  destruct k as [|k].
  - replace loc with (data + i) in * by lia. rewrite Z.eqb_refl in *. simplify_eq.
    rewrite ld16_stored by lia. cbn [mbind option_bind].
    rewrite (loop_words_store_before n p data (data + i) (i + 2) x0) by (done || lia). done.
  - destruct (data + i =? loc) eqn:E; zbool; [lia|].
    rewrite ld16_insert_ne by lia. rewrite H. cbn [mbind option_bind].
    destruct (IH k p data (i + 2) x0 v) as [IH1 IH2]; [lia..| |].
    + replace (data + (i + 2) + 2 * Z.of_nat k) with loc by lia. done.
    + replace (data + (i + 2) + 2 * Z.of_nat k) with loc in IH1 by lia.
      rewrite IH1. cbn [mbind option_bind]. done.
Qed.

Lemma loop_words_store n k p data ws v :
  (k < n)%nat -> 0 <= data -> data + 2 * Z.of_nat n <= Z.of_nat (length p) ->
  0 <= v < 65536 ->
  let loc := data + 2 * Z.of_nat k in
  loop_words n p data loc 0 = Some ws ->
  loop_words n (<[Z.to_nat (loc + 1) := u8 (v / 256)]> (<[Z.to_nat loc := u8 v]> p)) data (-1) 0
  = Some (<[k := v]> ws) /\ ws !! k = Some 0.
Proof.
  intros ? ? ? ? loc Hw. pose proof (loop_words_store_at n k p data 0 ws v) as H'.
  rewrite Z.add_0_r in H'. apply H'; try lia. done.
Qed.

Lemma lor_128_high f : is_byte f -> 128 <= Z.lor f 128 < 256 /\ (f < 128 -> Z.lor f 128 <> f).
Proof.
  intros Hf. pose proof (lor_128_byte f Hf) as Hb. unfold is_byte in *.
  assert (128 <= Z.lor f 128).
  { assert (0 < Z.lor f 128).
    { destruct (Z.eq_dec (Z.lor f 128) 0) as [E|]; [|lia]. by apply Z.lor_eq_0_iff in E as [_ ?]. }
    change 128 with (2 ^ 7) at 1. apply Z.log2_le_pow2; [done|]. rewrite Z.log2_lor by lia.
    change (Z.log2 128) with 7. lia. }
  lia.
Qed.

(** The tail adjustment of an answered request. *)
Lemma request_tail_adjust r :
  request_wf r ->
  s32 (42 + sizeof_dns_hdr + Z.of_nat (length (question r)) + 16
       - Z.of_nat (length (request_bytes r)))
  = reply_tail_delta r.
Proof.
  unfold reply_tail_delta.
  intros Hwf. pose proof (frame_hdr_length r Hwf) as L42.
  assert (Llen : Z.of_nat (length (request_bytes r))
                 = 54 + Z.of_nat (length (question r)) + Z.of_nat (length (trailer r))).
  { rewrite request_bytes_split. unfold request_wf in Hwf. destruct_and! Hwf.
    rewrite !length_app, L42. simpl. lia. }
  assert (Lmax : Z.of_nat (length (request_bytes r)) < 65536) by apply Hwf.
  unfold sizeof_dns_hdr. rewrite swrap_small; [lia|lia|].
  change (2 ^ (32 - 1)) with 2147483648. lia.
Qed.

(** ** Correctness *)

Section Theorems.
Context {M : Type} `{!BpfMapOps dns_query a_record M}.
Variable adjust_tail : list Z -> Z -> option (list Z).

(** C1: the answer to a cached query.  For every well-formed request whose
    key is in the cache, if the helper resizes this packet (the request
    with its header marked, by the 16 bytes of the answer less the bytes
    after the question) the program answers XDP_TX and the packet it leaves is exactly the reply of the
    specification: addresses and ports swapped, lengths and IP checksum
    recomputed, the header flags set, the question kept and the cached
    address as the answer. *)
Theorem xdp_dns_reply (recs : M) (r : request) (a : a_record) (buf : list Z) :
  request_wf r -> length buf = 512%nat ->
  bpf_map_lookup_elem recs (request_key r) = Some a ->
  adjust_tail_ok adjust_tail ->
  is_Some (adjust_tail (marked_bytes r) (reply_tail_delta r)) ->
  exists buf', xdp_dns adjust_tail recs {| pkt := request_bytes r; dns_buffer := buf |}
    = Some (XDP_TX, {| pkt := reply_bytes r a; dns_buffer := buf' |}).
Proof.
  intros Hwf Hbuf Hrec Hadj [p' Hp']. eexists.
  rewrite (xdp_dns_hit adjust_tail recs r a buf Hwf Hrec).
  unfold xdp_dns_answer. cbn [pkt dns_buffer]. rewrite (modify_request r Hwf).
  cbn [mbind option_bind]. rewrite (create_query_response_eq a buf Hbuf).
  cbn [mbind option_bind]. pose proof (frame_hdr_length r Hwf) as L42.
  set (dns := dns_id r ++ [Z.lor (flags1 r) 128; Z.lor (flags2 r) 128] ++ dns_qd r ++ [0; 1] ++
    dns_ns_ar r).
  assert (Ldns : length dns = 12%nat).
  { unfold dns. unfold request_wf in Hwf. destruct_and! Hwf. rewrite !length_app. simpl. lia. }
  assert (Lq : Z.of_nat (length (question r)) < 300).
  { unfold request_wf, MAX_DNS_NAME_LENGTH in Hwf. destruct_and! Hwf.
    unfold question. rewrite !length_app. simpl. lia. }
  rewrite (request_tail_adjust r Hwf), Hp'.
  rewrite marked_bytes_split, (app_assoc _ (question r)), (app_assoc (frame_hdr r)) in Hp'.
  fold dns in Hp'. destruct (adjust_tail_prefix _ _ _ _ _ 16 Hadj Hp') as (w & -> & Lw); [unfold reply_tail_delta; lia|].
  rewrite <- !app_assoc. destruct (answer_bytes_ok a) as [La Ba].
  destruct (request_wf_bytes r Hwf) as (B1 & B2 & B3 & B4 & B5 & B6).
  assert (Bdns : bytes_ok dns).
  { unfold dns, bytes_ok in *. rewrite !Forall_app. repeat split; try done.
    - inversion B2 as [|? ? ? B2']. inversion B2'. subst.
      repeat (apply Forall_cons; split; [by apply lor_128_byte|]). done.
    - by repeat constructor. }
  rewrite xdp_dns_finish_reply; [|done|done|done|done| |done|lia].
  2: { unfold bytes_ok in *. by rewrite !Forall_app. }
  cbv zeta. set (len := 54 + Z.of_nat (length (question r)) + 16).
  pose proof (finish_frame r (len - 14) (dns ++ question r ++ answer_bytes a) Hwf) as Hfin.
  replace (len - 14 + 14) with len in Hfin by lia.
  erewrite finish_bind; [|apply Hfin; [|lia]].
  2: { unfold bytes_ok in *. by rewrite !Forall_app. }
  do 3 f_equal. unfold reply_bytes. fold len. cbv zeta.
  rewrite (wrap_small 16) by (pow2; lia). replace (len - 14 - 20) with (len - 34) by lia.
  unfold dns. by rewrite <- !app_assoc.
Qed.

(** C19: memory safety and totality of the XDP program.  On every packet,
    whatever its length and contents, and whatever the cache and the tail
    adjustment answer, [xdp_dns] finishes without an access outside the
    packet or the answer buffer, with verdict XDP_PASS or XDP_TX. *)
Theorem xdp_dns_safe (recs : M) (st : xdp_state) :
  length (dns_buffer st) = 512%nat ->
  exists r st', xdp_dns adjust_tail recs st = Some (r, st') /\
    (r = XDP_PASS \/ r = XDP_TX) /\ length (dns_buffer st') = 512%nat.
Proof.
  intros Hb. unfold xdp_dns. cbv zeta.
  set (P := exists r st', _).
  assert (HP : exists r st', Some (XDP_PASS, st) = Some (r, st') /\
      (r = XDP_PASS \/ r = XDP_TX) /\ length (dns_buffer st') = 512%nat)
    by (eexists _, _; repeat split; [by left|done]).
  unfold P, sizeof_ethhdr, sizeof_iphdr, sizeof_udphdr, sizeof_dns_hdr. clear P.
  zcase; [done|]. do 2 mem_step. zcase; [done|]. zcase; [|done].
  zcase; [done|]. mem_step. zcase; [|done]. zcase; [done|].
  destruct (dns_hdr_at_ok (pkt st) (14 + 20 + 8)) as [h ->]; [lia..|].
  cbn [mbind option_bind]. zcase; [|done].
  destruct (parse_query_total (pkt st) (14 + 20 + 8 + 12)) as (n & q & -> & Hn); [lia|].
  cbn [mbind option_bind]. zcase; [done|].
  unfold match_a_records. destruct (bpf_map_lookup_elem recs q) as [a|]; [|done].
  cbn [Z.eqb]. unfold xdp_dns_answer, sizeof_dns_hdr. cbv zeta.
  destruct (modify_dns_header_response_ok (pkt st) (14 + 20 + 8)) as (p1 & -> & L1); [lia..|].
  cbn [mbind option_bind].
  match goal with |- context [create_query_response ?a' ?b ?s] =>
    destruct (create_query_response_ok a' b Hb) as (buf & -> & Lb) end.
  cbn [mbind option_bind]. destruct (adjust_tail _ _) as [p2|].
  - destruct (xdp_dns_finish_ok p2 buf n) as (r & st' & Er & Hr & Hl & _); [lia|done|].
    by exists r, st'.
  - eexists _, _. repeat split; simpl; [by left|done].
Qed.

(** Packets that are not answered are not touched.  Unless the packet
    carries a question the cache knows, [xdp_dns] passes it on and neither
    the packet nor the answer buffer changes. *)
Theorem xdp_dns_miss (recs : M) (st : xdp_state) :
  (forall n q, parse_query (pkt st) 54 = Some (n, q) -> bpf_map_lookup_elem recs q = None) ->
  exists r, xdp_dns adjust_tail recs st = Some (r, st) /\ r = XDP_PASS.
Proof.
  intros Hmiss. unfold xdp_dns. cbv zeta.
  assert (HP : exists r, Some (XDP_PASS, st) = Some (r, st) /\ r = XDP_PASS) by by eexists.
  unfold sizeof_ethhdr, sizeof_iphdr, sizeof_udphdr, sizeof_dns_hdr.
  zcase; [done|]. do 2 mem_step. zcase; [done|]. zcase; [|done].
  zcase; [done|]. mem_step. zcase; [|done]. zcase; [done|].
  destruct (dns_hdr_at_ok (pkt st) (14 + 20 + 8)) as [h ->]; [lia..|].
  cbn [mbind option_bind]. zcase; [|done].
  change (14 + 20 + 8 + 12) with 54.
  destruct (parse_query_total (pkt st) 54) as (n & q & Hpq & _); [lia|].
  rewrite Hpq. cbn [mbind option_bind]. zcase; [done|].
  unfold match_a_records. by rewrite (Hmiss _ _ Hpq).
Qed.

(** C40: the failed tail adjustment.  When a query is answered but the
    helper does not resize this packet, the program passes the packet to the network
    stack with QR, RA and the answer count already set: the resolver sees a
    response where the client sent a query. *)
Theorem xdp_dns_tail_failure (recs : M) (r : request) (a : a_record) (buf : list Z) :
  request_wf r -> length buf = 512%nat ->
  bpf_map_lookup_elem recs (request_key r) = Some a ->
  adjust_tail (marked_bytes r) (reply_tail_delta r) = None ->
  exists p' buf' h,
    xdp_dns adjust_tail recs {| pkt := request_bytes r; dns_buffer := buf |}
    = Some (XDP_PASS, {| pkt := p'; dns_buffer := buf' |}) /\
    dns_hdr_at p' 42 = Some h /\ qr h = 1 /\ ra h = 1 /\ ans_count h = bpf_htons 1 /\
    p' <> request_bytes r.
Proof.
  intros Hwf Hbuf Hrec Hnone.
  rewrite (xdp_dns_hit adjust_tail recs r a buf Hwf Hrec).
  unfold xdp_dns_answer. cbn [pkt dns_buffer]. rewrite (modify_request r Hwf).
  cbn [mbind option_bind]. rewrite (create_query_response_eq a buf Hbuf).
  cbn [mbind option_bind]. rewrite (request_tail_adjust r Hwf), Hnone.
  destruct (request_wf_bytes r Hwf) as (_ & B2 & _).
  inversion B2 as [|? ? B1 B2']; inversion B2' as [|? ? B3 _]; subst.
  eexists _, _. rewrite marked_bytes_split.
  enough (exists h, dns_hdr_at (frame_hdr r ++ (dns_id r ++
    [Z.lor (flags1 r) 128; Z.lor (flags2 r) 128] ++ dns_qd r ++ [0; 1] ++ dns_ns_ar r) ++
    question r ++ trailer r) 42 = Some h /\ qr h = 1 /\ ra h = 1 /\ ans_count h = bpf_htons 1) as [h Hh].
  { exists h. split; [done|]. repeat split; try apply Hh. rewrite request_bytes_split.
    intros E. apply app_inv_head in E. unfold request_wf in Hwf. destruct_and! Hwf.
    apply (f_equal (fun l => nth 2 l 0)) in E.
    destruct (dns_id r) as [|? [|? [|? ?]]]; try done. simpl in E.
    pose proof (lor_128_high (flags1 r) B1). width_lia. }
  unfold request_wf in Hwf. destruct_and! Hwf.
  pose proof (lor_128_high (flags1 r) B1). pose proof (lor_128_high (flags2 r) B3).
  destruct r; simpl in *; cells. eexists. split; [reflexivity|]. simpl. repeat split; width_lia.
Qed.
End Theorems.

(** C33: the IP checksum.  After [update_ip_checksum] over an even number of
    bytes, the header verifies: running the program's own accumulation over
    the whole range, checksum included, folds to zero (RFC 1071), and only
    the two checksum bytes changed. *)
Theorem update_ip_checksum_verifies (p : list Z) (data : Z) (n k : nat) :
  bytes_ok p -> 0 <= data -> data + 2 * Z.of_nat n <= Z.of_nat (length p) ->
  Z.of_nat n < 65536 -> (k < n)%nat ->
  let len := 2 * Z.of_nat n in
  let loc := data + 2 * Z.of_nat k in
  exists p' t,
    update_ip_checksum p data len loc = Some p' /\
    (forall i, i <> Z.to_nat loc -> i <> S (Z.to_nat loc) -> p' !! i = p !! i) /\
    checksum_loop (S (Z.to_nat len)) p' data len (-1) 0 0 = Some t /\
    checksum_fold t = 0.
Proof.
  intros Hp Hd Hl Hn Hk len loc.
  destruct (update_ip_checksum_eq p data n loc Hp) as (ws & Hws & E); [lia..|].
  destruct (loop_words_range _ _ _ _ _ _ Hp Hws) as [Hr Hlw].
  pose proof (zsum_range _ Hr) as Hz.
  pose proof (ones_sum_range (zsum ws) ltac:(lia)) as Ho.
  set (chk := 65535 - ones_sum (zsum ws)) in *.
  assert (Hchk : 0 <= chk < 65536) by lia.
  fold len in E. rewrite E, st16_eq by lia.
  set (p' := <[_ := _]> (<[_ := _]> p)).
  assert (Hp' : bytes_ok p').
  { unfold p', bytes_ok. apply Forall_insert; [|apply u8_byte].
    apply Forall_insert; [done|apply u8_byte]. }
  exists p', (zsum ws + chk). split; [done|]. split.
  { intros i H1 H2. unfold p'. rewrite !list_lookup_insert_ne by lia. done. }
  assert (Hws' : loop_words n p' data (-1) 0 = Some (<[k := chk]> ws) /\ ws !! k = Some 0).
  { apply loop_words_store; [lia..|]. done. }
  destruct Hws' as [Hws' Hk0]. split.
  - rewrite (checksum_loop_words n _ p' data _ (-1) 0 0 (<[k := chk]> ws)); [|lia|lia|done|done|lia|].
    + by rewrite (zsum_insert _ _ _ _ Hk0), Z.sub_0_r, Z.add_0_l.
    + rewrite (zsum_insert _ _ _ _ Hk0). lia.
  - unfold chk. rewrite <- checksum_fold_eq by lia. apply checksum_fold_verify; lia.
Qed.

(** ** A concrete run *)

(** A packet buffer that can always be resized; new bytes are zero. *)
Definition resize (p : list Z) (delta : Z) : option (list Z) :=
  let len := Z.of_nat (length p) + delta in
  if len <? 0 then None else Some (take (Z.to_nat len) (p ++ replicate (Z.to_nat delta) 0)).

Definition ex_request : request :=
  {| eth_dst := [2; 0; 0; 0; 0; 1]; eth_src := [2; 0; 0; 0; 0; 2];
     ip_ver_tos := [69; 0]; ip_len := [0; 47]; ip_mid := [18; 52; 64; 0; 64]; ip_chk := [1; 2];
     ip_src := [10; 0; 0; 2]; ip_dst := [10; 0; 0; 1];
     udp_src := [200; 1]; udp_len := [0; 27]; udp_chk := [9; 9];
     dns_id := [171; 205]; flags1 := 1; flags2 := 0;
     dns_qd := [0; 1]; dns_an := [0; 0]; dns_ns_ar := [0; 0; 0; 0];
     qname := [1; 97]; qtype := [0; 1]; qclass := [0; 1]; trailer := [7; 7; 7] |}.

Definition ex_record : a_record := {| ip_addr := 16909322; ttl := 300 |}.

Definition ex_records : Hmap dns_query a_record :=
  mkHmap 64%nat {[ request_key ex_request := ex_record ]}.

Lemma resize_ok : adjust_tail_ok resize.
Proof.
  intros p delta p'. unfold resize. destruct (_ <? 0) eqn:?; [done|]. zbool. intros [= <-].
  split.
  - rewrite length_take, length_app, length_replicate. lia.
  - eexists. split; [|done]. rewrite length_take, length_app, length_replicate.
    rewrite take_take. rewrite take_app_le by lia. f_equal. lia.
Qed.

Lemma ex_request_wf : request_wf ex_request.
Proof.
  unfold request_wf. repeat split.
  all: try (vm_compute; lia).
  all: vm_compute; repeat constructor; discriminate.
Qed.

Lemma xdp_dns_safe_witness :
  exists r st', xdp_dns resize ex_records {| pkt := [1; 2; 3]; dns_buffer := replicate 512 0 |}
    = Some (r, st') /\ (r = XDP_PASS \/ r = XDP_TX) /\ length (dns_buffer st') = 512%nat.
Proof. apply (xdp_dns_safe resize ex_records). reflexivity. Defined.

Lemma xdp_dns_reply_witness :
  exists buf', xdp_dns resize ex_records
      {| pkt := request_bytes ex_request; dns_buffer := replicate 512 0 |}
    = Some (XDP_TX, {| pkt := reply_bytes ex_request ex_record; dns_buffer := buf' |}).
Proof.
  apply (xdp_dns_reply resize ex_records ex_request ex_record).
  - apply ex_request_wf.
  - reflexivity.
  - vm_compute. reflexivity.
  - apply resize_ok.
  - eexists. vm_compute. reflexivity.
Defined.

Lemma xdp_dns_miss_witness :
  exists r, xdp_dns resize (mkHmap (K := dns_query) (V := a_record) 1 ∅)
      {| pkt := request_bytes ex_request; dns_buffer := [] |}
    = Some (r, {| pkt := request_bytes ex_request; dns_buffer := [] |}) /\ r = XDP_PASS.
Proof. apply (xdp_dns_miss resize). intros n q _. reflexivity. Defined.

Lemma xdp_dns_tail_failure_witness :
  exists p' buf' h,
    xdp_dns (fun _ _ => None) ex_records
      {| pkt := request_bytes ex_request; dns_buffer := replicate 512 0 |}
    = Some (XDP_PASS, {| pkt := p'; dns_buffer := buf' |}) /\
    dns_hdr_at p' 42 = Some h /\ qr h = 1 /\ ra h = 1 /\ ans_count h = bpf_htons 1 /\
    p' <> request_bytes ex_request.
Proof.
  apply (xdp_dns_tail_failure (fun _ _ => None) ex_records ex_request ex_record).
  - apply ex_request_wf.
  - reflexivity.
  - vm_compute. reflexivity.
  - reflexivity.
Defined.

Lemma update_ip_checksum_verifies_witness :
  exists p' t,
    update_ip_checksum (request_bytes ex_request) 14 20 24 = Some p' /\
    (forall i, i <> 24%nat -> i <> 25%nat -> p' !! i = request_bytes ex_request !! i) /\
    checksum_loop 21 p' 14 20 (-1) 0 0 = Some t /\ checksum_fold t = 0.
Proof.
  apply (update_ip_checksum_verifies (request_bytes ex_request) 14 10 5).
  - vm_compute. repeat (constructor; [split; [discriminate|reflexivity]|]). constructor.
  - lia.
  - vm_compute. discriminate.
  - lia.
  - lia.
Defined.
