(* ===== verification/Layer.v ===== *)
(** * The protocol-layer tracer (src/plugin/ciliumebpf/layer/layer.c)

    Kprobes on the functions a packet passes on its way through the network
    stack: four of them record the current time in a slot of the array
    [current_time], the others publish a [skb_message] describing the packet
    in the ring buffer [events].  Messages are restricted to the process
    whose id user space stored in [pidfor_user], zero meaning every process.
    The file src/plugin/ciliumebpf/tr_package/tr_package.c is identical.

    A handler maps the state of the program to the next state; what the
    kernel supplies to one invocation is a record [env].  A ring-buffer slot
    handed out by [bpf_ringbuf_reserve] is not cleared, so a reserved
    message starts from arbitrary contents. *)

From S2P Require Import Prelude BpfMap.

(** ** Data *)

Record skb_message := {
  time : Z;
  len : Z;
  data_len : Z;
  transport_header : Z;
  network_header : Z;
  mac_header : Z;
  name : list Z;
}.

(** The fields of [struct sk_buff] the program reads. *)
Inductive skb_field := SKB_LEN | SKB_DATA_LEN | SKB_MAC | SKB_NETWORK | SKB_TRANSPORT.

Record pt_regs := { PT_REGS_PARM1 : Z; PT_REGS_PARM2 : Z }.

(** What the helpers answer during one invocation: the clock, the current
    pid/tgid pair, the kernel memory behind [sk_buff] pointers ([None]: the
    address cannot be read), what a failed [bpf_probe_read_kernel] leaves in
    its destination, and the slot [bpf_ringbuf_reserve] returns. *)
Record env := {
  ktime_ns : Z;
  pid_tgid : Z;
  kmem : Z -> skb_field -> option Z;
  probe_fault : Z -> Z;
  reserve : option skb_message;
}.

Section Layer.
Context {MP MT : Type} `{!BpfMapOps Z Z MP} `{!BpfMapOps Z Z MT}.

Record state := {
  pidfor_user : MP;
  current_time : MT;
  events : list skb_message;
}.

(** ** Operations *)

(** [bpf_probe_read_kernel] of a field of the packet into a field holding
    [old]. *)
Definition probe_read (e : env) (skb : Z) (f : skb_field) (old : Z) : Z :=
  match kmem e skb f with Some v => v | None => probe_fault e old end.

Definition set_time (t : Z) (m : skb_message) : skb_message :=
  {| time := t; len := len m; data_len := data_len m;
     transport_header := transport_header m; network_header := network_header m;
     mac_header := mac_header m; name := name m |}.

(** The five reads every message-producing probe makes. *)
Definition read_skb (e : env) (skb : Z) (m : skb_message) : skb_message :=
  {| time := time m;
     len := probe_read e skb SKB_LEN (len m);
     data_len := probe_read e skb SKB_DATA_LEN (data_len m);
     mac_header := probe_read e skb SKB_MAC (mac_header m);
     network_header := probe_read e skb SKB_NETWORK (network_header m);
     transport_header := probe_read e skb SKB_TRANSPORT (transport_header m);
     name := name m |}.

(** Copying [bs] over the start of the name field. *)
Definition write_name (bs : list Z) (m : skb_message) : skb_message :=
  {| time := time m; len := len m; data_len := data_len m;
     transport_header := transport_header m; network_header := network_header m;
     mac_header := mac_header m; name := bs ++ drop (length bs) (name m) |}.

(** The array initializers [char ch[30] = "..."] and [char ch[] = "..."]. *)
Definition ch30 (s : string) : list Z := lit s ++ replicate (30 - length (lit s)) 0.
Definition ch_exact (s : string) : list Z := lit s ++ [0].

(** The bytes of a [u64] in memory. *)
Definition u64_bytes (v : Z) : list Z :=
  map (fun i => u8 (v / 2 ^ (8 * Z.of_nat i))) (seq 0 8).

(** The process filter: the first guard of every message-producing probe. *)
Definition pid_filtered (e : env) (st : state) : bool :=
  let pid := u32 (Z.shiftr (pid_tgid e) 32) in
  match bpf_map_lookup_elem (pidfor_user st) 0 with
  | None => true
  | Some test_pid =>
      if negb (test_pid =? 0) then negb (pid =? test_pid) else false
  end.

Definition submit (m : skb_message) (st : state) : state :=
  {| pidfor_user := pidfor_user st; current_time := current_time st;
     events := events st ++ [m] |}.

Definition stamp (key t : Z) (st : state) : state :=
  {| pidfor_user := pidfor_user st;
     current_time := snd (bpf_map_update_elem (current_time st) key t BPF_ANY);
     events := events st |}.

Definition kprobe_tcp_transmit_skb (e : env) (ctx : pt_regs) (st : state) : state :=
  stamp 0 (ktime_ns e) st.

Definition kprobe_ip_queue_xmit (e : env) (ctx : pt_regs) (st : state) : state :=
  let skb := PT_REGS_PARM2 ctx in
  let time := ktime_ns e in
  if pid_filtered e st then st else
  match reserve e with
  | None => st
  | Some skb_mss =>
      let current := bpf_map_lookup_elem (current_time st) 0 in
      let skb_mss :=
        match current with
        | Some t => write_name (u64_bytes t) skb_mss
        | None => write_name (map (probe_fault e) (take 8 (name skb_mss))) skb_mss
        end in
      let skb_mss := read_skb e skb skb_mss in
      let skb_mss := write_name (ch30 "T _tcp_transmit_skb") skb_mss in
      stamp 0 time (submit skb_mss st)
  end.

Definition kprobe_ip_local_out (e : env) (ctx : pt_regs) (st : state) : state :=
  let skb := PT_REGS_PARM2 ctx in
  if pid_filtered e st then st else
  match reserve e with
  | None => st
  | Some skb_mss =>
      let skb_mss := read_skb e skb skb_mss in
      let skb_mss := write_name (ch30 "T __ip_queue_xmit") skb_mss in
      submit skb_mss st
  end.

Definition kprobe_dev_queue_xmit (e : env) (ctx : pt_regs) (st : state) : state :=
  let skb := PT_REGS_PARM2 ctx in
  if pid_filtered e st then st else
  match reserve e with
  | None => st
  | Some skb_mss =>
      let skb_mss := set_time (ktime_ns e) skb_mss in
      let skb_mss := read_skb e skb skb_mss in
      let skb_mss := write_name (ch_exact "T __dev_queue_xmit") skb_mss in
      submit skb_mss st
  end.

Definition kprobe_eth_type_trans (e : env) (ctx : pt_regs) (st : state) : state :=
  stamp 2 (ktime_ns e) st.

Definition kprobe_ip_rcv (e : env) (ctx : pt_regs) (st : state) : state :=
  let skb := PT_REGS_PARM1 ctx in
  let time := ktime_ns e in
  if pid_filtered e st then st else
  match reserve e with
  | None => st
  | Some skb_mss =>
      let skb_mss := read_skb e skb skb_mss in
      let skb_mss := write_name (ch30 "R eth_type_trans") skb_mss in
      stamp 3 time (submit skb_mss st)
  end.

Definition kprobe_ip_local_deliver_finish (e : env) (ctx : pt_regs) (st : state) : state :=
  stamp 3 (ktime_ns e) st.

Definition kprobe_ip_protocol_deliver_rcu (e : env) (ctx : pt_regs) (st : state) : state :=
  let skb := PT_REGS_PARM2 ctx in
  if pid_filtered e st then st else
  match reserve e with
  | None => st
  | Some skb_mss =>
      let skb_mss := read_skb e skb skb_mss in
      let skb_mss := write_name (ch30 "R ip_local_deliver_finish") skb_mss in
      submit skb_mss st
  end.

Definition kprobe_tcp_rcv_established (e : env) (ctx : pt_regs) (st : state) : state :=
  stamp 4 (ktime_ns e) st.

Definition kprobe_tcp_data_queue (e : env) (ctx : pt_regs) (st : state) : state :=
  let skb := PT_REGS_PARM2 ctx in
  if pid_filtered e st then st else
  match reserve e with
  | None => st
  | Some skb_mss =>
      let skb_mss := read_skb e skb skb_mss in
      let skb_mss := write_name (ch30 "R tcp_rcv_established") skb_mss in
      submit skb_mss st
  end.

(** The program as a whole: which probe fired, with what the kernel
    supplied, and the state after a sequence of firings. *)
Inductive probe :=
  | P_tcp_transmit_skb | P_ip_queue_xmit | P_ip_local_out | P_dev_queue_xmit
  | P_eth_type_trans | P_ip_rcv | P_ip_local_deliver_finish
  | P_ip_protocol_deliver_rcu | P_tcp_rcv_established | P_tcp_data_queue.

Definition handler (p : probe) : env -> pt_regs -> state -> state :=
  match p with
  | P_tcp_transmit_skb => kprobe_tcp_transmit_skb
  | P_ip_queue_xmit => kprobe_ip_queue_xmit
  | P_ip_local_out => kprobe_ip_local_out
  | P_dev_queue_xmit => kprobe_dev_queue_xmit
  | P_eth_type_trans => kprobe_eth_type_trans
  | P_ip_rcv => kprobe_ip_rcv
  | P_ip_local_deliver_finish => kprobe_ip_local_deliver_finish
  | P_ip_protocol_deliver_rcu => kprobe_ip_protocol_deliver_rcu
  | P_tcp_rcv_established => kprobe_tcp_rcv_established
  | P_tcp_data_queue => kprobe_tcp_data_queue
  end.

Definition firing : Type := probe * env * pt_regs.

Definition fire (st : state) (f : firing) : state :=
  let '(p, e, ctx) := f in handler p e ctx st.

Definition run (st : state) (fs : list firing) : state := foldl fire st fs.

(** ** Specification *)

(** Which argument register carries the packet and the label of a
    message-producing probe. *)
Definition probe_label (p : probe) : option (list Z) :=
  match p with
  | P_ip_queue_xmit => Some (ch30 "T _tcp_transmit_skb")
  | P_ip_local_out => Some (ch30 "T __ip_queue_xmit")
  | P_dev_queue_xmit => Some (ch_exact "T __dev_queue_xmit")
  | P_ip_rcv => Some (ch30 "R eth_type_trans")
  | P_ip_protocol_deliver_rcu => Some (ch30 "R ip_local_deliver_finish")
  | P_tcp_data_queue => Some (ch30 "R tcp_rcv_established")
  | _ => None
  end.

Definition probe_skb (p : probe) (ctx : pt_regs) : Z :=
  match p with P_ip_rcv => PT_REGS_PARM1 ctx | _ => PT_REGS_PARM2 ctx end.

(** The message a firing publishes under the filter value [v]. *)
Definition spec_message (v : Z) (f : firing) : list skb_message :=
  let '(p, e, ctx) := f in
  match probe_label p, reserve e with
  | Some label, Some slot =>
      if (v =? 0) || (u32 (Z.shiftr (pid_tgid e) 32) =? v) then
        let skb := probe_skb p ctx in
        [{| time := match p with P_dev_queue_xmit => ktime_ns e | _ => time slot end;
            len := probe_read e skb SKB_LEN (len slot);
            data_len := probe_read e skb SKB_DATA_LEN (data_len slot);
            transport_header := probe_read e skb SKB_TRANSPORT (transport_header slot);
            network_header := probe_read e skb SKB_NETWORK (network_header slot);
            mac_header := probe_read e skb SKB_MAC (mac_header slot);
            name := label ++ drop (length label) (name slot) |}]
      else []
  | _, _ => []
  end.

(** The slot of [current_time] a firing writes under the filter value
    [v], if any. *)
Definition spec_stamp (v : Z) (f : firing) : option Z :=
  let '(p, e, _) := f in
  match p with
  | P_tcp_transmit_skb => Some 0
  | P_eth_type_trans => Some 2
  | P_ip_local_deliver_finish => Some 3
  | P_tcp_rcv_established => Some 4
  | P_ip_queue_xmit => if spec_message v f is [] then None else Some 0
  | P_ip_rcv => if spec_message v f is [] then None else Some 3
  | _ => None
  end.

(** The time in slot [k] after a sequence of firings: that of the last one
    that writes the slot. *)
Definition spec_slot (v k : Z) (old : option Z) (fs : list firing) : option Z :=
  foldl (fun acc f => match spec_stamp v f with
                      | Some k' => if k' =? k then Some (ktime_ns f.1.2) else acc
                      | None => acc
                      end) old fs.
End Layer.

Arguments state MP MT : clear implicits.

(** ** Correctness *)

Section Theorems.
Context {MP MT : Type} `{!BpfMapOps Z Z MP} `{!BpfMapOps Z Z MT}.
Context `{!BpfArrayLaws 1 Z MP} `{!BpfArrayLaws 6 Z MT}.
Implicit Types (st : state MP MT) (f : firing) (e : env).

(** Every slot is thirty bytes long: [char name[30]]. *)
Definition env_wf (e : env) : Prop :=
  match reserve e with Some m => length (name m) = 30%nat | None => True end.

Lemma write_name_30 l bs m :
  length l = 30%nat -> (length bs <= 8)%nat -> length (name m) = 30%nat ->
  write_name l (write_name bs m) = write_name l m.
Proof.
  intros Hl Hbs Hm. unfold write_name. simpl. rewrite Hl. do 2 f_equal.
  rewrite (drop_ge (name m) 30%nat) by lia. apply drop_ge.
  rewrite length_app, length_drop. lia.
Qed.

Lemma pid_filtered_spec e st v :
  bpf_map_lookup_elem (pidfor_user st) 0 = Some v ->
  pid_filtered e st = negb ((v =? 0) || (u32 (Z.shiftr (pid_tgid e) 32) =? v)).
Proof.
  intros Hv. unfold pid_filtered. rewrite Hv.
  destruct (v =? 0); reflexivity.
Qed.

(** One firing, against the specification. *)
Lemma fire_spec st f v :
  bpf_map_lookup_elem (pidfor_user st) 0 = Some v -> env_wf f.1.2 ->
  pidfor_user (fire st f) = pidfor_user st /\
  events (fire st f) = events st ++ spec_message v f /\
  forall k, 0 <= k < 6 ->
    bpf_map_lookup_elem (current_time (fire st f)) k
    = spec_slot v k (bpf_map_lookup_elem (current_time st) k) [f].
Proof.
  intros Hv Hwf. destruct f as [[p e] ctx]. simpl in Hwf.
  assert (Hst : forall k' k t, 0 <= k' < 6 ->
    bpf_map_lookup_elem (snd (bpf_map_update_elem (current_time st) k' t BPF_ANY)) k
    = if k' =? k then Some t else bpf_map_lookup_elem (current_time st) k).
  { intros k' k t Hk'. rewrite (array_update (n := 6)) by done.
    destruct (k' =? k) eqn:?; zbool; by case_decide. }
  unfold spec_slot, fire, spec_stamp, spec_message. cbn [foldl fst snd].
  destruct p; cbn [probe_label handler];
    unfold kprobe_tcp_transmit_skb, kprobe_ip_queue_xmit, kprobe_ip_local_out,
      kprobe_dev_queue_xmit, kprobe_eth_type_trans, kprobe_ip_rcv,
      kprobe_ip_local_deliver_finish, kprobe_ip_protocol_deliver_rcu,
      kprobe_tcp_rcv_established, kprobe_tcp_data_queue, stamp, submit;
    rewrite ?(pid_filtered_spec _ _ v Hv).
  all: try (repeat split; cbn [pidfor_user events current_time];
            [by rewrite app_nil_r|intros; by apply Hst]).
  all: unfold env_wf in Hwf; destruct (reserve e) as [m|] eqn:Er; cbn [probe_label].
  all: try (destruct (_ || _); repeat split; by rewrite ?app_nil_r).
  all: destruct (_ || _) eqn:Ep; cbn [negb];
       [|by repeat split; rewrite ?app_nil_r].
  all: repeat split; cbn [pidfor_user events current_time]; try done.
  all: try (intros; by apply Hst).
  f_equal. f_equal.
  assert (Hn : forall l, (length l <= 8)%nat ->
     write_name (ch30 "T _tcp_transmit_skb") (read_skb e (PT_REGS_PARM2 ctx) (write_name l m))
     = write_name (ch30 "T _tcp_transmit_skb") (read_skb e (PT_REGS_PARM2 ctx) m)).
  { intros l Hl. by apply (write_name_30 (ch30 _) l (read_skb e (PT_REGS_PARM2 ctx) m)). }
  destruct (bpf_map_lookup_elem (current_time st) 0); rewrite Hn; try done.
  rewrite length_map, length_take. lia.
Qed.

Lemma spec_slot_app v k old fs1 fs2 :
  spec_slot v k old (fs1 ++ fs2) = spec_slot v k (spec_slot v k old fs1) fs2.
Proof. unfold spec_slot. by rewrite foldl_app. Qed.

Lemma run_spec fs : forall st v,
  bpf_map_lookup_elem (pidfor_user st) 0 = Some v -> Forall (fun f => env_wf f.1.2) fs ->
  pidfor_user (run st fs) = pidfor_user st /\
  events (run st fs) = events st ++ flat_map (spec_message v) fs /\
  forall k, 0 <= k < 6 ->
    bpf_map_lookup_elem (current_time (run st fs)) k
    = spec_slot v k (bpf_map_lookup_elem (current_time st) k) fs.
Proof.
  induction fs as [|f fs IH]; intros st v Hv Hwf.
  { simpl. repeat split; by rewrite ?app_nil_r. }
  inversion Hwf as [|? ? Hf Hfs]; subst.
  destruct (fire_spec st f v Hv Hf) as (P1 & E1 & S1).
  destruct (IH (fire st f) v) as (P2 & E2 & S2); [by rewrite P1|done|].
  unfold run in *. cbn [foldl]. split; [congruence|]. split.
  - rewrite E2, E1. cbn [flat_map]. by rewrite app_assoc.
  - intros k Hk. rewrite S2, S1 by done. by rewrite <- (spec_slot_app v k _ [f] fs).
Qed.

(** C18: trace refinement of the layer tracer.  Over any sequence of probe
    firings the ring buffer receives, in order, exactly the messages of the
    specification: one for each firing of a message-producing probe whose
    process passes the filter and that gets a slot, carrying the packet's
    lengths and header offsets and the probe's label. *)
Theorem layer_run_refines st (v : Z) (fs : list firing) :
  bpf_map_lookup_elem (pidfor_user st) 0 = Some v ->
  Forall (fun f => env_wf f.1.2) fs ->
  events (run st fs) = events st ++ flat_map (spec_message v) fs.
Proof. intros Hv Hwf. by apply run_spec. Qed.

(** The time slots.  After any sequence of firings, slot [k] holds the
    time of the last firing that writes it; in particular slots 1 and 5 keep
    their contents, although [kprobe_ip_local_out] looks slot 1 up. *)
Theorem layer_time_slots st (v : Z) (fs : list firing) :
  bpf_map_lookup_elem (pidfor_user st) 0 = Some v ->
  Forall (fun f => env_wf f.1.2) fs ->
  (forall k, 0 <= k < 6 -> bpf_map_lookup_elem (current_time (run st fs)) k
     = spec_slot v k (bpf_map_lookup_elem (current_time st) k) fs) /\
  (forall k, k = 1 \/ k = 5 -> bpf_map_lookup_elem (current_time (run st fs)) k
     = bpf_map_lookup_elem (current_time st) k).
Proof.
  intros Hv Hwf. destruct (run_spec fs st v Hv Hwf) as (_ & _ & H).
  split; [done|]. intros k Hk. rewrite H by lia. generalize (bpf_map_lookup_elem (current_time st) k).
  clear - Hk. induction fs as [|[[p e] c] fs IH]; intros o; [done|].
  unfold spec_slot in *. cbn [foldl]. rewrite IH. unfold spec_stamp.
  destruct p; try done; try (destruct (spec_message _ _)); try done;
    (destruct (_ =? k) eqn:?; zbool; [lia|done]).
Qed.

(** The time field.  Except in [kprobe_dev_queue_xmit], a published
    message carries in its time field whatever the reserved slot held: two
    runs that differ only in the stale contents of the slots publish
    different times, whatever the clock says. *)
Theorem layer_time_stale st (p : probe) e ctx (slot : skb_message) :
  bpf_map_lookup_elem (pidfor_user st) 0 = Some 0 ->
  reserve e = Some slot -> length (name slot) = 30%nat ->
  probe_label p <> None -> p <> P_dev_queue_xmit ->
  exists m, events (fire st (p, e, ctx)) = events st ++ [m] /\ time m = time slot.
Proof.
  intros Hv Hr Hn Hl Hp.
  destruct (fire_spec st (p, e, ctx) 0 Hv) as (_ & -> & _).
  { unfold env_wf. simpl. by rewrite Hr. }
  unfold spec_message. rewrite Hr. destruct (probe_label p) as [l|] eqn:El; [|done].
  simpl. eexists. split; [done|]. destruct p; done.
Qed.
End Theorems.

(** ** A concrete run *)

Definition ex_slot : skb_message :=
  {| time := 77; len := 0; data_len := 0; transport_header := 0; network_header := 0;
     mac_header := 0; name := replicate 30 88 |}.

Definition ex_env : env :=
  {| ktime_ns := 1000; pid_tgid := 42 * 2 ^ 32 + 43;
     kmem := fun _ f => match f with SKB_LEN => Some 60 | _ => Some 14 end;
     probe_fault := fun _ => 0; reserve := Some ex_slot |}.

Definition ex_state (v : Z) : state (Amap 1 Z) (Amap 6 Z) :=
  {| pidfor_user := mkAmap [#v]; current_time := mkAmap (vreplicate 6 0); events := [] |}.

Definition ex_ctx : pt_regs := {| PT_REGS_PARM1 := 1; PT_REGS_PARM2 := 2 |}.

Definition ex_firings : list firing :=
  [(P_eth_type_trans, ex_env, ex_ctx); (P_ip_rcv, ex_env, ex_ctx)].

#[local] Instance amap1_laws : BpfArrayLaws 1 Z (Amap 1 Z) := amap_laws (n := 1).
#[local] Instance amap6_laws : BpfArrayLaws 6 Z (Amap 6 Z) := amap_laws (n := 6).

Lemma layer_run_refines_witness :
  events (run (ex_state 42) ex_firings)
  = [{| time := 77; len := 60; data_len := 14; transport_header := 14; network_header := 14;
        mac_header := 14; name := ch30 "R eth_type_trans" |}].
Proof.
  apply (layer_run_refines (ex_state 42) 42 ex_firings); [reflexivity|].
  repeat constructor.
Defined.

Lemma layer_time_slots_witness :
  (forall k, 0 <= k < 6 ->
     bpf_map_lookup_elem (current_time (run (ex_state 42) ex_firings)) k
     = spec_slot 42 k (bpf_map_lookup_elem (current_time (ex_state 42)) k) ex_firings) /\
  (forall k, k = 1 \/ k = 5 ->
     bpf_map_lookup_elem (current_time (run (ex_state 42) ex_firings)) k
     = bpf_map_lookup_elem (current_time (ex_state 42)) k).
Proof.
  apply (layer_time_slots (ex_state 42) 42 ex_firings); [reflexivity|].
  repeat constructor.
Defined.

Lemma layer_time_stale_witness :
  exists m, events (fire (ex_state 0) (P_ip_queue_xmit, ex_env, ex_ctx)) = [] ++ [m] /\
    time m = 77.
Proof.
  apply (layer_time_stale (ex_state 0) P_ip_queue_xmit ex_env ex_ctx ex_slot);
    [reflexivity|reflexivity|reflexivity|discriminate|discriminate].
Defined.
