(* ===== verification/TcpConnect.v ===== *)
(** * The connect tracer, kernel side (src/plugin/libbpf-test/okk/tcpconnect.bpf.c)

    A kprobe on [tcp_v4_connect]/[tcp_v6_connect] remembers the socket of the
    connecting thread in the hash map [sockets]; the kretprobe takes it out
    again and, when the call succeeded and the destination port passes the
    filter, either counts the flow in [ipv4_count]/[ipv6_count] or sends an
    [event] to user space through the ring of its CPU, which can refuse it.  src/plugin/libbpfgo/tcpconnect/simple.bpf.c is
    the same program with its limits as macros.

    The maps are used through the interface of BpfMap.  Reading outside
    [filter_ports] has no result ([None]). *)

From S2P Require Import Prelude BpfMap.

Definition AF_INET : Z := 2.
Definition AF_INET6 : Z := 10.

(** ** Data *)

(** The read-only configuration user space writes before loading. *)
Record config := {
  filter_ports : list Z;
  filter_ports_len : Z;
  filter_uid : Z;
  filter_pid : Z;
  do_count : bool;
}.

Record ipv4_flow_key := { k4_saddr : Z; k4_daddr : Z; k4_dport : Z }.
Record ipv6_flow_key := { k6_saddr : list Z; k6_daddr : list Z; k6_dport : Z }.

#[export] Instance ipv4_flow_key_eq_dec : EqDecision ipv4_flow_key.
Proof. solve_decision. Defined.
#[export] Instance ipv6_flow_key_eq_dec : EqDecision ipv6_flow_key.
Proof. solve_decision. Defined.

#[export] Instance ipv4_flow_key_countable : Countable ipv4_flow_key.
Proof.
  refine (inj_countable' (λ k, (k4_saddr k, k4_daddr k, k4_dport k))
            (λ t, {| k4_saddr := t.1.1; k4_daddr := t.1.2; k4_dport := t.2 |}) _).
  by intros [].
Defined.
#[export] Instance ipv6_flow_key_countable : Countable ipv6_flow_key.
Proof.
  refine (inj_countable' (λ k, (k6_saddr k, k6_daddr k, k6_dport k))
            (λ t, {| k6_saddr := t.1.1; k6_daddr := t.1.2; k6_dport := t.2 |}) _).
  by intros [].
Defined.

(** The address unions of [struct event]. *)
Inductive addr := Addr4 (a : Z) | Addr6 (a : list Z).

Record event := {
  ev_saddr : addr;
  ev_daddr : addr;
  ev_task : list Z;
  ev_ts_us : Z;
  ev_af : Z;
  ev_pid : Z;
  ev_uid : Z;
  ev_dport : Z;
}.

(** What the ring of a CPU holds for the reader: samples, and the number of
    samples that did not fit since the one before. *)
Inductive perf_record := Sample (ev : event) | Lost (lost_cnt : Z).

(** What BPF_CORE_READ_INTO yields for the fields of [sk->__sk_common]. *)
Record sock_common := {
  skc_rcv_saddr : Z;
  skc_daddr : Z;
  skc_dport : Z;
  skc_v6_rcv_saddr : list Z;
  skc_v6_daddr : list Z;
}.

(** What the helpers answer during one invocation.  [perf_output] is the
    fate of a sample in the ring of the current CPU: [None] when the helper
    fails and nothing is written (the ring is full, or not open), [Some n]
    when it is written, after a record of the [n] samples lost before it if
    there are any. *)
Record env := {
  pid_tgid : Z;
  uid_gid : Z;
  ktime_ns : Z;
  comm : list Z;
  sk_common : Z -> sock_common;
  cpu : Z;
  perf_output : option Z;
}.

Section TcpConnect.
Context {MS M4 M6 : Type} `{!BpfMapOps Z Z MS}
  `{!BpfMapOps ipv4_flow_key Z M4} `{!BpfMapOps ipv6_flow_key Z M6}.

(** [events] is the map of the rings, one per CPU. *)
Record state := {
  sockets : MS;
  ipv4_count : M4;
  ipv6_count : M6;
  events : Z -> list perf_record;
}.

(** ** Operations *)

(** The loop of [filter_port] from index [i], [fuel] iterations to go. *)
Fixpoint filter_port_loop (ports : list Z) (port : Z) (fuel : nat) (i : Z) : option bool :=
  match fuel with
  | O => Some true
  | S fuel =>
      p ← aref ports i;
      if port =? p then Some false else filter_port_loop ports port fuel (i + 1)
  end.

Definition filter_port (cfg : config) (port : Z) : option bool :=
  if filter_ports_len cfg =? 0 then Some false
  else filter_port_loop (filter_ports cfg) port (Z.to_nat (filter_ports_len cfg)) 0.

Definition enter_tcp_connect (cfg : config) (e : env) (sk : Z) (st : state) : state :=
  let pid := u32 (Z.shiftr (pid_tgid e) 32) in
  let tid := u32 (pid_tgid e) in
  if negb (filter_pid cfg =? 0) && negb (pid =? u32 (filter_pid cfg)) then st else
  let uid := u32 (uid_gid e) in
  if negb (filter_uid cfg =? UINT32_MAX) && negb (uid =? filter_uid cfg) then st else
  {| sockets := snd (bpf_map_update_elem (sockets st) tid sk BPF_ANY);
     ipv4_count := ipv4_count st; ipv6_count := ipv6_count st; events := events st |}.

(** [val = bpf_map_lookup_or_try_init(map, &key, &zero);
     if (val) __atomic_add_fetch(val, 1, ...)]. *)
Definition count_key {K M} `{!BpfMapOps K Z M} (map : M) (key : K) : M :=
  match bpf_map_lookup_or_try_init map key 0 with
  | (Some val, map) => bpf_map_store map key (u64 (val + 1))
  | (None, map) => map
  end.

Definition count_v4 (e : env) (sk dport : Z) (st : state) : state :=
  let key := {| k4_saddr := skc_rcv_saddr (sk_common e sk);
                k4_daddr := skc_daddr (sk_common e sk); k4_dport := dport |} in
  {| sockets := sockets st; ipv4_count := count_key (ipv4_count st) key;
     ipv6_count := ipv6_count st; events := events st |}.

Definition count_v6 (e : env) (sk dport : Z) (st : state) : state :=
  let key := {| k6_saddr := skc_v6_rcv_saddr (sk_common e sk);
                k6_daddr := skc_v6_daddr (sk_common e sk); k6_dport := dport |} in
  {| sockets := sockets st; ipv4_count := ipv4_count st;
     ipv6_count := count_key (ipv6_count st) key; events := events st |}.

Definition perf_records (e : env) (ev : event) : list perf_record :=
  match perf_output e with
  | None => []
  | Some n => (if n =? 0 then [] else [Lost n]) ++ [Sample ev]
  end.

(** [bpf_perf_event_output(ctx, &events, BPF_F_CURRENT_CPU, &event,
    sizeof(event))]; the callers ignore its return value. *)
Definition bpf_perf_event_output (e : env) (ev : event) (st : state) : state :=
  {| sockets := sockets st; ipv4_count := ipv4_count st; ipv6_count := ipv6_count st;
     events := fun c => if c =? cpu e then events st c ++ perf_records e ev else events st c |}.

Definition trace_v4 (e : env) (pid sk dport : Z) (st : state) : state :=
  bpf_perf_event_output e
    {| ev_af := AF_INET; ev_pid := pid; ev_uid := u32 (uid_gid e);
       ev_ts_us := ktime_ns e / 1000;
       ev_saddr := Addr4 (skc_rcv_saddr (sk_common e sk));
       ev_daddr := Addr4 (skc_daddr (sk_common e sk));
       ev_dport := dport; ev_task := comm e |} st.

Definition trace_v6 (e : env) (pid sk dport : Z) (st : state) : state :=
  bpf_perf_event_output e
    {| ev_af := AF_INET6; ev_pid := pid; ev_uid := u32 (uid_gid e);
       ev_ts_us := ktime_ns e / 1000;
       ev_saddr := Addr6 (skc_v6_rcv_saddr (sk_common e sk));
       ev_daddr := Addr6 (skc_v6_daddr (sk_common e sk));
       ev_dport := dport; ev_task := comm e |} st.

(** The label [end] of [exit_tcp_connect]. *)
Definition exit_end (tid : Z) (st : state) : state :=
  {| sockets := snd (bpf_map_delete_elem (sockets st) tid);
     ipv4_count := ipv4_count st; ipv6_count := ipv6_count st; events := events st |}.

Definition exit_tcp_connect (cfg : config) (e : env) (ret ip_ver : Z) (st : state)
    : option state :=
  let pid := u32 (Z.shiftr (pid_tgid e) 32) in
  let tid := u32 (pid_tgid e) in
  match bpf_map_lookup_elem (sockets st) tid with
  | None => Some st
  | Some sk =>
      if negb (ret =? 0) then Some (exit_end tid st) else
      let dport := skc_dport (sk_common e sk) in
      filtered ← filter_port cfg dport;
      if (filtered : bool) then Some (exit_end tid st) else
      let st :=
        if do_count cfg then
          if ip_ver =? 4 then count_v4 e sk dport st else count_v6 e sk dport st
        else
          if ip_ver =? 4 then trace_v4 e pid sk dport st else trace_v6 e pid sk dport st in
      Some (exit_end tid st)
  end.

Definition tcp_v4_connect cfg e sk st := enter_tcp_connect cfg e sk st.
Definition tcp_v4_connect_ret cfg e ret st := exit_tcp_connect cfg e ret 4 st.
Definition tcp_v6_connect cfg e sk st := enter_tcp_connect cfg e sk st.
Definition tcp_v6_connect_ret cfg e ret st := exit_tcp_connect cfg e ret 6 st.

(** The four probes as transitions: an interleaving of the threads of the
    system is a sequence of them. *)
Inductive action :=
  | A_v4_connect (e : env) (sk : Z)
  | A_v4_return (e : env) (ret : Z)
  | A_v6_connect (e : env) (sk : Z)
  | A_v6_return (e : env) (ret : Z).

Definition act (cfg : config) (a : action) (st : state) : option state :=
  match a with
  | A_v4_connect e sk => Some (tcp_v4_connect cfg e sk st)
  | A_v4_return e ret => tcp_v4_connect_ret cfg e ret st
  | A_v6_connect e sk => Some (tcp_v6_connect cfg e sk st)
  | A_v6_return e ret => tcp_v6_connect_ret cfg e ret st
  end.

Definition act_env (a : action) : env :=
  match a with
  | A_v4_connect e _ | A_v4_return e _ | A_v6_connect e _ | A_v6_return e _ => e
  end.

Definition act_tid (a : action) : Z := u32 (pid_tgid (act_env a)).

Inductive steps (cfg : config) : state -> list action -> state -> Prop :=
  | steps_nil st : steps cfg st [] st
  | steps_cons st a st1 l st2 :
      act cfg a st = Some st1 -> steps cfg st1 l st2 -> steps cfg st (a :: l) st2.

(** ** Specification *)

(** The processes and users the configuration asks for. *)
Definition selected (cfg : config) (e : env) : bool :=
  ((filter_pid cfg =? 0) || (u32 (Z.shiftr (pid_tgid e) 32) =? u32 (filter_pid cfg))) &&
  ((filter_uid cfg =? UINT32_MAX) || (u32 (uid_gid e) =? filter_uid cfg)).

Definition port_selected (cfg : config) (port : Z) : bool :=
  (filter_ports_len cfg =? 0) ||
  bool_decide (port ∈ take (Z.to_nat (filter_ports_len cfg)) (filter_ports cfg)).

Definition cfg_wf (cfg : config) : Prop :=
  length (filter_ports cfg) = 64%nat /\ 0 <= filter_ports_len cfg <= 64.

(** The event of a successful connect through socket [sk]. *)
Definition spec_event (e : env) (ip_ver sk : Z) : event :=
  let c := sk_common e sk in
  {| ev_af := if ip_ver =? 4 then AF_INET else AF_INET6;
     ev_pid := u32 (Z.shiftr (pid_tgid e) 32); ev_uid := u32 (uid_gid e);
     ev_ts_us := ktime_ns e / 1000;
     ev_saddr := if ip_ver =? 4 then Addr4 (skc_rcv_saddr c) else Addr6 (skc_v6_rcv_saddr c);
     ev_daddr := if ip_ver =? 4 then Addr4 (skc_daddr c) else Addr6 (skc_v6_daddr c);
     ev_dport := skc_dport c; ev_task := comm e |}.

(** What the return of a successful connect through socket [seen] adds to
    the ring of its CPU. *)
Definition reported (cfg : config) (e : env) (ip_ver : Z) (seen : option Z) : list perf_record :=
  match seen with
  | Some sk =>
      if negb (do_count cfg) && port_selected cfg (skc_dport (sk_common e sk))
      then perf_records e (spec_event e ip_ver sk) else []
  | None => []
  end.
End TcpConnect.

Arguments state MS M4 M6 : clear implicits.

(** ** Correctness *)

Lemma filter_port_loop_spec ports port fuel : forall i,
  0 <= i -> i + Z.of_nat fuel <= Z.of_nat (length ports) ->
  filter_port_loop ports port fuel i
  = Some (negb (bool_decide (port ∈ take fuel (drop (Z.to_nat i) ports)))).
Proof.
  induction fuel as [|fuel IH]; intros i Hi Hl; cbn [filter_port_loop].
  { rewrite take_0, bool_decide_false by apply not_elem_of_nil. done. }
  destruct (aref_Some ports i) as [p Hp]; [lia|]. rewrite Hp. cbn [mbind option_bind].
  unfold aref in Hp. destruct (i <? 0) eqn:?; [done|].
  rewrite (drop_S _ _ _ Hp). cbn [take].
  destruct (port =? p) eqn:E; zbool.
  { subst. rewrite bool_decide_true by apply list_elem_of_here. done. }
  rewrite IH by lia. replace (Z.to_nat (i + 1)) with (S (Z.to_nat i)) by lia.
  do 2 f_equal. apply bool_decide_ext. rewrite elem_of_cons. naive_solver.
Qed.

Lemma filter_port_total cfg port :
  cfg_wf cfg -> filter_port cfg port = Some (negb (port_selected cfg port)).
Proof.
  intros [Hl Hn]. unfold filter_port, port_selected.
  destruct (_ =? 0) eqn:?; [done|]. by rewrite filter_port_loop_spec by lia.
Qed.

Section Theorems.
Context {MS M4 M6 : Type} `{!BpfMapOps Z Z MS}
  `{!BpfMapOps ipv4_flow_key Z M4} `{!BpfMapOps ipv6_flow_key Z M6}.
Context `{!BpfHashLaws Z Z MS} `{!BpfHashLaws ipv4_flow_key Z M4}
  `{!BpfHashLaws ipv6_flow_key Z M6}.
Implicit Types (st : state MS M4 M6) (cfg : config) (e : env).

(** The counter of a key after [count_key]: one more, or unchanged when the
    map had no room for a new key; other keys are untouched. *)
Lemma count_key_spec {K M} `{!EqDecision K} `{!BpfMapOps K Z M} `{!BpfHashLaws K Z M}
    (map : M) (key key' : K) :
  bpf_map_lookup_elem (count_key map key) key'
  = if decide (key = key') then
      match bpf_map_lookup_elem map key with
      | Some v => Some (u64 (v + 1))
      | None => if bool_decide (is_Some (bpf_map_lookup_or_try_init map key 0).1)
                then Some 1 else None
      end
    else bpf_map_lookup_elem map key'.
Proof.
  unfold count_key. pose proof (lookup_or_try_init_spec map key 0) as H.
  destruct (bpf_map_lookup_or_try_init map key 0) as [[v|] map'].
  - destruct H as [Hv Hm]. rewrite hash_store by (by rewrite Hm, decide_True).
    case_decide as Hk; [|by rewrite Hm, decide_False].
    destruct (bpf_map_lookup_elem map key) as [w|]; simpl in Hv; subst; [done|].
    by rewrite bool_decide_true.
  - destruct H as [Hn He]. rewrite (He key'). case_decide as Hk; [|done]. subst.
    rewrite Hn. rewrite bool_decide_false; [done|]. by intros [? ?].
Qed.

(** Entering records the socket of the thread and nothing else. *)
Lemma enter_sockets cfg e sk st tid :
  tid <> u32 (pid_tgid e) ->
  bpf_map_lookup_elem (sockets (enter_tcp_connect cfg e sk st)) tid
  = bpf_map_lookup_elem (sockets st) tid.
Proof.
  intros Ht. unfold enter_tcp_connect. zcase; [done|]. zcase; [done|]. cbn [sockets].
  destruct (decide (fst (bpf_map_update_elem (sockets st) (u32 (pid_tgid e)) sk BPF_ANY) = 0)).
  - rewrite hash_update_ok by done. by rewrite decide_False.
  - by rewrite hash_update_err.
Qed.

Lemma exit_sockets cfg e ret v st st' tid :
  exit_tcp_connect cfg e ret v st = Some st' ->
  bpf_map_lookup_elem (sockets st') tid
  = if decide (tid = u32 (pid_tgid e)) then None else bpf_map_lookup_elem (sockets st) tid.
Proof.
  unfold exit_tcp_connect. destruct (bpf_map_lookup_elem (sockets st) _) as [sk|] eqn:E.
  2: { intros [= <-]. case_decide; [by subst|done]. }
  assert (Hend : forall st0, sockets st0 = sockets st ->
    bpf_map_lookup_elem (sockets (exit_end (u32 (pid_tgid e)) st0)) tid
    = if decide (tid = u32 (pid_tgid e)) then None else bpf_map_lookup_elem (sockets st) tid).
  { intros st0 H0. cbn [exit_end sockets]. rewrite hash_delete, H0.
    destruct (decide (u32 (pid_tgid e) = tid)), (decide (tid = u32 (pid_tgid e))); congruence. }
  zcase; [intros [= <-]; by apply Hend|].
  intros (b & _ & H)%bind_Some. destruct b; injection H as <-; [by apply Hend|].
  apply Hend. by destruct (do_count cfg), (v =? 4).
Qed.

Lemma act_other_sockets cfg a st st' tid :
  act cfg a st = Some st' -> act_tid a <> tid ->
  bpf_map_lookup_elem (sockets st') tid = bpf_map_lookup_elem (sockets st) tid.
Proof.
  unfold act_tid. destruct a; simpl; intros H Ht.
  - injection H as <-. apply enter_sockets. congruence.
  - rewrite (exit_sockets _ _ _ _ _ _ tid H). by rewrite decide_False by congruence.
  - injection H as <-. apply enter_sockets. congruence.
  - rewrite (exit_sockets _ _ _ _ _ _ tid H). by rewrite decide_False by congruence.
Qed.

Lemma steps_other_sockets cfg st l st' tid :
  steps cfg st l st' -> Forall (fun a => act_tid a <> tid) l ->
  bpf_map_lookup_elem (sockets st') tid = bpf_map_lookup_elem (sockets st) tid.
Proof.
  induction 1 as [|st a st1 l st2 Ha Hs IH]; intros Hf; [done|].
  inversion Hf as [|? ? H1 H2]; subst. rewrite IH by done. by eapply act_other_sockets.
Qed.

Lemma enter_selected cfg e sk st :
  selected cfg e = true ->
  enter_tcp_connect cfg e sk st
  = {| sockets := snd (bpf_map_update_elem (sockets st) (u32 (pid_tgid e)) sk BPF_ANY);
       ipv4_count := ipv4_count st; ipv6_count := ipv6_count st; events := events st |}.
Proof.
  unfold selected, enter_tcp_connect. intros [H1 H2]%andb_true_iff.
  apply orb_true_iff in H1, H2. 
  replace (_ && _)%bool with false by (symmetry; destruct H1 as [-> | ->]; [done|apply andb_false_r]).
  by replace (_ && _)%bool with false by (symmetry; destruct H2 as [-> | ->]; [done|apply andb_false_r]).
Qed.

Lemma enter_not_selected cfg e sk st :
  selected cfg e = false -> enter_tcp_connect cfg e sk st = st.
Proof.
  unfold selected, enter_tcp_connect. intros [H|H]%andb_false_iff;
    apply orb_false_iff in H as [H1 H2]; rewrite H1, H2; cbn [negb andb]; [done|].
  by destruct (_ && _).
Qed.

(** The result of [exit_tcp_connect] for a thread with a recorded socket. *)
Lemma exit_tcp_connect_eq cfg e ret v st sk :
  cfg_wf cfg -> bpf_map_lookup_elem (sockets st) (u32 (pid_tgid e)) = Some sk ->
  exit_tcp_connect cfg e ret v st
  = Some (exit_end (u32 (pid_tgid e))
      (if (ret =? 0) && port_selected cfg (skc_dport (sk_common e sk)) then
         if do_count cfg then
           (if v =? 4 then count_v4 else count_v6) e sk (skc_dport (sk_common e sk)) st
         else bpf_perf_event_output e (spec_event e v sk) st
       else st)).
Proof.
  intros Hw Hs. unfold exit_tcp_connect. rewrite Hs.
  destruct (ret =? 0); cbn [negb andb]; [|done].
  rewrite filter_port_total by done. cbn [mbind option_bind].
  destruct (port_selected _ _); cbn [negb]; [|done].
  unfold trace_v4, trace_v6, spec_event. by destruct (do_count cfg), (v =? 4).
Qed.

(** C34: no socket is leaked and no thread touches another's entry.  When a
    connect returns, whatever its outcome and whatever the filters decide,
    the thread has no entry in [sockets] any more and every other thread's
    entry is as before; the configuration's port table is never read out
    of bounds. *)
Theorem exit_tcp_connect_cleanup cfg e ret v st :
  cfg_wf cfg ->
  exists st', exit_tcp_connect cfg e ret v st = Some st' /\
    forall tid, bpf_map_lookup_elem (sockets st') tid
      = if decide (tid = u32 (pid_tgid e)) then None
        else bpf_map_lookup_elem (sockets st) tid.
Proof.
  intros Hw.
  assert (exists st', exit_tcp_connect cfg e ret v st = Some st') as [st' H].
  { destruct (bpf_map_lookup_elem (sockets st) (u32 (pid_tgid e))) as [sk|] eqn:E.
    - rewrite (exit_tcp_connect_eq _ _ _ _ _ sk) by done. by eexists.
    - unfold exit_tcp_connect. rewrite E. by eexists. }
  exists st'. split; [done|]. intros tid. by eapply exit_sockets.
Qed.

(** The socket a thread's return finds after its selected entry: the one just
    stored or, when the map refused it, what it held for the thread before. *)
Lemma enter_seen cfg e sk st :
  selected cfg e = true ->
  bpf_map_lookup_elem (sockets (enter_tcp_connect cfg e sk st)) (u32 (pid_tgid e))
  = if fst (bpf_map_update_elem (sockets st) (u32 (pid_tgid e)) sk BPF_ANY) =? 0 then Some sk
    else bpf_map_lookup_elem (sockets st) (u32 (pid_tgid e)).
Proof.
  intros Hsel. rewrite enter_selected by done. cbn [sockets]. zcase.
  - by rewrite hash_update_ok, decide_True.
  - by rewrite hash_update_err.
Qed.

(** C13: a connect observed across any interleaving.  A selected thread
    enters a connect; other threads then enter and leave connects in any
    order; the thread's own connect returns successfully.  In tracing mode,
    if the port is selected, exactly one event is handed to the ring of the
    CPU of the return, and it describes the socket stored when the thread
    entered (when the map refused that store: the one it still had for the
    thread, if any, and else no event).  The event is in the ring if the
    helper writes it, after the count of those it lost before; otherwise, in
    counting mode and for other ports nothing is added, and no other ring
    changes.  In tracing mode the counters do not change. *)
Theorem connect_event_interleaved cfg e e' sk v st st1 l st2 :
  cfg_wf cfg -> selected cfg e = true -> u32 (pid_tgid e') = u32 (pid_tgid e) ->
  enter_tcp_connect cfg e sk st = st1 ->
  steps cfg st1 l st2 -> Forall (fun a => act_tid a <> u32 (pid_tgid e)) l ->
  let seen :=
    if fst (bpf_map_update_elem (sockets st) (u32 (pid_tgid e)) sk BPF_ANY) =? 0 then Some sk
    else bpf_map_lookup_elem (sockets st) (u32 (pid_tgid e)) in
  exists st3, exit_tcp_connect cfg e' 0 v st2 = Some st3 /\
    (forall c, events st3 c
       = events st2 c ++ if c =? cpu e' then reported cfg e' v seen else []) /\
    (do_count cfg = false -> ipv4_count st3 = ipv4_count st2 /\ ipv6_count st3 = ipv6_count st2).
Proof.
  intros Hw Hsel Htid <- Hs Hl seen.
  pose proof (steps_other_sockets _ _ _ _ _ Hs Hl) as Hsk.
  rewrite enter_seen in Hsk by done. fold seen in Hsk. rewrite <- Htid in Hsk.
  destruct seen as [sk'|].
  - rewrite (exit_tcp_connect_eq _ _ _ _ _ sk') by done. eexists. split; [done|].
    cbn [Z.eqb andb reported]. destruct (port_selected _ _), (do_count cfg), (v =? 4);
      (split; [intros c; cbn; destruct (c =? _); by rewrite ?app_nil_r|done]).
  - unfold exit_tcp_connect. rewrite Hsk. eexists. split; [done|]. split; [|done].
    intros c. cbn [reported]. destruct (c =? _); by rewrite app_nil_r.
Qed.

(** Unselected processes leave no trace.  A thread the pid/uid filters
    exclude, with no entry recorded for it before, changes nothing: neither
    when it enters a connect nor when the connect returns. *)
Theorem unselected_connect_ignored cfg e e' sk ret v st :
  selected cfg e = false -> u32 (pid_tgid e') = u32 (pid_tgid e) ->
  bpf_map_lookup_elem (sockets st) (u32 (pid_tgid e)) = None ->
  enter_tcp_connect cfg e sk st = st /\ exit_tcp_connect cfg e' ret v st = Some st.
Proof.
  intros Hs Ht Hn. split; [by apply enter_not_selected|].
  unfold exit_tcp_connect. by rewrite Ht, Hn.
Qed.

(** Flow counting.  In counting mode a successful IPv4 connect to a
    selected port adds exactly one, modulo 2^64, to the counter of its own
    flow key if the key is present, creates it with value one if there is
    room, and leaves every other counter, the IPv6 counters and the event
    stream alone. *)
Theorem exit_counts_v4 cfg e st sk :
  cfg_wf cfg -> do_count cfg = true ->
  bpf_map_lookup_elem (sockets st) (u32 (pid_tgid e)) = Some sk ->
  port_selected cfg (skc_dport (sk_common e sk)) = true ->
  let c := sk_common e sk in
  let key := {| k4_saddr := skc_rcv_saddr c; k4_daddr := skc_daddr c;
                k4_dport := skc_dport c |} in
  exists st', tcp_v4_connect_ret cfg e 0 st = Some st' /\
    (forall key', key' <> key ->
       bpf_map_lookup_elem (ipv4_count st') key' = bpf_map_lookup_elem (ipv4_count st) key') /\
    (match bpf_map_lookup_elem (ipv4_count st) key with
     | Some n => bpf_map_lookup_elem (ipv4_count st') key = Some (u64 (n + 1))
     | None => bpf_map_lookup_elem (ipv4_count st') key = Some 1 \/
               bpf_map_lookup_elem (ipv4_count st') key = None /\
               fst (bpf_map_update_elem (ipv4_count st) key 0 BPF_NOEXIST) <> 0
     end) /\
    ipv6_count st' = ipv6_count st /\ events st' = events st.
Proof.
  intros Hw Hc Hs Hp c key. unfold tcp_v4_connect_ret.
  rewrite (exit_tcp_connect_eq _ _ _ _ _ sk) by done. rewrite Hp, Hc. cbn [Z.eqb Pos.eqb andb].
  eexists. split; [done|]. cbn [exit_end ipv4_count count_v4 ipv6_count events].
  fold c key. repeat split.
  - intros key' Hne. rewrite count_key_spec. by rewrite decide_False by congruence.
  - rewrite count_key_spec, decide_True by done.
    destruct (bpf_map_lookup_elem (ipv4_count st) key) as [n|] eqn:E; [done|].
    destruct (bool_decide _) eqn:B; [by left|right]. split; [done|].
    apply bool_decide_eq_false in B. intros H0. apply B.
    unfold bpf_map_lookup_or_try_init. rewrite E.
    pose proof (hash_update_ok (ipv4_count st) key key 0 BPF_NOEXIST H0) as Hok.
    destruct (bpf_map_update_elem _ _ _ _) as [r m'] eqn:U.
    simpl in Hok, H0. subst r. simpl. rewrite Hok, decide_True by done. done.
Qed.
End Theorems.

(** ** A concrete run *)

Abbreviation ex_state_t := (state (Hmap Z Z) (Hmap ipv4_flow_key Z) (Hmap ipv6_flow_key Z)).

Definition ex_cfg (count : bool) : config :=
  {| filter_ports := 20480 :: replicate 63 0; filter_ports_len := 1;
     filter_uid := UINT32_MAX; filter_pid := 181; do_count := count |}.

Definition ex_env (pid tid : Z) : env :=
  {| pid_tgid := pid * 2 ^ 32 + tid; uid_gid := 1000; ktime_ns := 5000000; comm := lit "curl";
     sk_common := fun sk => {| skc_rcv_saddr := 1; skc_daddr := sk; skc_dport := 20480;
                            skc_v6_rcv_saddr := []; skc_v6_daddr := [] |};
     cpu := 0; perf_output := Some 0 |}.

Definition ex_init : ex_state_t :=
  {| sockets := mkHmap 4 ∅; ipv4_count := mkHmap 4 ∅; ipv6_count := mkHmap 4 ∅; events := fun _ => [] |}.

Definition ex_entered : ex_state_t :=
  {| sockets := mkHmap 4 {[ 182 := 777 ]}; ipv4_count := mkHmap 4 ∅;
     ipv6_count := mkHmap 4 ∅; events := fun _ => [] |}.

Lemma ex_cfg_wf b : cfg_wf (ex_cfg b).
Proof. split; [done|]. simpl. lia. Qed.

Lemma exit_tcp_connect_cleanup_witness :
  exists st', exit_tcp_connect (ex_cfg false) (ex_env 181 182) 1 4 ex_entered = Some st' /\
    forall tid, bpf_map_lookup_elem (sockets st') tid
      = if decide (tid = u32 (pid_tgid (ex_env 181 182))) then None
        else bpf_map_lookup_elem (sockets ex_entered) tid.
Proof. apply exit_tcp_connect_cleanup. apply ex_cfg_wf. Defined.

Lemma connect_event_interleaved_witness :
  exists st3, exit_tcp_connect (ex_cfg false) (ex_env 181 182) 0 4
      (enter_tcp_connect (ex_cfg false) (ex_env 181 183) 888
        (enter_tcp_connect (ex_cfg false) (ex_env 181 182) 777 ex_init)) = Some st3 /\
    events st3 0 = [Sample (spec_event (ex_env 181 182) 4 777)].
Proof.
  pose (st1 := enter_tcp_connect (ex_cfg false) (ex_env 181 182) 777 ex_init).
  pose (st2 := enter_tcp_connect (ex_cfg false) (ex_env 181 183) 888 st1).
  destruct (connect_event_interleaved (ex_cfg false) (ex_env 181 182) (ex_env 181 182) 777 4 ex_init
            st1 [A_v4_connect (ex_env 181 183) 888] st2) as (st3 & H & Hev & _).
  - apply ex_cfg_wf.
  - reflexivity.
  - reflexivity.
  - reflexivity.
  - econstructor; [reflexivity|constructor].
  - repeat constructor. vm_compute. discriminate.
  - exists st3. split; [exact H|]. rewrite Hev. vm_compute. reflexivity.
Defined.

Lemma unselected_connect_ignored_witness :
  enter_tcp_connect (ex_cfg false) (ex_env 9 10) 777 ex_init = ex_init /\
  exit_tcp_connect (ex_cfg false) (ex_env 9 10) 0 4 ex_init = Some ex_init.
Proof.
  apply (unselected_connect_ignored (ex_cfg false) (ex_env 9 10) (ex_env 9 10) 777 0 4 ex_init);
    vm_compute; reflexivity.
Defined.

Lemma exit_counts_v4_witness :
  exists st', tcp_v4_connect_ret (ex_cfg true) (ex_env 181 182) 0 ex_entered = Some st' /\
    bpf_map_lookup_elem (ipv4_count st')
      {| k4_saddr := 1; k4_daddr := 777; k4_dport := 20480 |} = Some 1.
Proof.
  destruct (exit_counts_v4 (ex_cfg true) (ex_env 181 182) ex_entered 777 (ex_cfg_wf true))
    as (st' & H & _); [reflexivity|vm_compute; reflexivity|vm_compute; reflexivity|].
  exists st'. split; [exact H|]. vm_compute in H. injection H as <-. vm_compute. reflexivity.
Defined.
