(* ===== verification/TcpConnectCli.v ===== *)
(** * The connect tracer, user side (src/plugin/libbpf-test/okk/tcpconnect.c)

    Command-line parsing, the configuration written into the BPF object's
    read-only data before it is loaded, and the printing of events and
    counters.  The kernel side is TcpConnect; the theorems compose the two.

    Output is modelled as the list of the values handed to [printf]. *)

From Stdlib Require Import Ascii.
From S2P Require Import Prelude CString BpfMap TcpConnect.

(** ** Number arguments *)

(** [Some v] is the return value 0 with [*ret = v], [None] is -1. *)
Definition get_int (arg : list Z) (min max : Z) : option Z :=
  let '(val, endp, errno) := strtol arg in
  if negb (errno =? 0) then None
  else if bool_decide (length endp = length arg) || (val <? min) || (val >? max) then None
  else Some (s32 val).

(** The loop of [get_ints]: [n] = [max_size - sz] free slots, [ret] the
    numbers stored so far. *)
Fixpoint get_ints_loop (arg : list Z) (min max : Z) (n : nat) (argp : list Z) (ret : list Z)
    : option (list Z) :=
  match n with
  | O => Some ret
  | S n =>
      let '(val, endp, errno) := strtol argp in
      if negb (errno =? 0) then None
      else if bool_decide (length endp = length arg) || (val <? min) || (val >? max) then None
      else
        let ret := ret ++ [s32 val] in
        match endp with
        | [] => Some ret
        | _ :: argp => get_ints_loop arg min max n argp ret
        end
  end.

Definition get_ints (arg : list Z) (size : nat) (min max : Z) : option (list Z) :=
  get_ints_loop arg min max size arg [].

Definition get_uint (arg : list Z) (min max : Z) : option Z :=
  let '(val, endp, errno) := strtoul arg in
  let val := s64 val in
  if negb (errno =? 0) then None
  else if bool_decide (length endp = length arg) || (val <? min) || (val >? max) then None
  else Some (u32 val).

(** ** The options *)

Record opts_env := {
  verbose : bool;
  count : bool;
  print_timestamp : bool;
  print_uid : bool;
  o_pid : Z;
  o_uid : Z;
  ports : list Z;
}.

Definition env0 : opts_env :=
  {| verbose := false; count := false; print_timestamp := false; print_uid := false;
     o_pid := 0; o_uid := u32 (-1); ports := [] |}.

(** [argp_usage] and [argp_state_help] print and exit. *)
Inductive arg_result :=
  | ArgOk (e : opts_env)
  | ArgUsage
  | ArgUnknown.

Definition set_pid (e : opts_env) (v : Z) : opts_env :=
  {| verbose := verbose e; count := count e; print_timestamp := print_timestamp e;
     print_uid := print_uid e; o_pid := v; o_uid := o_uid e; ports := ports e |}.
Definition set_uid (e : opts_env) (v : Z) : opts_env :=
  {| verbose := verbose e; count := count e; print_timestamp := print_timestamp e;
     print_uid := print_uid e; o_pid := o_pid e; o_uid := v; ports := ports e |}.
Definition set_ports (e : opts_env) (v : list Z) : opts_env :=
  {| verbose := verbose e; count := count e; print_timestamp := print_timestamp e;
     print_uid := print_uid e; o_pid := o_pid e; o_uid := o_uid e; ports := v |}.

(** The option keys, by their characters. *)
Definition parse_arg (key : ascii) (arg : list Z) (e : opts_env) : arg_result :=
  match key with
  | "h"%char => ArgUsage
  | "v"%char => ArgOk
      {| verbose := true; count := count e; print_timestamp := print_timestamp e;
         print_uid := print_uid e; o_pid := o_pid e; o_uid := o_uid e; ports := ports e |}
  | "c"%char => ArgOk
      {| verbose := verbose e; count := true; print_timestamp := print_timestamp e;
         print_uid := print_uid e; o_pid := o_pid e; o_uid := o_uid e; ports := ports e |}
  | "t"%char => ArgOk
      {| verbose := verbose e; count := count e; print_timestamp := true;
         print_uid := print_uid e; o_pid := o_pid e; o_uid := o_uid e; ports := ports e |}
  | "U"%char => ArgOk
      {| verbose := verbose e; count := count e; print_timestamp := print_timestamp e;
         print_uid := true; o_pid := o_pid e; o_uid := o_uid e; ports := ports e |}
  | "p"%char =>
      match get_int arg 1 INT_MAX with
      | Some v => ArgOk (set_pid e v)
      | None => ArgUsage
      end
  | "u"%char =>
      match get_uint arg 0 (u32 (-2)) with
      | Some v => ArgOk (set_uid e v)
      | None => ArgUsage
      end
  | "P"%char =>
      match get_ints arg 64 1 65535 with
      | Some v => ArgOk (set_ports e v)
      | None => ArgUsage
      end
  | "C"%char | "M"%char => ArgOk e
  | _ => ArgUnknown
  end.

(** [argp_parse] calls the parser on the options in order. *)
Fixpoint argp_parse (args : list (ascii * list Z)) (e : opts_env) : arg_result :=
  match args with
  | [] => ArgOk e
  | (key, arg) :: args =>
      match parse_arg key arg e with
      | ArgOk e => argp_parse args e
      | r => r
      end
  end.

(** ** The configuration [main] writes *)

Definition rodata0 : config :=
  {| filter_ports := replicate 64 0; filter_ports_len := 0; filter_uid := u32 (-1);
     filter_pid := 0; do_count := false |}.

(** [for (i = 0; i < env.nports; i++) filter_ports[i] = htons(env.ports[i])]. *)
Fixpoint write_ports (tbl : list Z) (i : Z) (ps : list Z) : option (list Z) :=
  match ps with
  | [] => Some tbl
  | p :: ps => tbl ← aset tbl i (htons (u16 p)); write_ports tbl (i + 1) ps
  end.

Definition main_config (e : opts_env) : option config :=
  let nports := Z.of_nat (length (ports e)) in
  tbl ← (if 0 <? nports then write_ports (filter_ports rodata0) 0 (ports e)
         else Some (filter_ports rodata0));
  Some {| do_count := count e || do_count rodata0;
          filter_pid := if negb (o_pid e =? 0) then o_pid e else filter_pid rodata0;
          filter_uid := if negb (o_uid e =? u32 (-1)) then o_uid e else filter_uid rodata0;
          filter_ports_len := if 0 <? nports then nports else filter_ports_len rodata0;
          filter_ports := tbl |}.

(** ** Output *)

(** The fields of an event's line, in printing order. *)
Record line := {
  l_ts_us : option Z;
  l_uid : option Z;
  l_pid : Z;
  l_task : list Z;
  l_ver : Z;
  l_saddr : addr;
  l_daddr : addr;
  l_dport : Z;
}.

(** [handle_event] on the static [start_ts]: its new value and the line,
    if one is printed.  (With [print_timestamp] the difference is printed
    in seconds; it is kept in microseconds here.) *)
Definition handle_event (e : opts_env) (start_ts : Z) (ev : event) : Z * option line :=
  if (ev_af ev =? AF_INET) || (ev_af ev =? AF_INET6) then
    let start_ts' := if print_timestamp e && (start_ts =? 0) then ev_ts_us ev else start_ts in
    (start_ts',
     Some {| l_ts_us := if print_timestamp e then Some (u64 (ev_ts_us ev - start_ts')) else None;
             l_uid := if print_uid e then Some (s32 (ev_uid ev)) else None;
             l_pid := s32 (ev_pid ev); l_task := take 12 (ev_task ev);
             l_ver := if ev_af ev =? AF_INET then 4 else 6;
             l_saddr := ev_saddr ev; l_daddr := ev_daddr ev;
             l_dport := ntohs (ev_dport ev) |})
  else (start_ts, None).

(** What the tracing mode writes: lines on stdout and warnings. *)
Inductive output := OLine (l : line) | OBroken (af : Z) | OLost (lost_cnt : Z).

Definition handle_lost_events (lost_cnt : Z) : output := OLost lost_cnt.

(** [perf_buffer__poll] calls the two callbacks on the records of a ring in
    their order; [start_ts] is the static variable of [handle_event]. *)
Fixpoint print_events (e : opts_env) (start_ts : Z) (recs : list perf_record) : list output :=
  match recs with
  | [] => []
  | Sample ev :: recs =>
      let '(start_ts, l) := handle_event e start_ts ev in
      match l with Some l => OLine l | None => OBroken (ev_af ev) end :: print_events e start_ts recs
  | Lost n :: recs => handle_lost_events n :: print_events e start_ts recs
  end.

(** The ports of the lines among them. *)
Definition ports_printed (out : list output) : list Z :=
  omap (fun o => match o with OLine l => Some (l_dport l) | _ => None end) out.

(** [print_count_ipv4] prints the static arrays [keys] and [counts], which
    nothing fills: a row per slot, whatever the map [map_fd] holds. *)
Definition print_count_ipv4 {M} (map_fd : M) : list (ipv4_flow_key * Z) :=
  let keys := replicate (Z.to_nat 8192) {| k4_saddr := 0; k4_daddr := 0; k4_dport := 0 |} in
  let counts := replicate (Z.to_nat 8192) 0 in
  zip_with (fun k c => ({| k4_saddr := k4_saddr k; k4_daddr := k4_daddr k;
                           k4_dport := ntohs (k4_dport k) |}, c)) keys counts.

Definition print_count_ipv6 {M} (map_fd : M) : list (ipv6_flow_key * Z) :=
  let keys := replicate (Z.to_nat 8192) {| k6_saddr := replicate 16 0; k6_daddr := replicate 16 0;
                                k6_dport := 0 |} in
  let counts := replicate (Z.to_nat 8192) 0 in
  zip_with (fun k c => ({| k6_saddr := k6_saddr k; k6_daddr := k6_daddr k;
                           k6_dport := ntohs (k6_dport k) |}, c)) keys counts.

Definition print_count {M4 M6} (m4 : M4) (m6 : M6)
    : list (ipv4_flow_key * Z) * list (ipv6_flow_key * Z) :=
  (print_count_ipv4 m4, print_count_ipv6 m6).

(** ** Correctness *)

(** The text of a port list: numerals separated by commas. *)
Fixpoint join (ts : list (list Z)) : list Z :=
  match ts with
  | [] => []
  | [t] => t
  | t :: ts => t ++ 44 :: join ts
  end.

Definition port_numeral (t : list Z) : Prop := numeral t /\ 1 <= dec_value t <= 65535.

Definition env_ok (e : opts_env) : Prop :=
  (length (ports e) <= 64)%nat /\ Forall (fun p => 1 <= p <= 65535) (ports e) /\
  0 <= o_pid e <= INT_MAX /\ 0 <= o_uid e <= UINT32_MAX.

Lemma numeral_length t : numeral t -> (0 < length t)%nat.
Proof. intros [H _]. destruct t; [done|]. simpl. lia. Qed.

Lemma get_ints_loop_bounds arg min max n : forall argp ret l,
  s32 min = min -> s32 max = max -> min <= max ->
  get_ints_loop arg min max n argp ret = Some l ->
  exists k, l = ret ++ k /\ (length k <= n)%nat /\ Forall (fun v => min <= v <= max) k.
Proof.
  intros argp ret l Hmin Hmax Hle. revert argp ret l.
  induction n as [|n IH]; intros argp ret l; cbn [get_ints_loop].
  { intros [= <-]. exists []. by rewrite app_nil_r. }
  destruct (strtol argp) as [[val endp] errno]. zcase; [done|]. zcase; [done|].
  assert (s32 val = val).
  { apply swrap_small; [lia|]. revert Hmin Hmax. width_lia. }
  assert (min <= val <= max) by lia.
  destruct endp as [|c endp].
  - intros [= <-]. exists [s32 val]. split; [done|]. split; [simpl; lia|].
    repeat constructor; lia.
  - intros (k & -> & Hk & Hf)%IH. exists (s32 val :: k). rewrite <- app_assoc.
    split; [done|]. split; [simpl; lia|]. constructor; [lia|done].
Qed.

Lemma get_ints_loop_join arg n : forall ts ret,
  ts <> [] -> (length ts <= n)%nat -> Forall port_numeral ts ->
  (length (join ts) <= length arg)%nat ->
  get_ints_loop arg 1 65535 n (join ts) ret = Some (ret ++ map dec_value ts).
Proof.
  induction n as [|n IH]; intros ts ret Hne Hl Hf Ha; [destruct ts; [done|simpl in Hl; lia]|].
  destruct ts as [|t ts]; [done|]. inversion Hf as [|? ? [Hn Hr] Hf']; subst.
  pose proof (numeral_length _ Hn) as Hlen.
  assert (s32 (dec_value t) = dec_value t) as Hs by (apply swrap_small; pow2; lia).
  cbn [get_ints_loop]. destruct ts as [|t2 ts].
  - cbn [join] in *. pose proof (strtol_numeral t [] Hn I) as E. rewrite app_nil_r in E.
    rewrite E by (unfold LONG_MAX; lia). rewrite bool_decide_false by (simpl; lia).
    zcase; [done|]. zcase; [lia|]. by rewrite Hs.
  - change (join (t :: t2 :: ts)) with (t ++ 44 :: join (t2 :: ts)) in *.
    rewrite strtol_numeral; [|done|done|unfold LONG_MAX; lia].
    rewrite length_app in Ha. rewrite bool_decide_false by (simpl in *; lia).
    zcase; [done|]. zcase; [lia|]. rewrite Hs. cbv zeta.
    rewrite IH; [|done|simpl in *; lia|done|cbn [length] in Ha; lia].
    by rewrite <- app_assoc.
Qed.

Lemma write_ports_eq ps : forall pre mid,
  (length ps <= length mid)%nat ->
  write_ports (pre ++ mid) (Z.of_nat (length pre)) ps
  = Some (pre ++ map (fun p => htons (u16 p)) ps ++ drop (length ps) mid).
Proof.
  induction ps as [|p ps IH]; intros pre mid Hl; [done|].
  destruct mid as [|m mid]; [simpl in Hl; lia|]. cbn [write_ports].
  rewrite aset_nat by (rewrite length_app; simpl; lia). cbn [mbind option_bind].
  rewrite insert_app_r_alt, Nat.sub_diag by lia. cbn [list_insert insert list_insert].
  replace (Z.of_nat (length pre) + 1) with (Z.of_nat (length (pre ++ [htons (u16 p)])))
    by (rewrite length_app; simpl; lia).
  replace (pre ++ _ :: mid) with ((pre ++ [htons (u16 p)]) ++ mid) by (by rewrite <- app_assoc).
  rewrite IH by (simpl in Hl; lia). by rewrite <- app_assoc.
Qed.

(** The table main writes: the ports in network order, then zeros. *)
Lemma main_config_eq e :
  (length (ports e) <= 64)%nat -> exists cfg, main_config e = Some cfg /\ cfg_wf cfg /\
    filter_ports_len cfg = Z.of_nat (length (ports e)) /\
    take (length (ports e)) (filter_ports cfg) = map (fun p => htons (u16 p)) (ports e) /\
    do_count cfg = count e /\ filter_pid cfg = o_pid e /\ filter_uid cfg = o_uid e.
Proof.
  intros Hl. unfold main_config. destruct (0 <? Z.of_nat (length (ports e))) eqn:E; zbool.
  - pose proof (write_ports_eq (ports e) [] (filter_ports rodata0)) as W.
    change (Z.of_nat (length [])) with 0 in W. cbn [app] in W. rewrite W by (simpl; lia). cbn [mbind option_bind].
    eexists. split; [done|]. unfold cfg_wf.
    cbn [filter_ports filter_ports_len do_count filter_pid filter_uid].
    rewrite length_app, length_map, length_drop. cbn [filter_ports rodata0].
    rewrite length_replicate. repeat split; try lia.
    + rewrite <- (length_map (fun p => htons (u16 p)) (ports e)) at 1. apply take_app_length.
    + by rewrite orb_false_r.
    + zcase; [done|]. by destruct (Z.eq_dec (o_pid e) 0).
    + by zcase.
  - destruct (ports e) as [|p ps]; [|simpl in E; lia]. cbn [mbind option_bind].
    eexists. split; [done|]. unfold cfg_wf. cbn. repeat split; try lia.
    + by rewrite orb_false_r.
    + zcase; [done|]. by destruct (Z.eq_dec (o_pid e) 0).
    + by zcase.
Qed.

Lemma config_selects_ports e cfg p :
  env_ok e -> main_config e = Some cfg -> 0 <= p < 65536 ->
  port_selected cfg p = bool_decide (ports e = [] \/ ntohs p ∈ ports e).
Proof.
  intros (Hl & Hf & _) Hm Hp.
  destruct (main_config_eq e Hl) as (cfg' & Hm' & _ & Hn & Ht & _).
  rewrite Hm in Hm'. injection Hm' as <-. unfold port_selected. rewrite Hn, Nat2Z.id, Ht.
  destruct (ports e) as [|q qs] eqn:E.
  { symmetry. apply bool_decide_true. by left. }
  replace (_ =? 0) with false by (simpl; lia). cbn [orb]. apply bool_decide_ext.
  rewrite list_elem_of_fmap. rewrite Forall_forall in Hf. split.
  - intros (y & -> & Hy). right. specialize (Hf y Hy).
    rewrite (wrap_small 16) by (pow2; lia). by rewrite bswap16_invol by lia.
  - intros [?|H]; [done|]. exists (ntohs p). split; [|done].
    specialize (Hf _ H). rewrite (wrap_small 16) by (pow2; lia). by rewrite bswap16_invol.
Qed.

Lemma parse_arg_ok key arg e e' :
  env_ok e -> parse_arg key arg e = ArgOk e' -> env_ok e'.
Proof.
  intros (Hl & Hf & Hp & Hu).
  assert (Hpid : forall v, get_int arg 1 INT_MAX = Some v -> 0 <= v <= INT_MAX).
  { intros v. unfold get_int. destruct (strtol arg) as [[val endp] errno].
    zcase; [done|]. zcase; [done|]. intros [= <-]. rewrite swrap_small; pow2; lia. }
  assert (Huid : forall v, get_uint arg 0 (u32 (-2)) = Some v -> 0 <= v <= UINT32_MAX).
  { intros v. unfold get_uint. destruct (strtoul arg) as [[val endp] errno].
    zcase; [done|]. zcase; [done|]. intros [= <-]. width_lia. }
  assert (Hports : forall l, get_ints arg 64 1 65535 = Some l ->
            (length l <= 64)%nat /\ Forall (fun p => 1 <= p <= 65535) l).
  { intros l H. apply get_ints_loop_bounds in H as (k & -> & Hk); [done|done|done|lia]. }
  unfold parse_arg. destruct key as [[] [] [] [] [] [] [] []]; try done;
    try (intros [= <-]; done).
  - destruct (get_uint arg 0 (u32 (-2))) as [v|] eqn:E; [|done]. intros [= <-].
    unfold env_ok. simpl. eauto.
  - destruct (get_int arg 1 INT_MAX) as [v|] eqn:E; [|done]. intros [= <-].
    unfold env_ok. simpl. eauto.
  - destruct (get_ints arg 64 1 65535) as [v|] eqn:E; [|done]. intros [= <-].
    destruct (Hports v eq_refl). unfold env_ok. simpl. eauto.
Qed.

Lemma argp_parse_ok args : forall e e',
  env_ok e -> argp_parse args e = ArgOk e' -> env_ok e'.
Proof.
  induction args as [|[key arg] args IH]; intros e e' He; cbn [argp_parse].
  { by intros [= <-]. }
  destruct (parse_arg key arg e) eqn:E; [|done..]. intros H.
  eapply IH; [|exact H]. by eapply parse_arg_ok.
Qed.

Lemma env0_ok : env_ok env0.
Proof. unfold env_ok. cbn. split; [lia|]. split; [constructor|]. width_lia. Qed.

Lemma print_events_app e recs : forall start recs',
  exists start', print_events e start (recs ++ recs')
    = print_events e start recs ++ print_events e start' recs'.
Proof.
  induction recs as [|[ev|n] recs IH]; intros start recs'; cbn [print_events app]; [by exists start| |].
  - destruct (handle_event e start ev) as [s l]. destruct (IH s recs') as [s' ->]. by exists s'.
  - destruct (IH start recs') as [s' ->]. by exists s'.
Qed.

(** An event of the kernel side is printed with its port in host order. *)
Lemma print_spec_event e h v sk start :
  ports_printed (print_events e start (perf_records h (spec_event h v sk)))
  = match perf_output h with
    | Some _ => [ntohs (skc_dport (sk_common h sk))]
    | None => []
    end.
Proof.
  unfold perf_records. destruct (perf_output h) as [n|]; [|done].
  destruct (n =? 0), (v =? 4) eqn:E; cbn [app print_events handle_event spec_event ev_af];
    unfold handle_event, spec_event; rewrite E; done.
Qed.

Section EndToEnd.
Context {MS M4 M6 : Type} `{!BpfMapOps Z Z MS}
  `{!BpfMapOps ipv4_flow_key Z M4} `{!BpfMapOps ipv6_flow_key Z M6}.
Context `{!BpfHashLaws Z Z MS} `{!BpfHashLaws ipv4_flow_key Z M4}
  `{!BpfHashLaws ipv6_flow_key Z M6}.
Implicit Types (st : state MS M4 M6).


(** No command line can make the kernel program read outside its port
    table.  Whatever arguments are given, if [argp_parse] accepts them then
    the copy of the ports into the 64 slots stays inside them, the
    configuration satisfies the bounds the kernel side relies on, and the
    pid and uid filters select exactly the process and user asked for
    (everything, when no option was given). *)
Theorem command_line_config_safe args e :
  argp_parse args env0 = ArgOk e ->
  exists cfg, main_config e = Some cfg /\ cfg_wf cfg /\
    (forall h, selected cfg h =
       ((o_pid e =? 0) || (u32 (Z.shiftr (pid_tgid h) 32) =? o_pid e)) &&
       ((o_uid e =? UINT32_MAX) || (u32 (uid_gid h) =? o_uid e)))%bool /\
    (forall port, is_Some (filter_port cfg port)).
Proof.
  intros H. pose proof (argp_parse_ok _ _ _ env0_ok H) as (Hl & _ & Hp & Hu).
  destruct (main_config_eq e Hl) as (cfg & Hm & Hw & _ & _ & _ & Hpid & Huid).
  exists cfg. split; [done|]. split; [done|]. split.
  - intros h. unfold selected. rewrite Hpid, Huid.
    by rewrite (wrap_small 32 (o_pid e)) by (pow2; lia).
  - intros port. rewrite filter_port_total by done. by eexists.
Qed.
End EndToEnd.

(** The separator is not checked: [get_ints] takes any single character
    between two numbers, and text after the 64th number is not read. *)
Lemma port_list_any_separator : get_ints (lit "80x90") 64 1 65535 = Some [80; 90].
Proof. reflexivity. Qed.

(** In counting mode the table printed does not depend on the maps. *)
Lemma print_count_ignores_maps {M4 M6} (m4 m4' : M4) (m6 m6' : M6) :
  print_count m4 m6 = print_count m4' m6' /\
  Forall (fun row => row.2 = 0) (print_count_ipv4 m4).
Proof.
  split; [reflexivity|]. apply Forall_lookup. intros i [k c] H. unfold print_count_ipv4 in H.
  apply lookup_zip_with_Some in H as (k' & c' & [= -> ->] & _ & H).
  by apply lookup_replicate_1 in H as [-> _].
Qed.

(** ** Concrete runs *)


Lemma command_line_config_safe_witness :
  exists e cfg, argp_parse [("p"%char, lit "181"); ("P"%char, lit "80")] env0 = ArgOk e /\
    main_config e = Some cfg /\ cfg_wf cfg.
Proof.
  eexists. destruct (command_line_config_safe [("p"%char, lit "181"); ("P"%char, lit "80")] _ eq_refl)
    as (cfg & H1 & H2 & _).
  exists cfg. split; [reflexivity|]. split; [exact H1|exact H2].
Defined.
