(* ===== verification/MapHelpers.v ===== *)
(** * Reading a whole map (src/plugin/libbpf-test/map_helpers.c)

    [dump_hash] copies the entries of a hash map into two arrays, by batch
    lookups where the kernel has them and key by key otherwise.  The
    system calls behind it are operations of the class [BpfMapIterOps] and
    what their documentation promises are the laws of [BpfIterLaws] and
    [BpfBatchLaws]; BpfMap's [Hmap] satisfies them.  The batch calls may fail
    with any error and read anything: the entries are read again key by
    key, and only the number copied and the error matter. *)

From S2P Require Import Prelude BpfMap.

Abbreviation ENOSPC := 28 (only parsing).

(** The answer of BPF_MAP_LOOKUP_BATCH: [errno] (0 is success), the token
    to pass on, and the entries copied. *)
Record batch (K V T : Type) := {
  b_errno : Z;
  b_out : T;
  b_items : list (K * V);
}.
Arguments b_errno {K V T} _.
Arguments b_out {K V T} _.
Arguments b_items {K V T} _.
Arguments Build_batch {K V T} _ _ _.

(** [bpf_map_get_next_key m k]: the key after [k], [None] is -1 with
    [errno] ENOENT.  [T] is what the pointer variables [in] and [out] hold,
    which [bpf_map_lookup_batch] gets the addresses of; [null_token] is the
    NULL that [in] starts with.  No address of a token is ever NULL here,
    which is how the documentation wants a reading to begin. *)
Class BpfMapIterOps (K V M T : Type) := {
  bpf_map_get_next_key : M -> K -> option K;
  null_token : T;
  bpf_map_lookup_batch : M -> T -> Z -> batch K V T;
}.

(** BPF_MAP_GET_NEXT_KEY: the keys are enumerated in some order [iter_keys];
    a key that is not in the map leads to the first one. *)
Class BpfIterLaws (K V M T : Type) `{!BpfMapOps K V M} `{!BpfMapIterOps K V M T} := {
  iter_keys : M -> list K;
  iter_nodup (m : M) : NoDup (iter_keys m);
  iter_lookup (m : M) k : k ∈ iter_keys m <-> is_Some (bpf_map_lookup_elem m k);
  iter_first (m : M) k : k ∉ iter_keys m ->
    bpf_map_get_next_key m k = head (iter_keys m);
  iter_next (m : M) k i : iter_keys m !! i = Some k ->
    bpf_map_get_next_key m k = iter_keys m !! S i;
}.

(** BPF_MAP_LOOKUP_BATCH copies at most the [n] entries there is room for,
    and at least one if it succeeds.  Whatever else it does is left open:
    with which [errno] it fails, ENOSPC and EINVAL among them, where it
    begins with a token of its own, with [null_token] or with another, and
    whether its entries are those of the map. *)
Class BpfBatchLaws (K V M T : Type) `{!BpfMapIterOps K V M T} := {
  batch_room (m : M) t n : 0 < n ->
    Z.of_nat (length (b_items (bpf_map_lookup_batch m t n))) <= n;
  batch_progress (m : M) t n : 0 < n ->
    b_errno (bpf_map_lookup_batch m t n) = 0 -> b_items (bpf_map_lookup_batch m t n) <> [];
}.

Section MapHelpers.
Context {K V M T : Type} `{!BpfMapOps K V M} `{!BpfMapIterOps K V M T}.

(** The keys [dump_hash_iter] collects: [room] = [*count - n] slots left. *)
Fixpoint iter_get_keys (m : M) (room : nat) (key : K) (keys : list K) : list K :=
  match room with
  | O => keys
  | S room =>
      match bpf_map_get_next_key m key with
      | None => keys
      | Some next_key => iter_get_keys m room next_key (keys ++ [next_key])
      end
  end.

(** [None] is the return value -1; the keys, the values and [*count]
    otherwise. *)
Definition dump_hash_iter (m : M) (count : Z) (invalid_key : K) : option (list K * list V * Z) :=
  let keys := iter_get_keys m (Z.to_nat count) invalid_key [] in
  values ← mapM (bpf_map_lookup_elem m) keys;
  Some (keys, values, Z.of_nat (length keys)).

(** The loop of [dump_hash_batch] from [n_read] entries: the [errno] it
    stops with, and the entries. *)
Fixpoint dump_batch_loop (m : M) (count : Z) (fuel : nat) (tok : T) (acc : list (K * V))
    : option (Z * list (K * V)) :=
  match fuel with
  | O => None
  | S fuel =>
      if Z.of_nat (length acc) <? count then
        let r := bpf_map_lookup_batch m tok (count - Z.of_nat (length acc)) in
        if negb (b_errno r =? 0) && negb (b_errno r =? ENOENT) then Some (b_errno r, acc)
        else
          let acc := acc ++ b_items r in
          if b_errno r =? 0 then dump_batch_loop m count fuel (b_out r) acc
          else Some (0, acc)
      else Some (0, acc)
  end.

(** A batch that succeeds makes progress, so [count] iterations and the
    final test are enough. *)
Definition dump_hash_batch (m : M) (count : Z) : option (Z * list (K * V)) :=
  dump_batch_loop m count (S (Z.to_nat count)) null_token [].

(** [dump_hash] with non-NULL arrays and nonzero sizes; [batch_map_ops] is
    the static flag, [invalid_key] may be NULL.  The result is [errno] or
    the entries; the outer option is non-termination of the batch loop. *)
Definition dump_hash (batch_map_ops : bool) (m : M) (count : Z) (invalid_key : option K)
    : option (Z + (list K * list V * Z)) :=
  let finish count :=
    match invalid_key with
    | None => inl EINVAL
    | Some ik =>
        match dump_hash_iter m count ik with
        | None => inl ENOENT
        | Some r => inr r
        end
    end in
  if batch_map_ops then
    '(err, items) ← dump_hash_batch m count;
    if negb (err =? 0) then
      if negb (err =? EINVAL) then Some (inl err) else Some (finish count)
    else Some (finish (Z.of_nat (length items)))
  else Some (finish count).
End MapHelpers.

(** ** Correctness *)

Section Theorems.
Context {K V M T : Type} `{!BpfMapOps K V M} `{!BpfMapIterOps K V M T}
  `{!BpfIterLaws K V M T}.

Lemma iter_get_keys_from (m : M) room : forall i key acc,
  iter_keys m !! i = Some key ->
  iter_get_keys m room key acc = acc ++ take room (drop (S i) (iter_keys m)).
Proof.
  induction room as [|room IH]; intros i key acc Hk; cbn [iter_get_keys].
  { by rewrite take_0, app_nil_r. }
  rewrite (iter_next m key i Hk). destruct (iter_keys m !! S i) as [k|] eqn:E.
  - rewrite (IH (S i)) by done. rewrite (drop_S _ _ _ E). cbn [take]. by rewrite <- app_assoc.
  - rewrite drop_ge by (by apply lookup_ge_None_1). by rewrite take_nil, app_nil_r.
Qed.

(** Key by key from a key outside the map: the enumeration, cut to size. *)
Lemma iter_get_keys_all (m : M) room ik :
  bpf_map_lookup_elem m ik = None ->
  iter_get_keys m room ik [] = take room (iter_keys m).
Proof.
  intros Hn. assert (ik ∉ iter_keys m) as Hni by (rewrite iter_lookup, Hn; by intros []).
  destruct room as [|room]; cbn [iter_get_keys]; [by rewrite take_0|].
  rewrite iter_first by done. destruct (iter_keys m) as [|k ks] eqn:E; [done|]. cbn [head].
  rewrite (iter_get_keys_from m room 0) by (by rewrite E). rewrite E. done.
Qed.

Lemma mapM_lookup (m : M) ks :
  (forall k, k ∈ ks -> k ∈ iter_keys m) ->
  exists vs, mapM (bpf_map_lookup_elem m) ks = Some vs /\
    Forall2 (fun k v => bpf_map_lookup_elem m k = Some v) ks vs.
Proof.
  intros H. assert (Forall (fun k => is_Some (bpf_map_lookup_elem m k)) ks) as Hs.
  { apply Forall_forall. intros k Hk. by apply iter_lookup, H. }
  apply mapM_is_Some_2 in Hs as [vs Hvs]. exists vs. split; [done|]. by apply mapM_Some.
Qed.

Lemma dump_hash_iter_spec (m : M) count ik :
  0 <= count -> bpf_map_lookup_elem m ik = None ->
  exists vs, dump_hash_iter m count ik
    = Some (take (Z.to_nat count) (iter_keys m), vs,
            Z.of_nat (length (take (Z.to_nat count) (iter_keys m)))) /\
    Forall2 (fun k v => bpf_map_lookup_elem m k = Some v)
      (take (Z.to_nat count) (iter_keys m)) vs.
Proof.
  intros Hc Hn. unfold dump_hash_iter. rewrite iter_get_keys_all by done.
  destruct (mapM_lookup m (take (Z.to_nat count) (iter_keys m))) as (vs & -> & H).
  { intros k Hk. apply elem_of_take in Hk as (i & Hi & _).
    by eapply list_elem_of_lookup_2. }
  exists vs. done.
Qed.

(** What the batch calls answer, read off the calls themselves:
    [batch_calls m t room n e] if calls from the token [t] on, each for the
    room the ones before it have left, copy [n] entries and end without an
    error ([e] is 0: no room is left, or a call says ENOENT), or if one of
    them fails with [e]. *)
Inductive batch_calls (m : M) : T -> Z -> nat -> Z -> Prop :=
  | calls_full t : batch_calls m t 0 0 0
  | calls_end t room :
      0 < room -> b_errno (bpf_map_lookup_batch m t room) = ENOENT ->
      batch_calls m t room (length (b_items (bpf_map_lookup_batch m t room))) 0
  | calls_fail t room e :
      0 < room -> b_errno (bpf_map_lookup_batch m t room) = e -> e <> 0 -> e <> ENOENT ->
      batch_calls m t room 0 e
  | calls_more t room n e :
      0 < room -> b_errno (bpf_map_lookup_batch m t room) = 0 ->
      batch_calls m (b_out (bpf_map_lookup_batch m t room))
        (room - Z.of_nat (length (b_items (bpf_map_lookup_batch m t room)))) n e ->
      batch_calls m t room (length (b_items (bpf_map_lookup_batch m t room)) + n) e.

Lemma batch_calls_errno m t room n e : batch_calls m t room n e -> e <> ENOENT.
Proof. by induction 1. Qed.

(** The loop makes these calls and ends. *)
Lemma dump_batch_loop_spec `{!BpfBatchLaws K V M T} (m : M) count fuel : forall tok acc,
  Z.of_nat (length acc) <= count -> (Z.to_nat count - length acc < fuel)%nat ->
  exists e items n, dump_batch_loop m count fuel tok acc = Some (e, items) /\
    batch_calls m tok (count - Z.of_nat (length acc)) n e /\
    (e = 0 -> length items = (length acc + n)%nat /\ Z.of_nat (length items) <= count).
Proof.
  induction fuel as [|fuel IH]; intros tok acc Hle Hf; [lia|].
  cbn [dump_batch_loop]. destruct (_ <? count) eqn:E; zbool.
  2: { exists 0, acc, 0%nat. replace (count - _) with 0 by lia.
       split_and!; [done|constructor|intros _; lia]. }
  set (room := count - Z.of_nat (length acc)).
  pose proof (batch_room m tok room ltac:(lia)) as H1.
  pose proof (batch_progress m tok room ltac:(lia)) as H2.
  destruct (Z.eqb_spec (b_errno (bpf_map_lookup_batch m tok room)) 0) as [E0|E0]; cbn [negb andb].
  { specialize (H2 E0). destruct (IH (b_out (bpf_map_lookup_batch m tok room))
      (acc ++ b_items (bpf_map_lookup_batch m tok room))) as (e & items & n & El & Hc & Hn).
    { rewrite length_app. lia. }
    { rewrite length_app. destruct (b_items _); [done|]. simpl. lia. }
    rewrite length_app in Hc, Hn.
    exists e, items, (length (b_items (bpf_map_lookup_batch m tok room)) + n)%nat.
    split; [done|]. split; [|intros ->; lia]. apply calls_more; [lia|done|].
    by replace (room - _) with (count - Z.of_nat (length acc
      + length (b_items (bpf_map_lookup_batch m tok room)))) by lia. }
  destruct (Z.eqb_spec (b_errno (bpf_map_lookup_batch m tok room)) ENOENT) as [E1|E1]; cbn [negb].
  - do 3 eexists. split; [done|]. split; [apply calls_end; [lia|done]|].
    intros _. rewrite length_app. lia.
  - do 3 eexists. split; [done|]. split; [apply calls_fail; (lia || done)|done].
Qed.

Lemma dump_hash_batch_spec `{!BpfBatchLaws K V M T} (m : M) count :
  0 <= count -> exists e items n, dump_hash_batch m count = Some (e, items) /\
    batch_calls m null_token count n e /\
    (e = 0 -> length items = n /\ Z.of_nat n <= count).
Proof.
  intros Hc. destruct (dump_batch_loop_spec m count (S (Z.to_nat count)) null_token [])
    as (e & items & n & E & H & Hn); [done|simpl; lia|].
  exists e, items, n. rewrite Z.sub_0_r in H. split_and!; [done|done|]. intros He.
  destruct (Hn He) as [? ?]. simpl in *. lia.
Qed.


(** Without [invalid_key] the call fails even when the batch read it all. *)
Lemma dump_hash_needs_invalid_key (m : M) count items :
  dump_hash_batch m count = Some (0, items) -> dump_hash true m count None = Some (inl EINVAL).
Proof. intros Eb. unfold dump_hash. by rewrite Eb. Qed.

(** Room that is too small for one bucket of the map makes the whole call
    fail: only EINVAL leads to reading key by key. *)
Lemma dump_hash_no_space (m : M) count ik :
  0 < count -> b_errno (bpf_map_lookup_batch m null_token count) = ENOSPC ->
  dump_hash true m count ik = Some (inl ENOSPC).
Proof.
  intros Hc He. unfold dump_hash, dump_hash_batch. cbn [dump_batch_loop length].
  change (Z.of_nat 0) with 0. rewrite Z.sub_0_r, He.
  by destruct (Z.ltb_spec 0 count); [|lia].
Qed.
End Theorems.

(** ** The concrete hash map satisfies the laws *)

Definition next_in {K} `{!EqDecision K} (l : list K) (k : K) : option K :=
  match list_find (k =.) l with
  | Some (i, _) => l !! S i
  | None => head l
  end.

Definition hmap_keys {K V} `{Countable K} (m : Hmap K V) : list K :=
  (map_to_list (hm_entries m)).*1.

#[export] Instance hmap_iter_ops {K V} `{Countable K} : BpfMapIterOps K V (Hmap K V) nat := {
  bpf_map_get_next_key m k := next_in (hmap_keys m) k;
  null_token := 0%nat;
  bpf_map_lookup_batch m pos n :=
    let es := map_to_list (hm_entries m) in
    let items := take (Z.to_nat n) (drop pos es) in
    {| b_errno := if (length es <=? pos + length items)%nat then ENOENT else 0;
       b_out := (pos + length items)%nat; b_items := items |};
}.

#[export] Instance hmap_iter_laws {K V} `{Countable K} : BpfIterLaws K V (Hmap K V) nat.
Proof.
  refine {| iter_keys := hmap_keys |}; unfold hmap_keys.
  - intros m. apply NoDup_fst_map_to_list.
  - intros m k. rewrite list_elem_of_fmap. split.
    + intros ([k' v] & -> & Hin%elem_of_map_to_list). by exists v.
    + intros [v Hv]. exists (k, v). split; [done|]. by apply elem_of_map_to_list.
  - intros m k Hk. cbn [bpf_map_get_next_key hmap_iter_ops]. unfold next_in.
    destruct (list_find (k =.) _) as [[i k']|] eqn:E; [|done].
    apply list_find_Some in E as (E & -> & _). destruct Hk. by eapply list_elem_of_lookup_2.
  - intros m k i Hi. cbn [bpf_map_get_next_key hmap_iter_ops]. unfold next_in.
    destruct (list_find (k =.) _) as [[j k']|] eqn:E.
    + apply list_find_Some in E as (E & -> & _).
      by rewrite (NoDup_lookup _ _ _ _ (NoDup_fst_map_to_list _) Hi E).
    + apply list_find_None in E. rewrite Forall_forall in E.
      destruct (E k); [by eapply list_elem_of_lookup_2|done].
Defined.

#[export] Instance hmap_batch_laws {K V} `{Countable K} : BpfBatchLaws K V (Hmap K V) nat.
Proof.
  split; intros m t n Hn; cbn [bpf_map_lookup_batch hmap_iter_ops b_items b_errno];
    set (es := map_to_list (hm_entries m)); rewrite ?length_take, ?length_drop; [lia|].
  destruct (Nat.leb_spec (length es) (t + (Z.to_nat n `min` (length es - t)))); [done|].
  intros _ Hnil. apply (f_equal length) in Hnil.
  rewrite length_take, length_drop in Hnil. simpl in Hnil. lia.
Defined.

Definition ex_map : Hmap Z Z := mkHmap 8 {[ 3 := 30; 5 := 50; 9 := 90 ]}.

