(* ===== verification/Hist.v ===== *)
(** * Histogram printing (src/plugin/libbpf-test/trace_helpers.c)

    [print_stars], [print_log2_hist] and [print_linear_hist].  The output is
    kept as rows: the interval (or base value), the count and the bar's
    stars, spaces and overflow mark.  Reading outside [vals], dividing by
    zero and shifting by the width or more have no result ([None]). *)

From S2P Require Import Prelude.

Record bar := { num_stars : Z; num_spaces : Z; need_plus : bool }.

(** [min(val, val_max) * width] is computed in [unsigned int] ([width] is
    converted), and so is the division. *)
Definition print_stars (val val_max width : Z) : option bar :=
  if val_max =? 0 then None else
  let stars := s32 (u32 (Z.min val val_max * u32 width) / val_max) in
  Some {| num_stars := stars; num_spaces := width - stars;
          need_plus := bool_decide (val_max < val) |}.

(** The first loop: the last index with a nonzero count and the largest
    count, from index [i], [n] entries to go. *)
Fixpoint log2_scan (vals : list Z) (n : nat) (i idx_max val_max : Z) : option (Z * Z) :=
  match n with
  | O => Some (idx_max, val_max)
  | S n =>
      val ← aref vals i;
      let idx_max := if 0 <? val then i else idx_max in
      let val_max := if val_max <? val then val else val_max in
      log2_scan vals n (i + 1) idx_max val_max
  end.

Record log2_row := { low : Z; high : Z; r_val : Z; r_bar : bar }.

(** [1ULL << s]. *)
Definition shl1 (s : Z) : option Z :=
  if (0 <=? s) && (s <? 64) then Some (u64 (Z.shiftl 1 s)) else None.

Definition log2_row_at (vals : list Z) (val_max stars i : Z) : option log2_row :=
  p ← shl1 (i + 1);
  let lo := Z.shiftr p 1 in
  let hi := u64 (p - 1) in
  let lo := if lo =? hi then u64 (lo - 1) else lo in
  val ← aref vals i;
  b ← print_stars val val_max stars;
  Some {| low := lo; high := hi; r_val := val; r_bar := b |}.

Fixpoint log2_rows (vals : list Z) (val_max stars : Z) (n : nat) (i : Z)
    : option (list log2_row) :=
  match n with
  | O => Some []
  | S n =>
      r ← log2_row_at vals val_max stars i;
      rs ← log2_rows vals val_max stars n (i + 1);
      Some (r :: rs)
  end.

(** The rows printed; none when every count is zero. *)
Definition print_log2_hist (vals : list Z) (vals_size : Z) : option (list log2_row) :=
  '(idx_max, val_max) ← log2_scan vals (Z.to_nat vals_size) 0 (-1) 0;
  if idx_max <? 0 then Some [] else
  let stars_max := 40 in
  let stars := if idx_max <=? 32 then stars_max else stars_max / 2 in
  log2_rows vals val_max stars (Z.to_nat (idx_max + 1)) 0.

Fixpoint linear_scan (vals : list Z) (n : nat) (i idx_min idx_max val_max : Z)
    : option (Z * Z * Z) :=
  match n with
  | O => Some (idx_min, idx_max, val_max)
  | S n =>
      val ← aref vals i;
      let '(idx_min, idx_max) :=
        if 0 <? val then (if idx_min <? 0 then i else idx_min, i) else (idx_min, idx_max) in
      let val_max := if val_max <? val then val else val_max in
      linear_scan vals n (i + 1) idx_min idx_max val_max
  end.

Record linear_row := { l_base : Z; l_val : Z; l_bar : bar }.

Fixpoint linear_rows (vals : list Z) (base step val_max : Z) (n : nat) (i : Z)
    : option (list linear_row) :=
  match n with
  | O => Some []
  | S n =>
      val ← aref vals i;
      b ← print_stars val val_max 40;
      rs ← linear_rows vals base step val_max n (i + 1);
      Some ({| l_base := u32 (base + u32 (i * step)); l_val := val; l_bar := b |} :: rs)
  end.

Definition print_linear_hist (vals : list Z) (vals_size base step : Z)
    : option (list linear_row) :=
  '(idx_min, idx_max, val_max) ← linear_scan vals (Z.to_nat vals_size) 0 (-1) (-1) 0;
  if idx_max <? 0 then Some [] else
  linear_rows vals base step val_max (Z.to_nat (idx_max - idx_min + 1)) idx_min.

(** ** Correctness *)

Definition is_u32 (v : Z) : Prop := 0 <= v < 4294967296.

(** The bar never overruns its column, whatever the counts. *)
Lemma print_stars_bounds val val_max width b :
  0 <= width <= INT_MAX -> 0 <= val -> 0 < val_max ->
  print_stars val val_max width = Some b ->
  0 <= num_stars b <= width /\ num_spaces b = width - num_stars b.
Proof.
  intros Hw Hv Hm. unfold print_stars. zcase; [lia|]. intros [= <-]. cbn [num_stars num_spaces].
  rewrite (wrap_small 32 width) by (pow2; lia).
  set (p := Z.min val val_max * width).
  assert (0 <= u32 p <= p).
  { split; [apply wrap_range; lia|]. apply Z.mod_le; [|pow2; lia]. subst p. nia. }
  assert (0 <= u32 p / val_max <= width).
  { split; [apply Z.div_pos; lia|]. apply Z.div_le_upper_bound; [lia|]. subst p. nia. }
  rewrite swrap_small by (pow2; lia). lia.
Qed.

(** The product wraps: the longest bar of this histogram is empty. *)
Lemma print_stars_overflow :
  print_stars 107374183 107374183 40
  = Some {| num_stars := 0; num_spaces := 40; need_plus := false |}.
Proof. reflexivity. Qed.

Lemma log2_scan_spec vals n : forall i idx m,
  0 <= i -> i + Z.of_nat n <= Z.of_nat (length vals) -> -1 <= idx < i -> 0 <= m ->
  exists idx' m', log2_scan vals n i idx m = Some (idx', m') /\
    (idx' = idx \/ i <= idx' < i + Z.of_nat n /\ exists v, aref vals idx' = Some v /\ 0 < v) /\
    (forall j v, i <= j < i + Z.of_nat n -> aref vals j = Some v ->
       v <= m' /\ (0 < v -> j <= idx')) /\
    m <= m' /\ idx <= idx' /\
    (m' = m \/ exists j, i <= j < i + Z.of_nat n /\ aref vals j = Some m' /\ 0 < m').
Proof.
  induction n as [|n IH]; intros i idx m Hi Hl Hx Hm; cbn [log2_scan].
  { exists idx, m. split_and!; [done|by left|intros; lia|lia|lia|by left]. }
  destruct (aref_Some vals i) as [v Hv]; [lia|]. rewrite Hv. cbn [mbind option_bind].
  set (idx1 := if 0 <? v then i else idx). set (m1 := if m <? v then v else m).
  assert (Hidx1 : -1 <= idx1 < i + 1) by (unfold idx1; zcase; lia).
  assert (Hm1 : m <= m1 /\ v <= m1 /\ (m1 = m \/ m1 = v /\ 0 < v))
    by (unfold m1; zcase; lia).
  destruct (IH (i + 1) idx1 m1) as (idx' & m' & E & A & B & C & D & F); [lia..|].
  exists idx', m'. split; [done|].
  assert (Hge : idx <= idx1 /\ (0 < v -> idx1 = i)) by (unfold idx1; zcase; lia).
  split; [|split; [|split; [lia|split; [lia|]]]].
  - destruct A as [->|(A1 & w & A2 & A3)].
    + unfold idx1. zcase; [right|by left]. split; [lia|]. by exists v.
    + right. split; [lia|]. by exists w.
  - intros j w Hj Hw. destruct (decide (j = i)) as [->|].
    + rewrite Hv in Hw. injection Hw as <-. split; [lia|]. intros Hpos.
      destruct Hge as [_ Hge]. rewrite Hge in D by done. lia.
    + apply B; [lia|done].
  - destruct F as [->|(j & F1 & F2 & F3)].
    + destruct Hm1 as (_ & _ & [->|[-> Hp]]); [by left|].
      right. exists i. repeat split; [lia|lia|done|done].
    + right. exists j. repeat split; [lia|lia|done|done].
Qed.

(** A row's interval is exactly the values with that binary logarithm
    ([Z.log2 0 = 0]: zero is in the first row). *)
Lemma log2_row_interval vals val_max stars i r x :
  0 <= i < 63 -> log2_row_at vals val_max stars i = Some r -> 0 <= x ->
  (low r <= x <= high r <-> Z.log2 x = i).
Proof.
  intros Hi H Hx. unfold log2_row_at in H. inv_bind H. injection H as <-. cbn [low high].
  unfold shl1 in H0. destruct (_ && _) eqn:E in H0; [|done]. injection H0 as <-.
  assert (P2 : 2 ^ (i + 1) = 2 * 2 ^ i) by (rewrite <- Z.pow_succ_r by lia; f_equal; lia).
  assert (P0 : 1 <= 2 ^ i) by (apply (Z.pow_le_mono_r 2 0 i); lia).
  assert (P3 : 2 ^ i <= 2 ^ 62) by (apply Z.pow_le_mono_r; lia).
  change (2 ^ 62) with 4611686018427387904 in P3.
  rewrite Z.shiftl_1_l, Z.shiftr_div_pow2 by lia. change (2 ^ 1) with 2.
  rewrite (wrap_small 64 (2 ^ (i + 1))) by (pow2; lia).
  replace (2 ^ (i + 1) / 2) with (2 ^ i)
    by (rewrite P2, Z.mul_comm, Z.div_mul; lia).
  rewrite (wrap_small 64 (_ - 1)) by (pow2; lia).
  destruct (Z.eqb_spec (2 ^ i) (2 ^ (i + 1) - 1)) as [Eq|Ne].
  - assert (i = 0) as ->.
    { destruct (Z.eq_dec i 0); [done|]. assert (2 <= 2 ^ i); [|lia].
      apply (Z.pow_le_mono_r 2 1 i); lia. }
    change (u64 (2 ^ 0 - 1)) with 0. change (2 ^ (0 + 1) - 1) with 1. split; intros Hl.
    + assert (x = 0 \/ x = 1) as [->| ->] by lia; done.
    + destruct (Z.eq_dec x 0) as [->|]; [lia|].
      pose proof (Z.log2_spec x ltac:(lia)) as Hs. rewrite Hl in Hs. simpl in Hs. lia.
  - assert (0 < i) by (destruct (Z.eq_dec i 0); [subst; done|lia]).
    split; intros Hl.
    + apply Z.log2_unique; [lia|]. replace (Z.succ i) with (i + 1) by lia. lia.
    + assert (0 < x) by (destruct (Z.eq_dec x 0) as [->|]; [simpl in Hl; lia|lia]).
      pose proof (Z.log2_spec x ltac:(lia)) as Hs. rewrite Hl in Hs.
      replace (Z.succ i) with (i + 1) in Hs by lia. lia.
Qed.

Lemma log2_rows_spec vals val_max stars n : forall i,
  0 <= i -> i + Z.of_nat n <= Z.of_nat (length vals) -> i + Z.of_nat n <= 63 -> 0 < val_max ->
  exists rs, log2_rows vals val_max stars n i = Some rs /\ length rs = n /\
    forall k : nat, (k < n)%nat -> exists r, rs !! k = Some r /\
      log2_row_at vals val_max stars (i + Z.of_nat k) = Some r.
Proof.
  induction n as [|n IH]; intros i Hi Hl H63 Hm; cbn [log2_rows].
  { exists []. repeat split. intros; lia. }
  destruct (IH (i + 1)) as (rs & E & Hlen & Hr); [lia..|].
  assert (exists r, log2_row_at vals val_max stars i = Some r) as [r Er].
  { unfold log2_row_at, shl1, print_stars.
    destruct (_ && _) eqn:B; [|lia]. cbn [mbind option_bind].
    destruct (aref_Some vals i) as [v ->]; [lia|]. cbn [mbind option_bind].
    destruct (Z.eqb_spec val_max 0); [lia|]. by eexists. }
  rewrite Er, E. cbn [mbind option_bind]. eexists. split; [done|]. split; [simpl; lia|].
  intros [|k] Hk; [exists r; rewrite Z.add_0_r; done|].
  destruct (Hr k) as (r' & H1 & H2); [lia|]. exists r'. split; [done|].
  by replace (i + Z.of_nat (S k)) with (i + 1 + Z.of_nat k) by lia.
Qed.

(** The bar printed for the count [v], in full: below 2^32 / [width] its
    length is the proportion of the largest count, beyond that the product
    wraps. *)
Lemma print_stars_eq v val_max width :
  0 <= v <= val_max -> 0 < val_max -> 0 <= width <= INT_MAX ->
  print_stars v val_max width
  = Some {| num_stars := (v * width) mod 2 ^ 32 / val_max;
            num_spaces := width - (v * width) mod 2 ^ 32 / val_max; need_plus := false |}.
Proof.
  intros Hv Hm Hw. assert (is_Some (print_stars v val_max width)) as [b Hb]
    by (unfold print_stars; zcase; [lia|by eexists]).
  pose proof (print_stars_bounds v val_max width b ltac:(lia) ltac:(lia) Hm Hb) as [H1 H2].
  rewrite Hb. unfold print_stars in Hb. destruct (Z.eqb_spec val_max 0); [lia|]. rewrite bool_decide_false in Hb by lia.
  rewrite Z.min_l, (wrap_small 32 width) in Hb by (pow2; lia).
  change (u32 (v * width)) with ((v * width) mod 2 ^ 32) in Hb.
  set (p := (v * width) mod 2 ^ 32) in *.
  assert (0 <= p <= v * width) by (split; [apply Z.mod_pos_bound; done|apply Z.mod_le; [nia|done]]).
  assert (0 <= p / val_max <= width).
  { split; [apply Z.div_pos; lia|]. apply Z.div_le_upper_bound; [lia|]. nia. }
  rewrite swrap_small in Hb by (pow2; lia). by injection Hb as <-.
Qed.

(** The scan finds the last nonzero counter and the largest one. *)
Definition largest (vals : list Z) : Z := foldr Z.max 0 vals.

Lemma largest_ge vals v : v ∈ vals -> v <= largest vals.
Proof.
  intros H%list_elem_of_In. induction vals as [|w vs IH]; [done|]. cbn.
  destruct H as [->|H]; [lia|]. specialize (IH H). unfold largest in IH. lia.
Qed.

Lemma largest_unique vals m :
  0 <= m -> Forall (fun v => v <= m) vals -> m = 0 \/ m ∈ vals -> m = largest vals.
Proof.
  intros H0 Hf Hin. assert (largest vals <= m).
  { clear Hin. unfold largest. induction Hf as [|v vs Hv _ IH]; cbn; lia. }
  assert (0 <= largest vals) by (clear; unfold largest; induction vals; cbn; lia).
  destruct Hin as [->|Hin%largest_ge]; lia.
Qed.

Lemma log2_scan_all vals :
  exists idx, log2_scan vals (length vals) 0 (-1) 0 = Some (idx, largest vals) /\
    -1 <= idx < Z.of_nat (length vals) /\
    (idx <> -1 -> exists v, vals !! Z.to_nat idx = Some v /\ 0 < v) /\
    (forall k v, vals !! k = Some v -> 0 < v -> Z.of_nat k <= idx).
Proof.
  destruct (log2_scan_spec vals (length vals) 0 (-1) 0) as (idx & m & E & A & B & C & D & F);
    [lia..|].
  assert (m = largest vals) as ->.
  { apply largest_unique; [lia| |].
    - apply Forall_lookup. intros j v Hj. pose proof (lookup_lt_Some _ _ _ Hj).
      destruct (B (Z.of_nat j) v); [lia|by rewrite aref_nat|done].
    - destruct F as [F|(j & F1 & F2 & _)]; [by left|right].
      rewrite <- (Z2Nat.id j), aref_nat in F2 by lia. by eapply list_elem_of_lookup_2. }
  exists idx. split; [done|]. split; [lia|]. split.
  - intros Hne. destruct A as [?|(? & v & A2 & A3)]; [done|]. exists v. split; [|done].
    by rewrite <- (Z2Nat.id idx), aref_nat in A2 by lia.
  - intros k v Hk Hp. pose proof (lookup_lt_Some _ _ _ Hk).
    destruct (B (Z.of_nat k) v) as [_ H2]; [lia|by rewrite aref_nat|]. by apply H2.
Qed.

(** What a row is to be: the [k]-th counter, the numbers whose binary
    logarithm is [k], and a bar in a column of [width]. *)
Definition row_of (vals : list Z) (width : Z) (k : nat) (r : log2_row) : Prop :=
  vals !! k = Some (r_val r) /\
  (forall x, 0 <= x -> low r <= x <= high r <-> Z.log2 x = Z.of_nat k) /\
  num_stars (r_bar r) = (r_val r * width) mod 2 ^ 32 / largest vals /\
  num_stars (r_bar r) + num_spaces (r_bar r) = width /\ 0 <= num_stars (r_bar r) <= width /\
  need_plus (r_bar r) = false.

Lemma row_at_ok vals width (k : nat) r :
  Forall is_u32 vals -> 0 < largest vals -> 0 <= width <= 40 -> (k < length vals)%nat ->
  (k < 63)%nat -> log2_row_at vals (largest vals) width (Z.of_nat k) = Some r ->
  row_of vals width k r.
Proof.
  intros Hu Hm Hw Hk H63 Hr. destruct (lookup_lt_is_Some_2 vals k Hk) as [v Hv].
  pose proof Hr as Hr'. unfold log2_row_at in Hr'. rewrite aref_nat, Hv in Hr'.
  destruct (shl1 _) as [p|]; [|done]. cbn [mbind option_bind] in Hr'.
  assert (0 <= v <= largest vals).
  { split; [pose proof Hv as Hv'; eapply Forall_lookup_1 in Hv'; [|exact Hu]; apply Hv'|].
    by eapply largest_ge, list_elem_of_lookup_2. }
  pose proof (print_stars_eq v (largest vals) width) as Eb.
  pose proof (print_stars_bounds v (largest vals) width) as Hb.
  rewrite Eb in * by lia. destruct (Hb _ ltac:(lia) ltac:(lia) Hm eq_refl) as [H1 _].
  cbn [num_stars] in H1. injection Hr' as <-. split_and!; cbn; try (done || lia).
  intros x Hx. eapply log2_row_interval in Hr; [exact Hr|lia|done].
Qed.

(** The columns are wide for at most 33 rows. *)
Definition bar_width (rows : list log2_row) : Z := if (length rows <=? 33)%nat then 40 else 20.

Lemma print_log2_hist_rows vals :
  Forall is_u32 vals -> (length vals <= 63)%nat ->
  exists rows, print_log2_hist vals (Z.of_nat (length vals)) = Some rows /\
    (forall k v, vals !! k = Some v -> 0 < v -> (k < length rows)%nat) /\
    (rows <> [] -> exists v, vals !! pred (length rows) = Some v /\ 0 < v) /\
    forall (k : nat) r, rows !! k = Some r ->
      log2_row_at vals (largest vals) (bar_width rows) (Z.of_nat k) = Some r.
Proof.
  intros Hu Hl. destruct (log2_scan_all vals) as (idx & E & Hi & Hlast & Hin).
  unfold print_log2_hist. rewrite Nat2Z.id, E. cbn [mbind option_bind].
  destruct (idx <? 0) eqn:Ei; zbool.
  { exists []. split_and!; [done| |done|intros k r Hr; by rewrite lookup_nil in Hr].
    intros k v Hk Hp. specialize (Hin k v Hk Hp). lia. }
  destruct Hlast as (w & Hw & Hwp); [lia|].
  assert (0 < largest vals) by (apply list_elem_of_lookup_2, largest_ge in Hw; lia).
  change (40 / 2) with 20.
  destruct (log2_rows_spec vals (largest vals) (if idx <=? 32 then 40 else 20)
              (Z.to_nat (idx + 1)) 0) as (rs & Er & Hlen & Hr); [lia..|].
  exists rs. split; [done|]. split; [|split].
  - intros k v Hk Hp. specialize (Hin k v Hk Hp). lia.
  - intros _. exists w. rewrite Hlen. by replace (pred _) with (Z.to_nat idx) by lia.
  - intros k r Hk. pose proof (lookup_lt_Some _ _ _ Hk). destruct (Hr k) as (r' & E1 & E2); [lia|].
    assert (r' = r) as -> by congruence. rewrite Z.add_0_l in E2. rewrite <- E2. f_equal.
    unfold bar_width. destruct (Z.leb_spec idx 32), (Nat.leb_spec (length rs) 33); (done || lia).
Qed.

(** C36: the printed histogram is the histogram.  For at most 63 counters
    the printing never reads outside them or divides by zero.  There is a
    row for each counter up to the last nonzero one and none for those
    behind it; row k gives the interval of the numbers whose binary logarithm
    is k, the count, and a bar in a column of 40 characters, or 20 if there
    are more than 33 rows; its stars are the count times that width, modulo
    2^32, over the largest of all the counts. *)
Theorem print_log2_hist_correct vals :
  Forall is_u32 vals -> (length vals <= 63)%nat ->
  exists rows, print_log2_hist vals (Z.of_nat (length vals)) = Some rows /\
    (forall k v, vals !! k = Some v -> 0 < v -> (k < length rows)%nat) /\
    (rows <> [] -> exists v, vals !! pred (length rows) = Some v /\ 0 < v) /\
    forall (k : nat) r, rows !! k = Some r -> row_of vals (bar_width rows) k r.
Proof.
  intros Hu Hl. destruct (print_log2_hist_rows vals Hu Hl) as (rows & E & Hin & Hlast & Hrow).
  exists rows. split_and!; [done..|]. intros k r Hk.
  destruct Hlast as (w & Hw & Hwp); [by intros ->|].
  pose proof (lookup_lt_Some _ _ _ Hk). pose proof (lookup_lt_Some _ _ _ Hw).
  apply list_elem_of_lookup_2, largest_ge in Hw.
  apply row_at_ok; [done|lia| |lia|lia|by apply Hrow].
  unfold bar_width. destruct (_ <=? _)%nat; lia.
Qed.

Lemma print_log2_hist_correct_witness :
  exists rows, print_log2_hist [0; 3; 6; 0] 4 = Some rows /\
    map (fun r => (low r, high r, r_val r, num_stars (r_bar r))) rows
    = [(0, 1, 0, 0); (2, 3, 3, 20); (4, 7, 6, 40)].
Proof.
  destruct (print_log2_hist_correct [0; 3; 6; 0]) as (rows & E & _).
  - by repeat constructor.
  - simpl. lia.
  - exists rows. split; [exact E|]. vm_compute in E. injection E as <-. reflexivity.
Defined.
