(* ===== verification/TcpRtt.v ===== *)
(** * TCP round-trip times (src/plugin/libbpf-test/tcprtt.bpf.c, tcprtt.c)

    The kernel side adds the smoothed round-trip time of every received
    segment to a log2 histogram, one per local or remote address or one
    for all; the user side sets the filters, prints the histograms and
    empties the map.

    The value a map lookup returns is a pointer into the map and the
    program adds to its fields one by one: [rcv_updates] is the sequence of
    these atomic additions. *)

From Stdlib Require Import Ascii.
From S2P Require Import Prelude CString BpfMap MapHelpers Hist.

Definition MAX_SLOTS : Z := 27.

Record hist := { latency : Z; cnt : Z; slots : list Z }.

Definition zero : hist := {| latency := 0; cnt := 0; slots := replicate 27 0 |}.

(** The read-only configuration. *)
Record targets := {
  targ_laddr_hist : bool;
  targ_raddr_hist : bool;
  targ_show_ext : bool;
  targ_sport : Z;
  targ_dport : Z;
  targ_saddr : Z;
  targ_daddr : Z;
  targ_ms : bool;
}.

(** The fields of the socket the program reads, in network byte order. *)
Record sock := {
  inet_sport : Z;
  skc_dport : Z;
  inet_saddr : Z;
  skc_daddr : Z;
  srtt_us : Z;
}.

(** ** Kernel side *)

Definition log2 (v : Z) : Z :=
  let r := Z.shiftl (bool_to_Z (v >? 0xFFFF)) 4 in
  let v := Z.shiftr v r in
  let shift := Z.shiftl (bool_to_Z (v >? 0xFF)) 3 in
  let v := Z.shiftr v shift in let r := Z.lor r shift in
  let shift := Z.shiftl (bool_to_Z (v >? 0xF)) 2 in
  let v := Z.shiftr v shift in let r := Z.lor r shift in
  let shift := Z.shiftl (bool_to_Z (v >? 0x3)) 1 in
  let v := Z.shiftr v shift in let r := Z.lor r shift in
  Z.lor r (Z.shiftr v 1).

Definition log2l (v : Z) : Z :=
  let hi := u32 (Z.shiftr v 32) in
  if negb (hi =? 0) then u64 (log2 hi + 32) else log2 (u32 v).

Definition rcv_srtt (t : targets) (sk : sock) : Z :=
  let srtt := Z.shiftr (srtt_us sk) 3 in
  if targ_ms t then srtt / 1000 else srtt.

Definition rcv_slot (t : targets) (sk : sock) : Z :=
  let slot := log2l (rcv_srtt t sk) in
  if slot >=? MAX_SLOTS then MAX_SLOTS - 1 else slot.

Definition add_slot (slot : Z) (h : hist) : option hist :=
  v ← aref (slots h) slot;
  s ← aset (slots h) slot (u32 (v + 1));
  Some {| latency := latency h; cnt := cnt h; slots := s |}.

Definition add_latency (srtt : Z) (h : hist) : option hist :=
  Some {| latency := u64 (latency h + srtt); cnt := cnt h; slots := slots h |}.

Definition add_cnt (h : hist) : option hist :=
  Some {| latency := latency h; cnt := u64 (cnt h + 1); slots := slots h |}.

(** The additions to [*histp], in order. *)
Definition rcv_updates (t : targets) (sk : sock) : list (hist -> option hist) :=
  add_slot (rcv_slot t sk) ::
  (if targ_show_ext t then [add_latency (rcv_srtt t sk); add_cnt] else []).

(** The early returns of [tcp_rcv]. *)
Definition rcv_match (t : targets) (sk : sock) : bool :=
  negb (negb (targ_sport t =? 0) && negb (targ_sport t =? inet_sport sk)) &&
  negb (negb (targ_dport t =? 0) && negb (targ_dport t =? skc_dport sk)) &&
  negb (negb (targ_saddr t =? 0) && negb (targ_saddr t =? inet_saddr sk)) &&
  negb (negb (targ_daddr t =? 0) && negb (targ_daddr t =? skc_daddr sk)).

Definition rcv_key (t : targets) (sk : sock) : Z :=
  if targ_laddr_hist t then inet_saddr sk
  else if targ_raddr_hist t then skc_daddr sk
  else 0.

Section Kernel.
Context {M : Type} `{!BpfMapOps Z hist M}.

(** [__sync_fetch_and_add] through [histp]: read and write the entry. *)
Fixpoint run_updates (key : Z) (ups : list (hist -> option hist)) (m : M) : option M :=
  match ups with
  | [] => Some m
  | up :: ups =>
      h ← bpf_map_lookup_elem m key;
      h' ← up h;
      run_updates key ups (bpf_map_store m key h')
  end.

Definition tcp_rcv (t : targets) (sk : sock) (hists : M) : option M :=
  if negb (rcv_match t sk) then Some hists else
  let key := rcv_key t sk in
  match bpf_map_lookup_or_try_init hists key zero with
  | (None, hists) => Some hists
  | (Some _, hists) => run_updates key (rcv_updates t sk) hists
  end.

(** A sequence of received segments. *)
Fixpoint rcv_run (t : targets) (sks : list sock) (hists : M) : option M :=
  match sks with
  | [] => Some hists
  | sk :: sks => hists ← tcp_rcv t sk hists; rcv_run t sks hists
  end.
End Kernel.

(** ** User side *)

Record env := {
  lport : Z;
  rport : Z;
  laddr : Z;
  raddr : Z;
  milliseconds : bool;
  duration : Z;
  interval : Z;
  timestamp : bool;
  laddr_hist : bool;
  raddr_hist : bool;
  extended : bool;
  verbose : bool;
}.

Definition env0 : env :=
  {| lport := 0; rport := 0; laddr := 0; raddr := 0; milliseconds := false; duration := 0;
     interval := 99999999; timestamp := false; laddr_hist := false; raddr_hist := false;
     extended := false; verbose := false |}.

Definition set_ports (e : env) (lp rp : Z) : env :=
  {| lport := lp; rport := rp; laddr := laddr e; raddr := raddr e;
     milliseconds := milliseconds e; duration := duration e; interval := interval e;
     timestamp := timestamp e; laddr_hist := laddr_hist e; raddr_hist := raddr_hist e;
     extended := extended e; verbose := verbose e |}.
Definition set_addrs (e : env) (la ra : Z) : env :=
  {| lport := lport e; rport := rport e; laddr := la; raddr := ra;
     milliseconds := milliseconds e; duration := duration e; interval := interval e;
     timestamp := timestamp e; laddr_hist := laddr_hist e; raddr_hist := raddr_hist e;
     extended := extended e; verbose := verbose e |}.
Definition set_times (e : env) (i d : Z) : env :=
  {| lport := lport e; rport := rport e; laddr := laddr e; raddr := raddr e;
     milliseconds := milliseconds e; duration := d; interval := i;
     timestamp := timestamp e; laddr_hist := laddr_hist e; raddr_hist := raddr_hist e;
     extended := extended e; verbose := verbose e |}.
Definition set_flags (e : env) (ts ms lh rh ex vb : bool) : env :=
  {| lport := lport e; rport := rport e; laddr := laddr e; raddr := raddr e;
     milliseconds := ms; duration := duration e; interval := interval e;
     timestamp := ts; laddr_hist := lh; raddr_hist := rh; extended := ex; verbose := vb |}.

Inductive arg_result := ArgOk (e : env) | ArgUsage | ArgUnknown.

Section User.
(** [inet_aton]: the return value and the address it stores (network byte
    order); when it returns 0 the variable keeps what it held. *)
Context (inet_aton : list Z -> Z * Z).

Definition parse_arg (key : ascii) (arg : list Z) (e : env) : arg_result :=
  let flags ts ms lh rh ex vb := ArgOk (set_flags e ts ms lh rh ex vb) in
  match key with
  | "h"%char => ArgUsage
  | "v"%char =>
      flags (timestamp e) (milliseconds e) (laddr_hist e) (raddr_hist e) (extended e) true
  | "i"%char =>
      let '(v, _, errno) := strtol arg in
      if negb (errno =? 0) || (v <=? 0) then ArgUsage else ArgOk (set_times e v (duration e))
  | "d"%char =>
      let '(v, _, errno) := strtol arg in
      if negb (errno =? 0) || (v <=? 0) then ArgUsage else ArgOk (set_times e (interval e) v)
  | "T"%char =>
      flags true (milliseconds e) (laddr_hist e) (raddr_hist e) (extended e) (verbose e)
  | "m"%char =>
      flags (timestamp e) true (laddr_hist e) (raddr_hist e) (extended e) (verbose e)
  | "p"%char =>
      let '(v, _, errno) := strtoul arg in
      if negb (errno =? 0) then ArgUsage else ArgOk (set_ports e (htons (u16 v)) (rport e))
  | "P"%char =>
      let '(v, _, errno) := strtoul arg in
      if negb (errno =? 0) then ArgUsage else ArgOk (set_ports e (lport e) (htons (u16 v)))
  | "a"%char =>
      let '(ret, s_addr) := inet_aton arg in
      if ret <? 0 then ArgUsage else ArgOk (set_addrs e (htonl s_addr) (raddr e))
  | "A"%char =>
      let '(ret, s_addr) := inet_aton arg in
      if ret <? 0 then ArgUsage else ArgOk (set_addrs e (laddr e) (htonl s_addr))
  | "b"%char =>
      flags (timestamp e) (milliseconds e) true (raddr_hist e) (extended e) (verbose e)
  | "B"%char =>
      flags (timestamp e) (milliseconds e) (laddr_hist e) true (extended e) (verbose e)
  | "e"%char =>
      flags (timestamp e) (milliseconds e) (laddr_hist e) (raddr_hist e) true (verbose e)
  | _ => ArgUnknown
  end.
End User.

(** What [main] stores in the object's read-only data. *)
Definition main_targets (e : env) : targets :=
  {| targ_laddr_hist := laddr_hist e; targ_raddr_hist := raddr_hist e;
     targ_show_ext := extended e; targ_sport := lport e; targ_dport := rport e;
     targ_saddr := laddr e; targ_daddr := raddr e; targ_ms := milliseconds e |}.

(** ** Printing *)

Inductive label := LocalAddress (a : Z) | RemoteAddres (a : Z) | AllAddresses.

Record report := { r_label : label; r_avg : option Z; r_hist : list log2_row }.

(** One entry's lines; [None] is the division by zero. *)
Definition print_entry (e : env) (next_key : Z) (h : hist) : option report :=
  let addr := u32 next_key in
  avg ← (if extended e then if cnt h =? 0 then None else Some (Some (latency h / cnt h))
         else Some None);
  rows ← print_log2_hist (slots h) MAX_SLOTS;
  Some {| r_label := if laddr_hist e then LocalAddress addr
                     else if raddr_hist e then RemoteAddres addr else AllAddresses;
          r_avg := avg; r_hist := rows |}.

Section PrintMap.
Context {M T : Type} `{!BpfMapOps Z hist M} `{!BpfMapIterOps Z hist M T}.

(** The first loop of [print_map]: the status (-1 when a lookup fails) and
    what was printed until then. *)
Fixpoint print_loop (e : env) (m : M) (fuel : nat) (lookup_key : Z) : option (Z * list report) :=
  match fuel with
  | O => None
  | S fuel =>
      match bpf_map_get_next_key m lookup_key with
      | None => Some (0, [])
      | Some next_key =>
          match bpf_map_lookup_elem m next_key with
          | None => Some (-1, [])
          | Some h =>
              r ← print_entry e next_key h;
              '(err, rs) ← print_loop e m fuel next_key;
              Some (err, r :: rs)
          end
      end
  end.

(** The second loop: the status and the map. *)
Fixpoint cleanup_loop (m : M) (fuel : nat) (lookup_key : Z) : option (Z * M) :=
  match fuel with
  | O => None
  | S fuel =>
      match bpf_map_get_next_key m lookup_key with
      | None => Some (0, m)
      | Some next_key =>
          let '(err, m) := bpf_map_delete_elem m next_key in
          if err <? 0 then Some (-1, m) else cleanup_loop m fuel next_key
      end
  end.

(** [lookup_key = -1] in a [__u64]. *)
Definition no_key : Z := u64 (-1).

(** [print_map] with [fuel] bounding both loops: the status, what was
    printed and the map. *)
Definition print_map (e : env) (m : M) (fuel : nat) : option (Z * list report * M) :=
  '(err, rs) ← print_loop e m fuel no_key;
  if err <? 0 then Some (err, rs, m) else
  '(err, m) ← cleanup_loop m fuel no_key;
  Some (err, rs, m).
End PrintMap.

(** ** Correctness *)

(** One halving step of the bit-twiddling logarithm. *)
Lemma log2_step v k :
  0 < v -> 0 <= k ->
  let s := k * bool_to_Z (v >? 2 ^ k - 1) in
  Z.log2 v = s + Z.log2 (Z.shiftr v s) /\ 0 < Z.shiftr v s /\
  (v < 2 ^ (2 * k) -> Z.shiftr v s < 2 ^ k).
Proof.
  intros Hv Hk s. pose proof (Z.pow_pos_nonneg 2 k ltac:(lia) Hk).
  unfold s. destruct (v >? 2 ^ k - 1) eqn:E; cbn [bool_to_Z].
  - assert (2 ^ k <= v) by lia. rewrite Z.mul_1_r, Z.log2_shiftr by done.
    assert (k <= Z.log2 v) by (by apply Z.log2_le_pow2).
    rewrite Z.shiftr_div_pow2 by done. split; [lia|]. split.
    + apply Z.div_str_pos. lia.
    + intros Hb. apply Z.div_lt_upper_bound; [lia|]. rewrite <- Z.pow_add_r by done.
      by replace (k + k) with (2 * k) by lia.
  - rewrite Z.mul_0_r, Z.shiftr_0_r. lia.
Qed.

Lemma log2_spec v : 0 <= v < 2 ^ 32 -> log2 v = Z.log2 v.
Proof.
  intros Hv. destruct (Z.eq_dec v 0) as [->|]; [done|]. unfold log2.
  destruct (log2_step v 16) as (E1 & P1 & B1); [lia..|].
  change (2 ^ 16 - 1) with 0xFFFF in *.
  rewrite (Z.shiftl_mul_pow2 _ 4), (Z.mul_comm (bool_to_Z (v >? 0xFFFF))) by lia.
  change (2 ^ 4) with 16. cbv zeta in *.
  set (s1 := 16 * bool_to_Z (v >? 0xFFFF)) in *. set (v1 := Z.shiftr v s1) in *.
  specialize (B1 ltac:(simpl; lia)).
  destruct (log2_step v1 8) as (E2 & P2 & B2); [lia..|].
  change (2 ^ 8 - 1) with 0xFF in *.
  rewrite (Z.shiftl_mul_pow2 _ 3), (Z.mul_comm (bool_to_Z (v1 >? 0xFF))) by lia.
  change (2 ^ 3) with 8. cbv zeta in *.
  set (s2 := 8 * bool_to_Z (v1 >? 0xFF)) in *. set (v2 := Z.shiftr v1 s2) in *.
  specialize (B2 ltac:(simpl; lia)).
  destruct (log2_step v2 4) as (E3 & P3 & B3); [lia..|].
  change (2 ^ 4 - 1) with 0xF in *.
  rewrite (Z.shiftl_mul_pow2 _ 2), (Z.mul_comm (bool_to_Z (v2 >? 0xF))) by lia.
  change (2 ^ 2) with 4. cbv zeta in *.
  set (s3 := 4 * bool_to_Z (v2 >? 0xF)) in *. set (v3 := Z.shiftr v2 s3) in *.
  specialize (B3 ltac:(simpl; lia)).
  destruct (log2_step v3 2) as (E4 & P4 & B4); [lia..|].
  change (2 ^ 2 - 1) with 0x3 in *.
  rewrite (Z.shiftl_mul_pow2 _ 1), (Z.mul_comm (bool_to_Z (v3 >? 0x3))) by lia.
  change (2 ^ 1) with 2. cbv zeta in *.
  set (s4 := 2 * bool_to_Z (v3 >? 0x3)) in *. set (v4 := Z.shiftr v3 s4) in *.
  specialize (B4 ltac:(simpl; lia)). change (2 ^ 2) with 4 in B4.
  rewrite E1, E2, E3, E4.
  assert (C : (v4 = 1 \/ v4 = 2 \/ v4 = 3)) by lia. clearbody v4.
  clear - C. subst s1 s2 s3 s4.
  destruct (v >? 65535), (v1 >? 255), (v2 >? 15), (v3 >? 3), C as [->|[->| ->]]; reflexivity.
Qed.

Lemma log2l_spec v : 0 <= v < 2 ^ 64 -> log2l v = Z.log2 v.
Proof.
  intros Hv. unfold log2l. rewrite Z.shiftr_div_pow2 by lia.
  assert (0 <= v / 2 ^ 32 < 2 ^ 32).
  { split; [apply Z.div_pos; lia|]. apply Z.div_lt_upper_bound; [lia|]. pow2. lia. }
  rewrite (wrap_small 32 (v / 2 ^ 32)) by done.
  destruct (v / 2 ^ 32 =? 0) eqn:E; zbool; cbn [negb].
  - assert (0 <= v < 2 ^ 32) by (apply Z.div_small_iff in E; lia).
    rewrite wrap_small by done. by apply log2_spec.
  - rewrite log2_spec by done.
    assert (0 < v) by (destruct (Z.eq_dec v 0) as [->|]; [done|lia]).
    assert (Z.log2 (v / 2 ^ 32) = Z.log2 v - 32).
    { rewrite <- Z.shiftr_div_pow2, Z.log2_shiftr by lia.
      assert (32 <= Z.log2 v); [|lia]. apply Z.log2_le_pow2; [done|].
      destruct (Z.le_gt_cases (2 ^ 32) v); [done|]. rewrite Z.div_small in E by lia. done. }
    assert (Z.log2 v < 64) by (apply Z.log2_lt_pow2; lia).
    pose proof (Z.log2_nonneg v). rewrite wrap_small by (pow2; lia). lia.
Qed.

Lemma rcv_srtt_range t sk :
  0 <= srtt_us sk < 2 ^ 32 -> 0 <= rcv_srtt t sk < 2 ^ 32.
Proof.
  intros H. unfold rcv_srtt. rewrite Z.shiftr_div_pow2 by lia. change (2 ^ 3) with 8.
  destruct (targ_ms t); width_lia.
Qed.

(** The slot is the binary logarithm, cut off at the last one. *)
Lemma rcv_slot_spec t sk :
  0 <= srtt_us sk < 2 ^ 32 -> rcv_slot t sk = Z.min 26 (Z.log2 (rcv_srtt t sk)).
Proof.
  intros H. pose proof (rcv_srtt_range t sk H) as Hr. unfold rcv_slot, MAX_SLOTS.
  rewrite log2l_spec by (pow2; lia). zcase; lia.
Qed.

Definition hist_wf (h : hist) : Prop :=
  length (slots h) = 27%nat /\ Forall is_u32 (slots h) /\
  0 <= latency h < 2 ^ 64 /\ 0 <= cnt h < 2 ^ 64.

Lemma zero_wf : hist_wf zero.
Proof. split_and!; [done|apply Forall_replicate; done|done..]. Qed.

(** One sample added to a histogram. *)
Definition add_sample (t : targets) (h : hist) (sk : sock) : hist :=
  {| slots := alter (fun v => u32 (v + 1)) (Z.to_nat (Z.min 26 (Z.log2 (rcv_srtt t sk)))) (slots h);
     latency := if targ_show_ext t then u64 (latency h + rcv_srtt t sk) else latency h;
     cnt := if targ_show_ext t then u64 (cnt h + 1) else cnt h |}.

Definition srtt_ok (sk : sock) : Prop := 0 <= srtt_us sk < 2 ^ 32.

Lemma add_sample_wf t h sk : hist_wf h -> hist_wf (add_sample t h sk).
Proof.
  intros (H1 & H2 & H3 & H4). unfold add_sample. split_and!; cbn [slots latency cnt].
  - by rewrite length_alter.
  - apply Forall_alter; [done|]. intros v _ _. unfold is_u32. width_lia.
  - destruct (targ_show_ext t); [width_lia|lia].
  - destruct (targ_show_ext t); [width_lia|lia].
  - destruct (targ_show_ext t); [width_lia|lia].
  - destruct (targ_show_ext t); [width_lia|lia].
Qed.

Section KernelTheorems.
Context {M : Type} `{!BpfMapOps Z hist M} `{!BpfHashLaws Z hist M}.
Implicit Types (m : M).

Lemma run_updates_step key up ups m h h' :
  bpf_map_lookup_elem m key = Some h -> up h = Some h' ->
  run_updates key (up :: ups) m = run_updates key ups (bpf_map_store m key h').
Proof. intros H1 H2. cbn [run_updates]. rewrite H1. cbn [mbind option_bind]. by rewrite H2. Qed.

Lemma store_lookup m key h h' k :
  bpf_map_lookup_elem m key = Some h ->
  bpf_map_lookup_elem (bpf_map_store m key h') k
  = if decide (key = k) then Some h' else bpf_map_lookup_elem m k.
Proof. intros H. apply hash_store. by rewrite H. Qed.

Lemma add_slot_spec slot h :
  hist_wf h -> 0 <= slot <= 26 ->
  add_slot slot h = Some {| slots := alter (fun v => u32 (v + 1)) (Z.to_nat slot) (slots h);
                            latency := latency h; cnt := cnt h |}.
Proof.
  intros (Hl & _) Hs. unfold add_slot.
  destruct (aref_Some (slots h) slot) as [v Hv]; [lia|]. rewrite Hv. cbn [mbind option_bind].
  rewrite aset_Some by lia. cbn [mbind option_bind]. do 2 f_equal.
  unfold aref in Hv. destruct (slot <? 0); [done|].
  apply list_eq. intros i. destruct (decide (i = Z.to_nat slot)) as [->|].
  - rewrite list_lookup_insert_eq by lia. by rewrite list_lookup_alter_eq, Hv.
  - by rewrite list_lookup_insert_ne, list_lookup_alter_ne by done.
Qed.

Lemma run_updates_spec t sk m key h :
  srtt_ok sk -> hist_wf h -> bpf_map_lookup_elem m key = Some h ->
  exists m', run_updates key (rcv_updates t sk) m = Some m' /\
    forall k, bpf_map_lookup_elem m' k
      = if decide (key = k) then Some (add_sample t h sk) else bpf_map_lookup_elem m k.
Proof.
  intros Hok Hw Hk. unfold rcv_updates. pose proof (Z.log2_nonneg (rcv_srtt t sk)).
  rewrite (run_updates_step _ _ _ _ _ _ Hk
             (add_slot_spec (rcv_slot t sk) h Hw ltac:(rewrite rcv_slot_spec by done; lia))).
  rewrite rcv_slot_spec by done. unfold add_sample.
  set (s := alter _ _ _). set (m1 := bpf_map_store m key _).
  assert (H1 : bpf_map_lookup_elem m1 key = Some {| latency := latency h; cnt := cnt h; slots := s |}).
  { unfold m1. by rewrite (store_lookup _ _ _ _ _ Hk), decide_True. }
  destruct (targ_show_ext t).
  2: { exists m1. split; [done|]. intros k. unfold m1. by rewrite (store_lookup _ _ _ _ _ Hk). }
  rewrite (run_updates_step _ (add_latency (rcv_srtt t sk)) _ _ _ _ H1 eq_refl). cbn [latency cnt slots].
  set (m2 := bpf_map_store m1 key _).
  assert (H2 : bpf_map_lookup_elem m2 key
    = Some {| latency := u64 (latency h + rcv_srtt t sk); cnt := cnt h; slots := s |}).
  { unfold m2. by rewrite (store_lookup _ _ _ _ _ H1), decide_True. }
  rewrite (run_updates_step _ add_cnt _ _ _ _ H2 eq_refl). cbn [latency cnt slots run_updates].
  eexists. split; [done|]. intros k. rewrite (store_lookup _ _ _ _ _ H2).
  case_decide as Hd; [done|]. unfold m2. rewrite (store_lookup _ _ _ _ _ H1), decide_False by done.
  unfold m1. by rewrite (store_lookup _ _ _ _ _ Hk), decide_False.
Qed.

Definition hists_wf (m : M) : Prop := forall k h, bpf_map_lookup_elem m k = Some h -> hist_wf h.

(** One segment, on every branch. *)
Lemma tcp_rcv_spec t sk m :
  srtt_ok sk -> hists_wf m ->
  exists m', tcp_rcv t sk m = Some m' /\
    forall k, bpf_map_lookup_elem m' k
      = if decide (rcv_match t sk = true /\ rcv_key t sk = k) then
          match bpf_map_lookup_elem m k with
          | Some h => Some (add_sample t h sk)
          | None => if bool_decide (is_Some (bpf_map_lookup_or_try_init m k zero).1)
                    then Some (add_sample t zero sk) else None
          end
        else bpf_map_lookup_elem m k.
Proof.
  intros Hok Hw. unfold tcp_rcv. destruct (rcv_match t sk) eqn:Em; cbn [negb].
  2: { exists m. split; [done|]. intros k. by rewrite decide_False by naive_solver. }
  pose proof (lookup_or_try_init_spec m (rcv_key t sk) zero) as H.
  destruct (bpf_map_lookup_or_try_init m (rcv_key t sk) zero) as [[h|] m1] eqn:E.
  - destruct H as [Hv Hm].
    assert (Hh : hist_wf h).
    { destruct (bpf_map_lookup_elem m (rcv_key t sk)) eqn:Ek; simpl in Hv; subst;
        [by eapply Hw|apply zero_wf]. }
    destruct (run_updates_spec t sk m1 (rcv_key t sk) h Hok Hh) as (m' & Hr & Hl).
    { by rewrite Hm, decide_True. }
    exists m'. split; [done|]. intros k. rewrite Hl.
    destruct (decide (rcv_key t sk = k)) as [<-|Hne].
    + rewrite decide_True by done. rewrite E. cbn [fst]. rewrite bool_decide_true by done.
      destruct (bpf_map_lookup_elem m (rcv_key t sk)); simpl in Hv; by subst.
    + rewrite (decide_False (P := _ /\ _)) by naive_solver. by rewrite Hm, decide_False.
  - destruct H as [Hn He]. exists m1. split; [done|]. intros k. rewrite (He k).
    case_decide as Hd; [|done]. destruct Hd as [_ <-]. rewrite Hn, E. done.
Qed.

Lemma tcp_rcv_wf t sk m m' : srtt_ok sk -> hists_wf m -> tcp_rcv t sk m = Some m' -> hists_wf m'.
Proof.
  intros Hok Hw H k h. destruct (tcp_rcv_spec t sk m Hok Hw) as (m2 & H2 & Hl).
  rewrite H in H2. injection H2 as <-. rewrite Hl.
  destruct (decide (rcv_match t sk = true /\ rcv_key t sk = k)); [|apply Hw].
  destruct (bpf_map_lookup_elem m k) eqn:E.
  - intros [= <-]. apply add_sample_wf. by eapply Hw.
  - case_match; [|done]. intros [= <-]. apply add_sample_wf, zero_wf.
Qed.

(** The samples of the histogram [k]. *)
Definition samples (t : targets) (k : Z) (sks : list sock) : list sock :=
  filter (fun sk => rcv_match t sk = true /\ rcv_key t sk = k) sks.

Lemma rcv_run_fold t sks : forall m k h0,
  Forall srtt_ok sks -> hists_wf m -> bpf_map_lookup_elem m k = Some h0 ->
  exists m', rcv_run t sks m = Some m' /\ hists_wf m' /\
    bpf_map_lookup_elem m' k = Some (fold_left (add_sample t) (samples t k sks) h0).
Proof.
  induction sks as [|sk sks IH]; intros m k h0 Hok Hw Hk; cbn [rcv_run]; [by exists m|].
  inversion Hok as [|? ? Hok1 Hok2]; subst.
  destruct (tcp_rcv_spec t sk m Hok1 Hw) as (m1 & H1 & Hl). rewrite H1. cbn [mbind option_bind].
  pose proof (tcp_rcv_wf _ _ _ _ Hok1 Hw H1) as Hw1. specialize (Hl k). rewrite Hk in Hl.
  unfold samples. rewrite filter_cons. case_decide as Hd.
  - destruct (IH m1 k (add_sample t h0 sk) Hok2 Hw1 Hl) as (m' & ? & ? & ?). by exists m'.
  - destruct (IH m1 k h0 Hok2 Hw1 Hl) as (m' & ? & ? & ?). by exists m'.
Qed.
End KernelTheorems.

Lemma wrap_add_wrap w x y : wrap w (wrap w x + y) = wrap w (x + y).
Proof. unfold wrap. apply Zplus_mod_idemp_l. Qed.

(** The number of samples that fall in slot [i]. *)
Definition slot_count (t : targets) (i : nat) (sks : list sock) : Z :=
  Z.of_nat (length (filter (fun sk => Z.min 26 (Z.log2 (rcv_srtt t sk)) = Z.of_nat i) sks)).

Definition srtt_sum (t : targets) (sks : list sock) : Z :=
  fold_right (fun sk acc => rcv_srtt t sk + acc) 0 sks.

Lemma fold_samples t sks : forall h,
  hist_wf h ->
  let h' := fold_left (add_sample t) sks h in
  hist_wf h' /\
  (forall (i : nat) v, slots h !! i = Some v ->
     slots h' !! i = Some (u32 (v + slot_count t i sks))) /\
  (targ_show_ext t = true ->
     latency h' = u64 (latency h + srtt_sum t sks) /\
     cnt h' = u64 (cnt h + Z.of_nat (length sks))).
Proof.
  induction sks as [|sk sks IH]; intros h Hw; cbn [fold_left].
  - destruct Hw as (Hl & Hu & Ha & Hc). split; [done|]. split.
    + intros i v Hi. eapply Forall_lookup_1 in Hu; [|exact Hi]. unfold slot_count, is_u32 in *.
      simpl. rewrite Z.add_0_r, wrap_small by (pow2; lia). done.
    + intros _. simpl. rewrite !Z.add_0_r, !wrap_small by lia. done.
  - destruct (IH (add_sample t h sk) (add_sample_wf t h sk Hw)) as (W & S & X).
    split; [done|]. split.
    + intros i v Hi. unfold slot_count. rewrite filter_cons. case_decide as Hd.
      * rewrite (S i (u32 (v + 1))).
        2: { cbn [add_sample slots]. rewrite Hd, Nat2Z.id. by rewrite list_lookup_alter_eq, Hi. }
        rewrite wrap_add_wrap. unfold slot_count. cbn [length].
        do 2 f_equal. lia.
      * rewrite (S i v); [done|]. cbn [add_sample slots]. rewrite list_lookup_alter_ne; [done|].
        pose proof (Z.log2_nonneg (rcv_srtt t sk)). lia.
    + intros He. destruct (X He) as [-> ->]. cbn [add_sample latency cnt]. rewrite He.
      rewrite !wrap_add_wrap. cbn [srtt_sum fold_right length]. fold (srtt_sum t sks).
      split; f_equal; lia.
Qed.

Section RttTheorems.
Context {M : Type} `{!BpfMapOps Z hist M} `{!BpfHashLaws Z hist M}.

(** C25: the histogram counts the round-trip times.  Over any sequence of
    received segments the kernel program never indexes outside its 27
    slots, and for a histogram already in the map slot i grows (modulo
    2^32) by exactly the number of segments that pass the filters, belong
    to its address and have a round-trip time of binary logarithm i (26 for
    all larger ones); with the extended option the latency and the count
    grow by the sum of the times and the number of segments. *)
Theorem rtt_histogram_accumulates t sks (m : M) k h0 :
  Forall srtt_ok sks -> hists_wf m -> bpf_map_lookup_elem m k = Some h0 ->
  exists m' h, rcv_run t sks m = Some m' /\ bpf_map_lookup_elem m' k = Some h /\
    (forall (i : nat) v, slots h0 !! i = Some v ->
       slots h !! i = Some (u32 (v + slot_count t i (samples t k sks)))) /\
    (targ_show_ext t = true ->
       latency h = u64 (latency h0 + srtt_sum t (samples t k sks)) /\
       cnt h = u64 (cnt h0 + Z.of_nat (length (samples t k sks)))).
Proof.
  intros Hok Hw Hk. destruct (rcv_run_fold t sks m k h0 Hok Hw Hk) as (m' & Hr & _ & Hl).
  exists m', (fold_left (add_sample t) (samples t k sks) h0).
  split; [done|]. split; [done|]. apply fold_samples. by eapply Hw.
Qed.

(** A port given with -p selects exactly the sockets with that local
    port.  Whatever the other options were, the option is accepted for
    every port number, and without further filters the kernel program
    records a segment iff its local port, in host byte order, is the number
    typed. *)
Theorem rtt_port_option inet_aton e arg p sk :
  strtoul arg = (p, [], 0) -> 0 < p < 65536 -> 0 <= inet_sport sk < 65536 ->
  exists e1, parse_arg inet_aton "p" arg e = ArgOk e1 /\
    (rport e = 0 -> laddr e = 0 -> raddr e = 0 ->
     rcv_match (main_targets e1) sk = bool_decide (ntohs (inet_sport sk) = p)).
Proof.
  intros Hp Hpr Hs. eexists. cbn [parse_arg]. rewrite Hp. split; [done|]. intros Hr Hl Hd.
  unfold rcv_match, main_targets. cbn [targ_sport targ_dport targ_saddr targ_daddr
    lport rport laddr raddr set_ports]. rewrite Hr, Hl, Hd. cbn [Z.eqb negb andb].
  rewrite !andb_true_r. rewrite (wrap_small 16 p) by (pow2; lia).
  replace (htons p =? 0) with false; cbn [negb andb].
  2: { symmetry. apply Z.eqb_neq. intros H. apply (bswap16_inj p 0) in H; lia. }
  rewrite negb_involutive. apply eq_true_iff_eq. rewrite Z.eqb_eq, bool_decide_eq_true.
  split; intros <-; apply bswap16_invol; lia.
Qed.
End RttTheorems.

(** An address given with -a is swapped once too often: [inet_aton] already
    stores it in network byte order.  A socket with that very address is
    skipped unless the address reads the same backwards. *)
Lemma rtt_address_option_swapped inet_aton e arg a sk :
  inet_aton arg = (1, a) -> 0 < a < 2 ^ 32 -> inet_saddr sk = a -> bswap32 a <> a ->
  exists e2, parse_arg inet_aton "a" arg e = ArgOk e2 /\
    rcv_match (main_targets e2) sk = false.
Proof.
  intros Ha Har Hsa Hne. eexists. cbn [parse_arg]. rewrite Ha. split; [done|].
  unfold rcv_match, main_targets. cbn [targ_sport targ_dport targ_saddr targ_daddr
    lport rport laddr raddr set_addrs]. rewrite Hsa.
  replace (htonl a =? 0) with false.
  2: { symmetry. apply Z.eqb_neq. intros H.
       assert (a = 0); [|lia]. rewrite <- (bswap32_invol a), H by (pow2; lia). done. }
  replace (htonl a =? a) with false by (symmetry; by apply Z.eqb_neq).
  cbn [negb andb]. by rewrite andb_false_r.
Qed.

(** An invalid address is not noticed: [inet_aton] returns 0 for it, not a
    negative number. *)
Lemma rtt_invalid_address_accepted inet_aton e arg junk :
  inet_aton arg = (0, junk) ->
  parse_arg inet_aton "a" arg e = ArgOk (set_addrs e (htonl junk) (raddr e)).
Proof. intros H. cbn [parse_arg]. by rewrite H. Qed.

Section PrintTheorems.
Context {M T : Type} `{!BpfMapOps Z hist M} `{!BpfMapIterOps Z hist M T}
  `{!BpfHashLaws Z hist M} `{!BpfIterLaws Z hist M T}.
Implicit Types (m : M).

Lemma print_entry_Some e k h :
  hist_wf h -> (extended e = true -> 0 < cnt h) ->
  exists r, print_entry e k h = Some r /\
    print_log2_hist (slots h) 27 = Some (r_hist r) /\
    r_avg r = (if extended e then Some (latency h / cnt h) else None).
Proof.
  intros (Hl & Hu & _) Hc. unfold print_entry.
  destruct (print_log2_hist_rows (slots h) Hu ltac:(lia)) as (rows & Hr & _).
  rewrite Hl in Hr. change (Z.of_nat 27) with 27 in Hr. unfold MAX_SLOTS. rewrite Hr.
  destruct (extended e) eqn:Ee; cbn [mbind option_bind].
  - specialize (Hc eq_refl). destruct (Z.eqb_spec (cnt h) 0); [lia|]. cbn [mbind option_bind]. by eexists.
  - by eexists.
Qed.

Definition printable (e : env) (m : M) : Prop :=
  hists_wf m /\ (extended e = true -> forall k h, bpf_map_lookup_elem m k = Some h -> 0 < cnt h).

(** The report of an entry of the map. *)
Definition reports (e : env) (m : M) (k : Z) (r : report) : Prop :=
  exists h, bpf_map_lookup_elem m k = Some h /\ print_entry e k h = Some r.

Lemma print_loop_spec e m fuel : forall l key,
  printable e m -> (length l < fuel)%nat -> Forall (fun k => k ∈ iter_keys m) l ->
  bpf_map_get_next_key m key = head l ->
  (forall i k, l !! i = Some k -> bpf_map_get_next_key m k = l !! S i) ->
  exists rs, print_loop e m fuel key = Some (0, rs) /\ Forall2 (reports e m) l rs.
Proof.
  induction fuel as [|fuel IH]; intros l key [Hw Hc] Hf Hin Hn Hs; [lia|]. cbn [print_loop].
  rewrite Hn. destruct l as [|k l]; cbn [head]; [by exists []|].
  inversion Hin as [|? ? Hk Hin']; subst. apply iter_lookup in Hk as [h Hh]. rewrite Hh.
  destruct (print_entry_Some e k h) as (r & Hr & _); [by eapply Hw|intros; by eapply Hc|].
  rewrite Hr. cbn [mbind option_bind].
  destruct (IH l k) as (rs & E & H2); [done|simpl in Hf; lia|done| | |].
  - rewrite (Hs 0%nat k) by done. by destruct l.
  - intros i k' Hi. apply (Hs (S i) k' Hi).
  - rewrite E. cbn [mbind option_bind]. exists (r :: rs). split; [done|].
    constructor; [|done]. by exists h.
Qed.

Lemma iter_keys_delete m k ks :
  iter_keys m = k :: ks -> iter_keys (bpf_map_delete_elem m k).2 ≡ₚ ks.
Proof.
  intros E. pose proof (iter_nodup m) as Hnd. rewrite E in Hnd.
  inversion Hnd as [|? ? Hk Hnd']; subst.
  apply NoDup_Permutation; [apply iter_nodup|done|]. intros k'.
  rewrite iter_lookup, hash_delete. case_decide as Hd.
  - subst. split; [by intros []|done].
  - rewrite <- iter_lookup, E, elem_of_cons. naive_solver.
Qed.

Lemma cleanup_loop_spec fuel : forall m key,
  (length (iter_keys m) < fuel)%nat -> bpf_map_lookup_elem m key = None ->
  exists m', cleanup_loop m fuel key = Some (0, m') /\ iter_keys m' = [].
Proof.
  induction fuel as [|fuel IH]; intros m key Hf Hn; [lia|]. cbn [cleanup_loop].
  rewrite iter_first by (rewrite iter_lookup, Hn; by intros []).
  destruct (iter_keys m) as [|k ks] eqn:E; cbn [head]; [by exists m|].
  pose proof (iter_keys_delete m k ks E) as Hp.
  assert (Hret : (bpf_map_delete_elem m k).1 = 0).
  { apply hash_delete_ret, iter_lookup. rewrite E. by apply list_elem_of_here. }
  pose proof (hash_delete m k k) as Hk. rewrite decide_True in Hk by done.
  destruct (bpf_map_delete_elem m k) as [err m1]. cbn [fst snd] in *. subst err.
  cbn [Z.ltb Z.compare]. apply IH; [|done].
  rewrite (Permutation_length Hp). simpl in Hf. lia.
Qed.

(** [print_map] prints every histogram and empties the map.  If the map
    holds well-formed histograms (with a nonzero count when averages are
    printed) and not the start key -1, both loops end after at most as
    many rounds as there are entries, one report is printed for each entry
    in the kernel's order, and afterwards no key has a value. *)
Theorem print_map_complete e m fuel :
  printable e m -> bpf_map_lookup_elem m no_key = None ->
  (length (iter_keys m) < fuel)%nat ->
  exists rs m', print_map e m fuel = Some (0, rs, m') /\
    Forall2 (reports e m) (iter_keys m) rs /\
    forall k, bpf_map_lookup_elem m' k = None.
Proof.
  intros Hp Hn Hf. unfold print_map.
  destruct (print_loop_spec e m fuel (iter_keys m) no_key) as (rs & -> & Hr); [done|done| | | |].
  - by apply Forall_forall.
  - apply iter_first. rewrite iter_lookup, Hn. by intros [].
  - intros i k. apply iter_next.
  - cbn [mbind option_bind Z.ltb Z.compare].
    destruct (cleanup_loop_spec fuel m no_key Hf Hn) as (m' & -> & He).
    exists rs, m'. split; [done|]. split; [done|]. intros k. apply eq_None_not_Some.
    rewrite <- iter_lookup, He. apply not_elem_of_nil.
Qed.
End PrintTheorems.

(** ** Concrete runs *)

Definition ex_targets (ext : bool) : targets :=
  {| targ_laddr_hist := false; targ_raddr_hist := false; targ_show_ext := ext;
     targ_sport := 0; targ_dport := 0; targ_saddr := 0; targ_daddr := 0; targ_ms := false |}.

Definition ex_sock (srtt : Z) : sock :=
  {| inet_sport := 20480; skc_dport := 443; inet_saddr := 1; skc_daddr := 2; srtt_us := srtt |}.

Definition ex_hists : Hmap Z hist := mkHmap 8 {[ 0 := zero ]}.

Definition ex_env (ext : bool) : env :=
  {| lport := 0; rport := 0; laddr := 0; raddr := 0; milliseconds := false; duration := 0;
     interval := 1; timestamp := false; laddr_hist := false; raddr_hist := false;
     extended := ext; verbose := false |}.

Lemma ex_hists_wf : hists_wf ex_hists.
Proof.
  intros k h H. cbn in H. apply lookup_singleton_Some in H as [_ <-]. apply zero_wf.
Qed.

Lemma rtt_histogram_accumulates_witness :
  exists m' h, rcv_run (ex_targets true) [ex_sock 80; ex_sock 90; ex_sock 800] ex_hists = Some m' /\
    bpf_map_lookup_elem m' 0 = Some h /\ slots h !! 3%nat = Some 2 /\
    latency h = 121 /\ cnt h = 3.
Proof.
  destruct (rtt_histogram_accumulates (ex_targets true) [ex_sock 80; ex_sock 90; ex_sock 800]
              ex_hists 0 zero) as (m' & h & H1 & H2 & H3 & H4).
  - repeat constructor; vm_compute; congruence.
  - apply ex_hists_wf.
  - reflexivity.
  - exists m', h. split; [exact H1|]. split; [exact H2|].
    destruct (H4 eq_refl) as [-> ->]. rewrite (H3 3%nat 0) by reflexivity.
    split; [vm_compute; reflexivity|]. split; vm_compute; reflexivity.
Defined.

Lemma rtt_port_option_witness :
  exists e1, parse_arg (fun _ => (0, 0)) "p" (lit "80") (ex_env false) = ArgOk e1 /\
    rcv_match (main_targets e1) (ex_sock 8) = true.
Proof.
  destruct (rtt_port_option (fun _ => (0, 0)) (ex_env false) (lit "80") 80 (ex_sock 8))
    as (e1 & H1 & H2); [reflexivity|lia|simpl; lia|].
  exists e1. split; [exact H1|]. rewrite H2 by reflexivity. reflexivity.
Defined.

Lemma print_map_complete_witness :
  exists rs m', print_map (ex_env false) ex_hists 5 = Some (0, rs, m') /\ length rs = 1%nat.
Proof.
  destruct (print_map_complete (ex_env false) ex_hists 5) as (rs & m' & H1 & H2 & _).
  - split; [apply ex_hists_wf|]. intros H. discriminate H.
  - vm_compute. reflexivity.
  - vm_compute. lia.
  - exists rs, m'. split; [exact H1|]. rewrite <- (Forall2_length _ _ _ H2). reflexivity.
Defined.

(** A report taken between the creation of an entry and the additions to
    it divides by zero: the user side does not expect a zero count. *)
Lemma print_map_race :
  let m := (bpf_map_lookup_or_try_init (mkHmap 8 ∅ : Hmap Z hist) 0 zero).2 in
  print_map (ex_env true) m 5 = None /\
  is_Some (m' ← run_updates 0 (rcv_updates (ex_targets true) (ex_sock 80)) m;
           print_map (ex_env true) m' 5).
Proof. split; vm_compute; [reflexivity|]. eexists. reflexivity. Qed.
