(* ===== verification/Probes.v ===== *)
(** * The small programs

    - [TcEgress]: the traffic-control filter that drops packets to port 80
      (src/plugin/libbpf-test/doesnotok/tc_test.bpf.c);
    - [TcpDrop]: the probe on dropped segments
      (src/plugin/libbpfgo/tcpdrop/tcpdrop.bpf.c);
    - [SoftIrq]: the soft-interrupt timer
      (src/plugin/libbpfgo/softirq/softirq.bpf.c);
    - [Execve]: the probe on execve (src/plugin/libbpfgo/execve/execve.bpf.c);
    - [ErrorTrap]: the probes on processor exceptions
      (src/plugin/ciliumebpf/interrupt/interrupt.c and stack/interrupt.c);
    - [NetfilterHook]: the packet hook of the kernel module netfilter/demo.c.

    What the kernel answers (identities, clocks, memory reads that may
    fault, reservations) is the record [env]; an outer [None] is undefined
    behaviour of the program. *)

From S2P Require Import Prelude.

(** ** The kernel's answers *)

Record kenv := {
  pid_tgid : Z;
  ktime_ns : Z;
  comm100 : list Z;            (** what bpf_get_current_comm stores in 100 bytes *)
  stackid : Z;                 (** bpf_get_stackid *)
  kstack : list Z;             (** bpf_get_stack *)
  reserve_ok : bool;           (** the ring buffer has room *)
  kread : Z -> string -> option Z; (** a field of the object at an address; [None] is a fault *)
}.

(** bpf_probe_read_kernel and the CO-RE readers zero the destination on a
    fault. *)
Definition probe_read (e : kenv) (addr : Z) (field : string) : Z := default 0 (kread e addr field).

Module TcEgress.

Definition TC_ACT_OK : Z := 0.
Definition TC_ACT_SHOT : Z := 2.

(** [data] is offset 0, [data_end] the length of the packet. *)
Definition tc_egress (p : list Z) : option Z :=
  let data_end := Z.of_nat (length p) in
  if 14 >? data_end then Some TC_ACT_OK else
  h_proto ← ld16 p 12;
  if negb (h_proto =? bpf_htons 2048) then Some TC_ACT_OK else
  if 14 + 20 >? data_end then Some TC_ACT_OK else
  protocol ← ld8 p (14 + 9);
  if negb (protocol =? 6) then Some TC_ACT_OK else
  if 14 + 20 + 20 >? data_end then Some TC_ACT_OK else
  dest ← ld16 p (14 + 20 + 2);
  if dest =? bpf_htons 80 then
    daddr ← ld32 p (14 + 16);
    Some TC_ACT_SHOT
  else Some TC_ACT_OK.

Definition tc_ingress (p : list Z) : option Z := Some TC_ACT_OK.

(** The wire's reading of a packet: big-endian fields, the TCP header behind
    an IPv4 header of [ihl] words. *)
Definition be16 (p : list Z) (off : Z) : option Z :=
  hi ← ld8 p off; lo ← ld8 p (off + 1); Some (256 * hi + lo).

Definition ihl (p : list Z) : option Z := v ← ld8 p 14; Some (Z.land v 15).

Definition to_port (p : list Z) (port : Z) : Prop :=
  exists n, ihl p = Some n /\ be16 p 12 = Some 2048 /\ ld8 p 23 = Some 6 /\
    14 + 4 * n + 20 <= Z.of_nat (length p) /\ be16 p (14 + 4 * n + 2) = Some port.

Lemma be16_ld16 p off v port :
  bytes_ok p -> ld16 p off = Some v -> 0 <= port < 65536 ->
  (v =? bpf_htons port) = bool_decide (be16 p off = Some port).
Proof.
  intros Hb. unfold ld16, be16.
  intros (b0 & H0 & (b1 & H1 & [= <-])%bind_Some)%bind_Some Hp. rewrite H0, H1. cbn [mbind option_bind].
  pose proof (ld8_byte _ _ _ Hb H0). pose proof (ld8_byte _ _ _ Hb H1).
  destruct (Z.eqb_spec (b0 + 256 * b1) (bswap16 port)) as [E|E];
    [rewrite bool_decide_eq_true_2|rewrite bool_decide_eq_false_2]; [done|f_equal| |intros [= <-]];
    unfold bswap16 in E; revert E; width_lia.
Qed.

(** Without options the port is at a fixed place. *)
Lemma to_port_no_options p port :
  ihl p = Some 5 ->
  to_port p port <-> be16 p 12 = Some 2048 /\ ld8 p 23 = Some 6 /\ 54 <= Z.of_nat (length p) /\
    be16 p 36 = Some port.
Proof.
  intros Hi. split.
  - intros (n & En & H1 & H2 & H3 & H4). rewrite Hi in En. injection En as <-. by split_and!.
  - intros (H1 & H2 & H3 & H4). exists 5. by split_and!.
Qed.

(** C39: the egress filter reads nothing outside the packet, and on packets
    whose IPv4 header has no options it drops exactly the TCP segments sent
    to port 80, as the fields read on the wire, and passes everything
    else. *)
Theorem tc_egress_drops p :
  bytes_ok p ->
  exists r, tc_egress p = Some r /\ (r = TC_ACT_SHOT \/ r = TC_ACT_OK) /\
    (ihl p = Some 5 -> (r = TC_ACT_SHOT <-> to_port p 80)).
Proof.
  intros Hb. unfold tc_egress. set (post := fun r => (r = TC_ACT_SHOT \/ r = TC_ACT_OK) /\
    (ihl p = Some 5 -> (r = TC_ACT_SHOT <-> to_port p 80))).
  assert (Hpass : ~ (be16 p 12 = Some 2048 /\ ld8 p 23 = Some 6 /\ 54 <= Z.of_nat (length p) /\
    be16 p 36 = Some 80) -> exists r, Some TC_ACT_OK = Some r /\ post r).
  { intros Hn. exists TC_ACT_OK. split; [done|]. split; [by right|]. intros Hi.
    by rewrite to_port_no_options. }
  cbn zeta. destruct (14 >? Z.of_nat (length p)) eqn:E1; [apply Hpass; lia|].
  destruct (ld16_Some p 12) as [v Hv]; [lia|lia|]. rewrite Hv. cbn [mbind option_bind].
  rewrite (be16_ld16 p 12 v 2048) by (done || lia).
  destruct (bool_decide_reflect (be16 p 12 = Some 2048)) as [Hp|Hp]; cbn [negb]; [|apply Hpass; tauto].
  destruct (14 + 20 >? Z.of_nat (length p)) eqn:E2; [apply Hpass; lia|].
  destruct (ld8_Some p (14 + 9)) as [pr Hpr]; [lia|]. rewrite Hpr. cbn [mbind option_bind].
  change (14 + 9) with 23 in Hpr.
  destruct (Z.eqb_spec pr 6) as [->|Hn]; cbn [negb]; [|apply Hpass; intros (_ & E & _); congruence].
  destruct (14 + 20 + 20 >? Z.of_nat (length p)) eqn:E3; [apply Hpass; lia|].
  change (14 + 20 + 2) with 36. destruct (ld16_Some p 36) as [d Hd]; [lia|lia|]. rewrite Hd.
  cbn [mbind option_bind]. rewrite (be16_ld16 p 36 d 80) by (done || lia).
  destruct (bool_decide_reflect (be16 p 36 = Some 80)) as [Hq|Hq]; [|apply Hpass; tauto].
  destruct (ld32_Some p (14 + 16)) as [a ->]; [lia|lia|]. cbn [mbind option_bind].
  exists TC_ACT_SHOT. split; [done|]. split; [by left|]. intros Hi.
  rewrite to_port_no_options by done. split; [intros _; split_and!; (done || lia)|done].
Qed.

(** A SYN to port 80. *)
Definition ex_syn (ihl_byte : Z) (options : list Z) (dport : Z) : list Z :=
  replicate 12 0 ++ [8; 0] ++ [ihl_byte; 0; 0; 44; 0; 0; 0; 0; 64; 6; 0; 0; 10; 0; 0; 1; 10; 0; 0; 2] ++
  options ++ [156; 64; dport / 256; dport mod 256] ++ replicate 16 0.

Lemma tc_egress_drops_witness : tc_egress (ex_syn 69 [] 80) = Some TC_ACT_SHOT.
Proof.
  destruct (tc_egress_drops (ex_syn 69 [] 80)) as (r & Hr & _ & H).
  - apply bytes_ok_dec. reflexivity.
  - rewrite (proj2 (H eq_refl)) in Hr; [exact Hr|].
    exists 5. split_and!; (reflexivity || (vm_compute; discriminate)).
Defined.

(** With options the filter reads the options: a segment to port 80 passes,
    and one to another port is dropped. *)
Fact tc_egress_options :
  to_port (ex_syn 70 [0; 0; 0; 0] 80) 80 /\
  tc_egress (ex_syn 70 [0; 0; 0; 0] 80) = Some TC_ACT_OK /\
  to_port (ex_syn 70 [0; 0; 0; 80] 443) 443 /\
  tc_egress (ex_syn 70 [0; 0; 0; 80] 443) = Some TC_ACT_SHOT.
Proof.
  split_and!; try reflexivity;
    (exists 6; split_and!; (reflexivity || (vm_compute; discriminate))).
Qed.

End TcEgress.

Module TcpDrop.

Record ipv4_data_t := {
  d_pid : Z; d_ip : Z; d_saddr : Z; d_daddr : Z; d_sport : Z; d_dport : Z;
  d_state : Z; d_tcpflags : Z; d_stack_id : Z;
}.

(** [sk] and [skb] are the probed function's arguments, [events] what the
    ring buffer [ipv4_events] holds. *)
Definition kprobe__tcp_drop (e : kenv) (sk skb : Z) (events : list ipv4_data_t)
    : option (list ipv4_data_t) :=
  drop ← (if (sk =? 0) && (skb =? 0)
          then None (* skb->head through the NULL skb *)
          else Some false);
  if (drop : bool) then Some events else
  let pid := u32 (Z.shiftr (pid_tgid e) 32) in
  let family := probe_read e sk "skc_family" in
  if negb (family =? 2) && negb (family =? 30) then Some events else
  let state := probe_read e sk "skc_state" in
  let head := probe_read e skb "head" in
  let tp := probe_read e skb "transport_header" in
  let tcp := u64 (head + tp) in
  if tcp =? 0 then Some events else
  let sport := bpf_ntohs (probe_read e tcp "source") in
  let dport := bpf_ntohs (probe_read e tcp "dest") in
  let data4 := {| d_pid := pid; d_ip := 4; d_saddr := 0; d_daddr := 0; d_sport := sport;
                  d_dport := dport; d_state := state; d_tcpflags := 0;
                  d_stack_id := u32 (stackid e) |} in
  Some (if reserve_ok e then events ++ [data4] else events).

(** A dropped segment of a socket of a traced family is reported exactly
    once, with the process, the socket's state and the ports of the segment
    in host order. *)
Theorem tcp_drop_reports e sk skb events fam :
  sk <> 0 -> kread e sk "skc_family" = Some fam -> fam = 2 \/ fam = 30 ->
  u64 (probe_read e skb "head" + probe_read e skb "transport_header") <> 0 -> reserve_ok e = true ->
  exists d, kprobe__tcp_drop e sk skb events = Some (events ++ [d]) /\
    d_pid d = u32 (Z.shiftr (pid_tgid e) 32) /\ d_state d = probe_read e sk "skc_state" /\
    let tcp := u64 (probe_read e skb "head" + probe_read e skb "transport_header") in
    d_sport d = bpf_ntohs (probe_read e tcp "source") /\
    d_dport d = bpf_ntohs (probe_read e tcp "dest").
Proof.
  intros Hsk Hf Hfam Htcp Hr. unfold kprobe__tcp_drop.
  rewrite (proj2 (Z.eqb_neq sk 0) Hsk). cbn [andb mbind option_bind].
  assert (E : probe_read e sk "skc_family" = fam) by (unfold probe_read; by rewrite Hf).
  rewrite E. replace (negb (fam =? 2) && negb (fam =? 30)) with false by (destruct Hfam as [-> | ->]; done).
  cbn zeta. rewrite (proj2 (Z.eqb_neq _ 0) Htcp), Hr. eexists. by split_and!.
Qed.

Definition ex_env : kenv :=
  {| pid_tgid := 42 * 2 ^ 32 + 43; ktime_ns := 0; comm100 := []; stackid := 7; kstack := [];
     reserve_ok := true;
     kread := fun addr f =>
       if String.eqb f "skc_family" then Some 2 else if String.eqb f "skc_state" then Some 1
       else if String.eqb f "head" then Some 4096 else if String.eqb f "transport_header" then Some 34
       else if String.eqb f "source" then Some 20480 else if String.eqb f "dest" then Some 47873
       else None |}.

Lemma tcp_drop_reports_witness : exists d,
  kprobe__tcp_drop ex_env 1 2 [] = Some [d] /\ d_pid d = 42 /\ d_sport d = 80 /\ d_dport d = 443.
Proof.
  destruct (tcp_drop_reports ex_env 1 2 [] 2) as (d & H & Hp & _ & Hs & Hd);
    [lia|reflexivity|by left|vm_compute; discriminate|reflexivity|].
  exists d. rewrite Hp, Hs, Hd. split; [exact H|]. split_and!; reflexivity.
Defined.

(** Families other than AF_INET and 30 are ignored; AF_INET6 is 10. *)
Lemma tcp_drop_ipv6_ignored e sk skb events :
  sk <> 0 -> kread e sk "skc_family" = Some 10 -> kprobe__tcp_drop e sk skb events = Some events.
Proof.
  intros Hsk Hf. unfold kprobe__tcp_drop. rewrite (proj2 (Z.eqb_neq sk 0) Hsk).
  cbn [andb mbind option_bind]. unfold probe_read at 1 2. by rewrite Hf.
Qed.

(** The guard for missing arguments dereferences the NULL it tests for. *)
Fact tcp_drop_guard e events : kprobe__tcp_drop e 0 0 events = None.
Proof. reflexivity. Qed.

End TcpDrop.

Module SoftIrq.

Definition NR_SOFTIRQS : Z := 10.

(** The per-CPU cell of [start] (zero until written) and what was traced. *)
Record softirq_state := { start : gmap Z Z; traced : list Z }.

Definition btf_raw_tracepoint__softirq_entry (e : kenv) (cpu : Z) (st : softirq_state) : softirq_state :=
  {| start := <[cpu := ktime_ns e]> (start st); traced := traced st |}.

Definition btf_raw_tracepoint__softirq_exit (targ_ns : bool) (e : kenv) (cpu vec_nr : Z) (st : softirq_state)
    : softirq_state :=
  if vec_nr >=? NR_SOFTIRQS then st else
  let ts := default 0 (start st !! cpu) in
  if ts =? 0 then st else
  let delta := u64 (ktime_ns e - ts) in
  if delta <? 0 then st else
  let delta := if targ_ns then delta else delta / 1000 in
  {| start := start st; traced := traced st ++ [vec_nr] |}.

(** An exit is traced exactly when its vector is valid and its CPU has seen
    an entry (at a time other than 0); another CPU's entry does not count. *)
Lemma softirq_exit_traced targ_ns e e' cpu cpu' vec st :
  0 <= vec -> start st !! cpu' = None -> ktime_ns e <> 0 ->
  traced (btf_raw_tracepoint__softirq_exit targ_ns e' cpu' vec
            (btf_raw_tracepoint__softirq_entry e cpu st))
  = traced st ++ (if bool_decide (vec < 10 /\ cpu = cpu') then [vec] else []).
Proof.
  intros Hv Hs Ht. unfold btf_raw_tracepoint__softirq_exit, btf_raw_tracepoint__softirq_entry, NR_SOFTIRQS.
  cbn [start traced]. destruct (vec >=? 10) eqn:Hge.
  { rewrite bool_decide_eq_false_2 by lia. by rewrite app_nil_r. }
  destruct (decide (cpu = cpu')) as [->|Hne].
  - rewrite lookup_insert_eq. cbn [default from_option id]. rewrite (proj2 (Z.eqb_neq _ 0) Ht).
    pose proof (wrap_range 64 (ktime_ns e' - ktime_ns e)).
    destruct (Z.ltb_spec (u64 (ktime_ns e' - ktime_ns e)) 0); [lia|].
    rewrite bool_decide_eq_true_2 by lia. done.
  - rewrite lookup_insert_ne, Hs by done. cbn. rewrite bool_decide_eq_false_2 by tauto.
    by rewrite app_nil_r.
Qed.

(** The first argument of a raw tracepoint program is the context, a kernel
    address: taken for the vector it is never valid. *)
Fact softirq_exit_with_context targ_ns e cpu ctx st :
  4096 <= ctx -> btf_raw_tracepoint__softirq_exit targ_ns e cpu ctx st = st.
Proof.
  intros H. unfold btf_raw_tracepoint__softirq_exit, NR_SOFTIRQS. by destruct (ctx >=? 10) eqn:?; [|lia].
Qed.

End SoftIrq.

Module Execve.

Record process_info := { pid : Z; comm : list Z }.

Definition kprobe__sys_execve (e : kenv) (events : list process_info) : list process_info :=
  let tgid := u32 (Z.shiftr (pid_tgid e) 32) in
  if negb (reserve_ok e) then events
  else events ++ [{| pid := s32 tgid; comm := comm100 e |}].

End Execve.

Module ErrorTrap.

(** interrupt/interrupt.c sends the id of the stack, stack/interrupt.c the
    stack itself. *)
Record intr_message := { vector : Z; pid : Z; stack_id : Z }.
Record intr_stack_message := { s_vector : Z; s_pid : Z; kernelstack : list Z }.

Definition kprobe__do_error_trap (e : kenv) (trapnr : Z) (events : list intr_message)
    : list intr_message :=
  let pid := u32 (Z.shiftr (pid_tgid e) 32) in
  if negb (reserve_ok e) then events
  else events ++ [{| vector := trapnr; pid := pid; stack_id := u32 (stackid e) |}].

Definition stack_do_error_trap (e : kenv) (trapnr : Z) (events : list intr_stack_message)
    : list intr_stack_message :=
  let pid := u32 (Z.shiftr (pid_tgid e) 32) in
  if negb (reserve_ok e) then events
  else events ++ [{| s_vector := trapnr; s_pid := pid; kernelstack := take 10 (kstack e) |}].

End ErrorTrap.

Module NetfilterHook.

Definition NF_DROP : Z := 0.
Definition NF_ACCEPT : Z := 1.

Record hook_state := { block : bool; incoming : bool; msg1 : list Z; len1 : Z }.

Section Hook.
(** The kernel's string trimming, and its rendering of the address of a
    variable under [%p4]. *)
Context (strim : list Z -> list Z) (format_p4 : Z -> list Z).

(** [msg1] is the 100-byte buffer of [create_new_proc_entry]. *)
Definition write_proc1 (buf : list Z) (count : Z) (st : hook_state) : option (Z * hook_state) :=
  m ← st_bytes (msg1 st) 0 (take (Z.to_nat count) buf);
  Some (count, {| block := block st;
                  incoming := if count >? 0 then negb (incoming st) else incoming st;
                  msg1 := strim m; len1 := count |}).

Fixpoint strstr (hay needle : list Z) : bool :=
  bool_decide (take (length needle) hay = needle) ||
  match hay with [] => false | _ :: hay => strstr hay needle end.

(** No verdict ([None]) when control reaches the end of the function. *)
Definition hook_funcIN (src_ip_addr : Z) (st : hook_state) : option Z :=
  if block st then Some NF_DROP
  else if incoming st then
    m ← until_nul (msg1 st);
    Some (if strstr m (take 15 (format_p4 src_ip_addr)) then NF_DROP else NF_ACCEPT)
  else None.

(** In its initial state the module has no verdict for any packet. *)
Fact hook_initial_no_verdict addr m :
  hook_funcIN addr {| block := false; incoming := false; msg1 := m; len1 := 0 |} = None.
Proof. reflexivity. Qed.

(** A write longer than the buffer is stored past its end. *)
Fact write_overflows buf count st :
  length (msg1 st) = 100%nat -> 100 < count -> count <= Z.of_nat (length buf) ->
  write_proc1 buf count st = None.
Proof.
  intros Hm Hc Hb. unfold write_proc1. destruct (st_bytes _ _ _) as [m|] eqn:E; [|done]. exfalso.
  assert (forall bs mm off m', st_bytes mm off bs = Some m' -> bs <> [] ->
    off + Z.of_nat (length bs) <= Z.of_nat (length mm)) as H.
  { induction bs as [|b bs IH]; intros mm off m' Hs Hne; [done|]. cbn [st_bytes] in Hs.
    apply bind_Some in Hs as (m1 & H1 & Hs). pose proof (st8_length _ _ _ _ H1) as Hl.
    apply st8_inv in H1 as [H1 _]. destruct bs as [|b' bs]; [simpl; lia|].
    apply IH in Hs; [|done]. simpl length in *. lia. }
  apply H in E; [rewrite length_take in E; lia|].
  intros Ht. apply (f_equal length) in Ht. rewrite length_take in Ht. simpl in Ht. lia.
Qed.
End Hook.

End NetfilterHook.
