(* ===== verification/Ksyms.v ===== *)
(** * Kernel symbols (src/plugin/libbpf-test/trace_helpers.c, [ksyms__*])

    The symbol table read from /proc/kallsyms: two growing buffers while it
    is built, a sorted array afterwards, searched by address or by name.

    The file is the list of its scan results, [None] for a line that does not
    give three values; what [fscanf] stores is checked against the buffer it
    is stored in.  Memory allocation is the
    parameter [alloc_ok] (does a request of this many bytes succeed), and
    the bytes [realloc] adds hold [junk].  A [None] of the outer option is
    undefined behaviour: an access outside a buffer or a signed overflow. *)

From stdpp Require Import sorting.
From S2P Require Import Prelude.

(** ** Building *)

(** [name] is an offset into [strs] while the table is under construction. *)
Record ksym_off := { ko_name : Z; ko_addr : Z }.

(** [strs] is the whole buffer, [strs_cap] its length; [syms] holds the
    [syms_sz] entries in use. *)
Record ksyms_buf := {
  b_syms : list ksym_off;
  b_syms_cap : Z;
  b_strs : list Z;
  b_strs_sz : Z;
}.

Definition ksyms_calloc : ksyms_buf :=
  {| b_syms := []; b_syms_cap := 0; b_strs := []; b_strs_sz := 0 |}.

Section Build.
Context (alloc_ok : Z -> bool) (junk : Z).

Definition realloc (m : list Z) (n : Z) : option (list Z) :=
  if alloc_ok n then Some (take (Z.to_nat n) m ++ replicate (Z.to_nat n - length m) junk)
  else None.

(** [cap * 4 / 3] in [int]. *)
Definition grow43 (cap : Z) : option Z :=
  if cap * 4 >? INT_MAX then None else Some (cap * 4 / 3).

(** Room for [name_len] more bytes: [Some None] when [realloc] fails. *)
Definition grow_strs (k : ksyms_buf) (name_len : Z) : option (option ksyms_buf) :=
  let strs_cap := Z.of_nat (length (b_strs k)) in
  if b_strs_sz k + name_len >? strs_cap then
    new_cap ← grow43 strs_cap;
    let new_cap := if new_cap <? b_strs_sz k + name_len then b_strs_sz k + name_len else new_cap in
    let new_cap := if new_cap <? 1024 then 1024 else new_cap in
    Some (tmp ← realloc (b_strs k) new_cap;
          Some {| b_syms := b_syms k; b_syms_cap := b_syms_cap k;
                  b_strs := tmp; b_strs_sz := b_strs_sz k |})
  else Some (Some k).

Definition grow_syms (k : ksyms_buf) : option (option ksyms_buf) :=
  if Z.of_nat (length (b_syms k)) + 1 >? b_syms_cap k then
    new_cap ← grow43 (b_syms_cap k);
    let new_cap := if new_cap <? 1024 then 1024 else new_cap in
    Some (if alloc_ok (16 * new_cap) then
            Some {| b_syms := b_syms k; b_syms_cap := s32 new_cap;
                    b_strs := b_strs k; b_strs_sz := b_strs_sz k |}
          else None)
  else Some (Some k).

(** [Some None] is the return value -1.  [name] is the C string's bytes. *)
Definition ksyms__add_symbol (k : ksyms_buf) (name : list Z) (addr : Z)
    : option (option ksyms_buf) :=
  let name_len := Z.of_nat (length name) + 1 in
  k1 ← grow_strs k name_len;
  match k1 with
  | None => Some None
  | Some k =>
      k2 ← grow_syms k;
      match k2 with
      | None => Some None
      | Some k =>
          if Z.of_nat (length (b_syms k)) <? b_syms_cap k then
            strs ← st_bytes (b_strs k) (b_strs_sz k) (name ++ [0]);
            Some (Some {| b_syms := b_syms k ++ [{| ko_name := b_strs_sz k; ko_addr := addr |}];
                          b_syms_cap := b_syms_cap k; b_strs := strs;
                          b_strs_sz := s32 (b_strs_sz k + name_len) |})
          else None
      end
  end.
End Build.

(** ** The finished table *)

(** [name] is now the string it points at. *)
Record ksym := { name : list Z; addr : Z }.

#[export] Instance ksym_eq_dec : EqDecision ksym.
Proof. solve_decision. Defined.

Definition ksym_cmp (s1 s2 : ksym) : Z :=
  if addr s1 =? addr s2 then strcmp (name s1) (name s2)
  else if addr s1 <? addr s2 then -1 else 1.

(** [qsort] with a comparison function: a sorted permutation. *)
Definition ksym_le (s1 s2 : ksym) : Prop := ksym_cmp s1 s2 <= 0.
#[export] Instance ksym_le_dec s1 s2 : Decision (ksym_le s1 s2).
Proof. unfold ksym_le. apply _. Defined.

(** [ksyms->syms[i].name += (unsigned long)ksyms->strs]. *)
Definition adjust (strs : list Z) (s : ksym_off) : option ksym :=
  n ← cstr strs (ko_name s); Some {| name := n; addr := ko_addr s |}.

Section Load.
Context (alloc_ok : Z -> bool) (junk : Z).

(** The scan loop: a line is what [fscanf] stored, [None] when it did not
    return 3. *)
Fixpoint load_loop (k : ksyms_buf) (lines : list (option (Z * list Z)))
    : option (option ksyms_buf) :=
  match lines with
  | [] => Some (Some k)
  | None :: _ => Some None
  | Some (sym_addr, sym_name) :: lines =>
      (* char sym_name[256], which %s fills without a bound *)
      if Z.of_nat (length sym_name) >? 255 then None else
      r ← ksyms__add_symbol alloc_ok junk k sym_name sym_addr;
      match r with
      | None => Some None
      | Some k => load_loop k lines
      end
  end.

(** [Some None] is NULL; the file cannot be opened where it is [None]. *)
Definition ksyms__load (f : option (list (option (Z * list Z)))) : option (option (list ksym)) :=
  match f with
  | None => Some None
  | Some lines =>
  if negb (alloc_ok 32) then Some None else
  r ← load_loop ksyms_calloc lines;
  match r with
  | None => Some None
  | Some k =>
      syms ← mapM (adjust (b_strs k)) (b_syms k);
      Some (Some (merge_sort ksym_le syms))
  end
  end.
End Load.

(** ** Searching *)

(** The binary search both symbol tables use ([ksyms__map_addr] and
    [dso__find_sym]); [get i] is the address of entry [i].  The indices are
    below the table's size, so nothing overflows. *)
Fixpoint search_loop (get : Z -> option Z) (a : Z) (fuel : nat) (start end_ : Z)
    : option (Z * Z) :=
  match fuel with
  | O => None
  | S fuel =>
      if start <? end_ then
        let mid := start + (end_ - start + 1) / 2 in
        sym_addr ← get mid;
        if sym_addr <=? a then search_loop get a fuel mid end_
        else search_loop get a fuel start (mid - 1)
      else Some (start, end_)
  end.

(** The entry found, [Some None] is NULL. *)
Definition search {A} (key : A -> Z) (l : list A) (a : Z) : option (option A) :=
  let n := Z.of_nat (length l) in
  '(start, end_) ← search_loop (fun i => key <$> aref l i) a (S (length l)) 0 (n - 1);
  if start =? end_ then
    s ← aref l start;
    Some (if key s <=? a then Some s else None)
  else Some None.

Definition ksyms__map_addr (syms : list ksym) (a : Z) : option (option ksym) :=
  search addr syms a.

Fixpoint ksyms__get_symbol (syms : list ksym) (n : list Z) : option ksym :=
  match syms with
  | [] => None
  | s :: syms => if strcmp (name s) n =? 0 then Some s else ksyms__get_symbol syms n
  end.

(** ** Correctness: the search *)

Section Search.
Context {A : Type} (key : A -> Z) (l : list A) (a : Z).
Hypothesis sorted : StronglySorted Z.le (key <$> l).

Lemma sorted_lookup i j x y :
  (i <= j)%nat -> l !! i = Some x -> l !! j = Some y -> key x <= key y.
Proof.
  intros Hij Hi Hj. destruct (decide (i = j)) as [->|]; [by simplify_eq|].
  assert (H : (key <$> l) !! i = Some (key x)) by (by rewrite list_lookup_fmap, Hi).
  assert (H' : (key <$> l) !! j = Some (key y)) by (by rewrite list_lookup_fmap, Hj).
  eapply (StronglySorted_app_1_elem_of Z.le (take j (key <$> l)) (drop j (key <$> l))).
  - by rewrite take_drop.
  - apply elem_of_take. exists i. split; [done|lia].
  - apply (list_elem_of_lookup_2 _ 0). by rewrite lookup_drop, Nat.add_0_r.
Qed.

Lemma search_loop_spec fuel : forall start end_,
  0 <= start <= end_ -> end_ < Z.of_nat (length l) -> (Z.to_nat (end_ - start) < fuel)%nat ->
  (forall i x, (Z.of_nat i < start)%Z -> l !! i = Some x -> key x <= a) ->
  (start = 0 \/ exists x, l !! Z.to_nat start = Some x /\ key x <= a) ->
  (forall i x, (end_ < Z.of_nat i)%Z -> l !! i = Some x -> a < key x) ->
  exists p, search_loop (fun i => key <$> aref l i) a fuel start end_ = Some (p, p) /\
    0 <= p < Z.of_nat (length l) /\
    (p = 0 \/ exists x, l !! Z.to_nat p = Some x /\ key x <= a) /\
    (forall i x, (p < Z.of_nat i)%Z -> l !! i = Some x -> a < key x).
Proof.
  induction fuel as [|fuel IH]; intros start end_ Hse Hel Hf Hlo Hs Hhi; [lia|].
  cbn [search_loop]. destruct (start <? end_) eqn:E; zbool.
  2: { exists start. assert (start = end_) as -> by lia. split_and!; [done|lia|lia|done|done]. }
  set (mid := start + (end_ - start + 1) / 2).
  assert (start < mid <= end_) by (subst mid; Z.to_euclidean_division_equations; lia).
  destruct (aref_Some l mid) as [x Hx]; [lia|]. rewrite Hx. cbn [fmap option_fmap option_map mbind option_bind].
  unfold aref in Hx. destruct (mid <? 0) eqn:?; [done|].
  destruct (key x <=? a) eqn:Ek; zbool.
  - apply IH; [lia|lia|lia| |right; by exists x|done].
    intros i y Hi Hy. etrans; [|exact Ek]. eapply (sorted_lookup i (Z.to_nat mid)); [lia|done|done].
  - apply IH; [lia|lia|lia|done|done|].
    intros i y Hi Hy. apply Z.lt_le_trans with (key x); [done|].
    eapply (sorted_lookup (Z.to_nat mid) i); [lia|done|done].
Qed.

Lemma filter_prefix n :
  (forall i x, (i < n)%nat -> l !! i = Some x -> key x <= a) ->
  (forall i x, (n <= i)%nat -> l !! i = Some x -> a < key x) ->
  filter (fun x => key x <= a) l = take n l.
Proof.
  clear sorted. revert n. induction l as [|x l' IH]; intros n H1 H2; [by destruct n|].
  rewrite filter_cons. destruct n as [|n].
  - rewrite decide_False by (pose proof (H2 0%nat x ltac:(lia) eq_refl); lia).
    rewrite (IH 0%nat); [by rewrite take_0|lia|]. intros i y Hi Hy. by apply (H2 (S i)); [lia|].
  - rewrite decide_True by (by apply (H1 0%nat); [lia|]). cbn [take]. f_equal. apply IH.
    + intros i y Hi Hy. by apply (H1 (S i)); [lia|].
    + intros i y Hi Hy. by apply (H2 (S i)); [lia|].
Qed.

(** The binary search finds the last entry whose address is not larger. *)
Lemma search_spec : search key l a = Some (last (filter (fun x => key x <= a) l)).
Proof.
  unfold search. destruct (decide (l = [])) as [El|El]; [by rewrite El|].
  assert (Hlen : (0 < length l)%nat) by (destruct (length l) eqn:E0;
    [by apply nil_length_inv in E0|lia]).
  destruct (search_loop_spec (S (length l)) 0 (Z.of_nat (length l) - 1))
    as (p & E & Hp & Hx & Hhi); [lia|lia|lia|lia|by left| |].
  { intros i x Hi Hl. apply lookup_lt_Some in Hl. lia. }
  rewrite E. cbn [mbind option_bind]. rewrite Z.eqb_refl.
  destruct (aref_Some l p) as [x Hax]; [lia|]. rewrite Hax. cbn [mbind option_bind].
  unfold aref in Hax. destruct (p <? 0) eqn:?; [done|]. f_equal.
  destruct (key x <=? a) eqn:Ek; zbool.
  - rewrite (filter_prefix (S (Z.to_nat p))).
    + rewrite last_lookup, length_take, lookup_take_lt by lia.
      by replace (Nat.pred _) with (Z.to_nat p) by lia.
    + intros i y Hi Hy. etrans; [|exact Ek]. eapply (sorted_lookup i (Z.to_nat p)); [lia|done|done].
    + intros i y Hi Hy. apply (Hhi i); [lia|done].
  - assert (p = 0) as ->. { destruct Hx as [?|(y & Hy & ?)]; [done|]. simplify_eq. lia. }
    rewrite (filter_prefix 0%nat); [done|lia|]. intros i y _ Hy.
    apply Z.lt_le_trans with (key x); [done|].
    eapply (sorted_lookup 0 i); [lia|done|done].
Qed.
End Search.

(** ** Correctness: the comparison *)

Lemma strcmp_trans a b c : strcmp a b <= 0 -> strcmp b c <= 0 -> strcmp a c <= 0.
Proof.
  revert b c. induction a as [|x a IH]; intros [|y b] [|z c]; simpl; try lia.
  destruct (Z.eqb_spec x y), (Z.eqb_spec y z), (Z.eqb_spec x z), (Z.ltb_spec x y),
    (Z.ltb_spec y z), (Z.ltb_spec x z); subst; try lia; apply IH.
Qed.

Lemma strcmp_total a b : strcmp a b <= 0 \/ strcmp b a <= 0.
Proof.
  revert b. induction a as [|x a IH]; intros [|y b]; simpl; try lia.
  destruct (Z.eqb_spec x y), (Z.eqb_spec y x), (Z.ltb_spec x y), (Z.ltb_spec y x); try lia.
  apply IH.
Qed.

(** [ksym_cmp] is the total preorder [qsort] needs. *)
#[export] Instance ksym_le_trans : Transitive ksym_le.
Proof.
  intros s1 s2 s3. unfold ksym_le, ksym_cmp.
  destruct (Z.eqb_spec (addr s1) (addr s2)), (Z.eqb_spec (addr s2) (addr s3)),
    (Z.eqb_spec (addr s1) (addr s3)), (Z.ltb_spec (addr s1) (addr s2)),
    (Z.ltb_spec (addr s2) (addr s3)), (Z.ltb_spec (addr s1) (addr s3)); try lia.
  apply strcmp_trans.
Qed.

#[export] Instance ksym_le_total : Total ksym_le.
Proof.
  intros s1 s2. unfold ksym_le, ksym_cmp.
  destruct (Z.eqb_spec (addr s1) (addr s2)), (Z.eqb_spec (addr s2) (addr s1)),
    (Z.ltb_spec (addr s1) (addr s2)), (Z.ltb_spec (addr s2) (addr s1)); try lia.
  apply strcmp_total.
Qed.

Lemma ksym_le_addr s1 s2 : ksym_le s1 s2 -> addr s1 <= addr s2.
Proof. unfold ksym_le, ksym_cmp. zcase; [lia|]. zcase; lia. Qed.

Lemma StronglySorted_fmap_impl {A} (R : relation A) (key : A -> Z) l :
  (forall x y, R x y -> key x <= key y) -> StronglySorted R l -> StronglySorted Z.le (key <$> l).
Proof.
  intros H. induction 1 as [|x l Hs IH Hf]; [constructor|]. cbn. constructor; [done|].
  apply Forall_fmap. eapply Forall_impl; [exact Hf|]. intros y Hy. by apply H.
Qed.

Lemma StronglySorted_filter {A} (R : relation A) (P : A -> Prop) `{!forall x, Decision (P x)} l :
  StronglySorted R l -> StronglySorted R (filter P l).
Proof.
  induction 1 as [|x l Hs IH Hf]; [constructor|]. rewrite filter_cons. case_decide; [|done].
  constructor; [done|]. apply Forall_forall. intros y [_ Hy]%list_elem_of_filter.
  rewrite Forall_forall in Hf. by apply Hf.
Qed.

(** [r] is the greatest element of [l] in the order [R] among those with a
    key not above [a]; NULL iff there is none. *)
Definition greatest_below {A} (R : relation A) (key : A -> Z) (l : list A) (a : Z) (r : option A)
    : Prop :=
  match r with
  | Some s => s ∈ l /\ key s <= a /\ forall s', s' ∈ l -> key s' <= a -> R s' s
  | None => forall s', s' ∈ l -> a < key s'
  end.

(** Searching a table sorted with the comparison function. *)
Lemma search_merge_sort {A} (R : relation A) `{!forall x y, Decision (R x y)} `{!Transitive R} `{!Total R}
    (key : A -> Z) l a :
  (forall x y, R x y -> key x <= key y) ->
  exists r, search key (merge_sort R l) a = Some r /\ greatest_below R key l a r.
Proof.
  intros HR. set (syms := merge_sort R l).
  assert (Hp : syms ≡ₚ l) by apply merge_sort_Permutation.
  assert (Hs : StronglySorted R syms) by (apply (StronglySorted_merge_sort R)).
  rewrite search_spec by (eapply StronglySorted_fmap_impl; [exact HR|done]).
  eexists. split; [done|]. unfold greatest_below. destruct (last _) as [s|] eqn:El.
  - apply last_Some in El as [l' El].
    assert (Hin : s ∈ filter (fun x => key x <= a) syms) by (rewrite El; set_solver).
    apply list_elem_of_filter in Hin as [Hle Hin]. split; [by rewrite <- Hp|]. split; [done|].
    intros s' Hs' Hle'.
    assert (Hf : StronglySorted R (filter (fun x => key x <= a) syms))
      by (by apply StronglySorted_filter).
    assert (Hin' : s' ∈ filter (fun x => key x <= a) syms)
      by (apply list_elem_of_filter; by rewrite Hp).
    rewrite El in Hf, Hin'. apply elem_of_app in Hin' as [Hin'|Hin'].
    + eapply (StronglySorted_app_1_elem_of _ _ _ _ _ Hf); [done|set_solver].
    + apply list_elem_of_singleton in Hin' as ->. destruct (total R s s); done.
  - apply last_None in El. intros s' Hs'. destruct (Z.le_gt_cases (key s') a); [|done].
    assert (H' : s' ∈ filter (fun x => key x <= a) syms)
      by (apply list_elem_of_filter; by rewrite Hp).
    rewrite El in H'. set_solver.
Qed.

(** ** Correctness: loading *)

Definition entry (e : Z * list Z) : ksym := {| name := e.2; addr := e.1 |}.

Definition blob (es : list (Z * list Z)) : list Z := flat_map (fun e => e.2 ++ [0]) es.

Fixpoint offs (o : Z) (es : list (Z * list Z)) : list ksym_off :=
  match es with
  | [] => []
  | e :: es => {| ko_name := o; ko_addr := e.1 |} :: offs (o + Z.of_nat (length e.2) + 1) es
  end.

Definition name_ok (e : Z * list Z) : Prop :=
  strneq0 e.2 /\ bytes_ok e.2 /\ Z.of_nat (length e.2) <= 255.

(** The entries up to the first malformed line. *)
Fixpoint scanned (lines : list (option (Z * list Z))) : list (Z * list Z) :=
  match lines with
  | Some e :: lines => e :: scanned lines
  | _ => []
  end.

(** The buffers after the entries [es]. *)
Definition buf_ok (k : ksyms_buf) (es : list (Z * list Z)) : Prop :=
  (exists rest, b_strs k = blob es ++ rest) /\ b_strs_sz k = Z.of_nat (length (blob es)) /\
  b_syms k = offs 0 es /\ Z.of_nat (length es) <= b_syms_cap k.

Lemma offs_app o es e :
  offs o (es ++ [e])
  = offs o es ++ [{| ko_name := o + Z.of_nat (length (blob es)); ko_addr := e.1 |}].
Proof.
  revert o. induction es as [|e' es IH]; intros o; simpl; [by rewrite Z.add_0_r|].
  rewrite IH. do 4 f_equal. rewrite !length_app. simpl. lia.
Qed.

Lemma length_offs o es : length (offs o es) = length es.
Proof. revert o. induction es; intros; simpl; congruence. Qed.

Lemma blob_app es e : blob (es ++ [e]) = blob es ++ e.2 ++ [0].
Proof. unfold blob. rewrite flat_map_app. simpl. by rewrite app_nil_r. Qed.

Lemma length_blob es : (length es <= length (blob es))%nat.
Proof.
  induction es as [|e es IH]; simpl; [lia|]. rewrite !length_app. simpl. lia.
Qed.

Lemma adjust_at pre n rest a :
  strneq0 n ->
  adjust (pre ++ n ++ 0 :: rest) {| ko_name := Z.of_nat (length pre); ko_addr := a |}
  = Some {| name := n; addr := a |}.
Proof.
  intros H. unfold adjust, cstr. cbn [ko_name ko_addr]. destruct (Z.ltb_spec (Z.of_nat (length pre)) 0); [lia|].
  rewrite Nat2Z.id, drop_app_length, until_nul_app by done. done.
Qed.

Lemma adjust_offs es : forall pre rest,
  Forall name_ok es ->
  mapM (adjust (pre ++ blob es ++ rest)) (offs (Z.of_nat (length pre)) es) = Some (map entry es).
Proof.
  induction es as [|[a n] es IH]; intros pre rest Hok; [done|].
  inversion Hok as [|? ? (H1 & H2 & _) Hok']; subst. cbn [offs blob flat_map snd fst map].
  cbn [snd] in *. cbn [mapM]. specialize (IH (pre ++ n ++ [0]) rest Hok').
  rewrite <- !app_assoc in *. cbn [app] in *. rewrite adjust_at by done. cbn [mbind option_bind].
  rewrite !length_app in IH. cbn [length] in IH.
  replace (Z.of_nat (length pre) + Z.of_nat (length n) + 1)
    with (Z.of_nat (length pre + (length n + 1))) by lia.
  unfold blob in IH. rewrite IH. done.
Qed.

Section LoadTheorems.
Context (alloc_ok : Z -> bool) (junk : Z).

Lemma grow_strs_spec k es name_len :
  buf_ok k es -> 0 < name_len -> b_strs_sz k + name_len <= 536870911 ->
  (exists n, grow_strs alloc_ok junk k name_len = Some None /\ alloc_ok n = false) \/
  exists k', grow_strs alloc_ok junk k name_len = Some (Some k') /\ buf_ok k' es /\
    b_strs_sz k' + name_len <= Z.of_nat (length (b_strs k')).
Proof.
  intros ((rest & Hr) & Hsz & Hsy & Hc) Hn Hb. unfold grow_strs.
  destruct (_ >? _) eqn:E; [|right; exists k; split; [done|]; split; [|lia]].
  2: { split_and!; [by exists rest|done|done|done]. }
  set (cap := Z.of_nat (length (b_strs k))) in *. unfold grow43.
  destruct (cap * 4 >? INT_MAX) eqn:E2; [lia|]. cbn [mbind option_bind].
  set (c1 := if cap * 4 / 3 <? _ then _ else _). set (c2 := if c1 <? 1024 then 1024 else c1).
  assert (Hc2 : cap <= c2 /\ b_strs_sz k + name_len <= c2).
  { assert (cap <= c1 /\ b_strs_sz k + name_len <= c1).
    { subst c1. zcase; Z.to_euclidean_division_equations; lia. }
    clearbody c1. subst c2. zcase; lia. }
  unfold realloc. destruct (alloc_ok c2) eqn:Ea; cbn [mbind option_bind].
  2: { left. by exists c2. }
  right. eexists. split; [done|]. split.
  - split_and!; cbn [b_strs b_strs_sz b_syms b_syms_cap]; [|done|done|done].
    rewrite take_ge by lia. rewrite Hr, <- app_assoc. by eexists.
  - cbn [b_strs b_strs_sz]. rewrite length_app, take_ge, length_replicate by lia. lia.
Qed.

Lemma grow_syms_spec k es :
  buf_ok k es -> b_strs_sz k <= 536870911 ->
  (exists n, grow_syms alloc_ok k = Some None /\ alloc_ok n = false) \/
  exists k', grow_syms alloc_ok k = Some (Some k') /\ buf_ok k' es /\
    b_strs k' = b_strs k /\ Z.of_nat (length es) < b_syms_cap k'.
Proof.
  intros ((rest & Hr) & Hsz & Hsy & Hc) Hb. unfold grow_syms. rewrite Hsy, length_offs.
  pose proof (length_blob es).
  destruct (_ >? _) eqn:E; [|right; exists k; split; [done|]; split; [|split; [done|lia]]].
  2: { split_and!; [by exists rest|done|done|done]. }
  unfold grow43. destruct (_ >? INT_MAX) eqn:E2; [lia|]. cbn [mbind option_bind].
  set (c := if _ <? 1024 then 1024 else _).
  assert (Hc2 : Z.of_nat (length es) < c <= 1073741823).
  { subst c. zcase; Z.to_euclidean_division_equations; lia. }
  destruct (alloc_ok _) eqn:Ea; [|left; by eexists]. right. eexists. split; [done|].
  rewrite swrap_small by (pow2; lia). split; [|split; [done|cbn; lia]].
  split_and!; cbn [b_strs b_strs_sz b_syms b_syms_cap]; [by exists rest|done|done|lia].
Qed.

Lemma add_symbol_spec k es a n :
  buf_ok k es -> name_ok (a, n) ->
  Z.of_nat (length (blob (es ++ [(a, n)]))) <= 536870911 ->
  (exists m, ksyms__add_symbol alloc_ok junk k n a = Some None /\ alloc_ok m = false) \/
  exists k', ksyms__add_symbol alloc_ok junk k n a = Some (Some k') /\ buf_ok k' (es ++ [(a, n)]).
Proof.
  intros Hk (_ & Hok & _) Hb. cbn [snd] in *. rewrite blob_app, !length_app in Hb. cbn [snd length] in Hb.
  unfold ksyms__add_symbol. pose proof Hk as (_ & Hsz & _).
  destruct (grow_strs_spec k es (Z.of_nat (length n) + 1) Hk) as [(m & -> & Hm)|(k1 & -> & Hk1 & Hl)];
    [lia|lia|left; by exists m|]. cbn [mbind option_bind].
  pose proof Hk1 as (_ & Hsz1 & _).
  destruct (grow_syms_spec k1 es Hk1) as [(m & -> & Hm)|(k2 & -> & Hk2 & Hs & Hc)];
    [lia|left; by exists m|]. cbn [mbind option_bind].
  destruct Hk2 as ((rest & Hr) & Hsz2 & Hsy & _). right.
  rewrite Hsy, length_offs. zcase; [|lia].
  assert (Hlen : (length (n ++ [0%Z]) <= length rest)%nat).
  { rewrite <- Hs, Hr, length_app in Hl. rewrite length_app. simpl. lia. }
  rewrite Hr, Hsz2. rewrite <- (take_drop (length (n ++ [0%Z])) rest).
  rewrite st_bytes_app.
  2: { rewrite length_take. lia. }
  2: { apply Forall_app. split; [done|]. by repeat constructor. }
  cbn [mbind option_bind]. eexists. split; [done|].
  split_and!; cbn [b_strs b_strs_sz b_syms b_syms_cap].
  - exists (drop (length (n ++ [0%Z])) rest). rewrite blob_app. cbn [snd]. by rewrite <- !app_assoc.
  - rewrite blob_app, !length_app. cbn [snd length]. rewrite swrap_small by (pow2; lia). lia.
  - rewrite offs_app, Z.add_0_l. done.
  - rewrite length_app. simpl. lia.
Qed.

Lemma load_loop_spec lines : forall k done_,
  buf_ok k done_ -> Forall name_ok (scanned lines) ->
  Z.of_nat (length (blob (done_ ++ scanned lines))) <= 536870911 ->
  load_loop alloc_ok junk k lines = Some None /\ (None ∈ lines \/ exists m, alloc_ok m = false) \/
  None ∉ lines /\
  exists k', load_loop alloc_ok junk k lines = Some (Some k') /\ buf_ok k' (done_ ++ scanned lines).
Proof.
  induction lines as [|[[a n]|] lines IH]; intros k done_ Hk Hok Hb; cbn [load_loop scanned].
  { right. split; [apply not_elem_of_nil|]. exists k. by rewrite app_nil_r. }
  2: { left. split; [done|]. left. by constructor. }
  cbn [scanned] in Hok, Hb. apply Forall_cons in Hok as [Hn Hok].
  assert (E : done_ ++ (a, n) :: scanned lines = (done_ ++ [(a, n)]) ++ scanned lines) by (by rewrite <- app_assoc).
  rewrite E in *.
  assert (Hlen : (length (blob (done_ ++ [(a, n)])) <= length (blob ((done_ ++ [(a, n)]) ++ scanned lines)))%nat).
  { unfold blob. rewrite (flat_map_app _ (done_ ++ [(a, n)])), length_app. lia. }
  pose proof Hn as (_ & _ & Hfit). cbn [snd] in Hfit.
  destruct (Z.of_nat (length n) >? 255) eqn:E255; [lia|].
  destruct (add_symbol_spec k done_ a n Hk) as [(m & -> & Hm)|(k1 & -> & Hk1)];
    [done|lia|left; split; [done|]; right; by exists m|]. cbn [mbind option_bind].
  destruct (IH k1 (done_ ++ [(a, n)]) Hk1 Hok Hb) as [[H1 H2]|(H1 & H2)]; [left|right].
  - split; [done|]. destruct H2 as [H2|H2]; [left; by constructor|by right].
  - split; [|done]. by intros [|]%elem_of_cons.
Qed.

(** C22: address lookup over a loaded symbol table.  Take a listing in which
    the names before the first malformed line, if there is one, have at most
    255 bytes each (the buffer they are read into is not guarded,
    [long_name_overflows]) and 2^29 - 1 together.  Loading it neither overruns
    a buffer nor overflows.  It returns NULL only if the file cannot be opened,
    a line is malformed or an allocation is refused, and always in the first
    two cases; otherwise a table, a permutation of the listing, in which
    [ksyms__map_addr] finds for every address the entry with the largest
    address not above it (of several, the one with the last name), and
    nothing when there is none. *)
Theorem ksyms_load_map_addr f :
  let es := scanned (default [] f) in
  Forall name_ok es -> Z.of_nat (length (blob es)) <= 536870911 ->
  ksyms__load alloc_ok junk f = Some None /\
    (f = None \/ None ∈ default [] f \/ exists n, alloc_ok n = false) \/
  f <> None /\ None ∉ default [] f /\
  exists syms, ksyms__load alloc_ok junk f = Some (Some syms) /\
    syms ≡ₚ map entry es /\
    forall a, exists r, ksyms__map_addr syms a = Some r /\
      greatest_below ksym_le addr (map entry es) a r.
Proof.
  intros es Hok Hb. unfold ksyms__load. destruct f as [lines|]; [|left; split; [done|by left]].
  cbn [default from_option id] in *. destruct (alloc_ok 32) eqn:Ea; cbn [negb].
  2: { left. split; [done|]. right. right. by exists 32. }
  destruct (load_loop_spec lines ksyms_calloc []) as [[-> Hn]|(Hn & k & -> & Hk)]; [|done|done|..].
  { split_and!; [by exists []|done|done|simpl; lia]. }
  { left. split; [done|by right]. }
  right. split; [done|]. split; [done|]. cbn [mbind option_bind app] in *. fold es in Hk.
  destruct Hk as ((rest & Hr) & _ & Hsy & _).
  pose proof (adjust_offs es [] rest Hok) as Ha. cbn [app length] in Ha.
  rewrite Hsy, Hr. change 0 with (Z.of_nat 0) at 1. rewrite Ha. cbn [mbind option_bind].
  exists (merge_sort ksym_le (map entry es)). split; [done|].
  split; [apply merge_sort_Permutation|]. intros a.
  apply (search_merge_sort ksym_le addr), ksym_le_addr.
Qed.
End LoadTheorems.

Lemma ksyms_load_map_addr_witness :
  exists syms, ksyms__load (fun _ => true) 0 (Some (map Some [(300, lit "c"); (100, lit "a"); (200, lit "b")]))
      = Some (Some syms) /\
    ksyms__map_addr syms 250 = Some (Some {| name := lit "b"; addr := 200 |}).
Proof.
  destruct (ksyms_load_map_addr (fun _ => true) 0 (Some (map Some [(300, lit "c"); (100, lit "a"); (200, lit "b")])))
    as [[H _]|(_ & _ & syms & H1 & _ & _)].
  - repeat constructor; vm_compute; congruence.
  - vm_compute. congruence.
  - discriminate H.
  - exists syms. split; [exact H1|]. vm_compute in H1. injection H1 as <-. reflexivity.
Defined.

(** A name of 256 bytes is written over the end of [sym_name]. *)
Fact long_name_overflows :
  ksyms__load (fun _ => true) 0 (Some [Some (1, replicate 256 97)]) = None /\
  ksyms__load (fun _ => true) 0 (Some [Some (1, replicate 255 97)]) <> None.
Proof. split; vm_compute; congruence. Qed.
