(* ===== verification/Syms.v ===== *)
(** * User-space symbols (src/plugin/libbpf-test/trace_helpers.c, [dso__*],
    [syms__*], [syms_cache__*], [partitions__*])

    A process's executable mappings are grouped by file ([dso]); the symbol
    table of a file is loaded on first use and searched like the kernel's.

    libelf and the helpers that open ELF files are not part of this
    repository: they are the fields of the record [libelf].  The names are
    kept in a string table, which the code borrows from libbpf's BTF; what
    it relies on is the class [StrTabLaws].  Allocation is the parameter
    [alloc_ok].  An outer [None] is undefined behaviour. *)

From stdpp Require Import sorting.
From S2P Require Import Prelude CString Ksyms.

(** ** What the code is given *)

Record shdr := { sh_name : Z; sh_type : Z; shdr_addr : Z; shdr_offset : Z; sh_link : Z; sh_entsize : Z }.
Record gsym := { st_name : Z; st_value : Z; st_size : Z }.

Record libelf (E Scn Dat : Type) := {
  open_elf : list Z -> option E;
  open_elf_by_fd : Z -> option E;
  gelf_getehdr : E -> option Z;
  elf_getshdrstrndx : E -> option Z;
  elf_scns : E -> list Scn;
  gelf_getshdr : Scn -> option shdr;
  elf_strptr : E -> Z -> Z -> option (list Z);
  elf_getdata : Scn -> list Dat;
  d_size : Dat -> Z;
  gelf_getsym : Dat -> Z -> option gsym;
}.
Arguments open_elf {E Scn Dat} _.
Arguments open_elf_by_fd {E Scn Dat} _.
Arguments gelf_getehdr {E Scn Dat} _.
Arguments elf_getshdrstrndx {E Scn Dat} _.
Arguments elf_scns {E Scn Dat} _.
Arguments gelf_getshdr {E Scn Dat} _.
Arguments elf_strptr {E Scn Dat} _.
Arguments elf_getdata {E Scn Dat} _.
Arguments d_size {E Scn Dat} _.
Arguments gelf_getsym {E Scn Dat} _.

(** [btf__new_empty], [btf__add_str] (an offset, or negative) and
    [btf__name_by_offset]. *)
Class StrTab (T : Type) := {
  btf__new_empty : T;
  btf__add_str : T -> list Z -> Z * T;
  btf__name_by_offset : T -> Z -> option (list Z);
}.

(** A string added is found at its offset, and stays there. *)
Class StrTabLaws (T : Type) `{!StrTab T} := {
  add_str_found (t : T) s : 0 <= (btf__add_str t s).1 ->
    btf__name_by_offset (btf__add_str t s).2 (btf__add_str t s).1 = Some s;
  add_str_stable (t : T) s o n : btf__name_by_offset t o = Some n ->
    btf__name_by_offset (btf__add_str t s).2 o = Some n;
}.

Definition ET_EXEC : Z := 2.
Definition ET_DYN : Z := 3.
Definition SHT_SYMTAB : Z := 2.
Definition SHT_DYNSYM : Z := 11.

(** ** Data *)

Record load_range := { start : Z; end_ : Z; file_off : Z }.

Inductive elf_type := EXEC | DYN | PERF_MAP | VDSO | UNKNOWN.

(** While the table is built [name] is an offset into the string table. *)
Record sym_off := { so_name : Z; so_start : Z; so_size : Z }.
Record sym := { sym_name : list Z; sym_start : Z; sym_size : Z }.

(** The pointer [dso->syms]: NULL, the table under construction (with its
    capacity), or the finished one. *)
Inductive symptr :=
  | SNull
  | SBuild (l : list sym_off) (cap : Z)
  | SReady (l : list sym).

(** [d_freed]: [dso__free_fields] has freed the name, the ranges, the
    symbols and the string table, and the pointers dangle. *)
Record dso (T : Type) := {
  d_name : list Z;
  d_ranges : list load_range;
  sh_addr : Z;
  sh_offset : Z;
  d_type : elf_type;
  d_syms : symptr;
  d_btf : T;
  d_freed : bool;
}.
Arguments d_name {T} _.
Arguments d_ranges {T} _.
Arguments sh_addr {T} _.
Arguments sh_offset {T} _.
Arguments d_type {T} _.
Arguments d_syms {T} _.
Arguments d_btf {T} _.
Arguments d_freed {T} _.

Record map := { start_addr : Z; end_addr : Z; map_off : Z; dev_major : Z; dev_minor : Z; inode : Z }.

(** ** Mapping names *)

Fixpoint starts_with (s p : list Z) : bool :=
  match p, s with
  | [], _ => true
  | c :: p, d :: s => (c =? d) && starts_with s p
  | _ :: _, [] => false
  end.

Definition is_file_backed (mapname : list Z) : bool :=
  negb (bool_decide (mapname = [])) &&
  negb (starts_with mapname (lit "//anon") || starts_with mapname (lit "/dev/zero") ||
        starts_with mapname (lit "/anon_hugepage") || starts_with mapname (lit "[stack") ||
        starts_with mapname (lit "/SYSV") || starts_with mapname (lit "[heap]") ||
        starts_with mapname (lit "[vsyscall]")).

Definition is_perf_map (path : list Z) : bool := false.

Definition is_vdso (path : list Z) : bool := strcmp path (lit "[vdso]") =? 0.

Section Syms.
Context {E Scn Dat T : Type} (elf : libelf E Scn Dat) `{!StrTab T} (alloc_ok : Z -> bool).
(** [create_tmp_vdso_image]: a file descriptor, or -1. *)
Context (vdso_fd : Z).

Definition get_elf_type (path : list Z) : Z :=
  if is_vdso path then -1 else
  match open_elf elf path with
  | None => -1
  | Some e => match gelf_getehdr elf e with None => -1 | Some t => t end
  end.

Fixpoint text_scn_loop (e : E) (stridx : Z) (scns : list Scn) : option (Z * Z) :=
  match scns with
  | [] => None
  | s :: scns =>
      match gelf_getshdr elf s with
      | None => text_scn_loop e stridx scns
      | Some h =>
          match elf_strptr elf e stridx (sh_name h) with
          | Some n => if strcmp n (lit ".text") =? 0 then Some (shdr_addr h, shdr_offset h)
                      else text_scn_loop e stridx scns
          | None => text_scn_loop e stridx scns
          end
      end
  end.

(** [None] is a negative return value. *)
Definition get_elf_text_scn_info (path : list Z) : option (Z * Z) :=
  e ← open_elf elf path;
  stridx ← elf_getshdrstrndx elf e;
  text_scn_loop e stridx (elf_scns elf e).

(** ** Mappings *)

Definition add_range (map : map) (d : dso T) : dso T :=
  {| d_name := d_name d;
     d_ranges := d_ranges d ++ [{| start := start_addr map; end_ := end_addr map;
                                   file_off := map_off map |}];
     sh_addr := sh_addr d; sh_offset := sh_offset d; d_type := d_type d; d_syms := d_syms d;
     d_btf := d_btf d; d_freed := d_freed d |}.

Definition set_type (t : elf_type) (ao : Z * Z) (d : dso T) : dso T :=
  {| d_name := d_name d; d_ranges := d_ranges d; sh_addr := ao.1; sh_offset := ao.2;
     d_type := t; d_syms := d_syms d; d_btf := d_btf d; d_freed := d_freed d |}.

Definition new_dso (name : list Z) : dso T :=
  {| d_name := name; d_ranges := []; sh_addr := 0; sh_offset := 0; d_type := EXEC;
     d_syms := SNull; d_btf := btf__new_empty; d_freed := false |}.

(** The end of [syms__add_dso]: range and type of the dso found or made. *)
Definition add_dso_finish (map : map) (name : list Z) (d : dso T) : Z * dso T :=
  if negb (alloc_ok (24 * (Z.of_nat (length (d_ranges d)) + 1))) then (-1, d) else
  let d := add_range map d in
  let old := (sh_addr d, sh_offset d) in
  let type := get_elf_type name in
  if type =? ET_EXEC then (0, set_type EXEC old d)
  else if type =? ET_DYN then
    match get_elf_text_scn_info name with
    | Some ao => (0, set_type DYN ao d)
    | None => (-1, set_type DYN old d)
    end
  else if is_perf_map name then (0, set_type PERF_MAP old d)
  else if is_vdso name then (0, set_type VDSO old d)
  else (0, set_type UNKNOWN old d).

(** The first dso with that name is extended; otherwise one is appended. *)
Fixpoint syms__add_dso_loop (ds : list (dso T)) (map : map) (name : list Z) (n : Z)
    : Z * list (dso T) :=
  match ds with
  | d :: ds =>
      if strcmp (d_name d) name =? 0 then
        let '(r, d) := add_dso_finish map name d in (r, d :: ds)
      else let '(r, ds) := syms__add_dso_loop ds map name (n + 1) in (r, d :: ds)
  | [] =>
      if alloc_ok (72 * (n + 1)) then
        let '(r, d) := add_dso_finish map name (new_dso name) in (r, [d])
      else (-1, [])
  end.

Definition syms__add_dso (ds : list (dso T)) (map : map) (name : list Z) : Z * list (dso T) :=
  syms__add_dso_loop ds map name 0.

(** A line of /proc/PID/maps as [fscanf] stores it. *)
Record map_line := { ml_map : map; ml_perm : list Z; ml_buf : list Z }.

(** [None] is NULL; a line is [None] when [fscanf] did not return 8. *)
Fixpoint load_file_loop (ds : list (dso T)) (lines : list (option map_line))
    : option (list (dso T)) :=
  match lines with
  | [] => Some ds
  | None :: _ => None
  | Some l :: lines =>
      if negb (bool_decide (ml_perm l !! 2%nat = Some 120)) then load_file_loop ds lines else
      let name := skip_space (ml_buf l) in
      if negb (is_file_backed name) then load_file_loop ds lines else
      let '(r, ds) := syms__add_dso ds (ml_map l) name in
      if negb (r =? 0) then None else load_file_loop ds lines
  end.

Definition syms__load_file (lines : list (option map_line)) : option (list (dso T)) :=
  load_file_loop [] lines.

(** The ranges of one dso: the offset, if [a] is inside one. *)
Fixpoint find_range (d : dso T) (rs : list load_range) (a : Z) : option Z :=
  match rs with
  | [] => None
  | r :: rs =>
      if (a <=? start r) || (end_ r <=? a) then find_range d rs a
      else Some (match d_type d with
                 | DYN | VDSO =>
                     u64 (u64 (a - start r + file_off r) + u64 (sh_addr d - sh_offset d))
                 | _ => a
                 end)
  end.

(** The index of the dso and the offset; [Some None] is NULL. *)
Fixpoint syms__find_dso (ds : list (dso T)) (a : Z) (i : nat) : option (option (nat * Z)) :=
  match ds with
  | [] => Some None
  | d :: ds =>
      if d_freed d then None else
      match find_range d (d_ranges d) a with
      | Some off => Some (Some (i, off))
      | None => syms__find_dso ds a (S i)
      end
  end.

(** ** Symbol tables *)

Definition set_syms (p : symptr) (btf : T) (d : dso T) : dso T :=
  {| d_name := d_name d; d_ranges := d_ranges d; sh_addr := sh_addr d; sh_offset := sh_offset d;
     d_type := d_type d; d_syms := p; d_btf := btf; d_freed := d_freed d |}.

Definition free_fields (d : dso T) : dso T :=
  {| d_name := d_name d; d_ranges := d_ranges d; sh_addr := sh_addr d; sh_offset := sh_offset d;
     d_type := d_type d; d_syms := d_syms d; d_btf := d_btf d; d_freed := true |}.

(** The symbols present and the capacity. *)
Definition sym_table (p : symptr) : list sym_off * Z :=
  match p with SBuild l cap => (l, cap) | _ => ([], 0) end.

(** Return value and dso. *)
Definition dso__add_sym (d : dso T) (name : list Z) (st sz : Z) : option (Z * dso T) :=
  let '(off, btf) := btf__add_str (d_btf d) name in
  if off <? 0 then Some (off, set_syms (d_syms d) btf d) else
  let '(l, cap) := sym_table (d_syms d) in
  let add cap := Some (0, set_syms (SBuild (l ++ [{| so_name := off; so_start := st;
                                                     so_size := sz |}]) cap) btf d) in
  if Z.of_nat (length l) + 1 >? cap then
    new_cap ← grow43 cap;
    let new_cap := if new_cap <? 1024 then 1024 else new_cap in
    if alloc_ok (24 * new_cap) then add (s32 new_cap)
    else Some (-1, set_syms (d_syms d) btf d)
  else add cap.

Fixpoint add_syms_loop (d : dso T) (e : E) (stridx : Z) (dat : Dat) (n : nat) (i : Z)
    : option (Z * dso T) :=
  match n with
  | O => Some (0, d)
  | S n =>
      match gelf_getsym elf dat i with
      | None => add_syms_loop d e stridx dat n (i + 1)
      | Some s =>
          match elf_strptr elf e stridx (st_name s) with
          | None => add_syms_loop d e stridx dat n (i + 1)
          | Some name =>
              if bool_decide (name = []) || (st_value s =? 0) then
                add_syms_loop d e stridx dat n (i + 1)
              else
                '(r, d) ← dso__add_sym d name (st_value s) (st_size s);
                if negb (r =? 0) then Some (-1, d) else add_syms_loop d e stridx dat n (i + 1)
          end
      end
  end.

(** [data->d_size / symsize] divides by zero when [symsize] is 0. *)
Fixpoint dso__add_syms (d : dso T) (e : E) (dats : list Dat) (stridx symsize : Z)
    : option (Z * dso T) :=
  match dats with
  | [] => Some (0, d)
  | dat :: dats =>
      if symsize =? 0 then None else
      if negb (d_size elf dat mod symsize =? 0) then Some (-1, d) else
      '(r, d) ← add_syms_loop d e stridx dat (Z.to_nat (d_size elf dat / symsize)) 0;
      if negb (r =? 0) then Some (-1, d) else dso__add_syms d e dats stridx symsize
  end.

Fixpoint load_scns (d : dso T) (e : E) (scns : list Scn) : option (Z * dso T) :=
  match scns with
  | [] => Some (0, d)
  | s :: scns =>
      match gelf_getshdr elf s with
      | None => load_scns d e scns
      | Some h =>
          if negb (sh_type h =? SHT_SYMTAB) && negb (sh_type h =? SHT_DYNSYM)
          then load_scns d e scns
          else
            '(r, d) ← dso__add_syms d e (elf_getdata elf s) (sh_link h) (sh_entsize h);
            if negb (r =? 0) then Some (-1, d) else load_scns d e scns
      end
  end.

Definition sym_cmp (s1 s2 : sym) : Z :=
  if sym_start s1 =? sym_start s2 then strcmp (sym_name s1) (sym_name s2)
  else if sym_start s1 <? sym_start s2 then -1 else 1.

Definition sym_le (s1 s2 : sym) : Prop := sym_cmp s1 s2 <= 0.
#[export] Instance sym_le_dec s1 s2 : Decision (sym_le s1 s2).
Proof. unfold sym_le. apply _. Defined.

Definition sym_adjust (btf : T) (s : sym_off) : option sym :=
  n ← btf__name_by_offset btf (so_name s);
  Some {| sym_name := n; sym_start := so_start s; sym_size := so_size s |}.

(** The end of a successful load: the names resolved, the table sorted.
    With no symbol at all the pointer stays NULL. *)
Definition finish_syms (d : dso T) : option (dso T) :=
  match d_syms d with
  | SBuild l _ =>
      syms ← mapM (sym_adjust (d_btf d)) l;
      Some (set_syms (SReady (merge_sort sym_le syms)) (d_btf d) d)
  | _ => Some d
  end.

Definition dso__load_sym_table_from_elf (d : dso T) (fd : Z) : option (Z * dso T) :=
  match (if 0 <? fd then open_elf_by_fd elf fd else open_elf elf (d_name d)) with
  | None => Some (-1, d)
  | Some e =>
      '(r, d) ← load_scns d e (elf_scns elf e);
      if negb (r =? 0) then Some (-1, free_fields d)
      else d ← finish_syms d; Some (0, d)
  end.

Definition dso__load_sym_table_from_vdso_image (d : dso T) : option (Z * dso T) :=
  if vdso_fd <? 0 then Some (-1, d) else dso__load_sym_table_from_elf d vdso_fd.

Definition dso__load_sym_table (d : dso T) : option (Z * dso T) :=
  match d_type d with
  | UNKNOWN => Some (-1, d)
  | PERF_MAP => Some (-1, d)
  | EXEC | DYN => dso__load_sym_table_from_elf d 0
  | VDSO => dso__load_sym_table_from_vdso_image d
  end.

(** [Some (None, _)] is NULL; a freed dso is not to be touched. *)
Definition dso__find_sym (d : dso T) (offset : Z) : option (option sym * dso T) :=
  if d_freed d then None else
  '(r, d) ← match d_syms d with SNull => dso__load_sym_table d | _ => Some (0, d) end;
  if negb (r =? 0) then Some (None, d) else
  match d_syms d with
  | SReady l => s ← search sym_start l offset; Some (s, d)
  | _ => Some (None, d)
  end.

Definition syms__map_addr (ds : list (dso T)) (a : Z) : option (option sym * list (dso T)) :=
  r ← syms__find_dso ds a 0;
  match r with
  | None => Some (None, ds)
  | Some (i, offset) =>
      d ← ds !! i;
      '(s, d) ← dso__find_sym d offset;
      Some (s, <[i := d]> ds)
  end.

(** ** The cache of loaded processes *)

Record syms_cache := { data : list (Z * option (list (dso T))) }.

Definition syms_cache__new : syms_cache := {| data := [] |}.

(** [load]: [syms__load_pid].  The index of the entry returned, and the
    cache; [None] is NULL for want of memory. *)
Definition syms_cache__get_syms (load : Z -> option (list (dso T))) (c : syms_cache) (tgid : Z)
    : option nat * syms_cache :=
  match list_find (fun e => e.1 = tgid) (data c) with
  | Some (i, _) => (Some i, c)
  | None =>
      if alloc_ok (16 * (Z.of_nat (length (data c)) + 1)) then
        (Some (length (data c)), {| data := data c ++ [(tgid, load tgid)] |})
      else (None, c)
  end.
End Syms.

(** ** Partitions *)

Record partition := { p_name : list Z; p_dev : Z }.

Definition MKDEV (ma mi : Z) : Z := Z.lor (u32 (Z.shiftl ma 20)) mi.

Definition partitions__add_partition (alloc_ok : Z -> bool) (ps : list partition)
    (name : list Z) (dev : Z) : option (list partition) :=
  if alloc_ok (16 * (Z.of_nat (length ps) + 1)) then Some (ps ++ [{| p_name := name; p_dev := dev |}])
  else None.

(** A line of /proc/partitions: its text, and what [sscanf] stored (major,
    minor, name), [None] when it did not return 4. *)
Fixpoint partitions_loop (alloc_ok : Z -> bool) (ps : list partition)
    (lines : list (list Z * option (Z * Z * list Z))) : option (list partition) :=
  match lines with
  | [] => Some ps
  | (buf, scan) :: lines =>
      if negb (bool_decide (head buf = Some 32)) then partitions_loop alloc_ok ps lines else
      match scan with
      | None => None
      | Some (devmaj, devmin, part_name) =>
          ps ← partitions__add_partition alloc_ok ps part_name (MKDEV devmaj devmin);
          partitions_loop alloc_ok ps lines
      end
  end.

Definition partitions__load (alloc_ok : Z -> bool) lines := partitions_loop alloc_ok [] lines.

Fixpoint partitions__get_by_dev (ps : list partition) (dev : Z) : option partition :=
  match ps with
  | [] => None
  | p :: ps => if p_dev p =? dev then Some p else partitions__get_by_dev ps dev
  end.

Fixpoint partitions__get_by_name (ps : list partition) (name : list Z) : option partition :=
  match ps with
  | [] => None
  | p :: ps => if strcmp (p_name p) name =? 0 then Some p else partitions__get_by_name ps name
  end.

(** ** Correctness: symbol tables *)

#[export] Instance sym_le_trans : Transitive sym_le.
Proof.
  intros s1 s2 s3. unfold sym_le, sym_cmp.
  destruct (Z.eqb_spec (sym_start s1) (sym_start s2)), (Z.eqb_spec (sym_start s2) (sym_start s3)),
    (Z.eqb_spec (sym_start s1) (sym_start s3)), (Z.ltb_spec (sym_start s1) (sym_start s2)),
    (Z.ltb_spec (sym_start s2) (sym_start s3)), (Z.ltb_spec (sym_start s1) (sym_start s3)); try lia.
  apply strcmp_trans.
Qed.

#[export] Instance sym_le_total : Total sym_le.
Proof.
  intros s1 s2. unfold sym_le, sym_cmp.
  destruct (Z.eqb_spec (sym_start s1) (sym_start s2)), (Z.eqb_spec (sym_start s2) (sym_start s1)),
    (Z.ltb_spec (sym_start s1) (sym_start s2)), (Z.ltb_spec (sym_start s2) (sym_start s1)); try lia.
  apply strcmp_total.
Qed.

Lemma sym_le_start s1 s2 : sym_le s1 s2 -> sym_start s1 <= sym_start s2.
Proof. unfold sym_le, sym_cmp. zcase; [lia|]. zcase; lia. Qed.

Section ElfSpec.
Context {E Scn Dat : Type} (elf : libelf E Scn Dat).

(** The named symbols with a value, of one data block, section and file. *)
Fixpoint dat_symbols (e : E) (stridx : Z) (dat : Dat) (n : nat) (i : Z) : list sym :=
  match n with
  | O => []
  | S n =>
      match s ← gelf_getsym elf dat i; nm ← elf_strptr elf e stridx (st_name s); Some (s, nm) with
      | Some (s, nm) =>
          if bool_decide (nm = []) || (st_value s =? 0) then dat_symbols e stridx dat n (i + 1)
          else {| sym_name := nm; sym_start := st_value s; sym_size := st_size s |}
                 :: dat_symbols e stridx dat n (i + 1)
      | None => dat_symbols e stridx dat n (i + 1)
      end
  end.

Definition is_symtab (h : shdr) : bool :=
  (sh_type h =? SHT_SYMTAB) || (sh_type h =? SHT_DYNSYM).

Definition scn_symbols (e : E) (s : Scn) : list sym :=
  match gelf_getshdr elf s with
  | Some h =>
      if is_symtab h then
        flat_map (fun dat => dat_symbols e (sh_link h) dat
                               (Z.to_nat (d_size elf dat / sh_entsize h)) 0) (elf_getdata elf s)
      else []
  | None => []
  end.

Definition elf_symbols (e : E) : list sym := flat_map (scn_symbols e) (elf_scns elf e).

(** A section the loader accepts. *)
Definition scn_ok (s : Scn) : Prop :=
  match gelf_getshdr elf s with
  | Some h => is_symtab h = true ->
      sh_entsize h <> 0 /\ Forall (fun dat => d_size elf dat mod sh_entsize h = 0) (elf_getdata elf s)
  | None => True
  end.
End ElfSpec.

Section SymTheorems.
Context {E Scn Dat T : Type} (elf : libelf E Scn Dat) `{!StrTab T} `{!StrTabLaws T}.
Context (alloc_ok : Z -> bool) (vdso_fd : Z).
Hypothesis alloc_all : forall n, alloc_ok n = true.
Hypothesis add_all : forall (t : T) s, 0 <= (btf__add_str t s).1.
Implicit Types (d : dso T).

(** The table under construction holds the symbols [l]. *)
Definition built d (l : list sym) : Prop :=
  d_freed d = false /\
  (d_syms d = SNull /\ l = [] \/
   exists o cap, d_syms d = SBuild o cap /\ mapM (sym_adjust (d_btf d)) o = Some l /\
     Z.of_nat (length o) <= cap /\ l <> []).

Lemma sym_adjust_stable (t : T) s o l :
  mapM (sym_adjust t) o = Some l -> mapM (sym_adjust (btf__add_str t s).2) o = Some l.
Proof.
  intros H. apply mapM_Some in H. apply mapM_Some. eapply Forall2_impl; [exact H|].
  intros x y. unfold sym_adjust. intros (n & Hn & Hy)%bind_Some.
  by rewrite (add_str_stable _ _ _ _ Hn).
Qed.

Lemma dso__add_sym_spec d l nm st sz :
  built d l -> Z.of_nat (length l) < 536870911 ->
  exists d', dso__add_sym alloc_ok d nm st sz = Some (0, d') /\
    built d' (l ++ [{| sym_name := nm; sym_start := st; sym_size := sz |}]).
Proof.
  intros (Hf & Hb) Hl. unfold dso__add_sym.
  pose proof (add_all (d_btf d) nm) as Ho. pose proof (add_str_found (d_btf d) nm Ho) as Hn.
  pose proof (fun o l => sym_adjust_stable (d_btf d) nm o l) as Hst.
  destruct (btf__add_str (d_btf d) nm) as [off btf]. cbn [fst snd] in *.
  destruct (off <? 0) eqn:?; [lia|].
  assert (Ht : exists o cap, sym_table (d_syms d) = (o, cap) /\
            mapM (sym_adjust btf) o = Some l /\ Z.of_nat (length o) <= cap /\ length o = length l).
  { destruct Hb as [[-> ->]|(o & cap & -> & H & Hc & _)]; [by exists [], 0|].
    exists o, cap. split_and!; [done|by apply Hst|done|].
    apply mapM_Some in H. by eapply Forall2_length. }
  destruct Ht as (o & cap & -> & Ho2 & Hc & Hlen).
  assert (Hadj : mapM (sym_adjust btf) (o ++ [{| so_name := off; so_start := st; so_size := sz |}])
    = Some (l ++ [{| sym_name := nm; sym_start := st; sym_size := sz |}])).
  { apply mapM_Some. apply mapM_Some in Ho2. apply Forall2_app; [done|].
    constructor; [|constructor]. unfold sym_adjust. cbn [so_name]. by rewrite Hn. }
  destruct (_ >? cap) eqn:Eg.
  - unfold grow43. destruct (cap * 4 >? INT_MAX) eqn:?; [lia|]. cbn [mbind option_bind].
    rewrite alloc_all. eexists. split; [done|]. split; [done|]. right.
    eexists _, _. split; [done|]. split; [done|]. split; [|by destruct l].
    rewrite length_app. cbn [length]. set (c := if _ <? 1024 then _ else _).
    assert (cap < c <= 1073741823) by (subst c; zcase; Z.to_euclidean_division_equations; lia).
    rewrite swrap_small by (pow2; lia). lia.
  - eexists. split; [done|]. split; [done|]. right. eexists _, _. split; [done|]. split; [done|].
    split; [|by destruct l]. rewrite length_app. cbn [length]. lia.
Qed.

Lemma add_syms_loop_spec e stridx dat n : forall d l i,
  built d l -> Z.of_nat (length l + length (dat_symbols elf e stridx dat n i)) <= 536870911 ->
  exists d', add_syms_loop elf alloc_ok d e stridx dat n i = Some (0, d') /\
    built d' (l ++ dat_symbols elf e stridx dat n i).
Proof.
  induction n as [|n IH]; intros d l i Hb Hl; cbn [add_syms_loop dat_symbols] in *.
  { exists d. by rewrite app_nil_r. }
  destruct (gelf_getsym elf dat i) as [s|]; cbn [mbind option_bind] in *; [|by apply IH].
  destruct (elf_strptr elf e stridx (st_name s)) as [nm|]; cbn [mbind option_bind] in *;
    [|by apply IH].
  destruct (_ || _); [by apply IH|]. cbn [length] in Hl.
  destruct (dso__add_sym_spec d l nm (st_value s) (st_size s) Hb) as (d1 & -> & Hb1); [lia|].
  cbn [mbind option_bind negb Z.eqb].
  destruct (IH d1 _ (i + 1) Hb1) as (d' & -> & Hb'); [rewrite length_app; cbn [length]; lia|].
  exists d'. split; [done|]. by rewrite <- app_assoc in Hb'.
Qed.

Lemma dso__add_syms_spec e stridx symsize dats : forall d l,
  built d l -> symsize <> 0 -> Forall (fun dat => d_size elf dat mod symsize = 0) dats ->
  let new := flat_map (fun dat => dat_symbols elf e stridx dat
                                    (Z.to_nat (d_size elf dat / symsize)) 0) dats in
  Z.of_nat (length l + length new) <= 536870911 ->
  exists d', dso__add_syms elf alloc_ok d e dats stridx symsize = Some (0, d') /\
    built d' (l ++ new).
Proof.
  induction dats as [|dat dats IH]; intros d l Hb Hs Hm new Hl; subst new;
    cbn [dso__add_syms flat_map] in *.
  { exists d. by rewrite app_nil_r. }
  inversion Hm as [|? ? Hm1 Hm2]; subst. destruct (Z.eqb_spec symsize 0); [done|].
  rewrite Hm1. cbn [Z.eqb negb]. rewrite length_app in Hl.
  destruct (add_syms_loop_spec e stridx dat (Z.to_nat (d_size elf dat / symsize)) d l 0 Hb)
    as (d1 & -> & Hb1); [lia|]. cbn [mbind option_bind negb Z.eqb].
  destruct (IH d1 _ Hb1 Hs Hm2) as (d' & -> & Hb'); [rewrite length_app; lia|].
  exists d'. split; [done|]. by rewrite <- app_assoc in Hb'.
Qed.

Lemma load_scns_spec e scns : forall d l,
  built d l -> Forall (scn_ok elf) scns ->
  Z.of_nat (length l + length (flat_map (scn_symbols elf e) scns)) <= 536870911 ->
  exists d', load_scns elf alloc_ok d e scns = Some (0, d') /\
    built d' (l ++ flat_map (scn_symbols elf e) scns).
Proof.
  induction scns as [|s scns IH]; intros d l Hb Hok Hl; cbn [load_scns flat_map] in *.
  { exists d. by rewrite app_nil_r. }
  inversion Hok as [|? ? Hok1 Hok2]; subst. rewrite length_app in Hl.
  unfold scn_symbols at 1 in Hl. unfold scn_symbols at 1. unfold scn_ok in Hok1.
  destruct (gelf_getshdr elf s) as [h|]; [|by apply IH].
  replace (negb (sh_type h =? SHT_SYMTAB) && negb (sh_type h =? SHT_DYNSYM))%bool
    with (negb (is_symtab h)) by (unfold is_symtab; by rewrite negb_orb).
  destruct (is_symtab h); cbn [negb]; [|by apply IH].
  destruct (Hok1 eq_refl) as [H1 H2].
  destruct (dso__add_syms_spec e (sh_link h) (sh_entsize h) (elf_getdata elf s) d l Hb H1 H2)
    as (d1 & -> & Hb1); [lia|]. cbn [mbind option_bind negb Z.eqb].
  destruct (IH d1 _ Hb1 Hok2) as (d' & -> & Hb'); [rewrite length_app; lia|].
  exists d'. split; [done|]. by rewrite <- app_assoc in Hb'.
Qed.

(** C38: resolving an address in a file.  When the symbol table of a
    readable executable or shared object is used for the first time, and no
    request for memory is refused, it is loaded completely (every symbol with a name and a value of every
    symbol and dynamic-symbol section) and the lookup returns the symbol
    with the largest start not above the offset, or nothing if there is
    none; the dso then holds the sorted table, unless the file has no
    symbols. *)
Theorem dso_find_sym_fresh d e offset :
  d_freed d = false -> d_syms d = SNull -> (d_type d = EXEC \/ d_type d = DYN) ->
  open_elf elf (d_name d) = Some e -> Forall (scn_ok elf) (elf_scns elf e) ->
  Z.of_nat (length (elf_symbols elf e)) <= 536870911 ->
  exists r d', dso__find_sym elf alloc_ok vdso_fd d offset = Some (r, d') /\
    greatest_below sym_le sym_start (elf_symbols elf e) offset r /\
    d_freed d' = false /\
    (elf_symbols elf e <> [] -> d_syms d' = SReady (merge_sort sym_le (elf_symbols elf e))).
Proof.
  intros Hf Hs Ht He Hok Hl. unfold dso__find_sym. rewrite Hf, Hs.
  replace (dso__load_sym_table elf alloc_ok vdso_fd d)
    with (dso__load_sym_table_from_elf elf alloc_ok d 0)
    by (unfold dso__load_sym_table; by destruct Ht as [-> | ->]).
  unfold dso__load_sym_table_from_elf. cbn [Z.ltb Z.compare]. rewrite He.
  destruct (load_scns_spec e (elf_scns elf e) d []) as (d1 & -> & Hf1 & Hb1);
    [split; [done|by left]|done|done|]. cbn [mbind option_bind negb Z.eqb app] in *.
  fold (elf_symbols elf e) in Hb1. unfold finish_syms.
  destruct Hb1 as [[Hs1 Hnil]|(o & cap & Hs1 & Hm & _ & Hne)]; rewrite Hs1.
  - cbn [mbind option_bind negb Z.eqb]. rewrite Hs1, Hnil. exists None, d1.
    split_and!; [done| |done|done]. intros s' Hs'. set_solver.
  - rewrite Hm. cbn [mbind option_bind negb Z.eqb set_syms d_syms].
    destruct (search_merge_sort sym_le sym_start (elf_symbols elf e) offset sym_le_start)
      as (r & -> & Hr).
    cbn [mbind option_bind]. exists r, (set_syms (SReady (merge_sort sym_le (elf_symbols elf e))) (d_btf d1) d1).
    split_and!; done.
Qed.
End SymTheorems.

(** A failed load leaves dangling pointers: the next use of the dso has no
    defined result. *)
Lemma dso_find_sym_after_failure {E Scn Dat T} (elf : libelf E Scn Dat) `{!StrTab T}
    alloc_ok vdso_fd (d : dso T) e d1 offset offset' :
  d_freed d = false -> d_syms d = SNull -> d_type d = EXEC ->
  open_elf elf (d_name d) = Some e ->
  load_scns elf alloc_ok d e (elf_scns elf e) = Some (-1, d1) ->
  exists d', dso__find_sym elf alloc_ok vdso_fd d offset = Some (None, d') /\
    dso__find_sym elf alloc_ok vdso_fd d' offset' = None.
Proof.
  intros Hf Hs Ht He Hl. unfold dso__find_sym at 1. rewrite Hf, Hs.
  unfold dso__load_sym_table, dso__load_sym_table_from_elf. rewrite Ht. cbn [Z.ltb Z.compare].
  rewrite He, Hl. cbn [mbind option_bind negb Z.eqb]. eexists. split; [done|]. done.
Qed.

(** An address that is the first of a mapping is not found in it. *)
Lemma find_range_start {T} (d : dso T) r :
  find_range d [r] (start r) = None.
Proof. cbn [find_range]. by rewrite Z.leb_refl. Qed.

(** ** Correctness: mappings *)

Section MapTheorems.
Context {E Scn Dat T : Type} (elf : libelf E Scn Dat) `{!StrTab T}.
Context (alloc_ok : Z -> bool).
Hypothesis alloc_all : forall n, alloc_ok n = true.
Hypothesis text_all : forall p, get_elf_type elf p = ET_DYN -> is_Some (get_elf_text_scn_info elf p).
Implicit Types (d : dso T) (ds : list (dso T)).

Definition range_of (m : map) : load_range :=
  {| start := start_addr m; end_ := end_addr m; file_off := map_off m |}.

(** The executable, file-backed mappings of a listing, with their names. *)
Definition exec_maps (lines : list map_line) : list (list Z * map) :=
  omap (fun l =>
    let name := skip_space (ml_buf l) in
    if bool_decide (ml_perm l !! 2%nat = Some 120) && is_file_backed name
    then Some (name, ml_map l) else None) lines.

Definition ranges_named (n : list Z) (ms : list (list Z * map)) : list load_range :=
  (fun nm => range_of nm.2) <$> filter (fun nm => nm.1 = n) ms.

(** The dsos are those of the mappings [ms]. *)
Definition dsos_of ds (ms : list (list Z * map)) : Prop :=
  NoDup (d_name <$> ds) /\
  Forall (fun d => d_freed d = false /\ d_ranges d = ranges_named (d_name d) ms) ds /\
  (forall n, n ∈ d_name <$> ds <-> n ∈ ms.*1).

Lemma add_dso_finish_spec m n d :
  exists d', add_dso_finish elf alloc_ok m n d = (0, d') /\ d_name d' = d_name d /\
    d_freed d' = d_freed d /\ d_ranges d' = d_ranges d ++ [range_of m].
Proof.
  unfold add_dso_finish. rewrite alloc_all. cbn [negb].
  destruct (get_elf_type elf n =? ET_EXEC); [by eexists|].
  destruct (get_elf_type elf n =? ET_DYN) eqn:Ed; zbool.
  { destruct (text_all n Ed) as [ao ->]. by eexists. }
  destruct (is_perf_map n), (is_vdso n); by eexists.
Qed.

Lemma add_dso_loop_spec m n : forall ds k,
  exists ds', syms__add_dso_loop elf alloc_ok ds m n k = (0, ds') /\
    (n ∈ d_name <$> ds -> d_name <$> ds' = d_name <$> ds) /\
    (n ∉ d_name <$> ds -> d_name <$> ds' = (d_name <$> ds) ++ [n]) /\
    forall ms, Forall (fun d => d_freed d = false /\ d_ranges d = ranges_named (d_name d) ms) ds ->
      NoDup (d_name <$> ds) -> (n ∉ d_name <$> ds -> ranges_named n ms = []) ->
      Forall (fun d => d_freed d = false /\
                       d_ranges d = ranges_named (d_name d) (ms ++ [(n, m)])) ds'.
Proof.
  assert (Happ : forall n' ms, ranges_named n' (ms ++ [(n, m)])
            = ranges_named n' ms ++ if decide (n = n') then [range_of m] else []).
  { intros n' ms. unfold ranges_named. rewrite filter_app, fmap_app. f_equal.
    rewrite filter_cons. cbn [fst]. by case_decide. }
  induction ds as [|d ds IH]; intros k; cbn [syms__add_dso_loop].
  - rewrite alloc_all. destruct (add_dso_finish_spec m n (new_dso n)) as (d' & -> & Hn & Hf & Hr).
    eexists. split; [done|]. cbn. rewrite Hn. split_and!; [set_solver|done|].
    intros ms _ _ H. constructor; [|constructor]. rewrite Hf, Hr, Hn. cbn.
    split; [done|]. rewrite Happ, H by set_solver. by rewrite decide_True.
  - destruct (strcmp (d_name d) n =? 0) eqn:Es; zbool.
    + apply strcmp_eq in Es. destruct (add_dso_finish_spec m n d) as (d' & -> & Hn & Hf & Hr).
      eexists. split; [done|]. rewrite !fmap_cons, Hn. split_and!; [done|set_solver|].
      intros ms Hall Hnd _. inversion Hall as [|? ? [H1 H2] Hall']; subst.
      inversion Hnd as [|? ? Hni Hnd']; subst. constructor.
      { rewrite Hf, Hr, Hn, H2, Happ. by rewrite decide_True. }
      apply Forall_forall. intros d2 Hd2. rewrite Forall_forall in Hall'.
      destruct (Hall' d2 Hd2) as [H3 H4]. split; [done|]. rewrite Happ, decide_False, app_nil_r; [done|].
      intros Heq. apply Hni. rewrite Heq. by apply list_elem_of_fmap_2.
    + assert (Hne : d_name d <> n) by (by rewrite strcmp_eq in Es).
      destruct (IH (k + 1)) as (ds' & -> & H1 & H2 & H3). eexists. split; [done|].
      rewrite !fmap_cons. split_and!.
      * intros Hin. rewrite H1; [done|]. set_solver.
      * intros Hni. rewrite H2; [done|]. set_solver.
      * intros ms Hall Hnd Hemp. inversion Hall as [|? ? [H4 H5] Hall']; subst.
        inversion Hnd as [|? ? Hni Hnd']; subst. constructor.
        { split; [done|]. rewrite Happ, decide_False, app_nil_r by done. done. }
        apply H3; [done|done|]. intros Hn. apply Hemp. set_solver.
Qed.

Lemma add_dso_spec ds ms m n :
  dsos_of ds ms ->
  exists ds', syms__add_dso elf alloc_ok ds m n = (0, ds') /\ dsos_of ds' (ms ++ [(n, m)]).
Proof.
  intros (Hnd & Hall & Hin). unfold syms__add_dso.
  destruct (add_dso_loop_spec m n ds 0) as (ds' & -> & H1 & H2 & H3). exists ds'. split; [done|].
  assert (Hnames : forall x, x ∈ d_name <$> ds' <-> x ∈ d_name <$> ds \/ x = n).
  { intros x. destruct (decide (n ∈ d_name <$> ds)) as [Hd|Hd].
    - rewrite H1 by done. split; [by left|]. by intros [?| ->].
    - rewrite H2 by done. set_solver. }
  split_and!.
  - destruct (decide (n ∈ d_name <$> ds)) as [Hd|Hd]; [by rewrite H1|]. rewrite H2 by done.
    apply NoDup_app. split_and!; [done|set_solver|]. apply NoDup_singleton.
  - apply H3; [done|done|]. intros Hni. rewrite Hin in Hni. unfold ranges_named.
    destruct (filter _ ms) as [|[n' m'] l] eqn:Ef; [done|].
    assert (Hx : (n', m') ∈ filter (fun nm : list Z * map => nm.1 = n) ms)
      by (rewrite Ef; by apply list_elem_of_here).
    apply list_elem_of_filter in Hx as [Heq Hx]. cbn in Heq. subst.
    destruct Hni. by apply (list_elem_of_fmap_2 fst) in Hx.
  - intros x. rewrite Hnames, Hin, fmap_app, elem_of_app. set_solver.
Qed.

Lemma load_file_loop_spec lines : forall ds ms,
  dsos_of ds ms ->
  exists ds', load_file_loop elf alloc_ok ds (Some <$> lines) = Some ds' /\
    dsos_of ds' (ms ++ exec_maps lines).
Proof.
  induction lines as [|l lines IH]; intros ds ms Hd; cbn [load_file_loop fmap list_fmap].
  { exists ds. by rewrite app_nil_r. }
  unfold exec_maps. cbn [omap list_omap].
  destruct (bool_decide (ml_perm l !! 2%nat = Some 120)); cbn [negb andb]; [|by apply IH].
  destruct (is_file_backed (skip_space (ml_buf l))); cbn [negb]; [|by apply IH].
  destruct (add_dso_spec ds ms (ml_map l) (skip_space (ml_buf l)) Hd) as (ds1 & -> & Hd1).
  cbn [negb Z.eqb]. destruct (IH ds1 _ Hd1) as (ds' & -> & Hd'). exists ds'. split; [done|].
  by rewrite <- app_assoc in Hd'.
Qed.

Lemma find_range_None d rs a :
  find_range d rs a = None <-> Forall (fun r => ~ (start r < a < end_ r)) rs.
Proof.
  induction rs as [|r rs IH]; cbn [find_range]; [done|].
  rewrite Forall_cons. zcase.
  - rewrite IH. apply orb_true_iff in Heqb. split; [|tauto]. intros Hr. split; [|done].
    destruct Heqb; zbool; lia.
  - split; [done|]. intros [Hr _]. lia.
Qed.

Lemma find_dso_spec ds a : forall i,
  Forall (fun d => d_freed d = false) ds ->
  exists r, syms__find_dso ds a i = Some r /\
    (r = None <-> Forall (fun d => find_range d (d_ranges d) a = None) ds) /\
    (forall j off, r = Some (j, off) -> exists d, ds !! (j - i)%nat = Some d /\
       (i <= j)%nat /\ find_range d (d_ranges d) a = Some off).
Proof.
  induction ds as [|d ds IH]; intros i Hf; cbn [syms__find_dso]; [by exists None|].
  inversion Hf as [|? ? Hf1 Hf2]; subst. rewrite Hf1.
  destruct (find_range d (d_ranges d) a) as [off|] eqn:Er.
  - eexists. split; [done|]. split; [split; [done|]|].
    { intros Hall. inversion Hall; congruence. }
    intros j off' [= <- <-]. exists d. rewrite Nat.sub_diag. by split_and!.
  - destruct (IH (S i) Hf2) as (r & -> & H1 & H2). exists r. split; [done|]. split.
    + rewrite Forall_cons, H1. split; [done|]. by intros [_ ?].
    + intros j off Hr. destruct (H2 j off Hr) as (d' & Hd' & Hle & Hf'). exists d'.
      split_and!; [|lia|done]. by replace (j - i)%nat with (S (j - S i)) by lia.
Qed.

(** Grouping and finding mappings.  From any listing whose lines all
    scan, [syms__load_file] yields one dso per file name, with exactly the
    executable file-backed mappings of that name as ranges, in order; and
    an address is found by [syms__find_dso] iff it lies strictly inside
    one of these mappings, in a dso with such a range. *)
Theorem load_file_find_dso (lines : list map_line) :
  exists ds, syms__load_file elf alloc_ok (Some <$> lines) = Some ds /\
    NoDup (d_name <$> ds) /\
    Forall (fun d => d_ranges d = ranges_named (d_name d) (exec_maps lines)) ds /\
    (forall n, n ∈ d_name <$> ds <-> n ∈ (exec_maps lines).*1) /\
    forall a, exists r, syms__find_dso ds a 0 = Some r /\
      (r = None <-> Forall (fun nm => ~ (start_addr nm.2 < a < end_addr nm.2)) (exec_maps lines)) /\
      (forall j off, r = Some (j, off) ->
         exists d, ds !! j = Some d /\ find_range d (d_ranges d) a = Some off).
Proof.
  destruct (load_file_loop_spec lines [] []) as (ds & Hl & Hnd & Hall & Hin).
  { split_and!; [constructor|constructor|]. intros n. cbn. set_solver. }
  exists ds. split; [done|]. split; [done|]. cbn [app] in *.
  split; [eapply Forall_impl; [exact Hall|]; by intros ? []|]. split; [done|]. intros a.
  destruct (find_dso_spec ds a 0) as (r & Hr & HN & HS).
  { eapply Forall_impl; [exact Hall|]. by intros ? []. }
  exists r. split; [done|]. split.
  - rewrite HN, !Forall_forall. rewrite Forall_forall in Hall. split.
    + intros H [n m] Hx Hc. cbn [snd] in Hc.
      assert (Hn : n ∈ d_name <$> ds) by (apply Hin; by apply (list_elem_of_fmap_2 fst) in Hx).
      apply list_elem_of_fmap in Hn as (d & -> & Hd). specialize (H d Hd).
      apply find_range_None in H. destruct (Hall d Hd) as [_ Hrr]. rewrite Hrr in H.
      rewrite Forall_forall in H. apply (H (range_of m)); [|done].
      unfold ranges_named. apply list_elem_of_fmap. exists (d_name d, m). split; [done|].
      by apply list_elem_of_filter.
    + intros H d Hd. apply find_range_None. destruct (Hall d Hd) as [_ ->].
      apply Forall_forall. intros x Hx. apply list_elem_of_fmap in Hx as ([n m] & -> & Hx).
      apply list_elem_of_filter in Hx as [_ Hx]. exact (H _ Hx).
  - intros j off Hj. destruct (HS j off Hj) as (d & Hd & _ & Hf). rewrite Nat.sub_0_r in Hd. by exists d.
Qed.
End MapTheorems.

(** ** Correctness: the cache and the partitions *)

Section CacheTheorems.
Context {T : Type} (alloc_ok : Z -> bool) (load : Z -> option (list (dso T))).
Implicit Types (c : syms_cache (T := T)).

(** A sequence of requests. *)
Fixpoint cache_run c (tgids : list Z) : syms_cache :=
  match tgids with
  | [] => c
  | t :: tgids => cache_run (syms_cache__get_syms alloc_ok load c t).2 tgids
  end.

(** Every process once, with what was loaded for it. *)
Definition cache_ok c : Prop :=
  NoDup (data c).*1 /\ Forall (fun e => e.2 = load e.1) (data c).

Lemma get_syms_spec c t :
  cache_ok c ->
  let '(r, c') := syms_cache__get_syms alloc_ok load c t in
  cache_ok c' /\ (data c) `prefix_of` (data c') /\
  (forall i, r = Some i -> data c' !! i = Some (t, load t)) /\
  (r = None -> c' = c /\ ~ (t ∈ (data c).*1) /\ exists n, alloc_ok n = false).
Proof.
  intros [Hnd Hall]. unfold syms_cache__get_syms.
  destruct (list_find _ (data c)) as [[i [t' s]]|] eqn:E.
  - apply list_find_Some in E as (Hi & Ht & _). cbn in Ht. subst t'.
    split_and!; [done|done| |done]. intros j [= <-]. rewrite Hi.
    eapply Forall_lookup_1 in Hall; [|exact Hi]. cbn in Hall. by subst.
  - apply list_find_None in E.
    assert (Hni : t ∉ (data c).*1).
    { intros ([t' s] & Heq & Hx)%list_elem_of_fmap. rewrite Forall_forall in E.
      exact (E _ Hx (eq_sym Heq)). }
    destruct (alloc_ok _) eqn:Ea; cbn [data].
    + split_and!; [split| by apply prefix_app_r| |done].
      * cbn [data]. rewrite fmap_app. apply NoDup_app. cbn. split_and!; [done|set_solver|apply NoDup_singleton].
      * cbn [data]. apply Forall_app. split; [done|]. by repeat constructor.
      * intros i [= <-]. by rewrite lookup_app_r, Nat.sub_diag.
    + split_and!; [done|done|done|]. intros _. split_and!; [done|done|by eexists].
Qed.

Lemma cache_run_ok tgids : forall c, cache_ok c ->
  cache_ok (cache_run c tgids) /\ (data c) `prefix_of` (data (cache_run c tgids)).
Proof.
  induction tgids as [|t tgids IH]; intros c Hc; [done|]. cbn [cache_run].
  pose proof (get_syms_spec c t Hc) as H.
  destruct (syms_cache__get_syms alloc_ok load c t) as [r c']. destruct H as (H1 & H2 & _).
  destruct (IH c' H1) as [H3 H4]. split; [done|]. cbn [snd]. by etrans.
Qed.

(** The cache loads a process once.  From a new cache, after any
    sequence of requests and for any further request for a process already
    asked for successfully at position i, the answer is the same entry i,
    still holding what was loaded for that process, and the cache does not
    change; no process ever has two entries. *)
Theorem syms_cache_stable before t i c1 after :
  syms_cache__get_syms alloc_ok load (cache_run syms_cache__new before) t = (Some i, c1) ->
  let c2 := cache_run c1 after in
  NoDup (data c2).*1 /\ data c2 !! i = Some (t, load t) /\
  syms_cache__get_syms alloc_ok load c2 t = (Some i, c2).
Proof.
  intros Hg c2. assert (H0 : cache_ok syms_cache__new) by (split; constructor).
  destruct (cache_run_ok before _ H0) as [Hb _].
  pose proof (get_syms_spec _ t Hb) as H. rewrite Hg in H. destruct H as (H1 & _ & H2 & _).
  specialize (H2 i eq_refl). destruct (cache_run_ok after c1 H1) as [H3 [tail H4]].
  fold c2 in H3, H4. assert (H5 : data c2 !! i = Some (t, load t)).
  { rewrite H4. apply lookup_app_l_Some. done. }
  split; [apply H3|]. split; [done|].
  pose proof (get_syms_spec c2 t H3) as H. unfold syms_cache__get_syms in *.
  destruct (list_find _ (data c2)) as [[j e]|] eqn:E.
  - destruct H as (_ & _ & H & _). specialize (H j eq_refl). do 2 f_equal.
    destruct H3 as [Hnd _]. eapply (NoDup_lookup _ _ _ _ Hnd).
    + by rewrite list_lookup_fmap, H.
    + by rewrite list_lookup_fmap, H5.
  - apply list_find_None in E. rewrite Forall_forall in E.
    destruct (E (t, load t)); [by eapply list_elem_of_lookup_2|done].
Qed.
End CacheTheorems.

Lemma MKDEV_add ma mi :
  0 <= ma < 4096 -> 0 <= mi < 2 ^ 20 -> MKDEV ma mi = ma * 2 ^ 20 + mi.
Proof.
  intros Ha Hb. unfold MKDEV. rewrite wrap_small by (rewrite Z.shiftl_mul_pow2 by lia; pow2; lia).
  assert (Hl : Z.land (Z.shiftl ma 20) mi = 0).
  { rewrite <- (Z.mod_small mi (2 ^ 20)) by lia. rewrite <- Z.land_ones by lia.
    rewrite (Z.land_comm mi), Z.land_assoc, Z.land_ones by lia.
    rewrite Z.shiftl_mul_pow2, Z_mod_mult by lia. done. }
  rewrite <- Z.lxor_lor, <- Z.add_nocarry_lxor by done. by rewrite Z.shiftl_mul_pow2 by lia.
Qed.

(** A line of /proc/partitions that names a partition. *)
Definition part_line (buf : list Z) (p : Z * Z * list Z) : list Z * option (Z * Z * list Z) :=
  (32 :: buf, Some p).

Definition part_ok (p : Z * Z * list Z) : Prop := 0 <= p.1.1 < 4096 /\ 0 <= p.1.2 < 2 ^ 20.

Lemma partitions_loop_app alloc_ok ls : forall ps,
  (forall n, alloc_ok n = true) ->
  partitions_loop alloc_ok ps (zip_with part_line (ls.*1) (ls.*2))
  = Some (ps ++ ((fun p => {| p_name := p.2; p_dev := MKDEV p.1.1 p.1.2 |}) <$> ls.*2)).
Proof.
  induction ls as [|[buf [[ma mi] nm]] ls IH]; intros ps Ha; cbn; [by rewrite app_nil_r|].
  rewrite bool_decide_true by done. unfold partitions__add_partition. rewrite Ha. cbn.
  rewrite IH by done. by rewrite <- app_assoc.
Qed.

(** Partitions by device number.  From a listing of partitions with
    major numbers below 4096 and minor numbers below 2^20, the partition
    found for a device number is the first of the listing with that major
    and minor, and none is found for a device that is not listed. *)
Theorem partitions_by_dev alloc_ok ls ma mi :
  (forall n, alloc_ok n = true) -> Forall part_ok ls.*2 ->
  0 <= ma < 4096 -> 0 <= mi < 2 ^ 20 ->
  exists ps, partitions__load alloc_ok (zip_with part_line ls.*1 ls.*2) = Some ps /\
    p_name <$> partitions__get_by_dev ps (MKDEV ma mi)
    = snd <$> head (filter (fun p => p.1 = (ma, mi)) ls.*2).
Proof.
  intros Ha Hok Hma Hmi. unfold partitions__load. rewrite partitions_loop_app by done.
  eexists. split; [done|]. cbn [app]. induction ls.*2 as [|[[a b] nm] l IH]; [done|].
  inversion Hok as [|? ? [H1 H2] Hok']; subst. cbn [fst snd] in *.
  rewrite filter_cons. cbn [fmap list_fmap partitions__get_by_dev p_dev fst snd].
  rewrite !MKDEV_add by done. destruct (Z.eqb_spec (a * 2 ^ 20 + b) (ma * 2 ^ 20 + mi)) as [He|He].
  - assert (a = ma /\ b = mi) as [-> ->] by lia. by rewrite decide_True.
  - rewrite decide_False by (intros [= -> ->]; done). rewrite <- MKDEV_add by done. by apply IH.
Qed.

(** ** Concrete runs *)

(** One section with a nameless symbol and the symbols a and b. *)
Definition ex_elf : libelf unit unit unit := {|
  open_elf := fun _ => Some tt; open_elf_by_fd := fun _ => Some tt;
  gelf_getehdr := fun _ => Some ET_EXEC; elf_getshdrstrndx := fun _ => Some 0;
  elf_scns := fun _ => [tt];
  gelf_getshdr := fun _ => Some {| sh_name := 0; sh_type := SHT_SYMTAB; shdr_addr := 0;
                                   shdr_offset := 0; sh_link := 0; sh_entsize := 24 |};
  elf_strptr := fun _ _ o => if o =? 0 then Some [] else Some [96 + o];
  elf_getdata := fun _ => [tt]; d_size := fun _ => 72;
  gelf_getsym := fun _ i => Some {| st_name := i; st_value := 1000 - 100 * i; st_size := 8 |} |}.

(** A string table that numbers its strings. *)
#[export] Instance list_strtab : StrTab (list (list Z)) := {
  btf__new_empty := [];
  btf__add_str t s := (Z.of_nat (length t), t ++ [s]);
  btf__name_by_offset t o := aref t o;
}.

#[export] Instance list_strtab_laws : StrTabLaws (list (list Z)).
Proof.
  split.
  - intros t s _. cbn. rewrite aref_nat. by rewrite lookup_app_r, Nat.sub_diag.
  - intros t s o n. cbn. unfold aref. zcase; [done|]. apply lookup_app_l_Some.
Qed.

Lemma list_strtab_total (t : list (list Z)) s : 0 <= (btf__add_str t s).1.
Proof. cbn. lia. Qed.

Definition ex_dso : dso (list (list Z)) := new_dso (lit "/bin/true").

Lemma dso_find_sym_fresh_witness :
  exists r d', dso__find_sym ex_elf (fun _ => true) (-1) ex_dso 850 = Some (r, d') /\
    r = Some {| sym_name := lit "b"; sym_start := 800; sym_size := 8 |}.
Proof.
  destruct (dso_find_sym_fresh (T := list (list Z)) ex_elf (fun _ => true) (-1) (fun _ => eq_refl)
              list_strtab_total ex_dso tt 850) as (r & d' & H1 & _).
  - reflexivity.
  - reflexivity.
  - left. reflexivity.
  - reflexivity.
  - repeat constructor; discriminate.
  - vm_compute. discriminate.
  - exists r, d'. split; [exact H1|]. vm_compute in H1. injection H1 as <- _. reflexivity.
Defined.

Definition ex_line (perm path : string) (lo hi : Z) : map_line :=
  {| ml_map := {| start_addr := lo; end_addr := hi; map_off := 0; dev_major := 8; dev_minor := 1;
                  inode := 7 |};
     ml_perm := lit perm; ml_buf := lit path |}.

Definition ex_lines : list map_line :=
  [ex_line "r-xp" "  /bin/a" 4096 8192; ex_line "rw-p" "  /bin/a" 8192 12288;
   ex_line "r-xp" "  [heap]" 12288 16384; ex_line "r-xp" "  /lib/b" 65536 69632].

Lemma load_file_find_dso_witness :
  exists ds : list (dso (list (list Z))),
    syms__load_file ex_elf (fun _ => true) (Some <$> ex_lines) = Some ds /\ length ds = 2%nat.
Proof.
  destruct (load_file_find_dso (T := list (list Z)) ex_elf (fun _ => true) (fun _ => eq_refl)) with (lines := ex_lines)
    as (ds & H & _).
  - intros p. unfold get_elf_type. destruct (is_vdso p); discriminate.
  - exists ds. split; [exact H|]. vm_compute in H. injection H as <-. reflexivity.
Defined.

Lemma syms_cache_stable_witness :
  let c2 := cache_run (T := list (list Z)) (fun _ => true) (fun _ => None)
              {| data := [(7, None); (9, None)] |} [11; 7] in
  syms_cache__get_syms (fun _ => true) (fun _ => None) c2 9 = (Some 1%nat, c2).
Proof.
  destruct (syms_cache_stable (T := list (list Z)) (fun _ => true) (fun _ => None) [7] 9 1
              {| data := [(7, None); (9, None)] |} [11; 7]) as (_ & _ & H).
  - reflexivity.
  - exact H.
Defined.

Lemma partitions_by_dev_witness :
  exists ps, partitions__load (fun _ => true)
      (zip_with part_line [[]; []] [(8, 0, lit "sda"); (8, 1, lit "sda1")]) = Some ps /\
    p_name <$> partitions__get_by_dev ps (MKDEV 8 1) = Some (lit "sda1").
Proof.
  destruct (partitions_by_dev (fun _ => true) [([], (8, 0, lit "sda")); ([], (8, 1, lit "sda1"))] 8 1)
    as (ps & H1 & H2).
  - reflexivity.
  - repeat constructor; vm_compute; congruence.
  - lia.
  - lia.
  - exists ps. split; [exact H1|]. rewrite H2. reflexivity.
Defined.
