(* ===== verification/Hashmap.v ===== *)
(** * The generic hash map (src/plugin/libbpf-test/libbpf/src/hashmap.c, .h)

    Chained buckets, a power-of-two capacity, growth at 75%.  A chain is the
    list of its entries from the bucket's head; [buckets = []] is the NULL
    pointer.  [hash_fn] and [equal_fn] are arguments of the operations (the
    C map keeps them with a context pointer, and the context may change
    between calls).  Allocation is the parameter [alloc_ok].  An outer
    [None] is undefined behaviour.

    The abstract specification is a finite map from the class of a key
    ([canon]) to the stored pair; the operations other than APPEND refine
    it. *)

From S2P Require Import Prelude.

Definition HASHMAP_MIN_CAP_BITS : Z := 2.

(** [hash_bits] on LP64. *)
Definition hash_bits (h bits : Z) : Z :=
  if bits =? 0 then 0 else Z.shiftr (u64 (h * 11400714819323198485)) (64 - bits).

(** [str_hash]: [char] is signed. *)
Definition str_hash (s : list Z) : Z :=
  fold_left (fun h c => u64 (h * 31 + swrap 8 c)) s 0.

Inductive hashmap_insert_strategy := HASHMAP_ADD | HASHMAP_SET | HASHMAP_UPDATE | HASHMAP_APPEND.

Record hashmap (K V : Type) := {
  buckets : list (list (K * V));
  cap : Z;
  cap_bits : Z;
  sz : Z;
}.
Arguments buckets {K V} _.
Arguments cap {K V} _.
Arguments cap_bits {K V} _.
Arguments sz {K V} _.
Arguments Build_hashmap {K V} _ _ _ _.

Section Hashmap.
Context {K V : Type}.
Implicit Types (map : hashmap K V).

Definition hashmap__init : hashmap K V := {| buckets := []; cap := 0; cap_bits := 0; sz := 0 |}.

(** [hashmap__clear] leaves an initial map. *)
Definition hashmap__clear map : hashmap K V :=
  {| buckets := []; cap := 0; cap_bits := 0; sz := 0 |}.

Definition hashmap__size map : Z := sz map.
Definition hashmap__capacity map : Z := cap map.

Definition hashmap_needs_to_grow map : bool :=
  (cap map =? 0) || (u64 ((sz map + 1) * 4) / 3 >? cap map).

Context (alloc_ok : Z -> bool) (hash_fn : K -> Z) (equal_fn : K -> K -> bool).

(** [hashmap_add_entry(&buckets[h], entry)]. *)
Definition hashmap_add_entry (bs : list (list (K * V))) (h : Z) (e : K * V)
    : option (list (list (K * V))) :=
  b ← aref bs h; aset bs h (e :: b).

(** Moving the entries, in iteration order, to the new buckets. *)
Fixpoint rehash (es : list (K * V)) (bits : Z) (bs : list (list (K * V)))
    : option (list (list (K * V))) :=
  match es with
  | [] => Some bs
  | e :: es => bs ← hashmap_add_entry bs (hash_bits (hash_fn e.1) bits) e; rehash es bits bs
  end.

(** [Some (err, map)]; [for_each_entry] visits the buckets in order. *)
Definition hashmap_grow map : option (Z * hashmap K V) :=
  let new_cap_bits := cap_bits map + 1 in
  let new_cap_bits :=
    if new_cap_bits <? HASHMAP_MIN_CAP_BITS then HASHMAP_MIN_CAP_BITS else new_cap_bits in
  if 64 <=? new_cap_bits then None else
  let new_cap := Z.shiftl 1 new_cap_bits in
  if negb (alloc_ok (8 * new_cap)) then Some (- ENOMEM, map) else
  bs ← rehash (concat (buckets map)) new_cap_bits (replicate (Z.to_nat new_cap) []);
  Some (0, {| buckets := bs; cap := new_cap; cap_bits := new_cap_bits; sz := sz map |}).

(** Position in the chain and entry; [Some None] is [false]. *)
Definition hashmap_find_entry map (key : K) (hash : Z) : option (option (nat * (K * V))) :=
  match buckets map with
  | [] => Some None
  | bs => b ← aref bs hash; Some (list_find (fun e => equal_fn e.1 key = true) b)
  end.

Definition set_chain map (h : Z) (b : list (K * V)) (n : Z) : option (hashmap K V) :=
  bs ← aset (buckets map) h b;
  Some {| buckets := bs; cap := cap map; cap_bits := cap_bits map; sz := n |}.

(** The insertion proper, once no entry stands in the way. *)
Definition insert_new map (key : K) (value : V) : option (Z * hashmap K V) :=
  '(err, map) ← (if hashmap_needs_to_grow map then hashmap_grow map else Some (0, map));
  if negb (err =? 0) then Some (err, map) else
  let h := hash_bits (hash_fn key) (cap_bits map) in
  if negb (alloc_ok 24) then Some (- ENOMEM, map) else
  b ← aref (buckets map) h;
  map ← set_chain map h ((key, value) :: b) (u64 (sz map + 1));
  Some (0, map).

(** Return value, [*old_key] and [*old_value], and the map. *)
Definition hashmap__insert map (key : K) (value : V) (strategy : hashmap_insert_strategy)
    : option (Z * option (K * V) * hashmap K V) :=
  let h := hash_bits (hash_fn key) (cap_bits map) in
  found ← (match strategy with
           | HASHMAP_APPEND => Some None
           | _ => hashmap_find_entry map key h
           end);
  match found, strategy with
  | Some (i, e), (HASHMAP_SET | HASHMAP_UPDATE) =>
      b ← aref (buckets map) h;
      map ← set_chain map h (<[i := (key, value)]> b) (sz map);
      Some (0, Some e, map)
  | Some (i, e), HASHMAP_ADD => Some (- EEXIST, Some e, map)
  | _, HASHMAP_UPDATE => Some (- ENOENT, None, map)
  | _, _ => '(err, map) ← insert_new map key value; Some (err, None, map)
  end.

Definition hashmap__find map (key : K) : option (option V) :=
  let h := hash_bits (hash_fn key) (cap_bits map) in
  found ← hashmap_find_entry map key h;
  Some (match found with Some (_, e) => Some e.2 | None => None end).

Definition hashmap__delete map (key : K) : option (bool * option (K * V) * hashmap K V) :=
  let h := hash_bits (hash_fn key) (cap_bits map) in
  found ← hashmap_find_entry map key h;
  match found with
  | None => Some (false, None, map)
  | Some (i, e) =>
      b ← aref (buckets map) h;
      map ← set_chain map h (delete i b) (u64 (sz map - 1));
      Some (true, Some e, map)
  end.
End Hashmap.

(** ** Correctness *)

Lemma hash_bits_range h bits : 0 <= bits <= 64 -> 0 <= hash_bits h bits < 2 ^ bits.
Proof.
  intros Hb. unfold hash_bits. destruct (Z.eqb_spec bits 0) as [->|]; [done|].
  rewrite Z.shiftr_div_pow2 by lia.
  pose proof (wrap_range 64 (h * 11400714819323198485) ltac:(lia)).
  pose proof (Z.pow_pos_nonneg 2 (64 - bits) ltac:(lia) ltac:(lia)).
  split; [apply Z.div_pos; lia|]. apply Z.div_lt_upper_bound; [done|].
  rewrite <- Z.pow_add_r by lia. replace (64 - bits + bits) with 64 by lia. lia.
Qed.

(** Replacing one chain. *)
Lemma concat_insert {A} (l : list (list A)) i b :
  l !! i = Some b -> exists rest, concat l ≡ₚ b ++ rest /\
    forall b', concat (<[i := b']> l) ≡ₚ b' ++ rest.
Proof.
  revert i. induction l as [|x l IH]; intros [|i] H; simplify_eq/=.
  - exists (concat l). done.
  - destruct (IH i H) as (rest & H1 & H2). exists (x ++ rest). split.
    + rewrite H1. apply Permutation_app_swap_app.
    + intros b'. rewrite H2. apply Permutation_app_swap_app.
Qed.

Lemma delete_insert_list {A} (l : list A) i x : base.delete i (<[i := x]> l) = base.delete i l.
Proof. revert i. induction l as [|y l IH]; intros [|i]; cbn; [done..|]. f_equal. apply IH. Qed.

Section Refinement.
Context {K V C : Type} `{Countable C} (canon : K -> C).
Context (alloc_ok : Z -> bool) (hash_fn : K -> Z) (equal_fn : K -> K -> bool).
(** Keys are equal when they stand for the same thing, and then they hash
    alike. *)
Hypothesis equal_canon : forall k1 k2, equal_fn k1 k2 = bool_decide (canon k1 = canon k2).
Hypothesis hash_canon : forall k1 k2, canon k1 = canon k2 -> hash_fn k1 = hash_fn k2.
Implicit Types (map : hashmap K V) (g : gmap C (K * V)).

Definition entries map : list (K * V) := concat (buckets map).

Definition pairs (es : list (K * V)) : list (C * (K * V)) := (fun e => (canon e.1, e)) <$> es.

(** Every entry is in the bucket its hash selects. *)
Definition placed (bits : Z) (bs : list (list (K * V))) : Prop :=
  forall (i : nat) b e, bs !! i = Some b -> e ∈ b -> hash_bits (hash_fn e.1) bits = Z.of_nat i.

Definition shape map : Prop :=
  (buckets map = [] /\ cap map = 0 /\ cap_bits map = 0) \/
  (2 <= cap_bits map < 64 /\ cap map = 2 ^ cap_bits map /\
   Z.of_nat (length (buckets map)) = cap map).

(** The representation: a well-formed map whose entries are those of [g]. *)
Definition repr map g : Prop :=
  shape map /\ placed (cap_bits map) (buckets map) /\
  sz map = Z.of_nat (length (entries map)) /\ sz map < 2 ^ 60 /\
  NoDup (canon ∘ fst <$> entries map) /\ g = list_to_map (pairs (entries map)).

Lemma repr_init : repr hashmap__init ∅.
Proof. split_and!; [by left|intros [|i] b e Hx; done|done|done|constructor|done]. Qed.

Lemma pairs_fst es : (pairs es).*1 = canon ∘ fst <$> es.
Proof. unfold pairs. rewrite <- list_fmap_compose. done. Qed.

Lemma repr_lookup map g c e :
  repr map g -> (g !! c = Some e <-> e ∈ entries map /\ canon e.1 = c).
Proof.
  intros (_ & _ & _ & _ & Hnd & ->).
  rewrite <- elem_of_list_to_map by (by rewrite pairs_fst). unfold pairs.
  rewrite list_elem_of_fmap. naive_solver.
Qed.

(** The chain a key selects exists, and holds every entry of its class. *)
Lemma chain_exists map key :
  shape map -> buckets map <> [] ->
  0 <= hash_bits (hash_fn key) (cap_bits map) < Z.of_nat (length (buckets map)).
Proof.
  intros [(? & _)|(Hb & Hc & Hl)] Hne; [done|]. rewrite Hl, Hc. apply hash_bits_range. lia.
Qed.

Lemma find_entry_spec map g key :
  repr map g ->
  exists r, hashmap_find_entry equal_fn map key (hash_bits (hash_fn key) (cap_bits map)) = Some r /\
    match r with
    | None => g !! canon key = None
    | Some (i, e) => g !! canon key = Some e /\
        exists b, aref (buckets map) (hash_bits (hash_fn key) (cap_bits map)) = Some b /\ b !! i = Some e
    end.
Proof.
  intros Hr. pose proof Hr as (Hs & Hp & _). unfold hashmap_find_entry.
  destruct (decide (buckets map = [])) as [E|E].
  { rewrite E. exists None. split; [done|]. apply eq_None_ne_Some. intros e.
    rewrite (repr_lookup _ _ _ _ Hr). unfold entries. rewrite E. set_solver. }
  destruct (aref_Some (buckets map) (hash_bits (hash_fn key) (cap_bits map))) as [b Hb];
    [by apply chain_exists|].
  assert (Hb' : buckets map !! Z.to_nat (hash_bits (hash_fn key) (cap_bits map)) = Some b).
  { unfold aref in Hb. by destruct (_ <? 0). }
  pose proof (chain_exists map key Hs E) as Hh.
  destruct (buckets map) as [|b0 bs] eqn:Eb; [done|]. rewrite <- Eb in *. rewrite Hb.
  cbn [mbind option_bind]. eexists. split; [done|].
  destruct (list_find _ b) as [[i e]|] eqn:El.
  - apply list_find_Some in El as (Hi & He & _). rewrite equal_canon, bool_decide_eq_true in He.
    split; [|by exists b]. apply (repr_lookup _ _ _ _ Hr). split; [|done].
    unfold entries. apply list_elem_of_In, in_concat. exists b. split; apply list_elem_of_In.
    + by eapply list_elem_of_lookup_2.
    + by eapply list_elem_of_lookup_2.
  - apply list_find_None in El. apply eq_None_ne_Some. intros e He.
    apply (repr_lookup _ _ _ _ Hr) in He as [Hin Hc]. unfold entries in Hin.
    apply list_elem_of_In, in_concat in Hin as (b' & Hb1 & Hb2).
    apply list_elem_of_In in Hb1, Hb2. apply list_elem_of_lookup_1 in Hb1 as [j Hj].
    pose proof (Hp j b' e Hj Hb2) as Hpl. rewrite (hash_canon _ _ Hc) in Hpl.
    assert (j = Z.to_nat (hash_bits (hash_fn key) (cap_bits map))) as -> by lia.
    simplify_eq. rewrite Forall_forall in El. apply (El e Hb2).
    rewrite equal_canon. by apply bool_decide_true.
Qed.

Lemma placed_insert bits bs (i : nat) b' :
  placed bits bs -> (forall e, e ∈ b' -> hash_bits (hash_fn e.1) bits = Z.of_nat i) ->
  placed bits (<[i := b']> bs).
Proof.
  intros Hp Hb j b e Hj He. apply list_lookup_insert_Some in Hj as [(-> & -> & _)|[_ Hj]].
  - by apply Hb.
  - by eapply Hp.
Qed.

Lemma rehash_spec bits es : forall bs,
  0 <= bits <= 64 -> Z.of_nat (length bs) = 2 ^ bits -> placed bits bs ->
  exists bs', rehash hash_fn es bits bs = Some bs' /\ length bs' = length bs /\
    placed bits bs' /\ concat bs' ≡ₚ es ++ concat bs.
Proof.
  induction es as [|e es IH]; intros bs Hbits Hl Hp; cbn [rehash]; [by exists bs|].
  pose proof (hash_bits_range (hash_fn e.1) bits Hbits) as Hr. unfold hashmap_add_entry.
  destruct (aref_Some bs (hash_bits (hash_fn e.1) bits)) as [b Hb]; [lia|]. rewrite Hb.
  cbn [mbind option_bind]. rewrite aset_Some by lia. cbn [mbind option_bind].
  unfold aref in Hb. destruct (_ <? 0); [done|].
  set (h := Z.to_nat (hash_bits (hash_fn e.1) bits)) in *.
  destruct (IH (<[h := e :: b]> bs)) as (bs' & -> & Hl' & Hp' & Hc); [done|by rewrite length_insert| |].
  - apply placed_insert; [done|]. intros e' [->|He']%elem_of_cons; [lia|].
    by rewrite (Hp h b e') by done.
  - exists bs'. split; [done|]. rewrite length_insert in Hl'. split; [done|]. split; [done|].
    destruct (concat_insert bs h b Hb) as (rest & H1 & H2). rewrite Hc, H2, H1.
    cbn [app]. symmetry. apply Permutation_middle.
Qed.

Lemma repr_permute map map' g :
  repr map g -> shape map' -> placed (cap_bits map') (buckets map') ->
  entries map' ≡ₚ entries map -> sz map' = sz map -> repr map' g.
Proof.
  intros (_ & _ & Hz & Hm & Hnd & ->) Hs Hp He Hsz. split_and!; [done|done| |lia| |].
  - by rewrite He, Hsz.
  - by rewrite He.
  - symmetry. apply list_to_map_proper; [|unfold pairs; by rewrite He].
    rewrite pairs_fst. by rewrite He.
Qed.

Lemma grow_spec map g :
  repr map g -> hashmap_needs_to_grow map = true ->
  exists err map', hashmap_grow alloc_ok hash_fn map = Some (err, map') /\ repr map' g /\
    (err = 0 /\ buckets map' <> [] \/ err = - ENOMEM /\ exists n, alloc_ok n = false).
Proof.
  intros Hr Hg. pose proof Hr as (Hs & Hp & Hz & Hm & _). unfold hashmap_grow, HASHMAP_MIN_CAP_BITS.
  set (bits := if _ <? 2 then 2 else _).
  assert (Hb : 2 <= bits < 62).
  { subst bits. destruct Hs as [(_ & _ & ->)|(Hb & Hc & _)]; [done|].
    unfold hashmap_needs_to_grow in Hg.
    assert (cap_bits map < 61).
    { apply (Z.pow_lt_mono_r_iff 2); [lia|lia|]. rewrite <- Hc.
      rewrite wrap_small in Hg by (pow2; lia).
      change (2 ^ 61) with 2305843009213693952. apply orb_true_iff in Hg as [Hg|Hg].
      - lia.
      - Z.to_euclidean_division_equations. lia. }
    zcase; lia. }
  destruct (64 <=? bits) eqn:?; [lia|]. rewrite Z.shiftl_1_l.
  destruct (alloc_ok (8 * 2 ^ bits)) eqn:Ea; cbn [negb].
  2: { eexists _, _. split; [done|]. split; [done|]. right. split; [done|]. by eexists. }
  pose proof (Z.pow_pos_nonneg 2 bits ltac:(lia) ltac:(lia)).
  destruct (rehash_spec bits (concat (buckets map)) (replicate (Z.to_nat (2 ^ bits)) []))
    as (bs & -> & Hl & Hp' & Hc).
  { lia. }
  { rewrite length_replicate. lia. }
  { intros j b e Hj He. apply lookup_replicate in Hj as [-> _]. set_solver. }
  cbn [mbind option_bind]. rewrite length_replicate in Hl. eexists _, _. split; [done|]. split.
  - apply (repr_permute map); [done| |done| |done].
    + right. cbn [buckets cap cap_bits]. split_and!; [lia|lia|done|]. rewrite Hl. lia.
    + unfold entries. cbn [buckets]. rewrite Hc.
      replace (concat (replicate (Z.to_nat (2 ^ bits)) [])) with ([] : list (K * V));
        [by rewrite app_nil_r|].
      symmetry. clear. induction (Z.to_nat (2 ^ bits)); done.
  - left. split; [done|]. cbn [buckets]. intros ->. simpl in Hl. lia.
Qed.

(** Putting a new chain in place of the one a key selects. *)
Lemma set_chain_spec map g key b b' n :
  repr map g -> buckets map <> [] ->
  aref (buckets map) (hash_bits (hash_fn key) (cap_bits map)) = Some b ->
  (forall e, e ∈ b' -> e ∈ b \/ canon e.1 = canon key) ->
  exists map' rest, set_chain map (hash_bits (hash_fn key) (cap_bits map)) b' n = Some map' /\
    shape map' /\ placed (cap_bits map') (buckets map') /\ sz map' = n /\
    entries map ≡ₚ b ++ rest /\ entries map' ≡ₚ b' ++ rest.
Proof.
  intros (Hs & Hp & _) Hne Hb Hin. pose proof (chain_exists map key Hs Hne) as Hh.
  unfold set_chain. rewrite aset_Some by done. cbn [mbind option_bind].
  unfold aref in Hb. destruct (_ <? 0); [done|].
  destruct (concat_insert _ _ _ Hb) as (rest & H1 & H2).
  eexists _, rest. split; [done|]. unfold entries, shape. cbn [buckets cap cap_bits sz].
  split_and!; [|  |done|done|apply H2].
  - destruct Hs as [(? & _)|(H3 & H4 & H5)]; [done|]. right. by rewrite length_insert.
  - apply placed_insert; [done|]. rewrite Z2Nat.id by lia. intros e [He|He]%Hin.
    + rewrite (Hp _ _ _ Hb He). lia.
    + by rewrite (hash_canon _ _ He).
Qed.

Lemma repr_cons map g e rest :
  shape map -> placed (cap_bits map) (buckets map) -> entries map ≡ₚ e :: rest ->
  sz map = Z.of_nat (S (length rest)) -> sz map < 2 ^ 60 ->
  NoDup (canon ∘ fst <$> rest) -> (canon e.1 ∉ (canon ∘ fst <$> rest)) ->
  g = <[canon e.1 := e]> (list_to_map (pairs rest)) -> repr map g.
Proof.
  intros Hs Hp He Hz Hm Hnd Hni ->.
  assert (Hnd' : NoDup (canon ∘ fst <$> e :: rest)) by (cbn; by constructor).
  split_and!; [done|done| |done| |].
  - by rewrite He.
  - by rewrite He.
  - change (<[canon e.1:=e]> (list_to_map (pairs rest))) with
      (list_to_map (pairs (e :: rest)) : gmap C (K * V)).
    symmetry. apply list_to_map_proper; [|unfold pairs; by rewrite He]. rewrite pairs_fst.
    by rewrite He.
Qed.

Lemma insert_new_spec map g key value :
  repr map g -> g !! canon key = None -> sz map + 1 < 2 ^ 60 ->
  exists err map', insert_new alloc_ok hash_fn map key value = Some (err, map') /\
    (err = 0 /\ repr map' (<[canon key := (key, value)]> g) \/
     err = - ENOMEM /\ repr map' g /\ exists n, alloc_ok n = false).
Proof.
  intros Hr Hn Hm. unfold insert_new.
  assert (exists err map1, (if hashmap_needs_to_grow map then hashmap_grow alloc_ok hash_fn map
                            else Some (0, map)) = Some (err, map1) /\ repr map1 g /\
    (err = 0 /\ buckets map1 <> [] \/ err = - ENOMEM /\ exists n, alloc_ok n = false))
    as (err & map1 & -> & Hr1 & Hc).
  { destruct (hashmap_needs_to_grow map) eqn:Eg; [by apply grow_spec|].
    exists 0, map. split; [done|]. split; [done|]. left. split; [done|]. intros Eb.
    destruct Hr as ([(_ & Hc & _)|(Hb & Hc & Hl)] & _).
    - unfold hashmap_needs_to_grow in Eg. rewrite Hc in Eg. done.
    - rewrite Eb in Hl. pose proof (Z.pow_pos_nonneg 2 (cap_bits map)). simpl in Hl. lia. }
  cbn [mbind option_bind]. destruct Hc as [[-> Hne]|[-> Ha]]; cbn [Z.eqb Pos.eqb Z.opp negb].
  2: { eexists _, _. split; [done|]. right. done. }
  destruct (alloc_ok 24) eqn:Ea; cbn [negb].
  2: { eexists _, _. split; [done|]. right. split_and!; [done|done|by eexists]. }
  pose proof Hr1 as (Hs1 & Hp1 & Hz1 & Hm1 & Hnd1 & Hg1).
  pose proof Hr as (_ & _ & Hz & _ & _ & Hg).
  assert (Hsz : sz map1 = sz map).
  { rewrite Hz1, Hz, <- (length_fmap (canon ∘ fst) (entries map1)),
      <- (length_fmap (canon ∘ fst) (entries map)).
    apply f_equal, Permutation_length, NoDup_Permutation; [done|apply Hr|].
    intros c. rewrite !list_elem_of_fmap. split; intros (e & -> & He).
    - assert (E : g !! canon e.1 = Some e) by (by apply (repr_lookup _ _ _ _ Hr1)).
      apply (repr_lookup _ _ _ _ Hr) in E as [E _]. by exists e.
    - assert (E : g !! canon e.1 = Some e) by (by apply (repr_lookup _ _ _ _ Hr)).
      apply (repr_lookup _ _ _ _ Hr1) in E as [E _]. by exists e. }
  destruct (aref_Some (buckets map1) (hash_bits (hash_fn key) (cap_bits map1))) as [b Hb];
    [by apply chain_exists|]. rewrite Hb. cbn [mbind option_bind].
  destruct (set_chain_spec map1 g key b ((key, value) :: b) (u64 (sz map1 + 1)) Hr1 Hne Hb)
    as (map' & rest & -> & Hs' & Hp' & Hz' & H1 & H2).
  { intros e [->|He]%elem_of_cons; [by right|by left]. }
  cbn [mbind option_bind]. eexists _, _. split; [done|]. left. split; [done|].
  rewrite wrap_small in Hz' by (rewrite Hz1; pow2; lia).
  apply (repr_cons map' _ (key, value) (entries map1)); cbn [fst]; try done.
  - rewrite H2, H1. done.
  - rewrite Hz', Hz1. lia.
  - lia.
  - intros Hin. apply list_elem_of_fmap in Hin as (e & He1 & He2).
    assert (E : g !! canon key = Some e) by (apply (repr_lookup _ _ _ _ Hr1); done). congruence.
  - by rewrite Hg1.
Qed.

(** [hashmap__insert] with HASHMAP_ADD, as its users need it. *)
Lemma hashmap_add_spec map g k v :
  repr map g -> sz map + 1 < 2 ^ 60 ->
  exists err old map', hashmap__insert alloc_ok hash_fn equal_fn map k v HASHMAP_ADD
      = Some (err, old, map') /\
    (err = - EEXIST /\ map' = map /\ (exists e, old = Some e /\ g !! canon k = Some e) \/
     err = 0 /\ g !! canon k = None /\ repr map' (<[canon k := (k, v)]> g) \/
     err = - ENOMEM /\ g !! canon k = None /\ repr map' g /\ exists n, alloc_ok n = false).
Proof.
  intros Hr Hm. unfold hashmap__insert.
  destruct (find_entry_spec map g k Hr) as (f & -> & Hspec). cbn [mbind option_bind].
  destruct f as [[i e]|].
  - destruct Hspec as (Hg & _). eexists _, _, _. split; [done|]. left. split_and!; [done|done|by exists e].
  - destruct (insert_new_spec map g k v Hr Hspec Hm) as (err & map' & -> & Hc).
    cbn [mbind option_bind]. eexists _, _, _. split; [done|]. right.
    destruct Hc as [[-> Hr']|(-> & Hr' & Ha)]; [left|right]; by split_and!.
Qed.

(** [hashmap__find] reads the abstract map. *)
Lemma hashmap_find_spec map g k :
  repr map g -> hashmap__find hash_fn equal_fn map k = Some (snd <$> g !! canon k).
Proof.
  intros Hr. unfold hashmap__find. destruct (find_entry_spec map g k Hr) as (f & -> & Hspec).
  cbn [mbind option_bind]. f_equal.
  destruct f as [[i e]|]; [by destruct Hspec as [-> _]|by rewrite Hspec].
Qed.

(** ** The refinement *)

Inductive op :=
  | Insert (k : K) (v : V) (st : hashmap_insert_strategy)
  | Delete (k : K)
  | Find (k : K).

(** What an operation tells its caller: a return code and the pair it
    handed back (the old pair, or the value found). *)
Definition out : Type := Z * option (K * V) * option V.

(** The operations of the C code, as one step. *)
Definition exec (o : op) map : option (out * hashmap K V) :=
  match o with
  | Insert k v st =>
      '(err, old, map) ← hashmap__insert alloc_ok hash_fn equal_fn map k v st;
      Some (err, old, None, map)
  | Delete k =>
      '(r, old, map) ← hashmap__delete hash_fn equal_fn map k;
      Some (bool_to_Z r, old, None, map)
  | Find k =>
      r ← hashmap__find hash_fn equal_fn map k;
      Some (bool_to_Z (bool_decide (is_Some r)), None, r, map)
  end.

(** The abstract map: [spec g o r g'] when operation [o] may answer [r] and
    turn [g] into [g'].  Only a refused allocation is a choice. *)
Inductive spec : gmap C (K * V) -> op -> out -> gmap C (K * V) -> Prop :=
  | spec_exists g k v e : g !! canon k = Some e ->
      spec g (Insert k v HASHMAP_ADD) (- EEXIST, Some e, None) g
  | spec_replace g k v st e : st = HASHMAP_SET \/ st = HASHMAP_UPDATE -> g !! canon k = Some e ->
      spec g (Insert k v st) (0, Some e, None) (<[canon k := (k, v)]> g)
  | spec_missing g k v : g !! canon k = None ->
      spec g (Insert k v HASHMAP_UPDATE) (- ENOENT, None, None) g
  | spec_add g k v st : st = HASHMAP_ADD \/ st = HASHMAP_SET -> g !! canon k = None ->
      spec g (Insert k v st) (0, None, None) (<[canon k := (k, v)]> g)
  | spec_nomem g k v st n : st = HASHMAP_ADD \/ st = HASHMAP_SET -> g !! canon k = None ->
      alloc_ok n = false -> spec g (Insert k v st) (- ENOMEM, None, None) g
  | spec_delete g k e : g !! canon k = Some e ->
      spec g (Delete k) (1, Some e, None) (base.delete (canon k) g)
  | spec_delete_missing g k : g !! canon k = None -> spec g (Delete k) (0, None, None) g
  | spec_find g k : spec g (Find k)
      (bool_to_Z (bool_decide (is_Some (g !! canon k))), None, snd <$> g !! canon k) g.

Definition op_ok (o : op) : Prop :=
  match o with Insert _ _ HASHMAP_APPEND => False | _ => True end.

Lemma entries_of_chain (es b rest : list (K * V)) i e :
  es ≡ₚ b ++ rest -> b !! i = Some e -> es ≡ₚ e :: (base.delete i b ++ rest).
Proof. intros H1 H2. rewrite H1. by rewrite (delete_Permutation _ _ _ H2) at 1. Qed.

Lemma repr_split map g e rest :
  repr map g -> entries map ≡ₚ e :: rest ->
  NoDup (canon ∘ fst <$> rest) /\ ~ (canon e.1 ∈ canon ∘ fst <$> rest) /\
  g = <[canon e.1 := e]> (list_to_map (pairs rest)) /\ sz map = Z.of_nat (S (length rest)).
Proof.
  intros (_ & _ & Hz & _ & Hnd & ->) He.
  assert (Hnd' : NoDup (canon ∘ fst <$> e :: rest)) by (by rewrite <- He).
  pose proof Hnd' as Hnd2. cbn in Hnd2. apply NoDup_cons in Hnd2 as [Hni Hnd2].
  split_and!; [done|done| |by rewrite Hz, He].
  change (<[canon e.1:=e]> (list_to_map (pairs rest))) with
    (list_to_map (pairs (e :: rest)) : gmap C (K * V)).
  apply list_to_map_proper; [|unfold pairs; by rewrite He]. by rewrite pairs_fst.
Qed.

Lemma exec_replace map g k v e i b :
  repr map g -> g !! canon k = Some e ->
  aref (buckets map) (hash_bits (hash_fn k) (cap_bits map)) = Some b -> b !! i = Some e ->
  exists map', set_chain map (hash_bits (hash_fn k) (cap_bits map)) (<[i := (k, v)]> b) (sz map)
      = Some map' /\ repr map' (<[canon k := (k, v)]> g).
Proof.
  intros Hr Hg Hb Hi.
  assert (Hne : buckets map <> []) by (intros E; rewrite E in Hb; unfold aref in Hb; by destruct (_ <? 0)).
  destruct (set_chain_spec map g k b (<[i := (k, v)]> b) (sz map) Hr Hne Hb)
    as (map' & rest & -> & Hs' & Hp' & Hz' & H1 & H2).
  { intros x (j & Hj)%list_elem_of_lookup_1.
    apply list_lookup_insert_Some in Hj as [(_ & <- & _)|[_ Hj]]; [by right|].
    left. by eapply list_elem_of_lookup_2. }
  exists map'. split; [done|].
  destruct (repr_split map g e (base.delete i b ++ rest) Hr) as (H3 & H4 & H5 & H6);
    [by eapply entries_of_chain|].
  assert (Hc : canon e.1 = canon k) by (by apply (repr_lookup _ _ _ _ Hr) in Hg as [_ ?]).
  apply (repr_cons map' _ (k, v) (base.delete i b ++ rest)); cbn [fst]; [done|done| | | |done| |].
  - rewrite H2. rewrite (delete_Permutation (<[i:=(k, v)]> b) i (k, v))
      by (apply list_lookup_insert_eq; by eapply lookup_lt_Some).
    by rewrite delete_insert_list.
  - by rewrite Hz'.
  - rewrite Hz'. apply Hr.
  - by rewrite <- Hc.
  - rewrite H5, Hc. by rewrite insert_insert_eq.
Qed.

Lemma exec_delete map g k e i b :
  repr map g -> g !! canon k = Some e ->
  aref (buckets map) (hash_bits (hash_fn k) (cap_bits map)) = Some b -> b !! i = Some e ->
  exists map', set_chain map (hash_bits (hash_fn k) (cap_bits map)) (base.delete i b)
      (u64 (sz map - 1)) = Some map' /\ repr map' (base.delete (canon k) g).
Proof.
  intros Hr Hg Hb Hi.
  assert (Hne : buckets map <> []) by (intros E; rewrite E in Hb; unfold aref in Hb; by destruct (_ <? 0)).
  destruct (set_chain_spec map g k b (base.delete i b) (u64 (sz map - 1)) Hr Hne Hb)
    as (map' & rest & -> & Hs' & Hp' & Hz' & H1 & H2).
  { intros x Hx. left. rewrite (delete_Permutation _ _ _ Hi). set_solver. }
  exists map'. split; [done|].
  destruct (repr_split map g e (base.delete i b ++ rest) Hr) as (H3 & H4 & H5 & H6);
    [by eapply entries_of_chain|].
  assert (Hm : sz map < 2 ^ 60) by apply Hr.
  rewrite wrap_small in Hz' by (pow2; lia).
  assert (Hc : canon e.1 = canon k) by (by apply (repr_lookup _ _ _ _ Hr) in Hg as [_ ?]).
  split_and!; [done|done| |lia| |].
  - rewrite H2. lia.
  - by rewrite H2.
  - rewrite H5, Hc, delete_insert_id
      by (apply not_elem_of_list_to_map_1; rewrite pairs_fst; by rewrite <- Hc).
    symmetry. apply list_to_map_proper; [rewrite pairs_fst; by rewrite H2|].
    unfold pairs. by rewrite H2.
Qed.

Lemma repr_size map g : repr map g -> Z.of_nat (size g) = sz map.
Proof.
  intros (_ & _ & -> & _ & Hnd & ->). rewrite map_size_list_to_map by (by rewrite pairs_fst).
  unfold pairs. by rewrite length_fmap.
Qed.

Lemma spec_size g o r g' : spec g o r g' -> (size g' <= S (size g))%nat.
Proof.
  destruct 1; rewrite ?map_size_insert, ?map_size_delete; repeat case_match; unfold id; lia.
Qed.

(** One operation simulates one abstract step. *)
Lemma exec_refines map g o :
  repr map g -> op_ok o -> sz map + 1 < 2 ^ 60 ->
  exists r map' g', exec o map = Some (r, map') /\ spec g o r g' /\ repr map' g'.
Proof.
  intros Hr Ho Hm. destruct o as [k v st|k|k]; cbn [exec].
  - unfold hashmap__insert. destruct (find_entry_spec map g k Hr) as (f & Hf & Hspec).
    destruct f as [[i e]|].
    + destruct Hspec as (Hg & b & Hb & Hi).
      destruct (exec_replace map g k v e i b Hr Hg Hb Hi) as (map' & Hset & Hr').
      destruct st; [| | |done]; rewrite Hf; cbn [mbind option_bind]; rewrite ?Hb;
        cbn [mbind option_bind]; rewrite ?Hset; cbn [mbind option_bind];
        eexists _, _, _; (split; [done|]); (split; [|done]).
      * by constructor.
      * constructor; [by left|done].
      * constructor; [by right|done].
    + destruct (insert_new_spec map g k v Hr Hspec Hm) as (err & map' & Hn & Hc).
      destruct st; [| | |done]; rewrite Hf; cbn [mbind option_bind]; rewrite ?Hn;
        cbn [mbind option_bind].
      * destruct Hc as [[-> Hr']|(-> & Hr' & n & Ha)]; eexists _, _, _; (split; [done|]);
          (split; [|done]); econstructor; eauto.
      * destruct Hc as [[-> Hr']|(-> & Hr' & n & Ha)]; eexists _, _, _; (split; [done|]);
          (split; [|done]); econstructor; eauto.
      * eexists _, _, _. split; [done|]. split; [by constructor|done].
  - unfold hashmap__delete. destruct (find_entry_spec map g k Hr) as (f & -> & Hspec).
    cbn [mbind option_bind]. destruct f as [[i e]|].
    + destruct Hspec as (Hg & b & Hb & Hi). rewrite Hb. cbn [mbind option_bind].
      destruct (exec_delete map g k e i b Hr Hg Hb Hi) as (map' & -> & Hr').
      eexists _, _, _. split; [done|]. split; [by constructor|done].
    + eexists _, _, _. split; [done|]. split; [by constructor|done].
  - rewrite (hashmap_find_spec map g k Hr). cbn [mbind option_bind].
    eexists _, _, _. split; [done|]. split; [|done].
    replace (bool_decide (is_Some (snd <$> g !! canon k))) with (bool_decide (is_Some (g !! canon k)))
      by (apply bool_decide_ext; by rewrite fmap_is_Some). constructor.
Qed.

(** Sequences of operations. *)
Inductive runs : hashmap K V -> list (op * out) -> hashmap K V -> Prop :=
  | runs_nil map : runs map [] map
  | runs_cons map o r map1 l map2 :
      exec o map = Some (r, map1) -> runs map1 l map2 -> runs map ((o, r) :: l) map2.

Inductive specs : gmap C (K * V) -> list (op * out) -> gmap C (K * V) -> Prop :=
  | specs_nil g : specs g [] g
  | specs_cons g o r g1 l g2 : spec g o r g1 -> specs g1 l g2 -> specs g ((o, r) :: l) g2.

(** C6: the hash map is a finite map.  From an empty map, any sequence of
    fewer than 2^60 ADD, SET, UPDATE, delete and find operations runs
    without an access outside the buckets, and its answers are those of a
    finite map: keys are identified exactly when the equality function
    says so, whatever the hash function, the collisions and the
    reallocations of the bucket array; an insertion may instead fail with
    ENOMEM, leaving the map as it was, but only if an allocation was
    refused. *)
Theorem hashmap_refines_map (os : list op) :
  Forall op_ok os -> Z.of_nat (length os) < 2 ^ 60 ->
  exists l map g, l.*1 = os /\ runs hashmap__init l map /\ specs ∅ l g /\
    forall k, hashmap__find hash_fn equal_fn map k = Some (snd <$> g !! canon k).
Proof.
  assert (Hgen : forall os map g, repr map g -> Forall op_ok os ->
    sz map + Z.of_nat (length os) < 2 ^ 60 ->
    exists l map' g', l.*1 = os /\ runs map l map' /\ specs g l g' /\ repr map' g').
  { clear os. induction os as [|o os IH]; intros map g Hr Ho Hm.
    { exists [], map, g. split_and!; [done|constructor|constructor|done]. }
    inversion Ho as [|? ? Ho1 Ho2]; subst. cbn [length] in Hm.
    destruct (exec_refines map g o Hr Ho1) as (r & map1 & g1 & H1 & H2 & H3); [lia|].
    pose proof (spec_size _ _ _ _ H2) as Z1. pose proof (repr_size _ _ Hr) as Z2.
    pose proof (repr_size _ _ H3) as Z3.
    destruct (IH map1 g1 H3 Ho2) as (l & map' & g' & H4 & H5 & H6 & H7); [lia|].
    exists ((o, r) :: l), map', g'. cbn. rewrite H4.
    split_and!; [done|by econstructor|by econstructor|done]. }
  intros Ho Hl. destruct (Hgen os hashmap__init ∅) as (l & map & g & H1 & H2 & H3 & H4).
  { apply repr_init. }
  { done. }
  { cbn. lia. }
  exists l, map, g. split_and!; [done|done|done|]. intros k. by apply hashmap_find_spec.
Qed.
End Refinement.

(** The representation only looks at the keys in the map: the context of
    the hash and equality functions may change elsewhere. *)
Lemma repr_ext {K V C} `{Countable C} (canon canon' : K -> C) (hash_fn hash_fn' : K -> Z)
    (map : hashmap K V) g :
  (forall e, e ∈ entries map -> canon' e.1 = canon e.1 /\ hash_fn' e.1 = hash_fn e.1) ->
  repr canon hash_fn map g -> repr canon' hash_fn' map g.
Proof.
  intros Hx (Hs & Hp & Hz & Hm & Hnd & ->).
  assert (E : canon' ∘ fst <$> entries map = canon ∘ fst <$> entries map).
  { apply list_fmap_ext. intros i e He. apply list_elem_of_lookup_2 in He. by apply Hx. }
  split_and!; [done| |done|done|by rewrite E|].
  - intros i b e Hi He. rewrite (proj2 (Hx e ltac:(apply list_elem_of_In, in_concat; exists b;
      split; apply list_elem_of_In; [by eapply list_elem_of_lookup_2|done]))). by eapply Hp.
  - f_equal. unfold pairs. symmetry. apply list_fmap_ext. intros i e He.
    apply list_elem_of_lookup_2 in He. by rewrite (proj1 (Hx e He)).
Qed.

(** ** The multimap *)

(** A growth reverses the chains.  Two values appended under the key 7: the
    last one is found, until keys added later make the map grow; then the
    first one is found. *)
Definition append_all (kvs : list (Z * Z)) : option (hashmap Z Z) :=
  foldl (fun m kv => map ← m;
           '(_, _, map) ← hashmap__insert (fun _ => true) (fun k => k) Z.eqb map kv.1 kv.2
                            HASHMAP_APPEND; Some map)
    (Some hashmap__init) kvs.

Lemma append_find_not_last :
  (map ← append_all [(7, 1); (7, 2)]; hashmap__find (fun k => k) Z.eqb map 7) = Some (Some 2) /\
  (map ← append_all [(7, 1); (7, 2); (8, 3); (9, 4)];
   hashmap__find (fun k => k) Z.eqb map 7) = Some (Some 1).
Proof. vm_compute. done. Qed.

(** ** A concrete run *)

Lemma hashmap_refines_map_witness :
  exists l map g, l.*1 = [Insert 1 10 HASHMAP_ADD; Insert 1 11 HASHMAP_SET; Delete 2] /\
    runs (fun _ => true) (fun k => k) Z.eqb hashmap__init l map /\
    specs (fun k : Z => k) (fun _ => true) ∅ l g /\
    forall k, hashmap__find (fun k => k) Z.eqb map k = Some (snd <$> g !! k).
Proof.
  apply (hashmap_refines_map (V := Z) (fun k : Z => k) (fun _ => true) (fun k => k) Z.eqb).
  - intros k1 k2. apply eq_true_iff_eq. by rewrite Z.eqb_eq, bool_decide_eq_true.
  - intros k1 k2 ->. reflexivity.
  - repeat constructor.
  - vm_compute. reflexivity.
Defined.
