(* ===== verification/StrSet.v ===== *)
(** * String sets (src/plugin/libbpf-test/libbpf/src/strset.c, and
    [libbpf_add_mem] of btf.c)

    The strings are stored one after the other in [strs_data]; a hash map
    from offset to offset, whose hash and equality read the string at the
    offset, finds the offset of a string.  To look a string up, it is first
    copied behind the data in use.

    [strs_data] is the whole buffer, its length the capacity.  Allocation
    is the parameter [alloc_ok].  An outer [None] is undefined behaviour. *)

From S2P Require Import Prelude Hashmap.

(** ** Growing buffers *)

Section AddMem.
Context (alloc_ok : Z -> bool).

(** [libbpf_add_mem]: [data] holds [cap_cnt] elements of [elem_sz] bytes.
    [None] is NULL; otherwise the offset of the new element and the buffer. *)
Definition libbpf_add_mem (data : list Z) (cap_cnt elem_sz cur_cnt max_cnt add_cnt : Z)
    : option (Z * list Z * Z) :=
  if u64 (cur_cnt + add_cnt) <=? cap_cnt then Some (cur_cnt * elem_sz, data, cap_cnt)
  else if u64 (cur_cnt + add_cnt) >? max_cnt then None
  else
    let new_cnt := u64 (cap_cnt + cap_cnt / 4) in
    let new_cnt := if new_cnt <? 16 then 16 else new_cnt in
    let new_cnt := if new_cnt >? max_cnt then max_cnt else new_cnt in
    let new_cnt := if new_cnt <? u64 (cur_cnt + add_cnt) then u64 (cur_cnt + add_cnt) else new_cnt in
    if alloc_ok (new_cnt * elem_sz) then
      Some (cur_cnt * elem_sz,
            take (Z.to_nat (cap_cnt * elem_sz)) data
              ++ replicate (Z.to_nat ((new_cnt - cap_cnt) * elem_sz)) 0,
            new_cnt)
    else None.

(** [libbpf_ensure_mem] on an array of [cap] elements, new ones being zero. *)
Definition libbpf_ensure_mem {A} (l : list A) (zero : A) (cap elem_sz need : Z) : option (list A * Z) :=
  if need <=? cap then Some (l, cap) else
  match libbpf_add_mem [] cap elem_sz cap SIZE_MAX (need - cap) with
  | None => None
  | Some (_, _, cap') => Some (l ++ replicate (Z.to_nat (cap' - cap)) zero, cap')
  end.
End AddMem.

(** ** The set *)

Record strset := {
  strs_data : list Z;
  strs_data_len : Z;
  strs_data_max_len : Z;
  strs_hash : hashmap Z Z;
}.

(** The string at an offset (no key is ever an offset without one). *)
Definition str_at (data : list Z) (off : Z) : list Z := default [] (cstr data off).

Definition strset_hash_fn (data : list Z) (key : Z) : Z := str_hash (str_at data key).

Definition strset_equal_fn (data : list Z) (key1 key2 : Z) : bool :=
  strcmp (str_at data key1) (str_at data key2) =? 0.

Section StrSet.
Context (alloc_ok : Z -> bool).

Definition set_data (set : strset) (d : list Z) : strset :=
  {| strs_data := d; strs_data_len := strs_data_len set;
     strs_data_max_len := strs_data_max_len set; strs_hash := strs_hash set |}.

(** [strset_add_str_mem] followed by [memcpy(p, s, len)]: [Some None] is the
    failed allocation. *)
Definition strset_copy_str (set : strset) (s : list Z) : option (option strset) :=
  let len := Z.of_nat (length s) + 1 in
  match libbpf_add_mem alloc_ok (strs_data set) (Z.of_nat (length (strs_data set))) 1
          (strs_data_len set) (strs_data_max_len set) len with
  | None => Some None
  | Some (p, data, _) => d ← st_bytes data p (s ++ [0]); Some (Some (set_data set d))
  end.

Definition strset__find_str (set : strset) (s : list Z) : option (Z * strset) :=
  r ← strset_copy_str set s;
  match r with
  | None => Some (- ENOMEM, set)
  | Some set =>
      let new_off := strs_data_len set in
      let d := strs_data set in
      found ← hashmap__find (strset_hash_fn d) (strset_equal_fn d) (strs_hash set) new_off;
      Some (match found with Some old_off => s32 old_off | None => - ENOENT end, set)
  end.

Definition strset__add_str (set : strset) (s : list Z) : option (Z * strset) :=
  let len := Z.of_nat (length s) + 1 in
  r ← strset_copy_str set s;
  match r with
  | None => Some (- ENOMEM, set)
  | Some set =>
      let new_off := strs_data_len set in
      let d := strs_data set in
      '(err, old, hash) ← hashmap__insert alloc_ok (strset_hash_fn d) (strset_equal_fn d)
                            (strs_hash set) new_off new_off HASHMAP_ADD;
      let set := {| strs_data := d; strs_data_len := strs_data_len set;
                    strs_data_max_len := strs_data_max_len set; strs_hash := hash |} in
      if err =? - EEXIST then
        '(old_off, _) ← old;
        Some (s32 old_off, set)
      else if negb (err =? 0) then Some (err, set)
      else
        Some (s32 new_off,
              {| strs_data := d; strs_data_len := u64 (strs_data_len set + len);
                 strs_data_max_len := strs_data_max_len set; strs_hash := hash |})
  end.

(** The loop of [strset__new] over the initial data, from offset [off]. *)
Fixpoint strset_index (d : list Z) (len : Z) (fuel : nat) (off : Z) (hash : hashmap Z Z)
    : option (Z * hashmap Z Z) :=
  match fuel with
  | O => None
  | S fuel =>
      if off <? len then
        '(err, _, hash) ← hashmap__insert alloc_ok (strset_hash_fn d) (strset_equal_fn d)
                            hash off off HASHMAP_ADD;
        if negb (err =? 0) && negb (err =? - EEXIST) then Some (err, hash)
        else s ← cstr d off; strset_index d len fuel (off + Z.of_nat (length s) + 1) hash
      else Some (0, hash)
  end.

(** The set over initial data; [Some (inl err)] is an error pointer.  Each
    round advances by at least one byte. *)
Definition strset__new (max_data_sz : Z) (init_data : list Z) : option (Z + strset) :=
  if negb (alloc_ok 40) || negb (alloc_ok 56) then Some (inl (- ENOMEM)) else
  if negb (alloc_ok (Z.of_nat (length init_data))) then Some (inl (- ENOMEM)) else
  let len := Z.of_nat (length init_data) in
  '(err, hash) ← strset_index init_data len (S (length init_data)) 0 hashmap__init;
  Some (if negb (err =? 0) then inl err
        else inr {| strs_data := init_data; strs_data_len := len;
                    strs_data_max_len := max_data_sz; strs_hash := hash |}).
End StrSet.

(** ** Correctness *)

Lemma cstr_app m x off s : cstr m off = Some s -> cstr (m ++ x) off = Some s.
Proof.
  unfold cstr. destruct (off <? 0); [done|]. intros H.
  assert (Hl : (Z.to_nat off < length m)%nat).
  { destruct (decide (Z.to_nat off < length m)%nat); [done|]. by rewrite drop_ge in H by lia. }
  rewrite drop_app_le by lia. apply until_nul_inv in H as (Hs & rest & ->).
  rewrite <- app_assoc. cbn. by apply until_nul_app.
Qed.

Lemma cstr_at pre s rest : strneq0 s -> cstr (pre ++ s ++ 0 :: rest) (Z.of_nat (length pre)) = Some s.
Proof.
  intros H. unfold cstr. destruct (Z.ltb_spec (Z.of_nat (length pre)) 0); [lia|].
  rewrite Nat2Z.id, drop_app_length. by apply until_nul_app.
Qed.

Lemma cstr_bounds m off s :
  cstr m off = Some s -> 0 <= off /\ off + Z.of_nat (length s) + 1 <= Z.of_nat (length m) /\ strneq0 s.
Proof.
  unfold cstr. destruct (Z.ltb_spec off 0); [done|]. intros Hu.
  apply until_nul_inv in Hu as (Hs & rest & E). split; [done|]. split; [|done].
  pose proof (length_drop m (Z.to_nat off)) as L. rewrite E, length_app in L. simpl in L. lia.
Qed.

Lemma equal_fn_canon d k1 k2 :
  strset_equal_fn d k1 k2 = bool_decide (str_at d k1 = str_at d k2).
Proof.
  unfold strset_equal_fn. apply eq_true_iff_eq. rewrite Z.eqb_eq, bool_decide_eq_true.
  apply strcmp_eq.
Qed.

Lemma hash_fn_canon d k1 k2 :
  str_at d k1 = str_at d k2 -> strset_hash_fn d k1 = strset_hash_fn d k2.
Proof. unfold strset_hash_fn. by intros ->. Qed.

Section Theorems.
Context (alloc_ok : Z -> bool).

(** The strings in use are intact, and the hash map indexes them. *)
Definition strset_ok (set : strset) (A : gmap (list Z) Z) : Prop :=
  let d := strs_data set in let len := strs_data_len set in
  0 <= len <= Z.of_nat (length d) /\ len <= INT_MAX /\ strs_data_max_len set <= INT_MAX /\
  Z.of_nat (length d) <= INT_MAX /\ sz (strs_hash set) <= len /\
  exists g, repr (str_at d) (strset_hash_fn d) (strs_hash set) g /\ A = fst <$> g /\
    forall s e, g !! s = Some e -> e.2 = e.1 /\ cstr (take (Z.to_nat len) d) e.1 = Some s.

(** Growing a byte buffer keeps what is in use and makes room; [M] bounds
    the capacity. *)
Lemma add_mem_bytes M data cur max add :
  0 <= cur <= Z.of_nat (length data) -> 0 < add -> cur + add < 2 ^ 62 ->
  Z.of_nat (length data) <= M -> max <= M -> M < 2 ^ 62 ->
  match libbpf_add_mem alloc_ok data (Z.of_nat (length data)) 1 cur max add with
  | None => max < cur + add \/ exists n, alloc_ok n = false
  | Some (p, data', cap') => p = cur /\ cur + add <= Z.of_nat (length data') /\
      Z.of_nat (length data') <= M /\ cap' = Z.of_nat (length data') /\
      exists x, data' = data ++ x /\ (bytes_ok data -> bytes_ok data')
  end.
Proof.
  intros Hc Ha Ho Hd Hm HM. unfold libbpf_add_mem. rewrite (wrap_small 64 (cur + add)) by (pow2; lia).
  destruct (_ <=? _) eqn:E1; zbool.
  { split_and!; [lia|lia|lia|lia|]. exists []. by rewrite app_nil_r. }
  destruct (_ >? max) eqn:E2; [left; lia|].
  rewrite (wrap_small 64) by (pow2; Z.to_euclidean_division_equations; lia).
  set (c1 := Z.of_nat (length data) + _). assert (Hc1 : Z.of_nat (length data) <= c1).
  { unfold c1. Z.to_euclidean_division_equations. lia. }
  clearbody c1. set (c2 := if c1 <? 16 then _ else _). assert (Hc2 : c1 <= c2) by (unfold c2; zcase; lia).
  clearbody c2. set (c3 := if c2 >? max then _ else _).
  assert (Hc3 : c3 <= max /\ Z.of_nat (length data) <= c3) by (unfold c3; destruct (c2 >? max) eqn:?; lia).
  clearbody c3. set (c4 := if c3 <? _ then _ else _).
  assert (Hc4 : cur + add <= c4 /\ Z.of_nat (length data) <= c4 <= max) by (unfold c4; zcase; lia).
  clearbody c4. destruct (alloc_ok _) eqn:Ea; [|right; by eexists].
  rewrite !Z.mul_1_r, Nat2Z.id, firstn_all, length_app, length_replicate.
  split_and!; [lia|lia|lia|lia|]. eexists. split; [done|]. intros Hb. apply Forall_app. split; [done|].
  apply Forall_replicate. unfold is_byte. lia.
Qed.

(** After the copy the new string is behind the data in use. *)
Lemma copy_str_spec set A s :
  strset_ok set A -> strneq0 s -> bytes_ok s -> Z.of_nat (length s) < 2 ^ 60 ->
  exists r, strset_copy_str alloc_ok set s = Some r /\
    match r with
    | None => strs_data_max_len set < strs_data_len set + Z.of_nat (length s) + 1 \/
              exists n, alloc_ok n = false
    | Some set' => exists x,
        strs_data set' = take (Z.to_nat (strs_data_len set)) (strs_data set) ++ s ++ 0 :: x /\
        set' = set_data set (strs_data set') /\ Z.of_nat (length (strs_data set')) <= INT_MAX
    end.
Proof.
  intros (Hl & Hi & Hm & Hcap & _) Hs Hb Hlen. unfold strset_copy_str.
  pose proof (add_mem_bytes INT_MAX (strs_data set) (strs_data_len set) (strs_data_max_len set)
                (Z.of_nat (length s) + 1) Hl ltac:(lia) ltac:(lia) Hcap Hm ltac:(lia)) as H.
  destruct (libbpf_add_mem _ _ _ _ _ _ _) as [[[p data'] c]|].
  2: { exists None. split; [done|]. destruct H as [H|H]; [left; lia|by right]. }
  destruct H as (-> & Hroom & Hi' & _ & x & -> & _).
  set (len := Z.to_nat (strs_data_len set)).
  replace (strs_data set ++ x)
    with (take len (strs_data set) ++ drop len (strs_data set) ++ x)
    by (by rewrite app_assoc, take_drop).
  set (tail := drop len (strs_data set) ++ x).
  assert (Htail : (length s + 1 <= length tail)%nat).
  { unfold tail. rewrite length_app, length_drop. rewrite length_app in Hroom. lia. }
  rewrite <- (take_drop (length s + 1) tail).
  replace (strs_data_len set) with (Z.of_nat (length (take len (strs_data set))))
    by (rewrite length_take; lia).
  rewrite st_bytes_app.
  2: { rewrite length_take, length_app. simpl. lia. }
  2: { apply Forall_app. split; [done|]. by repeat constructor. }
  cbn [mbind option_bind]. eexists. split; [done|].
  exists (drop (length s + 1) tail). cbn [set_data strs_data].
  rewrite <- app_assoc. split_and!; [done|done|].
  unfold tail. rewrite !length_app, length_take, length_drop, length_app, length_drop. cbn [length].
  rewrite length_app in Hi', Hroom. lia.
Qed.

(** The strings already in use read the same after the copy. *)
Lemma repr_after_copy set A set' s x g :
  0 <= strs_data_len set <= Z.of_nat (length (strs_data set)) ->
  repr (str_at (strs_data set)) (strset_hash_fn (strs_data set)) (strs_hash set) g ->
  (forall s e, g !! s = Some e ->
     e.2 = e.1 /\ cstr (take (Z.to_nat (strs_data_len set)) (strs_data set)) e.1 = Some s) ->
  strs_data set' = take (Z.to_nat (strs_data_len set)) (strs_data set) ++ s ++ 0 :: x ->
  A = fst <$> g ->
  repr (str_at (strs_data set')) (strset_hash_fn (strs_data set')) (strs_hash set) g.
Proof.
  intros Hl Hr Hg Hd _. apply (repr_ext (str_at (strs_data set)) _ (strset_hash_fn (strs_data set)));
    [|done].
  intros e He.
  assert (E : g !! str_at (strs_data set) e.1 = Some e)
    by (by apply (repr_lookup _ (strset_hash_fn (strs_data set)) _ _ _ _ Hr)).
  destruct (Hg _ _ E) as [_ Hc].
  assert (E2 : str_at (strs_data set') e.1 = str_at (strs_data set) e.1).
  { unfold str_at at 1. rewrite Hd. by rewrite (cstr_app _ _ _ _ Hc). }
  split; [done|]. unfold strset_hash_fn. by rewrite E2.
Qed.

(** The copy, with everything a lookup needs to know about it. *)
Lemma copy_str_ok set A s :
  strset_ok set A -> strneq0 s -> bytes_ok s -> Z.of_nat (length s) < 2 ^ 60 ->
  exists r, strset_copy_str alloc_ok set s = Some r /\
    match r with
    | None => strs_data_max_len set < strs_data_len set + Z.of_nat (length s) + 1 \/
              exists n, alloc_ok n = false
    | Some set' => exists x g,
        strs_data set' = take (Z.to_nat (strs_data_len set)) (strs_data set) ++ s ++ 0 :: x /\
        set' = set_data set (strs_data set') /\ strset_ok set' A /\
        str_at (strs_data set') (strs_data_len set) = s /\
        repr (str_at (strs_data set')) (strset_hash_fn (strs_data set')) (strs_hash set') g /\
        A = fst <$> g /\ (forall s e, g !! s = Some e -> e.2 = e.1 /\
          cstr (take (Z.to_nat (strs_data_len set)) (strs_data set)) e.1 = Some s)
    end.
Proof.
  intros Hok Hs Hb Hlen. destruct (copy_str_spec set A s Hok Hs Hb Hlen) as (r & Hr & Hc).
  exists r. split; [done|]. destruct r as [set'|]; [|done].
  destruct Hc as (x & Hd & Hset & Hcap). destruct Hok as (Hl & Hi & Hm & _ & Hz & g & Hg & HA & Hv).
  assert (Hlen' : length (take (Z.to_nat (strs_data_len set)) (strs_data set))
                  = Z.to_nat (strs_data_len set)) by (rewrite length_take; lia).
  assert (Htake : take (Z.to_nat (strs_data_len set)) (strs_data set')
                  = take (Z.to_nat (strs_data_len set)) (strs_data set)).
  { rewrite Hd. rewrite <- Hlen' at 1. by rewrite take_app_length. }
  pose proof (repr_after_copy set A set' s x g Hl Hg Hv Hd HA) as Hr'.
  assert (Hfields : strs_data_len set' = strs_data_len set /\ strs_hash set' = strs_hash set /\
            strs_data_max_len set' = strs_data_max_len set) by (rewrite Hset; done).
  destruct Hfields as (F1 & F2 & F3).
  assert (Hbig : (Z.to_nat (strs_data_len set) <= length (strs_data set'))%nat).
  { rewrite Hd, length_app, Hlen'. lia. }
  exists x, g. split_and!; [done|done| | |by rewrite F2|done|done].
  - unfold strset_ok. rewrite F1, F2, F3. split_and!; [lia|lia|done|done|done|done|].
    exists g. split_and!; [done|done|]. intros s' e He. rewrite Htake. by apply Hv.
  - unfold str_at. rewrite Hd. replace (strs_data_len set)
      with (Z.of_nat (length (take (Z.to_nat (strs_data_len set)) (strs_data set)))) at 2 by lia.
    by rewrite cstr_at.
Qed.

(** The part of the buffer that is in use. *)
Definition in_use (set : strset) : list Z := take (Z.to_nat (strs_data_len set)) (strs_data set).

Lemma lookup_offset (set : strset) (A : gmap (list Z) Z) (g : gmap (list Z) (Z * Z)) s :
  (forall s e, g !! s = Some e -> e.2 = e.1 /\ cstr (in_use set) e.1 = Some s) ->
  A = fst <$> g -> strs_data_len set <= INT_MAX ->
  0 <= strs_data_len set -> forall e, g !! s = Some e ->
  A !! s = Some e.1 /\ s32 e.1 = e.1 /\ 0 <= e.1 /\ cstr (in_use set) e.1 = Some s.
Proof.
  intros Hv -> Hi Hl0 e He. destruct (Hv s e He) as [_ Hc]. pose proof (cstr_bounds _ _ _ Hc) as (H0 & H1 & _).
  unfold in_use in H1. rewrite length_take in H1.
  split_and!; [by rewrite lookup_fmap, He| |done|done]. apply swrap_small; pow2; lia.
Qed.

(** The set after a new string has been indexed: it is in use behind the
    others, at the offset the map holds for it. *)
Lemma add_new_ok set set1 A s x g hash :
  let off := strs_data_len set in
  let set' := {| strs_data := strs_data set1; strs_data_len := u64 (off + (Z.of_nat (length s) + 1));
                 strs_data_max_len := strs_data_max_len set1; strs_hash := hash |} in
  strset_ok set A -> strset_ok set1 A -> strneq0 s -> Z.of_nat (length s) < 2 ^ 60 ->
  strs_data set1 = take (Z.to_nat off) (strs_data set) ++ s ++ 0 :: x ->
  A = fst <$> g -> g !! s = None ->
  (forall s' e, g !! s' = Some e -> e.2 = e.1 /\ cstr (in_use set) e.1 = Some s') ->
  sz hash <= off + 1 ->
  repr (str_at (strs_data set1)) (strset_hash_fn (strs_data set1)) hash (<[s := (off, off)]> g) ->
  strset_ok set' (<[s := off]> A) /\ in_use set' = in_use set ++ s ++ [0] /\
  cstr (in_use set') off = Some s /\ s32 off = off.
Proof.
  intros off set' Hok Hok1 Hs Hlen Hd HA Hn Hv Hsz Hr'. pose proof Hok as (Hl & Hi & Hm & _).
  pose proof Hok1 as (_ & _ & Hm1 & Hcap1 & _).
  assert (Hend : Z.of_nat (length (strs_data set1)) >= off + Z.of_nat (length s) + 1).
  { rewrite Hd, !length_app, length_take. cbn [length]. unfold off. lia. }
  assert (Hu : u64 (off + (Z.of_nat (length s) + 1)) = off + (Z.of_nat (length s) + 1))
    by (apply wrap_small; pow2; unfold off; lia).
  assert (Huse : in_use set' = in_use set ++ s ++ [0]).
  { unfold set'. unfold in_use at 1. cbn [strs_data strs_data_len]. rewrite Hu, Hd.
    replace (s ++ 0 :: x) with ((s ++ [0]) ++ x) by (by rewrite <- app_assoc).
    rewrite app_assoc. apply take_app_length'. unfold in_use. rewrite !length_app, length_take.
    cbn [length]. unfold off. lia. }
  assert (Hat : cstr (in_use set') off = Some s).
  { rewrite Huse. replace off with (Z.of_nat (length (in_use set))) at 1
      by (unfold in_use, off; rewrite length_take; lia).
    by apply cstr_at. }
  split_and!; [|done|done|apply swrap_small; pow2; unfold off; lia].
  unfold strset_ok, set'. cbn [strs_data strs_data_len strs_data_max_len strs_hash]. rewrite Hu.
  split_and!; [unfold off; lia|lia|lia|done|done|lia|].
  exists (<[s := (off, off)]> g). split_and!; [exact Hr'|by rewrite HA, fmap_insert|].
  intros s' e He. assert (Huse2 : in_use set'
    = take (Z.to_nat (off + (Z.of_nat (length s) + 1))) (strs_data set1))
    by (unfold set', in_use at 1; cbn [strs_data strs_data_len]; by rewrite Hu).
  rewrite <- Huse2. apply lookup_insert_Some in He as [[<- <-]|[_ He]]; [by split|].
  destruct (Hv s' e He) as [H1 H2]. split; [done|]. rewrite Huse. by apply cstr_app.
Qed.

(** Adding a string: its offset, new or old, or a refusal; what was in use
    stays where it was. *)
Lemma strset_add_spec set A s :
  strset_ok set A -> strneq0 s -> bytes_ok s -> Z.of_nat (length s) < 2 ^ 60 ->
  exists r set' A', strset__add_str alloc_ok set s = Some (r, set') /\ strset_ok set' A' /\
    strs_data_max_len set' = strs_data_max_len set /\
    (exists y, in_use set' = in_use set ++ y /\ (y = [] \/ y = s ++ [0] /\ A !! s = None)) /\
    (0 <= r /\ A' = <[s := r]> A /\ (forall off, A !! s = Some off -> r = off) /\
       cstr (in_use set') r = Some s \/
     r = - ENOMEM /\ A' = A /\ in_use set' = in_use set /\
       (strs_data_max_len set < strs_data_len set + Z.of_nat (length s) + 1 \/
        exists n, alloc_ok n = false)).
Proof.
  intros Hok Hs Hb Hlen. destruct (copy_str_ok set A s Hok Hs Hb Hlen) as (c & Hc & Hspec).
  unfold strset__add_str. rewrite Hc. cbn [mbind option_bind]. destruct c as [set1|].
  2: { exists (- ENOMEM), set, A. split_and!; [done|done|done|exists []; rewrite app_nil_r; by split; [|left]|].
       right. done. }
  destruct Hspec as (x & g & Hd & Hset & Hok1 & Hstr & Hr & HA & Hv).
  pose proof Hok as (Hl & Hi & Hm & Hcap & Hz & _).
  assert (Hfields : strs_data_len set1 = strs_data_len set /\ strs_hash set1 = strs_hash set /\
            strs_data_max_len set1 = strs_data_max_len set) by (rewrite Hset; done).
  destruct Hfields as (F1 & F2 & F3).
  destruct (hashmap_add_spec (str_at (strs_data set1)) alloc_ok (strset_hash_fn (strs_data set1))
              (strset_equal_fn (strs_data set1)) (equal_fn_canon _) (hash_fn_canon _)
              (strs_hash set1) g (strs_data_len set1) (strs_data_len set1) Hr)
    as (err & old & hash & -> & Hcase); [rewrite F2; pow2; lia|].
  cbn [mbind option_bind]. rewrite F1, Hstr in Hcase.
  assert (Huse : in_use set1 = in_use set).
  { unfold in_use. rewrite F1, Hd. apply take_app_length'. rewrite length_take. lia. }
  destruct Hcase as [(-> & -> & e & -> & He)|[(-> & Hn & Hr')|(-> & Hn & Hr' & Ha)]];
    cbn [Z.eqb Pos.eqb Z.opp negb].
  - destruct e as [k v]. cbn [mbind option_bind].
    destruct (lookup_offset set A g s Hv HA) with (e := (k, v)) as (E1 & E2 & E3 & E4); [lia|lia|done|].
    cbn [fst] in *. rewrite E2. eexists _, _, A. split; [done|].
    replace {| strs_data := strs_data set1; strs_data_len := strs_data_len set1;
               strs_data_max_len := strs_data_max_len set1; strs_hash := strs_hash set1 |}
      with set1 by (by destruct set1).
    split_and!; [done|done|exists []; rewrite app_nil_r; by split; [|left]|].
    left. split_and!; [done|by rewrite insert_id|by intros off Hoff; simplify_eq|by rewrite Huse].
  - pose proof (repr_size _ _ _ _ Hr) as S1. pose proof (repr_size _ _ _ _ Hr') as S2.
    rewrite map_size_insert_None in S2 by done. rewrite F2 in S1. rewrite F1.
    destruct (add_new_ok set set1 A s x g hash Hok Hok1 Hs Hlen Hd HA Hn) as (K1 & K2 & K3 & K4);
      [done|lia|done|].
    eexists _, _, (<[s := strs_data_len set]> A). split; [done|].
    split_and!; [done|done|exists (s ++ [0]); split; [done|right; split; [done|by rewrite HA, lookup_fmap, Hn]]|]. left. rewrite K4.
    split_and!; [lia|done| |done]. intros off Hoff. by rewrite HA, lookup_fmap, Hn in Hoff.
  - eexists _, _, A. split; [done|]. pose proof Hok1 as (Hl1 & Hi1 & Hm1 & Hcap1 & Hz1 & _).
    pose proof (repr_size _ _ _ _ Hr) as S1. pose proof (repr_size _ _ _ _ Hr') as S2.
    split_and!; [|done| |right; split_and!; [done|done| |by right]].
    + unfold strset_ok. cbn [strs_data strs_data_len strs_data_max_len strs_hash].
      split_and!; [lia|lia|done|done|done|lia|].
      exists g. split_and!; [done|done|]. intros s' e He. fold (in_use set1). rewrite Huse.
      by apply Hv.
    + exists []. split; [|by left]. unfold in_use at 1. cbn [strs_data strs_data_len]. fold (in_use set1).
      by rewrite Huse, app_nil_r.
    + unfold in_use at 1. cbn [strs_data strs_data_len]. by fold (in_use set1).
Qed.

(** Looking a string up: its offset, ENOENT, or no memory for the copy. *)
Lemma strset_find_spec set A s :
  strset_ok set A -> strneq0 s -> bytes_ok s -> Z.of_nat (length s) < 2 ^ 60 ->
  exists r set', strset__find_str alloc_ok set s = Some (r, set') /\ strset_ok set' A /\
    (r = default (- ENOENT) (A !! s) \/
     r = - ENOMEM /\ (strs_data_max_len set < strs_data_len set + Z.of_nat (length s) + 1 \/
                      exists n, alloc_ok n = false)).
Proof.
  intros Hok Hs Hb Hlen. destruct (copy_str_ok set A s Hok Hs Hb Hlen) as (c & Hc & Hspec).
  unfold strset__find_str. rewrite Hc. cbn [mbind option_bind]. destruct c as [set1|].
  2: { exists (- ENOMEM), set. split_and!; [done|done|]. by right. }
  destruct Hspec as (x & g & Hd & Hset & Hok1 & Hstr & Hr & HA & Hv).
  pose proof Hok as (Hl & Hi & _).
  rewrite (hashmap_find_spec (str_at (strs_data set1)) (strset_hash_fn (strs_data set1))
             (strset_equal_fn (strs_data set1)) (equal_fn_canon _) (hash_fn_canon _) _ g _ Hr).
  cbn [mbind option_bind]. eexists _, _. split; [done|]. split; [done|]. left.
  assert (F1 : strs_data_len set1 = strs_data_len set) by (by rewrite Hset). rewrite F1, Hstr.
  destruct (g !! s) as [e|] eqn:He; cbn [fmap option_fmap option_map].
  - destruct (lookup_offset set A g s Hv HA ltac:(lia) ltac:(lia) e He) as (E1 & E2 & _).
    destruct (Hv s e He) as [E3 _]. by rewrite E1, E3, E2.
  - by rewrite HA, lookup_fmap, He.
Qed.

(** ** Initial data *)

Definition init_blob (l : list (list Z)) : list Z := flat_map (fun s => s ++ [0]) l.

Lemma index_spec rest : forall pre fuel hash g,
  let d := pre ++ init_blob rest in
  Forall strneq0 rest -> Z.of_nat (length d) <= INT_MAX -> (length (init_blob rest) < fuel)%nat ->
  repr (str_at d) (strset_hash_fn d) hash g -> sz hash <= Z.of_nat (length pre) ->
  (forall s e, g !! s = Some e -> e.2 = e.1 /\ cstr d e.1 = Some s) ->
  exists err hash', strset_index alloc_ok d (Z.of_nat (length d)) fuel (Z.of_nat (length pre)) hash
      = Some (err, hash') /\
    (err = 0 /\ (exists g', repr (str_at d) (strset_hash_fn d) hash' g' /\
       sz hash' <= Z.of_nat (length d) /\
       (forall s e, g' !! s = Some e -> e.2 = e.1 /\ cstr d e.1 = Some s) /\
       (forall s, is_Some (g !! s) \/ s ∈ rest -> is_Some (g' !! s))) \/
     err <> 0 /\ exists n, alloc_ok n = false).
Proof.
  induction rest as [|s rest IH]; intros pre fuel hash g d Hs Hd Hf Hr Hz Hv.
  - destruct fuel as [|fuel]; [lia|]. cbn [strset_index]. subst d. cbn in *. rewrite app_nil_r in *.
    destruct (Z.ltb_spec (Z.of_nat (length pre)) (Z.of_nat (length pre))); [lia|].
    exists 0, hash. split; [done|]. left. split; [done|]. exists g. split_and!; [done|done|done|].
    intros s [Hx|Hx]; [done|set_solver].
  - destruct fuel as [|fuel]; [lia|]. inversion Hs as [|? ? Hs1 Hs2]; subst. cbn [strset_index].
    assert (Hd2 : d = (pre ++ s ++ [0]) ++ init_blob rest)
      by (unfold d; cbn; by rewrite <- !app_assoc).
    assert (Hat : cstr d (Z.of_nat (length pre)) = Some s).
    { unfold d. cbn. rewrite <- app_assoc. by apply cstr_at. }
    assert (Hlen : length d = (length pre + (length s + 1) + length (init_blob rest))%nat).
    { rewrite Hd2, !length_app. cbn [length]. lia. }
    destruct (Z.ltb_spec (Z.of_nat (length pre)) (Z.of_nat (length d))); [|lia].
    assert (Hcan : str_at d (Z.of_nat (length pre)) = s) by (unfold str_at; by rewrite Hat).
    destruct (hashmap_add_spec (str_at d) alloc_ok (strset_hash_fn d) (strset_equal_fn d)
                (equal_fn_canon d) (hash_fn_canon d) hash g (Z.of_nat (length pre))
                (Z.of_nat (length pre)) Hr) as (err & old & hash1 & -> & Hcase);
      [pow2; lia|]. rewrite Hcan in Hcase. cbn [mbind option_bind].
    assert (Hnext : forall hash2 g2, repr (str_at d) (strset_hash_fn d) hash2 g2 ->
      sz hash2 <= sz hash + 1 ->
      (forall s' e, g2 !! s' = Some e -> e.2 = e.1 /\ cstr d e.1 = Some s') ->
      is_Some (g2 !! s) -> (forall s', is_Some (g !! s') -> is_Some (g2 !! s')) ->
      exists err hash', (s0 ← cstr d (Z.of_nat (length pre));
          strset_index alloc_ok d (Z.of_nat (length d)) fuel
            (Z.of_nat (length pre) + Z.of_nat (length s0) + 1) hash2) = Some (err, hash') /\
        (err = 0 /\ (exists g', repr (str_at d) (strset_hash_fn d) hash' g' /\
           sz hash' <= Z.of_nat (length d) /\
           (forall s e, g' !! s = Some e -> e.2 = e.1 /\ cstr d e.1 = Some s) /\
           (forall s', is_Some (g !! s') \/ s' ∈ s :: rest -> is_Some (g' !! s'))) \/
         err <> 0 /\ exists n, alloc_ok n = false)).
    { intros hash2 g2 Hr2 Hz2 Hv2 Hs2' Hmono. rewrite Hat. cbn [mbind option_bind].
      specialize (IH (pre ++ s ++ [0]) fuel hash2 g2). cbv zeta in IH.
      rewrite <- Hd2 in IH. rewrite !length_app in IH. cbn [length] in IH.
      replace (Z.of_nat (length pre) + Z.of_nat (length s) + 1)
        with (Z.of_nat (length pre + (length s + 1))) by lia.
      destruct IH as (err' & hash' & -> & Hc); [done|lia| |done|lia|done|].
      { cbn [init_blob flat_map] in Hf. rewrite !length_app in Hf. cbn [length] in Hf.
        unfold init_blob. lia. }
      exists err', hash'. split; [done|]. destruct Hc as [(-> & g' & H1 & H2 & H3 & H4)|Hc]; [left|by right].
      split; [done|]. exists g'. split_and!; [done|done|done|].
      intros s' [Hin|[->|Hin]%elem_of_cons]; apply H4; [left; by apply Hmono|by left|by right]. }
    pose proof (repr_size _ _ _ _ Hr) as S1.
    destruct Hcase as [(-> & -> & e & -> & He)|[(-> & Hn & Hr')|(-> & Hn & Hr' & Ha)]];
      cbn [Z.eqb Pos.eqb Z.opp negb andb].
    + apply (Hnext hash g); [done|lia|done|by rewrite He|done].
    + pose proof (repr_size _ _ _ _ Hr') as S2. rewrite map_size_insert_None in S2 by done.
      apply (Hnext hash1 _ Hr'); [lia| |by rewrite lookup_insert_eq|].
      * intros s' e [[<- <-]|[_ He]]%lookup_insert_Some; [done|by apply Hv].
      * intros s' Hs'. destruct (decide (s = s')) as [->|]; [by rewrite lookup_insert_eq|].
        by rewrite lookup_insert_ne.
    + eexists _, _. split; [done|]. right. split; [lia|done].
Qed.

Lemma strset_new_spec max l :
  Forall strneq0 l -> Z.of_nat (length (init_blob l)) <= INT_MAX -> max <= INT_MAX ->
  exists r, strset__new alloc_ok max (init_blob l) = Some r /\
    match r with
    | inl err => err <> 0 /\ exists n, alloc_ok n = false
    | inr set => strs_data_max_len set = max /\ in_use set = init_blob l /\
        exists A, strset_ok set A /\ forall s, s ∈ l -> is_Some (A !! s)
    end.
Proof.
  intros Hs Hl Hm. unfold strset__new.
  destruct (alloc_ok 40) eqn:E1; cbn [negb orb]; [|eexists; split; [done|]; split; [lia|by eexists]].
  destruct (alloc_ok 56) eqn:E2; cbn [negb]; [|eexists; split; [done|]; split; [lia|by eexists]].
  destruct (alloc_ok (Z.of_nat _)) eqn:E3; cbn [negb]; [|eexists; split; [done|]; split; [lia|by eexists]].
  destruct (index_spec l [] (S (length (init_blob l))) hashmap__init ∅) as (err & hash & Hi & Hc);
    [done|done|lia| |done|done|].
  { split_and!; [by left|intros [|i] b e Hx; done|done|done|constructor|done]. }
  cbn [app length] in *. change (Z.of_nat 0) with 0 in Hi. rewrite Hi. cbn [mbind option_bind].
  eexists. split; [done|]. destruct Hc as [(-> & g & H1 & H2 & H3 & H4)|[Hne Ha]].
  - cbn [Z.eqb negb strs_data_max_len]. split; [done|]. unfold in_use. cbn [strs_data strs_data_len].
    rewrite Nat2Z.id. split; [apply firstn_all|]. exists (fst <$> g). split.
    + unfold strset_ok. cbn [strs_data strs_data_len strs_data_max_len strs_hash].
      split_and!; [lia|lia|done|done|done|done|]. exists g. split_and!; [done|done|].
      rewrite Nat2Z.id, firstn_all. done.
    + intros s Hin. rewrite lookup_fmap. apply fmap_is_Some, H4. by right.
  - destruct (err =? 0) eqn:E; zbool; done.
Qed.

(** Adding a list of strings. *)
Fixpoint add_all (set : strset) (l : list (list Z)) : option (list Z * strset) :=
  match l with
  | [] => Some ([], set)
  | s :: l =>
      '(r, set) ← strset__add_str alloc_ok set s;
      '(rs, set) ← add_all set l;
      Some (r :: rs, set)
  end.

Definition str_ok (s : list Z) : Prop :=
  strneq0 s /\ bytes_ok s /\ Z.of_nat (length s) < 2 ^ 60.

Lemma add_all_spec l : forall set A,
  strset_ok set A -> Forall str_ok l ->
  exists rs set' A', add_all set l = Some (rs, set') /\ strset_ok set' A' /\
    (exists y, in_use set' = in_use set ++ y) /\
    (forall s off, A !! s = Some off -> A' !! s = Some off) /\
    Forall2 (fun s r => 0 <= r /\ A' !! s = Some r /\ cstr (in_use set') r = Some s \/
                        r = - ENOMEM) l rs.
Proof.
  induction l as [|s l IH]; intros set A Hok Hl; cbn [add_all].
  { exists [], set, A. split_and!; [done|done|exists []; by rewrite app_nil_r|done|constructor]. }
  inversion Hl as [|? ? (Hs1 & Hs2 & Hs3) Hl']; subst.
  destruct (strset_add_spec set A s Hok Hs1 Hs2 Hs3)
    as (r & set1 & A1 & -> & Hok1 & _ & (y1 & Hy1 & _) & Hc). cbn [mbind option_bind].
  destruct (IH set1 A1 Hok1 Hl') as (rs & set' & A' & -> & Hok' & (y2 & Hy2) & Hmono & Hall).
  cbn [mbind option_bind]. eexists _, _, A'. split; [done|]. split_and!; [done| | |].
  - exists (y1 ++ y2). by rewrite Hy2, Hy1, app_assoc.
  - intros s' off Ho. apply Hmono. destruct Hc as [(_ & -> & Hsame & _)|(_ & -> & _ & _)]; [|done].
    destruct (decide (s = s')) as [<-|Hne]; [|by rewrite lookup_insert_ne].
    rewrite lookup_insert_eq. by rewrite (Hsame off Ho).
  - constructor; [|done]. destruct Hc as [(Hr & -> & _ & Hat)|(-> & _ & _ & _)]; [left|by right].
    split_and!; [done|apply Hmono; by rewrite lookup_insert_eq|]. rewrite Hy2. by apply cstr_app.
Qed.

(** C23: string interning.  A set made over initial data and then given any
    list of strings never reads or writes outside its buffer; whenever an
    addition succeeds, the offset it returned reads, in the final data, as
    that string, and equal strings got equal offsets (so different strings
    different ones); strings of the initial data are found where they
    were.  The only failure is ENOMEM. *)
Theorem strset_interning max init l set :
  Forall str_ok init -> Forall str_ok l -> Z.of_nat (length (init_blob init)) <= INT_MAX ->
  max <= INT_MAX -> strset__new alloc_ok max (init_blob init) = Some (inr set) ->
  exists rs set', add_all set l = Some (rs, set') /\
    Forall2 (fun s r => 0 <= r /\ cstr (in_use set') r = Some s \/ r = - ENOMEM) l rs /\
    (forall i j s ri rj, l !! i = Some s -> l !! j = Some s -> rs !! i = Some ri ->
       rs !! j = Some rj -> 0 <= ri -> 0 <= rj -> ri = rj) /\
    (forall i s r, l !! i = Some s -> rs !! i = Some r -> 0 <= r -> s ∈ init ->
       cstr (init_blob init) r = Some s).
Proof.
  intros Hi Hl Hlen Hm Hnew.
  assert (Hi' : Forall strneq0 init) by (eapply Forall_impl; [exact Hi|]; by intros ? []).
  destruct (strset_new_spec max init Hi' Hlen Hm) as (r0 & Hr0 & Hspec).
  rewrite Hnew in Hr0. injection Hr0 as <-. destruct Hspec as (_ & Huse & A & Hok & Hinit).
  destruct (add_all_spec l set A Hok Hl) as (rs & set' & A' & Ha & Hok' & (y & Hy) & Hmono & Hall).
  exists rs, set'. split_and!; [done| | |].
  - eapply Forall2_impl; [exact Hall|]. intros s r [(? & _ & ?)|?]; [by left|by right].
  - intros i j s ri rj H1 H2 H3 H4 H5 H6.
    destruct (Forall2_lookup_lr _ _ _ _ _ _ Hall H1 H3) as [(_ & E1 & _)|?]; [|lia].
    destruct (Forall2_lookup_lr _ _ _ _ _ _ Hall H2 H4) as [(_ & E2 & _)|?]; [|lia]. congruence.
  - intros i s r H1 H2 H3 Hin.
    destruct (Forall2_lookup_lr _ _ _ _ _ _ Hall H1 H2) as [(_ & E1 & _)|?]; [|lia].
    destruct (Hinit s Hin) as [off Hoff]. pose proof (Hmono s off Hoff) as E2. simplify_eq.
    rewrite <- Huse. destruct Hok as (_ & _ & _ & _ & _ & g & _ & -> & Hv).
    rewrite lookup_fmap in Hoff. destruct (g !! s) as [e|] eqn:He; [|done].
    injection Hoff as <-. by apply Hv.
Qed.
End Theorems.

Definition ex_set : strset :=
  match strset__new (fun _ => true) 1000 (init_blob [lit "int"; lit "char"]) with
  | Some (inr set) => set
  | _ => {| strs_data := []; strs_data_len := 0; strs_data_max_len := 0; strs_hash := hashmap__init |}
  end.

Lemma strset_interning_witness :
  exists rs set', strset__new (fun _ => true) 1000 (init_blob [lit "int"; lit "char"])
      = Some (inr ex_set) /\
    add_all (fun _ => true) ex_set [lit "long"; lit "int"; lit "long"] = Some (rs, set') /\
    rs = [9; 0; 9].
Proof.
  destruct (strset_interning (fun _ => true) 1000 [lit "int"; lit "char"]
              [lit "long"; lit "int"; lit "long"] ex_set) as (rs & set' & H1 & _).
  - repeat constructor; vm_compute; congruence.
  - repeat constructor; vm_compute; congruence.
  - vm_compute. congruence.
  - lia.
  - vm_compute. reflexivity.
  - exists rs, set'. split; [vm_compute; reflexivity|]. split; [exact H1|].
    vm_compute in H1. injection H1 as <- _. reflexivity.
Defined.
