(* ===== verification/Nlattr.v ===== *)
(** * Netlink attributes (src/plugin/libbpf-test/libbpf/src/nlattr.c, .h)

    A message is a byte string, an attribute pointer the offset of its
    header: two bytes length (header included), two bytes type, payload,
    padding to four bytes.  A read outside the message has no result. *)

From S2P Require Import Prelude.

Definition NLA_HDRLEN : Z := 4.
Definition NLA_TYPE_MASK : Z := 0x3FFF.
Definition LIBBPF_NLA_UNSPEC : Z := 0.
Definition LIBBPF_NLA_U32 : Z := 3.
Definition LIBBPF_NLA_STRING : Z := 5.
Definition LIBBPF_NLA_TYPE_MAX : Z := 8.

Definition NLA_ALIGN (len : Z) : Z := Z.land (len + 3) (Z.lnot 3).

Definition nla_attr_minlen : list Z := [0; 1; 2; 4; 8; 1; 0; 0; 0].

Record libbpf_nla_policy := { pt_type : Z; pt_minlen : Z; pt_maxlen : Z }.

Definition nla_len (m : list Z) (nla : Z) : option Z := ld16 m nla.

Definition libbpf_nla_len (m : list Z) (nla : Z) : option Z :=
  l ← nla_len m nla; Some (l - NLA_HDRLEN).

Definition libbpf_nla_data (nla : Z) : Z := nla + NLA_HDRLEN.

(** The next attribute and what remains. *)
Definition nla_next (m : list Z) (nla remaining : Z) : option (Z * Z) :=
  l ← nla_len m nla;
  let totlen := NLA_ALIGN l in
  Some (nla + totlen, remaining - totlen).

(** [remaining >= sizeof( *nla)] compares as [size_t]: a negative
    [remaining] is a very large number there. *)
Definition nla_ok (m : list Z) (nla remaining : Z) : option bool :=
  if 4 <=? u64 remaining then
    l ← nla_len m nla;
    Some ((4 <=? l) && (l <=? remaining))
  else Some false.

Definition nla_type (m : list Z) (nla : Z) : option Z :=
  t ← ld16 m (nla + 2); Some (Z.land t NLA_TYPE_MASK).

Definition validate_nla (m : list Z) (nla maxtype : Z) (policy : list libbpf_nla_policy) : option Z :=
  type ← nla_type m nla;
  if (type <? 0) || (type >? maxtype) then Some 0 else
  pt ← aref policy type;
  if pt_type pt >? LIBBPF_NLA_TYPE_MAX then Some 0 else
  minlen ← (if negb (pt_minlen pt =? 0) then Some (pt_minlen pt)
            else if negb (pt_type pt =? LIBBPF_NLA_UNSPEC) then aref nla_attr_minlen (pt_type pt)
            else Some 0);
  len ← libbpf_nla_len m nla;
  if u32 len <? minlen then Some (-1) else
  if negb (pt_maxlen pt =? 0) && (len >? pt_maxlen pt) then Some (-1) else
  if pt_type pt =? LIBBPF_NLA_STRING then
    c ← ld8 m (libbpf_nla_data nla + len - 1);
    Some (if negb (c =? 0) then -1 else 0)
  else Some 0.

(** The loop of [libbpf_nla_parse]: the return value and the index. *)
Fixpoint parse_loop (m : list Z) (maxtype : Z) (policy : option (list libbpf_nla_policy))
    (fuel : nat) (nla rem : Z) (tb : list (option Z)) : option (Z * list (option Z)) :=
  match fuel with
  | O => None
  | S fuel =>
      ok ← nla_ok m nla rem;
      if negb ok then Some (0, tb) else
      type ← nla_type m nla;
      '(next, rem') ← nla_next m nla rem;
      if type >? maxtype then parse_loop m maxtype policy fuel next rem' tb else
      err ← (match policy with
             | Some p => validate_nla m nla maxtype p
             | None => Some 0
             end);
      if err <? 0 then Some (err, tb) else
      tb ← aset tb type (Some nla);
      parse_loop m maxtype policy fuel next rem' tb
  end.

(** Every attribute takes at least four bytes of [len]. *)
Definition libbpf_nla_parse (m : list Z) (maxtype head len : Z)
    (policy : option (list libbpf_nla_policy)) : option (Z * list (option Z)) :=
  parse_loop m maxtype policy (S (Z.to_nat len)) head len (replicate (Z.to_nat (maxtype + 1)) None).

Definition libbpf_nla_parse_nested (m : list Z) (maxtype nla : Z)
    (policy : option (list libbpf_nla_policy)) : option (Z * list (option Z)) :=
  len ← libbpf_nla_len m nla;
  libbpf_nla_parse m maxtype (libbpf_nla_data nla) len policy.

(** The message [libbpf_nla_dump_errormsg] prints for the netlink message at
    the start of [m]: [Some None] when there is none. *)
Definition nlmsg_len (m : list Z) (nlh : Z) : option Z := l ← ld32 m nlh; Some (s32 (l - 16)).

Definition extack_policy : list libbpf_nla_policy :=
  [ {| pt_type := 0; pt_minlen := 0; pt_maxlen := 0 |};
    {| pt_type := LIBBPF_NLA_STRING; pt_minlen := 0; pt_maxlen := 0 |};
    {| pt_type := LIBBPF_NLA_U32; pt_minlen := 0; pt_maxlen := 0 |};
    {| pt_type := 0; pt_minlen := 0; pt_maxlen := 0 |} ].

Definition libbpf_nla_dump_errormsg (m : list Z) : option (option (list Z)) :=
  flags ← ld16 m 6;
  if Z.land flags 0x200 =? 0 then Some None else
  let err := 16 in
  hlen ← (if Z.land flags 0x100 =? 0 then l ← nlmsg_len m (err + 4); Some (20 + l) else Some 20);
  let attr := err + hlen in
  msg_len ← ld32 m 0;
  let alen := s32 (msg_len - hlen) in
  '(r, tb) ← libbpf_nla_parse m 3 attr alen (Some extack_policy);
  if negb (r =? 0) then Some None else
  match tb !! 1%nat with
  | Some (Some nla) => s ← cstr m (libbpf_nla_data nla); Some (Some s)
  | _ => Some None
  end.

(** ** Specification: a stream of attributes *)

Record attr := { a_type : Z; a_data : list Z }.

Definition attr_ok (a : attr) : Prop :=
  0 <= a_type a < 65536 /\ Z.of_nat (length (a_data a)) <= 65531 /\ bytes_ok (a_data a).

Definition attr_len (a : attr) : Z := 4 + Z.of_nat (length (a_data a)).

Definition attr_tot (a : attr) : Z := NLA_ALIGN (attr_len a).

Definition le16 (v : Z) : list Z := [u8 v; u8 (v / 256)].

Definition encode (a : attr) : list Z :=
  le16 (attr_len a) ++ le16 (a_type a) ++ a_data a ++
  replicate (Z.to_nat (attr_tot a - attr_len a)) 0.

Definition stream (l : list attr) : list Z := flat_map encode l.

(** Type and offset of every attribute of a stream that starts at [pos]. *)
Fixpoint index (pos : Z) (l : list attr) : list (Z * Z) :=
  match l with
  | [] => []
  | a :: l => (Z.land (a_type a) NLA_TYPE_MASK, pos) :: index (pos + attr_tot a) l
  end.

(** The slot of type [t]: the last attribute of that type. *)
Definition slot (old : option Z) (ix : list (Z * Z)) (t : Z) : option Z :=
  match last (filter (fun e => e.1 = t) ix) with Some e => Some e.2 | None => old end.

(** ** Correctness *)

Lemma NLA_ALIGN_spec len : 0 <= len -> NLA_ALIGN len = (len + 3) / 4 * 4.
Proof.
  intros H. unfold NLA_ALIGN. rewrite <- Z.ldiff_land. change 3 with (Z.ones 2) at 2.
  rewrite Z.ldiff_ones_r, Z.shiftl_mul_pow2, Z.shiftr_div_pow2 by lia. done.
Qed.

Lemma attr_tot_bounds a :
  attr_len a <= attr_tot a < attr_len a + 4 /\ 4 <= attr_len a.
Proof.
  unfold attr_tot, attr_len. rewrite NLA_ALIGN_spec by lia. Z.to_euclidean_division_equations. lia.
Qed.

Lemma length_encode a : Z.of_nat (length (encode a)) = attr_tot a.
Proof.
  pose proof (attr_tot_bounds a). unfold encode. rewrite !length_app, length_replicate.
  cbn [length le16]. unfold attr_len in *. lia.
Qed.

Lemma ld16_at pre v rest :
  0 <= v < 65536 -> ld16 (pre ++ le16 v ++ rest) (Z.of_nat (length pre)) = Some v.
Proof.
  intros Hv. unfold ld16, ld8. destruct (Z.ltb_spec (Z.of_nat (length pre)) 0); [lia|].
  destruct (Z.ltb_spec (Z.of_nat (length pre) + 1) 0); [lia|].
  replace (Z.to_nat (Z.of_nat (length pre) + 1)) with (length pre + 1)%nat by lia.
  rewrite Nat2Z.id, (lookup_app_r _ _ (length pre)), (lookup_app_r _ _ (length pre + 1)) by lia.
  replace (length pre - length pre)%nat with 0%nat by lia.
  replace (length pre + 1 - length pre)%nat with 1%nat by lia. cbn [lookup list_lookup le16 app mbind option_bind]. f_equal. width_lia.
Qed.

Section Attr.
Context (pre rest : list Z) (a : attr).
Hypothesis Ha : attr_ok a.

Lemma nla_len_at : nla_len (pre ++ encode a ++ rest) (Z.of_nat (length pre)) = Some (attr_len a).
Proof.
  unfold nla_len, encode. rewrite <- app_assoc. apply ld16_at.
  destruct Ha as (_ & H & _). unfold attr_len. lia.
Qed.

Lemma nla_type_at :
  nla_type (pre ++ encode a ++ rest) (Z.of_nat (length pre))
  = Some (Z.land (a_type a) NLA_TYPE_MASK).
Proof.
  unfold nla_type, encode. rewrite <- !app_assoc.
  replace (Z.of_nat (length pre) + 2) with (Z.of_nat (length (pre ++ le16 (attr_len a))))
    by (rewrite length_app; cbn [length le16]; lia).
  rewrite (app_assoc pre). rewrite ld16_at; [done|]. apply Ha.
Qed.

Lemma nla_ok_at rem :
  attr_tot a <= rem < 2 ^ 31 ->
  nla_ok (pre ++ encode a ++ rest) (Z.of_nat (length pre)) rem = Some true.
Proof.
  intros Hr. pose proof (attr_tot_bounds a). unfold nla_ok. rewrite wrap_small by (pow2; lia).
  destruct (Z.leb_spec 4 rem); [|lia]. rewrite nla_len_at. cbn [mbind option_bind].
  f_equal. lia.
Qed.

Lemma nla_next_at rem :
  nla_next (pre ++ encode a ++ rest) (Z.of_nat (length pre)) rem
  = Some (Z.of_nat (length pre) + attr_tot a, rem - attr_tot a).
Proof. unfold nla_next. by rewrite nla_len_at. Qed.
End Attr.

Lemma slot_cons old e ix t :
  slot old (e :: ix) t = slot (if decide (e.1 = t) then Some e.2 else old) ix t.
Proof.
  unfold slot. rewrite filter_cons. case_decide; [|done].
  destruct (last (filter _ ix)) as [e'|] eqn:E.
  - rewrite last_cons, E. done.
  - rewrite last_cons, E. done.
Qed.

Lemma mask_nonneg t : 0 <= t -> 0 <= Z.land t NLA_TYPE_MASK.
Proof. intros. by apply Z.land_nonneg; left. Qed.

Lemma parse_loop_spec maxtype l : forall pre post fuel tb,
  Forall attr_ok l -> Z.of_nat (length (stream l)) < 2 ^ 31 -> (length (stream l) < fuel)%nat ->
  Z.of_nat (length tb) = maxtype + 1 ->
  exists tb', parse_loop (pre ++ stream l ++ post) maxtype None fuel (Z.of_nat (length pre))
      (Z.of_nat (length (stream l))) tb = Some (0, tb') /\ length tb' = length tb /\
    forall t old, 0 <= t -> tb !! Z.to_nat t = Some old ->
      tb' !! Z.to_nat t = Some (slot old (index (Z.of_nat (length pre)) l) t).
Proof.
  induction l as [|a l IH]; intros pre post fuel tb Hok Hl Hf Ht.
  { destruct fuel as [|fuel]; [lia|]. exists tb. cbn. done. }
  inversion Hok as [|? ? Ha Hok']; subst. destruct fuel as [|fuel]; [lia|].
  cbn [stream flat_map] in *. fold (stream l) in *. rewrite length_app in Hl, Hf.
  rewrite <- (app_assoc (encode a)). pose proof (attr_tot_bounds a) as Hb.
  pose proof (length_encode a) as He. cbn [parse_loop]. rewrite length_app.
  rewrite nla_ok_at by (done || lia). cbn [mbind option_bind negb].
  rewrite nla_type_at by done. cbn [mbind option_bind].
  rewrite nla_next_at by done. cbn [mbind option_bind].
  specialize (IH (pre ++ encode a) post fuel). rewrite <- app_assoc, length_app in IH.
  rewrite Nat2Z.inj_add, He in IH.
  replace (Z.of_nat (length (encode a) + length (stream l)) - attr_tot a)
    with (Z.of_nat (length (stream l))) by lia.
  set (t0 := Z.land (a_type a) NLA_TYPE_MASK).
  assert (Ht0 : 0 <= t0) by (apply mask_nonneg; apply Ha).
  destruct (t0 >? maxtype) eqn:Em.
  - destruct (IH tb Hok' ltac:(lia) ltac:(lia) Ht) as (tb' & Hp & Hlen & Hs).
    exists tb'. split; [exact Hp|]. split; [done|]. intros t old Ht' Hold. cbn [index].
    rewrite slot_cons. cbn [fst snd]. fold t0. pose proof (lookup_lt_Some _ _ _ Hold).
    rewrite decide_False by lia. by apply Hs.
  - cbn [mbind option_bind Z.ltb Z.compare]. rewrite aset_Some by lia. cbn [mbind option_bind].
    destruct (IH (<[Z.to_nat t0 := Some (Z.of_nat (length pre))]> tb) Hok' ltac:(lia) ltac:(lia))
      as (tb' & Hp & Hlen & Hs); [by rewrite length_insert|].
    exists tb'. rewrite length_insert in Hlen. split; [exact Hp|]. split; [done|].
    intros t old Ht' Hold. cbn [index]. rewrite slot_cons. cbn [fst snd]. fold t0.
    pose proof (lookup_lt_Some _ _ _ Hold). apply Hs; [done|].
    case_decide as Hd.
    + subst t. by rewrite list_lookup_insert_eq.
    + rewrite list_lookup_insert_ne by lia. done.
Qed.

(** C24: parsing a well-formed attribute stream.  Wherever in a message a
    stream of attributes, each padded to four bytes, lies, parsing it reads
    nothing outside it, returns 0, and stores for every type up to the
    maximum the offset of the last attribute of that type (NULL if there is
    none), with the two flag bits of the type masked off. *)
Theorem nla_parse_stream pre post l maxtype :
  Forall attr_ok l -> Z.of_nat (length (stream l)) < 2 ^ 31 -> 0 <= maxtype ->
  exists tb, libbpf_nla_parse (pre ++ stream l ++ post) maxtype (Z.of_nat (length pre))
      (Z.of_nat (length (stream l))) None = Some (0, tb) /\
    Z.of_nat (length tb) = maxtype + 1 /\
    forall t, 0 <= t <= maxtype ->
      tb !! Z.to_nat t = Some (slot None (index (Z.of_nat (length pre)) l) t).
Proof.
  intros Hok Hl Hm. unfold libbpf_nla_parse. rewrite Nat2Z.id.
  destruct (parse_loop_spec maxtype l pre post (S (length (stream l)))
              (replicate (Z.to_nat (maxtype + 1)) None)) as (tb & Hp & Hlen & Hs);
    [done|done|lia|rewrite length_replicate; lia|].
  exists tb. rewrite length_replicate in Hlen. split; [done|]. split; [lia|].
  intros t Ht. apply Hs; [lia|]. apply lookup_replicate. split; [done|lia].
Qed.

(** ** Arbitrary input *)

Definition policy_ok (maxtype : Z) (policy : option (list libbpf_nla_policy)) : Prop :=
  match policy with
  | None => True
  | Some p => Z.of_nat (length p) = maxtype + 1 /\
      Forall (fun pt => 0 <= pt_type pt /\ 0 <= pt_minlen pt) p
  end.

Lemma validate_nla_total m nla maxtype p l :
  bytes_ok m -> policy_ok maxtype (Some p) -> 0 <= nla ->
  nla_len m nla = Some l -> 4 <= l -> nla + l <= Z.of_nat (length m) -> l < 65536 ->
  is_Some (validate_nla m nla maxtype p).
Proof.
  intros Hm [Hlen Hp] Hn Hl H4 Hend Hlt. unfold validate_nla, nla_type.
  destruct (ld16_Some m (nla + 2)) as [t Ht]; [lia|lia|].
  pose proof (ld16_range _ _ _ Hm Ht) as Htr. rewrite Ht. cbn [mbind option_bind].
  set (type := Z.land t NLA_TYPE_MASK).
  assert (0 <= type) by (apply mask_nonneg; lia).
  destruct (_ || _) eqn:Er; [by eexists|].
  destruct (aref_Some p type) as [pt Hpt]; [lia|]. rewrite Hpt. cbn [mbind option_bind].
  assert (0 <= pt_type pt /\ 0 <= pt_minlen pt) as [Hp1 Hp2].
  { unfold aref in Hpt. destruct (type <? 0); [done|]. by eapply Forall_lookup_1 in Hp. }
  destruct (_ >? LIBBPF_NLA_TYPE_MAX) eqn:Etm; [by eexists|]. unfold LIBBPF_NLA_TYPE_MAX in Etm.
  assert (exists ml, (if negb (pt_minlen pt =? 0) then Some (pt_minlen pt)
      else if negb (pt_type pt =? LIBBPF_NLA_UNSPEC) then aref nla_attr_minlen (pt_type pt)
      else Some 0) = Some ml /\ (pt_type pt = LIBBPF_NLA_STRING -> 1 <= ml)) as (ml & -> & Hml).
  { destruct (Z.eqb_spec (pt_minlen pt) 0) as [E0|E0]; cbn [negb].
    2: { eexists. split; [done|]. lia. }
    destruct (Z.eqb_spec (pt_type pt) LIBBPF_NLA_UNSPEC) as [Eu|Eu]; cbn [negb].
    { eexists. split; [done|]. rewrite Eu. done. }
    destruct (aref_Some nla_attr_minlen (pt_type pt)) as [ml Hml]; [cbn; lia|].
    exists ml. split; [done|]. intros Es. rewrite Es in Hml. cbn in Hml. injection Hml as <-. lia. }
  cbn [mbind option_bind]. unfold libbpf_nla_len, libbpf_nla_data, NLA_HDRLEN. rewrite Hl.
  cbn [mbind option_bind].
  rewrite wrap_small by (pow2; lia).
  destruct (Z.ltb_spec (l - 4) ml); [by eexists|]. destruct (_ && _); [by eexists|].
  destruct (Z.eqb_spec (pt_type pt) LIBBPF_NLA_STRING) as [Es|Es]; [|by eexists].
  specialize (Hml Es). destruct (ld8_Some m (nla + 4 + (l - 4) - 1)) as [c ->]; [lia|]. by eexists.
Qed.

Lemma NLA_ALIGN_ge len : 0 <= len -> len <= NLA_ALIGN len < len + 4.
Proof. intros. rewrite NLA_ALIGN_spec by lia. Z.to_euclidean_division_equations. lia. Qed.

Lemma parse_loop_safe m maxtype policy head len fuel : forall nla rem tb,
  bytes_ok m -> policy_ok maxtype policy -> 0 <= head -> 0 <= len < 2 ^ 31 ->
  head + len + 5 <= Z.of_nat (length m) ->
  head <= nla -> nla + rem = head + len -> -3 <= rem -> (Z.to_nat rem < fuel)%nat ->
  Z.of_nat (length tb) = maxtype + 1 ->
  Forall (fun o => forall off, o = Some off -> head <= off /\ off + 4 <= head + len) tb ->
  exists r tb', parse_loop m maxtype policy fuel nla rem tb = Some (r, tb') /\
    Z.of_nat (length tb') = maxtype + 1 /\
    Forall (fun o => forall off, o = Some off -> head <= off /\ off + 4 <= head + len) tb'.
Proof.
  induction fuel as [|fuel IH]; intros nla rem tb Hm Hp Hh Hl Hend Hn Hsum Hrem Hf Ht Hall; [lia|].
  cbn [parse_loop]. unfold nla_ok.
  destruct (Z.leb_spec 4 (u64 rem)) as [H4|H4].
  2: { cbn [mbind option_bind negb]. by eexists _, _. }
  destruct (ld16_Some m nla) as [l Hld]; [lia|lia|].
  pose proof (ld16_range _ _ _ Hm Hld) as Hlr.
  unfold nla_next, nla_len at 1 2. rewrite Hld. cbn [mbind option_bind].
  destruct ((4 <=? l) && (l <=? rem)) eqn:Eok; cbn [negb]; [|by eexists _, _].
  unfold nla_type. destruct (ld16_Some m (nla + 2)) as [t Htd]; [lia|lia|].
  pose proof (ld16_range _ _ _ Hm Htd) as Htr. rewrite Htd. cbn [mbind option_bind].
  set (type := Z.land t NLA_TYPE_MASK).
  assert (0 <= type) by (apply mask_nonneg; lia).
  pose proof (NLA_ALIGN_ge l ltac:(lia)) as Hal.
  assert (Hnext : forall tb2, Z.of_nat (length tb2) = maxtype + 1 ->
    Forall (fun o => forall off, o = Some off -> head <= off /\ off + 4 <= head + len) tb2 ->
    exists r tb', parse_loop m maxtype policy fuel (nla + NLA_ALIGN l) (rem - NLA_ALIGN l) tb2
        = Some (r, tb') /\ Z.of_nat (length tb') = maxtype + 1 /\
      Forall (fun o => forall off, o = Some off -> head <= off /\ off + 4 <= head + len) tb').
  { intros tb2 H1 H2. apply IH; try done; lia. }
  destruct (type >? maxtype) eqn:Em; [by apply Hnext|].
  assert (exists err, match policy with Some p => validate_nla m nla maxtype p | None => Some 0 end
            = Some err) as [err ->].
  { destruct policy as [p|]; [|by eexists].
    apply (validate_nla_total m nla maxtype p l); try done; lia. }
  cbn [mbind option_bind]. destruct (err <? 0); [by eexists _, _|].
  rewrite aset_Some by lia. cbn [mbind option_bind]. apply Hnext; [by rewrite length_insert|].
  apply Forall_insert; [done|]. intros off [= <-]. lia.
Qed.

(** Parsing is total on arbitrary bytes.  On any message with at least
    five readable bytes behind the stream, whatever the bytes are and
    whatever the policy, the parser ends without a read outside the
    message, and every attribute it indexes has its header inside the
    stream. *)
Theorem nla_parse_safe m maxtype head len policy :
  bytes_ok m -> policy_ok maxtype policy -> 0 <= maxtype -> 0 <= head -> 0 <= len < 2 ^ 31 ->
  head + len + 5 <= Z.of_nat (length m) ->
  exists r tb, libbpf_nla_parse m maxtype head len policy = Some (r, tb) /\
    Z.of_nat (length tb) = maxtype + 1 /\
    Forall (fun o => forall off, o = Some off -> head <= off /\ off + 4 <= head + len) tb.
Proof.
  intros Hm Hp Hmax Hh Hl Hend. unfold libbpf_nla_parse.
  apply parse_loop_safe; try done; try lia.
  - rewrite length_replicate. lia.
  - apply Forall_replicate. done.
Qed.

(** Without the slack it is not safe: an attribute of 5 bytes that ends the
    message leaves -3 bytes, which as [size_t] are enough for a header. *)
Lemma nla_parse_reads_past_end :
  libbpf_nla_parse [5; 0; 1; 0; 7] 3 0 5 None = None.
Proof. reflexivity. Qed.

(** The length [libbpf_nla_dump_errormsg] passes on counts the message
    header twice: after the attributes of an exactly sized message it goes
    on reading. *)
Definition ex_errmsg : list Z :=
  [44; 0; 0; 0; 2; 0; 0; 3] ++ replicate 8 0 ++ replicate 20 0
  ++ encode {| a_type := 1; a_data := lit "bad" ++ [0] |}.

Lemma dump_errormsg_overreads :
  Z.of_nat (length ex_errmsg) = 44 /\ libbpf_nla_dump_errormsg ex_errmsg = None /\
  libbpf_nla_dump_errormsg (ex_errmsg ++ replicate 16 0) = Some (Some (lit "bad")).
Proof. vm_compute. done. Qed.

(** ** Concrete runs *)

Lemma nla_parse_stream_witness :
  exists tb, libbpf_nla_parse ([9] ++ stream [ {| a_type := 1; a_data := [1; 2] |};
      {| a_type := 0x8001; a_data := [7] |}; {| a_type := 9; a_data := [] |} ] ++ []) 2 1 20 None
    = Some (0, tb) /\ tb !! 1%nat = Some (Some 9).
Proof.
  destruct (nla_parse_stream [9] [] [ {| a_type := 1; a_data := [1; 2] |};
      {| a_type := 0x8001; a_data := [7] |}; {| a_type := 9; a_data := [] |} ] 2)
    as (tb & H1 & _ & H2).
  - repeat constructor; vm_compute; congruence.
  - vm_compute. reflexivity.
  - lia.
  - exists tb. split; [exact H1|]. specialize (H2 1 ltac:(lia)).
    change (Z.to_nat 1) with 1%nat in H2. rewrite H2. vm_compute. reflexivity.
Defined.

Lemma nla_parse_safe_witness :
  exists r tb, libbpf_nla_parse ([5; 0; 1; 0; 7] ++ replicate 5 0) 3 0 5 (Some extack_policy)
    = Some (r, tb) /\ r = -1.
Proof.
  destruct (nla_parse_safe ([5; 0; 1; 0; 7] ++ replicate 5 0) 3 0 5 (Some extack_policy))
    as (r & tb & H & _).
  - repeat constructor; vm_compute; congruence.
  - repeat constructor; vm_compute; congruence.
  - lia.
  - lia.
  - lia.
  - vm_compute. congruence.
  - exists r, tb. split; [exact H|]. vm_compute in H. injection H as <- _. reflexivity.
Defined.
