(* ===== verification/RingBuf.v ===== *)
(** * Ring buffer consumer (src/plugin/libbpf-test/libbpf/src/ringbuf.c)

    The kernel appends records to a ring and advances the producer
    position; user space reads them in order and advances the consumer
    position.  [data] is the ring's memory mapped twice in a row, so a
    record is contiguous from its start.  A record has a header (length and
    two flag bits, then four bytes not used here), the sample and padding.

    The sample callback is the parameter [sample_cb]: its answer may depend
    on the samples delivered so far.  Reads outside the mapping have no
    result. *)

From S2P Require Import Prelude.

Definition BPF_RINGBUF_BUSY_BIT : Z := 2147483648.
Definition BPF_RINGBUF_DISCARD_BIT : Z := 1073741824.
Definition BPF_RINGBUF_HDR_SZ : Z := 8.

Definition roundup_len (len : Z) : Z :=
  let len := u32 (Z.shiftl (u32 len) 2) in
  let len := Z.shiftr len 2 in
  let len := u32 (len + BPF_RINGBUF_HDR_SZ) in
  s32 (u32 (len + 7) / 8 * 8).

Record ring := {
  data : list Z;
  consumer_pos : Z;
  producer_pos : Z;
  mask : Z;
}.

Section RingBuf.
(** The samples delivered before, and the sample: 0 or more, or an error. *)
Context (sample_cb : list (list Z) -> list Z -> Z).

(** What one round of the inner loop decides on the record at [cons_pos]. *)
Inductive round :=
  | Busy
  | Skip (cons_pos : Z)
  | Deliver (cons_pos : Z) (sample : list Z).

(** [len] is the header word as an unsigned number; [len_ptr + HDR_SZ] and
    [len] are what the callback gets. *)
Definition read_record (d : list Z) (msk cons_pos : Z) : option round :=
  let len_ptr := Z.land cons_pos msk in
  len ← ld32 d len_ptr;
  if negb (Z.land len BPF_RINGBUF_BUSY_BIT =? 0) then Some Busy else
  let cons_pos := u64 (cons_pos + roundup_len len) in
  if Z.land len BPF_RINGBUF_DISCARD_BIT =? 0 then
    sample ← ld_bytes d (len_ptr + BPF_RINGBUF_HDR_SZ) (Z.to_nat len);
    Some (Deliver cons_pos sample)
  else Some (Skip cons_pos).

(** How the inner loop ends: it caught up with [prod_pos], met a record
    under construction, or the callback failed. *)
Inductive ending := CaughtUp | MetBusy | CbError (err : Z).

(** The inner loop from [cons_pos]: the ending, the position, the number of
    samples delivered, the samples delivered (all calls) and whether there
    was new data. *)
Fixpoint inner_loop (d : list Z) (msk : Z) (fuel : nat) (cons_pos prod_pos cnt : Z)
    (dl : list (list Z)) (got : bool) : option (ending * Z * Z * list (list Z) * bool) :=
  match fuel with
  | O => None
  | S fuel =>
      if cons_pos <? prod_pos then
        r ← read_record d msk cons_pos;
        match r with
        | Busy => Some (MetBusy, cons_pos, cnt, dl, got)
        | Skip cons_pos => inner_loop d msk fuel cons_pos prod_pos cnt dl true
        | Deliver cons_pos sample =>
            let err := sample_cb dl sample in
            let dl := dl ++ [sample] in
            if err <? 0 then Some (CbError err, cons_pos, cnt, dl, true)
            else inner_loop d msk fuel cons_pos prod_pos (s64 (cnt + 1)) dl true
        end
      else Some (CaughtUp, cons_pos, cnt, dl, got)
  end.

(** The outer loop.  [ring] stands for the shared memory while the call
    runs; every position reached is stored back, so the final one is the
    consumer position after the call. *)
Fixpoint outer_loop (r : ring) (fuel : nat) (cons_pos cnt : Z) (dl : list (list Z))
    : option (Z * Z * list (list Z)) :=
  match fuel with
  | O => None
  | S fuel =>
      let prod_pos := producer_pos r in
      '(e, cons_pos, cnt, dl, got) ←
        inner_loop (data r) (mask r) (S (Z.to_nat (prod_pos - cons_pos))) cons_pos prod_pos cnt dl false;
      match e with
      | CbError err => Some (err, cons_pos, dl)
      | MetBusy => Some (cnt, cons_pos, dl)
      | CaughtUp => if got : bool then outer_loop r fuel cons_pos cnt dl else Some (cnt, cons_pos, dl)
      end
  end.

Definition set_consumer (r : ring) (c : Z) : ring :=
  {| data := data r; consumer_pos := c; producer_pos := producer_pos r; mask := mask r |}.

(** Return value, ring and samples delivered so far.  While the producer is
    idle the second round finds nothing new. *)
Definition ringbuf_process_ring (r : ring) (dl : list (list Z)) : option (Z * ring * list (list Z)) :=
  '(ret, c, dl) ← outer_loop r 3 (consumer_pos r) 0 dl;
  Some (ret, set_consumer r c, dl).

(** The rings in order; the sum is capped at INT_MAX. *)
Fixpoint consume_loop (rs : list ring) (res : Z) (dl : list (list Z))
    : option (Z * list ring * list (list Z)) :=
  match rs with
  | [] => Some (if res >? INT_MAX then INT_MAX else res, [], dl)
  | r :: rs =>
      '(err, r, dl) ← ringbuf_process_ring r dl;
      if err <? 0 then Some (s32 err, r :: rs, dl)
      else '(ret, rs, dl) ← consume_loop rs (s64 (res + err)) dl; Some (ret, r :: rs, dl)
  end.

Definition ring_buffer__consume (rs : list ring) (dl : list (list Z))
    : option (Z * list ring * list (list Z)) :=
  consume_loop rs 0 dl.

(** [events]: the ring numbers [epoll_wait] reported, or its error. *)
Fixpoint poll_loop (rs : list ring) (events : list Z) (res : Z) (dl : list (list Z))
    : option (Z * list ring * list (list Z)) :=
  match events with
  | [] => Some (if res >? INT_MAX then INT_MAX else res, rs, dl)
  | ring_id :: events =>
      r ← aref rs (u32 ring_id);
      '(err, r, dl) ← ringbuf_process_ring r dl;
      rs ← aset rs (u32 ring_id) r;
      if err <? 0 then Some (s32 err, rs, dl)
      else poll_loop rs events (s64 (res + err)) dl
  end.

Definition ring_buffer__poll (rs : list ring) (events : Z + list Z) (dl : list (list Z))
    : option (Z * list ring * list (list Z)) :=
  match events with
  | inl errno => Some (- errno, rs, dl)
  | inr events => poll_loop rs events 0 dl
  end.
End RingBuf.

(** ** Specification: the log of records *)

Inductive rec_state := RecBusy | RecCommitted | RecDiscarded.

#[export] Instance rec_state_eq_dec : EqDecision rec_state.
Proof. solve_decision. Defined.

Record rec := { rec_state_of : rec_state; sample : list Z }.

#[export] Instance rec_eq_dec : EqDecision rec.
Proof. solve_decision. Defined.

Definition rec_len (r : rec) : Z := Z.of_nat (length (sample r)).

Definition header (r : rec) : Z :=
  rec_len r + match rec_state_of r with
              | RecBusy => BPF_RINGBUF_BUSY_BIT
              | RecCommitted => 0
              | RecDiscarded => BPF_RINGBUF_DISCARD_BIT
              end.

(** The space a record takes. *)
Definition rec_tot (r : rec) : Z := (rec_len r + 8 + 7) / 8 * 8.

Definition total (l : list rec) : Z := foldr (fun r acc => rec_tot r + acc) 0 l.

(** The memory holds the records [l] from position [pos] on. *)
Fixpoint holds (d : list Z) (msk pos : Z) (l : list rec) : Prop :=
  match l with
  | [] => True
  | r :: l =>
      ld32 d (Z.land pos msk) = Some (header r) /\
      ld_bytes d (Z.land pos msk + 8) (length (sample r)) = Some (sample r) /\
      rec_len r < 2 ^ 30 /\ holds d msk (pos + rec_tot r) l
  end.

(** The records before the first one under construction. *)
Fixpoint finished (l : list rec) : list rec :=
  match l with
  | [] => []
  | r :: l => match rec_state_of r with RecBusy => [] | _ => r :: finished l end
  end.

(** The samples of committed records. *)
Definition samples (l : list rec) : list (list Z) :=
  omap (fun r => match rec_state_of r with RecCommitted => Some (sample r) | _ => None end) l.

(** ** Correctness *)

Lemma rec_tot_bounds r : rec_len r + 8 <= rec_tot r < rec_len r + 16.
Proof. unfold rec_tot. Z.to_euclidean_division_equations. lia. Qed.

Lemma total_nonneg l : 0 <= total l.
Proof.
  induction l as [|r l IH]; cbn [total foldr]; [lia|]. fold (total l).
  pose proof (rec_tot_bounds r). unfold rec_len in *. lia.
Qed.

Lemma land_pow2 x k q : 0 <= k -> x / 2 ^ k = q -> Z.land x (2 ^ k) = if Z.odd q then 2 ^ k else 0.
Proof.
  intros Hk <-. apply Z.bits_inj'. intros n Hn. rewrite Z.land_spec.
  rewrite <- Z.shiftr_div_pow2, <- Z.bit0_odd, Z.shiftr_spec, Z.add_0_l by lia.
  destruct (Z.eq_dec n k) as [->|Hne].
  - rewrite Z.pow2_bits_true, andb_true_r by done.
    destruct (Z.testbit x k); [by rewrite Z.pow2_bits_true|by rewrite Z.bits_0].
  - rewrite Z.pow2_bits_false, andb_false_r by lia.
    destruct (Z.testbit x k); [by rewrite Z.pow2_bits_false by lia|by rewrite Z.bits_0].
Qed.

Lemma header_busy r :
  rec_len r < 2 ^ 30 ->
  (Z.land (header r) BPF_RINGBUF_BUSY_BIT =? 0) = bool_decide (rec_state_of r <> RecBusy).
Proof.
  intros H. unfold header, BPF_RINGBUF_BUSY_BIT, BPF_RINGBUF_DISCARD_BIT.
  assert (0 <= rec_len r) by (unfold rec_len; lia). change 2147483648 with (2 ^ 31) at 2.
  change (2 ^ 30) with 1073741824 in *.
  destruct (rec_state_of r).
  - rewrite (land_pow2 _ 31 1); [done|lia|]. change (2 ^ 31) with 2147483648.
    Z.to_euclidean_division_equations. lia.
  - rewrite (land_pow2 _ 31 0); [done|lia|]. change (2 ^ 31) with 2147483648.
    Z.to_euclidean_division_equations. lia.
  - rewrite (land_pow2 _ 31 0); [done|lia|]. change (2 ^ 31) with 2147483648.
    Z.to_euclidean_division_equations. lia.
Qed.

Lemma header_discard r :
  rec_len r < 2 ^ 30 -> rec_state_of r <> RecBusy ->
  (Z.land (header r) BPF_RINGBUF_DISCARD_BIT =? 0) = bool_decide (rec_state_of r = RecCommitted).
Proof.
  intros H Hb. unfold header, BPF_RINGBUF_DISCARD_BIT.
  assert (0 <= rec_len r) by (unfold rec_len; lia).
  change (2 ^ 30) with 1073741824 in *. change 1073741824 with (2 ^ 30) at 2.
  destruct (rec_state_of r); [done| |].
  - rewrite (land_pow2 _ 30 0); [done|lia|]. change (2 ^ 30) with 1073741824.
    Z.to_euclidean_division_equations. lia.
  - rewrite (land_pow2 _ 30 1); [done|lia|]. change (2 ^ 30) with 1073741824.
    Z.to_euclidean_division_equations. lia.
Qed.

Lemma roundup_len_header r :
  rec_len r < 2 ^ 30 -> rec_state_of r <> RecBusy -> roundup_len (header r) = rec_tot r.
Proof.
  intros H Hb. unfold roundup_len, BPF_RINGBUF_HDR_SZ.
  assert (0 <= rec_len r) by (unfold rec_len; lia). change (2 ^ 30) with 1073741824 in H.
  rewrite Z.shiftl_mul_pow2, Z.shiftr_div_pow2 by lia. change (2 ^ 2) with 4.
  assert (E : u32 (u32 (header r) * 4) / 4 = rec_len r).
  { unfold header, BPF_RINGBUF_BUSY_BIT, BPF_RINGBUF_DISCARD_BIT.
    destruct (rec_state_of r); [done| |]; width_lia. }
  rewrite E, (wrap_small 32 (rec_len r + 8)) by (pow2; lia).
  rewrite (wrap_small 32 (rec_len r + 8 + 7)) by (pow2; lia).
  pose proof (rec_tot_bounds r). fold (rec_tot r). apply swrap_small; pow2; lia.
Qed.

(** Reading a record: what the log says. *)
Lemma read_record_spec d msk pos r l :
  holds d msk pos (r :: l) -> 0 <= pos -> pos + rec_tot r < 2 ^ 64 ->
  read_record d msk pos = Some (match rec_state_of r with
    | RecBusy => Busy
    | RecCommitted => Deliver (pos + rec_tot r) (sample r)
    | RecDiscarded => Skip (pos + rec_tot r)
    end).
Proof.
  intros (Hh & Hs & Hl & _) Hp Hb. unfold read_record. rewrite Hh. cbn [mbind option_bind].
  rewrite header_busy by done. pose proof (rec_tot_bounds r).
  assert (0 <= rec_len r) by (unfold rec_len; lia).
  destruct (rec_state_of r) eqn:E; cbn [negb bool_decide].
  - done.
  - rewrite header_discard, E by (done || congruence). rewrite bool_decide_true by done.
    rewrite roundup_len_header by (done || congruence). cbn [negb].
    rewrite (wrap_small 64) by lia.
    replace (Z.to_nat (header r)) with (length (sample r)).
    2: { unfold header, rec_len. rewrite E. lia. }
    unfold BPF_RINGBUF_HDR_SZ. rewrite bool_decide_true by done. cbn [mbind option_bind].
    by rewrite Hs.
  - rewrite header_discard, E by (done || congruence). rewrite bool_decide_true by done.
    rewrite bool_decide_false by done. rewrite roundup_len_header by (done || congruence).
    rewrite (wrap_small 64) by lia. done.
Qed.

Lemma total_cons r l : total (r :: l) = rec_tot r + total l.
Proof. done. Qed.

Section Theorems.
Context (sample_cb : list (list Z) -> list Z -> Z).

(** How far a pass over finished records gets when the callback may fail:
    the records consumed, and the error if it stopped there. *)
Fixpoint pass (dl : list (list Z)) (l : list rec) : list rec * option Z :=
  match l with
  | [] => ([], None)
  | r :: l =>
      match rec_state_of r with
      | RecCommitted =>
          let err := sample_cb dl (sample r) in
          if err <? 0 then ([r], Some err)
          else let '(c, e) := pass (dl ++ [sample r]) l in (r :: c, e)
      | _ => let '(c, e) := pass dl l in (r :: c, e)
      end
  end.

Lemma inner_loop_spec d msk l : forall fuel pos cnt dl got,
  holds d msk pos l -> 0 <= pos -> pos + total l < 2 ^ 64 ->
  0 <= cnt -> cnt + Z.of_nat (length l) < 2 ^ 63 -> (Z.to_nat (total l) < fuel)%nat ->
  let '(c, e) := pass dl (finished l) in
  inner_loop sample_cb d msk fuel pos (pos + total l) cnt dl got
  = Some (match e with
          | Some err => CbError err
          | None => if bool_decide (length (finished l) = length l) then CaughtUp else MetBusy
          end, pos + total c,
          cnt + Z.of_nat (length (samples c)) - (match e with Some _ => 1 | None => 0 end), dl ++ samples c,
          (got || negb (bool_decide (c = [])))%bool).
Proof.
  induction l as [|r l IH]; intros fuel pos cnt dl got Hh Hp Hb Hc Hn Hf.
  { destruct fuel as [|fuel]; [lia|]. cbn. rewrite Z.add_0_r.
    destruct (Z.ltb_spec pos pos); [lia|]. do 2 f_equal; [|by rewrite orb_false_r].
    f_equal; [|by rewrite app_nil_r]. f_equal. lia. }
  destruct fuel as [|fuel]; [lia|]. rewrite total_cons in Hb, Hf. pose proof (total_nonneg l).
  pose proof (rec_tot_bounds r) as Hrb. assert (0 <= rec_len r) by (unfold rec_len; lia).
  cbn [length] in Hn. pose proof Hh as (_ & _ & _ & Hh').
  cbn [inner_loop finished]. rewrite total_cons.
  destruct (Z.ltb_spec pos (pos + (rec_tot r + total l))); [|lia].
  rewrite (read_record_spec _ _ _ _ _ Hh) by lia. cbn [mbind option_bind].
  replace (pos + (rec_tot r + total l)) with (pos + rec_tot r + total l) by lia.
  destruct (rec_state_of r) eqn:Es.
  - cbn [pass samples omap list_omap total foldr length]. rewrite bool_decide_false by done.
    rewrite !Z.add_0_r, Z.sub_0_r, app_nil_r. cbn [bool_decide negb]. by rewrite orb_false_r.
  - cbn [pass]. rewrite Es. destruct (sample_cb dl (sample r) <? 0).
    + cbn [samples omap list_omap]. rewrite Es, total_cons. cbn [total foldr length].
      rewrite Z.add_0_r. rewrite bool_decide_false by done. cbn [negb]. rewrite orb_true_r.
      do 4 f_equal. lia.
    + specialize (IH fuel (pos + rec_tot r) (cnt + 1) (dl ++ [sample r]) true).
      assert (Hs64 : s64 (cnt + 1) = cnt + 1) by (apply swrap_small; pow2; lia). rewrite Hs64.
      destruct (pass (dl ++ [sample r]) (finished l)) as [c e].
      rewrite IH by (done || lia). cbn [samples omap list_omap length]. rewrite Es, total_cons.
      cbn [length]. rewrite <- app_assoc. rewrite (bool_decide_false (r :: c = [])) by done.
      cbn [negb orb]. rewrite orb_true_r.
      rewrite (bool_decide_ext (S (length (finished l)) = S (length l))
        (length (finished l) = length l)) by lia.
      fold (samples c). rewrite Z.add_assoc, Nat2Z.inj_succ.
      replace (cnt + Z.succ (Z.of_nat (length (samples c))))
        with (cnt + 1 + Z.of_nat (length (samples c))) by lia. done.
  - cbn [pass]. rewrite Es. specialize (IH fuel (pos + rec_tot r) cnt dl true).
    destruct (pass dl (finished l)) as [c e].
    rewrite IH by (done || lia). cbn [samples omap list_omap length]. rewrite Es, total_cons.
    rewrite (bool_decide_false (r :: c = [])) by done. cbn [negb orb]. rewrite orb_true_r.
    rewrite (bool_decide_ext (S (length (finished l)) = S (length l))
      (length (finished l) = length l)) by lia.
    fold (samples c). by rewrite Z.add_assoc.
Qed.

Lemma pass_no_error dl l :
  (forall h x, 0 <= sample_cb h x) -> Forall (fun r => rec_state_of r <> RecBusy) l ->
  pass dl l = (l, None).
Proof.
  intros Hcb. revert dl. induction l as [|r l IH]; intros dl Hf; [done|].
  inversion Hf as [|? ? Hr Hf']; subst. cbn [pass]. destruct (rec_state_of r); [done| |].
  - destruct (Z.ltb_spec (sample_cb dl (sample r)) 0) as [H|H]; [specialize (Hcb dl (sample r)); lia|].
    by rewrite IH.
  - by rewrite IH.
Qed.

Lemma finished_done l : Forall (fun r => rec_state_of r <> RecBusy) (finished l).
Proof.
  induction l as [|r l IH]; cbn [finished]; [constructor|].
  destruct (rec_state_of r) eqn:E; [constructor| |]; (constructor; [congruence|done]).
Qed.

Lemma pass_prefix dl l c e : pass dl l = (c, e) -> exists rest, l = c ++ rest /\ (e = None -> rest = []).
Proof.
  revert dl c e. induction l as [|r l IH]; intros dl c e; cbn [pass]; [intros [= <- <-]; by exists []|].
  destruct (rec_state_of r); [| |].
  - destruct (pass dl l) as [c' e'] eqn:E. intros [= <- <-].
    destruct (IH _ _ _ E) as (rest & -> & ?). by exists rest.
  - destruct (_ <? 0); [intros [= <- <-]; by exists l|].
    destruct (pass (dl ++ [sample r]) l) as [c' e'] eqn:E. intros [= <- <-].
    destruct (IH _ _ _ E) as (rest & -> & ?). by exists rest.
  - destruct (pass dl l) as [c' e'] eqn:E. intros [= <- <-].
    destruct (IH _ _ _ E) as (rest & -> & ?). by exists rest.
Qed.

Lemma finished_all l : length (finished l) = length l -> finished l = l.
Proof.
  induction l as [|r l IH]; cbn [finished]; [done|].
  destruct (rec_state_of r); cbn [length]; [done| |]; intros [= H]; by rewrite IH.
Qed.

(** One pass over the ring.  With the records [l] between the consumer
    and the producer position, a call ends after one pass over those in
    front of the first record still under construction: it delivers the
    samples of the committed ones in order and skips the discarded ones,
    moves the consumer position past exactly the records it passed, and
    returns how many it delivered; if the callback fails it stops right
    behind that record and returns the error.  With a callback that never
    fails every finished record is passed. *)
Theorem process_ring_delivers r l dl :
  holds (data r) (mask r) (consumer_pos r) l -> 0 <= consumer_pos r ->
  producer_pos r = consumer_pos r + total l -> producer_pos r < 2 ^ 64 ->
  Z.of_nat (length l) < 2 ^ 63 ->
  exists c e rest, pass dl (finished l) = (c, e) /\ finished l = c ++ rest /\
    ((forall h x, 0 <= sample_cb h x) -> c = finished l /\ e = None) /\
    ringbuf_process_ring sample_cb r dl
    = Some (match e with Some err => err | None => Z.of_nat (length (samples c)) end,
            set_consumer r (consumer_pos r + total c), dl ++ samples c).
Proof.
  intros Hh Hc Hp Hb Hl. destruct (pass dl (finished l)) as [c e] eqn:Ep.
  destruct (pass_prefix _ _ _ _ Ep) as (rest & Hrest & Hnone).
  exists c, e, rest. split; [done|]. split; [done|]. split.
  { intros Hcb. rewrite (pass_no_error dl _ Hcb (finished_done l)) in Ep. by injection Ep as <- <-. }
  unfold ringbuf_process_ring. cbn [outer_loop]. rewrite Hp.
  pose proof (inner_loop_spec (data r) (mask r) l
    (S (Z.to_nat (consumer_pos r + total l - consumer_pos r))) (consumer_pos r) 0 dl false
    Hh Hc ltac:(lia) ltac:(lia) ltac:(lia) ltac:(lia)) as Hi.
  rewrite Ep in Hi. rewrite Hi. cbn [mbind option_bind orb]. rewrite Z.add_0_l.
  destruct e as [err|]; [done|]. rewrite Z.sub_0_r.
  destruct (bool_decide (length (finished l) = length l)) eqn:Ef; [|done].
  apply bool_decide_eq_true, finished_all in Ef. rewrite Hnone, app_nil_r in Hrest by done.
  rewrite <- Hrest, Ef. destruct (bool_decide (l = [])) eqn:El; cbn [negb]; [done|].
  rewrite Z.sub_diag. cbn [Z.to_nat inner_loop].
  destruct (Z.ltb_spec (consumer_pos r + total l) (consumer_pos r + total l)); [lia|].
  cbn [mbind option_bind]. done.
Qed.
End Theorems.

(** ** The consumer against a concurrent producer *)

Section Concurrent.
Context (sample_cb : list (list Z) -> list Z -> Z).

(** Where the consumer is in [ringbuf_process_ring]. *)
Inductive cpc := AtOuter | AtInner | Returned (ret : Z).

(** The shared ring with the log of all records ever reserved (position 0
    is the first), and the consumer's variables. *)
Record conf := {
  c_ring : ring;
  c_log : list rec;
  c_pc : cpc;
  c_cons : Z;
  c_prod : Z;
  c_cnt : Z;
  c_got : bool;
  c_dl : list (list Z);
}.

(** What the producer may do to a record: finish one under construction. *)
Definition evolves (r r' : rec) : Prop :=
  r' = r \/ rec_state_of r = RecBusy /\ rec_len r' = rec_len r.

(** The producer reserves and finishes records behind the consumer position,
    and keeps the memory of those not yet released intact. *)
Definition producer_step (rg rg' : ring) (log log' : list rec) : Prop :=
  mask rg' = mask rg /\ consumer_pos rg' = consumer_pos rg /\
  (exists old new, log' = old ++ new /\ Forall2 evolves log old) /\
  producer_pos rg' = total log' /\ total log' < 2 ^ 64 /\
  forall k, total (take k log') = consumer_pos rg' -> (k <= length log')%nat ->
    holds (data rg') (mask rg') (consumer_pos rg') (drop k log').

Definition upd (s : conf) (rg : ring) (pc : cpc) (cons prod cnt : Z) (got : bool)
    (dl : list (list Z)) : conf :=
  {| c_ring := rg; c_log := c_log s; c_pc := pc; c_cons := cons; c_prod := prod; c_cnt := cnt;
     c_got := got; c_dl := dl |}.

Inductive step : conf -> conf -> Prop :=
  | step_env s rg' log' :
      producer_step (c_ring s) rg' (c_log s) log' ->
      step s {| c_ring := rg'; c_log := log'; c_pc := c_pc s; c_cons := c_cons s;
                c_prod := c_prod s; c_cnt := c_cnt s; c_got := c_got s; c_dl := c_dl s |}
  | step_call s ret :
      c_pc s = Returned ret ->
      step s (upd s (c_ring s) AtOuter (consumer_pos (c_ring s)) 0 0 false (c_dl s))
  | step_outer s :
      c_pc s = AtOuter ->
      step s (upd s (c_ring s) AtInner (c_cons s) (producer_pos (c_ring s)) (c_cnt s) false (c_dl s))
  | step_caught_up s :
      c_pc s = AtInner -> c_prod s <= c_cons s ->
      step s (upd s (c_ring s) (if c_got s then AtOuter else Returned (c_cnt s))
                (c_cons s) (c_prod s) (c_cnt s) (c_got s) (c_dl s))
  | step_busy s :
      c_pc s = AtInner -> c_cons s < c_prod s ->
      read_record (data (c_ring s)) (mask (c_ring s)) (c_cons s) = Some Busy ->
      step s (upd s (c_ring s) (Returned (c_cnt s)) (c_cons s) (c_prod s) (c_cnt s) (c_got s) (c_dl s))
  | step_skip s pos :
      c_pc s = AtInner -> c_cons s < c_prod s ->
      read_record (data (c_ring s)) (mask (c_ring s)) (c_cons s) = Some (Skip pos) ->
      step s (upd s (set_consumer (c_ring s) pos) AtInner pos (c_prod s) (c_cnt s) true (c_dl s))
  | step_deliver s pos x :
      c_pc s = AtInner -> c_cons s < c_prod s ->
      read_record (data (c_ring s)) (mask (c_ring s)) (c_cons s) = Some (Deliver pos x) ->
      step s (upd s (set_consumer (c_ring s) pos)
                (if sample_cb (c_dl s) x <? 0 then Returned (sample_cb (c_dl s) x) else AtInner)
                pos (c_prod s)
                (if sample_cb (c_dl s) x <? 0 then c_cnt s else s64 (c_cnt s + 1)) true
                (c_dl s ++ [x])).

Inductive reachable : conf -> conf -> Prop :=
  | reach_refl s : reachable s s
  | reach_step s s1 s2 : reachable s s1 -> step s1 s2 -> reachable s s2.

(** Consumer and log agree: [k] records are consumed. *)
Definition agree (s : conf) (k : nat) : Prop :=
  (k <= length (c_log s))%nat /\ consumer_pos (c_ring s) = total (take k (c_log s)) /\
  Forall (fun r => rec_state_of r <> RecBusy) (take k (c_log s)) /\
  c_dl s = samples (take k (c_log s)) /\ total (c_log s) < 2 ^ 64 /\
  producer_pos (c_ring s) = total (c_log s) /\
  holds (data (c_ring s)) (mask (c_ring s)) (consumer_pos (c_ring s)) (drop k (c_log s)) /\
  (c_pc s <> AtInner \/ exists j, (j <= length (c_log s))%nat /\ c_prod s = total (take j (c_log s))) /\
  match c_pc s with Returned _ => True | _ => c_cons s = consumer_pos (c_ring s) end.

Lemma total_app l l' : total (l ++ l') = total l + total l'.
Proof. induction l as [|r l IH]; [done|]. rewrite <- app_comm_cons, !total_cons, IH. lia. Qed.

Lemma total_take_S l k r : l !! k = Some r -> total (take (S k) l) = total (take k l) + rec_tot r.
Proof. intros H. rewrite (take_S_r _ _ _ H), total_app. cbn. lia. Qed.

Lemma total_take_mono l i j : (i <= j)%nat -> total (take i l) <= total (take j l).
Proof.
  intros H. replace j with (i + (j - i))%nat by lia.
  rewrite <- (take_drop i (take (i + (j - i)) l)), total_app, take_take.
  replace (i `min` (i + (j - i)))%nat with i by lia.
  pose proof (total_nonneg (drop i (take (i + (j - i)) l))). lia.
Qed.

(** A position in front of another record boundary has a record. *)
Lemma total_take_lt l i j :
  (j <= length l)%nat -> total (take i l) < total (take j l) -> exists r, l !! i = Some r.
Proof.
  intros Hj H. apply lookup_lt_is_Some. destruct (decide (i < j)%nat); [lia|].
  pose proof (total_take_mono l j i ltac:(lia)). lia.
Qed.

Lemma evolves_total log old k :
  Forall2 evolves log old -> total (take k old) = total (take k log).
Proof.
  intros H. revert k. induction H as [|r r' log old He _ IH]; intros [|k]; [done..|].
  cbn [take]. rewrite !total_cons, IH. destruct He as [->|[_ He]]; [done|].
  unfold rec_tot. by rewrite He.
Qed.

Lemma evolves_done log old k :
  Forall2 evolves log old -> Forall (fun r => rec_state_of r <> RecBusy) (take k log) ->
  take k old = take k log.
Proof.
  intros H. revert k. induction H as [|r r' log old He _ IH]; intros [|k] Hd; [done..|].
  cbn [take] in *. inversion Hd as [|? ? Hr Hd']; subst. rewrite IH by done.
  destruct He as [->|[He _]]; done.
Qed.

Lemma agree_env s rg' log' k :
  agree s k -> producer_step (c_ring s) rg' (c_log s) log' ->
  agree {| c_ring := rg'; c_log := log'; c_pc := c_pc s; c_cons := c_cons s;
           c_prod := c_prod s; c_cnt := c_cnt s; c_got := c_got s; c_dl := c_dl s |} k.
Proof.
  intros (Hk & Hc & Hd & Hdl & Ht & Hp & Hh & Hj & Hpc) (Hm & Hcp & (old & new & -> & Hev) & Hpp & Htt & Hho).
  pose proof (Forall2_length _ _ _ Hev) as Hlen.
  assert (Htake : forall i, (i <= length (c_log s))%nat -> take i (old ++ new) = take i old)
    by (intros i Hi; apply take_app_le; lia).
  assert (Hsame : take k (old ++ new) = take k (c_log s))
    by (rewrite Htake by done; by apply evolves_done).
  unfold agree. cbn [c_ring c_log c_pc c_cons c_prod c_dl]. rewrite Hcp, Hsame.
  split_and!; try done.
  - rewrite length_app. lia.
  - rewrite <- Hcp. apply Hho; [|rewrite length_app; lia]. by rewrite Hsame, <- Hc, Hcp.
  - destruct Hj as [?|(j & Hj1 & Hj2)]; [by left|]. right. exists j. rewrite length_app.
    split; [lia|]. rewrite Htake by done. by rewrite (evolves_total _ _ _ Hev).
Qed.

(** The record in front of the consumer. *)
Lemma agree_record s k :
  agree s k -> c_pc s = AtInner -> c_cons s < c_prod s ->
  exists r, c_log s !! k = Some r /\
    read_record (data (c_ring s)) (mask (c_ring s)) (c_cons s)
    = Some (match rec_state_of r with
            | RecBusy => Busy
            | RecCommitted => Deliver (total (take (S k) (c_log s))) (sample r)
            | RecDiscarded => Skip (total (take (S k) (c_log s)))
            end) /\
    holds (data (c_ring s)) (mask (c_ring s)) (total (take (S k) (c_log s))) (drop (S k) (c_log s)).
Proof.
  intros (Hk & Hc & Hd & Hdl & Ht & Hp & Hh & Hj & Hpc) Hin Hlt. rewrite Hin in Hj, Hpc.
  destruct Hj as [?|(j & Hj1 & Hj2)]; [done|].
  destruct (total_take_lt (c_log s) k j Hj1) as [r Hr]; [lia|]. exists r. split; [done|].
  rewrite (drop_S _ _ _ Hr), Hc in Hh. rewrite (total_take_S _ _ _ Hr).
  pose proof (total_take_mono (c_log s) (S k) (length (c_log s))
    ltac:(apply lookup_lt_Some in Hr; lia)) as Hm. rewrite firstn_all, (total_take_S _ _ _ Hr) in Hm.
  pose proof (total_nonneg (take k (c_log s))).
  rewrite Hpc, Hc, (read_record_spec _ _ _ _ _ Hh) by lia. split; [done|]. by destruct Hh as (_ & _ & _ & Hh).
Qed.

Lemma samples_take_S l k r :
  l !! k = Some r ->
  samples (take (S k) l)
  = samples (take k l) ++ match rec_state_of r with RecCommitted => [sample r] | _ => [] end.
Proof.
  intros H. rewrite (take_S_r _ _ _ H). unfold samples. rewrite omap_app. cbn.
  by destruct (rec_state_of r).
Qed.

Lemma agree_consume s k r pc' cnt dl' :
  agree s k -> c_pc s = AtInner -> c_log s !! k = Some r -> rec_state_of r <> RecBusy ->
  holds (data (c_ring s)) (mask (c_ring s)) (total (take (S k) (c_log s))) (drop (S k) (c_log s)) ->
  dl' = samples (take (S k) (c_log s)) ->
  agree (upd s (set_consumer (c_ring s) (total (take (S k) (c_log s)))) pc'
           (total (take (S k) (c_log s))) (c_prod s) cnt true dl') (S k).
Proof.
  intros (Hk & Hc & Hd & Hdl & Ht & Hp & Hh & Hj & Hpc) Hin Hr Hb Hh' ->.
  unfold agree, upd. cbn [c_ring c_log c_pc c_cons c_prod c_dl set_consumer data mask consumer_pos
    producer_pos]. pose proof (lookup_lt_Some _ _ _ Hr). split_and!; try done.
  - rewrite (take_S_r _ _ _ Hr). apply Forall_app. split; [done|]. by repeat constructor.
  - rewrite Hin in Hj. destruct Hj as [?|Hj]; [done|]. by right.
  - by destruct pc'.
Qed.

Lemma agree_step s s' k : agree s k -> step s s' -> exists k', agree s' k'.
Proof.
  intros Ha Hs. destruct Hs as [s rg' log' Hps|s ret Hpc|s Hpc|s Hpc Hge|s Hpc Hlt Hrd|s pos Hpc Hlt Hrd
    |s pos x Hpc Hlt Hrd].
  - exists k. by apply agree_env.
  - exists k. destruct Ha as (Hk & Hc & Hd & Hdl & Ht & Hp & Hh & Hj & _).
    split_and!; try done. by left.
  - exists k. destruct Ha as (Hk & Hc & Hd & Hdl & Ht & Hp & Hh & Hj & Hcons).
    rewrite Hpc in Hcons. split_and!; try done. right. exists (length (c_log s)).
    cbn. split; [done|]. by rewrite firstn_all.
  - exists k. destruct Ha as (Hk & Hc & Hd & Hdl & Ht & Hp & Hh & Hj & Hcons).
    rewrite Hpc in Hcons. split_and!; try done; cbn; destruct (c_got s); try done; by left.
  - exists k. destruct Ha as (Hk & Hc & Hd & Hdl & Ht & Hp & Hh & Hj & Hcons).
    split_and!; try done. by left.
  - exists (S k). destruct (agree_record s k Ha Hpc Hlt) as (r & Hr & Hrr & Hh').
    rewrite Hrd in Hrr. destruct (rec_state_of r) eqn:Es; [done|done|]. injection Hrr as ->.
    apply (agree_consume s k r); try done; [congruence|].
    destruct Ha as (_ & _ & _ & Hdl & _). rewrite (samples_take_S _ _ _ Hr), Es, app_nil_r. done.
  - exists (S k). destruct (agree_record s k Ha Hpc Hlt) as (r & Hr & Hrr & Hh').
    rewrite Hrd in Hrr. destruct (rec_state_of r) eqn:Es; [done| |done]. injection Hrr as -> ->.
    apply (agree_consume s k r); try done; [congruence|].
    destruct Ha as (_ & _ & _ & Hdl & _). by rewrite (samples_take_S _ _ _ Hr), Es, Hdl.
Qed.

(** C7: exactly once, in order, against a concurrent producer.  However
    the consumer's steps and the producer's interleave, over any number of
    calls, at every moment the samples delivered are exactly those of the
    committed records among the first k of the log, in order, where k
    records end at the published consumer position; none of these k is
    still under construction; and the consumer's next read, when it is
    about to read a record, has a result. *)
Theorem ring_exactly_once s0 s :
  agree s0 0 -> reachable s0 s ->
  exists k, (k <= length (c_log s))%nat /\ c_dl s = samples (take k (c_log s)) /\
    consumer_pos (c_ring s) = total (take k (c_log s)) /\
    Forall (fun r => rec_state_of r <> RecBusy) (take k (c_log s)) /\
    (c_pc s = AtInner -> c_cons s < c_prod s ->
     is_Some (read_record (data (c_ring s)) (mask (c_ring s)) (c_cons s))).
Proof.
  intros Ha Hr. assert (exists k, agree s k) as [k Hk].
  { induction Hr as [s|s s1 s2 _ IH Hs]; [by exists 0%nat|]. destruct (IH Ha) as [k Hk].
    by eapply agree_step. }
  exists k. pose proof Hk as (H1 & H2 & H3 & H4 & _). split_and!; try done.
  intros Hpc Hlt. destruct (agree_record s k Hk Hpc Hlt) as (r & _ & -> & _). by eexists.
Qed.
End Concurrent.

(** ** Concrete runs *)

(** A ring of 64 bytes with a committed, a discarded and an unfinished
    record. *)
Definition ex_recs : list rec :=
  [ {| rec_state_of := RecCommitted; sample := [1; 2; 3] |};
    {| rec_state_of := RecDiscarded; sample := [9] |};
    {| rec_state_of := RecBusy; sample := [] |} ].

Definition ex_data : list Z :=
  let half := [3; 0; 0; 0; 0; 0; 0; 0; 1; 2; 3; 0; 0; 0; 0; 0;
               1; 0; 0; 64; 0; 0; 0; 0; 9; 0; 0; 0; 0; 0; 0; 0;
               0; 0; 0; 128; 0; 0; 0; 0] ++ replicate 24 0 in half ++ half.

Definition ex_ring : ring := {| data := ex_data; consumer_pos := 0; producer_pos := 40; mask := 63 |}.

Lemma ex_holds : holds ex_data 63 0 ex_recs.
Proof. vm_compute. repeat split. Qed.

Lemma process_ring_delivers_witness :
  exists ret r', ringbuf_process_ring (fun _ _ => 0) ex_ring [] = Some (ret, r', [[1; 2; 3]]) /\
    ret = 1 /\ consumer_pos r' = 32.
Proof.
  destruct (process_ring_delivers (fun _ _ => 0) ex_ring ex_recs []) as (c & e & rest & H1 & _ & _ & H2).
  - exact ex_holds.
  - vm_compute. congruence.
  - vm_compute. reflexivity.
  - vm_compute. reflexivity.
  - vm_compute. reflexivity.
  - vm_compute in H1. injection H1 as <- <-. eexists _, _. split; [exact H2|]. split; reflexivity.
Defined.

Definition ex_conf : conf :=
  {| c_ring := ex_ring; c_log := ex_recs; c_pc := AtOuter; c_cons := 0; c_prod := 0; c_cnt := 0;
     c_got := false; c_dl := [] |}.

Definition ex_conf1 : conf := upd ex_conf ex_ring AtInner 0 40 0 false [].

Lemma ex_agree : agree ex_conf 0.
Proof.
  unfold agree. split; [vm_compute; lia|]. split; [reflexivity|]. split; [constructor|].
  split; [reflexivity|]. split; [reflexivity|]. split; [reflexivity|]. split; [exact ex_holds|].
  split; [left; discriminate|reflexivity].
Qed.

Lemma ring_exactly_once_witness :
  exists k, (k <= length ex_recs)%nat /\ c_dl ex_conf1 = samples (take k ex_recs) /\
    is_Some (read_record ex_data 63 0).
Proof.
  destruct (ring_exactly_once (fun _ _ => 0) ex_conf ex_conf1) as (k & H1 & H2 & _ & _ & H3).
  - exact ex_agree.
  - eapply reach_step; [apply reach_refl|]. apply (step_outer _ ex_conf). reflexivity.
  - exists k. split; [exact H1|]. split; [exact H2|]. apply H3; reflexivity.
Defined.
