(* ===== verification/Btf.v ===== *)
(** * BTF: loading, indexing and querying type information
    (src/plugin/libbpf-test/libbpf/src/btf.c, btf.h and the format's header
    include/uapi/linux/btf.h)

    [btf_new] copies a BTF image, checks its header, converts it in place
    from the other byte order if the magic number says so, checks the string
    section and indexes the types of the type section.  The accessors then
    follow the index.  Only the contiguous representation that loading
    builds is modelled ([btf_is_modifiable] is false on it); a split BTF
    names its base.

    The image is the list of its bytes; [hdr], [types_data] and [strs_data]
    are offsets in it, [type_offs] is the byte content of the index array.
    Allocation is the parameter [alloc_ok].  An outer [None] is undefined
    behaviour (a load or store outside an object, a NULL dereference) or a
    loop or recursion that used up its fuel. *)

From S2P Require Import Prelude StrSet.

Abbreviation BTF_MAGIC := 60319 (only parsing).
Abbreviation BTF_MAX_NR_TYPES := 2147483647 (only parsing).
Abbreviation BTF_MAX_STR_OFFSET := 2147483647 (only parsing).

(** ** Kinds *)

Inductive kind :=
  | KIND_UNKN | KIND_INT | KIND_PTR | KIND_ARRAY | KIND_STRUCT | KIND_UNION | KIND_ENUM
  | KIND_FWD | KIND_TYPEDEF | KIND_VOLATILE | KIND_CONST | KIND_RESTRICT | KIND_FUNC
  | KIND_FUNC_PROTO | KIND_VAR | KIND_DATASEC | KIND_FLOAT | KIND_DECL_TAG | KIND_TYPE_TAG
  | KIND_ENUM64
  | KIND_OTHER.

#[export] Instance kind_eq_dec : EqDecision kind.
Proof. solve_decision. Defined.

Definition kind_of (k : Z) : kind :=
  match k with
  | 0 => KIND_UNKN | 1 => KIND_INT | 2 => KIND_PTR | 3 => KIND_ARRAY | 4 => KIND_STRUCT
  | 5 => KIND_UNION | 6 => KIND_ENUM | 7 => KIND_FWD | 8 => KIND_TYPEDEF | 9 => KIND_VOLATILE
  | 10 => KIND_CONST | 11 => KIND_RESTRICT | 12 => KIND_FUNC | 13 => KIND_FUNC_PROTO
  | 14 => KIND_VAR | 15 => KIND_DATASEC | 16 => KIND_FLOAT | 17 => KIND_DECL_TAG
  | 18 => KIND_TYPE_TAG | 19 => KIND_ENUM64
  | _ => KIND_OTHER
  end.

Definition BTF_INFO_KIND (info : Z) : Z := Z.land (Z.shiftr info 24) 31.

Definition BTF_INFO_VLEN (info : Z) : Z := Z.land info 65535.

(** ** Byte order *)

Definition bswap16_at (m : list Z) (off : Z) : option (list Z) :=
  v ← ld16 m off; st16 m off (bswap16 v).

Definition bswap32_at (m : list Z) (off : Z) : option (list Z) :=
  v ← ld32 m off; st32 m off (bswap32 v).

(** The fields of the element at [p], one after the other. *)
Fixpoint bswap_fields (m : list Z) (p : Z) (fields : list Z) : option (list Z) :=
  match fields with
  | [] => Some m
  | f :: fs => m ← bswap32_at m (p + f); bswap_fields m p fs
  end.

(** The loops over the [n] elements of [sz] bytes that follow a type. *)
Fixpoint bswap_elems (fields : list Z) (sz : Z) (m : list Z) (p : Z) (n : nat) : option (list Z) :=
  match n with
  | O => Some m
  | S n => m ← bswap_fields m p fields; bswap_elems fields sz m (p + sz) n
  end.

Definition btf_bswap_hdr (m : list Z) (h : Z) : option (list Z) :=
  m ← bswap16_at m h;
  bswap_fields m h [4; 8; 12; 16; 20].

Definition btf_bswap_type_base (m : list Z) (t : Z) : option (list Z) :=
  bswap_fields m t [0; 4; 8].

Definition btf_bswap_type_rest (m : list Z) (t : Z) : option (Z * list Z) :=
  info ← ld32 m (t + 4);
  let vlen := Z.to_nat (BTF_INFO_VLEN info) in
  match kind_of (BTF_INFO_KIND info) with
  | KIND_FWD | KIND_CONST | KIND_VOLATILE | KIND_RESTRICT | KIND_PTR | KIND_TYPEDEF
  | KIND_FUNC | KIND_FLOAT | KIND_TYPE_TAG => Some (0, m)
  | KIND_INT => m ← bswap32_at m (t + 12); Some (0, m)
  | KIND_ENUM => m ← bswap_elems [0; 4] 8 m (t + 12) vlen; Some (0, m)
  | KIND_ENUM64 => m ← bswap_elems [0; 4; 8] 12 m (t + 12) vlen; Some (0, m)
  | KIND_ARRAY => m ← bswap_fields m (t + 12) [0; 4; 8]; Some (0, m)
  | KIND_STRUCT | KIND_UNION =>
      m ← bswap_elems [0; 4; 8] 12 m (t + 12) vlen; Some (0, m)
  | KIND_FUNC_PROTO => m ← bswap_elems [0; 4] 8 m (t + 12) vlen; Some (0, m)
  | KIND_VAR => m ← bswap32_at m (t + 12); Some (0, m)
  | KIND_DATASEC => m ← bswap_elems [0; 4; 8] 12 m (t + 12) vlen; Some (0, m)
  | KIND_DECL_TAG => m ← bswap32_at m (t + 12); Some (0, m)
  | KIND_UNKN | KIND_OTHER => Some (- EINVAL, m)
  end.

(** ** The object *)

Inductive btf := Btf {
  raw_data : list Z;
  raw_data_swapped : option (list Z);
  raw_size : Z;
  swapped_endian : bool;
  types_data : Z;
  type_offs : list Z;
  type_offs_cap : Z;
  nr_types : Z;
  base_btf : option btf;
  start_id : Z;
  start_str_off : Z;
  strs_data : Z;
  ptr_sz : Z;
}.

Definition hdr_len (m : list Z) : option Z := ld32 m 4.
Definition hdr_type_off (m : list Z) : option Z := ld32 m 8.
Definition hdr_type_len (m : list Z) : option Z := ld32 m 12.
Definition hdr_str_off (m : list Z) : option Z := ld32 m 16.
Definition hdr_str_len (m : list Z) : option Z := ld32 m 20.

Definition btf__get_nr_types (b : btf) : Z := u32 (start_id b + nr_types b - 1).

Definition btf__type_cnt (b : btf) : Z := u32 (start_id b + nr_types b).

(** ** Loading *)

(** The size in bytes of the type at [t]. *)
Definition btf_type_size (m : list Z) (t : Z) : option Z :=
  info ← ld32 m (t + 4);
  let vlen := BTF_INFO_VLEN info in
  Some match kind_of (BTF_INFO_KIND info) with
  | KIND_FWD | KIND_CONST | KIND_VOLATILE | KIND_RESTRICT | KIND_PTR | KIND_TYPEDEF
  | KIND_FUNC | KIND_FLOAT | KIND_TYPE_TAG => 12
  | KIND_INT => 12 + 4
  | KIND_ENUM => 12 + vlen * 8
  | KIND_ENUM64 => 12 + vlen * 12
  | KIND_ARRAY => 12 + 12
  | KIND_STRUCT | KIND_UNION => 12 + vlen * 12
  | KIND_FUNC_PROTO => 12 + vlen * 8
  | KIND_VAR => 12 + 4
  | KIND_DATASEC => 12 + vlen * 12
  | KIND_DECL_TAG => 12 + 4
  | KIND_UNKN | KIND_OTHER => - EINVAL
  end.

(** The checks of a header in native order. *)
Definition hdr_layout (m : list Z) (raw_size : Z) (sw : bool) : option (Z * list Z * bool) :=
  hl ← hdr_len m; to ← hdr_type_off m; tl ← hdr_type_len m;
  so ← hdr_str_off m; sl ← hdr_str_len m;
  if raw_size <? hl then Some (- EINVAL, m, sw) else
  let meta_left := raw_size - hl in
  if meta_left <? so + sl then Some (- EINVAL, m, sw) else
  if to + tl >? so then Some (- EINVAL, m, sw) else
  if negb (to mod 4 =? 0) then Some (- EINVAL, m, sw) else
  Some (0, m, sw).

(** The return code, the image with its header in native order, and
    [swapped_endian]. *)
Definition btf_parse_hdr (m : list Z) (raw_size : Z) : option (Z * list Z * bool) :=
  if raw_size <? 24 then Some (- EINVAL, m, false) else
  magic ← ld16 m 0;
  hl0 ← hdr_len m;
  r ← (if magic =? bswap16 BTF_MAGIC then
         if negb (bswap32 hl0 =? 24) then Some (inl (- ENOTSUP, m, true))
         else m ← btf_bswap_hdr m 0; Some (inr (m, true))
       else if negb (magic =? BTF_MAGIC) then Some (inl (- EINVAL, m, false))
       else Some (inr (m, false)));
  match r with
  | inl r => Some r
  | inr (m, sw) => hdr_layout m raw_size sw
  end.

Definition btf_parse_str_sec (m : list Z) (start : Z) (has_base : bool) : option Z :=
  sl ← hdr_str_len m;
  if has_base && (sl =? 0) then Some 0 else
  bad ← (if sl =? 0 then Some true
         else if u32 (sl - 1) >? BTF_MAX_STR_OFFSET then Some true
         else c ← ld8 m (start + sl - 1); Some (negb (c =? 0)));
  if (bad : bool) then Some (- EINVAL) else
  bad ← (if has_base then Some false else c ← ld8 m start; Some (negb (c =? 0)));
  if (bad : bool) then Some (- EINVAL) else Some 0.

Section Load.
Context (alloc_ok : Z -> bool).

Definition btf_add_type_offs_mem (offs : list Z) (cap nr add_cnt : Z) :=
  libbpf_add_mem alloc_ok offs cap 4 nr BTF_MAX_NR_TYPES add_cnt.

Definition btf_add_type_idx_entry (offs : list Z) (cap nr type_off : Z)
    : option (Z * list Z * Z) :=
  match btf_add_type_offs_mem offs cap nr 1 with
  | None => Some (- ENOMEM, offs, cap)
  | Some (p, offs, cap) => offs ← st32 offs p type_off; Some (0, offs, cap)
  end.

(** The state of the loop of [btf_parse_type_sec]: the image, the index and
    the number of types. *)
Record pstate := {
  p_raw : list Z;
  p_offs : list Z;
  p_cap : Z;
  p_nr : Z;
}.

Fixpoint parse_types (fuel : nat) (sw : bool) (types_data end_type next_type : Z) (st : pstate)
    : option (Z * pstate) :=
  match fuel with
  | O => None
  | S fuel =>
      if next_type + 12 <=? end_type then
        m ← (if sw then btf_bswap_type_base (p_raw st) next_type else Some (p_raw st));
        let st := {| p_raw := m; p_offs := p_offs st; p_cap := p_cap st; p_nr := p_nr st |} in
        type_size ← btf_type_size m next_type;
        if type_size <? 0 then Some (type_size, st) else
        if next_type + type_size >? end_type then Some (- EINVAL, st) else
        '(e, m) ← (if sw then btf_bswap_type_rest m next_type else Some (0, m));
        let st := {| p_raw := m; p_offs := p_offs st; p_cap := p_cap st; p_nr := p_nr st |} in
        if negb (e =? 0) then Some (- EINVAL, st) else
        '(err, offs, cap) ← btf_add_type_idx_entry (p_offs st) (p_cap st) (p_nr st)
                              (u32 (next_type - types_data));
        let st' := {| p_raw := m; p_offs := offs; p_cap := cap; p_nr := p_nr st |} in
        if negb (err =? 0) then Some (err, st') else
        parse_types fuel sw types_data end_type (next_type + type_size)
          {| p_raw := m; p_offs := offs; p_cap := cap; p_nr := u32 (p_nr st + 1) |}
      else if negb (next_type =? end_type) then Some (- EINVAL, st)
      else Some (0, st)
  end.

(** Every iteration advances by the 12 bytes of a [struct btf_type] at
    least, so [type_len + 1] iterations are enough. *)
Definition btf_parse_type_sec (m : list Z) (sw : bool) (types_data : Z) : option (Z * pstate) :=
  tl ← hdr_type_len m;
  parse_types (S (Z.to_nat tl)) sw types_data (types_data + tl) types_data
    {| p_raw := m; p_offs := []; p_cap := 0; p_nr := 0 |}.

(** [btf_new]: [inl] is the error pointer. *)
Definition btf_new (data : list Z) (size : Z) (base : option btf) : option (Z + btf) :=
  if negb (alloc_ok 120) then Some (inl (- ENOMEM)) else
  '(sid, soff) ← match base with
                 | None => Some (1, 0)
                 | Some bb => sl ← hdr_str_len (raw_data bb); Some (s32 (btf__type_cnt bb), s32 sl)
                 end;
  if negb (alloc_ok size) then Some (inl (- ENOMEM)) else
  raw ← ld_bytes data 0 (Z.to_nat size);
  '(err, raw, sw) ← btf_parse_hdr raw size;
  if negb (err =? 0) then Some (inl err) else
  hl ← hdr_len raw; so ← hdr_str_off raw; to ← hdr_type_off raw;
  let strs := hl + so in
  let types := hl + to in
  err ← btf_parse_str_sec raw strs (bool_decide (is_Some base));
  if negb (err =? 0) then Some (inl err) else
  '(err, st) ← btf_parse_type_sec raw sw types;
  if negb (err =? 0) then Some (inl err) else
  Some (inr {| raw_data := p_raw st; raw_data_swapped := None; raw_size := size;
               swapped_endian := sw; types_data := types; type_offs := p_offs st;
               type_offs_cap := p_cap st; nr_types := p_nr st; base_btf := base;
               start_id := sid; start_str_off := soff; strs_data := strs; ptr_sz := 0 |}).

(** [btf_new_empty]: a header and, without a base, the empty string. *)
Definition btf_new_empty (base : option btf) : option (Z + btf) :=
  if negb (alloc_ok 120) then Some (inl (- ENOMEM)) else
  '(sid, soff) ← match base with
                 | None => Some (1, 0)
                 | Some bb => sl ← hdr_str_len (raw_data bb); Some (s32 (btf__type_cnt bb), s32 sl)
                 end;
  let str_len := match base with None => 1 | Some _ => 0 end in
  let size := 24 + str_len in
  if negb (alloc_ok size) then Some (inl (- ENOMEM)) else
  let raw := replicate (Z.to_nat size) 0 in
  raw ← st32 raw 4 24;
  raw ← st16 raw 0 BTF_MAGIC;
  raw ← st8 raw 2 1;
  hl ← hdr_len raw;
  raw ← st32 raw 20 str_len;
  Some (inr {| raw_data := raw; raw_data_swapped := None; raw_size := size;
               swapped_endian := false; types_data := hl; type_offs := []; type_offs_cap := 0;
               nr_types := 0; base_btf := base; start_id := sid; start_str_off := soff;
               strs_data := hl; ptr_sz := 8 |}).

(** ** Writing out *)

Definition is_host_big_endian : bool := false.

Inductive btf_endianness := BTF_LITTLE_ENDIAN | BTF_BIG_ENDIAN.

#[global] Instance btf_endianness_eq_dec : EqDecision btf_endianness.
Proof. solve_decision. Defined.

Definition btf__endianness (b : btf) : btf_endianness :=
  if is_host_big_endian then if swapped_endian b then BTF_LITTLE_ENDIAN else BTF_BIG_ENDIAN
  else if swapped_endian b then BTF_BIG_ENDIAN else BTF_LITTLE_ENDIAN.

Definition with_swap (b : btf) (sw : bool) (swapped : option (list Z)) (size : Z) : btf :=
  {| raw_data := raw_data b; raw_data_swapped := swapped; raw_size := size;
     swapped_endian := sw; types_data := types_data b; type_offs := type_offs b;
     type_offs_cap := type_offs_cap b; nr_types := nr_types b; base_btf := base_btf b;
     start_id := start_id b; start_str_off := start_str_off b; strs_data := strs_data b;
     ptr_sz := ptr_sz b |}.

Definition btf__set_endianness (b : btf) (endian : btf_endianness) : Z * btf :=
  let sw := negb (eqb is_host_big_endian (bool_decide (endian = BTF_BIG_ENDIAN))) in
  (0, with_swap b sw (if sw then raw_data_swapped b else None) (raw_size b)).

Fixpoint swap_types (m : list Z) (p : Z) (offs : list Z) (i : Z) (n : nat)
    : option (option (list Z)) :=
  match n with
  | O => Some (Some m)
  | S n =>
      o ← ld32 offs (4 * i);
      '(err, m) ← btf_bswap_type_rest m (p + o);
      if negb (err =? 0) then Some None else
      m ← btf_bswap_type_base m (p + o);
      swap_types m p offs (i + 1) n
  end.

(** [btf_get_raw_data]: the inner [None] is NULL. *)
Definition btf_get_raw_data (b : btf) (swap_endian : bool) : option (option (list Z * Z)) :=
  match (if swap_endian then raw_data_swapped b else Some (raw_data b)) with
  | Some data => Some (Some (data, raw_size b))
  | None =>
      let m := raw_data b in
      hl ← hdr_len m; tl ← hdr_type_len m; sl ← hdr_str_len m;
      let data_sz := u32 (hl + tl + sl) in
      if negb (alloc_ok data_sz) then Some None else
      let data := replicate (Z.to_nat data_sz) 0 in
      bs ← ld_bytes m 0 (Z.to_nat hl);
      data ← st_bytes data 0 bs;
      data ← (if swap_endian then btf_bswap_hdr data 0 else Some data);
      bs ← ld_bytes m (types_data b) (Z.to_nat tl);
      data ← st_bytes data hl bs;
      r ← (if swap_endian
           then swap_types data hl (type_offs b) 0 (Z.to_nat (nr_types b))
           else Some (Some data));
      match r with
      | None => Some None
      | Some data =>
          bs ← ld_bytes m (strs_data b) (Z.to_nat sl);
          data ← st_bytes data (hl + tl) bs;
          Some (Some (data, data_sz))
      end
  end.

Definition btf__raw_data (b : btf) : option (option (list Z * Z) * btf) :=
  r ← btf_get_raw_data b (swapped_endian b);
  match r with
  | None => Some (None, b)
  | Some (data, sz) =>
      Some (Some (data, sz),
            with_swap b (swapped_endian b)
              (if swapped_endian b then Some data else raw_data_swapped b) sz)
  end.
End Load.

(** ** Queries *)

(** A pointer to a type: the static [btf_void], or an offset in the image of
    the BTF object that holds the type. *)
Inductive tptr :=
  | TVoid
  | TAt (m : list Z) (off : Z).

Definition t_name_off (t : tptr) : option Z :=
  match t with TVoid => Some 0 | TAt m o => ld32 m o end.
Definition t_info (t : tptr) : option Z :=
  match t with TVoid => Some 0 | TAt m o => ld32 m (o + 4) end.
(** The union of [size] and [type]. *)
Definition t_size (t : tptr) : option Z :=
  match t with TVoid => Some 0 | TAt m o => ld32 m (o + 8) end.
(** The word at byte [k] behind the type. *)
Definition t_word (t : tptr) (k : Z) : option Z :=
  match t with TVoid => None | TAt m o => ld32 m (o + 12 + k) end.

Definition btf_kind (t : tptr) : option Z := i ← t_info t; Some (BTF_INFO_KIND i).
Definition btf_vlen (t : tptr) : option Z := i ← t_info t; Some (BTF_INFO_VLEN i).

Fixpoint btf_type_by_id (b : btf) (type_id : Z) {struct b} : option tptr :=
  if type_id =? 0 then Some TVoid else
  if type_id <? u32 (start_id b) then
    match base_btf b with
    | None => None
    | Some bb => btf_type_by_id bb type_id
    end
  else
    o ← ld32 (type_offs b) (4 * u32 (type_id - start_id b));
    Some (TAt (raw_data b) (types_data b + o)).

(** The inner [None] is NULL. *)
Definition btf__type_by_id (b : btf) (type_id : Z) : option (option tptr) :=
  if type_id >=? u32 (start_id b + nr_types b) then Some None
  else t ← btf_type_by_id b type_id; Some (Some t).

(** A string: an image and an offset in it. *)
Fixpoint btf__str_by_offset (b : btf) (offset : Z) {struct b} : option (option (list Z * Z)) :=
  if offset <? u32 (start_str_off b) then
    match base_btf b with
    | None => None
    | Some bb => btf__str_by_offset bb offset
    end
  else
    sl ← hdr_str_len (raw_data b);
    Some (if u32 (offset - start_str_off b) <? sl
          then Some (raw_data b, strs_data b + u32 (offset - start_str_off b))
          else None).

Definition btf__name_by_offset := btf__str_by_offset.

(** [name && !strcmp(s, name)] for the name at [offset]. *)
Definition name_is (b : btf) (offset : Z) (s : list Z) : option bool :=
  p ← btf__name_by_offset b offset;
  match p with
  | None => Some false
  | Some (m, o) => n ← cstr m o; Some (strcmp s n =? 0)
  end.

Definition long_aliases : list string :=
  ["long"; "long int"; "int long"; "unsigned long"; "long unsigned"; "unsigned long int";
   "unsigned int long"; "long unsigned int"; "long int unsigned"; "int unsigned long";
   "int long unsigned"]%string.

Fixpoint long_scan (b : btf) (i : Z) (n : nat) : option Z :=
  match n with
  | O => Some (-1)
  | S n =>
      r ← btf__type_by_id b i;
      t ← r;
      k ← btf_kind t;
      if negb (bool_decide (kind_of k = KIND_INT)) then long_scan b (i + 1) n else
      size ← t_size t;
      if negb (size =? 4) && negb (size =? 8) then long_scan b (i + 1) n else
      off ← t_name_off t;
      p ← btf__name_by_offset b off;
      match p with
      | None => long_scan b (i + 1) n
      | Some (m, o) =>
          name ← cstr m o;
          if existsb (λ a, strcmp name (lit a) =? 0) long_aliases then Some size
          else long_scan b (i + 1) n
      end
  end.

Definition determine_ptr_size (b : btf) : option Z :=
  let own := long_scan b 1 (Z.to_nat (btf__type_cnt b - 1)) in
  match base_btf b with
  | Some bb => if ptr_sz bb >? 0 then Some (ptr_sz bb) else own
  | None => own
  end.

Definition with_ptr_sz (b : btf) (sz : Z) : btf :=
  {| raw_data := raw_data b; raw_data_swapped := raw_data_swapped b; raw_size := raw_size b;
     swapped_endian := swapped_endian b; types_data := types_data b; type_offs := type_offs b;
     type_offs_cap := type_offs_cap b; nr_types := nr_types b; base_btf := base_btf b;
     start_id := start_id b; start_str_off := start_str_off b; strs_data := strs_data b;
     ptr_sz := sz |}.

(** The size is guessed once and cached in the object. *)
Definition guess_ptr_sz (b : btf) : option btf :=
  if ptr_sz b =? 0 then sz ← determine_ptr_size b; Some (with_ptr_sz b sz) else Some b.

Definition btf_ptr_sz (b : btf) : option (Z * btf) :=
  b ← guess_ptr_sz b;
  Some (if ptr_sz b <? 0 then 8 else ptr_sz b, b).

Definition btf__pointer_size (b : btf) : option (Z * btf) :=
  b ← guess_ptr_sz b;
  Some (if ptr_sz b <? 0 then 0 else ptr_sz b, b).

Definition btf__set_pointer_size (b : btf) (sz : Z) : Z * btf :=
  if negb (sz =? 4) && negb (sz =? 8) then (- EINVAL, b) else (0, with_ptr_sz b sz).

Definition btf_type_is_void (t : tptr) : option bool :=
  match t with
  | TVoid => Some true
  | TAt _ _ => k ← btf_kind t; Some (bool_decide (kind_of k = KIND_FWD))
  end.

Definition btf_type_is_void_or_null (t : option tptr) : option bool :=
  match t with None => Some true | Some t => btf_type_is_void t end.

Definition MAX_RESOLVE_DEPTH : nat := 32.

(** The tail of [btf__resolve_size] behind the label [done]. *)
Definition resolve_done (size nelems : Z) : Z :=
  if size <? 0 then - EINVAL
  else if negb (nelems =? 0) && (size >? UINT32_MAX / nelems) then - E2BIG
  else nelems * size.

Fixpoint resolve_loop (fuel : nat) (b : btf) (t : option tptr) (nelems : Z)
    : option (Z * btf) :=
  match fuel with
  | O => Some (resolve_done (-1) nelems, b)
  | S fuel =>
      stop ← btf_type_is_void_or_null t;
      if (stop : bool) then Some (resolve_done (-1) nelems, b) else
      t ← t;
      k ← btf_kind t;
      match kind_of k with
      | KIND_INT | KIND_STRUCT | KIND_UNION | KIND_ENUM | KIND_ENUM64 | KIND_DATASEC
      | KIND_FLOAT => size ← t_size t; Some (resolve_done size nelems, b)
      | KIND_PTR => '(size, b) ← btf_ptr_sz b; Some (resolve_done size nelems, b)
      | KIND_TYPEDEF | KIND_VOLATILE | KIND_CONST | KIND_RESTRICT | KIND_VAR | KIND_DECL_TAG
      | KIND_TYPE_TAG =>
          type_id ← t_size t;
          t ← btf__type_by_id b type_id;
          resolve_loop fuel b t nelems
      | KIND_ARRAY =>
          n ← t_word t 8;
          if negb (nelems =? 0) && (n >? UINT32_MAX / nelems) then Some (- E2BIG, b) else
          type_id ← t_word t 0;
          t ← btf__type_by_id b type_id;
          resolve_loop fuel b t (u32 (nelems * n))
      | _ => Some (- EINVAL, b)
      end
  end.

Definition btf__resolve_size (b : btf) (type_id : Z) : option (Z * btf) :=
  t ← btf__type_by_id b type_id;
  resolve_loop MAX_RESOLVE_DEPTH b t 1.

(** [btf__align_of]: the recursion of the code has no bound of its own, the
    fuel stands for the stack. *)
Fixpoint btf__align_of (fuel : nat) (b : btf) (id : Z) {struct fuel} : option (Z * btf) :=
  match fuel with
  | O => None
  | S fuel =>
      r ← btf__type_by_id b id;
      t ← r;
      k ← btf_kind t;
      match kind_of k with
      | KIND_INT | KIND_ENUM | KIND_ENUM64 | KIND_FLOAT =>
          '(p, b) ← btf_ptr_sz b; size ← t_size t; Some (Z.min p size, b)
      | KIND_PTR => btf_ptr_sz b
      | KIND_TYPEDEF | KIND_VOLATILE | KIND_CONST | KIND_RESTRICT | KIND_TYPE_TAG =>
          id ← t_size t; btf__align_of fuel b id
      | KIND_ARRAY => id ← t_word t 0; btf__align_of fuel b id
      | KIND_STRUCT | KIND_UNION =>
          vlen ← btf_vlen t;
          (fix members (n : nat) (i : Z) (max_align : Z) (b : btf) {struct n} :=
             match n with
             | O => Some (max_align, b)
             | S n =>
                 id ← t_word t (12 * i + 4);
                 '(align, b) ← btf__align_of fuel b id;
                 if align <=? 0 then Some (align, b)
                 else members n (i + 1) (Z.max max_align align) b
             end) (Z.to_nat vlen) 0 1 b
      | _ => Some (0, b)
      end
  end.

Fixpoint resolve_type_loop (fuel : nat) (b : btf) (type_id : Z) (t : option tptr) : option Z :=
  match fuel with
  | O => Some (- EINVAL)
  | S fuel =>
      stop ← btf_type_is_void_or_null t;
      if (stop : bool) then Some (- EINVAL) else
      t ← t;
      k ← btf_kind t;
      match kind_of k with
      | KIND_VOLATILE | KIND_CONST | KIND_RESTRICT | KIND_TYPE_TAG | KIND_TYPEDEF | KIND_VAR =>
          type_id ← t_size t;
          t ← btf__type_by_id b type_id;
          resolve_type_loop fuel b type_id t
      | _ => Some (s32 type_id)
      end
  end.

Definition btf__resolve_type (b : btf) (type_id : Z) : option Z :=
  t ← btf__type_by_id b type_id;
  resolve_type_loop MAX_RESOLVE_DEPTH b type_id t.

Fixpoint find_name_loop (b : btf) (s : list Z) (i : Z) (n : nat) : option Z :=
  match n with
  | O => Some (- ENOENT)
  | S n =>
      r ← btf__type_by_id b i;
      t ← r;
      off ← t_name_off t;
      found ← name_is b off s;
      if (found : bool) then Some (s32 i) else find_name_loop b s (i + 1) n
  end.

Definition btf__find_by_name (b : btf) (type_name : list Z) : option Z :=
  if strcmp type_name (lit "void") =? 0 then Some 0
  else find_name_loop b type_name 1 (Z.to_nat (btf__type_cnt b - 1)).

Fixpoint find_kind_loop (b : btf) (s : list Z) (k : Z) (i : Z) (n : nat) : option Z :=
  match n with
  | O => Some (- ENOENT)
  | S n =>
      r ← btf__type_by_id b i;
      t ← r;
      k' ← btf_kind t;
      if negb (k' =? k) then find_kind_loop b s k (i + 1) n else
      off ← t_name_off t;
      found ← name_is b off s;
      if (found : bool) then Some (s32 i) else find_kind_loop b s k (i + 1) n
  end.

Definition btf_find_by_name_kind (b : btf) (start : Z) (type_name : list Z) (k : Z) : option Z :=
  if (k =? 0) || (strcmp type_name (lit "void") =? 0) then Some 0
  else find_kind_loop b type_name k (u32 start) (Z.to_nat (btf__type_cnt b - u32 start)).

Definition btf__find_by_name_kind_own (b : btf) (type_name : list Z) (k : Z) : option Z :=
  btf_find_by_name_kind b (start_id b) type_name k.

Definition btf__find_by_name_kind (b : btf) (type_name : list Z) (k : Z) : option Z :=
  btf_find_by_name_kind b 1 type_name k.

(** ** Windows of the image *)

Lemma ld8_window pre w post k :
  0 <= k < Z.of_nat (length w) -> ld8 (pre ++ w ++ post) (Z.of_nat (length pre) + k) = ld8 w k.
Proof.
  intros Hk. unfold ld8. destruct (Z.ltb_spec (Z.of_nat (length pre) + k) 0); [lia|].
  destruct (Z.ltb_spec k 0); [lia|].
  rewrite lookup_app_r by lia. rewrite lookup_app_l by lia. f_equal. lia.
Qed.

Lemma ld16_window pre w post k :
  0 <= k -> k + 2 <= Z.of_nat (length w) ->
  ld16 (pre ++ w ++ post) (Z.of_nat (length pre) + k) = ld16 w k.
Proof.
  intros. unfold ld16. rewrite <- Z.add_assoc, !ld8_window by lia. done.
Qed.

Lemma ld32_window pre w post k :
  0 <= k -> k + 4 <= Z.of_nat (length w) ->
  ld32 (pre ++ w ++ post) (Z.of_nat (length pre) + k) = ld32 w k.
Proof.
  intros. unfold ld32. rewrite <- Z.add_assoc, !ld16_window by lia. done.
Qed.

Lemma ld32_prefix pre post k :
  0 <= k -> k + 4 <= Z.of_nat (length pre) -> ld32 (pre ++ post) k = ld32 pre k.
Proof. apply (ld32_window []). Qed.

Lemma ld16_prefix pre post k :
  0 <= k -> k + 2 <= Z.of_nat (length pre) -> ld16 (pre ++ post) k = ld16 pre k.
Proof. apply (ld16_window []). Qed.

Lemma st_bytes_u8 bs : forall m off, st_bytes m off (map (wrap 8) bs) = st_bytes m off bs.
Proof.
  induction bs as [|b bs IH]; intros m off; [done|]. cbn [st_bytes map].
  unfold st8. rewrite wrap_wrap. destruct (_ && _); [|done]. apply IH.
Qed.

Lemma st32_bytes m off v :
  st32 m off v = st_bytes m off [v; v / 256; v / 65536; v / 65536 / 256].
Proof.
  unfold st32, st16. cbn [st_bytes].
  replace (off + 1 + 1) with (off + 2) by lia. replace (off + 2 + 1) with (off + 3) by lia.
  destruct (st8 m off v); [|done]. simpl. destruct (st8 _ _ _); [|done]. simpl.
  destruct (st8 _ _ _); [|done]. simpl. by destruct (st8 _ _ _).
Qed.

Lemma bytes_ok_app l1 l2 : bytes_ok (l1 ++ l2) <-> bytes_ok l1 /\ bytes_ok l2.
Proof. apply Forall_app. Qed.

(** The bytes of every 32-bit word reversed. *)
Fixpoint rev4 (l : list Z) : list Z :=
  match l with
  | b0 :: b1 :: b2 :: b3 :: l => b3 :: b2 :: b1 :: b0 :: rev4 l
  | _ => l
  end.

Lemma rev4_length n : forall l, length l = (4 * n)%nat -> length (rev4 l) = (4 * n)%nat.
Proof.
  induction n as [|n IH]; intros l Hl; [by destruct l|].
  destruct l as [|b0 [|b1 [|b2 [|b3 l]]]]; simpl in Hl; try lia. simpl. rewrite IH by lia. lia.
Qed.

Lemma rev4_app n : forall l1 l2, length l1 = (4 * n)%nat -> rev4 (l1 ++ l2) = rev4 l1 ++ rev4 l2.
Proof.
  induction n as [|n IH]; intros l1 l2 Hl; [by destruct l1|].
  destruct l1 as [|b0 [|b1 [|b2 [|b3 l]]]]; simpl in Hl; try lia.
  simpl. by rewrite IH by lia.
Qed.

Lemma rev4_invol n : forall l, length l = (4 * n)%nat -> rev4 (rev4 l) = l.
Proof.
  induction n as [|n IH]; intros l Hl; [by destruct l|].
  destruct l as [|b0 [|b1 [|b2 [|b3 l]]]]; simpl in Hl; try lia.
  simpl. by rewrite IH by lia.
Qed.

Lemma rev4_bytes_ok n : forall l, length l = (4 * n)%nat -> bytes_ok l -> bytes_ok (rev4 l).
Proof.
  induction n as [|n IH]; intros l Hl Hb; [by destruct l|].
  destruct l as [|b0 [|b1 [|b2 [|b3 l]]]]; simpl in Hl; try lia.
  unfold bytes_ok in *. decompose_Forall_hyps. simpl. repeat (constructor; [done|]). apply IH; [lia|done].
Qed.

Lemma bswap32_at_window pre b0 b1 b2 b3 post :
  bytes_ok [b0; b1; b2; b3] ->
  bswap32_at (pre ++ [b0; b1; b2; b3] ++ post) (Z.of_nat (length pre))
  = Some (pre ++ [b3; b2; b1; b0] ++ post).
Proof.
  intros Hb. unfold bswap32_at.
  rewrite <- (Z.add_0_r (Z.of_nat (length pre))) at 1.
  rewrite ld32_window by (simpl; lia).
  change (ld32 [b0; b1; b2; b3] 0) with (Some (b0 + 256 * b1 + 65536 * (b2 + 256 * b3))).
  cbn [mbind option_bind]. rewrite st32_bytes, <- st_bytes_u8. cbn [map].
  set (x := b0 + _ + _). destruct (bswap32_bytes x) as (-> & -> & -> & ->).
  unfold bytes_ok in Hb. decompose_Forall_hyps.
  replace (u8 (x / 16777216)) with b3 by (unfold x; width_lia).
  replace (u8 (x / 65536)) with b2 by (unfold x; width_lia).
  replace (u8 (x / 256)) with b1 by (unfold x; width_lia).
  replace (u8 x) with b0 by (unfold x; width_lia).
  apply (st_bytes_app [b3; b2; b1; b0] pre [b0; b1; b2; b3] post); [done|].
  unfold bytes_ok. repeat (constructor; [done|]). constructor.
Qed.

(** Consecutive words from the [j]-th on. *)
Fixpoint words (j : Z) (n : nat) : list Z :=
  match n with O => [] | S n => 4 * j :: words (j + 1) n end.

Lemma bswap_fields_window n : forall pre w post p j,
  length w = (4 * n)%nat -> bytes_ok w -> Z.of_nat (length pre) = p + 4 * j ->
  bswap_fields (pre ++ w ++ post) p (words j n) = Some (pre ++ rev4 w ++ post).
Proof.
  induction n as [|n IH]; intros pre w post p j Hw Hb Hp; [by destruct w|].
  destruct w as [|b0 [|b1 [|b2 [|b3 w]]]]; simpl in Hw; try lia.
  assert (bytes_ok [b0; b1; b2; b3] /\ bytes_ok w) as [Hb1 Hb2]
    by (by apply bytes_ok_app). cbn [words bswap_fields].
  rewrite <- Hp. change ((b0 :: b1 :: b2 :: b3 :: w) ++ post) with ([b0; b1; b2; b3] ++ w ++ post).
  rewrite bswap32_at_window by done. cbn [mbind option_bind].
  rewrite (app_assoc pre). rewrite (IH _ w post p (j + 1)); [|lia|done|rewrite length_app; simpl; lia].
  cbn [rev4]. by rewrite <- app_assoc.
Qed.

Lemma bswap_elems_window k n : forall pre w post,
  length w = (4 * k * n)%nat -> bytes_ok w ->
  bswap_elems (words 0 k) (4 * Z.of_nat k) (pre ++ w ++ post) (Z.of_nat (length pre)) n
  = Some (pre ++ rev4 w ++ post).
Proof.
  induction n as [|n IH]; intros pre w post Hw Hb.
  { destruct w; [done|simpl in Hw; lia]. }
  assert (Hs : w = take (4 * k) w ++ drop (4 * k) w) by (by rewrite take_drop).
  assert (Hl : length (take (4 * k) w) = (4 * k)%nat) by (rewrite length_take; lia).
  rewrite Hs in Hb |- *. apply bytes_ok_app in Hb as [Hb1 Hb2].
  cbn [bswap_elems]. rewrite <- app_assoc, bswap_fields_window by (done || lia).
  cbn [mbind option_bind].
  rewrite (rev4_app k), (app_assoc pre) by lia.
  assert (Hr : length (pre ++ rev4 (take (4 * k) w)) = (length pre + 4 * k)%nat)
    by (rewrite length_app, (rev4_length k); lia).
  replace (Z.of_nat (length pre) + 4 * Z.of_nat k)
    with (Z.of_nat (length (pre ++ rev4 (take (4 * k) w)))) by lia.
  rewrite IH; [by rewrite <- !app_assoc|rewrite length_drop; lia|done].
Qed.

(** ** Type records *)

(** A complete type: the [struct btf_type] and the data its kind asks for. *)
Definition rec_ok (r : list Z) : Prop :=
  bytes_ok r /\ 12 <= Z.of_nat (length r) /\ btf_type_size r 0 = Some (Z.of_nat (length r)).

Lemma vlen_range i : 0 <= BTF_INFO_VLEN i < 65536.
Proof. unfold BTF_INFO_VLEN. rewrite land_65535. apply Z.mod_pos_bound. lia. Qed.

(** What the code writes behind a type of size [sz] is a run of words. *)
Lemma type_size_cases m t sz :
  btf_type_size m t = Some sz -> sz = - EINVAL \/ 12 <= sz /\ exists k, sz = 4 * Z.of_nat k.
Proof.
  unfold btf_type_size. intros (i & Hi & E)%bind_Some. pose proof (vlen_range i).
  apply (inj Some) in E as <-.
  destruct (kind_of _); try (by left); right; (split; [lia|]);
    first [by exists 3%nat | by exists 4%nat | by exists 6%nat
          | exists (3 + 2 * Z.to_nat (BTF_INFO_VLEN i))%nat; lia
          | exists (3 + 3 * Z.to_nat (BTF_INFO_VLEN i))%nat; lia].
Qed.

Lemma rec_words r : rec_ok r -> exists n, length r = (4 * (3 + n))%nat.
Proof.
  intros (_ & Hl & Hs). apply type_size_cases in Hs as [Hs|[_ [k Hk]]]; [lia|].
  exists (k - 3)%nat. lia.
Qed.

Lemma type_size_window pre r post :
  12 <= Z.of_nat (length r) ->
  btf_type_size (pre ++ r ++ post) (Z.of_nat (length pre)) = btf_type_size r 0.
Proof. intros. unfold btf_type_size. by rewrite ld32_window by lia. Qed.

Lemma type_size_Some m t : 0 <= t -> t + 8 <= Z.of_nat (length m) -> is_Some (btf_type_size m t).
Proof.
  intros. unfold btf_type_size. destruct (ld32_Some m (t + 4)) as [? ->]; [lia..|]. by eexists.
Qed.

Lemma bswap_type_base_window pre w post :
  length w = 12%nat -> bytes_ok w ->
  btf_bswap_type_base (pre ++ w ++ post) (Z.of_nat (length pre)) = Some (pre ++ rev4 w ++ post).
Proof. intros. apply (bswap_fields_window 3 pre w post _ 0); [done|done|lia]. Qed.

Lemma bswap_type_rest_window pre r post :
  rec_ok r ->
  btf_bswap_type_rest (pre ++ r ++ post) (Z.of_nat (length pre))
  = Some (0, pre ++ take 12 r ++ rev4 (drop 12 r) ++ post).
Proof.
  intros (Hb & Hl & Hs).
  unfold btf_bswap_type_rest. rewrite ld32_window by lia. unfold btf_type_size in Hs.
  apply bind_Some in Hs as (i & Hi & E). apply (inj Some) in E.
  change (0 + 4) with 4 in Hi. rewrite Hi. cbn [mbind option_bind].
  pose proof (vlen_range i) as Hv.
  assert (Hr : r = take 12 r ++ drop 12 r) by (by rewrite take_drop).
  assert (H12 : length (take 12 r) = 12%nat) by (rewrite length_take; lia).
  assert (Hd : length (drop 12 r) = (length r - 12)%nat) by apply length_drop.
  rewrite Hr in Hb. apply bytes_ok_app in Hb as [_ Hb].
  replace (pre ++ r ++ post) with ((pre ++ take 12 r) ++ drop 12 r ++ post)
    by (by rewrite <- app_assoc, (app_assoc (take 12 r)), <- Hr).
  rewrite (app_assoc pre (take 12 r) (rev4 _ ++ post)).
  set (p := pre ++ take 12 r).
  replace (Z.of_nat (length pre) + 12) with (Z.of_nat (length p))
    by (unfold p; rewrite length_app; lia).
  assert (Hw : forall n, length (drop 12 r) = (4 * n)%nat ->
    bswap_fields (p ++ drop 12 r ++ post) (Z.of_nat (length p)) (words 0 n)
    = Some (p ++ rev4 (drop 12 r) ++ post)).
  { intros n Hn. apply bswap_fields_window; [done|done|lia]. }
  assert (Hw1 : length (drop 12 r) = 4%nat ->
    bswap32_at (p ++ drop 12 r ++ post) (Z.of_nat (length p)) = Some (p ++ rev4 (drop 12 r) ++ post)).
  { intros Hn. rewrite <- (Hw 1%nat) by done. cbn [words bswap_fields]. rewrite Z.mul_0_r, Z.add_0_r.
    by destruct (bswap32_at _ _). }
  assert (Hw2 : length (drop 12 r) = (8 * Z.to_nat (BTF_INFO_VLEN i))%nat ->
    bswap_elems [0; 4] 8 (p ++ drop 12 r ++ post) (Z.of_nat (length p)) (Z.to_nat (BTF_INFO_VLEN i))
    = Some (p ++ rev4 (drop 12 r) ++ post)).
  { intros Hn. apply (bswap_elems_window 2); [lia|done]. }
  assert (Hw3 : length (drop 12 r) = (12 * Z.to_nat (BTF_INFO_VLEN i))%nat ->
    bswap_elems [0; 4; 8] 12 (p ++ drop 12 r ++ post) (Z.of_nat (length p)) (Z.to_nat (BTF_INFO_VLEN i))
    = Some (p ++ rev4 (drop 12 r) ++ post)).
  { intros Hn. apply (bswap_elems_window 3); [lia|done]. }
  specialize (Hw 3%nat). change (words 0 3) with [0; 4; 8] in Hw.
  destruct (kind_of _); try lia;
    try (rewrite (Hw1 ltac:(lia))); try (rewrite (Hw2 ltac:(lia))); try (rewrite (Hw3 ltac:(lia)));
    try (rewrite (Hw ltac:(lia))); try done.
  all: by destruct (drop 12 r); [|simpl in Hd; lia].
Qed.

(** ** The index *)

(** The index array holds the entries [done]. *)
Record index_ok (offs : list Z) (cap nr : Z) (done : list Z) : Prop := {
  ix_cap : Z.of_nat (length offs) = 4 * cap;
  ix_room : nr <= cap;
  ix_nr : nr = Z.of_nat (length done);
  ix_small : nr <= 2 ^ 29;
  ix_cap_small : cap <= 2 ^ 31;
  ix_get : forall i, (i < length done)%nat -> ld32 offs (4 * Z.of_nat i) = done !! i;
}.

Lemma ld32_app_l m m' off v : ld32 m off = Some v -> ld32 (m ++ m') off = Some v.
Proof.
  intros H. pose proof (ld32_bounds _ _ _ H) as [H1 H2]. by rewrite ld32_prefix.
Qed.

Lemma st32_inv m off v m' :
  st32 m off v = Some m' -> 0 <= off /\ off + 4 <= Z.of_nat (length m) /\
  m' = <[Z.to_nat (off + 2 + 1) := u8 (v / 65536 / 256)]> (<[Z.to_nat (off + 2) := u8 (v / 65536)]>
        (<[Z.to_nat (off + 1) := u8 (v / 256)]> (<[Z.to_nat off := u8 v]> m))).
Proof.
  unfold st32, st16. intros (m2 & (m1 & [B1 ->]%st8_inv & [B2 ->]%st8_inv)%bind_Some &
    (m3 & [B3 ->]%st8_inv & [B4 ->]%st8_inv)%bind_Some)%bind_Some.
  rewrite !length_insert in *. split_and!; [lia|lia|done].
Qed.

Lemma ld32_st32 m off v m' :
  0 <= v < 2 ^ 32 -> st32 m off v = Some m' -> ld32 m' off = Some v.
Proof.
  intros Hv (H1 & H2 & ->)%st32_inv. unfold ld32, ld16, ld8.
  destruct (Z.ltb_spec off 0); [lia|]. destruct (Z.ltb_spec (off + 1) 0); [lia|].
  destruct (Z.ltb_spec (off + 2) 0); [lia|]. destruct (Z.ltb_spec (off + 2 + 1) 0); [lia|].
  repeat first [rewrite list_lookup_insert_eq by (rewrite ?length_insert; lia)
               | rewrite list_lookup_insert_ne by lia].
  cbn [mbind option_bind]. f_equal. width_lia.
Qed.

Lemma ld32_st32_ne m off v m' off' :
  st32 m off v = Some m' -> off' + 4 <= off -> ld32 m' off' = ld32 m off'.
Proof.
  intros (H1 & H2 & ->)%st32_inv Ho. unfold ld32, ld16, ld8.
  destruct (Z.ltb_spec off' 0); [done|]. destruct (Z.ltb_spec (off' + 1) 0); [lia|].
  destruct (Z.ltb_spec (off' + 2) 0); [lia|]. destruct (Z.ltb_spec (off' + 2 + 1) 0); [lia|].
  by repeat rewrite list_lookup_insert_ne by lia.
Qed.

Lemma st32_Some m off v : 0 <= off -> off + 4 <= Z.of_nat (length m) -> is_Some (st32 m off v).
Proof. intros. rewrite st32_bytes. apply st_bytes_Some; simpl; lia. Qed.

Lemma st32_length m off v m' : st32 m off v = Some m' -> length m' = length m.
Proof. rewrite st32_bytes. apply st_bytes_length. Qed.

Section IndexProofs.
Context (alloc_ok : Z -> bool).

(** Room for one more entry: the old entries stay where they are. *)
Lemma add_offs_spec offs cap nr done :
  index_ok offs cap nr done -> nr < 2 ^ 29 ->
  match btf_add_type_offs_mem alloc_ok offs cap nr 1 with
  | None => exists n, alloc_ok n = false
  | Some (p, offs', cap') => p = 4 * nr /\ nr + 1 <= cap' <= 2 ^ 31 /\
      Z.of_nat (length offs') = 4 * cap' /\ exists x, offs' = offs ++ x
  end.
Proof.
  intros [Hc Hr Hn _ Hs _] Hnr. unfold btf_add_type_offs_mem, libbpf_add_mem.
  rewrite (wrap_small 64 (nr + 1)) by (pow2; lia).
  destruct (Z.leb_spec (nr + 1) cap).
  { split_and!; [lia|lia|lia|lia|]. exists []. by rewrite app_nil_r. }
  destruct (nr + 1 >? _) eqn:E; [lia|]. assert (cap = nr) as -> by lia.
  rewrite (wrap_small 64 (nr + nr / 4)) by (pow2; Z.to_euclidean_division_equations; lia).
  set (c1 := if nr + nr / 4 <? 16 then _ else _).
  assert (Hc1 : nr + nr / 4 <= c1 <= 2 ^ 30)
    by (unfold c1; zcase; Z.to_euclidean_division_equations; lia).
  destruct (c1 >? _) eqn:E2; [lia|]. assert (nr <= c1) by (Z.to_euclidean_division_equations; lia).
  set (c2 := if c1 <? _ then _ else _).
  assert (Hc2 : nr + 1 <= c2 <= 2 ^ 30) by (unfold c2; zcase; lia).
  clearbody c2. destruct (alloc_ok _) eqn:Ea; [|by eexists].
  rewrite length_app, length_replicate, take_ge by lia.
  split_and!; [lia|lia|lia|lia|by eexists].
Qed.

Lemma add_idx_entry_spec offs cap nr done off :
  index_ok offs cap nr done -> nr < 2 ^ 29 -> 0 <= off < 2 ^ 32 ->
  exists e offs' cap', btf_add_type_idx_entry alloc_ok offs cap nr off = Some (e, offs', cap') /\
    (e = - ENOMEM /\ offs' = offs /\ cap' = cap /\ (exists n, alloc_ok n = false) \/
     e = 0 /\ index_ok offs' cap' (nr + 1) (done ++ [off])).
Proof.
  intros Hi Hnr Ho. pose proof (add_offs_spec _ _ _ _ Hi Hnr) as Hs.
  unfold btf_add_type_idx_entry. destruct Hi as [Hc Hr Hn Hsm Hcs Hg].
  destruct (btf_add_type_offs_mem _ _ _ _ _) as [[[p offs1] cap1]|].
  2: { do 3 eexists. split; [done|]. by left. }
  destruct Hs as (-> & Hc1 & Hl & x & ->).
  destruct (st32_Some (offs ++ x) (4 * nr) off) as [offs2 Hst]; [lia|lia|].
  rewrite Hst. do 3 eexists. split; [done|]. right. split; [done|].
  split; try (rewrite ?length_app, ?(st32_length _ _ _ _ Hst); simpl; lia).
  intros i Hi. rewrite length_app in Hi. simpl in Hi.
  destruct (decide (i = length done)) as [->|].
  - rewrite <- Hn, lookup_app_r, Nat.sub_diag by lia. by apply (ld32_st32 _ _ _ _ Ho Hst).
  - rewrite lookup_app_l, (ld32_st32_ne _ _ _ _ _ Hst), <- Hg by lia.
    destruct (lookup_lt_is_Some_2 done i) as [v Hv]; [lia|].
    rewrite <- Hg in Hv by lia. rewrite Hv. by apply ld32_app_l.
Qed.
End IndexProofs.

(** ** The type section *)

(** The bytes of native data in an image of the other byte order. *)
Definition enc (sw : bool) (l : list Z) : list Z := if sw then rev4 l else l.

(** The offsets of consecutive records, the first one at [o]. *)
Fixpoint offsets (o : Z) (recs : list (list Z)) : list Z :=
  match recs with
  | [] => []
  | r :: rs => o :: offsets (o + Z.of_nat (length r)) rs
  end.

Lemma type_size_head h w : length h = 12%nat -> btf_type_size (h ++ w) 0 = btf_type_size h 0.
Proof. intros H. apply (type_size_window [] h w). lia. Qed.

Lemma rec_split r : rec_ok r ->
  exists n, r = take 12 r ++ drop 12 r /\ length (take 12 r) = 12%nat /\
    length (drop 12 r) = (4 * n)%nat /\ bytes_ok (take 12 r) /\ bytes_ok (drop 12 r).
Proof.
  intros Hr. destruct (rec_words r Hr) as [n Hn]. exists n. destruct Hr as (Hb & Hl & _).
  rewrite <- (take_drop 12 r), bytes_ok_app in Hb. rewrite take_drop, length_take, length_drop.
  split_and!; [done|lia|lia|tauto|tauto].
Qed.

Lemma rec_ok_swap_rest r : rec_ok r -> rec_ok (take 12 r ++ rev4 (drop 12 r)).
Proof.
  intros Hr. destruct (rec_split r Hr) as (n & Hs & H12 & Hd & Hb1 & Hb2).
  destruct Hr as (_ & Hl & Hsz). rewrite Hs in Hsz at 1. rewrite type_size_head in Hsz by done.
  split; [by apply bytes_ok_app; split; [|eapply rev4_bytes_ok]|].
  rewrite type_size_head, Hsz, length_app, (rev4_length n), H12 by done.
  rewrite Hs, length_app in Hl |- *. split; [lia|]. f_equal. lia.
Qed.

Section ParseProofs.
Context (alloc_ok : Z -> bool).

(** One iteration consumes one record, converting it if need be. *)
Lemma parse_iter fuel sw pre r post td endt st :
  rec_ok r -> p_raw st = pre ++ enc sw r ++ post ->
  Z.of_nat (length pre) + Z.of_nat (length r) <= endt ->
  parse_types alloc_ok (S fuel) sw td endt (Z.of_nat (length pre)) st =
  ('(err, offs, cap) ← btf_add_type_idx_entry alloc_ok (p_offs st) (p_cap st) (p_nr st)
                         (u32 (Z.of_nat (length pre) - td));
   if negb (err =? 0)
   then Some (err, {| p_raw := pre ++ r ++ post; p_offs := offs; p_cap := cap; p_nr := p_nr st |})
   else parse_types alloc_ok fuel sw td endt (Z.of_nat (length pre) + Z.of_nat (length r))
          {| p_raw := pre ++ r ++ post; p_offs := offs; p_cap := cap; p_nr := u32 (p_nr st + 1) |}).
Proof.
  intros Hr Hm He. pose proof Hr as (_ & Hl & Hsz). cbn [parse_types]. rewrite Hm. clear Hm.
  destruct (Z.leb_spec (Z.of_nat (length pre) + 12) endt); [|lia].
  destruct (rec_split r Hr) as (n & Hs & H12 & Hd & Hb1 & Hb2). destruct sw; cbn [enc].
  - rewrite Hs at 1. rewrite (rev4_app 3) by lia. rewrite <- app_assoc.
    rewrite bswap_type_base_window; [|by rewrite (rev4_length 3)|by apply (rev4_bytes_ok 3)].
    rewrite (rev4_invol 3) by lia. cbn [mbind option_bind p_raw p_offs p_cap p_nr].
    set (r' := take 12 r ++ rev4 (drop 12 r)).
    assert (Hr' : rec_ok r') by (by apply rec_ok_swap_rest).
    assert (Hl' : length r' = length r).
    { unfold r'. rewrite length_app, (rev4_length n), <- Hd, <- length_app, <- Hs by lia. done. }
    rewrite (app_assoc (take 12 r)). fold r'.
    pose proof Hr' as (_ & _ & Hsz').
    rewrite type_size_window, Hsz', Hl' by lia. cbn [mbind option_bind].
    destruct (Z.ltb_spec (Z.of_nat (length r)) 0); [lia|].
    destruct (_ >? endt) eqn:?; [lia|].
    rewrite bswap_type_rest_window by done.
    cbn [mbind option_bind]. rewrite Z.eqb_refl. cbn [negb]. unfold r'.
    rewrite take_app_length', drop_app_length', (rev4_invol n), (app_assoc (take 12 r)), <- Hs by done.
    done.
  - cbn [mbind option_bind p_raw p_offs p_cap p_nr].
    rewrite type_size_window, Hsz by lia. cbn [mbind option_bind].
    destruct (Z.ltb_spec (Z.of_nat (length r)) 0); [lia|].
    destruct (_ >? endt) eqn:?; [lia|]. done.
Qed.

Lemma concat_rev4_app r rs : rec_ok r -> rev4 (concat (r :: rs)) = rev4 r ++ rev4 (concat rs).
Proof. intros Hr. destruct (rec_words r Hr) as [n Hn]. cbn [concat]. by apply (rev4_app (3 + n)). Qed.

Lemma enc_concat_cons sw r rs :
  rec_ok r -> enc sw (concat (r :: rs)) = enc sw r ++ enc sw (concat rs).
Proof. intros Hr. destruct sw; [by apply concat_rev4_app|done]. Qed.

Lemma concat_words recs : Forall rec_ok recs -> exists n, length (concat recs) = (4 * n)%nat.
Proof.
  induction 1 as [|r rs Hr Hrs [n IH]]; [by exists 0%nat|].
  destruct (rec_words r Hr) as [k Hk]. exists (3 + k + n)%nat. cbn [concat]. rewrite length_app. lia.
Qed.

Lemma recs_count recs : Forall rec_ok recs -> (length recs <= length (concat recs))%nat.
Proof.
  induction 1 as [|r rs (_ & Hl & _) _ IH]; simpl; [lia|]. rewrite length_app. lia.
Qed.

(** The loop invariant between iterations. *)
Record sec_inv (td next endt : Z) (st : pstate) (done : list Z) : Prop := {
  si_index : index_ok (p_offs st) (p_cap st) (p_nr st) done;
  si_start : td <= next;
  si_count : 12 * p_nr st <= next - td;
  si_size : endt - td < 2 ^ 32;
}.

Lemma sec_inv_entry td next endt st done :
  sec_inv td next endt st done -> next + 12 <= endt ->
  exists e offs cap,
    btf_add_type_idx_entry alloc_ok (p_offs st) (p_cap st) (p_nr st) (u32 (next - td))
      = Some (e, offs, cap) /\
    (e = - ENOMEM /\ (exists n, alloc_ok n = false) \/
     e = 0 /\ forall m k, 12 <= k ->
       sec_inv td (next + k) endt
         {| p_raw := m; p_offs := offs; p_cap := cap; p_nr := u32 (p_nr st + 1) |}
         (done ++ [next - td])).
Proof.
  intros [Hi Hs Hc Hz] He. rewrite (wrap_small 32 (next - td)) by (pow2; lia).
  destruct (add_idx_entry_spec alloc_ok _ _ _ _ (next - td) Hi) as (e & offs & cap & Ha & Hcase); [lia|pow2; lia|].
  exists e, offs, cap. split; [done|]. destruct Hcase as [(? & _ & _ & ?)|[-> Hi']]; [by left|]. right.
  split; [done|]. intros m k Hk. destruct Hi as [_ _ Hn _ _ _].
  split; simpl; rewrite ?(wrap_small 32 (p_nr st + 1)) by (pow2; lia); [done|lia|lia|lia].
Qed.

Lemma parse_recs sw recs : forall fuel pre post td st done,
  let endt := Z.of_nat (length pre) + Z.of_nat (length (concat recs)) in
  Forall rec_ok recs -> (length recs < fuel)%nat ->
  p_raw st = pre ++ enc sw (concat recs) ++ post ->
  sec_inv td (Z.of_nat (length pre)) endt st done ->
  exists e st', parse_types alloc_ok fuel sw td endt (Z.of_nat (length pre)) st = Some (e, st') /\
    (e = - ENOMEM /\ (exists n, alloc_ok n = false) \/
     e = 0 /\ p_raw st' = pre ++ concat recs ++ post /\
     sec_inv td endt endt st' (done ++ offsets (Z.of_nat (length pre) - td) recs)).
Proof.
  induction recs as [|r rs IH]; intros fuel pre post td st done endt Hr Hf Hm Hi;
    (destruct fuel as [|fuel]; [simpl in Hf; lia|]).
  - assert (He : endt = Z.of_nat (length pre)) by (unfold endt; simpl; lia). rewrite He in *.
    cbn [parse_types]. destruct (Z.leb_spec (Z.of_nat (length pre) + 12) (Z.of_nat (length pre))); [lia|].
    rewrite Z.eqb_refl. do 2 eexists. split; [done|]. right.
    split_and!; [done|by destruct sw|]. simpl. by rewrite app_nil_r.
  - apply Forall_cons in Hr as [Hr Hrs]. pose proof Hr as (_ & Hl & _).
    assert (He : endt = Z.of_nat (length (pre ++ r)) + Z.of_nat (length (concat rs)))
      by (unfold endt; cbn [concat]; rewrite !length_app; lia).
    rewrite enc_concat_cons, <- app_assoc in Hm by done.
    rewrite (parse_iter fuel sw pre r _ td endt st Hr Hm) by (rewrite He, length_app; lia).
    destruct (sec_inv_entry _ _ _ _ _ Hi) as (e & offs & cap & -> & Hcase);
      [rewrite He, length_app; lia|]. cbn [mbind option_bind].
    destruct Hcase as [[-> Hn]|[-> Hi']].
    { do 2 eexists. split; [done|]. by left. }
    rewrite Z.eqb_refl. cbn [negb].
    replace (Z.of_nat (length pre) + Z.of_nat (length r)) with (Z.of_nat (length (pre ++ r)))
      by (rewrite length_app; lia).
    set (st1 := {| p_raw := _ |}). rewrite He.
    destruct (IH fuel (pre ++ r) post td st1 (done ++ [Z.of_nat (length pre) - td]))
      as (e & st' & -> & Hcase); [done|simpl in Hf; lia|simpl; by rewrite <- app_assoc| |].
    { rewrite <- He, length_app, Nat2Z.inj_add. by apply Hi'. }
    do 2 eexists. split; [done|]. destruct Hcase as [?|(-> & Hm' & Hi'')]; [by left|]. right.
    split_and!; [done|by rewrite Hm'; cbn [concat]; rewrite <- !app_assoc|].
    rewrite <- app_assoc in Hi''. cbn [offsets].
    replace (Z.of_nat (length pre) - td + Z.of_nat (length r)) with (Z.of_nat (length (pre ++ r)) - td)
      by (rewrite length_app; lia). done.
Qed.

Lemma enc_words sw n l : length l = (4 * n)%nat -> bytes_ok l ->
  length (enc sw l) = length l /\ bytes_ok (enc sw l) /\ enc sw (enc sw l) = l.
Proof.
  intros Hl Hb. destruct sw; [|done]. simpl.
  rewrite (rev4_length n) by done. split_and!; [done|by eapply rev4_bytes_ok|by eapply rev4_invol].
Qed.

(** Either the iteration reports an error, or the bytes start with a record. *)
Lemma first_record fuel sw pre sec post td st :
  bytes_ok sec -> p_raw st = pre ++ sec ++ post -> 12 <= Z.of_nat (length sec) ->
  (exists e st', e < 0 /\
     parse_types alloc_ok (S fuel) sw td (Z.of_nat (length pre) + Z.of_nat (length sec))
       (Z.of_nat (length pre)) st = Some (e, st')) \/
  exists r sec', rec_ok r /\ sec = enc sw r ++ sec'.
Proof.
  intros Hb Hm Hl. cbn [parse_types]. rewrite Hm.
  destruct (Z.leb_spec (Z.of_nat (length pre) + 12)
    (Z.of_nat (length pre) + Z.of_nat (length sec))); [|lia].
  rewrite <- (take_drop 12 sec), bytes_ok_app in Hb. destruct Hb as [Hb1 Hb2].
  assert (H12 : length (take 12 sec) = 12%nat) by (rewrite length_take; lia).
  set (h := enc sw (take 12 sec)).
  destruct (enc_words sw 3 (take 12 sec)) as (Hhl & Hhb & Hhi); [done..|]. fold h in Hhl, Hhb, Hhi.
  assert (Hsw : (if sw then btf_bswap_type_base (pre ++ sec ++ post) (Z.of_nat (length pre))
                 else Some (pre ++ sec ++ post)) = Some (pre ++ h ++ drop 12 sec ++ post)).
  { replace (pre ++ sec ++ post) with (pre ++ take 12 sec ++ drop 12 sec ++ post)
      by (by rewrite (app_assoc (take 12 sec)), take_drop).
    destruct sw; [|done]. by rewrite bswap_type_base_window by done. }
  rewrite Hsw. clear Hsw. cbn [mbind option_bind]. rewrite type_size_window by lia.
  destruct (type_size_Some h 0) as [sz Hsz]; [lia|lia|]. rewrite Hsz. cbn [mbind option_bind].
  destruct (type_size_cases _ _ _ Hsz) as [->|[Hsz12 [k Hk]]].
  { left. do 2 eexists. split; [|done]. lia. }
  destruct (Z.ltb_spec sz 0); [lia|].
  destruct (_ >? _) eqn:Hgt.
  { left. do 2 eexists. split; [|done]. lia. }
  right. set (mr := take (4 * (k - 3)) (drop 12 sec)).
  assert (Hmr : length mr = (4 * (k - 3))%nat) by (unfold mr; rewrite length_take, length_drop; lia).
  assert (Hmb : bytes_ok mr) by (by apply Forall_take).
  destruct (enc_words sw (k - 3) mr) as (Hml & Hmb' & Hmi); [done..|].
  exists (h ++ enc sw mr), (drop (4 * (k - 3)) (drop 12 sec)). split.
  - split; [by apply bytes_ok_app|]. rewrite length_app.
    split; [lia|]. rewrite type_size_head, Hsz by lia. f_equal. lia.
  - replace (enc sw (h ++ enc sw mr)) with (take 12 sec ++ mr).
    { unfold mr. by rewrite <- app_assoc, !take_drop. }
    destruct sw; cbn [enc] in *; [|done]. rewrite (rev4_app 3) by lia. by rewrite Hhi, Hmi.
Qed.

(** Loading accepts nothing but a sequence of complete records. *)
Lemma parse_sec sw fuel : forall pre sec post td st done,
  let endt := Z.of_nat (length pre) + Z.of_nat (length sec) in
  bytes_ok sec -> (length sec < fuel)%nat -> p_raw st = pre ++ sec ++ post ->
  sec_inv td (Z.of_nat (length pre)) endt st done ->
  exists e st', parse_types alloc_ok fuel sw td endt (Z.of_nat (length pre)) st = Some (e, st') /\
    (e < 0 \/
     e = 0 /\ exists recs, Forall rec_ok recs /\ sec = enc sw (concat recs) /\
       length (concat recs) = length sec /\ p_raw st' = pre ++ concat recs ++ post /\
       sec_inv td endt endt st' (done ++ offsets (Z.of_nat (length pre) - td) recs)).
Proof.
  induction fuel as [|fuel IH]; intros pre sec post td st done endt Hb Hf Hm Hi; [lia|].
  destruct (Z.leb_spec (Z.of_nat (length pre) + 12) endt) as [Hle|Hgt].
  2: { cbn [parse_types]. destruct (Z.leb_spec (Z.of_nat (length pre) + 12) endt); [lia|].
    destruct (Z.eqb_spec (Z.of_nat (length pre)) endt) as [He|He]; simpl.
    - do 2 eexists. split; [done|]. right. split; [done|]. exists [].
      assert (sec = []) as -> by (destruct sec; [done|unfold endt in He; simpl in He; lia]).
      simpl. rewrite app_nil_r. split_and!; [done|by destruct sw|done|done|].
      by rewrite He in Hi.
    - do 2 eexists. split; [done|]. left. lia. }
  destruct (first_record fuel sw pre sec post td st) as [(e & st' & He & Hp)|(r & sec' & Hr & ->)];
    [done|done|unfold endt in Hle; lia| |].
  { exists e, st'. split; [done|]. by left. }
  pose proof Hr as (Hrb & Hrl & _). destruct (rec_words r Hr) as [n Hn].
  destruct (enc_words sw (3 + n) r) as (Hel & _ & _); [done..|].
  rewrite <- app_assoc in Hm. apply bytes_ok_app in Hb as [_ Hb].
  assert (He : endt = Z.of_nat (length (pre ++ r)) + Z.of_nat (length sec'))
    by (unfold endt; rewrite !length_app; lia).
  rewrite (parse_iter fuel sw pre r _ td endt st Hr Hm) by (rewrite He, length_app; lia).
  destruct (sec_inv_entry _ _ _ _ _ Hi) as (e & offs & cap & -> & Hcase); [done|]. cbn [mbind option_bind].
  destruct Hcase as [[-> _]|[-> Hi']].
  { do 2 eexists. split; [done|]. left. lia. }
  rewrite Z.eqb_refl. cbn [negb].
  replace (Z.of_nat (length pre) + Z.of_nat (length r)) with (Z.of_nat (length (pre ++ r)))
    by (rewrite length_app; lia).
  set (st1 := {| p_raw := _ |}). rewrite length_app in Hf. rewrite He.
  destruct (IH (pre ++ r) sec' post td st1 (done ++ [Z.of_nat (length pre) - td]))
    as (e & st' & -> & Hcase); [done|lia|simpl; by rewrite <- app_assoc| |].
  { rewrite <- He, length_app, Nat2Z.inj_add. by apply Hi'. }
  do 2 eexists. split; [done|]. destruct Hcase as [?|(-> & recs & Hrs & Hsec & Hlen & Hm' & Hi'')]; [by left|].
  right. split; [done|]. exists (r :: recs). rewrite enc_concat_cons, <- Hsec by done.
  cbn [concat offsets]. rewrite !length_app, <- !app_assoc, Hel, Hlen in *. cbn [app] in Hi''.
  split_and!; [by constructor|done|done|done|].
  replace (Z.of_nat (length pre) - td + Z.of_nat (length r))
    with (Z.of_nat (length pre + length r) - td) by lia. done.
Qed.
End ParseProofs.

(** ** The header *)

(** The first 24 bytes in the other byte order. *)
Definition swap_hdr (m : list Z) : list Z :=
  match m with
  | b0 :: b1 :: b2 :: b3 :: w => b1 :: b0 :: b2 :: b3 :: rev4 (take 20 w) ++ drop 20 w
  | _ => m
  end.

Lemma split_hdr (m : list Z) : 24 <= Z.of_nat (length m) -> exists b0 b1 b2 b3 w p,
  m = b0 :: b1 :: b2 :: b3 :: w ++ p /\ length w = 20%nat.
Proof.
  intros Hl. destruct m as [|b0 [|b1 [|b2 [|b3 m]]]]; simpl in Hl; try lia.
  exists b0, b1, b2, b3, (take 20 m), (drop 20 m). rewrite take_drop, length_take.
  split; [done|lia].
Qed.

Lemma swap_hdr_app b0 b1 b2 b3 w p :
  length w = 20%nat ->
  swap_hdr (b0 :: b1 :: b2 :: b3 :: w ++ p) = b1 :: b0 :: b2 :: b3 :: rev4 w ++ p.
Proof. intros Hw. unfold swap_hdr. by rewrite take_app_length', drop_app_length'. Qed.

Lemma swap_hdr_length m : 24 <= Z.of_nat (length m) -> length (swap_hdr m) = length m.
Proof.
  intros (b0 & b1 & b2 & b3 & w & p & -> & Hw)%split_hdr. rewrite swap_hdr_app by done.
  simpl. by rewrite !length_app, (rev4_length 5), Hw.
Qed.

Lemma swap_hdr_invol m : 24 <= Z.of_nat (length m) -> swap_hdr (swap_hdr m) = m.
Proof.
  intros (b0 & b1 & b2 & b3 & w & p & -> & Hw)%split_hdr.
  rewrite !swap_hdr_app by (by rewrite ?(rev4_length 5)). by rewrite (rev4_invol 5).
Qed.

Lemma swap_hdr_bytes_ok m : 24 <= Z.of_nat (length m) -> bytes_ok m -> bytes_ok (swap_hdr m).
Proof.
  intros (b0 & b1 & b2 & b3 & w & p & -> & Hw)%split_hdr. rewrite swap_hdr_app by done.
  unfold bytes_ok. rewrite !Forall_cons, !Forall_app.
  intros (? & ? & ? & ? & ? & ?). split_and!; [done..| |done]. by apply (rev4_bytes_ok 5).
Qed.

Lemma bswap_hdr_eq m :
  24 <= Z.of_nat (length m) -> bytes_ok m -> btf_bswap_hdr m 0 = Some (swap_hdr m).
Proof.
  intros (b0 & b1 & b2 & b3 & w & p & -> & Hw)%split_hdr Hb. rewrite swap_hdr_app by done.
  unfold bytes_ok in Hb. rewrite !Forall_cons, Forall_app in Hb.
  destruct Hb as (H0 & H1 & H2 & H3 & Hbw & Hbp).
  unfold btf_bswap_hdr, bswap16_at, st16.
  assert (E : ld16 (b0 :: b1 :: b2 :: b3 :: w ++ p) 0 = Some (b0 + 256 * b1)) by done.
  rewrite E. cbn [mbind option_bind]. rewrite st8_Some by (simpl; lia). cbn [mbind option_bind].
  rewrite st8_Some by (simpl; lia). cbn [mbind option_bind].
  change (Z.to_nat 0) with 0%nat. change (Z.to_nat (0 + 1)) with 1%nat. simpl.
  replace (u8 (bswap16 (b0 + 256 * b1))) with b1 by (unfold bswap16; width_lia).
  replace (u8 (bswap16 (b0 + 256 * b1) / 256)) with b0 by (unfold bswap16; width_lia).
  apply (bswap_fields_window 5 [b1; b0; b2; b3] w p 0 1); done.
Qed.

Lemma bswap32_at_ld m off v : 
  bytes_ok m -> ld32 m off = Some v ->
  exists m', bswap32_at m off = Some m' /\ ld32 m' off = Some (bswap32 v).
Proof.
  intros Hb Hv. pose proof (ld32_bounds _ _ _ Hv) as [H1 H2]. unfold bswap32_at. rewrite Hv.
  cbn [mbind option_bind]. destruct (st32_Some m off (bswap32 v)) as [m' Hm]; [lia..|].
  exists m'. split; [done|]. apply (ld32_st32 _ _ _ _ (bswap32_range v) Hm).
Qed.

(** A word of the header in the other byte order. *)
Lemma bswap32_word b0 b1 b2 b3 :
  bytes_ok [b0; b1; b2; b3] ->
  bswap32 (b0 + 256 * b1 + 65536 * (b2 + 256 * b3)) = b3 + 256 * b2 + 65536 * (b1 + 256 * b0).
Proof.
  intros Hb. pose proof (bswap32_at_window [] b0 b1 b2 b3 [] Hb) as E.
  destruct (bswap32_at_ld [b0; b1; b2; b3] 0 _ Hb eq_refl) as (m' & Hm & Hl).
  assert (m' = [b3; b2; b1; b0]) as -> by (change ([] ++ [b0; b1; b2; b3] ++ []) with [b0; b1; b2; b3] in E;
    change (Z.of_nat (length [])) with 0 in E; rewrite E in Hm; by injection Hm).
  change (ld32 [b3; b2; b1; b0] 0) with (Some (b3 + 256 * b2 + 65536 * (b1 + 256 * b0))) in Hl.
  by injection Hl.
Qed.

Lemma hdr_len_swap m hl :
  24 <= Z.of_nat (length m) -> bytes_ok m -> hdr_len m = Some hl ->
  hdr_len (swap_hdr m) = Some (bswap32 hl).
Proof.
  intros (b0 & b1 & b2 & b3 & w & p & -> & Hw)%split_hdr Hb. rewrite swap_hdr_app by done.
  unfold bytes_ok in Hb. rewrite !Forall_cons, Forall_app in Hb.
  destruct Hb as (_ & _ & _ & _ & Hb & _).
  destruct w as [|c0 [|c1 [|c2 [|c3 w]]]]; simpl in Hw; try lia.
  unfold hdr_len. simpl app.
  change (ld32 (b0 :: b1 :: b2 :: b3 :: c0 :: c1 :: c2 :: c3 :: w ++ p) 4)
    with (Some (c0 + 256 * c1 + 65536 * (c2 + 256 * c3))). intros [= <-].
  rewrite bswap32_word; [done|]. unfold bytes_ok in *. rewrite !Forall_cons in *.
  destruct Hb as (? & ? & ? & ? & _). by split_and!; [..|constructor].
Qed.

Lemma magic_swap m mg :
  24 <= Z.of_nat (length m) -> bytes_ok m -> ld16 m 0 = Some mg ->
  ld16 (swap_hdr m) 0 = Some (bswap16 mg).
Proof.
  intros (b0 & b1 & b2 & b3 & w & p & -> & Hw)%split_hdr Hb. rewrite swap_hdr_app by done.
  unfold bytes_ok in Hb. rewrite !Forall_cons, Forall_app in Hb. destruct Hb as (H0 & H1 & _).
  change (ld16 (b0 :: b1 :: b2 :: b3 :: w ++ p) 0) with (Some (b0 + 256 * b1)). intros [= <-].
  change (ld16 (b1 :: b0 :: b2 :: b3 :: rev4 w ++ p) 0) with (Some (b1 + 256 * b0)).
  f_equal. unfold bswap16. width_lia.
Qed.

(** What the checks of [btf_parse_hdr] establish. *)
Record hdr_ok (m : list Z) (hl to tl so sl : Z) : Prop := {
  h_len : hdr_len m = Some hl;
  h_type_off : hdr_type_off m = Some to;
  h_type_len : hdr_type_len m = Some tl;
  h_str_off : hdr_str_off m = Some so;
  h_str_len : hdr_str_len m = Some sl;
  h_pos : 0 <= hl /\ 0 <= to /\ 0 <= tl /\ 0 <= so /\ 0 <= sl;
  h_fits : hl + so + sl <= Z.of_nat (length m);
  h_order : to + tl <= so;
  h_aligned : to mod 4 = 0;
}.

Lemma hdr_fields m :
  24 <= Z.of_nat (length m) -> bytes_ok m -> exists hl to tl so sl,
    hdr_len m = Some hl /\ hdr_type_off m = Some to /\ hdr_type_len m = Some tl /\
    hdr_str_off m = Some so /\ hdr_str_len m = Some sl /\
    (0 <= hl /\ 0 <= to /\ 0 <= tl /\ 0 <= so /\ 0 <= sl).
Proof.
  intros Hl Hb. unfold hdr_len, hdr_type_off, hdr_type_len, hdr_str_off, hdr_str_len.
  destruct (ld32_Some m 4) as [hl H1]; [lia..|]. destruct (ld32_Some m 8) as [to H2]; [lia..|].
  destruct (ld32_Some m 12) as [tl H3]; [lia..|]. destruct (ld32_Some m 16) as [so H4]; [lia..|].
  destruct (ld32_Some m 20) as [sl H5]; [lia..|].
  exists hl, to, tl, so, sl. split_and!; [done..| | | | |];
    by eapply ld32_range.
Qed.

(** The checks on a header in native order. *)
Lemma parse_hdr_checks m size :
  24 <= Z.of_nat (length m) -> bytes_ok m -> size = Z.of_nat (length m) ->
  forall sw, exists e, hdr_layout m size sw = Some (e, m, sw) /\
  (e < 0 /\ (forall hl to tl so sl, ~ hdr_ok m hl to tl so sl) \/
   e = 0 /\ exists hl to tl so sl, hdr_ok m hl to tl so sl).
Proof.
  intros Hl Hb -> sw. destruct (hdr_fields m Hl Hb) as (hl & to & tl & so & sl & E1 & E2 & E3 & E4 & E5 & Hp).
  unfold hdr_layout. rewrite E1, E2, E3, E4, E5. cbn [mbind option_bind].
  assert (Hbad : forall P : Prop, (hdr_ok m hl to tl so sl -> P) -> ~ P ->
    forall hl to tl so sl, ~ hdr_ok m hl to tl so sl).
  { intros P HP HnP hl' to' tl' so' sl' Hok. apply HnP, HP.
    destruct Hok as [F1 F2 F3 F4 F5]. rewrite E1 in F1. rewrite E2 in F2. rewrite E3 in F3.
    rewrite E4 in F4. rewrite E5 in F5. simplify_eq. by split. }
  destruct (Z.ltb_spec (Z.of_nat (length m)) hl).
  { eexists. split; [done|]. left. split; [lia|].
    apply (Hbad (hl <= Z.of_nat (length m))); [intros [? ? ? ? ? ? ? ? ?]; lia|lia]. }
  cbn zeta. destruct (Z.ltb_spec (Z.of_nat (length m) - hl) (so + sl)).
  { eexists. split; [done|]. left. split; [lia|].
    apply (Hbad (hl + so + sl <= Z.of_nat (length m))); [by intros []|lia]. }
  destruct (to + tl >? so) eqn:?.
  { eexists. split; [done|]. left. split; [lia|].
    apply (Hbad (to + tl <= so)); [by intros []|lia]. }
  destruct (Z.eqb_spec (to mod 4) 0); simpl.
  - eexists. split; [done|]. right. split; [done|]. exists hl, to, tl, so, sl. split; try done; lia.
  - eexists. split; [done|]. left. split; [lia|]. apply (Hbad (to mod 4 = 0)); [by intros []|done].
Qed.

Lemma parse_hdr_spec m :
  bytes_ok m -> exists e m' sw, btf_parse_hdr m (Z.of_nat (length m)) = Some (e, m', sw) /\
  (e < 0 \/ e = 0 /\ 24 <= Z.of_nat (length m) /\ m' = (if sw then swap_hdr m else m) /\
   (sw = true -> hdr_len m' = Some 24) /\ ld16 m' 0 = Some BTF_MAGIC /\
   exists hl to tl so sl, hdr_ok m' hl to tl so sl).
Proof.
  intros Hb. unfold btf_parse_hdr. destruct (Z.ltb_spec (Z.of_nat (length m)) 24) as [|Hl].
  { do 3 eexists. split; [done|]. left. lia. }
  destruct (ld16_Some m 0) as [mg Hmg]; [lia..|]. rewrite Hmg. cbn [mbind option_bind].
  destruct (hdr_fields m Hl Hb) as (hl & _ & _ & _ & _ & E1 & _). rewrite E1. cbn [mbind option_bind].
  destruct (Z.eqb_spec mg (bswap16 BTF_MAGIC)) as [->|_].
  - destruct (Z.eqb_spec (bswap32 hl) 24) as [E24|]; cbn [negb].
    2: { do 3 eexists. split; [done|]. left. lia. }
    rewrite bswap_hdr_eq by done. cbn [mbind option_bind].
    destruct (parse_hdr_checks (swap_hdr m) (Z.of_nat (length m))) with (sw := true) as (e & -> & Hc);
      [by rewrite swap_hdr_length|by apply swap_hdr_bytes_ok|by rewrite swap_hdr_length|].
    do 3 eexists. split; [done|]. destruct Hc as [[? _]|[-> Hc]]; [by left|]. right.
    split_and!; [done|done|done| | |done]; [intros _; by rewrite (hdr_len_swap m hl), E24|].
    rewrite (magic_swap m _ Hl Hb Hmg). by rewrite bswap16_invol by lia.
  - destruct (Z.eqb_spec mg BTF_MAGIC) as [->|_]; cbn [negb].
    2: { do 3 eexists. split; [done|]. left. lia. }
    cbn [mbind option_bind]. destruct (parse_hdr_checks m _ Hl Hb eq_refl false) as (e & -> & Hc).
    do 3 eexists. split; [done|]. destruct Hc as [[? _]|[-> Hc]]; [by left|]. right. by split_and!.
Qed.

(** The string section ends in a NUL (it may be empty in a split BTF). *)
Definition strs_ok (m : list Z) (strs sl : Z) (has_base : bool) : Prop :=
  sl = 0 /\ has_base = true \/
  0 < sl <= 2 ^ 31 /\ ld8 m (strs + sl - 1) = Some 0 /\ (has_base = false -> ld8 m strs = Some 0).

Lemma parse_str_sec_spec m hl to tl so sl has_base :
  hdr_ok m hl to tl so sl -> bytes_ok m ->
  exists e, btf_parse_str_sec m (hl + so) has_base = Some e /\
    (e < 0 /\ ~ strs_ok m (hl + so) sl has_base \/ e = 0 /\ strs_ok m (hl + so) sl has_base).
Proof.
  intros H Hb. pose proof H as [_ _ _ _ E5 Hp Hf _ _]. unfold btf_parse_str_sec, strs_ok. rewrite E5.
  cbn [mbind option_bind].
  assert (Hsl : sl < 2 ^ 32) by (eapply ld32_range in E5; [|done]; pow2; lia).
  destruct (Z.eqb_spec sl 0) as [->|Hs0].
  { destruct has_base; simpl; (eexists; split; [done|]); [right; split; [done|by left]|left].
    split; [lia|]. intros [[_ ?]|[? _]]; [done|lia]. }
  rewrite andb_false_r, (wrap_small 32) by (pow2; lia).
  destruct (sl - 1 >? _) eqn:?.
  { eexists. split; [done|]. left. split; [lia|]. intros [[? _]|[? _]]; lia. }
  destruct (ld8_Some m (hl + so + sl - 1)) as [c Hc]; [lia|]. rewrite Hc. cbn [mbind option_bind].
  destruct (Z.eqb_spec c 0) as [->|Hc0]; cbn [negb].
  2: { eexists. split; [done|]. left. split; [lia|]. intros [[? _]|(_ & Hz & _)]; [lia|congruence]. }
  destruct has_base; cbn [mbind option_bind].
  { eexists. split; [done|]. right. split; [done|]. right. split_and!; [lia|lia|done|done]. }
  destruct (ld8_Some m (hl + so)) as [c Hc1]; [lia|]. rewrite Hc1. cbn [mbind option_bind].
  destruct (Z.eqb_spec c 0) as [->|Hc1']; cbn [negb]; (eexists; split; [done|]).
  - right. split; [done|]. right. split_and!; [lia|lia|done|done].
  - left. split; [lia|]. intros [[? _]|(_ & _ & Hz)]; [lia|]. specialize (Hz eq_refl). congruence.
Qed.

(** ** A loaded BTF object *)

(** The object's own image: the type section is the concatenation of the
    complete records [recs], the index holds their offsets, and the string
    section lies behind it, inside the image. *)
Record own_ok (b : btf) (recs : list (list Z)) : Prop := {
  o_bytes : bytes_ok (raw_data b);
  o_long : 24 <= Z.of_nat (length (raw_data b)) < 2 ^ 32;
  o_magic : ld16 (raw_data b) 0 = Some BTF_MAGIC;
  o_hdr : exists hl to so sl,
    hdr_ok (raw_data b) hl to (Z.of_nat (length (concat recs))) so sl /\
    types_data b = hl + to /\ strs_data b = hl + so /\
    strs_ok (raw_data b) (strs_data b) sl (bool_decide (is_Some (base_btf b)));
  o_types : exists pre post, raw_data b = pre ++ concat recs ++ post /\
    types_data b = Z.of_nat (length pre);
  o_recs : Forall rec_ok recs;
  o_index : index_ok (type_offs b) (type_offs_cap b) (nr_types b) (offsets 0 recs);
}.

(** The object and its bases; the ids and the string offsets of a split BTF
    continue those of its base. *)
Fixpoint btf_ok (b : btf) {struct b} : Prop :=
  (exists recs, own_ok b recs) /\
  1 <= start_id b /\ start_id b + nr_types b < 2 ^ 31 /\ In (ptr_sz b) [-1; 0; 4; 8] /\
  match base_btf b with
  | None => start_id b = 1 /\ start_str_off b = 0
  | Some bb => btf_ok bb /\ start_id b = start_id bb + nr_types bb /\
      hdr_str_len (raw_data bb) = Some (u32 (start_str_off b))
  end.

Lemma btf_ok_unfold b : btf_ok b <->
  (exists recs, own_ok b recs) /\
  1 <= start_id b /\ start_id b + nr_types b < 2 ^ 31 /\ In (ptr_sz b) [-1; 0; 4; 8] /\
  match base_btf b with
  | None => start_id b = 1 /\ start_str_off b = 0
  | Some bb => btf_ok bb /\ start_id b = start_id bb + nr_types bb /\
      hdr_str_len (raw_data bb) = Some (u32 (start_str_off b))
  end.
Proof. by destruct b. Qed.

Definition base_ok (base : option btf) : Prop :=
  match base with
  | None => True
  | Some bb => btf_ok bb /\ start_id bb + nr_types bb < 2 ^ 30
  end.

Lemma ld_bytes_all m : ld_bytes m 0 (length m) = Some m.
Proof. pose proof (ld_bytes_app m [] []) as H. simpl in H. by rewrite app_nil_r in H. Qed.

(** What the three parsing steps make of an image, in either byte order. *)
Lemma swap_hdr_split m pre rest :
  24 <= Z.of_nat (length pre) -> m = pre ++ rest -> swap_hdr m = swap_hdr pre ++ rest.
Proof.
  intros (b0 & b1 & b2 & b3 & w & p & -> & Hw)%split_hdr ->.
  replace ((b0 :: b1 :: b2 :: b3 :: w ++ p) ++ rest) with (b0 :: b1 :: b2 :: b3 :: w ++ p ++ rest)
    by (simpl; by rewrite <- app_assoc).
  rewrite !swap_hdr_app by done. simpl. by rewrite <- app_assoc.
Qed.

Lemma hdr_ok_app pre rest rest' hl to tl so sl :
  24 <= Z.of_nat (length pre) -> length rest = length rest' ->
  hdr_ok (pre ++ rest) hl to tl so sl -> hdr_ok (pre ++ rest') hl to tl so sl.
Proof.
  intros Hl Hr [E1 E2 E3 E4 E5 Hp Hf Ho Ha].
  assert (E : forall k, 0 <= k -> k + 4 <= 24 -> ld32 (pre ++ rest') k = ld32 (pre ++ rest) k).
  { intros k Hk1 Hk2. by rewrite !ld32_prefix by lia. }
  unfold hdr_len, hdr_type_off, hdr_type_len, hdr_str_off, hdr_str_len in *.
  split; unfold hdr_len, hdr_type_off, hdr_type_len, hdr_str_off, hdr_str_len;
    rewrite ?E by lia; try done. rewrite length_app in *. lia.
Qed.

Lemma ld8_behind {pre} sec {sec' post : list Z} k :
  length sec' = length sec -> Z.of_nat (length pre) + Z.of_nat (length sec) <= k ->
  ld8 (pre ++ sec' ++ post) k = ld8 (pre ++ sec ++ post) k.
Proof.
  intros Hl Hk. unfold ld8. destruct (k <? 0); [done|].
  rewrite !(lookup_app_r pre), !lookup_app_r by lia. by rewrite Hl.
Qed.

Lemma image_split m hl to tl so sl :
  hdr_ok m hl to tl so sl -> exists pre sec post, m = pre ++ sec ++ post /\
    Z.of_nat (length pre) = hl + to /\ Z.of_nat (length sec) = tl.
Proof.
  intros [_ _ _ _ _ Hp Hf Ho _].
  exists (take (Z.to_nat (hl + to)) m), (take (Z.to_nat tl) (drop (Z.to_nat (hl + to)) m)),
    (drop (Z.to_nat tl) (drop (Z.to_nat (hl + to)) m)).
  rewrite !take_drop, !length_take, length_drop. split_and!; [done|lia|lia].
Qed.

Lemma strs_ok_behind pre sec sec' post strs sl hb :
  length sec' = length sec -> Z.of_nat (length pre) + Z.of_nat (length sec) <= strs ->
  strs_ok (pre ++ sec ++ post) strs sl hb -> strs_ok (pre ++ sec' ++ post) strs sl hb.
Proof.
  intros Hl Hs [?|(H1 & H2 & H3)]; [by left|]. right.
  split_and!; [lia|lia| |intros E; rewrite <- (H3 E)];
    rewrite (ld8_behind (sec' := sec') sec) by (done || lia); done.
Qed.

Lemma sec_inv_start td endt m :
  endt - td < 2 ^ 32 ->
  sec_inv td td endt {| p_raw := m; p_offs := []; p_cap := 0; p_nr := 0 |} [].
Proof. intros. repeat split; simpl; try lia. Qed.

Lemma base_ids base :
  base_ok base ->
  exists sid soff, match base with
    | None => Some (1, 0)
    | Some bb => sl ← hdr_str_len (raw_data bb); Some (s32 (btf__type_cnt bb), s32 sl)
    end = Some (sid, soff) /\ 1 <= sid <= 2 ^ 30 /\
  match base with
  | None => sid = 1 /\ soff = 0
  | Some bb => btf_ok bb /\ sid = start_id bb + nr_types bb /\
      hdr_str_len (raw_data bb) = Some (u32 soff)
  end.
Proof.
  destruct base as [bb|]; unfold base_ok; [|intros; exists 1, 0; split_and!; done || lia].
  intros [Hok Hs]. pose proof (proj1 (btf_ok_unfold bb) Hok) as ([recs [Hb _ _ Hh _ _ Hi]] & H1 & H2 & _).
  destruct Hh as (hl & to & so & sl & Hh & _).
  rewrite (h_str_len _ _ _ _ _ _ Hh). cbn [mbind option_bind].
  pose proof (h_str_len _ _ _ _ _ _ Hh) as E. eapply ld32_range in E; [|done].
  destruct Hi as [_ _ Hn _ _ _].
  do 2 eexists. split; [done|]. unfold btf__type_cnt.
  rewrite (wrap_small 32 (start_id bb + nr_types bb)) by (pow2; lia).
  rewrite (swrap_small 32 (start_id bb + nr_types bb)) by (pow2; lia).
  split_and!; [lia|lia|done|done|]. f_equal. width_lia.
Qed.

Lemma strs_ok_prefix m tail strs sl hb :
  0 <= strs -> strs + sl <= Z.of_nat (length m) ->
  strs_ok (m ++ tail) strs sl hb -> strs_ok m strs sl hb.
Proof.
  intros H0 H1 [?|(Hs & H2 & H3)]; [by left|]. right.
  assert (E : forall k, 0 <= k < Z.of_nat (length m) -> ld8 (m ++ tail) k = ld8 m k)
    by (intros k Hk; apply (ld8_window [] m tail k Hk)).
  rewrite !E in H2, H3 by lia. done.
Qed.

Section LoadProofs.
Context (alloc_ok : Z -> bool).

(** The type section of an accepted image. *)
Lemma parse_type_sec_spec m sw hl to tl so sl hb :
  bytes_ok m -> Z.of_nat (length m) < 2 ^ 32 -> hdr_ok m hl to tl so sl ->
  (sw = true -> hl = 24) -> strs_ok m (hl + so) sl hb ->
  exists e st, btf_parse_type_sec alloc_ok m sw (hl + to) = Some (e, st) /\
    (e < 0 \/ e = 0 /\ exists pre recs post,
       m = pre ++ enc sw (concat recs) ++ post /\ p_raw st = pre ++ concat recs ++ post /\
       Z.of_nat (length pre) = hl + to /\ Z.of_nat (length (concat recs)) = tl /\
       Forall rec_ok recs /\ hdr_ok (p_raw st) hl to tl so sl /\
       strs_ok (p_raw st) (hl + so) sl hb /\ bytes_ok (p_raw st) /\
       ld16 (p_raw st) 0 = ld16 m 0 /\
       index_ok (p_offs st) (p_cap st) (p_nr st) (offsets 0 recs) /\ 12 * p_nr st <= tl).
Proof.
  intros Hb Hm Hh Hsw Hst. unfold btf_parse_type_sec. rewrite (h_type_len _ _ _ _ _ _ Hh).
  cbn [mbind option_bind].
  destruct (image_split _ _ _ _ _ _ Hh) as (pre & sec & post & -> & Hpre & <-).
  pose proof Hh as [_ _ _ _ _ Hp Hf Ho _].
  apply bytes_ok_app in Hb as [Hb1 [Hb2 Hb3]%bytes_ok_app].
  rewrite <- Hpre.
  destruct (parse_sec alloc_ok sw (S (Z.to_nat (Z.of_nat (length sec)))) pre sec post (Z.of_nat (length pre))
    {| p_raw := pre ++ sec ++ post; p_offs := []; p_cap := 0; p_nr := 0 |} []) as (e & st & -> & Hc);
    [done|lia|done|by apply sec_inv_start; lia|].
  exists e, st. split; [done|]. destruct Hc as [?|(-> & recs & Hr & Hs & Hl & Hraw & Hi)]; [by left|].
  right. split; [done|]. exists pre, recs, post. rewrite Hraw, <- Hs.
  destruct Hi as [Hi _ Hcnt _]. rewrite Z.sub_diag in Hi.
  split_and!; try done; try lia.
  - destruct sw; [|by cbn [enc] in Hs; rewrite <- Hs].
    eapply hdr_ok_app, Hh; [rewrite Hsw in Hpre by done; lia|].
    by rewrite !length_app, Hl.
  - eapply strs_ok_behind, Hst; [done|lia].
  - rewrite !bytes_ok_app. split_and!; [done| |done]. apply Forall_concat.
    eapply Forall_impl; [done|]. by intros r (? & _).
  - destruct sw; [|by cbn [enc] in Hs; rewrite <- Hs].
    rewrite !(ld16_prefix pre) by (rewrite Hsw in Hpre by done; lia). done.
Qed.

Lemma btf_new_spec data base :
  bytes_ok data -> Z.of_nat (length data) < 2 ^ 32 -> base_ok base ->
  exists r, btf_new alloc_ok data (Z.of_nat (length data)) base = Some r /\
    match r with inl e => e < 0 | inr b => btf_ok b /\ base_btf b = base end.
Proof.
  intros Hb Hl Hbase. unfold btf_new. destruct (alloc_ok 120); simpl negb; cbn iota;
    [|by eexists].
  destruct (base_ids base Hbase) as (sid & soff & -> & Hsid & Hids). cbn [mbind option_bind].
  destruct (alloc_ok (Z.of_nat (length data))); simpl negb; cbn iota; [|by eexists].
  rewrite Nat2Z.id, ld_bytes_all. cbn [mbind option_bind].
  destruct (parse_hdr_spec data Hb) as (e & m & sw & -> & Hc). cbn [mbind option_bind].
  destruct Hc as [He|(-> & H24 & Hm & Hsw & Hmg & hl & to & tl & so & sl & Hh)].
  { rewrite (proj2 (Z.eqb_neq e 0)) by lia. simpl. by eexists. }
  assert (Hml : length m = length data) by (rewrite Hm; destruct sw; [by apply swap_hdr_length|done]).
  assert (Hmb : bytes_ok m) by (rewrite Hm; destruct sw; [by apply swap_hdr_bytes_ok|done]).
  rewrite Z.eqb_refl, (h_len _ _ _ _ _ _ Hh), (h_str_off _ _ _ _ _ _ Hh), (h_type_off _ _ _ _ _ _ Hh).
  cbn [negb mbind option_bind].
  destruct (parse_str_sec_spec m hl to tl so sl (bool_decide (is_Some base)) Hh Hmb) as (e & -> & Hst).
  cbn [mbind option_bind]. destruct Hst as [[He _]|[-> Hst]].
  { rewrite (proj2 (Z.eqb_neq e 0)) by lia. simpl. by eexists. }
  rewrite Z.eqb_refl. cbn [negb].
  destruct (parse_type_sec_spec m sw hl to tl so sl (bool_decide (is_Some base)))
    as (e & st & -> & Hc); [done|lia|done| |done|].
  { intros E. specialize (Hsw E). rewrite (h_len _ _ _ _ _ _ Hh) in Hsw. congruence. }
  cbn [mbind option_bind].
  destruct Hc as [He|(-> & pre & recs & post & Hm1 & Hm2 & Hpre & Htl & Hr & Hh' & Hst' & Hb' & Hmg' & Hi & Hn)].
  { rewrite (proj2 (Z.eqb_neq e 0)) by lia. simpl. by eexists. }
  rewrite Z.eqb_refl. cbn [negb]. eexists. split; [done|]. split; [|done].
  apply btf_ok_unfold. cbn [raw_data base_btf start_id nr_types ptr_sz start_str_off].
  pose proof (h_fits _ _ _ _ _ _ Hh'). pose proof (h_pos _ _ _ _ _ _ Hh'). pose proof (h_order _ _ _ _ _ _ Hh').
  pose proof (h_fits _ _ _ _ _ _ Hh).
  split_and!; [|lia|lia|simpl; tauto|done].
  exists recs. split; cbn [raw_data base_btf types_data strs_data type_offs type_offs_cap nr_types]; try done.
  - assert (length (p_raw st) = length m).
    { rewrite Hm1, Hm2, !length_app. do 2 f_equal. destruct sw; [|done]. cbn [enc].
      destruct (concat_words recs Hr) as [n Hn4]. by rewrite (rev4_length n). }
    lia.
  - congruence.
  - exists hl, to, so, sl. by rewrite Htl.
  - by exists pre, post.
Qed.

(** An empty object is well-formed too. *)
Definition empty_image (sl : Z) : list Z :=
  [159; 235; 1; 0; 24; 0; 0; 0] ++ replicate 12 0 ++ [sl; 0; 0; 0] ++ replicate (Z.to_nat sl) 0.

Definition empty_btf (base : option btf) (sid soff sl : Z) : btf :=
  {| raw_data := empty_image sl; raw_data_swapped := None; raw_size := 24 + sl;
     swapped_endian := false; types_data := 24; type_offs := []; type_offs_cap := 0;
     nr_types := 0; base_btf := base; start_id := sid; start_str_off := soff;
     strs_data := 24; ptr_sz := 8 |}.

Lemma empty_ok base sid soff sl :
  sl = (match base with Some _ => 0 | None => 1 end) -> 1 <= sid <= 2 ^ 30 ->
  match base with
  | None => sid = 1 /\ soff = 0
  | Some bb => btf_ok bb /\ sid = start_id bb + nr_types bb /\
      hdr_str_len (raw_data bb) = Some (u32 soff)
  end -> btf_ok (empty_btf base sid soff sl).
Proof.
  intros Hsl Hsid Hids. apply btf_ok_unfold.
  cbn [raw_data base_btf start_id nr_types ptr_sz start_str_off empty_btf].
  split_and!; [|lia|lia|simpl; tauto|done].
  assert (Hs : sl = 0 \/ sl = 1) by (destruct base; auto).
  exists []. split; cbn [raw_data base_btf types_data strs_data type_offs type_offs_cap nr_types empty_btf].
  - destruct Hs as [-> | ->]; repeat (constructor; [unfold is_byte; lia|]); constructor.
  - destruct Hs as [-> | ->]; simpl; lia.
  - by destruct Hs as [-> | ->].
  - exists 24, 0, 0, sl. split_and!; [|done|done|].
    + destruct Hs as [-> | ->]; split; (reflexivity || (simpl; lia) || lia).
    + destruct base; subst sl; [by left|]. right. split_and!; [lia|lia|done|done].
  - exists (take 24 (empty_image sl)), (drop 24 (empty_image sl)). by destruct Hs as [-> | ->].
  - constructor.
  - split; simpl; lia.
Qed.

Lemma btf_new_empty_ok base :
  base_ok base -> exists r, btf_new_empty alloc_ok base = Some r /\
    match r with inl e => e = - ENOMEM | inr b => btf_ok b /\ nr_types b = 0 end.
Proof.
  intros Hbase. unfold btf_new_empty. destruct (alloc_ok 120); cbn [negb]; [|by eexists].
  destruct (base_ids base Hbase) as (sid & soff & -> & Hsid & Hids). cbn [mbind option_bind].
  destruct (alloc_ok _); cbn [negb]; [|by eexists]. destruct base as [bb|].
  - exists (inr (empty_btf (Some bb) sid soff 0)). split; [reflexivity|]. split; [|done].
    by apply (empty_ok _ _ _ 0).
  - exists (inr (empty_btf None sid soff 1)). split; [reflexivity|]. split; [|done].
    by apply (empty_ok _ _ _ 1).
Qed.
End LoadProofs.

(** ** Following the index *)

Lemma btf_chain_ind (P : btf -> Prop) :
  (forall b, (forall bb, base_btf b = Some bb -> P bb) -> P b) -> forall b, P b.
Proof.
  intros H. fix IH 1. intros [? ? ? ? ? ? ? ? [b'|] ? ? ? ?].
  - pose proof (IH b') as Hb'. apply H. intros bb [= <-]. exact Hb'.
  - apply H. intros bb [=].
Qed.

Lemma offsets_lookup recs : forall o i,
  (i < length recs)%nat -> exists r, recs !! i = Some r /\
    offsets o recs !! i = Some (o + Z.of_nat (length (concat (take i recs)))) /\
    concat recs = concat (take i recs) ++ r ++ concat (drop (S i) recs).
Proof.
  induction recs as [|r rs IH]; intros o i Hi; [simpl in Hi; lia|].
  destruct i as [|i]; [exists r; simpl; split_and!; [done|f_equal; lia|done]|].
  destruct (IH (o + Z.of_nat (length r)) i) as (r' & H1 & H2 & H3); [simpl in Hi; lia|].
  exists r'. simpl. rewrite H2, <- app_assoc, <- H3, length_app. split_and!; [done|f_equal; lia|done].
Qed.

Lemma length_offsets recs : forall o, length (offsets o recs) = length recs.
Proof. induction recs as [|r rs IH]; intros o; simpl; [done|by rewrite IH]. Qed.

(** [t] points to a complete record inside an image. *)
Definition points_to (m : list Z) (off : Z) (r : list Z) : Prop :=
  rec_ok r /\ exists pre post, m = pre ++ r ++ post /\ off = Z.of_nat (length pre).

Lemma type_cnt_eq b : btf_ok b -> btf__type_cnt b = start_id b + nr_types b /\ 0 <= nr_types b.
Proof.
  rewrite btf_ok_unfold. intros ([recs [_ _ _ _ _ _ [_ _ Hn _ _ _]]] & H1 & H2 & _).
  unfold btf__type_cnt. rewrite wrap_small by (pow2; lia). lia.
Qed.

Lemma type_by_id_spec b : btf_ok b -> forall id, 0 < id < start_id b + nr_types b ->
  exists m off r, btf_type_by_id b id = Some (TAt m off) /\ points_to m off r.
Proof.
  induction b as [b IH] using btf_chain_ind. intros Hok id Hid.
  destruct (type_cnt_eq b Hok) as [_ Hn0].
  rewrite btf_ok_unfold in Hok. destruct Hok as ([recs [Hb _ _ _ Ht Hr Hi]] & H1 & H2 & _ & Hbase).
  assert (E : btf_type_by_id b id =
    if id =? 0 then Some TVoid else
    if id <? u32 (start_id b) then
      match base_btf b with None => None | Some bb => btf_type_by_id bb id end
    else o ← ld32 (type_offs b) (4 * u32 (id - start_id b)); Some (TAt (raw_data b) (types_data b + o)))
    by (by destruct b).
  rewrite E. destruct (Z.eqb_spec id 0); [lia|].
  rewrite (wrap_small 32 (start_id b)) by (pow2; lia).
  destruct (Z.ltb_spec id (start_id b)).
  { destruct (base_btf b) as [bb|] eqn:Ebb; [|lia]. destruct Hbase as (Hbb & Hs & _).
    apply IH; [done|done|lia]. }
  rewrite (wrap_small 32 (id - start_id b)) by (pow2; lia).
  destruct Ht as (pre & post & Hraw & Htd). destruct Hi as [_ _ Hn _ _ Hg].
  rewrite length_offsets in Hn. set (i := Z.to_nat (id - start_id b)).
  destruct (offsets_lookup recs 0 i) as (r & Hri & Hoi & Hcat); [lia|].
  replace (id - start_id b) with (Z.of_nat i) by lia. rewrite Hg, Hoi by (rewrite length_offsets; lia).
  cbn [mbind option_bind]. do 3 eexists. split; [done|]. split; [by eapply Forall_lookup_1|].
  exists (pre ++ concat (take i recs)), (concat (drop (S i) recs) ++ post).
  rewrite Hraw, Hcat, length_app, <- !app_assoc. split; [done|lia].
Qed.

Lemma points_to_bounds m off r :
  points_to m off r -> btf_type_size m off = Some (Z.of_nat (length r)) /\
    0 <= off /\ off + Z.of_nat (length r) <= Z.of_nat (length m).
Proof.
  intros ((Hb & Hl & Hs) & pre & post & -> & ->). rewrite type_size_window by done.
  rewrite !length_app. split_and!; [done|lia|lia].
Qed.

(** C9: loading BTF data, of either byte order and on any base, never reads
    or writes outside the image, and terminates; it either fails with an
    error code, or yields a well-formed object, each of whose type ids leads
    to a type that lies with all its trailing data inside its image. *)
Theorem btf_new_sound alloc_ok data base :
  bytes_ok data -> Z.of_nat (length data) < 2 ^ 32 -> base_ok base ->
  exists r, btf_new alloc_ok data (Z.of_nat (length data)) base = Some r /\
  match r with
  | inl e => e < 0
  | inr b => btf_ok b /\ base_btf b = base /\
      forall id, 0 < id < btf__type_cnt b -> exists m off sz,
        btf__type_by_id b id = Some (Some (TAt m off)) /\ btf_type_size m off = Some sz /\
        12 <= sz /\ 0 <= off /\ off + sz <= Z.of_nat (length m)
  end.
Proof.
  intros Hb Hl Hbase. destruct (btf_new_spec alloc_ok data base Hb Hl Hbase) as (r & -> & Hr).
  exists r. split; [done|]. destruct r as [e|b]; [done|]. destruct Hr as [Hok Hbb].
  split_and!; [done|done|]. destruct (type_cnt_eq b Hok) as [Hc _]. intros id Hid.
  destruct (type_by_id_spec b Hok id) as (m & off & r & Ht & Hp); [lia|].
  destruct (points_to_bounds _ _ _ Hp) as (Hsz & H0 & H1). destruct Hp as ((_ & H12 & _) & _).
  exists m, off, (Z.of_nat (length r)). unfold btf__type_by_id. fold (btf__type_cnt b).
  rewrite Ht. destruct (id >=? btf__type_cnt b) eqn:?; [lia|]. by split_and!.
Qed.

(** ** Writing an object out in the other byte order *)

Lemma swap_types_spec offs recs : forall pre post p i,
  Forall rec_ok recs -> p <= Z.of_nat (length pre) -> 0 <= i ->
  (forall k o, offsets (Z.of_nat (length pre) - p) recs !! k = Some o ->
     ld32 offs (4 * (i + Z.of_nat k)) = Some o) ->
  swap_types (pre ++ concat recs ++ post) p offs i (length recs)
  = Some (Some (pre ++ rev4 (concat recs) ++ post)).
Proof.
  induction recs as [|r rs IH]; intros pre post p i Hr Hp Hi Ho; [done|].
  apply Forall_cons in Hr as [Hr Hrs]. cbn [length swap_types].
  pose proof (Ho 0%nat (Z.of_nat (length pre) - p) eq_refl) as Ho0.
  rewrite Z.add_0_r in Ho0. rewrite Ho0. cbn [mbind option_bind].
  replace (p + (Z.of_nat (length pre) - p)) with (Z.of_nat (length pre)) by lia.
  destruct (rec_split r Hr) as (n & Hs & H12 & Hd & Hb1 & Hb2).
  cbn [concat]. rewrite <- app_assoc, bswap_type_rest_window by done. cbn [mbind option_bind].
  rewrite Z.eqb_refl. cbn [negb]. rewrite bswap_type_base_window by done. cbn [mbind option_bind].
  rewrite (app_assoc (rev4 (take 12 r))).
  replace (rev4 (take 12 r) ++ rev4 (drop 12 r)) with (rev4 r)
    by (by rewrite <- (rev4_app 3), <- Hs).
  assert (Hl4 : length (rev4 r) = length r)
    by (destruct (rec_words r Hr) as [k Hk]; by rewrite (rev4_length (3 + k))).
  rewrite (app_assoc pre), IH.
  - change (r ++ concat rs) with (concat (r :: rs)).
    by rewrite concat_rev4_app, <- !app_assoc by done.
  - done.
  - rewrite length_app. lia.
  - lia.
  - intros k o Hk. rewrite length_app, Hl4 in Hk.
    replace (4 * (i + 1 + Z.of_nat k)) with (4 * (i + Z.of_nat (S k))) by lia.
    apply Ho. cbn [offsets]. simpl. rewrite <- Hk. do 2 f_equal. lia.
Qed.

(** The object's sections in the order header, types, strings, without
    gaps. *)
Definition canonical (b : btf) (tl sl : Z) : Prop :=
  hdr_ok (raw_data b) 24 0 tl tl sl.

Lemma canonical_split b recs tl sl :
  own_ok b recs -> canonical b tl sl -> exists pre strs tail,
    raw_data b = pre ++ concat recs ++ strs ++ tail /\ length pre = 24%nat /\
    Z.of_nat (length (concat recs)) = tl /\ Z.of_nat (length strs) = sl /\
    types_data b = 24 /\ strs_data b = 24 + tl.
Proof.
  intros [_ _ _ (hl & to & so & sl' & Hh & Htd & Hsd & _) (pre & post & Hraw & Hpre) _ _] Hc.
  destruct Hc as [E1 E2 E3 E4 E5 Hp Hf _ _]. destruct Hh as [F1 F2 F3 F4 F5 _ _ _ _].
  rewrite E1 in F1. rewrite E2 in F2. rewrite E3 in F3. rewrite E4 in F4. rewrite E5 in F5. simplify_eq.
  rewrite Hraw, !length_app in Hf.
  exists pre, (take (Z.to_nat sl') post), (drop (Z.to_nat sl') post).
  rewrite take_drop, length_take. split_and!; [done|lia|done|lia|lia|lia].
Qed.

Lemma st_bytes_start bs mid post :
  length mid = length bs -> bytes_ok bs -> st_bytes (mid ++ post) 0 bs = Some (bs ++ post).
Proof. apply (st_bytes_app bs [] mid post). Qed.

Lemma ld_bytes_at pre bs post off n :
  off = Z.of_nat (length pre) -> n = length bs -> ld_bytes (pre ++ bs ++ post) off n = Some bs.
Proof. intros -> ->. apply ld_bytes_app. Qed.

Lemma ld_bytes_start bs post n : n = length bs -> ld_bytes (bs ++ post) 0 n = Some bs.
Proof. by apply (ld_bytes_at []). Qed.

Lemma st_bytes_at bs pre mid post off :
  off = Z.of_nat (length pre) -> length mid = length bs -> bytes_ok bs ->
  st_bytes (pre ++ mid ++ post) off bs = Some (pre ++ bs ++ post).
Proof. intros ->. apply st_bytes_app. Qed.

(** The written image: everything in the other byte order but the strings. *)
Lemma get_raw_data_swapped alloc_ok b recs tl sl :
  own_ok b recs -> canonical b tl sl -> (forall n, alloc_ok n = true) ->
  raw_data_swapped b = None ->
  exists pre strs tail, raw_data b = pre ++ concat recs ++ strs ++ tail /\ length pre = 24%nat /\
    Z.of_nat (length (concat recs)) = tl /\ Z.of_nat (length strs) = sl /\
    btf_get_raw_data alloc_ok b true =
      Some (Some (swap_hdr pre ++ rev4 (concat recs) ++ strs, 24 + tl + sl)).
Proof.
  intros Hown Hc Ha Hnone.
  destruct (canonical_split _ _ _ _ Hown Hc) as (pre & strs & tail & Hraw & Hpre & Htl & Hsl & Htd & Hsd).
  exists pre, strs, tail. split_and!; [done..|].
  destruct Hown as [Hb Hlong _ _ _ Hr [_ _ Hn _ _ Hg]]. rewrite length_offsets in Hn, Hg.
  unfold btf_get_raw_data. rewrite Hnone, (h_len _ _ _ _ _ _ Hc), (h_type_len _ _ _ _ _ _ Hc),
    (h_str_len _ _ _ _ _ _ Hc). cbn [mbind option_bind].
  assert (Hsz : 24 + tl + sl < 2 ^ 32) by (rewrite Hraw, !length_app in Hlong; lia).
  rewrite (wrap_small 32) by (pow2; lia). rewrite Ha. cbn [negb].
  assert (Hz : replicate (Z.to_nat (24 + tl + sl)) 0 =
    replicate 24 0 ++ replicate (length (concat recs)) 0 ++ replicate (length strs) 0).
  { rewrite <- !replicate_add. f_equal. lia. }
  rewrite Hz, Hraw, Htd, Hsd.
  rewrite Hraw, !bytes_ok_app in Hb. destruct Hb as (Hbp & Hbr & Hbs & _).
  rewrite (ld_bytes_start pre) by (by rewrite Hpre). cbn [mbind option_bind].
  rewrite st_bytes_start by (done || by rewrite length_replicate). cbn [mbind option_bind].
  set (z := replicate (length (concat recs)) 0 ++ _).
  assert (Hbz : bytes_ok z).
  { apply bytes_ok_app. split; apply Forall_replicate; unfold is_byte; lia. }
  rewrite bswap_hdr_eq; [|rewrite length_app; lia|by apply bytes_ok_app]. cbn [mbind option_bind].
  rewrite (swap_hdr_split _ pre z) by (done || lia). unfold z.
  assert (Hsw : length (swap_hdr pre) = 24%nat) by (by rewrite swap_hdr_length by lia).
  rewrite (ld_bytes_at pre _ _ 24) by lia. cbn [mbind option_bind].
  rewrite (st_bytes_at (concat recs)) by (done || lia || by rewrite length_replicate).
  cbn [mbind option_bind].
  replace (Z.to_nat (nr_types b)) with (length recs) by lia.
  rewrite swap_types_spec; [|done|lia|lia|].
  2: { rewrite Hsw. intros k o Hk. rewrite Z.add_0_l, Hg; [by rewrite <- Hk|].
       apply lookup_lt_Some in Hk. by rewrite length_offsets in Hk. }
  cbn [mbind option_bind].
  destruct (concat_words recs Hr) as [n Hn4].
  rewrite (app_assoc pre), (ld_bytes_at (pre ++ concat recs)) by (rewrite ?length_app; lia).
  cbn [mbind option_bind]. rewrite (app_assoc (swap_hdr pre)).
  rewrite <- (app_nil_r (replicate (length strs) 0)), (app_assoc (swap_hdr pre)).
  rewrite (st_bytes_at strs);
    [|rewrite length_app, (rev4_length n) by done; lia|by rewrite length_replicate|done].
  cbn [mbind option_bind]. by rewrite app_nil_r, <- app_assoc.
Qed.

(** The header of an image depends on its first 24 bytes and its size. *)
Lemma hdr_ok_shorter pre rest rest' hl to tl so sl :
  24 <= Z.of_nat (length pre) -> hl + so + sl <= Z.of_nat (length (pre ++ rest')) ->
  hdr_ok (pre ++ rest) hl to tl so sl -> hdr_ok (pre ++ rest') hl to tl so sl.
Proof.
  intros Hl Hr [E1 E2 E3 E4 E5 Hp Hf Ho Ha].
  assert (E : forall k, 0 <= k -> k + 4 <= 24 -> ld32 (pre ++ rest') k = ld32 (pre ++ rest) k).
  { intros k Hk1 Hk2. by rewrite !ld32_prefix by lia. }
  unfold hdr_len, hdr_type_off, hdr_type_len, hdr_str_off, hdr_str_len in *.
  by split; unfold hdr_len, hdr_type_off, hdr_type_len, hdr_str_off, hdr_str_len; rewrite ?E by lia.
Qed.

(** The header of an image of either byte order is recognised and brought to
    native order. *)
Lemma parse_hdr_image (sw : bool) pre rest tl sl :
  length pre = 24%nat -> bytes_ok (pre ++ rest) -> ld16 (pre ++ rest) 0 = Some BTF_MAGIC ->
  hdr_ok (pre ++ rest) 24 0 tl tl sl ->
  btf_parse_hdr ((if sw then swap_hdr pre else pre) ++ rest) (Z.of_nat (length (pre ++ rest)))
  = Some (0, pre ++ rest, sw).
Proof.
  intros Hp Hb Hmg Hh.
  assert (H24 : 24 <= Z.of_nat (length (pre ++ rest))) by (rewrite length_app; lia).
  assert (Hlay : forall sw : bool, hdr_layout (pre ++ rest) (Z.of_nat (length (pre ++ rest))) sw
                                      = Some (0, pre ++ rest, sw)).
  { intros sw'. destruct (parse_hdr_checks (pre ++ rest) _ H24 Hb eq_refl sw')
      as (e & -> & [[_ Hn]|[-> _]]); [|done]. by destruct (Hn 24 0 tl tl sl). }
  unfold btf_parse_hdr. destruct (Z.ltb_spec (Z.of_nat (length (pre ++ rest))) 24); [lia|]. destruct sw.
  - rewrite <- (swap_hdr_split (pre ++ rest)) by (done || lia).
    rewrite (magic_swap _ _ H24 Hb Hmg), (hdr_len_swap _ _ H24 Hb (h_len _ _ _ _ _ _ Hh)).
    cbn [mbind option_bind]. rewrite Z.eqb_refl, bswap32_invol, Z.eqb_refl by lia. cbn [negb].
    rewrite bswap_hdr_eq; [|by rewrite swap_hdr_length|by apply swap_hdr_bytes_ok].
    rewrite swap_hdr_invol by done. apply Hlay.
  - rewrite Hmg, (h_len _ _ _ _ _ _ Hh). cbn [mbind option_bind]. apply Hlay.
Qed.

Lemma bytes_ok_concat recs : Forall rec_ok recs -> bytes_ok (concat recs).
Proof. intros H. apply Forall_concat. eapply Forall_impl; [done|]. by intros r (? & _). Qed.

(** Loading the written image gives the sections and the index back. *)
Lemma load_image alloc_ok (sw : bool) pre recs strs base tl sl :
  (forall n, alloc_ok n = true) -> base_ok base -> length pre = 24%nat ->
  Forall rec_ok recs -> bytes_ok pre -> bytes_ok strs ->
  ld16 (pre ++ concat recs ++ strs) 0 = Some BTF_MAGIC ->
  hdr_ok (pre ++ concat recs ++ strs) 24 0 tl tl sl ->
  strs_ok (pre ++ concat recs ++ strs) (24 + tl) sl (bool_decide (is_Some base)) ->
  Z.of_nat (length (concat recs)) = tl -> 24 + tl + sl < 2 ^ 32 -> Z.of_nat (length strs) = sl ->
  exists b', btf_new alloc_ok ((if sw then swap_hdr pre else pre) ++ enc sw (concat recs) ++ strs)
      (24 + tl + sl) base = Some (inr b') /\
    raw_data b' = pre ++ concat recs ++ strs /\ swapped_endian b' = sw /\
    types_data b' = 24 /\ strs_data b' = 24 + tl /\
    index_ok (type_offs b') (type_offs_cap b') (nr_types b') (offsets 0 recs).
Proof.
  intros Ha Hbase Hpre Hr Hbp Hbs Hmg Hh Hst Htl Hsz Hsl. unfold btf_new. rewrite Ha. cbn [negb].
  destruct (base_ids base Hbase) as (sid & soff & -> & _ & _). cbn [mbind option_bind].
  rewrite Ha. cbn [negb]. destruct (concat_words recs Hr) as [n Hn].
  pose proof (bytes_ok_concat recs Hr) as Hbr.
  destruct (enc_words sw n (concat recs) Hn Hbr) as (Hrl & Hbe & _).
  set (rest := enc sw (concat recs) ++ strs). set (hdr := if sw then swap_hdr pre else pre).
  assert (Hhl : length hdr = length pre)
    by (unfold hdr; destruct sw; [by rewrite swap_hdr_length by lia|done]).
  assert (Hlen : 24 + tl + sl = Z.of_nat (length (pre ++ rest)))
    by (unfold rest; rewrite !length_app; lia).
  assert (Hbm : bytes_ok (pre ++ rest))
    by (unfold rest; rewrite !bytes_ok_app; by split_and!).
  assert (Hh' : hdr_ok (pre ++ rest) 24 0 tl tl sl) by (eapply hdr_ok_shorter, Hh; lia).
  assert (Hst' : strs_ok (pre ++ rest) (24 + tl) sl (bool_decide (is_Some base)))
    by (eapply strs_ok_behind, Hst; [done|lia]).
  replace (ld_bytes (hdr ++ rest) 0 (Z.to_nat (24 + tl + sl)))
    with (Some (hdr ++ rest)).
  2: { rewrite <- (ld_bytes_all (hdr ++ rest)) at 1. f_equal.
       rewrite Hlen, !length_app, Hhl. lia. }
  cbn [mbind option_bind]. rewrite Hlen. unfold hdr. rewrite (parse_hdr_image sw pre rest tl sl) by
    (done || by rewrite ld16_prefix in Hmg |- * by lia).
  cbn [mbind option_bind]. rewrite Z.eqb_refl. cbn [negb].
  rewrite (h_len _ _ _ _ _ _ Hh'), (h_str_off _ _ _ _ _ _ Hh'), (h_type_off _ _ _ _ _ _ Hh').
  cbn [mbind option_bind].
  destruct (parse_str_sec_spec _ _ _ _ _ _ (bool_decide (is_Some base)) Hh' Hbm) as (e & -> & [[_ ?]|[-> _]]);
    [done|]. cbn [mbind option_bind]. rewrite Z.eqb_refl. cbn [negb].
  unfold btf_parse_type_sec. rewrite (h_type_len _ _ _ _ _ _ Hh'). cbn [mbind option_bind].
  replace (24 + 0) with (Z.of_nat (length pre)) by lia. rewrite <- Htl.
  destruct (parse_recs alloc_ok sw recs (S (Z.to_nat (Z.of_nat (length (concat recs))))) pre strs
    (Z.of_nat (length pre)) {| p_raw := pre ++ rest; p_offs := []; p_cap := 0; p_nr := 0 |} [])
    as (e & st & -> & Hc); [done| |done|by apply sec_inv_start; lia|].
  { pose proof (recs_count recs Hr). lia. }
  destruct Hc as [[_ [k Hk]]|(-> & Hraw & [Hi _ _ _])]; [by rewrite Ha in Hk|].
  cbn [mbind option_bind]. rewrite Z.eqb_refl. cbn [negb]. eexists. split; [done|].
  cbn [raw_data swapped_endian types_data strs_data type_offs type_offs_cap nr_types].
  rewrite Z.sub_diag in Hi. split_and!; [done|done|lia|lia|done].
Qed.

(** C10: byte-order round trip.  An object without gaps between its sections
    is switched to big endian and written out; loading the written image
    recognises the byte order and restores the header, the types and the
    strings byte for byte, and the same type index. *)
Theorem btf_endianness_roundtrip alloc_ok b tl sl :
  btf_ok b -> base_ok (base_btf b) -> canonical b tl sl -> raw_data_swapped b = None ->
  (forall n, alloc_ok n = true) ->
  exists d b1 b', let sz := 24 + tl + sl in
    btf__raw_data alloc_ok (btf__set_endianness b BTF_BIG_ENDIAN).2 = Some (Some (d, sz), b1) /\
    Z.of_nat (length d) = sz /\
    btf_new alloc_ok d sz (base_btf b) = Some (inr b') /\
    btf__endianness b' = BTF_BIG_ENDIAN /\
    raw_data b' = take (Z.to_nat sz) (raw_data b) /\
    types_data b' = types_data b /\ strs_data b' = strs_data b /\ nr_types b' = nr_types b /\
    forall i, 0 <= i < nr_types b -> ld32 (type_offs b') (4 * i) = ld32 (type_offs b) (4 * i).
Proof.
  intros Hok Hbase Hc Hnone Ha. rewrite btf_ok_unfold in Hok. destruct Hok as ([recs Hown] & _).
  assert (Hown' : own_ok (with_swap b true None (raw_size b)) recs) by (by destruct Hown).
  destruct (get_raw_data_swapped alloc_ok (with_swap b true None (raw_size b)) recs tl sl Hown')
    as (pre & strs & tail & Hraw & Hpre & Htl & Hsl & Hget); [done..|]. cbn [raw_data with_swap] in Hraw.
  destruct (canonical_split _ _ _ _ Hown Hc) as (_ & _ & _ & _ & _ & _ & _ & Htd & Hsd).
  destruct Hown as [Hb Hlong Hmg (hl & to & so & sl' & Hh & _ & _ & Hst) _ Hr Hi].
  assert (sl' = sl) as ->.
  { pose proof (h_str_len _ _ _ _ _ _ Hh). pose proof (h_str_len _ _ _ _ _ _ Hc). congruence. }
  unfold canonical in Hc. rewrite Hraw in Hb, Hc, Hst, Hmg, Hlong.
  rewrite !bytes_ok_app in Hb. destruct Hb as (Hbp & _ & Hbs & _). rewrite !length_app in Hlong.
  destruct (load_image alloc_ok true pre recs strs (base_btf b) tl sl)
    as (b' & Hnew & Hraw' & Hsw & Htd' & Hsd' & Hi'); try (done || lia).
  { by rewrite ld16_prefix in Hmg |- * by lia. }
  { eapply hdr_ok_shorter, Hc; [lia|]. rewrite !length_app. lia. }
  { rewrite Hsd in Hst. apply (strs_ok_prefix _ tail); [lia|rewrite !length_app; lia|].
    by rewrite <- !app_assoc. }
  eexists _, _, b'. cbn zeta. unfold btf__raw_data, btf__set_endianness.
  rewrite (bool_decide_eq_true_2 _ eq_refl), Hnone. cbn [is_host_big_endian eqb negb snd].
  split; [cbn [swapped_endian with_swap]; by rewrite Hget|].
  destruct (concat_words recs Hr) as [n Hn].
  split; [rewrite !length_app, swap_hdr_length, (rev4_length n) by lia; lia|].
  split; [done|]. unfold btf__endianness. rewrite Hsw, Hraw', Hraw, Htd, Hsd, Htd', Hsd'.
  destruct Hi as [_ _ Hn1 _ _ Hg], Hi' as [_ _ Hn2 _ _ Hg'].
  split_and!; [done| |done|done|congruence|].
  - rewrite (app_assoc (concat recs) strs tail), (app_assoc pre _ tail), take_app_length'; [done|].
    rewrite !length_app. lia.
  - intros i Hir. rewrite <- (Z2Nat.id i), Hg, Hg' by lia. done.
Qed.

(** ** Names and the pointer size *)

Lemma until_nul_Some l k : l !! k = Some 0 -> is_Some (until_nul l).
Proof.
  revert k. induction l as [|b l IH]; intros k; [done|]. simpl.
  destruct (Z.eqb_spec b 0); [by eexists|]. destruct k as [|k]; simpl; [congruence|].
  intros Hk. destruct (IH k Hk) as [s ->]. by eexists.
Qed.

Lemma cstr_Some m o k : 0 <= o <= k -> ld8 m k = Some 0 -> is_Some (cstr m o).
Proof.
  intros Ho. unfold ld8, cstr. destruct (Z.ltb_spec k 0); [done|]. destruct (Z.ltb_spec o 0); [lia|].
  intros Hk. apply (until_nul_Some _ (Z.to_nat k - Z.to_nat o)). rewrite lookup_drop, <- Hk.
  f_equal. lia.
Qed.

(** Every string offset inside the string sections names a terminated
    string. *)
Lemma str_by_offset_spec b : btf_ok b -> forall off, 0 <= off < 2 ^ 32 ->
  exists p, btf__str_by_offset b off = Some p /\
    forall m o, p = Some (m, o) -> is_Some (cstr m o).
Proof.
  induction b as [b IH] using btf_chain_ind. intros Hok off Hoff.
  rewrite btf_ok_unfold in Hok. destruct Hok as ([recs Hown] & _ & _ & _ & Hbase).
  assert (E : btf__str_by_offset b off =
    if off <? u32 (start_str_off b) then
      match base_btf b with None => None | Some bb => btf__str_by_offset bb off end
    else sl ← hdr_str_len (raw_data b);
      Some (if u32 (off - start_str_off b) <? sl
            then Some (raw_data b, strs_data b + u32 (off - start_str_off b)) else None))
    by (by destruct b).
  rewrite E. destruct (Z.ltb_spec off (u32 (start_str_off b))).
  { destruct (base_btf b) as [bb|] eqn:Ebb; [|destruct Hbase as [_ Hs]; rewrite Hs in *; width_lia].
    destruct Hbase as (Hbb & _). by apply IH. }
  destruct Hown as [_ _ _ (hl & to & so & sl & Hh & _ & Hsd & Hst) _ _ _].
  rewrite (h_str_len _ _ _ _ _ _ Hh). cbn [mbind option_bind]. eexists. split; [done|].
  intros m o Hp. destruct (Z.ltb_spec (u32 (off - start_str_off b)) sl) as [Hlt|]; [|done].
  simplify_eq. pose proof (wrap_range 32 (off - start_str_off b)) as Hw.
  pose proof (h_pos _ _ _ _ _ _ Hh).
  destruct Hst as [[-> _]|(Hs & Hz & _)]; [lia|].
  apply (cstr_Some _ _ (strs_data b + sl - 1)); [lia|done].
Qed.

(** [btf__type_by_id] on any id. *)
Lemma type_ptr_cases b id :
  btf_ok b -> 0 <= id ->
  btf__type_by_id b id = Some None \/ id = 0 /\ btf__type_by_id b id = Some (Some TVoid) \/
  0 < id < btf__type_cnt b /\
  exists m off r, btf__type_by_id b id = Some (Some (TAt m off)) /\ points_to m off r.
Proof.
  intros Hok Hid. destruct (type_cnt_eq b Hok) as [Hc _]. unfold btf__type_by_id. fold (btf__type_cnt b).
  destruct (id >=? btf__type_cnt b) eqn:?; [by left|]. right.
  destruct (Z.eq_dec id 0) as [->|]; [left; split; [done|by destruct b]|]. right. split; [lia|].
  destruct (type_by_id_spec b Hok id) as (m & off & r & -> & Hp); [lia|]. by exists m, off, r.
Qed.

Lemma type_ptr_some b id : btf_ok b -> 0 <= id -> is_Some (btf__type_by_id b id).
Proof.
  intros Hok Hid.
  destruct (type_ptr_cases b id Hok Hid) as [->|[[_ ->]|(_ & m & off & r & -> & _)]]; by eexists.
Qed.

Lemma points_to_field m off r k :
  points_to m off r -> 0 <= k -> k + 4 <= Z.of_nat (length r) ->
  exists v, ld32 m (off + k) = Some v /\ ld32 r k = Some v /\ 0 <= v < 2 ^ 32.
Proof.
  intros ((Hb & _) & pre & post & -> & ->) H0 H1. rewrite ld32_window by done.
  destruct (ld32_Some r k H0 H1) as [v Hv]. exists v. split_and!; [done|done|..];
    eapply ld32_range in Hv; pow2; by destruct Hv || done.
Qed.

(** The fields of a type that [btf__type_by_id] returned. *)
Lemma type_fields m off r :
  points_to m off r -> exists name info size,
    t_name_off (TAt m off) = Some name /\ t_info (TAt m off) = Some info /\
    t_size (TAt m off) = Some size /\ 0 <= name < 2 ^ 32 /\ 0 <= size < 2 ^ 32 /\ 
    btf_type_size r 0 = Some (Z.of_nat (length r)) /\ ld32 r 4 = Some info.
Proof.
  intros Hp. pose proof Hp as ((_ & Hl & Hs) & _).
  destruct (points_to_field _ _ _ 0 Hp) as (n & Hn & _ & Hnr); [lia..|]. rewrite Z.add_0_r in Hn.
  destruct (points_to_field _ _ _ 4 Hp) as (i & Hi & Hi' & _); [lia..|].
  destruct (points_to_field _ _ _ 8 Hp) as (s & Hs' & _ & Hsr); [lia..|].
  exists n, i, s. by split_and!; try lia.
Qed.

Lemma long_scan_spec b : btf_ok b -> forall n i,
  0 < i -> i + Z.of_nat n <= btf__type_cnt b ->
  exists s, long_scan b i n = Some s /\ In s [-1; 4; 8].
Proof.
  intros Hok. induction n as [|n IH]; intros i Hi Hn; [eexists; split; [done|simpl; tauto]|].
  cbn [long_scan]. destruct (type_ptr_cases b i Hok) as [H|[[-> _]|(_ & m & off & r & -> & Hp)]];
    [lia| |lia|].
  { exfalso. unfold btf__type_by_id in H. fold (btf__type_cnt b) in H.
    destruct (i >=? btf__type_cnt b) eqn:?; [lia|]. by apply bind_Some in H as (? & _ & [=]). }
  cbn [mbind option_bind]. destruct (type_fields _ _ _ Hp) as (name & info & size & H1 & H2 & H3 & Hn' & _).
  unfold btf_kind. rewrite H2. cbn [mbind option_bind].
  assert (Hrec : exists s, long_scan b (i + 1) n = Some s /\ In s [-1; 4; 8]) by (apply IH; lia).
  destruct (bool_decide _); cbn [negb]; [|done]. rewrite H3. cbn [mbind option_bind].
  destruct (negb (size =? 4) && negb (size =? 8)) eqn:Esz; [done|]. rewrite H1. cbn [mbind option_bind].
  destruct (str_by_offset_spec b Hok name) as (p & Hstr & Hcs); [lia|].
  unfold btf__name_by_offset. rewrite Hstr. cbn [mbind option_bind].
  destruct p as [[m' o]|]; [|done]. destruct (Hcs m' o eq_refl) as [s ->]. cbn [mbind option_bind].
  destruct (existsb _ _); [|done]. exists size. split; [done|].
  destruct (Z.eqb_spec size 4) as [->|]; [simpl; tauto|].
  destruct (Z.eqb_spec size 8) as [->|]; [simpl; tauto|done].
Qed.

Lemma with_ptr_sz_ok b s : btf_ok b -> In s [-1; 0; 4; 8] -> btf_ok (with_ptr_sz b s).
Proof.
  rewrite !btf_ok_unfold. intros ([recs H1] & H2 & H3 & _ & H4) Hs. split_and!; try done.
  exists recs. by destruct H1.
Qed.

Lemma btf_ptr_sz_spec b :
  btf_ok b -> exists s b', btf_ptr_sz b = Some (s, b') /\ (s = 4 \/ s = 8) /\ btf_ok b' /\
    btf_ptr_sz b' = Some (s, b').
Proof.
  intros Hok. pose proof Hok as Hok'. rewrite btf_ok_unfold in Hok'.
  destruct Hok' as (_ & _ & _ & Hp & Hbase). unfold btf_ptr_sz, guess_ptr_sz.
  destruct (Z.eqb_spec (ptr_sz b) 0) as [E|E].
  2: { cbn [mbind option_bind]. exists (if ptr_sz b <? 0 then 8 else ptr_sz b), b.
    rewrite (proj2 (Z.eqb_neq _ _) E). split_and!; [done| |done|done].
    destruct Hp as [<-|[?|[<-|[<-|[]]]]]; [by right|done|by left|by right]. }
  assert (exists s, determine_ptr_size b = Some s /\ In s [-1; 4; 8]) as (s & -> & Hs).
  { unfold determine_ptr_size. destruct (type_cnt_eq b Hok) as [Hc Hn].
    destruct (long_scan_spec b Hok (Z.to_nat (btf__type_cnt b - 1)) 1) as (s & Hs1 & Hs2); [lia| |].
    { rewrite btf_ok_unfold in Hok. lia. }
    destruct (base_btf b) as [bb|]; [|by eexists]. destruct (ptr_sz bb >? 0) eqn:?; [|by eexists].
    eexists. split; [done|]. destruct Hbase as (Hbb & _). rewrite btf_ok_unfold in Hbb.
    destruct Hbb as (_ & _ & _ & Hpb & _). simpl in Hpb |- *. lia. }
  cbn [mbind option_bind]. do 2 eexists. split; [done|]. cbn [ptr_sz with_ptr_sz].
  assert (s <> 0) as Hs0 by (simpl in Hs; lia). rewrite (proj2 (Z.eqb_neq _ _) Hs0).
  split_and!; [|apply with_ptr_sz_ok; [done|simpl in Hs |- *; tauto]|done].
  destruct Hs as [<-|[<-|[<-|[]]]]; [by right|by left|by right].
Qed.

(** ** Sizes *)

Definition sized_kind (k : kind) : bool :=
  match k with
  | KIND_INT | KIND_STRUCT | KIND_UNION | KIND_ENUM | KIND_ENUM64 | KIND_DATASEC | KIND_FLOAT => true
  | _ => false
  end.

Definition ref_kind (k : kind) : bool :=
  match k with
  | KIND_TYPEDEF | KIND_VOLATILE | KIND_CONST | KIND_RESTRICT | KIND_VAR | KIND_DECL_TAG
  | KIND_TYPE_TAG => true
  | _ => false
  end.

(** [size_chain b n id dims sz]: following references and array elements
    from the type [id], the [n]-th type is one of size [sz] of its own; the
    arrays on the way have the dimensions [dims], outermost first. *)
Inductive size_chain (b : btf) : nat -> Z -> list Z -> Z -> Prop :=
  | chain_sized id t k sz :
      btf__type_by_id b id = Some (Some t) -> btf_kind t = Some k ->
      sized_kind (kind_of k) = true -> t_size t = Some sz -> size_chain b 1 id [] sz
  | chain_ptr id t k sz b' :
      btf__type_by_id b id = Some (Some t) -> btf_kind t = Some k ->
      kind_of k = KIND_PTR -> btf_ptr_sz b = Some (sz, b') -> size_chain b 1 id [] sz
  | chain_ref n id t k id' dims sz :
      btf__type_by_id b id = Some (Some t) -> btf_kind t = Some k ->
      ref_kind (kind_of k) = true -> t_size t = Some id' ->
      size_chain b n id' dims sz -> size_chain b (S n) id dims sz
  | chain_array n id t k id' d dims sz :
      btf__type_by_id b id = Some (Some t) -> btf_kind t = Some k ->
      kind_of k = KIND_ARRAY -> t_word t 8 = Some d -> t_word t 0 = Some id' ->
      size_chain b n id' dims sz -> size_chain b (S n) id (d :: dims) sz.

Lemma chain_inv b n id dims sz t k :
  size_chain b n id dims sz -> btf__type_by_id b id = Some (Some t) -> btf_kind t = Some k ->
  (n = 1%nat /\ dims = [] /\ sized_kind (kind_of k) = true /\ t_size t = Some sz) \/
  (n = 1%nat /\ dims = [] /\ kind_of k = KIND_PTR /\ exists b', btf_ptr_sz b = Some (sz, b')) \/
  (exists n' id', n = S n' /\ ref_kind (kind_of k) = true /\ t_size t = Some id' /\
     size_chain b n' id' dims sz) \/
  (exists n' id' d dims', n = S n' /\ dims = d :: dims' /\ kind_of k = KIND_ARRAY /\
     t_word t 8 = Some d /\ t_word t 0 = Some id' /\ size_chain b n' id' dims' sz).
Proof.
  intros H Ht Hk.
  destruct H as [? t' k' ? E1 E2|? t' k' ? b' E1 E2 ? ?|n ? t' k' id' ? ? E1 E2
                |n ? t' k' id' d ? ? E1 E2];
    rewrite E1 in Ht; injection Ht as ->; rewrite E2 in Hk; injection Hk as ->.
  - by left.
  - right; left. by split_and!; [..|exists b'].
  - do 2 right; left. by exists n, id'.
  - do 3 right. by exists n, id', d, dims.
Qed.

Lemma chain_typed b n id dims sz :
  size_chain b n id dims sz -> exists t k, btf__type_by_id b id = Some (Some t) /\
    btf_kind t = Some k /\ kind_of k <> KIND_UNKN /\ kind_of k <> KIND_FWD.
Proof.
  intros H.
  destruct H as [? t k ? ? ? E|? t k ? ? ? ? E|? ? t k ? ? ? ? ? E|? ? t k ? ? ? ? ? ? E];
    exists t, k; (split; [done|]); (split; [done|]); destruct (kind_of k); simpl in E; done.
Qed.

Definition prod (dims : list Z) : Z := foldr Z.mul 1 dims.

(** The product of [nelems], the dimensions and the size needs more than 32
    bits, or already that of [nelems] and the outermost dimensions does: an
    inner dimension of zero does not make up for outer ones that overflow. *)
Definition overflows (nelems : Z) (dims : list Z) (sz : Z) : Prop :=
  (exists k, UINT32_MAX < nelems * prod (take k dims)) \/ UINT32_MAX < nelems * prod dims * sz.

Lemma overflows_cons nelems d dims sz :
  nelems <= UINT32_MAX -> overflows nelems (d :: dims) sz <-> overflows (nelems * d) dims sz.
Proof.
  intros Hn. unfold overflows. change (prod (d :: dims)) with (d * prod dims).
  rewrite Z.mul_assoc. split; (intros [[k Hk]|Ho]; [left|by right]).
  - destruct k as [|k]; [simpl in Hk; lia|]. exists k.
    change (prod (take (S k) (d :: dims))) with (d * prod (take k dims)) in Hk. lia.
  - exists (S k). change (prod (take (S k) (d :: dims))) with (d * prod (take k dims)). lia.
Qed.

(** The answer [r] of the loop, entered for the type [id] with [nelems]
    elements and [fuel] iterations left. *)
Definition size_answer (b : btf) (id : Z) (fuel : nat) (nelems r : Z) : Prop :=
  (0 <= r -> exists n dims sz, (n <= fuel)%nat /\ size_chain b n id dims sz /\
     r = nelems * prod dims * sz /\ r <= UINT32_MAX) /\
  (forall n dims sz, (n <= fuel)%nat -> size_chain b n id dims sz ->
     overflows nelems dims sz /\ r = - E2BIG \/
     ~ overflows nelems dims sz /\ r = nelems * prod dims * sz).

Lemma size_answer_none b id fuel nelems :
  (forall n dims sz, (n <= fuel)%nat -> ~ size_chain b n id dims sz) ->
  size_answer b id fuel nelems (resolve_done (-1) nelems).
Proof.
  intros H. split; [intros Hr; by change (0 <= - EINVAL) in Hr|].
  intros n dims sz Hn Hc. by destruct (H n dims sz Hn).
Qed.

Lemma resolve_done_spec sz nelems :
  0 <= sz -> 0 <= nelems ->
  resolve_done sz nelems = if nelems * sz <=? UINT32_MAX then nelems * sz else - E2BIG.
Proof.
  intros Hs Hn. unfold resolve_done. destruct (Z.ltb_spec sz 0); [lia|].
  destruct (Z.eqb_spec nelems 0) as [->|]; cbn [negb andb]; [done|].
  assert (E : (sz >? UINT32_MAX / nelems) = negb (nelems * sz <=? UINT32_MAX)).
  { pose proof (Z.div_le_lower_bound UINT32_MAX nelems sz). pose proof (Z.mul_div_le UINT32_MAX nelems).
    destruct (Z.leb_spec (nelems * sz) UINT32_MAX); cbn [negb]; [lia|]. nia. }
  rewrite E. by destruct (_ <=? _).
Qed.

(** The loop's last step, at a type that has a size of its own. *)
Lemma size_answer_done b id fuel nelems sz :
  0 <= sz -> 0 <= nelems <= UINT32_MAX -> size_chain b 1 id [] sz ->
  (forall n dims sz', size_chain b n id dims sz' -> dims = [] /\ sz' = sz) ->
  size_answer b id (S fuel) nelems (resolve_done sz nelems).
Proof.
  intros Hs Hn Hc Hu. rewrite resolve_done_spec by lia. split.
  - intros Hr. exists 1%nat, [], sz. cbn [prod foldr].
    destruct (Z.leb_spec (nelems * sz) UINT32_MAX); [|by change (0 <= - E2BIG) in Hr].
    split_and!; [lia|done|lia|done].
  - intros n dims sz' _ Hc'. destruct (Hu n dims sz' Hc') as [-> ->].
    destruct (Z.leb_spec (nelems * sz) UINT32_MAX); [right|left]; (split; [|cbn; lia]).
    + unfold overflows. cbn [prod foldr]. intros [[k Hk]|Ho]; [|lia].
      rewrite take_nil in Hk. cbn in Hk. lia.
    + right. cbn. lia.
Qed.

Lemma type_kind_range m off r info :
  points_to m off r -> t_info (TAt m off) = Some info -> kind_of (BTF_INFO_KIND info) = KIND_ARRAY ->
  length r = 24%nat.
Proof.
  intros Hp Hi Hk. destruct (type_fields _ _ _ Hp) as (? & i & ? & _ & E & _ & _ & _ & Hs & Hi').
  rewrite E in Hi. injection Hi as ->. unfold btf_type_size in Hs.
  change (0 + 4) with 4 in Hs. rewrite Hi' in Hs.
  cbn [mbind option_bind] in Hs. rewrite Hk in Hs. apply (inj Some) in Hs. lia.
Qed.

(** One iteration over a reference. *)
Lemma size_answer_ref b id t k id' fuel nelems r :
  btf__type_by_id b id = Some (Some t) -> btf_kind t = Some k -> ref_kind (kind_of k) = true ->
  t_size t = Some id' -> size_answer b id' fuel nelems r -> size_answer b id (S fuel) nelems r.
Proof.
  intros Ht Hk Hr Hs [H1 H2]. split.
  - intros Hpos. destruct (H1 Hpos) as (n & dims & sz & Hn & Hc & E).
    exists (S n), dims, sz. split; [lia|]. split; [by eapply chain_ref|done].
  - intros n dims sz Hn Hc. destruct (chain_inv _ _ _ _ _ _ _ Hc Ht Hk)
      as [(_ & _ & Hz & _)|[(_ & _ & Hz & _)|[(n' & i' & -> & _ & E & Hc')|(? & ? & ? & ? & _ & _ & Hz & _)]]];
      try (by rewrite ?Hz in Hr; destruct (kind_of k)).
    assert (i' = id') as -> by congruence. apply (H2 n'); [lia|done].
Qed.

(** One iteration over an array, when the product still fits. *)
Lemma size_answer_array b id t k id' d fuel nelems r :
  btf__type_by_id b id = Some (Some t) -> btf_kind t = Some k -> kind_of k = KIND_ARRAY ->
  t_word t 8 = Some d -> t_word t 0 = Some id' -> nelems <= UINT32_MAX ->
  size_answer b id' fuel (nelems * d) r -> size_answer b id (S fuel) nelems r.
Proof.
  intros Ht Hk Hr Hd Hs Hn32 [H1 H2]. split.
  - intros Hpos. destruct (H1 Hpos) as (n & dims & sz & Hn & Hc & E & Hu).
    exists (S n), (d :: dims), sz. split_and!; [lia|by eapply chain_array| |done].
    rewrite E. cbn [prod foldr]. fold (prod dims). ring.
  - intros n dims sz Hn Hc. destruct (chain_inv _ _ _ _ _ _ _ Hc Ht Hk)
      as [(_ & _ & Hz & _)|[(_ & _ & Hz & _)|[(n' & i' & _ & Hz & _)|(n' & i' & d' & dims' & -> & -> & _ & E1 & E2 & Hc')]]];
      try (by rewrite Hr in Hz).
    assert (i' = id') as -> by congruence. assert (d' = d) as -> by congruence.
    rewrite overflows_cons by done. change (prod (d :: dims')) with (d * prod dims').
    rewrite Z.mul_assoc. apply (H2 n'); [lia|done].
Qed.

(** An array whose product with the elements so far does not fit. *)
Lemma size_answer_overflow b id t k d fuel nelems :
  btf__type_by_id b id = Some (Some t) -> btf_kind t = Some k -> kind_of k = KIND_ARRAY ->
  t_word t 8 = Some d -> 0 < nelems -> d > UINT32_MAX / nelems ->
  size_answer b id fuel nelems (- E2BIG).
Proof.
  intros Ht Hk Hr Hd Hn0 Hov. split; [lia|].
  intros n dims sz Hn Hc. destruct (chain_inv _ _ _ _ _ _ _ Hc Ht Hk)
    as [(_ & _ & Hz & _)|[(_ & _ & Hz & _)|[(n' & i' & _ & Hz & _)|(n' & i' & d' & dims' & -> & -> & _ & E1 & _ & _)]]];
    try (by rewrite Hr in Hz).
  assert (d' = d) as -> by congruence. left. split; [|done]. left. exists 1%nat.
  cbn [take prod foldr]. rewrite Z.mul_1_r.
  pose proof (Z.div_le_lower_bound UINT32_MAX nelems d). nia.
Qed.

(** No chain goes through a type without a size that refers to no other. *)
Lemma no_chain b id t k :
  btf__type_by_id b id = Some (Some t) -> btf_kind t = Some k ->
  sized_kind (kind_of k) = false -> ref_kind (kind_of k) = false ->
  kind_of k <> KIND_PTR -> kind_of k <> KIND_ARRAY -> forall n dims sz, ~ size_chain b n id dims sz.
Proof.
  intros Ht Hk ? ? ? ? n dims sz Hc. destruct (chain_inv _ _ _ _ _ _ _ Hc Ht Hk)
    as [(_ & _ & Hz & _)|[(_ & _ & Hz & _)|[(? & ? & _ & Hz & _)|(? & ? & ? & ? & _ & _ & Hz & _)]]];
    congruence.
Qed.

Lemma resolve_sized b id t k size fuel nelems :
  btf_ok b -> btf__type_by_id b id = Some (Some t) -> btf_kind t = Some k -> t_size t = Some size ->
  0 <= size -> 0 <= nelems <= UINT32_MAX -> sized_kind (kind_of k) = true ->
  exists r b', (size ← t_size t; Some (resolve_done size nelems, b)) = Some (r, b') /\ btf_ok b' /\
    size_answer b id (S fuel) nelems r.
Proof.
  intros Hok E Hk Hsz ? ? Hs. rewrite Hsz. cbn [mbind option_bind]. do 2 eexists. split_and!; [done|done|].
  apply size_answer_done; [lia|lia|by eapply chain_sized|]. intros n dims sz' Hc.
  destruct (chain_inv _ _ _ _ _ _ _ Hc E Hk)
    as [(_ & -> & _ & E')|[(_ & _ & Hz & _)|[(? & ? & _ & Hz & _)|(? & ? & ? & ? & _ & _ & Hz & _)]]];
    [by split; [|congruence]|by rewrite Hz in Hs|by destruct (kind_of k)|by rewrite Hz in Hs].
Qed.

(** The rest of the loop, for the types that come after. *)
Definition loop_ok (b : btf) (fuel : nat) : Prop := forall id t nelems,
  0 <= id -> 0 <= nelems <= UINT32_MAX -> btf__type_by_id b id = Some t ->
  exists r b', resolve_loop fuel b t nelems = Some (r, b') /\ btf_ok b' /\
    size_answer b id fuel nelems r.

Lemma resolve_ref b id t k id' fuel nelems :
  btf_ok b -> loop_ok b fuel -> btf__type_by_id b id = Some (Some t) -> btf_kind t = Some k ->
  t_size t = Some id' -> 0 <= id' -> 0 <= nelems <= UINT32_MAX -> ref_kind (kind_of k) = true ->
  exists r b', (type_id ← t_size t; t ← btf__type_by_id b type_id; resolve_loop fuel b t nelems)
      = Some (r, b') /\ btf_ok b' /\ size_answer b id (S fuel) nelems r.
Proof.
  intros Hok IH E Hk Hsz ? ? Hs. rewrite Hsz. cbn [mbind option_bind].
  destruct (type_ptr_some b id' Hok) as [t' Ht']; [lia|]. rewrite Ht'. cbn [mbind option_bind].
  destruct (IH id' t' nelems) as (r' & b' & -> & Hb' & Ha); [lia|lia|done|].
  exists r', b'. split_and!; [done|done|]. by eapply size_answer_ref.
Qed.

Lemma resolve_array b id t k d id' fuel nelems :
  btf_ok b -> loop_ok b fuel -> btf__type_by_id b id = Some (Some t) -> btf_kind t = Some k ->
  kind_of k = KIND_ARRAY -> t_word t 8 = Some d -> t_word t 0 = Some id' -> 0 <= d -> 0 <= id' ->
  0 <= nelems <= UINT32_MAX ->
  exists r b',
    (n ← t_word t 8;
     if negb (nelems =? 0) && (n >? UINT32_MAX / nelems) then Some (- E2BIG, b) else
     type_id ← t_word t 0; t ← btf__type_by_id b type_id;
     resolve_loop fuel b t (u32 (nelems * n))) = Some (r, b') /\ btf_ok b' /\
    size_answer b id (S fuel) nelems r.
Proof.
  intros Hok IH E Hk Ek Hd Hid' ? ? ?. rewrite Hd. cbn [mbind option_bind].
  destruct (negb (nelems =? 0) && (d >? UINT32_MAX / nelems)) eqn:Hov.
  { do 2 eexists. split_and!; [done|done|]. zbool. eapply size_answer_overflow; try done; lia. }
  assert (0 <= nelems * d <= UINT32_MAX) as Hnd.
  { destruct (Z.eqb_spec nelems 0) as [->|]; [lia|]. cbn [negb andb] in Hov.
    pose proof (Z.mul_div_le UINT32_MAX nelems). nia. }
  rewrite Hid', (wrap_small 32) by (pow2; lia). cbn [mbind option_bind].
  destruct (type_ptr_some b id' Hok) as [t' Ht']; [lia|]. rewrite Ht'. cbn [mbind option_bind].
  destruct (IH id' t' (nelems * d)) as (r' & b' & -> & Hb' & Ha); [lia|lia|done|].
  exists r', b'. split_and!; [done|done|]. eapply size_answer_array; (done || lia).
Qed.

Lemma resolve_loop_spec b : btf_ok b -> forall fuel, loop_ok b fuel.
Proof.
  intros Hok. induction fuel as [|fuel IH]; intros id t nelems Hid Hn Ht.
  { do 2 eexists. split_and!; [done|done|]. apply size_answer_none.
    intros n dims sz Hle Hc. inversion Hc; subst; lia. }
  cbn [resolve_loop].
  assert (Hstop : (forall n dims sz, ~ size_chain b n id dims sz) -> exists r b',
    Some (resolve_done (-1) nelems, b) = Some (r, b') /\ btf_ok b' /\ size_answer b id (S fuel) nelems r).
  { intros Hc. do 2 eexists. split_and!; [done|done|]. apply size_answer_none. intros; apply Hc. }
  destruct (type_ptr_cases b id Hok Hid) as [E|[[-> E]|(Hr & m & off & r & E & Hp)]];
    rewrite E in Ht; injection Ht as <-.
  { apply Hstop. intros n dims sz Hc. destruct (chain_typed _ _ _ _ _ Hc) as (? & ? & E' & _). congruence. }
  { apply Hstop. intros n dims sz Hc. destruct (chain_typed _ _ _ _ _ Hc) as (t & k & E' & Hk & Hu & _).
    rewrite E in E'. injection E' as <-. by injection Hk as <-. }
  destruct (type_fields _ _ _ Hp) as (name & info & size & _ & Hi & Hsz & _ & Hsr & _).
  pose proof (type_kind_range m off r info Hp Hi) as Harr.
  assert (Hw : forall j, 0 <= j -> j + 4 <= 12 -> length r = 24%nat ->
    exists v, t_word (TAt m off) j = Some v /\ 0 <= v < 2 ^ 32).
  { intros j H0 H1 Hl. destruct (points_to_field m off r (12 + j) Hp) as (v & Hv & _ & Hvr); [lia..|].
    exists v. unfold t_word. by rewrite <- Z.add_assoc. }
  set (k := BTF_INFO_KIND info) in *.
  assert (Hk : btf_kind (TAt m off) = Some k) by (unfold btf_kind; by rewrite Hi).
  clear Hp Hi. set (t := TAt m off) in *.
  assert (btf_type_is_void_or_null (Some t) = Some (bool_decide (kind_of k = KIND_FWD))) as ->
    by (unfold btf_type_is_void_or_null, btf_type_is_void, t; fold t; by rewrite Hk).
  cbn [mbind option_bind]. pose proof (no_chain b id t k E Hk) as Hnc.
  destruct (bool_decide_reflect (kind_of k = KIND_FWD)) as [Hf|Hf].
  { apply Hstop. by apply Hnc; rewrite Hf. }
  rewrite Hk. cbn [mbind option_bind].
  pose proof (resolve_sized b id t k size fuel nelems Hok E Hk Hsz ltac:(lia) ltac:(lia)) as Hsized.
  pose proof (resolve_ref b id t k size fuel nelems Hok IH E Hk Hsz ltac:(lia) ltac:(lia)) as Href.
  destruct (kind_of k) eqn:Ek; try (by apply Hsized); try (by apply Href); try done;
    try (do 2 eexists; split_and!; [done|done|]; apply size_answer_none; intros n dims sz _; by apply Hnc).
  - destruct (btf_ptr_sz_spec b Hok) as (sz & b' & Hp & Hsz4 & Hb' & _). rewrite Hp. cbn [mbind option_bind].
    do 2 eexists. split_and!; [done|done|].
    apply size_answer_done; [lia|lia|by eapply chain_ptr|]. intros n dims sz' Hc.
    destruct (chain_inv _ _ _ _ _ _ _ Hc E Hk)
      as [(_ & _ & Hz & _)|[(_ & -> & _ & ? & E')|[(? & ? & _ & Hz & _)|(? & ? & ? & ? & _ & _ & Hz & _)]]];
      [by rewrite Ek in Hz|by split; [|congruence]|by rewrite Ek in Hz|congruence].
  - destruct (Hw 8) as (d & Hd & Hdr); [lia|lia|by apply Harr|].
    destruct (Hw 0) as (id' & Hid' & Hidr); [lia|lia|by apply Harr|].
    apply (resolve_array b id t k d id'); (done || lia).
Qed.

(** C32: sizes are exact.  [btf__resolve_size] ends for every id of a loaded
    object, cyclic references included.  An answer that is not an error is
    the size of the type the references and array elements lead to, within
    32 steps, times all the array dimensions on the way, without
    wrap-around.  Where they lead to such a type the answer is that product,
    or E2BIG, and it is E2BIG exactly when the product needs more than 32
    bits or already the product of some of the outermost dimensions does,
    even if a dimension or the size further in is zero. *)
Theorem btf_resolve_size_exact b id :
  btf_ok b -> 0 <= id < 2 ^ 32 ->
  exists r b', btf__resolve_size b id = Some (r, b') /\ btf_ok b' /\
    (0 <= r -> exists n dims sz, (n <= 32)%nat /\ size_chain b n id dims sz /\
       r = prod dims * sz /\ r <= UINT32_MAX) /\
    (forall n dims sz, (n <= 32)%nat -> size_chain b n id dims sz ->
       ((exists k, UINT32_MAX < prod (take k dims)) \/ UINT32_MAX < prod dims * sz) /\ r = - E2BIG \/
       ((forall k, prod (take k dims) <= UINT32_MAX) /\ prod dims * sz <= UINT32_MAX) /\
         r = prod dims * sz).
Proof.
  intros Hok Hid. destruct (type_ptr_some b id Hok) as [t Ht]; [lia|].
  destruct (resolve_loop_spec b Hok MAX_RESOLVE_DEPTH id t 1) as (r & b' & Hr & Hb' & H1 & H2); [lia|lia|done|].
  exists r, b'. unfold btf__resolve_size. rewrite Ht. cbn [mbind option_bind].
  split_and!; [done|done| |].
  - intros Hpos. destruct (H1 Hpos) as (n & dims & sz & ? & ? & E & ?).
    exists n, dims, sz. by rewrite Z.mul_1_l in E.
  - intros n dims sz Hn Hc. destruct (H2 n dims sz Hn Hc) as [[Ho E]|[Ho E]];
      unfold overflows in Ho; rewrite ?Z.mul_1_l in *; [left|right]; (split; [|done]).
    + destruct Ho as [[k Hk]|Ho]; [left; exists k|right]; lia.
    + split; [|lia]. intros k. destruct (Z.leb_spec (prod (take k dims)) UINT32_MAX) as [|Hk]; [done|].
      destruct Ho. left. exists k. by rewrite Z.mul_1_l.
Qed.

(** ** Finding types *)

Definition named (b : btf) (id : Z) (s : list Z) : Prop :=
  exists t off m o, btf__type_by_id b id = Some (Some t) /\ t_name_off t = Some off /\
    btf__name_by_offset b off = Some (Some (m, o)) /\ cstr m o = Some s.

Definition of_kind (b : btf) (id k : Z) : Prop :=
  exists t, btf__type_by_id b id = Some (Some t) /\ btf_kind t = Some k.

(** The types a loop visits. *)
Lemma visited b id :
  btf_ok b -> 0 < id < btf__type_cnt b -> exists t off k,
    btf__type_by_id b id = Some (Some t) /\ t_name_off t = Some off /\ btf_kind t = Some k /\
    0 <= off < 2 ^ 32.
Proof.
  intros Hok Hid. destruct (type_ptr_cases b id Hok) as [E|[[-> _]|(_ & m & off & r & E & Hp)]];
    [lia| |lia|].
  { exfalso. unfold btf__type_by_id in E. fold (btf__type_cnt b) in E.
    destruct (id >=? btf__type_cnt b) eqn:?; [lia|]. by apply bind_Some in E as (? & _ & [=]). }
  destruct (type_fields _ _ _ Hp) as (name & info & size & H1 & H2 & _ & Hn & _).
  exists (TAt m off), name, (BTF_INFO_KIND info). unfold btf_kind. by rewrite H2.
Qed.

Lemma name_is_spec b id t off s :
  btf_ok b -> btf__type_by_id b id = Some (Some t) -> t_name_off t = Some off -> 0 <= off < 2 ^ 32 ->
  exists r, name_is b off s = Some r /\ (r = true <-> named b id s).
Proof.
  intros Hok Ht Hoff Hr. destruct (str_by_offset_spec b Hok off Hr) as (p & Hp & Hc).
  unfold name_is, btf__name_by_offset. rewrite Hp. cbn [mbind option_bind].
  destruct p as [[m o]|].
  - destruct (Hc m o eq_refl) as [n Hn]. rewrite Hn. cbn [mbind option_bind]. eexists. split; [done|].
    rewrite Z.eqb_eq, strcmp_eq. split; [intros ->; by exists t, off, m, o|].
    intros (t' & off' & m' & o' & E1 & E2 & E3 & E4). unfold btf__name_by_offset in E3. congruence.
  - exists false. split; [done|]. split; [done|]. intros (t' & off' & m' & o' & E1 & E2 & E3 & E4).
    unfold btf__name_by_offset in E3. congruence.
Qed.

(** [r] is the first id in a range that satisfies [P], or ENOENT. *)
Definition first_id (P : Z -> Prop) (lo hi r : Z) : Prop :=
  r = - ENOENT /\ (forall i, lo <= i < hi -> ~ P i) \/
  lo <= r < hi /\ P r /\ forall i, lo <= i < r -> ~ P i.

Lemma first_id_skip P lo hi r : ~ P lo -> first_id P (lo + 1) hi r -> first_id P lo hi r.
Proof.
  intros Hn [[-> H]|(H1 & H2 & H3)]; [left; split; [done|]|right; split_and!; [lia|lia|done|]];
    intros i Hi; (destruct (Z.eq_dec i lo) as [->|]; [done|]); [apply H|apply H3]; lia.
Qed.

Lemma find_name_loop_spec b s : btf_ok b -> forall n i,
  0 < i -> i + Z.of_nat n = btf__type_cnt b -> exists r, find_name_loop b s i n = Some r /\
    first_id (λ j, named b j s) i (btf__type_cnt b) r.
Proof.
  intros Hok. pose proof Hok as H31. rewrite btf_ok_unfold in H31. destruct H31 as (_ & _ & H31 & _).
  destruct (type_cnt_eq b Hok) as [Hcnt _].
  induction n as [|n IH]; intros i Hi Hn; cbn [find_name_loop].
  { eexists. split; [done|]. left. split; [done|]. intros; lia. }
  destruct (visited b i Hok) as (t & off & k & Ht & Hoff & _ & Hr); [lia|]. rewrite Ht. cbn [mbind option_bind].
  rewrite Hoff. cbn [mbind option_bind].
  destruct (name_is_spec b i t off s Hok Ht Hoff Hr) as (r & -> & Hiff). cbn [mbind option_bind].
  destruct r.
  - eexists. split; [done|]. rewrite swrap_small by (try change (2 ^ (32 - 1)) with 2147483648; lia).
    right. split_and!; [lia|lia|by apply Hiff|lia].
  - destruct (IH (i + 1)) as (r & -> & Hf); [lia|lia|]. exists r. split; [done|].
    apply first_id_skip; [|done]. intros Hx%Hiff. done.
Qed.

Lemma find_kind_loop_spec b s k : btf_ok b -> forall n i,
  0 < i -> i + Z.of_nat n = btf__type_cnt b -> exists r, find_kind_loop b s k i n = Some r /\
    first_id (λ j, of_kind b j k /\ named b j s) i (btf__type_cnt b) r.
Proof.
  intros Hok. pose proof Hok as H31. rewrite btf_ok_unfold in H31. destruct H31 as (_ & _ & H31 & _).
  destruct (type_cnt_eq b Hok) as [Hcnt _].
  induction n as [|n IH]; intros i Hi Hn; cbn [find_kind_loop].
  { eexists. split; [done|]. left. split; [done|]. intros; lia. }
  destruct (visited b i Hok) as (t & off & k' & Ht & Hoff & Hk & Hr); [lia|]. rewrite Ht. cbn [mbind option_bind].
  rewrite Hk. cbn [mbind option_bind]. destruct (IH (i + 1)) as (r & Hloop & Hf); [lia|lia|].
  destruct (Z.eqb_spec k' k) as [->|Hne]; cbn [negb].
  2: { exists r. split; [done|]. apply first_id_skip; [|done]. intros [(t' & E1 & E2) _]. congruence. }
  rewrite Hoff. cbn [mbind option_bind].
  destruct (name_is_spec b i t off s Hok Ht Hoff Hr) as (x & -> & Hiff). cbn [mbind option_bind].
  destruct x.
  - eexists. split; [done|]. rewrite swrap_small by (try change (2 ^ (32 - 1)) with 2147483648; lia).
    right. split_and!; [lia|lia|by exists t|by apply Hiff|lia].
  - exists r. split; [done|]. apply first_id_skip; [|done]. intros [_ Hx%Hiff]. done.
Qed.

(** On a loaded object the lookups by name, and by name and kind (in the
    whole chain or in the object alone), end without reading outside the
    images and return the smallest matching id, or ENOENT when no type
    matches. *)
Theorem btf_find_by_name_first b name k :
  btf_ok b -> k <> 0 -> name <> lit "void" ->
  (exists r, btf__find_by_name b name = Some r /\
     first_id (λ j, named b j name) 1 (btf__type_cnt b) r) /\
  (exists r, btf__find_by_name_kind b name k = Some r /\
     first_id (λ j, of_kind b j k /\ named b j name) 1 (btf__type_cnt b) r) /\
  (exists r, btf__find_by_name_kind_own b name k = Some r /\
     first_id (λ j, of_kind b j k /\ named b j name) (start_id b) (btf__type_cnt b) r).
Proof.
  intros Hok Hk Hv. destruct (type_cnt_eq b Hok) as [Hcnt Hnr].
  pose proof Hok as H31. rewrite btf_ok_unfold in H31. destruct H31 as (_ & H1 & H31 & _).
  assert (Hs : (strcmp name (lit "void") =? 0) = false) by (apply Z.eqb_neq; by rewrite strcmp_eq).
  assert (Hk0 : (k =? 0) = false) by (by apply Z.eqb_neq).
  unfold btf__find_by_name, btf__find_by_name_kind, btf__find_by_name_kind_own, btf_find_by_name_kind.
  rewrite Hs, Hk0. cbn [orb]. rewrite !(wrap_small 32) by (pow2; lia).
  split_and!; [apply find_name_loop_spec|apply find_kind_loop_spec|apply find_kind_loop_spec]; (done || lia).
Qed.

(** ** A concrete image *)

Definition ex_hdr (tl so sl : Z) : list Z :=
  [159; 235; 1; 0] ++ le32 24 ++ le32 0 ++ le32 tl ++ le32 so ++ le32 sl.

(** [1] int, [2] int[10], [3] typedef arr of [2], [4] typedef self of itself,
    [5] typedef bad of the missing type 99. *)
Definition ex_types : list Z :=
  concat (map le32 [1; 16777216; 4; 32; 0; 50331648; 0; 1; 1; 10; 5; 134217728; 2;
                    9; 134217728; 4; 14; 134217728; 99]).

Definition ex_strs : list Z := 0 :: concat (map (λ s, lit s ++ [0]) ["int"; "arr"; "self"; "bad"]%string).

Definition ex_image : list Z := ex_hdr 76 76 18 ++ ex_types ++ ex_strs.

Definition always (n : Z) : bool := true.

Definition no_btf : btf :=
  {| raw_data := []; raw_data_swapped := None; raw_size := 0; swapped_endian := false;
     types_data := 0; type_offs := []; type_offs_cap := 0; nr_types := 0; base_btf := None;
     start_id := 1; start_str_off := 0; strs_data := 0; ptr_sz := 0 |}.

Definition loaded (data : list Z) (base : option btf) : btf :=
  match btf_new always data (Z.of_nat (length data)) base with
  | Some (inr b) => b
  | _ => no_btf
  end.

Definition ex_btf : btf := loaded ex_image None.

Lemma ex_btf_ok : btf_ok ex_btf.
Proof.
  destruct (btf_new_spec always ex_image None) as (r & Hr & Hp);
    [by apply bytes_ok_dec; vm_compute|by vm_compute|done|].
  assert (E : btf_new always ex_image (Z.of_nat (length ex_image)) None = Some (inr ex_btf))
    by (by vm_compute).
  rewrite E in Hr. injection Hr as <-. by destruct Hp.
Qed.

Lemma btf_new_sound_witness :
  exists r, btf_new always ex_image 118 None = Some r /\ match r with inl e => False | inr b => btf_ok b end.
Proof.
  destruct (btf_new_sound always ex_image None) as (r & Hr & Hp);
    [by apply bytes_ok_dec; vm_compute|by vm_compute|done|].
  exists r. split; [exact Hr|].
  destruct r as [e|b]; [vm_compute in Hr; discriminate Hr|apply Hp].
Defined.

Lemma btf_endianness_roundtrip_witness :
  exists d b', btf_new always d 118 None = Some (inr b') /\ btf__endianness b' = BTF_BIG_ENDIAN /\
    raw_data b' = ex_image.
Proof.
  destruct (btf_endianness_roundtrip always ex_btf 76 18) as (d & b1 & b' & _ & _ & H1 & H2 & H3 & _).
  - exact ex_btf_ok.
  - exact I.
  - split; by vm_compute.
  - reflexivity.
  - reflexivity.
  - exists d, b'. split; [exact H1|]. split; [exact H2|]. rewrite H3. reflexivity.
Defined.

Lemma btf_resolve_size_exact_witness : exists b', btf__resolve_size ex_btf 3 = Some (40, b').
Proof.
  destruct (btf_resolve_size_exact ex_btf 3) as (r & b' & Hr & _ & _ & H);
    [exact ex_btf_ok|lia|].
  destruct (H 3%nat [10] 4) as [[Ho _]|[_ E]];
    [lia| | |exists b'; rewrite Hr, E; reflexivity]; cycle 1.
  { exfalso. destruct Ho as [[[|[|k]] Hk]|Hk]; vm_compute in Hk; discriminate. }
  eapply chain_ref with (k := 8) (id' := 2); [vm_compute; reflexivity..|].
  eapply chain_array with (k := 3) (id' := 1); [vm_compute; reflexivity..|].
  eapply chain_sized with (k := 1); vm_compute; reflexivity.
Defined.

Lemma btf_find_by_name_first_witness : btf__find_by_name_kind ex_btf (lit "arr") 8 = Some 3.
Proof.
  destruct (btf_find_by_name_first ex_btf (lit "arr") 8) as (_ & (r & Hr & _) & _);
    [exact ex_btf_ok|lia|discriminate|].
  rewrite Hr. vm_compute in Hr. congruence.
Defined.

(** ** What the code does not guard against *)

(** A reference to a missing type is accepted by [btf_new]; computing its
    alignment dereferences NULL. *)
Fact align_of_dangling : forall fuel, btf__align_of fuel ex_btf 5 = None.
Proof. intros [|[|fuel]]; reflexivity. Qed.

(** A cyclic reference is accepted; no recursion depth is enough for its
    alignment, while [btf__resolve_size] stops with EINVAL. *)
Fact align_of_cyclic : forall fuel, btf__align_of fuel ex_btf 4 = None.
Proof.
  induction fuel as [|fuel IH]; [reflexivity|]. change (btf__align_of (S fuel) ex_btf 4)
    with (btf__align_of fuel ex_btf 4). exact IH.
Qed.

Fact resolve_size_cyclic : btf__resolve_size ex_btf 4 = Some (- EINVAL, ex_btf).
Proof. reflexivity. Qed.

(** An image with a gap of four bytes in front of the strings. *)
Definition gap_image : list Z := ex_hdr 76 80 18 ++ ex_types ++ [0; 0; 0; 0] ++ ex_strs.

(** It loads, but what is written for the other byte order keeps the header's
    offsets and drops the gap: the result cannot be loaded. *)
Fact gap_not_preserved :
  btf_ok (loaded gap_image None) /\
  exists d sz b1, btf__raw_data always (btf__set_endianness (loaded gap_image None) BTF_BIG_ENDIAN).2
      = Some (Some (d, sz), b1) /\ btf_new always d sz None = Some (inl (- EINVAL)).
Proof.
  split.
  - destruct (btf_new_spec always gap_image None) as (r & Hr & Hp);
      [by apply bytes_ok_dec; vm_compute|by vm_compute|done|].
    assert (E : btf_new always gap_image (Z.of_nat (length gap_image)) None
      = Some (inr (loaded gap_image None))) by (by vm_compute).
    rewrite E in Hr. injection Hr as <-. by destruct Hp.
  - do 3 eexists. split; [vm_compute; reflexivity|vm_compute; reflexivity].
Qed.

(** A split BTF on a split BTF starts its string offsets at the size of its
    base's own section, 4, instead of the 22 bytes of the whole chain: the
    name at offset 18, a string of the base, cannot be read through it. *)
Definition split_image (s : string) : list Z :=
  ex_hdr 0 0 (Z.of_nat (String.length s) + 1) ++ lit s ++ [0].
Definition mid_btf : btf := loaded (split_image "mid") (Some ex_btf).
Definition top_btf : btf := loaded (split_image "top") (Some mid_btf).

Fact split_of_split_strings :
  start_str_off mid_btf = 18 /\ start_str_off top_btf = 4 /\
  (exists m o, btf__str_by_offset top_btf 18 = Some None /\
     btf__str_by_offset mid_btf 18 = Some (Some (m, o)) /\ cstr m o = Some (lit "mid")).
Proof.
  split_and!; [vm_compute; reflexivity..|]. do 2 eexists. split_and!; vm_compute; reflexivity.
Qed.
