(* ===== verification/BtfBuild.v ===== *)
(** * Building BTF (src/plugin/libbpf-test/libbpf/src/btf.c, [btf__add_*])

    The first change splits the contiguous image of a BTF object into a
    header, a growing type section and a string set ([btf_ensure_modifiable]);
    types are then appended one by one, members to the last type, and
    [btf__raw_data] puts the three parts together again.

    The object is in native byte order; what dedup keeps besides
    ([strs_deduped]) and the cached image of the other byte order are left
    out.  Allocation is the parameter [alloc_ok].  An outer [None] is
    undefined behaviour. *)

From S2P Require Import Prelude Hashmap StrSet Btf.

(** ** The object *)

(** The two representations: one image, in which the types and the strings
    start at the given offsets, or the three parts. *)
Inductive rep :=
  | RContig (raw : list Z) (types strs : Z)
  | RSplit (hdr types : list Z) (types_cap : Z) (set : strset).

Inductive bobj := Bobj {
  b_rep : rep;
  b_raw : option (list Z);     (** the cached image of the split object *)
  b_offs : list Z;
  b_offs_cap : Z;
  b_nr : Z;
  b_base : option bobj;
  b_start_id : Z;
  b_start_str_off : Z;
}.

Definition with_rep (b : bobj) (r : rep) : bobj :=
  {| b_rep := r; b_raw := None; b_offs := b_offs b; b_offs_cap := b_offs_cap b; b_nr := b_nr b;
     b_base := b_base b; b_start_id := b_start_id b; b_start_str_off := b_start_str_off b |}.

Definition with_base (b : bobj) (bb : bobj) : bobj :=
  {| b_rep := b_rep b; b_raw := b_raw b; b_offs := b_offs b; b_offs_cap := b_offs_cap b;
     b_nr := b_nr b; b_base := Some bb; b_start_id := b_start_id b;
     b_start_str_off := b_start_str_off b |}.

Definition with_index (b : bobj) (offs : list Z) (cap nr : Z) : bobj :=
  {| b_rep := b_rep b; b_raw := b_raw b; b_offs := offs; b_offs_cap := cap; b_nr := nr;
     b_base := b_base b; b_start_id := b_start_id b; b_start_str_off := b_start_str_off b |}.

(** What [btf_new] and [btf_new_empty] return. *)
Definition of_btf (b : btf) (base : option bobj) : bobj :=
  {| b_rep := RContig (raw_data b) (types_data b) (Btf.strs_data b); b_raw := None;
     b_offs := type_offs b; b_offs_cap := type_offs_cap b; b_nr := nr_types b; b_base := base;
     b_start_id := start_id b; b_start_str_off := start_str_off b |}.

(** The memory of the type section and the offset it starts at. *)
Definition types_at (b : bobj) : list Z * Z :=
  match b_rep b with
  | RContig raw types _ => (raw, types)
  | RSplit _ types _ _ => (types, 0)
  end.

Definition b_type_cnt (b : bobj) : Z := u32 (b_start_id b + b_nr b).

(** [btf_type_by_id] for a type of the object itself. *)
Definition own_type (b : bobj) (id : Z) : option (list Z * Z) :=
  o ← ld32 (b_offs b) (4 * u32 (id - b_start_id b));
  Some ((types_at b).1, (types_at b).2 + o).

Definition btf_last_type (b : bobj) : option (list Z * Z) := own_type b (b_type_cnt b - 1).

Definition type_info_at (mo : list Z * Z) : option Z := ld32 mo.1 (mo.2 + 4).

Definition BTF_INFO_KFLAG (info : Z) : Z := Z.shiftr info 31.

Definition btf_type_info (k vlen kflag : Z) : Z :=
  u32 (Z.lor (Z.lor (Z.shiftl kflag 31) (Z.shiftl k 24)) vlen).

(** ** Changing the object *)

Section Build.
Context (alloc_ok : Z -> bool).

Definition btf_ensure_modifiable (b : bobj) : option (Z * bobj) :=
  match b_rep b with
  | RSplit _ _ _ _ => Some (0, with_rep b (b_rep b))
  | RContig raw types strs =>
      hl ← hdr_len raw; tl ← hdr_type_len raw;
      if negb (alloc_ok hl && alloc_ok tl) then Some (- ENOMEM, b) else
      h ← ld_bytes raw 0 (Z.to_nat hl);
      ty ← ld_bytes raw types (Z.to_nat tl);
      sl ← hdr_str_len raw;
      init ← ld_bytes raw strs (Z.to_nat sl);
      r ← strset__new alloc_ok BTF_MAX_STR_OFFSET init;
      match r with
      | inl err => Some (err, b)
      | inr set => cap ← hdr_type_len h; Some (0, with_rep b (RSplit h ty cap set))
      end
  end.

(** The part of [btf__find_str] behind the base. *)
Definition own_find_str (b : bobj) (s : list Z) : option (Z * bobj) :=
  '(err, b) ← btf_ensure_modifiable b;
  if negb (err =? 0) then Some (- ENOMEM, b) else
  match b_rep b with
  | RContig _ _ _ => None
  | RSplit h ty cap set =>
      '(off, set) ← strset__find_str alloc_ok set s;
      let b := with_rep b (RSplit h ty cap set) in
      if off <? 0 then Some (off, b) else Some (s32 (b_start_str_off b + off), b)
  end.

Fixpoint btf__find_str (b : bobj) (s : list Z) {struct b} : option (Z * bobj) :=
  match b_base b with
  | None => own_find_str b s
  | Some bb =>
      '(off, bb) ← btf__find_str bb s;
      let b := with_base b bb in
      if negb (off =? - ENOENT) then Some (off, b) else own_find_str b s
  end.

Definition own_add_str (b : bobj) (s : list Z) : option (Z * bobj) :=
  '(err, b) ← btf_ensure_modifiable b;
  if negb (err =? 0) then Some (- ENOMEM, b) else
  match b_rep b with
  | RContig _ _ _ => None
  | RSplit h ty cap set =>
      '(off, set) ← strset__add_str alloc_ok set s;
      if off <? 0 then Some (off, with_rep b (RSplit h ty cap set)) else
      h ← st32 h 20 (strs_data_len set);
      Some (s32 (b_start_str_off b + off), with_rep b (RSplit h ty cap set))
  end.

Definition btf__add_str (b : bobj) (s : list Z) : option (Z * bobj) :=
  match b_base b with
  | None => own_add_str b s
  | Some bb =>
      '(off, bb) ← btf__find_str bb s;
      let b := with_base b bb in
      if negb (off =? - ENOENT) then Some (off, b) else own_add_str b s
  end.

(** [btf_add_type_mem]: the inner [None] is NULL, otherwise the offset of the
    new memory in the type section. *)
Definition btf_add_type_mem (b : bobj) (add_sz : Z) : option (option (Z * bobj)) :=
  match b_rep b with
  | RContig _ _ _ => None
  | RSplit h ty cap set =>
      tl ← hdr_type_len h;
      Some match libbpf_add_mem alloc_ok ty cap 1 tl UINT32_MAX add_sz with
           | None => None
           | Some (p, ty, cap) => Some (p, with_rep b (RSplit h ty cap set))
           end
  end.

(** Consecutive 32-bit fields. *)
Fixpoint st_words (m : list Z) (p : Z) (ws : list Z) : option (list Z) :=
  match ws with
  | [] => Some m
  | w :: ws => m ← st32 m p w; st_words m (p + 4) ws
  end.

Definition write_types (b : bobj) (p : Z) (ws : list Z) : option bobj :=
  match b_rep b with
  | RContig _ _ _ => None
  | RSplit h ty cap set => ty ← st_words ty p ws; Some (with_rep b (RSplit h ty cap set))
  end.

(** [hdr->type_len += sz; hdr->str_off += sz] *)
Definition grow_hdr (b : bobj) (sz : Z) : option bobj :=
  match b_rep b with
  | RContig _ _ _ => None
  | RSplit h ty cap set =>
      tl ← hdr_type_len h; h ← st32 h 12 (u32 (tl + sz));
      so ← hdr_str_off h; h ← st32 h 16 (u32 (so + sz));
      Some (with_rep b (RSplit h ty cap set))
  end.

Definition btf_commit_type (b : bobj) (data_sz : Z) : option (Z * bobj) :=
  match b_rep b with
  | RContig _ _ _ => None
  | RSplit h _ _ _ =>
      tl ← hdr_type_len h;
      '(err, offs, cap) ← btf_add_type_idx_entry alloc_ok (b_offs b) (b_offs_cap b) (b_nr b) tl;
      if negb (err =? 0) then Some (err, with_index b offs cap (b_nr b)) else
      b ← grow_hdr (with_index b offs cap (b_nr b)) data_sz;
      let b := with_index b (b_offs b) (b_offs_cap b) (u32 (b_nr b + 1)) in
      Some (s32 (u32 (b_start_id b + b_nr b - 1)), b)
  end.

Definition name_empty (name : option (list Z)) : bool :=
  match name with None | Some [] => true | Some (_ :: _) => false end.

(** [if (name && name[0]) name_off = btf__add_str(btf, name)] *)
Definition name_to_off (b : bobj) (name : option (list Z)) : option (Z * bobj) :=
  match name with
  | None | Some [] => Some (0, b)
  | Some s => btf__add_str b s
  end.

(** The body the functions that append a type share: memory for [sz] bytes,
    the name, the fields, the index entry. *)
Definition add_type_words (b : bobj) (sz : Z) (name : option (list Z)) (info word : Z)
    (rest : list Z) : option (Z * bobj) :=
  '(err, b) ← btf_ensure_modifiable b;
  if negb (err =? 0) then Some (- ENOMEM, b) else
  r ← btf_add_type_mem b sz;
  match r with
  | None => Some (- ENOMEM, b)
  | Some (t, b) =>
      '(name_off, b) ← name_to_off b name;
      if name_off <? 0 then Some (name_off, b) else
      b ← write_types b t (name_off :: info :: word :: rest);
      btf_commit_type b sz
  end.

(** The body the functions that append a member to the last type share; a
    member starts with its name unless [name] is [None]. *)
Definition add_member_words (b : bobj) (sz : Z) (name : option (option (list Z)))
    (words : list Z) (new_info : Z -> Z) : option (Z * bobj) :=
  '(err, b) ← btf_ensure_modifiable b;
  if negb (err =? 0) then Some (- ENOMEM, b) else
  r ← btf_add_type_mem b sz;
  match r with
  | None => Some (- ENOMEM, b)
  | Some (m, b) =>
      '(name_off, b) ← match name with None => Some (0, b) | Some n => name_to_off b n end;
      if name_off <? 0 then Some (name_off, b) else
      b ← write_types b m (match name with None => words | Some _ => name_off :: words end);
      t ← btf_last_type b;
      info ← type_info_at t;
      b ← write_types b (t.2 + 4) [new_info info];
      b ← grow_hdr b sz;
      Some (0, b)
  end.

(** [btf_type_inc_vlen] *)
Definition btf_type_inc_vlen (info : Z) : Z :=
  btf_type_info (BTF_INFO_KIND info) (BTF_INFO_VLEN info + 1) (BTF_INFO_KFLAG info).

(** The guard of the functions that append a member; [Some true]: fine. *)
Definition last_type_is (b : bobj) (ks : list kind) : option bool :=
  if b_nr b =? 0 then Some false else
  t ← btf_last_type b; info ← type_info_at t;
  Some (bool_decide (kind_of (BTF_INFO_KIND info) ∈ ks)).

Definition validate_type_id (id : Z) : bool := (id <? 0) || (id >? BTF_MAX_NR_TYPES).

(** ** The interface *)

Definition btf__add_int (b : bobj) (name : option (list Z)) (byte_sz encoding : Z) :=
  if name_empty name then Some (- EINVAL, b) else
  if (byte_sz =? 0) || negb (Z.land byte_sz (byte_sz - 1) =? 0) || (byte_sz >? 16)
  then Some (- EINVAL, b) else
  if negb (Z.land encoding (Z.lnot 7) =? 0) then Some (- EINVAL, b) else
  add_type_words b 16 name (btf_type_info 1 0 0) byte_sz
    [u32 (Z.lor (Z.shiftl encoding 24) (byte_sz * 8))].

Definition btf__add_float (b : bobj) (name : option (list Z)) (byte_sz : Z) :=
  if name_empty name then Some (- EINVAL, b) else
  if negb (byte_sz =? 2) && negb (byte_sz =? 4) && negb (byte_sz =? 8) && negb (byte_sz =? 12) &&
     negb (byte_sz =? 16) then Some (- EINVAL, b) else
  add_type_words b 12 name (btf_type_info 16 0 0) byte_sz [].

Definition btf_add_ref_kind (b : bobj) (k : Z) (name : option (list Z)) (ref_type_id : Z) :=
  if validate_type_id ref_type_id then Some (- EINVAL, b) else
  add_type_words b 12 name (btf_type_info k 0 0) ref_type_id [].

Definition btf__add_ptr (b : bobj) (ref_type_id : Z) := btf_add_ref_kind b 2 None ref_type_id.

Definition btf__add_array (b : bobj) (index_type_id elem_type_id nr_elems : Z) :=
  if validate_type_id index_type_id || validate_type_id elem_type_id then Some (- EINVAL, b) else
  add_type_words b 24 None (btf_type_info 3 0 0) 0 [elem_type_id; index_type_id; nr_elems].

Definition btf_add_composite (b : bobj) (k : Z) (name : option (list Z)) (bytes_sz : Z) :=
  add_type_words b 12 name (btf_type_info k 0 0) bytes_sz [].

Definition btf__add_struct (b : bobj) (name : option (list Z)) (byte_sz : Z) :=
  btf_add_composite b 4 name byte_sz.

Definition btf__add_union (b : bobj) (name : option (list Z)) (byte_sz : Z) :=
  btf_add_composite b 5 name byte_sz.

Definition btf__add_field (b : bobj) (name : option (list Z)) (type_id bit_offset bit_size : Z) :=
  composite ← last_type_is b [KIND_STRUCT; KIND_UNION];
  if negb composite then Some (- EINVAL, b) else
  if validate_type_id type_id then Some (- EINVAL, b) else
  let is_bitfield := negb (bit_size =? 0) || negb (bit_offset mod 8 =? 0) in
  if is_bitfield && ((bit_size =? 0) || (bit_size >? 255) || (bit_offset >? 16777215))
  then Some (- EINVAL, b) else
  union ← last_type_is b [KIND_UNION];
  if (union : bool) && negb (bit_offset =? 0) then Some (- EINVAL, b) else
  add_member_words b 12 (Some name) [type_id; u32 (Z.lor bit_offset (Z.shiftl bit_size 24))]
    (λ info, btf_type_info (BTF_INFO_KIND info) (BTF_INFO_VLEN info + 1)
               (bool_to_Z (is_bitfield || negb (BTF_INFO_KFLAG info =? 0)))).

Definition btf_add_enum_common (b : bobj) (name : option (list Z)) (byte_sz : Z) (is_signed : bool)
    (k : Z) :=
  if (byte_sz =? 0) || negb (Z.land byte_sz (byte_sz - 1) =? 0) || (byte_sz >? 8)
  then Some (- EINVAL, b) else
  add_type_words b 12 name (btf_type_info k 0 (bool_to_Z is_signed)) byte_sz [].

Definition btf__add_enum (b : bobj) (name : option (list Z)) (byte_sz : Z) :=
  btf_add_enum_common b name byte_sz false 6.

Definition btf__add_enum_value (b : bobj) (name : option (list Z)) (value : Z) :=
  enum ← last_type_is b [KIND_ENUM];
  if negb enum then Some (- EINVAL, b) else
  if name_empty name then Some (- EINVAL, b) else
  if (value <? - 2147483648) || (value >? UINT32_MAX) then Some (- E2BIG, b) else
  add_member_words b 8 (Some name) [u32 value]
    (λ info, let info := btf_type_inc_vlen info in
             if value <? 0 then btf_type_info (BTF_INFO_KIND info) (BTF_INFO_VLEN info) 1 else info).

Definition btf__add_enum64 (b : bobj) (name : option (list Z)) (byte_sz : Z) (is_signed : bool) :=
  btf_add_enum_common b name byte_sz is_signed 19.

Definition btf__add_enum64_value (b : bobj) (name : option (list Z)) (value : Z) :=
  enum ← last_type_is b [KIND_ENUM64];
  if negb enum then Some (- EINVAL, b) else
  if name_empty name then Some (- EINVAL, b) else
  add_member_words b 12 (Some name) [u32 value; u32 (Z.shiftr value 32)] btf_type_inc_vlen.

(** [btf_type_by_id(btf, id)->info = info] for the type just added. *)
Definition set_info (b : bobj) (id info : Z) : option bobj :=
  t ← own_type b id; write_types b (t.2 + 4) [info].

(** [enum btf_fwd_kind]; the function of the same name is [Dedup.btf_fwd_kind]. *)
Inductive enum_btf_fwd_kind := BTF_FWD_STRUCT | BTF_FWD_UNION | BTF_FWD_ENUM | BTF_FWD_OTHER.

Definition btf__add_fwd (b : bobj) (name : option (list Z)) (fwd_kind : enum_btf_fwd_kind) :=
  if name_empty name then Some (- EINVAL, b) else
  let fwd (kflag : Z) :=
    '(id, b) ← btf_add_ref_kind b 7 name 0;
    if id <=? 0 then Some (id, b) else
    b ← set_info b id (btf_type_info 7 0 kflag); Some (id, b) in
  match fwd_kind with
  | BTF_FWD_STRUCT => fwd 0
  | BTF_FWD_UNION => fwd 1
  | BTF_FWD_ENUM => btf__add_enum b name 4
  | BTF_FWD_OTHER => Some (- EINVAL, b)
  end.

Definition btf__add_typedef (b : bobj) (name : option (list Z)) (ref_type_id : Z) :=
  if name_empty name then Some (- EINVAL, b) else btf_add_ref_kind b 8 name ref_type_id.

Definition btf__add_volatile (b : bobj) (ref_type_id : Z) := btf_add_ref_kind b 9 None ref_type_id.

Definition btf__add_const (b : bobj) (ref_type_id : Z) := btf_add_ref_kind b 10 None ref_type_id.

Definition btf__add_restrict (b : bobj) (ref_type_id : Z) := btf_add_ref_kind b 11 None ref_type_id.

Definition btf__add_type_tag (b : bobj) (value : option (list Z)) (ref_type_id : Z) :=
  if name_empty value then Some (- EINVAL, b) else btf_add_ref_kind b 18 value ref_type_id.

Definition btf__add_func (b : bobj) (name : option (list Z)) (linkage proto_type_id : Z) :=
  if name_empty name then Some (- EINVAL, b) else
  if negb (linkage =? 0) && negb (linkage =? 1) && negb (linkage =? 2) then Some (- EINVAL, b) else
  '(id, b) ← btf_add_ref_kind b 12 name proto_type_id;
  if id >? 0 then b ← set_info b id (btf_type_info 12 linkage 0); Some (id, b)
  else Some (id, b).

Definition btf__add_func_proto (b : bobj) (ret_type_id : Z) :=
  if validate_type_id ret_type_id then Some (- EINVAL, b) else
  add_type_words b 12 None (btf_type_info 13 0 0) ret_type_id [].

Definition btf__add_func_param (b : bobj) (name : option (list Z)) (type_id : Z) :=
  if validate_type_id type_id then Some (- EINVAL, b) else
  proto ← last_type_is b [KIND_FUNC_PROTO];
  if negb proto then Some (- EINVAL, b) else
  add_member_words b 8 (Some name) [type_id] btf_type_inc_vlen.

Definition btf__add_var (b : bobj) (name : option (list Z)) (linkage type_id : Z) :=
  if name_empty name then Some (- EINVAL, b) else
  if negb (linkage =? 0) && negb (linkage =? 1) && negb (linkage =? 2) then Some (- EINVAL, b) else
  if validate_type_id type_id then Some (- EINVAL, b) else
  add_type_words b 16 name (btf_type_info 14 0 0) type_id [linkage].

Definition btf__add_datasec (b : bobj) (name : option (list Z)) (byte_sz : Z) :=
  if name_empty name then Some (- EINVAL, b) else
  add_type_words b 12 name (btf_type_info 15 0 0) byte_sz [].

Definition btf__add_datasec_var_info (b : bobj) (var_type_id offset byte_sz : Z) :=
  datasec ← last_type_is b [KIND_DATASEC];
  if negb datasec then Some (- EINVAL, b) else
  if validate_type_id var_type_id then Some (- EINVAL, b) else
  add_member_words b 12 None [var_type_id; offset; byte_sz] btf_type_inc_vlen.

Definition btf__add_decl_tag (b : bobj) (value : option (list Z)) (ref_type_id component_idx : Z) :=
  if name_empty value || (component_idx <? -1) then Some (- EINVAL, b) else
  if validate_type_id ref_type_id then Some (- EINVAL, b) else
  add_type_words b 16 value (btf_type_info 17 0 0) ref_type_id [u32 component_idx].

(** ** Writing out *)

(** [btf__raw_data] in native order: the cached image, or the three parts
    joined; the inner [None] is NULL. *)
Definition build_raw_data (b : bobj) : option (option (list Z * Z) * bobj) :=
  match b_rep b, b_raw b with
  | RContig raw _ _, _ => Some (Some (raw, Z.of_nat (length raw)), b)
  | RSplit _ _ _ _, Some data => Some (Some (data, Z.of_nat (length data)), b)
  | RSplit h ty cap set, None =>
      hl ← hdr_len h; tl ← hdr_type_len h; sl ← hdr_str_len h;
      let data_sz := u32 (hl + tl + sl) in
      if negb (alloc_ok data_sz) then Some (None, b) else
      bs ← ld_bytes h 0 (Z.to_nat hl);
      data ← st_bytes (replicate (Z.to_nat data_sz) 0) 0 bs;
      bs ← ld_bytes ty 0 (Z.to_nat tl);
      data ← st_bytes data hl bs;
      bs ← ld_bytes (StrSet.strs_data set) 0 (Z.to_nat sl);
      data ← st_bytes data (hl + tl) bs;
      Some (Some (data, data_sz),
            {| b_rep := b_rep b; b_raw := Some data; b_offs := b_offs b;
               b_offs_cap := b_offs_cap b; b_nr := b_nr b; b_base := b_base b;
               b_start_id := b_start_id b; b_start_str_off := b_start_str_off b |})
  end.
End Build.

(** ** Words *)

(** The bytes of consecutive 32-bit words. *)
Definition bytes_of (ws : list Z) : list Z := flat_map le32 ws.

Definition word_ok (w : Z) : Prop := 0 <= w < 2 ^ 32.

Lemma le32_bytes_ok v : bytes_ok (le32 v).
Proof. unfold le32. repeat (constructor; [width_lia|]). constructor. Qed.

Lemma bytes_of_length ws : length (bytes_of ws) = (4 * length ws)%nat.
Proof. induction ws as [|w ws IH]; simpl; [done|]. fold (bytes_of ws). rewrite IH. lia. Qed.

Lemma bytes_of_app ws ws' : bytes_of (ws ++ ws') = bytes_of ws ++ bytes_of ws'.
Proof. apply flat_map_app. Qed.

Lemma bytes_of_ok ws : bytes_ok (bytes_of ws).
Proof.
  induction ws as [|w ws IH]; [constructor|]. apply Forall_app. split; [apply le32_bytes_ok|done].
Qed.

Lemma st32_at pre w post off v :
  off = Z.of_nat (length pre) -> length w = 4%nat ->
  st32 (pre ++ w ++ post) off v = Some (pre ++ le32 v ++ post).
Proof.
  intros -> Hw. rewrite st32_bytes, <- st_bytes_u8. cbn [map].
  replace (v / 65536 / 256) with (v / 16777216) by (Z.to_euclidean_division_equations; lia).
  apply (st_bytes_app (le32 v)); [done|apply le32_bytes_ok].
Qed.

Lemma ld32_at pre post off v :
  off = Z.of_nat (length pre) -> word_ok v -> ld32 (pre ++ le32 v ++ post) off = Some v.
Proof.
  intros -> Hv. rewrite <- (Z.add_0_r (Z.of_nat _)), ld32_window by (simpl; lia).
  unfold ld32, ld16, ld8, le32. simpl. f_equal. unfold word_ok in Hv. width_lia.
Qed.

Lemma st_words_at ws : forall pre mid post off,
  off = Z.of_nat (length pre) -> length mid = (4 * length ws)%nat ->
  st_words (pre ++ mid ++ post) off ws = Some (pre ++ bytes_of ws ++ post).
Proof.
  induction ws as [|w ws IH]; intros pre mid post off Hoff Hl; [by destruct mid|].
  destruct mid as [|b0 [|b1 [|b2 [|b3 mid]]]]; simpl in Hl; try lia. cbn [st_words].
  change ((b0 :: b1 :: b2 :: b3 :: mid) ++ post) with ([b0; b1; b2; b3] ++ mid ++ post).
  rewrite st32_at by done. cbn [mbind option_bind]. rewrite (app_assoc pre (le32 w)).
  rewrite IH; [|rewrite length_app; simpl; lia|lia].
  cbn [bytes_of flat_map]. by rewrite <- !app_assoc.
Qed.

(** Reading and writing one of the words. *)
Lemma words_split {A} (ws : list A) i w : ws !! i = Some w -> ws = take i ws ++ w :: drop (S i) ws.
Proof. intros. symmetry. by apply take_drop_middle. Qed.

Lemma ld32_word pre ws post i w off :
  ws !! i = Some w -> word_ok w -> off = Z.of_nat (length pre) + 4 * Z.of_nat i ->
  ld32 (pre ++ bytes_of ws ++ post) off = Some w.
Proof.
  intros Hi Hw ->. pose proof (lookup_lt_Some _ _ _ Hi) as Hlt. rewrite (words_split _ _ _ Hi), bytes_of_app. cbn [bytes_of flat_map].
  rewrite <- !app_assoc, (app_assoc pre). apply ld32_at; [|done].
  rewrite length_app. fold (bytes_of (take i ws)). rewrite bytes_of_length, length_take. lia.
Qed.

Lemma ld32_word0 ws i w off :
  ws !! i = Some w -> word_ok w -> off = 4 * Z.of_nat i -> ld32 (bytes_of ws) off = Some w.
Proof.
  intros Hi Hw Ho. pose proof (ld32_word [] ws [] i w off Hi Hw Ho) as H.
  by rewrite app_nil_l, app_nil_r in H.
Qed.

Lemma st32_word pre ws post i off v :
  (i < length ws)%nat -> off = Z.of_nat (length pre) + 4 * Z.of_nat i ->
  st32 (pre ++ bytes_of ws ++ post) off v = Some (pre ++ bytes_of (<[i := v]> ws) ++ post).
Proof.
  intros Hi ->. destruct (lookup_lt_is_Some_2 ws i Hi) as [w Hw].
  rewrite (insert_take_drop ws i v Hi). rewrite (words_split _ _ _ Hw) at 1. rewrite !bytes_of_app.
  cbn [bytes_of flat_map]. rewrite <- !app_assoc, !(app_assoc pre). apply st32_at; [|done].
  rewrite length_app. fold (bytes_of (take i ws)). rewrite bytes_of_length, length_take. lia.
Qed.

(** ** The info word *)

Lemma lor_shiftl_add a b n : 0 <= n -> 0 <= b < 2 ^ n -> Z.lor (Z.shiftl a n) b = a * 2 ^ n + b.
Proof.
  intros Hn Hb. rewrite <- Z.lxor_lor, <- Z.add_nocarry_lxor; [by rewrite Z.shiftl_mul_pow2| |];
    (apply Z.bits_inj'; intros m Hm; rewrite Z.land_spec, Z.bits_0;
     destruct (Z.ltb_spec m n);
       [by rewrite Z.shiftl_spec_low by done
       |rewrite <- (Z.mod_small b (2 ^ n)) by done; rewrite Z.mod_pow2_bits_high by lia;
        by rewrite andb_false_r]).
Qed.

(** The ranges of the three parts. *)
Definition info_ok (k v f : Z) : Prop := 0 <= k < 32 /\ 0 <= v < 65536 /\ 0 <= f < 2.

Lemma type_info_eq k v f :
  info_ok k v f -> btf_type_info k v f = f * 2147483648 + k * 16777216 + v.
Proof.
  intros (Hk & Hv & Hf). unfold btf_type_info.
  rewrite (lor_shiftl_add f), Z.shiftl_mul_pow2 by (rewrite ?Z.shiftl_mul_pow2; lia).
  replace (f * 2 ^ 31 + k * 2 ^ 24) with (Z.shiftl (f * 128 + k) 24)
    by (rewrite Z.shiftl_mul_pow2; lia).
  rewrite lor_shiftl_add, wrap_small by (pow2; lia). lia.
Qed.

Lemma type_info_parts k v f :
  info_ok k v f -> let i := btf_type_info k v f in
  word_ok i /\ BTF_INFO_KIND i = k /\ BTF_INFO_VLEN i = v /\ BTF_INFO_KFLAG i = f.
Proof.
  intros Hi. pose proof Hi as (Hk & Hv & Hf). cbv zeta. rewrite (type_info_eq _ _ _ Hi).
  unfold word_ok, BTF_INFO_KIND, BTF_INFO_VLEN, BTF_INFO_KFLAG.
  change 31 with (Z.ones 5) at 1. rewrite Z.land_ones, land_65535, !Z.shiftr_div_pow2 by lia.
  change (2 ^ 5) with 32. change (2 ^ 24) with 16777216. change (2 ^ 31) with 2147483648.
  split_and!; Z.to_euclidean_division_equations; lia.
Qed.

Lemma inc_vlen_parts k v f :
  info_ok k v f -> btf_type_inc_vlen (btf_type_info k v f) = btf_type_info k (v + 1) f.
Proof.
  intros Hi. unfold btf_type_inc_vlen.
  destruct (type_info_parts _ _ _ Hi) as (_ & -> & -> & ->). done.
Qed.

(** ** What a type should look like *)

(** A member: its name unless it has none, and the words behind. *)
Definition item : Type := option (list Z) * list Z.

Record desc := Desc {
  d_name : list Z;
  d_kind : Z;
  d_vlen : Z;
  d_kflag : Z;
  d_word : Z;           (** size or type *)
  d_items : list item;
}.

Definition d_info (d : desc) : Z := btf_type_info (d_kind d) (d_vlen d) (d_kflag d).

Definition item_words (it : item) : Z :=
  Z.of_nat (length it.2) + match it.1 with Some _ => 1 | None => 0 end.

(** The size of a type of each kind, as [btf_type_size] has it. *)
Definition size_of_info (info : Z) : Z :=
  let vlen := BTF_INFO_VLEN info in
  match kind_of (BTF_INFO_KIND info) with
  | KIND_FWD | KIND_CONST | KIND_VOLATILE | KIND_RESTRICT | KIND_PTR | KIND_TYPEDEF
  | KIND_FUNC | KIND_FLOAT | KIND_TYPE_TAG => 12
  | KIND_INT => 12 + 4
  | KIND_ENUM => 12 + vlen * 8
  | KIND_ENUM64 => 12 + vlen * 12
  | KIND_ARRAY => 12 + 12
  | KIND_STRUCT | KIND_UNION => 12 + vlen * 12
  | KIND_FUNC_PROTO => 12 + vlen * 8
  | KIND_VAR => 12 + 4
  | KIND_DATASEC => 12 + vlen * 12
  | KIND_DECL_TAG => 12 + 4
  | KIND_UNKN | KIND_OTHER => - EINVAL
  end.

Definition items_words (its : list item) : Z := foldr Z.add 0 (map item_words its).

(** A type whose parts fit together; [n] bounds the number of members. *)
Definition d_ok (n : Z) (d : desc) : Prop :=
  0 <= d_kind d < 32 /\ 0 <= d_vlen d <= n + 2 /\ 0 <= d_kflag d < 2 /\
  size_of_info (d_info d) = 12 + 4 * items_words (d_items d).

(** The words [ws] are the type [d]; [l] is the string section. *)
Definition rep_item (l : list Z) (it : item) (ws : list Z) : Prop :=
  match it.1 with
  | None => ws = it.2
  | Some s => exists off, ws = off :: it.2 /\ cstr l off = Some s
  end.

Definition rep_desc (l : list Z) (d : desc) (ws : list Z) : Prop :=
  exists off iws, ws = off :: d_info d :: d_word d :: concat iws /\
    cstr l off = Some (d_name d) /\ Forall2 (rep_item l) (d_items d) iws /\
    Forall word_ok ws.

Lemma rep_item_app l y it ws : rep_item l it ws -> rep_item (l ++ y) it ws.
Proof.
  unfold rep_item. destruct (it.1); [|done]. intros (off & -> & H). exists off. split; [done|].
  by apply cstr_app.
Qed.

Lemma rep_desc_app l y d ws : rep_desc l d ws -> rep_desc (l ++ y) d ws.
Proof.
  intros (off & iws & -> & H1 & H2 & H3). exists off, iws. split_and!; [done|by apply cstr_app| |done].
  eapply Forall2_impl; [done|]. intros. by apply rep_item_app.
Qed.

Lemma rep_item_length l it ws : rep_item l it ws -> Z.of_nat (length ws) = item_words it.
Proof.
  unfold rep_item, item_words. destruct (it.1); [intros (off & -> & _); simpl; lia|intros ->; lia].
Qed.

Lemma rep_items_length l its iws :
  Forall2 (rep_item l) its iws -> Z.of_nat (length (concat iws)) = items_words its.
Proof.
  unfold items_words. induction 1 as [|it ws its iws H _ IH]; [done|]. simpl.
  rewrite length_app, Nat2Z.inj_add, IH. by rewrite (rep_item_length _ _ _ H).
Qed.

Lemma rep_desc_length l d ws :
  rep_desc l d ws -> Z.of_nat (length ws) = 3 + items_words (d_items d).
Proof.
  intros (off & iws & -> & _ & H & _). pose proof (rep_items_length _ _ _ H). simpl. lia.
Qed.

Lemma d_ok_info n d : d_ok n d -> n + 2 < 65536 -> info_ok (d_kind d) (d_vlen d) (d_kflag d).
Proof. intros (Hk & Hv & Hf & _) Hn. split_and!; lia. Qed.

(** Its bytes are a complete record. *)
Lemma rep_desc_rec l n d ws : rep_desc l d ws -> d_ok n d -> rec_ok (bytes_of ws).
Proof.
  intros Hr (_ & _ & _ & Hs). pose proof (rep_desc_length _ _ _ Hr) as Hl.
  destruct Hr as (off & iws & -> & _ & Hi & Hw).
  assert (Hn : 0 <= items_words (d_items d)) by (rewrite <- (rep_items_length _ _ _ Hi); lia).
  split; [apply bytes_of_ok|]. rewrite bytes_of_length. split; [lia|].
  unfold btf_type_size.
  rewrite (ld32_word0 _ 1 (d_info d)); [|done| |done].
  2: { rewrite !Forall_cons in Hw. tauto. }
  cbn [mbind option_bind]. fold (size_of_info (d_info d)). rewrite Hs. f_equal. lia.
Qed.

(** ** The split object *)

(** The header [btf_new_empty] writes, for [tl] bytes of types and [sl] bytes
    of strings. *)
Definition bhdr (tl sl : Z) : list Z := [159; 235; 1; 0] ++ bytes_of [24; 0; tl; tl; sl].

Definition types_bytes (wss : list (list Z)) : list Z := concat (map bytes_of wss).

Definition types_len (wss : list (list Z)) : Z := Z.of_nat (length (types_bytes wss)).

Lemma types_bytes_app wss wss' : types_bytes (wss ++ wss') = types_bytes wss ++ types_bytes wss'.
Proof. unfold types_bytes. by rewrite map_app, concat_app. Qed.

Lemma types_bytes_snoc wss ws : types_bytes (wss ++ [ws]) = types_bytes wss ++ bytes_of ws.
Proof. rewrite types_bytes_app. unfold types_bytes at 2. simpl. by rewrite app_nil_r. Qed.

Lemma types_len_snoc wss ws :
  types_len (wss ++ [ws]) = types_len wss + 4 * Z.of_nat (length ws).
Proof. unfold types_len. rewrite types_bytes_snoc, length_app, bytes_of_length. lia. Qed.

Lemma hdr_word tl sl i v :
  [24; 0; tl; tl; sl] !! i = Some v -> word_ok v -> ld32 (bhdr tl sl) (4 + 4 * Z.of_nat i) = Some v.
Proof.
  intros Hi Hv. unfold bhdr. rewrite <- (app_nil_r (bytes_of _)).
  by apply (ld32_word [159; 235; 1; 0] _ [] i).
Qed.

Lemma bhdr_reads tl sl : word_ok tl -> word_ok sl ->
  hdr_len (bhdr tl sl) = Some 24 /\ hdr_type_off (bhdr tl sl) = Some 0 /\
  hdr_type_len (bhdr tl sl) = Some tl /\ hdr_str_off (bhdr tl sl) = Some tl /\
  hdr_str_len (bhdr tl sl) = Some sl.
Proof.
  intros Ht Hs. assert (word_ok 24 /\ word_ok 0) as [H24 H0] by (unfold word_ok; lia).
  split_and!; [apply (hdr_word tl sl 0 24)|apply (hdr_word tl sl 1 0)|apply (hdr_word tl sl 2 tl)
    |apply (hdr_word tl sl 3 tl)|apply (hdr_word tl sl 4 sl)]; done.
Qed.

Lemma bhdr_write tl sl i v :
  (i < 5)%nat -> st32 (bhdr tl sl) (4 + 4 * Z.of_nat i) v =
    Some ([159; 235; 1; 0] ++ bytes_of (<[i := v]> [24; 0; tl; tl; sl])).
Proof.
  intros Hi. pose proof (st32_word [159; 235; 1; 0] [24; 0; tl; tl; sl] [] i (4 + 4 * Z.of_nat i) v Hi
    ltac:(simpl; lia)) as H. by rewrite !app_nil_r in H.
Qed.

Lemma bhdr_set_str tl sl v : st32 (bhdr tl sl) 20 v = Some (bhdr tl v).
Proof. apply (bhdr_write tl sl 4 v). lia. Qed.

Section Proofs.
Context (alloc_ok : Z -> bool).

(** Some allocation fails. *)
Definition oom : Prop := exists n, alloc_ok n = false.

(** The split object after at most [n] successful additions, with at most
    [S] bytes of strings: the types are [ds] (the last one first), as the
    words [wss], the string section is [l], and behind the types there is
    room for [room] more words. *)
Record split_inv (room : nat) (n S : Z) (b : bobj) (ds : list desc) (wss : list (list Z))
    (l : list Z) : Prop := {
  si_rep : exists slack set A,
    b_rep b = RSplit (bhdr (types_len wss) (Z.of_nat (length l))) (types_bytes wss ++ slack)
                (Z.of_nat (length (types_bytes wss ++ slack))) set /\
    (4 * room <= length slack)%nat /\ Z.of_nat (length (types_bytes wss ++ slack)) <= UINT32_MAX /\
    strset_ok set A /\ in_use set = l /\ strs_data_max_len set = BTF_MAX_STR_OFFSET;
  si_raw : b_raw b = None;
  si_base : b_base b = None;
  si_start : b_start_id b = 1 /\ b_start_str_off b = 0;
  si_index : index_ok (b_offs b) (b_offs_cap b) (b_nr b) (offsets 0 (map bytes_of wss));
  si_descs : Forall2 (rep_desc l) (reverse ds) wss;
  si_ok : Forall (d_ok n) ds;
  si_strs : bytes_ok l /\ l !! 0%nat = Some 0 /\ last l = Some 0;
  si_size : Z.of_nat (length l) <= S /\ types_len wss <= 24 * n /\ Z.of_nat (length ds) <= n;
}.

(** The sizes the theorems are about. *)
Definition sizes_ok (n S : Z) : Prop := 0 <= n < 65533 /\ S <= INT_MAX.

Lemma d_ok_mono n n' d : n <= n' -> d_ok n d -> d_ok n' d.
Proof. intros Hn (H1 & H2 & H3 & H4). split_and!; [lia..|done]. Qed.

Lemma split_inv_mono room room' n n' S S' b ds wss l :
  split_inv room n S b ds wss l -> (room' <= room)%nat -> n <= n' -> S <= S' ->
  split_inv room' n' S' b ds wss l.
Proof.
  intros [(slack & set & A & H1 & H2 & H) ? ? ? ? ? Hd ? Hs] Hr Hn HS. split; try done.
  - exists slack, set, A. split_and!; [done|lia|tauto..].
  - eapply Forall_impl; [done|]. intros d. by apply d_ok_mono.
  - lia.
Qed.

Lemma split_inv_len room n S b ds wss l :
  split_inv room n S b ds wss l ->
  length wss = length ds /\ b_nr b = Z.of_nat (length ds) /\ Z.of_nat (length l) <= INT_MAX /\
  word_ok (types_len wss) /\ word_ok (Z.of_nat (length l)).
Proof.
  intros [(slack & set & A & _ & _ & Hc & Hset & Hu & _) _ _ _ Hi Hd _ _ _].
  pose proof (Forall2_length _ _ _ Hd) as Hl. rewrite length_reverse in Hl.
  destruct Hi as [_ _ Hn _ _ _]. rewrite length_offsets, length_map in Hn.
  assert (Hl2 : Z.of_nat (length l) <= INT_MAX).
  { rewrite <- Hu. unfold in_use. rewrite length_take. destruct Hset as (H1 & H2 & _). lia. }
  rewrite length_app in Hc. unfold word_ok, types_len. split_and!; lia.
Qed.

(** Memory for [k] more words of types. *)
Lemma add_type_mem_spec room n S b ds wss l k :
  split_inv room n S b ds wss l -> (0 < k <= 6)%nat -> sizes_ok n S ->
  exists r, btf_add_type_mem alloc_ok b (4 * Z.of_nat k) = Some r /\
    match r with
    | None => oom
    | Some (p, b') => p = types_len wss /\ split_inv k n S b' ds wss l
    end.
Proof.
  intros Hinv Hk (Hn & HS). destruct (split_inv_len _ _ _ _ _ _ _ Hinv) as (_ & _ & _ & Ht & Hl).
  destruct Hinv as [(slack & set & A & Hrep & _ & Hc & Hset) Hraw Hbase Hst Hi Hd Hok Hs Hsz].
  unfold btf_add_type_mem. rewrite Hrep.
  destruct (bhdr_reads _ _ Ht Hl) as (_ & _ & -> & _). cbn [mbind option_bind].
  pose proof (add_mem_bytes alloc_ok UINT32_MAX (types_bytes wss ++ slack) (types_len wss) UINT32_MAX
    (4 * Z.of_nat k)) as Hm.
  assert (types_len wss <= Z.of_nat (length (types_bytes wss ++ slack)))
    by (rewrite length_app; unfold types_len; lia).
  specialize (Hm ltac:(unfold types_len in *; lia) ltac:(lia) ltac:(lia) Hc ltac:(lia) ltac:(lia)).
  destruct (libbpf_add_mem _ _ _ _ _ _ _) as [[[p data'] cap']|].
  2: { eexists. split; [done|]. destruct Hm as [?|?]; [lia|done]. }
  destruct Hm as (-> & Hroom & Hmax & -> & x & -> & _). eexists. split; [done|]. cbn [mbind option_bind].
  split; [done|]. split; try done. exists (slack ++ x), set, A. cbn [with_rep b_rep].
  rewrite <- app_assoc in Hroom, Hmax |- *. split_and!; [done| |done|tauto..].
  rewrite length_app in Hroom. unfold types_len in Hroom. lia.
Qed.

Definition name_of (name : option (list Z)) : list Z := default [] name.

Definition name_ok (name : option (list Z)) : Prop :=
  match name with None => True | Some s => str_ok s end.

Definition name_cost (name : option (list Z)) : Z := Z.of_nat (length (name_of name)) + 1.

(** The string section keeps its shape. *)
Lemma strs_shape (l y s : list Z) :
  bytes_ok l /\ l !! 0%nat = Some 0 /\ last l = Some 0 -> bytes_ok s -> y = [] \/ y = s ++ [0] ->
  bytes_ok (l ++ y) /\ (l ++ y) !! 0%nat = Some 0 /\ last (l ++ y) = Some 0.
Proof.
  intros (H1 & H2 & H3) Hs Hy. split_and!.
  - apply bytes_ok_app. split; [done|]. destruct Hy as [->| ->]; [constructor|].
    apply bytes_ok_app. split; [done|]. constructor; [unfold is_byte; lia|constructor].
  - by apply lookup_app_l_Some.
  - destruct Hy as [->| ->]; [by rewrite app_nil_r|]. by rewrite app_assoc, last_snoc.
Qed.

(** Adding a string to the split object. *)
Lemma own_add_str_spec room n S b ds wss l s :
  split_inv room n S b ds wss l -> str_ok s ->
  S + (Z.of_nat (length s) + 1) <= INT_MAX ->
  exists r b' l', own_add_str alloc_ok b s = Some (r, b') /\
    split_inv room n (S + (Z.of_nat (length s) + 1)) b' ds wss l' /\
    (r = - ENOMEM /\ oom \/ 0 <= r /\ cstr l' r = Some s).
Proof.
  intros Hinv (Hs1 & Hs2 & Hs3) HS. destruct (split_inv_len _ _ _ _ _ _ _ Hinv) as (_ & _ & Hl & _).
  destruct Hinv as [(slack & set & A & Hrep & Hroom & Hc & Hset & Hu & Hmax)
    Hraw Hbase Hst Hi Hd Hok Hs Hsz].
  unfold own_add_str, btf_ensure_modifiable. rewrite Hrep. cbn [mbind option_bind with_rep b_rep].
  rewrite Z.eqb_refl. cbn [negb].
  destruct (strset_add_spec alloc_ok set A s Hset Hs1 Hs2 Hs3)
    as (r & set' & A' & -> & Hset' & Hmax' & (y & Hy & Hycase0) & Hcase). cbn [mbind option_bind].
  assert (Hycase : y = [] \/ y = s ++ [0]) by tauto.
  assert (Hlen : Z.of_nat (length l) = strs_data_len set).
  { rewrite <- Hu. unfold in_use. rewrite length_take. destruct Hset as (? & _). lia. }
  assert (Hinv' : forall hb r', hb = bhdr (types_len wss) (Z.of_nat (length (in_use set'))) ->
    b_rep r' = RSplit hb (types_bytes wss ++ slack) (Z.of_nat (length (types_bytes wss ++ slack))) set' ->
    b_raw r' = None -> b_base r' = b_base b -> b_start_id r' = b_start_id b ->
    b_start_str_off r' = b_start_str_off b -> b_offs r' = b_offs b ->
    b_offs_cap r' = b_offs_cap b -> b_nr r' = b_nr b ->
    split_inv room n (S + (Z.of_nat (length s) + 1)) r' ds wss (in_use set')).
  { intros hb r' -> E1 E2 E3 E4 E5 E6 E7 E8. rewrite Hy, Hu in *. split.
    - exists slack, set', A'. by rewrite E1, Hmax', Hy.
    - done.
    - by rewrite E3.
    - by rewrite E4, E5.
    - by rewrite E6, E7, E8.
    - eapply Forall2_impl; [done|]. intros. by apply rep_desc_app.
    - done.
    - by eapply strs_shape.
    - rewrite length_app. destruct Hycase as [->| ->]; rewrite ?length_app; simpl; lia. }
  destruct Hcase as [(Hr & HA & Hsame & Hat)|(-> & -> & Hsame' & Hfail)].
  - pose proof (cstr_bounds _ _ _ Hat) as (_ & Hend & _).
    assert (Hlen' : Z.of_nat (length (in_use set')) = strs_data_len set' /\ strs_data_len set' <= INT_MAX).
    { unfold in_use. rewrite length_take. destruct Hset' as (? & ? & _). lia. }
    destruct (Z.ltb_spec r 0); [lia|]. rewrite bhdr_set_str. cbn [mbind option_bind].
    destruct Hst as [Hst1 Hst2]. cbn [with_rep b_start_str_off]. rewrite Hst2, Z.add_0_l.
    rewrite swrap_small by (pow2; lia). eexists _, _, (in_use set'). split; [done|].
    split; [|right; by split]. eapply (Hinv' _ _ eq_refl); cbn [with_rep b_rep]; try done.
    by rewrite (proj1 Hlen').
  - cbn [Z.ltb Z.opp Z.compare]. eexists _, _, (in_use set'). split; [done|]. split.
    + eapply (Hinv' _ _ eq_refl); cbn [with_rep b_rep]; try done. by rewrite Hsame', Hu.
    + left. split; [done|]. destruct Hfail as [?|?]; [lia|done].
Qed.

Lemma name_to_off_spec room n S b ds wss l name :
  split_inv room n S b ds wss l -> name_ok name -> S + name_cost name <= INT_MAX ->
  exists r b' l', name_to_off alloc_ok b name = Some (r, b') /\
    split_inv room n (S + name_cost name) b' ds wss l' /\
    (r = - ENOMEM /\ oom \/ 0 <= r /\ cstr l' r = Some (name_of name)).
Proof.
  intros Hinv Hname HS. unfold name_cost in *.
  assert (Hempty : name_of name = [] -> exists r b' l', Some (0, b) = Some (r, b') /\
    split_inv room n (S + (Z.of_nat (length (name_of name)) + 1)) b' ds wss l' /\
    (r = - ENOMEM /\ oom \/ 0 <= r /\ cstr l' r = Some (name_of name))).
  { intros E. exists 0, b, l. split; [done|]. split; [apply (split_inv_mono room _ n _ S); (done || lia)|].
    right. split; [done|]. rewrite E. pose proof (si_strs _ _ _ _ _ _ _ Hinv) as (_ & H0 & _).
    destruct l as [|c l']; [done|]. simpl in H0. by injection H0 as ->. }
  destruct name as [[|c s]|]; [by apply Hempty| |by apply Hempty]. cbn [name_to_off name_of default] in *.
  assert (E : btf__add_str alloc_ok b (c :: s) = own_add_str alloc_ok b (c :: s)).
  { unfold btf__add_str. by rewrite (si_base _ _ _ _ _ _ _ Hinv). }
  rewrite E. by apply (own_add_str_spec room n S b ds wss l).
Qed.

(** Writing the words of a type behind the others. *)
Lemma write_behind room n S b ds wss l ws :
  split_inv room n S b ds wss l -> (length ws <= room)%nat ->
  exists b' slack set A, write_types b (types_len wss) ws = Some b' /\
    split_inv room n S b' ds wss l /\
    b_rep b' = RSplit (bhdr (types_len wss) (Z.of_nat (length l))) (types_bytes wss ++ bytes_of ws ++ slack)
                 (Z.of_nat (length (types_bytes wss ++ bytes_of ws ++ slack))) set /\
    Z.of_nat (length (types_bytes wss ++ bytes_of ws ++ slack)) <= UINT32_MAX /\
    (4 * room <= length (bytes_of ws ++ slack))%nat /\
    strset_ok set A /\ in_use set = l /\ strs_data_max_len set = BTF_MAX_STR_OFFSET.
Proof.
  intros [(slack & set & A & Hrep & Hroom & Hc & Hset) Hraw Hbase Hst Hi Hd Hok Hs Hsz] Hws.
  set (k := (4 * length ws)%nat). assert (Hk : length (take k slack) = k) by (rewrite length_take; lia).
  unfold write_types. rewrite Hrep, <- (take_drop k slack).
  rewrite st_words_at by (done || lia). cbn [mbind option_bind].
  assert (Hl : length (bytes_of ws ++ drop k slack) = length slack).
  { rewrite length_app, bytes_of_length, length_drop. lia. }
  assert (Hl2 : length (types_bytes wss ++ bytes_of ws ++ drop k slack) = length (types_bytes wss ++ slack))
    by (rewrite !length_app in *; lia).
  rewrite take_drop, <- Hl2 in *.
  eexists _, (drop k slack), set, A. split; [done|]. split; [|split_and!; try done; try lia; tauto].
  split; try done. exists (bytes_of ws ++ drop k slack), set, A. cbn [with_rep b_rep].
  split_and!; [done|lia|lia|tauto..].
Qed.

(** [hdr->type_len], [hdr->str_off] after new bytes of types. *)
Lemma grow_hdr_spec b tl sl ty cap set sz :
  b_rep b = RSplit (bhdr tl sl) ty cap set -> word_ok tl -> word_ok sl -> 0 <= tl + sz < 2 ^ 32 ->
  grow_hdr b sz = Some (with_rep b (RSplit (bhdr (tl + sz) sl) ty cap set)).
Proof.
  intros Hrep Ht Hs Hsz. unfold grow_hdr. rewrite Hrep.
  destruct (bhdr_reads tl sl Ht Hs) as (_ & _ & -> & _). cbn [mbind option_bind].
  rewrite (wrap_small 32) by (pow2; lia). rewrite (bhdr_write tl sl 2) by lia. cbn [mbind option_bind insert list_insert].
  assert (E : hdr_str_off ([159; 235; 1; 0] ++ bytes_of [24; 0; tl + sz; tl; sl]) = Some tl).
  { unfold hdr_str_off. rewrite <- (app_nil_r (bytes_of _)). by apply (ld32_word _ _ [] 3). }
  rewrite E. cbn [mbind option_bind]. rewrite (wrap_small 32) by (pow2; lia).
  rewrite <- (app_nil_r (bytes_of _)), (st32_word [159; 235; 1; 0] _ [] 3) by (simpl; lia).
  by rewrite app_nil_r.
Qed.

Lemma offsets_app recs recs' : forall o,
  offsets o (recs ++ recs') = offsets o recs ++ offsets (o + Z.of_nat (length (concat recs))) recs'.
Proof.
  induction recs as [|r recs IH]; intros o; simpl; [by rewrite Z.add_0_r|].
  rewrite IH, length_app. do 3 f_equal. lia.
Qed.

(** [btf_commit_type] makes the words written behind the others a type. *)
Lemma commit_spec n S b ds wss l d ws :
  split_inv (length ws) n S b ds wss l -> rep_desc l d ws -> d_ok (n + 1) d ->
  types_len wss + 4 * Z.of_nat (length ws) <= 24 * (n + 1) -> sizes_ok (n + 1) S ->
  exists b' r b'', write_types b (types_len wss) ws = Some b' /\
    btf_commit_type alloc_ok b' (4 * Z.of_nat (length ws)) = Some (r, b'') /\
    (r = - ENOMEM /\ oom /\ split_inv 0 (n + 1) S b'' ds wss l \/
     r = Z.of_nat (length ds) + 1 /\ split_inv 0 (n + 1) S b'' (d :: ds) (wss ++ [ws]) l).
Proof.
  intros Hinv0 Hd Hok Hlen (Hn & HS).
  destruct (write_behind _ _ _ _ _ _ _ ws Hinv0) as
    (b' & slack & set & A & Hw & Hinv & Hrep & Hc & Hroom & Hset); [done|].
  exists b'. cut (exists r b'', btf_commit_type alloc_ok b' (4 * Z.of_nat (length ws)) = Some (r, b'') /\
    (r = - ENOMEM /\ oom /\ split_inv 0 (n + 1) S b'' ds wss l \/
     r = Z.of_nat (length ds) + 1 /\ split_inv 0 (n + 1) S b'' (d :: ds) (wss ++ [ws]) l)).
  { intros (r & b'' & H1 & H2). exists r, b''. by split_and!. }
  destruct (split_inv_len _ _ _ _ _ _ _ Hinv) as (Hwl & Hnr & Hl & Htw & Hlw).
  pose proof (rep_desc_length _ _ _ Hd) as Hwords.
  assert (Hbig : types_len wss + 4 * Z.of_nat (length ws) < 2 ^ 32) by lia.
  pose proof Hinv as [_ Hraw Hbase [Hst1 Hst2] Hi Hds Hdok Hs (Hz1 & Hz2 & Hz3)].
  unfold btf_commit_type. rewrite Hrep.
  destruct (bhdr_reads _ _ Htw Hlw) as (_ & _ & -> & _). cbn [mbind option_bind].
  destruct (add_idx_entry_spec alloc_ok _ _ _ _ (types_len wss) Hi) as (e & offs & cap & -> & Hcase);
    [lia|unfold word_ok in Htw; lia|]. cbn [mbind option_bind].
  destruct Hcase as [(-> & -> & -> & Ho)|[-> Hi']].
  - eexists _, _. cbn [Z.eqb Z.opp negb]. split; [done|]. left. split_and!; [done|done|].
    apply (split_inv_mono (length ws) _ n _ S _); [|lia..]. destruct Hinv. by split.
  - rewrite Z.eqb_refl. cbn [negb].
    erewrite (grow_hdr_spec _ (types_len wss)); [|done..|unfold word_ok in Htw; lia].
    cbn [mbind option_bind with_index with_rep b_start_id b_offs b_offs_cap b_nr b_rep b_raw b_base b_start_str_off].
    rewrite Hst1, Hnr. rewrite (wrap_small 32 (_ + 1)) by (pow2; lia).
    rewrite (wrap_small 32) by (pow2; lia). rewrite swrap_small by (pow2; lia).
    eexists _, _. split; [done|]. right. split; [lia|].
    split; try done; cbn [with_index with_rep b_start_id b_offs b_offs_cap b_nr b_rep b_raw b_base b_start_str_off].
    + exists slack, set, A. rewrite types_len_snoc, types_bytes_snoc, <- app_assoc.
      split_and!; [done|lia|done|tauto..].
    + rewrite map_app, offsets_app. simpl. rewrite Z.add_0_l, <- Hnr. exact Hi'.
    + rewrite reverse_cons. apply Forall2_app; [done|]. by constructor.
    + constructor; [done|]. eapply Forall_impl; [done|]. intros d'. apply d_ok_mono. lia.
    + rewrite types_len_snoc. cbn [length]. lia.
Qed.

(** The last type. *)
Lemma last_type_spec room n S b d ds wss l :
  split_inv room n S b (d :: ds) wss l -> sizes_ok n S ->
  exists wss0 ws, wss = wss0 ++ [ws] /\ rep_desc l d ws /\
    own_type b (Z.of_nat (length ds) + 1) = Some ((types_at b).1, types_len wss0) /\
    btf_last_type b = Some ((types_at b).1, types_len wss0) /\
    type_info_at ((types_at b).1, types_len wss0) = Some (d_info d).
Proof.
  intros Hinv [Hn HS]. destruct (split_inv_len _ _ _ _ _ _ _ Hinv) as (Hwl & Hnr & _).
  destruct Hinv as [(slack & set & A & Hrep & _) _ _ [Hst _] Hi Hds Hok _ (_ & _ & Hz)].
  rewrite reverse_cons in Hds. apply Forall2_app_inv_l in Hds as (wss0 & wsl & Hds & Hlast & ->).
  apply Forall2_cons_inv_l in Hlast as (ws & wsl' & Hd & ->%Forall2_nil_inv_l & ->).
  cbn [length] in *. rewrite length_app in Hwl. cbn [length] in Hwl.
  assert (Hown : own_type b (Z.of_nat (length ds) + 1) = Some ((types_at b).1, types_len wss0)).
  { unfold own_type. rewrite Hst, (wrap_small 32) by (pow2; lia).
    replace (4 * (Z.of_nat (length ds) + 1 - 1)) with (4 * Z.of_nat (length wss0)) by lia.
    destruct Hi as [_ _ _ _ _ Hg]. rewrite map_app, offsets_app in Hg. rewrite Hg.
    2: { rewrite length_app, length_offsets, length_map. simpl. lia. }
    rewrite lookup_app_r; rewrite length_offsets, length_map; [|lia]. rewrite Nat.sub_diag.
    unfold types_at. rewrite Hrep. by rewrite Z.add_0_l. }
  exists wss0, ws. split_and!; [done|done|done| |].
  - unfold btf_last_type, b_type_cnt. rewrite Hst, Hnr, <- Hown, (wrap_small 32) by (pow2; lia).
    f_equal. lia.
  - unfold type_info_at, types_at. rewrite Hrep. cbn [fst snd].
    rewrite types_bytes_snoc, <- app_assoc. destruct Hd as (off & iws & -> & _ & _ & Hw).
    apply (ld32_word _ _ _ 1); [done| |unfold types_len; lia].
    rewrite !Forall_cons in Hw. tauto.
Qed.

(** Replacing the last type by a longer one. *)
Lemma replace_last n n' S b b' d d' ds wss0 ws ws' l slack set A :
  split_inv 0 n S b (d :: ds) (wss0 ++ [ws]) l ->
  b_rep b' = RSplit (bhdr (types_len (wss0 ++ [ws'])) (Z.of_nat (length l)))
               (types_bytes (wss0 ++ [ws']) ++ slack)
               (Z.of_nat (length (types_bytes (wss0 ++ [ws']) ++ slack))) set ->
  Z.of_nat (length (types_bytes (wss0 ++ [ws']) ++ slack)) <= UINT32_MAX ->
  strset_ok set A /\ in_use set = l /\ strs_data_max_len set = BTF_MAX_STR_OFFSET ->
  b_raw b' = None -> b_base b' = b_base b -> b_start_id b' = b_start_id b ->
  b_start_str_off b' = b_start_str_off b -> b_offs b' = b_offs b ->
  b_offs_cap b' = b_offs_cap b -> b_nr b' = b_nr b ->
  rep_desc l d' ws' -> d_ok n' d' -> n <= n' -> types_len (wss0 ++ [ws']) <= 24 * n' ->
  split_inv 0 n' S b' (d' :: ds) (wss0 ++ [ws']) l.
Proof.
  intros [_ Hraw Hbase Hst Hi Hds Hok Hs Hsz] E1 Hc Hset E2 E3 E4 E5 E6 E7 E8 Hd Hdok Hn Hlen.
  rewrite reverse_cons in Hds.
  assert (Hwl : length (reverse ds) = length wss0).
  { pose proof (Forall2_length _ _ _ Hds) as H. rewrite !length_app in H. simpl in H. lia. }
  apply Forall2_app_inv in Hds as [Hds _]; [|done].
  apply Forall_cons in Hok as [_ Hok]. split.
  - exists slack, set, A. rewrite E1. split_and!; [done|lia|lia|tauto..].
  - done.
  - by rewrite E3.
  - by rewrite E4, E5.
  - rewrite E6, E7, E8. rewrite map_app, offsets_app in *. exact Hi.
  - rewrite reverse_cons. apply Forall2_app; [done|]. by constructor.
  - constructor; [done|]. eapply Forall_impl; [done|]. intros d0. by apply d_ok_mono.
  - done.
  - cbn [length] in *. lia.
Qed.

(** Writing the info word of the last type. *)
Lemma write_info_spec b hdr cap set wss0 ws rest i :
  b_rep b = RSplit hdr (types_bytes (wss0 ++ [ws]) ++ rest) cap set -> (3 <= length ws)%nat ->
  write_types b (types_len wss0 + 4) [i] =
    Some (with_rep b (RSplit hdr (types_bytes (wss0 ++ [<[1%nat := i]> ws]) ++ rest) cap set)).
Proof.
  intros Hrep Hw. unfold write_types. rewrite Hrep. cbn [st_words].
  rewrite !types_bytes_snoc, <- !app_assoc.
  rewrite (st32_word (types_bytes wss0) ws rest 1) by (unfold types_len; lia). done.
Qed.

Definition with_info (d : desc) (vlen kflag : Z) : desc :=
  {| d_name := d_name d; d_kind := d_kind d; d_vlen := vlen; d_kflag := kflag; d_word := d_word d;
     d_items := d_items d |}.

Lemma types_len_same wss0 ws ws' :
  length ws = length ws' -> types_len (wss0 ++ [ws]) = types_len (wss0 ++ [ws']).
Proof. intros H. by rewrite !types_len_snoc, H. Qed.

Lemma set_info_spec n S b d ds wss l v f :
  split_inv 0 n S b (d :: ds) wss l -> sizes_ok n S -> d_ok n (with_info d v f) ->
  exists b' wss', set_info b (Z.of_nat (length ds) + 1) (btf_type_info (d_kind d) v f) = Some b' /\
    split_inv 0 n S b' (with_info d v f :: ds) wss' l.
Proof.
  intros Hinv Hsz Hok. destruct (last_type_spec _ _ _ _ _ _ _ _ Hinv Hsz) as
    (wss0 & ws & -> & Hd & Hown & _). unfold set_info. rewrite Hown. cbn [mbind option_bind snd].
  pose proof Hinv as [(slack & set & A & Hrep & _ & Hc & Hset) Hraw _ _ _ _ _ _ (_ & Hz & _)].
  pose proof Hd as (off & iws & Hws & Hname & Hits & Hwo).
  erewrite write_info_spec; [|done|rewrite Hws; simpl; lia].
  eexists _, _. split; [done|].
  assert (Hlen : length ws = length (<[1%nat := btf_type_info (d_kind d) v f]> ws))
    by (by rewrite length_insert).
  assert (Htb : length (types_bytes (wss0 ++ [ws]) ++ slack)
    = length (types_bytes (wss0 ++ [<[1%nat := btf_type_info (d_kind d) v f]> ws]) ++ slack)).
  { pose proof (types_len_same wss0 _ _ Hlen) as H. unfold types_len in H. rewrite !length_app. lia. }
  eapply (replace_last n n S b _ d _ ds wss0 ws (<[1%nat := btf_type_info (d_kind d) v f]> ws) l slack set A
    Hinv); try done.
  - cbn [with_rep b_rep]. by rewrite (types_len_same _ _ _ Hlen), Htb.
  - lia.
  - exists off, iws. rewrite Hws in *. simpl. split_and!; [done|done|done|].
    rewrite !Forall_cons in *. split_and!; try tauto. apply type_info_parts.
    eapply (d_ok_info n (with_info d v f)); [done|]. destruct Hsz. lia.
  - rewrite <- (types_len_same _ _ _ Hlen). lia.
Qed.

(** ** The operations *)

(** The object [btf__new_empty] returns. *)
Definition new_obj : bobj := of_btf (empty_btf None 1 0 1) None.

(** The object, split or new. *)
Definition binv (n S : Z) (b : bobj) (ds : list desc) : Prop :=
  b = new_obj /\ ds = [] /\ 0 <= n /\ 1 <= S \/ exists wss l, split_inv 0 n S b ds wss l.

Lemma binv_mono n n' S S' b ds : binv n S b ds -> n <= n' -> S <= S' -> binv n' S' b ds.
Proof.
  intros [(H1 & H2 & H3 & H4)|(wss & l & H)] Hn HS; [left; split_and!; (done || lia)|right].
  exists wss, l. by apply (split_inv_mono 0 _ n _ S).
Qed.

Lemma ensure_spec n S b ds :
  binv n S b ds -> exists e b', btf_ensure_modifiable alloc_ok b = Some (e, b') /\
    (e <> 0 /\ b' = b /\ oom \/ e = 0 /\ exists wss l, split_inv 0 n S b' ds wss l).
Proof.
  intros [(-> & -> & Hn & HS)|(wss & l & Hinv)].
  2: { pose proof Hinv as [(slack & set & A & Hrep & H) ? ? ? ? ? ? ? ?]. unfold btf_ensure_modifiable.
    rewrite Hrep. do 2 eexists. split; [done|]. right. split; [done|]. exists wss, l.
    split; try done. by exists slack, set, A. }
  unfold btf_ensure_modifiable. cbn [new_obj of_btf b_rep empty_btf raw_data types_data Btf.strs_data].
  change (hdr_len (empty_image 1)) with (Some 24). change (hdr_type_len (empty_image 1)) with (Some 0).
  cbn [mbind option_bind]. destruct (alloc_ok 24 && alloc_ok 0) eqn:Ea; cbn [negb].
  2: { do 2 eexists. split; [done|]. left. split_and!; [lia|done|].
    apply andb_false_iff in Ea as [?|?]; by eexists. }
  change (ld_bytes (empty_image 1) 0 (Z.to_nat 24)) with (Some (bhdr 0 1)).
  change (ld_bytes (empty_image 1) 24 (Z.to_nat 0)) with (Some ([] : list Z)).
  change (hdr_str_len (empty_image 1)) with (Some 1). cbn [mbind option_bind].
  change (ld_bytes (empty_image 1) 24 (Z.to_nat 1)) with (Some (init_blob [[]])). cbn [mbind option_bind].
  destruct (strset_new_spec alloc_ok BTF_MAX_STR_OFFSET [[]]) as (r & -> & Hr);
    [repeat constructor|simpl; lia|lia|]. cbn [mbind option_bind]. destruct r as [e|set].
  { do 2 eexists. split; [done|]. left. destruct Hr. by split_and!. }
  destruct Hr as (Hmax & Hu & A & Hset & _). change (hdr_type_len (bhdr 0 1)) with (Some 0).
  cbn [mbind option_bind]. do 2 eexists. split; [done|]. right. split; [done|]. exists [], [0].
  split; try done; cbn [with_rep b_rep b_raw b_base b_start_id b_start_str_off of_btf empty_btf
    b_offs b_offs_cap b_nr type_offs type_offs_cap nr_types new_obj start_id start_str_off].
  - exists [], set, A. split_and!; try done; simpl; lia.
  - split; simpl; lia.
  - split; [|done]. constructor; [unfold is_byte; lia|constructor].
  - unfold types_len. simpl. lia.
Qed.

(** What an operation that appends the type [d] does. *)
Definition appended (n S : Z) (b' : bobj) (ds : list desc) (d : desc) (r : Z) : Prop :=
  r = - ENOMEM /\ oom /\ binv (n + 1) S b' ds \/
  r = Z.of_nat (length ds) + 1 /\ exists wss l, split_inv 0 (n + 1) S b' (d :: ds) wss l.

(** The data that follows the [struct btf_type] of a type without members. *)
Definition raw_items (rest : list Z) : list item :=
  match rest with [] => [] | _ => [(None, rest)] end.

Lemma raw_items_rep l rest :
  exists iws, Forall2 (rep_item l) (raw_items rest) iws /\ concat iws = rest.
Proof.
  destruct rest as [|w rest]; [by exists []|]. exists [w :: rest]. split; [by repeat constructor|].
  simpl. by rewrite app_nil_r.
Qed.

Lemma cstr_word l off s : cstr l off = Some s -> Z.of_nat (length l) <= INT_MAX -> word_ok off.
Proof. intros (H0 & H1 & _)%cstr_bounds Hl. unfold word_ok. lia. Qed.

Lemma add_type_words_spec n S b ds name d rest :
  binv n S b ds -> sizes_ok (n + 1) (S + name_cost name) -> 0 <= n -> name_ok name ->
  d_name d = name_of name -> d_items d = raw_items rest -> d_ok (n + 1) d -> word_ok (d_word d) ->
  Forall word_ok rest -> (length rest <= 3)%nat ->
  exists r b', add_type_words alloc_ok b (4 * (3 + Z.of_nat (length rest))) name (d_info d) (d_word d) rest
      = Some (r, b') /\ appended n (S + name_cost name) b' ds d r.
Proof.
  intros Hb [Hn HS] Hn0 Hname Hdn Hdi Hdok Hdw Hrest Hlen. unfold add_type_words.
  assert (0 < name_cost name) by (unfold name_cost; lia).
  destruct (ensure_spec _ _ _ _ Hb) as (e & b1 & -> & [(He & -> & Ho)|(-> & wss & l & Hinv)]);
    cbn [mbind option_bind].
  { rewrite (proj2 (Z.eqb_neq e 0)) by done. do 2 eexists. split; [done|]. left.
    split_and!; [done|done|]. eapply binv_mono; [done|lia..]. }
  rewrite Z.eqb_refl. cbn [negb].
  replace (4 * (3 + Z.of_nat (length rest))) with (4 * Z.of_nat (3 + length rest)) by lia.
  destruct (add_type_mem_spec _ _ _ _ _ _ _ (3 + length rest) Hinv) as (r & -> & Hr);
    [lia|split; lia|]. cbn [mbind option_bind]. destruct r as [[p b2]|].
  2: { do 2 eexists. split; [done|]. left. split_and!; [done|done|]. right. exists wss, l.
    apply (split_inv_mono 0 0 n _ S); (done || lia). }
  destruct Hr as [-> Hinv2].
  destruct (name_to_off_spec _ _ _ _ _ _ _ name Hinv2 Hname HS) as (off & b3 & l' & -> & Hinv3 & Hcase).
  cbn [mbind option_bind]. destruct Hcase as [(-> & Ho)|(Hoff & Hat)].
  { cbn [Z.ltb Z.opp Z.compare]. do 2 eexists. split; [done|]. left. split_and!; [done|done|].
    right. exists wss, l'. by eapply split_inv_mono; [done|lia..]. }
  destruct (Z.ltb_spec off 0); [lia|].
  destruct (split_inv_len _ _ _ _ _ _ _ Hinv3) as (_ & _ & Hl & _).
  destruct (raw_items_rep l' rest) as (iws & Hits & Hcat).
  set (ws := off :: d_info d :: d_word d :: rest).
  assert (Hd : rep_desc l' d ws).
  { exists off, iws. rewrite Hcat, Hdn, Hdi. split_and!; [done|done|done|].
    apply Forall_cons_2; [by eapply cstr_word|]. apply Forall_cons_2; [|by apply Forall_cons_2].
    apply type_info_parts. eapply (d_ok_info (n + 1)); [done|lia]. }
  destruct (commit_spec n (S + name_cost name) b3 ds wss l' d ws) as (b4 & r & b5 & -> & Hc & Hres); try done.
  { pose proof (si_size _ _ _ _ _ _ _ Hinv3) as (_ & ? & _). unfold ws. cbn [length]. lia. }
  cbn [mbind option_bind]. unfold ws in Hc. cbn [length] in Hc.
  replace (Z.of_nat (3 + length rest)) with (Z.of_nat (Datatypes.S (Datatypes.S (Datatypes.S (length rest))))) by lia.
  rewrite Hc. do 2 eexists. split; [done|]. destruct Hres as [(-> & Ho & Hinv5)|(-> & Hinv5)]; [left|right].
  - split_and!; [done|done|]. right. by do 2 eexists.
  - split; [done|]. by do 2 eexists.
Qed.

Definition with_member (d : desc) (it : item) (kflag : Z) : desc :=
  {| d_name := d_name d; d_kind := d_kind d; d_vlen := d_vlen d + 1; d_kflag := kflag;
     d_word := d_word d; d_items := d_items d ++ [it] |}.

(** What an operation that appends a member to the last type [d] does, [d']
    being the longer type. *)
Definition extended (n S : Z) (b' : bobj) (ds : list desc) (d d' : desc) (r : Z) : Prop :=
  r = - ENOMEM /\ oom /\ binv (n + 1) S b' (d :: ds) \/
  r = 0 /\ exists wss l, split_inv 0 (n + 1) S b' (d' :: ds) wss l.

(** The last steps: the new info word and the header. *)
Lemma extend_last n S b d ds wss l it f mws new_info :
  split_inv (length mws) n S b (d :: ds) wss l -> sizes_ok (n + 1) S -> 0 <= n ->
  rep_item l it mws -> Forall word_ok mws -> (length mws <= 3)%nat ->
  new_info (d_info d) = d_info (with_member d it f) -> d_ok (n + 1) (with_member d it f) ->
  exists b1 b' wss', write_types b (types_len wss) mws = Some b1 /\
    (t ← btf_last_type b1; info ← type_info_at t; b ← write_types b1 (t.2 + 4) [new_info info];
     b ← grow_hdr b (4 * Z.of_nat (length mws)); Some (0, b)) = Some (0, b') /\
    split_inv 0 (n + 1) S b' (with_member d it f :: ds) wss' l.
Proof.
  intros Hinv0 [Hn HS] Hn0 Hit Hmw Hm3 Hinfo Hdok.
  destruct (write_behind _ _ _ _ _ _ _ mws Hinv0) as
    (b1 & slack & set & A & Hw & Hinv & Hrep & Hc & Hroom & Hset); [done|]. rewrite Hw. exists b1.
  apply (split_inv_mono _ 0 n n S S) in Hinv; [|lia..].
  destruct (last_type_spec _ _ _ _ _ _ _ _ Hinv) as (wss0 & ws & -> & Hd & _ & Hlast & Hread); [split; lia|].
  destruct (split_inv_len _ _ _ _ _ _ _ Hinv) as (_ & _ & _ & Ht & Hl).
  pose proof Hinv as [_ Hraw _ _ _ _ _ _ (_ & Hz & _)].
  pose proof Hd as (off & iws & Hws & Hname & Hits & Hwo).
  rewrite Hlast. cbn [mbind option_bind snd]. rewrite Hread. cbn [mbind option_bind]. rewrite Hinfo.
  erewrite write_info_spec; [|done|rewrite Hws; simpl; lia]. cbn [mbind option_bind].
  set (i := d_info (with_member d it f)). set (ws' := <[1%nat := i]> ws ++ mws).
  assert (Hlen : types_len (wss0 ++ [ws']) = types_len (wss0 ++ [ws]) + 4 * Z.of_nat (length mws)).
  { rewrite !types_len_snoc. unfold ws'. rewrite length_app, length_insert. lia. }
  assert (Htb : forall x, types_bytes (wss0 ++ [ws']) ++ x
    = types_bytes (wss0 ++ [<[1%nat := i]> ws]) ++ bytes_of mws ++ x).
  { intros x. unfold ws'. by rewrite !types_bytes_snoc, bytes_of_app, <- !app_assoc. }
  assert (Htl : length (types_bytes (wss0 ++ [ws']) ++ slack)
    = length (types_bytes (wss0 ++ [ws]) ++ bytes_of mws ++ slack)).
  { rewrite Htb, !types_bytes_snoc, !length_app, !bytes_of_length, length_insert. lia. }
  erewrite grow_hdr_spec; [|done..|unfold word_ok in Ht; lia]. cbn [mbind option_bind].
  eexists _, _. split; [done|]. split; [done|].
  assert (Hi1 : word_ok i).
  { apply type_info_parts. eapply (d_ok_info (n + 1) (with_member d it f)); [done|lia]. }
  eapply (replace_last n (n + 1) S b1 _ d _ ds wss0 ws ws' l slack set A Hinv); try done.
  - cbn [with_rep b_rep]. by rewrite Hlen, Htl, Htb.
  - lia.
  - exists off, (iws ++ [mws]). unfold ws'. rewrite Hws in *. simpl. rewrite concat_app. simpl.
    rewrite app_nil_r. split_and!; [done|done| |].
    + apply Forall2_app; [done|]. by constructor.
    + rewrite !Forall_cons in *. split_and!; try tauto. apply Forall_app. tauto.
  - lia.
  - lia.
Qed.

Definition member_item (name : option (option (list Z))) (words : list Z) : item :=
  (name_of <$> name, words).

Definition member_cost (name : option (option (list Z))) : Z :=
  match name with None => 0 | Some nm => name_cost nm end.

Lemma add_member_words_spec n S b d ds name words f new_info :
  let it := member_item name words in
  binv n S b (d :: ds) -> sizes_ok (n + 1) (S + member_cost name) -> 0 <= n ->
  default True (name_ok <$> name) -> Forall word_ok words ->
  0 < item_words it <= 3 ->
  new_info (d_info d) = d_info (with_member d it f) -> d_ok (n + 1) (with_member d it f) ->
  exists r b', add_member_words alloc_ok b (4 * item_words it) name words new_info = Some (r, b') /\
    extended n (S + member_cost name) b' ds d (with_member d it f) r.
Proof.
  intros it Hb [Hn HS] Hn0 Hname Hwords Hlen Hinfo Hdok. unfold add_member_words.
  assert (0 <= member_cost name) by (unfold member_cost, name_cost; destruct name; lia).
  destruct (ensure_spec _ _ _ _ Hb) as (e & b1 & -> & [(He & -> & Ho)|(-> & wss & l & Hinv)]);
    cbn [mbind option_bind].
  { rewrite (proj2 (Z.eqb_neq e 0)) by done. do 2 eexists. split; [done|]. left.
    split_and!; [done|done|]. eapply binv_mono; [done|lia..]. }
  rewrite Z.eqb_refl. cbn [negb].
  set (k := Z.to_nat (item_words it)). replace (item_words it) with (Z.of_nat k) in * by lia.
  destruct (add_type_mem_spec _ _ _ _ _ _ _ k Hinv) as (r & -> & Hr);
    [lia|split; lia|]. cbn [mbind option_bind]. destruct r as [[p b2]|].
  2: { do 2 eexists. split; [done|]. left. split_and!; [done|done|]. right. exists wss, l.
    apply (split_inv_mono 0 0 n _ S); (done || lia). }
  destruct Hr as [-> Hinv2].
  assert (Hoff : exists r b' l', match name with None => Some (0, b2) | Some nm => name_to_off alloc_ok b2 nm end
      = Some (r, b') /\ split_inv k n (S + member_cost name) b' (d :: ds) wss l' /\
    (r = - ENOMEM /\ oom \/ 0 <= r /\
     rep_item l' it (match name with None => words | Some _ => r :: words end))).
  { destruct name as [nm|]; cbn [member_cost] in *.
    - destruct (name_to_off_spec _ _ _ _ _ _ _ nm Hinv2 Hname HS) as (off & b3 & l' & -> & H3 & Hc).
      exists off, b3, l'. split_and!; [done|done|]. destruct Hc as [?|(? & ?)]; [by left|].
      right. split; [done|]. by exists off.
    - exists 0, b2, l. rewrite Z.add_0_r. split_and!; [done|done|]. right. by split. }
  destruct Hoff as (off & b3 & l' & -> & Hinv3 & Hcase). cbn [mbind option_bind].
  destruct Hcase as [(-> & Ho)|(Hoff & Hrep)].
  { cbn [Z.ltb Z.opp Z.compare]. do 2 eexists. split; [done|]. left. split_and!; [done|done|].
    right. exists wss, l'. by eapply split_inv_mono; [done|lia..]. }
  destruct (Z.ltb_spec off 0); [lia|].
  set (mws := match name with None => words | Some _ => off :: words end) in *.
  assert (Hk : k = length mws) by (pose proof (rep_item_length _ _ _ Hrep); lia). rewrite Hk in *.
  destruct (split_inv_len _ _ _ _ _ _ _ Hinv3) as (_ & _ & Hl & _).
  destruct (extend_last n (S + member_cost name) b3 d ds wss l' it f mws new_info)
    as (b4 & b5 & wss' & -> & He & Hinv5); try (done || lia).
  { unfold mws, rep_item in *. destruct name; [|done]. destruct Hrep as (q & [= <-] & Hat).
    apply Forall_cons_2; [by eapply cstr_word|done]. }
  cbn [mbind option_bind] in *. rewrite He. do 2 eexists. split; [done|]. right. split; [done|].
  by do 2 eexists.
Qed.

(** The guard on the last type. *)
Lemma last_type_is_spec n S b ds ks :
  binv n S b ds -> sizes_ok n S ->
  last_type_is b ks = Some match ds with
                           | [] => false
                           | d :: _ => bool_decide (kind_of (d_kind d) ∈ ks)
                           end.
Proof.
  intros [(-> & -> & _)|(wss & l & Hinv)] Hsz; [done|]. unfold last_type_is.
  destruct (split_inv_len _ _ _ _ _ _ _ Hinv) as (_ & Hnr & _). destruct ds as [|d ds].
  { by rewrite Hnr. }
  destruct (Z.eqb_spec (b_nr b) 0); [simpl in Hnr; lia|].
  destruct (last_type_spec _ _ _ _ _ _ _ _ Hinv Hsz) as (wss0 & ws & -> & _ & _ & -> & Hread).
  cbn [mbind option_bind]. rewrite Hread. cbn [mbind option_bind].
  pose proof Hinv as [_ _ _ _ _ _ Hok _ _]. apply Forall_cons in Hok as [Hok _].
  destruct Hsz. destruct (type_info_parts _ _ _ (d_ok_info _ _ Hok ltac:(lia))) as (_ & Hk & _).
  unfold d_info. by rewrite Hk.
Qed.
End Proofs.

(** ** What the interface promises *)

(** A call of the interface. *)
Inductive op :=
  | AddInt (name : option (list Z)) (byte_sz encoding : Z)
  | AddFloat (name : option (list Z)) (byte_sz : Z)
  | AddPtr (ref : Z)
  | AddArray (index elem nr : Z)
  | AddStruct (name : option (list Z)) (byte_sz : Z)
  | AddUnion (name : option (list Z)) (byte_sz : Z)
  | AddField (name : option (list Z)) (type_id bit_offset bit_size : Z)
  | AddEnum (name : option (list Z)) (byte_sz : Z)
  | AddEnumValue (name : option (list Z)) (value : Z)
  | AddEnum64 (name : option (list Z)) (byte_sz : Z) (is_signed : bool)
  | AddEnum64Value (name : option (list Z)) (value : Z)
  | AddFwd (name : option (list Z)) (fwd_kind : enum_btf_fwd_kind)
  | AddTypedef (name : option (list Z)) (ref : Z)
  | AddVolatile (ref : Z)
  | AddConst (ref : Z)
  | AddRestrict (ref : Z)
  | AddTypeTag (value : option (list Z)) (ref : Z)
  | AddFunc (name : option (list Z)) (linkage proto : Z)
  | AddFuncProto (ret : Z)
  | AddFuncParam (name : option (list Z)) (type_id : Z)
  | AddVar (name : option (list Z)) (linkage type_id : Z)
  | AddDatasec (name : option (list Z)) (byte_sz : Z)
  | AddDatasecVarInfo (var offset byte_sz : Z)
  | AddDeclTag (value : option (list Z)) (ref component : Z).

Definition run_op (alloc_ok : Z -> bool) (b : bobj) (o : op) : option (Z * bobj) :=
  match o with
  | AddInt n sz e => btf__add_int alloc_ok b n sz e
  | AddFloat n sz => btf__add_float alloc_ok b n sz
  | AddPtr r => btf__add_ptr alloc_ok b r
  | AddArray i e n => btf__add_array alloc_ok b i e n
  | AddStruct n sz => btf__add_struct alloc_ok b n sz
  | AddUnion n sz => btf__add_union alloc_ok b n sz
  | AddField n t off sz => btf__add_field alloc_ok b n t off sz
  | AddEnum n sz => btf__add_enum alloc_ok b n sz
  | AddEnumValue n v => btf__add_enum_value alloc_ok b n v
  | AddEnum64 n sz s => btf__add_enum64 alloc_ok b n sz s
  | AddEnum64Value n v => btf__add_enum64_value alloc_ok b n v
  | AddFwd n k => btf__add_fwd alloc_ok b n k
  | AddTypedef n r => btf__add_typedef alloc_ok b n r
  | AddVolatile r => btf__add_volatile alloc_ok b r
  | AddConst r => btf__add_const alloc_ok b r
  | AddRestrict r => btf__add_restrict alloc_ok b r
  | AddTypeTag v r => btf__add_type_tag alloc_ok b v r
  | AddFunc n l p => btf__add_func alloc_ok b n l p
  | AddFuncProto r => btf__add_func_proto alloc_ok b r
  | AddFuncParam n t => btf__add_func_param alloc_ok b n t
  | AddVar n l t => btf__add_var alloc_ok b n l t
  | AddDatasec n sz => btf__add_datasec alloc_ok b n sz
  | AddDatasecVarInfo v off sz => btf__add_datasec_var_info alloc_ok b v off sz
  | AddDeclTag v r c => btf__add_decl_tag alloc_ok b v r c
  end.

Fixpoint run_ops (alloc_ok : Z -> bool) (b : bobj) (os : list op) : option (list Z * bobj) :=
  match os with
  | [] => Some ([], b)
  | o :: os =>
      '(r, b) ← run_op alloc_ok b o;
      '(rs, b) ← run_ops alloc_ok b os;
      Some (r :: rs, b)
  end.

(** What a call is to do: be refused with an error code, append a type, or
    append a member to the last type and set its kind flag. *)
Inductive action :=
  | Refuse (err : Z)
  | Append (d : desc)
  | Extend (it : item) (kflag : Z).

(** A type of kind [k] without members. *)
Definition plain (k : Z) (name : option (list Z)) (vlen kflag word : Z) (rest : list Z) : action :=
  Append {| d_name := name_of name; d_kind := k; d_vlen := vlen; d_kflag := kflag; d_word := word;
            d_items := raw_items rest |}.

Definition guard (ok : bool) (a : action) : action := if ok then a else Refuse (- EINVAL).

(** [f] of the last type when it is of one of the kinds. *)
Definition on_last (ds : list desc) (ks : list kind) (f : desc -> action) : action :=
  match ds with
  | d :: _ => guard (bool_decide (kind_of (d_kind d) ∈ ks)) (f d)
  | [] => Refuse (- EINVAL)
  end.

Definition id_ok (id : Z) : bool := 0 <=? id.

Definition named_ok (name : option (list Z)) : bool := negb (name_empty name).

Definition one_of (x : Z) (l : list Z) : bool := existsb (Z.eqb x) l.

Definition ref_spec (k : Z) (name : option (list Z)) (ref : Z) : action :=
  guard (id_ok ref) (plain k name 0 0 ref []).

Definition op_spec (ds : list desc) (o : op) : action :=
  match o with
  | AddInt n sz e =>
      guard (named_ok n && (one_of sz [1; 2; 4; 8; 16] && ((0 <=? e) && (e <? 8))))
        (plain 1 n 0 0 sz [e * 16777216 + sz * 8])
  | AddFloat n sz => guard (named_ok n && one_of sz [2; 4; 8; 12; 16]) (plain 16 n 0 0 sz [])
  | AddPtr r => ref_spec 2 None r
  | AddArray i e n => guard (id_ok i && id_ok e) (plain 3 None 0 0 0 [e; i; n])
  | AddStruct n sz => plain 4 n 0 0 sz []
  | AddUnion n sz => plain 5 n 0 0 sz []
  | AddField n t off sz =>
      on_last ds [KIND_STRUCT; KIND_UNION] (λ d,
        let bitfield := negb (sz =? 0) || negb (off mod 8 =? 0) in
        guard (id_ok t && (negb bitfield || (0 <? sz) && (sz <=? 255) && (off <=? 16777215)) &&
               (negb (d_kind d =? 5) || (off =? 0)))
          (Extend (Some (name_of n), [t; off + sz * 16777216])
             (if bitfield then 1 else d_kflag d)))
  | AddEnum n sz => guard (one_of sz [1; 2; 4; 8]) (plain 6 n 0 0 sz [])
  | AddEnumValue n v =>
      on_last ds [KIND_ENUM] (λ d,
        guard (named_ok n)
          (if (- 2147483648 <=? v) && (v <? 4294967296)
           then Extend (Some (name_of n), [u32 v]) (if v <? 0 then 1 else d_kflag d)
           else Refuse (- E2BIG)))
  | AddEnum64 n sz s => guard (one_of sz [1; 2; 4; 8]) (plain 19 n 0 (bool_to_Z s) sz [])
  | AddEnum64Value n v =>
      on_last ds [KIND_ENUM64] (λ d,
        guard (named_ok n) (Extend (Some (name_of n), [v mod 4294967296; v / 4294967296]) (d_kflag d)))
  | AddFwd n k =>
      guard (named_ok n)
        match k with
        | BTF_FWD_STRUCT => plain 7 n 0 0 0 []
        | BTF_FWD_UNION => plain 7 n 0 1 0 []
        | BTF_FWD_ENUM => plain 6 n 0 0 4 []
        | BTF_FWD_OTHER => Refuse (- EINVAL)
        end
  | AddTypedef n r => guard (named_ok n) (ref_spec 8 n r)
  | AddVolatile r => ref_spec 9 None r
  | AddConst r => ref_spec 10 None r
  | AddRestrict r => ref_spec 11 None r
  | AddTypeTag v r => guard (named_ok v) (ref_spec 18 v r)
  | AddFunc n l p =>
      guard (named_ok n && (one_of l [0; 1; 2] && id_ok p)) (plain 12 n l 0 p [])
  | AddFuncProto r => ref_spec 13 None r
  | AddFuncParam n t =>
      guard (id_ok t)
        (on_last ds [KIND_FUNC_PROTO] (λ d, Extend (Some (name_of n), [t]) (d_kflag d)))
  | AddVar n l t =>
      guard (named_ok n && (one_of l [0; 1; 2] && id_ok t)) (plain 14 n 0 0 t [l])
  | AddDatasec n sz => guard (named_ok n) (plain 15 n 0 0 sz [])
  | AddDatasecVarInfo v off sz =>
      on_last ds [KIND_DATASEC] (λ d, guard (id_ok v) (Extend (None, [v; off; sz]) (d_kflag d)))
  | AddDeclTag v r c =>
      guard (named_ok v && (-1 <=? c) && id_ok r) (plain 17 v 0 0 r [u32 c])
  end.

(** The return value and the types after it; the types are listed from the
    last one down. *)
Definition act (ds : list desc) (a : action) : Z * list desc :=
  match a, ds with
  | Refuse err, _ => (err, ds)
  | Append d, _ => (Z.of_nat (length ds) + 1, d :: ds)
  | Extend it f, d :: ds => (0, with_member d it f :: ds)
  | Extend _ _, [] => (- EINVAL, [])
  end.

(** The results a list of calls may have: each call does what it is to do, or
    runs out of memory and changes no type. *)
Inductive spec_run (oom : Prop) : list desc -> list op -> list Z -> list desc -> Prop :=
  | spec_nil ds : spec_run oom ds [] [] ds
  | spec_cons ds o os r ds1 rs ds2 :
      (r, ds1) = act ds (op_spec ds o) \/ r = - ENOMEM /\ ds1 = ds /\ oom ->
      spec_run oom ds1 os rs ds2 -> spec_run oom ds (o :: os) (r :: rs) ds2.

(** The arguments are values of their C types, the strings C strings. *)
Definition int_ok (v : Z) : Prop := - 2 ^ 31 <= v < 2 ^ 31.

Definition op_wf (o : op) : Prop :=
  match o with
  | AddInt n sz e => name_ok n /\ 0 <= sz /\ int_ok e
  | AddFloat n sz => name_ok n /\ 0 <= sz
  | AddStruct n sz | AddUnion n sz | AddEnum n sz | AddEnum64 n sz _ | AddDatasec n sz =>
      name_ok n /\ word_ok sz
  | AddPtr r | AddVolatile r | AddConst r | AddRestrict r | AddFuncProto r => int_ok r
  | AddArray i e n => int_ok i /\ int_ok e /\ word_ok n
  | AddField n t off sz => name_ok n /\ int_ok t /\ word_ok off /\ word_ok sz
  | AddEnumValue n v => name_ok n /\ - 2 ^ 63 <= v < 2 ^ 63
  | AddEnum64Value n v => name_ok n /\ 0 <= v < 2 ^ 64
  | AddFwd n _ => name_ok n
  | AddTypedef n r | AddTypeTag n r | AddFuncParam n r => name_ok n /\ int_ok r
  | AddFunc n l t | AddVar n l t => name_ok n /\ int_ok l /\ int_ok t
  | AddDatasecVarInfo v off sz => int_ok v /\ word_ok off /\ word_ok sz
  | AddDeclTag n r c => name_ok n /\ int_ok r /\ int_ok c
  end.

(** The bytes of strings a call may add. *)
Definition op_cost (o : op) : Z :=
  match o with
  | AddInt n _ _ | AddFloat n _ | AddStruct n _ | AddUnion n _ | AddField n _ _ _ | AddEnum n _
  | AddEnumValue n _ | AddEnum64 n _ _ | AddEnum64Value n _ | AddFwd n _ | AddTypedef n _
  | AddTypeTag n _ | AddFunc n _ _ | AddFuncParam n _ | AddVar n _ _ | AddDatasec n _
  | AddDeclTag n _ _ => name_cost n
  | AddPtr _ | AddArray _ _ _ | AddVolatile _ | AddConst _ | AddRestrict _ | AddFuncProto _
  | AddDatasecVarInfo _ _ _ => 1
  end.

Definition ops_cost (os : list op) : Z := foldr Z.add 0 (map op_cost os).

(** ** The operations do what they promise *)

Lemma byte_sz_pow2 x m :
  0 <= x -> In m [8; 16] ->
  (x =? 0) || negb (Z.land x (x - 1) =? 0) || (x >? m) =
  negb (one_of x (if m =? 8 then [1; 2; 4; 8] else [1; 2; 4; 8; 16])).
Proof.
  intros Hx Hm.
  assert (Hc : x = 0 \/ x = 1 \/ x = 2 \/ x = 3 \/ x = 4 \/ x = 5 \/ x = 6 \/ x = 7 \/ x = 8 \/ x = 9 \/
    x = 10 \/ x = 11 \/ x = 12 \/ x = 13 \/ x = 14 \/ x = 15 \/ x = 16 \/ 16 < x) by lia.
  destruct Hm as [<-|[<-|[]]]; (repeat destruct Hc as [->|Hc]; [reflexivity..|]);
    rewrite (proj2 (Z.gtb_lt x _)), orb_true_r by lia; simpl; lia.
Qed.

Lemma encoding_ok e : negb (Z.land e (Z.lnot 7) =? 0) = negb ((0 <=? e) && (e <? 8)).
Proof.
  f_equal. rewrite <- Z.ldiff_land. change 7 with (Z.ones 3). rewrite Z.ldiff_ones_r by lia.
  rewrite Z.shiftl_mul_pow2, Z.shiftr_div_pow2 by lia. change (2 ^ 3) with 8.
  apply eq_true_iff_eq. rewrite andb_true_iff, Z.eqb_eq, Z.leb_le, Z.ltb_lt.
  Z.to_euclidean_division_equations. lia.
Qed.

Lemma validate_spec id : int_ok id -> validate_type_id id = negb (id_ok id).
Proof.
  unfold int_ok, validate_type_id, id_ok. intros H. rewrite <- Z.ltb_antisym.
  destruct (id >? _) eqn:E; [lia|]. by rewrite orb_false_r.
Qed.

Lemma size_of_parts k v f : info_ok k v f ->
  BTF_INFO_KIND (btf_type_info k v f) = k /\ BTF_INFO_VLEN (btf_type_info k v f) = v.
Proof. intros H. by destruct (type_info_parts k v f H) as (_ & ? & ? & _). Qed.

(** The words a member of each kind takes. *)
Definition member_words (k : kind) : Z :=
  match k with
  | KIND_STRUCT | KIND_UNION | KIND_ENUM64 | KIND_DATASEC => 3
  | KIND_ENUM | KIND_FUNC_PROTO => 2
  | _ => 0
  end.

Lemma member_ok n d it f :
  d_ok n d -> 0 <= n -> n + 1 < 65533 -> 0 <= f < 2 -> 0 < item_words it ->
  member_words (kind_of (d_kind d)) = item_words it -> d_ok (n + 1) (with_member d it f).
Proof.
  intros Hd Hn0 Hn Hf Hit Hk. pose proof (d_ok_info _ _ Hd ltac:(lia)) as Hi.
  destruct Hd as (H1 & H2 & H3 & Hs). unfold d_ok, with_member, d_info in *.
  cbn [d_kind d_vlen d_kflag d_items] in *. split_and!; [lia..|].
  assert (Hi' : info_ok (d_kind d) (d_vlen d + 1) f) by (unfold info_ok in *; lia).
  unfold size_of_info in *. destruct (size_of_parts _ _ _ Hi) as [E1 E2]. rewrite E1, E2 in Hs.
  destruct (size_of_parts _ _ _ Hi') as [-> ->].
  assert (Hw : items_words (d_items d ++ [it]) = items_words (d_items d) + item_words it).
  { unfold items_words. rewrite map_app. induction (map item_words (d_items d)); simpl in *; lia. }
  rewrite Hw. unfold member_words in Hk. destruct (kind_of (d_kind d)); lia.
Qed.

Lemma inc_vlen_member n d it :
  d_ok n d -> n + 2 < 65536 -> btf_type_inc_vlen (d_info d) = d_info (with_member d it (d_kflag d)).
Proof. intros Hd Hn. by apply inc_vlen_parts, (d_ok_info n). Qed.

Lemma binv_last n S b d ds : binv n S b (d :: ds) -> d_ok n d.
Proof.
  intros [(_ & [=] & _)|(wss & l & [_ _ _ _ _ _ Hok _ _])]. by apply Forall_cons in Hok as [? _].
Qed.

Section Steps.
Context (alloc_ok : Z -> bool) (n S : Z) (b : bobj) (ds : list desc).
Context (Hb : binv n S b ds) (Hn : 0 <= n).

(** The call [c] does the action [a], adding at most [cost] bytes of strings,
    or fails for want of memory. *)
Definition does (c : option (Z * bobj)) (cost : Z) (a : action) : Prop :=
  exists r b' ds', c = Some (r, b') /\ binv (n + 1) (S + cost) b' ds' /\
    ((r, ds') = act ds a \/ r = - ENOMEM /\ ds' = ds /\ oom alloc_ok).

Lemma does_refuse err cost : 0 <= cost -> does (Some (err, b)) cost (Refuse err).
Proof.
  intros. exists err, b, ds. split_and!; [done| |by left]. apply (binv_mono alloc_ok n _ S); (done || lia).
Qed.

Lemma does_guard (bad : bool) ok c cost a :
  bad = negb ok -> 0 <= cost -> (ok = true -> does c cost a) ->
  does (if bad then Some (- EINVAL, b) else c) cost (guard ok a).
Proof. intros -> Hc H. destruct ok; simpl; [by apply H|by apply does_refuse]. Qed.

(** Two tests after each other. *)
Lemma does_guard2 (bad : bool) ok1 ok2 c cost a :
  bad = negb ok1 -> 0 <= cost -> (ok1 = true -> does c cost (guard ok2 a)) ->
  does (if bad then Some (- EINVAL, b) else c) cost (guard (ok1 && ok2) a).
Proof. intros -> Hc H. destruct ok1; simpl; [by apply H|by apply does_refuse]. Qed.

Lemma does_append name k v f word rest sz :
  sizes_ok (n + 1) (S + name_cost name) -> name_ok name -> word_ok word -> Forall word_ok rest ->
  (length rest <= 3)%nat -> sz = 4 * (3 + Z.of_nat (length rest)) ->
  0 <= k < 32 -> 0 <= v < 3 -> 0 <= f < 2 ->
  size_of_info (btf_type_info k v f) = sz ->
  does (add_type_words alloc_ok b sz name (btf_type_info k v f) word rest) (name_cost name)
    (plain k name v f word rest).
Proof.
  intros Hsz Hname Hword Hrest Hlen -> Hk Hv Hf Hsize.
  set (d := {| d_name := name_of name; d_kind := k; d_vlen := v; d_kflag := f; d_word := word;
               d_items := raw_items rest |}).
  assert (Hok : d_ok (n + 1) d).
  { split_and!; cbn [d d_kind d_vlen d_kflag d_items]; try lia. unfold d_info. simpl.
    rewrite Hsize. unfold items_words. destruct rest as [|w rest]; simpl; unfold item_words; simpl; lia. }
  destruct (add_type_words_spec alloc_ok n S b ds name d rest Hb Hsz Hn Hname eq_refl eq_refl Hok
    Hword Hrest Hlen) as (r & b' & Hc & [(-> & Ho & Hb')|(-> & wss & l & Hb')]).
  - exists (- ENOMEM), b', ds. split_and!; [done|done|by right].
  - exists (Z.of_nat (length ds) + 1), b', (d :: ds). split_and!; [done| |by left].
    right. by do 2 eexists.
Qed.

Lemma does_extend d ds0 name words f sz new_info :
  let it := member_item name words in
  ds = d :: ds0 -> sizes_ok (n + 1) (S + member_cost name) -> default True (name_ok <$> name) ->
  Forall word_ok words -> 0 < item_words it -> member_words (kind_of (d_kind d)) = item_words it ->
  sz = 4 * item_words it -> 0 <= f < 2 ->
  (forall n, n + 3 < 65536 -> d_ok n d -> new_info (d_info d) = d_info (with_member d it f)) ->
  does (add_member_words alloc_ok b sz name words new_info) (member_cost name) (Extend it f).
Proof.
  intros it Eds [Hsz1 Hsz2] Hname Hwords Hpos Hk -> Hf Hinfo.
  pose proof Hb as Hb0. rewrite Eds in Hb0. pose proof (binv_last _ _ _ _ _ Hb0) as Hd.
  assert (H3 : item_words it <= 3) by (rewrite <- Hk; destruct (kind_of _); simpl; lia).
  destruct (add_member_words_spec alloc_ok n S b d ds0 name words f new_info Hb0)
    as (r & b' & Hc & Hres); try done.
  { by apply (Hinfo n); [lia|]. }
  { apply member_ok; (done || lia). }
  fold it in Hc. destruct Hres as [(-> & Ho & Hb')|(-> & wss & l & Hb')].
  - exists (- ENOMEM), b', ds. rewrite Eds. split_and!; [done|done|by right].
  - exists 0, b', (with_member d it f :: ds0). rewrite Eds. split_and!; [done| |by left].
    right. by do 2 eexists.
Qed.
End Steps.

Section Calls.
Context (alloc_ok : Z -> bool) (n S : Z) (b : bobj) (ds : list desc).
Context (Hb : binv n S b ds) (Hn : 0 <= n).

(** Appending a type, with the side conditions on constants decided. *)
Ltac append := apply does_append; try done; try (simpl; lia); try reflexivity; try (unfold word_ok; lia).

Lemma word_of_id id : int_ok id -> id_ok id = true -> word_ok id.
Proof. unfold int_ok, id_ok, word_ok. intros ? ?%Z.leb_le. lia. Qed.

Lemma name_cost_pos name : 0 <= name_cost name.
Proof. unfold name_cost. lia. Qed.

Lemma does_ref k name ref :
  sizes_ok (n + 1) (S + name_cost name) -> name_ok name -> int_ok ref -> 0 <= k < 32 ->
  size_of_info (btf_type_info k 0 0) = 12 ->
  does alloc_ok n S ds (btf_add_ref_kind alloc_ok b k name ref) (name_cost name) (ref_spec k name ref).
Proof.
  intros Hsz Hname Href Hk Hs. unfold btf_add_ref_kind, ref_spec.
  apply (does_guard _ _ _ b); [done|by apply validate_spec|apply name_cost_pos|].
  intros Hid. append. by apply word_of_id.
Qed.

Lemma on_last_guard ks c cost f :
  sizes_ok n S -> 0 <= cost ->
  (forall d ds0, ds = d :: ds0 -> kind_of (d_kind d) ∈ ks -> does alloc_ok n S ds c cost (f d)) ->
  does alloc_ok n S ds
    (ok ← last_type_is b ks; if negb (ok : bool) then Some (- EINVAL, b) else c) cost (on_last ds ks f).
Proof.
  intros Hsz Hcost H. rewrite (last_type_is_spec alloc_ok _ _ _ _ _ Hb Hsz). cbn [mbind option_bind].
  unfold on_last. destruct ds as [|d ds0] eqn:E.
  - apply (does_refuse _ _ _ b); done.
  - apply (does_guard _ _ _ b); [done|done|done|]. intros Hk%bool_decide_eq_true. by eapply H.
Qed.

Lemma does_field name t off sz :
  sizes_ok n S -> sizes_ok (n + 1) (S + name_cost name) -> op_wf (AddField name t off sz) ->
  does alloc_ok n S ds (btf__add_field alloc_ok b name t off sz) (name_cost name)
    (op_spec ds (AddField name t off sz)).
Proof.
  intros Hsz Hsz' (Hname & Ht & Hoff & Hbs). unfold btf__add_field. cbn [op_spec].
  apply on_last_guard; [done|apply name_cost_pos|]. intros d ds0 Eds Hk. cbv zeta.
  set (bf := negb (sz =? 0) || negb (off mod 8 =? 0)).
  rewrite <- andb_assoc. apply (does_guard2 _ _ _ b); [done|by apply validate_spec|apply name_cost_pos|].
  intros Hid. apply (does_guard2 _ _ _ b); [done| |apply name_cost_pos|].
  { unfold word_ok in *. destruct bf; simpl; [|done]. destruct (Z.eqb_spec sz 0), (Z.ltb_spec 0 sz); lia. }
  intros Hbf. rewrite (last_type_is_spec alloc_ok _ _ _ _ _ Hb Hsz), Eds. cbn [mbind option_bind].
  assert (Hu : bool_decide (kind_of (d_kind d) ∈ [KIND_UNION]) = (d_kind d =? 5)).
  { apply eq_true_iff_eq. rewrite bool_decide_eq_true, Z.eqb_eq. split; [|intros ->; by left].
    intros [Hkk|?%not_elem_of_nil]%elem_of_cons; [|done]. revert Hkk. unfold kind_of. intros Hkk. repeat case_match; congruence || lia. }
  rewrite Hu. rewrite <- Eds.
  apply (does_guard _ _ _ b); [done| |apply name_cost_pos|].
  { by destruct (d_kind d =? 5), (off =? 0). }
  intros _.
  assert (Hw : u32 (Z.lor off (Z.shiftl sz 24)) = off + sz * 16777216).
  { unfold word_ok in *. destruct (Z.eq_dec sz 0) as [->|Hne].
    - rewrite Z.shiftl_0_l, Z.lor_0_r, wrap_small by (pow2; lia). lia.
    - assert (bf = true) as E by (unfold bf; by rewrite (proj2 (Z.eqb_neq sz 0))).
      rewrite E in Hbf. simpl in Hbf. zbool.
      rewrite Z.lor_comm, lor_shiftl_add, wrap_small by (pow2; lia). lia. }
  rewrite Hw. assert (Hwok : word_ok (off + sz * 16777216)).
  { rewrite <- Hw. apply wrap_range. lia. }
  apply (does_extend _ _ _ _ _ Hb Hn d ds0 (Some name) [t; off + sz * 16777216]); try done.
  - repeat apply Forall_cons_2; [by apply word_of_id|done|done].
  - set_unfold in Hk. by destruct Hk as [->|[->|[]]].
  - pose proof Hb as Hb0. rewrite Eds in Hb0. apply binv_last in Hb0 as (_ & _ & ? & _). destruct bf; lia.
  - intros n' Hn' Hd. pose proof (d_ok_info _ _ Hd ltac:(lia)) as Hi. unfold d_info at 1 2 3.
    destruct (type_info_parts _ _ _ Hi) as (_ & -> & -> & ->). unfold d_info. cbn [with_member d_kind d_vlen d_kflag].
    f_equal. destruct bf; [done|]. destruct Hi as (_ & _ & ?). cbn [orb].
    destruct (Z.eqb_spec (d_kflag d) 0); simpl; lia.
Qed.

Lemma does_enum_value name v :
  sizes_ok n S -> sizes_ok (n + 1) (S + name_cost name) -> op_wf (AddEnumValue name v) ->
  does alloc_ok n S ds (btf__add_enum_value alloc_ok b name v) (name_cost name)
    (op_spec ds (AddEnumValue name v)).
Proof.
  intros Hsz Hsz' (Hname & Hv). unfold btf__add_enum_value. cbn [op_spec].
  apply on_last_guard; [done|apply name_cost_pos|]. intros d ds0 Eds Hk.
  apply (does_guard _ _ _ b); [done|by unfold named_ok; rewrite negb_involutive|apply name_cost_pos|].
  intros _.
  assert (E : (v <? - 2147483648) || (v >? UINT32_MAX) = negb ((- 2147483648 <=? v) && (v <? 4294967296))) by lia.
  rewrite E. destruct ((- 2147483648 <=? v) && (v <? 4294967296)) eqn:Hr; cbn [negb].
  2: { apply (does_refuse _ _ _ b); [done|apply name_cost_pos]. }
  apply (does_extend _ _ _ _ _ Hb Hn d ds0 (Some name) [u32 v]); try done.
  - repeat apply Forall_cons_2; [by apply wrap_range|done].
  - set_unfold in Hk. by destruct Hk as [->|[]].
  - pose proof Hb as Hb0. rewrite Eds in Hb0. apply binv_last in Hb0 as (_ & _ & ? & _). destruct (v <? 0); lia.
  - intros n' Hn' Hd. pose proof (d_ok_info _ _ Hd ltac:(lia)) as Hi. destruct (v <? 0).
    + rewrite (inc_vlen_member n' d (member_item (Some name) [u32 v])) by (done || lia). unfold d_info.
      cbn [with_member d_kind d_vlen d_kflag].
      assert (Hi' : info_ok (d_kind d) (d_vlen d + 1) (d_kflag d)).
      { destruct Hd as (_ & ? & _). destruct Hi as (? & ? & ?). unfold info_ok. lia. }
      by destruct (size_of_parts _ _ _ Hi') as [-> ->].
    + apply (inc_vlen_member n'); (done || lia).
Qed.

(** The other members: the parent's flag stays. *)
Lemma does_member ks k d ds0 name words c cost :
  sizes_ok (n + 1) (S + member_cost name) -> default True (name_ok <$> name) ->
  Forall word_ok words -> kind_of (d_kind d) ∈ ks -> ks = [k] -> ds = d :: ds0 ->
  member_words k = item_words (member_item name words) ->
  c = add_member_words alloc_ok b (4 * member_words k) name words btf_type_inc_vlen ->
  0 < member_words k -> member_cost name <= cost ->
  does alloc_ok n S ds c cost (Extend (member_item name words) (d_kflag d)).
Proof.
  intros Hsz Hname Hwords Hk -> Eds Hmw -> Hpos Hcost. apply list_elem_of_singleton in Hk.
  pose proof Hb as Hb0. rewrite Eds in Hb0. apply binv_last in Hb0 as (_ & _ & Hf & _).
  destruct (does_extend alloc_ok _ _ _ _ Hb Hn d ds0 name words (d_kflag d) (4 * member_words k) btf_type_inc_vlen)
    as (r & b' & ds' & H1 & H2 & H3); try (done || lia).
  - by rewrite Hk.
  - intros n' Hn' Hd. apply (inc_vlen_member n'); (done || lia).
  - exists r, b', ds'. split_and!; [done| |done]. apply (binv_mono alloc_ok (n + 1) _ (S + member_cost name)); (done || lia).
Qed.

(** Appending a type whose info word is corrected afterwards. *)
Lemma does_set_info name k v f ref :
  sizes_ok (n + 1) (S + name_cost name) -> name_ok name -> int_ok ref -> 0 <= k < 32 ->
  size_of_info (btf_type_info k 0 0) = 12 -> size_of_info (btf_type_info k v f) = 12 ->
  0 <= v < 3 -> 0 <= f < 2 ->
  does alloc_ok n S ds
    ('(id, b) ← btf_add_ref_kind alloc_ok b k name ref;
     if id <=? 0 then Some (id, b) else
     b ← set_info b id (btf_type_info k v f); Some (id, b))
    (name_cost name) (guard (id_ok ref) (plain k name v f ref [])).
Proof.
  intros Hsz Hname Href Hk Hs0 Hs Hv Hf.
  destruct (does_ref k name ref Hsz Hname Href Hk Hs0) as (r & b' & ds' & -> & Hb' & Hc).
  cbn [mbind option_bind]. unfold ref_spec in Hc.
  assert (Hfail : r <= 0 -> (r, ds') = act ds (guard (id_ok ref) (plain k name v f ref [])) \/
                            r = - ENOMEM /\ ds' = ds /\ oom alloc_ok ->
    does alloc_ok n S ds (if r <=? 0 then Some (r, b') else
       b ← set_info b' r (btf_type_info k v f); Some (r, b))
     (name_cost name) (guard (id_ok ref) (plain k name v f ref []))).
  { intros Hr Hcase. destruct (Z.leb_spec r 0); [|lia]. by exists r, b', ds'. }
  destruct Hc as [Hc|(-> & -> & Ho)]; [|apply Hfail; [lia|by right]].
  destruct (id_ok ref) eqn:Hid; cbn [guard plain act] in *; injection Hc as -> ->.
  2: { apply Hfail; [lia|by left]. }
  destruct (Z.leb_spec (Z.of_nat (length ds) + 1) 0); [lia|].
  destruct Hb' as [(_ & [=] & _)|(wss & l & Hinv)].
  destruct (set_info_spec alloc_ok _ _ _ _ _ _ _ v f Hinv Hsz) as (b2 & wss' & Hset & Hinv').
  { destruct Hsz. unfold d_ok, with_info, d_info. cbn [d_kind d_vlen d_kflag d_items]. rewrite Hs.
    unfold items_words. split_and!; simpl; lia. }
  cbn [d_kind] in Hset. rewrite Hset. cbn [mbind option_bind].
  eexists _, _, _. split; [done|]. split; [right; by do 2 eexists|]. by left.
Qed.

(** Every call does what it is to do. *)
Lemma run_op_spec o :
  sizes_ok n S -> sizes_ok (n + 1) (S + op_cost o) -> op_wf o ->
  does alloc_ok n S ds (run_op alloc_ok b o) (op_cost o) (op_spec ds o).
Proof.
  intros Hsz Hsz' Hwf. pose proof name_cost_pos as Hcp.
  assert (Hne : forall name, name_empty name = negb (named_ok name))
    by (intros; unfold named_ok; by rewrite negb_involutive).
  destruct o; cbn [run_op op_wf op_cost] in *.
  - destruct Hwf as (Hname & Hbs & He). unfold btf__add_int. cbn [op_spec].
    apply (does_guard2 _ _ _ b); [done|done|done|]. intros _.
    apply (does_guard2 _ _ _ b); [done|by rewrite (byte_sz_pow2 _ 16) by (simpl; tauto)|done|]. intros Hone.
    apply (does_guard _ _ _ b); [done|apply encoding_ok|done|]. intros Henc.
    simpl in Hone.
    rewrite lor_shiftl_add, wrap_small by (pow2; lia). append.
    apply Forall_cons_2; [unfold word_ok; lia|done].
  - destruct Hwf as (Hname & Hbs). unfold btf__add_float. cbn [op_spec].
    apply (does_guard2 _ _ _ b); [done|done|done|]. intros _. 
    apply (does_guard _ _ _ b); [done|simpl; lia|done|]. simpl. intros Hone. append.
  - by apply does_ref.
  - destruct Hwf as (Hi & He & Hnr). unfold btf__add_array. cbn [op_spec].
    apply (does_guard _ _ _ b); [done|by rewrite !validate_spec, negb_andb|lia|].
    intros [? ?]%andb_prop. append.
    repeat apply Forall_cons_2; [by apply word_of_id|by apply word_of_id|done|done].
  - destruct Hwf. append.
  - destruct Hwf. append.
  - by apply does_field.
  - destruct Hwf. unfold btf__add_enum, btf_add_enum_common. cbn [op_spec].
    apply (does_guard _ _ _ b); [done|by rewrite (byte_sz_pow2 _ 8) by first [unfold word_ok in *; lia|simpl; tauto]|done|].
    intros _. append.
  - by apply does_enum_value.
  - destruct Hwf. unfold btf__add_enum64, btf_add_enum_common. cbn [op_spec].
    apply (does_guard _ _ _ b); [done|by rewrite (byte_sz_pow2 _ 8) by first [unfold word_ok in *; lia|simpl; tauto]|done|].
    intros _. destruct is_signed; append.
  - destruct Hwf as (Hname & Hv). unfold btf__add_enum64_value. cbn [op_spec].
    apply on_last_guard; [done|done|]. intros d ds0 Eds Hk.
    apply (does_guard _ _ _ b); [done|done|done|]. intros _.
    assert (E : [u32 value; u32 (Z.shiftr value 32)] = [value mod 4294967296; value / 4294967296]).
    { rewrite Z.shiftr_div_pow2 by lia. do 2 f_equal. apply wrap_small.
      change (2 ^ 64) with 18446744073709551616 in Hv. pow2. Z.to_euclidean_division_equations. lia. }
    rewrite <- E. apply (does_member [KIND_ENUM64] KIND_ENUM64 d ds0 (Some name)); try done.
    repeat apply Forall_cons_2; try (by apply wrap_range); done.
  - unfold btf__add_fwd. cbn [op_spec].
    apply (does_guard _ _ _ b); [done|done|done|]. intros Hnamed.
    destruct fwd_kind; [by apply (does_set_info name 7 0 0 0)|by apply (does_set_info name 7 0 1 0)| |].
    + change (btf__add_enum alloc_ok b name 4)
        with (add_type_words alloc_ok b 12 name (btf_type_info 6 0 0) 4 []). append.
    + by apply (does_refuse _ _ _ b).
  - destruct Hwf. unfold btf__add_typedef. cbn [op_spec].
    apply (does_guard _ _ _ b); [done|done|done|]. intros _. by apply does_ref.
  - by apply does_ref.
  - by apply does_ref.
  - by apply does_ref.
  - destruct Hwf. unfold btf__add_type_tag. cbn [op_spec].
    apply (does_guard _ _ _ b); [done|done|done|]. intros _. by apply does_ref.
  - destruct Hwf as (Hname & Hl & Hp). unfold btf__add_func. cbn [op_spec].
    apply (does_guard2 _ _ _ b); [done|done|done|]. intros _.
    apply (does_guard2 _ _ _ b); [done|simpl; lia|done|]. intros Hone.
    assert (Hl3 : linkage = 0 \/ linkage = 1 \/ linkage = 2) by (simpl in Hone; lia).
    destruct (does_set_info name 12 linkage 0 proto) as (r & b' & ds' & H1 & H2);
      [done|done|done|lia|done|by destruct Hl3 as [->|[->| ->]]|lia|lia|].
    exists r, b', ds'. split; [|done]. rewrite <- H1. destruct (btf_add_ref_kind _ _ _ _ _) as [[id b1]|]; [|done].
    cbn [mbind option_bind]. rewrite Z.gtb_ltb, Z.ltb_antisym. by destruct (id <=? 0).
  - unfold btf__add_func_proto. cbn [op_spec]. unfold ref_spec.
    apply (does_guard _ _ _ b); [done|by apply validate_spec|lia|]. intros Hid. append.
    by apply word_of_id.
  - destruct Hwf as (Hname & Ht). unfold btf__add_func_param. cbn [op_spec].
    apply (does_guard _ _ _ b); [done|by apply validate_spec|done|]. intros Hid.
    apply on_last_guard; [done|done|]. intros d ds0 Eds Hk.
    apply (does_member [KIND_FUNC_PROTO] KIND_FUNC_PROTO d ds0 (Some name)); try done.
    apply Forall_cons_2; [by apply word_of_id|done].
  - destruct Hwf as (Hname & Hl & Ht). unfold btf__add_var. cbn [op_spec].
    apply (does_guard2 _ _ _ b); [done|done|done|]. intros _.
    apply (does_guard2 _ _ _ b); [done|simpl; lia|done|]. intros Hone. simpl in Hone.
    apply (does_guard _ _ _ b); [done|by apply validate_spec|done|]. intros Hid.
    append; [by apply word_of_id|]. apply Forall_cons_2; [unfold word_ok; lia|done].
  - destruct Hwf. unfold btf__add_datasec. cbn [op_spec].
    apply (does_guard _ _ _ b); [done|done|done|]. intros _. append.
  - destruct Hwf as (Hv & Hoff & Hbs). unfold btf__add_datasec_var_info. cbn [op_spec].
    apply on_last_guard; [done|lia|]. intros d ds0 Eds Hk.
    apply (does_guard _ _ _ b); [done|by apply validate_spec|lia|]. intros Hid.
    apply (does_member [KIND_DATASEC] KIND_DATASEC d ds0 None); try done.
    + destruct Hsz'. split; simpl; lia.
    + by repeat apply Forall_cons_2; [apply word_of_id|..].
  - destruct Hwf as (Hname & Hr & Hc). unfold btf__add_decl_tag. cbn [op_spec].
    apply (does_guard2 _ _ _ b); [done| |done|].
    { rewrite Hne, Z.ltb_antisym. by rewrite negb_andb. }
    intros _. apply (does_guard _ _ _ b); [done|by apply validate_spec|done|]. intros Hid.
    append; [by apply word_of_id|]. apply Forall_cons_2; [by apply wrap_range|done].
Qed.
End Calls.

Lemma run_ops_spec alloc_ok os : forall n S b ds,
  binv n S b ds -> 0 <= n -> n + Z.of_nat (length os) < 65533 -> S + ops_cost os <= INT_MAX ->
  Forall op_wf os ->
  exists rs b' ds', run_ops alloc_ok b os = Some (rs, b') /\ spec_run (oom alloc_ok) ds os rs ds' /\
    binv (n + Z.of_nat (length os)) (S + ops_cost os) b' ds'.
Proof.
  assert (Hcost : forall o, 0 <= op_cost o)
    by (intros []; simpl; try apply name_cost_pos; lia).
  assert (Hcosts : forall os, 0 <= ops_cost os).
  { intros l. unfold ops_cost. induction l as [|o l IH]; simpl; [lia|]. specialize (Hcost o). lia. }
  induction os as [|o os IH]; intros n S b ds Hb Hn Hlen HS Hwf.
  { exists [], b, ds. split_and!; [done|constructor|]. unfold ops_cost. simpl. by rewrite !Z.add_0_r. }
  apply Forall_cons in Hwf as [Ho Hwf]. cbn [length run_ops] in *.
  change (ops_cost (o :: os)) with (op_cost o + ops_cost os) in *.
  pose proof (Hcost o). pose proof (Hcosts os).
  destruct (run_op_spec alloc_ok n S b ds Hb Hn o) as (r & b1 & ds1 & -> & Hb1 & Hc);
    [split; lia|split; lia|done|]. cbn [mbind option_bind].
  destruct (IH (n + 1) (S + op_cost o) b1 ds1) as (rs & b2 & ds2 & -> & Hrun & Hb2); try (done || lia).
  cbn [mbind option_bind]. exists (r :: rs), b2, ds2. split_and!; [done|by econstructor|].
  replace (n + Z.of_nat (Datatypes.S (length os))) with (n + 1 + Z.of_nat (length os)) by lia.
  by rewrite Z.add_assoc.
Qed.

(** ** Writing the object out and loading it again *)

Lemma bhdr_length tl sl : length (bhdr tl sl) = 24%nat.
Proof. done. Qed.

Lemma bhdr_bytes_ok tl sl : bytes_ok (bhdr tl sl).
Proof.
  unfold bhdr. apply bytes_ok_app. split; [|apply bytes_of_ok].
  repeat (constructor; [unfold is_byte; lia|]). constructor.
Qed.

Lemma last_ld8 pre l : last l = Some 0 -> ld8 (pre ++ l) (Z.of_nat (length pre) + Z.of_nat (length l) - 1) = Some 0.
Proof.
  intros Hl. destruct (decide (l = [])) as [->|Hne]; [done|].
  rewrite last_lookup in Hl. assert (length l <> 0%nat) by (by destruct l).
  unfold ld8. destruct (Z.ltb_spec (Z.of_nat (length pre) + Z.of_nat (length l) - 1) 0); [lia|].
  rewrite lookup_app_r by lia. rewrite <- Hl. f_equal. lia.
Qed.

Lemma ld8_behind_pre pre l k : ld8 (pre ++ l) (Z.of_nat (length pre) + Z.of_nat k) = l !! k.
Proof.
  unfold ld8. destruct (Z.ltb_spec (Z.of_nat (length pre) + Z.of_nat k) 0); [lia|].
  rewrite lookup_app_r by lia. f_equal. lia.
Qed.

Lemma cstr_behind pre l off : 0 <= off -> cstr (pre ++ l) (Z.of_nat (length pre) + off) = cstr l off.
Proof.
  intros H. unfold cstr. destruct (Z.ltb_spec off 0); [lia|].
  destruct (Z.ltb_spec (Z.of_nat (length pre) + off) 0); [lia|].
  rewrite drop_app_ge by lia. do 2 f_equal. lia.
Qed.

(** The written image. *)
Definition image (wss : list (list Z)) (l : list Z) : list Z :=
  bhdr (types_len wss) (Z.of_nat (length l)) ++ types_bytes wss ++ l.

Lemma build_spec alloc_ok n S b ds :
  binv n S b ds -> sizes_ok n S -> (forall n, alloc_ok n = true) ->
  exists wss l b', build_raw_data alloc_ok b
      = Some (Some (image wss l, 24 + types_len wss + Z.of_nat (length l)), b') /\
    Forall2 (rep_desc l) (reverse ds) wss /\ Forall (d_ok n) ds /\
    (bytes_ok l /\ l !! 0%nat = Some 0 /\ last l = Some 0) /\
    Z.of_nat (length l) <= INT_MAX /\ types_len wss <= 24 * n.
Proof.
  intros [(-> & -> & Hn & HS)|(wss & l & Hinv)] Hsz Ha.
  { exists [], [0], new_obj. destruct Hsz. split_and!; try done; try (simpl; unfold types_len; simpl; lia).
    constructor; [unfold is_byte; lia|constructor]. }
  destruct (split_inv_len _ _ _ _ _ _ _ Hinv) as (_ & _ & Hl & Ht & Hlw).
  destruct Hinv as [(slack & set & A & Hrep & _ & Hc & Hset & Hu & _) Hraw _ _ _ Hds Hok Hs (_ & Hz & _)].
  exists wss, l. unfold build_raw_data. rewrite Hrep, Hraw.
  destruct (bhdr_reads _ _ Ht Hlw) as (-> & _ & -> & _ & ->). cbn [mbind option_bind].
  destruct Hsz. rewrite (wrap_small 32) by (unfold types_len in *; pow2; lia). rewrite Ha. cbn [negb].
  set (hdr := bhdr _ _). assert (Hhl : length hdr = 24%nat) by done.
  assert (Hbh : bytes_ok hdr) by apply bhdr_bytes_ok.
  replace (Z.to_nat 24) with (length hdr) by done. rewrite ld_bytes_all. cbn [mbind option_bind].
  assert (Hz0 : replicate (Z.to_nat (24 + types_len wss + Z.of_nat (length l))) 0 =
    replicate 24 0 ++ replicate (length (types_bytes wss)) 0 ++ replicate (length l) 0).
  { rewrite <- !replicate_add. f_equal. unfold types_len. lia. }
  assert (Hbt : bytes_ok (types_bytes wss)).
  { apply Forall_concat, Forall_map, Forall_forall. intros. apply bytes_of_ok. }
  rewrite Hz0, st_bytes_start by (done || by rewrite length_replicate). cbn [mbind option_bind].
  rewrite (ld_bytes_start (types_bytes wss)) by (unfold types_len; lia). cbn [mbind option_bind].
  rewrite (st_bytes_at (types_bytes wss)) by (done || by rewrite length_replicate). cbn [mbind option_bind].
  assert (Hld : ld_bytes (StrSet.strs_data set) 0 (Z.to_nat (Z.of_nat (length l))) = Some l).
  { rewrite <- (take_drop (Z.to_nat (strs_data_len set)) (StrSet.strs_data set)).
    fold (in_use set). rewrite Hu. apply ld_bytes_start. lia. }
  rewrite Hld. cbn [mbind option_bind].
  rewrite (app_assoc hdr), <- (app_nil_r (replicate (length l) 0)).
  rewrite (st_bytes_at l); [|rewrite length_app; unfold types_len; lia|by rewrite length_replicate|tauto].
  cbn [mbind option_bind]. eexists. split; [|done]. by rewrite app_nil_r, <- app_assoc.
Qed.

(** What a loaded object says about the type [id]: its words, its name, its
    members. *)
Definition name_str (b : btf) (off : Z) (s : list Z) : Prop :=
  exists m o, btf__name_by_offset b off = Some (Some (m, o)) /\ cstr m o = Some s.

Definition words_at (m : list Z) (p : Z) (ws : list Z) : Prop :=
  forall i w, ws !! i = Some w -> ld32 m (p + 4 * Z.of_nat i) = Some w.

Fixpoint items_at (b : btf) (m : list Z) (p : Z) (its : list item) : Prop :=
  match its with
  | [] => True
  | it :: its =>
      match it.1 with
      | None => words_at m p it.2
      | Some s => exists off, ld32 m p = Some off /\ name_str b off s /\ words_at m (p + 4) it.2
      end /\ items_at b m (p + 4 * item_words it) its
  end.

Definition described (b : btf) (id : Z) (d : desc) : Prop :=
  exists m off name_off, btf__type_by_id b id = Some (Some (TAt m off)) /\
    t_name_off (TAt m off) = Some name_off /\ name_str b name_off (d_name d) /\
    t_info (TAt m off) = Some (d_info d) /\ t_size (TAt m off) = Some (d_word d) /\
    items_at b m (off + 12) (d_items d).

Lemma words_at_bytes pre ws post p :
  Forall word_ok ws -> p = Z.of_nat (length pre) -> words_at (pre ++ bytes_of ws ++ post) p ws.
Proof.
  intros Hw -> i w Hi. eapply ld32_word; [done| |done]. by eapply Forall_lookup_1 in Hw.
Qed.

Lemma items_at_bytes b l its iws :
  (forall off s, cstr l off = Some s -> name_str b off s) ->
  Forall2 (rep_item l) its iws -> Forall word_ok (concat iws) ->
  forall pre post, items_at b (pre ++ bytes_of (concat iws) ++ post) (Z.of_nat (length pre)) its.
Proof.
  intros Hname. induction 1 as [|it ws its iws Hit Hits IH]; intros Hw pre post; [done|].
  cbn [concat] in *. apply Forall_app in Hw as [Hw1 Hw2]. rewrite bytes_of_app, <- app_assoc.
  pose proof (rep_item_length _ _ _ Hit) as Hl. cbn [items_at]. split.
  - unfold rep_item in Hit. destruct (it.1) as [s|]; [|by rewrite <- Hit; apply words_at_bytes].
    destruct Hit as (off & -> & Hc). exists off. apply Forall_cons in Hw1 as [Hoff Hw1].
    cbn [bytes_of flat_map]. rewrite <- app_assoc. split_and!.
    + by apply ld32_at.
    + by apply Hname.
    + rewrite (app_assoc pre). apply words_at_bytes; [done|]. rewrite length_app. simpl. lia.
  - rewrite (app_assoc pre). replace (Z.of_nat (length pre) + 4 * item_words it)
      with (Z.of_nat (length (pre ++ bytes_of ws))) by (rewrite length_app, bytes_of_length; lia).
    by apply IH.
Qed.

(** The conditions the loader checks hold of the written image. *)
Lemma image_ok wss l :
  word_ok (types_len wss) -> Z.of_nat (length l) <= INT_MAX ->
  l !! 0%nat = Some 0 -> last l = Some 0 ->
  let tl := types_len wss in let sl := Z.of_nat (length l) in
  ld16 (image wss l) 0 = Some BTF_MAGIC /\ hdr_ok (image wss l) 24 0 tl tl sl /\
  strs_ok (image wss l) (24 + tl) sl false.
Proof.
  intros Ht Hl H0 Hlast tl sl. assert (Hsl : word_ok sl) by (unfold word_ok, sl; lia).
  assert (Hpos : 0 < sl) by (apply lookup_lt_Some in H0; unfold sl; lia).
  assert (Hil : Z.of_nat (length (image wss l)) = 24 + tl + sl).
  { unfold image. rewrite !length_app, bhdr_length. unfold tl, types_len, sl. lia. }
  assert (Hrd : forall k, 0 <= k -> k + 4 <= 24 -> ld32 (image wss l) k = ld32 (bhdr tl sl) k).
  { intros k Hk1 Hk2. apply ld32_prefix; [done|]. rewrite bhdr_length. lia. }
  destruct (bhdr_reads tl sl Ht Hsl) as (E1 & E2 & E3 & E4 & E5).
  unfold hdr_len, hdr_type_off, hdr_type_len, hdr_str_off, hdr_str_len in *. split_and!.
  - done.
  - split; unfold hdr_len, hdr_type_off, hdr_type_len, hdr_str_off, hdr_str_len;
      rewrite ?Hrd by lia; try done; unfold word_ok in *; lia.
  - right. unfold image. rewrite app_assoc. set (pre := bhdr _ _ ++ types_bytes wss).
    assert (Hpre : 24 + tl = Z.of_nat (length pre))
      by (unfold pre; rewrite length_app, bhdr_length; unfold tl, types_len; lia).
    rewrite Hpre. split_and!; [lia|unfold sl; lia|by apply last_ld8|].
    intros _. rewrite <- H0. rewrite <- (ld8_behind_pre pre l 0). by rewrite Z.add_0_r.
Qed.

(** Loading it again gives every type back. *)
Lemma reload_spec alloc_ok n ds wss l :
  (forall n, alloc_ok n = true) -> 0 <= n < 65533 ->
  Forall2 (rep_desc l) (reverse ds) wss -> Forall (d_ok n) ds ->
  bytes_ok l /\ l !! 0%nat = Some 0 /\ last l = Some 0 ->
  Z.of_nat (length l) <= INT_MAX -> types_len wss <= 24 * n ->
  exists b', btf_new alloc_ok (image wss l) (24 + types_len wss + Z.of_nat (length l)) None
      = Some (inr b') /\ btf_ok b' /\ btf__type_cnt b' = Z.of_nat (length ds) + 1 /\
    forall i d, reverse ds !! i = Some d -> described b' (Z.of_nat i + 1) d.
Proof.
  intros Ha Hn Hds Hok (Hlb & H0 & Hlast) Hl Htl.
  assert (Htw : word_ok (types_len wss)) by (unfold word_ok, types_len in *; lia).
  destruct (image_ok wss l Htw Hl H0 Hlast) as (Hmg & Hh & Hst).
  assert (Hr : Forall rec_ok (map bytes_of wss)).
  { apply Forall_map. eapply Forall2_Forall_r; [exact Hds|]. rewrite Forall_reverse.
    eapply Forall_impl; [exact Hok|]. intros d Hd ws Hrep. by eapply rep_desc_rec. }
  set (sl := Z.of_nat (length l)) in *. set (tl := types_len wss) in *.
  destruct (load_image alloc_ok false (bhdr tl sl) (map bytes_of wss) l None tl sl)
    as (b' & Hnew & Hraw & _ & Htd & Hsd & Hidx); try done; [by apply bhdr_bytes_ok|lia|].
  change (btf_new alloc_ok (image wss l) (24 + tl + sl) None = Some (inr b')) in Hnew. exists b'. split; [exact Hnew|].
  assert (Hil : Z.of_nat (length (image wss l)) = 24 + tl + sl).
  { unfold image. rewrite !length_app, bhdr_length. unfold tl, types_len, sl. lia. }
  assert (Hib : bytes_ok (image wss l)).
  { unfold image. rewrite !bytes_ok_app. split_and!; [apply bhdr_bytes_ok| |done].
    by apply bytes_ok_concat. }
  destruct (btf_new_spec alloc_ok (image wss l) None Hib) as (r & Hr2 & Hcase); [lia|done|].
  rewrite Hil, Hnew in Hr2. injection Hr2 as <-. destruct Hcase as [Hbok Hbase].
  destruct (type_cnt_eq b' Hbok) as [Hcnt _].
  pose proof (proj1 (btf_ok_unfold b') Hbok) as (_ & _ & _ & _ & Hids). rewrite Hbase in Hids.
  destruct Hids as [Hsid Hsoff]. pose proof Hidx as [_ _ Hnr Hsm _ Hget].
  pose proof (Forall2_length _ _ _ Hds) as Hlen. rewrite length_reverse in Hlen.
  rewrite length_offsets, length_map in Hnr. split; [done|]. split; [lia|].
  assert (Hname : forall off s, cstr l off = Some s -> name_str b' off s).
  { intros off s Hc. pose proof (cstr_bounds _ _ _ Hc) as (Ho & Hb & _).
    exists (raw_data b'), (Btf.strs_data b' + off). split.
    - assert (E : btf__name_by_offset b' off =
        if off <? u32 (start_str_off b') then
          match base_btf b' with None => None | Some bb => btf__str_by_offset bb off end
        else sl ← hdr_str_len (raw_data b');
          Some (if u32 (off - start_str_off b') <? sl
                then Some (raw_data b', Btf.strs_data b' + u32 (off - start_str_off b')) else None))
        by (by destruct b').
      rewrite E, Hsoff, Hraw. change (u32 0) with 0. destruct (Z.ltb_spec off 0); [lia|].
      fold (types_bytes wss). change (bhdr tl sl ++ types_bytes wss ++ l) with (image wss l).
      rewrite (h_str_len _ _ _ _ _ _ Hh). cbn [mbind option_bind]. rewrite Z.sub_0_r, wrap_small by (pow2; lia).
      destruct (Z.ltb_spec off sl); [done|unfold sl in *; lia].
    - rewrite Hraw, Hsd, app_assoc, <- Hc. fold (types_bytes wss).
      replace (24 + tl) with (Z.of_nat (length (bhdr tl sl ++ types_bytes wss)))
        by (rewrite length_app, bhdr_length; unfold tl, types_len; lia).
      by apply cstr_behind. }
  intros i d Hi. destruct (Forall2_lookup_l _ _ _ _ _ Hds Hi) as (ws & Hws & Hd).
  pose proof (lookup_lt_Some _ _ _ Hws) as Hlt.
  destruct (offsets_lookup (map bytes_of wss) 0 i) as (r & Hri & Hoi & Hcat); [by rewrite length_map|].
  rewrite list_lookup_fmap, Hws in Hri. injection Hri as <-.
  set (pre := bhdr tl sl ++ concat (take i (map bytes_of wss))).
  set (post := concat (drop (Datatypes.S i) (map bytes_of wss)) ++ l).
  assert (Hm : raw_data b' = pre ++ bytes_of ws ++ post).
  { rewrite Hraw, Hcat. unfold pre, post. by rewrite <- !app_assoc. }
  destruct Hd as (off & iws & -> & Hn1 & Hits & Hwo).
  assert (Hoff : types_data b' + (0 + Z.of_nat (length (concat (take i (map bytes_of wss)))))
    = Z.of_nat (length pre)) by (unfold pre; rewrite length_app, bhdr_length, Htd; lia).
  exists (raw_data b'), (Z.of_nat (length pre)), off.
  pose proof (words_at_bytes pre _ post _ Hwo eq_refl) as Hwat. rewrite <- Hm in Hwat.
  split_and!.
  - unfold btf__type_by_id. fold (btf__type_cnt b'). destruct (_ >=? btf__type_cnt b') eqn:?; [lia|].
    assert (E : btf_type_by_id b' (Z.of_nat i + 1) =
      if Z.of_nat i + 1 =? 0 then Some TVoid else
      if Z.of_nat i + 1 <? u32 (start_id b') then
        match base_btf b' with None => None | Some bb => btf_type_by_id bb (Z.of_nat i + 1) end
      else o ← ld32 (type_offs b') (4 * u32 (Z.of_nat i + 1 - start_id b'));
           Some (TAt (raw_data b') (types_data b' + o))) by (by destruct b').
    rewrite E, Hsid. change (u32 1) with 1. destruct (Z.eqb_spec (Z.of_nat i + 1) 0); [lia|].
    destruct (Z.ltb_spec (Z.of_nat i + 1) 1); [lia|].
    rewrite (wrap_small 32) by (pow2; lia).
    replace (4 * (Z.of_nat i + 1 - 1)) with (4 * Z.of_nat i) by lia.
    rewrite Hget, Hoi by (rewrite length_offsets, length_map; lia). cbn [mbind option_bind].
    by rewrite Hoff.
  - rewrite <- (Hwat 0%nat off eq_refl). by rewrite Z.add_0_r.
  - by apply Hname.
  - by apply (Hwat 1%nat).
  - by apply (Hwat 2%nat).
  - rewrite Hm. change (off :: d_info d :: d_word d :: concat iws)
      with ([off; d_info d; d_word d] ++ concat iws) in *.
    rewrite bytes_of_app, <- app_assoc, (app_assoc pre).
    replace (Z.of_nat (length pre) + 12) with (Z.of_nat (length (pre ++ bytes_of [off; d_info d; d_word d])))
      by (rewrite length_app, bytes_of_length; simpl; lia).
    apply (items_at_bytes b' l); [done|done|]. by apply Forall_app in Hwo as [_ ?].
Qed.

(** C4: building types and loading them back.  From an empty object, any list
    of fewer than 65533 calls of the [btf__add_*] functions of [op], with any
    arguments and whatever sizes of requests the allocator refuses, stays
    within the object's memory; each call has the
    effect and the result its specification gives - a refusal, a new type
    with the next id, or a new member of the last type - or reports ENOMEM
    and changes no type.  The data then written out is accepted by
    [btf_new], and the loaded object has exactly the specified types, under
    the ids the calls returned, with their names and members. *)
Theorem btf_build_roundtrip alloc_ok b0 os :
  btf_new_empty alloc_ok None = Some (inr b0) ->
  Forall op_wf os -> Z.of_nat (length os) < 65533 -> 1 + ops_cost os <= INT_MAX ->
  exists rs b ds, run_ops alloc_ok (of_btf b0 None) os = Some (rs, b) /\
    spec_run (exists n, alloc_ok n = false) [] os rs ds /\
    forall alloc_ok', (forall n, alloc_ok' n = true) ->
    exists data sz b1 b', build_raw_data alloc_ok' b = Some (Some (data, sz), b1) /\
      btf_new alloc_ok' data sz None = Some (inr b') /\ btf_ok b' /\
      btf__type_cnt b' = Z.of_nat (length ds) + 1 /\
      forall i d, reverse ds !! i = Some d -> described b' (Z.of_nat i + 1) d.
Proof.
  intros Hnew Hwf Hlen Hcost.
  assert (b0 = empty_btf None 1 0 1) as ->.
  { revert Hnew. unfold btf_new_empty. destruct (alloc_ok 120); [|done]. cbn [negb mbind option_bind].
    destruct (alloc_ok (24 + 1)); [|done]. intros [= <-]. done. }
  destruct (run_ops_spec alloc_ok os 0 1 new_obj []) as (rs & b & ds & Hrun & Hspec & Hb);
    [by left|done|done|done|done|].
  exists rs, b, ds. split; [done|]. split; [done|]. intros alloc_ok' Ha.
  destruct (build_spec alloc_ok' _ _ _ _ Hb) as (wss & l & b1 & Hbuild & Hds & Hok & Hl & Hmax & Htl);
    [split; lia|done|].
  destruct (reload_spec alloc_ok' (0 + Z.of_nat (length os)) ds wss l)
    as (b' & Hload & Hbok & Hcnt & Hdesc); try (done || lia).
  by exists (image wss l), (24 + types_len wss + Z.of_nat (length l)), b1, b'.
Qed.

(** ** Concrete runs *)

Definition ex_ops : list op :=
  [AddInt (Some (lit "int")) 4 1; AddStruct (Some (lit "pair")) 8;
   AddField (Some (lit "x")) 1 0 0; AddField (Some (lit "y")) 1 32 0; AddPtr 2;
   AddField (Some (lit "z")) 1 64 0; AddFwd (Some (lit "u")) BTF_FWD_UNION;
   AddEnum None 4; AddEnumValue (Some (lit "NEG")) (-1)].

Lemma btf_build_roundtrip_witness :
  exists rs b, run_ops always (of_btf (empty_btf None 1 0 1) None) ex_ops = Some (rs, b) /\
    rs = [1; 2; 0; 0; 3; - EINVAL; 4; 5; 0].
Proof.
  destruct (btf_build_roundtrip always (empty_btf None 1 0 1) ex_ops) as (rs & b & ds & Hrun & _).
  - reflexivity.
  - assert (Hs : forall s, forallb (λ b, (1 <=? b) && (b <? 256)) s = true -> Z.of_nat (length s) < 2 ^ 60 -> str_ok s).
    { intros s Hb Hl. rewrite forallb_forall in Hb. split_and!; [| |done]; apply Forall_forall; intros c Hc;
        apply list_elem_of_In, Hb in Hc; zbool; unfold is_byte; lia. }
    unfold ex_ops. repeat apply Forall_cons_2; try apply Forall_nil_2; cbn [op_wf name_ok];
      split_and?; try (apply Hs; [reflexivity|simpl; lia]); try exact I; unfold int_ok, word_ok; try lia.
  - vm_compute. reflexivity.
  - vm_compute. congruence.
  - exists rs, b. split; [exact Hrun|]. vm_compute in Hrun. injection Hrun as <- _. reflexivity.
Defined.

(** The number of members is not checked: the 65536th member of a type
    leaves it with none. *)
Fact inc_vlen_overflow :
  BTF_INFO_VLEN (btf_type_inc_vlen (btf_type_info 4 65535 0)) = 0.
Proof. reflexivity. Qed.

(** A bit-field added to a struct sets the kind flag, under which the offset
    of an earlier member past 2^24 bits reads as a bit-field: the first
    member, 16777216 bits into the struct, becomes one of size 1 at offset 0. *)
Fact kflag_reinterprets :
  match run_ops always new_obj
          [AddInt (Some (lit "int")) 4 1; AddStruct (Some (lit "big")) 2097160;
           AddField (Some (lit "far")) 1 16777216 0; AddField (Some (lit "bits")) 1 0 3] with
  | Some (rs, b) =>
      rs = [1; 2; 0; 0] /\
      match btf_last_type b with
      | Some (m, off) => ld32 m (off + 4) = Some (btf_type_info 4 2 1) /\
          ld32 m (off + 12 + 8) = Some (Z.lor 0 (Z.shiftl 1 24))
      | None => False
      end
  | None => False
  end.
Proof. vm_compute. repeat split. Qed.

(** Data whose header claims to be 20 bytes long is accepted, and the copy of
    the header made by the first change is then too short for its fields:
    adding a string writes behind it. *)
Definition short_hdr_image : list Z :=
  [159; 235; 1; 0] ++ bytes_of [20; 4; 0; 4; 1] ++ [0].

Fact short_hdr_overflow :
  match btf_new always short_hdr_image 25 None with
  | Some (inr b) => btf__add_str always (of_btf b None) (lit "s") = None
  | _ => False
  end.
Proof. vm_compute. reflexivity. Qed.
