(* ===== verification/CoreTypes.v ===== *)
(** * Types of CO-RE relocations (src/plugin/libbpf-test/libbpf/src/libbpf.c
    and the inline functions of btf.h)

    The accessors of BTF types, skipping of modifiers and typedefs, essential
    names, and the comparison of types for type relocations.  The comparison
    is proved to decide the compatibility of the trees the types stand for.
    An outer [None] is undefined behaviour, or a loop that does not end (used
    up its fuel). *)

From S2P Require Import Prelude StrSet Btf.

(** ** Types (btf.h) *)

Definition kind_is (t : tptr) (ks : list kind) : option bool :=
  k ← btf_kind t; Some (bool_decide (kind_of k ∈ ks)).

Definition btf_is_composite (t : tptr) := kind_is t [KIND_STRUCT; KIND_UNION].
Definition btf_is_any_enum (t : tptr) := kind_is t [KIND_ENUM; KIND_ENUM64].
Definition btf_is_enum (t : tptr) := kind_is t [KIND_ENUM].
Definition btf_is_array (t : tptr) := kind_is t [KIND_ARRAY].
Definition btf_is_ptr (t : tptr) := kind_is t [KIND_PTR].
Definition btf_is_int (t : tptr) := kind_is t [KIND_INT].
Definition btf_is_mod_or_typedef (t : tptr) :=
  kind_is t [KIND_VOLATILE; KIND_CONST; KIND_RESTRICT; KIND_TYPE_TAG; KIND_TYPEDEF].

Definition any_enum (k : Z) : bool := bool_decide (kind_of k ∈ [KIND_ENUM; KIND_ENUM64]).

Definition kinds_compat (k1 k2 : Z) : bool := (k1 =? k2) || any_enum k1 && any_enum k2.

Definition btf_kind_core_compat (t1 t2 : tptr) : option bool :=
  k1 ← btf_kind t1; k2 ← btf_kind t2; Some (kinds_compat k1 k2).

Definition btf_kflag (t : tptr) : option bool :=
  i ← t_info t; Some (negb (Z.shiftr i 31 =? 0)).

Definition btf_int_encoding (t : tptr) : option Z :=
  w ← t_word t 0; Some (Z.shiftr (Z.land w 251658240) 24).

Definition btf_int_offset (t : tptr) : option Z :=
  w ← t_word t 0; Some (Z.shiftr (Z.land w 16711680) 16).

(** The member [idx]: its name, type and raw offset. *)
Definition member_name_off (t : tptr) (idx : Z) : option Z := t_word t (12 * idx).
Definition member_type (t : tptr) (idx : Z) : option Z := t_word t (12 * idx + 4).
Definition member_offset (t : tptr) (idx : Z) : option Z := t_word t (12 * idx + 8).

Definition btf_member_bit_offset (t : tptr) (idx : Z) : option Z :=
  off ← member_offset t idx; kflag ← btf_kflag t;
  Some (if kflag : bool then Z.land off 16777215 else off).

Definition btf_member_bitfield_size (t : tptr) (idx : Z) : option Z :=
  off ← member_offset t idx; kflag ← btf_kflag t;
  Some (if kflag : bool then Z.shiftr off 24 else 0).

(** Name and value of an enumerator. *)
Definition enum_name_off (t : tptr) (idx : Z) : option Z :=
  e ← btf_is_enum t; t_word t ((if e : bool then 8 else 12) * idx).

(** The element type and the number of elements of an array. *)
Definition array_type (t : tptr) : option Z := t_word t 0.
Definition array_nelems (t : tptr) : option Z := t_word t 8.

(** The string at an offset; the inner [None] is a NULL pointer. *)
Definition name_at (b : btf) (off : Z) : option (option (list Z)) :=
  p ← btf__name_by_offset b off;
  match p with
  | None => Some None
  | Some (m, o) => s ← cstr m o; Some (Some s)
  end.

Definition str_is_empty (s : option (list Z)) : bool :=
  match s with None | Some [] => true | Some (_ :: _) => false end.

(** [btf__resolve_size]; that it remembers the pointer size in the object
    does not show in later calls. *)
Definition resolve_size (b : btf) (id : Z) : option Z :=
  '(sz, _) ← btf__resolve_size b id; Some sz.

(** ** Modifiers and typedefs (libbpf.c) *)

(** The loop reads the kind of whatever it finds, so that the pointer it
    returns is never NULL.  A chain longer than the number of types has
    met a type twice and goes on for ever. *)
Fixpoint skip_loop (fuel : nat) (b : btf) (id : Z) (t : option tptr) : option (tptr * Z) :=
  match fuel with
  | O => None
  | S fuel =>
      t ← t;
      skip ← btf_is_mod_or_typedef t;
      if skip : bool then
        id ← t_size t; t ← btf__type_by_id b id; skip_loop fuel b id t
      else Some (t, id)
  end.

Definition skip_mods_and_typedefs (b : btf) (id : Z) : option (tptr * Z) :=
  t ← btf__type_by_id b id;
  skip_loop (S (S (Z.to_nat (btf__type_cnt b)))) b id t.

(** ** Names (libbpf.c) *)

Definition UNDERSCORE : Z := 95.

Definition char_at (s : list Z) (i : nat) : Z := nth i s 0.

(** [bpf_core_is_flavor_sep(name + i)] *)
Definition bpf_core_is_flavor_sep (s : list Z) (i : nat) : bool :=
  negb (char_at s i =? UNDERSCORE) && (char_at s (i + 1) =? UNDERSCORE) &&
  (char_at s (i + 2) =? UNDERSCORE) && (char_at s (i + 3) =? UNDERSCORE) &&
  negb (char_at s (i + 4) =? UNDERSCORE).

Fixpoint essential_scan (s : list Z) (k : nat) : Z :=
  match k with
  | O => Z.of_nat (length s)
  | S i => if bpf_core_is_flavor_sep s i then Z.of_nat i + 1 else essential_scan s i
  end.

(** Names are shorter than 2^31 bytes, as string sections are. *)
Definition bpf_core_essential_name_len (s : list Z) : Z := essential_scan s (length s - 4).

Definition strncmp (a b : list Z) (n : Z) : Z := strcmp (take (Z.to_nat n) a) (take (Z.to_nat n) b).

(** ** Types as targets of type relocations (libbpf.c) *)

(** [bpf_core_types_are_compat]: [depth] is what is left of the 32 levels;
    the calls for the parameters of a function prototype start with 32 levels
    again, and [fuel] bounds how deep they are nested. *)
Section TypesCompat.
Context (lb tb : btf).

(** The parameters from the [i]-th on; [rec] is the recursive call. *)
Fixpoint params_compat (rec : Z -> Z -> option Z) (lty tty : tptr) (i : Z) (n : nat) : option Z :=
  match n with
  | O => Some 1
  | S n =>
      lp ← t_word lty (8 * i + 4); '(_, lid) ← skip_mods_and_typedefs lb lp;
      tp ← t_word tty (8 * i + 4); '(_, tid) ← skip_mods_and_typedefs tb tp;
      err ← rec lid tid;
      if err <=? 0 then Some err else params_compat rec lty tty (i + 1) n
  end.

(** From the label [recur] on. *)
Fixpoint compat_recur (rec : Z -> Z -> option Z) (depth : nat) (lid tid : Z) : option Z :=
  match depth with
  | O => Some (- EINVAL)
  | S depth =>
      '(lty, lid) ← skip_mods_and_typedefs lb lid;
      '(tty, tid) ← skip_mods_and_typedefs tb tid;
      compat ← btf_kind_core_compat lty tty;
      if negb compat then Some 0 else
      k ← btf_kind lty;
      match kind_of k with
      | KIND_UNKN | KIND_STRUCT | KIND_UNION | KIND_ENUM | KIND_ENUM64 | KIND_FWD => Some 1
      | KIND_INT =>
          lo ← btf_int_offset lty;
          if negb (lo =? 0) then Some 0 else to ← btf_int_offset tty; Some (bool_to_Z (to =? 0))
      | KIND_PTR =>
          lid ← t_size lty; tid ← t_size tty; compat_recur rec depth lid tid
      | KIND_ARRAY =>
          lid ← array_type lty; tid ← array_type tty; compat_recur rec depth lid tid
      | KIND_FUNC_PROTO =>
          lvlen ← btf_vlen lty; tvlen ← btf_vlen tty;
          if negb (lvlen =? tvlen) then Some 0 else
          err ← params_compat rec lty tty 0 (Z.to_nat lvlen);
          if err <=? 0 then Some err else
          lret ← t_size lty; '(_, lid) ← skip_mods_and_typedefs lb lret;
          tret ← t_size tty; '(_, tid) ← skip_mods_and_typedefs tb tret;
          compat_recur rec depth lid tid
      | _ => Some 0
      end
  end.

Fixpoint bpf_core_types_are_compat (fuel : nat) (lid tid : Z) : option Z :=
  match fuel with
  | O => None
  | S fuel =>
      lty ← btf__type_by_id lb lid; lty ← lty;
      tty ← btf__type_by_id tb tid; tty ← tty;
      compat ← btf_kind_core_compat lty tty;
      if negb compat then Some 0
      else compat_recur (bpf_core_types_are_compat fuel) 32 lid tid
  end.
End TypesCompat.

(** ** Modifiers *)

Definition is_mod (k : Z) : bool :=
  bool_decide (kind_of k ∈ [KIND_VOLATILE; KIND_CONST; KIND_RESTRICT; KIND_TYPE_TAG; KIND_TYPEDEF]).

Definition type_at (b : btf) (id : Z) (t : tptr) (k : Z) : Prop :=
  btf__type_by_id b id = Some (Some t) /\ btf_kind t = Some k.

(** The modifiers and typedefs from [id] on, [n] of them, end at the type [t]
    with the id [id']. *)
Inductive skips (b : btf) : nat -> Z -> tptr -> Z -> Prop :=
  | skips_end id t k : type_at b id t k -> is_mod k = false -> skips b 0 id t id
  | skips_mod n id t k id1 t' id' :
      type_at b id t k -> is_mod k = true -> t_size t = Some id1 -> skips b n id1 t' id' ->
      skips b (S n) id t' id'.

Lemma type_by_id_nonneg b : forall id t, btf_type_by_id b id = Some t -> 0 <= id.
Proof.
  induction b as [b IH] using btf_chain_ind. intros id t H.
  destruct (Z.le_gt_cases 0 id) as [|Hneg]; [done|]. exfalso.
  assert (E : btf_type_by_id b id = match base_btf b with None => None | Some bb => btf_type_by_id bb id end).
  { assert (E : btf_type_by_id b id =
      if id =? 0 then Some TVoid else
      if id <? u32 (start_id b) then
        match base_btf b with None => None | Some bb => btf_type_by_id bb id end
      else o ← ld32 (type_offs b) (4 * u32 (id - start_id b)); Some (TAt (raw_data b) (types_data b + o)))
      by (by destruct b).
    rewrite E. destruct (Z.eqb_spec id 0); [lia|].
    pose proof (wrap_range 32 (start_id b) ltac:(lia)). by destruct (Z.ltb_spec id (u32 (start_id b))); [|lia]. }
  rewrite E in H. destruct (base_btf b) as [bb|] eqn:Eb; [|done]. specialize (IH _ eq_refl _ _ H). lia.
Qed.

Lemma type_at_range b id t k : type_at b id t k -> 0 <= id < btf__type_cnt b.
Proof.
  intros [H _]. unfold btf__type_by_id in H. fold (btf__type_cnt b) in H.
  destruct (Z.geb_spec id (btf__type_cnt b)); [done|].
  destruct (btf_type_by_id b id) eqn:E; [|done]. apply type_by_id_nonneg in E. lia.
Qed.

Lemma type_at_det b id t k t' k' : type_at b id t k -> type_at b id t' k' -> t' = t /\ k' = k.
Proof. intros [H1 H2] [H3 H4]. split; congruence. Qed.

Lemma skips_det b n id t id' : skips b n id t id' -> forall m t2 id2, skips b m id t2 id2 ->
  m = n /\ t2 = t /\ id2 = id'.
Proof.
  induction 1 as [id t k Ht Hk|n id t k id1 t' id' Ht Hk Hs H IH]; intros m t2 id2 H2;
    inversion H2 as [? ? k2 Ht2 Hk2|? ? ? k2 ? ? ? Ht2 Hk2 Hs2 H3]; subst;
    destruct (type_at_det _ _ _ _ _ _ Ht Ht2); subst; try congruence; [done|].
  rewrite Hs in Hs2. injection Hs2 as <-. by destruct (IH _ _ _ H3) as (-> & -> & ->).
Qed.

(** The ids of a chain are different, so that it is no longer than the object
    has types. *)
Lemma skips_ids b n id t id' : skips b n id t id' -> exists ids, length ids = S n /\ NoDup ids /\
  forall x, x ∈ ids -> 0 <= x < btf__type_cnt b /\ exists m, (m <= n)%nat /\ skips b m x t id'.
Proof.
  induction 1 as [id t k Ht Hk|n id t k id1 t' id' Ht Hk Hs H (ids & Hl & Hnd & Hin)];
    pose proof (type_at_range _ _ _ _ Ht).
  - exists [id]. split_and!; [done|apply NoDup_singleton|]. intros x ->%list_elem_of_singleton.
    split; [done|]. exists 0%nat. split; [lia|by eapply skips_end].
  - exists (id :: ids). assert (Hid : skips b (S n) id t' id') by by eapply skips_mod.
    split_and!; [by rewrite length_cons, Hl| |].
    + apply NoDup_cons. split; [|done]. intros [_ (m & Hm & Hx)]%Hin.
      destruct (skips_det _ _ _ _ _ Hid _ _ _ Hx) as [-> _]. lia.
    + intros x [->|[Hr (m & Hm & Hx)]%Hin]%elem_of_cons; (split; [done|]).
      * by exists (S n).
      * exists m. split; [lia|done].
Qed.

Lemma skips_length b n id t id' : skips b n id t id' -> (S n <= Z.to_nat (btf__type_cnt b))%nat.
Proof.
  intros (ids & <- & Hnd & Hin)%skips_ids.
  rewrite <- (length_seq (Z.to_nat (btf__type_cnt b)) 0), <- (length_fmap Z.of_nat).
  apply submseteq_length, NoDup_submseteq; [done|]. intros x [Hx _]%Hin.
  apply list_elem_of_fmap. exists (Z.to_nat x). split; [lia|]. apply elem_of_seq. lia.
Qed.

Lemma skip_loop_spec b n id t id' : skips b n id t id' -> forall fuel t0, (n < fuel)%nat ->
  btf__type_by_id b id = Some t0 -> skip_loop fuel b id t0 = Some (t, id').
Proof.
  induction 1 as [id t k [H1 H2] Hk|n id t k id1 t' id' [H1 H2] Hk Hs H IH]; intros [|fuel] t0 Hf Ht; try lia;
    assert (t0 = Some t) as -> by congruence; cbn [skip_loop mbind option_bind];
    unfold btf_is_mod_or_typedef, kind_is; rewrite H2; cbn [mbind option_bind]; fold (is_mod k); rewrite Hk.
  - done.
  - rewrite Hs. cbn [mbind option_bind].
    assert (exists t1, btf__type_by_id b id1 = Some t1) as [t1 E]
      by (inversion H as [? ? ? [E _]|? ? ? ? ? ? ? [E _]]; by eexists).
    rewrite E. cbn [mbind option_bind]. apply IH; [lia|done].
Qed.

(** The fuel is enough for every chain that ends. *)
Lemma skip_mods_spec b n id t id' : skips b n id t id' -> skip_mods_and_typedefs b id = Some (t, id').
Proof.
  intros H. unfold skip_mods_and_typedefs.
  assert (exists t0, btf__type_by_id b id = Some t0) as [t0 E]
    by (inversion H as [? ? ? [E _]|? ? ? ? ? ? ? [E _]]; by eexists).
  rewrite E. cbn [mbind option_bind]. eapply skip_loop_spec; [done| |done].
  pose proof (skips_length _ _ _ _ _ H). lia.
Qed.

Lemma skips_result b n id t id' : skips b n id t id' -> skips b 0 id' t id'.
Proof. induction 1; [by eapply skips_end|done]. Qed.

Lemma skips_kind b n id t id' : skips b n id t id' -> exists k, type_at b id' t k /\ is_mod k = false.
Proof. induction 1; [by eexists|done]. Qed.

(** Conversely, what the loop returns is the end of a chain. *)
Lemma skip_loop_inv fuel b : forall id t0 t id', btf__type_by_id b id = Some t0 ->
  skip_loop fuel b id t0 = Some (t, id') -> exists n, skips b n id t id'.
Proof.
  induction fuel as [|fuel IH]; intros id t0 t id' Ht; [done|]. cbn [skip_loop].
  destruct t0 as [t0|]; [|done]. cbn [mbind option_bind].
  unfold btf_is_mod_or_typedef, kind_is. destruct (btf_kind t0) as [k|] eqn:Hk; [|done].
  cbn [mbind option_bind]. fold (is_mod k). destruct (is_mod k) eqn:Hm.
  - destruct (t_size t0) as [id1|] eqn:Hs; [|done]. cbn [mbind option_bind].
    destruct (btf__type_by_id b id1) as [t1|] eqn:H1; [|done]. cbn [mbind option_bind].
    intros [n Hn]%IH; [|done]. exists (S n). by eapply (skips_mod b n id t0 k id1).
  - intros [= <- <-]. exists 0%nat. by eapply (skips_end b id t0 k).
Qed.

Lemma skip_mods_inv b id t id' : skip_mods_and_typedefs b id = Some (t, id') -> exists n, skips b n id t id'.
Proof.
  unfold skip_mods_and_typedefs. destruct (btf__type_by_id b id) as [t0|] eqn:E; [|done].
  cbn [mbind option_bind]. by apply skip_loop_inv.
Qed.

(** ** What a type id means to type relocations *)

(** Types as trees, without names, modifiers and typedefs. *)
Inductive ctype :=
  | CLeaf (k : Z)
  | CInt (off : Z)
  | CPtr (c : ctype)
  | CArr (c : ctype)
  | CProto (ps : list ctype) (ret : ctype)
  | COther (k : Z).

Lemma ctype_nested_ind (P : ctype -> Prop) :
  (forall k, P (CLeaf k)) -> (forall o, P (CInt o)) -> (forall c, P c -> P (CPtr c)) ->
  (forall c, P c -> P (CArr c)) -> (forall ps ret, Forall P ps -> P ret -> P (CProto ps ret)) ->
  (forall k, P (COther k)) -> forall c, P c.
Proof.
  intros H1 H2 H3 H4 H5 H6. fix IH 1. intros [k|o|c|c|ps ret|k]; [apply H1|apply H2|by apply H3|by apply H4| |apply H6].
  apply H5; [|apply IH]. induction ps as [|p ps IHps]; constructor; [apply IH|apply IHps].
Qed.

(** Kinds that are compatible whatever they contain, and those that never
    are. *)
Definition leaf_kind (k : Z) : bool := bool_decide (k ∈ [0; 4; 5; 6; 7; 19]).
Definition never_kind (k : Z) : bool := bool_decide (k ∉ [0; 4; 5; 6; 7; 19; 1; 2; 3; 13]).

Inductive denotes (b : btf) : Z -> ctype -> Prop :=
  | den_leaf n id t id' k :
      skips b n id t id' -> btf_kind t = Some k -> leaf_kind k = true -> denotes b id (CLeaf k)
  | den_int n id t id' o :
      skips b n id t id' -> btf_kind t = Some 1 -> btf_int_offset t = Some o -> denotes b id (CInt o)
  | den_ptr n id t id' r c :
      skips b n id t id' -> btf_kind t = Some 2 -> t_size t = Some r -> denotes b r c ->
      denotes b id (CPtr c)
  | den_arr n id t id' r c :
      skips b n id t id' -> btf_kind t = Some 3 -> array_type t = Some r -> denotes b r c ->
      denotes b id (CArr c)
  | den_proto n id t id' ps r ret :
      skips b n id t id' -> btf_kind t = Some 13 -> btf_vlen t = Some (Z.of_nat (length ps)) ->
      (forall i p, ps !! i = Some p ->
         exists w, t_word t (8 * Z.of_nat i + 4) = Some w /\ denotes b w p) ->
      t_size t = Some r -> denotes b r ret -> denotes b id (CProto ps ret)
  | den_other n id t id' k :
      skips b n id t id' -> btf_kind t = Some k -> never_kind k = true -> denotes b id (COther k).

(** Compatibility as a comparison of trees. *)
Fixpoint compat (l t : ctype) : bool :=
  match l, t with
  | CLeaf k, CLeaf k' => kinds_compat k k'
  | CInt o, CInt o' => (o =? 0) && (o' =? 0)
  | CPtr l, CPtr t | CArr l, CArr t => compat l t
  | CProto ls lr, CProto ts tr =>
      (fix go ls ts := match ls, ts with
                       | [], [] => true
                       | l :: ls, t :: ts => compat l t && go ls ts
                       | _, _ => false
                       end) ls ts && compat lr tr
  | _, _ => false
  end.

Fixpoint compat_list (ls ts : list ctype) : bool :=
  match ls, ts with
  | [], [] => true
  | l :: ls, t :: ts => compat l t && compat_list ls ts
  | _, _ => false
  end.

(** At most [d] types on the way down through pointers, arrays and return
    types, and at most 32 from each parameter on. *)
Fixpoint shallow (l : ctype) (d : nat) : bool :=
  match d with
  | O => false
  | S d => match l with
           | CPtr l | CArr l => shallow l d
           | CProto ps r => forallb (λ p, shallow p 32) ps && shallow r d
           | _ => true
           end
  end.

(** How deep prototypes are nested as parameters. *)
Fixpoint nest (l : ctype) : nat :=
  match l with
  | CPtr l | CArr l => nest l
  | CProto ps r =>
      Nat.max ((fix go ps := match ps with [] => O | p :: ps => Nat.max (S (nest p)) (go ps) end) ps)
              (nest r)
  | _ => O
  end.

Fixpoint nest_list (ps : list ctype) : nat :=
  match ps with [] => O | p :: ps => Nat.max (S (nest p)) (nest_list ps) end.

Definition outcome (good deep : bool) (r : Z) : Prop :=
  r = 1 /\ good = true \/ r = 0 /\ good = false \/ r = - EINVAL /\ deep = true.

Lemma compat_proto ls lr ts tr :
  compat (CProto ls lr) (CProto ts tr) = compat_list ls ts && compat lr tr.
Proof. reflexivity. Qed.

Lemma nest_proto ps r : nest (CProto ps r) = Nat.max (nest_list ps) (nest r).
Proof. reflexivity. Qed.

Lemma compat_list_length ls : forall ts, length ls <> length ts -> compat_list ls ts = false.
Proof.
  induction ls as [|l ls IH]; intros [|t ts] H; try done. cbn [compat_list]. rewrite IH by (simpl in *; lia).
  apply andb_false_r.
Qed.

(** What is left of the kind of a tree. *)
Definition root_kind (c : ctype) (k : Z) : Prop :=
  match c with
  | CLeaf k' => k = k' /\ leaf_kind k = true
  | CInt _ => k = 1
  | CPtr _ => k = 2
  | CArr _ => k = 3
  | CProto _ _ => k = 13
  | COther k' => k = k' /\ never_kind k = true
  end.

(** The end of the chain of modifiers, and what is found there. *)
Definition denotes_at (b : btf) (t : tptr) (c : ctype) : Prop :=
  match c with
  | CLeaf _ | COther _ => True
  | CInt o => btf_int_offset t = Some o
  | CPtr c => exists r, t_size t = Some r /\ denotes b r c
  | CArr c => exists r, array_type t = Some r /\ denotes b r c
  | CProto ps ret =>
      btf_vlen t = Some (Z.of_nat (length ps)) /\
      (forall i p, ps !! i = Some p -> exists w, t_word t (8 * Z.of_nat i + 4) = Some w /\ denotes b w p) /\
      exists r, t_size t = Some r /\ denotes b r ret
  end.

Lemma denotes_inv b id c : denotes b id c -> exists n t id' k,
  skips b n id t id' /\ btf_kind t = Some k /\ root_kind c k /\ denotes_at b t c.
Proof.
  intros H. inversion H; subst; do 4 eexists; (split; [eassumption|]); (split; [eassumption|]);
    simpl; split_and!; try done; eauto.
Qed.

Lemma denotes_at_intro b n id t id' k c :
  skips b n id t id' -> btf_kind t = Some k -> root_kind c k -> denotes_at b t c -> denotes b id c.
Proof.
  intros Hs Hk Hr Ha. destruct c; simpl in Hr, Ha.
  - destruct Hr as [-> Hr]. by eapply den_leaf.
  - subst k. by eapply den_int.
  - subst k. destruct Ha as (r & Hr & Hd). by eapply den_ptr.
  - subst k. destruct Ha as (r & Hr & Hd). by eapply den_arr.
  - subst k. destruct Ha as (Hv & Hp & r & Hr & Hd). by eapply den_proto.
  - destruct Hr as [-> Hr]. by eapply den_other.
Qed.

(** Modifiers in front do not change the meaning. *)
Lemma denotes_skipped b id c n t id' : denotes b id c -> skips b n id t id' -> denotes b id' c.
Proof.
  intros (n' & t' & id'' & k & Hs & Hk & Hr & Ha)%denotes_inv Hs'.
  destruct (skips_det _ _ _ _ _ Hs _ _ _ Hs') as (-> & -> & ->).
  eapply denotes_at_intro; [by eapply skips_result|done..].
Qed.

Lemma kinds_differ l t k k' : root_kind l k -> root_kind t k' -> kinds_compat k k' = false -> compat l t = false.
Proof.
  destruct l, t; try done; simpl; intros Hl Ht Hk; subst; try done.
  destruct Hl as [-> _], Ht as [-> _]. done.
Qed.

Definition same_shape (l t : ctype) : Prop :=
  match l, t with
  | CLeaf k, CLeaf k' => kinds_compat k k' = true
  | CInt _, CInt _ | CPtr _, CPtr _ | CArr _, CArr _ | CProto _ _, CProto _ _ | COther _, COther _ => True
  | _, _ => False
  end.

Lemma kind_partition k : leaf_kind k = true -> never_kind k = true -> False.
Proof.
  unfold leaf_kind, never_kind. rewrite !bool_decide_eq_true. set_solver.
Qed.

Lemma kinds_agree l t k k' : root_kind l k -> root_kind t k' -> kinds_compat k k' = true -> same_shape l t.
Proof.
  intros Hl Ht Hk. assert (Hcases : k' = k \/ (any_enum k = true /\ any_enum k' = true)).
  { unfold kinds_compat in Hk. destruct (Z.eqb_spec k k'); [by left|right]. by apply andb_true_iff in Hk. }
  assert (Henum : forall x, any_enum x = true -> x = 6 \/ x = 19).
  { intros x Hx. unfold any_enum in Hx. apply bool_decide_eq_true in Hx. unfold kind_of in Hx.
    repeat case_match; set_solver. }
  destruct Hcases as [->|[[->| ->]%Henum [->| ->]%Henum]].
  1: destruct l, t; simpl in *; try done; repeat match goal with H : _ /\ _ |- _ => destruct H end; subst;
      try done; by eapply kind_partition.
  all: destruct l, t; simpl in *; try done; repeat match goal with H : _ /\ _ |- _ => destruct H end; by subst.
Qed.

Section CompatSpec.
Context (lb tb : btf).

Lemma params_compat_spec rec lty tty : forall ps qs i,
  length ps = length qs ->
  (forall j p, ps !! j = Some p -> exists w, t_word lty (8 * Z.of_nat (i + j) + 4) = Some w /\ denotes lb w p) ->
  (forall j q, qs !! j = Some q -> exists w, t_word tty (8 * Z.of_nat (i + j) + 4) = Some w /\ denotes tb w q) ->
  (forall p q a c t t', p ∈ ps -> denotes lb a p -> denotes tb c q -> skips lb 0 a t a -> skips tb 0 c t' c ->
     exists r, rec a c = Some r /\ outcome (compat p q) (negb (shallow p 32)) r) ->
  exists r, params_compat lb tb rec lty tty (Z.of_nat i) (length ps) = Some r /\
    outcome (compat_list ps qs) (negb (forallb (λ p, shallow p 32) ps)) r.
Proof.
  induction ps as [|p ps IH]; intros [|q qs] i Hlen Hp Hq Hrec; try done.
  { exists 1. split; [done|by left]. }
  cbn [params_compat length].
  destruct (Hp 0%nat p eq_refl) as (w & Hw & Hdp). destruct (Hq 0%nat q eq_refl) as (w' & Hw' & Hdq).
  rewrite Nat.add_0_r in Hw, Hw'. rewrite Hw. cbn [mbind option_bind].
  destruct (denotes_inv _ _ _ Hdp) as (n & lt & lid & k & Hs & _).
  destruct (denotes_inv _ _ _ Hdq) as (n' & tt & tid & k' & Hs' & _).
  rewrite (skip_mods_spec _ _ _ _ _ Hs). cbn [mbind option_bind]. rewrite Hw'. cbn [mbind option_bind].
  rewrite (skip_mods_spec _ _ _ _ _ Hs'). cbn [mbind option_bind].
  destruct (Hrec p q lid tid lt tt) as (r & -> & Hr); [by left|by eapply denotes_skipped|by eapply denotes_skipped
    |by eapply skips_result|by eapply skips_result|].
  cbn [mbind option_bind compat_list forallb].
  destruct Hr as [[-> ->]|[[-> ->]|[-> Hdeep]]].
  - cbn. replace (Z.of_nat i + 1) with (Z.of_nat (S i)) by lia.
    destruct (IH qs (S i)) as (r & -> & Hr).
    + by injection Hlen.
    + intros j p' Hj. destruct (Hp (S j) p' Hj) as (x & Hx & Hd). exists x. split; [|done].
      by replace (S i + j)%nat with (i + S j)%nat by lia.
    + intros j q' Hj. destruct (Hq (S j) q' Hj) as (x & Hx & Hd). exists x. split; [|done].
      by replace (S i + j)%nat with (i + S j)%nat by lia.
    + intros p' q' a c t t' Hin. apply Hrec. by right.
    + exists r. split; [done|]. destruct Hr as [[-> ->]|[[-> ->]|[-> Hdeep]]]; [by left|by right; left|right; right].
      split; [done|]. destruct (shallow p 32); done.
  - exists 0. split; [done|]. by right; left.
  - exists (- EINVAL). split; [done|]. right; right. split; [done|]. by destruct (shallow p 32).
Qed.

Abbreviation rec_at fuel := (bpf_core_types_are_compat lb tb fuel) (only parsing).

Lemma types_root fuel lid tid lt tt k k' :
  type_at lb lid lt k -> type_at tb tid tt k' ->
  bpf_core_types_are_compat lb tb (S fuel) lid tid =
    if kinds_compat k k' then compat_recur lb tb (rec_at fuel) 32 lid tid else Some 0.
Proof.
  intros [H1 H2] [H3 H4]. cbn [bpf_core_types_are_compat]. rewrite H1. cbn [mbind option_bind].
  rewrite H3. cbn [mbind option_bind]. unfold btf_kind_core_compat. rewrite H2, H4. cbn [mbind option_bind].
  by destruct (kinds_compat k k').
Qed.

Lemma nest_list_elem p ps : p ∈ ps -> (S (nest p) <= nest_list ps)%nat.
Proof.
  induction ps as [|p' ps IH]; intros Hin; [by inversion Hin|]. cbn [nest_list].
  apply elem_of_cons in Hin as [->|Hin]; [lia|]. specialize (IH Hin). lia.
Qed.

(** The whole comparison, where no modifiers are in front. *)
Lemma types_at_end fuel p q a c u u' :
  denotes lb a p -> denotes tb c q -> skips lb 0 a u a -> skips tb 0 c u' c ->
  (exists r, compat_recur lb tb (rec_at fuel) 32 a c = Some r /\ outcome (compat p q) (negb (shallow p 32)) r) ->
  exists r, rec_at (S fuel) a c = Some r /\ outcome (compat p q) (negb (shallow p 32)) r.
Proof.
  intros Hda Hdc Hsa Hsc Hr.
  inversion Hsa as [? ? ka Hta Hma|]; subst. inversion Hsc as [? ? kc Htc Hmc|]; subst.
  rewrite (types_root _ _ _ _ _ _ _ Hta Htc). destruct (kinds_compat ka kc) eqn:Hac; [done|].
  exists 0. split; [done|]. right; left. split; [done|].
  destruct (denotes_inv _ _ _ Hda) as (m & v & aid & ka' & Hs1 & Hk1 & Hr1 & _).
  destruct (denotes_inv _ _ _ Hdc) as (m' & v' & cid & kc' & Hs2 & Hk2 & Hr2 & _).
  destruct (skips_det _ _ _ _ _ Hsa _ _ _ Hs1) as (_ & <- & _).
  destruct (skips_det _ _ _ _ _ Hsc _ _ _ Hs2) as (_ & <- & _).
  destruct Hta as [_ Hta], Htc as [_ Htc]. eapply kinds_differ; [done|done|congruence].
Qed.

(** Behind the parameters: the return types. *)
Lemma ret_compat_spec fuel d ret tret r r' good deep x :
  denotes lb r ret -> denotes tb r' tret -> outcome good deep x ->
  (forall a c, denotes lb a ret -> denotes tb c tret ->
     exists y, compat_recur lb tb (rec_at fuel) d a c = Some y /\
       outcome (compat ret tret) (negb (shallow ret d)) y) ->
  exists y,
    (if x <=? 0 then Some x else
     '(_, lid) ← skip_mods_and_typedefs lb r;
     '(_, tid) ← skip_mods_and_typedefs tb r';
     compat_recur lb tb (rec_at fuel) d lid tid) = Some y /\
    outcome (good && compat ret tret) (deep || negb (shallow ret d)) y.
Proof.
  intros Hd Hd' Ho Hrec. destruct Ho as [[-> ->]|[[-> ->]|[-> ->]]].
  - cbn [Z.leb Z.compare andb].
    destruct (denotes_inv _ _ _ Hd) as (m & v & rid & ? & Hs1 & _).
    destruct (denotes_inv _ _ _ Hd') as (m' & v' & rid' & ? & Hs2 & _).
    rewrite (skip_mods_spec _ _ _ _ _ Hs1). cbn [mbind option_bind].
    rewrite (skip_mods_spec _ _ _ _ _ Hs2). cbn [mbind option_bind].
    destruct (Hrec rid rid') as (y & -> & Hy); [by eapply denotes_skipped|by eapply denotes_skipped|].
    exists y. split; [done|]. destruct Hy as [?|[?|[? ->]]]; [by left|by right; left|right; right].
    by rewrite orb_true_r.
  - exists 0. split; [done|]. by right; left.
  - exists (- EINVAL). split; [done|]. by right; right.
Qed.

Lemma compat_recur_spec : forall l t lid tid fuel d,
  denotes lb lid l -> denotes tb tid t -> (nest l <= fuel)%nat ->
  exists r, compat_recur lb tb (rec_at fuel) d lid tid = Some r /\
    outcome (compat l t) (negb (shallow l d)) r.
Proof.
  induction l as [lk|lo|l IH|l IH|ps ret IHps IH|lk] using ctype_nested_ind; intros t lid tid fuel d Hl Ht Hf;
    (destruct d as [|d]; [exists (- EINVAL); split; [done|by right; right]|]);
    destruct (denotes_inv _ _ _ Hl) as (n & lty & lid' & k & Hs & Hk & Hr & Ha);
    destruct (denotes_inv _ _ _ Ht) as (n' & tty & tid' & k' & Hs' & Hk' & Hr' & Ha');
    cbn [compat_recur]; rewrite (skip_mods_spec _ _ _ _ _ Hs); cbn [mbind option_bind];
    rewrite (skip_mods_spec _ _ _ _ _ Hs'); cbn [mbind option_bind]; unfold btf_kind_core_compat;
    rewrite Hk, Hk'; cbn [mbind option_bind];
    (destruct (kinds_compat k k') eqn:Hkk; cbn [negb];
     [|exists 0; split; [done|right; left; split; [done|by eapply kinds_differ]]]);
    pose proof (kinds_agree _ _ _ _ Hr Hr' Hkk) as Hsh.
  - destruct t; try done. simpl in Hr. destruct Hr as [-> Hr]. exists 1. split; [|by left].
    unfold leaf_kind in Hr. apply bool_decide_eq_true in Hr.
    assert (Hin : lk = 0 \/ lk = 4 \/ lk = 5 \/ lk = 6 \/ lk = 7 \/ lk = 19) by set_solver.
    by destruct Hin as [->|[->|[->|[->|[->| ->]]]]].
  - destruct t as [|to| | | |]; try done. simpl in Hr, Ha, Ha'. subst k. cbn [kind_of]. rewrite Ha.
    cbn [mbind option_bind compat]. destruct (lo =? 0); cbn [negb andb]; [|exists 0; by split; [|right; left]].
    rewrite Ha'. cbn [mbind option_bind]. eexists. split; [done|].
    destruct (to =? 0); [by left|by right; left].
  - destruct t as [| |t| | |]; try done. simpl in Hr, Ha, Ha'. subst k. cbn [kind_of].
    destruct Ha as (r & -> & Hd), Ha' as (r' & -> & Hd'). cbn [mbind option_bind]. by apply IH.
  - destruct t as [| | |t| |]; try done. simpl in Hr, Ha, Ha'. subst k. cbn [kind_of].
    destruct Ha as (r & -> & Hd), Ha' as (r' & -> & Hd'). cbn [mbind option_bind]. by apply IH.
  - destruct t as [| | | |qs tret|]; try done. simpl in Hr, Ha, Ha'. subst k. cbn [kind_of].
    destruct Ha as (Hv & Hp & r & Hret & Hd), Ha' as (Hv' & Hp' & r' & Hret' & Hd'). rewrite Hv, Hv'.
    cbn [mbind option_bind]. rewrite compat_proto. rewrite nest_proto in Hf.
    destruct (Z.eqb_spec (Z.of_nat (length ps)) (Z.of_nat (length qs))) as [E|E]; cbn [negb].
    2: { exists 0. split; [done|]. right; left. split; [done|].
         rewrite compat_list_length by lia. done. }
    rewrite Nat2Z.id.
    destruct (params_compat_spec (rec_at fuel) lty tty ps qs 0) as (x & Hx & Ho); [lia|done|done| |].
    { intros p q a c u u' Hin Hda Hdc Hsa Hsc. rewrite Forall_forall in IHps.
      pose proof (nest_list_elem p ps Hin). destruct fuel as [|fuel]; [lia|].
      eapply types_at_end; [done..|]. apply IHps; [done|done|done|lia]. }
    change (Z.of_nat 0) with 0 in Hx. rewrite Hx, Hret, Hret'. cbn [mbind option_bind].
    destruct (ret_compat_spec fuel d ret tret r r' _ _ x Hd Hd' Ho) as (y & Hy & Ho').
    { intros a c Hda Hdc. apply IH; [done|done|lia]. }
    exists y. split; [exact Hy|]. cbn [shallow]. by rewrite negb_andb.
  - destruct t; try done. simpl in Hr. destruct Hr as [-> Hr]. exists 0. split; [|by right; left].
    unfold never_kind in Hr. apply bool_decide_eq_true in Hr. unfold kind_of.
    repeat case_match; try done; set_solver.
Qed.
End CompatSpec.

Lemma types_compat_spec lb tb lid tid l t lt tt k k' :
  denotes lb lid l -> denotes tb tid t -> type_at lb lid lt k -> type_at tb tid tt k' ->
  forall fuel, (nest l < fuel)%nat ->
  exists r, bpf_core_types_are_compat lb tb fuel lid tid = Some r /\
    outcome (kinds_compat k k' && compat l t) (negb (shallow l 32)) r /\
    (kinds_compat k k' = false -> r = 0).
Proof.
  intros Hl Ht Hk Hk' [|fuel] Hf; [lia|]. rewrite (types_root _ _ _ _ _ _ _ _ _ Hk Hk').
  destruct (kinds_compat k k').
  - destruct (compat_recur_spec lb tb l t lid tid fuel 32 Hl Ht) as (r & -> & Ho); [lia|].
    by exists r.
  - exists 0. split; [done|]. split; [by right; left|done].
Qed.

(** ** Objects of finite types

    No type of the object contains itself, except through a struct or a
    union; variables and functions have types. *)
Record types_wf (b : btf) : Prop := {
  tw_finite id : 0 <= id < btf__type_cnt b -> exists c, denotes b id c;
  tw_entity id t k ty : type_at b id t k -> k = 12 \/ k = 14 -> t_size t = Some ty -> 0 <= ty < btf__type_cnt b }.

Lemma denotes_at_root b id c : denotes b id c -> exists t k, type_at b id t k.
Proof. intros (n & t & id' & k & Hs & _)%denotes_inv. inversion Hs; subst; eauto. Qed.

Lemma root_kind_unique c c' k : root_kind c k -> root_kind c' k -> same_shape c c'.
Proof.
  intros H1 H2. eapply kinds_agree; [done..|]. unfold kinds_compat. by rewrite Z.eqb_refl.
Qed.

(** An id stands for one tree. *)
Lemma denotes_det b : forall c id c', denotes b id c -> denotes b id c' -> c = c'.
Proof.
  induction c as [lk|lo|c IH|c IH|ps ret IHps IH|lk] using ctype_nested_ind; intros id c' Hc Hc';
    destruct (denotes_inv _ _ _ Hc) as (n & t & id1 & k & Hs & Hk & Hr & Ha);
    destruct (denotes_inv _ _ _ Hc') as (n' & t' & id1' & k' & Hs' & Hk' & Hr' & Ha');
    destruct (skips_det _ _ _ _ _ Hs _ _ _ Hs') as (_ & -> & _);
    assert (k' = k) as -> by congruence; pose proof (root_kind_unique _ _ _ Hr Hr') as Hsh;
    destruct c' as [lk'|lo'|c'|c'|ps' ret'|lk']; try done; cbn in Ha, Ha', Hr, Hr'.
  - destruct Hr as [<- _], Hr' as [<- _]. done.
  - congruence.
  - destruct Ha as (r & E & Hd), Ha' as (r' & E' & Hd'). assert (r' = r) as -> by congruence. by rewrite (IH r c').
  - destruct Ha as (r & E & Hd), Ha' as (r' & E' & Hd'). assert (r' = r) as -> by congruence. by rewrite (IH r c').
  - destruct Ha as (Hv & Hp & r & E & Hd), Ha' as (Hv' & Hp' & r' & E' & Hd').
    assert (r' = r) as -> by congruence. f_equal; [|by eapply IH]. rewrite Hv in Hv'.
    assert (Hlen : length ps = length ps') by (injection Hv'; lia).
    apply list_eq_same_length with (length ps); [done|done|]. intros i p p' _ Hi Hi'.
    destruct (Hp i p Hi) as (w & Hw & Hdw), (Hp' i p' Hi') as (w' & Hw' & Hdw').
    assert (w' = w) as -> by congruence. rewrite Forall_forall in IHps.
    eapply IHps; [by eapply list_elem_of_lookup_2|done|done].
  - destruct Hr as [<- _], Hr' as [<- _]. done.
Qed.

Lemma nest_list_max ps : nest_list ps <> 0%nat -> exists p, p ∈ ps /\ nest_list ps = S (nest p).
Proof.
  induction ps as [|p ps IH]; [done|]. cbn [nest_list]. intros _.
  destruct (Nat.max_spec (S (nest p)) (nest_list ps)) as [[Hlt ->]|[_ ->]].
  - destruct IH as (q & Hq & E); [lia|]. exists q. split; [by right|done].
  - exists p. split; [by left|done].
Qed.

(** Prototypes nested in one another have different ids. *)
Lemma nest_ids b : forall c id, denotes b id c -> exists ids, length ids = nest c /\ NoDup ids /\
  forall x, x ∈ ids -> 0 <= x < btf__type_cnt b /\ exists c', denotes b x c' /\ (nest c' <= nest c)%nat.
Proof.
  assert (Hnone : forall c, nest c = 0%nat -> exists ids : list Z, length ids = nest c /\ NoDup ids /\
    forall x, x ∈ ids -> 0 <= x < btf__type_cnt b /\ exists c', denotes b x c' /\ (nest c' <= nest c)%nat).
  { intros c E. exists []. split_and!; [done|constructor|]. intros x Hx. by apply not_elem_of_nil in Hx. }
  induction c as [lk|lo|c IH|c IH|ps ret IHps IH|lk] using ctype_nested_ind; intros id Hc;
    [by apply Hnone|by apply Hnone| | | |by apply Hnone];
    destruct (denotes_inv _ _ _ Hc) as (n & t & id1 & k & Hs & Hk & Hr & Ha); cbn in Ha.
  - destruct Ha as (r & _ & Hd). by apply (IH r).
  - destruct Ha as (r & _ & Hd). by apply (IH r).
  - destruct Ha as (_ & Hp & r & _ & Hd). rewrite nest_proto.
    destruct (Nat.max_spec (nest_list ps) (nest ret)) as [[Hlt E]|[Hle E]]; rewrite E.
    { by apply (IH r). }
    destruct (decide (nest_list ps = 0%nat)) as [E0|Hne]; [by rewrite E0; apply (Hnone (CLeaf 0))|].
    destruct (nest_list_max ps Hne) as (p & Hin & Ep). rewrite Forall_forall in IHps.
    apply list_elem_of_lookup in Hin as Hi. destruct Hi as [i Hi]. destruct (Hp i p Hi) as (w & _ & Hdw).
    destruct (IHps p Hin w Hdw) as (ids & Hl & Hnd & Hids).
    exists (id :: ids). rewrite Ep. split_and!; [cbn; by rewrite Hl| |].
    + constructor; [|done]. intros Hx. destruct (Hids id Hx) as (_ & c' & Hd' & Hn').
      rewrite <- (denotes_det b _ _ _ Hc Hd') in Hn'. rewrite nest_proto, E in Hn'. lia.
    + intros x [->|Hx]%elem_of_cons.
      * destruct (denotes_at_root _ _ _ Hc) as (t' & k' & Ht). split; [by eapply type_at_range|].
        exists (CProto ps ret). split; [done|]. rewrite nest_proto. lia.
      * destruct (Hids x Hx) as (Hr' & c' & Hd' & Hn'). split; [done|]. exists c'. split; [done|lia].
Qed.

Lemma denotes_nest b id c : denotes b id c -> (nest c <= Z.to_nat (btf__type_cnt b))%nat.
Proof.
  intros (ids & <- & Hnd & Hin)%nest_ids.
  rewrite <- (length_seq (Z.to_nat (btf__type_cnt b)) 0), <- (length_fmap Z.of_nat).
  apply submseteq_length, NoDup_submseteq; [done|]. intros x [Hx _]%Hin.
  apply list_elem_of_fmap. exists (Z.to_nat x). split; [lia|]. apply elem_of_seq. lia.
Qed.

(** Two types that are compatible, as trees and in their roots. *)
Definition compatible (lb tb : btf) (lid tid : Z) : Prop := exists l t lt tt k k',
  denotes lb lid l /\ denotes tb tid t /\ type_at lb lid lt k /\ type_at tb tid tt k' /\
  kinds_compat k k' = true /\ compat l t = true.

(** Between such objects the comparison ends, with fuel for as many nested
    prototypes as there are types. *)
Lemma types_compat_total lb tb fuel lid tid : types_wf lb -> types_wf tb ->
  0 <= lid < btf__type_cnt lb -> 0 <= tid < btf__type_cnt tb -> (Z.to_nat (btf__type_cnt lb) < fuel)%nat ->
  exists r, bpf_core_types_are_compat lb tb fuel lid tid = Some r /\ (0 < r -> compatible lb tb lid tid).
Proof.
  intros Hl Ht Hlid Htid Hf. destruct (tw_finite _ Hl lid Hlid) as [l Hdl], (tw_finite _ Ht tid Htid) as [t Hdt].
  destruct (denotes_at_root _ _ _ Hdl) as (lt & k & Hlt), (denotes_at_root _ _ _ Hdt) as (tt & k' & Htt).
  pose proof (denotes_nest _ _ _ Hdl).
  destruct (types_compat_spec lb tb lid tid l t lt tt k k' Hdl Hdt Hlt Htt fuel) as (r & Hr & Ho & _); [lia|].
  exists r. split; [done|]. intros Hpos. destruct Ho as [[_ Ho]|[[-> _]|[-> _]]]; [|lia..].
  apply andb_true_iff in Ho as [H1 H2]. by exists l, t, lt, tt, k, k'.
Qed.

(** A decision procedure. *)
Fixpoint denote (b : btf) (fuel : nat) (id : Z) : option ctype :=
  match fuel with
  | O => None
  | S fuel =>
      '(t, _) ← skip_mods_and_typedefs b id;
      k ← btf_kind t;
      if leaf_kind k then Some (CLeaf k)
      else if k =? 1 then o ← btf_int_offset t; Some (CInt o)
      else if k =? 2 then r ← t_size t; c ← denote b fuel r; Some (CPtr c)
      else if k =? 3 then r ← array_type t; c ← denote b fuel r; Some (CArr c)
      else if k =? 13 then
        n ← btf_vlen t;
        ps ← mapM (fun i => w ← t_word t (8 * Z.of_nat i + 4); denote b fuel w) (seq 0 (Z.to_nat n));
        if negb (Z.of_nat (length ps) =? n) then None else
        r ← t_size t; c ← denote b fuel r; Some (CProto ps c)
      else if never_kind k then Some (COther k) else None
  end.

Lemma denote_sound b fuel : forall id c, denote b fuel id = Some c -> denotes b id c.
Proof.
  induction fuel as [|fuel IH]; intros id c H; [done|]. cbn [denote] in H.
  apply bind_Some in H as ([t id'] & Hs & H). apply skip_mods_inv in Hs as [n Hs].
  apply bind_Some in H as (k & Hk & H).
  destruct (leaf_kind k) eqn:El; [injection H as <-; by eapply den_leaf|].
  destruct (Z.eqb_spec k 1) as [->|_]; [apply bind_Some in H as (o & Ho & [= <-]); by eapply den_int|].
  destruct (Z.eqb_spec k 2) as [->|_].
  { apply bind_Some in H as (r & Hr & H). apply bind_Some in H as (c' & Hc & [= <-]). eapply den_ptr; eauto. }
  destruct (Z.eqb_spec k 3) as [->|_].
  { apply bind_Some in H as (r & Hr & H). apply bind_Some in H as (c' & Hc & [= <-]). eapply den_arr; eauto. }
  destruct (Z.eqb_spec k 13) as [->|_].
  { apply bind_Some in H as (v & Hv & H). apply bind_Some in H as (ps & Hps & H).
    destruct (Z.eqb_spec (Z.of_nat (length ps)) v) as [<-|_]; [|done]. cbn [negb] in H.
    apply bind_Some in H as (r & Hr & H). apply bind_Some in H as (c' & Hc & [= <-]).
    eapply den_proto; eauto. intros i p Hi. apply mapM_Some in Hps. rewrite Nat2Z.id in Hps.
    destruct (Forall2_lookup_r _ _ _ _ _ Hps Hi) as (j & Hj & E). apply lookup_seq in Hj as [-> _]. cbn in E.
    apply bind_Some in E as (w & Hw & Hd). exists w. split; [done|by apply IH]. }
  destruct (never_kind k) eqn:En; [|done]. injection H as <-. by eapply den_other.
Qed.

Definition types_check (b : btf) : bool :=
  forallb (fun i => let id := Z.of_nat i in
    match denote b (S (Z.to_nat (btf__type_cnt b))) id with Some _ => true | None => false end &&
    match btf__type_by_id b id with
    | Some (Some t) =>
        match btf_kind t, t_size t with
        | Some k, Some ty => negb ((k =? 12) || (k =? 14)) || ((0 <=? ty) && (ty <? btf__type_cnt b))
        | _, _ => false
        end
    | _ => false
    end) (seq 0 (Z.to_nat (btf__type_cnt b))).

Lemma types_check_ok b : types_check b = true -> types_wf b.
Proof.
  unfold types_check. rewrite forallb_forall. intros H.
  assert (Hid : forall id, 0 <= id < btf__type_cnt b -> In (Z.to_nat id) (seq 0 (Z.to_nat (btf__type_cnt b)))).
  { intros id Hid. apply in_seq. lia. }
  split.
  - intros id Hr. specialize (H _ (Hid id Hr)). cbn zeta in H. rewrite Z2Nat.id in H by lia.
    apply andb_true_iff in H as [H _]. destruct (denote _ _ id) as [c|] eqn:E; [|done].
    exists c. by eapply denote_sound.
  - intros id t k ty Ht Hk Hty. pose proof (type_at_range _ _ _ _ Ht) as Hr. specialize (H _ (Hid id Hr)).
    cbn zeta in H. rewrite Z2Nat.id in H by lia. apply andb_true_iff in H as [_ H]. destruct Ht as [Ht Hkt].
    rewrite Ht, Hkt, Hty in H. destruct Hk as [-> | ->]; cbn in H; apply andb_true_iff in H; lia.
Qed.

(** C11: comparing types for type relocations.  For every two type ids that
    stand for finite types - any modifiers, typedefs, pointers, arrays and
    function prototypes, nested in any way - the comparison comes to an end
    and decides the compatibility of the two types: it answers 1 exactly if
    they are compatible and 0 if they are not, or gives up with EINVAL, which
    it does only for types of more than 32 levels.  Two roots of different
    kinds, modifiers included, are never compatible. *)
Theorem types_compat_decides lb tb lid tid l t lt tt k k' :
  denotes lb lid l -> denotes tb tid t -> type_at lb lid lt k -> type_at tb tid tt k' ->
  forall fuel, (nest l < fuel)%nat ->
  exists r, bpf_core_types_are_compat lb tb fuel lid tid = Some r /\
    outcome (kinds_compat k k' && compat l t) (negb (shallow l 32)) r /\
    (kinds_compat k k' = false -> r = 0).
Proof. apply types_compat_spec. Qed.

(** ** Concrete objects *)

Definition image_of (types : list Z) (strs : list string) : list Z :=
  let tys := concat (map le32 types) in
  let str := 0 :: concat (map (λ s, lit s ++ [0]) strs) in
  ex_hdr (Z.of_nat (length tys)) (Z.of_nat (length tys)) (Z.of_nat (length str)) ++ tys ++ str.

Definition obj (types : list Z) (strs : list string) : btf := loaded (image_of types strs) None.

(** [1] int, [2] a pointer to [3], [3] const int, [4] int f(const int * ). *)
Definition ex_proto : btf :=
  obj [0; 16777216; 4; 32;  0; 33554432; 3;  0; 167772160; 1;  0; 218103809; 1; 0; 2] [].

Lemma ex_proto_denotes : denotes ex_proto 4 (CProto [CPtr (CInt 0)] (CInt 0)).
Proof.
  assert (Hint : forall id, skip_mods_and_typedefs ex_proto id = Some (TAt (raw_data ex_proto) 24, 1) ->
    denotes ex_proto id (CInt 0)).
  { intros id [n H]%skip_mods_inv. by eapply den_int. }
  destruct (skip_mods_inv ex_proto 4 (TAt (raw_data ex_proto) 64) 4 ltac:(vm_compute; reflexivity)) as [n4 H4].
  destruct (skip_mods_inv ex_proto 2 (TAt (raw_data ex_proto) 40) 2 ltac:(vm_compute; reflexivity)) as [n2 H2].
  eapply den_proto; [exact H4|reflexivity|reflexivity| |reflexivity|apply Hint; vm_compute; reflexivity].
  intros [|i] p [= <-]. exists 2. split; [reflexivity|].
  eapply den_ptr; [exact H2|reflexivity|reflexivity|apply Hint; vm_compute; reflexivity].
Qed.

Lemma types_compat_decides_witness : exists r,
  bpf_core_types_are_compat ex_proto ex_proto 2 4 4 = Some r /\ r = 1.
Proof.
  destruct (types_compat_decides ex_proto ex_proto 4 4 _ _ (TAt (raw_data ex_proto) 64)
    (TAt (raw_data ex_proto) 64) 13 13 ex_proto_denotes ex_proto_denotes) with (fuel := 2%nat)
    as (r & Hr & Ho & _).
  - split; vm_compute; reflexivity.
  - split; vm_compute; reflexivity.
  - simpl. lia.
  - exists r. split; [exact Hr|]. destruct Ho as [[H _]|[[_ H]|[_ H]]]; [exact H|discriminate H|discriminate H].
Defined.

(** ** What the code does not guard against *)

(** [1] void f(ptr), [2] a pointer to [1]. *)
Definition ex_cyclic_proto : btf := obj [0; 218103809; 0; 0; 2;  0; 33554432; 1] [].

(** The 32 levels are counted anew for each parameter: comparing such a
    pointer with itself recurses without end. *)
Fact types_compat_unbounded : forall fuel,
  bpf_core_types_are_compat ex_cyclic_proto ex_cyclic_proto fuel 2 2 = None.
Proof.
  induction fuel as [|fuel IH]; [reflexivity|].
  assert (E : bpf_core_types_are_compat ex_cyclic_proto ex_cyclic_proto (S fuel) 2 2 =
    compat_recur ex_cyclic_proto ex_cyclic_proto
      (bpf_core_types_are_compat ex_cyclic_proto ex_cyclic_proto fuel) 32 2 2) by reflexivity.
  rewrite E. clear E.
  revert IH. generalize (bpf_core_types_are_compat ex_cyclic_proto ex_cyclic_proto fuel). intros rec Hrec.
  assert (E : compat_recur ex_cyclic_proto ex_cyclic_proto rec 32 2 2 =
    (err ← params_compat ex_cyclic_proto ex_cyclic_proto rec (TAt (raw_data ex_cyclic_proto) 24)
             (TAt (raw_data ex_cyclic_proto) 24) 0 1;
     if err <=? 0 then Some err else compat_recur ex_cyclic_proto ex_cyclic_proto rec 30 0 0))
    by reflexivity.
  rewrite E.
  assert (E' : params_compat ex_cyclic_proto ex_cyclic_proto rec (TAt (raw_data ex_cyclic_proto) 24)
             (TAt (raw_data ex_cyclic_proto) 24) 0 1 = (err ← rec 2 2; if err <=? 0 then Some err else Some 1))
    by reflexivity.
  rewrite E', Hrec. reflexivity.
Qed.

(** [1] const of the missing type 9. *)
Definition ex_dangling : btf := obj [0; 167772160; 9] [].

(** The type a modifier refers to is looked at before it is compared with
    NULL. *)
Fact skip_mods_dangling :
  skip_mods_and_typedefs ex_dangling 1 = None /\ btf__type_by_id ex_dangling 9 = Some None.
Proof. split; vm_compute; reflexivity. Qed.
