(* ===== verification/CoreRelo.v ===== *)
(** * CO-RE relocations (src/plugin/libbpf-test/libbpf/src/relo_core.c, and the
    candidate search of libbpf.c)

    A relocation names a field, a type or an enumerator of a local BTF object
    by an access string.  The string is parsed into a specification, the
    specification is matched against candidate types of a target object,
    the value of the field in both is calculated, and the instruction is
    patched.

    The messages, and [bpf_core_format_spec] that only prepares them, are left
    out.  The arrays [spec] and [raw_spec] of a specification are lists, their
    lengths [len] and [raw_len] the lengths of the lists.  An outer [None] is
    undefined behaviour, or a loop that does not end (used up its fuel). *)

From S2P Require Import Prelude StrSet Btf CoreTypes.

Abbreviation ERANGE := 34 (only parsing).
Abbreviation EUCLEAN := 117 (only parsing).
Abbreviation EOPNOTSUPP := 95 (only parsing).

(** ** Specifications *)

Inductive relo_kind :=
  | FIELD_BYTE_OFFSET | FIELD_BYTE_SIZE | FIELD_EXISTS | FIELD_SIGNED | FIELD_LSHIFT_U64
  | FIELD_RSHIFT_U64 | TYPE_ID_LOCAL | TYPE_ID_TARGET | TYPE_EXISTS | TYPE_SIZE
  | ENUMVAL_EXISTS | ENUMVAL_VALUE
  | RELO_OTHER.

#[export] Instance relo_kind_eq_dec : EqDecision relo_kind.
Proof. solve_decision. Defined.

Record bpf_core_relo := Relo {
  r_insn_off : Z;
  r_type_id : Z;
  r_access_str_off : Z;
  r_kind : relo_kind;
}.

Definition core_relo_is_field_based (k : relo_kind) : bool :=
  match k with
  | FIELD_BYTE_OFFSET | FIELD_BYTE_SIZE | FIELD_EXISTS | FIELD_SIGNED | FIELD_LSHIFT_U64
  | FIELD_RSHIFT_U64 => true
  | _ => false
  end.

Definition core_relo_is_type_based (k : relo_kind) : bool :=
  match k with
  | TYPE_ID_LOCAL | TYPE_ID_TARGET | TYPE_EXISTS | TYPE_SIZE => true
  | _ => false
  end.

Definition core_relo_is_enumval_based (k : relo_kind) : bool :=
  match k with ENUMVAL_EXISTS | ENUMVAL_VALUE => true | _ => false end.

Record accessor := Acc {
  a_type_id : Z;
  a_idx : Z;
  a_name : option (list Z);
}.

Record core_spec := Spec {
  cs_btf : btf;
  cs_spec : list accessor;
  cs_root_type_id : Z;
  cs_relo_kind : relo_kind;
  cs_raw : list Z;
  cs_bit_offset : Z;
}.

Definition BPF_CORE_SPEC_MAX_LEN : nat := 64.

Definition with_path (s : core_spec) (spec : list accessor) (raw : list Z) (off : Z) : core_spec :=
  {| cs_btf := cs_btf s; cs_spec := spec; cs_root_type_id := cs_root_type_id s;
     cs_relo_kind := cs_relo_kind s; cs_raw := raw; cs_bit_offset := off |}.

Definition push_acc (s : core_spec) (a : accessor) : core_spec :=
  with_path s (cs_spec s ++ [a]) (cs_raw s) (cs_bit_offset s).

Definition pop_acc (s : core_spec) : core_spec :=
  with_path s (removelast (cs_spec s)) (cs_raw s) (cs_bit_offset s).

Definition add_off (s : core_spec) (d : Z) : core_spec :=
  with_path s (cs_spec s) (cs_raw s) (u32 (cs_bit_offset s + d)).

Definition push_raw (s : core_spec) (i : Z) : core_spec :=
  with_path s (cs_spec s) (cs_raw s ++ [i]) (cs_bit_offset s).

Definition pop_raw (s : core_spec) : core_spec :=
  with_path s (cs_spec s) (removelast (cs_raw s)) (cs_bit_offset s).

(** [acc] is the accessor before the one the array is for. *)
Definition is_flex_arr (b : btf) (acc : accessor) (nelems : Z) : option bool :=
  match a_name acc with
  | None => Some false
  | Some _ =>
      if nelems >? 0 then Some false else
      t ← btf_type_by_id b (a_type_id acc);
      vlen ← btf_vlen t;
      Some (a_idx acc =? u32 (vlen - 1))
  end.

(** ** Parsing an access string *)

Definition is_space (c : Z) : bool := (c =? 32) || (9 <=? c) && (c <=? 13).
Definition is_digit (c : Z) : bool := (48 <=? c) && (c <=? 57).

Fixpoint skip_spaces (s : list Z) : list Z :=
  match s with c :: s' => if is_space c then skip_spaces s' else s | [] => [] end.

Fixpoint scan_digits (s : list Z) (v : Z) : Z * list Z :=
  match s with
  | c :: s' => if is_digit c then scan_digits s' (10 * v + (c - 48)) else (v, s)
  | [] => (v, [])
  end.

(** [sscanf(s, "%d%n", ...) == 1]: the number and the rest of the string.  A
    number out of range is clamped to 64 bits and then cut to 32. *)
Definition scan_int (s : list Z) : option (Z * list Z) :=
  let s := skip_spaces s in
  let '(neg, s) := match s with
                   | 45 :: s' => (true, s')
                   | 43 :: s' => (false, s')
                   | _ => (false, s)
                   end in
  match s with
  | c :: _ =>
      if is_digit c then
        let '(v, rest) := scan_digits s 0 in
        Some (s32 (if neg : bool then Z.max (- v) (- 2 ^ 63) else Z.min v (2 ^ 63 - 1)), rest)
      else None
  | [] => None
  end.

(** The loop over the string; each round reads a digit at least. *)
Fixpoint parse_raw (fuel : nat) (s : list Z) (raw : list Z) : option (Z + list Z) :=
  match fuel with
  | O => None
  | S fuel =>
      match s with
      | [] => Some (inr raw)
      | c :: s' =>
          let s := if c =? 58 then s' else s in
          match scan_int s with
          | None => Some (inl (- EINVAL))
          | Some (access_idx, rest) =>
              if (length raw =? BPF_CORE_SPEC_MAX_LEN)%nat then Some (inl (- E2BIG))
              else parse_raw fuel rest (raw ++ [access_idx])
          end
      end
  end.

(** The loop over the indices behind the first; [id] is the current type. *)
Fixpoint parse_accessors (b : btf) (raws : list Z) (id : Z) (spec : core_spec)
    : option (Z + core_spec) :=
  match raws with
  | [] => Some (inr spec)
  | access_idx :: raws =>
      '(t, id) ← skip_mods_and_typedefs b id;
      composite ← btf_is_composite t;
      array ← btf_is_array t;
      if composite : bool then
        vlen ← btf_vlen t;
        if access_idx >=? vlen then Some (inl (- EINVAL)) else
        bit_offset ← btf_member_bit_offset t access_idx;
        let spec := add_off spec bit_offset in
        name_off ← member_name_off t access_idx;
        ty ← member_type t access_idx;
        if negb (name_off =? 0) then
          name ← name_at b name_off;
          if str_is_empty name then Some (inl (- EINVAL)) else
          parse_accessors b raws ty
            (push_acc spec {| a_type_id := id; a_idx := u32 access_idx; a_name := name |})
        else parse_accessors b raws ty spec
      else if array : bool then
        ety ← array_type t;
        '(_, id) ← skip_mods_and_typedefs b ety;
        nelems ← array_nelems t;
        acc ← last (cs_spec spec);
        flex ← is_flex_arr b acc nelems;
        if negb flex && (u32 access_idx >=? nelems) then Some (inl (- EINVAL)) else
        let spec := push_acc spec {| a_type_id := id; a_idx := u32 access_idx; a_name := None |} in
        sz ← resolve_size b id;
        if sz <? 0 then Some (inl (s32 sz)) else
        parse_accessors b raws id (add_off spec (access_idx * sz * 8))
      else Some (inl (- EINVAL))
  end.

(** [bpf_core_parse_spec]; [inl] is the error code. *)
Definition bpf_core_parse_spec (b : btf) (relo : bpf_core_relo) : option (Z + core_spec) :=
  spec_str ← name_at b (r_access_str_off relo);
  match spec_str with
  | None | Some [] => Some (inl (- EINVAL))
  | Some (c :: rest) =>
      if c =? 58 then Some (inl (- EINVAL)) else
      let spec := {| cs_btf := b; cs_spec := []; cs_root_type_id := r_type_id relo;
                     cs_relo_kind := r_kind relo; cs_raw := []; cs_bit_offset := 0 |} in
      if core_relo_is_type_based (r_kind relo) then
        Some (if strcmp (c :: rest) [48] =? 0 then inr spec else inl (- EINVAL))
      else
        r ← parse_raw (S (length (c :: rest))) (c :: rest) [];
        match r with
        | inl err => Some (inl err)
        | inr [] => Some (inl (- EINVAL))
        | inr (access_idx :: raws) =>
            '(t, id) ← skip_mods_and_typedefs b (r_type_id relo);
            let spec := with_path spec [] (access_idx :: raws) 0 in
            let acc name := {| a_type_id := id; a_idx := u32 access_idx; a_name := name |} in
            if core_relo_is_enumval_based (r_kind relo) then
              enum ← btf_is_any_enum t;
              if negb enum then Some (inl (- EINVAL)) else
              if bool_decide (raws <> []) then Some (inl (- EINVAL)) else
              vlen ← btf_vlen t;
              if access_idx >=? vlen then Some (inl (- EINVAL)) else
              name_off ← enum_name_off t access_idx;
              name ← name_at b name_off;
              Some (inr (push_acc spec (acc name)))
            else if negb (core_relo_is_field_based (r_kind relo)) then Some (inl (- EINVAL))
            else
              sz ← resolve_size b id;
              if sz <? 0 then Some (inl (s32 sz)) else
              parse_accessors b raws id (add_off (push_acc spec (acc None)) (access_idx * sz * 8))
        end
  end.

(** ** Matching *)

(** [bpf_core_fields_are_compat]: the loop over array dimensions.  Two chains
    of array types that both go on longer than their objects have types never
    end. *)
Fixpoint fields_compat_loop (fuel : nat) (lb : btf) (lid : Z) (tb : btf) (tid : Z) : option Z :=
  match fuel with
  | O => None
  | S fuel =>
      '(lty, lid) ← skip_mods_and_typedefs lb lid;
      '(tty, tid) ← skip_mods_and_typedefs tb tid;
      lc ← btf_is_composite lty; tc ← btf_is_composite tty;
      if (lc : bool) && (tc : bool) then Some 1 else
      compat ← btf_kind_core_compat lty tty;
      if negb compat then Some 0 else
      k ← btf_kind lty;
      match kind_of k with
      | KIND_PTR | KIND_FLOAT => Some 1
      | KIND_FWD | KIND_ENUM64 | KIND_ENUM =>
          lo ← t_name_off lty; lname ← name_at lb lo;
          to ← t_name_off tty; tname ← name_at tb to;
          lname ← lname; tname ← tname;
          let ll := bpf_core_essential_name_len lname in
          let tl := bpf_core_essential_name_len tname in
          Some (bool_to_Z ((ll =? 0) || (tl =? 0) || (ll =? tl) && (strncmp lname tname ll =? 0)))
      | KIND_INT =>
          lo ← btf_int_offset lty;
          if negb (lo =? 0) then Some 0 else to ← btf_int_offset tty; Some (bool_to_Z (to =? 0))
      | KIND_ARRAY =>
          lid ← array_type lty; tid ← array_type tty; fields_compat_loop fuel lb lid tb tid
      | _ => Some 0
      end
  end.

Definition bpf_core_fields_are_compat (lb : btf) (lid : Z) (tb : btf) (tid : Z) : option Z :=
  fields_compat_loop (S (Z.to_nat (btf__type_cnt lb) + Z.to_nat (btf__type_cnt tb))) lb lid tb tid.

(** [bpf_core_match_member]: the result, the specification of the target and
    [*next_targ_id].  The recursion into unnamed members stops when
    [raw_spec] is full. *)
Section MatchMember.
Context (lb : btf) (local_acc : accessor) (tb : btf).

(** The members from the [i]-th on, [n] of them; [rec] is the recursive call. *)
Fixpoint match_members (rec : Z -> core_spec -> Z -> option (Z * core_spec * Z)) (t : tptr)
    (targ_id : Z) (local_name : option (list Z)) (local_ty : Z) (i : Z) (n : nat)
    (spec : core_spec) (next : Z) : option (Z * core_spec * Z) :=
  match n with
  | O => Some (0, spec, next)
  | S n =>
      bit_offset ← btf_member_bit_offset t i;
      if (length (cs_raw spec) =? BPF_CORE_SPEC_MAX_LEN)%nat then Some (- E2BIG, spec, next) else
      let spec := push_raw (add_off spec bit_offset) i in
      name_off ← member_name_off t i;
      targ_name ← name_at tb name_off;
      ty ← member_type t i;
      let continue spec next :=
        match_members rec t targ_id local_name local_ty (i + 1) n
          (pop_raw (add_off spec (- bit_offset))) next in
      match targ_name with
      | None | Some [] =>
          '(found, spec, next) ← rec ty spec next;
          if negb (found =? 0) then Some (found, spec, next) else continue spec next
      | Some targ_name =>
          local_name' ← local_name;
          if strcmp local_name' targ_name =? 0 then
            let spec := push_acc spec
              {| a_type_id := targ_id; a_idx := i; a_name := Some targ_name |} in
            found ← bpf_core_fields_are_compat lb local_ty tb ty;
            Some (found, if found =? 0 then pop_acc spec else spec, ty)
          else continue spec next
      end
  end.

Fixpoint bpf_core_match_member (fuel : nat) (targ_id : Z) (spec : core_spec) (next : Z)
    : option (Z * core_spec * Z) :=
  match fuel with
  | O => None
  | S fuel =>
      '(t, targ_id) ← skip_mods_and_typedefs tb targ_id;
      composite ← btf_is_composite t;
      if negb composite then Some (0, spec, next) else
      lty ← btf_type_by_id lb (a_type_id local_acc);
      name_off ← member_name_off lty (a_idx local_acc);
      local_name ← name_at lb name_off;
      local_ty ← member_type lty (a_idx local_acc);
      vlen ← btf_vlen t;
      match_members (bpf_core_match_member fuel) t targ_id local_name local_ty 0 (Z.to_nat vlen)
        spec next
  end.
End MatchMember.

(** The accessors of the local specification from the [i]-th on; [prev] is
    the accessor of the target before the [i]-th. *)
Fixpoint match_accessors (lb tb : btf) (accs : list accessor) (first : bool) (targ_id : Z)
    (spec : core_spec) : option (Z * core_spec) :=
  match accs with
  | [] => Some (1, spec)
  | local_acc :: accs =>
      '(t, targ_id) ← skip_mods_and_typedefs tb targ_id;
      match a_name local_acc with
      | Some _ =>
          '(matched, spec, next) ←
            bpf_core_match_member lb local_acc tb (S (S BPF_CORE_SPEC_MAX_LEN)) targ_id spec targ_id;
          if matched <=? 0 then Some (matched, spec)
          else match_accessors lb tb accs false next spec
      | None =>
          r ← (if first then Some (inr targ_id) else
               array ← btf_is_array t;
               if negb array then Some (inl 0) else
               nelems ← array_nelems t;
               prev ← last (cs_spec spec);
               flex ← is_flex_arr tb prev nelems;
               if negb flex && (a_idx local_acc >=? nelems) then Some (inl 0) else
               ety ← array_type t;
               '(_, id) ← skip_mods_and_typedefs tb ety;
               Some (inr id));
          match r with
          | inl res => Some (res, spec)
          | inr targ_id =>
              if (length (cs_raw spec) =? BPF_CORE_SPEC_MAX_LEN)%nat then Some (- E2BIG, spec) else
              let spec := push_raw (push_acc spec
                {| a_type_id := targ_id; a_idx := a_idx local_acc; a_name := None |})
                (s32 (a_idx local_acc)) in
              sz ← resolve_size tb targ_id;
              let sz := s32 sz in
              if sz <? 0 then Some (sz, spec)
              else match_accessors lb tb accs false targ_id (add_off spec (a_idx local_acc * sz * 8))
          end
      end
  end.

(** The enumerators from the [i]-th on. *)
Fixpoint match_enumerators (tb : btf) (t : tptr) (targ_id : Z) (local_name : list Z) (i : Z)
    (n : nat) (spec : core_spec) : option (Z * core_spec) :=
  match n with
  | O => Some (0, spec)
  | S n =>
      name_off ← enum_name_off t i;
      targ_name ← name_at tb name_off;
      targ_name ← targ_name;
      let len := bpf_core_essential_name_len local_name in
      if (bpf_core_essential_name_len targ_name =? len) && (strncmp local_name targ_name len =? 0)
      then Some (1, push_raw (push_acc spec
                    {| a_type_id := targ_id; a_idx := i; a_name := Some targ_name |}) i)
      else match_enumerators tb t targ_id local_name (i + 1) n spec
  end.

(** [bpf_core_spec_match]; [depth] bounds the nesting of function prototypes
    in type relocations. *)
Definition bpf_core_spec_match (depth : nat) (local_spec : core_spec) (tb : btf) (targ_id : Z)
    : option (Z * core_spec) :=
  let targ_spec := {| cs_btf := tb; cs_spec := []; cs_root_type_id := targ_id;
                      cs_relo_kind := cs_relo_kind local_spec; cs_raw := []; cs_bit_offset := 0 |} in
  let lb := cs_btf local_spec in
  if core_relo_is_type_based (cs_relo_kind local_spec) then
    r ← bpf_core_types_are_compat lb tb depth (cs_root_type_id local_spec) targ_id;
    Some (r, targ_spec)
  else if core_relo_is_enumval_based (cs_relo_kind local_spec) then
    '(t, targ_id) ← skip_mods_and_typedefs tb targ_id;
    enum ← btf_is_any_enum t;
    if negb enum then Some (0, targ_spec) else
    local_acc ← head (cs_spec local_spec);
    local_name ← a_name local_acc;
    vlen ← btf_vlen t;
    match_enumerators tb t targ_id local_name 0 (Z.to_nat vlen) targ_spec
  else if negb (core_relo_is_field_based (cs_relo_kind local_spec)) then Some (- EINVAL, targ_spec)
  else match_accessors lb tb (cs_spec local_spec) true targ_id targ_spec.

(** ** Calculating values *)

(** The loop that widens the load of a bit-field; at most three rounds double
    the size before it reaches 8. *)
Fixpoint bitfield_load (fuel : nat) (bit_off bit_sz byte_sz byte_off : Z) : option (Z + Z * Z) :=
  match fuel with
  | O => None
  | S fuel =>
      if u32 (bit_off + bit_sz - byte_off * 8) >? u32 (byte_sz * 8) then
        if byte_sz >=? 8 then Some (inl (- E2BIG)) else
        let byte_sz := byte_sz * 2 in
        bitfield_load fuel bit_off bit_sz byte_sz (bit_off / 8 / byte_sz * byte_sz)
      else Some (inr (byte_sz, byte_off))
  end.

(** What [bpf_core_calc_field_relo] stores through its pointers. *)
Record field_res := FieldRes {
  f_val : Z;
  f_field_sz : Z;
  f_type_id : Z;
  f_validate : bool;
}.

Definition set_val (r : field_res) (v : Z) : field_res :=
  {| f_val := v; f_field_sz := f_field_sz r; f_type_id := f_type_id r; f_validate := f_validate r |}.

Definition set_validate (r : field_res) (v : bool) : field_res :=
  {| f_val := f_val r; f_field_sz := f_field_sz r; f_type_id := f_type_id r; f_validate := v |}.

Definition set_field (r : field_res) (sz ty : Z) : field_res :=
  {| f_val := f_val r; f_field_sz := sz; f_type_id := ty; f_validate := f_validate r |}.

(** The accessor [a[n]]. *)
Definition calc_array_relo (k : relo_kind) (spec : core_spec) (acc : accessor) (res : field_res)
    : option (Z * field_res) :=
  match k with
  | FIELD_BYTE_OFFSET =>
      let res := set_val res (cs_bit_offset spec / 8) in
      sz ← resolve_size (cs_btf spec) (a_type_id acc);
      if sz <? 0 then Some (- EINVAL, res) else
      Some (0, set_validate (set_field res (u32 sz) (a_type_id acc)) true)
  | FIELD_BYTE_SIZE =>
      sz ← resolve_size (cs_btf spec) (a_type_id acc);
      if sz <? 0 then Some (- EINVAL, res) else Some (0, set_validate (set_val res sz) true)
  | _ => Some (- EINVAL, res)
  end.

(** A named field of type [mt]: its offset, its size in bits, the load. *)
Definition calc_member_relo (k : relo_kind) (mt : tptr) (field_type_id bit_off bit_sz byte_sz byte_off : Z)
    (bitfield : bool) (res : field_res) : option (Z * field_res) :=
  let res := set_validate res (negb bitfield) in
  match k with
  | FIELD_BYTE_OFFSET =>
      let res := set_val res byte_off in
      Some (0, if bitfield then res else set_field res byte_sz field_type_id)
  | FIELD_BYTE_SIZE => Some (0, set_val res byte_sz)
  | FIELD_SIGNED =>
      enum ← btf_is_any_enum mt;
      kflag ← btf_kflag mt;
      signed ← (if (enum : bool) && (kflag : bool) then Some true
                else e ← btf_int_encoding mt; Some (negb (Z.land e 1 =? 0)));
      Some (0, set_validate (set_val res (bool_to_Z signed)) true)
  | FIELD_LSHIFT_U64 => Some (0, set_val res (u32 (64 - (bit_off + bit_sz - byte_off * 8))))
  | FIELD_RSHIFT_U64 => Some (0, set_validate (set_val res (u32 (64 - bit_sz))) true)
  | _ => Some (- EOPNOTSUPP, res)
  end.

(** [bpf_core_calc_field_relo]; where its caller passes no [validate], what is
    stored there is ignored. *)
Definition bpf_core_calc_field_relo (k : relo_kind) (spec : option core_spec) (res : field_res)
    : option (Z * field_res) :=
  let res := set_field res 0 (f_type_id res) in
  if bool_decide (k = FIELD_EXISTS) then
    Some (0, set_val res (bool_to_Z (bool_decide (is_Some spec))))
  else
  match spec with
  | None => Some (- EUCLEAN, res)
  | Some spec =>
      acc ← last (cs_spec spec);
      t ← btf_type_by_id (cs_btf spec) (a_type_id acc);
      match a_name acc with
      | None => calc_array_relo k spec acc res
      | Some _ =>
          ty ← member_type t (a_idx acc);
          '(mt, field_type_id) ← skip_mods_and_typedefs (cs_btf spec) ty;
          let bit_off := cs_bit_offset spec in
          bit_sz ← btf_member_bitfield_size t (a_idx acc);
          if bit_sz >? 0 then
            byte_sz ← t_size mt;
            if byte_sz =? 0 then None else
            r ← bitfield_load 5 bit_off bit_sz byte_sz (bit_off / 8 / byte_sz * byte_sz);
            match r with
            | inl err => Some (err, res)
            | inr (byte_sz, byte_off) =>
                calc_member_relo k mt field_type_id bit_off bit_sz byte_sz byte_off true res
            end
          else
            sz ← resolve_size (cs_btf spec) field_type_id;
            if sz <? 0 then Some (- EINVAL, res) else
            let byte_sz := u32 sz in
            calc_member_relo k mt field_type_id bit_off (u32 (byte_sz * 8)) byte_sz (bit_off / 8)
              false res
      end
  end.

(** [bpf_core_calc_type_relo]: the value and [validate]. *)
Definition bpf_core_calc_type_relo (k : relo_kind) (spec : option core_spec)
    : option (Z * Z * bool) :=
  match spec with
  | None => Some (0, 0, true)
  | Some spec =>
      match k with
      | TYPE_ID_TARGET => Some (0, cs_root_type_id spec, false)
      | TYPE_EXISTS => Some (0, 1, true)
      | TYPE_SIZE =>
          sz ← resolve_size (cs_btf spec) (cs_root_type_id spec);
          Some (if sz <? 0 then (- EINVAL, 0, true) else (0, sz, true))
      | _ => Some (- EOPNOTSUPP, 0, true)
      end
  end.

Definition bpf_core_calc_enumval_relo (k : relo_kind) (spec : option core_spec) : option (Z * Z) :=
  match k with
  | ENUMVAL_EXISTS => Some (0, bool_to_Z (bool_decide (is_Some spec)))
  | ENUMVAL_VALUE =>
      match spec with
      | None => Some (- EUCLEAN, 0)
      | Some spec =>
          acc ← head (cs_spec spec);
          t ← btf_type_by_id (cs_btf spec) (a_type_id acc);
          e ← btf_is_enum t;
          if e : bool then v ← t_word t (8 * a_idx acc + 4); Some (0, u64 (s32 v))
          else
            lo ← t_word t (12 * a_idx acc + 4); hi ← t_word t (12 * a_idx acc + 8);
            Some (0, hi * 2 ^ 32 + lo)
      end
  | _ => Some (- EOPNOTSUPP, 0)
  end.

Record relo_res := ReloRes {
  orig_val : Z;
  new_val : Z;
  poison : bool;
  validate : bool;
  fail_memsz_adjust : bool;
  orig_sz : Z;
  orig_type_id : Z;
  new_sz : Z;
  new_type_id : Z;
}.

(** Whether a load of one size may be replaced by one of the other: pointers,
    or integers that are not signed. *)
Definition memsz_adjustable (ot nt : tptr) : option bool :=
  op ← btf_is_ptr ot; np ← btf_is_ptr nt;
  if (op : bool) && (np : bool) then Some true else
  oi ← btf_is_int ot; ni ← btf_is_int nt;
  if negb ((oi : bool) && (ni : bool)) then Some false else
  oe ← btf_int_encoding ot; ne ← btf_int_encoding nt;
  Some (negb (oe =? 1) && negb (ne =? 1)).

(** The end of [bpf_core_calc_relo]: [EUCLEAN] asks for poisoning. *)
Definition calc_done (err : Z) (res : relo_res) : Z * relo_res :=
  if err =? - EUCLEAN
  then (0, {| orig_val := orig_val res; new_val := new_val res; poison := true;
              validate := validate res; fail_memsz_adjust := fail_memsz_adjust res;
              orig_sz := orig_sz res; orig_type_id := orig_type_id res; new_sz := new_sz res;
              new_type_id := new_type_id res |})
  else (err, res).

Definition field_relo_res (orig new : field_res) (fail : bool) : relo_res :=
  {| orig_val := f_val orig; new_val := f_val new; poison := false; validate := f_validate orig;
     fail_memsz_adjust := fail; orig_sz := f_field_sz orig; orig_type_id := f_type_id orig;
     new_sz := f_field_sz new; new_type_id := f_type_id new |}.

Definition bpf_core_calc_relo (k : relo_kind) (local_spec : core_spec) (targ_spec : option core_spec)
    : option (Z * relo_res) :=
  let init := {| f_val := 0; f_field_sz := 0; f_type_id := 0; f_validate := true |} in
  let plain o n v := field_relo_res {| f_val := o; f_field_sz := 0; f_type_id := 0; f_validate := v |}
                       (set_val init n) false in
  if core_relo_is_field_based k then
    '(err, orig) ← bpf_core_calc_field_relo k (Some local_spec) init;
    if negb (err =? 0) then Some (calc_done err (field_relo_res orig init false)) else
    '(err, new) ← bpf_core_calc_field_relo k targ_spec init;
    if negb (err =? 0) then Some (calc_done err (field_relo_res orig new false)) else
    if f_field_sz orig =? f_field_sz new then Some (0, field_relo_res orig new false) else
    targ_spec ← targ_spec;
    ot ← btf_type_by_id (cs_btf local_spec) (f_type_id orig);
    nt ← btf_type_by_id (cs_btf targ_spec) (f_type_id new);
    ok ← memsz_adjustable ot nt;
    Some (0, field_relo_res orig new (negb ok))
  else if core_relo_is_type_based k then
    '(err, o, v) ← bpf_core_calc_type_relo k (Some local_spec);
    if negb (err =? 0) then Some (calc_done err (plain o 0 v)) else
    '(err, n, _) ← bpf_core_calc_type_relo k targ_spec;
    Some (calc_done err (plain o n v))
  else if core_relo_is_enumval_based k then
    '(err, o) ← bpf_core_calc_enumval_relo k (Some local_spec);
    if negb (err =? 0) then Some (calc_done err (plain o 0 true)) else
    '(err, n) ← bpf_core_calc_enumval_relo k targ_spec;
    Some (calc_done err (plain o n true))
  else Some (- EOPNOTSUPP, plain 0 0 true).

(** ** Patching an instruction *)

Record bpf_insn := Insn {
  code : Z;
  dst_reg : Z;
  src_reg : Z;
  off : Z;
  imm : Z;
}.

Definition BPF_CLASS (c : Z) : Z := Z.land c 7.
Definition BPF_SIZE (c : Z) : Z := Z.land c 24.
Definition BPF_MODE (c : Z) : Z := Z.land c 224.
Definition BPF_SRC (c : Z) : Z := Z.land c 8.

Definition is_ldimm64_insn (i : bpf_insn) : bool := code i =? 24.

(** [bpf_core_poison_insn]: a call of an unknown helper. *)
Definition bpf_core_poison_insn : bpf_insn :=
  {| code := 133; dst_reg := 0; src_reg := 0; off := 0; imm := 195896080 |}.

Definition insn_bpf_size_to_bytes (i : bpf_insn) : Z :=
  match BPF_SIZE (code i) with 24 => 8 | 0 => 4 | 8 => 2 | 16 => 1 | _ => -1 end.

Definition insn_bytes_to_bpf_size (sz : Z) : Z :=
  match sz with 8 => 24 | 4 => 0 | 2 => 8 | 1 => 16 | _ => -1 end.

Definition set_imm (i : bpf_insn) (v : Z) : bpf_insn :=
  {| code := code i; dst_reg := dst_reg i; src_reg := src_reg i; off := off i; imm := s32 v |}.

Definition set_off (i : bpf_insn) (v : Z) : bpf_insn :=
  {| code := code i; dst_reg := dst_reg i; src_reg := src_reg i; off := swrap 16 v; imm := imm i |}.

Definition set_code (i : bpf_insn) (c : Z) : bpf_insn :=
  {| code := u8 c; dst_reg := dst_reg i; src_reg := src_reg i; off := off i; imm := imm i |}.

(** The label [poison]: both halves of a 64-bit load. *)
Definition do_poison (insns : list bpf_insn) (idx : Z) (insn : bpf_insn) : option (Z * list bpf_insn) :=
  insns ← (if is_ldimm64_insn insn then aset insns (idx + 1) bpf_core_poison_insn else Some insns);
  insns ← aset insns idx bpf_core_poison_insn;
  Some (0, insns).

Definition patch_alu (insns : list bpf_insn) (idx : Z) (insn : bpf_insn) (res : relo_res)
    : option (Z * list bpf_insn) :=
  if negb (BPF_SRC (code insn) =? 0) then Some (- EINVAL, insns) else
  if validate res && negb (u64 (imm insn) =? orig_val res) then Some (- EINVAL, insns) else
  insns ← aset insns idx (set_imm insn (new_val res));
  Some (0, insns).

Definition patch_mem (insns : list bpf_insn) (idx : Z) (insn : bpf_insn) (res : relo_res)
    : option (Z * list bpf_insn) :=
  if validate res && negb (u64 (off insn) =? orig_val res) then Some (- EINVAL, insns) else
  if new_val res >? 32767 then Some (- ERANGE, insns) else
  if fail_memsz_adjust res then do_poison insns idx insn else
  let insn := set_off insn (new_val res) in
  insns ← aset insns idx insn;
  if new_sz res =? orig_sz res then Some (0, insns) else
  if negb (u32 (insn_bpf_size_to_bytes insn) =? orig_sz res) then Some (- EINVAL, insns) else
  let insn_bpf_sz := insn_bytes_to_bpf_size (new_sz res) in
  if insn_bpf_sz <? 0 then Some (- EINVAL, insns) else
  insns ← aset insns idx
    (set_code insn (Z.lor (Z.lor (BPF_MODE (code insn)) insn_bpf_sz) (BPF_CLASS (code insn))));
  Some (0, insns).

Definition patch_ldimm64 (insns : list bpf_insn) (idx : Z) (insn : bpf_insn) (res : relo_res)
    : option (Z * list bpf_insn) :=
  if negb (is_ldimm64_insn insn) || negb (src_reg insn =? 0) || negb (off insn =? 0)
  then Some (- EINVAL, insns) else
  insn1 ← aref insns (idx + 1);
  if negb (code insn1 =? 0) || negb (dst_reg insn1 =? 0) || negb (src_reg insn1 =? 0) ||
     negb (off insn1 =? 0) then Some (- EINVAL, insns) else
  if validate res && negb (u32 (imm insn) + u32 (imm insn1) * 2 ^ 32 =? orig_val res)
  then Some (- EINVAL, insns) else
  insns ← aset insns idx (set_imm insn (new_val res));
  insns ← aset insns (idx + 1) (set_imm insn1 (Z.shiftr (new_val res) 32));
  Some (0, insns).

Definition bpf_core_patch_insn (insns : list bpf_insn) (idx : Z) (res : relo_res)
    : option (Z * list bpf_insn) :=
  insn ← aref insns idx;
  if poison res then do_poison insns idx insn else
  match BPF_CLASS (code insn) with
  | 4 | 7 => patch_alu insns idx insn res
  | 1 | 2 | 3 => patch_mem insns idx insn res
  | 0 => patch_ldimm64 insns idx insn res
  | _ => Some (- EINVAL, insns)
  end.

(** ** Relocating against candidates *)

Definition cand : Type := btf * Z.

(** [bpf_core_add_cands] without the failing allocation: the ids from [i] on,
    [n] of them, that match the local type in kind and essential name. *)
Fixpoint bpf_core_add_cands (local_t : tptr) (local_name : list Z) (local_essent_len : Z) (tb : btf)
    (i : Z) (n : nat) (cands : list cand) : option (list cand) :=
  match n with
  | O => Some cands
  | S n =>
      t ← btf__type_by_id tb i; t ← t;
      compat ← btf_kind_core_compat t local_t;
      if negb compat then bpf_core_add_cands local_t local_name local_essent_len tb (i + 1) n cands else
      name_off ← t_name_off t;
      targ_name ← name_at tb name_off;
      match targ_name with
      | None | Some [] => bpf_core_add_cands local_t local_name local_essent_len tb (i + 1) n cands
      | Some targ_name =>
          bpf_core_add_cands local_t local_name local_essent_len tb (i + 1) n
            (if negb (bpf_core_essential_name_len targ_name =? local_essent_len) ||
                negb (strncmp local_name targ_name local_essent_len =? 0)
             then cands else cands ++ [(tb, i)])
      end
  end.

(** The loop of [bpf_core_calc_relo_insn] over the candidates: [kept] are the
    matching ones, [targ] the specification and the result of the first.
    The result: the error code, the kept ones and that pair. *)
Fixpoint calc_relo_loop (depth : nat) (k : relo_kind) (local_spec : core_spec) (cands : list cand)
    (kept : list cand) (targ : option (core_spec * relo_res))
    : option (Z * list cand * option (core_spec * relo_res)) :=
  match cands with
  | [] => Some (0, kept, targ)
  | (tb, id) :: cands =>
      '(err, cand_spec) ← bpf_core_spec_match depth local_spec tb id;
      if err <? 0 then Some (err, kept, targ) else
      if err =? 0 then calc_relo_loop depth k local_spec cands kept targ else
      '(err, cand_res) ← bpf_core_calc_relo k local_spec (Some cand_spec);
      if negb (err =? 0) then Some (err, kept, targ) else
      match targ with
      | None =>
          calc_relo_loop depth k local_spec cands (kept ++ [(tb, id)]) (Some (cand_spec, cand_res))
      | Some (targ_spec, targ_res) =>
          if negb (cs_bit_offset cand_spec =? cs_bit_offset targ_spec) then Some (- EINVAL, kept, targ)
          else if negb (eqb (poison cand_res) (poison targ_res)) ||
                  negb (new_val cand_res =? new_val targ_res) then Some (- EINVAL, kept, targ)
          else calc_relo_loop depth k local_spec cands (kept ++ [(tb, id)]) targ
      end
  end.

(** [bpf_core_calc_relo_insn]: the error code, the candidates (overwritten
    from the front by the kept ones) and the result. *)
Definition bpf_core_calc_relo_insn (depth : nat) (relo : bpf_core_relo) (lb : btf) (cands : list cand)
    : option (Z * list cand * option relo_res) :=
  local_type ← btf_type_by_id lb (r_type_id relo);
  name_off ← t_name_off local_type;
  local_name ← name_at lb name_off;
  match local_name with
  | None => Some (- EINVAL, cands, None)
  | Some local_name =>
      r ← bpf_core_parse_spec lb relo;
      match r with
      | inl _ => Some (- EINVAL, cands, None)
      | inr local_spec =>
          if bool_decide (r_kind relo = TYPE_ID_LOCAL) then
            let id := cs_root_type_id local_spec in
            Some (0, cands, Some {| orig_val := id; new_val := id; poison := false; validate := false;
                                    fail_memsz_adjust := false; orig_sz := 0; orig_type_id := 0;
                                    new_sz := 0; new_type_id := 0 |})
          else if str_is_empty (Some local_name) then Some (- EOPNOTSUPP, cands, None)
          else
            '(err, kept, targ) ← calc_relo_loop depth (r_kind relo) local_spec cands [] None;
            if negb (err =? 0)
            then Some (err, kept ++ drop (length kept) cands, snd <$> targ) else
            match targ with
            | Some (_, res) => Some (0, kept, Some res)
            | None =>
                '(err, res) ← bpf_core_calc_relo (r_kind relo) local_spec None;
                Some (err, cands, Some res)
            end
      end
  end.

(** ** Patching *)

Definition insn_ok (i : bpf_insn) : Prop :=
  0 <= code i < 256 /\ - 32768 <= off i < 32768 /\ - 2 ^ 31 <= imm i < 2 ^ 31.

(** The 64-bit operand of a two-slot load. *)
Definition imm64 (i i1 : bpf_insn) : Z := u32 (imm i) + u32 (imm i1) * 2 ^ 32.

Definition is_mem (c : Z) : bool := (1 <=? BPF_CLASS c) && (BPF_CLASS c <=? 3).
Definition is_alu (c : Z) : bool := (BPF_CLASS c =? 4) || (BPF_CLASS c =? 7).

(** The operand the relocation is about, as an unsigned 64-bit number. *)
Definition operand (insns : list bpf_insn) (idx : Z) : option Z :=
  i ← aref insns idx;
  if is_mem (code i) then Some (u64 (off i))
  else if is_ldimm64_insn i then i1 ← aref insns (idx + 1); Some (imm64 i i1)
  else Some (u64 (imm i)).

(** The rest of the instruction: registers, class, mode and the other
    operand. *)
Definition same_rest (i i' : bpf_insn) : Prop :=
  dst_reg i' = dst_reg i /\ src_reg i' = src_reg i /\ BPF_CLASS (code i') = BPF_CLASS (code i) /\
  BPF_MODE (code i') = BPF_MODE (code i) /\
  (is_mem (code i) = false -> code i' = code i /\ off i' = off i) /\
  (is_mem (code i) = true -> imm i' = imm i).

Lemma code_bits c sz :
  0 <= c < 256 -> In sz [0; 8; 16; 24] ->
  let c' := u8 (Z.lor (Z.lor (BPF_MODE c) sz) (BPF_CLASS c)) in
  BPF_CLASS c' = BPF_CLASS c /\ BPF_MODE c' = BPF_MODE c /\ BPF_SIZE c' = sz.
Proof.
  intros Hc Hsz.
  assert (H : forallb (λ n, forallb (λ sz, let c := Z.of_nat n in
      let c' := u8 (Z.lor (Z.lor (BPF_MODE c) sz) (BPF_CLASS c)) in
      (BPF_CLASS c' =? BPF_CLASS c) && (BPF_MODE c' =? BPF_MODE c) && (BPF_SIZE c' =? sz))
      [0; 8; 16; 24]) (seq 0 256) = true) by (vm_compute; reflexivity).
  rewrite forallb_forall in H. specialize (H (Z.to_nat c) ltac:(apply in_seq; lia)).
  rewrite forallb_forall in H. specialize (H sz Hsz). rewrite Z2Nat.id in H by lia.
  cbv zeta in *. zbool. done.
Qed.

Lemma bpf_size_cases sz : 0 <= insn_bytes_to_bpf_size sz ->
  In sz [1; 2; 4; 8] /\ In (insn_bytes_to_bpf_size sz) [0; 8; 16; 24].
Proof.
  unfold insn_bytes_to_bpf_size. intros H. repeat case_match; simpl; try lia; tauto.
Qed.

Lemma size_bytes_of i sz : BPF_SIZE (code i) = insn_bytes_to_bpf_size sz -> In sz [1; 2; 4; 8] ->
  insn_bpf_size_to_bytes i = sz.
Proof.
  unfold insn_bpf_size_to_bytes. intros -> Hsz. by destruct Hsz as [<-|[<-|[<-|[<-|[]]]]].
Qed.

(** An instruction with an operand to patch: an ALU instruction with an
    immediate, an access to memory, or a load of 64 bits in two slots. *)
Definition patchable (insns : list bpf_insn) (idx : Z) (i : bpf_insn) : bool :=
  if is_alu (code i) then BPF_SRC (code i) =? 0
  else if is_mem (code i) then true
  else is_ldimm64_insn i && (src_reg i =? 0) && (off i =? 0) &&
    match aref insns (idx + 1) with
    | Some i1 => (code i1 =? 0) && (dst_reg i1 =? 0) && (src_reg i1 =? 0) && (off i1 =? 0)
    | None => false
    end.

(** The operand is the one the relocation was calculated for, if that is to
    be checked. *)
Definition expected (insns : list bpf_insn) (idx : Z) (res : relo_res) : Prop :=
  validate res = true -> operand insns idx = Some (orig_val res).

(** An access of another size: the instruction has the old one and can have
    the new one. *)
Definition size_fits (i : bpf_insn) (res : relo_res) : Prop :=
  new_sz res <> orig_sz res -> u32 (insn_bpf_size_to_bytes i) = orig_sz res /\ In (new_sz res) [1; 2; 4; 8].

(** Nothing but the instruction, and with [two] the next slot, differs. *)
Definition others_same (two : bool) (idx : Z) (insns insns' : list bpf_insn) : Prop :=
  length insns' = length insns /\
  forall j, j <> idx -> (j = idx + 1 -> two = false) -> aref insns' j = aref insns j.

(** The outcomes of a patch, and when they occur.  Only one of them can. *)
Inductive patched (insns : list bpf_insn) (idx : Z) (insn : bpf_insn) (res : relo_res) :
    Z -> list bpf_insn -> Prop :=
  | patch_refused :
      poison res = false -> patchable insns idx insn = false \/ ~ expected insns idx res ->
      patched insns idx insn res (- EINVAL) insns
  | patch_range :
      poison res = false -> is_mem (code insn) = true -> expected insns idx res -> 32767 < new_val res ->
      patched insns idx insn res (- ERANGE) insns
  | patch_late insns' :
      (** the offset is written before the sizes are looked at *)
      poison res = false -> is_mem (code insn) = true -> expected insns idx res -> new_val res <= 32767 ->
      fail_memsz_adjust res = false -> ~ size_fits insn res ->
      aref insns' idx = Some (set_off insn (new_val res)) -> others_same false idx insns insns' ->
      patched insns idx insn res (- EINVAL) insns'
  | patch_poisoned insns' :
      poison res = true \/
      is_mem (code insn) = true /\ expected insns idx res /\ new_val res <= 32767 /\ fail_memsz_adjust res = true ->
      aref insns' idx = Some bpf_core_poison_insn ->
      (is_ldimm64_insn insn = true -> aref insns' (idx + 1) = Some bpf_core_poison_insn) ->
      others_same (is_ldimm64_insn insn) idx insns insns' ->
      patched insns idx insn res 0 insns'
  | patch_done insns' insn' :
      poison res = false -> patchable insns idx insn = true -> expected insns idx res ->
      (is_mem (code insn) = true -> new_val res <= 32767 /\ fail_memsz_adjust res = false /\ size_fits insn res) ->
      aref insns' idx = Some insn' -> same_rest insn insn' ->
      (** only ALU instructions lose a part of the value *)
      operand insns' idx = Some (if is_alu (code insn) then u64 (s32 (new_val res)) else new_val res) ->
      (is_mem (code insn) = true ->
         if new_sz res =? orig_sz res then code insn' = code insn else insn_bpf_size_to_bytes insn' = new_sz res) ->
      (is_ldimm64_insn insn = true -> exists i1, aref insns (idx + 1) = Some i1 /\
         aref insns' (idx + 1) = Some (set_imm i1 (Z.shiftr (new_val res) 32))) ->
      others_same (is_ldimm64_insn insn) idx insns insns' ->
      patched insns idx insn res 0 insns'.

Lemma others_aset idx i insns insns' : aset insns idx i = Some insns' -> others_same false idx insns insns'.
Proof.
  intros Hs. pose proof (aset_inv _ _ _ _ Hs) as [_ ->]. split; [by rewrite length_insert|].
  intros j Hj _. apply (aref_aset_ne _ _ _ _ _ Hs). congruence.
Qed.

Lemma others_trans two idx l1 l2 l3 : others_same two idx l1 l2 -> others_same two idx l2 l3 -> others_same two idx l1 l3.
Proof. intros [L1 H1] [L2 H2]. split; [congruence|]. intros j Hj Ht. by rewrite H2, H1. Qed.

Lemma others_two idx l1 l2 : others_same false idx l1 l2 -> others_same true idx l1 l2.
Proof. intros [L H]. split; [done|]. intros j Hj Ht. by apply H. Qed.

Lemma others_next idx i insns insns' : aset insns (idx + 1) i = Some insns' -> others_same true idx insns insns'.
Proof.
  intros Hs. pose proof (aset_inv _ _ _ _ Hs) as [_ ->]. split; [by rewrite length_insert|].
  intros j Hj Ht. apply (aref_aset_ne _ _ _ _ _ Hs). intros <-. by discriminate Ht.
Qed.

Lemma do_poison_ok insns idx insn :
  aref insns idx = Some insn -> (is_ldimm64_insn insn = true -> is_Some (aref insns (idx + 1))) ->
  exists insns', do_poison insns idx insn = Some (0, insns') /\
    aref insns' idx = Some bpf_core_poison_insn /\
    (is_ldimm64_insn insn = true -> aref insns' (idx + 1) = Some bpf_core_poison_insn) /\
    others_same (is_ldimm64_insn insn) idx insns insns'.
Proof.
  intros Hi H1. unfold do_poison. destruct (is_ldimm64_insn insn); cbn [mbind option_bind].
  - destruct (H1 eq_refl) as [i1 Hi1].
    destruct (aset_defined insns (idx + 1) i1 bpf_core_poison_insn Hi1) as [l1 E1]. rewrite E1. cbn [mbind option_bind].
    destruct (aset_defined l1 idx insn bpf_core_poison_insn) as [l2 E2].
    { rewrite <- Hi. eapply aref_aset_ne; [done|lia]. }
    rewrite E2. cbn [mbind option_bind]. exists l2. split; [done|]. split; [by eapply aref_aset_eq|]. split.
    + intros _. rewrite (aref_aset_ne _ _ _ _ _ E2) by lia. by eapply aref_aset_eq.
    + eapply others_trans; [by eapply others_next|]. by eapply others_two, others_aset.
  - destruct (aset_defined insns idx insn bpf_core_poison_insn Hi) as [l E]. rewrite E. cbn [mbind option_bind].
    exists l. split; [done|]. split; [by eapply aref_aset_eq|]. split; [done|]. by eapply others_aset.
Qed.

Lemma alu_not_others c : is_alu c = true -> is_mem c = false /\ (c =? 24) = false.
Proof.
  unfold is_alu, is_mem. intros H. split; [lia|]. apply Z.eqb_neq. intros ->. done.
Qed.

(** The test of the operand. *)
Lemma expected_test insns idx res v : operand insns idx = Some v ->
  (validate res && negb (v =? orig_val res)) = true /\ ~ expected insns idx res \/
  (validate res && negb (v =? orig_val res)) = false /\ expected insns idx res.
Proof.
  intros Ho. unfold expected. rewrite Ho. destruct (validate res); cbn [andb]; [|by right].
  destruct (Z.eqb_spec v (orig_val res)) as [->|Hne]; cbn [negb]; [by right|left].
  split; [done|]. intros H. specialize (H eq_refl). congruence.
Qed.

Lemma patch_alu_spec insns idx insn res :
  aref insns idx = Some insn -> is_alu (code insn) = true -> poison res = false ->
  exists r insns', patch_alu insns idx insn res = Some (r, insns') /\ patched insns idx insn res r insns'.
Proof.
  intros Hi Hc Hp. unfold patch_alu. destruct (alu_not_others _ Hc) as [Hm Hl].
  destruct (BPF_SRC (code insn) =? 0) eqn:Hsrc; cbn [negb].
  2: { do 2 eexists. split; [done|]. apply patch_refused; [done|]. left. unfold patchable. by rewrite Hc. }
  assert (Hop : operand insns idx = Some (u64 (imm insn))).
  { unfold operand. rewrite Hi. cbn [mbind option_bind]. unfold is_ldimm64_insn. by rewrite Hm, Hl. }
  destruct (expected_test insns idx res _ Hop) as [[-> He]|[-> He]].
  { do 2 eexists. split; [done|]. apply patch_refused; [done|by right]. }
  destruct (aset_defined insns idx insn (set_imm insn (new_val res)) Hi) as [insns' Hs]. rewrite Hs.
  cbn [mbind option_bind]. do 2 eexists. split; [done|].
  apply (patch_done _ _ _ _ _ (set_imm insn (new_val res))); try done.
  - unfold patchable. by rewrite Hc.
  - by rewrite Hm.
  - by eapply aref_aset_eq.
  - unfold same_rest. by rewrite Hm.
  - unfold operand. rewrite (aref_aset_eq _ _ _ _ Hs). cbn [mbind option_bind set_imm code imm].
    unfold is_ldimm64_insn. cbn [set_imm code]. by rewrite Hm, Hl, Hc.
  - by rewrite Hm.
  - unfold is_ldimm64_insn. by rewrite Hl.
  - unfold is_ldimm64_insn. rewrite Hl. by eapply others_aset.
Qed.

Lemma mem_not_others c : is_mem c = true -> is_alu c = false /\ (c =? 24) = false.
Proof.
  unfold is_alu, is_mem. intros H. split; [lia|]. apply Z.eqb_neq. intros ->. done.
Qed.

Lemma patch_mem_spec insns idx insn res :
  aref insns idx = Some insn -> insn_ok insn -> is_mem (code insn) = true -> poison res = false ->
  0 <= new_val res < 2 ^ 64 ->
  exists r insns', patch_mem insns idx insn res = Some (r, insns') /\ patched insns idx insn res r insns'.
Proof.
  intros Hi (Hcode & _) Hc Hp Hnv. unfold patch_mem. destruct (mem_not_others _ Hc) as [Ha Hl].
  assert (Hl' : is_ldimm64_insn insn = false) by exact Hl.
  assert (Hop : operand insns idx = Some (u64 (off insn))) by (unfold operand; rewrite Hi; cbn; by rewrite Hc).
  destruct (expected_test insns idx res _ Hop) as [[-> He]|[-> He]].
  { do 2 eexists. split; [done|]. apply patch_refused; [done|by right]. }
  destruct (new_val res >? 32767) eqn:Hbig.
  { do 2 eexists. split; [done|]. apply patch_range; [done|done|done|lia]. }
  assert (Hle : new_val res <= 32767) by lia.
  destruct (fail_memsz_adjust res) eqn:Hfail.
  { destruct (do_poison_ok insns idx insn Hi) as (insns' & -> & H1 & H2 & H3); [by rewrite Hl'|].
    do 2 eexists. split; [done|]. apply patch_poisoned; [by right|done..]. }
  set (insn1 := set_off insn (new_val res)).
  assert (Hoff1 : u64 (off insn1) = new_val res).
  { unfold insn1, set_off. cbn [off]. rewrite swrap_small by (change (2 ^ (16 - 1)) with 32768; lia).
    apply wrap_small. pow2. lia. }
  destruct (aset_defined insns idx insn insn1 Hi) as [insns1 Hs1]. rewrite Hs1. cbn [mbind option_bind].
  pose proof (others_aset _ _ _ _ Hs1) as Ho1. pose proof (aref_aset_eq _ _ _ _ Hs1) as Hi1.
  assert (Hfinish : forall insns' insn', aref insns' idx = Some insn' ->
      BPF_CLASS (code insn') = BPF_CLASS (code insn) -> BPF_MODE (code insn') = BPF_MODE (code insn) ->
      off insn' = off insn1 -> dst_reg insn' = dst_reg insn -> src_reg insn' = src_reg insn ->
      imm insn' = imm insn -> size_fits insn res ->
      (if new_sz res =? orig_sz res then code insn' = code insn else insn_bpf_size_to_bytes insn' = new_sz res) ->
      others_same false idx insns insns' -> patched insns idx insn res 0 insns').
  { intros insns' insn' K1 K2 K3 K4 K5 K6 K7 K8 K9 K10.
    assert (Hm' : is_mem (code insn') = true) by (unfold is_mem in *; by rewrite K2).
    apply (patch_done _ _ _ _ _ insn'); try done.
    - unfold patchable. by rewrite Ha, Hc.
    - unfold same_rest. rewrite Hc. by split_and!.
    - unfold operand. rewrite K1. cbn [mbind option_bind]. by rewrite Hm', Ha, K4, Hoff1.
    - by rewrite Hl'.
    - by rewrite Hl'. }
  assert (Hlate : ~ size_fits insn res -> patched insns idx insn res (- EINVAL) insns1).
  { intros Hn. by apply patch_late. }
  destruct (Z.eqb_spec (new_sz res) (orig_sz res)) as [Hsz|Hsz].
  { do 2 eexists. split; [done|]. by apply (Hfinish insns1 insn1). }
  destruct (Z.eqb_spec (u32 (insn_bpf_size_to_bytes insn1)) (orig_sz res)) as [Hold|Hold]; cbn [negb].
  2: { do 2 eexists. split; [done|]. apply Hlate. intros H. by destruct (H Hsz). }
  destruct (Z.ltb_spec (insn_bytes_to_bpf_size (new_sz res)) 0) as [Hneg|Hnew].
  { do 2 eexists. split; [done|]. apply Hlate. intros H. destruct (H Hsz) as [_ Hin].
    destruct Hin as [E|[E|[E|[E|[]]]]]; by rewrite <- E in Hneg. }
  destruct (bpf_size_cases _ Hnew) as [Hin Hbits].
  destruct (code_bits (code insn1) _ Hcode Hbits) as (B1 & B2 & B3).
  set (insn2 := set_code _ _).
  destruct (aset_defined insns1 idx insn1 insn2 Hi1) as [insns2 Hs2]. rewrite Hs2.
  cbn [mbind option_bind]. do 2 eexists. split; [done|]. apply (Hfinish insns2 insn2); try done.
  - by eapply aref_aset_eq.
  - by apply size_bytes_of.
  - eapply others_trans; [exact Ho1|]. by eapply others_aset.
Qed.

Lemma imm64_set i i1 v :
  0 <= v < 2 ^ 64 -> imm64 (set_imm i v) (set_imm i1 (Z.shiftr v 32)) = v.
Proof.
  intros Hv. unfold imm64. cbn [set_imm imm]. rewrite Z.shiftr_div_pow2 by lia.
  change (2 ^ 64) with 18446744073709551616 in Hv.
  assert (E1 : u32 (s32 v) = v mod 4294967296) by width_lia.
  assert (E2 : u32 (s32 (v / 2 ^ 32)) = v / 4294967296).
  { change (2 ^ 32) with 4294967296. width_lia. }
  rewrite E1, E2. change (2 ^ 32) with 4294967296. Z.to_euclidean_division_equations. lia.
Qed.

Lemma patch_ldimm64_spec insns idx insn res :
  aref insns idx = Some insn -> BPF_CLASS (code insn) = 0 -> poison res = false ->
  (is_ldimm64_insn insn = true -> is_Some (aref insns (idx + 1))) -> 0 <= new_val res < 2 ^ 64 ->
  exists r insns', patch_ldimm64 insns idx insn res = Some (r, insns') /\ patched insns idx insn res r insns'.
Proof.
  intros Hi Hc Hp H1 Hnv. unfold patch_ldimm64.
  assert (Hm : is_mem (code insn) = false /\ is_alu (code insn) = false)
    by (unfold is_mem, is_alu; by rewrite Hc). destruct Hm as [Hm Ha].
  assert (Hrefuse : patchable insns idx insn = false -> exists r insns', Some (- EINVAL, insns) = Some (r, insns') /\
    patched insns idx insn res r insns').
  { intros Hpt. do 2 eexists. split; [done|]. apply patch_refused; [done|by left]. }
  assert (Ept : patchable insns idx insn = is_ldimm64_insn insn && (src_reg insn =? 0) && (off insn =? 0) &&
    match aref insns (idx + 1) with
    | Some i1 => (code i1 =? 0) && (dst_reg i1 =? 0) && (src_reg i1 =? 0) && (off i1 =? 0)
    | None => false
    end) by (unfold patchable; by rewrite Ha, Hm).
  destruct (is_ldimm64_insn insn) eqn:Hl; cbn [negb orb]; [|apply Hrefuse; by rewrite Ept].
  destruct (src_reg insn =? 0); cbn [negb orb]; [|apply Hrefuse; by rewrite Ept].
  destruct (off insn =? 0); cbn [negb]; [|apply Hrefuse; by rewrite Ept].
  destruct (H1 eq_refl) as [i1 Hi1]. rewrite Hi1 in Ept |- *. cbn [mbind option_bind].
  assert (Eneg : (negb (code i1 =? 0) || negb (dst_reg i1 =? 0) || negb (src_reg i1 =? 0) || negb (off i1 =? 0)) =
    negb (patchable insns idx insn)) by (rewrite Ept; cbn [andb]; by rewrite !negb_andb).
  rewrite Eneg. destruct (patchable insns idx insn) eqn:Hpt; cbn [negb]; [clear Eneg|by apply Hrefuse].
  assert (Hop : operand insns idx = Some (imm64 insn i1)).
  { unfold operand. rewrite Hi. cbn [mbind option_bind]. by rewrite Hm, Hl, Hi1. }
  fold (imm64 insn i1). destruct (expected_test insns idx res _ Hop) as [[-> He]|[-> He]].
  { do 2 eexists. split; [done|]. apply patch_refused; [done|by right]. }
  destruct (aset_defined insns idx insn (set_imm insn (new_val res)) Hi) as [insns1 Hs1]. rewrite Hs1.
  cbn [mbind option_bind].
  destruct (aset_defined insns1 (idx + 1) i1 (set_imm i1 (Z.shiftr (new_val res) 32))) as [insns2 Hs2].
  { rewrite <- Hi1. eapply aref_aset_ne; [done|lia]. }
  rewrite Hs2. cbn [mbind option_bind]. do 2 eexists. split; [done|].
  assert (Hat : aref insns2 idx = Some (set_imm insn (new_val res))).
  { rewrite (aref_aset_ne _ _ idx _ _ Hs2) by lia. by eapply aref_aset_eq. }
  apply (patch_done _ _ _ _ _ (set_imm insn (new_val res))); try done.
  - by rewrite Hm.
  - unfold same_rest. by rewrite Hm.
  - unfold operand. rewrite Hat. cbn [mbind option_bind set_imm code]. rewrite Hm, Ha.
    change (is_ldimm64_insn (set_imm insn (new_val res))) with (is_ldimm64_insn insn). rewrite Hl.
    rewrite (aref_aset_eq _ _ _ _ Hs2). cbn [mbind option_bind]. f_equal. by apply imm64_set.
  - by rewrite Hm.
  - intros _. exists i1. split; [done|]. by eapply aref_aset_eq.
  - rewrite Hl. eapply others_trans; [by eapply others_two, others_aset|]. by eapply others_next.
Qed.

(** C21: patching an instruction, for every instruction of a program and every
    relocation result.  The instruction (both slots of a 64-bit load) is
    replaced by the invalid call if that is asked for, or if the access size of
    a memory access cannot be adjusted.  Otherwise the patch fails with EINVAL
    and changes nothing exactly when the instruction has no operand of the
    three kinds or the old operand is to be checked and is not the expected
    one; with ERANGE, changing nothing, when a memory offset would exceed
    32767; and with EINVAL, but the new offset already written, when the access
    size changes and the instruction does not have the old one or the new one
    is none (the finding on a late failure).  In all other cases it succeeds:
    the operand is the calculated value - whole in memory accesses and two-slot
    loads, only its low 32 bits, sign-extended, in ALU instructions (the
    finding on truncation) -, the access size is the new one, and registers,
    class, mode and the other operand of the instruction and all other
    instructions are as they were. *)
Theorem core_patch_insn_bounds insns idx insn res :
  aref insns idx = Some insn -> insn_ok insn -> 0 <= new_val res < 2 ^ 64 ->
  (is_ldimm64_insn insn = true -> is_Some (aref insns (idx + 1))) ->
  exists r insns', bpf_core_patch_insn insns idx res = Some (r, insns') /\
    patched insns idx insn res r insns'.
Proof.
  intros Hi Hok Hnv H1. unfold bpf_core_patch_insn. rewrite Hi. cbn [mbind option_bind].
  destruct (poison res) eqn:Hp.
  { destruct (do_poison_ok insns idx insn Hi H1) as (insns' & -> & P1 & P2 & P3).
    do 2 eexists. split; [done|]. apply patch_poisoned; [by left|done..]. }
  assert (Hother : is_alu (code insn) = false /\ is_mem (code insn) = false /\ is_ldimm64_insn insn = false ->
    exists r insns', Some (- EINVAL, insns) = Some (r, insns') /\ patched insns idx insn res r insns').
  { intros (E1 & E2 & E3). do 2 eexists. split; [done|]. apply patch_refused; [done|left].
    unfold patchable. by rewrite E1, E2, E3. }
  assert (Hcls : BPF_CLASS (code insn) <> 0 -> is_ldimm64_insn insn = false).
  { intros Hne. unfold is_ldimm64_insn. apply Z.eqb_neq. intros E. by rewrite E in Hne. }
  assert (Halu : BPF_CLASS (code insn) = 4 \/ BPF_CLASS (code insn) = 7 -> is_alu (code insn) = true)
    by (unfold is_alu; lia).
  assert (Hmem : 1 <= BPF_CLASS (code insn) <= 3 -> is_mem (code insn) = true) by (unfold is_mem; lia).
  repeat case_match;
    first [apply patch_alu_spec; (done || apply Halu; lia)
          |apply patch_mem_spec; (done || apply Hmem; lia)
          |by apply patch_ldimm64_spec
          |apply Hother; split_and!; [unfold is_alu; lia|unfold is_mem; lia|apply Hcls; lia]].
Qed.

Lemma core_patch_insn_bounds_witness :
  exists r insns',
    bpf_core_patch_insn [Insn 121 1 2 8 0; Insn 149 0 0 0 0] 0 (ReloRes 8 16 false true false 8 1 4 1) =
      Some (r, insns') /\
    patched [Insn 121 1 2 8 0; Insn 149 0 0 0 0] 0 (Insn 121 1 2 8 0)
      (ReloRes 8 16 false true false 8 1 4 1) r insns'.
Proof.
  apply (core_patch_insn_bounds [Insn 121 1 2 8 0; Insn 149 0 0 0 0] 0 (Insn 121 1 2 8 0)
    (ReloRes 8 16 false true false 8 1 4 1)).
  - reflexivity.
  - unfold insn_ok; simpl; lia.
  - simpl; lia.
  - discriminate.
Defined.

(** ** Bit-fields *)

(** The aligned window of [s] bytes that holds bit [bo], and whether the
    field of [bs] bits from there on stays inside. *)
Definition window (bo s : Z) : Z := bo / 8 / s * s.
Definition fits (bo bs s : Z) : Prop := bo + bs <= (window bo s + s) * 8.

Lemma window_bounds bo s : 0 <= bo -> 0 < s -> 0 <= window bo s /\ window bo s * 8 <= bo < (window bo s + s) * 8.
Proof.
  intros Hb Hs. unfold window.
  pose proof (Z.div_mod bo 8 ltac:(lia)). pose proof (Z.mod_pos_bound bo 8 ltac:(lia)).
  pose proof (Z.div_mod (bo / 8) s ltac:(lia)). pose proof (Z.mod_pos_bound (bo / 8) s ltac:(lia)).
  assert (0 <= bo / 8) by (apply Z.div_pos; lia).
  assert (0 <= bo / 8 / s) by (apply Z.div_pos; lia). nia.
Qed.

Lemma fits_double bo bs s : 0 <= bo -> 0 < s -> fits bo bs s -> fits bo bs (s * 2).
Proof.
  intros Hb Hs. unfold fits, window. rewrite <- (Z.div_div (bo / 8) s 2) by lia.
  pose proof (Z.div_mod (bo / 8 / s) 2 ltac:(lia)). pose proof (Z.mod_pos_bound (bo / 8 / s) 2 ltac:(lia)).
  nia.
Qed.

Lemma bitfield_test bo bs s :
  0 <= bo -> 0 < bs <= 64 -> bo + 64 < 2 ^ 32 -> In s [1; 2; 4; 8] ->
  (u32 (bo + bs - window bo s * 8) >? u32 (s * 8)) = true <-> ~ fits bo bs s.
Proof.
  intros Hb Hbs Hlt Hs. assert (0 < s <= 8) by (destruct Hs as [<-|[<-|[<-|[<-|[]]]]]; lia).
  destruct (window_bounds bo s Hb ltac:(lia)) as [H1 H2]. unfold fits.
  rewrite !wrap_small by (pow2; lia). lia.
Qed.

(** The loop finds the smallest load, or none up to 8 bytes holds the field. *)
Lemma bitfield_load_spec bo bs : 0 <= bo -> 0 < bs <= 64 -> bo + 64 < 2 ^ 32 ->
  forall fuel s, In s [1; 2; 4; 8] -> 8 < s * 2 ^ Z.of_nat fuel ->
  bitfield_load fuel bo bs s (window bo s) = Some (inl (- E2BIG)) /\ ~ fits bo bs 8 \/
  exists s', bitfield_load fuel bo bs s (window bo s) = Some (inr (s', window bo s')) /\
    In s' [1; 2; 4; 8] /\ s <= s' /\ fits bo bs s' /\
    forall s0, In s0 [1; 2; 4; 8] -> s <= s0 < s' -> ~ fits bo bs s0.
Proof.
  intros Hb Hbs Hlt fuel. induction fuel as [|fuel IH]; intros s Hs Hf.
  { destruct Hs as [<-|[<-|[<-|[<-|[]]]]]; simpl in Hf; lia. }
  cbn [bitfield_load]. pose proof (bitfield_test bo bs s Hb Hbs Hlt Hs) as Ht.
  destruct (_ >? _).
  2: { right. exists s. split_and!; [done|done|lia| |lia].
       destruct (Z.le_gt_cases (bo + bs) ((window bo s + s) * 8)); [done|]. exfalso.
       enough (false = true) by done. apply Ht. unfold fits. lia. }
  pose proof (proj1 Ht eq_refl) as Hn.
  destruct (Z.geb_spec s 8) as [H8|H8].
  { left. split; [done|]. destruct Hs as [<-|[<-|[<-|[<-|[]]]]]; try lia. done. }
  assert (Hs2 : In (s * 2) [1; 2; 4; 8]) by (destruct Hs as [<-|[<-|[<-|[<-|[]]]]]; simpl; lia).
  fold (window bo (s * 2)). destruct (IH (s * 2) Hs2) as [[E Hno]|(s' & E & Hin & Hle & Hfit & Hmin)].
  { rewrite Nat2Z.inj_succ, Z.pow_succ_r in Hf by lia. lia. }
  - left. by split.
  - right. exists s'. assert (0 < s) by (destruct Hs as [<-|[<-|[<-|[<-|[]]]]]; lia).
    split_and!; [done|done|lia|done|].
    intros s0 H0 Hr. destruct (Z.le_gt_cases (s * 2) s0) as [|Hlt0]; [apply Hmin; [done|lia]|].
    assert (s0 = s); [|by subst].
    clear -Hs H0 Hr Hlt0. destruct Hs as [<-|[<-|[<-|[<-|[]]]]], H0 as [<-|[<-|[<-|[<-|[]]]]]; lia.
Qed.

(** A load of [s] bytes at byte [o] of the memory [M] (a number, least
    significant bit first), shifted left and right by the calculated amounts. *)
Definition load_bits (M o s : Z) : Z := M / 2 ^ (8 * o) mod 2 ^ (8 * s).

Lemma extract_bits M o s bo bs :
  0 <= o -> 0 < s <= 8 -> 8 * o <= bo -> 0 < bs -> bo + bs <= (o + s) * 8 ->
  let l := 64 - (bo + bs - o * 8) in let r := 64 - bs in
  u64 (load_bits M o s * 2 ^ l) / 2 ^ r = M / 2 ^ bo mod 2 ^ bs.
Proof.
  intros Ho Hs Hle Hbs Hfit l r. unfold load_bits, wrap. apply Z.bits_inj'. intros n Hn.
  rewrite Z.div_pow2_bits by lia.
  destruct (Z.lt_ge_cases n bs) as [Hlt|Hge].
  - rewrite Z.mod_pow2_bits_low, Z.mul_pow2_bits, !Z.mod_pow2_bits_low, !Z.div_pow2_bits by lia.
    f_equal. lia.
  - rewrite !Z.mod_pow2_bits_high by lia. done.
Qed.

(** The same with an arithmetic shift to the right: the field as a signed
    number. *)
Lemma extract_bits_signed M o s bo bs :
  0 <= o -> 0 < s <= 8 -> 8 * o <= bo -> 0 < bs -> bo + bs <= (o + s) * 8 ->
  let l := 64 - (bo + bs - o * 8) in let r := 64 - bs in
  s64 (load_bits M o s * 2 ^ l) / 2 ^ r = swrap bs (M / 2 ^ bo).
Proof.
  intros Ho Hs Hle Hbs Hfit l r. pose proof (extract_bits M o s bo bs Ho Hs Hle Hbs Hfit) as E.
  cbv zeta in E. fold l r in E. unfold wrap in E.
  set (X := load_bits M o s * 2 ^ l) in *. set (F := M / 2 ^ bo) in *.
  assert (Hsw : forall w x, 0 < w -> swrap w x = if x mod 2 ^ w <? 2 ^ (w - 1) then x mod 2 ^ w else x mod 2 ^ w - 2 ^ w).
  { intros w x Hw. unfold swrap. pose proof (Z.mod_pos_bound x (2 ^ w) ltac:(lia)) as Hb.
    assert (Hp : 2 ^ w = 2 * 2 ^ (w - 1)) by (rewrite <- Z.pow_succ_r by lia; f_equal; lia).
    rewrite <- (Z.add_mod_idemp_l x) by lia.
    destruct (Z.ltb_spec (x mod 2 ^ w) (2 ^ (w - 1))).
    - rewrite (Z.mod_small (_ + _)) by lia. lia.
    - rewrite <- (Zmod_unique (x mod 2 ^ w + 2 ^ (w - 1)) (2 ^ w) 1 (x mod 2 ^ w - 2 ^ (w - 1))); lia. }
  rewrite !Hsw by lia. rewrite <- E.
  pose proof (Z.mod_pos_bound X (2 ^ 64) ltac:(lia)) as HX. set (Y := X mod 2 ^ 64) in *.
  assert (P1 : 2 ^ (64 - 1) = 2 ^ (bs - 1) * 2 ^ r) by (rewrite <- Z.pow_add_r by lia; f_equal; lia).
  assert (P2 : 2 ^ 64 = 2 ^ bs * 2 ^ r) by (rewrite <- Z.pow_add_r by lia; f_equal; lia).
  assert (Hr : 0 < 2 ^ r) by lia.
  assert (HY : Y / 2 ^ r < 2 ^ (bs - 1) <-> Y < 2 ^ (64 - 1)).
  { rewrite P1. split.
    - intros H. pose proof (Z.div_mod Y (2 ^ r) ltac:(lia)). pose proof (Z.mod_pos_bound Y (2 ^ r) Hr). nia.
    - intros H. apply Z.div_lt_upper_bound; lia. }
  destruct (Z.ltb_spec Y (2 ^ (64 - 1))), (Z.ltb_spec (Y / 2 ^ r) (2 ^ (bs - 1))); try lia; try tauto.
  rewrite P2.
  replace (Y - 2 ^ bs * 2 ^ r) with (Y + (- 2 ^ bs) * 2 ^ r) by lia. rewrite Z.div_add by lia. lia.
Qed.

(** The last accessor of a specification is a bit-field of [bs] bits, of a
    type of [s0] bytes. *)
Definition bitfield_member (spec : core_spec) (s0 bs : Z) : Prop :=
  exists acc nm t ty mt fid,
    last (cs_spec spec) = Some acc /\ a_name acc = Some nm /\
    btf_type_by_id (cs_btf spec) (a_type_id acc) = Some t /\
    member_type t (a_idx acc) = Some ty /\
    skip_mods_and_typedefs (cs_btf spec) ty = Some (mt, fid) /\
    btf_member_bitfield_size t (a_idx acc) = Some bs /\ t_size mt = Some s0.

(** What the relocations of one field calculate. *)
Definition calculates (spec : core_spec) (k : relo_kind) (v : Z) : Prop :=
  forall res, exists res', bpf_core_calc_field_relo k (Some spec) res = Some (0, res') /\ f_val res' = v.

Lemma calc_bitfield k spec s0 bs res :
  k <> FIELD_EXISTS -> bitfield_member spec s0 bs -> 0 < s0 -> 0 < bs ->
  exists mt fid, t_size mt = Some s0 /\
  bpf_core_calc_field_relo k (Some spec) res =
    (r ← bitfield_load 5 (cs_bit_offset spec) bs s0 (window (cs_bit_offset spec) s0);
     match r with
     | inl err => Some (err, set_field res 0 (f_type_id res))
     | inr (byte_sz, byte_off) =>
         calc_member_relo k mt fid (cs_bit_offset spec) bs byte_sz byte_off true
           (set_field res 0 (f_type_id res))
     end).
Proof.
  intros Hk (acc & nm & t & ty & mt & fid & H1 & H2 & H3 & H4 & H5 & H6 & H7) Hs Hbs.
  exists mt, fid. split; [done|]. unfold bpf_core_calc_field_relo.
  rewrite bool_decide_eq_false_2 by done. rewrite H1. cbn [mbind option_bind]. rewrite H3.
  cbn [mbind option_bind]. rewrite H2, H4. cbn [mbind option_bind]. rewrite H5. cbn [mbind option_bind].
  rewrite H6. cbn [mbind option_bind]. destruct (Z.gtb_spec bs 0); [|lia]. rewrite H7.
  cbn [mbind option_bind]. destruct (Z.eqb_spec s0 0); [lia|]. done.
Qed.

Lemma calc_bitfield_val k spec s0 bs s o v :
  k <> FIELD_EXISTS -> bitfield_member spec s0 bs -> 0 < s0 -> 0 < bs ->
  bitfield_load 5 (cs_bit_offset spec) bs s0 (window (cs_bit_offset spec) s0) = Some (inr (s, o)) ->
  (forall mt fid res, exists res',
     calc_member_relo k mt fid (cs_bit_offset spec) bs s o true res = Some (0, res') /\ f_val res' = v) ->
  calculates spec k v.
Proof.
  intros Hk Hm H0 Hbs E Hv res.
  destruct (calc_bitfield k spec s0 bs res Hk Hm H0 Hbs) as (mt & fid & _ & ->). rewrite E. apply Hv.
Qed.

(** C20: reading a bit-field.  The relocations for the offset, the size and
    the two shifts of a bit-field agree on one aligned load, the smallest
    that holds the whole field among those no smaller than its type; loading it from any memory and shifting left
    and right by the calculated amounts yields exactly the bits of the field,
    as an unsigned or, with an arithmetic shift, as a signed number.  When no
    load of up to 8 bytes holds the field, each of the relocations fails with
    E2BIG. *)
Theorem bitfield_relo_equiv spec s0 bs :
  bitfield_member spec s0 bs -> In s0 [1; 2; 4; 8] -> 0 < bs <= 64 ->
  0 <= cs_bit_offset spec -> cs_bit_offset spec + 64 < 2 ^ 32 ->
  let bo := cs_bit_offset spec in
  (~ fits bo bs 8 /\
   forall k res, k <> FIELD_EXISTS ->
     bpf_core_calc_field_relo k (Some spec) res = Some (- E2BIG, set_field res 0 (f_type_id res))) \/
  exists o s l r,
    calculates spec FIELD_BYTE_OFFSET o /\ calculates spec FIELD_BYTE_SIZE s /\
    calculates spec FIELD_LSHIFT_U64 l /\ calculates spec FIELD_RSHIFT_U64 r /\
    In s [1; 2; 4; 8] /\ s0 <= s /\ o = window bo s /\
    (forall s', In s' [1; 2; 4; 8] -> s0 <= s' < s -> ~ fits bo bs s') /\
    0 <= l < 64 /\ 0 <= r < 64 /\
    forall M, u64 (load_bits M o s * 2 ^ l) / 2 ^ r = M / 2 ^ bo mod 2 ^ bs /\
              s64 (load_bits M o s * 2 ^ l) / 2 ^ r = swrap bs (M / 2 ^ bo).
Proof.
  intros Hm Hs0 Hbs Hbo Hlt bo. assert (H0 : 0 < s0) by (destruct Hs0 as [<-|[<-|[<-|[<-|[]]]]]; lia).
  destruct (bitfield_load_spec bo bs Hbo Hbs Hlt 5 s0 Hs0 ltac:(lia))
    as [[E Hno]|(s & E & Hs & Hle & Hfit & Hmin)].
  - left. split; [done|]. intros k res Hk.
    destruct (calc_bitfield k spec s0 bs res Hk Hm H0 ltac:(lia)) as (mt & fid & _ & ->). fold bo.
    by rewrite E.
  - right. assert (0 < s <= 8) by (destruct Hs as [<-|[<-|[<-|[<-|[]]]]]; lia).
    destruct (window_bounds bo s Hbo ltac:(lia)) as [Ho1 Ho2]. unfold fits in Hfit.
    exists (window bo s), s, (64 - (bo + bs - window bo s * 8)), (64 - bs).
    assert (Hc : forall k v, k <> FIELD_EXISTS ->
      (forall mt fid res, exists res',
         calc_member_relo k mt fid bo bs s (window bo s) true res = Some (0, res') /\ f_val res' = v) ->
      calculates spec k v) by (intros k v Hk; apply (calc_bitfield_val k spec s0 bs); (done || lia)).
    split_and!; try done; try lia;
      try (apply Hc; [done|]; intros mt fid res; eexists; split; [reflexivity|cbn; try done]).
    + apply wrap_small. pow2. lia.
    + apply wrap_small. pow2. lia.
    + intros M. split; [apply extract_bits|apply extract_bits_signed]; lia.
Qed.

(** ** Paths through types *)

(** One step of an access, as the source of the program has it. *)
Inductive step :=
  | SField (nm : list Z)
  | SIndex (i : Z).

Definition composite_at (b : btf) (id : Z) (t : tptr) (id' vl : Z) : Prop :=
  (exists n, skips b n id t id') /\ btf_is_composite t = Some true /\ btf_vlen t = Some vl.

Definition array_at (b : btf) (id : Z) (t : tptr) (id' e nelems : Z) : Prop :=
  (exists n, skips b n id t id') /\ btf_is_array t = Some true /\
  array_type t = Some e /\ array_nelems t = Some nelems.

(** The member [i] of [t]: its offset in bits, its name and its type. *)
Definition member_at (b : btf) (t : tptr) (i d : Z) (nm : option (list Z)) (ty : Z) : Prop :=
  btf_member_bit_offset t i = Some d /\
  (exists no, member_name_off t i = Some no /\ name_at b no = Some nm) /\ member_type t i = Some ty.

(** The raw indices [raw] lead from the type [id] to the bit offset [o]; the
    unnamed members on the way are no steps of the source.  An index behind
    the end is only possible in an array without length. *)
Inductive walk (b : btf) : Z -> list Z -> Z -> list step -> Prop :=
  | walk_nil id : walk b id [] 0 []
  | walk_field id t id' vl i d nm ty raw o ss :
      composite_at b id t id' vl -> 0 <= i < vl -> member_at b t i d (Some nm) ty -> nm <> [] ->
      walk b ty raw o ss -> walk b id (i :: raw) (d + o) (SField nm :: ss)
  | walk_anon id t id' vl i d nm ty raw o ss :
      composite_at b id t id' vl -> 0 <= i < vl -> member_at b t i d nm ty -> str_is_empty nm = true ->
      walk b ty raw o ss -> walk b id (i :: raw) (d + o) ss
  | walk_index id t id' e nelems te e' n i sz raw o ss :
      array_at b id t id' e nelems -> skips b n e te e' -> 0 <= i -> i < nelems \/ nelems <= 0 ->
      resolve_size b e' = Some sz -> 0 <= sz ->
      walk b e' raw o ss -> walk b id (i :: raw) (i * sz * 8 + o) (SIndex i :: ss).

(** The first index goes through a pointer to the root type. *)
Inductive walk_root (b : btf) (root : Z) : list Z -> Z -> list step -> Prop :=
  | walk_first n t id i sz raw o ss :
      skips b n root t id -> 0 <= i -> resolve_size b id = Some sz -> 0 <= sz ->
      walk b id raw o ss -> walk_root b root (i :: raw) (i * sz * 8 + o) (SIndex i :: ss).

Definition step_of (a : accessor) : step :=
  match a_name a with Some nm => SField nm | None => SIndex (a_idx a) end.

(** The path of a specification, its offset counted in 32 bits. *)
Definition spec_walks (s : core_spec) (ss : list step) : Prop :=
  map step_of (cs_spec s) = ss /\
  exists o, walk_root (cs_btf s) (cs_root_type_id s) (cs_raw s) o ss /\ cs_bit_offset s = u32 o.

(** The member called [nm], looked for in unnamed members too: the indices to
    it, its offset, its type and the type it is a direct member of. *)
Inductive reaches (b : btf) (nm : list Z) : Z -> list Z -> Z -> Z -> Z -> Prop :=
  | reaches_composite id t id' vl i p o ty own :
      composite_at b id t id' vl -> 0 <= i < vl -> reaches_member b nm t id' i p o ty own ->
      reaches b nm id (i :: p) o ty own
with reaches_member (b : btf) (nm : list Z) : tptr -> Z -> Z -> list Z -> Z -> Z -> Z -> Prop :=
  | reaches_here t id i d ty :
      member_at b t i d (Some nm) ty -> nm <> [] -> reaches_member b nm t id i [] d ty id
  | reaches_in t id i d nm' ty p o ty' own :
      member_at b t i d nm' ty -> str_is_empty nm' = true -> reaches b nm ty p o ty' own ->
      reaches_member b nm t id i p (d + o) ty' own.

(** Names of members are unique, as the language has it. *)
Definition unique_names (b : btf) : Prop :=
  forall nm id p o ty own p' o' ty' own',
    reaches b nm id p o ty own -> reaches b nm id p' o' ty' own' -> p = p'.

Lemma member_at_det b t i d nm ty d' nm' ty' :
  member_at b t i d nm ty -> member_at b t i d' nm' ty' -> d' = d /\ nm' = nm /\ ty' = ty.
Proof.
  intros (H1 & (no & H2 & H3) & H4) (H5 & (no' & H6 & H7) & H8).
  assert (no' = no) as -> by congruence. split_and!; congruence.
Qed.

Lemma composite_at_det b id t id' vl t2 id2 vl2 :
  composite_at b id t id' vl -> composite_at b id t2 id2 vl2 -> t2 = t /\ id2 = id' /\ vl2 = vl.
Proof.
  intros ([n H1] & _ & H2) ([m H3] & _ & H4). destruct (skips_det _ _ _ _ _ H1 _ _ _ H3) as (_ & -> & ->).
  split_and!; congruence.
Qed.

(** The way to a name is a path. *)
Lemma reaches_walk b nm id p o ty own raw o' ss :
  reaches b nm id p o ty own -> walk b ty raw o' ss -> walk b id (p ++ raw) (o + o') (SField nm :: ss).
Proof.
  intros H Hw. revert id o H. induction p as [|i p IH]; intros id o H; inversion H; subst.
  match goal with H : reaches_member _ _ _ _ _ _ _ _ _ |- _ => inversion H; subst end.
  - by eapply walk_field.
  - rewrite <- Z.add_assoc. eapply walk_anon; [done|done|done|done|by apply IH].
Qed.

Lemma resolve_loop_range fuel : forall b t nelems sz b', 0 <= nelems < 2 ^ 32 ->
  resolve_loop fuel b t nelems = Some (sz, b') -> - EINVAL <= sz < 2 ^ 32.
Proof.
  assert (Hd : forall size nelems, 0 <= nelems < 2 ^ 32 -> - EINVAL <= resolve_done size nelems < 2 ^ 32).
  { intros size nelems Hn. unfold resolve_done. destruct (Z.ltb_spec size 0); [lia|].
    destruct (Z.eqb_spec nelems 0) as [->|]; cbn [negb andb]; [lia|].
    destruct (Z.gtb_spec size (UINT32_MAX / nelems)) as [|Hs]; [lia|].
    pose proof (Z.mul_div_le UINT32_MAX nelems ltac:(lia)). nia. }
  induction fuel as [|fuel IH]; intros b t nelems sz b' Hn; cbn [resolve_loop].
  { intros [= <- _]. by apply Hd. }
  intros H. inv_bind H. destruct x; [injection H as <- _; by apply Hd|].
  inv_bind H. inv_bind H.
  case_match; repeat (inv_bind H || case_match); try (injection H as <- _); try apply Hd; try lia;
    try (by eapply IH, H).
  - eapply IH, H. apply wrap_range. lia.
Qed.

(** ** Matching a member *)

Definition off_ok (s : core_spec) : Prop := 0 <= cs_bit_offset s < 2 ^ 32.

Lemma add_off_ok s d : off_ok (add_off s d).
Proof. apply wrap_range. lia. Qed.

Lemma pop_push s d i : off_ok s -> pop_raw (add_off (push_raw (add_off s d) i) (- d)) = s.
Proof.
  intros Ho. unfold pop_raw, add_off, push_raw, with_path. destruct s as [b sp r k raw off]. unfold off_ok in Ho.
  cbn [cs_btf cs_spec cs_root_type_id cs_relo_kind cs_raw cs_bit_offset] in *. rewrite removelast_last.
  f_equal. unfold wrap. rewrite Z.add_mod_idemp_l by lia.
  replace (off + d + - d) with off by lia. apply Z.mod_small. lia.
Qed.

(** The specification behind a member that has been found. *)
Definition found_spec (s : core_spec) (nm : list Z) (p : list Z) (o own : Z) : core_spec :=
  with_path s (cs_spec s ++ [{| a_type_id := own; a_idx := List.last p 0; a_name := Some nm |}])
    (cs_raw s ++ p) (u32 (cs_bit_offset s + o)).

Lemma found_spec_in s nm d i p o own : p <> [] ->
  found_spec (push_raw (add_off s d) i) nm p o own = found_spec s nm (i :: p) (d + o) own.
Proof.
  intros Hp. unfold found_spec, push_raw, add_off, with_path.
  cbn [cs_btf cs_spec cs_root_type_id cs_relo_kind cs_raw cs_bit_offset].
  rewrite <- app_assoc. f_equal.
  - by destruct p.
  - unfold wrap. rewrite Z.add_mod_idemp_l by lia. f_equal. lia.
Qed.

Lemma reaches_path b nm id p o ty own : reaches b nm id p o ty own -> p <> [].
Proof. by inversion 1. Qed.

Lemma reaches_member_inv b nm t id i q o ty own d nm' ty' :
  member_at b t i d nm' ty' -> reaches_member b nm t id i q o ty own ->
  nm' = Some nm /\ nm <> [] \/ str_is_empty nm' = true /\ exists o', reaches b nm ty' q o' ty own.
Proof.
  intros Hm Hr. inversion Hr as [? ? ? d1 ? Hm'|? ? ? d1 nm1 ty1 ? o1 ? ? Hm' He Hr']; subst;
    destruct (member_at_det _ _ _ _ _ _ _ _ _ Hm Hm') as (_ & <- & <-); [by left|right].
  split; [done|by eexists].
Qed.

Section MatchMemberSpec.
Context (lb : btf) (local_acc : accessor) (tb : btf) (lty : tptr) (nm : list Z) (local_ty : Z).
Context (Hlty : btf_type_by_id lb (a_type_id local_acc) = Some lty).
Context (Hnm : exists no, member_name_off lty (a_idx local_acc) = Some no /\ name_at lb no = Some (Some nm)).
Context (Hty : member_type lty (a_idx local_acc) = Some local_ty).
Context (Huniq : unique_names tb).

(** The outcomes of looking for [nm] among the paths of [R]: it is not there;
    it is, and the types have been compared; or the search has failed. *)
Inductive searched (R : list Z -> Z -> Z -> Z -> Prop) (s : core_spec) : Z -> core_spec -> Z -> Prop :=
  | searched_absent next : (forall p o ty own, ~ R p o ty own) -> searched R s 0 s next
  | searched_other p o ty own s' next :
      R p o ty own -> bpf_core_fields_are_compat lb local_ty tb ty = Some 0 -> searched R s 0 s' next
  | searched_found p o ty own r :
      R p o ty own -> bpf_core_fields_are_compat lb local_ty tb ty = Some r -> r <> 0 ->
      searched R s r (found_spec s nm p o own) ty
  | searched_failed r s' next : r < 0 -> searched R s r s' next.

(** The paths through the members of [t] from the [i]-th on, [n] of them. *)
Definition in_members (t : tptr) (id i : Z) (n : nat) (p : list Z) (o ty own : Z) : Prop :=
  exists j q, p = j :: q /\ i <= j < i + Z.of_nat n /\ reaches_member tb nm t id j q o ty own.

Lemma in_members_step t id i n p o ty own :
  in_members t id i (S n) p o ty own <->
  (exists q, p = i :: q /\ reaches_member tb nm t id i q o ty own) \/ in_members t id (i + 1) n p o ty own.
Proof.
  split.
  - intros (j & q & -> & Hj & Hr). destruct (decide (j = i)) as [->|]; [left; by exists q|].
    right. exists j, q. split_and!; [done|lia|lia|done].
  - intros [(q & -> & Hr)|(j & q & -> & Hj & Hr)].
    + exists i, q. split_and!; [done|lia|lia|done].
    + exists j, q. split_and!; [done|lia|lia|done].
Qed.

(** What is found behind the [i]-th member is found from it on. *)
Lemma searched_later t id i n s r s' next :
  (forall q o ty own, ~ reaches_member tb nm t id i q o ty own) ->
  searched (in_members t id (i + 1) n) s r s' next -> searched (in_members t id i (S n)) s r s' next.
Proof.
  intros Hno H. destruct H as [next Habs|p o ty own s' next Hin Hc|p o ty own r Hin Hc Hr|r s' next Hr].
  - apply searched_absent. intros p o ty own [(q & -> & Hq)|Hin]%in_members_step; [by eapply Hno|by eapply Habs].
  - eapply searched_other; [apply in_members_step; by right|done].
  - eapply searched_found; [apply in_members_step; by right|done|done].
  - by apply searched_failed.
Qed.

Lemma match_members_spec rec t id0 id vl :
  composite_at tb id0 t id vl ->
  (forall ty s next r s' next', off_ok s -> rec ty s next = Some (r, s', next') ->
     searched (reaches tb nm ty) s r s' next') ->
  forall n i s next r s' next', off_ok s -> 0 <= i -> i + Z.of_nat n <= vl ->
    match_members lb tb rec t id (Some nm) local_ty i n s next = Some (r, s', next') ->
    searched (in_members t id i n) s r s' next'.
Proof.
  intros Ht Hrec. induction n as [|n IH]; intros i s next r s' next' Hs Hi Hn.
  { cbn. intros [= <- <- <-]. apply searched_absent. intros p o ty own (j & q & _ & Hj & _). lia. }
  cbn [match_members]. intros H. apply bind_Some in H as (d & Hd & H).
  destruct (_ =? _)%nat.
  { injection H as <- <- <-. by apply searched_failed. }
  apply bind_Some in H as (no & Hno & H). apply bind_Some in H as (tn & Htn & H).
  apply bind_Some in H as (ty & Hmt & H).
  assert (Hm : member_at tb t i d tn ty) by (split_and!; [done|by exists no|done]).
  assert (Hin : str_is_empty tn = true ->
    ('(found, spec, next) ← rec ty (push_raw (add_off s d) i) next;
     if negb (found =? 0) then Some (found, spec, next)
     else match_members lb tb rec t id (Some nm) local_ty (i + 1) n (pop_raw (add_off spec (- d))) next) =
      Some (r, s', next') -> searched (in_members t id i (S n)) s r s' next').
  { intros He H1. apply bind_Some in H1 as ([[f s1] nx] & Hf & H1).
    apply Hrec in Hf; [|apply add_off_ok].
    destruct Hf as [nx Habs|p o ty' own s1 nx Hr Hc|p o ty' own f Hr Hc Hf0|f s1 nx Hf0].
    - cbn [Z.eqb negb] in H1. rewrite pop_push in H1 by done. apply IH in H1; [|done|lia|lia].
      apply searched_later; [|done]. intros q o ty' own Hq.
      destruct (reaches_member_inv _ _ _ _ _ _ _ _ _ _ _ _ Hm Hq) as [[-> ?]|[_ [o' Hr]]].
      + by destruct nm.
      + by eapply Habs.
    - cbn [Z.eqb negb] in H1. apply IH in H1; [|apply add_off_ok|lia|lia].
      assert (Hi0 : in_members t id i (S n) (i :: p) (d + o) ty' own).
      { exists i, p. split_and!; [done|lia|lia|]. by eapply reaches_in. }
      assert (Hdup : forall q o2 ty2 own2, ~ in_members t id (i + 1) n q o2 ty2 own2).
      { intros q o2 ty2 own2 (j & q' & -> & Hj & Hq). 
        assert (E : i :: p = j :: q'); [|injection E as <-; lia].
        eapply (Huniq nm id0); (eapply reaches_composite; [done|lia|]); [by eapply reaches_in|done]. }
      inversion H1; subst; try (by eapply Hdup in H0); [by eapply searched_other|by apply searched_failed].
    - assert (negb (f =? 0) = true) as E by lia. rewrite E in H1. injection H1 as <- <- <-.
      rewrite found_spec_in by (by eapply reaches_path).
      eapply searched_found; [|done|done]. apply in_members_step. left. exists p. split; [done|].
      by eapply reaches_in.
    - assert (negb (f =? 0) = true) as E by lia. rewrite E in H1. injection H1 as <- <- <-.
      by apply searched_failed. }
  destruct tn as [[|c tn]|]; [by apply Hin| |by apply Hin]. clear Hin. cbn [mbind option_bind] in H.
  destruct (Z.eqb_spec (strcmp nm (c :: tn)) 0) as [E|E].
  - apply strcmp_eq in E. apply bind_Some in H as (f & Hf & H). injection H as <- <- <-.
    assert (Hr : in_members t id i (S n) [i] d ty id).
    { apply in_members_step. left. exists []. split; [done|]. rewrite E in *. by eapply reaches_here. }
    destruct (Z.eqb_spec f 0) as [->|Hf0]; [by eapply searched_other|].
    replace (push_acc _ _) with (found_spec s nm [i] d id); [by eapply searched_found|].
    unfold found_spec, push_acc, push_raw, add_off, with_path. by rewrite E.
  - apply IH in H; [|by rewrite pop_push|lia|lia]. rewrite pop_push in H by done.
    apply searched_later; [|done]. intros q o ty' own Hq.
    destruct (reaches_member_inv _ _ _ _ _ _ _ _ _ _ _ _ Hm Hq) as [[[= <-] ?]|[He _]]; [|done].
    apply E. by apply strcmp_eq.
Qed.

(** The search finds the member of that name, wherever it is nested. *)
Lemma match_member_spec fuel : forall id s next r s' next', off_ok s ->
  bpf_core_match_member lb local_acc tb fuel id s next = Some (r, s', next') ->
  searched (reaches tb nm id) s r s' next'.
Proof.
  induction fuel as [|fuel IH]; intros id s next r s' next' Hs; [done|]. cbn [bpf_core_match_member].
  intros H. apply bind_Some in H as ([t id'] & Hsk & H). apply skip_mods_inv in Hsk as [m Hsk].
  apply bind_Some in H as (comp & Hc & H). destruct comp; cbn [negb] in H.
  2: { injection H as <- <- <-. apply searched_absent. intros p o ty own Hr. inversion Hr; subst.
       destruct H as ([m' Hsk'] & Hc' & _).
       destruct (skips_det _ _ _ _ _ Hsk _ _ _ Hsk') as (_ & -> & _). congruence. }
  rewrite Hlty in H. cbn [mbind option_bind] in H. destruct Hnm as (no & H1 & H2). rewrite H1 in H.
  cbn [mbind option_bind] in H. rewrite H2 in H. cbn [mbind option_bind] in H. rewrite Hty in H.
  cbn [mbind option_bind] in H. apply bind_Some in H as (vl & Hv & H).
  assert (Hat : composite_at tb id t id' vl) by (split_and!; [by exists m|done|done]).
  assert (0 <= vl) by (unfold btf_vlen in Hv; apply bind_Some in Hv as (x & _ & [= <-]); apply vlen_range).
  eapply match_members_spec in H; [|done|exact IH|done|lia|lia].
  assert (Hiff : forall p o ty own, reaches tb nm id p o ty own <-> in_members t id' 0 (Z.to_nat vl) p o ty own).
  { intros p o ty own. split.
    - intros Hr. inversion Hr; subst. destruct (composite_at_det _ _ _ _ _ _ _ _ Hat H3) as (-> & -> & ->).
      exists i, p0. split_and!; [done|lia|lia|done].
    - intros (j & q & -> & Hj & Hq). eapply reaches_composite; [done|lia|done]. }
  destruct H as [nx Habs|p o ty own s' nx Hin Hc'|p o ty own r Hin Hc' Hr|r s' nx Hr].
  - apply searched_absent. intros p o ty own Hr%Hiff. by eapply Habs.
  - eapply searched_other; [by apply Hiff|done].
  - eapply searched_found; [by apply Hiff|done|done].
  - by apply searched_failed.
Qed.
End MatchMemberSpec.

(** ** Specifications are paths *)

Lemma composite_skipped b n id t id' t2 id2 vl :
  skips b n id t id' -> composite_at b id' t2 id2 vl -> composite_at b id t2 id2 vl.
Proof.
  intros Hs ([m Hm] & Hc). destruct (skips_det _ _ _ _ _ (skips_result _ _ _ _ _ Hs) _ _ _ Hm) as (_ & -> & ->).
  split; [by exists n|done].
Qed.

Lemma array_skipped b n id t id' t2 id2 e k :
  skips b n id t id' -> array_at b id' t2 id2 e k -> array_at b id t2 id2 e k.
Proof.
  intros Hs ([m Hm] & Hc). destruct (skips_det _ _ _ _ _ (skips_result _ _ _ _ _ Hs) _ _ _ Hm) as (_ & -> & ->).
  split; [by exists n|done].
Qed.

Lemma walk_skipped b n id t id' raw o ss : skips b n id t id' -> walk b id' raw o ss -> walk b id raw o ss.
Proof.
  intros Hs Hw. inversion Hw; subst; [by constructor|eapply walk_field|eapply walk_anon|eapply walk_index];
    try (by eapply composite_skipped); try (by eapply array_skipped); done.
Qed.

Lemma skips_by_id b n id t id' : skips b n id t id' -> btf_type_by_id b id' = Some t.
Proof.
  intros (k & [H _] & _)%skips_kind. unfold btf__type_by_id in H. case_match; [done|].
  destruct (btf_type_by_id b id'); [|done]. simpl in H. congruence.
Qed.

(** An accessor of a local specification can be looked up again. *)
Definition acc_ok (b : btf) (a : accessor) : Prop :=
  match a_name a with
  | None => 0 <= a_idx a < 2 ^ 31
  | Some nm => exists t ty, btf_type_by_id b (a_type_id a) = Some t /\
      (exists no, member_name_off t (a_idx a) = Some no /\ name_at b no = Some (Some nm)) /\
      member_type t (a_idx a) = Some ty
  end.

(** [s'] goes on from [s] by the accessors [accs], which lead from [id] along
    the raw indices. *)
Definition goes_on (b : btf) (id : Z) (s s' : core_spec) (accs : list accessor) (raws : list Z) : Prop :=
  cs_btf s' = cs_btf s /\ cs_root_type_id s' = cs_root_type_id s /\
  cs_relo_kind s' = cs_relo_kind s /\ cs_spec s' = cs_spec s ++ accs /\
  exists o, walk b id raws o (map step_of accs) /\ cs_bit_offset s' = u32 (cs_bit_offset s + o).

Lemma u32_add_add x d o : u32 (u32 (x + d) + o) = u32 (x + (d + o)).
Proof. unfold wrap. rewrite Z.add_mod_idemp_l by lia. f_equal. lia. Qed.

Lemma flex_no_length b a k : is_flex_arr b a k = Some true -> k <= 0.
Proof. unfold is_flex_arr. destruct (a_name a); [|done]. destruct (Z.gtb_spec k 0); [done|lia]. Qed.

Lemma in_range_or_flex b a k flex i :
  is_flex_arr b a k = Some flex -> negb flex && (i >=? k) = false -> i < k \/ k <= 0.
Proof. destruct flex; [intros Hf%flex_no_length; by right|cbn; lia]. Qed.

(** The empty string is at offset 0. *)
Definition empty_at_0 (b : btf) : Prop := name_at b 0 = Some (Some []).

Lemma parse_accessors_spec b : empty_at_0 b -> forall raws id s s', off_ok s -> Forall (λ i, 0 <= i < 2 ^ 31) raws ->
  parse_accessors b raws id s = Some (inr s') ->
  exists accs, Forall (acc_ok b) accs /\ cs_raw s' = cs_raw s /\ goes_on b id s s' accs raws.
Proof.
  intros H0. induction raws as [|i raws IH]; intros id s s' Hs Hraw; cbn [parse_accessors].
  { intros [= <-]. exists []. split_and!; [done|done|].
    split_and!; try done; [by rewrite app_nil_r|]. exists 0. split; [constructor|].
    rewrite Z.add_0_r. symmetry. by apply wrap_small. }
  apply Forall_cons in Hraw as [Hi Hraw]. intros H. apply bind_Some in H as ([t id'] & Hsk & H).
  apply skip_mods_inv in Hsk as [n Hsk]. apply bind_Some in H as (comp & Hc & H).
  apply bind_Some in H as (arr & Ha & H). assert (Hu : u32 i = i) by (apply wrap_small; lia).
  destruct comp; [|destruct arr; [|done]].
  - apply bind_Some in H as (vl & Hv & H). destruct (Z.geb_spec i vl) as [|Hlt]; [done|].
    apply bind_Some in H as (d & Hd & H). apply bind_Some in H as (no & Hno & H).
    apply bind_Some in H as (ty & Hty & H).
    assert (Hat : composite_at b id t id' vl) by (split_and!; [by exists n|done|done]).
    destruct (Z.eqb_spec no 0) as [->|Hno0]; cbn [negb] in H.
    + apply IH in H as (accs & Hok & Hr & G1 & G2 & G3 & G4 & o & Hw & Ho); [|apply add_off_ok|done].
      exists accs. split_and!; [done|done|]. split_and!; try done. exists (d + o).
      split; [|rewrite Ho; apply u32_add_add].
      eapply (walk_anon b id t id' vl i d (Some []) ty); [done|lia| |done|done].
      split_and!; [done|by exists 0|done].
    + apply bind_Some in H as (nm & Hnm & H). destruct nm as [[|c nm]|]; [done| |done].
      cbn [str_is_empty] in H. rewrite Hu in H.
      apply IH in H as (accs & Hok & Hr & G1 & G2 & G3 & G4 & o & Hw & Ho); [|apply add_off_ok|done].
      exists ({| a_type_id := id'; a_idx := i; a_name := Some (c :: nm) |} :: accs).
      split_and!; [constructor; [|done]|done|].
      * exists t, ty.
        split_and!; [by eapply skips_by_id|by exists no|done].
      * split_and!; try done; [by rewrite G4; cbn; rewrite <- app_assoc|]. exists (d + o). split.
        -- eapply (walk_field b id t id' vl i d (c :: nm) ty); [done|lia| |done|done].
           split_and!; [done|by exists no|done].
        -- rewrite Ho. apply u32_add_add.
  - apply bind_Some in H as (e & He & H). apply bind_Some in H as ([te e'] & Hsk' & H).
    apply skip_mods_inv in Hsk' as [n' Hsk']. apply bind_Some in H as (k & Hk & H).
    apply bind_Some in H as (a & Hlast & H). apply bind_Some in H as (flex & Hflex & H).
    destruct (negb flex && _) eqn:Hb; [done|]. rewrite Hu in Hb, H.
    apply bind_Some in H as (sz & Hsz & H). destruct (Z.ltb_spec sz 0) as [|Hsz0]; [done|].
    apply IH in H as (accs & Hok & Hr & G1 & G2 & G3 & G4 & o & Hw & Ho); [|apply add_off_ok|done].
    exists ({| a_type_id := e'; a_idx := i; a_name := None |} :: accs).
    split_and!; [constructor; [|done]|done|].
    + unfold acc_ok. cbn. lia.
    + split_and!; try done; [by rewrite G4; cbn; rewrite <- app_assoc|]. exists (i * sz * 8 + o). split.
      * eapply (walk_index b id t id' e k te e' n' i sz); try done; [|lia|by eapply in_range_or_flex].
        split_and!; [by exists n|done|done|done].
      * rewrite Ho. apply u32_add_add.
Qed.

Lemma s32_range x : - 2 ^ 31 <= s32 x < 2 ^ 31.
Proof. width_lia. Qed.

Lemma scan_int_range s v rest : scan_int s = Some (v, rest) -> - 2 ^ 31 <= v < 2 ^ 31.
Proof.
  unfold scan_int. intros H. destruct (match skip_spaces s with 45 :: s' => _ | _ => _ end) as [neg s'].
  destruct s' as [|c s']; [done|]. destruct (is_digit c); [|done].
  destruct (scan_digits _ _) as [x r]. injection H as <- _. apply s32_range.
Qed.

Lemma parse_raw_range fuel : forall s raw raws, parse_raw fuel s raw = Some (inr raws) ->
  Forall (λ i, - 2 ^ 31 <= i < 2 ^ 31) raw -> Forall (λ i, - 2 ^ 31 <= i < 2 ^ 31) raws.
Proof.
  induction fuel as [|fuel IH]; intros s raw raws; [done|]. cbn [parse_raw].
  destruct s as [|c s]; [by intros [= <-]|]. destruct (scan_int _) as [[v rest]|] eqn:E; [|done].
  destruct (_ =? _)%nat; [done|]. intros H Hr. eapply IH; [done|]. apply Forall_app. split; [done|].
  constructor; [by eapply scan_int_range|constructor].
Qed.

Lemma parse_accessors_raw b : forall raws id s s', parse_accessors b raws id s = Some (inr s') ->
  cs_raw s' = cs_raw s.
Proof.
  induction raws as [|i raws IH]; intros id s s' H; cbn [parse_accessors] in H; [by injection H as <-|].
  repeat (apply bind_Some in H as (? & _ & H) || case_match); try discriminate H; by apply IH in H.
Qed.

(** Parsing a field relocation yields a path of the local types. *)
Lemma parse_spec_spec b relo s :
  empty_at_0 b -> core_relo_is_field_based (r_kind relo) = true ->
  bpf_core_parse_spec b relo = Some (inr s) -> Forall (λ i, 0 <= i) (cs_raw s) ->
  cs_btf s = b /\ cs_relo_kind s = r_kind relo /\ Forall (acc_ok b) (cs_spec s) /\
  (exists a accs, cs_spec s = a :: accs /\ a_name a = None) /\ spec_walks s (map step_of (cs_spec s)).
Proof.
  intros H0 Hf H Hpos. unfold bpf_core_parse_spec in H. apply bind_Some in H as (str & _ & H).
  destruct str as [[|c rest]|]; [done| |done]. destruct (c =? 58); [done|].
  assert (Hnt : core_relo_is_type_based (r_kind relo) = false) by (by destruct (r_kind relo)).
  assert (Hne : core_relo_is_enumval_based (r_kind relo) = false) by (by destruct (r_kind relo)).
  rewrite Hnt in H. apply bind_Some in H as (r & Hr & H). destruct r as [|raws]; [done|].
  destruct raws as [|i raws]; [done|]. apply bind_Some in H as ([t id] & Hsk & H).
  apply skip_mods_inv in Hsk as [n Hsk]. rewrite Hne, Hf in H. cbn [negb] in H.
  apply bind_Some in H as (sz & Hsz & H). destruct (Z.ltb_spec sz 0) as [|Hsz0]; [done|].
  apply parse_raw_range in Hr; [|constructor].
  assert (Hraw : cs_raw s = i :: raws -> Forall (λ i, 0 <= i < 2 ^ 31) (i :: raws)).
  { intros E. rewrite E in Hpos. rewrite Forall_forall in Hpos. rewrite Forall_forall in Hr.
    apply Forall_forall. intros x Hx. specialize (Hpos x Hx). specialize (Hr x Hx). simpl in Hr. lia. }
  assert (Hkeep : cs_raw s = i :: raws).
  { by apply parse_accessors_raw in H. }
  apply Hraw in Hkeep as Hall. apply Forall_cons in Hall as [Hi Hall].
  assert (Hu : u32 i = i) by (apply wrap_small; lia). rewrite Hu in H.
  apply parse_accessors_spec in H as (accs & Hok & _ & G1 & G2 & G3 & G4 & o & Hw & Ho);
    [|done|apply add_off_ok|done].
  cbn in G1, G2, G3, G4, Ho. split_and!; [done|done| | |].
  - rewrite G4. constructor; [unfold acc_ok; cbn; lia|done].
  - rewrite G4. by do 2 eexists.
  - split; [done|]. exists (i * sz * 8 + o). rewrite G1, G2, G4, Hkeep. split.
    + cbn. eapply walk_first; [done|lia|done|done|done].
    + rewrite Ho. by rewrite u32_add_add.
Qed.

Lemma resolve_size_range b id sz : resolve_size b id = Some sz -> - EINVAL <= sz < 2 ^ 32.
Proof.
  unfold resolve_size. intros H. apply bind_Some in H as ([x b'] & H & [= <-]).
  unfold btf__resolve_size in H. apply bind_Some in H as (t & _ & H).
  eapply resolve_loop_range, H. lia.
Qed.

Lemma size_as_int sz : - EINVAL <= sz < 2 ^ 32 -> 0 <= s32 sz -> s32 sz = sz /\ 0 <= sz.
Proof.
  intros Hr Hs. destruct (Z.lt_ge_cases sz (2 ^ 31)).
  - rewrite swrap_small in * by (change (2 ^ (32 - 1)) with (2 ^ 31); lia). lia.
  - exfalso. width_lia.
Qed.

(** What is matched accessor by accessor is a path of the same steps. *)
Lemma match_accessors_spec lb tb : unique_names tb ->
  forall accs id s r s', Forall (acc_ok lb) accs -> off_ok s ->
    match_accessors lb tb accs false id s = Some (r, s') -> 0 < r ->
    r = 1 /\ exists accs' raws, map step_of accs' = map step_of accs /\
      cs_raw s' = cs_raw s ++ raws /\ goes_on tb id s s' accs' raws.
Proof.
  intros Hu. induction accs as [|a accs IH]; intros id s r s' Hok Hs; cbn [match_accessors].
  { intros [= <- <-] _. split; [done|]. exists [], []. split_and!; [done|by rewrite app_nil_r|].
    split_and!; try done; [by rewrite app_nil_r|]. exists 0. split; [constructor|].
    rewrite Z.add_0_r. symmetry. by apply wrap_small. }
  apply Forall_cons in Hok as [Ha Hok]. intros H Hpos. apply bind_Some in H as ([t id'] & Hsk & H).
  apply skip_mods_inv in Hsk as [n Hsk]. unfold acc_ok in Ha. destruct (a_name a) as [nm|] eqn:Hn.
  - apply bind_Some in H as ([[m s1] next] & Hm & H). destruct Ha as (lty & ty & H1 & H2 & H3).
    eapply match_member_spec in Hm; [|done..].
    destruct (Z.leb_spec m 0) as [|Hm0]; [injection H as <- _; lia|].
    inversion Hm as [|?|p o ty' own ? Hr Hc _|]; subst; try lia.
    apply IH in H as (-> & accs' & raws & E1 & E2 & G1 & G2 & G3 & G4 & o' & Hw & Ho);
      [|done|apply wrap_range; lia|done].
    split; [done|]. exists ({| a_type_id := own; a_idx := List.last p 0; a_name := Some nm |} :: accs'), (p ++ raws).
    split_and!.
    + cbn [map]. rewrite E1. f_equal. unfold step_of. by rewrite Hn.
    + rewrite E2. cbn. by rewrite <- app_assoc.
    + split_and!; [done|done|done|by rewrite G4; cbn; rewrite <- app_assoc|].
      exists (o + o'). split.
      * eapply walk_skipped; [done|]. cbn [map]. by eapply (reaches_walk tb nm).
      * rewrite Ho. apply u32_add_add.
  - apply bind_Some in H as (q & Hq & H).
    apply bind_Some in Hq as (arr & Harr & Hq). destruct arr; cbn [negb] in Hq.
    2: { injection Hq as <-. injection H as <- _. lia. }
    apply bind_Some in Hq as (k & Hk & Hq). apply bind_Some in Hq as (prev & _ & Hq).
    apply bind_Some in Hq as (flex & Hflex & Hq). destruct (negb flex && _) eqn:Hb.
    { injection Hq as <-. injection H as <- _. lia. }
    apply bind_Some in Hq as (e & He & Hq). apply bind_Some in Hq as ([te e'] & Hsk' & Hq).
    injection Hq as <-. apply skip_mods_inv in Hsk' as [n' Hsk'].
    destruct (_ =? _)%nat; [injection H as <- _; lia|].
    apply bind_Some in H as (sz & Hsz & H). destruct (Z.ltb_spec (s32 sz) 0) as [|Hsz0]; [injection H as <- _; lia|].
    destruct (size_as_int sz (resolve_size_range _ _ _ Hsz) Hsz0) as [Hint Hsz1]. rewrite Hint in H.
    assert (Hi : s32 (a_idx a) = a_idx a) by (apply swrap_small; change (2 ^ (32 - 1)) with (2 ^ 31); lia).
    rewrite Hi in H.
    apply IH in H as (-> & accs' & raws & E1 & E2 & G1 & G2 & G3 & G4 & o' & Hw & Ho);
      [|done|apply add_off_ok|done].
    split; [done|]. exists ({| a_type_id := e'; a_idx := a_idx a; a_name := None |} :: accs'), (a_idx a :: raws).
    split_and!.
    + cbn [map]. rewrite E1. f_equal. unfold step_of. by rewrite Hn.
    + rewrite E2. cbn. by rewrite <- app_assoc.
    + split_and!; [done|done|done|by rewrite G4; cbn; rewrite <- app_assoc|].
      exists (a_idx a * sz * 8 + o'). split.
      * cbn [map]. eapply (walk_index tb id t id' e k te e' n' (a_idx a) sz); try done; [|lia|by eapply in_range_or_flex].
        split_and!; [by exists n|done|done|done].
      * rewrite Ho. apply u32_add_add.
Qed.

(** The first accessor stands for the pointer to the root type. *)
Lemma match_root_spec lb tb a accs id s r s' : unique_names tb -> a_name a = None ->
  Forall (acc_ok lb) (a :: accs) -> cs_spec s = [] -> cs_raw s = [] -> cs_bit_offset s = 0 ->
  match_accessors lb tb (a :: accs) true id s = Some (r, s') -> 0 < r ->
  r = 1 /\ cs_btf s' = cs_btf s /\ cs_root_type_id s' = cs_root_type_id s /\
  map step_of (cs_spec s') = map step_of (a :: accs) /\
  exists o, walk_root tb id (cs_raw s') o (map step_of (a :: accs)) /\ cs_bit_offset s' = u32 o.
Proof.
  intros Hu Hn Hok Hs1 Hs2 Hs3 H Hpos. apply Forall_cons in Hok as [Ha Hok]. unfold acc_ok in Ha.
  rewrite Hn in Ha. cbn [match_accessors] in H. apply bind_Some in H as ([t id'] & Hsk & H).
  apply skip_mods_inv in Hsk as [n Hsk]. rewrite Hn in H. cbn [mbind option_bind] in H.
  destruct (_ =? _)%nat; [injection H as <- _; lia|].
  apply bind_Some in H as (sz & Hsz & H). destruct (Z.ltb_spec (s32 sz) 0) as [|Hsz0]; [injection H as <- _; lia|].
  destruct (size_as_int sz (resolve_size_range _ _ _ Hsz) Hsz0) as [Hint Hsz1]. rewrite Hint in H.
  assert (Hi : s32 (a_idx a) = a_idx a) by (apply swrap_small; change (2 ^ (32 - 1)) with (2 ^ 31); lia).
  rewrite Hi in H.
  apply match_accessors_spec in H as (-> & accs' & raws & E1 & E2 & G1 & G2 & G3 & G4 & o' & Hw & Ho);
    [|done|done|apply add_off_ok|done].
  assert (Hstep : step_of a = SIndex (a_idx a)) by (unfold step_of; by rewrite Hn).
  cbn in E2, G1, G2, G4, Ho. rewrite Hs2 in E2. rewrite Hs1 in G4. rewrite Hs3 in Ho.
  split_and!; [done|done|done| |].
  - rewrite G4. cbn [app map]. rewrite E1. f_equal. rewrite Hstep. reflexivity.
  - exists (a_idx a * sz * 8 + o'). rewrite E2. cbn [app map]. rewrite Hstep, <- E1. split.
    + eapply walk_first; [done|lia|done|done|done].
    + rewrite Ho. by rewrite u32_add_add.
Qed.

(** C5: relocating a field.  A parsed specification is a path through the
    local types: its bit offset is the sum of the offsets of the members and
    array elements on the way.  When a specification of a target matches it,
    that is a path through the target's types of the same steps - the same
    names, the same array indices, through whatever unnamed members the
    target has -, and its bit offset is that of this path. *)
Theorem core_match_same_path lb tb relo ls depth targ_id r ts :
  empty_at_0 lb -> unique_names tb ->
  bpf_core_parse_spec lb relo = Some (inr ls) -> core_relo_is_field_based (r_kind relo) = true ->
  Forall (λ i, 0 <= i) (cs_raw ls) ->
  bpf_core_spec_match depth ls tb targ_id = Some (r, ts) -> 0 < r ->
  r = 1 /\ cs_btf ts = tb /\ cs_root_type_id ts = targ_id /\
  exists ss, spec_walks ls ss /\ spec_walks ts ss.
Proof.
  intros H0 Hu Hp Hf Hraw Hm Hr.
  destruct (parse_spec_spec lb relo ls H0 Hf Hp Hraw) as (Hb & Hk & Hok & (a & accs & Ea & Hn) & Hw).
  unfold bpf_core_spec_match in Hm. rewrite Hk in Hm.
  assert (Hnt : core_relo_is_type_based (r_kind relo) = false) by (by destruct (r_kind relo)).
  assert (Hne : core_relo_is_enumval_based (r_kind relo) = false) by (by destruct (r_kind relo)).
  rewrite Hnt, Hne, Hf, Ea, Hb in Hm. cbn [negb] in Hm. rewrite Ea in Hok.
  apply match_root_spec in Hm as (-> & G1 & G2 & G3 & o & Hwt & Ho); try done.
  cbn in G1, G2. split_and!; [done|done|done|]. exists (map step_of (cs_spec ls)). split; [done|].
  split; [by rewrite Ea|]. exists o. rewrite G1, G2, Ea. done.
Qed.

(** ** Checking that names are unique *)

(** Names and paths of all members of a type, unnamed ones searched; [None]
    where they are nested deeper than the fuel. *)
Fixpoint member_paths (fuel : nat) (b : btf) (id : Z) : option (list (list Z * list Z)) :=
  match fuel with
  | O => None
  | S fuel =>
      match skip_mods_and_typedefs b id with
      | None => Some []
      | Some (t, _) =>
          match btf_is_composite t, btf_vlen t with
          | Some true, Some vl =>
              (@concat _) <$> mapM (λ i : nat,
                match (no ← member_name_off t (Z.of_nat i); name_at b no), member_type t (Z.of_nat i) with
                | Some nm, Some ty =>
                    if str_is_empty nm
                    then l ← member_paths fuel b ty; Some (map (λ x, (x.1, Z.of_nat i :: x.2)) l)
                    else Some [(default [] nm, [Z.of_nat i])]
                | _, _ => Some []
                end) (seq 0 (Z.to_nat vl))
          | _, _ => Some []
          end
      end
  end.

Definition names_unique_at (fuel : nat) (b : btf) (id : Z) : bool :=
  match member_paths fuel b id with
  | Some l => bool_decide (NoDup (map fst l))
  | None => false
  end.

Definition check_unique_names (fuel : nat) (b : btf) : bool :=
  forallb (λ i, names_unique_at fuel b (Z.of_nat i)) (seq 0 (Z.to_nat (btf__type_cnt b))).

Lemma member_paths_complete b nm : forall fuel id p o ty own l, reaches b nm id p o ty own ->
  member_paths fuel b id = Some l -> (nm, p) ∈ l.
Proof.
  induction fuel as [|fuel IH]; intros id p o ty own l Hr; [done|]. cbn [member_paths].
  inversion Hr as [? t id' vl i q ? ? ? ([n Hsk] & Hc & Hv) Hi Hm]; subst.
  rewrite (skip_mods_spec _ _ _ _ _ Hsk), Hc, Hv. intros H.
  apply fmap_Some in H as (ls & Hls & ->). apply mapM_Some in Hls.
  destruct (Forall2_lookup_l _ _ _ (Z.to_nat i) (Z.to_nat i) Hls) as (x & Hx & Hf).
  { apply lookup_seq. lia. }
  rewrite Z2Nat.id in Hf by lia. apply list_elem_of_In, in_concat. exists x.
  split; [apply list_elem_of_In; by eapply list_elem_of_lookup_2|]. apply list_elem_of_In.
  inversion Hm as [? ? ? d ? (Hd & (no & Hno & Hnm) & Hty) Hne|? ? ? d nm' ty' ? ? ? ? (Hd & (no & Hno & Hnm) & Hty) He Hr'];
    subst; rewrite Hno in Hf; cbn [mbind option_bind] in Hf; rewrite Hnm, Hty in Hf.
  - destruct nm as [|c nm]; [done|]. injection Hf as <-. by apply list_elem_of_singleton.
  - rewrite He in Hf. apply bind_Some in Hf as (l' & Hl' & [= <-]).
    apply list_elem_of_fmap. exists (nm, q). split; [done|]. by eapply IH.
Qed.

Lemma NoDup_fst_unique {A B} (l : list (A * B)) a x y : NoDup (map fst l) -> (a, x) ∈ l -> (a, y) ∈ l -> x = y.
Proof.
  intros Hnd [i Hi]%list_elem_of_lookup_1 [j Hj]%list_elem_of_lookup_1.
  assert (i = j) as ->; [|congruence].
  eapply (NoDup_lookup (map fst l) i j a); [done| |]; rewrite list_lookup_fmap; [by rewrite Hi|by rewrite Hj].
Qed.

Lemma check_unique_sound fuel b : check_unique_names fuel b = true -> unique_names b.
Proof.
  intros Hall nm id p o ty own p' o' ty' own' H1 H2.
  assert (Hid : 0 <= id < btf__type_cnt b).
  { inversion H1 as [? t id' vl ? ? ? ? ? ([n Hsk] & _)]; subst.
    inversion Hsk as [? ? ? Ht|? ? ? ? ? ? ? Ht]; subst; by eapply type_at_range. }
  unfold check_unique_names in Hall. rewrite forallb_forall in Hall.
  specialize (Hall (Z.to_nat id) ltac:(apply in_seq; lia)). rewrite Z2Nat.id in Hall by lia.
  unfold names_unique_at in Hall. destruct (member_paths fuel b id) as [l|] eqn:E; [|done].
  apply bool_decide_eq_true in Hall.
  eapply NoDup_fst_unique; [done|by eapply member_paths_complete|by eapply member_paths_complete].
Qed.

(** ** Concrete objects *)

(** [1] int, [2] struct s___v1 { int a; int f : 3 at bit 30 of 12 bytes; int b[4]; },
    [3] int[4], [4] const s___v1; names at 1, 5, 12, 14, 16, and the access
    strings "0:1" at 18, "0:2:3" at 22 and "0:-100" at 28. *)
Definition ex_local : btf :=
  obj [1; 16777216; 4; 32;
       5; 2214592515; 24;  12; 1; 0;  14; 1; 50331678;  16; 3; 64;
       0; 50331648; 0; 1; 1; 4;
       0; 167772160; 2]
      ["int"; "s___v1"; "a"; "f"; "b"; "0:1"; "0:2:3"; "0:-100"]%string.

(** [1] int, [2] struct s { int pad; union { int x; int b[4]; }; int a; },
    [3] int[4], [4] the union; names at 1, 5, 7, 11, 13, 15. *)
Definition ex_target : btf :=
  obj [1; 16777216; 4; 32;
       5; 67108867; 24;  7; 1; 0;  0; 4; 32;  13; 1; 160;
       0; 50331648; 0; 1; 1; 4;
       0; 83886082; 16;  11; 1; 0;  15; 3; 0]
      ["int"; "s"; "pad"; "x"; "a"; "b"]%string.

Definition relo_for (str_off : Z) (k : relo_kind) : bpf_core_relo :=
  {| r_insn_off := 0; r_type_id := 2; r_access_str_off := str_off; r_kind := k |}.

Definition parsed (b : btf) (r : bpf_core_relo) : core_spec :=
  match bpf_core_parse_spec b r with
  | Some (inr s) => s
  | _ => {| cs_btf := b; cs_spec := []; cs_root_type_id := 0; cs_relo_kind := RELO_OTHER; cs_raw := [];
            cs_bit_offset := 0 |}
  end.

Definition ex_bitfield : core_spec := parsed ex_local (relo_for 18 FIELD_BYTE_OFFSET).
Definition ex_elem : core_spec := parsed ex_local (relo_for 22 FIELD_BYTE_OFFSET).

(** b[3] is at byte 20 locally and at byte 16 of the target, behind its
    unnamed union. *)
Example ex_match :
  (λ '(r, s), (r, cs_raw s, cs_bit_offset s)) <$> bpf_core_spec_match 1 ex_elem ex_target 2
    = Some (1, [0; 1; 1; 3], 128) /\
  cs_raw ex_elem = [0; 2; 3] /\ cs_bit_offset ex_elem = 160.
Proof. repeat split; vm_compute; reflexivity. Qed.

Example ex_calc :
  (λ '(r, cands, res), (r, length cands, option_map orig_val res, option_map new_val res)) <$>
    bpf_core_calc_relo_insn 1 (relo_for 22 FIELD_BYTE_OFFSET) ex_local [(ex_target, 2)]
    = Some (0, 1%nat, Some 20, Some 16).
Proof. vm_compute. reflexivity. Qed.

Lemma bitfield_relo_equiv_witness :
  calculates ex_bitfield FIELD_BYTE_OFFSET 0 /\ calculates ex_bitfield FIELD_BYTE_SIZE 8.
Proof.
  destruct (bitfield_relo_equiv ex_bitfield 4 3) as [[Hno _]|(o & s & l & r & H1 & H2 & _ & _ & Hs & H4 & -> & Hmin & _)].
  - unfold bitfield_member. do 6 eexists. repeat (split; [vm_compute; reflexivity|]). vm_compute; reflexivity.
  - simpl. tauto.
  - lia.
  - vm_compute. discriminate.
  - vm_compute. reflexivity.
  - destruct Hno. vm_compute. discriminate.
  - assert (s = 8) as ->.
    { destruct Hs as [<-|[<-|[<-|[<-|[]]]]]; try lia. exfalso.
      destruct (H2 (FieldRes 0 0 0 true)) as (res & E & Hv). vm_compute in E.
      injection E as <-. discriminate Hv. }
    split; [exact H1|exact H2].
Defined.

Definition ex_matched : core_spec :=
  match bpf_core_spec_match 1 ex_elem ex_target 2 with Some (_, s) => s | None => ex_elem end.

Lemma core_match_same_path_witness :
  cs_btf ex_matched = ex_target /\ exists ss, spec_walks ex_elem ss /\ spec_walks ex_matched ss.
Proof.
  destruct (core_match_same_path ex_local ex_target (relo_for 22 FIELD_BYTE_OFFSET) ex_elem 1 2 1 ex_matched)
    as (_ & H1 & _ & H2).
  - vm_compute. reflexivity.
  - apply (check_unique_sound 3). vm_compute. reflexivity.
  - vm_compute. reflexivity.
  - reflexivity.
  - vm_compute. repeat constructor; discriminate.
  - vm_compute. reflexivity.
  - lia.
  - split; [exact H1|exact H2].
Defined.


(** ** What the code does not guard against *)

(** An index is compared with the number of members as a signed number: a
    negative one is taken, and read in front of the members. *)
Fact negative_index_out_of_bounds :
  bpf_core_parse_spec ex_local (relo_for 28 FIELD_BYTE_OFFSET) = None.
Proof. vm_compute. reflexivity. Qed.

(** [1] an unused const, [2] an int of no bytes, [3] a struct with
    a bit-field of it. *)
Definition ex_bad : btf :=
  obj [0; 167772160; 9;  1; 16777216; 0; 0;
       1; 2214592513; 8;  3; 2; 16777216] ["i"; "f"; "0:0"]%string.

(** The offset of a bit-field is divided by the size of its type, 0. *)
Fact bitfield_division_by_zero :
  cs_raw (parsed ex_bad {| r_insn_off := 0; r_type_id := 3; r_access_str_off := 5; r_kind := FIELD_BYTE_SIZE |}) = [0; 0] /\
  bpf_core_calc_field_relo FIELD_BYTE_SIZE
    (Some (parsed ex_bad {| r_insn_off := 0; r_type_id := 3; r_access_str_off := 5; r_kind := FIELD_BYTE_SIZE |}))
    (FieldRes 0 0 0 true) = None.
Proof. split; vm_compute; reflexivity. Qed.

(** The patch fails, but the offset of the instruction has changed. *)
Fact patch_fails_late :
  bpf_core_patch_insn [Insn 121 1 2 8 0] 0 (ReloRes 8 16 false true false 4 1 8 1)
    = Some (- EINVAL, [Insn 121 1 2 16 0]).
Proof. reflexivity. Qed.

(** ALU immediates are cut to 32 bits without a word. *)
Fact patch_alu_truncates :
  bpf_core_patch_insn [Insn 180 1 0 0 0] 0 (ReloRes 0 4294967297 false true false 0 0 0 0)
    = Some (0, [Insn 180 1 0 0 1]).
Proof. reflexivity. Qed.
