(* ===== verification/ProgLink.v ===== *)
(** * Linking of subprograms (src/plugin/libbpf-test/libbpf/src/libbpf.c)

    The programs of an object file call functions of its .text section.
    Before a program is loaded, the functions it needs, directly or through
    others, are appended to its instructions, each once, and the calls are
    rewritten; then references to maps, variables and kernel functions are
    filled in.

    The state is the array of programs; [main], [prog] and [subprog] are
    indices of it, so that they may be the same program.  Instruction counts
    are the lengths of the lists.  Allocations are granted by [alloc_ok], by
    the number of elements.  Whether the kernel supports function
    information is a parameter, too.  An outer [None] is undefined behaviour,
    or used up fuel. *)

From S2P Require Import Prelude CoreRelo.

Abbreviation ERRNO_RELOC := 4006 (only parsing).

(** ** Instructions *)

Definition BPF_OP (c : Z) : Z := Z.land c 240.

Definition insn_is_subprog_call (i : bpf_insn) : bool :=
  (BPF_CLASS (code i) =? 5) && (BPF_OP (code i) =? 128) && (BPF_SRC (code i) =? 0) &&
  (src_reg i =? 1) && (dst_reg i =? 0) && (off i =? 0).

Definition insn_is_pseudo_func (i : bpf_insn) : bool := is_ldimm64_insn i && (src_reg i =? 4).

Definition set_src (i : bpf_insn) (r : Z) : bpf_insn :=
  {| code := code i; dst_reg := dst_reg i; src_reg := r; off := off i; imm := imm i |}.

(** ** Programs and objects *)

Inductive reloc_type :=
  | RELO_LD64 | RELO_CALL | RELO_DATA | RELO_EXTERN_VAR | RELO_EXTERN_FUNC | RELO_SUBPROG_ADDR
  | RELO_CORE.

#[export] Instance reloc_type_eq_dec : EqDecision reloc_type.
Proof. solve_decision. Defined.

(** The pointer of CO-RE relocations is left out. *)
Record reloc_desc := Reloc {
  rd_type : reloc_type;
  rd_insn_idx : Z;
  rd_map_idx : Z;
  rd_sym_off : Z;
}.

(** A record of function or line information: the instruction offset, and
    what follows it. *)
Record info_rec := Info {
  ir_insn_off : Z;
  ir_rest : list Z;
}.

(** The records per section of the object, with the index of that section
    ([sec_idxs]). *)
Definition ext_info : Type := list (Z * list info_rec).

(** Empty [func_info] and [line_info] are NULL pointers. *)
Record bpf_program := Prog {
  p_sec_idx : Z;
  sec_insn_off : Z;
  sec_insn_cnt : Z;
  sub_insn_off : Z;
  insns : list bpf_insn;
  relos : list reloc_desc;
  autoload : bool;
  func_info : list info_rec;
  line_info : list info_rec;
}.

Definition set_sub_off (p : bpf_program) (o : Z) : bpf_program :=
  {| p_sec_idx := p_sec_idx p; sec_insn_off := sec_insn_off p; sec_insn_cnt := sec_insn_cnt p;
     sub_insn_off := o; insns := insns p; relos := relos p; autoload := autoload p;
     func_info := func_info p; line_info := line_info p |}.

Definition set_insns (p : bpf_program) (l : list bpf_insn) : bpf_program :=
  {| p_sec_idx := p_sec_idx p; sec_insn_off := sec_insn_off p; sec_insn_cnt := sec_insn_cnt p;
     sub_insn_off := sub_insn_off p; insns := l; relos := relos p; autoload := autoload p;
     func_info := func_info p; line_info := line_info p |}.

Definition set_relos (p : bpf_program) (l : list reloc_desc) : bpf_program :=
  {| p_sec_idx := p_sec_idx p; sec_insn_off := sec_insn_off p; sec_insn_cnt := sec_insn_cnt p;
     sub_insn_off := sub_insn_off p; insns := insns p; relos := l; autoload := autoload p;
     func_info := func_info p; line_info := line_info p |}.

Definition set_infos (p : bpf_program) (f l : list info_rec) : bpf_program :=
  {| p_sec_idx := p_sec_idx p; sec_insn_off := sec_insn_off p; sec_insn_cnt := sec_insn_cnt p;
     sub_insn_off := sub_insn_off p; insns := insns p; relos := relos p; autoload := autoload p;
     func_info := f; line_info := l |}.

Inductive extern_desc :=
  | EXT_KCFG (data_off : Z)
  | EXT_KSYM (is_set : bool) (addr : Z) (kernel_btf_obj_fd kernel_btf_id type_id btf_fd_idx : Z).

(** What stays the same while programs are relocated: a map is its file
    descriptor and [autocreate]. *)
Record obj_env := Env {
  text_shndx : Z;
  strict_sec_name : bool;
  btf_ext : option (ext_info * ext_info);
  supports_func_info : bool;
  gen_loader : bool;
  maps : list (Z * bool);
  externs : list extern_desc;
  kconfig_map_idx : Z;
}.

Definition prog_is_subprog (env : obj_env) (progs : list bpf_program) (p : bpf_program) : bool :=
  (p_sec_idx p =? text_shndx env) && (strict_sec_name env || (1 <? Z.of_nat (length progs))).

Definition prog_contains_insn (p : bpf_program) (insn_idx : Z) : bool :=
  (sec_insn_off p <=? insn_idx) && (insn_idx <? sec_insn_off p + sec_insn_cnt p).

(** The binary search of [find_prog_by_sec_insn]; it halves an interval of the
    array, whose length is fuel enough. *)
Fixpoint find_prog_loop (fuel : nat) (progs : list bpf_program) (sec_idx insn_idx l r : Z) : option Z :=
  match fuel with
  | O => None
  | S fuel =>
      if l <? r then
        let m := l + (r - l + 1) / 2 in
        prog ← aref progs m;
        if (p_sec_idx prog <? sec_idx) || (p_sec_idx prog =? sec_idx) && (sec_insn_off prog <=? insn_idx)
        then find_prog_loop fuel progs sec_idx insn_idx m r
        else find_prog_loop fuel progs sec_idx insn_idx l (m - 1)
      else Some l
  end.

Definition find_prog_by_sec_insn (progs : list bpf_program) (sec_idx insn_idx : Z) : option (option Z) :=
  l ← find_prog_loop (S (length progs)) progs sec_idx insn_idx 0 (Z.of_nat (length progs) - 1);
  prog ← aref progs l;
  Some (if (p_sec_idx prog =? sec_idx) && prog_contains_insn prog insn_idx then Some l else None).

(** [bsearch] with [cmp_relo_by_insn_idx]. *)
Fixpoint bsearch_relo (fuel : nat) (relos : list reloc_desc) (insn_idx l u : Z) : option (option reloc_desc) :=
  match fuel with
  | O => None
  | S fuel =>
      if l <? u then
        let m := (l + u) / 2 in
        relo ← aref relos m;
        let key := u64 (rd_insn_idx relo) in
        if insn_idx =? key then Some (Some relo)
        else if insn_idx <? key then bsearch_relo fuel relos insn_idx l m
        else bsearch_relo fuel relos insn_idx (m + 1) u
      else Some None
  end.

Definition find_prog_insn_relo (p : bpf_program) (insn_idx : Z) : option (option reloc_desc) :=
  bsearch_relo (S (length (relos p))) (relos p) insn_idx 0 (Z.of_nat (length (relos p))).

(** ** Function and line information *)

(** The records of a program among those of its section: where they start
    and end. *)
Fixpoint info_range (recs : list info_rec) (lo hi : Z) (i : nat) (start : option nat) (stop : nat)
    : option (nat * nat) :=
  match recs with
  | [] => s ← start; Some (s, stop)
  | r :: recs =>
      let insn_off := ir_insn_off r / 8 in
      if insn_off <? lo then info_range recs lo hi (S i) start stop
      else if insn_off >=? hi then s ← start; Some (s, stop)
      else info_range recs lo hi (S i) (Some (default i start)) (S i)
  end.

(** The error code and the information of the main program. *)
Definition adjust_prog_btf_ext_info (alloc_ok : Z -> bool) (p : bpf_program) (ext : ext_info)
    (prog_info : list info_rec) : Z * list info_rec :=
  match find (λ sec, p_sec_idx p =? sec.1) ext with
  | None => (- ENOENT, prog_info)
  | Some (_, recs) =>
      match info_range recs (sec_insn_off p) (sec_insn_off p + sec_insn_cnt p) 0 None 0 with
      | None => (- ENOENT, prog_info)
      | Some (start, stop) =>
          let copy := take (stop - start) (drop start recs) in
          if negb (alloc_ok (Z.of_nat (length prog_info + length copy))) then (- ENOMEM, prog_info) else
          let off_adj := s32 (sub_insn_off p - sec_insn_off p) in
          (0, prog_info ++ map (λ r, {| ir_insn_off := u32 (ir_insn_off r / 8 + off_adj);
                                        ir_rest := ir_rest r |}) copy)
      end
  end.

(** One of the two kinds of information: it is only copied for a subprogram
    when the main program has it, and may be missing for the main program. *)
Definition reloc_info (alloc_ok : Z -> bool) (same : bool) (p : bpf_program) (ext : ext_info)
    (info : list info_rec) : Z * list info_rec :=
  if negb same && bool_decide (info = []) then (0, info) else
  let '(err, info) := adjust_prog_btf_ext_info alloc_ok p ext info in
  if (err =? 0) || (err =? - ENOENT) && bool_decide (info = []) then (0, info) else (err, info).

Definition reloc_prog_func_and_line_info (env : obj_env) (alloc_ok : Z -> bool)
    (progs : list bpf_program) (main prog : Z) : option (Z * list bpf_program) :=
  match btf_ext env with
  | None => Some (0, progs)
  | Some (funcs, lines) =>
      if negb (supports_func_info env) then Some (0, progs) else
      m ← aref progs main; p ← aref progs prog;
      let '(err, f) := reloc_info alloc_ok (main =? prog) p funcs (func_info m) in
      if negb (err =? 0) then Some (err, progs) else
      let '(err, l) := reloc_info alloc_ok (main =? prog) p lines (line_info m) in
      progs ← aset progs main (set_infos m f l);
      Some (err, progs)
  end.

(** ** Calls *)

Definition append_subprog_relos (alloc_ok : Z -> bool) (progs : list bpf_program) (main subprog : Z)
    : option (Z * list bpf_program) :=
  if main =? subprog then Some (0, progs) else
  m ← aref progs main; s ← aref progs subprog;
  if negb (alloc_ok (Z.of_nat (length (relos m) + length (relos s)))) then Some (- ENOMEM, progs) else
  let shift r := {| rd_type := rd_type r; rd_insn_idx := s32 (rd_insn_idx r + sub_insn_off s);
                    rd_map_idx := rd_map_idx r; rd_sym_off := rd_sym_off r |} in
  progs ← aset progs main (set_relos m (relos m ++ map shift (relos s)));
  Some (0, progs).

(** What a call refers to: nothing to be done here, an error, or an
    instruction of the .text section.  The sum of two [int]s for the address
    of a subprogram is taken to wrap around. *)
Inductive call_ref :=
  | ref_skip
  | ref_bad
  | ref_insn (idx : Z).

Definition call_target (p : bpf_program) (insn_idx : Z) (insn : bpf_insn) (relo : option reloc_desc)
    : call_ref :=
  match relo with
  | Some r =>
      match rd_type r with
      | RELO_EXTERN_FUNC => ref_skip
      | RELO_CALL => ref_insn (u64 (u64 (rd_sym_off r) / 8 + imm insn + 1))
      | RELO_SUBPROG_ADDR => ref_insn (u64 (s32 (rd_sym_off r + imm insn)) / 8)
      | _ => ref_bad
      end
  | None =>
      if insn_is_pseudo_func insn then ref_bad
      else ref_insn (u64 (sec_insn_off p + insn_idx + imm insn + 1))
  end.

(** The subprogram is appended to the main program: where it will be is
    noted first.  When it is the main program itself, its own count has just
    been doubled, and the copy runs over the end of the array. *)
Definition append_subprog (alloc_ok : Z -> bool) (progs : list bpf_program) (main subprog : Z)
    : option (Z * list bpf_program) :=
  m ← aref progs main; s ← aref progs subprog;
  progs ← aset progs subprog (set_sub_off s (Z.of_nat (length (insns m))));
  let new_cnt := (length (insns m) + length (insns s))%nat in
  if negb (alloc_ok (Z.of_nat new_cnt)) then Some (- ENOMEM, progs) else
  if main =? subprog then None else
  progs ← aset progs main (set_insns m (insns m ++ insns s));
  append_subprog_relos alloc_ok progs main subprog.

Section RelocCode.
Context (env : obj_env) (alloc_ok : Z -> bool).

(** The instructions of [prog] from the [k]-th on, [n] of them; [rec] is the
    recursive call for a subprogram that has just been appended. *)
Fixpoint reloc_insns (rec : list bpf_program -> Z -> option (Z * list bpf_program)) (main prog : Z)
    (k : Z) (n : nat) (progs : list bpf_program) : option (Z * list bpf_program) :=
  match n with
  | O => Some (0, progs)
  | S n =>
      m ← aref progs main; p ← aref progs prog;
      insn ← aref (insns m) (sub_insn_off p + k);
      if negb (insn_is_subprog_call insn) && negb (insn_is_pseudo_func insn)
      then reloc_insns rec main prog (k + 1) n progs else
      relo ← find_prog_insn_relo p k;
      match call_target p k insn relo with
      | ref_skip => reloc_insns rec main prog (k + 1) n progs
      | ref_bad => Some (- ERRNO_RELOC, progs)
      | ref_insn idx =>
          q ← find_prog_by_sec_insn progs (text_shndx env) idx;
          match q with
          | None => Some (- ERRNO_RELOC, progs)
          | Some subprog =>
              s ← aref progs subprog;
              '(err, progs) ← (if sub_insn_off s =? 0 then
                                 '(err, progs) ← append_subprog alloc_ok progs main subprog;
                                 if negb (err =? 0) then Some (err, progs) else rec progs subprog
                               else Some (0, progs));
              if negb (err =? 0) then Some (err, progs) else
              m ← aref progs main; p ← aref progs prog; s ← aref progs subprog;
              insn ← aref (insns m) (sub_insn_off p + k);
              l ← aset (insns m) (sub_insn_off p + k)
                    (set_imm insn (sub_insn_off s - (sub_insn_off p + k) - 1));
              progs ← aset progs main (set_insns m l);
              reloc_insns rec main prog (k + 1) n progs
          end
      end
  end.

(** [bpf_object__reloc_code]; each level of the recursion has appended one
    more program. *)
Fixpoint bpf_object__reloc_code (fuel : nat) (main : Z) (progs : list bpf_program) (prog : Z)
    : option (Z * list bpf_program) :=
  match fuel with
  | O => None
  | S fuel =>
      '(err, progs) ← reloc_prog_func_and_line_info env alloc_ok progs main prog;
      if negb (err =? 0) then Some (err, progs) else
      p ← aref progs prog;
      reloc_insns (bpf_object__reloc_code fuel main) main prog 0 (Z.to_nat (sec_insn_cnt p)) progs
  end.

Definition bpf_object__relocate_calls (progs : list bpf_program) (main : Z)
    : option (Z * list bpf_program) :=
  let progs := map (λ p, if prog_is_subprog env progs p then set_sub_off p 0 else p) progs in
  bpf_object__reloc_code (S (length progs)) main progs main.
End RelocCode.

(** ** Data *)

Definition MAP_LDIMM64_POISON_BASE : Z := 2001000000.

(** Both halves of the load become calls of an unknown helper. *)
Definition poison_map_ldimm64 (l : list bpf_insn) (insn_idx map_idx : Z) : option (list bpf_insn) :=
  let bad := {| code := 133; dst_reg := 0; src_reg := 0; off := 0;
                imm := s32 (MAP_LDIMM64_POISON_BASE + map_idx) |} in
  l ← aset l insn_idx bad;
  aset l (insn_idx + 1) bad.

(** [insn[0].src_reg = src; insn[0].imm = v] *)
Definition set_src_imm (l : list bpf_insn) (insn_idx src v : Z) : option (list bpf_insn) :=
  insn ← aref l insn_idx; aset l insn_idx (set_imm (set_src insn src) v).

Definition set_imm_at (l : list bpf_insn) (insn_idx v : Z) : option (list bpf_insn) :=
  insn ← aref l insn_idx; aset l insn_idx (set_imm insn v).

(** A load of a map or of a value in it. *)
Definition relocate_map (env : obj_env) (l : list bpf_insn) (insn_idx map_idx src_idx src_fd : Z)
    : option (list bpf_insn) :=
  if gen_loader env then set_src_imm l insn_idx src_idx map_idx else
  '(fd, autocreate) ← aref (maps env) map_idx;
  if autocreate : bool then set_src_imm l insn_idx src_fd fd else poison_map_ldimm64 l insn_idx map_idx.

Definition relocate_extern_var (env : obj_env) (l : list bpf_insn) (insn_idx sym_off : Z)
    : option (list bpf_insn) :=
  ext ← aref (externs env) sym_off;
  match ext with
  | EXT_KCFG data_off =>
      l ← (if gen_loader env then set_src_imm l insn_idx 6 (kconfig_map_idx env)
           else '(fd, _) ← aref (maps env) (kconfig_map_idx env); set_src_imm l insn_idx 2 fd);
      set_imm_at l (insn_idx + 1) data_off
  | EXT_KSYM is_set addr fd id type_id _ =>
      if negb (type_id =? 0) && is_set then
        l ← set_src_imm l insn_idx 3 id; set_imm_at l (insn_idx + 1) fd
      else
        l ← set_imm_at l insn_idx (u32 addr); set_imm_at l (insn_idx + 1) (Z.shiftr addr 32)
  end.

Definition relocate_extern_func (env : obj_env) (l : list bpf_insn) (insn_idx sym_off : Z)
    : option (list bpf_insn) :=
  ext ← aref (externs env) sym_off;
  insn ← aref l insn_idx;
  let insn := set_src insn 2 in
  match ext with
  | EXT_KSYM true _ _ id _ btf_fd_idx => aset l insn_idx (set_off (set_imm insn id) btf_fd_idx)
  | EXT_KSYM false _ _ _ _ _ => aset l insn_idx (set_off (set_imm insn 0) 0)
  | EXT_KCFG _ => None
  end.

(** One relocation; [inl] is an error code. *)
Definition relocate_one (env : obj_env) (l : list bpf_insn) (relo : reloc_desc)
    : option (Z + list bpf_insn) :=
  let i := rd_insn_idx relo in
  match rd_type relo with
  | RELO_LD64 => l ← relocate_map env l i (rd_map_idx relo) 5 1; Some (inr l)
  | RELO_DATA =>
      insn ← aref l i;
      l ← set_imm_at l (i + 1) (imm insn + rd_sym_off relo);
      l ← relocate_map env l i (rd_map_idx relo) 6 2; Some (inr l)
  | RELO_EXTERN_VAR => l ← relocate_extern_var env l i (rd_sym_off relo); Some (inr l)
  | RELO_EXTERN_FUNC => l ← relocate_extern_func env l i (rd_sym_off relo); Some (inr l)
  | RELO_SUBPROG_ADDR =>
      insn ← aref l i; Some (if src_reg insn =? 4 then inr l else inl (- EINVAL))
  | RELO_CALL | RELO_CORE => Some (inr l)
  end.

Fixpoint relocate_relos (env : obj_env) (relos : list reloc_desc) (l : list bpf_insn)
    : option (Z * list bpf_insn) :=
  match relos with
  | [] => Some (0, l)
  | relo :: relos =>
      r ← relocate_one env l relo;
      match r with
      | inl err => Some (err, l)
      | inr l => relocate_relos env relos l
      end
  end.

Definition bpf_object__relocate_data (env : obj_env) (progs : list bpf_program) (prog : Z)
    : option (Z * list bpf_program) :=
  p ← aref progs prog;
  '(err, l) ← relocate_relos env (relos p) (insns p);
  progs ← aset progs prog (set_insns p l);
  Some (err, progs).

(** ** The whole object *)

(** The loads of subprogram addresses are marked. *)
Fixpoint mark_pseudo_funcs (relos : list reloc_desc) (l : list bpf_insn) : option (list bpf_insn) :=
  match relos with
  | [] => Some l
  | relo :: relos =>
      if bool_decide (rd_type relo = RELO_SUBPROG_ADDR) then
        insn ← aref l (rd_insn_idx relo);
        l ← aset l (rd_insn_idx relo) (set_src insn 4);
        mark_pseudo_funcs relos l
      else mark_pseudo_funcs relos l
  end.

Definition mark_progs (progs : list bpf_program) : option (list bpf_program) :=
  mapM (λ p, l ← mark_pseudo_funcs (relos p) (insns p); Some (set_insns p l)) progs.

(** A loop over the programs from the [i]-th on that are loaded themselves. *)
Fixpoint for_main_progs (env : obj_env) (f : list bpf_program -> Z -> option (Z * list bpf_program))
    (i : Z) (n : nat) (progs : list bpf_program) : option (Z * list bpf_program) :=
  match n with
  | O => Some (0, progs)
  | S n =>
      p ← aref progs i;
      if prog_is_subprog env progs p || negb (autoload p) then for_main_progs env f (i + 1) n progs else
      '(err, progs) ← f progs i;
      if negb (err =? 0) then Some (err, progs) else for_main_progs env f (i + 1) n progs
  end.

(** [bpf_object__relocate] behind the CO-RE relocations. *)
Definition bpf_object__relocate (env : obj_env) (alloc_ok : Z -> bool) (progs : list bpf_program)
    : option (Z * list bpf_program) :=
  progs ← mark_progs progs;
  '(err, progs) ← for_main_progs env (bpf_object__relocate_calls env alloc_ok) 0 (length progs) progs;
  if negb (err =? 0) then Some (err, progs) else
  for_main_progs env (bpf_object__relocate_data env) 0 (length progs) progs.

(** ** The searches *)

(** The programs are sorted by section and offset, and do not overlap. *)
Definition before (p q : bpf_program) : Prop :=
  p_sec_idx p < p_sec_idx q \/
  p_sec_idx p = p_sec_idx q /\ sec_insn_off p + sec_insn_cnt p <= sec_insn_off q.

Record layout_ok (progs : list bpf_program) : Prop := {
  lo_sorted : forall i j p q, i < j -> aref progs i = Some p -> aref progs j = Some q -> before p q;
  lo_size : forall i p, aref progs i = Some p -> 0 <= sec_insn_off p /\ 0 < sec_insn_cnt p;
}.

(** The program that holds an instruction of a section. *)
Definition holds_insn (sec_idx insn_idx : Z) (p : bpf_program) : Prop :=
  p_sec_idx p = sec_idx /\ sec_insn_off p <= insn_idx < sec_insn_off p + sec_insn_cnt p.

Definition starts_before (sec_idx insn_idx : Z) (p : bpf_program) : Prop :=
  p_sec_idx p < sec_idx \/ p_sec_idx p = sec_idx /\ sec_insn_off p <= insn_idx.

Lemma starts_before_mono progs sec idx i j p q : layout_ok progs -> i <= j ->
  aref progs i = Some p -> aref progs j = Some q -> starts_before sec idx q -> starts_before sec idx p.
Proof.
  intros [Hs Hz] Hij Hp Hq. destruct (Z.eq_dec i j) as [->|]; [congruence|].
  pose proof (Hs i j p q ltac:(lia) Hp Hq). pose proof (Hz _ _ Hp). unfold before, starts_before in *. lia.
Qed.

Lemma find_prog_loop_spec progs sec idx : layout_ok progs -> forall fuel l r,
  0 <= l <= r -> r < Z.of_nat (length progs) -> r - l < Z.of_nat fuel ->
  (l = 0 \/ exists p, aref progs l = Some p /\ starts_before sec idx p) ->
  (forall j p, r < j -> aref progs j = Some p -> ~ starts_before sec idx p) ->
  exists x, find_prog_loop fuel progs sec idx l r = Some x /\ 0 <= x < Z.of_nat (length progs) /\
    (x = 0 \/ exists p, aref progs x = Some p /\ starts_before sec idx p) /\
    (forall j p, x < j -> aref progs j = Some p -> ~ starts_before sec idx p).
Proof.
  intros Hlo. induction fuel as [|fuel IH]; intros l r Hl Hr Hf Hle Hgt; [lia|]. cbn [find_prog_loop].
  destruct (Z.ltb_spec l r).
  2: { exists l. assert (l = r) as -> by lia. split_and!; [done|lia|lia|done|done]. }
  pose proof (Z.div_mod (r - l + 1) 2 ltac:(lia)). pose proof (Z.mod_pos_bound (r - l + 1) 2 ltac:(lia)).
  set (m := l + (r - l + 1) / 2) in *.
  destruct (aref_Some progs m) as [q Hq]; [lia|]. rewrite Hq. cbn [mbind option_bind].
  destruct ((p_sec_idx q <? sec) || (p_sec_idx q =? sec) && (sec_insn_off q <=? idx)) eqn:Hc.
  - apply IH; [lia|lia|lia| |done]. right. exists q. split; [done|]. unfold starts_before. lia.
  - apply IH; [lia|lia|lia|done|]. intros j p Hj Hp Hb.
    apply (starts_before_mono progs sec idx m j q p) in Hb; [|done|lia|done|done].
    unfold starts_before in Hb. lia.
Qed.

(** The search finds the program that holds the instruction, if there is one. *)
Lemma find_prog_spec progs sec idx : layout_ok progs -> progs <> [] ->
  exists r, find_prog_by_sec_insn progs sec idx = Some r /\
  match r with
  | Some i => exists p, aref progs i = Some p /\ holds_insn sec idx p
  | None => forall i p, aref progs i = Some p -> ~ holds_insn sec idx p
  end.
Proof.
  intros Hlo Hne. assert (0 < length progs)%nat by (destruct progs; [done|simpl; lia]).
  destruct (find_prog_loop_spec progs sec idx Hlo (S (length progs)) 0 (Z.of_nat (length progs) - 1))
    as (x & Hx & Hr & Hle & Hgt); [lia|lia|lia|by left| |].
  { intros j p Hj Hp. apply aref_bounds in Hp. lia. }
  unfold find_prog_by_sec_insn. rewrite Hx. cbn [mbind option_bind].
  destruct (aref_Some progs x) as [p Hp]; [done|]. rewrite Hp. cbn [mbind option_bind].
  eexists. split; [done|].
  destruct ((p_sec_idx p =? sec) && prog_contains_insn p idx) eqn:Hc; unfold prog_contains_insn in Hc.
  - exists p. split; [done|]. unfold holds_insn. lia.
  - intros i q Hq [Hs Hi]. destruct (Z.lt_trichotomy x i) as [Hlt|[->|Hlt]].
    + apply (Hgt i q Hlt Hq). unfold starts_before. lia.
    + assert (q = p) as -> by congruence. lia.
    + destruct Hle as [->|(p' & Hp' & Hb)]; [apply aref_bounds in Hq; lia|].
      assert (p' = p) as -> by congruence.
      pose proof (lo_sorted _ Hlo i x q p Hlt Hq Hp). unfold before, starts_before in *. lia.
Qed.

Lemma holds_unique progs sec idx i j p q : layout_ok progs -> aref progs i = Some p -> aref progs j = Some q ->
  holds_insn sec idx p -> holds_insn sec idx q -> i = j.
Proof.
  intros Hlo Hp Hq [H1 H2] [H3 H4]. destruct (Z.lt_trichotomy i j) as [H|[H|H]]; [|done|].
  - pose proof (lo_sorted _ Hlo i j p q H Hp Hq). unfold before in *. lia.
  - pose proof (lo_sorted _ Hlo j i q p H Hq Hp). unfold before in *. lia.
Qed.

(** Relocations are sorted by instruction. *)
Definition relos_sorted (l : list reloc_desc) : Prop :=
  (forall i j a b, i < j -> aref l i = Some a -> aref l j = Some b -> rd_insn_idx a < rd_insn_idx b) /\
  forall i a, aref l i = Some a -> 0 <= rd_insn_idx a < 2 ^ 31.

(** The relocation of an instruction. *)
Definition relo_of (l : list reloc_desc) (k : Z) (r : option reloc_desc) : Prop :=
  match r with
  | Some x => rd_insn_idx x = k /\ exists i, aref l i = Some x
  | None => forall i x, aref l i = Some x -> rd_insn_idx x <> k
  end.

Lemma bsearch_relo_spec l k : relos_sorted l -> forall fuel lo hi,
  0 <= lo <= hi -> hi <= Z.of_nat (length l) -> hi - lo < Z.of_nat fuel ->
  (forall j x, j < lo -> aref l j = Some x -> rd_insn_idx x < k) ->
  (forall j x, hi <= j -> aref l j = Some x -> k < rd_insn_idx x) ->
  exists r, bsearch_relo fuel l k lo hi = Some r /\ relo_of l k r.
Proof.
  intros [Hs Hr]. induction fuel as [|fuel IH]; intros lo hi Hl Hh Hf H1 H2; [lia|]. cbn [bsearch_relo].
  destruct (Z.ltb_spec lo hi).
  2: { exists None. split; [done|]. intros j x Hx. destruct (Z.lt_ge_cases j lo) as [Hj|Hj].
       - pose proof (H1 j x Hj Hx). lia.
       - pose proof (H2 j x ltac:(lia) Hx). lia. }
  pose proof (Z.div_mod (lo + hi) 2 ltac:(lia)). pose proof (Z.mod_pos_bound (lo + hi) 2 ltac:(lia)).
  set (m := (lo + hi) / 2) in *. destruct (aref_Some l m) as [x Hx]; [lia|]. rewrite Hx.
  cbn [mbind option_bind]. pose proof (Hr m x Hx). rewrite wrap_small by (pow2; lia).
  destruct (Z.eqb_spec k (rd_insn_idx x)) as [->|Hne].
  { exists (Some x). split; [done|]. split; [done|]. by exists m. }
  destruct (Z.ltb_spec k (rd_insn_idx x)).
  - apply IH; [lia|lia|lia|done|]. intros j y Hj Hy. destruct (Z.eq_dec m j) as [<-|]; [congruence|].
    pose proof (Hs m j x y ltac:(lia) Hx Hy). lia.
  - apply IH; [lia|lia|lia| |done]. intros j y Hj Hy. destruct (Z.eq_dec m j) as [<-|].
    + assert (y = x) as -> by congruence. lia.
    + pose proof (Hs j m y x ltac:(lia) Hy Hx). lia.
Qed.

Lemma find_relo_spec p k : relos_sorted (relos p) -> exists r, find_prog_insn_relo p k = Some r /\ relo_of (relos p) k r.
Proof.
  intros H. apply bsearch_relo_spec; [done|lia|lia|lia| |].
  - intros j x Hj Hx. apply aref_bounds in Hx. lia.
  - intros j x Hj Hx. apply aref_bounds in Hx. lia.
Qed.

Lemma relo_of_unique l k r r' : relos_sorted l -> relo_of l k r -> relo_of l k r' -> r = r'.
Proof.
  intros [Hs _] Hr Hr'. destruct r as [x|], r' as [y|]; simpl in *; try done.
  - destruct Hr as (Hx & i & Hi), Hr' as (Hy & j & Hj). destruct (Z.lt_trichotomy i j) as [H|[->|H]].
    + pose proof (Hs _ _ _ _ H Hi Hj). lia.
    + congruence.
    + pose proof (Hs _ _ _ _ H Hj Hi). lia.
  - destruct Hr as (Hx & i & Hi). by destruct (Hr' i x Hi).
  - destruct Hr' as (Hy & j & Hj). by destruct (Hr j y Hj).
Qed.

(** ** What linking has to do *)

(** A body is complete: its instructions are those of its section, and its
    relocations lie within. *)
Record body_ok (p : bpf_program) : Prop := {
  bo_length : Z.of_nat (length (insns p)) = sec_insn_cnt p;
  bo_relos : relos_sorted (relos p);
  bo_inside : forall i x, aref (relos p) i = Some x -> rd_insn_idx x < sec_insn_cnt p;
}.

(** What relocation does not change in any program. *)
Definition same_place (p0 p : bpf_program) : Prop :=
  p_sec_idx p = p_sec_idx p0 /\ sec_insn_off p = sec_insn_off p0 /\ sec_insn_cnt p = sec_insn_cnt p0 /\
  autoload p = autoload p0.

Definition is_ref (i : bpf_insn) : bool := insn_is_subprog_call i || insn_is_pseudo_func i.

Definition sum_cnt (progs : list bpf_program) : Z := foldr (λ p s, sec_insn_cnt p + s) 0 progs.

Section Linking.
Context (text : Z) (ps0 : list bpf_program).

(** The instruction [k] of the program [i] of the object, and what it refers
    to. *)
Definition ref_at (i k : Z) (insn : bpf_insn) (c : call_ref) : Prop :=
  exists p r, aref ps0 i = Some p /\ 0 <= k < sec_insn_cnt p /\ aref (insns p) k = Some insn /\
    is_ref insn = true /\ relo_of (relos p) k r /\ c = call_target p k insn r.

(** It calls the program [q] of the .text section. *)
Definition calls (i k q : Z) : Prop :=
  exists insn idx qp, ref_at i k insn (ref_insn idx) /\ aref ps0 q = Some qp /\ holds_insn text idx qp.

(** It calls nothing that there is. *)
Definition unresolved (i k : Z) : Prop :=
  exists insn c, ref_at i k insn c /\
  match c with
  | ref_skip => False
  | ref_bad => True
  | ref_insn idx => forall q qp, aref ps0 q = Some qp -> ~ holds_insn text idx qp
  end.

Definition cnt (i : Z) : Z := match aref ps0 i with Some p => sec_insn_cnt p | None => 0 end.

Definition total (order : list Z) : Z := foldr (λ i s, cnt i + s) 0 order.

(** Where the program [i] begins when the programs [order] are laid out one
    behind the other. *)
Fixpoint pos (order : list Z) (i : Z) : Z :=
  match order with
  | [] => 0
  | j :: order => if decide (j = i) then 0 else cnt j + pos order i
  end.

(** The instruction [k] of the program [i] in this layout: a call leads to
    the first instruction of what it calls, everything else is as it was. *)
Definition linked (order : list Z) (i k : Z) (x : bpf_insn) : Prop :=
  exists p insn, aref ps0 i = Some p /\ aref (insns p) k = Some insn /\
    ((exists q, calls i k q /\ x = set_imm insn (pos order q - (pos order i + k) - 1)) \/
     (forall q, ~ calls i k q) /\ x = insn).

(** The relocations of the programs, moved to where these are. *)
Definition moved (o : Z) (r : reloc_desc) : reloc_desc :=
  {| rd_type := rd_type r; rd_insn_idx := s32 (rd_insn_idx r + o); rd_map_idx := rd_map_idx r;
     rd_sym_off := rd_sym_off r |}.

Fixpoint moved_relos (order : list Z) (o : Z) : list reloc_desc :=
  match order with
  | [] => []
  | i :: order =>
      match aref ps0 i with Some p => map (moved o) (relos p) | None => [] end ++
      moved_relos order (o + cnt i)
  end.

Context (main : Z) (pm0 : bpf_program).
Context (Hlay : layout_ok ps0) (Hmain : aref ps0 main = Some pm0) (Hnt : p_sec_idx pm0 <> text).
Context (Hbody : forall i p, aref ps0 i = Some p -> i = main \/ p_sec_idx p = text -> body_ok p).
Context (Hsum : sum_cnt ps0 < 2 ^ 31).

(** The programs are processed up to the instructions [done]. *)
Record link_inv (ps : list bpf_program) (order : list Z) (done : Z -> Z) : Prop := {
  li_len : length ps = length ps0;
  li_place : forall i p0 p, aref ps0 i = Some p0 -> aref ps i = Some p -> same_place p0 p;
  li_rest : forall i p0 p, i <> main -> aref ps0 i = Some p0 -> aref ps i = Some p ->
    insns p = insns p0 /\ relos p = relos p0 /\ func_info p = func_info p0 /\ line_info p = line_info p0 /\
    (i ∉ order -> p_sec_idx p <> text -> sub_insn_off p = sub_insn_off p0);
  li_nodup : NoDup order;
  li_head : exists tl, order = main :: tl;
  li_text : forall i, i ∈ order -> i = main \/ exists p0, aref ps0 i = Some p0 /\ p_sec_idx p0 = text;
  li_off : forall i, i ∈ order -> exists p, aref ps i = Some p /\ sub_insn_off p = pos order i;
  li_new : forall i p, i ∉ order -> aref ps i = Some p -> p_sec_idx p = text -> sub_insn_off p = 0;
  li_code : exists pm, aref ps main = Some pm /\ Z.of_nat (length (insns pm)) = total order /\
    relos pm = moved_relos order 0 /\
    forall i k, i ∈ order -> 0 <= k < cnt i -> exists x, aref (insns pm) (pos order i + k) = Some x /\
      if k <? done i then linked order i k x
      else exists p0, aref ps0 i = Some p0 /\ aref (insns p0) k = Some x;
  li_done : forall i k, i ∈ order -> 0 <= k < cnt i -> k < done i ->
    ~ unresolved i k /\ forall q, calls i k q -> q ∈ order;
  li_reach : forall n j, order !! S n = Some j -> exists n' i k,
    (n' <= n)%nat /\ order !! n' = Some i /\ calls i k j;
}.

(** *** Layouts *)

Lemma cnt_at i p : aref ps0 i = Some p -> cnt i = sec_insn_cnt p.
Proof. intros H. unfold cnt. by rewrite H. Qed.

Lemma cnt_nonneg i : 0 <= cnt i.
Proof.
  unfold cnt. destruct (aref ps0 i) as [p|] eqn:E; [|lia]. pose proof (lo_size _ Hlay _ _ E). lia.
Qed.

Lemma total_cnt_app o1 o2 : total (o1 ++ o2) = total o1 + total o2.
Proof. unfold total. induction o1 as [|i o1 IH]; cbn; lia. Qed.

Lemma total_cnt_nonneg o : 0 <= total o.
Proof. unfold total. induction o as [|i o IH]; cbn; [lia|]. pose proof (cnt_nonneg i). lia. Qed.

Lemma pos_app_l o1 o2 i : i ∈ o1 -> pos (o1 ++ o2) i = pos o1 i.
Proof.
  induction o1 as [|j o1 IH]; intros Hi; [by inversion Hi|]. cbn. destruct (decide (j = i)); [done|].
  apply elem_of_cons in Hi as [|Hi]; [done|]. by rewrite IH.
Qed.

Lemma pos_new o i : i ∉ o -> pos (o ++ [i]) i = total o.
Proof.
  induction o as [|j o IH]; intros Hi; cbn; [by rewrite decide_True|].
  apply not_elem_of_cons in Hi as [Hij Hi]. rewrite decide_False by done. by rewrite IH.
Qed.

Lemma pos_range o i : i ∈ o -> 0 <= pos o i /\ pos o i + cnt i <= total o.
Proof.
  induction o as [|j o IH]; intros Hi; [by inversion Hi|]. cbn. destruct (decide (j = i)) as [->|].
  - pose proof (total_cnt_nonneg o). pose proof (cnt_nonneg i). unfold total in *. lia.
  - apply elem_of_cons in Hi as [|Hi]; [done|]. specialize (IH Hi). pose proof (cnt_nonneg j).
    unfold total in *. lia.
Qed.

(** Two programs of a layout do not overlap. *)
Lemma pos_disjoint o i j a b : NoDup o -> i ∈ o -> j ∈ o -> 0 <= a < cnt i -> 0 <= b < cnt j ->
  pos o i + a = pos o j + b -> i = j.
Proof.
  induction o as [|x o IH]; intros Hnd Hi Hj Ha Hb; [by inversion Hi|]. apply NoDup_cons in Hnd as [Hx Hnd].
  cbn. apply elem_of_cons in Hi, Hj. destruct (decide (x = i)) as [Ei|Ei], (decide (x = j)) as [Ej|Ej]; [congruence| | |].
  - destruct Hj as [|Hj]; [congruence|]. pose proof (pos_range o j Hj). subst i. lia.
  - destruct Hi as [|Hi]; [congruence|]. pose proof (pos_range o i Hi). subst j. lia.
  - destruct Hi as [|Hi]; [congruence|]. destruct Hj as [|Hj]; [congruence|].
    intros E. apply IH; [done|done|done|done|done|lia].
Qed.

Lemma total_perm o1 o2 : o1 ≡ₚ o2 -> total o1 = total o2.
Proof. unfold total. induction 1; cbn in *; lia. Qed.

Lemma total_all n : (n <= length ps0)%nat -> total (Z.of_nat <$> seq 0 n) = sum_cnt (take n ps0).
Proof.
  induction n as [|n IH]; intros Hn; [done|]. rewrite seq_S, fmap_app, total_cnt_app, IH by lia.
  destruct (lookup_lt_is_Some_2 ps0 n) as [p Hp]; [lia|]. rewrite (take_S_r ps0 n p Hp).
  unfold sum_cnt. rewrite foldr_app. cbn. unfold cnt. rewrite aref_nat, Hp.
  assert (E : forall l a, foldr (λ q s, sec_insn_cnt q + s) a l = foldr (λ q s, sec_insn_cnt q + s) 0 l + a).
  { intros l a. induction l as [|q l IHl]; cbn; [lia|]. rewrite IHl. lia. }
  rewrite (E (take n ps0) (sec_insn_cnt p + 0)). lia.
Qed.

(** A layout of different programs fits into 31 bits. *)
Lemma total_bound o : NoDup o -> (forall i, i ∈ o -> is_Some (aref ps0 i)) -> total o < 2 ^ 31.
Proof.
  intros Hnd Hin. apply Z.le_lt_trans with (sum_cnt ps0); [|done].
  rewrite <- (firstn_all ps0), <- total_all by lia.
  assert (Hsub : o ⊆+ (Z.of_nat <$> seq 0 (length ps0))).
  { apply NoDup_submseteq; [done|]. intros i [p Hp]%Hin. apply aref_bounds in Hp.
    apply list_elem_of_fmap. exists (Z.to_nat i). split; [lia|]. apply elem_of_seq. lia. }
  apply submseteq_Permutation in Hsub as [k Hk]. rewrite (total_perm _ _ Hk), total_cnt_app.
  pose proof (total_cnt_nonneg k). lia.
Qed.

(** *** Relocations of a layout *)

Lemma relos_sorted_app l1 l2 : relos_sorted l1 -> relos_sorted l2 ->
  (forall x y, x ∈ l1 -> y ∈ l2 -> rd_insn_idx x < rd_insn_idx y) -> relos_sorted (l1 ++ l2).
Proof.
  intros [S1 R1] [S2 R2] H. split.
  - intros i j a b Hij. rewrite !aref_app.
    destruct (Z.ltb_spec i (Z.of_nat (length l1))), (Z.ltb_spec j (Z.of_nat (length l1))); try lia; intros Ha Hb.
    + exact (S1 _ _ _ _ Hij Ha Hb).
    + apply H; apply aref_elem; by eexists.
    + eapply (S2 (i - Z.of_nat (length l1)) (j - Z.of_nat (length l1))); [lia|done|done].
  - intros i a. rewrite aref_app. destruct (i <? _); [apply R1|apply R2].
Qed.

Lemma moved_sorted p o : body_ok p -> 0 <= o -> o + sec_insn_cnt p <= 2 ^ 31 ->
  relos_sorted (map (moved o) (relos p)) /\
  forall x, x ∈ map (moved o) (relos p) -> o <= rd_insn_idx x < o + sec_insn_cnt p.
Proof.
  intros [_ [Hs Hr] Hi] Ho Hb.
  assert (Hm : forall i x, aref (relos p) i = Some x -> rd_insn_idx (moved o x) = rd_insn_idx x + o).
  { intros i x Hx. specialize (Hr i x Hx). specialize (Hi i x Hx). apply swrap_small; change (2 ^ (32 - 1)) with (2 ^ 31); lia. }
  split; [split|].
  - intros i j a b Hij. rewrite !aref_map. intros (a' & Ha & ->)%fmap_Some (b' & Hb' & ->)%fmap_Some.
    rewrite (Hm _ _ Ha), (Hm _ _ Hb'). specialize (Hs _ _ _ _ Hij Ha Hb'). lia.
  - intros i a. rewrite aref_map. intros (a' & Ha & ->)%fmap_Some. rewrite (Hm _ _ Ha).
    specialize (Hr _ _ Ha). specialize (Hi _ _ Ha). lia.
  - intros x [i Hx]%aref_elem. rewrite aref_map in Hx. apply fmap_Some in Hx as (a & Ha & ->).
    rewrite (Hm _ _ Ha). specialize (Hr _ _ Ha). specialize (Hi _ _ Ha). lia.
Qed.

Lemma moved_zero p : body_ok p -> map (moved 0) (relos p) = relos p.
Proof.
  intros [_ [_ Hr] _]. rewrite <- (map_id (relos p)) at 2. apply map_ext_in. intros x Hx.
  apply list_elem_of_In, aref_elem in Hx as [i Hx]. specialize (Hr i x Hx). destruct x as [t idx mi so].
  unfold moved. cbn [rd_type rd_insn_idx rd_map_idx rd_sym_off] in *. f_equal. rewrite Z.add_0_r.
  apply swrap_small; change (2 ^ (32 - 1)) with (2 ^ 31); lia.
Qed.

Definition placed (i : Z) : Prop := i = main \/ exists p0, aref ps0 i = Some p0 /\ p_sec_idx p0 = text.

Lemma placed_body i : placed i -> exists p0, aref ps0 i = Some p0 /\ body_ok p0.
Proof.
  intros [->|(p0 & H & Ht)]; [exists pm0|exists p0]; (split; [done|]); eapply Hbody; try done; [by left|by right].
Qed.

Lemma moved_relos_sorted order : forall o, Forall placed order -> 0 <= o -> o + total order <= 2 ^ 31 ->
  relos_sorted (moved_relos order o) /\
  forall x, x ∈ moved_relos order o -> o <= rd_insn_idx x < o + total order.
Proof.
  induction order as [|i order IH]; intros o Hp Ho Hb.
  { split; [split|].
    - intros i j a b _ Ha. cbn in Ha. by rewrite aref_nil in Ha.
    - intros i a Ha. cbn in Ha. by rewrite aref_nil in Ha.
    - intros x Hx. by inversion Hx. }
  apply Forall_cons in Hp as [Hi Hp]. destruct (placed_body i Hi) as (p0 & E & Hb0).
  cbn [moved_relos]. rewrite E. change (total (i :: order)) with (cnt i + total order) in *.
  pose proof (total_cnt_nonneg order). pose proof (cnt_at i p0 E) as Hc. pose proof (cnt_nonneg i).
  destruct (moved_sorted p0 o Hb0 Ho ltac:(lia)) as [S1 R1].
  destruct (IH (o + cnt i) Hp ltac:(lia) ltac:(lia)) as [S2 R2]. split.
  - apply relos_sorted_app; [done|done|]. intros x y Hx%R1 Hy%R2. lia.
  - intros x [Hx%R1|Hx%R2]%elem_of_app; lia.
Qed.

Lemma moved_relos_app o1 o2 : forall o, moved_relos (o1 ++ o2) o = moved_relos o1 o ++ moved_relos o2 (o + total o1).
Proof.
  induction o1 as [|i o1 IH]; intros o; cbn [moved_relos app].
  - cbn. by rewrite Z.add_0_r.
  - rewrite IH, <- app_assoc. change (total (i :: o1)) with (cnt i + total o1). do 3 f_equal. lia.
Qed.

(** *** Steps *)

Lemma relo_of_elem l k r : relo_of l k r <->
  match r with Some x => rd_insn_idx x = k /\ x ∈ l | None => forall x, x ∈ l -> rd_insn_idx x <> k end.
Proof.
  destruct r as [x|]; simpl.
  - by rewrite aref_elem.
  - split; [intros H x [i Hx]%aref_elem; by eapply H|intros H i x Hx; apply H, aref_elem; by exists i].
Qed.

Lemma relo_of_app l1 l2 k r : (forall x, x ∈ l2 -> k < rd_insn_idx x) ->
  relo_of (l1 ++ l2) k r <-> relo_of l1 k r.
Proof.
  intros H. rewrite !relo_of_elem. destruct r as [x|].
  - split; intros [Hk Hx]; (split; [done|]); apply elem_of_app in Hx || apply elem_of_app.
    + destruct Hx as [|Hx]; [done|]. specialize (H x Hx). lia.
    + by left.
  - split; intros Hx x Hin.
    + apply Hx, elem_of_app. by left.
    + apply elem_of_app in Hin as [Hin|Hin]; [by apply Hx|]. specialize (H x Hin). lia.
Qed.

Lemma ref_at_det i k insn c insn' c' : placed i -> ref_at i k insn c -> ref_at i k insn' c' ->
  insn' = insn /\ c' = c.
Proof.
  intros Hp (p & r & H1 & _ & H2 & _ & H3 & ->) (p' & r' & H1' & _ & H2' & _ & H3' & ->).
  assert (p' = p) as -> by congruence. assert (insn' = insn) as -> by congruence.
  destruct (placed_body i Hp) as (p0 & E & [_ Hs _]). assert (p0 = p) as -> by congruence.
  by rewrite (relo_of_unique _ _ _ _ Hs H3 H3').
Qed.

Lemma calls_det i k q q' : placed i -> calls i k q -> calls i k q' -> q' = q.
Proof.
  intros Hp (insn & idx & qp & H1 & H2 & H3) (insn' & idx' & qp' & H1' & H2' & H3').
  destruct (ref_at_det _ _ _ _ _ _ Hp H1 H1') as [_ [= ->]]. by eapply (holds_unique ps0).
Qed.

Lemma calls_resolved i k q : placed i -> calls i k q -> ~ unresolved i k.
Proof.
  intros Hp (insn & idx & qp & H1 & H2 & H3) (insn' & c & H4 & H5).
  destruct (ref_at_det _ _ _ _ _ _ Hp H1 H4) as [_ ->]. by eapply H5.
Qed.

Lemma inv_placed ps order done : link_inv ps order done -> Forall placed order.
Proof. intros H. apply Forall_forall. intros i Hi. by apply (li_text _ _ _ H). Qed.

Lemma inv_in ps order done i : link_inv ps order done -> i ∈ order ->
  exists p0 p, aref ps0 i = Some p0 /\ body_ok p0 /\ aref ps i = Some p /\ same_place p0 p /\
    sub_insn_off p = pos order i.
Proof.
  intros H Hi. destruct (placed_body i (li_text _ _ _ H i Hi)) as (p0 & E & Hb).
  destruct (li_off _ _ _ H i Hi) as (p & Hp & Ho). exists p0, p. split_and!; try done.
  by eapply (li_place _ _ _ H).
Qed.

Lemma inv_total ps order done : link_inv ps order done -> total order < 2 ^ 31.
Proof.
  intros H. apply total_bound; [by eapply li_nodup|]. intros i Hi.
  destruct (inv_in _ _ _ i H Hi) as (p0 & _ & E & _). by exists p0.
Qed.

(** The relocations found for a program are its own. *)
Lemma inv_relos ps order done i p0 p : link_inv ps order done -> i ∈ order ->
  aref ps0 i = Some p0 -> aref ps i = Some p ->
  relos_sorted (relos p) /\ forall k r, 0 <= k < sec_insn_cnt p0 -> relo_of (relos p) k r <-> relo_of (relos p0) k r.
Proof.
  intros H Hi E Hp. destruct (inv_in _ _ _ i H Hi) as (p0' & _ & E' & Hb & _).
  assert (p0' = p0) as -> by congruence. clear E'.
  destruct (Z.eq_dec i main) as [->|Hne].
  2: { destruct (li_rest _ _ _ H i p0 p Hne E Hp) as (_ & -> & _). split; [apply Hb|done]. }
  destruct (li_code _ _ _ H) as (pm & Hpm & _ & Hr & _). assert (pm = p) as -> by congruence.
  destruct (li_head _ _ _ H) as [tl Htl]. pose proof (inv_placed _ _ _ H) as Hpl.
  pose proof (inv_total _ _ _ H) as Ht. split.
  - rewrite Hr. apply moved_relos_sorted; [done|lia|lia].
  - intros k r Hk. rewrite Hr, Htl. cbn [moved_relos]. rewrite E, moved_zero by done.
    apply relo_of_app. intros x Hx. rewrite Htl in Hpl, Ht. apply Forall_cons in Hpl as [_ Hpl].
    change (total (main :: tl)) with (cnt main + total tl) in Ht. pose proof (cnt_at main p0 E).
    pose proof (total_cnt_nonneg tl). pose proof (cnt_nonneg main).
    apply (proj2 (moved_relos_sorted tl (0 + cnt main) Hpl ltac:(lia) ltac:(lia))) in Hx. lia.
Qed.

Lemma call_target_place p0 p k insn r : same_place p0 p -> call_target p k insn r = call_target p0 k insn r.
Proof. intros (_ & E & _). unfold call_target. by rewrite E. Qed.

Lemma inv_ext ps order done done' : (forall i, i ∈ order -> done i = done' i) ->
  link_inv ps order done -> link_inv ps order done'.
Proof.
  intros E []. constructor; try done.
  - destruct li_code0 as (pm & H1 & H2 & H3 & H4). exists pm. split_and!; try done.
    intros i k Hi Hk. rewrite <- (E i Hi). by apply H4.
  - intros i k Hi Hk. rewrite <- (E i Hi). by apply li_done0.
Qed.

(** Function and line information. *)
Lemma inv_info ps order done pm f l ps' : aref ps main = Some pm -> aset ps main (set_infos pm f l) = Some ps' ->
  link_inv ps order done -> link_inv ps' order done.
Proof.
  intros Hpm Hs [].
  assert (Hnew : forall i p, aref ps' i = Some p -> exists p1, aref ps i = Some p1 /\
    same_place p1 p /\ sub_insn_off p = sub_insn_off p1 /\ (i <> main -> p = p1)).
  { intros i p Hp. destruct (Z.eq_dec main i) as [<-|Hne].
    - rewrite (aref_aset_eq _ _ _ _ Hs) in Hp. injection Hp as <-. exists pm. by split_and!.
    - rewrite (aref_aset_ne _ _ i _ _ Hs Hne) in Hp. exists p. by split_and!. }
  assert (Hpm' : aref ps' main = Some (set_infos pm f l)) by (by eapply aref_aset_eq).
  constructor; try done.
  - apply aset_inv in Hs as [_ ->]. by rewrite length_insert.
  - intros i p0 p H0 Hp. destruct (Hnew i p Hp) as (p1 & H1 & (? & ? & ? & ?) & _).
    destruct (li_place0 i p0 p1 H0 H1) as (? & ? & ? & ?). split_and!; congruence.
  - intros i p0 p Hne H0 Hp. destruct (Hnew i p Hp) as (p1 & H1 & _ & _ & Heq). rewrite (Heq Hne).
    by eapply li_rest0.
  - intros i Hi. destruct (li_off0 i Hi) as (p1 & H1 & H2). destruct (Z.eq_dec main i) as [<-|Hne].
    + exists (set_infos pm f l). split; [done|]. cbn. congruence.
    + exists p1. by rewrite (aref_aset_ne _ _ i _ _ Hs Hne).
  - intros i p Hi Hp Ht. destruct (Hnew i p Hp) as (p1 & H1 & (E & _) & Eo & _). rewrite Eo.
    eapply li_new0; [done|done|congruence].
  - destruct li_code0 as (pm1 & H1 & H2 & H3 & H4). assert (pm1 = pm) as -> by congruence.
    exists (set_infos pm f l). by split_and!.
Qed.

Context (env : obj_env) (alloc_ok : Z -> bool) (Htext : text_shndx env = text).

(** A call between programs, and what the main program needs. *)
Definition calls_prog (i j : Z) : Prop := exists k, calls i k j.
Definition needed (j : Z) : Prop := rtc calls_prog main j.

(** Why linking fails. *)
Definition fails (err : Z) : Prop :=
  err = - ENOMEM /\ (exists n, alloc_ok n = false) \/
  err = - ERRNO_RELOC /\ (exists i k, needed i /\ unresolved i k) \/
  err = - ENOENT /\ btf_ext env <> None.

Lemma inv_needed ps order done : link_inv ps order done -> forall n j, order !! n = Some j -> needed j.
Proof.
  intros H. destruct (li_head _ _ _ H) as [tl Htl]. induction n as [n IH] using lt_wf_ind. intros j Hj.
  destruct n as [|n].
  - rewrite Htl in Hj. injection Hj as <-. apply rtc_refl.
  - destruct (li_reach _ _ _ H n j Hj) as (n' & i & k & Hle & Hi & Hc).
    eapply rtc_r; [by apply (IH n'); [lia|]|by exists k].
Qed.

Lemma append_relos_spec ps q pm s : main <> q -> aref ps main = Some pm -> aref ps q = Some s ->
  exists err ps', append_subprog_relos alloc_ok ps main q = Some (err, ps') /\
  (err = 0 /\ aset ps main (set_relos pm (relos pm ++ map (moved (sub_insn_off s)) (relos s))) = Some ps' \/
   err = - ENOMEM /\ exists n, alloc_ok n = false).
Proof.
  intros Hne Hpm Hs. unfold append_subprog_relos. destruct (Z.eqb_spec main q); [done|].
  rewrite Hpm. cbn [mbind option_bind]. rewrite Hs. cbn [mbind option_bind].
  destruct (alloc_ok _) eqn:Ha; cbn [negb]; [|do 2 eexists; split; [done|right; split; [done|by eexists]]].
  destruct (aset_defined ps main pm (set_relos pm (relos pm ++ map (moved (sub_insn_off s)) (relos s))) Hpm)
    as [ps' Hps'].
  cbv zeta. pose proof Hps' as E. unfold moved in E. rewrite E. cbn [mbind option_bind].
  do 2 eexists. split; [done|]. by left.
Qed.

(** What appending does to the array of programs. *)
Lemma append_subprog_spec ps q pm s : main <> q -> aref ps main = Some pm -> aref ps q = Some s ->
  exists err ps', append_subprog alloc_ok ps main q = Some (err, ps') /\
  (err = - ENOMEM /\ (exists n, alloc_ok n = false) \/
   err = 0 /\ length ps' = length ps /\
   aref ps' q = Some (set_sub_off s (Z.of_nat (length (insns pm)))) /\
   aref ps' main = Some (set_relos (set_insns pm (insns pm ++ insns s))
     (relos pm ++ map (moved (Z.of_nat (length (insns pm)))) (relos s))) /\
   forall i, i <> main -> i <> q -> aref ps' i = aref ps i).
Proof.
  intros Hne Hpm Hs. unfold append_subprog. rewrite Hpm. cbn [mbind option_bind]. rewrite Hs.
  cbn [mbind option_bind]. set (o := Z.of_nat (length (insns pm))).
  destruct (aset_defined ps q s (set_sub_off s o) Hs) as [ps1 E1]. rewrite E1. cbn [mbind option_bind].
  destruct (alloc_ok _) eqn:Ha; cbn [negb]; [|do 2 eexists; split; [done|left; split; [done|by eexists]]].
  destruct (Z.eqb_spec main q); [done|].
  assert (Hm1 : aref ps1 main = Some pm) by (rewrite (aref_aset_ne _ _ main _ _ E1) by done; done).
  assert (Hq1 : aref ps1 q = Some (set_sub_off s o)) by (by eapply aref_aset_eq).
  destruct (aset_defined ps1 main pm (set_insns pm (insns pm ++ insns s)) Hm1) as [ps2 E2]. rewrite E2.
  cbn [mbind option_bind].
  assert (Hm2 : aref ps2 main = Some (set_insns pm (insns pm ++ insns s))) by (by eapply aref_aset_eq).
  assert (Hq2 : aref ps2 q = Some (set_sub_off s o)) by (rewrite (aref_aset_ne _ _ q _ _ E2) by done; done).
  destruct (append_relos_spec ps2 q _ _ Hne Hm2 Hq2) as (err & ps' & -> & [[-> E3]|[-> Hn]]).
  2: { do 2 eexists. split; [done|]. by left. }
  exists 0, ps'. split; [done|]. right. split_and!; [done| | | |].
  - apply aset_inv in E1 as [_ ->], E2 as [_ ->], E3 as [_ ->]. by rewrite !length_insert.
  - by rewrite (aref_aset_ne _ _ q _ _ E3) by done.
  - by rewrite (aref_aset_eq _ _ _ _ E3).
  - intros i H1 H2. rewrite (aref_aset_ne _ _ i _ _ E3), (aref_aset_ne _ _ i _ _ E2),
      (aref_aset_ne _ _ i _ _ E1) by done. done.
Qed.

Definition upd (f : Z -> Z) (i v : Z) : Z -> Z := λ j, if decide (j = i) then v else f j.


(** The layout grows by a program that is called. *)
Lemma inv_append ps order done q i k ps' pm s :
  link_inv ps order done -> q ∉ order -> i ∈ order -> calls i k q -> placed q ->
  aref ps main = Some pm -> aref ps q = Some s -> length ps' = length ps ->
  aref ps' q = Some (set_sub_off s (Z.of_nat (length (insns pm)))) ->
  aref ps' main = Some (set_relos (set_insns pm (insns pm ++ insns s))
     (relos pm ++ map (moved (Z.of_nat (length (insns pm)))) (relos s))) ->
  (forall i, i <> main -> i <> q -> aref ps' i = aref ps i) ->
  link_inv ps' (order ++ [q]) (upd done q 0).
Proof.
  intros H Hq Hi Hcall Hpl Hpm Hs Hlen Hq' Hm' Hrest.
  destruct (placed_body q Hpl) as (q0 & Eq & Hbq).
  destruct (li_head _ _ _ H) as [tl Htl].
  assert (Hne : q <> main) by (intros ->; apply Hq; rewrite Htl; by left).
  destruct (li_code _ _ _ H) as (pm1 & E1 & Hlen1 & Hrel & Hcode). assert (pm1 = pm) as -> by congruence.
  destruct (li_rest _ _ _ H q q0 s Hne Eq Hs) as (Hqi & Hqr & Hqf & Hql & _).
  pose proof (li_place _ _ _ H q q0 s Eq Hs) as (Q1 & Q2 & Q3 & Q4).
  assert (Hold : forall j, j ∈ order -> j <> q) by (intros j Hj ->; done).
  assert (Hnew : forall j p, aref ps' j = Some p -> exists p1, aref ps j = Some p1 /\ same_place p1 p /\
    (j <> q -> sub_insn_off p = sub_insn_off p1) /\
    (j <> main -> insns p = insns p1 /\ relos p = relos p1 /\ func_info p = func_info p1 /\ line_info p = line_info p1)).
  { intros j p Hp. destruct (Z.eq_dec j main) as [->|Hjm]; [|destruct (Z.eq_dec j q) as [->|Hjq]].
    - rewrite Hm' in Hp. injection Hp as <-. exists pm. by split_and!.
    - rewrite Hq' in Hp. injection Hp as <-. exists s. by split_and!.
    - rewrite Hrest in Hp by done. exists p. by split_and!. }
  assert (Hposq : pos (order ++ [q]) q = total order) by (by apply pos_new).
  constructor.
  - by rewrite Hlen, (li_len _ _ _ H).
  - intros j p0 p H0 Hp. destruct (Hnew j p Hp) as (p1 & H1 & (? & ? & ? & ?) & _).
    destruct (li_place _ _ _ H j p0 p1 H0 H1) as (? & ? & ? & ?). split_and!; congruence.
  - intros j p0 p Hj H0 Hp. destruct (Hnew j p Hp) as (p1 & H1 & (T1 & _) & Ho & Hb).
    destruct (Hb Hj) as (? & ? & ? & ?).
    destruct (li_rest _ _ _ H j p0 p1 Hj H0 H1) as (? & ? & ? & ? & Hoff). split_and!; try congruence.
    intros Hjo Hjt. rewrite not_elem_of_app, not_elem_of_cons in Hjo. destruct Hjo as (Hjo & Hjq & _).
    rewrite (Ho Hjq). apply Hoff; [done|congruence].
  - apply NoDup_app. split_and!; [by eapply li_nodup| |apply NoDup_singleton].
    intros j Hj ->%list_elem_of_singleton. done.
  - exists (tl ++ [q]). by rewrite Htl.
  - intros j [Hj| ->%list_elem_of_singleton]%elem_of_app; [by apply (li_text _ _ _ H)|done].
  - intros j [Hj| ->%list_elem_of_singleton]%elem_of_app.
    + destruct (li_off _ _ _ H j Hj) as (p1 & H1 & H2). rewrite pos_app_l by done.
      destruct (Z.eq_dec j main) as [->|Hjm].
      * eexists. split; [done|]. cbn. congruence.
      * exists p1. rewrite Hrest by auto. done.
    + eexists. split; [done|]. cbn. by rewrite Hposq, <- Hlen1.
  - intros j p Hj Hp Ht. rewrite not_elem_of_app, not_elem_of_cons in Hj. destruct Hj as (Hj & Hjq & _).
    destruct (Hnew j p Hp) as (p1 & H1 & (T1 & _) & Ho & _). rewrite (Ho Hjq).
    eapply (li_new _ _ _ H); [done|done|congruence].
  - eexists. split; [done|]. cbn [set_relos set_insns insns relos]. rewrite length_app, Nat2Z.inj_add, total_cnt_app, Hqi.
    split_and!.
    + rewrite Hlen1, (bo_length _ Hbq). cbn. rewrite (cnt_at q q0 Eq). lia.
    + rewrite moved_relos_app, Hrel, Hqr, Hlen1. cbn [moved_relos]. by rewrite Eq, app_nil_r.
    + intros j a Hj Ha. rewrite aref_app. apply elem_of_app in Hj as [Hj| ->%list_elem_of_singleton].
      * rewrite pos_app_l by done. pose proof (pos_range order j Hj).
        destruct (Z.ltb_spec (pos order j + a) (Z.of_nat (length (insns pm)))); [|lia].
        destruct (Hcode j a Hj Ha) as (x & Hx & Hd). exists x. split; [done|].
        unfold upd. rewrite decide_False by auto. destruct (Z.ltb_spec a (done j)); [|done].
        destruct Hd as (p & insn & P1 & P2 & P3). exists p, insn. split_and!; try done.
        destruct P3 as [(t & Ct & ->)|P3]; [left|by right]. exists t. split; [done|].
        rewrite pos_app_l; [by rewrite pos_app_l|].
        by eapply (li_done _ _ _ H j a).
      * rewrite Hposq. destruct (Z.ltb_spec (total order + a) (Z.of_nat (length (insns pm)))); [lia|].
        replace (total order + a - Z.of_nat (length (insns pm))) with a by lia.
        destruct (aref_Some (insns q0) a) as [x Hx].
        { rewrite (bo_length _ Hbq). rewrite (cnt_at q q0 Eq) in Ha. lia. }
        exists x. split; [done|]. unfold upd. rewrite decide_True by done.
        destruct (Z.ltb_spec a 0); [lia|]. by exists q0.
  - intros j a Hj Ha. unfold upd. apply elem_of_app in Hj as [Hj| ->%list_elem_of_singleton].
    + rewrite decide_False by auto. intros Hd. destruct (li_done _ _ _ H j a Hj Ha Hd) as [D1 D2].
      split; [done|]. intros t Ht. apply elem_of_app. left. by apply D2.
    + rewrite decide_True by done. lia.
  - intros n j Hj. destruct (decide (S n < length order)%nat) as [Hn|Hn].
    + rewrite lookup_app_l in Hj by done. destruct (li_reach _ _ _ H n j Hj) as (n' & a & b & H1 & H2 & H3).
      exists n', a, b. split_and!; [done| |done]. by apply lookup_app_l_Some.
    + rewrite lookup_app_r in Hj by lia. apply list_lookup_singleton_Some in Hj as [Hj <-].
      apply list_elem_of_lookup_1 in Hi as [n' Hn']. exists n', i, k.
      split_and!; [apply lookup_lt_Some in Hn'; lia|by apply lookup_app_l_Some|done].
Qed.

(** The instruction that is next is still the one of the object. *)
Lemma inv_next ps order done i k p0 p : link_inv ps order done -> i ∈ order -> done i = k -> 0 <= k < cnt i ->
  aref ps0 i = Some p0 -> aref ps i = Some p ->
  exists pm insn, aref ps main = Some pm /\ sub_insn_off p = pos order i /\
    aref (insns pm) (sub_insn_off p + k) = Some insn /\ aref (insns p0) k = Some insn.
Proof.
  intros H Hi Hd Hk E Hp. destruct (li_code _ _ _ H) as (pm & Hpm & _ & _ & Hcode).
  destruct (Hcode i k Hi Hk) as (x & Hx & Ho). rewrite Hd, Z.ltb_irrefl in Ho. destruct Ho as (p0' & E' & Ho).
  destruct (inv_in _ _ _ i H Hi) as (_ & p' & _ & _ & Hp' & _ & Hoff). assert (p' = p) as -> by congruence.
  exists pm, x. rewrite Hoff. split_and!; try done. congruence.
Qed.

(** An instruction that calls nothing stays as it is. *)
Lemma inv_skip ps order done i k : link_inv ps order done -> i ∈ order -> done i = k -> 0 <= k < cnt i ->
  (forall q, ~ calls i k q) -> ~ unresolved i k -> link_inv ps order (upd done i (k + 1)).
Proof.
  intros H Hi Hd Hk Hc Hu. destruct H. constructor; try done.
  - destruct li_code0 as (pm & Hpm & H1 & H2 & Hcode). exists pm. split_and!; try done.
    intros j a Hj Ha. destruct (Hcode j a Hj Ha) as (x & Hx & Ho). exists x. split; [done|].
    unfold upd. destruct (decide (j = i)) as [->|]; [|done]. rewrite Hd in Ho.
    destruct (Z.ltb_spec a (k + 1)), (Z.ltb_spec a k); try done; try lia.
    assert (a = k) as -> by lia. destruct Ho as (p0 & E & Ho). exists p0, x. split_and!; try done. by right.
  - intros j a Hj Ha. unfold upd. destruct (decide (j = i)) as [->|]; [|by apply li_done0].
    intros Hlt. destruct (Z.eq_dec a k) as [->|]; [split; [done|by intros q Hq%Hc]|]. apply li_done0; [done|done|lia].
Qed.

(** A call is rewritten. *)
Lemma inv_patch ps order done i k q pm insn l ps' : link_inv ps order done -> i ∈ order -> q ∈ order ->
  done i = k -> 0 <= k < cnt i -> calls i k q -> aref ps main = Some pm ->
  aref (insns pm) (pos order i + k) = Some insn ->
  aset (insns pm) (pos order i + k) (set_imm insn (pos order q - (pos order i + k) - 1)) = Some l ->
  aset ps main (set_insns pm l) = Some ps' ->
  link_inv ps' order (upd done i (k + 1)).
Proof.
  intros H Hi Hq Hd Hk Hc Hpm Hinsn Hl Hs.
  assert (Hpi : placed i) by (by apply (li_text _ _ _ H)).
  assert (Hpm' : aref ps' main = Some (set_insns pm l)) by (by eapply aref_aset_eq).
  assert (Hnew : forall j p, aref ps' j = Some p -> exists p1, aref ps j = Some p1 /\
    same_place p1 p /\ sub_insn_off p = sub_insn_off p1 /\ (j <> main -> p = p1)).
  { intros j p Hp. destruct (Z.eq_dec main j) as [<-|Hne].
    - rewrite Hpm' in Hp. injection Hp as <-. exists pm. by split_and!.
    - rewrite (aref_aset_ne _ _ j _ _ Hs Hne) in Hp. exists p. by split_and!. }
  destruct H. constructor; try done.
  - apply aset_inv in Hs as [_ ->]. by rewrite length_insert.
  - intros j p0 p H0 Hp. destruct (Hnew j p Hp) as (p1 & H1 & (? & ? & ? & ?) & _).
    destruct (li_place0 j p0 p1 H0 H1) as (? & ? & ? & ?). split_and!; congruence.
  - intros j p0 p Hne H0 Hp. destruct (Hnew j p Hp) as (p1 & H1 & _ & _ & Heq). rewrite (Heq Hne).
    by eapply li_rest0.
  - intros j Hj. destruct (li_off0 j Hj) as (p1 & H1 & H2). destruct (Z.eq_dec main j) as [<-|Hne].
    + exists (set_insns pm l). split; [done|]. cbn. congruence.
    + exists p1. by rewrite (aref_aset_ne _ _ j _ _ Hs Hne).
  - intros j p Hj Hp Ht. destruct (Hnew j p Hp) as (p1 & H1 & (E & _) & Eo & _). rewrite Eo.
    eapply li_new0; [done|done|congruence].
  - destruct li_code0 as (pm1 & H1 & H2 & H3 & Hcode). assert (pm1 = pm) as -> by congruence.
    exists (set_insns pm l). cbn [set_insns insns relos]. split_and!; try done.
    { apply aset_inv in Hl as [_ ->]. by rewrite length_insert. }
    intros j a Hj Ha. destruct (Hcode j a Hj Ha) as (x & Hx & Ho).
    destruct (Z.eq_dec (pos order i + k) (pos order j + a)) as [Heq|Hne].
    + assert (j = i) as -> by (symmetry; by eapply (pos_disjoint order i j k a)).
      assert (a = k) as -> by lia. rewrite (aref_aset_eq _ _ _ _ Hl). eexists. split; [done|].
      unfold upd. rewrite decide_True by done. destruct (Z.ltb_spec k (k + 1)); [|lia].
      rewrite Hd, Z.ltb_irrefl in Ho. destruct Ho as (p0 & E & Ho). assert (x = insn) as -> by congruence.
      exists p0, insn. split_and!; try done. left. by exists q.
    + rewrite (aref_aset_ne _ _ _ _ _ Hl Hne). exists x. split; [done|].
      unfold upd. destruct (decide (j = i)) as [->|]; [|done]. rewrite Hd in Ho.
      destruct (Z.ltb_spec a (k + 1)), (Z.ltb_spec a k); try done; try lia.
  - intros j a Hj Ha. unfold upd. destruct (decide (j = i)) as [->|]; [|by apply li_done0].
    intros Hlt. destruct (Z.eq_dec a k) as [->|]; [|apply li_done0; [done|done|lia]].
    split; [by eapply calls_resolved|]. intros t Ht. by rewrite (calls_det _ _ _ _ Hpi Hc Ht).
Qed.

(** *** The loop *)

Definition finished (order : list Z) (done : Z -> Z) (i : Z) : Z -> Z :=
  λ j, if decide (j ∈ order /\ j <> i) then done j else cnt j.

(** The outcome of a run that had to complete [i]: everything added since is
    complete, the rest is as it was. *)
Definition outcome (err : Z) (ps' : list bpf_program) (order : list Z) (done : Z -> Z) (i : Z) : Prop :=
  err = 0 /\ (exists ext, link_inv ps' (order ++ ext) (finished order done i)) \/
  err < 0 /\ fails err.

Definition rec_ok (room : nat) (rec : list bpf_program -> Z -> option (Z * list bpf_program)) : Prop :=
  forall ps order done i, link_inv ps order done -> i ∈ order -> done i = 0 ->
    (length ps0 < length order + room)%nat ->
    exists err ps', rec ps i = Some (err, ps') /\ outcome err ps' order done i.

Lemma inv_room ps order done q : link_inv ps order done -> q ∉ order -> is_Some (aref ps0 q) ->
  (length order < length ps0)%nat.
Proof.
  intros H Hq [p Hp]. assert (Hsub : (q :: order) ⊆+ (Z.of_nat <$> seq 0 (length ps0))).
  { apply NoDup_submseteq; [apply NoDup_cons; split; [done|by eapply li_nodup]|].
    assert (Hr : forall i, is_Some (aref ps0 i) -> i ∈ Z.of_nat <$> seq 0 (length ps0)).
    { intros i [x Hx]. apply aref_bounds in Hx. apply list_elem_of_fmap. exists (Z.to_nat i).
      split; [lia|]. apply elem_of_seq. lia. }
    intros i [->|Hi]%elem_of_cons; apply Hr; [by exists p|].
    destruct (inv_in _ _ _ i H Hi) as (p0 & _ & E & _). by exists p0. }
  apply submseteq_length in Hsub. rewrite length_fmap, length_seq in Hsub. simpl in Hsub. lia.
Qed.

(** The called program is in the layout, if need be appended and completed. *)
Lemma call_placed room rec ps order done i k q s : rec_ok room rec ->
  link_inv ps order done -> i ∈ order -> done i = k -> calls i k q -> placed q -> aref ps q = Some s ->
  (length ps0 < S (length order) + room)%nat ->
  exists err ps',
    (if sub_insn_off s =? 0 then
       '(err, progs) ← append_subprog alloc_ok ps main q;
       if negb (err =? 0) then Some (err, progs) else rec progs q
     else Some (0, ps)) = Some (err, ps') /\
    (err = 0 /\ (exists ext, link_inv ps' (order ++ ext) (λ j, if decide (j ∈ order) then done j else cnt j) /\
       q ∈ order ++ ext) \/
     err < 0 /\ fails err).
Proof.
  intros Hrec H Hi Hd Hc Hpl Hs Hroom. destruct (placed_body q Hpl) as (q0 & Eq & Hbq).
  pose proof (li_place _ _ _ H q q0 s Eq Hs) as (Q1 & _).
  assert (Hqm : q <> main -> p_sec_idx s = text).
  { intros Hne. destruct Hpl as [|(p0 & E & Ht)]; [done|]. congruence. }
  assert (Hqm' : q <> main).
  { intros ->. destruct Hc as (insn & idx & qp & _ & Ec & Hh & _). congruence. }
  destruct (decide (q ∈ order)) as [Hin|Hnew].
  - destruct (li_off _ _ _ H q Hin) as (s' & E & Ho). assert (s' = s) as -> by congruence.
    destruct (li_head _ _ _ H) as [tl Htl]. assert (Hp0 : 0 < pos order q).
    { rewrite Htl in *. cbn. rewrite decide_False by done. apply elem_of_cons in Hin as [|Hin]; [done|].
      pose proof (pos_range tl q Hin). pose proof (lo_size _ Hlay _ _ Hmain).
      rewrite (cnt_at main pm0 Hmain). lia. }
    destruct (Z.eqb_spec (sub_insn_off s) 0); [lia|]. do 2 eexists. split; [done|]. left. split; [done|].
    exists []. rewrite app_nil_r. split; [|done]. eapply inv_ext; [|done]. intros j Hj.
    by rewrite decide_True.
  - rewrite (li_new _ _ _ H q s Hnew Hs (Hqm Hqm')). cbn [Z.eqb].
    destruct (li_code _ _ _ H) as (pm & Hpm & _).
    destruct (append_subprog_spec ps q pm s (not_eq_sym Hqm') Hpm Hs)
      as (err & ps1 & -> & [[-> Hn]|(-> & Hlen & Hq' & Hm' & Hr')]); cbn [mbind option_bind].
    { do 2 eexists. split; [done|]. right. split; [done|]. by left. }
    cbn [Z.eqb negb].
    pose proof (inv_append ps order done q i k ps1 pm s H Hnew Hi Hc Hpl Hpm Hs Hlen Hq' Hm' Hr') as H1.
    destruct (Hrec ps1 (order ++ [q]) (upd done q 0) q H1) as (err & ps2 & -> & Ho).
    { apply elem_of_app. right. by left. }
    { unfold upd. by rewrite decide_True. }
    { rewrite length_app. simpl. lia. }
    do 2 eexists. split; [done|]. destruct Ho as [[-> [ext H2]]|Hf]; [left|by right]. split; [done|].
    exists (q :: ext). rewrite <- app_assoc in H2. split; [|apply elem_of_app; right; by left].
    eapply inv_ext; [|exact H2]. intros j Hj. unfold finished, upd.
    destruct (decide (j ∈ order)) as [Hjo|Hjo].
    + assert (j <> q) by (intros ->; done). rewrite decide_True by (split; [apply elem_of_app; by left|done]).
      by rewrite decide_False.
    + rewrite decide_False; [done|]. intros [[|E%list_elem_of_singleton]%elem_of_app Hn]; done.
Qed.

Lemma inv_back ps order done i p : link_inv ps order done -> aref ps i = Some p ->
  exists p0, aref ps0 i = Some p0 /\ same_place p0 p.
Proof.
  intros H Hp. destruct (aref_Some ps0 i) as [p0 E].
  { rewrite <- (li_len _ _ _ H). by eapply aref_bounds. }
  exists p0. split; [done|]. by eapply (li_place _ _ _ H).
Qed.

Lemma inv_layout ps order done : link_inv ps order done -> layout_ok ps /\ ps <> [].
Proof.
  intros H. split.
  - split.
    + intros i j p q Hij Hp Hq. destruct (inv_back _ _ _ _ _ H Hp) as (p0 & E1 & T1 & T2 & T3 & _).
      destruct (inv_back _ _ _ _ _ H Hq) as (q0 & E2 & T4 & T5 & T6 & _).
      pose proof (lo_sorted _ Hlay _ _ _ _ Hij E1 E2) as Hb. unfold before in *. by rewrite T1, T2, T3, T4, T5.
    + intros i p Hp. destruct (inv_back _ _ _ _ _ H Hp) as (p0 & E1 & _ & T2 & T3 & _).
      rewrite T2, T3. by eapply (lo_size _ Hlay).
  - intros ->. pose proof (li_len _ _ _ H) as Hl. apply aref_bounds in Hmain. simpl in Hl. lia.
Qed.

(** What a reference of the next instruction is found to be. *)
Lemma next_ref ps order done i k p0 p insn r : link_inv ps order done -> i ∈ order -> 0 <= k < cnt i ->
  aref ps0 i = Some p0 -> aref ps i = Some p -> aref (insns p0) k = Some insn -> is_ref insn = true ->
  relo_of (relos p) k r -> ref_at i k insn (call_target p k insn r).
Proof.
  intros H Hi Hk E Hp Hinsn Href Hr. destruct (inv_relos _ _ _ _ _ _ H Hi E Hp) as [_ Hiff].
  pose proof (li_place _ _ _ H i p0 p E Hp) as Hpl. rewrite (cnt_at i p0 E) in Hk.
  exists p0, r. split_and!; try done; [lia|lia|by apply Hiff|by apply call_target_place].
Qed.

Lemma finished_self order done i : done i = cnt i -> forall j, j ∈ order -> done j = finished order done i j.
Proof.
  intros Hd j Hj. unfold finished. destruct (decide (j ∈ order /\ j <> i)) as [|Hn]; [done|].
  destruct (decide (j = i)) as [->|]; [done|]. by destruct Hn.
Qed.

Lemma finished_step order ext done i v j :
  finished (order ++ ext) (upd (λ j, if decide (j ∈ order) then done j else cnt j) i v) i j = finished order done i j.
Proof.
  unfold finished, upd. destruct (decide (j ∈ order ++ ext /\ j <> i)) as [[Hj Hn]|Hn].
  - rewrite (decide_False (P := j = i)) by done. destruct (decide (j ∈ order)) as [Ho|Ho].
    + by rewrite decide_True.
    + rewrite decide_False; [done|]. by intros [? _].
  - rewrite decide_False; [done|]. intros [Ho Hne]. apply Hn. split; [|done]. apply elem_of_app. by left.
Qed.

Lemma outcome_later err ps' order ext done i v :
  outcome err ps' (order ++ ext) (upd (λ j, if decide (j ∈ order) then done j else cnt j) i v) i ->
  outcome err ps' order done i.
Proof.
  intros [[-> [ext' H]]|Hf]; [left|by right]. split; [done|]. exists (ext ++ ext'). rewrite app_assoc.
  eapply inv_ext; [|exact H]. intros j _. apply finished_step.
Qed.

Lemma outcome_next err ps' order done i v : outcome err ps' order (upd done i v) i -> outcome err ps' order done i.
Proof.
  intros [[-> [ext H]]|Hf]; [left|by right]. split; [done|]. exists ext.
  eapply inv_ext; [|exact H]. intros j _. unfold finished, upd. destruct (decide (j ∈ order /\ j <> i)) as [[_ Hn]|]; [|done].
  by rewrite decide_False.
Qed.

Lemma reloc_insns_spec room rec : rec_ok room rec ->
  forall n k ps order done i, link_inv ps order done -> i ∈ order -> done i = k -> 0 <= k ->
    k + Z.of_nat n = cnt i -> (length ps0 < S (length order) + room)%nat ->
    exists err ps', reloc_insns env alloc_ok rec main i k n ps = Some (err, ps') /\ outcome err ps' order done i.
Proof.
  intros Hrec. induction n as [|n IH]; intros k ps order done i H Hi Hd Hk Hn Hroom.
  { exists 0, ps. split; [done|]. left. split; [done|]. exists []. rewrite app_nil_r.
    eapply inv_ext; [|done]. apply finished_self. lia. }
  assert (Hkc : 0 <= k < cnt i) by lia.
  destruct (inv_in _ _ _ i H Hi) as (p0 & p & E & Hb & Hp & Hpl & Hoff).
  destruct (inv_next _ _ _ i k p0 p H Hi Hd Hkc E Hp) as (pm & insn & Hpm & _ & Hx & Hx0).
  assert (Hskip : (forall q, ~ calls i k q) -> ~ unresolved i k ->
    exists err ps', reloc_insns env alloc_ok rec main i (k + 1) n ps = Some (err, ps') /\ outcome err ps' order done i).
  { intros Hc Hu. destruct (IH (k + 1) ps order (upd done i (k + 1)) i) as (err & ps' & Hr & Ho);
      [by apply inv_skip|done|unfold upd; by rewrite decide_True|lia|lia|done|].
    exists err, ps'. split; [done|]. by eapply outcome_next. }
  assert (Hdet : forall insn' c, ref_at i k insn' c -> insn' = insn /\ is_ref insn = true).
  { intros insn' c (p1 & r & E1 & _ & Hi1 & Hr1 & _). assert (p1 = p0) as -> by congruence.
    assert (insn' = insn) as -> by congruence. done. }
  cbn [reloc_insns]. rewrite Hpm. cbn [mbind option_bind]. rewrite Hp. cbn [mbind option_bind]. rewrite Hx.
  cbn [mbind option_bind]. rewrite <- negb_orb. fold (is_ref insn). destruct (is_ref insn) eqn:Href; cbn [negb].
  2: { apply Hskip; [intros q (x & idx & qp & Hr%Hdet & _)|intros (x & c & Hr%Hdet & _)]; by destruct Hr. }
  destruct (find_relo_spec p k (proj1 (inv_relos _ _ _ _ _ _ H Hi E Hp))) as (r & -> & Hr). cbn [mbind option_bind].
  pose proof (next_ref _ _ _ _ _ _ _ _ _ H Hi Hkc E Hp Hx0 Href Hr) as Hat.
  assert (Hpi : placed i) by (by apply (li_text _ _ _ H)).
  destruct (list_elem_of_lookup_1 _ _ Hi) as [ni Hni]. pose proof (inv_needed _ _ _ H _ _ Hni) as Hneed.
  destruct (call_target p k insn r) as [| |idx].
  - apply Hskip.
    + intros q (x & idx & qp & Hr' & _). by destruct (ref_at_det _ _ _ _ _ _ Hpi Hat Hr').
    + intros (x & c & Hr' & Hbad). by destruct (ref_at_det _ _ _ _ _ _ Hpi Hat Hr') as [_ ->].
  - do 2 eexists. split; [done|]. right. split; [done|]. right; left. split; [done|].
    exists i, k. split; [done|]. by exists insn, ref_bad.
  - destruct (inv_layout _ _ _ H) as [Hlo Hne]. rewrite Htext.
    destruct (find_prog_spec ps text idx Hlo Hne) as (found & -> & Hfound). cbn [mbind option_bind].
    destruct found as [q|].
    2: { do 2 eexists. split; [done|]. right. split; [done|]. right; left. split; [done|].
         exists i, k. split; [done|]. exists insn, (ref_insn idx). split; [done|]. intros q qp Eq [Ht Hq].
         destruct (aref_Some ps q) as [s Hs]; [rewrite (li_len _ _ _ H); by eapply aref_bounds|].
         pose proof (li_place _ _ _ H q qp s Eq Hs) as (T1 & T2 & T3 & _).
         apply (Hfound q s Hs). unfold holds_insn. rewrite T1, T2, T3. done. }
    destruct Hfound as (s & Hs & Hh). destruct (inv_back _ _ _ _ _ H Hs) as (q0 & Eq & T1 & T2 & T3 & _).
    unfold holds_insn in Hh. rewrite T1, T2, T3 in Hh.
    assert (Hc : calls i k q) by (by exists insn, idx, q0).
    rewrite Hs. cbn [mbind option_bind].
    destruct (call_placed room rec ps order done i k q s Hrec H Hi Hd Hc) as (err & ps1 & Hrun & Hout);
      [right; exists q0; split; [done|apply Hh]|done|done|]. rewrite Hrun. cbn [mbind option_bind].
    destruct Hout as [[-> (ext & H1 & Hq1)]|[Herr Hf]].
    2: { destruct (Z.eqb_spec err 0); [lia|]. do 2 eexists. split; [done|]. by right. }
    cbn [Z.eqb negb]. assert (Hi1 : i ∈ order ++ ext) by (apply elem_of_app; by left).
    destruct (inv_in _ _ _ i H1 Hi1) as (p0' & p1 & E' & _ & Hp1 & _ & Hoff1).
    assert (p0' = p0) as -> by congruence.
    destruct (inv_next _ _ _ i k p0 p1 H1 Hi1) as (pm1 & insn1 & Hpm1 & _ & Hx1 & _); [|done|done|done|].
    { by rewrite decide_True. }
    destruct (inv_in _ _ _ q H1 Hq1) as (_ & s1 & _ & _ & Hs1 & _ & Hoffq).
    rewrite Hpm1. cbn [mbind option_bind]. rewrite Hp1. cbn [mbind option_bind]. rewrite Hs1.
    cbn [mbind option_bind]. rewrite Hx1. cbn [mbind option_bind]. rewrite Hoff1, Hoffq in *.
    destruct (aset_defined (insns pm1) (pos (order ++ ext) i + k) insn1
      (set_imm insn1 (pos (order ++ ext) q - (pos (order ++ ext) i + k) - 1)) Hx1) as [l Hl].
    rewrite Hl. cbn [mbind option_bind].
    destruct (aset_defined ps1 main pm1 (set_insns pm1 l) Hpm1) as [ps2 Hps2]. rewrite Hps2.
    cbn [mbind option_bind].
    destruct (IH (k + 1) ps2 (order ++ ext)
      (upd (λ j, if decide (j ∈ order) then done j else cnt j) i (k + 1)) i) as (err & ps3 & Hr3 & Ho3).
    + eapply (inv_patch ps1 (order ++ ext) _ i k q pm1 insn1 l ps2); [exact H1|done|exact Hq1| |done|exact Hc
        |exact Hpm1|exact Hx1|exact Hl|exact Hps2]. by rewrite decide_True.
    + done.
    + unfold upd. by rewrite decide_True.
    + lia.
    + lia.
    + rewrite length_app. lia.
    + exists err, ps3. split; [done|]. by eapply outcome_later.
Qed.

Lemma adjust_info_spec p ext info : let r := adjust_prog_btf_ext_info alloc_ok p ext info in
  r.1 = 0 \/ r.1 = - ENOENT \/ r.1 = - ENOMEM /\ exists n, alloc_ok n = false.
Proof.
  unfold adjust_prog_btf_ext_info. destruct (find _ ext) as [[x recs]|]; [|by right; left].
  destruct (info_range _ _ _ _ _ _) as [[a b]|]; [|by right; left].
  destruct (alloc_ok _) eqn:Ha; cbn; [by left|right; right]. split; [done|by eexists].
Qed.

Lemma reloc_info_spec same p ext info : btf_ext env <> None ->
  let r := reloc_info alloc_ok same p ext info in r.1 = 0 \/ r.1 < 0 /\ fails r.1.
Proof.
  intros Hext. unfold reloc_info. destruct (negb same && _); [by left|].
  pose proof (adjust_info_spec p ext info) as H. destruct (adjust_prog_btf_ext_info _ _ _ _) as [err l].
  cbn [fst] in H. destruct ((err =? 0) || _) eqn:Hc; [by left|]. cbn [fst].
  destruct H as [->|[->|[-> Hn]]]; [done| |].
  - right. split; [done|]. by right; right.
  - right. split; [done|]. by left.
Qed.

(** The function and line information of a program in the layout. *)
Lemma reloc_infos_spec ps order done i : link_inv ps order done -> i ∈ order ->
  exists err ps', reloc_prog_func_and_line_info env alloc_ok ps main i = Some (err, ps') /\
    (err = 0 /\ link_inv ps' order done \/ err < 0 /\ fails err).
Proof.
  intros H Hi. unfold reloc_prog_func_and_line_info.
  destruct (btf_ext env) as [[funcs lines]|] eqn:Hext; [|do 2 eexists; split; [done|by left]].
  assert (Hne : btf_ext env <> None) by (by rewrite Hext).
  destruct (supports_func_info env); cbn [negb]; [|do 2 eexists; split; [done|by left]].
  destruct (li_code _ _ _ H) as (pm & Hpm & _). destruct (inv_in _ _ _ i H Hi) as (_ & p & _ & _ & Hp & _).
  rewrite Hpm. cbn [mbind option_bind]. rewrite Hp. cbn [mbind option_bind].
  pose proof (reloc_info_spec (main =? i) p funcs (func_info pm) Hne) as Hf.
  destruct (reloc_info _ _ _ _ _) as [err f]. cbn [fst] in Hf.
  destruct (Z.eqb_spec err 0) as [->|He]; cbn [negb]; [|do 2 eexists; split; [done|right; tauto]].
  pose proof (reloc_info_spec (main =? i) p lines (line_info pm) Hne) as Hl.
  destruct (reloc_info _ _ _ _ _) as [err l]. cbn [fst] in Hl.
  destruct (aset_defined ps main pm (set_infos pm f l) Hpm) as [ps' Hps']. rewrite Hps'.
  do 2 eexists. split; [done|]. destruct Hl as [->|Hl]; [left|by right]. split; [done|]. by eapply inv_info.
Qed.

Lemma reloc_code_spec fuel : rec_ok fuel (bpf_object__reloc_code env alloc_ok fuel main).
Proof.
  induction fuel as [|fuel IH]; intros ps order done i H Hi Hd Hroom.
  { exfalso. assert (Hsub : order ⊆+ (Z.of_nat <$> seq 0 (length ps0))).
    { apply NoDup_submseteq; [by eapply li_nodup|]. intros j Hj.
      destruct (inv_in _ _ _ j H Hj) as (p0 & _ & E & _). apply aref_bounds in E.
      apply list_elem_of_fmap. exists (Z.to_nat j). split; [lia|]. apply elem_of_seq. lia. }
    apply submseteq_length in Hsub. rewrite length_fmap, length_seq in Hsub. lia. }
  cbn [bpf_object__reloc_code].
  destruct (reloc_infos_spec ps order done i H Hi) as (err & ps1 & -> & [[-> H1]|[Herr Hf]]); cbn [mbind option_bind].
  2: { destruct (Z.eqb_spec err 0); [lia|]. do 2 eexists. split; [done|]. by right. }
  cbn [Z.eqb negb]. destruct (inv_in _ _ _ i H1 Hi) as (p0 & p & E & _ & Hp & (_ & _ & Hc & _) & _).
  rewrite Hp. cbn [mbind option_bind]. pose proof (cnt_at i p0 E). pose proof (cnt_nonneg i).
  apply (reloc_insns_spec fuel); [done|done|done|done|lia|lia|lia].
Qed.

Lemma link_start ps : sub_insn_off pm0 = 0 -> 
  ps = map (λ p, if prog_is_subprog env ps0 p then set_sub_off p 0 else p) ps0 ->
  link_inv ps [main] (λ _, 0).
Proof.
  intros Hoff0 ->. set (f := λ p, if prog_is_subprog env ps0 p then set_sub_off p 0 else p).
  assert (Hat : forall i p, aref (map f ps0) i = Some p -> exists p0, aref ps0 i = Some p0 /\ p = f p0).
  { intros i p Hp. rewrite aref_map in Hp. apply fmap_Some in Hp as (p0 & E & ->). by exists p0. }
  assert (Hf : forall p, same_place p (f p) /\ insns (f p) = insns p /\ relos (f p) = relos p /\
    func_info (f p) = func_info p /\ line_info (f p) = line_info p).
  { intros p. unfold f. destruct (prog_is_subprog _ _ _); by split_and!. }
  assert (Hm : aref (map f ps0) main = Some (f pm0)) by (by rewrite aref_map, Hmain).
  assert (Hmf : f pm0 = pm0).
  { unfold f, prog_is_subprog. destruct (Z.eqb_spec (p_sec_idx pm0) (text_shndx env)); [congruence|done]. }
  constructor.
  - by rewrite length_map.
  - intros i p0 p E Hp. destruct (Hat i p Hp) as (p1 & E1 & ->). assert (p1 = p0) as -> by congruence. apply Hf.
  - intros i p0 p Hne E Hp. destruct (Hat i p Hp) as (p1 & E1 & ->). assert (p1 = p0) as -> by congruence.
    destruct (Hf p0) as (_ & ? & ? & ? & ?). split_and!; try done. intros _ Ht. unfold f.
    destruct (prog_is_subprog env ps0 p0) eqn:Hs; [|done]. exfalso. apply Ht.
    destruct (Hf p0) as ((-> & _) & _). unfold prog_is_subprog in Hs. rewrite Htext in Hs. lia.
  - apply NoDup_singleton.
  - by exists [].
  - intros i ->%list_elem_of_singleton. by left.
  - intros i ->%list_elem_of_singleton. exists pm0. rewrite Hm, Hmf. cbn. by rewrite decide_True.
  - intros i p Hi Hp Ht. destruct (Hat i p Hp) as (p0 & E & ->). destruct (Hf p0) as ((Hs & _) & _).
    rewrite Hs in Ht. unfold f, prog_is_subprog. rewrite Htext, Ht, Z.eqb_refl. cbn [andb].
    assert (Hlen : 1 < Z.of_nat (length ps0)).
    { apply aref_bounds in E, Hmain. rewrite list_elem_of_singleton in Hi. lia. }
    destruct (strict_sec_name env || (1 <? Z.of_nat (length ps0))) eqn:Hc; [done|].
    apply orb_false_iff in Hc as [_ Hc]. lia.
  - exists pm0. rewrite Hm, Hmf. destruct (placed_body main (or_introl eq_refl)) as (p0 & E & Hb).
    assert (p0 = pm0) as -> by congruence. pose proof (cnt_at main pm0 Hmain) as Hc. split_and!; [done| | |].
    + rewrite (bo_length _ Hb). cbn. lia.
    + cbn [moved_relos]. rewrite Hmain, moved_zero by done. by rewrite app_nil_r.
    + intros i k ->%list_elem_of_singleton Hk. cbn. rewrite decide_True by done.
      destruct (aref_Some (insns pm0) k) as [x Hx]; [rewrite (bo_length _ Hb); lia|].
      exists x. split; [done|]. destruct (Z.ltb_spec k 0); [lia|]. by exists pm0.
  - intros i k _ Hk1 Hk2. lia.
  - intros n j Hj. done.
Qed.
(** All of it at the end of a run. *)
Lemma link_end ps ext pm : link_inv ps (main :: ext) (finished [main] (λ _, 0) main) -> aref ps main = Some pm ->
  let order := main :: ext in
  (forall i, i ∈ order <-> needed i) /\
  (forall i k, i ∈ order -> 0 <= k < cnt i ->
     (exists x, aref (insns pm) (pos order i + k) = Some x /\ linked order i k x) /\ ~ unresolved i k) /\
  (forall i k q, i ∈ order -> calls i k q ->
     exists x, aref (insns pm) (pos order i + k) = Some x /\ pos order i + k + 1 + imm x = pos order q).
Proof.
  intros H Hpm order. fold order in H.
  assert (Hdone : forall i, finished [main] (λ _, 0) main i = cnt i).
  { intros i. unfold finished. rewrite decide_False; [done|]. intros [->%list_elem_of_singleton Hn]. done. }
  assert (Hrange : forall i k q, calls i k q -> 0 <= k < cnt i).
  { intros i k q (insn & idx & qp & (p & r & E & Hk & _) & _). by rewrite (cnt_at i p E). }
  assert (Hcode : forall i k, i ∈ order -> 0 <= k < cnt i ->
    exists x, aref (insns pm) (pos order i + k) = Some x /\ linked order i k x).
  { intros i k Hi Hk. destruct (li_code _ _ _ H) as (pm' & E & _ & _ & Hc).
    assert (pm' = pm) as -> by congruence. destruct (Hc i k Hi Hk) as (x & Hx & Ho). exists x. split; [done|].
    rewrite Hdone in Ho. destruct (Z.ltb_spec k (cnt i)); [done|lia]. }
  assert (Hclosed : forall i k q, i ∈ order -> calls i k q -> q ∈ order).
  { intros i k q Hi Hc. pose proof (Hrange i k q Hc) as Hk.
    eapply (li_done _ _ _ H i k Hi Hk); [|done]. rewrite Hdone. lia. }
  split_and!.
  - intros i. split.
    + intros [n Hn]%list_elem_of_lookup_1. by eapply inv_needed.
    + intros Hn. assert (Hgen : forall a b, rtc calls_prog a b -> a ∈ order -> b ∈ order).
      { induction 1 as [|a b c [k Hk] _ IH]; intros Ha; [done|]. apply IH. by eapply Hclosed. }
      eapply Hgen; [exact Hn|by left].
  - intros i k Hi Hk. split; [by apply Hcode|]. eapply (li_done _ _ _ H i k Hi Hk). rewrite Hdone. lia.
  - intros i k q Hi Hc. pose proof (Hrange i k q Hc) as Hk. pose proof (Hclosed i k q Hi Hc) as Hq.
    destruct (Hcode i k Hi Hk) as (x & Hx & p & insn & _ & _ & [(q' & Hc' & ->)|[Hno _]]); [|by destruct (Hno q)].
    eexists. split; [done|]. assert (q' = q) as -> by exact (calls_det _ _ _ _ (li_text _ _ _ H i Hi) Hc Hc').
    pose proof (pos_range order i Hi). pose proof (pos_range order q Hq). pose proof (inv_total _ _ _ H).
    pose proof (cnt_nonneg q). cbn [set_imm imm].
    rewrite swrap_small; change (2 ^ (32 - 1)) with (2 ^ 31); lia.
Qed.
End Linking.

(** The program [main] with everything it needs: [order] are the programs in
    the order of their code. *)
Record linked_program (text : Z) (progs : list bpf_program) (main : Z) (progs' : list bpf_program)
    (order : list Z) (pm : bpf_program) : Prop := {
  (** every program that is needed, once, and [main] in front *)
  lp_nodup : NoDup order;
  lp_head : head order = Some main;
  lp_needed : forall i, i ∈ order <-> needed text progs main i;
  (** their code, one behind the other *)
  lp_main : aref progs' main = Some pm;
  lp_length : Z.of_nat (length (insns pm)) = total progs order;
  lp_code : forall i k, i ∈ order -> 0 <= k < cnt progs i ->
    exists x, aref (insns pm) (pos progs order i + k) = Some x /\ linked text progs order i k x;
  (** every call leads to the first instruction of the program called *)
  lp_calls : forall i k q, i ∈ order -> calls text progs i k q ->
    exists x, aref (insns pm) (pos progs order i + k) = Some x /\
      pos progs order i + k + 1 + imm x = pos progs order q;
  lp_resolved : forall i k, i ∈ order -> 0 <= k < cnt progs i -> ~ unresolved text progs i k;
  (** the relocations move with the code *)
  lp_relos : relos pm = moved_relos progs order 0;
  (** the code of all other programs is as before *)
  lp_others : forall i p p', i <> main -> aref progs i = Some p -> aref progs' i = Some p' ->
    insns p' = insns p /\ relos p' = relos p;
}.

(** C2: linking subprograms.  For every object whose programs are laid out in
    their sections without overlap, relocating the calls of an entry program
    comes to an end; it fails for want of memory, because a call that can be
    reached leads nowhere, or because information in .BTF.ext is missing; or
    it yields one program: the code of the entry program and of every
    subprogram called from it, directly or through others, each once; every
    call in it leads exactly to the first instruction of the subprogram that
    the object file refers to, every other instruction is unchanged, the
    relocations have moved with the code, and the other programs are
    untouched. *)
Theorem relocate_calls_links env alloc_ok progs main pm0 :
  layout_ok progs -> aref progs main = Some pm0 -> p_sec_idx pm0 <> text_shndx env ->
  sub_insn_off pm0 = 0 -> sum_cnt progs < 2 ^ 31 ->
  (forall i p, aref progs i = Some p -> i = main \/ p_sec_idx p = text_shndx env -> body_ok p) ->
  exists err progs', bpf_object__relocate_calls env alloc_ok progs main = Some (err, progs') /\
  (err < 0 /\ fails (text_shndx env) progs main env alloc_ok err \/
   err = 0 /\ exists order pm, linked_program (text_shndx env) progs main progs' order pm).
Proof.
  intros Hlay Hmain Hnt Hoff Hsum Hbody. unfold bpf_object__relocate_calls.
  set (ps := map _ progs).
  pose proof (link_start (text_shndx env) progs main pm0 Hmain Hnt Hbody env eq_refl ps Hoff eq_refl) as Hstart.
  destruct (reloc_code_spec (text_shndx env) progs main pm0 Hlay Hmain Hnt Hbody Hsum env alloc_ok eq_refl
    (S (length ps)) ps [main] (λ _, 0) main Hstart) as (err & ps' & Hrun & Hout);
    [by left|done|subst ps; rewrite length_map; simpl; lia|].
  exists err, ps'. split; [done|]. destruct Hout as [[-> [ext H]]|Hf]; [right|by left]. split; [done|].
  cbn [app] in H. destruct (li_code _ _ _ _ _ _ H) as (pm & Hpm & Hlen & Hrel & _).
  destruct (link_end (text_shndx env) progs main pm0 Hlay Hmain Hbody Hsum ps' ext pm H Hpm)
    as (H1 & H2 & H3).
  exists (main :: ext), pm. constructor; try done.
  - by eapply li_nodup.
  - intros i k Hi Hk. by apply H2.
  - intros i k Hi Hk. by apply H2.
  - intros i p p' Hne E E'. by destruct (li_rest _ _ _ _ _ _ H i p p' Hne E E') as (? & ? & _).
Qed.

(** ** A concrete object *)

Definition call_insn (v : Z) : bpf_insn := Insn 133 0 1 0 v.
Definition exit_insn : bpf_insn := Insn 149 0 0 0 0.

Definition new_prog (sec off : Z) (l : list bpf_insn) (r : list reloc_desc) : bpf_program :=
  {| p_sec_idx := sec; sec_insn_off := off; sec_insn_cnt := Z.of_nat (length l); sub_insn_off := 0;
     insns := l; relos := r; autoload := true; func_info := []; line_info := [] |}.

(** A, calling B without a relocation, and B, in .text; and a program that
    calls A and B. *)
Definition ex_progs : list bpf_program :=
  [ new_prog 1 0 [call_insn 1; exit_insn] [];
    new_prog 1 2 [Insn 183 0 0 0 7; exit_insn] [];
    new_prog 2 0 [call_insn (-1); call_insn (-1); exit_insn]
      [Reloc RELO_CALL 0 0 0; Reloc RELO_CALL 1 0 16] ].

Definition ex_link_env (strict : bool) : obj_env :=
  {| text_shndx := 1; strict_sec_name := strict; btf_ext := None; supports_func_info := true;
     gen_loader := false; maps := []; externs := []; kconfig_map_idx := -1 |}.

Definition grant (n : Z) : bool := true.

Example ex_linked :
  (λ '(err, ps), (err, option_map (λ p, map imm (insns p)) (aref ps 2), map sub_insn_off ps)) <$>
    bpf_object__relocate (ex_link_env true) grant ex_progs
  = Some (0, Some [2; 3; 0; 1; 0; 7; 0], [3; 5; 0]).
Proof. vm_compute. reflexivity. Qed.

Lemma ex_at i p : aref ex_progs i = Some p ->
  i = 0 /\ p = new_prog 1 0 [call_insn 1; exit_insn] [] \/
  i = 1 /\ p = new_prog 1 2 [Insn 183 0 0 0 7; exit_insn] [] \/
  i = 2 /\ p = new_prog 2 0 [call_insn (-1); call_insn (-1); exit_insn]
      [Reloc RELO_CALL 0 0 0; Reloc RELO_CALL 1 0 16].
Proof.
  intros H. pose proof (aref_bounds _ _ _ H) as Hb. cbn in Hb.
  assert (Hi : i = 0 \/ i = 1 \/ i = 2) by lia.
  destruct Hi as [->|[->| ->]]; cbn in H; injection H as <-; tauto.
Qed.

Lemma ex_layout : layout_ok ex_progs.
Proof.
  split.
  - intros i j p q Hij [[-> ->]|[[-> ->]|[-> ->]]]%ex_at [[-> ->]|[[-> ->]|[-> ->]]]%ex_at; try lia;
      unfold before; cbn; lia.
  - intros i p [[-> ->]|[[-> ->]|[-> ->]]]%ex_at; cbn; lia.
Qed.

Lemma ex_bodies i p : aref ex_progs i = Some p -> body_ok p.
Proof.
  assert (Hnil : forall s o l, body_ok (new_prog s o l [])).
  { intros s o l. constructor; [done| |]; [split|]; intros; cbn in *; by rewrite aref_nil in *. }
  intros [[-> ->]|[[-> ->]|[-> ->]]]%ex_at; [apply Hnil|apply Hnil|].
  assert (Hr : forall i x, aref [Reloc RELO_CALL 0 0 0; Reloc RELO_CALL 1 0 16] i = Some x ->
    (i = 0 \/ i = 1) /\ rd_insn_idx x = i).
  { intros i x H. pose proof (aref_bounds _ _ _ H) as Hb. cbn in Hb.
    assert (Hi : i = 0 \/ i = 1) by lia. split; [done|]. destruct Hi as [->| ->]; by injection H as <-. }
  constructor; [done| |].
  - split.
    + intros i j a b Hij [_ Ha]%Hr [_ Hb]%Hr. lia.
    + intros i a [Hi Ha]%Hr. lia.
  - intros i x [Hi Hx]%Hr. cbn. lia.
Qed.

Lemma relocate_calls_links_witness : exists progs' order pm,
  bpf_object__relocate_calls (ex_link_env true) grant ex_progs 2 = Some (0, progs') /\
  linked_program 1 ex_progs 2 progs' order pm.
Proof.
  destruct (relocate_calls_links (ex_link_env true) grant ex_progs 2
    (new_prog 2 0 [call_insn (-1); call_insn (-1); exit_insn]
      [Reloc RELO_CALL 0 0 0; Reloc RELO_CALL 1 0 16])) as (err & progs' & Hrun & Hout).
  - exact ex_layout.
  - reflexivity.
  - discriminate.
  - reflexivity.
  - reflexivity.
  - intros i p H _. exact (ex_bodies i p H).
  - destruct Hout as [[Herr _]|[-> (order & pm & Hl)]].
    + exfalso. vm_compute in Hrun. injection Hrun as <- _. discriminate Herr.
    + exists progs', order, pm. split; [exact Hrun|exact Hl].
Defined.

(** ** What the code does not guard against *)

(** The only program of an object, in .text, calls itself: it is taken for
    a subprogram that is not there yet, and copied over the end of its own
    array. *)
Fact self_call_overflows :
  bpf_object__relocate (ex_link_env false) grant
    [new_prog 1 0 [call_insn (-1); exit_insn] [Reloc RELO_CALL 0 0 0]] = None.
Proof. vm_compute. reflexivity. Qed.

(** A call of the second instruction of a subprogram is led to the first. *)
Fact call_into_middle :
  (λ '(err, ps), (err, option_map (λ p, map imm (insns p)) (aref ps 1))) <$>
    bpf_object__relocate (ex_link_env true) grant
      [new_prog 1 0 [Insn 183 0 0 0 7; exit_insn] [];
       new_prog 2 0 [call_insn (-1); exit_insn] [Reloc RELO_CALL 0 0 8]]
  = Some (0, Some [1; 0; 7; 0]).
Proof. vm_compute. reflexivity. Qed.
