(* ===== verification/BtfVisit.v ===== *)
(** * Visiting the fields of a type (src/plugin/libbpf-test/libbpf/src/btf.c)

    Access to the types of an object that may have been split into its parts,
    by id, and the two visitors that go over every type id and every string
    offset of a type and let a callback replace it.

    A type is addressed by the 32-bit words of its record: name, info, size
    or type, and the words of the members behind.  An outer [None] is
    undefined behaviour. *)

From S2P Require Import Prelude Hashmap StrSet Btf BtfBuild.

(** ** Types by id *)

(** [btf_type_by_id] *)
Fixpoint b_type_by_id (b : bobj) (type_id : Z) {struct b} : option tptr :=
  if type_id =? 0 then Some TVoid else
  if type_id <? b_start_id b then
    match b_base b with
    | None => None
    | Some bb => b_type_by_id bb type_id
    end
  else '(m, o) ← own_type b type_id; Some (TAt m o).

(** [btf__type_by_id]; the inner [None] is NULL. *)
Definition b__type_by_id (b : bobj) (type_id : Z) : option (option tptr) :=
  if type_id >=? b_type_cnt b then Some None else t ← b_type_by_id b type_id; Some (Some t).

(** The word [j] of a record. *)
Definition word_at (t : tptr) (j : Z) : option Z :=
  match t with
  | TVoid => if (0 <=? j) && (j <? 3) then Some 0 else None
  | TAt m o => ld32 m (o + 4 * j)
  end.

(** The word [j] of the type [id], for reading and for writing. *)
Definition type_word (b : bobj) (id j : Z) : option Z := t ← b_type_by_id b id; word_at t j.

Definition info_of (b : bobj) (id : Z) : option Z := type_word b id 1.

Fixpoint set_type_word (b : bobj) (id j v : Z) {struct b} : option bobj :=
  if id =? 0 then None else
  if id <? b_start_id b then
    match b_base b with
    | None => None
    | Some bb => bb ← set_type_word bb id j v; Some (with_base b bb)
    end
  else
    '(m, o) ← own_type b id;
    m ← st32 m (o + 4 * j) v;
    Some match b_rep b with
         | RContig _ types strs =>
             {| b_rep := RContig m types strs; b_raw := b_raw b; b_offs := b_offs b;
                b_offs_cap := b_offs_cap b; b_nr := b_nr b; b_base := b_base b;
                b_start_id := b_start_id b; b_start_str_off := b_start_str_off b |}
         | RSplit h _ cap set =>
             {| b_rep := RSplit h m cap set; b_raw := b_raw b; b_offs := b_offs b;
                b_offs_cap := b_offs_cap b; b_nr := b_nr b; b_base := b_base b;
                b_start_id := b_start_id b; b_start_str_off := b_start_str_off b |}
         end.

(** [btf__str_by_offset]: the string; the inner [None] is NULL. *)
Fixpoint b_str_by_offset (b : bobj) (offset : Z) {struct b} : option (option (list Z)) :=
  if offset <? u32 (b_start_str_off b) then
    match b_base b with
    | None => None
    | Some bb => b_str_by_offset bb offset
    end
  else
    let o := u32 (offset - b_start_str_off b) in
    '(h, strs, base) ← match b_rep b with
                       | RContig raw _ strs => Some (raw, raw, strs)
                       | RSplit h _ _ set => Some (h, StrSet.strs_data set, 0)
                       end;
    sl ← hdr_str_len h;
    if o <? sl then s ← cstr strs (base + o); Some (Some s) else Some None.

(** ** The fields of a type *)

(** The words [fields] of each of the [n] elements of [sz] words behind a
    type. *)
Definition elem_words (sz : Z) (fields : list Z) (n : Z) : list Z :=
  flat_map (fun i => map (fun f => 3 + sz * i + f) fields) (seqZ 0 n).

(** The words [btf_type_visit_type_ids] goes over; [None] is its -EINVAL. *)
Definition type_id_words (info : Z) : option (list Z) :=
  match kind_of (BTF_INFO_KIND info) with
  | KIND_INT | KIND_FLOAT | KIND_ENUM | KIND_ENUM64 => Some []
  | KIND_FWD | KIND_CONST | KIND_VOLATILE | KIND_RESTRICT | KIND_PTR | KIND_TYPEDEF | KIND_FUNC
  | KIND_VAR | KIND_DECL_TAG | KIND_TYPE_TAG => Some [2]
  | KIND_ARRAY => Some [3; 4]
  | KIND_STRUCT | KIND_UNION => Some (elem_words 3 [1] (BTF_INFO_VLEN info))
  | KIND_FUNC_PROTO => Some (2 :: elem_words 2 [1] (BTF_INFO_VLEN info))
  | KIND_DATASEC => Some (elem_words 3 [0] (BTF_INFO_VLEN info))
  | KIND_UNKN | KIND_OTHER => None
  end.

(** The words [btf_type_visit_str_offs] goes over. *)
Definition str_off_words (info : Z) : list Z :=
  0 :: match kind_of (BTF_INFO_KIND info) with
       | KIND_STRUCT | KIND_UNION | KIND_ENUM64 => elem_words 3 [0] (BTF_INFO_VLEN info)
       | KIND_ENUM | KIND_FUNC_PROTO => elem_words 2 [0] (BTF_INFO_VLEN info)
       | _ => []
       end.

(** ** The visitors

    [get] and [put] read and write a word of the type, [visit] gets the value
    of a field and returns an error or the new value of the field; it may
    change the state, which holds the type. *)

Section Visit.
Context {St : Type} (get : St -> Z -> option Z) (put : St -> Z -> Z -> option St).
Context (visit : St -> Z -> option (Z * Z * St)).

Fixpoint visit_words (s : St) (js : list Z) : option (Z * St) :=
  match js with
  | [] => Some (0, s)
  | j :: js =>
      w ← get s j;
      '(err, w, s) ← visit s w;
      if negb (err =? 0) then Some (err, s) else
      s ← put s j w;
      visit_words s js
  end.

Definition btf_type_visit_type_ids (s : St) : option (Z * St) :=
  info ← get s 1;
  match type_id_words info with
  | None => Some (- EINVAL, s)
  | Some js => visit_words s js
  end.

Definition btf_type_visit_str_offs (s : St) : option (Z * St) :=
  info ← get s 1;
  visit_words s (str_off_words info).
End Visit.
