(* ===== verification/BtfExt.v ===== *)
(** * The .BTF.ext section (src/plugin/libbpf-test/libbpf/src/btf.c, [btf_ext_*])

    Function information, line information and CO-RE relocations of the
    programs of an object file.  [btf_ext__new] copies and checks the
    section, [btf_ext_reloc_info] appends the records of one program section
    to those of a program, and the visitors go over the type ids and string
    offsets of all records.

    A pointer into the section is an offset in [ext_data].  Allocation is the
    parameter [alloc_ok].  An outer [None] is undefined behaviour, or a loop
    that does not end (used up its fuel). *)

From S2P Require Import Prelude StrSet Btf BtfBuild BtfVisit.

(** [info] is 0 for NULL, where [len] is 0, too. *)
Record btf_ext_info := ExtInfo { info : Z; rec_size : Z; len : Z; sec_cnt : Z }.

Record btf_ext := Ext {
  ext_data : list Z;
  ext_data_size : Z;
  func_info : btf_ext_info;
  line_info : btf_ext_info;
  core_relo_info : btf_ext_info;
}.

Definition no_info : btf_ext_info := {| info := 0; rec_size := 0; len := 0; sec_cnt := 0 |}.

Definition ext_hdr_len (m : list Z) : option Z := ld32 m 4.

(** ** Loading *)

(** The loop over the sections of a kind; [Some (inr sec_cnt)] at the end. *)
Fixpoint setup_secs (fuel : nat) (m : list Z) (record_size sinfo info_left sec_cnt : Z)
    : option (Z + Z) :=
  match fuel with
  | O => None
  | S fuel =>
      if info_left =? 0 then Some (inr sec_cnt) else
      if info_left <? 8 then Some (inl (- EINVAL)) else
      num_records ← ld32 m (sinfo + 4);
      if num_records =? 0 then Some (inl (- EINVAL)) else
      let total_record_size := 8 + num_records * record_size in
      if info_left <? total_record_size then Some (inl (- EINVAL)) else
      setup_secs fuel m record_size (sinfo + total_record_size)
        (u32 (info_left - total_record_size)) (sec_cnt + 1)
  end.

(** [btf_ext_setup_info]: an error, or what [*ext_info] becomes. *)
Definition btf_ext_setup_info (m : list Z) (data_size off sec_len min_rec_size : Z)
    : option (Z + btf_ext_info) :=
  if sec_len =? 0 then Some (inr no_info) else
  if negb (Z.land off 3 =? 0) then Some (inl (- EINVAL)) else
  hl ← ext_hdr_len m;
  let inf := hl + off in
  if data_size <? inf + sec_len then Some (inl (- EINVAL)) else
  if sec_len <? 4 then Some (inl (- EINVAL)) else
  record_size ← ld32 m inf;
  if (record_size <? min_rec_size) || negb (Z.land record_size 3 =? 0) then Some (inl (- EINVAL)) else
  if sec_len - 4 =? 0 then Some (inl (- EINVAL)) else
  r ← setup_secs (S (Z.to_nat (sec_len / 8))) m record_size (inf + 4) (sec_len - 4) 0;
  Some match r with
       | inl err => inl err
       | inr cnt => inr {| info := inf + 4; rec_size := record_size; len := sec_len - 4;
                           sec_cnt := cnt |}
       end.

Definition btf_ext_setup_func_info (m : list Z) (data_size : Z) :=
  off ← ld32 m 8; l ← ld32 m 12; btf_ext_setup_info m data_size off l 8.

Definition btf_ext_setup_line_info (m : list Z) (data_size : Z) :=
  off ← ld32 m 16; l ← ld32 m 20; btf_ext_setup_info m data_size off l 16.

Definition btf_ext_setup_core_relos (m : list Z) (data_size : Z) :=
  off ← ld32 m 24; l ← ld32 m 28; btf_ext_setup_info m data_size off l 16.

Definition btf_ext_parse_hdr (m : list Z) (data_size : Z) : option Z :=
  if data_size <? 8 then Some (- EINVAL) else
  hl ← ext_hdr_len m;
  if data_size <? hl then Some (- EINVAL) else
  magic ← ld16 m 0;
  if magic =? bswap16 BTF_MAGIC then Some (- ENOTSUP) else
  if negb (magic =? BTF_MAGIC) then Some (- EINVAL) else
  version ← ld8 m 2;
  if negb (version =? 1) then Some (- ENOTSUP) else
  flags ← ld8 m 3;
  if negb (flags =? 0) then Some (- ENOTSUP) else
  if data_size =? hl then Some (- EINVAL) else Some 0.

Section Ext.
Context (alloc_ok : Z -> bool).

(** An error pointer is [inl]. *)
Definition btf_ext__new (data : list Z) (size : Z) : option (Z + btf_ext) :=
  if negb (alloc_ok 112) || negb (alloc_ok size) then Some (inl (- ENOMEM)) else
  m ← ld_bytes data 0 (Z.to_nat size);
  err ← btf_ext_parse_hdr m size;
  if negb (err =? 0) then Some (inl err) else
  hl ← ext_hdr_len m;
  if hl <? 24 then Some (inl (- EINVAL)) else
  f ← btf_ext_setup_func_info m size;
  match f with
  | inl err => Some (inl err)
  | inr f =>
      l ← btf_ext_setup_line_info m size;
      match l with
      | inl err => Some (inl err)
      | inr l =>
          if hl <? 32 then Some (inr (Ext m size f l no_info)) else
          c ← btf_ext_setup_core_relos m size;
          Some match c with
               | inl err => inl err
               | inr c => inr (Ext m size f l c)
               end
      end
  end.

Definition btf_ext__get_raw_data (e : btf_ext) : list Z * Z := (ext_data e, ext_data_size e).

Definition btf_ext__func_info_rec_size (e : btf_ext) : Z := rec_size (func_info e).
Definition btf_ext__line_info_rec_size (e : btf_ext) : Z := rec_size (line_info e).

(** ** The records of a program *)

(** Adjusting the instruction offsets of the [n] records from [p] on. *)
Fixpoint adjust_insn_offs (data : list Z) (p record_size insns_cnt : Z) (n : nat) : option (list Z) :=
  match n with
  | O => Some data
  | S n =>
      o ← ld32 data p;
      data ← st32 data p (u32 (o / 8 + insns_cnt));
      adjust_insn_offs data (p + record_size) record_size insns_cnt n
  end.

(** [btf_ext_reloc_info]: [recs] is the memory at [*info]; the result, and
    [*info] and [*cnt]. *)
Fixpoint reloc_info_loop (fuel : nat) (b : btf) (m : list Z) (record_size sinfo remain_len : Z)
    (sec_name : list Z) (insns_cnt : Z) (recs : list Z) (cnt : Z) : option (Z * list Z * Z) :=
  match fuel with
  | O => None
  | S fuel =>
      if negb (remain_len >? 0) then Some (- ENOENT, recs, cnt) else
      num_info ← ld32 m (sinfo + 4);
      let records_len := u32 (num_info * record_size) in
      name_off ← ld32 m sinfo;
      name ← btf__name_by_offset b name_off;
      '(nm, no) ← name;
      info_sec_name ← cstr nm no;
      if negb (strcmp info_sec_name sec_name =? 0) then
        reloc_info_loop fuel b m record_size (sinfo + (8 + records_len))
          (u64 (remain_len - u32 (8 + records_len))) sec_name insns_cnt recs cnt
      else
        let existing_len := u32 (cnt * record_size) in
        let new_len := u32 (existing_len + records_len) in
        if negb (alloc_ok new_len) then Some (- ENOMEM, recs, cnt) else
        bs ← ld_bytes m (sinfo + 8) (Z.to_nat records_len);
        let data := take (Z.to_nat new_len) recs
                      ++ replicate (Z.to_nat new_len - length recs) 0 in
        data ← st_bytes data existing_len bs;
        data ← adjust_insn_offs data existing_len record_size insns_cnt (Z.to_nat num_info);
        Some (0, data, u32 (cnt + num_info))
  end.

Definition btf_ext_reloc_info (b : btf) (e : btf_ext) (ei : btf_ext_info) (sec_name : list Z)
    (insns_cnt : Z) (recs : list Z) (cnt : Z) : option (Z * list Z * Z) :=
  reloc_info_loop (S (Z.to_nat (len ei))) b (ext_data e) (rec_size ei) (info ei) (len ei)
    sec_name insns_cnt recs cnt.

Definition btf_ext__reloc_func_info (b : btf) (e : btf_ext) :=
  btf_ext_reloc_info b e (func_info e).

Definition btf_ext__reloc_line_info (b : btf) (e : btf_ext) :=
  btf_ext_reloc_info b e (line_info e).
End Ext.

(** ** The visitors

    [get] and [put] read and write 32 bits of the section. *)

Section ExtVisit.
Context {St : Type} (get : St -> Z -> option Z) (put : St -> Z -> Z -> option St).
Context (visit : St -> Z -> option (Z * Z * St)).

(** The offsets of the given fields in the records of the section at [sec]. *)
Definition rec_fields (ei : btf_ext_info) (sec : Z) (fields : list Z) (n : Z) : list Z :=
  flat_map (fun i => map (fun f => sec + 8 + rec_size ei * i + f) fields) (seqZ 0 n).

(** [for_each_btf_ext_sec], with [for_each_btf_ext_rec] inside; the name of
    the section first if it is [named]. *)
Fixpoint visit_secs (fuel : nat) (ei : btf_ext_info) (named : bool) (fields : list Z) (s : St)
    (sec : Z) : option (Z * St) :=
  match fuel with
  | O => None
  | S fuel =>
      if negb (sec <? info ei + len ei) then Some (0, s) else
      n ← get s (sec + 4);
      '(err, s) ← visit_words get put visit s
                    ((if named then [sec] else []) ++ rec_fields ei sec fields n);
      if negb (err =? 0) then Some (err, s) else
      visit_secs fuel ei named fields s (sec + (8 + u32 (rec_size ei * n)))
  end.

Definition visit_seg (ei : btf_ext_info) (named : bool) (fields : list Z) (s : St) :=
  visit_secs (S (Z.to_nat (len ei))) ei named fields s (info ei).

Definition btf_ext_visit_type_ids (e : btf_ext) (s : St) : option (Z * St) :=
  '(err, s) ← visit_seg (func_info e) false [4] s;
  if negb (err =? 0) then Some (err, s) else
  visit_seg (core_relo_info e) false [4] s.

Definition btf_ext_visit_str_offs (e : btf_ext) (s : St) : option (Z * St) :=
  '(err, s) ← visit_seg (func_info e) true [] s;
  if negb (err =? 0) then Some (err, s) else
  '(err, s) ← visit_seg (line_info e) true [4; 8] s;
  if negb (err =? 0) then Some (err, s) else
  visit_seg (core_relo_info e) true [8] s.
End ExtVisit.

(** ** What a loaded section holds *)

(** The sections of a kind lie one behind the other from [p] to [q], each
    with its records; [l] has their offsets and numbers of records. *)
Inductive ext_secs (m : list Z) (rs : Z) : Z -> Z -> list (Z * Z) -> Prop :=
| secs_end p : ext_secs m rs p p []
| secs_next p q n l : ld32 m (p + 4) = Some n -> 0 < n -> p + (8 + n * rs) <= q ->
    ext_secs m rs (p + (8 + n * rs)) q l -> ext_secs m rs p q ((p, n) :: l).

Record secs_of (m : list Z) (ei : btf_ext_info) (min : Z) (l : list (Z * Z)) : Prop := {
  so_in : 0 <= info ei /\ 0 < len ei < 2 ^ 32 /\ info ei + len ei <= Z.of_nat (length m);
  so_rec : min <= rec_size ei < 2 ^ 32 /\ Z.land (rec_size ei) 3 = 0;
  so_cnt : sec_cnt ei = Z.of_nat (length l);
  so_secs : ext_secs m (rec_size ei) (info ei) (info ei + len ei) l;
}.

Definition info_ok (m : list Z) (ei : btf_ext_info) (min : Z) : Prop :=
  ei = no_info \/ exists l, secs_of m ei min l.

Lemma setup_secs_spec m rs : bytes_ok m -> 0 <= rs -> forall fuel p left cnt,
  0 <= p -> 0 <= left < 2 ^ 32 -> p + left <= Z.of_nat (length m) -> left < 8 * Z.of_nat fuel ->
  exists r, setup_secs fuel m rs p left cnt = Some r /\
    (r = inl (- EINVAL) \/
     exists l, r = inr (cnt + Z.of_nat (length l)) /\ ext_secs m rs p (p + left) l).
Proof.
  intros Hm Hrs. induction fuel as [|fuel IH]; intros p left cnt Hp Hleft Hin Hfuel; [lia|]. cbn [setup_secs].
  destruct (Z.eqb_spec left 0) as [->|Hne].
  { eexists. split; [done|]. right. exists []. rewrite !Z.add_0_r. split; [done|constructor]. }
  destruct (Z.ltb_spec left 8); [by eexists; split; [|left]|].
  destruct (ld32_Some m (p + 4)) as [n Hn]; [lia..|]. rewrite Hn. cbn [mbind option_bind].
  pose proof (ld32_range _ _ _ Hm Hn).
  destruct (Z.eqb_spec n 0); [by eexists; split; [|left]|].
  assert (0 <= n * rs) by nia.
  destruct (Z.ltb_spec left (8 + n * rs)); [by eexists; split; [|left]|].
  rewrite wrap_small by (pow2; lia).
  destruct (IH (p + (8 + n * rs)) (left - (8 + n * rs)) (cnt + 1)) as (r & Hr & Hc); [lia..|].
  exists r. split; [done|]. destruct Hc as [->|(l & -> & Hl)]; [by left|right]. exists ((p, n) :: l). split.
  - cbn [length]. f_equal. lia.
  - constructor; [done|lia|lia|]. by replace (p + left) with (p + (8 + n * rs) + (left - (8 + n * rs))) by lia.
Qed.

Lemma setup_info_spec m hl off sl min : bytes_ok m -> Z.of_nat (length m) < 2 ^ 32 -> 4 <= min ->
  ext_hdr_len m = Some hl -> 0 <= hl -> 0 <= off < 2 ^ 32 -> 0 <= sl < 2 ^ 32 ->
  exists r, btf_ext_setup_info m (Z.of_nat (length m)) off sl min = Some r /\
    (r = inl (- EINVAL) \/ exists ei, r = inr ei /\ info_ok m ei min).
Proof.
  intros Hm Hlen Hmin Hhl Hhl0 Hoff Hsl. unfold btf_ext_setup_info.
  destruct (Z.eqb_spec sl 0); [eexists; split; [done|right]; exists no_info; split; [done|by left]|].
  destruct (_ =? 0); cbn [negb]; [|by eexists; split; [|left]]. rewrite Hhl. cbn [mbind option_bind].
  destruct (Z.ltb_spec (Z.of_nat (length m)) (hl + off + sl)); [by eexists; split; [|left]|].
  destruct (Z.ltb_spec sl 4); [by eexists; split; [|left]|].
  destruct (ld32_Some m (hl + off)) as [rs Hrs]; [lia..|]. rewrite Hrs. cbn [mbind option_bind].
  pose proof (ld32_range _ _ _ Hm Hrs).
  destruct (Z.ltb_spec rs min); [by eexists; split; [|left]|].
  destruct (Z.land rs 3 =? 0) eqn:Hal; cbn [orb negb]; zbool; [|by eexists; split; [|left]].
  destruct (Z.eqb_spec (sl - 4) 0); [by eexists; split; [|left]|].
  destruct (setup_secs_spec m rs Hm ltac:(lia) (S (Z.to_nat (sl / 8))) (hl + off + 4) (sl - 4) 0)
    as (r & -> & Hr); [lia| | |Z.to_euclidean_division_equations; lia|]; [lia..|].
  cbn [mbind option_bind]. eexists. split; [done|]. destruct Hr as [->|(l & -> & Hl)]; [by left|right].
  eexists. split; [done|]. right. exists l. split; cbn; [lia|split; [lia|done]|lia|done].
Qed.

Record ext_ok (e : btf_ext) : Prop := {
  eo_bytes : bytes_ok (ext_data e);
  eo_size : ext_data_size e = Z.of_nat (length (ext_data e)) /\ ext_data_size e < 2 ^ 32;
  eo_func : info_ok (ext_data e) (func_info e) 8;
  eo_line : info_ok (ext_data e) (line_info e) 16;
  eo_core : info_ok (ext_data e) (core_relo_info e) 16;
}.

Lemma parse_ext_hdr_spec m : bytes_ok m -> exists err, btf_ext_parse_hdr m (Z.of_nat (length m)) = Some err /\
  (err = - EINVAL \/ err = - ENOTSUP \/
   err = 0 /\ exists hl, ext_hdr_len m = Some hl /\ 0 <= hl < Z.of_nat (length m)).
Proof.
  intros Hm. unfold btf_ext_parse_hdr. destruct (Z.ltb_spec (Z.of_nat (length m)) 8); [eexists; split; [done|by left]|].
  unfold ext_hdr_len. destruct (ld32_Some m 4) as [hl Hhl]; [lia..|]. rewrite Hhl. cbn [mbind option_bind].
  pose proof (ld32_range _ _ _ Hm Hhl).
  destruct (Z.ltb_spec (Z.of_nat (length m)) hl); [eexists; split; [done|by left]|].
  destruct (ld16_Some m 0) as [mg ->]; [lia..|]. cbn [mbind option_bind].
  destruct (mg =? _); [eexists; split; [done|right; by left]|].
  destruct (negb _); [eexists; split; [done|by left]|].
  destruct (ld8_Some m 2) as [v ->]; [lia..|]. cbn [mbind option_bind].
  destruct (negb _); [eexists; split; [done|right; by left]|].
  destruct (ld8_Some m 3) as [fl ->]; [lia..|]. cbn [mbind option_bind].
  destruct (negb _); [eexists; split; [done|right; by left]|].
  destruct (Z.eqb_spec (Z.of_nat (length m)) hl); [eexists; split; [done|by left]|].
  eexists. split; [done|]. right. right. split; [done|]. exists hl. split; [done|lia].
Qed.

(** C26: loading any bytes as a .BTF.ext section ends without reading outside
    them, and is refused with an error code or gives the bytes with, for each
    of the three kinds of information, sections that lie one behind the other
    within the bytes and fill the kind's share of them. *)
Theorem btf_ext_new_sound alloc_ok data : bytes_ok data -> Z.of_nat (length data) < 2 ^ 32 ->
  exists r, btf_ext__new alloc_ok data (Z.of_nat (length data)) = Some r /\
    match r with
    | inl err => err = - ENOMEM /\ (exists k, alloc_ok k = false) \/ err = - EINVAL \/ err = - ENOTSUP
    | inr e => ext_data e = data /\ ext_ok e
    end.
Proof.
  intros Hm Hlen. unfold btf_ext__new.
  destruct (alloc_ok 112) eqn:A1; cbn [negb orb]; [|eexists; split; [done|left; split; [done|by exists 112]]].
  destruct (alloc_ok (Z.of_nat (length data))) eqn:A2; cbn [negb];
    [|eexists; split; [done|left; split; [done|by exists (Z.of_nat (length data))]]].
  rewrite Nat2Z.id, ld_bytes_all. cbn [mbind option_bind].
  destruct (parse_ext_hdr_spec data Hm) as (err & -> & Herr). cbn [mbind option_bind].
  destruct Herr as [->|[->|(-> & hl & Hhl & Hb)]]; [eexists; split; [done|right; by left]|eexists; split; [done|right; by right]|].
  cbn [Z.eqb negb]. rewrite Hhl. cbn [mbind option_bind].
  destruct (Z.ltb_spec hl 24); [eexists; split; [done|right; by left]|].
  assert (Hld : forall o, 0 <= o -> o + 4 <= hl -> exists v, ld32 data o = Some v /\ 0 <= v < 2 ^ 32).
  { intros o ? ?. destruct (ld32_Some data o) as [v Hv]; [lia..|]. exists v. split; [done|]. by apply (ld32_range data o). }
  unfold btf_ext_setup_func_info, btf_ext_setup_line_info, btf_ext_setup_core_relos.
  destruct (Hld 8) as (o1 & E1 & ?), (Hld 12) as (l1 & E2 & ?), (Hld 16) as (o2 & E3 & ?), (Hld 20) as (l2 & E4 & ?);
    [lia..|]. rewrite E1, E2. cbn [mbind option_bind].
  destruct (setup_info_spec data hl o1 l1 8) as (r1 & -> & [->|(f & -> & Hf)]); [done|lia|lia|done|lia|lia|lia| |];
    cbn [mbind option_bind]; [eexists; split; [done|right; by left]|].
  rewrite E3, E4. cbn [mbind option_bind].
  destruct (setup_info_spec data hl o2 l2 16) as (r2 & -> & [->|(l & -> & Hl)]); [done|lia|lia|done|lia|lia|lia| |];
    cbn [mbind option_bind]; [eexists; split; [done|right; by left]|].
  destruct (Z.ltb_spec hl 32); [eexists; split; [done|split; [done|]]; split; [done|done|done|done|by left]|].
  destruct (Hld 24) as (o3 & E5 & ?), (Hld 28) as (l3 & E6 & ?); [lia..|]. rewrite E5, E6. cbn [mbind option_bind].
  destruct (setup_info_spec data hl o3 l3 16) as (r3 & -> & [->|(c & -> & Hc)]); [done|lia|lia|done|lia|lia|lia| |];
    cbn [mbind option_bind]; [eexists; split; [done|right; by left]|].
  eexists. split; [done|]. split; [done|]. by split.
Qed.

(** ** The records of a section *)

(** Record [i] of the section at [p]. *)
Definition ext_record (m : list Z) (rs p i : Z) : list Z :=
  take (Z.to_nat rs) (drop (Z.to_nat (p + 8 + rs * i)) m).

Definition ext_records (m : list Z) (rs : Z) (s : Z * Z) : list (list Z) :=
  map (ext_record m rs s.1) (seqZ 0 s.2).

(** A record with its instruction offset counted in instructions, behind
    [insns_cnt] others. *)
Definition with_insn_off (insns_cnt : Z) (r : list Z) : list Z :=
  match ld32 r 0 with
  | Some o => le32 (u32 (o / 8 + insns_cnt)) ++ drop 4 r
  | None => r
  end.

(** The name of a section. *)
Definition sec_name_of (b : btf) (m : list Z) (s : Z * Z) : option (list Z) :=
  off ← ld32 m s.1; p ← btf__name_by_offset b off; '(nm, o) ← p; cstr nm o.

Lemma ext_secs_bounds m rs p q l : 0 <= rs -> ext_secs m rs p q l -> p <= q.
Proof. intros Hrs. induction 1; nia. Qed.

Lemma ext_secs_elem m rs p q l s : 0 <= rs -> ext_secs m rs p q l -> s ∈ l ->
  p <= s.1 /\ 0 < s.2 /\ s.1 + 8 + rs * s.2 <= q /\ ld32 m (s.1 + 4) = Some s.2.
Proof.
  intros Hrs. induction 1 as [|p q n l Hn Hpos Hq Hl IH]; [by intros ?%elem_of_nil|].
  intros [->|Hs]%elem_of_cons; cbn; [split_and!; [lia|lia|nia|done]|].
  destruct IH as (? & ? & ? & ?); [done|]. split_and!; [nia|lia|lia|done].
Qed.

Lemma ext_record_length m rs p i q n : 0 <= rs -> 0 <= p -> 0 <= i < n -> p + 8 + rs * n <= q -> q <= Z.of_nat (length m) ->
  length (ext_record m rs p i) = Z.to_nat rs.
Proof. intros. unfold ext_record. rewrite length_take, length_drop. nia. Qed.

Lemma ext_records_length m rs s : length (ext_records m rs s) = Z.to_nat s.2.
Proof. unfold ext_records. by rewrite length_map, length_seqZ. Qed.

(** The records are the bytes behind the header of the section. *)
Lemma ext_records_concat m rs p n : 0 <= rs -> 0 <= p -> 0 <= n -> p + 8 + rs * n <= Z.of_nat (length m) ->
  take (Z.to_nat (rs * n)) (drop (Z.to_nat (p + 8)) m) = concat (ext_records m rs (p, n)).
Proof.
  intros Hrs Hp Hn Hin. unfold ext_records. cbn [fst snd].
  assert (H : forall k, Z.of_nat k <= n ->
    take (Z.to_nat (rs * Z.of_nat k)) (drop (Z.to_nat (p + 8)) m) = concat (map (ext_record m rs p) (seqZ 0 (Z.of_nat k)))).
  2: { specialize (H (Z.to_nat n)). rewrite Z2Nat.id in H by lia. by apply H. }
  induction k as [|k IH]; intros Hk; [by rewrite Z.mul_0_r|].
  rewrite Nat2Z.inj_succ, <- Z.add_1_r, seqZ_app by lia. change (seqZ (0 + Z.of_nat k) 1) with [0 + Z.of_nat k].
  rewrite map_app, concat_app, <- IH by lia. cbn [map concat]. rewrite app_nil_r.
  unfold ext_record. replace (Z.to_nat (rs * (Z.of_nat k + 1))) with (Z.to_nat (rs * Z.of_nat k) + Z.to_nat rs)%nat by nia.
  replace (Z.to_nat (p + 8 + rs * (0 + Z.of_nat k))) with (Z.to_nat (p + 8) + Z.to_nat (rs * Z.of_nat k))%nat by nia.
  rewrite <- drop_drop. symmetry. apply take_take_drop.
Qed.

Lemma adjust_step rs cnt pre r post : length r = Z.to_nat rs -> 4 <= rs ->
  exists o data, ld32 (pre ++ r ++ post) (Z.of_nat (length pre)) = Some o /\
    st32 (pre ++ r ++ post) (Z.of_nat (length pre)) (u32 (o / 8 + cnt)) = Some data /\
    data = pre ++ with_insn_off cnt r ++ post /\ length (with_insn_off cnt r) = length r.
Proof.
  intros Hr Hrs. destruct (ld32_Some r 0) as [o Ho]; [lia..|].
  exists o, (pre ++ with_insn_off cnt r ++ post). unfold with_insn_off. rewrite Ho.
  rewrite <- (Z.add_0_r (Z.of_nat (length pre))), ld32_window by lia. split; [done|].
  split; [|split; [done|rewrite length_app, length_drop; simpl; lia]].
  rewrite <- (take_drop 4 r) at 1. rewrite <- !app_assoc.
  rewrite st32_at; [done|lia|]. rewrite length_take. lia.
Qed.

Lemma adjust_spec rs cnt R : 4 <= rs -> Forall (fun r => length r = Z.to_nat rs) R -> forall pre post,
  adjust_insn_offs (pre ++ concat R ++ post) (Z.of_nat (length pre)) rs cnt (length R) =
  Some (pre ++ concat (map (with_insn_off cnt) R) ++ post).
Proof.
  intros Hrs. induction 1 as [|r R Hr HR IH]; intros pre post; [done|]. cbn [adjust_insn_offs length concat map].
  rewrite <- app_assoc. destruct (adjust_step rs cnt pre r (concat R ++ post) Hr Hrs) as (o & data & -> & E & -> & Hl).
  cbn [mbind option_bind]. rewrite E. cbn [mbind option_bind]. rewrite (app_assoc pre).
  replace (Z.of_nat (length pre) + rs) with (Z.of_nat (length (pre ++ with_insn_off cnt r))).
  - rewrite IH. by rewrite <- !app_assoc.
  - rewrite length_app. lia.
Qed.

(** What collecting the records of the program section [sec_name] gives. *)
Definition collected (alloc_ok : Z -> bool) (b : btf) (m : list Z) (rs : Z) (l : list (Z * Z))
    (sec_name : list Z) (insns_cnt : Z) (recs : list Z) (cnt : Z) : Z * list Z * Z :=
  match List.find (fun s => bool_decide (sec_name_of b m s = Some sec_name)) l with
  | None => (- ENOENT, recs, cnt)
  | Some s =>
      if alloc_ok (rs * (cnt + s.2)) then
        (0, recs ++ concat (map (with_insn_off insns_cnt) (ext_records m rs s)), cnt + s.2)
      else (- ENOMEM, recs, cnt)
  end.

Lemma reloc_append m rs s recs cnt insns_cnt : 4 <= rs -> 0 <= s.1 -> 0 < s.2 ->
  s.1 + 8 + rs * s.2 <= Z.of_nat (length m) -> bytes_ok m ->
  Z.of_nat (length recs) = rs * cnt -> 0 <= cnt -> rs * (cnt + s.2) < 2 ^ 32 ->
  (bs ← ld_bytes m (s.1 + 8) (Z.to_nat (rs * s.2));
   data ← st_bytes (take (Z.to_nat (rs * (cnt + s.2))) recs
                      ++ replicate (Z.to_nat (rs * (cnt + s.2)) - length recs) 0) (rs * cnt) bs;
   data ← adjust_insn_offs data (rs * cnt) rs insns_cnt (Z.to_nat s.2);
   Some (0, data, u32 (cnt + s.2))) =
  Some (0, recs ++ concat (map (with_insn_off insns_cnt) (ext_records m rs s)), cnt + s.2).
Proof.
  intros Hrs Hs Hn Hin Hm Hl Hc Hlt. set (R := ext_records m rs s).
  assert (HR : take (Z.to_nat (rs * s.2)) (drop (Z.to_nat (s.1 + 8)) m) = concat R).
  { destruct s. apply ext_records_concat; cbn in *; lia. }
  assert (Hcl : length (concat R) = Z.to_nat (rs * s.2)) by (rewrite <- HR, length_take, length_drop; nia).
  rewrite <- (take_drop (Z.to_nat (s.1 + 8)) m) at 1. rewrite <- (take_drop (Z.to_nat (rs * s.2)) (drop _ m)), HR.
  rewrite ld_bytes_at; [|rewrite length_take; nia|done]. cbn [mbind option_bind].
  rewrite take_ge by nia. rewrite <- (app_nil_r (recs ++ _)), <- app_assoc.
  rewrite st_bytes_at; [|lia|rewrite length_replicate; nia|].
  2: { rewrite <- HR. by apply Forall_take, Forall_drop. }
  cbn [mbind option_bind]. rewrite <- Hl, <- (ext_records_length m rs s). fold R.
  rewrite adjust_spec; [|done|].
  - cbn [mbind option_bind]. rewrite app_nil_r, wrap_small by (pow2; nia). done.
  - apply Forall_forall. intros r [i [-> Hi]]%list_elem_of_fmap. apply elem_of_seqZ in Hi.
    by apply (ext_record_length _ _ _ _ (s.1 + 8 + rs * s.2) s.2); lia.
Qed.

Lemma reloc_loop_spec alloc_ok b m rs sec_name insns_cnt recs cnt : 4 <= rs -> bytes_ok m ->
  Z.of_nat (length recs) = rs * cnt -> 0 <= cnt -> forall fuel p q l, ext_secs m rs p q l -> 0 <= p ->
  q <= Z.of_nat (length m) -> q - p < 8 * Z.of_nat fuel -> q - p + rs * cnt < 2 ^ 32 ->
  Forall (fun s => is_Some (sec_name_of b m s)) l ->
  reloc_info_loop alloc_ok fuel b m rs p (q - p) sec_name insns_cnt recs cnt =
  Some (collected alloc_ok b m rs l sec_name insns_cnt recs cnt).
Proof.
  intros Hrs Hm Hl Hc. induction fuel as [|fuel IH]; intros p q l Hsecs Hp Hq Hf Hlt Hnames.
  { pose proof (ext_secs_bounds m rs p q l ltac:(lia) Hsecs). lia. }
  cbn [reloc_info_loop]. inversion Hsecs as [|? ? n l' Hn Hpos Hle Hl']; subst.
  { by rewrite Z.sub_diag. }
  assert (0 < n * rs) by nia. destruct (Z.gtb_spec (q - p) 0); [|lia]. cbn [negb].
  rewrite Hn. cbn [mbind option_bind]. inversion Hnames as [|? ? [nm Hnm] Hnames']; subst.
  assert (E : bool_decide (sec_name_of b m (p, n) = Some sec_name) = (strcmp nm sec_name =? 0)).
  { rewrite Hnm. case_bool_decide as Heq; symmetry.
    - apply Z.eqb_eq, strcmp_eq. by injection Heq.
    - apply Z.eqb_neq. intros ?%strcmp_eq. congruence. }
  unfold sec_name_of in Hnm. cbn [fst] in Hnm. inv_bind Hnm. destruct x1 as [sm so]. subst x0.
  rewrite H1. cbn [mbind option_bind]. rewrite H2. cbn [mbind option_bind]. rewrite Hnm. cbn [mbind option_bind].
  unfold collected. cbn [List.find]. rewrite E. rewrite !(wrap_small 32 (n * rs)), (wrap_small 32 (8 + _)) by (pow2; nia).
  destruct (strcmp nm sec_name =? 0); cbn [negb].
  - rewrite (wrap_small 32 (cnt * rs)), (wrap_small 32 (cnt * rs + _)) by (pow2; nia). cbn [snd].
    replace (cnt * rs + n * rs) with (rs * (cnt + n)) by lia. destruct (alloc_ok _); [|done]. cbn [negb].
    rewrite (Z.mul_comm n rs), (Z.mul_comm cnt rs).
    apply (reloc_append m rs (p, n)); cbn [fst snd]; try done; lia.
  - rewrite wrap_small by (pow2; nia). replace (q - p - (8 + n * rs)) with (q - (p + (8 + n * rs))) by lia.
    rewrite IH with (l := l'); [done|done|lia..|done].
Qed.

(** Collecting the information of one program section, for the
    functions or the lines: of a loaded .BTF.ext section whose sections have
    names, the records of the first section of that name are appended to
    those there are, each with its offset in instructions behind the program's;
    or nothing changes, because there is no such section (ENOENT) or no memory. *)
Theorem reloc_info_collects alloc_ok b e ei min l sec_name insns_cnt recs cnt :
  ext_ok e -> 4 <= min -> secs_of (ext_data e) ei min l ->
  Forall (fun s => is_Some (sec_name_of b (ext_data e) s)) l ->
  Z.of_nat (length recs) = rec_size ei * cnt -> 0 <= cnt -> len ei + rec_size ei * cnt < 2 ^ 32 ->
  btf_ext_reloc_info alloc_ok b e ei sec_name insns_cnt recs cnt =
  Some (collected alloc_ok b (ext_data e) (rec_size ei) l sec_name insns_cnt recs cnt).
Proof.
  intros [Hm _ _ _ _] Hmin [(Hi & Hle & Hin) (Hrs & _) _ Hsecs] Hnames Hl Hc Hlt. unfold btf_ext_reloc_info.
  rewrite <- (reloc_loop_spec alloc_ok b (ext_data e) (rec_size ei) sec_name insns_cnt recs cnt ltac:(lia) Hm Hl Hc
    (S (Z.to_nat (len ei))) (info ei) (info ei + len ei) l Hsecs); [by rewrite Z.add_simpl_l|lia..|done].
Qed.

(** ** An example

    The functions of the program sections "arr" and "bad" of [ex_btf]: one at
    the start of the first, two in the second. *)

Definition ex_ext_image (name : Z) : list Z :=
  [159; 235; 1; 0] ++ bytes_of [24; 0; 44; 44; 0] ++
  bytes_of [8; 5; 1; 0; 1] ++ bytes_of [name; 2; 0; 2; 16; 3].

Definition ex_info : btf_ext_info := {| info := 28; rec_size := 8; len := 40; sec_cnt := 2 |}.

Definition ex_ext (name : Z) : btf_ext :=
  {| ext_data := ex_ext_image name; ext_data_size := 68; func_info := ex_info;
     line_info := no_info; core_relo_info := no_info |}.

Lemma ex_ext_loads : btf_ext__new always (ex_ext_image 14) 68 = Some (inr (ex_ext 14)).
Proof. vm_compute. reflexivity. Qed.

Lemma btf_ext_new_sound_witness : exists r, btf_ext__new always (ex_ext_image 14) 68 = Some r /\
  match r with inl _ => False | inr e => e = ex_ext 14 /\ ext_ok e end.
Proof.
  destruct (btf_ext_new_sound always (ex_ext_image 14)) as (r & Hr & Hp);
    [apply bytes_ok_dec; vm_compute; reflexivity|vm_compute; reflexivity|].
  exists r. change (Z.of_nat (length (ex_ext_image 14))) with 68 in Hr. split; [exact Hr|].
  rewrite ex_ext_loads in Hr. injection Hr as <-. split; [reflexivity|apply Hp].
Defined.

Lemma ex_secs : secs_of (ex_ext_image 14) ex_info 8 [(28, 1); (44, 2)].
Proof.
  split; [vm_compute; split_and!; congruence|vm_compute; split_and!; congruence|reflexivity|].
  apply (secs_next _ _ 28 68 1); [vm_compute; reflexivity|lia|cbn; lia|].
  apply (secs_next _ _ 44 68 2); [vm_compute; reflexivity|lia|cbn; lia|]. constructor.
Qed.

Lemma ex_ext_ok : ext_ok (ex_ext 14).
Proof.
  split; [by apply bytes_ok_dec; vm_compute|by vm_compute|right; eexists; exact ex_secs|by left|by left].
Qed.

Lemma reloc_info_collects_witness :
  btf_ext__reloc_func_info always ex_btf (ex_ext 14) (lit "bad") 100 (bytes_of [7; 1]) 1 =
  Some (0, bytes_of [7; 1; 100; 2; 102; 3], 3).
Proof.
  unfold btf_ext__reloc_func_info. change (func_info (ex_ext 14)) with ex_info.
  rewrite (reloc_info_collects always ex_btf (ex_ext 14) ex_info 8 [(28, 1); (44, 2)] (lit "bad") 100 (bytes_of [7; 1]) 1);
    [vm_compute; reflexivity|exact ex_ext_ok|lia|exact ex_secs| |reflexivity|lia|vm_compute; reflexivity].
  repeat (constructor; [by vm_compute; eexists|]). constructor.
Defined.

(** [btf_ext__new] does not know the strings: a section whose name lies
    outside them is accepted, and [strcmp] gets a NULL pointer. *)
Fact section_name_missing : btf_ext__new always (ex_ext_image 1000) 68 = Some (inr (ex_ext 1000)) /\
  btf_ext__reloc_func_info always ex_btf (ex_ext 1000) (lit "bad") 0 [] 0 = None.
Proof. split; vm_compute; reflexivity. Qed.
