(* ===== verification/Dedup.v ===== *)
(** * BTF deduplication (src/plugin/libbpf-test/libbpf/src/btf.c, [btf__dedup])

    The types of an object are partitioned into classes that describe the
    same C type; one type of each class is kept.  [map] leads from a type to
    the type that stands for it, over any number of steps.  The passes:
    strings, primitive types, structs and unions (by comparing the graphs of
    types they reach, with a hypothetical correspondence), the types that
    refer to others, compaction, and rewriting of the ids.

    The state of the pass is a record; arrays of type ids are lists.  The
    signed overflow of the hash is taken to wrap around.  Allocation is the
    parameter [alloc_ok].  An outer [None] is undefined behaviour, or a loop
    or recursion that used up its fuel. *)

From S2P Require Import Prelude Hashmap StrSet Btf BtfBuild BtfVisit BtfExt.

Abbreviation ELOOP := 40 (only parsing).
Abbreviation BTF_UNPROCESSED_ID := 4294967295 (only parsing).
Abbreviation BTF_IN_PROGRESS_ID := 4294967294 (only parsing).

(** ** The state *)

(** The hypothetical correspondence; [hypot_cnt] is the length of
    [hypot_list]. *)
Record hypot := Hypot {
  hypot_map : list Z;
  hypot_list : list Z;
  hypot_cap : Z;
  hypot_adjust_canon : bool;
}.

Record btf_dedup := Dedup {
  d_btf : bobj;
  strs_deduped : bool;
  d_ext : option btf_ext;
  dedup_table : hashmap Z Z;
  d_map : list Z;
  d_hypot : hypot;
  strs_set : option strset;
}.

Definition with_btf (d : btf_dedup) (b : bobj) : btf_dedup :=
  {| d_btf := b; strs_deduped := strs_deduped d; d_ext := d_ext d; dedup_table := dedup_table d;
     d_map := d_map d; d_hypot := d_hypot d; strs_set := strs_set d |}.
Definition with_ext (d : btf_dedup) (e : option btf_ext) : btf_dedup :=
  {| d_btf := d_btf d; strs_deduped := strs_deduped d; d_ext := e; dedup_table := dedup_table d;
     d_map := d_map d; d_hypot := d_hypot d; strs_set := strs_set d |}.
Definition with_table (d : btf_dedup) (t : hashmap Z Z) : btf_dedup :=
  {| d_btf := d_btf d; strs_deduped := strs_deduped d; d_ext := d_ext d; dedup_table := t;
     d_map := d_map d; d_hypot := d_hypot d; strs_set := strs_set d |}.
Definition with_map (d : btf_dedup) (m : list Z) : btf_dedup :=
  {| d_btf := d_btf d; strs_deduped := strs_deduped d; d_ext := d_ext d;
     dedup_table := dedup_table d; d_map := m; d_hypot := d_hypot d; strs_set := strs_set d |}.
Definition with_hypot (d : btf_dedup) (h : hypot) : btf_dedup :=
  {| d_btf := d_btf d; strs_deduped := strs_deduped d; d_ext := d_ext d;
     dedup_table := dedup_table d; d_map := d_map d; d_hypot := h; strs_set := strs_set d |}.
Definition with_strs (d : btf_dedup) (set : option strset) : btf_dedup :=
  {| d_btf := d_btf d; strs_deduped := strs_deduped d; d_ext := d_ext d;
     dedup_table := dedup_table d; d_map := d_map d; d_hypot := d_hypot d; strs_set := set |}.
Definition set_map (d : btf_dedup) (id v : Z) : option btf_dedup :=
  m ← aset (d_map d) id v; Some (with_map d m).

(** ** Hashing and comparing types *)

Definition hash_combine (h value : Z) : Z := s64 (h * 31 + value).

Section Types.
Context (b : bobj).

Definition b_kind (id : Z) : option kind := i ← info_of b id; Some (kind_of (BTF_INFO_KIND i)).

(** Combining the given words of a type. *)
Fixpoint hash_words (id : Z) (js : list Z) (h : Z) : option Z :=
  match js with
  | [] => Some h
  | j :: js => w ← type_word b id j; hash_words id js (hash_combine h w)
  end.

(** Comparing the given words of two types, up to the first difference. *)
Fixpoint equal_words (id1 id2 : Z) (js : list Z) : option bool :=
  match js with
  | [] => Some true
  | j :: js =>
      w1 ← type_word b id1 j; w2 ← type_word b id2 j;
      if w1 =? w2 then equal_words id1 id2 js else Some false
  end.

Definition btf_hash_common (id : Z) : option Z := hash_words id [0; 1; 2] 0.

Definition btf_equal_common (id1 id2 : Z) : option bool := equal_words id1 id2 [0; 1; 2].

Definition btf_hash_int_decl_tag (id : Z) : option Z := hash_words id [0; 1; 2; 3] 0.

Definition btf_equal_int_tag (id1 id2 : Z) : option bool := equal_words id1 id2 [0; 1; 2; 3].

Definition btf_hash_enum (id : Z) : option Z :=
  n ← type_word b id 0; i ← info_of b id; s ← type_word b id 2;
  Some (hash_combine (hash_combine (hash_combine 0 n) (Z.land i 4294901760)) s).

(** The shape of the comparisons below: the common part, then the words
    [js vlen] of the members. *)
Definition equal_members (id1 id2 : Z) (js : Z -> list Z) : option bool :=
  same ← btf_equal_common id1 id2;
  if negb same then Some false else
  i ← info_of b id1; equal_words id1 id2 (js (BTF_INFO_VLEN i)).

Definition btf_equal_enum (id1 id2 : Z) : option bool := equal_members id1 id2 (elem_words 2 [0; 1]).

Definition btf_equal_enum64 (id1 id2 : Z) : option bool :=
  equal_members id1 id2 (elem_words 3 [0; 1; 2]).

Definition btf_is_enum_fwd (id : Z) : option bool :=
  i ← info_of b id;
  Some (bool_decide (kind_of (BTF_INFO_KIND i) ∈ [KIND_ENUM; KIND_ENUM64]) && (BTF_INFO_VLEN i =? 0)).

(** [btf_compat_enum] and [btf_compat_enum64], by the comparison of complete
    enums. *)
Definition compat_enums (equal : Z -> Z -> option bool) (id1 id2 : Z) : option bool :=
  f1 ← btf_is_enum_fwd id1;
  f2 ← (if (f1 : bool) then Some true else btf_is_enum_fwd id2);
  if negb f1 && negb f2 then equal id1 id2 else
  n1 ← type_word b id1 0; n2 ← type_word b id2 0;
  i1 ← info_of b id1; i2 ← info_of b id2;
  s1 ← type_word b id1 2; s2 ← type_word b id2 2;
  Some ((n1 =? n2) && (Z.land i1 4294901760 =? Z.land i2 4294901760) && (s1 =? s2)).

Definition btf_compat_enum := compat_enums btf_equal_enum.
Definition btf_compat_enum64 := compat_enums btf_equal_enum64.

Definition btf_hash_struct (id : Z) : option Z :=
  i ← info_of b id; hash_words id ([0; 1; 2] ++ elem_words 3 [0; 2] (BTF_INFO_VLEN i)) 0.

Definition btf_shallow_equal_struct (id1 id2 : Z) : option bool :=
  equal_members id1 id2 (elem_words 3 [0; 2]).

Definition btf_hash_array (id : Z) : option Z := hash_words id [0; 1; 2; 3; 4; 5] 0.

Definition btf_equal_array (id1 id2 : Z) : option bool := equal_words id1 id2 [0; 1; 2; 3; 4; 5].

Definition btf_compat_array (id1 id2 : Z) : option bool := equal_words id1 id2 [0; 1; 2; 5].

Definition btf_hash_fnproto (id : Z) : option Z :=
  i ← info_of b id; hash_words id ([0; 1; 2] ++ elem_words 2 [0; 1] (BTF_INFO_VLEN i)) 0.

Definition btf_equal_fnproto (id1 id2 : Z) : option bool :=
  equal_members id1 id2 (elem_words 2 [0; 1]).

Definition btf_compat_fnproto (id1 id2 : Z) : option bool :=
  same ← equal_words id1 id2 [0; 1];
  if negb same then Some false else
  i ← info_of b id1; equal_words id1 id2 (elem_words 2 [0] (BTF_INFO_VLEN i)).

(** [btf_fwd_kind] *)
Definition btf_fwd_kind (id : Z) : option kind :=
  i ← info_of b id; Some (if BTF_INFO_KFLAG i =? 0 then KIND_STRUCT else KIND_UNION).

(** ** Resolving ids *)

Definition is_mapped (v : Z) : bool := v <=? BTF_MAX_NR_TYPES.

(** A round per type, and one more. *)
Fixpoint resolve_steps (fuel : nat) (map : list Z) (id : Z) : option Z :=
  match fuel with
  | O => None
  | S fuel =>
      v ← aref map id;
      if is_mapped v && negb (v =? id) then resolve_steps fuel map v else Some id
  end.

Definition resolve_type_id (map : list Z) (id : Z) : option Z :=
  resolve_steps (S (length map)) map id.

(** [btf_is_fwd(btf__type_by_id(id))]: the NULL pointer is dereferenced. *)
Definition is_fwd (id : Z) : option bool :=
  p ← b__type_by_id b id; t ← p; i ← word_at t 1;
  Some (bool_decide (kind_of (BTF_INFO_KIND i) = KIND_FWD)).

Definition resolve_fwd_id (map : list Z) (type_id : Z) : option Z :=
  fwd ← is_fwd type_id;
  if negb fwd then Some type_id else
  id ← resolve_type_id map type_id;
  fwd ← is_fwd id;
  Some (if (fwd : bool) then type_id else id).

(** ** Equivalence of type graphs *)

Definition kind_in (id : Z) (ks : list kind) : option bool :=
  k ← b_kind id; Some (bool_decide (k ∈ ks)).

Definition btf_dedup_identical_arrays (id1 id2 : Z) : option bool :=
  a1 ← kind_in id1 [KIND_ARRAY]; a2 ← kind_in id2 [KIND_ARRAY];
  if negb a1 || negb a2 then Some false else btf_equal_array id1 id2.

Definition btf_dedup_identical_structs (id1 id2 : Z) : option bool :=
  c ← kind_in id1 [KIND_STRUCT; KIND_UNION];
  k1 ← b_kind id1; k2 ← b_kind id2;
  if negb c || negb (bool_decide (k1 = k2)) then Some false else
  same ← btf_shallow_equal_struct id1 id2;
  if negb same then Some false else
  i ← info_of b id1; equal_words id1 id2 (elem_words 3 [1] (BTF_INFO_VLEN i)).

Section Equiv.
Context (alloc_ok : Z -> bool) (map : list Z).

Definition btf_dedup_hypot_map_add (hy : hypot) (from_id to_id : Z) : option (Z * hypot) :=
  let cnt := Z.of_nat (length (hypot_list hy)) in
  let full := cnt =? hypot_cap hy in
  let cap := if full then hypot_cap hy + Z.max 16 (hypot_cap hy / 2) else hypot_cap hy in
  if full && negb (alloc_ok (4 * cap)) then
    Some (- ENOMEM, {| hypot_map := hypot_map hy; hypot_list := hypot_list hy; hypot_cap := cap;
                       hypot_adjust_canon := hypot_adjust_canon hy |})
  else
    m ← aset (hypot_map hy) from_id to_id;
    Some (0, {| hypot_map := m; hypot_list := hypot_list hy ++ [from_id]; hypot_cap := cap;
                hypot_adjust_canon := hypot_adjust_canon hy |}).

Definition adjust_canon (hy : hypot) : hypot :=
  {| hypot_map := hypot_map hy; hypot_list := hypot_list hy; hypot_cap := hypot_cap hy;
     hypot_adjust_canon := true |}.

(** The pairs of types two types refer to with the words [js], in order;
    the first answer that is not positive is the answer. *)
Fixpoint equiv_refs (rec : Z -> Z -> hypot -> option (Z * hypot)) (cand_id canon_id : Z)
    (js : list Z) (hy : hypot) : option (Z * hypot) :=
  match js with
  | [] => Some (1, hy)
  | j :: js =>
      a ← type_word b cand_id j; c ← type_word b canon_id j;
      '(eq, hy) ← rec a c hy;
      if eq <=? 0 then Some (eq, hy) else equiv_refs rec cand_id canon_id js hy
  end.

(** A comparison, and then the types referred to. *)
Definition equiv_and_refs (same : option bool) (rec : Z -> Z -> hypot -> option (Z * hypot))
    (cand_id canon_id : Z) (js : list Z) (hy : hypot) : option (Z * hypot) :=
  same ← same;
  if negb same then Some (0, hy) else equiv_refs rec cand_id canon_id js hy.

(** What [btf_dedup_is_equiv] does with a pair that was not met before. *)
Definition equiv_new (rec : Z -> Z -> hypot -> option (Z * hypot)) (cand_id canon_id : Z)
    (hy : hypot) : option (Z * hypot) :=
  cand_kind ← b_kind cand_id; canon_kind ← b_kind canon_id;
  same_name ← equal_words cand_id canon_id [0];
  if negb same_name then Some (0, hy) else
  if (bool_decide (cand_kind = KIND_FWD) || bool_decide (canon_kind = KIND_FWD))
     && negb (bool_decide (cand_kind = canon_kind)) then
    if bool_decide (cand_kind = KIND_FWD) then
      fwd_kind ← btf_fwd_kind cand_id;
      Some (bool_to_Z (bool_decide (fwd_kind = canon_kind)), hy)
    else
      fwd_kind ← btf_fwd_kind canon_id;
      let same := bool_decide (fwd_kind = cand_kind) in
      Some (bool_to_Z same,
            if same && (canon_id <? b_start_id b) then adjust_canon hy else hy)
  else
  cand_k ← info_of b cand_id; canon_k ← info_of b canon_id;
  if negb (BTF_INFO_KIND cand_k =? BTF_INFO_KIND canon_k) then Some (0, hy) else
  let vlen := BTF_INFO_VLEN cand_k in
  let leaf same := same ← same; Some (bool_to_Z same, hy) in
  match cand_kind with
  | KIND_INT => leaf (btf_equal_int_tag cand_id canon_id)
  | KIND_ENUM => leaf (btf_compat_enum cand_id canon_id)
  | KIND_ENUM64 => leaf (btf_compat_enum64 cand_id canon_id)
  | KIND_FWD | KIND_FLOAT => leaf (btf_equal_common cand_id canon_id)
  | KIND_CONST | KIND_VOLATILE | KIND_RESTRICT | KIND_PTR | KIND_TYPEDEF | KIND_FUNC
  | KIND_TYPE_TAG => equiv_and_refs (equal_words cand_id canon_id [1]) rec cand_id canon_id [2] hy
  | KIND_ARRAY => equiv_and_refs (btf_compat_array cand_id canon_id) rec cand_id canon_id [4; 3] hy
  | KIND_STRUCT | KIND_UNION =>
      equiv_and_refs (btf_shallow_equal_struct cand_id canon_id) rec cand_id canon_id
        (elem_words 3 [1] vlen) hy
  | KIND_FUNC_PROTO =>
      equiv_and_refs (btf_compat_fnproto cand_id canon_id) rec cand_id canon_id
        (2 :: elem_words 2 [1] vlen) hy
  | _ => Some (- EINVAL, hy)
  end.

Fixpoint btf_dedup_is_equiv (fuel : nat) (cand_id canon_id : Z) (hy : hypot) : option (Z * hypot) :=
  match fuel with
  | O => None
  | S fuel =>
      r1 ← resolve_type_id map cand_id; r2 ← resolve_type_id map canon_id;
      if r1 =? r2 then Some (1, hy) else
      canon_id ← resolve_fwd_id map canon_id;
      hypot_type_id ← aref (hypot_map hy) canon_id;
      if is_mapped hypot_type_id then
        if hypot_type_id =? cand_id then Some (1, hy) else
        arrays ← btf_dedup_identical_arrays hypot_type_id cand_id;
        if (arrays : bool) then Some (1, hy) else
        structs ← btf_dedup_identical_structs hypot_type_id cand_id;
        Some (bool_to_Z structs, hy)
      else
        '(err, hy) ← btf_dedup_hypot_map_add hy canon_id cand_id;
        if negb (err =? 0) then Some (- ENOMEM, hy) else
        equiv_new (btf_dedup_is_equiv fuel) cand_id canon_id hy
  end.
End Equiv.
End Types.

(** ** The passes *)

(** [hashmap__for_each_key_entry]: the values stored under a key, from the
    head of the chain. *)
Definition hashmap__for_each_key_entry {K V} (hash_fn : K -> Z) (equal_fn : K -> K -> bool)
    (map : hashmap K V) (key : K) : option (list V) :=
  match buckets map with
  | [] => Some []
  | bs => b ← aref bs (hash_bits (hash_fn key) (cap_bits map));
          Some ((filter (fun e => equal_fn e.1 key = true) b).*2)
  end.

Section Passes.
Context (alloc_ok : Z -> bool) (force_collisions : bool).

Definition btf_dedup_identity_hash_fn (key : Z) : Z := u64 key.
Definition btf_dedup_collision_hash_fn (key : Z) : Z := 0.
Definition btf_dedup_equal_fn (k1 k2 : Z) : bool := k1 =? k2.

Definition hash_fn : Z -> Z :=
  if force_collisions then btf_dedup_collision_hash_fn else btf_dedup_identity_hash_fn.

Definition for_each_dedup_cand (d : btf_dedup) (h : Z) : option (list Z) :=
  hashmap__for_each_key_entry hash_fn btf_dedup_equal_fn (dedup_table d) h.

Definition btf_dedup_table_add (d : btf_dedup) (h type_id : Z) : option (Z * btf_dedup) :=
  '(err, _, t) ← hashmap__insert alloc_ok hash_fn btf_dedup_equal_fn (dedup_table d) h type_id
                   HASHMAP_APPEND;
  Some (err, with_table d t).

(** *** Setting up *)

Fixpoint init_map (b : bobj) (i : Z) (n : nat) : option (list Z) :=
  match n with
  | O => Some []
  | S n =>
      k ← b_kind b i;
      m ← init_map b (i + 1) n;
      Some ((if bool_decide (k ∈ [KIND_VAR; KIND_DATASEC]) then i else BTF_UNPROCESSED_ID) :: m)
  end.

Definition btf_dedup_new (b : bobj) (deduped : bool) (ext : option btf_ext) : option (Z + btf_dedup) :=
  let type_cnt := b_type_cnt b in
  if negb (alloc_ok 104) || negb (alloc_ok 56) || negb (alloc_ok (4 * type_cnt))
  then Some (inl (- ENOMEM)) else
  m ← init_map b 1 (Z.to_nat (type_cnt - 1));
  Some (inr {| d_btf := b; strs_deduped := deduped; d_ext := ext; dedup_table := hashmap__init;
               d_map := 0 :: m;
               d_hypot := {| hypot_map := replicate (Z.to_nat type_cnt) BTF_UNPROCESSED_ID;
                             hypot_list := []; hypot_cap := 0; hypot_adjust_canon := false |};
               strs_set := None |}).

(** The hash of a type of the base; [None] inside: an unknown kind. *)
Definition base_hash (b : bobj) (k : kind) (id : Z) : option (option Z) :=
  match k with
  | KIND_CONST | KIND_VOLATILE | KIND_RESTRICT | KIND_PTR | KIND_FWD | KIND_TYPEDEF | KIND_FUNC
  | KIND_FLOAT | KIND_TYPE_TAG => h ← btf_hash_common b id; Some (Some h)
  | KIND_INT | KIND_DECL_TAG => h ← btf_hash_int_decl_tag b id; Some (Some h)
  | KIND_ENUM | KIND_ENUM64 => h ← btf_hash_enum b id; Some (Some h)
  | KIND_STRUCT | KIND_UNION => h ← btf_hash_struct b id; Some (Some h)
  | KIND_ARRAY => h ← btf_hash_array b id; Some (Some h)
  | KIND_FUNC_PROTO => h ← btf_hash_fnproto b id; Some (Some h)
  | KIND_VAR | KIND_DATASEC | KIND_UNKN | KIND_OTHER => Some None
  end.

Fixpoint prep_types (d : btf_dedup) (id : Z) (n : nat) : option (Z * btf_dedup) :=
  match n with
  | O => Some (0, d)
  | S n =>
      d ← set_map d id id;
      k ← b_kind (d_btf d) id;
      if bool_decide (k ∈ [KIND_VAR; KIND_DATASEC]) then prep_types d (id + 1) n else
      h ← base_hash (d_btf d) k id;
      match h with
      | None => Some (- EINVAL, d)
      | Some h =>
          '(err, d) ← btf_dedup_table_add d h id;
          if negb (err =? 0) then Some (- ENOMEM, d) else prep_types d (id + 1) n
      end
  end.

Definition btf_dedup_prep (d : btf_dedup) : option (Z * btf_dedup) :=
  match b_base (d_btf d) with
  | None => Some (0, d)
  | Some _ => prep_types d 1 (Z.to_nat (b_start_id (d_btf d) - 1))
  end.

(** The loops over the types of the object itself. *)
Fixpoint for_types {St} (f : St -> Z -> option (Z * St)) (s : St) (id : Z) (n : nat)
    : option (Z * St) :=
  match n with
  | O => Some (0, s)
  | S n => '(err, s) ← f s id; if err <? 0 then Some (err, s) else for_types f s (id + 1) n
  end.

Definition for_own_types (f : btf_dedup -> Z -> option (Z * btf_dedup)) (d : btf_dedup) :=
  for_types f d (b_start_id (d_btf d)) (Z.to_nat (b_nr (d_btf d))).

(** *** Strings *)

Definition dedup_get (id : Z) (d : btf_dedup) (j : Z) : option Z := type_word (d_btf d) id j.

Definition dedup_put (id : Z) (d : btf_dedup) (j v : Z) : option btf_dedup :=
  b ← set_type_word (d_btf d) id j v; Some (with_btf d b).

Definition ext_get (d : btf_dedup) (o : Z) : option Z := e ← d_ext d; ld32 (ext_data e) o.

Definition ext_put (d : btf_dedup) (o v : Z) : option btf_dedup :=
  e ← d_ext d; m ← st32 (ext_data e) o v;
  Some (with_ext d (Some {| ext_data := m; ext_data_size := ext_data_size e; func_info := func_info e;
                            line_info := line_info e; core_relo_info := core_relo_info e |})).

Definition btf_for_each_str_off (visit : btf_dedup -> Z -> option (Z * Z * btf_dedup))
    (d : btf_dedup) : option (Z * btf_dedup) :=
  '(err, d) ← for_own_types
     (fun d id => btf_type_visit_str_offs (dedup_get id) (dedup_put id) visit d) d;
  if negb (err =? 0) then Some (err, d) else
  match d_ext d with
  | None => Some (0, d)
  | Some e => btf_ext_visit_str_offs ext_get ext_put visit e d
  end.

Definition strs_dedup_remap_str_off (d : btf_dedup) (str_off : Z) : option (Z * Z * btf_dedup) :=
  if (str_off =? 0) || (str_off <? u32 (b_start_str_off (d_btf d))) then Some (0, str_off, d) else
  p ← b_str_by_offset (d_btf d) str_off;
  s ← p;
  '(err, d) ← match b_base (d_btf d) with
              | None => Some (- ENOENT, d)
              | Some bb => '(err, bb) ← btf__find_str alloc_ok bb s;
                           Some (err, with_btf d (with_base (d_btf d) bb))
              end;
  if err >=? 0 then Some (0, err, d) else
  if negb (err =? - ENOENT) then Some (err, str_off, d) else
  set ← strs_set d;
  '(off, set) ← strset__add_str alloc_ok set s;
  let d := with_strs d (Some set) in
  if off <? 0 then Some (off, str_off, d)
  else Some (0, u32 (b_start_str_off (d_btf d) + off), d).

(** The new set becomes the strings of the object. *)
Definition replace_strs (d : btf_dedup) : option btf_dedup :=
  set ← strs_set d;
  match b_rep (d_btf d) with
  | RContig _ _ _ => None
  | RSplit h ty cap _ =>
      h ← st32 h 20 (strs_data_len set);
      Some {| d_btf := with_rep (d_btf d) (RSplit h ty cap set); strs_deduped := true;
              d_ext := d_ext d; dedup_table := dedup_table d; d_map := d_map d;
              d_hypot := d_hypot d; strs_set := None |}
  end.

(** [strset__new] without initial data. *)
Definition strset__new_empty (max_data_sz : Z) : Z + strset :=
  if negb (alloc_ok 40) || negb (alloc_ok 56) then inl (- ENOMEM)
  else inr {| StrSet.strs_data := []; strs_data_len := 0; strs_data_max_len := max_data_sz;
              strs_hash := hashmap__init |}.

Definition btf_dedup_strings (d : btf_dedup) : option (Z * btf_dedup) :=
  if strs_deduped d then Some (0, d) else
  match strset__new_empty BTF_MAX_STR_OFFSET with
  | inl err => Some (err, d)
  | inr set =>
      '(err, set) ← match b_base (d_btf d) with
                    | Some _ => Some (0, set)
                    | None => strset__add_str alloc_ok set []
                    end;
      if err <? 0 then Some (err, with_strs d None) else
      '(err, d) ← btf_for_each_str_off strs_dedup_remap_str_off (with_strs d (Some set));
      if negb (err =? 0) then Some (err, with_strs d None) else
      d ← replace_strs d;
      Some (0, d)
  end.

(** *** Primitive types *)

(** The first candidate that is equal. *)
Fixpoint find_cand (equal : Z -> option bool) (cands : list Z) : option (option Z) :=
  match cands with
  | [] => Some None
  | c :: cs => same ← equal c; if (same : bool) then Some (Some c) else find_cand equal cs
  end.

(** The candidates for an enum: the type it becomes, and the map. *)
Fixpoint enum_cands (b : bobj) (equal compat : Z -> Z -> option bool) (type_id : Z) (map : list Z)
    (cands : list Z) : option (Z * list Z) :=
  match cands with
  | [] => Some (type_id, map)
  | c :: cs =>
      same ← equal type_id c;
      if (same : bool) then Some (c, map) else
      ok ← compat type_id c;
      if negb ok then enum_cands b equal compat type_id map cs else
      fwd ← btf_is_enum_fwd b type_id;
      if (fwd : bool) then Some (c, map) else
      map ← aset map c type_id;
      enum_cands b equal compat type_id map cs
  end.

(** [map[type_id] = new_id], and a type that stands for itself becomes a
    candidate. *)
Definition settle (d : btf_dedup) (h type_id new_id : Z) : option (Z * btf_dedup) :=
  d ← set_map d type_id new_id;
  if type_id =? new_id then
    '(err, d) ← btf_dedup_table_add d h type_id;
    Some (if negb (err =? 0) then - ENOMEM else 0, d)
  else Some (0, d).

Definition settle_equal (d : btf_dedup) (type_id : Z) (hash : Z -> option Z)
    (equal : Z -> Z -> option bool) : option (Z * btf_dedup) :=
  h ← hash type_id;
  cands ← for_each_dedup_cand d h;
  c ← find_cand (equal type_id) cands;
  settle d h type_id (default type_id c).

Definition settle_enum (d : btf_dedup) (type_id : Z) (equal compat : Z -> Z -> option bool)
    : option (Z * btf_dedup) :=
  h ← btf_hash_enum (d_btf d) type_id;
  cands ← for_each_dedup_cand d h;
  '(new_id, m) ← enum_cands (d_btf d) equal compat type_id (d_map d) cands;
  settle (with_map d m) h type_id new_id.

Definition btf_dedup_prim_type (d : btf_dedup) (type_id : Z) : option (Z * btf_dedup) :=
  let b := d_btf d in
  k ← b_kind b type_id;
  match k with
  | KIND_CONST | KIND_VOLATILE | KIND_RESTRICT | KIND_PTR | KIND_TYPEDEF | KIND_ARRAY | KIND_STRUCT
  | KIND_UNION | KIND_FUNC | KIND_FUNC_PROTO | KIND_VAR | KIND_DATASEC | KIND_DECL_TAG
  | KIND_TYPE_TAG => Some (0, d)
  | KIND_INT => settle_equal d type_id (btf_hash_int_decl_tag b) (btf_equal_int_tag b)
  | KIND_ENUM => settle_enum d type_id (btf_equal_enum b) (btf_compat_enum b)
  | KIND_ENUM64 => settle_enum d type_id (btf_equal_enum64 b) (btf_compat_enum64 b)
  | KIND_FWD | KIND_FLOAT => settle_equal d type_id (btf_hash_common b) (btf_equal_common b)
  | KIND_UNKN | KIND_OTHER => Some (- EINVAL, d)
  end.

Definition btf_dedup_prim_types := for_own_types btf_dedup_prim_type.

(** *** Structs and unions *)

Fixpoint clear_ids (m : list Z) (ids : list Z) : option (list Z) :=
  match ids with
  | [] => Some m
  | i :: ids => m ← aset m i BTF_UNPROCESSED_ID; clear_ids m ids
  end.

Definition btf_dedup_clear_hypot_map (hy : hypot) : option hypot :=
  m ← clear_ids (hypot_map hy) (hypot_list hy);
  Some {| hypot_map := m; hypot_list := []; hypot_cap := hypot_cap hy; hypot_adjust_canon := false |}.

(** One pair of [btf_dedup_merge_hypot_map]. *)
Definition merge_pair (b : bobj) (hy : hypot) (map : list Z) (canon_type_id : Z) : option (list Z) :=
  targ_type_id ← aref (hypot_map hy) canon_type_id;
  t_id ← resolve_type_id map targ_type_id;
  c_id ← resolve_type_id map canon_type_id;
  tp ← b__type_by_id b t_id; tp ← tp;
  cp ← b__type_by_id b c_id; cp ← cp;
  ti ← word_at tp 1; ci ← word_at cp 1;
  let t_kind := kind_of (BTF_INFO_KIND ti) in
  let c_kind := kind_of (BTF_INFO_KIND ci) in
  let t_fwd := bool_decide (t_kind = KIND_FWD) in
  let c_fwd := bool_decide (c_kind = KIND_FWD) in
  map ← (if negb t_fwd && c_fwd then aset map c_id t_id else Some map);
  if hypot_adjust_canon hy then Some map else
  map ← (if t_fwd && negb c_fwd then aset map t_id c_id else Some map);
  if bool_decide (t_kind ∈ [KIND_STRUCT; KIND_UNION]) && negb c_fwd then
    cv ← aref map c_id; tv ← aref map t_id;
    if is_mapped cv && negb (is_mapped tv) then aset map t_id c_id else Some map
  else Some map.

Fixpoint merge_pairs (b : bobj) (hy : hypot) (map : list Z) (ids : list Z) : option (list Z) :=
  match ids with
  | [] => Some map
  | i :: ids => map ← merge_pair b hy map i; merge_pairs b hy map ids
  end.

Definition btf_dedup_merge_hypot_map (b : bobj) (hy : hypot) (map : list Z) : option (list Z) :=
  merge_pairs b hy map (hypot_list hy).

(** The candidates for a struct: an error, or the type it becomes. *)
Fixpoint struct_cands (d : btf_dedup) (type_id : Z) (cands : list Z) : option ((Z + Z) * btf_dedup) :=
  match cands with
  | [] => Some (inr type_id, d)
  | c :: cs =>
      let b := d_btf d in
      same ← btf_shallow_equal_struct b type_id c;
      if negb same then struct_cands d type_id cs else
      hy ← btf_dedup_clear_hypot_map (d_hypot d);
      '(eq, hy) ← btf_dedup_is_equiv b alloc_ok (d_map d) (S (length (d_map d))) type_id c hy;
      let d := with_hypot d hy in
      if eq <? 0 then Some (inl eq, d) else
      if eq =? 0 then struct_cands d type_id cs else
      map ← btf_dedup_merge_hypot_map b hy (d_map d);
      let d := with_map d map in
      if hypot_adjust_canon hy then struct_cands d type_id cs else Some (inr c, d)
  end.

Definition btf_dedup_struct_type (d : btf_dedup) (type_id : Z) : option (Z * btf_dedup) :=
  let b := d_btf d in
  v ← aref (d_map d) type_id;
  if is_mapped v then Some (0, d) else
  composite ← kind_in b type_id [KIND_STRUCT; KIND_UNION];
  if negb composite then Some (0, d) else
  h ← btf_hash_struct b type_id;
  cands ← for_each_dedup_cand d h;
  '(r, d) ← struct_cands d type_id cands;
  match r with
  | inl err => Some (err, d)
  | inr new_id => settle d h type_id new_id
  end.

Definition btf_dedup_struct_types := for_own_types btf_dedup_struct_type.

(** *** Types that refer to others *)

(** Resolving the types referred to with the words [js], in order. *)
Fixpoint ref_words (rec : btf_dedup -> Z -> option (Z * btf_dedup)) (type_id : Z) (js : list Z)
    (d : btf_dedup) : option (Z * btf_dedup) :=
  match js with
  | [] => Some (0, d)
  | j :: js =>
      w ← type_word (d_btf d) type_id j;
      '(ref_type_id, d) ← rec d w;
      if ref_type_id <? 0 then Some (ref_type_id, d) else
      b ← set_type_word (d_btf d) type_id j ref_type_id;
      ref_words rec type_id js (with_btf d b)
  end.

(** After its references, a type is settled among the equal ones. *)
Definition settle_ref (rec : btf_dedup -> Z -> option (Z * btf_dedup)) (type_id : Z) (js : list Z)
    (hash : bobj -> Z -> option Z) (equal : bobj -> Z -> Z -> option bool) (d : btf_dedup)
    : option (Z * btf_dedup) :=
  '(err, d) ← ref_words rec type_id js d;
  if err <? 0 then Some (err, d) else
  '(err, d) ← settle_equal d type_id (hash (d_btf d)) (equal (d_btf d));
  if negb (err =? 0) then Some (err, d) else
  v ← aref (d_map d) type_id;
  Some (s32 v, d).

Fixpoint btf_dedup_ref_type (fuel : nat) (d : btf_dedup) (type_id : Z) : option (Z * btf_dedup) :=
  match fuel with
  | O => None
  | S fuel =>
      v ← aref (d_map d) type_id;
      if v =? BTF_IN_PROGRESS_ID then Some (- ELOOP, d) else
      if is_mapped v then id ← resolve_type_id (d_map d) type_id; Some (s32 id, d) else
      i ← info_of (d_btf d) type_id;
      d ← set_map d type_id BTF_IN_PROGRESS_ID;
      let rec := btf_dedup_ref_type fuel in
      match kind_of (BTF_INFO_KIND i) with
      | KIND_CONST | KIND_VOLATILE | KIND_RESTRICT | KIND_PTR | KIND_TYPEDEF | KIND_FUNC
      | KIND_TYPE_TAG => settle_ref rec type_id [2] btf_hash_common btf_equal_common d
      | KIND_DECL_TAG => settle_ref rec type_id [2] btf_hash_int_decl_tag btf_equal_int_tag d
      | KIND_ARRAY => settle_ref rec type_id [3; 4] btf_hash_array btf_equal_array d
      | KIND_FUNC_PROTO =>
          settle_ref rec type_id (2 :: elem_words 2 [1] (BTF_INFO_VLEN i)) btf_hash_fnproto
            btf_equal_fnproto d
      | _ => Some (- EINVAL, d)
      end
  end.

(** The table is freed at the end. *)
Definition btf_dedup_ref_types (d : btf_dedup) : option (Z * btf_dedup) :=
  '(err, d) ← for_own_types (fun d id => btf_dedup_ref_type (S (length (d_map d))) d id) d;
  if err <? 0 then Some (err, d) else Some (0, with_table d hashmap__init).

(** *** Compaction *)

(** The state of the loop: the object, the new ids, where the next type goes
    and its id. *)
Fixpoint compact_loop (b : bobj) (map new_ids : list Z) (p next_type_id id : Z) (n : nat)
    : option (Z * (bobj * list Z * Z * Z)) :=
  match n with
  | O => Some (0, (b, new_ids, p, next_type_id))
  | S n =>
      v ← aref map id;
      if negb (v =? id) then compact_loop b map new_ids p next_type_id (id + 1) n else
      t ← b__type_by_id b id; t ← t;
      match t, b_rep b with
      | TAt m o, RSplit h ty cap set =>
          len ← btf_type_size m o;
          if len <? 0 then Some (len, (b, new_ids, p, next_type_id)) else
          bs ← ld_bytes m o (Z.to_nat len);
          ty ← st_bytes ty p bs;
          new_ids ← aset new_ids id next_type_id;
          offs ← st32 (b_offs b) (4 * (next_type_id - b_start_id b)) p;
          compact_loop
            {| b_rep := RSplit h ty cap set; b_raw := b_raw b; b_offs := offs;
               b_offs_cap := b_offs_cap b; b_nr := b_nr b; b_base := b_base b;
               b_start_id := b_start_id b; b_start_str_off := b_start_str_off b |}
            map new_ids (p + len) (next_type_id + 1) (id + 1) n
      | _, _ => None
      end
  end.

(** The header and the index after compaction. *)
Definition shrink (b : bobj) (p next_type_id : Z) : option (Z * bobj) :=
  match b_rep b with
  | RContig _ _ _ => None
  | RSplit h ty cap set =>
      let nr := next_type_id - b_start_id b in
      h ← st32 h 12 p;
      if negb (nr =? 0) && negb (alloc_ok (4 * nr)) then
        Some (- ENOMEM,
              {| b_rep := RSplit h ty cap set; b_raw := b_raw b; b_offs := b_offs b;
                 b_offs_cap := nr; b_nr := nr; b_base := b_base b; b_start_id := b_start_id b;
                 b_start_str_off := b_start_str_off b |})
      else
        h ← st32 h 16 p;
        Some (0,
              {| b_rep := RSplit h ty cap set; b_raw := b_raw b;
                 b_offs := take (Z.to_nat (4 * nr)) (b_offs b); b_offs_cap := nr; b_nr := nr;
                 b_base := b_base b; b_start_id := b_start_id b;
                 b_start_str_off := b_start_str_off b |})
  end.

Definition btf_dedup_compact_types (d : btf_dedup) : option (Z * btf_dedup) :=
  let b := d_btf d in
  let n := Z.to_nat (b_nr b) in
  let hy := d_hypot d in
  let ids := seqZ 0 (b_start_id b) ++ replicate n BTF_UNPROCESSED_ID in
  if negb (Z.of_nat (length ids) <=? Z.of_nat (length (hypot_map hy))) then None else
  '(err, (b, new_ids, p, next)) ← compact_loop b (d_map d) ids 0 (b_start_id b) (b_start_id b) n;
  let d := with_hypot (with_btf d b)
             {| hypot_map := new_ids; hypot_list := hypot_list hy; hypot_cap := hypot_cap hy;
                hypot_adjust_canon := hypot_adjust_canon hy |} in
  if negb (err =? 0) then Some (err, d) else
  '(err, b) ← shrink b p next;
  Some (err, with_btf d b).

(** *** Rewriting the ids *)

Definition btf_dedup_remap_type_id (d : btf_dedup) (type_id : Z) : option (Z * Z * btf_dedup) :=
  resolved_type_id ← resolve_type_id (d_map d) type_id;
  new_type_id ← aref (hypot_map (d_hypot d)) resolved_type_id;
  if new_type_id >? BTF_MAX_NR_TYPES then Some (- EINVAL, type_id, d)
  else Some (0, new_type_id, d).

Definition btf_dedup_remap_types (d : btf_dedup) : option (Z * btf_dedup) :=
  '(err, d) ← for_own_types
     (fun d id => btf_type_visit_type_ids (dedup_get id) (dedup_put id) btf_dedup_remap_type_id d) d;
  if negb (err =? 0) then Some (err, d) else
  match d_ext d with
  | None => Some (0, d)
  | Some e => btf_ext_visit_type_ids ext_get ext_put btf_dedup_remap_type_id e d
  end.

(** *** The whole *)

(** [btf_ensure_modifiable] also notes that an object without strings has no
    duplicates among them. *)
Definition no_strs (b : bobj) : option bool :=
  match b_rep b with
  | RSplit _ _ _ _ => Some false
  | RContig raw _ _ =>
      sl ← hdr_str_len raw;
      Some ((sl =? 0) || (bool_decide (b_base b = None) && (sl =? 1)))
  end.

(** Run the passes one after the other, up to the first error; [err] is what
    the last one returned. *)
Fixpoint run_passes (ps : list (btf_dedup -> option (Z * btf_dedup))) (err : Z) (d : btf_dedup)
    : option (Z * btf_dedup) :=
  match ps with
  | [] => Some (err, d)
  | p :: ps => '(err, d) ← p d; if err <? 0 then Some (err, d) else run_passes ps err d
  end.

(** [btf__dedup]: the result, the object and the .BTF.ext data. *)
Definition btf__dedup (b : bobj) (deduped : bool) (ext : option btf_ext)
    : option (Z * bobj * option btf_ext) :=
  r ← btf_dedup_new b deduped ext;
  match r with
  | inl _ => Some (- EINVAL, b, ext)
  | inr d =>
      none ← no_strs b;
      '(err, b) ← btf_ensure_modifiable alloc_ok b;
      if negb (err =? 0) then Some (- ENOMEM, b, ext) else
      '(err, d) ← btf_dedup_prep
        {| d_btf := b; strs_deduped := deduped || none; d_ext := ext;
           dedup_table := dedup_table d; d_map := d_map d; d_hypot := d_hypot d;
           strs_set := strs_set d |};
      if negb (err =? 0) then Some (err, d_btf d, d_ext d) else
      '(err, d) ← run_passes
        [btf_dedup_strings; btf_dedup_prim_types; btf_dedup_struct_types;
         btf_dedup_ref_types; btf_dedup_compact_types; btf_dedup_remap_types] err d;
      Some (err, d_btf d, d_ext d)
  end.
End Passes.
