(* ===== verification/TypeGraph.v ===== *)
(** * Graphs of types

    What a BTF object says, apart from where its types and strings are
    stored: each id has a list of cells, which are numbers, names or
    references to other ids.  Two ids are equivalent when they describe the
    same C type, as far as both describe it: a forward declaration is
    equivalent to the struct or union it may stand for, and so is an enum
    without enumerators.

    Equivalence is the largest relation of its kind; [equiv] states it as the
    existence of a simulation. *)

From S2P Require Import Prelude Btf BtfBuild BtfVisit.

Inductive cell :=
  | CNum (z : Z)
  | CName (s : list Z)
  | CRef (id : Z).

(** The first cells of a type are its name, its info word and its size or
    the type it refers to. *)
Definition graph : Type := Z -> option (list cell).

Inductive cell_rel (R : Z -> Z -> Prop) : cell -> cell -> Prop :=
  | rel_num z : cell_rel R (CNum z) (CNum z)
  | rel_name s : cell_rel R (CName s) (CName s)
  | rel_ref i j : R i j -> cell_rel R (CRef i) (CRef j).

Definition fwd_kind_of (info : Z) : kind :=
  if BTF_INFO_KFLAG info =? 0 then KIND_STRUCT else KIND_UNION.

Definition is_enum_kind (k : kind) : Prop := k = KIND_ENUM \/ k = KIND_ENUM64.

(** The info word without the number of members. *)
Definition no_vlen (info : Z) : Z := Z.land info 4294901760.

(** An incomplete type, and a type it may stand for: one with its name and
    of its kind. *)
Inductive decl : list cell -> list cell -> Prop :=
  | decl_fwd n i r i' r' :
      kind_of (BTF_INFO_KIND i) = KIND_FWD ->
      kind_of (BTF_INFO_KIND i') = fwd_kind_of i \/
        kind_of (BTF_INFO_KIND i') = KIND_FWD /\ fwd_kind_of i' = fwd_kind_of i ->
      decl (CName n :: CNum i :: r) (CName n :: CNum i' :: r')
  | decl_enum n i s r i' r' :
      is_enum_kind (kind_of (BTF_INFO_KIND i)) -> BTF_INFO_VLEN i = 0 ->
      kind_of (BTF_INFO_KIND i') = kind_of (BTF_INFO_KIND i) -> no_vlen i' = no_vlen i ->
      decl (CName n :: CNum i :: CNum s :: r) (CName n :: CNum i' :: CNum s :: r').

(** A declaration that may not be the whole type. *)
Inductive incomplete : list cell -> Prop :=
  | inc_fwd n i r : kind_of (BTF_INFO_KIND i) = KIND_FWD -> incomplete (CName n :: CNum i :: r)
  | inc_enum n i r : is_enum_kind (kind_of (BTF_INFO_KIND i)) -> BTF_INFO_VLEN i = 0 ->
      incomplete (CName n :: CNum i :: r).

Definition matches (R : Z -> Z -> Prop) (v w : list cell) : Prop :=
  Forall2 (cell_rel R) v w \/ decl v w \/ decl w v.

(** Related ids have matching cells. *)
Definition simulation (g g' : graph) (R : Z -> Z -> Prop) : Prop :=
  forall x y, R x y -> exists v w, g x = Some v /\ g' y = Some w /\ matches R v w.

Definition equiv (g : graph) (x y : Z) : Prop := exists R, simulation g g R /\ R x y.

(** A type that is more than a declaration. *)
Definition whole (g : graph) (x : Z) : Prop := exists v, g x = Some v /\ ~ incomplete v.

(** [y] may take the place of [x]: it describes the same, and is not just a
    declaration of it. *)
Definition replaces (g : graph) (x y : Z) : Prop := equiv g x y /\ (whole g x -> whole g y).

(** Every reference leads to a type. *)
Definition closed (g : graph) : Prop :=
  forall x v i, g x = Some v -> CRef i ∈ v -> is_Some (g i).

(** The complete types one declaration may stand for are all equivalent. *)
Definition one_definition (g : graph) : Prop :=
  forall f s s' vf vs vs', g f = Some vf -> g s = Some vs -> g s' = Some vs' ->
    decl vf vs -> decl vf vs' -> ~ incomplete vs -> ~ incomplete vs' -> equiv g s s'.

(** ** Equivalence is an equivalence *)

Lemma cell_rel_mono (R R' : Z -> Z -> Prop) c d :
  (forall i j, R i j -> R' i j) -> cell_rel R c d -> cell_rel R' c d.
Proof. intros H []; constructor. by apply H. Qed.

Lemma matches_mono (R R' : Z -> Z -> Prop) v w :
  (forall i j, R i j -> R' i j) -> matches R v w -> matches R' v w.
Proof.
  intros H [Hf|Hd]; [left|by right]. eapply Forall2_impl; [done|]. intros. by eapply cell_rel_mono.
Qed.

Lemma matches_sym (R : Z -> Z -> Prop) v w :
  matches R v w -> matches (fun i j => R j i) w v.
Proof.
  intros [Hf|[Hd|Hd]]; [left|right; by right|right; by left].
  apply Forall2_flip. eapply Forall2_impl; [done|]. intros c d []; constructor. done.
Qed.

Lemma equiv_simulation g : simulation g g (equiv g).
Proof.
  intros x y (R & Hs & HR). destruct (Hs x y HR) as (v & w & Hv & Hw & Hm). exists v, w.
  split_and!; [done..|]. eapply matches_mono; [|done]. intros i j Hij. by exists R.
Qed.

Lemma equiv_sym g x y : equiv g x y -> equiv g y x.
Proof.
  intros (R & Hs & HR). exists (fun i j => R j i). split; [|done]. intros i j Hij.
  destruct (Hs j i Hij) as (v & w & Hv & Hw & Hm). exists w, v. split_and!; [done..|].
  by apply matches_sym.
Qed.

Lemma full_refl (R : Z -> Z -> Prop) v :
  (forall i, CRef i ∈ v -> R i i) -> Forall2 (cell_rel R) v v.
Proof.
  intros H. apply Forall_Forall2_diag, Forall_forall. intros [z|s|i] Hc; constructor. by apply H.
Qed.

Lemma equiv_refl g x : closed g -> is_Some (g x) -> equiv g x x.
Proof.
  intros Hc Hx. exists (fun i j => i = j /\ is_Some (g i)). split; [|done].
  intros i j [<- [v Hv]]. exists v, v. split_and!; [done..|]. left. apply full_refl.
  intros k Hk. split; [done|]. by eapply Hc.
Qed.

Lemma equiv_defined g x y : equiv g x y -> is_Some (g x) /\ is_Some (g y).
Proof. intros H. destruct (equiv_simulation g x y H) as (v & w & -> & -> & _). by split. Qed.

(** *** Declarations along full matches *)

Lemma full_cons_inv (R : Z -> Z -> Prop) c v w :
  Forall2 (cell_rel R) (c :: v) w -> exists d w', w = d :: w' /\ cell_rel R c d /\ Forall2 (cell_rel R) v w'.
Proof. intros H. inversion H; subst. by eexists _, _. Qed.

Lemma cell_rel_num_l R z d : cell_rel R (CNum z) d -> d = CNum z.
Proof. by inversion 1. Qed.
Lemma cell_rel_name_l R s d : cell_rel R (CName s) d -> d = CName s.
Proof. by inversion 1. Qed.

Ltac cell_inv :=
  repeat match goal with
  | H : Forall2 (cell_rel _) (_ :: _) _ |- _ =>
      apply full_cons_inv in H as (? & ? & -> & ? & ?)
  | H : cell_rel _ (CNum _) _ |- _ => apply cell_rel_num_l in H as ->
  | H : cell_rel _ (CName _) _ |- _ => apply cell_rel_name_l in H as ->
  end.

Lemma decl_full_l (R : Z -> Z -> Prop) v v' w : Forall2 (cell_rel R) v v' -> decl v w -> decl v' w.
Proof. intros Hf Hd. revert Hf. destruct Hd; intros Hf; cell_inv; by econstructor. Qed.

Lemma decl_full_r (R : Z -> Z -> Prop) v w w' : Forall2 (cell_rel R) w w' -> decl v w -> decl v w'.
Proof. intros Hf Hd. revert Hf. destruct Hd; intros Hf; cell_inv; by econstructor. Qed.

Lemma full_sym (R : Z -> Z -> Prop) v w :
  Forall2 (cell_rel R) v w -> Forall2 (cell_rel (fun i j => R j i)) w v.
Proof.
  intros Hf. apply Forall2_flip. eapply Forall2_impl; [done|]. intros c d []; constructor. done.
Qed.

Ltac kind_clash :=
  exfalso; unfold is_enum_kind, fwd_kind_of in *;
  repeat match goal with
  | H : context [if ?b then _ else _] |- _ => destruct b
  | H : _ \/ _ |- _ => destruct H
  | H : _ /\ _ |- _ => destruct H
  end; congruence.

(** A declaration of a declaration. *)
Lemma decl_trans v w u : decl v w -> decl w u -> decl v u.
Proof.
  intros H1 H2. destruct H1 as [n i r i' r' Hi Hi'|n i s r i' r' Hi Hv Hk Hm]; inversion H2; subst.
  - destruct Hi' as [Hi'|[_ Hi']]; [kind_clash|]. apply decl_fwd; [done|]. by rewrite <- Hi'.
  - kind_clash.
  - kind_clash.
  - apply decl_enum; [done..|congruence|congruence].
Qed.

(** Two declarations that may stand for the same type. *)
Lemma decl_join v w u : decl v w -> decl u w -> decl v u \/ decl u v.
Proof.
  intros H1 H2. destruct H1 as [n i r i' r' Hi Hi'|n i s r i' r' Hi Hv Hk Hm]; inversion H2; subst.
  - left. apply decl_fwd; [done|]. right. split; [done|].
    destruct Hi' as [Hi'|[Hi' Hf]]; match goal with H : _ \/ _ |- _ => destruct H as [Hj|[Hj Hg]] end;
      (congruence || kind_clash).
  - kind_clash.
  - kind_clash.
  - left. apply decl_enum; [done..|congruence|congruence].
Qed.

(** Two types one declaration may stand for. *)
Lemma decl_fork w v u : decl w v -> decl w u -> incomplete v -> decl v u.
Proof.
  intros H1 H2 Hv. destruct H1 as [n i r i' r' Hi Hi'|n i s r i' r' Hi Hl Hk Hm]; inversion H2; subst.
  - assert (Hf : kind_of (BTF_INFO_KIND i') = KIND_FWD /\ fwd_kind_of i' = fwd_kind_of i).
    { destruct Hi' as [Hi'|?]; [|done]. inversion Hv; subst; kind_clash. }
    destruct Hf as [Hf1 Hf2]. apply decl_fwd; [done|]. by rewrite Hf2.
  - kind_clash.
  - kind_clash.
  - assert (BTF_INFO_VLEN i' = 0) by (inversion Hv; subst; [kind_clash|done]).
    apply decl_enum; [by rewrite Hk|done|congruence|congruence].
Qed.

Lemma incomplete_dec v : incomplete v \/ ~ incomplete v.
Proof.
  destruct v as [|[z|n|i] [|[z2|n2|i2] r]]; try (right; by inversion 1).
  destruct (decide (kind_of (BTF_INFO_KIND z2) = KIND_FWD)); [left; by constructor|].
  destruct (decide (kind_of (BTF_INFO_KIND z2) = KIND_ENUM \/ kind_of (BTF_INFO_KIND z2) = KIND_ENUM64));
    [|right; by inversion 1].
  destruct (decide (BTF_INFO_VLEN z2 = 0)); [left; by apply inc_enum|right; by inversion 1].
Qed.

Lemma full_compose (R S : Z -> Z -> Prop) v w u :
  Forall2 (cell_rel R) v w -> Forall2 (cell_rel S) w u ->
  Forall2 (cell_rel (fun x z => exists y, R x y /\ S y z)) v u.
Proof.
  intros H. revert u. induction H as [|c d v w Hc _ IH]; intros u Hu; inversion Hu; subst; constructor.
  - inversion Hc; subst; match goal with H : cell_rel S _ _ |- _ => inversion H; subst end;
      constructor. by eexists.
  - by apply IH.
Qed.

(** With one definition per declaration, matching along a middle: the outer
    types are equivalent at once, or they match. *)
Lemma matches_compose g (R S : Z -> Z -> Prop) x y z v w u :
  one_definition g -> g x = Some v -> g y = Some w -> g z = Some u ->
  matches R v w -> matches S w u ->
  equiv g x z \/ matches (fun x z => exists y, R x y /\ S y z) v u.
Proof.
  intros Ho Hx Hy Hz [H1|[H1|H1]] [H2|[H2|H2]].
  - right. left. by eapply full_compose.
  - right. right. left. eapply decl_full_l; [|done]. by apply full_sym.
  - right. right. right. eapply decl_full_r; [|done]. by apply full_sym.
  - right. right. left. by eapply decl_full_r.
  - right. right. left. by eapply decl_trans.
  - right. right. destruct (decl_join _ _ _ H1 H2); [by left|by right].
  - right. right. right. by eapply decl_full_l.
  - destruct (incomplete_dec v) as [Hv|Hv]; [right; right; left; by eapply decl_fork|].
    destruct (incomplete_dec u) as [Hu|Hu]; [right; right; right; by eapply decl_fork|].
    left. by eapply (Ho y x z).
  - right. right. right. by eapply decl_trans.
Qed.

Section Equivalence.
Context (g : graph) (Hclosed : closed g) (Hone : one_definition g).

Lemma equiv_trans x y z : equiv g x y -> equiv g y z -> equiv g x z.
Proof.
  intros Hxy Hyz. exists (fun x z => exists y, equiv g x y /\ equiv g y z).
  split; [|by exists y]. clear x y z Hxy Hyz. intros x z (y & Hxy & Hyz).
  destruct (equiv_simulation g x y Hxy) as (v & w & Hx & Hy & Hm).
  destruct (equiv_simulation g y z Hyz) as (w' & u & Hy' & Hz & Hm'). simplify_eq.
  exists v, u. split_and!; [done..|].
  destruct (matches_compose g _ _ x y z v w u Hone Hx Hy Hz Hm Hm') as [He|?]; [|done].
  destruct (equiv_simulation g x z He) as (v' & u' & Hx' & Hz' & Hmm). simplify_eq.
  eapply matches_mono; [|done]. intros i j Hij. exists j. split; [done|].
  apply equiv_refl; [done|]. apply (equiv_defined g i j Hij).
Qed.

(** To prove types equivalent, it is enough to follow a relation whose
    references are related up to equivalence. *)

(** The relation to follow: its pairs match, with references related up to
    equivalence. *)
Definition follows (R : Z -> Z -> Prop) : Prop := forall a b, R a b ->
  exists v w, g a = Some v /\ g b = Some w /\
    matches (fun i j => exists i' j', equiv g i i' /\ (R i' j' \/ i' = j') /\ equiv g j' j) v w.

Lemma follows_equiv (R : Z -> Z -> Prop) : follows R -> forall x y, R x y -> equiv g x y.
Proof.
  intros Hf x y HR.
  set (T := fun x y => exists a b, equiv g x a /\ (R a b \/ a = b) /\ equiv g b y).
  assert (Hle : forall i j, equiv g i j -> T i j).
  { intros i j Hij. exists j, j. split_and!; [done|by right|].
    apply equiv_refl; [done|]. apply (equiv_defined g i j Hij). }
  assert (HT : simulation g g T).
  { intros x1 y1 (a & b & Hxa & Hab & Hby).
    destruct (equiv_simulation g x1 a Hxa) as (v & w & Hx & Ha & Hm).
    destruct (equiv_simulation g b y1 Hby) as (w' & u & Hb & Hy & Hm').
    exists v, u. split_and!; [done..|].
    assert (Heq : equiv g x1 y1 -> matches T v u).
    { intros He. destruct (equiv_simulation g x1 y1 He) as (v' & u' & ? & ? & ?). simplify_eq.
      by eapply matches_mono. }
    destruct Hab as [HRab|<-].
    2: { apply Heq. by eapply equiv_trans. }
    destruct (Hf a b HRab) as (va & vb & Ha' & Hb' & Hm1). simplify_eq.
    destruct Hm1 as [Hfull|Hdecl].
    - destruct (matches_compose g _ _ x1 a b v w w' Hone Hx Ha Hb Hm (or_introl Hfull)) as [He|Hc].
      + apply Heq. by eapply equiv_trans.
      + destruct (matches_compose g _ _ x1 b y1 v w' u Hone Hx Hb Hy Hc Hm') as [He|Hc']; [by apply Heq|].
        eapply matches_mono; [|exact Hc']. intros i j (k & (l & Hil & i' & j' & H1 & H2 & H3) & Hkj).
        exists i', j'. split_and!; [by eapply equiv_trans|done|by eapply equiv_trans].
    - assert (Hab : equiv g a b).
      { exists (fun i j => i = a /\ j = b \/ equiv g i j). split; [|by left].
        intros i j [[-> ->]|Hij].
        - exists w, w'. split_and!; [done..|by right].
        - destruct (equiv_simulation g i j Hij) as (? & ? & ? & ? & ?). eexists _, _.
          split_and!; [done..|]. eapply matches_mono; [|done]. intros. by right. }
      apply Heq. eapply equiv_trans; [done|]. by eapply equiv_trans. }
  exists T. split; [done|]. destruct (Hf x y HR) as (v & w & Hx & Hy & _).
  exists x, y. split_and!; [by apply equiv_refl|by left|by apply equiv_refl].
Qed.
End Equivalence.

(** ** Taking the place of a type *)

Lemma replaces_equiv g x y : replaces g x y -> equiv g x y.
Proof. by intros [H _]. Qed.

Lemma replaces_refl g x : closed g -> is_Some (g x) -> replaces g x x.
Proof. intros Hc Hx. split; [by apply equiv_refl|done]. Qed.

Lemma replaces_trans g x y z : closed g -> one_definition g -> replaces g x y -> replaces g y z -> replaces g x z.
Proof. intros Hc Ho [H1 W1] [H2 W2]. split; [by eapply equiv_trans|auto]. Qed.

Lemma incomplete_decl v w : decl v w -> incomplete v.
Proof. by destruct 1; [apply inc_fwd|apply inc_enum]. Qed.

Lemma incomplete_full (R : Z -> Z -> Prop) v w : Forall2 (cell_rel R) v w -> incomplete w -> incomplete v.
Proof.
  intros Hf%full_sym Hi. revert Hf. destruct Hi; intros Hf; cell_inv; by constructor.
Qed.

(** Of two whole types that match neither is a declaration of the other. *)
Lemma whole_matches (R : Z -> Z -> Prop) v w : ~ incomplete v -> ~ incomplete w -> matches R v w ->
  Forall2 (cell_rel R) v w.
Proof. intros Hv Hw [Hf|[Hd%incomplete_decl|Hd%incomplete_decl]]; done. Qed.

(** ** Graphs with the same cells *)

Lemma equiv_ext g g' x y : (forall i, g i = g' i) -> equiv g x y -> equiv g' x y.
Proof.
  intros He (R & Hs & HR). exists R. split; [|done]. intros a b Hab. rewrite <- !He. by apply Hs.
Qed.

Lemma one_definition_ext g g' : (forall i, g i = g' i) -> one_definition g -> one_definition g'.
Proof.
  intros He H f s s' vf vs vs' Hf Hs Hs' D D' I I'. rewrite <- He in Hf, Hs, Hs'.
  apply (equiv_ext g g'); [done|]. by apply (H f s s' vf vs vs').
Qed.

(** Matching, and then matching in full. *)
Lemma matches_full (R S : Z -> Z -> Prop) v w u : matches R v w -> Forall2 (cell_rel S) w u ->
  matches (fun x z => exists y, R x y /\ S y z) v u.
Proof.
  intros [Hf|[Hd|Hd]] Hs; [left; by eapply full_compose|right; left; by eapply decl_full_r|right; right; by eapply decl_full_l].
Qed.
