(* ===== verification/DedupTypes.v ===== *)
(** * BTF deduplication: types as words, comparing and resolving

    The representation the proofs about [Dedup] use: the type section is the
    list [wss] of the records' words.  Reading and writing a word of a type,
    the comparisons and hashes as functions of the words, what two types the
    comparisons call equal have in common, and the forest of [map]. *)

From S2P Require Import Prelude Hashmap StrSet Btf BtfBuild BtfVisit BtfExt Dedup TypeGraph.

(** ** Records *)

(** The info word of a record. *)
Definition winfo (ws : list Z) : Z := nth 1 ws 0.
Definition wkind (ws : list Z) : kind := kind_of (BTF_INFO_KIND (winfo ws)).
Definition wvlen (ws : list Z) : Z := BTF_INFO_VLEN (winfo ws).

Definition rec_wf (ws : list Z) : Prop :=
  Forall word_ok ws /\ 3 <= Z.of_nat (length ws) /\ size_of_info (winfo ws) = 4 * Z.of_nat (length ws).

Definition void_words : list Z := [0; 0; 0].

(** The record of an id. *)
Definition rec_of (wss : list (list Z)) (id : Z) : option (list Z) :=
  if id =? 0 then Some void_words else aref wss (id - 1).

(** The split object that holds the records [wss]. *)
Record trep (b : bobj) (wss : list (list Z)) : Prop := {
  tr_rep : exists h slack cap set, b_rep b = RSplit h (types_bytes wss ++ slack) cap set;
  tr_base : b_base b = None;
  tr_start : b_start_id b = 1;
  tr_nr : b_nr b = Z.of_nat (length wss);
  tr_index : index_ok (b_offs b) (b_offs_cap b) (b_nr b) (offsets 0 (map bytes_of wss));
  tr_recs : Forall rec_wf wss;
  tr_size : types_len wss <= UINT32_MAX;
}.

Lemma rec_of_own wss id ws :
  rec_of wss id = Some ws -> id <> 0 -> 1 <= id <= Z.of_nat (length wss) /\ wss !! Z.to_nat (id - 1) = Some ws.
Proof.
  unfold rec_of. destruct (Z.eqb_spec id 0); [done|]. intros H _.
  pose proof (aref_bounds _ _ _ H). split; [lia|]. unfold aref in H. by destruct (_ <? 0).
Qed.

Lemma rec_of_Some wss id : 0 <= id <= Z.of_nat (length wss) -> is_Some (rec_of wss id).
Proof.
  intros H. unfold rec_of. destruct (Z.eqb_spec id 0); [done|]. apply aref_Some. lia.
Qed.

Lemma rec_of_range wss id ws : rec_of wss id = Some ws -> 0 <= id <= Z.of_nat (length wss).
Proof.
  intros H. destruct (Z.eqb_spec id 0) as [->|]; [lia|]. pose proof (rec_of_own _ _ _ H ltac:(done)). lia.
Qed.

Lemma types_split wss i ws : wss !! i = Some ws ->
  types_bytes wss = types_bytes (take i wss) ++ bytes_of ws ++ types_bytes (drop (S i) wss).
Proof.
  intros H. rewrite <- (take_drop_middle _ _ _ H) at 1. by rewrite types_bytes_app.
Qed.

Lemma aref_lookup {A} (l : list A) j x : aref l j = Some x -> 0 <= j /\ l !! Z.to_nat j = Some x.
Proof. unfold aref. destruct (Z.ltb_spec j 0); [done|]. by split. Qed.

Section Access.
Context (b : bobj) (wss : list (list Z)) (Hb : trep b wss).

Lemma wss_small : Z.of_nat (length wss) <= 2 ^ 29.
Proof. destruct Hb as [_ _ _ Hn [_ _ _ Hs _ _] _ _]. lia. Qed.

(** Where a record is. *)
Lemma own_type_at i ws : wss !! i = Some ws ->
  exists m post, own_type b (Z.of_nat i + 1) = Some (m, types_len (take i wss)) /\
    m = types_bytes (take i wss) ++ bytes_of ws ++ post /\ (types_at b).1 = m.
Proof.
  intros Hi. destruct Hb as [(h & slack & cap & set & Hr) _ Hst Hn [_ _ _ Hs _ Hg] _ _].
  pose proof (lookup_lt_Some _ _ _ Hi) as Hlt. unfold own_type, types_at. rewrite Hst, Hr.
  rewrite (wrap_small 32) by (pow2; lia). replace (Z.of_nat i + 1 - 1) with (Z.of_nat i) by lia.
  rewrite length_offsets, length_map in Hg. rewrite Hg by done.
  destruct (offsets_lookup (map bytes_of wss) 0 i) as (r & _ & Ho & _); [by rewrite length_map|].
  rewrite Ho. cbn [mbind option_bind fst snd].
  exists (types_bytes wss ++ slack), (types_bytes (drop (S i) wss) ++ slack). split_and!.
  - by rewrite firstn_map.
  - by rewrite (types_split _ _ _ Hi), <- !app_assoc.
  - done.
Qed.

Lemma type_by_id_at id ws : rec_of wss id = Some ws -> id <> 0 ->
  exists m post, b_type_by_id b id = Some (TAt m (types_len (take (Z.to_nat (id - 1)) wss))) /\
    m = types_bytes (take (Z.to_nat (id - 1)) wss) ++ bytes_of ws ++ post /\ (types_at b).1 = m.
Proof.
  intros H H0. destruct (rec_of_own _ _ _ H H0) as [Hid Hi].
  destruct (own_type_at _ _ Hi) as (m & post & Ho & Hm & Ht). exists m, post. split; [|done].
  replace (Z.of_nat (Z.to_nat (id - 1)) + 1) with id in Ho by lia.
  assert (E : b_type_by_id b id = '(m, o) ← own_type b id; Some (TAt m o)).
  { destruct Hb as [_ _ Hst _ _ _ _]. destruct b as [rep raw offs cap nr base st so]. cbn in *. subst st.
    destruct (Z.eqb_spec id 0); [done|]. by destruct (Z.ltb_spec id 1); [lia|]. }
  rewrite E, Ho. done.
Qed.

Lemma rec_of_wf id ws : rec_of wss id = Some ws -> id <> 0 -> rec_wf ws.
Proof.
  intros H H0. destruct (rec_of_own _ _ _ H H0) as [_ Hi]. destruct Hb as [_ _ _ _ _ Hf _].
  by eapply Forall_lookup_1 in Hf.
Qed.

Lemma type_cnt_words : b_type_cnt b = Z.of_nat (length wss) + 1.
Proof.
  pose proof wss_small. destruct Hb as [_ _ Hst Hn _ _ _]. unfold b_type_cnt.
  rewrite Hst, Hn, wrap_small by (pow2; lia). lia.
Qed.

Lemma type_by_id_word id ws : rec_of wss id = Some ws ->
  exists t, b_type_by_id b id = Some t /\ b__type_by_id b id = Some (Some t) /\
    forall j w, aref ws j = Some w -> word_at t j = Some w.
Proof.
  intros H. pose proof (rec_of_range _ _ _ H) as Hr.
  assert (Hge : (id >=? b_type_cnt b) = false) by (rewrite type_cnt_words; destruct (Z.geb_spec id (Z.of_nat (length wss) + 1)); lia).
  unfold b__type_by_id. rewrite Hge. destruct (Z.eqb_spec id 0) as [->|Hid].
  - exists TVoid. unfold rec_of in H. simpl in H. injection H as <-.
    assert (E : b_type_by_id b 0 = Some TVoid) by (by destruct b). rewrite E. split_and!; [done..|].
    intros j w Hj. pose proof (aref_bounds _ _ _ Hj) as Hb'. simpl in Hb'.
    apply aref_lookup in Hj as [_ Hj].
    cbn [word_at]. destruct (Z.leb_spec 0 j), (Z.ltb_spec j 3); try lia. cbn [andb].
    unfold void_words in Hj. by destruct (Z.to_nat j) as [|[|[|k]]]; cbn in Hj; simplify_eq.
  - destruct (type_by_id_at _ _ H Hid) as (m & post & -> & Hm & _). eexists. split_and!; [done..|].
    intros j w Hj. cbn [word_at]. pose proof (rec_of_wf _ _ H Hid) as [Hw _].
    apply aref_lookup in Hj as [Hj0 Hj]. rewrite Hm. eapply ld32_word; [done| |unfold types_len; lia].
    by eapply Forall_lookup_1 in Hw.
Qed.

Lemma type_word_spec id ws j w : rec_of wss id = Some ws -> aref ws j = Some w -> type_word b id j = Some w.
Proof.
  intros H Hj. destruct (type_by_id_word _ _ H) as (t & Ht & _ & Hw). unfold type_word. rewrite Ht.
  cbn [mbind option_bind]. by apply Hw.
Qed.

Lemma rec_len3 id ws : rec_of wss id = Some ws -> 3 <= Z.of_nat (length ws).
Proof.
  intros H. destruct (Z.eqb_spec id 0) as [->|Hid]; [by injection H as <-|].
  by destruct (rec_of_wf _ _ H Hid) as (_ & ? & _).
Qed.

Lemma aref_head id ws j : rec_of wss id = Some ws -> 0 <= j < 3 -> aref ws j = Some (nth (Z.to_nat j) ws 0).
Proof.
  intros H Hj. pose proof (rec_len3 _ _ H). destruct (aref_Some ws j) as [w Hw]; [lia|]. rewrite Hw.
  apply aref_lookup in Hw as [_ Hw]. f_equal. symmetry. by apply nth_lookup_Some.
Qed.

Lemma info_of_spec id ws : rec_of wss id = Some ws -> info_of b id = Some (winfo ws).
Proof. intros H. eapply type_word_spec; [done|]. apply (aref_head _ _ 1 H). lia. Qed.

Lemma b_kind_spec id ws : rec_of wss id = Some ws -> b_kind b id = Some (wkind ws).
Proof. intros H. unfold b_kind. by rewrite (info_of_spec _ _ H). Qed.

Lemma kind_in_spec id ws ks : rec_of wss id = Some ws -> kind_in b id ks = Some (bool_decide (wkind ws ∈ ks)).
Proof. intros H. unfold kind_in. by rewrite (b_kind_spec _ _ H). Qed.

Lemma is_fwd_spec id ws : rec_of wss id = Some ws -> is_fwd b id = Some (bool_decide (wkind ws = KIND_FWD)).
Proof.
  intros H. destruct (type_by_id_word _ _ H) as (t & _ & Ht & Hw). unfold is_fwd. rewrite Ht.
  cbn [mbind option_bind]. by rewrite (Hw 1 _ (aref_head _ _ 1 H ltac:(lia))).
Qed.
End Access.

(** ** Writing a word *)

(** Nothing but the content of the type section differs. *)
Definition frame (b b' : bobj) : Prop :=
  (exists h t cap set t', b_rep b = RSplit h t cap set /\ b_rep b' = RSplit h t' cap set /\
     length t' = length t) /\
  b_raw b' = b_raw b /\ b_offs b' = b_offs b /\ b_offs_cap b' = b_offs_cap b /\ b_nr b' = b_nr b /\
  b_base b' = b_base b /\ b_start_id b' = b_start_id b /\ b_start_str_off b' = b_start_str_off b.

Lemma frame_refl b wss : trep b wss -> frame b b.
Proof. intros [(h & s & c & t & Hr) _ _ _ _ _ _]. split; [|done]. by eexists _, _, _, _, _. Qed.

Lemma frame_trans b b' b'' : frame b b' -> frame b' b'' -> frame b b''.
Proof.
  intros [(h & t & c & s & t' & H1 & H2 & H3) H] [(h' & t1 & c' & s' & t1' & H1' & H2' & H3') H'].
  rewrite H2 in H1'. injection H1' as <- <- <- <-. split.
  - exists h, t, c, s, t1'. split_and!; [done|done|congruence].
  - destruct H as (-> & -> & -> & -> & -> & -> & ->) in H'. done.
Qed.

Lemma offsets_lens o l l' : map length l = map length l' -> offsets o l = offsets o l'.
Proof.
  revert o l'. induction l as [|r l IH]; intros o [|r' l'] H; [done..|]. injection H as Hr Hl. simpl.
  by rewrite Hr, (IH _ _ Hl).
Qed.

Lemma lens_insert (wss : list (list Z)) i ws ws' : wss !! i = Some ws -> length ws' = length ws ->
  map length (map bytes_of (<[i := ws']> wss)) = map length (map bytes_of wss).
Proof.
  intros Hi Hl. rewrite !map_map. change (@map (list Z) nat) with (@fmap list list_fmap (list Z) nat).
  rewrite list_fmap_insert. apply list_insert_id. rewrite list_lookup_fmap, Hi. cbn. f_equal.
  by rewrite !bytes_of_length, Hl.
Qed.

Lemma types_len_lens wss wss' :
  map length (map bytes_of wss) = map length (map bytes_of wss') -> types_len wss = types_len wss'.
Proof.
  intros H. unfold types_len, types_bytes. f_equal. revert wss' H.
  induction wss as [|ws wss IH]; intros [|ws' wss'] H; [done..|]. injection H as H1 H2. simpl.
  rewrite !length_app, H1. f_equal. by apply IH.
Qed.

Lemma winfo_insert ws j v : j <> 1%nat -> winfo (<[j := v]> ws) = winfo ws.
Proof.
  intros Hj. unfold winfo. destruct ws as [|a [|c ws]]; destruct j as [|[|j]]; done || lia.
Qed.

Lemma set_type_word_spec b wss id ws j v :
  trep b wss -> rec_of wss id = Some ws -> id <> 0 -> 0 <= j < Z.of_nat (length ws) -> j <> 1 ->
  word_ok v ->
  exists b', set_type_word b id j v = Some b' /\ frame b b' /\
    trep b' (<[Z.to_nat (id - 1) := <[Z.to_nat j := v]> ws]> wss).
Proof.
  intros Hb H H0 Hj Hj1 Hv. destruct (rec_of_own _ _ _ H H0) as [Hid Hi].
  destruct (own_type_at b wss Hb _ _ Hi) as (m & post & Ho & Hm & Ht).
  replace (Z.of_nat (Z.to_nat (id - 1)) + 1) with id in Ho by lia.
  assert (Hst : st32 m (types_len (take (Z.to_nat (id - 1)) wss) + 4 * j) v =
    Some (types_bytes (take (Z.to_nat (id - 1)) wss) ++ bytes_of (<[Z.to_nat j := v]> ws) ++ post)).
  { rewrite Hm. apply st32_word; [lia|unfold types_len; lia]. }
  pose proof Hb as [(h & slack & cap & set & Hr) Hbase Hstart Hn Hix Hf Hsz].
  set (ws' := <[Z.to_nat j := v]> ws) in *.
  assert (Hl : length ws' = length ws) by apply length_insert.
  assert (Hpost : post = types_bytes (drop (S (Z.to_nat (id - 1))) wss) ++ slack).
  { rewrite (types_split _ _ _ Hi) in Hr. unfold types_at in Ht. rewrite Hr in Ht. cbn in Ht.
    rewrite <- Ht, <- !app_assoc in Hm. apply app_inv_head in Hm. by apply app_inv_head in Hm. }
  assert (E : set_type_word b id j v = Some
    {| b_rep := RSplit h (types_bytes (<[Z.to_nat (id - 1) := ws']> wss) ++ slack) cap set;
       b_raw := b_raw b; b_offs := b_offs b; b_offs_cap := b_offs_cap b; b_nr := b_nr b;
       b_base := b_base b; b_start_id := b_start_id b; b_start_str_off := b_start_str_off b |}).
  { assert (E0 : set_type_word b id j v =
      '(m, o) ← own_type b id; m ← st32 m (o + 4 * j) v;
      Some match b_rep b with
         | RContig _ types strs =>
             {| b_rep := RContig m types strs; b_raw := b_raw b; b_offs := b_offs b;
                b_offs_cap := b_offs_cap b; b_nr := b_nr b; b_base := b_base b;
                b_start_id := b_start_id b; b_start_str_off := b_start_str_off b |}
         | RSplit h _ cap set =>
             {| b_rep := RSplit h m cap set; b_raw := b_raw b; b_offs := b_offs b;
                b_offs_cap := b_offs_cap b; b_nr := b_nr b; b_base := b_base b;
                b_start_id := b_start_id b; b_start_str_off := b_start_str_off b |}
         end).
    { destruct b as [rep raw offs cp nr base st so]. cbn in Hstart. subst st. cbn [set_type_word b_start_id].
      destruct (Z.eqb_spec id 0); [done|]. by destruct (Z.ltb_spec id 1); [lia|]. }
    rewrite E0, Ho. cbn [mbind option_bind]. rewrite Hst. cbn [mbind option_bind]. rewrite Hr. do 3 f_equal.
    rewrite Hpost, (types_split (<[Z.to_nat (id - 1) := ws']> wss) (Z.to_nat (id - 1)) ws')
      by (apply list_lookup_insert_eq; lia).
    by rewrite take_insert_ge, drop_insert_lt, <- !app_assoc by lia. }
  rewrite E. eexists. split; [done|].
  assert (Hlens := lens_insert wss _ ws ws' Hi Hl).
  split.
  - split; [|done]. cbn. exists h, (types_bytes wss ++ slack), cap, set. eexists. split_and!; [done..|].
    rewrite !length_app. f_equal. pose proof (types_len_lens _ _ Hlens) as Hle. unfold types_len in Hle. lia.
  - split; cbn; try done.
    + by eexists _, _, _, _.
    + by rewrite length_insert.
    + by rewrite (offsets_lens 0 _ _ Hlens).
    + apply Forall_insert; [done|]. eapply Forall_lookup_1 in Hf; [|exact Hi]. destruct Hf as (Hw & H3 & Hs).
      split_and!; [by apply Forall_insert|by rewrite Hl|]. unfold ws'. rewrite winfo_insert by lia.
      by rewrite length_insert.
    + by rewrite (types_len_lens _ _ Hlens).
Qed.

(** ** Comparing *)

Definition cmp (ws1 ws2 : list Z) (js : list Z) : bool :=
  forallb (fun j => bool_decide (aref ws1 j = aref ws2 j)) js.

Lemma cmp_spec ws1 ws2 js : cmp ws1 ws2 js = true <-> forall j, j ∈ js -> aref ws1 j = aref ws2 j.
Proof.
  unfold cmp. rewrite forallb_forall. split; intros H j Hj.
  - apply (bool_decide_eq_true_1 _), H. by apply list_elem_of_In.
  - apply bool_decide_eq_true_2, H. by apply list_elem_of_In.
Qed.

Lemma cmp_app ws1 ws2 js js' : cmp ws1 ws2 (js ++ js') = cmp ws1 ws2 js && cmp ws1 ws2 js'.
Proof. apply forallb_app. Qed.

Section Compare.
Context (b : bobj) (wss : list (list Z)) (Hb : trep b wss).
Context (id1 id2 : Z) (ws1 ws2 : list Z).
Context (H1 : rec_of wss id1 = Some ws1) (H2 : rec_of wss id2 = Some ws2).

Definition in_rec (ws : list Z) (js : list Z) : Prop := forall j, j ∈ js -> 0 <= j < Z.of_nat (length ws).

Lemma equal_words_spec js : in_rec ws1 js -> in_rec ws2 js ->
  equal_words b id1 id2 js = Some (cmp ws1 ws2 js).
Proof.
  induction js as [|j js IH]; intros Hi1 Hi2; [done|]. cbn [equal_words cmp forallb].
  destruct (aref_Some ws1 j) as [w1 E1]; [by apply Hi1, list_elem_of_here|].
  destruct (aref_Some ws2 j) as [w2 E2]; [by apply Hi2, list_elem_of_here|].
  rewrite (type_word_spec _ _ Hb _ _ _ _ H1 E1), (type_word_spec _ _ Hb _ _ _ _ H2 E2), E1, E2.
  cbn [mbind option_bind]. destruct (Z.eqb_spec w1 w2) as [->|Hne].
  - rewrite bool_decide_eq_true_2 by done. apply IH; intros k Hk; [apply Hi1|apply Hi2]; by apply list_elem_of_further.
  - by rewrite bool_decide_eq_false_2 by congruence.
Qed.

Lemma equal_words_app js js' :
  equal_words b id1 id2 (js ++ js') =
    same ← equal_words b id1 id2 js; if negb same then Some false else equal_words b id1 id2 js'.
Proof.
  induction js as [|j js IH]; [done|]. cbn [equal_words app].
  destruct (type_word b id1 j) as [w1|]; [|done]. destruct (type_word b id2 j) as [w2|]; [|done].
  cbn [mbind option_bind]. by destruct (w1 =? w2).
Qed.

Lemma same_info_len : winfo ws1 = winfo ws2 -> length ws1 = length ws2.
Proof.
  intros E. destruct (Z.eqb_spec id1 0) as [Z1|N1], (Z.eqb_spec id2 0) as [Z2|N2].
  - rewrite Z1 in H1. rewrite Z2 in H2. injection H1 as <-. by injection H2 as <-.
  - rewrite Z1 in H1. injection H1 as <-. pose proof (rec_of_wf b wss Hb _ _ H2 N2) as (_ & _ & Hs).
    rewrite <- E in Hs. change (size_of_info (winfo void_words)) with (- EINVAL) in Hs. lia.
  - rewrite Z2 in H2. injection H2 as <-. pose proof (rec_of_wf b wss Hb _ _ H1 N1) as (_ & _ & Hs).
    rewrite E in Hs. change (size_of_info (winfo void_words)) with (- EINVAL) in Hs. lia.
  - pose proof (rec_of_wf b wss Hb _ _ H1 N1) as (_ & _ & Hs1).
    pose proof (rec_of_wf b wss Hb _ _ H2 N2) as (_ & _ & Hs2). rewrite E in Hs1. lia.
Qed.

Lemma cmp_info js : 1 ∈ js -> cmp ws1 ws2 js = true -> winfo ws1 = winfo ws2.
Proof.
  intros Hj Hc. pose proof (proj1 (cmp_spec _ _ _) Hc 1 Hj) as E.
  rewrite (aref_head b wss Hb _ _ 1 H1), (aref_head b wss Hb _ _ 1 H2) in E by lia. by injection E.
Qed.

Lemma in_rec_head id ws js : rec_of wss id = Some ws -> (forall j, j ∈ js -> 0 <= j < 3) -> in_rec ws js.
Proof. intros H Hj j Hin. pose proof (rec_len3 b wss Hb _ _ H). specialize (Hj j Hin). lia. Qed.

(** The words in front, among them the info word, and then words of the first
    type: when the former are equal, the second type is as long. *)
Lemma equal_guarded js js' :
  (forall j, j ∈ js -> 0 <= j < 3) -> 1 ∈ js -> in_rec ws1 js' ->
  (same ← equal_words b id1 id2 js; if negb same then Some false else equal_words b id1 id2 js')
    = Some (cmp ws1 ws2 (js ++ js')).
Proof.
  intros Hjs H1in Hin. rewrite (equal_words_spec js) by (by eapply in_rec_head). cbn [mbind option_bind].
  rewrite cmp_app. destruct (cmp ws1 ws2 js) eqn:E; cbn [negb andb]; [|done].
  apply equal_words_spec; [done|]. intros j Hj.
  rewrite <- (same_info_len (cmp_info js H1in E)). by apply Hin.
Qed.

Lemma head_words j : j ∈ [0; 1; 2] -> 0 <= j < 3.
Proof. rewrite !elem_of_cons, elem_of_nil. lia. Qed.

Lemma equal_common_spec : btf_equal_common b id1 id2 = Some (cmp ws1 ws2 [0; 1; 2]).
Proof. apply equal_words_spec; by eapply in_rec_head, head_words. Qed.

Lemma equal_rest_spec js : in_rec ws1 js ->
  equal_words b id1 id2 ([0; 1; 2] ++ js) = Some (cmp ws1 ws2 ([0; 1; 2] ++ js)).
Proof.
  intros Hin. rewrite equal_words_app. apply equal_guarded; [apply head_words|set_solver|done].
Qed.

Lemma equal_members_spec js : in_rec ws1 (js (wvlen ws1)) ->
  equal_members b id1 id2 js = Some (cmp ws1 ws2 ([0; 1; 2] ++ js (wvlen ws1))).
Proof.
  intros Hin. unfold equal_members. fold (btf_equal_common b id1 id2).
  rewrite (info_of_spec b wss Hb _ _ H1). cbn [mbind option_bind].
  apply (equal_guarded [0; 1; 2]); [apply head_words|set_solver|done].
Qed.

Lemma compat_fnproto_spec : in_rec ws1 (elem_words 2 [0] (wvlen ws1)) ->
  btf_compat_fnproto b id1 id2 = Some (cmp ws1 ws2 ([0; 1] ++ elem_words 2 [0] (wvlen ws1))).
Proof.
  intros Hin. unfold btf_compat_fnproto. rewrite (info_of_spec b wss Hb _ _ H1). cbn [mbind option_bind].
  apply (equal_guarded [0; 1]); [|set_solver|done]. intros j. rewrite !elem_of_cons, elem_of_nil. lia.
Qed.
End Compare.

(** ** Records as cells *)

Definition ref_words (info : Z) : list Z := default [] (type_id_words info).

Definition cell_of (names : Z -> list Z) (info j w : Z) : cell :=
  if bool_decide (j ∈ str_off_words info) then CName (names w)
  else if bool_decide (j ∈ ref_words info) then CRef w
  else CNum w.

Definition cells (names : Z -> list Z) (ws : list Z) : list cell :=
  imap (fun j w => cell_of names (winfo ws) (Z.of_nat j) w) ws.

(** The graph of an object; [names] are its strings. *)
Definition view (names : Z -> list Z) (wss : list (list Z)) : graph :=
  fun id => cells names <$> rec_of wss id.

Lemma elem_words_in sz fields n j :
  j ∈ elem_words sz fields n <-> exists i f, 0 <= i < n /\ f ∈ fields /\ j = 3 + sz * i + f.
Proof.
  unfold elem_words. rewrite list_elem_of_In, in_flat_map. setoid_rewrite <- list_elem_of_In.
  setoid_rewrite elem_of_seqZ. setoid_rewrite list_elem_of_fmap. split.
  - intros (i & Hi & f & -> & Hf). exists i, f. split_and!; [lia..|done|done].
  - intros (i & f & Hi & Hf & ->). exists i. split; [lia|]. by exists f.
Qed.

(** The number of words of a record by its kind. *)
Definition kind_words (k : kind) (vlen : Z) : Z :=
  match k with
  | KIND_INT | KIND_VAR | KIND_DECL_TAG => 4
  | KIND_ARRAY => 6
  | KIND_ENUM | KIND_FUNC_PROTO => 3 + 2 * vlen
  | KIND_STRUCT | KIND_UNION | KIND_ENUM64 | KIND_DATASEC => 3 + 3 * vlen
  | _ => 3
  end.

Lemma rec_length ws : rec_wf ws ->
  Z.of_nat (length ws) = kind_words (wkind ws) (wvlen ws) /\ wkind ws <> KIND_UNKN /\ wkind ws <> KIND_OTHER.
Proof.
  intros (_ & H3 & Hs). unfold size_of_info in Hs. fold (wkind ws) (wvlen ws) in Hs.
  destruct (wkind ws); simpl; (split; [lia|]); split; done || lia.
Qed.

Lemma wvlen_range ws : 0 <= wvlen ws.
Proof. unfold wvlen, BTF_INFO_VLEN. rewrite land_65535. apply Z.mod_pos_bound. lia. Qed.

(** Case analysis on hypotheses that a word is among given ones. *)
Ltac elem_inv :=
  repeat match goal with
  | H : _ \/ _ |- _ => destruct H
  | H : exists _, _ |- _ => destruct H
  | H : _ /\ _ |- _ => destruct H
  | H : False |- _ => destruct H
  | H : _ ∈ _ ++ _ |- _ => apply elem_of_app in H
  | H : _ ∈ _ :: _ |- _ => apply elem_of_cons in H
  | H : _ ∈ [] |- _ => apply not_elem_of_nil in H
  | H : _ ∈ elem_words _ _ _ |- _ => apply elem_words_in in H
  end; subst.

Lemma not_str_and_ref info j : j ∈ ref_words info -> j ∉ str_off_words info.
Proof.
  unfold ref_words, type_id_words, str_off_words. intros Hj Hs.
  destruct (kind_of (BTF_INFO_KIND info)); cbn [default from_option id] in Hj; elem_inv; lia.
Qed.

Lemma cells_lookup names ws j :
  cells names ws !! j = (fun w => cell_of names (winfo ws) (Z.of_nat j) w) <$> ws !! j.
Proof. unfold cells. by rewrite list_lookup_imap. Qed.

(** Records that agree on the words that are not references. *)
Lemma full_of_words (R : Z -> Z -> Prop) names ws1 ws2 :
  length ws1 = length ws2 -> winfo ws1 = winfo ws2 ->
  (forall j w1 w2, aref ws1 j = Some w1 -> aref ws2 j = Some w2 ->
     if bool_decide (j ∈ ref_words (winfo ws1)) then R w1 w2 else w1 = w2) ->
  Forall2 (cell_rel R) (cells names ws1) (cells names ws2).
Proof.
  intros Hl Hi H. apply Forall2_same_length_lookup. split; [by unfold cells; rewrite !length_imap|].
  intros j c1 c2. rewrite !cells_lookup. intros (w1 & E1 & ->)%fmap_Some (w2 & E2 & ->)%fmap_Some.
  specialize (H (Z.of_nat j) w1 w2 ltac:(by rewrite aref_nat) ltac:(by rewrite aref_nat)).
  rewrite <- Hi. unfold cell_of.
  destruct (decide (Z.of_nat j ∈ str_off_words (winfo ws1))) as [Hs|Hs];
    [rewrite !(bool_decide_eq_true_2 _ Hs)|rewrite !(bool_decide_eq_false_2 _ Hs)];
    (destruct (decide (Z.of_nat j ∈ ref_words (winfo ws1))) as [Hr|Hr];
      [rewrite (bool_decide_eq_true_2 _ Hr) in H|rewrite (bool_decide_eq_false_2 _ Hr) in H]).
  - by destruct (not_str_and_ref _ _ Hr).
  - subst. constructor.
  - rewrite !(bool_decide_eq_true_2 _ Hr). by constructor.
  - rewrite !(bool_decide_eq_false_2 _ Hr). subst. constructor.
Qed.

Lemma cmp_all ws1 ws2 js : length ws1 = length ws2 ->
  (forall j, 0 <= j < Z.of_nat (length ws1) -> j ∈ js) -> cmp ws1 ws2 js = true -> ws1 = ws2.
Proof.
  intros Hl Hj Hc. apply list_eq. intros n. destruct (decide (n < length ws1)%nat) as [Hn|Hn].
  - rewrite <- !aref_nat. apply (proj1 (cmp_spec _ _ _) Hc), Hj. lia.
  - by rewrite !lookup_ge_None_2 by lia.
Qed.

(** The words the comparison of two pairs looks at, without references. *)
Definition shape_words (k : kind) (vlen : Z) : list Z :=
  match k with
  | KIND_INT | KIND_DECL_TAG | KIND_VAR => [0; 1; 2; 3]
  | KIND_ENUM => [0; 1; 2] ++ elem_words 2 [0; 1] vlen
  | KIND_ENUM64 | KIND_DATASEC => [0; 1; 2] ++ elem_words 3 [0; 1; 2] vlen
  | KIND_STRUCT | KIND_UNION => [0; 1; 2] ++ elem_words 3 [0; 2] vlen
  | KIND_ARRAY => [0; 1; 2; 5]
  | KIND_FUNC_PROTO => [0; 1] ++ elem_words 2 [0] vlen
  | KIND_FWD | KIND_FLOAT | KIND_UNKN | KIND_OTHER => [0; 1; 2]
  | _ => [0; 1]
  end.

Ltac elem_cases :=
  repeat match goal with
  | |- context [_ ∈ _ ++ _] => rewrite elem_of_app
  | |- context [_ ∈ _ :: _] => rewrite elem_of_cons
  | |- context [_ ∈ []] => rewrite elem_of_nil
  | |- context [_ ∈ elem_words _ _ _] => rewrite elem_words_in
  end.

(** The element and the field of a word behind the head. *)
Lemma elem_of_word sz n j : 0 < sz -> 3 <= j < 3 + sz * n ->
  exists i f, 0 <= i < n /\ 0 <= f < sz /\ j = 3 + sz * i + f.
Proof.
  intros Hs Hj. exists ((j - 3) / sz), ((j - 3) mod sz). pose proof (Z.div_mod (j - 3) sz ltac:(lia)).
  pose proof (Z.mod_pos_bound (j - 3) sz Hs). split_and!; [apply Z.div_pos; lia| |lia|lia|lia].
  apply Z.div_lt_upper_bound; lia.
Qed.

Ltac elem_find i f :=
  first [solve [exists i, f; split_and!; [lia|lia|set_solver|done]]
        |left; elem_find i f | right; elem_find i f].

Lemma words_covered k vlen j : k <> KIND_UNKN -> k <> KIND_OTHER ->
  0 <= j < kind_words k vlen -> 0 <= vlen ->
  j ∈ shape_words k vlen \/
  j ∈ default [] (match k with
      | KIND_INT | KIND_FLOAT | KIND_ENUM | KIND_ENUM64 => Some []
      | KIND_FWD | KIND_CONST | KIND_VOLATILE | KIND_RESTRICT | KIND_PTR | KIND_TYPEDEF | KIND_FUNC
      | KIND_VAR | KIND_DECL_TAG | KIND_TYPE_TAG => Some [2]
      | KIND_ARRAY => Some [3; 4]
      | KIND_STRUCT | KIND_UNION => Some (elem_words 3 [1] vlen)
      | KIND_FUNC_PROTO => Some (2 :: elem_words 2 [1] vlen)
      | KIND_DATASEC => Some (elem_words 3 [0] vlen)
      | KIND_UNKN | KIND_OTHER => None
      end).
Proof.
  intros Hk1 Hk2 Hj Hv. destruct k; try done; cbn [shape_words kind_words default from_option id] in *;
    elem_cases; try lia;
    (destruct (Z.ltb_spec j 3); [lia|]);
    match goal with H : context [3 + ?sz * vlen] |- _ =>
      destruct (elem_of_word sz vlen j) as (i & f & Hi & Hf & ->); [lia|lia|] end;
    first [assert (f = 0 \/ f = 1 \/ f = 2) as [-> | [-> | ->]] by lia
          |assert (f = 0 \/ f = 1) as [-> | ->] by lia];
    match goal with |- context [3 + _ * ?i + ?f] => elem_find i f end.
Qed.

Lemma rec_covered ws j : rec_wf ws -> 0 <= j < Z.of_nat (length ws) ->
  j ∈ shape_words (wkind ws) (wvlen ws) \/ j ∈ ref_words (winfo ws).
Proof.
  intros Hw Hj. destruct (rec_length ws Hw) as (Hl & H1 & H2).
  apply words_covered; [done|done|lia|apply wvlen_range].
Qed.

Lemma words_in_rec ws j : rec_wf ws ->
  j ∈ shape_words (wkind ws) (wvlen ws) \/ j ∈ ref_words (winfo ws) -> 0 <= j < Z.of_nat (length ws).
Proof.
  intros Hw. destruct (rec_length ws Hw) as (-> & H1 & H2). unfold ref_words, type_id_words.
  fold (wkind ws) (wvlen ws). pose proof (wvlen_range ws).
  destruct (wkind ws); try done; cbn [shape_words kind_words default from_option id];
    intros Hj; elem_inv; lia.
Qed.

Lemma shape_in_rec ws js : rec_wf ws -> (forall j, j ∈ js -> j ∈ shape_words (wkind ws) (wvlen ws)) ->
  in_rec ws js.
Proof. intros Hw Hj j Hin. apply words_in_rec; [done|]. left. by apply Hj. Qed.

(** Two records whose shapes are equal and whose references are related. *)
Lemma full_of_shape (R : Z -> Z -> Prop) names ws1 ws2 :
  rec_wf ws1 -> length ws1 = length ws2 -> winfo ws1 = winfo ws2 ->
  cmp ws1 ws2 (shape_words (wkind ws1) (wvlen ws1)) = true ->
  (forall j w1 w2, j ∈ ref_words (winfo ws1) -> aref ws1 j = Some w1 -> aref ws2 j = Some w2 -> R w1 w2) ->
  Forall2 (cell_rel R) (cells names ws1) (cells names ws2).
Proof.
  intros Hw Hl Hi Hc HR. apply full_of_words; [done|done|]. intros j w1 w2 E1 E2.
  destruct (decide (j ∈ ref_words (winfo ws1))) as [Hj|Hj].
  - rewrite (bool_decide_eq_true_2 _ Hj). by apply (HR j).
  - rewrite (bool_decide_eq_false_2 _ Hj).
    destruct (rec_covered ws1 j Hw (aref_bounds _ _ _ E1)) as [Hs|]; [|done].
    pose proof (proj1 (cmp_spec _ _ _) Hc j Hs). congruence.
Qed.

(** The first cells of a record. *)
Lemma cells_head names ws : 3 <= Z.of_nat (length ws) ->
  exists c r, cells names ws = CName (names (nth 0 ws 0)) :: CNum (winfo ws) :: c :: r /\
    (2 ∉ ref_words (winfo ws) -> c = CNum (nth 2 ws 0)).
Proof.
  intros Hl. destruct ws as [|a [|i [|s ws]]]; try (simpl in Hl; lia).
  unfold cells. change (winfo (a :: i :: s :: ws)) with i. cbn [imap]. unfold compose.
  assert (E0 : cell_of names i (Z.of_nat 0) a = CName (names a)).
  { unfold cell_of. rewrite bool_decide_eq_true_2; [done|]. apply elem_of_cons. by left. }
  assert (E1 : cell_of names i (Z.of_nat 1) i = CNum i).
  { unfold cell_of. rewrite !bool_decide_eq_false_2; [done| |].
    - unfold ref_words, type_id_words. destruct (kind_of _); cbn [default from_option id]; intros ?; elem_inv; lia.
    - unfold str_off_words. intros Hj. destruct (kind_of _); elem_inv; lia. }
  rewrite E0, E1. eexists _, _. split; [done|]. intros Hr. cbn. unfold cell_of.
  rewrite !bool_decide_eq_false_2; [done|exact Hr|].
  unfold str_off_words. intros Hj. destruct (kind_of _); elem_inv; lia.
Qed.

(** Whether a record only declares its type. *)
Lemma incomplete_cells names ws : 3 <= Z.of_nat (length ws) ->
  incomplete (cells names ws) <-> wkind ws = KIND_FWD \/ is_enum_kind (wkind ws) /\ wvlen ws = 0.
Proof.
  intros Hl. destruct (cells_head names ws Hl) as (c & r & -> & _). split.
  - inversion 1; subst; [by left|by right].
  - intros [H|[H H']]; [by apply inc_fwd|by apply inc_enum].
Qed.

Lemma enum_no_ref2 info : is_enum_kind (kind_of (BTF_INFO_KIND info)) -> 2 ∉ ref_words info.
Proof. unfold ref_words, type_id_words. by intros [-> | ->]; apply not_elem_of_nil. Qed.

(** ** Enums *)

Section Enums.
Context (b : bobj) (wss : list (list Z)) (Hb : trep b wss).
Context (id1 id2 : Z) (ws1 ws2 : list Z).
Context (H1 : rec_of wss id1 = Some ws1) (H2 : rec_of wss id2 = Some ws2).

Definition enum_fwd (ws : list Z) : bool :=
  bool_decide (wkind ws ∈ [KIND_ENUM; KIND_ENUM64]) && (wvlen ws =? 0).

Lemma is_enum_fwd_spec id ws : rec_of wss id = Some ws -> btf_is_enum_fwd b id = Some (enum_fwd ws).
Proof. intros H. unfold btf_is_enum_fwd. by rewrite (info_of_spec b wss Hb _ _ H). Qed.

(** Name, kind and size. *)
Definition enum_head_eq : bool :=
  (nth 0 ws1 0 =? nth 0 ws2 0) && (no_vlen (winfo ws1) =? no_vlen (winfo ws2))
    && (nth 2 ws1 0 =? nth 2 ws2 0).

Lemma compat_enums_spec equal eq :
  equal id1 id2 = Some eq ->
  compat_enums b equal id1 id2 =
    Some (if enum_fwd ws1 || enum_fwd ws2 then enum_head_eq else eq).
Proof.
  intros He. unfold compat_enums. rewrite (is_enum_fwd_spec _ _ H1). cbn [mbind option_bind].
  pose proof (type_word_spec b wss Hb _ _ _ _ H1 (aref_head b wss Hb _ _ 0 H1 ltac:(lia))) as E10.
  pose proof (type_word_spec b wss Hb _ _ _ _ H2 (aref_head b wss Hb _ _ 0 H2 ltac:(lia))) as E20.
  pose proof (type_word_spec b wss Hb _ _ _ _ H1 (aref_head b wss Hb _ _ 2 H1 ltac:(lia))) as E12.
  pose proof (type_word_spec b wss Hb _ _ _ _ H2 (aref_head b wss Hb _ _ 2 H2 ltac:(lia))) as E22.
  destruct (enum_fwd ws1); cbn [mbind option_bind negb andb orb];
    [|rewrite (is_enum_fwd_spec _ _ H2); cbn [mbind option_bind]; destruct (enum_fwd ws2); cbn [negb andb];
      [|done]];
    rewrite E10, E20, (info_of_spec b wss Hb _ _ H1), (info_of_spec b wss Hb _ _ H2), E12, E22; reflexivity.
Qed.

Lemma no_vlen_kind i i' : no_vlen i = no_vlen i' -> BTF_INFO_KIND i = BTF_INFO_KIND i'.
Proof.
  assert (E : forall x, BTF_INFO_KIND x = BTF_INFO_KIND (no_vlen x)).
  { intros x. unfold BTF_INFO_KIND, no_vlen. apply Z.bits_inj'. intros n Hn.
    rewrite !Z.land_spec, !Z.shiftr_spec, !Z.land_spec by done.
    destruct (Z.ltb_spec n 5).
    - assert (n = 0 \/ n = 1 \/ n = 2 \/ n = 3 \/ n = 4) as [-> | [-> | [-> | [-> | ->]]]] by lia;
        by rewrite ?andb_true_r.
    - replace (Z.testbit 31 n) with false; [by rewrite !andb_false_r|]. symmetry.
      apply Z.bits_above_log2; simpl; lia. }
  intros H. by rewrite E, H, <- E.
Qed.

(** An enum without enumerators and an enum with the same head. *)
Lemma enum_decl names : enum_fwd ws1 || enum_fwd ws2 = true -> enum_head_eq = true ->
  is_enum_kind (wkind ws1) \/ is_enum_kind (wkind ws2) ->
  decl (cells names ws1) (cells names ws2) \/ decl (cells names ws2) (cells names ws1).
Proof.
  intros Hf Hh Hk. unfold enum_head_eq in Hh. zbool.
  match goal with H : no_vlen _ = _ |- _ => pose proof (no_vlen_kind _ _ H) as Hkk; rename H into Hnv end.
  assert (Hks : wkind ws1 = wkind ws2) by (unfold wkind; by rewrite Hkk).
  assert (is_enum_kind (wkind ws1) /\ is_enum_kind (wkind ws2)) as [Hk1 Hk2] by (rewrite Hks in *; tauto).
  destruct (cells_head names ws1 (rec_len3 b wss Hb _ _ H1)) as (c1 & r1 & E1 & Hc1).
  destruct (cells_head names ws2 (rec_len3 b wss Hb _ _ H2)) as (c2 & r2 & E2 & Hc2).
  rewrite (Hc1 (enum_no_ref2 _ Hk1)) in E1. rewrite (Hc2 (enum_no_ref2 _ Hk2)) in E2. rewrite E1, E2.
  apply orb_true_iff in Hf as [Hf|Hf]; unfold enum_fwd in Hf; zbool; [left|right];
    (replace (nth 0 ws1 0) with (nth 0 ws2 0); replace (nth 2 ws1 0) with (nth 2 ws2 0);
     apply decl_enum; try done).
Qed.
End Enums.

(** ** The forest of [map] *)

Definition root (map : list Z) (x : Z) : Prop :=
  exists v, aref map x = Some v /\ (is_mapped v = false \/ v = x).

(** [x] leads to the root [r] in [n] steps. *)
Inductive leads (map : list Z) : nat -> Z -> Z -> Prop :=
  | leads_root x : root map x -> leads map 0 x x
  | leads_step n x v r : aref map x = Some v -> is_mapped v = true -> v <> x -> leads map n v r ->
      leads map (S n) x r.

Definition forest (map : list Z) : Prop :=
  forall x, 0 <= x < Z.of_nat (length map) -> exists n r, leads map n x r.

Lemma leads_range map n x r : leads map n x r -> 0 <= x < Z.of_nat (length map).
Proof. induction 1 as [x (v & H & _)|n x v r H _ _ _ _]; by eapply aref_bounds. Qed.

Lemma leads_end map n x r : leads map n x r -> root map r.
Proof. by induction 1. Qed.

Lemma leads_det map n x r : leads map n x r -> forall m s, leads map m x s -> m = n /\ s = r.
Proof.
  induction 1 as [x (v & H & Hv)|n x v r H Hm Hne Hl IH]; intros m s H2;
    inversion H2 as [? (v2 & E & Hv2)|? ? v2 ? E Hm2 Hne2 Hl2]; subst; rewrite H in E; injection E as <-.
  - done.
  - exfalso. destruct Hv; congruence.
  - exfalso. destruct Hv2; congruence.
  - by destruct (IH _ _ Hl2) as [-> ->].
Qed.

Lemma leads_ids map n x r : leads map n x r -> exists ids, length ids = S n /\ NoDup ids /\
  forall y, y ∈ ids -> 0 <= y < Z.of_nat (length map) /\ exists m, (m <= n)%nat /\ leads map m y r.
Proof.
  induction 1 as [x Hx|n x v r H Hm Hne Hl (ids & Hi & Hnd & Hin)].
  - assert (leads map 0 x x) by by constructor. exists [x]. split_and!; [done|apply NoDup_singleton|].
    intros y ->%list_elem_of_singleton. split; [by eapply leads_range|by exists 0%nat].
  - assert (Hx : leads map (S n) x r) by by eapply leads_step.
    exists (x :: ids). split_and!; [by rewrite length_cons, Hi| |].
    + apply NoDup_cons. split; [|done]. intros [_ (m & Hm' & Hy)]%Hin.
      destruct (leads_det _ _ _ _ Hx _ _ Hy) as [-> _]. lia.
    + intros y [->|[Hr (m & Hm' & Hy)]%Hin]%elem_of_cons.
      * split; [by eapply leads_range|by exists (S n)].
      * split; [done|]. exists m. split; [lia|done].
Qed.

(** No chain is longer than there are types. *)
Lemma leads_short map n x r : leads map n x r -> (n < length map)%nat.
Proof.
  intros (ids & Hl & Hnd & Hin)%leads_ids. apply Nat.succ_le_mono. rewrite <- Hl.
  apply le_n_S. rewrite <- (length_seq (length map) 0), <- (length_fmap Z.of_nat).
  apply submseteq_length, NoDup_submseteq; [done|]. intros y [Hy _]%Hin.
  apply list_elem_of_fmap. exists (Z.to_nat y). split; [lia|]. apply elem_of_seq. lia.
Qed.

Lemma resolve_steps_spec map n x r : leads map n x r -> forall fuel, (n < fuel)%nat ->
  resolve_steps fuel map x = Some r.
Proof.
  induction 1 as [x (v & H & Hv)|n x v r H Hm Hne Hl IH]; intros [|fuel] Hf; try lia;
    cbn [resolve_steps]; rewrite H; cbn [mbind option_bind].
  - destruct Hv as [-> | ->]; [done|]. by rewrite Z.eqb_refl, andb_false_r.
  - rewrite Hm. destruct (Z.eqb_spec v x); [done|]. apply IH. lia.
Qed.

Lemma resolve_spec map n x r : leads map n x r -> resolve_type_id map x = Some r.
Proof.
  intros H. apply (resolve_steps_spec _ _ _ _ H). pose proof (leads_short _ _ _ _ H). lia.
Qed.

(** Redirecting [x] to [y] keeps the forest when [y] leads to a root in the
    new map. *)
Lemma forest_set map map' x y : forest map -> aset map x y = Some map' ->
  (exists n r, leads map' n y r) \/ is_mapped y = false -> forest map'.
Proof.
  intros Hf Hs Hy z Hz. pose proof (aset_inv _ _ _ _ Hs) as [Hx Hm]. rewrite Hm, length_insert in Hz.
  pose proof (aref_aset_eq _ _ _ _ Hs) as Ex.
  assert (Hxy : exists n r, leads map' n x r).
  { destruct (is_mapped y) eqn:E.
    - destruct (Z.eqb_spec y x) as [->|Hne]; [exists 0%nat, x; constructor; exists x; by split; [|right]|].
      destruct Hy as [(n & r & Hl)|]; [|done]. exists (S n), r. by eapply leads_step.
    - exists 0%nat, x. constructor. exists y. by split; [|left]. }
  destruct (Hf z Hz) as (n & r & Hl). clear Hz.
  induction Hl as [z (v & H & Hv)|n z v r H Hm' Hne Hl IH].
  - destruct (Z.eqb_spec z x) as [->|Hne]; [done|]. exists 0%nat, z. constructor. exists v.
    split; [|done]. rewrite (aref_aset_ne _ _ _ _ _ Hs); done.
  - destruct (Z.eqb_spec z x) as [->|Hnx]; [done|]. destruct IH as (m & s & Hs').
    exists (S m), s. eapply leads_step; [|done|done|done]. rewrite (aref_aset_ne _ _ _ _ _ Hs); done.
Qed.

(** A root stays one when something else is redirected. *)
Lemma root_set map map' x y r : aset map x y = Some map' -> root map r -> r <> x -> root map' r.
Proof. intros Hs (v & H & Hv) Hne. exists v. split; [|done]. rewrite (aref_aset_ne _ _ _ _ _ Hs); done. Qed.

Lemma forest_set_root map map' x r : forest map -> aset map x r = Some map' -> root map r -> r <> x ->
  forest map'.
Proof.
  intros Hf Hs Hr Hne. apply (forest_set _ _ _ _ Hf Hs). left. exists 0%nat, r. constructor.
  by eapply root_set.
Qed.

Lemma forest_set_self map map' x : forest map -> aset map x x = Some map' -> forest map'.
Proof.
  intros Hf Hs. apply (forest_set _ _ _ _ Hf Hs). left. exists 0%nat, x. constructor. exists x.
  split; [by eapply aref_aset_eq|by right].
Qed.

(** ** What [map] means *)

(** What a type is mapped to may take its place. *)
Record map_ok (g : graph) (n : Z) (map : list Z) : Prop := {
  mo_len : Z.of_nat (length map) = n + 1;
  mo_small : n <= 2 ^ 29;
  mo_void : aref map 0 = Some 0;
  mo_equiv : forall i m, aref map i = Some m -> is_mapped m = true -> 0 <= m <= n /\ replaces g i m;
  mo_forest : forest map;
}.

Section MapOk.
Context (g : graph) (n : Z) (Hclosed : closed g) (Hone : one_definition g).
Context (Hdom : forall i, 0 <= i <= n -> is_Some (g i)).

Lemma leads_replaces map k x r : map_ok g n map -> leads map k x r -> 0 <= r <= n /\ replaces g x r.
Proof.
  intros Hm H. induction H as [x (v & H & _)|k x v r H Hv _ Hl IH].
  - pose proof (aref_bounds _ _ _ H). rewrite (mo_len _ _ _ Hm) in *. split; [lia|].
    apply replaces_refl; [done|]. apply Hdom. lia.
  - destruct IH as [Hr He]. split; [done|]. eapply replaces_trans; [done|done| |done].
    by apply (mo_equiv _ _ _ Hm).
Qed.

Lemma leads_equiv map k x r : map_ok g n map -> leads map k x r -> 0 <= r <= n /\ equiv g x r.
Proof. intros Hm [Hr [He _]]%leads_replaces; done. Qed.

Lemma resolve_ok map x : map_ok g n map -> 0 <= x <= n ->
  exists k r, leads map k x r /\ resolve_type_id map x = Some r /\ 0 <= r <= n /\ equiv g x r.
Proof.
  intros Hm Hx. destruct (mo_forest _ _ _ Hm x) as (k & r & Hl); [rewrite (mo_len _ _ _ Hm); lia|].
  exists k, r. split; [done|]. split; [by eapply resolve_spec|]. by eapply leads_equiv.
Qed.

(** Redirecting a type to a root that may take its place, or to itself. *)
Lemma map_ok_set map map' x y : map_ok g n map -> aset map x y = Some map' -> x <> 0 ->
  0 <= y <= n -> replaces g x y -> root map y \/ x = y -> map_ok g n map'.
Proof.
  intros Hm Hs Hx Hy He Hr. pose proof (aset_inv _ _ _ _ Hs) as [Hxr E]. destruct Hm as [Hl Hsm Hv Hq Hf].
  split.
  - by rewrite E, length_insert.
  - done.
  - rewrite (aref_aset_ne _ _ _ _ _ Hs); done.
  - intros i m Hi Hmm. destruct (Z.eqb_spec i x) as [->|Hne].
    + rewrite (aref_aset_eq _ _ _ _ Hs) in Hi. by injection Hi as <-.
    + rewrite (aref_aset_ne _ _ _ _ _ Hs) in Hi; [by apply Hq|done].
  - destruct (Z.eqb_spec x y) as [->|Hne]; [by eapply forest_set_self|].
    destruct Hr as [Hr|]; [|done]. by eapply forest_set_root.
Qed.

Lemma map_ok_mark map map' x v : map_ok g n map -> aset map x v = Some map' -> x <> 0 ->
  is_mapped v = false -> map_ok g n map'.
Proof.
  intros Hm Hs Hx Hv. pose proof (aset_inv _ _ _ _ Hs) as [Hxr E]. destruct Hm as [Hl Hsm Hv0 Hq Hf].
  split.
  - by rewrite E, length_insert.
  - done.
  - rewrite (aref_aset_ne _ _ _ _ _ Hs); done.
  - intros i m Hi Hmm. destruct (Z.eqb_spec i x) as [->|Hne].
    + rewrite (aref_aset_eq _ _ _ _ Hs) in Hi. injection Hi as <-. congruence.
    + rewrite (aref_aset_ne _ _ _ _ _ Hs) in Hi; [by apply Hq|done].
  - eapply forest_set; [done|done|by right].
Qed.

Lemma map_aset map x v : map_ok g n map -> 0 <= x <= n -> exists map', aset map x v = Some map'.
Proof. intros Hm Hx. rewrite aset_Some by (rewrite (mo_len _ _ _ Hm); lia). by eexists. Qed.

Lemma is_mapped_id x : n <= 2 ^ 29 -> 0 <= x <= n -> is_mapped x = true.
Proof. intros. unfold is_mapped. apply Z.leb_le. lia. Qed.
End MapOk.
