(* ===== verification/DedupEquiv.v ===== *)
(** * BTF deduplication: equivalence of type graphs

    [btf_dedup_is_equiv] ends, stays inside its arrays, and when it answers
    yes the two types are equivalent in the sense of [TypeGraph]: the
    hypothetical correspondence it builds is a simulation up to what is
    known already.  [btf_dedup_merge_hypot_map] then only maps types to
    equivalent ones. *)

From S2P Require Import Prelude Hashmap StrSet Btf BtfBuild BtfVisit BtfExt Dedup TypeGraph DedupTypes.

(** Entries of an array that satisfy [P], counted. *)
Lemma count_set (P : Z -> bool) (l : list Z) i x y :
  l !! i = Some x ->
  (length (List.filter P (<[i := y]> l)) + Nat.b2n (P x) = length (List.filter P l) + Nat.b2n (P y))%nat.
Proof.
  revert i. induction l as [|z l IH]; intros [|i] Hi; simplify_eq/=.
  - destruct (P x), (P y); simpl; lia.
  - specialize (IH _ Hi). destruct (P z); simpl; lia.
Qed.

Lemma count_insert (P : Z -> bool) (l : list Z) i x y :
  l !! i = Some x -> P x = true -> P y = false ->
  length (List.filter P l) = S (length (List.filter P (<[i := y]> l))).
Proof. intros Hi Hx Hy. pose proof (count_set P l i x y Hi) as H. rewrite Hx, Hy in H. simpl in H. lia. Qed.

Section Equiv.
Context (alloc_ok : Z -> bool) (b : bobj) (wss : list (list Z)) (names : Z -> list Z).
Context (Hb : trep b wss).

Abbreviation n := (Z.of_nat (length wss)) (only parsing).
Abbreviation g := (view names wss) (only parsing).

(** References lead to types, and those of a type proper to types proper. *)
Definition refs_closed : Prop := forall id ws j w, rec_of wss id = Some ws ->
  j ∈ ref_words (winfo ws) -> aref ws j = Some w -> 0 <= w <= n.

Definition type_like (k : kind) : Prop := k <> KIND_VAR /\ k <> KIND_DATASEC /\ k <> KIND_DECL_TAG.

Definition typed (id : Z) : Prop := forall ws, rec_of wss id = Some ws -> type_like (wkind ws).

Definition refs_typed : Prop := forall id ws j w, rec_of wss id = Some ws -> type_like (wkind ws) ->
  j ∈ ref_words (winfo ws) -> aref ws j = Some w -> typed w.

Context (Hrefs : refs_closed) (Htyped : refs_typed) (Hone : one_definition g).

Lemma view_Some id ws : rec_of wss id = Some ws -> g id = Some (cells names ws).
Proof. intros H. unfold view. by rewrite H. Qed.

Lemma view_dom i : 0 <= i <= n -> is_Some (g i).
Proof. intros Hi. destruct (rec_of_Some wss i Hi) as [ws E]. by rewrite (view_Some _ _ E). Qed.

Lemma view_inv id v : g id = Some v -> exists ws, rec_of wss id = Some ws /\ v = cells names ws.
Proof. unfold view. intros (ws & ? & ->)%fmap_Some. by exists ws. Qed.

Lemma cell_ref ws i : CRef i ∈ cells names ws -> exists j, j ∈ ref_words (winfo ws) /\ aref ws j = Some i.
Proof.
  intros [k Hk]%list_elem_of_lookup_1. rewrite cells_lookup in Hk.
  apply fmap_Some in Hk as (w & Hw & E). unfold cell_of in E.
  destruct (bool_decide _) eqn:E1; [done|]. destruct (bool_decide (_ ∈ ref_words _)) eqn:E2; [|done].
  injection E as ->. exists (Z.of_nat k). split; [by apply (bool_decide_eq_true_1 _)|by rewrite aref_nat].
Qed.

Lemma view_closed : closed g.
Proof.
  intros x v i (ws & H & ->)%view_inv Hi. apply cell_ref in Hi as (j & Hj & E).
  apply view_dom. by eapply Hrefs.
Qed.

Lemma equiv_refl' i : 0 <= i <= n -> equiv g i i.
Proof. intros Hi. apply equiv_refl; [apply view_closed|by apply view_dom]. Qed.

Lemma equiv_trans' x y z : equiv g x y -> equiv g y z -> equiv g x z.
Proof. apply equiv_trans; [apply view_closed|done]. Qed.

(** Types with the same words are equivalent. *)
Lemma same_words_equiv id1 id2 ws : rec_of wss id1 = Some ws -> rec_of wss id2 = Some ws -> equiv g id1 id2.
Proof.
  intros H1 H2. exists (fun x y => x = id1 /\ y = id2 \/ x = y /\ is_Some (g x)). split; [|by left].
  assert (Hfull : forall v : list cell, (forall i, CRef i ∈ v -> is_Some (g i)) ->
    matches (fun x y => x = id1 /\ y = id2 \/ x = y /\ is_Some (g x)) v v).
  { intros v Hv. left. apply full_refl. intros i Hi. right. split; [done|by apply Hv]. }
  intros x y [[-> ->]|[<- [v Hv]]].
  - exists (cells names ws), (cells names ws). split; [by apply view_Some|]. split; [by apply view_Some|].
    apply Hfull. intros i Hi. eapply view_closed; [|exact Hi]. by apply view_Some.
  - exists v, v. split; [done|]. split; [done|]. apply Hfull. intros i Hi. by eapply view_closed.
Qed.

(** *** What may take the place of what *)

Definition declares (ws : list Z) : Prop := wkind ws = KIND_FWD \/ is_enum_kind (wkind ws) /\ wvlen ws = 0.

Lemma whole_view id ws : rec_of wss id = Some ws -> whole g id <-> ~ declares ws.
Proof.
  intros H. pose proof (incomplete_cells names ws (rec_len3 b wss Hb _ _ H)) as Hi. split.
  - intros (v & Hv & Hn) Hd. rewrite (view_Some _ _ H) in Hv. injection Hv as <-. by apply Hn, Hi.
  - intros Hn. exists (cells names ws). split; [by apply view_Some|]. by intros ?%Hi.
Qed.

Lemma replaces_refl' i : 0 <= i <= n -> replaces g i i.
Proof. intros Hi. split; [by apply equiv_refl'|done]. Qed.

Lemma declares_replaces x y ws : rec_of wss x = Some ws -> declares ws -> equiv g x y -> replaces g x y.
Proof. intros Hx Hd He. split; [done|]. by intros Hw%(whole_view x ws Hx). Qed.

Lemma same_info_replaces x y ws ws' : rec_of wss x = Some ws -> rec_of wss y = Some ws' -> winfo ws = winfo ws' ->
  equiv g x y -> replaces g x y.
Proof.
  intros Hx Hy Hi He. split; [done|]. rewrite (whole_view x ws Hx), (whole_view y ws' Hy).
  unfold declares, wkind, wvlen. by rewrite Hi.
Qed.

(** What is equivalent to a struct is one, or its declaration. *)
Lemma struct_replaces x y ws ws' : rec_of wss x = Some ws -> rec_of wss y = Some ws' ->
  wkind ws ∈ [KIND_STRUCT; KIND_UNION] -> wkind ws' <> KIND_FWD -> equiv g x y -> replaces g x y.
Proof.
  intros Hx Hy Hk Hf He. destruct (equiv_simulation g x y He) as (v & u & Hv & Hu & Hm).
  rewrite (view_Some _ _ Hx) in Hv. rewrite (view_Some _ _ Hy) in Hu. injection Hv as <-. injection Hu as <-.
  pose proof (rec_len3 b wss Hb _ _ Hx) as L1. pose proof (rec_len3 b wss Hb _ _ Hy) as L2.
  assert (Hw : ~ declares ws) by (intros [E|[[E|E] _]]; rewrite E in Hk; by elem_inv).
  destruct Hm as [Hm|[Hd|Hd]].
  - eapply same_info_replaces; [done|done| |done].
    destruct (cells_head names ws L1) as (c1 & r1 & E1 & _), (cells_head names ws' L2) as (c2 & r2 & E2 & _).
    rewrite E1, E2 in Hm. apply full_cons_inv in Hm as (d1 & w1 & [= <- <-] & _ & Hm).
    apply full_cons_inv in Hm as (d2 & w2 & [= <- <-] & Hc & _). inversion Hc. done.
  - by apply incomplete_decl, (incomplete_cells names ws L1) in Hd.
  - destruct (cells_head names ws L1) as (c1 & r1 & E1 & _), (cells_head names ws' L2) as (c2 & r2 & E2 & _).
    rewrite E1, E2 in Hd. inversion Hd; subst; [done|]. exfalso.
    match goal with H : is_enum_kind _, H' : kind_of _ = kind_of _ |- _ => rewrite <- H' in H;
      destruct H as [E|E]; unfold wkind in Hk; rewrite E in Hk; by elem_inv end.
Qed.

(** ** The hypothetical correspondence *)

Definition hyp (hy : hypot) (a c : Z) : Prop := aref (hypot_map hy) c = Some a /\ is_mapped a = true.

Record hy_ok (hy : hypot) : Prop := {
  hk_len : Z.of_nat (length (hypot_map hy)) = n + 1;
  hk_ids : forall c a, hyp hy a c -> 0 <= a <= n /\ c ∈ hypot_list hy;
  hk_list : forall c, c ∈ hypot_list hy -> 0 <= c <= n /\ exists a, hyp hy a c;
}.

(** The references of a pair are related: up to equivalence, they are the
    same or correspond. *)
Definition rel (hy : hypot) (i j : Z) : Prop :=
  exists i' j', equiv g i i' /\ (hyp hy i' j' \/ i' = j') /\ equiv g j' j.

Definition local (hy : hypot) (x y : Z) : Prop :=
  exists v w, g x = Some v /\ g y = Some w /\ matches (rel hy) v w.

Definition unmapped (hy : hypot) : nat := length (List.filter (fun v => negb (is_mapped v)) (hypot_map hy)).

Record grows (hy hy' : hypot) : Prop := {
  gr_hyp : forall a c, hyp hy a c -> hyp hy' a c;
  gr_free : (unmapped hy' <= unmapped hy)%nat;
}.

Definition oom : Prop := exists k, alloc_ok k = false.

Lemma grows_refl hy : grows hy hy.
Proof. by split. Qed.

Lemma grows_trans hy hy' hy'' : grows hy hy' -> grows hy' hy'' -> grows hy hy''.
Proof. intros [H1 H2] [H3 H4]. split; [naive_solver|lia]. Qed.

Lemma rel_grows hy hy' i j : grows hy hy' -> rel hy i j -> rel hy' i j.
Proof.
  intros Hg (i' & j' & H1 & [H2|H2] & H3); exists i', j'; (split_and!; [done| |done]).
  - left. by apply (gr_hyp _ _ Hg).
  - by right.
Qed.

Lemma local_grows hy hy' x y : grows hy hy' -> local hy x y -> local hy' x y.
Proof.
  intros Hg (v & w & Hv & Hw & Hm). exists v, w. split_and!; [done..|].
  eapply matches_mono; [|done]. intros. by eapply rel_grows.
Qed.

Lemma rel_refl hy i : 0 <= i <= n -> rel hy i i.
Proof. intros Hi. exists i, i. split_and!; [by apply equiv_refl'|by right|by apply equiv_refl']. Qed.

(** Pairs beyond those of [hy] match. *)
Definition closes (hy hy' : hypot) : Prop := forall x y, hyp hy' x y -> hyp hy x y \/ local hy' x y.

Lemma closes_trans hy hy' hy'' : grows hy' hy'' -> closes hy hy' -> closes hy' hy'' -> closes hy hy''.
Proof.
  intros Hg H1 H2 x y [H|H]%H2; [|by right]. apply H1 in H as [H|H]; [by left|].
  right. by eapply local_grows.
Qed.

Definition answer (ok : hypot -> Prop) (hy : hypot) (c : option (Z * hypot)) : Prop :=
  exists eq hy', c = Some (eq, hy') /\ hy_ok hy' /\ grows hy hy' /\
    (eq = 1 /\ ok hy' /\ closes hy hy' \/ eq = 0 \/ eq = - ENOMEM /\ oom).

Definition rec_spec (fuel : nat) (rec : Z -> Z -> hypot -> option (Z * hypot)) : Prop :=
  forall a c hy, 0 <= a <= n -> 0 <= c <= n -> typed a -> hy_ok hy -> (unmapped hy < fuel)%nat ->
    answer (fun hy' => rel hy' a c) hy (rec a c hy).

Section Pair.
Context (fuel : nat) (rec : Z -> Z -> hypot -> option (Z * hypot)) (Hrec : rec_spec fuel rec).
Context (a c : Z) (ws1 ws2 : list Z) (H1 : rec_of wss a = Some ws1) (H2 : rec_of wss c = Some ws2).
Context (Ha : type_like (wkind ws1)).

Lemma equiv_refs_spec js : (forall j, j ∈ js -> j ∈ ref_words (winfo ws1)) -> winfo ws1 = winfo ws2 ->
  in_rec ws1 js -> length ws1 = length ws2 ->
  forall hy, hy_ok hy -> (unmapped hy < fuel)%nat ->
  answer (fun hy' => forall j w1 w2, j ∈ js -> aref ws1 j = Some w1 -> aref ws2 j = Some w2 -> rel hy' w1 w2)
    hy (equiv_refs b rec a c js hy).
Proof.
  intros Hjs Hi Hin Hl. induction js as [|j js IH]; intros hy Hhy Hf; cbn [equiv_refs].
  { exists 1, hy. split_and!; [done|done|apply grows_refl|]. left. split_and!; [done|by intros j w1 w2 Hj%not_elem_of_nil|].
    intros x y H. by left. }
  assert (Hj : j ∈ ref_words (winfo ws1)) by (apply Hjs; left).
  assert (Hr : 0 <= j < Z.of_nat (length ws1)) by (apply Hin; left).
  destruct (aref_Some ws1 j Hr) as [w1 E1]. destruct (aref_Some ws2 j) as [w2 E2]; [lia|].
  rewrite (type_word_spec b wss Hb _ _ _ _ H1 E1), (type_word_spec b wss Hb _ _ _ _ H2 E2).
  cbn [mbind option_bind].
  destruct (Hrec w1 w2 hy) as (eq & hy1 & -> & Hk1 & Hg1 & Ho1); [by apply (Hrefs a ws1 j)| |by apply (Htyped a ws1 j)|done|done|].
  { apply (Hrefs c ws2 j); [done| |done]. by rewrite <- Hi. }
  cbn [mbind option_bind]. destruct Ho1 as [(-> & Hrel & Hc1)|Ho1].
  2: { exists eq, hy1. assert ((eq <=? 0) = true) as -> by (destruct Ho1 as [->|[-> _]]; done).
       split_and!; [done..|]. by right. }
  change (1 <=? 0) with false. cbv iota.
  destruct (IH ltac:(intros k Hk; apply Hjs; by right) ltac:(intros k Hk; apply Hin; by right) hy1 Hk1) as
    (eq2 & hy2 & -> & Hk2 & Hg2 & Ho2); [pose proof (gr_free _ _ Hg1); lia|].
  exists eq2, hy2. split_and!; [done|done|by eapply grows_trans|].
  destruct Ho2 as [(-> & Hrel2 & Hc2)|Ho2]; [|by right]. left. split_and!; [done| |by eapply closes_trans].
  intros k x y [->|Hk]%elem_of_cons Ex Ey; [|by eapply Hrel2].
  rewrite E1 in Ex. rewrite E2 in Ey. injection Ex as <-. injection Ey as <-. by eapply rel_grows.
Qed.

Context (hy : hypot) (Hhy : hy_ok hy) (Hfuel : (unmapped hy < fuel)%nat).

Lemma answer_no : answer (fun hy' => local hy' a c) hy (Some (0, hy)).
Proof. exists 0, hy. split_and!; [done|done|apply grows_refl|]. right. by left. Qed.

Lemma answer_leaf same : (same = true -> local hy a c) ->
  answer (fun hy' => local hy' a c) hy (Some (bool_to_Z same, hy)).
Proof.
  intros Hl. destruct same; [|apply answer_no]. exists 1, hy. split_and!; [done|done|apply grows_refl|].
  left. split_and!; [done|by apply Hl|]. intros x y H. by left.
Qed.

(** Equal shapes, and references compared one by one. *)
Lemma answer_refs js1 js : rec_wf ws1 ->
  cmp ws1 ws2 [0] = true -> (forall j, j ∈ shape_words (wkind ws1) (wvlen ws1) -> j = 0 \/ j ∈ js1) ->
  1 ∈ js1 -> (forall j, j ∈ js <-> j ∈ ref_words (winfo ws1)) ->
  answer (fun hy' => local hy' a c) hy (equiv_and_refs b (Some (cmp ws1 ws2 js1)) rec a c js hy).
Proof.
  intros Hw H0 Hs H1in Hjs. unfold equiv_and_refs. cbn [mbind option_bind].
  destruct (cmp ws1 ws2 js1) eqn:Ec; cbn [negb]; [|apply answer_no].
  assert (Hi : winfo ws1 = winfo ws2) by (by eapply (cmp_info b wss Hb a c)).
  assert (Hl : length ws1 = length ws2) by (by eapply (same_info_len b wss Hb a c)).
  destruct (equiv_refs_spec js (fun j Hj => proj1 (Hjs j) Hj) Hi) with (hy := hy)
    as (eq & hy' & -> & Hk & Hg & Ho); [|done|done|done|].
  { intros j Hj. apply words_in_rec; [done|]. right. by apply Hjs. }
  exists eq, hy'. split_and!; [done..|]. destruct Ho as [(-> & Hrel & Hc)|Ho]; [|by right].
  left. split_and!; [done| |done]. exists (cells names ws1), (cells names ws2).
  split_and!; [by apply view_Some..|]. left. apply full_of_shape; [done|done|done| |].
  - apply cmp_spec. intros j [->|Hj]%Hs; [|by apply (proj1 (cmp_spec _ _ _) Ec)].
    apply (proj1 (cmp_spec _ _ _) H0). by apply list_elem_of_singleton.
  - intros j w1 w2 Hj. apply Hrel. by apply Hjs.
Qed.

(** A complete pair of records without references to compare. *)
Lemma local_same js : rec_wf ws1 -> (forall j, j ∈ shape_words (wkind ws1) (wvlen ws1) -> j ∈ js) ->
  (forall j, j ∈ ref_words (winfo ws1) -> j ∈ js) -> 1 ∈ js -> cmp ws1 ws2 js = true -> local hy a c.
Proof.
  intros Hw Hs Hr H1in Hc. exists (cells names ws1), (cells names ws2). split_and!; [by apply view_Some..|].
  left. apply full_of_shape; [done| | | |].
  - apply (same_info_len b wss Hb a c); [done..|]. by apply (cmp_info b wss Hb a c ws1 ws2 H1 H2 js).
  - by apply (cmp_info b wss Hb a c ws1 ws2 H1 H2 js).
  - apply cmp_spec. intros j Hj. by apply (proj1 (cmp_spec _ _ _) Hc), Hs.
  - intros j w1 w2 Hj E1 E2. pose proof (proj1 (cmp_spec _ _ _) Hc j (Hr j Hj)) as E.
    assert (w2 = w1) as -> by congruence. apply rel_refl. by apply (Hrefs a ws1 j).
Qed.

Lemma same_names : cmp ws1 ws2 [0] = true -> nth 0 ws1 0 = nth 0 ws2 0.
Proof.
  intros E. pose proof (proj1 (cmp_spec _ _ _) E 0 ltac:(by apply list_elem_of_singleton)) as H.
  rewrite (aref_head b wss Hb _ _ 0 H1), (aref_head b wss Hb _ _ 0 H2) in H by lia. by injection H.
Qed.

Lemma local_decl : decl (cells names ws1) (cells names ws2) \/ decl (cells names ws2) (cells names ws1) ->
  local hy a c.
Proof. intros Hd. exists (cells names ws1), (cells names ws2). split_and!; [by apply view_Some..|by right]. Qed.

(** A forward declaration and a type of its name and kind. *)
Lemma fwd_decl x y : 3 <= Z.of_nat (length x) -> 3 <= Z.of_nat (length y) -> wkind x = KIND_FWD ->
  nth 0 x 0 = nth 0 y 0 -> wkind y = fwd_kind_of (winfo x) -> decl (cells names x) (cells names y).
Proof.
  intros Hx Hy Hk Hn Hk'. destruct (cells_head names x Hx) as (c1 & r1 & -> & _).
  destruct (cells_head names y Hy) as (c2 & r2 & -> & _). rewrite Hn. apply decl_fwd; [done|by left].
Qed.

Lemma answer_enum equal js : rec_wf ws1 -> is_enum_kind (wkind ws1) ->
  equal a c = Some (cmp ws1 ws2 ([0; 1; 2] ++ js)) ->
  shape_words (wkind ws1) (wvlen ws1) = [0; 1; 2] ++ js ->
  answer (fun hy' => local hy' a c) hy
    (same ← compat_enums b equal a c; Some (bool_to_Z same, hy)).
Proof.
  intros Hw Hk He Hs. rewrite (compat_enums_spec b wss Hb a c ws1 ws2 H1 H2 equal _ He).
  cbn [mbind option_bind]. apply answer_leaf. destruct (enum_fwd ws1 || enum_fwd ws2) eqn:Ef.
  - intros Hh. apply local_decl. eapply enum_decl; [exact Hb|exact H1|exact H2|done|done|by left].
  - intros Hc. apply (local_same ([0; 1; 2] ++ js)); [done|by rewrite Hs| | |done].
    + intros j Hj. exfalso. unfold ref_words, type_id_words in Hj. fold (wkind ws1) in Hj.
      destruct Hk as [E|E]; rewrite E in Hj; by apply not_elem_of_nil in Hj.
    + right. by left.
Qed.

(** The kinds, one by one. *)
Section Kinds.
Context (Hw : rec_wf ws1) (Hname : cmp ws1 ws2 [0] = true).

Lemma shape_words_in js : (forall j, j ∈ js -> j ∈ shape_words (wkind ws1) (wvlen ws1)) -> in_rec ws1 js.
Proof. by apply shape_in_rec. Qed.

(** Every word of the head and the rest [js] compared, nothing to follow. *)
Lemma case_leaf same js : same = Some (cmp ws1 ws2 ([0; 1; 2] ++ js)) ->
  shape_words (wkind ws1) (wvlen ws1) = [0; 1; 2] ++ js ->
  (forall j, j ∈ ref_words (winfo ws1) -> j ∈ [0; 1; 2]) ->
  answer (fun hy' => local hy' a c) hy (same ← same; Some (bool_to_Z same, hy)).
Proof.
  intros -> Hs Hr. cbn [mbind option_bind]. apply answer_leaf. intros Hc.
  apply (local_same ([0; 1; 2] ++ js)); [done|by rewrite Hs| |right; by left|done].
  intros j Hj. apply elem_of_app. left. by apply Hr.
Qed.

(** A comparison of the shape, and then references. *)
Lemma case_refs same js1 js : same = Some (cmp ws1 ws2 js1) -> 1 ∈ js1 ->
  (forall j, j ∈ shape_words (wkind ws1) (wvlen ws1) -> j = 0 \/ j ∈ js1) ->
  (forall j, j ∈ js <-> j ∈ ref_words (winfo ws1)) ->
  answer (fun hy' => local hy' a c) hy (equiv_and_refs b same rec a c js hy).
Proof. intros -> H1in Hs Hr. by apply answer_refs. Qed.

Lemma ref_words_kind k : wkind ws1 = k ->
  ref_words (winfo ws1) = default [] (match k with
      | KIND_INT | KIND_FLOAT | KIND_ENUM | KIND_ENUM64 => Some []
      | KIND_FWD | KIND_CONST | KIND_VOLATILE | KIND_RESTRICT | KIND_PTR | KIND_TYPEDEF | KIND_FUNC
      | KIND_VAR | KIND_DECL_TAG | KIND_TYPE_TAG => Some [2]
      | KIND_ARRAY => Some [3; 4]
      | KIND_STRUCT | KIND_UNION => Some (elem_words 3 [1] (wvlen ws1))
      | KIND_FUNC_PROTO => Some (2 :: elem_words 2 [1] (wvlen ws1))
      | KIND_DATASEC => Some (elem_words 3 [0] (wvlen ws1))
      | KIND_UNKN | KIND_OTHER => None
      end).
Proof. intros <-. reflexivity. Qed.

Lemma case_single same js1 k : same = Some (cmp ws1 ws2 js1) -> 1 ∈ js1 -> wkind ws1 = k ->
  shape_words k (wvlen ws1) = [0; 1] -> ref_words (winfo ws1) = [2] ->
  answer (fun hy' => local hy' a c) hy (equiv_and_refs b same rec a c [2] hy).
Proof.
  intros Hs H1in Hk Hsh Hr. apply (case_refs _ js1); [done|done| |by rewrite Hr].
  rewrite Hk, Hsh. intros j Hj. elem_inv; [by left|by right].
Qed.

Lemma equiv_kinds :
  answer (fun hy' => local hy' a c) hy
    (let vlen := wvlen ws1 in
     let leaf same := same ← same; Some (bool_to_Z same, hy) in
     match wkind ws1 with
     | KIND_INT => leaf (btf_equal_int_tag b a c)
     | KIND_ENUM => leaf (btf_compat_enum b a c)
     | KIND_ENUM64 => leaf (btf_compat_enum64 b a c)
     | KIND_FWD | KIND_FLOAT => leaf (btf_equal_common b a c)
     | KIND_CONST | KIND_VOLATILE | KIND_RESTRICT | KIND_PTR | KIND_TYPEDEF | KIND_FUNC
     | KIND_TYPE_TAG => equiv_and_refs b (equal_words b a c [1]) rec a c [2] hy
     | KIND_ARRAY => equiv_and_refs b (btf_compat_array b a c) rec a c [4; 3] hy
     | KIND_STRUCT | KIND_UNION =>
         equiv_and_refs b (btf_shallow_equal_struct b a c) rec a c (elem_words 3 [1] vlen) hy
     | KIND_FUNC_PROTO =>
         equiv_and_refs b (btf_compat_fnproto b a c) rec a c (2 :: elem_words 2 [1] vlen) hy
     | _ => Some (- EINVAL, hy)
     end).
Proof.
  cbv zeta. destruct (rec_length ws1 Hw) as (_ & Hu & Hoth). pose proof Ha as (Hvar & Hsec & Htag).
  pose proof shape_words_in as Hin. pose proof (ref_words_kind _ eq_refl) as Hrw.
  assert (Hone1 : equal_words b a c [1] = Some (cmp ws1 ws2 [1])).
  { apply (equal_words_spec b wss Hb); [done..| |]; (eapply (in_rec_head b wss Hb); [done|]);
      intros j ->%list_elem_of_singleton; lia. }
  destruct (wkind ws1) eqn:Ek in |- *; try done; rewrite Ek in Hrw, Hin;
    cbn [default from_option id] in Hrw; cbn [shape_words] in Hin;
    first
    [ (* the modifiers, pointers, functions and typedefs *)
      apply (case_single _ [1] _ Hone1 ltac:(by left) Ek); [done|by rewrite Hrw]
    | (* struct and union *)
      eapply case_refs; [apply (equal_members_spec b wss Hb); [done|done|]; apply Hin; intros j Hj;
                           apply elem_of_app; by right
                        |right; by left|rewrite Ek; by right|by rewrite Hrw]
    | (* int *)
      apply (case_leaf _ [3]); [by apply (equal_rest_spec b wss Hb); [..|apply Hin; intros j Hj; elem_inv; set_solver]
                               |by rewrite Ek|rewrite Hrw; intros j Hj; by apply not_elem_of_nil in Hj]
    | (* fwd and float *)
      apply (case_leaf _ []); [by apply (equal_common_spec b wss Hb)|by rewrite Ek
                              |rewrite Hrw; intros j Hj; elem_inv; set_solver]
    | idtac ].
  - (* array *)
    eapply (case_refs _ [0; 1; 2; 5]).
    + apply (equal_rest_spec b wss Hb a c ws1 ws2 H1 H2 [5]). apply Hin. intros j Hj. elem_inv. set_solver.
    + right. by left.
    + rewrite Ek. by right.
    + rewrite Hrw. intros j. rewrite !elem_of_cons, elem_of_nil. tauto.
  - apply (answer_enum _ (elem_words 2 [0; 1] (wvlen ws1))); [done|left; done| |by rewrite Ek].
    apply (equal_members_spec b wss Hb); [done|done|]. apply Hin. intros j Hj. apply elem_of_app. by right.
  - eapply case_refs.
    + apply (compat_fnproto_spec b wss Hb); [done|done|]. apply Hin. intros j Hj. apply elem_of_app. by right.
    + right. by left.
    + rewrite Ek. by right.
    + by rewrite Hrw.
  - apply (answer_enum _ (elem_words 3 [0; 1; 2] (wvlen ws1))); [done|right; done| |by rewrite Ek].
    apply (equal_members_spec b wss Hb); [done|done|]. apply Hin. intros j Hj. apply elem_of_app. by right.
Qed.
End Kinds.

Lemma b_kind_bool k1 k2 : k1 <> k2 -> negb (bool_decide (k1 = k2 :> kind)) = true.
Proof. intros H. by rewrite bool_decide_eq_false_2. Qed.

(** A pair not met before. *)
Lemma equiv_new_spec : ~ (a = 0 /\ c = 0) ->
  answer (fun hy' => local hy' a c) hy (equiv_new b rec a c hy).
Proof.
  intros Hnz. unfold equiv_new.
  rewrite (b_kind_spec b wss Hb _ _ H1), (b_kind_spec b wss Hb _ _ H2). cbn [mbind option_bind].
  rewrite (equal_words_spec b wss Hb a c ws1 ws2 H1 H2 [0]).
  2,3: (eapply (in_rec_head b wss Hb); [done|]); intros j ->%list_elem_of_singleton; lia.
  cbn [mbind option_bind]. destruct (cmp ws1 ws2 [0]) eqn:Hname; cbn [negb]; [|apply answer_no].
  pose proof (same_names Hname) as Hn.
  pose proof (rec_len3 b wss Hb _ _ H1) as Hl1. pose proof (rec_len3 b wss Hb _ _ H2) as Hl2.
  destruct (decide (wkind ws1 = KIND_FWD)) as [F1|F1], (decide (wkind ws2 = KIND_FWD)) as [F2|F2];
    rewrite ?(bool_decide_eq_true_2 _ F1), ?(bool_decide_eq_true_2 _ F2),
      ?(bool_decide_eq_false_2 _ F1), ?(bool_decide_eq_false_2 _ F2); cbn [orb andb].
  - (* two forward declarations *)
    rewrite (bool_decide_eq_true_2 (wkind ws1 = wkind ws2)) by congruence. cbn [negb].
    rewrite (info_of_spec b wss Hb _ _ H1), (info_of_spec b wss Hb _ _ H2). cbn [mbind option_bind].
    destruct (negb (BTF_INFO_KIND (winfo ws1) =? BTF_INFO_KIND (winfo ws2))); [apply answer_no|].
    apply equiv_kinds; [|done]. apply (rec_of_wf b wss Hb a ws1 H1). intros E. rewrite E in H1.
    injection H1 as <-. done.
  - (* the candidate is a declaration *)
    rewrite b_kind_bool by congruence. unfold Dedup.btf_fwd_kind.
    rewrite (info_of_spec b wss Hb _ _ H1). cbn [mbind option_bind].
    apply answer_leaf. intros Hk%bool_decide_eq_true_1. apply local_decl. left. by apply fwd_decl.
  - (* the canonical type is one *)
    rewrite b_kind_bool by congruence. unfold Dedup.btf_fwd_kind.
    rewrite (info_of_spec b wss Hb _ _ H2). cbn [mbind option_bind]. fold (fwd_kind_of (winfo ws2)).
    destruct (decide (fwd_kind_of (winfo ws2) = wkind ws1)) as [Hk|Hk].
    + rewrite (bool_decide_eq_true_2 _ Hk). cbn [andb bool_to_Z].
      exists 1, (if c <? b_start_id b then adjust_canon hy else hy).
      destruct (c <? b_start_id b); (split_and!; [done|by destruct Hhy|by split|]); left;
        (split_and!; [done| |intros x y H; by left]);
        destruct (local_decl (or_intror (fwd_decl ws2 ws1 Hl2 Hl1 F2 (eq_sym Hn) (eq_sym Hk)))) as (v & w & Hv & Hw & Hm);
        by exists v, w.
    + rewrite (bool_decide_eq_false_2 _ Hk). apply answer_no.
  - rewrite (info_of_spec b wss Hb _ _ H1), (info_of_spec b wss Hb _ _ H2). cbn [mbind option_bind].
    destruct (Z.eqb_spec (BTF_INFO_KIND (winfo ws1)) (BTF_INFO_KIND (winfo ws2))) as [Ek|]; [|apply answer_no].
    cbn [negb]. apply equiv_kinds; [|done].
    apply (rec_of_wf b wss Hb a ws1 H1). intros Ea. rewrite Ea in H1. injection H1 as <-.
    assert (Hc0 : c <> 0) by (intros ->; by apply Hnz).
    destruct (rec_length ws2 (rec_of_wf b wss Hb c ws2 H2 Hc0)) as (_ & Hu & _).
    apply Hu. unfold wkind. by rewrite <- Ek.
Qed.
End Pair.
(** ** Types that were already matched *)

Lemma identical_arrays_spec id1 id2 ws1 ws2 : rec_of wss id1 = Some ws1 -> rec_of wss id2 = Some ws2 ->
  exists r, btf_dedup_identical_arrays b id1 id2 = Some r /\ (r = true -> ws1 = ws2).
Proof.
  intros H1 H2. unfold btf_dedup_identical_arrays.
  rewrite (kind_in_spec b wss Hb _ _ _ H1), (kind_in_spec b wss Hb _ _ _ H2). cbn [mbind option_bind].
  destruct (bool_decide (wkind ws1 ∈ _)) eqn:E1; [|by exists false].
  destruct (bool_decide (wkind ws2 ∈ _)) eqn:E2; [|by exists false]. cbn [negb orb].
  apply (bool_decide_eq_true_1 _), list_elem_of_singleton in E1, E2.
  assert (Hw : forall id ws, rec_of wss id = Some ws -> wkind ws = KIND_ARRAY -> Z.of_nat (length ws) = 6).
  { intros id ws H E. assert (id <> 0) by (intros ->; by injection H as <-).
    destruct (rec_length ws (rec_of_wf b wss Hb id ws H ltac:(done))) as (-> & _). by rewrite E. }
  pose proof (Hw _ _ H1 E1) as L1. pose proof (Hw _ _ H2 E2) as L2.
  eexists. split.
  - apply (equal_words_spec b wss Hb id1 id2 ws1 ws2 H1 H2); intros j Hj; elem_inv; lia.
  - intros Hc. apply (cmp_all _ _ [0; 1; 2; 3; 4; 5]); [lia| |done]. intros j Hj.
    rewrite !elem_of_cons. lia.
Qed.

Lemma identical_structs_spec id1 id2 ws1 ws2 : rec_of wss id1 = Some ws1 -> rec_of wss id2 = Some ws2 ->
  exists r, btf_dedup_identical_structs b id1 id2 = Some r /\ (r = true -> ws1 = ws2).
Proof.
  intros H1 H2. unfold btf_dedup_identical_structs.
  rewrite (kind_in_spec b wss Hb _ _ _ H1), (b_kind_spec b wss Hb _ _ H1), (b_kind_spec b wss Hb _ _ H2).
  cbn [mbind option_bind].
  destruct (bool_decide (wkind ws1 ∈ _)) eqn:E1; [|by exists false].
  destruct (bool_decide (wkind ws1 = wkind ws2)) eqn:E2; [|by exists false]. cbn [negb orb].
  apply (bool_decide_eq_true_1 _) in E1.
  assert (Hid : id1 <> 0) by (intros ->; injection H1 as <-; by elem_inv).
  pose proof (rec_of_wf b wss Hb _ _ H1 Hid) as Hw. destruct (rec_length ws1 Hw) as (Hl & _).
  assert (Hk : kind_words (wkind ws1) (wvlen ws1) = 3 + 3 * wvlen ws1).
  { apply elem_of_cons in E1 as [E | E%list_elem_of_singleton]; by rewrite E. }
  assert (Hin : forall f, 0 <= f < 3 -> in_rec ws1 (elem_words 3 [f] (wvlen ws1))).
  { intros f Hf j Hj. elem_inv; lia. }
  assert (Hin2 : in_rec ws1 (elem_words 3 [0; 2] (wvlen ws1))) by (intros j Hj; elem_inv; lia).
  unfold btf_shallow_equal_struct.
  rewrite (equal_members_spec b wss Hb id1 id2 ws1 ws2 H1 H2 (elem_words 3 [0; 2]) Hin2). cbn [mbind option_bind].
  destruct (cmp ws1 ws2 _) eqn:Ec; cbn [negb]; [|by exists false].
  assert (Hlen : length ws1 = length ws2).
  { apply (same_info_len b wss Hb id1 id2 ws1 ws2 H1 H2).
    apply (cmp_info b wss Hb id1 id2 ws1 ws2 H1 H2 _ ltac:(right; by left) Ec). }
  rewrite (info_of_spec b wss Hb _ _ H1). cbn [mbind option_bind]. fold (wvlen ws1).
  rewrite (equal_words_spec b wss Hb id1 id2 ws1 ws2 H1 H2).
  2: by apply Hin. 2: { intros j Hj. rewrite <- Hlen. revert j Hj. by apply Hin. }
  eexists. split; [done|]. intros Hc.
  apply (cmp_all _ _ (([0; 1; 2] ++ elem_words 3 [0; 2] (wvlen ws1)) ++ elem_words 3 [1] (wvlen ws1))); [done| |].
  - intros j Hj. rewrite Hl, Hk in Hj. rewrite !elem_of_app, !elem_words_in, !elem_of_cons.
    destruct (Z.ltb_spec j 3); [lia|].
    destruct (elem_of_word 3 (wvlen ws1) j) as (i & f & Hi & Hf & ->); [lia|lia|].
    assert (f = 0 \/ f = 1 \/ f = 2) as [-> | [-> | ->]] by lia.
    + left. right. exists i, 0. split_and!; [lia|lia|by left|done].
    + right. exists i, 1. split_and!; [lia|lia|by left|done].
    + left. right. exists i, 2. split_and!; [lia|lia|right; by left|done].
  - rewrite cmp_app, Ec, Hc. done.
Qed.

(** A new pair in the correspondence. *)
Lemma hypot_add_spec hy a c : hy_ok hy -> 0 <= a <= n -> 0 <= c <= n ->
  (exists v, aref (hypot_map hy) c = Some v /\ is_mapped v = false) ->
  exists err hy', btf_dedup_hypot_map_add alloc_ok hy c a = Some (err, hy') /\ hy_ok hy' /\ grows hy hy' /\
    (err = 0 /\ hyp hy' a c /\ (unmapped hy' < unmapped hy)%nat /\
       (forall x y, hyp hy' x y -> hyp hy x y \/ x = a /\ y = c)
     \/ err = - ENOMEM /\ oom).
Proof.
  intros Hk Ha Hc (v & Hv & Hvm). pose proof Hk as [Hl Hi Hli]. unfold btf_dedup_hypot_map_add.
  set (cap := if _ =? _ then _ else _).
  destruct (_ && negb (alloc_ok (4 * cap))) eqn:Eo.
  { eexists _, _. split; [done|]. split_and!; [by split|by split|]. right. split; [done|].
    exists (4 * cap). by zbool. }
  destruct (aset (hypot_map hy) c a) as [m|] eqn:Es.
  2: { rewrite aset_Some in Es by (rewrite Hl; lia). done. }
  cbn [mbind option_bind]. pose proof (aset_inv _ _ _ _ Es) as [Hcr Em].
  assert (Ham : is_mapped a = true).
  { pose proof (wss_small b wss Hb). unfold is_mapped. apply Z.leb_le. lia. }
  assert (Hold : forall x y, hyp hy x y -> y <> c).
  { intros x y [Hx Hxm] ->. congruence. }
  set (hy' := {| hypot_map := m; hypot_list := _; hypot_cap := cap; hypot_adjust_canon := _ |}).
  assert (Hnew : hyp hy' a c) by (split; [by eapply aref_aset_eq|done]).
  assert (Hkeep : forall x y, hyp hy x y -> hyp hy' x y).
  { intros x y H. split; [|by destruct H]. cbn. rewrite (aref_aset_ne _ _ _ _ _ Es); [by destruct H|].
    intros ->. by eapply Hold. }
  assert (Hback : forall x y, hyp hy' x y -> hyp hy x y \/ x = a /\ y = c).
  { intros x y [Hx Hxm]. cbn in Hx. destruct (Z.eqb_spec c y) as [<-|Hne].
    - rewrite (aref_aset_eq _ _ _ _ Es) in Hx. right. split; [congruence|done].
    - left. rewrite (aref_aset_ne _ _ _ _ _ Es) in Hx by done. done. }
  assert (Hdec : (unmapped hy' < unmapped hy)%nat).
  { unfold unmapped, hy'. cbn [hypot_map]. rewrite Em. destruct (aref_lookup _ _ _ Hv) as [_ Hv'].
    rewrite (count_insert (fun v => negb (is_mapped v)) (hypot_map hy) (Z.to_nat c) v a Hv'); [lia|by rewrite Hvm|by rewrite Ham]. }
  exists 0, hy'. split; [done|]. split_and!.
  - split.
    + unfold hy'. cbn [hypot_map]. rewrite Em, length_insert. lia.
    + intros y x H. cbn. rewrite elem_of_app. destruct (Hback _ _ H) as [Hh|[-> ->]].
      * destruct (Hi _ _ Hh). split; [done|by left].
      * split; [done|right; by left].
    + intros y Hy. cbn in Hy. apply elem_of_app in Hy as [Hy| ->%list_elem_of_singleton].
      * destruct (Hli y Hy) as (Hr & x & Hx). split; [done|]. exists x. by apply Hkeep.
      * split; [done|]. by exists a.
  - split; [done|lia].
  - left. split_and!; done.
Qed.

(** ** The comparison of two graphs *)

Section Compare.
Context (map : list Z) (Hm : map_ok g n map).

Lemma resolve_fwd_spec c : 0 <= c <= n ->
  exists c', resolve_fwd_id b map c = Some c' /\ 0 <= c' <= n /\ equiv g c' c /\
    (c' = c \/ resolve_type_id map c = Some c').
Proof.
  intros Hc. destruct (rec_of_Some wss c Hc) as [ws H]. unfold resolve_fwd_id.
  rewrite (is_fwd_spec b wss Hb _ _ H). cbn [mbind option_bind].
  assert (Hself : equiv g c c) by by apply equiv_refl'.
  destruct (negb _); [exists c; split_and!; [done|lia|lia|done|by left]|].
  destruct (resolve_ok g n view_closed Hone view_dom map c Hm Hc) as (k & r & _ & E & Hr & He).
  rewrite E. cbn [mbind option_bind]. destruct (rec_of_Some wss r Hr) as [wsr Hwr].
  rewrite (is_fwd_spec b wss Hb _ _ Hwr). cbn [mbind option_bind]. eexists. split; [done|].
  destruct (bool_decide _); [split_and!; [lia|lia|done|by left]|].
  split_and!; [lia|lia|by apply equiv_sym|by right].
Qed.

Lemma resolve_void : resolve_type_id map 0 = Some 0.
Proof.
  apply (resolve_spec map 0). constructor. exists 0. split; [apply (mo_void _ _ _ Hm)|by right].
Qed.

Lemma is_equiv_spec fuel : rec_spec fuel (btf_dedup_is_equiv b alloc_ok map fuel).
Proof.
  induction fuel as [|fuel IH]; intros a c hy Ha Hc Ht Hk Hf; [lia|]. cbn [btf_dedup_is_equiv].
  destruct (resolve_ok g n view_closed Hone view_dom map a Hm Ha) as (k1 & r1 & _ & E1 & Hr1 & He1).
  destruct (resolve_ok g n view_closed Hone view_dom map c Hm Hc) as (k2 & r2 & _ & E2 & Hr2 & He2).
  rewrite E1, E2. cbn [mbind option_bind].
  assert (Hyes : rel hy a c -> answer (fun hy' => rel hy' a c) hy (Some (1, hy))).
  { intros Hr. exists 1, hy. split_and!; [done|done|apply grows_refl|]. left. split_and!; [done|done|].
    intros x y H. by left. }
  destruct (Z.eqb_spec r1 r2) as [->|Hne].
  { apply Hyes. exists r2, r2. split_and!; [done|by right|by apply equiv_sym]. }
  destruct (resolve_fwd_spec c Hc) as (c' & -> & Hc' & Hec & Hcc). cbn [mbind option_bind].
  destruct (aref_Some (hypot_map hy) c') as [h Hh]; [rewrite (hk_len _ Hk); lia|]. rewrite Hh.
  cbn [mbind option_bind]. destruct (rec_of_Some wss a Ha) as [ws1 H1].
  destruct (is_mapped h) eqn:Em.
  - assert (Hhyp : hyp hy h c') by by split. destruct (hk_ids _ Hk _ _ Hhyp) as [Hhr _].
    destruct (Z.eqb_spec h a) as [->|Hnea].
    { apply Hyes. exists a, c'. split_and!; [by apply equiv_refl'|by left|done]. }
    destruct (rec_of_Some wss h Hhr) as [wsh H2].
    assert (Hsame : wsh = ws1 -> rel hy a c).
    { intros ->. exists h, c'. split_and!; [by eapply same_words_equiv|by left|done]. }
    destruct (identical_arrays_spec h a wsh ws1 H2 H1) as (ra & -> & Hra). cbn [mbind option_bind].
    destruct ra; [by apply Hyes, Hsame, Hra|].
    destruct (identical_structs_spec h a wsh ws1 H2 H1) as (rs & -> & Hrs). cbn [mbind option_bind].
    destruct rs; [by apply Hyes, Hsame, Hrs|].
    exists 0, hy. split_and!; [done|done|apply grows_refl|]. right. by left.
  - destruct (hypot_add_spec hy a c' Hk Ha Hc' ltac:(by exists h)) as (err & hy1 & -> & Hk1 & Hg1 & Ho).
    cbn [mbind option_bind]. destruct Ho as [(-> & Hnew & Hdec & Hback)|(-> & Hoom)].
    2: { exists (- ENOMEM), hy1. split_and!; [done|done|done|]. right. by right. }
    change (negb (0 =? 0)) with false. cbv iota.
    destruct (rec_of_Some wss c' Hc') as [ws2 H2].
    destruct (equiv_new_spec fuel _ IH a c' ws1 ws2 H1 H2 (Ht _ H1) hy1 Hk1 ltac:(lia))
      as (eq & hy2 & -> & Hk2 & Hg2 & Ho2).
    { intros [-> ->]. pose proof resolve_void as E0. destruct Hcc as [<-|E]; congruence. }
    exists eq, hy2. split_and!; [done|done|by eapply grows_trans|].
    destruct Ho2 as [(-> & Hloc & Hcl)|Ho2]; [|by right]. left. split_and!; [done| |].
    + exists a, c'. split_and!; [by apply equiv_refl'| |done]. left. by apply (gr_hyp _ _ Hg2).
    + intros x y Hxy. destruct (Hcl x y Hxy) as [[H|[-> ->]]%Hback|H]; [by left|by right|by right].
Qed.
End Compare.

(** ** Clearing and merging *)

Lemma clear_ids_spec ids : forall m, (forall i, i ∈ ids -> 0 <= i < Z.of_nat (length m)) ->
  exists m', clear_ids m ids = Some m' /\ length m' = length m /\
    forall i v, aref m' i = Some v -> is_mapped v = true -> aref m i = Some v /\ i ∉ ids.
Proof.
  induction ids as [|i ids IH]; intros m Hin; cbn [clear_ids].
  { exists m. split_and!; [done|done|]. intros. split; [done|apply not_elem_of_nil]. }
  destruct (aset_defined m i (nth (Z.to_nat i) m 0) BTF_UNPROCESSED_ID) as [m1 E].
  { pose proof (Hin i ltac:(by left)). destruct (aref_Some m i) as [v Hv]; [done|]. rewrite Hv.
    apply aref_lookup in Hv as [_ Hv]. f_equal. symmetry. by apply nth_lookup_Some. }
  rewrite E. cbn [mbind option_bind]. pose proof (aset_inv _ _ _ _ E) as [_ Em].
  assert (Hl1 : length m1 = length m) by (by rewrite Em, length_insert).
  destruct (IH m1) as (m' & -> & Hl & Hk).
  { intros j Hj. rewrite Hl1. apply Hin. by right. }
  exists m'. split_and!; [done|congruence|]. intros j v Hj Hv. destruct (Hk j v Hj Hv) as [Hj1 Hn].
  destruct (Z.eqb_spec i j) as [<-|Hne].
  - rewrite (aref_aset_eq _ _ _ _ E) in Hj1. injection Hj1 as <-. done.
  - rewrite (aref_aset_ne _ _ _ _ _ E) in Hj1 by done. split; [done|].
    intros [->|]%elem_of_cons; done.
Qed.

Lemma clear_hypot_spec hy : hy_ok hy ->
  exists hy', btf_dedup_clear_hypot_map hy = Some hy' /\ hy_ok hy' /\ forall a c, ~ hyp hy' a c.
Proof.
  intros [Hl Hi Hli]. unfold btf_dedup_clear_hypot_map.
  destruct (clear_ids_spec (hypot_list hy) (hypot_map hy)) as (m & -> & Hml & Hk).
  { intros i Hin. rewrite Hl. destruct (Hli i Hin) as [? _]. lia. }
  cbn [mbind option_bind]. eexists. split; [done|].
  assert (Hno : forall a c, ~ (aref m c = Some a /\ is_mapped a = true)).
  { intros a c [Ha Hm]. destruct (Hk c a Ha Hm) as [Hc Hn]. apply Hn.
    apply (Hi c a). by split. }
  split; [|exact Hno]. split; cbn [hypot_map hypot_list].
  - lia.
  - intros c a H. exfalso. by eapply Hno.
  - intros c Hc. by apply not_elem_of_nil in Hc.
Qed.

(** All pairs of a correspondence that closes over itself are equivalent. *)
Lemma closes_equiv hy hy' : (forall a c, ~ hyp hy a c) -> closes hy hy' ->
  (forall x y, hyp hy' x y -> equiv g x y) /\ (forall x y, rel hy' x y -> equiv g x y).
Proof.
  intros Hno Hc.
  assert (Hh : forall x y, hyp hy' x y -> equiv g x y).
  { apply (follows_equiv g view_closed Hone). intros a c H. by destruct (Hc a c H) as [?%Hno|]. }
  split; [done|]. intros x y (i & j & H1 & [H2|<-] & H3); [|by eapply equiv_trans'].
  eapply equiv_trans'; [done|]. eapply equiv_trans'; [by apply Hh|done].
Qed.

(** What merging keeps: mapped types stay mapped, and to the same type unless
    they are forward declarations.  With [adj], nothing else changes. *)
Definition keeps (adj : bool) (map map' : list Z) : Prop :=
  (forall i v, aref map i = Some v -> is_mapped v = true ->
     exists v', aref map' i = Some v' /\ is_mapped v' = true /\
       (forall ws, rec_of wss i = Some ws -> wkind ws <> KIND_FWD -> v' = v)) /\
  (adj = true -> forall i ws, rec_of wss i = Some ws -> wkind ws <> KIND_FWD -> aref map' i = aref map i) /\
  (forall i v, aref map' i = Some v -> is_mapped v = true \/ aref map i = Some v).

Lemma keeps_refl adj map : keeps adj map map.
Proof.
  split; [|split; [done|by right]]. intros i v Hi Hv. exists v. by split_and!.
Qed.

Lemma keeps_trans adj m1 m2 m3 : keeps adj m1 m2 -> keeps adj m2 m3 -> keeps adj m1 m3.
Proof.
  intros (H1 & A1 & B1) (H2 & A2 & B2). split_and!.
  - intros i v Hi Hv. destruct (H1 i v Hi Hv) as (v2 & Hi2 & Hv2 & E2).
    destruct (H2 i v2 Hi2 Hv2) as (v3 & Hi3 & Hv3 & E3). exists v3. split_and!; [done..|].
    intros ws Hw Hk. rewrite (E3 _ Hw Hk). by eapply E2.
  - intros Ha i ws Hw Hk. rewrite (A2 Ha i ws Hw Hk). by eapply A1.
  - intros i v Hv. destruct (B2 i v Hv) as [|H]; [by left|by apply B1].
Qed.

Lemma keeps_set adj map map' x y ws : aset map x y = Some map' -> is_mapped y = true ->
  rec_of wss x = Some ws ->
  wkind ws = KIND_FWD \/ adj = false /\ (exists v, aref map x = Some v /\ is_mapped v = false) ->
  keeps adj map map'.
Proof.
  intros Hs Hy Hw Hx. split_and!.
  - intros i v Hi Hv. destruct (Z.eqb_spec x i) as [<-|Hne].
    + exists y. split_and!; [by eapply aref_aset_eq|done|]. intros ws' Hw' Hk'.
      destruct Hx as [|(_ & u & Hu & Hum)]; congruence.
    + exists v. split_and!; [by rewrite (aref_aset_ne _ _ _ _ _ Hs)|done..].
  - intros -> i ws' Hw' Hk'. destruct (Z.eqb_spec x i) as [<-|Hne]; [|by apply (aref_aset_ne _ _ _ _ _ Hs)].
    destruct Hx as [|[? _]]; congruence.
  - intros i v Hv. destruct (Z.eqb_spec x i) as [<-|Hne].
    + rewrite (aref_aset_eq _ _ _ _ Hs) in Hv. injection Hv as <-. by left.
    + right. by rewrite (aref_aset_ne _ _ _ _ _ Hs) in Hv.
Qed.

Section Merge.
Context (hy : hypot) (Hhy : hy_ok hy) (Heq : forall a c, hyp hy a c -> equiv g a c).

Lemma merge_pair_spec map c : map_ok g n map -> c ∈ hypot_list hy ->
  exists map', merge_pair b hy map c = Some map' /\ map_ok g n map' /\ keeps (hypot_adjust_canon hy) map map'.
Proof.
  intros Hm Hc. destruct (hk_list _ Hhy c Hc) as (Hcr & a & Hac). destruct (hk_ids _ Hhy _ _ Hac) as [Har _].
  unfold merge_pair. destruct Hac as [Hac Ham]. rewrite Hac. cbn [mbind option_bind].
  destruct (resolve_ok g n view_closed Hone view_dom map a Hm Har) as (k1 & t & Hlt & -> & Htr & Het).
  destruct (resolve_ok g n view_closed Hone view_dom map c Hm Hcr) as (k2 & r & Hlr & -> & Hrr & Her).
  cbn [mbind option_bind].
  assert (Hrt : equiv g r t).
  { eapply equiv_trans'; [by apply equiv_sym|]. eapply equiv_trans'; [|done]. by apply equiv_sym, Heq. }
  destruct (rec_of_Some wss t Htr) as [wst Hwt]. destruct (rec_of_Some wss r Hrr) as [wsr Hwr].
  destruct (type_by_id_word b wss Hb _ _ Hwt) as (tp & _ & -> & Htw).
  destruct (type_by_id_word b wss Hb _ _ Hwr) as (cp & _ & -> & Hcw). cbn [mbind option_bind].
  rewrite (Htw 1 _ (aref_head b wss Hb _ _ 1 Hwt ltac:(lia))), (Hcw 1 _ (aref_head b wss Hb _ _ 1 Hwr ltac:(lia))).
  cbn [mbind option_bind]. change (kind_of (BTF_INFO_KIND (nth (Z.to_nat 1) wst 0))) with (wkind wst).
  change (kind_of (BTF_INFO_KIND (nth (Z.to_nat 1) wsr 0))) with (wkind wsr).
  pose proof (mo_small _ _ _ Hm) as Hsm.
  pose proof (leads_end _ _ _ _ Hlt) as Hroot_t. pose proof (leads_end _ _ _ _ Hlr) as Hroot_r.
  destruct (decide (wkind wst = KIND_FWD)) as [F1|F1], (decide (wkind wsr = KIND_FWD)) as [F2|F2];
    rewrite ?(bool_decide_eq_true_2 _ F1), ?(bool_decide_eq_true_2 _ F2),
      ?(bool_decide_eq_false_2 _ F1), ?(bool_decide_eq_false_2 _ F2); cbn [negb andb mbind option_bind].
  - rewrite (bool_decide_eq_false_2 (wkind wst ∈ [KIND_STRUCT; KIND_UNION])).
    2: { rewrite F1. intros ?. by elem_inv. }
    cbn [andb]. destruct (hypot_adjust_canon hy); exists map; by split_and!; [..|apply keeps_refl].
  - destruct (hypot_adjust_canon hy) eqn:Ea; [exists map; by split_and!; [..|apply keeps_refl]|].
    assert (Ht0 : t <> 0) by (intros ->; by injection Hwt as <-).
    destruct (map_aset g n map t r Hm Htr) as [map' Hs]. rewrite Hs. cbn [mbind option_bind].
    rewrite (bool_decide_eq_false_2 (wkind wst ∈ [KIND_STRUCT; KIND_UNION])).
    2: { rewrite F1. intros ?. by elem_inv. }
    cbn [andb]. exists map'. split_and!; [done| |].
    + eapply (map_ok_set g n map map' t r); [done|done|done|done| |by left].
      eapply declares_replaces; [done|by left|by apply equiv_sym].
    + eapply keeps_set; [done|by apply (is_mapped_id n)|done|by left].
  - assert (Hr0 : r <> 0) by (intros ->; by injection Hwr as <-).
    destruct (map_aset g n map r t Hm Hrr) as [map' Hs]. rewrite Hs. cbn [mbind option_bind].
    assert (Hres : map_ok g n map' /\ keeps (hypot_adjust_canon hy) map map').
    { split; [eapply (map_ok_set g n map map' r t); [done|done|done|done| |by left];
        by eapply declares_replaces; [|left|]|].
      eapply keeps_set; [done|by apply (is_mapped_id n)|done|by left]. }
    rewrite andb_false_r.
    destruct (hypot_adjust_canon hy); exists map'; split_and!; tauto || done.
  - destruct (hypot_adjust_canon hy) eqn:Ea; [exists map; by split_and!; [..|apply keeps_refl]|].
    rewrite andb_true_r. destruct (bool_decide (wkind wst ∈ [KIND_STRUCT; KIND_UNION])) eqn:Ek; [|exists map; by split_and!; [..|apply keeps_refl]].
    apply (bool_decide_eq_true_1 _) in Ek.
    destruct Hroot_r as (cv & Hcv & Hcv'). destruct Hroot_t as (tv & Htv & Htv'). rewrite Hcv, Htv.
    cbn [mbind option_bind]. destruct (is_mapped cv) eqn:Emc; cbn [andb];
      [|exists map; by split_and!; [..|apply keeps_refl]].
    destruct (is_mapped tv) eqn:Emt; cbn [negb]; [exists map; by split_and!; [..|apply keeps_refl]|].
    assert (Ht0 : t <> 0) by (intros ->; injection Hwt as <-; by elem_inv).
    destruct (map_aset g n map t r Hm Htr) as [map' Hs]. rewrite Hs. exists map'. split_and!; [done| |].
    + eapply (map_ok_set g n map map' t r); [done|done|done|done| |left; by exists cv; split; [|rewrite Emc]].
      eapply struct_replaces; [done|done|done|done|by apply equiv_sym].
    + eapply keeps_set; [done|by apply (is_mapped_id n)|done|right; split; [done|by exists tv]].
Qed.

Lemma merge_pairs_spec ids : (forall i, i ∈ ids -> i ∈ hypot_list hy) -> forall map, map_ok g n map ->
  exists map', merge_pairs b hy map ids = Some map' /\ map_ok g n map' /\ keeps (hypot_adjust_canon hy) map map'.
Proof.
  induction ids as [|i ids IH]; intros Hin map Hm; cbn [merge_pairs].
  { exists map. by split_and!; [..|apply keeps_refl]. }
  destruct (merge_pair_spec map i Hm) as (map1 & -> & Hm1 & Hk1); [apply Hin; by left|].
  cbn [mbind option_bind]. destruct (IH ltac:(intros j Hj; apply Hin; by right) map1 Hm1) as (map2 & -> & Hm2 & Hk2).
  exists map2. split_and!; [done|done|by eapply keeps_trans].
Qed.

Lemma merge_spec map : map_ok g n map ->
  exists map', btf_dedup_merge_hypot_map b hy map = Some map' /\ map_ok g n map' /\ keeps (hypot_adjust_canon hy) map map'.
Proof. apply merge_pairs_spec. done. Qed.
End Merge.

End Equiv.
