(* ===== verification/DedupTable.v ===== *)
(** * The hash map as a multimap

    [hashmap__append] and [hashmap__for_each_key_entry], as deduplication uses
    them for the table of candidates: appending keeps all entries and adds
    one, and iterating over a key gives exactly the values stored under it. *)

From S2P Require Import Prelude Hashmap Btf BtfBuild BtfVisit Dedup DedupTypes.

Section Table.
Context (alloc_ok : Z -> bool) (hash_fn : Z -> Z).
Implicit Types (t : hashmap Z Z).

Definition table_ok t : Prop :=
  shape t /\ placed hash_fn (cap_bits t) (buckets t) /\ sz t = Z.of_nat (length (entries t)).

Lemma table_init : table_ok hashmap__init.
Proof.
  split_and!; [by left| |done]. intros i b e H. by destruct i.
Qed.

Lemma table_grow t : table_ok t -> sz t < 2 ^ 60 -> hashmap_needs_to_grow t = true ->
  exists err t', hashmap_grow alloc_ok hash_fn t = Some (err, t') /\ table_ok t' /\
    entries t' ≡ₚ entries t /\ sz t' = sz t /\
    (err = 0 /\ buckets t' <> [] \/ err = - ENOMEM /\ exists k, alloc_ok k = false).
Proof.
  intros (Hs & Hp & Hz) Hm Hg. unfold hashmap_grow, HASHMAP_MIN_CAP_BITS.
  set (bits := if _ <? 2 then 2 else _).
  assert (Hb : 2 <= bits < 62).
  { subst bits. destruct Hs as [(_ & _ & ->)|(Hb & Hc & _)]; [done|].
    unfold hashmap_needs_to_grow in Hg.
    assert (cap_bits t < 61).
    { apply (Z.pow_lt_mono_r_iff 2); [lia|lia|]. rewrite <- Hc. rewrite wrap_small in Hg by (pow2; lia).
      change (2 ^ 61) with 2305843009213693952. apply orb_true_iff in Hg as [Hg|Hg]; [lia|].
      Z.to_euclidean_division_equations. lia. }
    zcase; lia. }
  destruct (64 <=? bits) eqn:?; [lia|]. rewrite Z.shiftl_1_l.
  destruct (alloc_ok (8 * 2 ^ bits)) eqn:Ea; cbn [negb].
  2: { eexists _, _. split_and!; [done|done|done|done|]. right. split; [done|]. by eexists. }
  pose proof (Z.pow_pos_nonneg 2 bits ltac:(lia) ltac:(lia)).
  destruct (rehash_spec hash_fn bits (concat (buckets t)) (replicate (Z.to_nat (2 ^ bits)) []))
    as (bs & -> & Hl & Hp' & Hc).
  { lia. }
  { rewrite length_replicate. lia. }
  { intros j b e Hj He. apply lookup_replicate in Hj as [-> _]. by apply not_elem_of_nil in He. }
  rewrite length_replicate in Hl.
  assert (Hpe : concat bs ≡ₚ entries t).
  { rewrite Hc. replace (concat (replicate (Z.to_nat (2 ^ bits)) [])) with ([] : list (Z * Z)).
    - by rewrite app_nil_r.
    - symmetry. clear. induction (Z.to_nat (2 ^ bits)); done. }
  eexists _, _. split; [reflexivity|]. cbn [buckets cap cap_bits sz]. split_and!; [|done|done|].
  - split_and!; [right; cbn; split_and!; [lia|lia|done|lia]|done|]. unfold entries at 1. cbn [buckets sz].
    by rewrite Hpe.
  - left. split; [done|]. intros ->. simpl in Hl. lia.
Qed.

Lemma table_append t k v : table_ok t -> sz t < 2 ^ 59 ->
  exists err t', hashmap__insert alloc_ok hash_fn btf_dedup_equal_fn t k v HASHMAP_APPEND = Some (err, None, t') /\
    table_ok t' /\
    (err = 0 /\ entries t' ≡ₚ (k, v) :: entries t /\ sz t' = sz t + 1 \/
     err = - ENOMEM /\ entries t' ≡ₚ entries t /\ sz t' = sz t /\ exists j, alloc_ok j = false).
Proof.
  intros Ht Hm. unfold hashmap__insert. cbn [mbind option_bind]. unfold insert_new.
  assert (exists err t1, (if hashmap_needs_to_grow t then hashmap_grow alloc_ok hash_fn t
                          else Some (0, t)) = Some (err, t1) /\ table_ok t1 /\
    entries t1 ≡ₚ entries t /\ sz t1 = sz t /\
    (err = 0 /\ buckets t1 <> [] \/ err = - ENOMEM /\ exists j, alloc_ok j = false))
    as (err & t1 & -> & Ht1 & Hp1 & Hz1 & Hc).
  { destruct (hashmap_needs_to_grow t) eqn:Eg; [apply table_grow; [done|lia|done]|].
    exists 0, t. split_and!; [done|done|done|done|]. left. split; [done|]. intros Eb.
    destruct Ht as ([(_ & Hc & _)|(Hb & Hc & Hl)] & _).
    - unfold hashmap_needs_to_grow in Eg. by rewrite Hc in Eg.
    - rewrite Eb in Hl. pose proof (Z.pow_pos_nonneg 2 (cap_bits t)). simpl in Hl. lia. }
  cbn [mbind option_bind]. destruct Hc as [[-> Hne]|[-> Ha]]; cbn [Z.eqb Pos.eqb Z.opp negb].
  2: { eexists _, _. split_and!; [done|done|]. right. by split_and!. }
  destruct (alloc_ok 24) eqn:Ea; cbn [negb].
  2: { eexists _, _. split_and!; [done|done|]. right. split_and!; [done..|by eexists]. }
  destruct Ht1 as (Hs & Hp & Hz). pose proof (chain_exists hash_fn t1 k Hs Hne) as Hh.
  destruct (aref_Some (buckets t1) (hash_bits (hash_fn k) (cap_bits t1))) as [b Hb]; [done|]. rewrite Hb.
  cbn [mbind option_bind]. unfold set_chain. rewrite aset_Some by done. cbn [mbind option_bind].
  apply aref_lookup in Hb as [Hb0 Hb]. destruct (concat_insert _ _ _ Hb) as (rest & H1 & H2).
  eexists _, _. split; [reflexivity|]. cbn [buckets cap cap_bits sz].
  rewrite wrap_small by (rewrite Hz1; pow2; lia).
  assert (Hpe : entries t1 ≡ₚ b ++ rest) by exact H1.
  split.
  - split_and!.
    + destruct Hs as [(? & _)|(H3 & H4 & H5)]; [done|]. right. cbn. by rewrite length_insert.
    + apply placed_insert; [done|]. rewrite Z2Nat.id by lia. intros e [->|He]%elem_of_cons; [done|].
      pose proof (Hp _ _ _ Hb He). cbn [cap_bits]. lia.
    + unfold entries. cbn [buckets sz]. rewrite H2. rewrite Hz, Hpe. simpl. rewrite !length_app. lia.
  - left. split_and!; [done| |by rewrite Hz1]. unfold entries at 1. cbn [buckets]. rewrite H2, <- Hp1, Hpe. done.
Qed.

Lemma table_iter t k : table_ok t ->
  exists cs, hashmap__for_each_key_entry hash_fn btf_dedup_equal_fn t k = Some cs /\
    forall v, v ∈ cs <-> (k, v) ∈ entries t.
Proof.
  intros (Hs & Hp & _). unfold hashmap__for_each_key_entry.
  destruct (decide (buckets t = [])) as [E|E].
  { rewrite E. exists []. split; [done|]. intros v. unfold entries. rewrite E. simpl.
    split; by intros ?%not_elem_of_nil. }
  pose proof (chain_exists hash_fn t k Hs E) as Hh.
  destruct (aref_Some (buckets t) (hash_bits (hash_fn k) (cap_bits t))) as [b Hb]; [done|].
  destruct (buckets t) as [|b0 bs] eqn:Eb; [done|]. rewrite <- Eb in *. rewrite Hb.
  cbn [mbind option_bind]. eexists. split; [done|]. apply aref_lookup in Hb as [Hb0 Hb].
  intros v. rewrite list_elem_of_fmap. split.
  - intros ([k' v'] & -> & He). apply list_elem_of_filter in He as [Hk He]. cbn in *.
    unfold btf_dedup_equal_fn in Hk. apply Z.eqb_eq in Hk as ->.
    unfold entries. apply list_elem_of_In, in_concat. exists b. split; apply list_elem_of_In; [|done].
    by eapply list_elem_of_lookup_2.
  - intros He. exists (k, v). split; [done|]. apply list_elem_of_filter. split; [apply Z.eqb_refl|].
    unfold entries in He. apply list_elem_of_In, in_concat in He as (b' & Hb1 & Hb2).
    apply list_elem_of_In in Hb1, Hb2. apply list_elem_of_lookup_1 in Hb1 as [j Hj].
    pose proof (Hp j b' _ Hj Hb2) as Hpl. cbn in Hpl.
    assert (j = Z.to_nat (hash_bits (hash_fn k) (cap_bits t))) as -> by lia. by simplify_eq.
Qed.
End Table.
