(* ===== verification/DedupPasses.v ===== *)
(** * BTF deduplication: the passes over the types

    Primitive types, then structs and unions, then types that refer to
    others.  Each pass ends, fails only for a stated reason, and keeps [map]
    leading from every type to an equivalent one; the last pass also replaces
    references by equivalent ones. *)

From S2P Require Import Prelude Hashmap StrSet Btf BtfBuild BtfVisit BtfExt Dedup TypeGraph.
From S2P Require Import DedupTypes DedupEquiv DedupTable.

(** ** Hashes *)

Lemma hash_words_spec b wss id ws js : trep b wss -> rec_of wss id = Some ws -> in_rec ws js ->
  forall h, exists h', hash_words b id js h = Some h'.
Proof.
  intros Hb H. induction js as [|j js IH]; intros Hin h; cbn [hash_words]; [by eexists|].
  destruct (aref_Some ws j) as [w E]; [by apply Hin, list_elem_of_here|].
  rewrite (type_word_spec _ _ Hb _ _ _ _ H E). cbn [mbind option_bind]. apply IH.
  intros k Hk. apply Hin. by right.
Qed.

Lemma find_cand_spec equal eq cands : (forall c, c ∈ cands -> equal c = Some (eq c)) ->
  exists r, find_cand equal cands = Some r /\
    match r with Some c => c ∈ cands /\ eq c = true | None => True end.
Proof.
  induction cands as [|c cs IH]; intros H; cbn [find_cand]; [by exists None|].
  rewrite (H c) by by left. cbn [mbind option_bind].
  destruct (eq c) eqn:E; [exists (Some c); split; [done|split; [by left|done]]|].
  destruct (IH ltac:(intros; apply H; by right)) as (r & -> & Hr). exists r. split; [done|].
  destruct r; [|done]. destruct Hr. split; [by right|done].
Qed.

(** A loop over types with an invariant. *)
Lemma for_types_spec {St} (f : St -> Z -> option (Z * St)) (I : Z -> St -> Prop) (E : Z -> St -> Prop) hi :
  (forall s i, i < hi -> I i s -> exists err s', f s i = Some (err, s') /\
     (err < 0 /\ E err s' \/ 0 <= err /\ I (i + 1) s')) ->
  forall n lo s, lo + Z.of_nat n = hi -> I lo s ->
  exists err s', for_types f s lo n = Some (err, s') /\ (err < 0 /\ E err s' \/ err = 0 /\ I hi s').
Proof.
  intros Hf. induction n as [|n IH]; intros lo s Hn Hs; cbn [for_types].
  { exists 0, s. split; [done|]. right. split; [done|]. by replace hi with lo by lia. }
  destruct (Hf s lo ltac:(lia) Hs) as (err & s' & -> & Ho). cbn [mbind option_bind].
  destruct Ho as [[Hneg He]|[Hpos Hi]].
  - assert ((err <? 0) = true) as -> by lia. exists err, s'. split; [done|]. by left.
  - assert ((err <? 0) = false) as -> by lia. apply IH; [lia|done].
Qed.

Section Passes.
Context (alloc_ok : Z -> bool) (force : bool) (b : bobj) (wss : list (list Z)) (names : Z -> list Z).
Context (Hb : trep b wss) (Hrefs : refs_closed wss) (Htyped : refs_typed wss).
Context (Hone : one_definition (view names wss)).

Abbreviation n := (Z.of_nat (length wss)) (only parsing).
Abbreviation g := (view names wss) (only parsing).
Abbreviation hf := (hash_fn force) (only parsing).

Definition mapped (map : list Z) (i : Z) : Prop := exists v, aref map i = Some v /\ is_mapped v = true.

Definition prog (map : list Z) (i : Z) : Prop := aref map i = Some BTF_IN_PROGRESS_ID.

Definition free (map : list Z) : nat := length (List.filter (fun v => negb (is_mapped v)) map).

(** The candidates are mapped, and stand for themselves except for those of
    the kinds [P]. *)
Definition cands_ok (P : list Z -> Prop) (map : list Z) (t : hashmap Z Z) : Prop :=
  forall h v, (h, v) ∈ entries t -> 1 <= v <= n /\ mapped map v /\
    forall ws, rec_of wss v = Some ws -> ~ P ws -> aref map v = Some v.

Record pass_inv (P : list Z -> Prop) (bound : Z) (d : btf_dedup) : Prop := {
  pi_map : map_ok g n (d_map d);
  pi_table : table_ok hf (dedup_table d);
  pi_cands : cands_ok P (d_map d) (dedup_table d);
  pi_hypot : hy_ok wss (d_hypot d);
  pi_bound : sz (dedup_table d) + Z.of_nat (free (d_map d)) <= bound;
}.

(** What the passes leave alone. *)
Definition same_obj (d d' : btf_dedup) : Prop :=
  d_btf d' = d_btf d /\ strs_deduped d' = strs_deduped d /\ d_ext d' = d_ext d /\ strs_set d' = strs_set d.

Definition failed (err : Z) : Prop := err = - ENOMEM /\ oom alloc_ok.

Lemma same_obj_refl d : same_obj d d.
Proof. done. Qed.

Lemma same_obj_trans d d' d'' : same_obj d d' -> same_obj d' d'' -> same_obj d d''.
Proof. intros (? & ? & ? & ?) (? & ? & ? & ?). split_and!; congruence. Qed.

Lemma free_set map map' x y v : aset map x y = Some map' -> aref map x = Some v ->
  (free map' + Nat.b2n (negb (is_mapped v)) = free map + Nat.b2n (negb (is_mapped y)))%nat.
Proof.
  intros [Hx ->]%aset_inv [_ Hv]%aref_lookup. apply (count_set (fun v => negb (is_mapped v)) _ _ _ _ Hv).
Qed.

Lemma free_le map map' x y : aset map x y = Some map' -> is_mapped y = true -> (free map' <= free map)%nat.
Proof.
  intros Hs Hy. pose proof (aset_inv _ _ _ _ Hs) as [Hx _]. destruct (aref_Some map x Hx) as [v Hv].
  pose proof (free_set _ _ _ _ _ Hs Hv) as H. rewrite Hy in H. simpl in H. lia.
Qed.

Lemma mapped_set map map' x y i : aset map x y = Some map' -> is_mapped y = true -> mapped map i -> mapped map' i.
Proof.
  intros Hs Hy (v & Hi & Hv). destruct (Z.eqb_spec x i) as [<-|Hne].
  - exists y. split; [by eapply aref_aset_eq|done].
  - exists v. split; [by rewrite (aref_aset_ne _ _ _ _ _ Hs)|done].
Qed.

(** ** Settling a type *)

(** Redirecting a type to one that leads to another root. *)
Lemma leads_set map map' x z : aset map x z = Some map' -> root map x ->
  forall k y r, leads map k y r -> r <> x -> leads map' k y r.
Proof.
  intros Hs Hx k y r H. induction H as [y Hy|k y v r Hy Hm Hne Hl IH]; intros Hr.
  - constructor. by eapply root_set.
  - eapply leads_step; [|done|done|by apply IH]. rewrite (aref_aset_ne _ _ _ _ _ Hs); [done|].
    intros <-. assert (H0 : leads map 0 x x) by by constructor.
    destruct (leads_det _ _ _ _ H0 _ _ (leads_step _ _ _ _ _ Hy Hm Hne Hl)). lia.
Qed.

(** The new target leads to a root that is mapped. *)
Lemma settle_spec P bound d h x y : pass_inv P bound d -> bound < 2 ^ 58 -> 1 <= x <= n ->
  ~ mapped (d_map d) x -> 0 <= y <= n -> replaces g x y ->
  (y = x \/ exists k r, leads (d_map d) k y r /\ mapped (d_map d) r) ->
  exists err d', settle alloc_ok force d h x y = Some (err, d') /\ same_obj d d' /\
    (err < 0 /\ failed err \/ err = 0 /\ pass_inv P bound d' /\ aset (d_map d) x y = Some (d_map d')).
Proof.
  intros [Hm Ht Hc Hh Hbd] Hsmall Hx Hnx Hy He Hlead. unfold settle, set_map.
  destruct (map_aset g n (d_map d) x y Hm ltac:(lia)) as [m Hs]. rewrite Hs. cbn [mbind option_bind].
  pose proof (mo_small _ _ _ Hm) as Hsm. assert (Hym : is_mapped y = true) by by apply (is_mapped_id n).
  destruct (aref_Some (d_map d) x) as [v Hv]; [rewrite (mo_len _ _ _ Hm); lia|].
  assert (Hvm : is_mapped v = false).
  { destruct (is_mapped v) eqn:E; [|done]. exfalso. apply Hnx. by exists v. }
  assert (Hroot : root (d_map d) x) by (exists v; split; [done|by left]).
  assert (Hm' : map_ok g n m).
  { destruct Hm as [Hl Hsm' Hv0 Hq Hf]. pose proof (aset_inv _ _ _ _ Hs) as [Hxr E]. split.
    - by rewrite E, length_insert.
    - done.
    - rewrite (aref_aset_ne _ _ _ _ _ Hs); [done|lia].
    - intros i k Hi Hk. destruct (Z.eqb_spec x i) as [<-|Hne].
      + rewrite (aref_aset_eq _ _ _ _ Hs) in Hi. by injection Hi as <-.
      + rewrite (aref_aset_ne _ _ _ _ _ Hs) in Hi by done. by apply Hq.
    - destruct Hlead as [->|(k & r & Hl' & Hr)]; [by eapply forest_set_self|].
      eapply forest_set; [done|done|]. left. exists k, r. eapply leads_set; [done|done|done|]. by intros ->. }
  pose proof (free_set _ _ _ _ _ Hs Hv) as Hfree. rewrite Hvm, Hym in Hfree. simpl in Hfree.
  assert (Hcm : cands_ok P m (dedup_table d)).
  { intros k w Hw. destruct (Hc k w Hw) as (Hr & Hmw & Hself). split_and!; [lia|lia|by eapply mapped_set|].
    intros ws Hws HP. rewrite (aref_aset_ne _ _ _ _ _ Hs); [by eapply Hself|]. intros <-. by apply Hnx. }
  destruct (Z.eqb_spec x y) as [<-|Hne].
  2: { exists 0, (with_map d m). split; [done|]. split; [done|]. right. split; [done|]. split.
       - split; cbn [d_map dedup_table d_hypot with_map]; [done..|lia].
       - done. }
  unfold btf_dedup_table_add. cbn [dedup_table with_map].
  destruct (table_append alloc_ok hf (dedup_table d) h x Ht) as (err & t' & -> & Ht' & Ho); [lia|].
  cbn [mbind option_bind]. eexists _, _. split; [done|]. split; [done|].
  destruct Ho as [(-> & Hent & Hsz)|(-> & Hent & Hsz & Ha)]; [right|left; split; [done|by split]].
  split; [done|]. split.
  - split; cbn [d_map dedup_table d_hypot with_map with_table]; [done|done| |done|lia].
    intros k w Hw. rewrite Hent in Hw. apply elem_of_cons in Hw as [[= -> ->]|Hw]; [|by eapply Hcm].
    split_and!; [lia|lia| |].
    + exists x. split; [by eapply aref_aset_eq|done].
    + intros ws Hws HP. by eapply aref_aset_eq.
  - done.
Qed.

(** The first candidate a comparison accepts. *)
Lemma settle_equal_spec P bound d x hash h equal eqb : pass_inv P bound d -> bound < 2 ^ 58 -> 1 <= x <= n ->
  ~ mapped (d_map d) x -> hash x = Some h -> (forall c, 1 <= c <= n -> equal x c = Some (eqb c)) ->
  (forall c, 1 <= c <= n -> eqb c = true -> replaces g x c /\ exists ws, rec_of wss c = Some ws /\ ~ P ws) ->
  exists err d', settle_equal alloc_ok force d x hash equal = Some (err, d') /\ same_obj d d' /\
    (err < 0 /\ failed err \/ err = 0 /\ pass_inv P bound d' /\
       exists y, 0 <= y <= n /\ aset (d_map d) x y = Some (d_map d') /\ (y = x \/ mapped (d_map d) y)).
Proof.
  intros Hi Hsmall Hx Hnx Hh Heq Hok. pose proof Hi as [Hm Ht Hc _ _]. unfold settle_equal. rewrite Hh.
  cbn [mbind option_bind]. unfold for_each_dedup_cand.
  destruct (table_iter hf (dedup_table d) h Ht) as (cs & -> & Hcs). cbn [mbind option_bind].
  destruct (find_cand_spec (equal x) eqb cs) as (r & -> & Hr).
  { intros c Hin%Hcs. destruct (Hc _ _ Hin) as (Hcr & _). by apply Heq. }
  cbn [mbind option_bind].
  assert (Hy : 0 <= default x r <= n /\ replaces g x (default x r) /\
    (default x r = x \/ exists k q, leads (d_map d) k (default x r) q /\ mapped (d_map d) q) /\
    (default x r = x \/ mapped (d_map d) (default x r))).
  { destruct r as [c|]; cbn.
    - destruct Hr as [Hin Hq]. apply Hcs in Hin. destruct (Hc _ _ Hin) as (Hcr & Hmc & Hself).
      destruct (Hok c Hcr Hq) as (He & ws & Hws & HP). split_and!; [lia|lia|done| |by right]. right.
      exists 0%nat, c. split; [|done]. constructor. exists c. split; [by eapply Hself|by right].
    - split_and!; [lia|lia| |by left|by left]. apply replaces_refl'; [done|lia]. }
  destruct Hy as (Hyr & Hye & Hyl & Hym).
  destruct (settle_spec P bound d h x (default x r) Hi Hsmall Hx Hnx Hyr Hye Hyl) as (err & d' & -> & Hs & Ho).
  exists err, d'. split_and!; [done|done|]. destruct Ho as [Ho|(-> & Hi' & Hset)]; [by left|right].
  split_and!; [done|done|]. exists (default x r). split_and!; [lia|lia|done|done].
Qed.

(** ** Primitive types *)

Definition prim_kind (k : kind) : Prop :=
  k = KIND_INT \/ k = KIND_ENUM \/ k = KIND_ENUM64 \/ k = KIND_FWD \/ k = KIND_FLOAT.

Definition struct_kind (k : kind) : Prop := k = KIND_STRUCT \/ k = KIND_UNION.

Definition is_efwd (ws : list Z) : Prop := enum_fwd ws = true.

(** In the first pass every target is mapped itself, the types from [cur] on
    are untouched, and those before are done. *)
Record prim_inv (cur : Z) (d : btf_dedup) : Prop := {
  pr_inv : pass_inv is_efwd (n + 1) d;
  pr_targets : forall i m, aref (d_map d) i = Some m -> is_mapped m = true -> mapped (d_map d) m;
  pr_fresh : forall i ws, cur <= i <= n -> rec_of wss i = Some ws ->
    wkind ws <> KIND_VAR -> wkind ws <> KIND_DATASEC -> ~ mapped (d_map d) i;
  pr_others : forall i ws, 1 <= i <= n -> rec_of wss i = Some ws ->
    wkind ws = KIND_VAR \/ wkind ws = KIND_DATASEC -> aref (d_map d) i = Some i;
  pr_prog : forall i, ~ prog (d_map d) i;
  pr_done : forall i ws, 1 <= i < cur -> rec_of wss i = Some ws -> prim_kind (wkind ws) -> mapped (d_map d) i;
}.

Lemma mapped_leads map : map_ok g n map ->
  (forall i m, aref map i = Some m -> is_mapped m = true -> mapped map m) ->
  forall i, mapped map i -> exists k r, leads map k i r /\ mapped map r.
Proof.
  intros Hm Ht i Hi. destruct (mo_forest _ _ _ Hm i) as (k & r & Hl).
  { destruct Hi as (v & Hv & _). by eapply aref_bounds. }
  exists k, r. split; [done|]. induction Hl as [x Hx|k x v r Hx Hv Hne Hl IH]; [done|].
  apply IH. by eapply Ht.
Qed.

Lemma enum_fwd_declares ws : enum_fwd ws = true -> declares ws.
Proof.
  unfold enum_fwd. intros [H1%bool_decide_eq_true H2]%andb_true_iff. right. split; [|lia].
  unfold is_enum_kind. by rewrite elem_of_cons, list_elem_of_singleton in H1.
Qed.

(** Comparing a complete enum with the candidates. *)
Lemma enum_cands_spec equal compat x ws js : rec_of wss x = Some ws -> 1 <= x <= n ->
  (forall c wsc, rec_of wss c = Some wsc -> equal x c = Some (cmp ws wsc ([0; 1; 2] ++ js))) ->
  compat = compat_enums b equal -> is_enum_kind (wkind ws) ->
  shape_words (wkind ws) (wvlen ws) = [0; 1; 2] ++ js ->
  forall cands map, map_ok g n map -> ~ mapped map x ->
    (forall c, c ∈ cands -> 1 <= c <= n /\ mapped map c /\
       forall wsc, rec_of wss c = Some wsc -> ~ is_efwd wsc -> aref map c = Some c) ->
  exists y map', enum_cands b equal compat x map cands = Some (y, map') /\ map_ok g n map' /\
    ~ mapped map' x /\ (free map' <= free map)%nat /\ 0 <= y <= n /\ replaces g x y /\
    (forall i v, aref map' i = Some v -> aref map i = Some v \/
       v = x /\ mapped map i /\ 1 <= i <= n /\ exists wsi, rec_of wss i = Some wsi /\ is_efwd wsi) /\
    (forall i, mapped map i -> mapped map' i) /\
    (y = x \/ y ∈ cands /\ aref map' y = Some y \/ y ∈ cands /\ map' = map /\ enum_fwd ws = true).
Proof.
  intros Hws Hx Hequal -> Hk Hshape. pose proof (rec_of_wf b wss Hb x ws Hws ltac:(lia)) as Hw.
  pose proof (wss_small b wss Hb) as Hsm.
  induction cands as [|c cs IH]; intros map Hm Hnx Hc; cbn [enum_cands].
  { exists x, map. split_and!; [done|done|done|lia|lia|lia|by apply replaces_refl'; [|lia]| |done|by left].
    intros; by left. }
  destruct (Hc c ltac:(by left)) as (Hcr & Hmc & Hself).
  destruct (rec_of_Some wss c) as [wsc Hwc]; [lia|]. rewrite (Hequal c wsc Hwc). cbn [mbind option_bind].
  destruct (cmp ws wsc ([0; 1; 2] ++ js)) eqn:Ec.
  { assert (E : ws = wsc).
    { eapply cmp_all; [|intros j Hj|exact Ec].
      - eapply (same_info_len b wss Hb x c); [done|done|]. eapply (cmp_info b wss Hb x c); [done|done| |exact Ec].
        right. by left.
      - destruct (rec_covered ws j Hw Hj) as [H|H]; [by rewrite <- Hshape|]. exfalso.
        unfold ref_words, type_id_words in H. fold (wkind ws) in H.
        destruct Hk as [E|E]; rewrite E in H; by apply not_elem_of_nil in H. }
    subst wsc. exists c, map.
    split_and!; [done|done|done|lia|lia|lia|by eapply same_info_replaces, same_words_equiv|by left|done|].
    right. destruct (enum_fwd ws) eqn:Ef; [right; split_and!; [by left|done|done]|left].
    split; [by left|]. apply (Hself ws Hwc). unfold is_efwd. by rewrite Ef. }
  rewrite (compat_enums_spec b wss Hb x c ws wsc Hws Hwc equal _ (Hequal c wsc Hwc)). rewrite Ec.
  cbn [mbind option_bind]. rewrite (is_enum_fwd_spec b wss Hb _ _ Hws).
  assert (Hskip : exists y map', enum_cands b equal (compat_enums b equal) x map cs = Some (y, map') /\
    map_ok g n map' /\ ~ mapped map' x /\ (free map' <= free map)%nat /\ 0 <= y <= n /\ replaces g x y /\
    (forall i v, aref map' i = Some v -> aref map i = Some v \/
       v = x /\ mapped map i /\ 1 <= i <= n /\ exists wsi, rec_of wss i = Some wsi /\ is_efwd wsi) /\
    (forall i, mapped map i -> mapped map' i) /\
    (y = x \/ y ∈ c :: cs /\ aref map' y = Some y \/ y ∈ c :: cs /\ map' = map /\ enum_fwd ws = true)).
  { destruct (IH map Hm Hnx ltac:(intros; apply Hc; by right)) as (y & map' & H1 & H2 & H3 & H4 & H5 & H6 & H7 & H8 & H9).
    exists y, map'. split_and!; [done|done|done|done|lia|lia|done|done|done|].
    destruct H9 as [H9|[[H9 H9']|(H9 & H9' & H9'')]]; [by left|right; left; split; [by right|done]|].
    right. right. split_and!; [by right|done|done]. }
  destruct (enum_fwd ws || enum_fwd wsc) eqn:Ef; cbn [negb]; [|exact Hskip].
  destruct (enum_head_eq ws wsc) eqn:Eh; cbn [negb]; [|exact Hskip].
  assert (He : equiv g x c).
  { apply (follows_equiv g (view_closed wss names Hrefs) Hone (fun p q => p = x /\ q = c)); [|done].
    intros p q [-> ->]. exists (cells names ws), (cells names wsc). split_and!; [by apply view_Some..|].
    right. eapply (enum_decl b wss Hb x c); [done|done|done|done|by left]. }
  destruct (enum_fwd ws) eqn:Efw; cbn [orb] in Ef.
  { exists c, map. split_and!; [done|done|done|lia|lia|lia| |by left|done|].
    { eapply declares_replaces; [done|done| |done]. apply enum_fwd_declares, Efw. } right. right.
    split_and!; [by left|done|done]. }
  assert (Hcx : c <> x) by (intros ->; by apply Hnx).
  destruct (map_aset g n map c x Hm ltac:(lia)) as [map1 Hs]. rewrite Hs. cbn [mbind option_bind].
  assert (Hxm : is_mapped x = true) by (apply (is_mapped_id n); lia).
  assert (Hxroot : root map x).
  { destruct (aref_Some map x) as [v Hv]; [rewrite (mo_len _ _ _ Hm); lia|]. exists v. split; [done|].
    left. destruct (is_mapped v) eqn:E; [|done]. exfalso. apply Hnx. by exists v. }
  destruct (IH map1) as (y & map' & H1 & H2 & H3 & H4 & H5 & H6 & H7 & H8 & H9).
  { eapply (map_ok_set g n map map1 c x); [done|done|lia|lia| |by left].
    eapply declares_replaces; [done|done|by apply enum_fwd_declares|by apply equiv_sym]. }
  { intros (v & Hv & Hvm). rewrite (aref_aset_ne _ _ _ _ _ Hs) in Hv by done. apply Hnx. by exists v. }
  { intros c' Hc'. destruct (Hc c' ltac:(by right)) as (Hr' & Hm' & Hs'). split_and!; [lia|lia|by eapply mapped_set|].
    intros wsc' Hw' Hne. destruct (Z.eqb_spec c c') as [<-|Hcc].
    - assert (wsc' = wsc) as -> by congruence. exfalso. by apply Hne.
    - rewrite (aref_aset_ne _ _ _ _ _ Hs) by done. by eapply Hs'. }
  exists y, map'. split_and!; [done|done|done| |lia|lia|done| | |].
  - pose proof (free_le _ _ _ _ Hs Hxm). lia.
  - intros i v Hv. destruct (H7 i v Hv) as [Hv1|(-> & Hmi & Hir & Hwi)].
    + destruct (Z.eqb_spec c i) as [<-|Hne]; [|left; by rewrite (aref_aset_ne _ _ _ _ _ Hs) in Hv1].
      rewrite (aref_aset_eq _ _ _ _ Hs) in Hv1. injection Hv1 as <-. right. split_and!; [done|done|lia|lia|].
      by exists wsc.
    + right. split_and!; [done| |lia|lia|done]. destruct Hmi as (u & Hu & Hum).
      destruct (Z.eqb_spec c i) as [<-|Hne]; [done|]. rewrite (aref_aset_ne _ _ _ _ _ Hs) in Hu by done.
      by exists u.
  - intros i Hi. apply H8. by eapply mapped_set.
  - destruct H9 as [H9|[[H9 H9']|(H9 & H9' & H9'')]]; [by left| |congruence].
    right. left. split; [by right|done].
Qed.

Lemma small : n <= 2 ^ 29.
Proof. apply (wss_small b wss Hb). Qed.

(** One more type is done, after some enums were redirected to it. *)
Lemma prim_next cur d mp d' y ws : prim_inv cur d -> 1 <= cur <= n -> rec_of wss cur = Some ws ->
  prim_kind (wkind ws) -> (forall i, mapped (d_map d) i -> mapped mp i) ->
  (forall i v, aref mp i = Some v -> aref (d_map d) i = Some v \/
     v = cur /\ mapped (d_map d) i /\ 1 <= i <= n /\ exists wsi, rec_of wss i = Some wsi /\ is_efwd wsi) ->
  pass_inv is_efwd (n + 1) d' -> 0 <= y <= n -> aset mp cur y = Some (d_map d') ->
  (y = cur \/ mapped mp y) -> prim_inv (cur + 1) d'.
Proof.
  intros [Hi Ht Hf Ho Hpg Hd] Hcur Hws Hk Hmono Hback Hi' Hy Hs Hym.
  assert (Hprim : forall i wsi, rec_of wss i = Some wsi -> is_efwd wsi -> prim_kind (wkind wsi)).
  { intros i wsi _ [Hq%bool_decide_eq_true_1 _]%andb_true_iff. right.
    apply elem_of_cons in Hq as [Hq|Hq%list_elem_of_singleton]; [by left|by right; left]. }
  assert (Hnot : forall ws', prim_kind (wkind ws') -> wkind ws' = KIND_VAR \/ wkind ws' = KIND_DATASEC -> False).
  { intros ws' [E|[E|[E|[E|E]]]] [E'|E']; congruence. }
  pose proof (is_mapped_id n y small Hy) as Hyt. split.
  - done.
  - intros i m Him Hmm. destruct (Z.eqb_spec cur i) as [<-|Hne].
    + rewrite (aref_aset_eq _ _ _ _ Hs) in Him. injection Him as <-. destruct Hym as [->|Hym].
      * exists cur. split; [by eapply aref_aset_eq|done].
      * by eapply mapped_set.
    + rewrite (aref_aset_ne _ _ _ _ _ Hs) in Him by done. destruct (Hback i m Him) as [Hb1|(-> & _)].
      * eapply mapped_set; [done|done|]. apply Hmono. by eapply Ht.
      * exists y. split; [by eapply aref_aset_eq|done].
  - intros i ws' Hr Hw H1 H2 (v & Hv & Hvm). rewrite (aref_aset_ne _ _ _ _ _ Hs) in Hv by lia.
    eapply (Hf i ws'); [lia|done|done|done|]. destruct (Hback i v Hv) as [Hb1|(_ & Hb1 & _)]; [by exists v|done].
  - intros i ws' Hr Hw H. pose proof (Ho i ws' Hr Hw H) as Hio.
    assert (Hmp : mapped mp i).
    { apply Hmono. exists i. split; [done|]. apply (is_mapped_id n i small). lia. }
    rewrite (aref_aset_ne _ _ _ _ _ Hs).
    + destruct Hmp as (v & Hv & _). destruct (Hback i v Hv) as [Hb1|(_ & _ & _ & wsi & Hwi & He)]; [congruence|].
      exfalso. rewrite Hw in Hwi. injection Hwi as ->. eapply Hnot; [by eapply Hprim|done].
    + intros <-. rewrite Hws in Hw. injection Hw as ->. by eapply Hnot.
  - intros i Hpi. unfold prog in Hpi. destruct (Z.eqb_spec cur i) as [<-|Hne].
    + rewrite (aref_aset_eq _ _ _ _ Hs) in Hpi. injection Hpi as ->. done.
    + rewrite (aref_aset_ne _ _ _ _ _ Hs) in Hpi by done. destruct (Hback i _ Hpi) as [Hb1|(E & _)]; [by eapply Hpg|].
      pose proof small. lia.
  - intros i ws' Hr Hw Hk'. destruct (Z.eqb_spec cur i) as [<-|Hne].
    + exists y. split; [by eapply aref_aset_eq|done].
    + eapply mapped_set; [done|done|]. apply Hmono. eapply Hd; [|done|done]. lia.
Qed.

Lemma prim_skip cur d ws : prim_inv cur d -> 1 <= cur <= n -> rec_of wss cur = Some ws ->
  ~ prim_kind (wkind ws) -> prim_inv (cur + 1) d.
Proof.
  intros [Hi Ht Hf Ho Hpg Hd] Hcur Hws Hk. split; [done|done| |done|done|].
  - intros i ws' Hr Hw. apply Hf; [lia|done].
  - intros i ws' Hr Hw Hk'. destruct (Z.eqb_spec i cur) as [->|Hne]; [congruence|]. eapply Hd; [|done|done]. lia.
Qed.

Lemma prim_fresh cur d ws : prim_inv cur d -> 1 <= cur <= n -> rec_of wss cur = Some ws ->
  prim_kind (wkind ws) -> ~ mapped (d_map d) cur.
Proof.
  intros [_ _ Hf _ _ _] Hcur Hws [E|[E|[E|[E|E]]]]; apply (Hf cur ws); (lia || congruence).
Qed.

Lemma prim_equal_case cur d ws hash equal js : prim_inv cur d -> 1 <= cur <= n -> rec_of wss cur = Some ws ->
  prim_kind (wkind ws) -> ~ is_enum_kind (wkind ws) ->
  (exists h, hash cur = Some h) ->
  (forall c wsc, rec_of wss c = Some wsc -> equal cur c = Some (cmp ws wsc ([0; 1; 2] ++ js))) ->
  (forall j, 0 <= j < Z.of_nat (length ws) -> j ∈ [0; 1; 2] ++ js) ->
  exists err d', settle_equal alloc_ok force d cur hash equal = Some (err, d') /\ same_obj d d' /\
    (err < 0 /\ failed err \/ 0 <= err /\ prim_inv (cur + 1) d').
Proof.
  intros Hp Hcur Hws Hk Hne (h & Hh) Heq Hall. pose proof Hp as [Hi _ _ _ _ _]. pose proof small.
  assert (Hsame : forall c wsc, rec_of wss c = Some wsc -> cmp ws wsc ([0; 1; 2] ++ js) = true -> wsc = ws).
  { intros c wsc Hwc Hc. symmetry. eapply cmp_all; [|exact Hall|exact Hc].
    eapply (same_info_len b wss Hb cur c); [done|done|].
    eapply (cmp_info b wss Hb cur c); [done|done| |exact Hc]. right. by left. }
  destruct (settle_equal_spec is_efwd (n + 1) d cur hash h equal
    (fun c => match rec_of wss c with Some wsc => cmp ws wsc ([0; 1; 2] ++ js) | None => false end)
    Hi ltac:(lia) Hcur (prim_fresh _ _ _ Hp Hcur Hws Hk) Hh) as (err & d' & -> & Hs & Hout).
  { intros c Hc. destruct (rec_of_Some wss c) as [wsc Hwc]; [lia|]. rewrite Hwc. by apply Heq. }
  { intros c Hc Hcmp. destruct (rec_of wss c) as [wsc|] eqn:Hwc; [|done].
    pose proof (Hsame c wsc Hwc Hcmp) as ->. split; [by eapply same_info_replaces, same_words_equiv|]. exists ws. split; [done|].
    unfold is_efwd, enum_fwd. intros Ef%andb_true_iff. destruct Ef as [Ef%bool_decide_eq_true_1 _].
    apply Hne. apply elem_of_cons in Ef as [Ef|Ef%list_elem_of_singleton]; [by left|by right]. }
  exists err, d'. split_and!; [done|done|]. destruct Hout as [Ho'|(-> & Hi' & y & Hy & Hset & Hym)]; [by left|right].
  split; [done|]. eapply (prim_next cur d (d_map d)); [done|done|done|done|done|by left|done|done|done|done].
Qed.

Lemma hash_enum_spec x ws : rec_of wss x = Some ws -> exists h, btf_hash_enum b x = Some h.
Proof.
  intros H. unfold btf_hash_enum. rewrite (type_word_spec b wss Hb x ws 0 _ H (aref_head b wss Hb _ _ 0 H ltac:(lia))).
  rewrite (info_of_spec b wss Hb x ws H).
  rewrite (type_word_spec b wss Hb x ws 2 _ H (aref_head b wss Hb _ _ 2 H ltac:(lia))). by eexists.
Qed.

Lemma prim_enum_case cur d ws equal compat js : prim_inv cur d -> 1 <= cur <= n -> rec_of wss cur = Some ws ->
  d_btf d = b -> is_enum_kind (wkind ws) ->
  (forall c wsc, rec_of wss c = Some wsc -> equal cur c = Some (cmp ws wsc ([0; 1; 2] ++ js))) ->
  compat = compat_enums b equal -> shape_words (wkind ws) (wvlen ws) = [0; 1; 2] ++ js ->
  exists err d', settle_enum alloc_ok force d cur equal compat = Some (err, d') /\ same_obj d d' /\
    (err < 0 /\ failed err \/ 0 <= err /\ prim_inv (cur + 1) d').
Proof.
  intros Hp Hcur Hws Hdb Hk Heq Hcompat Hshape. pose proof Hp as [Hi Ht _ _ _ _]. pose proof small.
  pose proof Hi as [Hm Htab Hc Hh Hbd]. assert (Hpk : prim_kind (wkind ws)) by (destruct Hk as [E|E]; rewrite E; unfold prim_kind; tauto).
  unfold settle_enum. rewrite Hdb. destruct (hash_enum_spec cur ws Hws) as [h ->]. cbn [mbind option_bind].
  unfold for_each_dedup_cand. destruct (table_iter hf (dedup_table d) h Htab) as (cs & -> & Hcs). cbn [mbind option_bind].
  destruct (enum_cands_spec equal compat cur ws js Hws Hcur Heq Hcompat Hk Hshape cs (d_map d) Hm
    (prim_fresh _ _ _ Hp Hcur Hws Hpk)) as (y & mp & -> & Hmp & Hnx & Hfree & Hy & He & Hback & Hmono & Hyc).
  { intros c Hin%Hcs. apply (Hc _ _ Hin). }
  cbn [mbind option_bind].
  assert (Hi' : pass_inv is_efwd (n + 1) (with_map d mp)).
  { split; cbn [d_map dedup_table d_hypot with_map]; [done|done| |done|lia].
    intros k v Hv. destruct (Hc k v Hv) as (Hvr & Hvm & Hself). split_and!; [lia|lia|by apply Hmono|].
    intros wsv Hwv Hne. destruct (Hmono v Hvm) as (u & Hu & _).
    destruct (Hback v u Hu) as [Hb1|(_ & _ & _ & wsi & Hwi & Hef)]; [by rewrite Hu, <- Hb1; apply Hself with wsv|].
    exfalso. apply Hne. congruence. }
  assert (Hymap : y = cur \/ mapped mp y).
  { destruct Hyc as [Hyc|[[Hin _]|(Hin & _)]]; [by left|right..]; apply Hcs in Hin; apply Hmono, (Hc _ _ Hin). }
  destruct (settle_spec is_efwd (n + 1) (with_map d mp) h cur y Hi' ltac:(lia) Hcur Hnx Hy He) as (err & d' & -> & Hs & Hout).
  { destruct Hyc as [Hyc|[[Hin Hself]|(Hin & -> & _)]]; [by left| |].
    - right. exists 0%nat, y. split.
      + constructor. exists y. split; [done|by right].
      + exists y. split; [done|]. by apply (is_mapped_id n).
    - right. apply (mapped_leads (d_map d)); [done|done|]. apply Hcs in Hin. apply (Hc _ _ Hin). }
  exists err, d'. split_and!; [done|exact Hs|]. destruct Hout as [Ho'|(-> & Hi'' & Hset)]; [by left|right].
  split; [done|]. eapply (prim_next cur d mp); [done|done|done|done|done|done|done|done|done|done].
Qed.

Lemma prim_type_spec cur d : prim_inv cur d -> d_btf d = b -> 1 <= cur <= n ->
  exists err d', btf_dedup_prim_type alloc_ok force d cur = Some (err, d') /\ same_obj d d' /\
    (err < 0 /\ failed err \/ 0 <= err /\ prim_inv (cur + 1) d').
Proof.
  intros Hp Hdb Hcur. destruct (rec_of_Some wss cur) as [ws Hws]; [lia|].
  pose proof (rec_of_wf b wss Hb cur ws Hws ltac:(lia)) as Hw. destruct (rec_length ws Hw) as (Hlen & Hu & Ho).
  unfold btf_dedup_prim_type. rewrite Hdb, (b_kind_spec b wss Hb cur ws Hws). cbn [mbind option_bind].
  assert (Hskip : ~ prim_kind (wkind ws) -> exists err d', Some (0, d) = Some (err, d') /\ same_obj d d' /\
    (err < 0 /\ failed err \/ 0 <= err /\ prim_inv (cur + 1) d')).
  { intros Hk. exists 0, d. split_and!; [done|done|]. right. split; [done|]. by eapply prim_skip. }
  assert (Hhash : forall js, (forall j, j ∈ js -> j ∈ shape_words (wkind ws) (wvlen ws)) ->
    exists h, hash_words b cur js 0 = Some h).
  { intros js Hjs. eapply hash_words_spec; [done|done|]. by apply (shape_in_rec ws js Hw). }
  pose proof (shape_in_rec ws (shape_words (wkind ws) (wvlen ws)) Hw (fun _ h => h)) as Hin.
  assert (Hall : ref_words (winfo ws) = [] \/ ref_words (winfo ws) = [2] ->
    forall js, shape_words (wkind ws) (wvlen ws) = [0; 1; 2] ++ js ->
    forall j, 0 <= j < Z.of_nat (length ws) -> j ∈ [0; 1; 2] ++ js).
  { intros Hr js Hs j Hj. destruct (rec_covered ws j Hw Hj) as [H|H]; [by rewrite <- Hs|].
    destruct Hr as [Hr|Hr]; rewrite Hr in H; elem_inv. right. right. left. }
  pose proof (ref_words_kind ws) as Hrw.
  assert (Heqall : forall js equal hash, ~ is_enum_kind (wkind ws) -> prim_kind (wkind ws) ->
    ref_words (winfo ws) = [] \/ ref_words (winfo ws) = [2] ->
    shape_words (wkind ws) (wvlen ws) = [0; 1; 2] ++ js -> (exists h, hash cur = Some h) ->
    (forall c wsc, rec_of wss c = Some wsc -> equal cur c = Some (cmp ws wsc ([0; 1; 2] ++ js))) ->
    exists err d', settle_equal alloc_ok force d cur hash equal = Some (err, d') /\ same_obj d d' /\
      (err < 0 /\ failed err \/ 0 <= err /\ prim_inv (cur + 1) d')).
  { intros js equal hash Hne Hk Hr Hs Hh He. eapply (prim_equal_case cur d ws hash equal js); try done. by apply Hall. }
  destruct (wkind ws) eqn:Ek; try done; try (apply Hskip; intros [E|[E|[E|[E|E]]]]; congruence).
  - (* integers *)
    apply (Heqall [3]); [by intros [E|E]|by left|left; exact (Hrw _ eq_refl)|done|by apply Hhash|].
    intros c wsc Hwc. apply (equal_rest_spec b wss Hb cur c ws wsc Hws Hwc [3]). intros j ->%list_elem_of_singleton.
    apply Hin. by do 3 right; left.
  - (* enums *)
    apply (prim_enum_case cur d ws _ _ (elem_words 2 [0; 1] (wvlen ws))); try done; [by left| |by rewrite Ek].
    intros c wsc Hwc. apply (equal_members_spec b wss Hb cur c ws wsc Hws Hwc). intros j Hj. apply Hin.
    apply elem_of_app. by right.
  - (* forward declarations *)
    apply (Heqall []); [by intros [E|E]|unfold prim_kind; tauto|right; exact (Hrw _ eq_refl)|done|by apply Hhash|].
    intros c wsc Hwc. apply (equal_common_spec b wss Hb cur c ws wsc Hws Hwc).
  - apply (Heqall []); [by intros [E|E]|unfold prim_kind; tauto|left; exact (Hrw _ eq_refl)|done|by apply Hhash|].
    intros c wsc Hwc. apply (equal_common_spec b wss Hb cur c ws wsc Hws Hwc).
  - apply (prim_enum_case cur d ws _ _ (elem_words 3 [0; 1; 2] (wvlen ws))); try done; [by right| |by rewrite Ek].
    intros c wsc Hwc. apply (equal_members_spec b wss Hb cur c ws wsc Hws Hwc). intros j Hj. apply Hin.
    apply elem_of_app. by right.
Qed.

(** The loop of a pass. *)
Lemma own_types_spec f (I : Z -> btf_dedup -> Prop) d :
  (forall i s, I i s -> d_btf s = b -> 1 <= i <= n -> exists err s', f s i = Some (err, s') /\ same_obj s s' /\
     (err < 0 /\ failed err \/ 0 <= err /\ I (i + 1) s')) ->
  I 1 d -> d_btf d = b ->
  exists err d', for_own_types f d = Some (err, d') /\ same_obj d d' /\
    (err < 0 /\ failed err \/ err = 0 /\ I (n + 1) d').
Proof.
  intros Hf Hd Hdb. unfold for_own_types. rewrite Hdb, (tr_start _ _ Hb), (tr_nr _ _ Hb).
  destruct (for_types_spec f (fun i s => 1 <= i /\ same_obj d s /\ I i s)
    (fun err s => same_obj d s /\ failed err) (n + 1))
    with (n := Z.to_nat n) (lo := 1) (s := d) as (err & d' & -> & Ho).
  - intros s i Hi (Hlo & Hs & Hpi). destruct (Hf i s Hpi) as (err & s' & -> & Hs' & Ho); [|lia|].
    + by rewrite (proj1 Hs).
    + exists err, s'. split; [done|]. destruct Ho as [[? ?]|[? ?]]; [left|right].
      * split; [done|]. split; [by eapply same_obj_trans|done].
      * split_and!; [done|lia|by eapply same_obj_trans|done].
  - lia.
  - by split_and!.
  - exists err, d'. split; [done|]. destruct Ho as [(? & ? & ?)|(? & _ & ? & ?)]; (split; [done|]); [by left|by right].
Qed.

Lemma prim_types_spec d : prim_inv 1 d -> d_btf d = b ->
  exists err d', btf_dedup_prim_types alloc_ok force d = Some (err, d') /\ same_obj d d' /\
    (err < 0 /\ failed err \/ err = 0 /\ prim_inv (n + 1) d').
Proof.
  intros Hp Hdb. unfold btf_dedup_prim_types.
  apply (own_types_spec _ prim_inv); [|done|done]. intros. by apply prim_type_spec.
Qed.

(** ** Structs and unions *)

(** The kinds of types that may be redirected after they became candidates. *)
Definition late (ws : list Z) : Prop := wkind ws = KIND_FWD \/ is_efwd ws.

Lemma free_mono map map' : length map' = length map -> (forall i, mapped map i -> mapped map' i) ->
  (free map' <= free map)%nat.
Proof.
  intros Hl H. unfold free.
  assert (HF : Forall2 (fun v v' => is_mapped v = true -> is_mapped v' = true) map map').
  { apply Forall2_same_length_lookup. split; [done|]. intros i v v' Hv Hv' Hm.
    destruct (H (Z.of_nat i)) as (u & Hu & Hum); [exists v; by rewrite aref_nat|].
    rewrite aref_nat in Hu. congruence. }
  clear -HF. induction HF as [|v v' m m' Hv _ IH]; simpl; [lia|].
  destruct (is_mapped v), (is_mapped v'); simpl in *; lia.
Qed.

Lemma keeps_mapped adj map map' i : keeps wss adj map map' -> mapped map i -> mapped map' i.
Proof. intros [H _] (v & Hv & Hm). destruct (H i v Hv Hm) as (v' & ? & ? & _). by exists v'. Qed.

Lemma keeps_aset adj map map1 map2 x y : keeps wss adj map map1 -> aset map1 x y = Some map2 -> is_mapped y = true ->
  forall i v, aref map2 i = Some v -> is_mapped v = true \/ aref map i = Some v.
Proof.
  intros (_ & _ & Hk) Hs Hy i v Hv. destruct (Z.eqb_spec x i) as [<-|Hne].
  - rewrite (aref_aset_eq _ _ _ _ Hs) in Hv. injection Hv as <-. by left.
  - rewrite (aref_aset_ne _ _ _ _ _ Hs) in Hv by done. by apply Hk.
Qed.

(** Changes of [map] that merging may make. *)
Lemma pass_keeps bound d d' adj : pass_inv late bound d -> dedup_table d' = dedup_table d ->
  hy_ok wss (d_hypot d') -> map_ok g n (d_map d') -> keeps wss adj (d_map d) (d_map d') -> pass_inv late bound d'.
Proof.
  intros [Hm Ht Hc Hh Hbd] Et Hh' Hm' Hk. split; rewrite ?Et; [done|done| |done|].
  - intros h v Hv. destruct (Hc h v Hv) as (Hr & Hmv & Hself). split_and!; [lia|lia|by eapply keeps_mapped|].
    intros ws Hws Hl. pose proof (Hself ws Hws Hl) as Hv0. destruct Hk as [Hk _].
    assert (Hvm : is_mapped v = true) by (apply (is_mapped_id n v small); lia).
    destruct (Hk v v Hv0 Hvm) as (v' & Hv' & _ & E).
    rewrite Hv'. f_equal. eapply E; [done|]. intros F. apply Hl. by left.
  - pose proof (free_mono (d_map d) (d_map d')) as Hf.
    enough (free (d_map d') <= free (d_map d))%nat by lia. apply Hf; [|intros; by eapply keeps_mapped].
    pose proof (mo_len _ _ _ Hm). pose proof (mo_len _ _ _ Hm'). lia.
Qed.

Lemma late_struct ws : struct_kind (wkind ws) -> ~ late ws.
Proof.
  intros Hs [F|[Hq%bool_decide_eq_true_1 _]%andb_true_iff]; [destruct Hs; congruence|].
  apply elem_of_cons in Hq as [Hq|Hq%list_elem_of_singleton]; destruct Hs; congruence.
Qed.

Lemma unmapped_le hy : hy_ok wss hy -> Z.of_nat (unmapped hy) <= n + 1.
Proof. intros Hh. rewrite <- (hk_len _ _ Hh). unfold unmapped. pose proof (filter_length_le (fun v => negb (is_mapped v)) (hypot_map hy)). lia. Qed.

(** The outcome of the search among the candidates. *)
Definition struct_result (x : Z) (cands : list Z) (bound : Z) (d : btf_dedup) (r : Z + Z) (d' : btf_dedup) : Prop :=
  match r with
  | inl err => err < 0 /\ failed err
  | inr y => pass_inv late bound d' /\ keeps wss false (d_map d) (d_map d') /\
      (y = x /\ ~ mapped (d_map d') x \/
       y <> x /\ y ∈ cands /\ 1 <= y <= n /\ replaces g x y /\ aref (d_map d') y = Some y)
  end.

Lemma shallow_equal_spec x c ws wsc : rec_of wss x = Some ws -> rec_of wss c = Some wsc -> rec_wf ws ->
  struct_kind (wkind ws) ->
  exists same, btf_shallow_equal_struct b x c = Some same /\ (same = true -> wkind wsc = wkind ws).
Proof.
  intros Hws Hwc Hw Hk. eexists. split.
  - apply (equal_members_spec b wss Hb x c ws wsc Hws Hwc (elem_words 3 [0; 2])).
    apply (shape_in_rec ws _ Hw). intros j Hj. destruct Hk as [E|E]; rewrite E; apply elem_of_app; by right.
  - intros Hc. unfold wkind. f_equal. f_equal. symmetry.
    eapply (cmp_info b wss Hb x c); [done|done| |exact Hc]. right. by left.
Qed.

Lemma struct_cands_spec x ws bound : rec_of wss x = Some ws -> 1 <= x <= n -> struct_kind (wkind ws) ->
  forall cands d, d_btf d = b -> pass_inv late bound d -> ~ mapped (d_map d) x ->
  (forall c, c ∈ cands -> exists h, (h, c) ∈ entries (dedup_table d)) ->
  exists r d', struct_cands alloc_ok d x cands = Some (r, d') /\ same_obj d d' /\
    dedup_table d' = dedup_table d /\ struct_result x cands bound d r d'.
Proof.
  intros Hws Hx Hk. pose proof (rec_of_wf b wss Hb x ws Hws ltac:(lia)) as Hw.
  induction cands as [|c cs IH]; intros d Hdb Hi Hnx Hc; cbn [struct_cands].
  { exists (inr x), d. do 3 (split; [done|]). split_and!; [done|apply keeps_refl|by left]. }
  rewrite Hdb. destruct (Hc c ltac:(by left)) as (h & Hin). pose proof Hi as [Hm Ht Hcand Hh Hbd].
  destruct (Hcand h c Hin) as (Hcr & Hmc & Hself).
  destruct (rec_of_Some wss c) as [wsc Hwc]; [lia|].
  destruct (shallow_equal_spec x c ws wsc Hws Hwc Hw Hk) as (same & -> & Hsame). cbn [mbind option_bind].
  assert (Hcs : forall c', c' ∈ cs -> exists h, (h, c') ∈ entries (dedup_table d)) by (intros; apply Hc; by right).
  assert (Hskip : forall d1, same_obj d d1 -> dedup_table d1 = dedup_table d -> pass_inv late bound d1 ->
    keeps wss false (d_map d) (d_map d1) -> ~ mapped (d_map d1) x ->
    exists r d', struct_cands alloc_ok d1 x cs = Some (r, d') /\ same_obj d d' /\
      dedup_table d' = dedup_table d /\ struct_result x (c :: cs) bound d r d').
  { intros d1 Hs1 Ht1 Hi1 Hk1 Hn1. destruct (IH d1) as (r & d' & -> & Hs' & Ht' & Hr); [|done|done| |].
    - by rewrite (proj1 Hs1).
    - by rewrite Ht1.
    - exists r, d'. split_and!; [done|by eapply same_obj_trans|congruence|]. destruct r as [err|y]; [done|].
      destruct Hr as (Hi' & Hk' & Ho). split_and!; [done|by eapply keeps_trans|].
      destruct Ho as [Ho|(? & ? & ?)]; [by left|right]. split; [done|]. split; [by right|done]. }
  destruct same; cbn [negb]; [|by apply Hskip; [..|apply keeps_refl|]].
  assert (Hkc : struct_kind (wkind wsc)) by (by rewrite Hsame).
  pose proof (Hself wsc Hwc (late_struct _ Hkc)) as Hcc.
  destruct (clear_hypot_spec wss (d_hypot d) Hh) as (hy & -> & Hhy & Hno). cbn [mbind option_bind].
  destruct (is_equiv_spec alloc_ok b wss names Hb Hrefs Htyped Hone (d_map d) Hm (S (length (d_map d))) x c hy)
    as (eq & hy' & -> & Hhy' & _ & Hans); [lia|lia| |done| |].
  { intros ws' Hws'. rewrite Hws in Hws'. injection Hws' as <-. unfold type_like.
    destruct Hk as [E|E]; rewrite E; done. }
  { pose proof (unmapped_le hy Hhy). pose proof (mo_len _ _ _ Hm). lia. }
  cbn [mbind option_bind].
  destruct Hans as [(-> & Hrel & Hcl)|[->|[-> Hoom]]]; cbn [Z.ltb Z.eqb Z.compare Z.opp].
  - destruct (closes_equiv wss names Hrefs Hone hy hy' Hno Hcl) as [Hheq Hreq].
    destruct (merge_spec alloc_ok b wss names Hb Hrefs Hone hy' Hhy' Hheq (d_map d) Hm) as (m & Hme & Hm' & Hkeep).
    cbn [d_map with_hypot]. rewrite Hme. cbn [mbind option_bind].
    assert (Hk' : keeps wss false (d_map d) m) by (split_and!; [apply Hkeep|done|apply Hkeep]).
    assert (Hi' : pass_inv late bound (with_map (with_hypot d hy') m)) by (by eapply (pass_keeps bound d _ false)).
    destruct (hypot_adjust_canon hy') eqn:Ea.
    + apply Hskip; [done|done|done|done|]. cbn [d_map with_map]. intros (v & Hv & Hvm). apply Hnx.
      exists v. split; [|done]. rewrite <- (proj1 (proj2 Hkeep) eq_refl x ws Hws); [done|].
      intros F. destruct Hk; congruence.
    + exists (inr c), (with_map (with_hypot d hy') m). split_and!; [done|done|done|].
      split_and!; [done|done|]. right. cbn [d_map with_map].
      split_and!; [by intros ->|by left|lia|lia| |].
      { eapply struct_replaces; [done|done|done| | |by apply Hreq].
        - rewrite elem_of_cons, list_elem_of_singleton. exact Hk.
        - intros F. destruct Hkc; congruence. }
      destruct (proj1 Hk' c c Hcc) as (v' & Hv' & _ & E); [apply (is_mapped_id n c small); lia|].
      rewrite Hv'. f_equal. eapply E; [done|]. intros F. destruct Hkc; congruence.
  - apply Hskip; [done|done| |apply keeps_refl|done]. eapply (pass_keeps bound d _ false); [exact Hi|done|done|done|apply keeps_refl].
  - exists (inl (- ENOMEM)), (with_hypot d hy'). by split_and!.
Qed.

(** Kinds that refer to other types, and are neither structs nor unions. *)
Definition ref_kind (k : kind) : Prop :=
  ~ prim_kind k /\ ~ struct_kind k /\ k <> KIND_VAR /\ k <> KIND_DATASEC.

Record struct_inv (cur : Z) (d : btf_dedup) : Prop := {
  st_inv : pass_inv late (n + 1) d;
  st_prog : forall i, ~ prog (d_map d) i;
  st_done : forall i ws, 1 <= i <= n -> rec_of wss i = Some ws -> ~ ref_kind (wkind ws) ->
    struct_kind (wkind ws) /\ cur <= i \/ mapped (d_map d) i;
}.

Lemma struct_inv_next cur d d' : struct_inv cur d -> pass_inv late (n + 1) d' ->
  (forall i v, aref (d_map d') i = Some v -> is_mapped v = true \/ aref (d_map d) i = Some v) ->
  (forall i, mapped (d_map d) i -> mapped (d_map d') i) ->
  (forall ws, rec_of wss cur = Some ws -> struct_kind (wkind ws) -> mapped (d_map d') cur) ->
  struct_inv (cur + 1) d'.
Proof.
  intros [_ Hpg Hd] Hi' Hb' Hk Hcur. split; [done| |].
  { intros i Hpi. destruct (Hb' i _ Hpi) as [|H]; [done|by eapply Hpg]. }
  intros i ws Hir Hws Hr.
  destruct (Hd i ws Hir Hws Hr) as [[Hs Hle]|Hm]; [|right; by apply Hk].
  destruct (Z.eqb_spec i cur) as [->|Hne]; [right; by eapply Hcur|left]. split; [done|lia].
Qed.

Lemma kind_in_struct x ws : rec_of wss x = Some ws ->
  kind_in b x [KIND_STRUCT; KIND_UNION] = Some (bool_decide (struct_kind (wkind ws))).
Proof.
  intros H. rewrite (kind_in_spec b wss Hb x ws _ H). f_equal. apply bool_decide_ext. unfold struct_kind.
  by rewrite elem_of_cons, list_elem_of_singleton.
Qed.

Lemma hash_struct_spec x ws : rec_of wss x = Some ws -> rec_wf ws -> struct_kind (wkind ws) ->
  exists h, btf_hash_struct b x = Some h.
Proof.
  intros H Hw Hk. unfold btf_hash_struct. rewrite (info_of_spec b wss Hb x ws H). cbn [mbind option_bind].
  eapply hash_words_spec; [done|done|]. apply (shape_in_rec ws _ Hw). fold (wvlen ws).
  intros j Hj. by destruct Hk as [E|E]; rewrite E.
Qed.

(** A type becomes another, which stands for itself. *)
Lemma settle_other P bound d h x y : pass_inv P bound d -> 1 <= x <= n -> 1 <= y <= n -> y <> x ->
  replaces g x y -> aref (d_map d) y = Some y -> (forall k, (k, x) ∉ entries (dedup_table d)) ->
  exists d', settle alloc_ok force d h x y = Some (0, d') /\ same_obj d d' /\ pass_inv P bound d' /\
    aset (d_map d) x y = Some (d_map d').
Proof.
  intros [Hm Ht Hc Hh Hbd] Hx Hy Hne He Hyy Hnt. unfold settle, set_map.
  destruct (map_aset g n (d_map d) x y Hm ltac:(lia)) as [m Hs]. rewrite Hs. cbn [mbind option_bind].
  destruct (Z.eqb_spec x y) as [->|_]; [done|].
  assert (Hym : is_mapped y = true) by (apply (is_mapped_id n y small); lia).
  exists (with_map d m). split; [done|]. split; [done|]. split; [|done].
  split; cbn [d_map dedup_table d_hypot with_map]; [|done| |done|].
  - eapply (map_ok_set g n (d_map d) m x y); [done|done|lia|lia|done|]. left. exists y. split; [done|by right].
  - intros k v Hv. destruct (Hc k v Hv) as (Hr & Hmv & Hself). split_and!; [lia|lia|by eapply mapped_set|].
    intros ws Hws HP. rewrite (aref_aset_ne _ _ _ _ _ Hs); [by eapply Hself|]. intros <-. by eapply Hnt.
  - pose proof (free_le _ _ _ _ Hs Hym). lia.
Qed.

Lemma struct_type_spec cur d : struct_inv cur d -> d_btf d = b -> 1 <= cur <= n ->
  exists err d', btf_dedup_struct_type alloc_ok force d cur = Some (err, d') /\ same_obj d d' /\
    (err < 0 /\ failed err \/ 0 <= err /\ struct_inv (cur + 1) d').
Proof.
  intros Hst Hdb Hcur. pose proof Hst as [Hi _ _]. pose proof Hi as [Hm Ht Hc _ _].
  destruct (rec_of_Some wss cur) as [ws Hws]; [lia|]. pose proof (rec_of_wf b wss Hb cur ws Hws ltac:(lia)) as Hw.
  unfold btf_dedup_struct_type. rewrite Hdb.
  destruct (aref_Some (d_map d) cur) as [v Hv]; [rewrite (mo_len _ _ _ Hm); lia|]. rewrite Hv. cbn [mbind option_bind].
  destruct (is_mapped v) eqn:Ev.
  { exists 0, d. split_and!; [done|done|]. right. split; [done|]. eapply struct_inv_next; [done|done|by right|done|].
    intros _ _ _. by exists v. }
  rewrite (kind_in_struct cur ws Hws). cbn [mbind option_bind].
  case_bool_decide as Hk; cbn [negb].
  2: { exists 0, d. split_and!; [done|done|]. right. split; [done|]. eapply struct_inv_next; [done|done|by right|done|].
       intros ws' Hws' Hk'. congruence. }
  destruct (hash_struct_spec cur ws Hws Hw Hk) as [h ->]. cbn [mbind option_bind].
  unfold for_each_dedup_cand. destruct (table_iter hf (dedup_table d) h Ht) as (cs & -> & Hcs). cbn [mbind option_bind].
  assert (Hnx : ~ mapped (d_map d) cur) by (intros (u & Hu & Hum); congruence).
  destruct (struct_cands_spec cur ws (n + 1) Hws Hcur Hk cs d Hdb Hi Hnx) as (r & d1 & -> & Hs1 & Ht1 & Hr).
  { intros c Hin%Hcs. by exists h. }
  cbn [mbind option_bind]. destruct r as [err|y].
  { exists err, d1. split_and!; [done|done|]. by left. }
  destruct Hr as (Hi1 & Hk1 & Ho). pose proof small.
  destruct Ho as [[-> Hnx1]|(Hne & Hin & Hy & He & Hyy)].
  - destruct (settle_spec late (n + 1) d1 h cur cur Hi1 ltac:(lia) Hcur Hnx1 ltac:(lia)) as (err & d2 & -> & Hs2 & Ho);
      [by apply replaces_refl'; [|lia]|by left|].
    exists err, d2. split_and!; [done|by eapply same_obj_trans|]. destruct Ho as [Ho|(-> & Hi2 & Hset)]; [by left|right].
    assert (Hm2 : is_mapped cur = true) by (apply (is_mapped_id n cur small); lia).
    split; [done|]. eapply (struct_inv_next cur d); [done|done|by eapply keeps_aset| |].
    + intros i Hmi. eapply mapped_set; [done|done|by eapply keeps_mapped].
    + intros _ _ _. exists cur. split; [by eapply aref_aset_eq|done].
  - destruct (settle_other late (n + 1) d1 h cur y Hi1 Hcur Hy Hne He Hyy) as (d2 & -> & Hs2 & Hi2 & Hset).
    { intros k Hk'. rewrite Ht1 in Hk'. apply Hnx. apply (Hc _ _ Hk'). }
    assert (Hm2 : is_mapped y = true) by (apply (is_mapped_id n y small); lia).
    exists 0, d2. split_and!; [done|by eapply same_obj_trans|]. right. split; [done|].
    eapply (struct_inv_next cur d); [done|done|by eapply keeps_aset| |].
    + intros i Hmi. eapply mapped_set; [done|done|by eapply keeps_mapped].
    + intros _ _ _. exists y. split; [by eapply aref_aset_eq|done].
Qed.

Lemma struct_types_spec d : struct_inv 1 d -> d_btf d = b ->
  exists err d', btf_dedup_struct_types alloc_ok force d = Some (err, d') /\ same_obj d d' /\
    (err < 0 /\ failed err \/ err = 0 /\ struct_inv (n + 1) d').
Proof.
  intros Hp Hdb. unfold btf_dedup_struct_types.
  apply (own_types_spec _ struct_inv); [|done|done]. intros. by apply struct_type_spec.
Qed.

(** Between the passes. *)
Lemma prim_struct d : prim_inv (n + 1) d -> struct_inv 1 d.
Proof.
  intros [Hi Ht Hf Ho Hpg Hd]. split; [|done|].
  - destruct Hi as [Hm Ht' Hc Hh Hbd]. split; [done|done| |done|done].
    intros h v Hv. destruct (Hc h v Hv) as (Hr & Hmv & Hself). split_and!; [lia|lia|done|].
    intros ws Hws Hl. apply (Hself ws Hws). intros He. apply Hl. by right.
  - intros i ws Hir Hws Hr.
    destruct (decide (wkind ws = KIND_VAR \/ wkind ws = KIND_DATASEC)) as [Hv|Hv].
    { right. exists i. split; [by eapply Ho|]. apply (is_mapped_id n i small). lia. }
    assert (Hps : prim_kind (wkind ws) \/ struct_kind (wkind ws)).
    { destruct (wkind ws) eqn:E; try (left; unfold prim_kind; tauto); try (right; unfold struct_kind; tauto);
        exfalso; (by apply Hv; tauto) || (apply Hr; unfold ref_kind, prim_kind, struct_kind; intuition congruence). }
    destruct Hps as [Hk|Hk]; [right; eapply Hd; [|done|done]; lia|left; split; [done|lia]].
Qed.
End Passes.
