(* ===== verification/DedupRefs.v ===== *)
(** * BTF deduplication: types that refer to others

    The pass over pointers, modifiers, typedefs, arrays, functions and tags.
    It rewrites the references of a type before it looks for an equal one, so
    the records change while the pass runs.  When the references of these
    kinds do not form cycles, the pass ends, and every reference it writes is
    equivalent, in the graph as it was before, to the one it replaces. *)

From S2P Require Import Prelude Hashmap StrSet Btf BtfBuild BtfVisit BtfExt Dedup TypeGraph.
From S2P Require Import DedupTypes DedupEquiv DedupTable DedupPasses.

Lemma rec_of_insert w x ws i : 1 <= x <= Z.of_nat (length w) ->
  rec_of (<[Z.to_nat (x - 1) := ws]> w) i = if i =? x then Some ws else rec_of w i.
Proof.
  intros Hx. unfold rec_of. destruct (Z.eqb_spec i x) as [->|Hne].
  - destruct (Z.eqb_spec x 0); [lia|]. unfold aref. destruct (Z.ltb_spec (x - 1) 0); [lia|].
    apply list_lookup_insert_eq. lia.
  - destruct (Z.eqb_spec i 0); [done|]. unfold aref. destruct (Z.ltb_spec (i - 1) 0); [done|].
    apply list_lookup_insert_ne. lia.
Qed.

Lemma elem_words_nodup sz f n : 0 < sz -> NoDup (elem_words sz [f] n).
Proof.
  intros Hsz. assert (E : elem_words sz [f] n = (fun i => 3 + sz * i + f) <$> seqZ 0 n).
  { unfold elem_words. generalize (seqZ 0 n). intros l. induction l as [|i l IH]; [done|].
    cbn [flat_map map app fmap list_fmap]. by f_equal. }
  rewrite E. apply NoDup_fmap; [|apply NoDup_seqZ]. intros i j H. nia.
Qed.

Lemma elem_words_one n : NoDup (2 :: elem_words 2 [1] n).
Proof.
  apply NoDup_cons. split; [|by apply elem_words_nodup].
  rewrite elem_words_in. intros (i & f & Hi & ->%list_elem_of_singleton & H). lia.
Qed.

Lemma decide_ref_kind k : ref_kind k \/ ~ ref_kind k.
Proof.
  unfold ref_kind, prim_kind, struct_kind.
  destruct k; (left; intuition discriminate) || (right; intros (H1 & H2 & H3 & H4); tauto).
Qed.

Section Refs.
Context (alloc_ok : Z -> bool) (force : bool) (b : bobj) (wss : list (list Z)) (names : Z -> list Z).
Context (Hb : trep b wss) (Hrefs : refs_closed wss) (Htyped : refs_typed wss).
Context (Hone : one_definition (view names wss)).

Abbreviation n := (Z.of_nat (length wss)) (only parsing).
Abbreviation g := (view names wss) (only parsing).

Definition of_ref_kind (i : Z) : Prop := exists ws, rec_of wss i = Some ws /\ ref_kind (wkind ws).

(** References among the types of these kinds descend. *)
Definition ranked (rank : Z -> nat) : Prop := forall i ws j w, rec_of wss i = Some ws -> ref_kind (wkind ws) ->
  j ∈ DedupTypes.ref_words (winfo ws) -> aref ws j = Some w -> of_ref_kind w -> (rank w < rank i)%nat.

Context (rank : Z -> nat) (Hrank : ranked rank).

(** Neither mapped nor in progress. *)
Definition waiting (v : Z) : bool := negb (is_mapped v) && negb (v =? BTF_IN_PROGRESS_ID).

Definition unproc (map : list Z) : nat := length (List.filter waiting map).

(** A record whose references were replaced by equivalent ones. *)
Definition similar (ws ws' : list Z) : Prop :=
  winfo ws' = winfo ws /\ length ws' = length ws /\
  forall j w w', aref ws j = Some w -> aref ws' j = Some w' ->
    if bool_decide (j ∈ DedupTypes.ref_words (winfo ws)) then 0 <= w' <= n /\ equiv g w w' else w = w'.

(** The records as they were, the records [w] as they are. *)
Record ref_inv (d : btf_dedup) (w : list (list Z)) : Prop := {
  rf_rep : trep (d_btf d) w;
  rf_frame : frame b (d_btf d);
  rf_len : length w = length wss;
  rf_sim : forall i ws, rec_of wss i = Some ws -> exists ws', rec_of w i = Some ws' /\ similar ws ws';
  rf_orig : forall i, ~ mapped (d_map d) i -> ~ prog (d_map d) i -> rec_of w i = rec_of wss i;
  rf_pass : pass_inv force wss names (fun ws => ~ ref_kind (wkind ws)) (n + 1) d;
  rf_done : forall i ws, 1 <= i <= n -> rec_of wss i = Some ws -> ~ ref_kind (wkind ws) -> mapped (d_map d) i;
}.

Definition same_rest (d d' : btf_dedup) : Prop :=
  strs_deduped d' = strs_deduped d /\ d_ext d' = d_ext d /\ strs_set d' = strs_set d.

(** What a call does not undo; the record of [e] may change. *)
Record ref_step (e : Z) (d : btf_dedup) (w : list (list Z)) (d' : btf_dedup) (w' : list (list Z)) : Prop := {
  rs_rest : same_rest d d';
  rs_mono : forall i, mapped (d_map d) i -> mapped (d_map d') i;
  rs_prog : forall i, prog (d_map d') i <-> prog (d_map d) i;
  rs_count : (unproc (d_map d') <= unproc (d_map d))%nat;
  rs_recs : forall i, i <> e -> prog (d_map d) i -> rec_of w' i = rec_of w i;
}.

Lemma ref_step_refl e d w : ref_step e d w d w.
Proof. by split. Qed.

Lemma ref_step_trans e d w d1 w1 d2 w2 : ref_step e d w d1 w1 -> ref_step e d1 w1 d2 w2 -> ref_step e d w d2 w2.
Proof.
  intros [(? & ? & ?) M1 P1 C1 R1] [(? & ? & ?) M2 P2 C2 R2]. split.
  - split_and!; congruence.
  - auto.
  - intros i. by rewrite P2.
  - lia.
  - intros i Hi Hp. rewrite R2; [by apply R1|done|by apply P1].
Qed.

(** ** Similar records *)

Lemma similar_refl ws i : rec_of wss i = Some ws -> similar ws ws.
Proof.
  intros H. split_and!; [done|done|]. intros j w w' Hw Hw'. rewrite Hw in Hw'. injection Hw' as <-.
  case_bool_decide as Hj; [|done]. pose proof (Hrefs i ws j w H Hj Hw) as Hr. split; [done|].
  by apply equiv_refl'.
Qed.

Lemma similar_set ws ws' j w r : similar ws ws' -> aref ws j = Some w -> j ∈ DedupTypes.ref_words (winfo ws) ->
  j <> 1 -> 0 <= r <= n -> equiv g w r -> similar ws (<[Z.to_nat j := r]> ws').
Proof.
  intros (Hi & Hl & Hs) Hw Hj Hne Hr He. pose proof (aref_bounds _ _ _ Hw) as Hjb.
  assert (Hset : aset ws' j r = Some (<[Z.to_nat j := r]> ws')) by (apply aset_Some; lia).
  split_and!.
  - rewrite winfo_insert; [done|lia].
  - by rewrite length_insert.
  - intros k u u' Hu Hu'. destruct (Z.eqb_spec j k) as [<-|Hk].
    + rewrite (aref_aset_eq _ _ _ _ Hset) in Hu'. injection Hu' as <-. rewrite Hw in Hu. injection Hu as <-.
      rewrite (bool_decide_eq_true_2 _ Hj). by split.
    + rewrite (aref_aset_ne _ _ _ _ _ Hset) in Hu' by done. by apply Hs.
Qed.

(** Types whose records have become the same are equivalent. *)
Lemma similar_equiv x c ws wsc ws' : rec_of wss x = Some ws -> rec_of wss c = Some wsc ->
  similar ws ws' -> similar wsc ws' -> equiv g x c.
Proof.
  intros Hx Hc (I1 & L1 & S1) (I2 & L2 & S2).
  apply (follows_equiv g (view_closed wss names Hrefs) Hone (fun p q => p = x /\ q = c)); [|split; reflexivity].
  intros p q [-> ->]. exists (cells names ws), (cells names wsc). split; [by apply view_Some|].
  split; [by apply view_Some|]. left. apply full_of_words; [congruence|congruence|]. intros j w1 w2 H1 H2.
  destruct (aref_Some ws' j) as [w' H']; [apply aref_bounds in H1; lia|].
  pose proof (S1 j w1 w' H1 H') as E1. pose proof (S2 j w2 w' H2 H') as E2.
  rewrite <- I2, I1 in E2. case_bool_decide; [|congruence].
  exists w', w'. split_and!; [apply E1|by right|by apply equiv_sym, E2].
Qed.

(** ** The references of a type *)

Definition rec_result (d : btf_dedup) (w : list (list Z)) (x : Z) (c : option (Z * btf_dedup)) : Prop :=
  exists r d', c = Some (r, d') /\
    (r < 0 /\ failed alloc_ok r \/
     0 <= r <= n /\ equiv g x r /\ mapped (d_map d') x /\ exists w', ref_inv d' w' /\ ref_step 0 d w d' w').

(** A call on a type below all types in progress. *)
Definition rec_ok (fuel : nat) (rec : btf_dedup -> Z -> option (Z * btf_dedup)) : Prop :=
  forall d w x, ref_inv d w -> 0 <= x <= n -> (unproc (d_map d) < fuel)%nat ->
    (forall i, of_ref_kind x -> prog (d_map d) i -> (rank x < rank i)%nat) -> rec_result d w x (rec d x).

Lemma small_word v : 0 <= v <= n -> word_ok v.
Proof. intros H. pose proof (wss_small b wss Hb). unfold word_ok. pow2. lia. Qed.

(** One reference is replaced. *)
Lemma ref_inv_set d w x ws ws' j v r : ref_inv d w -> 1 <= x <= n -> rec_of wss x = Some ws ->
  rec_of w x = Some ws' -> aref ws j = Some v -> j ∈ DedupTypes.ref_words (winfo ws) -> j <> 1 ->
  prog (d_map d) x -> 0 <= r <= n -> equiv g v r ->
  exists b', set_type_word (d_btf d) x j r = Some b' /\
    let w' := <[Z.to_nat (x - 1) := <[Z.to_nat j := r]> ws']> w in
    ref_inv (with_btf d b') w' /\ ref_step x d w (with_btf d b') w'.
Proof.
  intros [Hrep Hfr Hl Hsim Horig Hp Hd] Hx Hws Hws' Hv Hj Hj1 Hprog Hr He.
  destruct (Hsim x ws Hws) as (ws1 & Hws1 & Hs1). rewrite Hws' in Hws1. injection Hws1 as <-.
  pose proof (aref_bounds _ _ _ Hv) as Hjb.
  destruct (set_type_word_spec (d_btf d) w x ws' j r Hrep Hws') as (b' & Hset & Hf & Hrep').
  { lia. }
  { destruct Hs1 as (_ & -> & _). lia. }
  { done. }
  { by apply small_word. }
  exists b'. split; [done|]. cbv zeta.
  assert (Hrec : forall i, i <> x -> rec_of (<[Z.to_nat (x - 1) := <[Z.to_nat j := r]> ws']> w) i = rec_of w i).
  { intros i Hi. rewrite rec_of_insert by lia. by destruct (Z.eqb_spec i x). }
  split; [split; cbn [d_btf d_map with_btf]|split; cbn [d_map with_btf]].
  - done.
  - by eapply frame_trans.
  - by rewrite length_insert.
  - intros i wsi Hi. destruct (Z.eqb_spec i x) as [->|Hne].
    + rewrite Hws in Hi. injection Hi as <-. rewrite rec_of_insert by lia. rewrite Z.eqb_refl.
      eexists. split; [done|]. by eapply similar_set.
    + rewrite Hrec by done. by apply Hsim.
  - intros i Hm Hp'. rewrite Hrec; [by apply Horig|]. by intros ->.
  - destruct Hp. by split.
  - done.
  - done.
  - done.
  - done.
  - done.
  - intros i Hi _. by apply Hrec.
Qed.

Section Calls.
Context (fuel : nat) (rec : btf_dedup -> Z -> option (Z * btf_dedup)) (Hrec : rec_ok fuel rec).

Lemma ref_words_spec x ws js : rec_of wss x = Some ws -> 1 <= x <= n -> ref_kind (wkind ws) ->
  NoDup js -> (forall j, j ∈ js -> j ∈ DedupTypes.ref_words (winfo ws) /\ j <> 1) -> in_rec ws js ->
  forall d w ws', ref_inv d w -> prog (d_map d) x -> (forall i, prog (d_map d) i -> (rank x <= rank i)%nat) ->
  (unproc (d_map d) < fuel)%nat -> rec_of w x = Some ws' -> (forall j, j ∈ js -> aref ws' j = aref ws j) ->
  exists err d', Dedup.ref_words rec x js d = Some (err, d') /\
    (err < 0 /\ failed alloc_ok err \/ err = 0 /\ exists w', ref_inv d' w' /\ ref_step x d w d' w').
Proof.
  intros Hws Hx Hk. induction js as [|j js IH]; intros Hnd Hin Hinr d w ws' Hi Hp Hrk Hfuel Hws' Horig;
    cbn [Dedup.ref_words].
  { exists 0, d. split; [done|]. right. split; [done|]. exists w. split; [done|apply ref_step_refl]. }
  apply NoDup_cons in Hnd as [Hnj Hnd]. destruct (Hin j ltac:(by left)) as [Hj Hj1].
  destruct (aref_Some ws j) as [v Hv]; [apply Hinr; by left|].
  assert (Hv' : aref ws' j = Some v) by (rewrite Horig; [done|by left]).
  rewrite (type_word_spec (d_btf d) w (rf_rep _ _ Hi) x ws' j v Hws' Hv'). cbn [mbind option_bind].
  pose proof (Hrefs x ws j v Hws Hj Hv) as Hvr.
  destruct (Hrec d w v Hi Hvr Hfuel) as (r & d1 & -> & Ho).
  { intros i Hkv Hpi. pose proof (Hrk i Hpi). pose proof (Hrank x ws j v Hws Hk Hj Hv Hkv). lia. }
  cbn [mbind option_bind]. destruct Ho as [[Hneg Hf]|(Hr & He & _ & w1 & Hi1 & Hs1)].
  { assert ((r <? 0) = true) as -> by lia. exists r, d1. split; [done|]. by left. }
  assert ((r <? 0) = false) as -> by lia.
  assert (Hws1 : rec_of w1 x = Some ws') by (rewrite (rs_recs _ _ _ _ _ Hs1); [done|lia|done]).
  assert (Hp1 : prog (d_map d1) x) by by apply Hs1.
  destruct (ref_inv_set d1 w1 x ws ws' j v r Hi1 Hx Hws Hws1 Hv Hj Hj1 Hp1 Hr He) as (b' & -> & Hi2 & Hs2).
  cbn [mbind option_bind].
  assert (Hs12 : ref_step x d w d1 w1).
  { destruct Hs1 as [? ? ? ? R]. split; [done..|]. intros i Hix Hpi. apply R; [|done].
    intros ->. unfold prog in Hpi. pose proof (mo_void _ _ _ (pi_map _ _ _ _ _ _ (rf_pass _ _ Hi))). congruence. }
  destruct (IH Hnd ltac:(intros; apply Hin; by right) ltac:(intros ? ?; apply Hinr; by right)
    (with_btf d1 b') _ (<[Z.to_nat j := r]> ws') Hi2) as (err & d' & -> & Ho).
  - done.
  - intros i Hpi. apply Hrk. by apply Hs1.
  - pose proof (rs_count _ _ _ _ _ Hs1). cbn [d_map with_btf]. lia.
  - rewrite rec_of_insert by (rewrite (rf_len _ _ Hi1); lia). by rewrite Z.eqb_refl.
  - intros k Hk'. assert (Hjk : j <> k) by by intros ->.
    pose proof (aref_bounds _ _ _ Hv').
    rewrite (aref_aset_ne ws' j k r); [apply Horig; by right|apply aset_Some; lia|done].
  - exists err, d'. split; [done|]. destruct Ho as [Ho|(-> & w' & Hi' & Hs')]; [by left|right].
    split; [done|]. exists w'. split; [done|]. eapply ref_step_trans; [exact Hs12|]. by eapply ref_step_trans.
Qed.

(** A type whose references are done finds its place. *)
Lemma unproc_set map map' x y v : aset map x y = Some map' -> aref map x = Some v ->
  (unproc map' + Nat.b2n (waiting v) = unproc map + Nat.b2n (waiting y))%nat.
Proof. intros [Hx ->]%aset_inv [_ Hv]%aref_lookup. exact (count_set waiting _ _ _ _ Hv). Qed.

Lemma ref_settle d w x ws ws' hash equal js : ref_inv d w -> prog (d_map d) x -> 1 <= x <= n ->
  rec_of wss x = Some ws -> ref_kind (wkind ws) -> rec_of w x = Some ws' ->
  (exists h, hash x = Some h) ->
  (forall c wsc, rec_of w c = Some wsc -> equal x c = Some (cmp ws' wsc ([0; 1; 2] ++ js))) ->
  (forall j, 0 <= j < Z.of_nat (length ws') -> j ∈ [0; 1; 2] ++ js) ->
  exists err d', settle_equal alloc_ok force d x hash equal = Some (err, d') /\
    (err < 0 /\ failed alloc_ok err \/
     err = 0 /\ exists y, 0 <= y <= n /\ aset (d_map d) x y = Some (d_map d') /\ equiv g x y /\
       same_obj d d' /\ ref_inv d' w).
Proof.
  intros [Hrep Hfr Hl Hsim Horig Hp Hd] Hprog Hx Hws Hk Hws' (h & Hh) Heq Hall. pose proof (wss_small b wss Hb) as Hsm.
  assert (Hnx : ~ mapped (d_map d) x) by (intros (v & Hv & Hm); unfold prog in Hprog; rewrite Hprog in Hv; by injection Hv as <-).
  destruct (Hsim x ws Hws) as (ws1 & E & Hs1). rewrite Hws' in E. injection E as <-.
  assert (Hsame : forall c wsc, rec_of w c = Some wsc -> cmp ws' wsc ([0; 1; 2] ++ js) = true -> wsc = ws').
  { intros c wsc Hwc Hc. symmetry. eapply cmp_all; [|exact Hall|exact Hc].
    eapply (same_info_len (d_btf d) w Hrep x c); [done|done|].
    eapply (cmp_info (d_btf d) w Hrep x c); [done|done| |exact Hc]. right. by left. }
  destruct (settle_equal_spec alloc_ok force wss names Hrefs (fun ws => ~ ref_kind (wkind ws)) (n + 1) d x hash h equal
    (fun c => match rec_of w c with Some wsc => cmp ws' wsc ([0; 1; 2] ++ js) | None => false end)
    Hp ltac:(lia) Hx Hnx Hh) as (err & d' & -> & Hs & Hout).
  { intros c Hc. destruct (rec_of_Some w c) as [wsc Hwc]; [lia|]. rewrite Hwc. by apply Heq. }
  { intros c Hc Hcmp. destruct (rec_of w c) as [wsc|] eqn:Hwc; [|done].
    pose proof (Hsame c wsc Hwc Hcmp) as ->. destruct (rec_of_Some wss c) as [wc Hc1]; [lia|].
    destruct (Hsim c wc Hc1) as (wsc1 & E1 & Hs2). rewrite Hwc in E1. injection E1 as <-. split.
    - eapply (same_info_replaces b wss names Hb); [exact Hws|exact Hc1| |by eapply similar_equiv].
      by rewrite <- (proj1 Hs1), (proj1 Hs2).
    - exists wc. split; [done|]. intros Hn. apply Hn. unfold wkind. by rewrite <- (proj1 Hs2), (proj1 Hs1). }
  exists err, d'. split; [done|]. destruct Hout as [Ho|(-> & Hp' & y & Hy & Hset & _)]; [by left|right].
  pose proof (is_mapped_id n y Hsm Hy) as Hym.
  split; [done|]. exists y. split; [done|]. split; [done|].
  split; [eapply replaces_equiv, (mo_equiv _ _ _ (pi_map _ _ _ _ _ _ Hp')); [by eapply aref_aset_eq|done]|].
  split; [done|]. destruct Hs as (Eb & Hs). split; rewrite ?Eb; try done.
  - intros i Hm Hpr. destruct (Z.eqb_spec x i) as [<-|Hne].
    + exfalso. apply Hm. exists y. split; [by eapply aref_aset_eq|done].
    + apply Horig; [intros Hmi; apply Hm; by eapply mapped_set|]. unfold prog in *.
      by rewrite (aref_aset_ne _ _ _ _ _ Hset) in Hpr.
  - intros i wsi Hi Hwi Hnr. eapply mapped_set; [done|done|]. by eapply Hd.
Qed.

Lemma s32_id v : 0 <= v <= n -> s32 v = v.
Proof. intros Hv. pose proof (wss_small b wss Hb). apply swrap_small; pow2; lia. Qed.

(** ** A type *)

Lemma settle_ref_spec x ws js hash equal js2 d0 w0 d w :
  rec_of wss x = Some ws -> 1 <= x <= n -> ref_kind (wkind ws) ->
  ref_inv d0 w0 -> ~ mapped (d_map d0) x -> ~ prog (d_map d0) x ->
  (forall i, prog (d_map d0) i -> (rank x < rank i)%nat) ->
  ref_inv d w -> prog (d_map d) x -> w = w0 -> aset (d_map d0) x BTF_IN_PROGRESS_ID = Some (d_map d) ->
  same_rest d0 d -> (unproc (d_map d) < fuel)%nat -> (unproc (d_map d) <= unproc (d_map d0))%nat ->
  NoDup js -> (forall j, j ∈ js -> j ∈ DedupTypes.ref_words (winfo ws) /\ j <> 1) -> in_rec ws js ->
  (forall b' w' ws', trep b' w' -> rec_of w' x = Some ws' -> winfo ws' = winfo ws -> length ws' = length ws ->
     (exists h, hash b' x = Some h) /\
     (forall c wsc, rec_of w' c = Some wsc -> equal b' x c = Some (cmp ws' wsc ([0; 1; 2] ++ js2)))) ->
  (forall j, 0 <= j < Z.of_nat (length ws) -> j ∈ [0; 1; 2] ++ js2) ->
  rec_result d0 w0 x (settle_ref alloc_ok force rec x js hash equal d).
Proof.
  intros Hws Hx Hk Hi0 Hnm Hnp Hrk Hi Hp -> Hmark Hrest Hfuel Hcnt Hnd Hin Hinr Hcmp Hall. unfold settle_ref.
  assert (Hws0 : rec_of w0 x = Some ws) by (rewrite (rf_orig _ _ Hi0 x Hnm Hnp); done).
  assert (Hprog_inv : forall i, prog (d_map d) i <-> i = x \/ prog (d_map d0) i).
  { intros i. unfold prog. destruct (Z.eqb_spec x i) as [<-|Hne].
    - rewrite (aref_aset_eq _ _ _ _ Hmark). tauto.
    - rewrite (aref_aset_ne _ _ _ _ _ Hmark) by done. split; [by right|]. by intros [->|?]. }
  destruct (ref_words_spec x ws js Hws Hx Hk Hnd Hin Hinr d w0 ws Hi Hp) as (err & d1 & -> & Ho); [|done|done|done|].
  { intros i [->|Hpi]%Hprog_inv; [done|]. apply Nat.lt_le_incl. by apply Hrk. }
  cbn [mbind option_bind]. destruct Ho as [[Hneg Hf]|(-> & w1 & Hi1 & Hs1)].
  { assert ((err <? 0) = true) as -> by lia. exists err, d1. split; [done|]. by left. }
  cbn [Z.ltb Z.compare]. destruct (rf_sim _ _ Hi1 x ws Hws) as (ws1 & Hws1 & Hsim1).
  assert (Hp1 : prog (d_map d1) x) by by apply Hs1.
  destruct (Hcmp (d_btf d1) w1 ws1 (rf_rep _ _ Hi1) Hws1 (proj1 Hsim1) (proj1 (proj2 Hsim1))) as [Hhash Heq].
  destruct (ref_settle d1 w1 x ws ws1 (hash (d_btf d1)) (equal (d_btf d1)) js2 Hi1 Hp1 Hx Hws Hk Hws1 Hhash Heq)
    as (err & d2 & -> & Ho).
  { intros j Hj. apply Hall. by rewrite (proj1 (proj2 Hsim1)) in Hj. }
  cbn [mbind option_bind]. destruct Ho as [[Hneg Hf]|(-> & y & Hy & Hset & He & Hobj & Hi2)].
  { destruct (Z.eqb_spec err 0); [lia|]. cbn [negb]. exists err, d2. split; [done|]. by left. }
  cbn [negb Z.eqb]. rewrite (aref_aset_eq _ _ _ _ Hset). cbn [mbind option_bind]. rewrite s32_id by done.
  assert (Hym : is_mapped y = true) by (apply (is_mapped_id n y (wss_small b wss Hb)); lia).
  exists y, d2. split; [done|]. right. split; [done|]. split; [done|]. split.
  { exists y. split; [by eapply aref_aset_eq|done]. }
  exists w1. split; [done|]. split.
  - destruct Hrest as (? & ? & ?). destruct (rs_rest _ _ _ _ _ Hs1) as (? & ? & ?). destruct Hobj as (_ & ? & ? & ?).
    split_and!; congruence.
  - intros i Hmi. eapply mapped_set; [done|done|]. apply Hs1. destruct Hmi as (v & Hv & Hvm). exists v. split; [|done].
    rewrite (aref_aset_ne _ _ _ _ _ Hmark); [done|]. intros ->. apply Hnm. by exists v.
  - intros i. destruct (Z.eqb_spec x i) as [<-|Hne].
    + split; [|done]. intros H. exfalso. unfold prog in H. rewrite (aref_aset_eq _ _ _ _ Hset) in H. by injection H as ->.
    + assert (E : prog (d_map d2) i <-> prog (d_map d1) i).
      { unfold prog. by rewrite (aref_aset_ne _ _ _ _ _ Hset). }
      rewrite E, (rs_prog _ _ _ _ _ Hs1), Hprog_inv. split; [by intros [->|?]|by right].
  - pose proof (rs_count _ _ _ _ _ Hs1). pose proof (unproc_set _ _ _ _ _ Hset Hp1) as Hc.
    unfold waiting in Hc at 2. rewrite Hym in Hc. cbn in Hc. lia.
  - intros i _ Hpi. apply (rs_recs _ _ _ _ _ Hs1); [by intros ->|]. apply Hprog_inv. by right.
Qed.
End Calls.

(** Marking a type as being in progress. *)
Lemma ref_inv_mark d w x m : ref_inv d w -> 1 <= x <= n -> ~ mapped (d_map d) x -> rec_of w x = rec_of wss x ->
  aset (d_map d) x BTF_IN_PROGRESS_ID = Some m -> ref_inv (with_map d m) w.
Proof.
  intros [Hrep Hfr Hl Hsim Horig Hp Hd] Hx Hnm Hox Hs. pose proof Hp as [Hm Ht Hc Hh Hbd].
  assert (Hmono : forall i, mapped (d_map d) i -> mapped m i).
  { intros i (v & Hv & Hvm). exists v. split; [|done]. rewrite (aref_aset_ne _ _ _ _ _ Hs); [done|].
    intros ->. apply Hnm. by exists v. }
  split; cbn [d_btf d_map with_map]; [done..| | |].
  - intros i Hmi Hpi. destruct (Z.eqb_spec x i) as [<-|Hne]; [done|].
    apply Horig; [intros H; by apply Hmi, Hmono|]. unfold prog in *. by rewrite (aref_aset_ne _ _ _ _ _ Hs) in Hpi.
  - split; cbn [d_map dedup_table d_hypot with_map]; [|done| |done|].
    + eapply (map_ok_mark g n (d_map d) m x); [done|done|lia|done].
    + intros h v Hv. destruct (Hc h v Hv) as (Hr & Hmv & Hself). split_and!; [lia|lia|by apply Hmono|].
      intros ws Hws HP. rewrite (aref_aset_ne _ _ _ _ _ Hs); [by eapply Hself|]. intros <-. by apply Hnm.
    + destruct (aref_Some (d_map d) x) as [v Hv]; [rewrite (mo_len _ _ _ Hm); lia|].
      pose proof (free_set _ _ _ _ _ Hs Hv) as Hf. simpl in Hf.
      destruct (is_mapped v) eqn:E; [exfalso; apply Hnm; by exists v|]. simpl in Hf. lia.
  - intros i ws Hi Hws Hr. apply Hmono. by eapply Hd.
Qed.

(** The comparisons of the pass look at all words of both types. *)
Section Kinds.
Context (x : Z) (ws : list Z) (Hws : rec_of wss x = Some ws) (Hx : 1 <= x <= n).

Definition compares (hash : bobj -> Z -> option Z) (equal : bobj -> Z -> Z -> option bool) (js : list Z) : Prop :=
  forall b' w' ws', trep b' w' -> rec_of w' x = Some ws' -> winfo ws' = winfo ws -> length ws' = length ws ->
    (exists h, hash b' x = Some h) /\
    (forall c wsc, rec_of w' c = Some wsc -> equal b' x c = Some (cmp ws' wsc ([0; 1; 2] ++ js))).

Lemma compares_words js : in_rec ws ([0; 1; 2] ++ js) ->
  compares (fun b id => hash_words b id ([0; 1; 2] ++ js) 0) (fun b i j => equal_words b i j ([0; 1; 2] ++ js)) js.
Proof.
  intros Hin b' w' ws' Hb' Hw' Hi Hl. assert (Hin' : in_rec ws' ([0; 1; 2] ++ js)).
  { intros j Hj. rewrite Hl. by apply Hin. }
  split; [by eapply hash_words_spec|]. intros c wsc Hwc.
  apply (equal_rest_spec b' w' Hb' x c ws' wsc Hw' Hwc js). intros j Hj. apply Hin', elem_of_app. by right.
Qed.

Lemma compares_fnproto : in_rec ws ([0; 1; 2] ++ elem_words 2 [0; 1] (wvlen ws)) ->
  compares btf_hash_fnproto btf_equal_fnproto (elem_words 2 [0; 1] (wvlen ws)).
Proof.
  intros Hin b' w' ws' Hb' Hw' Hi Hl. assert (Ev : wvlen ws' = wvlen ws) by (unfold wvlen; by rewrite Hi).
  assert (Hin' : in_rec ws' ([0; 1; 2] ++ elem_words 2 [0; 1] (wvlen ws'))).
  { intros j Hj. rewrite Hl. apply Hin. by rewrite <- Ev. }
  split.
  - unfold btf_hash_fnproto. rewrite (info_of_spec b' w' Hb' x ws' Hw'). cbn [mbind option_bind].
    by eapply hash_words_spec.
  - intros c wsc Hwc. rewrite <- Ev.
    apply (equal_members_spec b' w' Hb' x c ws' wsc Hw' Hwc (elem_words 2 [0; 1])). intros j Hj. apply Hin', elem_of_app. by right.
Qed.

(** All words of a record of one of these kinds. *)
Lemma all_words js : (forall j, 3 <= j < kind_words (wkind ws) (wvlen ws) <-> j ∈ js) -> rec_wf ws ->
  in_rec ws ([0; 1; 2] ++ js) /\ (forall j, 0 <= j < Z.of_nat (length ws) -> j ∈ [0; 1; 2] ++ js).
Proof.
  intros Hjs Hw. destruct (rec_length ws Hw) as (Hl & _). split.
  - intros j Hj. pose proof (proj1 (proj2 Hw)).
    apply elem_of_app in Hj as [Hj%head_words|Hj%Hjs]; lia.
  - intros j Hj. rewrite Hl in Hj. destruct (Z.ltb_spec j 3) as [Hlt|Hge].
    + apply elem_of_app. left. rewrite !elem_of_cons. lia.
    + apply elem_of_app. right. apply Hjs. lia.
Qed.
End Kinds.

Lemma fnproto_words vlen j : 0 <= vlen ->
  3 <= j < kind_words KIND_FUNC_PROTO vlen <-> j ∈ elem_words 2 [0; 1] vlen.
Proof.
  intros Hv. cbn [kind_words]. rewrite elem_words_in. split.
  - intros Hj. destruct (elem_of_word 2 vlen j ltac:(lia) ltac:(lia)) as (i & f & Hi & Hf & ->).
    exists i, f. split_and!; [lia|lia| |lia]. rewrite !elem_of_cons. lia.
  - intros (i & f & Hi & Hf & ->). rewrite !elem_of_cons in Hf. destruct Hf as [ -> |[ -> |H]]; [lia|lia|].
    by apply not_elem_of_nil in H.
Qed.

Lemma ref_kinds ws : rec_wf ws -> ref_kind (wkind ws) ->
  wkind ws = KIND_ARRAY \/ wkind ws = KIND_FUNC_PROTO \/ wkind ws = KIND_DECL_TAG \/
  wkind ws ∈ [KIND_CONST; KIND_VOLATILE; KIND_RESTRICT; KIND_PTR; KIND_TYPEDEF; KIND_FUNC; KIND_TYPE_TAG].
Proof.
  intros Hw (Hp & Hs & Hv & Hd). destruct (rec_length ws Hw) as (_ & Hu & Ho).
  destruct (wkind ws); try done; try (by left); try (right; by left); try (right; right; by left);
    try (do 3 right; by repeat (left || right)); exfalso;
    [apply Hp; by left|apply Hs; by left|apply Hs; by right|apply Hp; right; by left|apply Hp; do 3 right; by left
    |apply Hp; by do 4 right|apply Hp; do 2 right; by left].
Qed.

Lemma ref_type_spec fuel : rec_ok fuel (btf_dedup_ref_type alloc_ok force fuel).
Proof.
  induction fuel as [|fuel IH]; intros d w x Hi Hx Hfuel Hrk; [lia|]. cbn [btf_dedup_ref_type].
  pose proof Hi as [Hrep _ _ _ Horig Hp Hd]. pose proof (pi_map _ _ _ _ _ _ Hp) as Hm.
  destruct (aref_Some (d_map d) x) as [v Hv]; [rewrite (mo_len _ _ _ Hm); lia|]. rewrite Hv. cbn [mbind option_bind].
  assert (Hkind : ~ mapped (d_map d) x -> 1 <= x <= n /\ exists ws, rec_of wss x = Some ws /\ ref_kind (wkind ws)).
  { intros Hnm. assert (Hx0 : x <> 0).
    { intros ->. apply Hnm. exists 0. split; [apply (mo_void _ _ _ Hm)|done]. }
    destruct (rec_of_Some wss x Hx) as [ws Hws]. split; [lia|]. exists ws. split; [done|].
    destruct (decide_ref_kind (wkind ws)) as [|Hn]; [done|]. exfalso. apply Hnm. eapply Hd; [lia|done|done]. }
  destruct (Z.eqb_spec v BTF_IN_PROGRESS_ID) as [->|Hnp].
  { exfalso. destruct Hkind as (_ & Hk).
    - intros (u & Hu & Hum). rewrite Hv in Hu. by injection Hu as <-.
    - pose proof (Hrk x Hk Hv). lia. }
  destruct (is_mapped v) eqn:Emv.
  { destruct (resolve_ok g n (view_closed wss names Hrefs) Hone (view_dom wss names) (d_map d) x Hm Hx)
      as (k & r & _ & -> & Hr & He). cbn [mbind option_bind]. rewrite s32_id by done.
    exists r, d. split; [done|]. right. split; [done|]. split; [done|]. split; [by exists v|].
    exists w. split; [done|apply ref_step_refl]. }
  assert (Hnm : ~ mapped (d_map d) x) by (intros (u & Hu & Hum); congruence).
  assert (Hnpx : ~ prog (d_map d) x) by (unfold prog; congruence).
  destruct (Hkind Hnm) as (Hx1 & ws & Hws & Hk).
  assert (Hwx : rec_of w x = Some ws) by (by rewrite Horig).
  pose proof (rec_of_wf b wss Hb x ws Hws ltac:(lia)) as Hw.
  rewrite (info_of_spec (d_btf d) w Hrep x ws Hwx). cbn [mbind option_bind]. unfold set_map.
  destruct (map_aset g n (d_map d) x BTF_IN_PROGRESS_ID Hm ltac:(lia)) as [m Hs]. rewrite Hs. cbn [mbind option_bind].
  assert (Hi1 : ref_inv (with_map d m) w) by (eapply ref_inv_mark; [done|done|done|congruence|done]).
  assert (Hp1 : prog m x) by by eapply aref_aset_eq.
  pose proof (unproc_set _ _ _ _ _ Hs Hv) as Hcnt.
  assert (waiting v = true) as Hwait by (unfold waiting; rewrite Emv; by destruct (Z.eqb_spec v BTF_IN_PROGRESS_ID)).
  rewrite Hwait in Hcnt. cbn in Hcnt.
  assert (Hdo : forall js hash equal js2, NoDup js ->
    (forall j, j ∈ js -> j ∈ DedupTypes.ref_words (winfo ws) /\ j <> 1) ->
    compares x ws hash equal js2 -> (forall j, 0 <= j < Z.of_nat (length ws) -> j ∈ [0; 1; 2] ++ js2) ->
    rec_result d w x (settle_ref alloc_ok force (btf_dedup_ref_type alloc_ok force fuel) x js hash equal (with_map d m))).
  { intros js hash equal js2 Hnd Hin Hcmp Hall.
    eapply (settle_ref_spec fuel _ IH x ws js hash equal js2 d w (with_map d m) w); try done; cbn [d_map with_map].
    - intros i Hpi. apply Hrk; [by exists ws|done].
    - lia.
    - lia.
    - intros j Hj. apply words_in_rec; [done|]. right. by apply Hin. }
  pose proof (ref_words_kind ws) as Hrw. pose proof (all_words ws) as Haw.
  fold (wkind ws). fold (wvlen ws).
  destruct (ref_kinds ws Hw Hk) as [E|[E|[E|E]]].
  - (* arrays *)
    rewrite E in Haw |- *. destruct (Haw [3; 4; 5]) as [Hin Hall]; [|done|].
    { intros j. cbn [kind_words]. rewrite !elem_of_cons, elem_of_nil. split; [|intuition lia].
      intros Hj. assert (j = 3 \/ j = 4 \/ j = 5) by lia. tauto. }
    apply (Hdo [3; 4] _ _ [3; 4; 5]); [by apply (bool_decide_unpack _)| |by apply (compares_words x ws [3; 4; 5])|done].
    rewrite (Hrw KIND_ARRAY E). intros j Hj. split; [done|]. intros ->. by elem_inv.
  - (* function prototypes *)
    rewrite E in Haw |- *. destruct (Haw (elem_words 2 [0; 1] (wvlen ws))) as [Hin Hall]; [|done|].
    { intros j. apply fnproto_words, wvlen_range. }
    apply (Hdo (2 :: elem_words 2 [1] (wvlen ws)) _ _ (elem_words 2 [0; 1] (wvlen ws)));
      [apply elem_words_one| |by apply compares_fnproto|done].
    rewrite (Hrw KIND_FUNC_PROTO E). intros j Hj. split; [done|]. intros ->.
    apply elem_of_cons in Hj as [Hj|(i & f & Hi' & Hf & Hj)%elem_words_in]; [done|].
    apply list_elem_of_singleton in Hf. lia.
  - (* declaration tags *)
    rewrite E in Haw |- *. destruct (Haw [3]) as [Hin Hall]; [|done|].
    { intros j. cbn [kind_words]. rewrite list_elem_of_singleton. lia. }
    apply (Hdo [2] _ _ [3]); [by apply NoDup_singleton| |by apply (compares_words x ws [3])|done].
    rewrite (Hrw KIND_DECL_TAG E). intros j Hj. split; [done|]. apply list_elem_of_singleton in Hj. lia.
  - assert (Hr : DedupTypes.ref_words (winfo ws) = [2] /\ kind_words (wkind ws) (wvlen ws) = 3).
    { rewrite (Hrw _ eq_refl). by repeat (apply elem_of_cons in E as [ -> |E]); [..|apply not_elem_of_nil in E]. }
    destruct Hr as [Hr Hlen]. destruct (Haw []) as [Hin Hall]; [|done|].
    { intros j. rewrite Hlen, elem_of_nil. split; [lia|done]. }
    assert (Hres : rec_result d w x (settle_ref alloc_ok force (btf_dedup_ref_type alloc_ok force fuel) x [2]
      btf_hash_common btf_equal_common (with_map d m))).
    { apply (Hdo [2] _ _ []); [by apply NoDup_singleton| |by apply (compares_words x ws [])|done].
      rewrite Hr. intros j Hj. split; [done|]. apply list_elem_of_singleton in Hj. lia. }
    by repeat (apply elem_of_cons in E as [E|E]; [by rewrite E|]); apply not_elem_of_nil in E.
Qed.

(** ** The pass *)

Lemma unproc_length map : (unproc map <= length map)%nat.
Proof. apply filter_length_le. Qed.

Lemma ref_types_spec d0 : ref_inv d0 wss -> (forall i, ~ prog (d_map d0) i) ->
  exists err d', btf_dedup_ref_types alloc_ok force d0 = Some (err, d') /\
    (err < 0 /\ failed alloc_ok err \/
     err = 0 /\ same_rest d0 d' /\ exists w, ref_inv d' w /\ forall i, 0 <= i <= n -> mapped (d_map d') i).
Proof.
  intros Hi0 Hnp0. unfold btf_dedup_ref_types, for_own_types.
  rewrite (tr_start _ _ (rf_rep _ _ Hi0)), (tr_nr _ _ (rf_rep _ _ Hi0)).
  destruct (for_types_spec (fun d id => btf_dedup_ref_type alloc_ok force (S (length (d_map d))) d id)
    (fun i s => 1 <= i /\ same_rest d0 s /\ exists w, ref_inv s w /\ (forall j, ~ prog (d_map s) j) /\
       forall j, 1 <= j < i -> mapped (d_map s) j) (fun err _ => failed alloc_ok err) (n + 1))
    with (n := Z.to_nat n) (lo := 1) (s := d0) as (err & d' & -> & Ho).
  - intros s i Hlt (Hi & Hrest & w & Hs & Hnp & Hd).
    destruct (ref_type_spec (S (length (d_map s))) s w i Hs) as (r & s' & -> & Ho).
    { lia. }
    { pose proof (unproc_length (d_map s)). lia. }
    { intros j _ Hj. by eapply Hnp in Hj. }
    exists r, s'. split; [done|]. destruct Ho as [Ho|(Hr & _ & Hmi & w' & Hi' & Hs')]; [by left|right].
    split; [lia|]. split; [lia|]. split.
    { destruct Hrest as (? & ? & ?). destruct (rs_rest _ _ _ _ _ Hs') as (? & ? & ?). split_and!; congruence. }
    exists w'. split; [done|]. split.
    + intros j Hj%(rs_prog _ _ _ _ _ Hs'). by eapply Hnp.
    + intros j Hj. destruct (Z.eqb_spec j i) as [->|Hne]; [done|]. apply (rs_mono _ _ _ _ _ Hs'), Hd. lia.
  - lia.
  - split; [lia|]. split; [done|]. exists wss. split; [done|]. split; [done|]. intros. lia.
  - cbn [mbind option_bind]. destruct Ho as [[Hneg Hf]|(-> & _ & Hrest & w & Hi & _ & Hd)].
    + assert ((err <? 0) = true) as -> by lia. exists err, d'. split; [done|]. by left.
    + exists 0, (with_table d' hashmap__init). split; [done|]. right. split; [done|]. split; [done|].
      exists w. pose proof Hi as [Hrep Hfr Hl Hsim Horig [Hm Ht Hc Hh Hbd] Hdn]. split.
      * split; cbn [d_btf d_map with_table]; [done..| |done]. split; cbn [d_map dedup_table d_hypot with_table];
          [done|apply table_init| |done|].
        { intros h v Hv. by apply not_elem_of_nil in Hv. }
        { cbn [sz hashmap__init]. destruct Ht as (_ & _ & E). rewrite E in Hbd. lia. }
      * cbn [d_map with_table]. intros i Hir. destruct (Z.eqb_spec i 0) as [->|Hne].
        { exists 0. split; [apply (mo_void _ _ _ Hm)|done]. }
        { apply Hd. lia. }
Qed.

(** From the pass before. *)
Lemma struct_ref d : struct_inv force wss names (n + 1) d -> d_btf d = b -> ref_inv d wss.
Proof.
  intros [[Hm Ht Hc Hh Hbd] Hnp Hd] Hdb. split; rewrite ?Hdb; [done|by eapply frame_refl|done| |done| |].
  - intros i ws Hws. exists ws. split; [done|]. by eapply similar_refl.
  - split; [done|done| |done|done]. intros h v Hv. destruct (Hc h v Hv) as (Hr & Hmv & Hself).
    split_and!; [lia|lia|done|]. intros ws Hws Hk. apply (Hself ws Hws). intros Hl.
    destruct (decide_ref_kind (wkind ws)) as [(Hp & _)|Hn]; [|done]. apply Hp. destruct Hl as [F|He]; [by do 3 right; left|].
    unfold is_efwd, enum_fwd in He. apply andb_true_iff in He as [Hq%bool_decide_eq_true_1 _].
    apply elem_of_cons in Hq as [Hq|Hq%list_elem_of_singleton]; [by right; left|by right; right; left].
  - intros i ws Hi Hws Hr. destruct (Hd i ws Hi Hws Hr) as [[_ Hle]|Hmi]; [lia|done].
Qed.
End Refs.
