(* ===== verification/DedupVisit.v ===== *)
(** * BTF deduplication: rewriting the fields of all types

    The passes over strings and over type ids visit a field of every type and
    replace its value.  What the callback does to a value and to the state
    is a parameter: [I] is the invariant of the state, [Q] relates the values
    before and after, [pre] is what the values satisfy before. *)

From S2P Require Import Prelude Hashmap StrSet Btf BtfBuild BtfVisit BtfExt Dedup TypeGraph.
From S2P Require Import DedupTypes DedupEquiv DedupPasses DedupRefs.

(** The words [js] of a record were replaced by related ones. *)
Definition rewritten (Q : Z -> Z -> Prop) (js : list Z) (ws ws' : list Z) : Prop :=
  winfo ws' = winfo ws /\ length ws' = length ws /\
  forall j u u', aref ws j = Some u -> aref ws' j = Some u' ->
    (j ∈ js -> Q u u') /\ (j ∉ js -> u' = u).

Lemma rewritten_mono (Q Q' : Z -> Z -> Prop) js ws ws' :
  (forall u u', Q u u' -> Q' u u') -> rewritten Q js ws ws' -> rewritten Q' js ws ws'.
Proof.
  intros HQ (H1 & H2 & H3). split_and!; [done|done|]. intros j u u' Hu Hu'.
  destruct (H3 j u u' Hu Hu') as [Ha Hb]. split; [intros Hj; by apply HQ, Ha|done].
Qed.

(** One more word. *)
Lemma rewritten_cons Q j js ws u v ws' : aref ws j = Some u -> Q u v -> j ∉ js -> j <> 1 ->
  rewritten Q js (<[Z.to_nat j := v]> ws) ws' -> rewritten Q (j :: js) ws ws'.
Proof.
  intros Hu Hq Hj Hj1 (H1 & H2 & H3). pose proof (aref_bounds _ _ _ Hu) as Hb.
  assert (Hset : aset ws j v = Some (<[Z.to_nat j := v]> ws)) by (apply aset_Some; lia).
  rewrite winfo_insert in H1 by lia. rewrite length_insert in H2. split_and!; [done|done|].
  intros k x x' Hx Hx'. destruct (Z.eqb_spec j k) as [<-|Hne].
  - rewrite Hu in Hx. injection Hx as <-. destruct (H3 j v x') as [_ E]; [by eapply aref_aset_eq|done|].
    split; [by rewrite E|]. intros Hn. exfalso. apply Hn. by left.
  - destruct (H3 k x x') as [Ha Hb']; [by rewrite (aref_aset_ne _ _ _ _ _ Hset)|done|]. split.
    + intros [->|Hk]%elem_of_cons; [done|by apply Ha].
    + intros Hn. apply Hb'. intros Hk. apply Hn. by right.
Qed.

(** ** The fields *)

Lemma ref_words_shape ws : rec_wf ws ->
  NoDup (DedupTypes.ref_words (winfo ws)) /\ 1 ∉ DedupTypes.ref_words (winfo ws) /\
  in_rec ws (DedupTypes.ref_words (winfo ws)) /\ type_id_words (winfo ws) = Some (DedupTypes.ref_words (winfo ws)).
Proof.
  intros Hw. split_and!.
  - unfold DedupTypes.ref_words, type_id_words.
    destruct (kind_of _); cbn [default from_option id]; try apply NoDup_nil_2; try apply NoDup_singleton;
      try (by apply elem_words_nodup); try apply elem_words_one. by apply (bool_decide_unpack _).
  - intros H. unfold DedupTypes.ref_words, type_id_words in H.
    destruct (kind_of _); cbn [default from_option id] in H; elem_inv; lia.
  - intros j Hj. apply words_in_rec; [done|]. by right.
  - destruct (rec_length ws Hw) as (_ & Hu & Ho). unfold DedupTypes.ref_words, type_id_words, wkind in *.
    by destruct (kind_of _).
Qed.

Lemma str_words_shape ws : rec_wf ws ->
  NoDup (str_off_words (winfo ws)) /\ 1 ∉ str_off_words (winfo ws) /\ in_rec ws (str_off_words (winfo ws)).
Proof.
  intros Hw. assert (H0 : forall sz n, 0 < sz -> 0 ∉ elem_words sz [0] n).
  { intros sz n Hsz. rewrite elem_words_in. intros (i & f & Hi & ->%list_elem_of_singleton & H). lia. }
  assert (H1 : forall sz n, 0 < sz -> 1 ∉ elem_words sz [0] n).
  { intros sz n Hsz. rewrite elem_words_in. intros (i & f & Hi & ->%list_elem_of_singleton & H). lia. }
  pose proof (rec_length ws Hw) as (Hl & _). pose proof (proj1 (proj2 Hw)) as H3. split_and!.
  - unfold str_off_words. apply NoDup_cons.
    destruct (kind_of _); split; try apply not_elem_of_nil; try apply NoDup_nil_2;
      try (by apply H0); by apply elem_words_nodup.
  - unfold str_off_words. rewrite not_elem_of_cons. split; [done|].
    destruct (kind_of _); try apply not_elem_of_nil; by apply H1.
  - intros j Hj. unfold str_off_words in Hj. apply elem_of_cons in Hj as [->|Hj]; [lia|].
    unfold wkind, wvlen in *. destruct (kind_of (BTF_INFO_KIND (winfo ws))); try (by apply not_elem_of_nil in Hj);
      apply elem_words_in in Hj as (i & f & Hi & ->%list_elem_of_singleton & ->); cbn [kind_words] in Hl; lia.
Qed.

Section Visit.
Context (visit : btf_dedup -> Z -> option (Z * Z * btf_dedup)).
Context (I : btf_dedup -> Prop) (Q : btf_dedup -> Z -> Z -> Prop) (E : Z -> Prop) (pre : Z -> Prop).

Definition later (s s' : btf_dedup) : Prop := forall u u', Q s u u' -> Q s' u u'.

Context (Hvisit : forall s u, I s -> pre u -> exists err u' s', visit s u = Some (err, u', s') /\
  (err < 0 /\ E err \/ err = 0 /\ d_btf s' = d_btf s /\ I s' /\ word_ok u' /\ Q s' u u' /\ later s s')).
Context (HI : forall s b', I s -> frame (d_btf s) b' -> I (with_btf s b')).
Context (HQ : forall s b' u u', Q s u u' <-> Q (with_btf s b') u u').

Lemma visit_words_spec id js : id <> 0 -> NoDup js -> 1 ∉ js -> forall s w ws,
  I s -> trep (d_btf s) w -> rec_of w id = Some ws -> (forall j, j ∈ js -> exists u, aref ws j = Some u /\ pre u) ->
  exists err s', visit_words (dedup_get id) (dedup_put id) visit s js = Some (err, s') /\
    (err < 0 /\ E err \/ err = 0 /\ I s' /\ later s s' /\ frame (d_btf s) (d_btf s') /\
       exists ws', trep (d_btf s') (<[Z.to_nat (id - 1) := ws']> w) /\ rewritten (Q s') js ws ws').
Proof.
  intros Hid. induction js as [|j js IH]; intros Hnd H1 s w ws Hi Hb Hws Hpre; cbn [visit_words].
  { exists 0, s. split; [done|]. right. split; [done|]. split; [done|]. split; [by intros u u'|].
    split; [by eapply frame_refl|]. exists ws. destruct (rec_of_own _ _ _ Hws Hid) as [_ Hl].
    split; [by rewrite list_insert_id|]. split_and!; [done|done|]. intros j u u' Hu Hu'.
    rewrite Hu in Hu'. injection Hu' as <-. split; [by intros ?%not_elem_of_nil|done]. }
  apply NoDup_cons in Hnd as [Hj Hnd]. apply not_elem_of_cons in H1 as [Hj1 H1].
  destruct (Hpre j ltac:(by left)) as (u & Hu & Hpu). change (dedup_get id s j) with (type_word (d_btf s) id j).
  rewrite (type_word_spec (d_btf s) w Hb id ws j u Hws Hu). cbn [mbind option_bind].
  destruct (Hvisit s u Hi Hpu) as (err & v & s1 & -> & Ho). cbn [mbind option_bind].
  destruct Ho as [[Hneg He]|(-> & Ebtf & Hi1 & Hv & Hq & Hl1)].
  { destruct (Z.eqb_spec err 0); [lia|]. cbn [negb]. exists err, s1. split; [done|]. by left. }
  cbn [negb Z.eqb]. change (dedup_put id s1 j v) with (b ← set_type_word (d_btf s1) id j v; Some (with_btf s1 b)). rewrite Ebtf.
  destruct (set_type_word_spec (d_btf s) w id ws j v Hb Hws Hid) as (b' & -> & Hf & Hb').
  { by eapply aref_bounds. } { done. } { done. }
  cbn [mbind option_bind]. set (w1 := <[Z.to_nat (id - 1) := <[Z.to_nat j := v]> ws]> w) in *.
  assert (Hi2 : I (with_btf s1 b')) by (apply HI; [done|by rewrite Ebtf]).
  destruct (rec_of_own _ _ _ Hws Hid) as [Hr _].
  assert (Hset : aset ws j v = Some (<[Z.to_nat j := v]> ws)) by (apply aset_Some; by apply aref_bounds in Hu).
  destruct (IH Hnd H1 (with_btf s1 b') w1 (<[Z.to_nat j := v]> ws) Hi2 Hb') as (err & s' & -> & Ho).
  { unfold w1. rewrite rec_of_insert by lia. by rewrite Z.eqb_refl. }
  { intros k Hk. destruct (Hpre k ltac:(by right)) as (x & Hx & Hpx). exists x. split; [|done].
    rewrite (aref_aset_ne _ _ _ _ _ Hset); [done|by intros ->]. }
  exists err, s'. split; [done|]. destruct Ho as [Ho|(-> & Hi' & Hl & Hf' & ws' & Hb'' & Hrw)]; [by left|right].
  split; [done|]. split; [done|]. split.
  { intros x x' Hx. apply Hl. apply HQ. by apply Hl1. }
  split; [by eapply frame_trans|]. exists ws'. split; [unfold w1 in Hb''; by rewrite list_insert_insert_eq in Hb''|].
  eapply rewritten_cons; [done| |done|done|done]. apply Hl, HQ, Hq.
Qed.

(** *** All types *)

Context (js : Z -> list Z) (w0 : list (list Z)) (s0 : btf_dedup).
Context (Hjs : forall id ws, 1 <= id -> rec_of w0 id = Some ws ->
  NoDup (js (winfo ws)) /\ 1 ∉ js (winfo ws) /\ forall j, j ∈ js (winfo ws) -> exists u, aref ws j = Some u /\ pre u).

(** The types before [cur] are done. *)
Definition visited (cur : Z) (s : btf_dedup) : Prop :=
  I s /\ later s0 s /\ frame (d_btf s0) (d_btf s) /\ exists w, trep (d_btf s) w /\ length w = length w0 /\
    (forall id, cur <= id -> rec_of w id = rec_of w0 id) /\
    (forall id ws, 1 <= id < cur -> rec_of w0 id = Some ws ->
       exists ws', rec_of w id = Some ws' /\ rewritten (Q s) (js (winfo ws)) ws ws').

Lemma visit_type_spec cur s : visited cur s -> 1 <= cur <= Z.of_nat (length w0) ->
  forall ws, rec_of w0 cur = Some ws ->
  exists err s', visit_words (dedup_get cur) (dedup_put cur) visit s (js (winfo ws)) = Some (err, s') /\
    (err < 0 /\ E err \/ err = 0 /\ visited (cur + 1) s').
Proof.
  intros (Hi & Hl0 & Hf0 & w & Hb & Hl & Hrest & Hdone) Hcur ws Hws0.
  assert (Hws : rec_of w cur = Some ws) by (rewrite Hrest; [done|lia]).
  destruct (Hjs cur ws ltac:(lia) Hws0) as (Hnd & H1 & Hpre).
  destruct (visit_words_spec cur _ ltac:(lia) Hnd H1 s w ws Hi Hb Hws Hpre) as (err & s' & -> & Ho).
  exists err, s'. split; [done|]. destruct Ho as [Ho|(-> & Hi' & Hlt & Hf & ws' & Hb' & Hrw)]; [by left|right].
  split; [done|]. split; [done|]. split; [intros u u' Hu; by apply Hlt, Hl0|].
  split; [by eapply frame_trans|]. eexists. split; [exact Hb'|]. split; [by rewrite length_insert|]. split.
  - intros id Hid. rewrite rec_of_insert by lia. destruct (Z.eqb_spec id cur); [lia|]. apply Hrest. lia.
  - intros id wsi Hid Hwi. rewrite rec_of_insert by lia. destruct (Z.eqb_spec id cur) as [->|Hne].
    + rewrite Hws0 in Hwi. injection Hwi as <-. by exists ws'.
    + destruct (Hdone id wsi ltac:(lia) Hwi) as (wsi' & H & Hr). exists wsi'. split; [done|].
      by eapply rewritten_mono.
Qed.

Lemma visit_types_spec f : trep (d_btf s0) w0 -> I s0 ->
  (forall s id ws, frame (d_btf s0) (d_btf s) -> 1 <= id -> rec_of w0 id = Some ws ->
     (exists w, trep (d_btf s) w /\ rec_of w id = Some ws) ->
     f s id = visit_words (dedup_get id) (dedup_put id) visit s (js (winfo ws))) ->
  exists err s', for_own_types f s0 = Some (err, s') /\
    (err < 0 /\ E err \/ err = 0 /\ visited (Z.of_nat (length w0) + 1) s').
Proof.
  intros Hb Hi Hf. unfold for_own_types. rewrite (tr_start _ _ Hb), (tr_nr _ _ Hb).
  destruct (for_types_spec f (fun i s => 1 <= i /\ visited i s) (fun err _ => E err) (Z.of_nat (length w0) + 1))
    with (n := Z.to_nat (Z.of_nat (length w0))) (lo := 1) (s := s0) as (err & s' & -> & Ho).
  - intros s i Hlt [Hge Hv]. destruct (rec_of_Some w0 i) as [ws Hws]; [lia|].
    rewrite (Hf s i ws); [| |done|done|].
    + destruct (visit_type_spec i s Hv ltac:(lia) ws Hws) as (err & s' & -> & Ho). exists err, s'. split; [done|].
      destruct Ho as [[? ?]|[-> Hv']]; [left|right]; (split; [done|]); [done|]. split; [lia|done].
    + by destruct Hv as (_ & _ & ? & _).
    + destruct Hv as (_ & _ & _ & w & Hbw & _ & Hrest & _). exists w. split; [done|]. rewrite Hrest; [done|lia].
  - lia.
  - split; [lia|]. split; [done|]. split; [by intros u u'|]. split; [by eapply frame_refl|]. exists w0. split; [done|].
    split; [done|]. split; [done|]. intros. lia.
  - exists err, s'. split; [done|]. destruct Ho as [[? ?]|(-> & _ & Hv)]; [by left|by right].
Qed.
End Visit.
