(* ===== verification/DedupCompact.v ===== *)
(** * BTF deduplication: compaction and new ids

    [btf_dedup_compact_types] moves the records of the types that stand for
    themselves to the front, over the ones before them, and
    [btf_dedup_remap_types] writes the new ids into them. *)

From S2P Require Import Prelude Hashmap StrSet Btf BtfBuild BtfVisit BtfExt Dedup TypeGraph.
From S2P Require Import DedupTypes DedupEquiv.

(** ** The memory of the index *)

Lemma ld32_st32_gt m off v m' off' : st32 m off v = Some m' -> off + 4 <= off' -> ld32 m' off' = ld32 m off'.
Proof.
  intros (H1 & H2 & ->)%st32_inv Ho. unfold ld32, ld16, ld8.
  destruct (Z.ltb_spec off' 0); [lia|]. destruct (Z.ltb_spec (off' + 1) 0); [lia|].
  destruct (Z.ltb_spec (off' + 2) 0); [lia|]. destruct (Z.ltb_spec (off' + 2 + 1) 0); [lia|].
  by repeat rewrite list_lookup_insert_ne by lia.
Qed.

Lemma ld32_take m k off : 0 <= off -> off + 4 <= Z.of_nat k -> (k <= length m)%nat -> ld32 (take k m) off = ld32 m off.
Proof.
  intros H0 H1 H2. rewrite <- (take_drop k m) at 2. symmetry. apply ld32_prefix; [done|].
  rewrite length_take. lia.
Qed.

Lemma offsets_last kept ws : let recs := map bytes_of (kept ++ [ws]) in
  forall i, (i < S (length kept))%nat ->
  offsets 0 recs !! i = if decide (i < length kept)%nat then offsets 0 (map bytes_of kept) !! i else Some (types_len kept).
Proof.
  cbn zeta. intros i Hi. rewrite map_app, offsets_app. cbn [map offsets].
  destruct (decide (i < length kept)%nat) as [Hlt|Hge].
  - rewrite lookup_app_l; [done|]. by rewrite length_offsets, length_map.
  - rewrite lookup_app_r by (rewrite length_offsets, length_map; lia).
    rewrite length_offsets, length_map. replace (i - length kept)%nat with 0%nat by lia. done.
Qed.

Lemma size_at b wss id ws : trep b wss -> rec_of wss id = Some ws -> id <> 0 ->
  size_of_info (winfo ws) = 4 * Z.of_nat (length ws).
Proof. intros Hb H H0. by destruct (rec_of_wf b wss Hb id ws H H0) as (_ & _ & ?). Qed.

(** ** The object during compaction

    The records [kept] in front, [junk] of records that were moved or dropped,
    and the records [rest] that were not looked at. *)
Record crep (h : list Z) (set : strset) (N : Z) (b : bobj) (kept : list (list Z)) (junk : list Z)
    (rest : list (list Z)) : Prop := {
  cr_rep : exists slack cap,
    b_rep b = RSplit h (types_bytes kept ++ junk ++ types_bytes rest ++ slack) cap set;
  cr_base : b_base b = None;
  cr_start : b_start_id b = 1;
  cr_so : b_start_str_off b = 0;
  cr_nr : b_nr b = N;
  cr_small : N <= 2 ^ 29;
  cr_cap : Z.of_nat (length (b_offs b)) = 4 * b_offs_cap b /\ N <= b_offs_cap b <= 2 ^ 31;
  cr_le : Z.of_nat (length kept) + Z.of_nat (length rest) <= N;
  cr_kept : forall i, (i < length kept)%nat -> ld32 (b_offs b) (4 * Z.of_nat i) = offsets 0 (map bytes_of kept) !! i;
  cr_rest : forall i, (i < length rest)%nat -> ld32 (b_offs b) (4 * (N - Z.of_nat (length rest) + Z.of_nat i)) =
    Some (types_len kept + Z.of_nat (length junk) + types_len (take i rest));
  cr_size : types_len kept + Z.of_nat (length junk) + types_len rest <= UINT32_MAX;
  cr_recs : Forall rec_wf kept /\ Forall rec_wf rest;
}.

Lemma types_bytes_cons ws wss : types_bytes (ws :: wss) = bytes_of ws ++ types_bytes wss.
Proof. done. Qed.

Lemma types_len_cons ws wss : types_len (ws :: wss) = 4 * Z.of_nat (length ws) + types_len wss.
Proof. unfold types_len. rewrite types_bytes_cons, length_app, bytes_of_length. lia. Qed.

Lemma types_len_nonneg wss : 0 <= types_len wss.
Proof. unfold types_len. lia. Qed.

(** The first record of the rest. *)
Lemma crep_head h set N b kept junk ws rest : crep h set N b kept junk (ws :: rest) ->
  let id := N - Z.of_nat (length rest) in
  exists m pre post, b__type_by_id b id = Some (Some (TAt m (Z.of_nat (length pre)))) /\
    m = pre ++ bytes_of ws ++ post /\ Z.of_nat (length pre) = types_len kept + Z.of_nat (length junk).
Proof.
  cbv zeta. intros [(slack & cap & Hr) Hbase Hst Hso Hn Hsm Hcap Hle Hk Hrest Hsz Hw]. cbn [length] in *.
  set (id := N - Z.of_nat (length rest)). assert (Hid : id = N - Z.of_nat (length rest)) by done. clearbody id.
  exists (types_bytes kept ++ junk ++ types_bytes (ws :: rest) ++ slack), (types_bytes kept ++ junk), (types_bytes rest ++ slack).
  assert (Hlen : Z.of_nat (length (types_bytes kept ++ junk)) = types_len kept + Z.of_nat (length junk)).
  { rewrite length_app. unfold types_len. lia. }
  split_and!; [|by rewrite types_bytes_cons, <- !app_assoc|done].
  unfold b__type_by_id, b_type_cnt. rewrite Hst, Hn, (wrap_small 32) by (pow2; lia).
  destruct (Z.geb_spec id (1 + N)); [lia|].
  assert (E : b_type_by_id b id = '(m, o) ← own_type b id; Some (TAt m o)).
  { destruct b as [rep raw offs cp nr base st so]. cbn in *. subst st.
    destruct (Z.eqb_spec id 0); [lia|]. by destruct (Z.ltb_spec id 1); [lia|]. }
  rewrite E. unfold own_type, types_at. rewrite Hst, Hr, (wrap_small 32) by (pow2; lia).
  replace (id - 1) with (N - Z.of_nat (S (length rest)) + Z.of_nat 0) by lia.
  rewrite Hrest by lia. cbn [mbind option_bind fst snd take]. rewrite Hlen. do 3 f_equal.
  change (types_len []) with 0. lia.
Qed.

(** A record that is not kept. *)
Lemma crep_skip h set N b kept junk ws rest : crep h set N b kept junk (ws :: rest) ->
  crep h set N b kept (junk ++ bytes_of ws) rest.
Proof.
  intros [(slack & cap & Hr) Hbase Hst Hso Hn Hsm Hcap Hle Hk Hrest Hsz [Hw1 Hw2]]. cbn [length] in *.
  assert (Hl : Z.of_nat (length (junk ++ bytes_of ws)) = Z.of_nat (length junk) + 4 * Z.of_nat (length ws)).
  { rewrite length_app, bytes_of_length. lia. }
  split; try done.
  - exists slack, cap. by rewrite Hr, types_bytes_cons, <- !app_assoc.
  - lia.
  - intros i Hi. specialize (Hrest (S i) ltac:(lia)). cbn [take] in Hrest. rewrite types_len_cons in Hrest.
    rewrite Hl. rewrite <- Z.add_assoc, <- (Z.add_assoc (Z.of_nat (length junk))), Z.add_assoc.
    rewrite <- Hrest. f_equal. lia.
  - rewrite types_len_cons in Hsz. lia.
  - split; [done|]. by inversion Hw2.
Qed.

(** A record that is moved behind the kept ones. *)
Definition moved (b : bobj) (h ty : list Z) (cap : Z) (set : strset) (offs : list Z) : bobj :=
  {| b_rep := RSplit h ty cap set; b_raw := b_raw b; b_offs := offs;
     b_offs_cap := b_offs_cap b; b_nr := b_nr b; b_base := b_base b;
     b_start_id := b_start_id b; b_start_str_off := b_start_str_off b |}.

Lemma crep_move h set N b kept junk ws rest : crep h set N b kept junk (ws :: rest) ->
  exists ty cap ty' offs, b_rep b = RSplit h ty cap set /\
    st_bytes ty (types_len kept) (bytes_of ws) = Some ty' /\
    st32 (b_offs b) (4 * Z.of_nat (length kept)) (types_len kept) = Some offs /\
    exists junk', crep h set N (moved b h ty' cap set offs) (kept ++ [ws]) junk' rest.
Proof.
  intros [(slack & cap & Hr) Hbase Hst Hso Hn Hsm Hcap Hle Hk Hrest Hsz [Hw1 Hw2]]. cbn [length] in *.
  set (k := length (bytes_of ws)). set (jw := junk ++ bytes_of ws).
  assert (Hjw : (k <= length jw)%nat) by (unfold jw; rewrite length_app; lia).
  eexists _, cap. exists (types_bytes kept ++ bytes_of ws ++ drop k jw ++ types_bytes rest ++ slack).
  assert (Hst32 : exists offs, st32 (b_offs b) (4 * Z.of_nat (length kept)) (types_len kept) = Some offs).
  { apply st32_Some; [lia|]. destruct Hcap. lia. }
  destruct Hst32 as [offs Hoffs]. exists offs. split; [done|]. split.
  { assert (E : types_bytes kept ++ junk ++ types_bytes (ws :: rest) ++ slack =
      types_bytes kept ++ take k jw ++ drop k jw ++ types_bytes rest ++ slack).
    { rewrite types_bytes_cons, <- !app_assoc. f_equal. rewrite (app_assoc (take k jw)), take_drop.
      unfold jw. by rewrite <- !app_assoc. }
    rewrite E. apply (st_bytes_app (bytes_of ws)); [rewrite length_take; lia|apply bytes_of_ok]. }
  split; [done|]. exists (drop k jw). pose proof (types_len_nonneg kept). pose proof (types_len_nonneg rest).
  rewrite types_len_cons in Hsz.
  assert (Hl : types_len (kept ++ [ws]) + Z.of_nat (length (drop k jw)) =
    types_len kept + Z.of_nat (length junk) + 4 * Z.of_nat (length ws)).
  { rewrite types_len_snoc, length_drop. unfold jw. rewrite length_app, bytes_of_length.
    unfold k. rewrite bytes_of_length. lia. }
  split; cbn [moved b_rep b_base b_start_id b_start_str_off b_nr b_offs b_offs_cap]; try done.
  - exists slack, cap. by rewrite types_bytes_snoc, <- !app_assoc.
  - by rewrite (st32_length _ _ _ _ Hoffs).
  - rewrite length_app. cbn [length]. lia.
  - rewrite length_app. cbn [length]. intros i Hi. rewrite (offsets_last kept ws) by lia.
    case_decide as Hd.
    + rewrite (ld32_st32_ne _ _ _ _ _ Hoffs) by lia. by apply Hk.
    + replace i with (length kept) by lia. apply (ld32_st32 (b_offs b) _ _ _); [pow2; lia|done].
  - intros i Hi. rewrite (ld32_st32_gt _ _ _ _ _ Hoffs) by lia.
    specialize (Hrest (S i) ltac:(lia)). cbn [take] in Hrest. rewrite types_len_cons in Hrest.
    rewrite Hl, <- Z.add_assoc, <- Hrest. f_equal. lia.
  - lia.
  - inversion Hw2; subst. split; [|done]. apply Forall_app. split; [done|]. by constructor.
Qed.

(** ** The loop *)

(** The types that stay, in order, and the ids they get. *)
Definition stays (map : list Z) (w : list (list Z)) (k : Z) (roots : list Z) (kept : list (list Z))
    (new_ids : list Z) : Prop :=
  NoDup roots /\ (forall i, i ∈ roots <-> 1 <= i <= k /\ aref map i = Some i) /\
  Forall2 (fun r ws => rec_of w r = Some ws) roots kept /\
  aref new_ids 0 = Some 0 /\
  forall j r, roots !! j = Some r -> aref new_ids r = Some (Z.of_nat j + 1).

Lemma stays_skip map w k roots kept ids : stays map w k roots kept ids -> aref map (k + 1) <> Some (k + 1) ->
  stays map w (k + 1) roots kept ids.
Proof.
  intros (H1 & H2 & H3) Hne. split; [done|]. split; [|done]. intros i. rewrite H2.
  split; [intros [? ?]; split; [lia|done]|]. intros [Hi Hm]. split; [|done].
  destruct (Z.eqb_spec i (k + 1)) as [->|]; [done|lia].
Qed.

Lemma stays_keep map w k roots kept ids ids' ws : stays map w k roots kept ids -> 0 <= k ->
  aref map (k + 1) = Some (k + 1) -> rec_of w (k + 1) = Some ws ->
  aset ids (k + 1) (Z.of_nat (length kept) + 1) = Some ids' ->
  stays map w (k + 1) (roots ++ [k + 1]) (kept ++ [ws]) ids'.
Proof.
  intros (H1 & H2 & H3 & H4 & H5) Hk Hm Hw Hs. assert (Hnin : (k + 1) ∉ roots) by (rewrite H2; lia).
  split_and!.
  - apply NoDup_app. split; [done|]. split; [|apply NoDup_singleton].
    intros i Hi ->%list_elem_of_singleton. done.
  - intros i. rewrite elem_of_app, H2, list_elem_of_singleton. split.
    + intros [[? ?]| ->]; split; try done; lia.
    + intros [Hi Him]. destruct (Z.eqb_spec i (k + 1)) as [->|]; [by right|left]. split; [lia|done].
  - apply Forall2_app; [done|by constructor].
  - rewrite (aref_aset_ne _ _ _ _ _ Hs); [done|lia].
  - intros j r Hj. apply lookup_app_Some in Hj as [Hj|[Hge Hj]].
    + rewrite (aref_aset_ne _ _ _ _ _ Hs); [by apply H5|]. intros <-. apply Hnin. by eapply list_elem_of_lookup_2.
    + pose proof (lookup_lt_Some _ _ _ Hj) as Hlt. cbn in Hlt.
      replace (j - length roots)%nat with 0%nat in Hj by lia. injection Hj as <-.
      rewrite (aref_aset_eq _ _ _ _ Hs). do 2 f_equal. pose proof (Forall2_length _ _ _ H3). lia.
Qed.

Lemma compact_loop_spec h set map w N : Z.of_nat (length w) = N -> Z.of_nat (length map) = N + 1 ->
  forall rest b kept junk roots ids k, crep h set N b kept junk rest -> rest = drop (Z.to_nat k) w ->
  k = N - Z.of_nat (length rest) -> stays map w k roots kept ids -> Z.of_nat (length ids) = N + 1 ->
  exists b' kept' junk' roots' ids',
    compact_loop b map ids (types_len kept) (Z.of_nat (length kept) + 1) (k + 1) (length rest) =
      Some (0, (b', ids', types_len kept', Z.of_nat (length kept') + 1)) /\
    crep h set N b' kept' junk' [] /\ stays map w N roots' kept' ids' /\ length ids' = length ids.
Proof.
  intros Hw Hmap. induction rest as [|ws rest IH]; intros b kept junk roots ids k Hc Hrest Hk Hst Hids;
    cbn [compact_loop length].
  { exists b, kept, junk, roots, ids. cbn [length] in Hk. replace k with N in Hst by lia. by split_and!. }
  cbn [length] in Hk. destruct (aref_Some map (k + 1)) as [v Hv].
  { pose proof (cr_le _ _ _ _ _ _ _ Hc) as Hle. cbn [length] in Hle. lia. }
  rewrite Hv. cbn [mbind option_bind].
  assert (Hk0 : 0 <= k) by (pose proof (cr_le _ _ _ _ _ _ _ Hc) as Hle; cbn [length] in Hle; lia).
  assert (Hrest' : rest = drop (Z.to_nat (k + 1)) w).
  { replace (Z.to_nat (k + 1)) with (Z.to_nat k + 1)%nat by lia. rewrite <- drop_drop, <- Hrest. done. }
  assert (Hws : rec_of w (k + 1) = Some ws).
  { unfold rec_of. destruct (Z.eqb_spec (k + 1) 0); [lia|]. replace (k + 1 - 1) with (Z.of_nat (Z.to_nat k)) by lia.
    rewrite aref_nat. assert (E : drop (Z.to_nat k) w !! 0%nat = Some ws) by (by rewrite <- Hrest).
    by rewrite lookup_drop, Nat.add_0_r in E. }
  destruct (Z.eqb_spec v (k + 1)) as [->|Hne]; cbn [negb].
  2: { apply (IH b kept (junk ++ bytes_of ws) roots ids (k + 1)); [by apply crep_skip|done|lia| |done].
       apply stays_skip; [done|congruence]. }
  destruct (crep_head _ _ _ _ _ _ _ _ Hc) as (m & pre & post & Hty & Hm & Hpre).
  replace (N - Z.of_nat (length rest)) with (k + 1) in Hty by lia. rewrite Hty. cbn [mbind option_bind].
  destruct (crep_move _ _ _ _ _ _ _ _ Hc) as (ty & cap & ty' & offs & Hrep & Hty' & Hoffs & junk' & Hc').
  rewrite Hrep.
  assert (Hwf : rec_wf ws) by (destruct (cr_recs _ _ _ _ _ _ _ Hc) as [_ Hf]; by inversion Hf).
  assert (Hsize : btf_type_size m (Z.of_nat (length pre)) = Some (4 * Z.of_nat (length ws))).
  { destruct Hwf as (Hword & Hl3 & Hsz). unfold btf_type_size. destruct (lookup_lt_is_Some_2 ws 1) as [i Hi]; [lia|].
    rewrite Hm, (ld32_word pre ws post 1 i); [|done|by eapply Forall_lookup_1 in Hword|lia].
    cbn [mbind option_bind]. fold (size_of_info i). f_equal. rewrite <- Hsz. unfold winfo.
    by rewrite (nth_lookup_Some _ _ _ _ Hi). }
  rewrite Hsize. cbn [mbind option_bind]. destruct (Z.ltb_spec (4 * Z.of_nat (length ws)) 0); [lia|].
  replace (Z.to_nat (4 * Z.of_nat (length ws))) with (length (bytes_of ws)) by (rewrite bytes_of_length; lia).
  rewrite Hm, (ld_bytes_app (bytes_of ws) pre post). cbn [mbind option_bind]. rewrite Hty'. cbn [mbind option_bind].
  assert (Hset : exists ids', aset ids (k + 1) (Z.of_nat (length kept) + 1) = Some ids').
  { rewrite aset_Some by (pose proof (cr_le _ _ _ _ _ _ _ Hc) as Hle; cbn [length] in Hle; lia). by eexists. }
  destruct Hset as [ids' Hset]. rewrite Hset. cbn [mbind option_bind]. rewrite (cr_start _ _ _ _ _ _ _ Hc).
  replace (Z.of_nat (length kept) + 1 - 1) with (Z.of_nat (length kept)) by lia. rewrite Hoffs. cbn [mbind option_bind].
  destruct (IH _ (kept ++ [ws]) junk' (roots ++ [k + 1]) ids' (k + 1) Hc' Hrest' ltac:(lia)
    (stays_keep _ _ _ _ _ _ _ _ Hst Hk0 Hv Hws Hset)) as (b' & kept' & junk2 & roots' & ids2 & E & H1 & H2 & H3).
  { destruct (aset_inv _ _ _ _ Hset) as [_ ->]. by rewrite length_insert. }
  exists b', kept', junk2, roots', ids2. split_and!; [|done|done|].
  - rewrite <- E. rewrite types_len_snoc, length_app. cbn [length]. rewrite <- (cr_start _ _ _ _ _ _ _ Hc).
    unfold moved. rewrite (cr_start _ _ _ _ _ _ _ Hc). do 2 f_equal. lia.
  - destruct (aset_inv _ _ _ _ Hset) as [_ E']. rewrite H3, E'. apply length_insert.
Qed.

(** ** The header and the index afterwards *)

(** An object with the header [btf_new_empty] writes. *)
Record hrep (b : bobj) (w : list (list Z)) (sl : Z) (set : strset) : Prop := {
  hr_rep : trep b w;
  hr_hdr : exists ty cap, b_rep b = RSplit (bhdr (types_len w) sl) ty cap set;
  hr_so : b_start_str_off b = 0;
}.

Lemma hrep_crep b w sl set : hrep b w sl set ->
  crep (bhdr (types_len w) sl) set (Z.of_nat (length w)) b [] [] w.
Proof.
  intros [Hb (ty & cap & Hh) Hso]. pose proof (wss_small b w Hb). destruct Hb as [(h & slack & cap' & set' & Hr) Hbase Hst Hn Hix Hw Hsz].
  rewrite Hr in Hh. injection Hh as -> <- <- ->. destruct Hix as [Hc Hroom _ _ Hcs Hg]. rewrite length_offsets, length_map in Hg.
  split; try done.
  - by exists slack, cap'.
  - split; [done|]. lia.
  - cbn [length]. intros i Hi. lia.
  - intros i Hi. replace (Z.of_nat (length w) - Z.of_nat (length w) + Z.of_nat i) with (Z.of_nat i) by lia.
    rewrite Hg by done. destruct (offsets_lookup (map bytes_of w) 0 i) as (r & _ & Ho & _); [by rewrite length_map|].
    rewrite Ho, firstn_map. done.
Qed.

Section Compact.
Context (alloc_ok : Z -> bool).

Lemma bhdr_types tl sl p : exists h, st32 (bhdr tl sl) 12 p = Some h /\ st32 h 16 p = Some (bhdr p sl).
Proof.
  unfold bhdr. rewrite <- (app_nil_r (bytes_of _)), (st32_word [159; 235; 1; 0] _ [] 2) by (simpl; lia).
  eexists. split; [done|]. rewrite (st32_word [159; 235; 1; 0] _ [] 3) by (simpl; lia). by rewrite !app_nil_r.
Qed.

Lemma shrink_spec tl sl set N b kept junk : crep (bhdr tl sl) set N b kept junk [] ->
  exists err b', shrink alloc_ok b (types_len kept) (Z.of_nat (length kept) + 1) = Some (err, b') /\
    (err = - ENOMEM /\ oom alloc_ok \/ err = 0 /\ hrep b' kept sl set).
Proof.
  intros [(slack & cap & Hr) Hbase Hst Hso Hn Hsm [Hcap Hcap'] Hle Hk _ Hsz [Hw _]]. unfold shrink. rewrite Hr, Hst.
  cbn [length] in Hle. replace (Z.of_nat (length kept) + 1 - 1) with (Z.of_nat (length kept)) by lia.
  destruct (bhdr_types tl sl (types_len kept)) as (h & -> & Hh). cbn [mbind option_bind].
  destruct (negb (Z.of_nat (length kept) =? 0) && negb (alloc_ok (4 * Z.of_nat (length kept)))) eqn:E.
  - eexists _, _. split; [done|]. left. split; [done|]. apply andb_true_iff in E as [_ E].
    exists (4 * Z.of_nat (length kept)). by apply negb_true_iff in E.
  - rewrite Hh. cbn [mbind option_bind]. eexists _, _. split; [done|]. right. split; [done|].
    split; [split|..]; cbn [b_rep b_base b_start_id b_nr b_offs b_offs_cap b_start_str_off]; try done.
    + exists (bhdr (types_len kept) sl), (junk ++ types_bytes [] ++ slack), cap, set. done.
    + split.
      * rewrite length_take. lia.
      * lia.
      * by rewrite length_offsets, length_map.
      * lia.
      * lia.
      * rewrite length_offsets, length_map. intros i Hi. rewrite ld32_take by lia. by apply Hk.
    + pose proof (types_len_nonneg []). lia.
    + eexists _, _. done.
Qed.

(** Compaction keeps the records of the types that stand for themselves. *)
Lemma compact_spec d w sl set : hrep (d_btf d) w sl set ->
  Z.of_nat (length (d_map d)) = Z.of_nat (length w) + 1 ->
  Z.of_nat (length (hypot_map (d_hypot d))) = Z.of_nat (length w) + 1 ->
  exists err d', btf_dedup_compact_types alloc_ok d = Some (err, d') /\
    (err = - ENOMEM /\ oom alloc_ok \/
     err = 0 /\ d_map d' = d_map d /\ d_ext d' = d_ext d /\ exists kept roots, hrep (d_btf d') kept sl set /\
       stays (d_map d) w (Z.of_nat (length w)) roots kept (hypot_map (d_hypot d')) /\
       Z.of_nat (length (hypot_map (d_hypot d'))) = Z.of_nat (length w) + 1).
Proof.
  intros Hb Hmap Hhyp. pose proof (hrep_crep _ _ _ _ Hb) as Hc. unfold btf_dedup_compact_types.
  rewrite (tr_nr _ _ (hr_rep _ _ _ _ Hb)), (tr_start _ _ (hr_rep _ _ _ _ Hb)), Nat2Z.id.
  change (seqZ 0 1) with [0]. set (ids := [0] ++ replicate (length w) BTF_UNPROCESSED_ID).
  assert (Hids : Z.of_nat (length ids) = Z.of_nat (length w) + 1).
  { unfold ids. rewrite length_app, length_replicate. cbn [length]. lia. }
  destruct (Z.leb_spec (Z.of_nat (length ids)) (Z.of_nat (length (hypot_map (d_hypot d))))); [cbn [negb]|lia].
  destruct (compact_loop_spec _ set (d_map d) w (Z.of_nat (length w)) eq_refl Hmap w (d_btf d) [] [] [] ids 0 Hc)
    as (b' & kept & junk & roots & ids' & Hloop & Hc' & Hst & Hl); [done|lia| |done|].
  { split_and!; [constructor| |constructor|done|done]. intros i. rewrite elem_of_nil. split; [done|lia]. }
  change (types_len []) with 0 in Hloop. cbn [length] in Hloop. change (Z.of_nat 0 + 1) with 1 in Hloop.
  change (0 + 1) with 1 in Hloop. rewrite Hloop. cbn [mbind option_bind negb Z.eqb].
  destruct (shrink_spec _ _ _ _ _ _ _ Hc') as (err & b'' & Hs & Ho). cbn [d_btf with_btf with_hypot]. rewrite Hs.
  cbn [mbind option_bind]. eexists _, _. split; [done|]. destruct Ho as [Ho|[-> Ho]]; [by left|right].
  split; [done|]. split; [done|]. split; [done|]. exists kept, roots. split; [done|]. split; [done|]. cbn. lia.
Qed.
End Compact.
