(* ===== verification/DedupRemap.v ===== *)
(** * BTF deduplication: from the old ids to the new ones

    After compaction every reference is replaced by the new id of the type
    its old id leads to.  The new types describe what the old ones did. *)

From S2P Require Import Prelude Hashmap StrSet Btf BtfBuild BtfVisit BtfExt Dedup TypeGraph.
From S2P Require Import DedupTypes DedupEquiv DedupPasses DedupRefs DedupVisit DedupCompact.

Lemma hrep_frame b b' w w' sl set : hrep b w sl set -> frame b b' -> trep b' w' -> types_len w' = types_len w ->
  hrep b' w' sl set.
Proof.
  intros [_ (ty & cap & Hr) Hso] ((h & t & c & set' & t' & H1 & H2 & _) & _ & _ & _ & _ & _ & _ & Hso') Hb' Hl.
  split; [done| |congruence]. rewrite Hr in H1. injection H1 as <- <- <- <-. exists t', cap. by rewrite Hl.
Qed.

Lemma types_len_same_words (w w' : list (list Z)) : length w' = length w ->
  (forall i ws, rec_of w i = Some ws -> exists ws', rec_of w' i = Some ws' /\ length ws' = length ws) ->
  types_len w' = types_len w.
Proof.
  intros Hl Hw. apply types_len_lens. apply (list_eq_same_length _ _ _ eq_refl); [by rewrite !length_map|].
  rewrite length_map, length_map. intros i x y Hi. rewrite !list_lookup_fmap. intros Hx Hy.
  destruct (w !! i) as [ws|] eqn:E; [|done]. destruct (w' !! i) as [ws'|] eqn:E'; [|done]. cbn in Hx, Hy.
  injection Hx as <-. injection Hy as <-.
  assert (Hrec : forall v : list (list Z), rec_of v (Z.of_nat i + 1) = v !! i).
  { intros v. unfold rec_of. destruct (Z.eqb_spec (Z.of_nat i + 1) 0); [lia|].
    by replace (Z.of_nat i + 1 - 1) with (Z.of_nat i) by lia; rewrite aref_nat. }
  destruct (Hw (Z.of_nat i + 1) ws) as (ws2 & H2 & Hlen); [by rewrite Hrec|]. rewrite Hrec in H2.
  assert (ws2 = ws') as -> by congruence. rewrite !bytes_of_length. lia.
Qed.

Section Remap.
Context (g : graph) (n : Z) (map new_ids : list Z) (w : list (list Z)) (roots : list Z) (kept : list (list Z)).
Context (Hclosed : closed g) (Hone : one_definition g) (Hdom : forall i, 0 <= i <= n -> is_Some (g i)).
Context (Hm : map_ok g n map) (Hall : forall i, 0 <= i <= n -> mapped map i).
Context (Hst : stays map w n roots kept new_ids) (Hids : Z.of_nat (length new_ids) = n + 1).

(** The new id of an old one. *)
Definition new_id (u u' : Z) : Prop := exists k r, leads map k u r /\ aref new_ids r = Some u'.

Lemma root_self r : root map r -> 0 <= r <= n -> aref map r = Some r.
Proof.
  intros (v & Hv & H) Hr. destruct (Hall r Hr) as (v' & Hv' & Hmv). rewrite Hv in Hv'. injection Hv' as <-.
  destruct H as [H| ->]; [congruence|done].
Qed.

Lemma new_id_root r : aref map r = Some r -> 0 <= r <= n ->
  exists u', aref new_ids r = Some u' /\ 0 <= u' <= Z.of_nat (length kept) /\
    (r = 0 /\ u' = 0 \/ 1 <= r /\ 1 <= u' /\ exists ws, rec_of w r = Some ws /\ rec_of kept u' = Some ws).
Proof.
  intros Hr Hb. destruct Hst as (_ & Hin & Hf & H0 & Hj). destruct (Z.eqb_spec r 0) as [->|Hne].
  { exists 0. split; [done|]. split; [lia|]. by left. }
  assert (Hr' : r ∈ roots) by (apply Hin; split; [lia|done]).
  apply list_elem_of_lookup_1 in Hr' as [j Hr']. destruct (Forall2_lookup_l _ _ _ _ _ Hf Hr') as (ws & Hk & Hw).
  exists (Z.of_nat j + 1). split; [by apply Hj|]. pose proof (lookup_lt_Some _ _ _ Hk). split; [lia|]. right.
  split; [lia|]. split; [lia|]. exists ws. split; [done|]. unfold rec_of.
  destruct (Z.eqb_spec (Z.of_nat j + 1) 0); [lia|]. replace (Z.of_nat j + 1 - 1) with (Z.of_nat j) by lia. by rewrite aref_nat.
Qed.

Lemma new_id_total u : 0 <= u <= n -> exists u', new_id u u' /\ 0 <= u' <= Z.of_nat (length kept).
Proof.
  intros Hu. destruct (resolve_ok g n Hclosed Hone Hdom map u Hm Hu) as (k & r & Hl & _ & Hr & _).
  destruct (new_id_root r) as (u' & Hu' & Hb & _); [|done|].
  { apply root_self; [by eapply leads_end|done]. }
  exists u'. split; [|done]. by exists k, r.
Qed.

Lemma kept_le : Z.of_nat (length kept) <= n.
Proof.
  destruct Hst as (Hnd & Hin & Hf & _). rewrite <- (Forall2_length _ _ _ Hf).
  assert (H : (length roots <= length (seqZ 1 n))%nat).
  { apply submseteq_length, NoDup_submseteq; [done|]. intros i [Hi _]%Hin. apply elem_of_seqZ. lia. }
  rewrite length_seqZ in H. pose proof (mo_len _ _ _ Hm). pose proof (aref_bounds _ _ _ (mo_void _ _ _ Hm)). lia.
Qed.

Lemma remap_id_spec d u : d_map d = map -> hypot_map (d_hypot d) = new_ids -> 0 <= u <= n ->
  exists u', btf_dedup_remap_type_id d u = Some (0, u', d) /\ new_id u u' /\ 0 <= u' <= Z.of_nat (length kept).
Proof.
  intros Hdm Hh Hu. unfold btf_dedup_remap_type_id. rewrite Hdm, Hh.
  destruct (resolve_ok g n Hclosed Hone Hdom map u Hm Hu) as (k & r & Hl & -> & Hr & _). cbn [mbind option_bind].
  destruct (new_id_root r) as (u' & Hu' & Hb & _); [|done|].
  { apply root_self; [by eapply leads_end|done]. }
  rewrite Hu'. cbn [mbind option_bind]. pose proof kept_le. pose proof (mo_small _ _ _ Hm).
  destruct (Z.gtb_spec u' BTF_MAX_NR_TYPES); [pow2; lia|]. exists u'. split; [done|]. split; [|done]. by exists k, r.
Qed.

Context (Href : forall id ws j u, 1 <= id -> rec_of kept id = Some ws -> j ∈ DedupTypes.ref_words (winfo ws) ->
  aref ws j = Some u -> 0 <= u <= n).

Lemma remap_types_spec d sl set : hrep (d_btf d) kept sl set -> d_map d = map -> hypot_map (d_hypot d) = new_ids ->
  d_ext d = None ->
  exists d', btf_dedup_remap_types d = Some (0, d') /\ d_ext d' = None /\ exists w', hrep (d_btf d') w' sl set /\
    length w' = length kept /\
    forall id ws, 1 <= id -> rec_of kept id = Some ws ->
      exists ws', rec_of w' id = Some ws' /\ rewritten new_id (DedupTypes.ref_words (winfo ws)) ws ws'.
Proof.
  intros Hb Hdm Hh Hext. unfold btf_dedup_remap_types.
  destruct (visit_types_spec btf_dedup_remap_type_id
    (fun s => d_map s = map /\ hypot_map (d_hypot s) = new_ids /\ d_ext s = None) (fun _ => new_id) (fun _ => False)
    (fun u => 0 <= u <= n)) with (js := DedupTypes.ref_words) (w0 := kept) (s0 := d)
    (f := fun d id => btf_type_visit_type_ids (dedup_get id) (dedup_put id) btf_dedup_remap_type_id d)
    as (err & d' & -> & Ho); cbn [d_btf d_map d_hypot d_ext with_btf]; try done.
  - intros s u (H1 & H2 & H3) Hu. destruct (remap_id_spec s u H1 H2 Hu) as (u' & -> & Hn & Hb').
    exists 0, u', s. split; [done|]. right. split; [done|]. split; [done|]. split; [done|].
    split; [|split; [done|by intros x x']]. pose proof kept_le. pose proof (mo_small _ _ _ Hm). unfold word_ok. pow2. lia.
  - intros id ws Hid Hws. pose proof (rec_of_wf _ _ (hr_rep _ _ _ _ Hb) id ws Hws ltac:(lia)) as Hw.
    destruct (ref_words_shape ws Hw) as (H1 & H2 & H3 & _). split; [done|]. split; [done|]. intros j Hj.
    destruct (aref_Some ws j (H3 j Hj)) as [u Hu]. exists u. split; [done|]. by eapply Href.
  - apply (hr_rep _ _ _ _ Hb).
  - intros s id ws _ Hid Hws (w1 & Hb1 & Hws1). pose proof (rec_of_wf _ _ (hr_rep _ _ _ _ Hb) id ws Hws ltac:(lia)) as Hw.
    unfold btf_type_visit_type_ids. change (dedup_get id s 1) with (type_word (d_btf s) id 1). rewrite (type_word_spec _ _ Hb1 id ws 1 (winfo ws) Hws1).
    2: { apply (aref_head _ _ Hb1 id ws 1 Hws1). lia. }
    cbn [mbind option_bind]. destruct (ref_words_shape ws Hw) as (_ & _ & _ & ->). done.
  - cbn [mbind option_bind]. destruct Ho as [[_ []]|(-> & (_ & _ & H3) & _ & Hf & w' & Hb' & Hl & _ & Hd)].
    cbn [negb Z.eqb]. rewrite H3. exists d'. split; [done|]. split; [done|]. exists w'.
    assert (Hlen : types_len w' = types_len kept).
    { apply types_len_same_words; [done|]. intros i ws Hi. destruct (Z.eqb_spec i 0) as [->|Hne].
      - exists void_words. split; [done|]. by injection Hi as <-.
      - pose proof (rec_of_range _ _ _ Hi). destruct (Hd i ws ltac:(lia) Hi) as (ws' & Hws2 & _ & Hlw & _). by exists ws'. }
    split; [by eapply hrep_frame|]. split; [done|]. intros id ws Hid Hws. apply Hd; [|done].
    pose proof (rec_of_range _ _ _ Hws). lia.
Qed.
End Remap.
