(* ===== verification/DedupStrings.v ===== *)
(** * BTF deduplication: strings

    The pass over strings builds a new set that holds every string the types
    refer to once, and makes the types refer to it.  A field reads as the
    same string before and after. *)

From S2P Require Import Prelude Hashmap StrSet Btf BtfBuild BtfVisit BtfExt Dedup TypeGraph.
From S2P Require Import DedupTypes DedupEquiv DedupPasses DedupRefs DedupVisit DedupCompact.
From S2P Require Import DedupRemap.

(** A string of the section [l]. *)
Definition string_of (l s : list Z) : Prop := exists u, cstr l u = Some s.

(** The distinct strings, and the copy made to look one up, do not fit. *)
Definition too_long (l : list Z) : Prop := exists strs s, NoDup strs /\
  (forall s, s ∈ strs -> string_of l s) /\ string_of l s /\
  BTF_MAX_STR_OFFSET < Z.of_nat (length (init_blob strs)) + Z.of_nat (length s) + 1.

(** The set holds the strings [strs], each once, one after the other. *)
Definition interned (l : list Z) (strs : list (list Z)) (set : strset) : Prop :=
  (exists A, strset_ok set A /\ forall s, s ∈ strs -> is_Some (A !! s)) /\
  in_use set = init_blob strs /\ NoDup strs /\ (forall s, s ∈ strs -> string_of l s) /\
  strs_data_max_len set = BTF_MAX_STR_OFFSET.

Lemma init_blob_snoc strs s : init_blob (strs ++ [s]) = init_blob strs ++ s ++ [0].
Proof. unfold init_blob. rewrite flat_map_app. cbn. by rewrite app_nil_r. Qed.

Lemma in_use_length set A : strset_ok set A -> Z.of_nat (length (in_use set)) = strs_data_len set.
Proof. intros (H & _). unfold in_use. rewrite length_take. lia. Qed.

Lemma cstr_use set off s : cstr (in_use set) off = Some s -> cstr (StrSet.strs_data set) off = Some s.
Proof.
  intros H. unfold in_use in H. rewrite <- (take_drop (Z.to_nat (strs_data_len set)) (StrSet.strs_data set)). by apply cstr_app.
Qed.

Section Strings.
Context (alloc_ok : Z -> bool) (l : list Z).
Context (Hl : bytes_ok l) (Hl0 : l !! 0%nat = Some 0) (Hlen : Z.of_nat (length l) <= INT_MAX).

Lemma string_ok s : string_of l s -> strneq0 s /\ bytes_ok s /\ Z.of_nat (length s) < 2 ^ 60.
Proof.
  intros (u & Hu). pose proof (cstr_bounds _ _ _ Hu) as (H0 & H1 & H2). split; [done|]. split; [|pow2; lia].
  unfold cstr in Hu. destruct (u <? 0); [done|]. apply until_nul_inv in Hu as (_ & rest & E).
  assert (Hd : bytes_ok (drop (Z.to_nat u) l)) by by apply Forall_drop.
  rewrite E in Hd. by apply Forall_app in Hd as [? _].
Qed.

Lemma empty_string : cstr l 0 = Some [].
Proof. unfold cstr. cbn. destruct l as [|x l']; [done|]. injection Hl0 as ->. done. Qed.

(** One string more. *)
Lemma interned_add strs set s : interned l strs set -> string_of l s ->
  exists r set', strset__add_str alloc_ok set s = Some (r, set') /\
    (r = - ENOMEM /\ (oom alloc_ok \/ too_long l) \/
     0 <= r /\ word_ok r /\ cstr (in_use set') r = Some s /\
       (exists y, in_use set' = in_use set ++ y /\ (y = [] \/ y = s ++ [0])) /\
       exists strs', interned l strs' set').
Proof.
  intros ((A & Hok & HA) & Hu & Hnd & Hof & Hmax) Hs. destruct (string_ok s Hs) as (H1 & H2 & H3).
  destruct (strset_add_spec alloc_ok set A s Hok H1 H2 H3) as (r & set' & A' & -> & Hok' & Hmax' & (y & Hy & Hc) & Ho).
  exists r, set'. split; [done|]. destruct Ho as [(Hr & HA' & Hsame & Hcs)|(-> & _ & _ & Hf)].
  - right. split; [done|]. split.
    { eapply cstr_word; [exact Hcs|]. pose proof (in_use_length _ _ Hok'). destruct Hok' as (_ & ? & _). lia. }
    split; [done|]. split; [exists y; split; [done|]; tauto|].
    destruct Hc as [->|[-> Hnew]].
    + exists strs. rewrite app_nil_r in Hy. split_and!; [|congruence|done|done|congruence].
      exists A'. split; [done|]. intros t Ht. rewrite HA'. destruct (decide (s = t)) as [<-|Hne].
      * rewrite lookup_insert_eq. by eexists.
      * rewrite lookup_insert_ne by done. by apply HA.
    + exists (strs ++ [s]). split_and!; [|by rewrite Hy, Hu, init_blob_snoc| | |congruence].
      * exists A'. split; [done|]. intros t Ht. rewrite HA'. destruct (decide (s = t)) as [<-|Hne].
        { rewrite lookup_insert_eq. by eexists. }
        rewrite lookup_insert_ne by done. apply elem_of_app in Ht as [Ht|Ht%list_elem_of_singleton]; [by apply HA|congruence].
      * apply NoDup_app. split; [done|]. split; [|apply NoDup_singleton].
        intros t Ht ->%list_elem_of_singleton. destruct (HA s Ht) as [? E]. congruence.
      * intros t [Ht| ->%list_elem_of_singleton]%elem_of_app; [by apply Hof|done].
  - left. split; [done|]. destruct Hf as [Hf|Hf]; [right|by left].
    exists strs, s. split; [done|]. split; [done|]. split; [done|]. rewrite <- Hu, (in_use_length _ _ Hok). lia.
Qed.

(** ** The callback *)

Context (ext : option btf_ext).

(** What the pass needs to know about the object, and the new set. *)
Record str_inv (s : btf_dedup) : Prop := {
  sv_rep : exists h ty cap set0, b_rep (d_btf s) = RSplit h ty cap set0 /\
    hdr_str_len h = Some (Z.of_nat (length l)) /\ in_use set0 = l;
  sv_base : b_base (d_btf s) = None;
  sv_so : b_start_str_off (d_btf s) = 0;
  sv_ext : d_ext s = ext;
  sv_set : exists set strs, strs_set s = Some set /\ interned l strs set /\ cstr (in_use set) 0 = Some [];
}.

(** The offset [u'] in the new set is that of the string at [u]. *)
Definition same_str (s : btf_dedup) (u u' : Z) : Prop :=
  exists set t, strs_set s = Some set /\ cstr l u = Some t /\ cstr (in_use set) u' = Some t.

Lemma str_at_offset_spec s u t : str_inv s -> cstr l u = Some t -> b_str_by_offset (d_btf s) u = Some (Some t).
Proof.
  intros [(h & ty & cap & set0 & Hr & Hh & Hu) Hbase Hso _ _] Ht. pose proof (cstr_bounds _ _ _ Ht) as (H0 & H1 & _).
  destruct (d_btf s) as [rep raw offs cp nr base st so]. cbn in Hr, Hbase, Hso. subst rep base so.
  cbn [b_str_by_offset b_start_str_off b_rep]. rewrite (wrap_small 32 0) by (pow2; lia).
  destruct (Z.ltb_spec u 0); [lia|]. rewrite Z.sub_0_r, (wrap_small 32 u) by (pow2; lia). cbn [mbind option_bind].
  rewrite Hh. cbn [mbind option_bind]. destruct (Z.ltb_spec u (Z.of_nat (length l))); [|lia].
  rewrite Z.add_0_l, (cstr_use set0 u t); [done|]. by rewrite Hu.
Qed.

Lemma remap_str_spec s u : str_inv s -> is_Some (cstr l u) ->
  exists err u' s', strs_dedup_remap_str_off alloc_ok s u = Some (err, u', s') /\
    (err < 0 /\ (err = - ENOMEM /\ (oom alloc_ok \/ too_long l)) \/
     err = 0 /\ d_btf s' = d_btf s /\ (str_inv s' /\ d_map s' = d_map s /\ d_hypot s' = d_hypot s /\
       dedup_table s' = dedup_table s) /\ word_ok u' /\ same_str s' u u' /\ later same_str s s').
Proof.
  intros Hs [t Ht]. pose proof Hs as [Hr Hbase Hso Hext (set & strs & Hset & Hin & H0)].
  unfold strs_dedup_remap_str_off. rewrite Hso, (wrap_small 32 0) by (pow2; lia).
  pose proof (cstr_bounds _ _ _ Ht) as (Hu0 & Hu1 & _).
  destruct (Z.eqb_spec u 0) as [->|Hne]; cbn [orb].
  { exists 0, 0, s. split; [done|]. right. split; [done|]. split; [done|]. split; [done|].
    split; [unfold word_ok; lia|]. split; [|by intros x x'].
    exists set, []. split; [done|]. split; [apply empty_string|done]. }
  destruct (Z.ltb_spec u 0); [lia|]. rewrite (str_at_offset_spec s u t Hs Ht), Hbase.
  cbn [mbind option_bind]. change (- ENOENT >=? 0) with false. change (negb (- ENOENT =? - ENOENT)) with false.
  cbn iota. rewrite Hset. cbn [mbind option_bind].
  destruct (interned_add strs set t Hin) as (r & set' & -> & Ho); [by exists u|]. cbn [mbind option_bind].
  destruct Ho as [(-> & Hf)|(Hr0 & Hw & Hc & (y & Hy & _) & strs' & Hin')].
  { change (- ENOMEM <? 0) with true. cbn iota. eexists _, _, _. split; [done|]. left. split; [lia|]. by split. }
  destruct (Z.ltb_spec r 0); [lia|]. cbn [d_btf with_strs]. rewrite Hso, Z.add_0_l, (wrap_small 32) by done.
  exists 0, r, (with_strs s (Some set')). split; [done|]. right. split; [done|]. split; [done|]. split.
  { split; [|done]. split; cbn [d_btf d_ext strs_set with_strs]; try done. exists set', strs'. split; [done|]. split; [done|].
    rewrite Hy. by apply cstr_app. }
  split; [done|]. split; [by exists set', t|].
  intros x x' (set1 & tx & E & Hx & Hx'). exists set', tx. split; [done|]. split; [done|].
  rewrite Hset in E. injection E as <-. rewrite Hy. by apply cstr_app.
Qed.

(** ** The pass *)

Lemma interned_empty : exists set, strset__new_empty (fun _ => true) BTF_MAX_STR_OFFSET = inr set /\ interned l [] set /\
  in_use set = [].
Proof.
  eexists. split; [done|]. split; [|done]. split_and!; try done.
  - destruct (strset_new_spec (fun _ => true) BTF_MAX_STR_OFFSET []) as (r & Hr & Ho); [constructor|simpl; lia|done|].
    cbn in Hr. injection Hr as <-. destruct Ho as (_ & _ & A & HA & _). exists A. split; [done|].
    intros s Hs. by apply not_elem_of_nil in Hs.
  - constructor.
  - intros s Hs. by apply not_elem_of_nil in Hs.
Qed.

(** A string section, as [obj_ok] wants it. *)
Definition section_ok (l : list Z) : Prop :=
  bytes_ok l /\ l !! 0%nat = Some 0 /\ Z.of_nat (length l) <= INT_MAX.

Lemma bhdr_strs tl sl sl' : st32 (bhdr tl sl) 20 sl' = Some (bhdr tl sl').
Proof.
  unfold bhdr. rewrite <- (app_nil_r (bytes_of _)), (st32_word [159; 235; 1; 0] _ [] 4) by (simpl; lia).
  by rewrite app_nil_r.
Qed.

Lemma interned_section strs set : interned l strs set -> cstr (in_use set) 0 = Some [] ->
  section_ok (in_use set) /\ strs_data_len set = Z.of_nat (length (in_use set)).
Proof.
  intros ((A & Hok & _) & Hu & _ & Hof & _) H0. split; [|by rewrite (in_use_length _ _ Hok)]. split_and!.
  - rewrite Hu. unfold init_blob. clear -Hof Hl Hlen. induction strs as [|s strs IH]; [constructor|]. cbn.
    apply Forall_app. split; [|apply IH; intros; apply Hof; by right]. apply Forall_app. split.
    + apply (string_ok s). apply Hof. by left.
    + constructor; [unfold is_byte; lia|constructor].
  - unfold cstr in H0. cbn in H0. destruct (in_use set) as [|x r]; [done|].
    change (drop (Z.to_nat 0) (x :: r)) with (x :: r) in H0. cbn [until_nul] in H0.
    destruct (Z.eqb_spec x 0) as [->|]; [done|]. by destruct (until_nul r).
  - rewrite (in_use_length _ _ Hok). by destruct Hok as (_ & ? & _).
Qed.

Definition renamed (l' : list Z) (u u' : Z) : Prop := exists t, cstr l u = Some t /\ cstr l' u' = Some t.

Lemma strings_spec d w set0 : hrep (d_btf d) w (Z.of_nat (length l)) set0 -> in_use set0 = l ->
  d_ext d = ext -> ext = None ->
  (forall id ws j u, 1 <= id -> rec_of w id = Some ws -> j ∈ str_off_words (winfo ws) -> aref ws j = Some u ->
     is_Some (cstr l u)) ->
  strs_deduped d = false ->
  exists err d', btf_dedup_strings alloc_ok d = Some (err, d') /\
    (err < 0 /\ (err = - ENOMEM /\ (oom alloc_ok \/ too_long l)) \/
     err = 0 /\ d_ext d' = None /\ d_map d' = d_map d /\ d_hypot d' = d_hypot d /\ dedup_table d' = dedup_table d /\
     exists w' set', hrep (d_btf d') w' (Z.of_nat (length (in_use set'))) set' /\ section_ok (in_use set') /\
       length w' = length w /\
       forall id ws, 1 <= id -> rec_of w id = Some ws ->
         exists ws', rec_of w' id = Some ws' /\ rewritten (renamed (in_use set')) (str_off_words (winfo ws)) ws ws').
Proof.
  intros Hb Hu Hext Hnone Hstr Hnd. unfold btf_dedup_strings. rewrite Hnd.
  destruct (strset__new_empty alloc_ok BTF_MAX_STR_OFFSET) as [err|set] eqn:Enew.
  { exists err, d. split; [done|]. left. unfold strset__new_empty in Enew.
    destruct (negb (alloc_ok 40) || negb (alloc_ok 56)) eqn:Ea; [|done]. injection Enew as <-. split; [lia|]. split; [done|].
    left. apply orb_true_iff in Ea as [Ea%negb_true_iff|Ea%negb_true_iff]; by eexists. }
  assert (Hint : interned l [] set /\ in_use set = []).
  { destruct interned_empty as (set1 & E1 & Hi). unfold strset__new_empty in Enew, E1.
    destruct (negb (alloc_ok 40) || negb (alloc_ok 56)); [done|]. cbn in E1. congruence. }
  destruct Hint as [Hint Hnil]. pose proof (hr_rep _ _ _ _ Hb) as Htr. rewrite (tr_base _ _ Htr).
  destruct (interned_add [] set [] Hint) as (r & set1 & -> & Ho); [exists 0; apply empty_string|]. cbn [mbind option_bind].
  destruct Ho as [(-> & Hf)|(Hr & _ & Hc & (y & Hy & Hyc) & strs & Hin)].
  { change (- ENOMEM <? 0) with true. cbn iota. eexists _, _. split; [done|]. left. split; [lia|]. by split. }
  destruct (Z.ltb_spec r 0); [lia|].
  assert (Hc0 : cstr (in_use set1) 0 = Some []).
  { rewrite Hnil in Hy. pose proof (cstr_bounds _ _ _ Hc) as (_ & Hb1 & _). cbn [app length] in *. rewrite Hy in Hb1, Hc.
    destruct Hyc as [->| ->]; cbn in Hb1; [lia|]. replace r with 0 in Hc by lia. by rewrite Hy. }
  assert (Hinv : str_inv (with_strs d (Some set1))).
  { split; cbn [d_btf d_ext strs_set with_strs]; [|by apply (tr_base _ _ Htr)|by apply (hr_so _ _ _ _ Hb)|done|by exists set1, strs].
    destruct (hr_hdr _ _ _ _ Hb) as (ty & cap & Hr'). eexists _, _, _, _. split; [exact Hr'|]. split; [|done].
    apply bhdr_reads; unfold word_ok; [|lia]. pose proof (types_len_nonneg w). pose proof (tr_size _ _ Htr). pow2. lia. }
  unfold btf_for_each_str_off.
  destruct (visit_types_spec (strs_dedup_remap_str_off alloc_ok)
    (fun s => str_inv s /\ d_map s = d_map d /\ d_hypot s = d_hypot d /\ dedup_table s = dedup_table d) same_str
    (fun err => err = - ENOMEM /\ (oom alloc_ok \/ too_long l)) (fun u => is_Some (cstr l u)))
    with (js := str_off_words) (w0 := w) (s0 := with_strs d (Some set1))
    (f := fun d id => btf_type_visit_str_offs (dedup_get id) (dedup_put id) (strs_dedup_remap_str_off alloc_ok) d)
    as (err & d' & -> & Ho).
  - intros s u (Hs & M1 & M2 & M3) Hp. destruct (remap_str_spec s u Hs Hp) as (err & u' & s' & -> & Ho).
    exists err, u', s'. split; [done|]. destruct Ho as [Ho|(-> & E & (Hs' & E1 & E2 & E3) & H1 & H2 & H3)]; [by left|right].
    split_and!; congruence || done.
  - intros s b' (Hs & M) Hf. split; [|done]. destruct Hs as [(h & ty & cap & s0 & Hr' & Hh & Hu0) Hbase Hso Hx Hset].
    destruct Hf as ((h1 & t1 & c1 & s1 & t1' & E1 & E2 & _) & _ & _ & _ & _ & Eb & _ & Eso). rewrite Hr' in E1. injection E1 as <- <- <- <-.
    split; cbn [d_btf d_ext strs_set with_btf]; [by eexists _, _, _, _|congruence|congruence|done|done].
  - done.
  - intros id ws Hid Hws. pose proof (rec_of_wf _ _ Htr id ws Hws ltac:(lia)) as Hw.
    destruct (str_words_shape ws Hw) as (H1 & H2 & H3). split; [done|]. split; [done|]. intros j Hj.
    destruct (aref_Some ws j (H3 j Hj)) as [u Hu']. exists u. split; [done|]. by eapply Hstr.
  - done.
  - by split_and!.
  - intros s id ws _ Hid Hws (w1 & Hb1 & Hws1). unfold btf_type_visit_str_offs.
    change (dedup_get id s 1) with (type_word (d_btf s) id 1). rewrite (type_word_spec _ _ Hb1 id ws 1 (winfo ws) Hws1).
    2: { apply (aref_head _ _ Hb1 id ws 1 Hws1). lia. } done.
  - cbn [mbind option_bind]. destruct Ho as [[Hneg He]|(-> & (Hs & M1 & M2 & M3) & _ & Hf & w' & Hb' & Hlw & _ & Hd)].
    { destruct (Z.eqb_spec err 0); [lia|]. cbn [negb mbind option_bind]. destruct (Z.eqb_spec err 0); [lia|]. cbn [negb].
      eexists _, _. split; [done|]. left. split; [done|]. done. }
    cbn [negb Z.eqb]. rewrite (sv_ext _ Hs), Hnone. cbn [negb Z.eqb mbind option_bind].
    destruct (sv_set _ Hs) as (set' & strs' & Hset' & Hin' & H0').
    destruct (interned_section strs' set' Hin' H0') as [Hsec Hdl].
    assert (Hlen' : types_len w' = types_len w).
    { apply types_len_same_words; [done|]. intros i ws Hi. destruct (Z.eqb_spec i 0) as [->|Hne].
      - exists void_words. split; [done|]. by injection Hi as <-.
      - pose proof (rec_of_range _ _ _ Hi). destruct (Hd i ws ltac:(lia) Hi) as (ws' & Hws2 & _ & Hlws & _). by exists ws'. }
    pose proof (hrep_frame _ _ _ _ _ _ Hb Hf Hb' Hlen') as [_ (ty & cap & Hr') Hso'].
    unfold replace_strs. rewrite Hset'. cbn [mbind option_bind]. rewrite Hr', bhdr_strs. cbn [mbind option_bind].
    eexists _, _. split; [done|]. right. split; [done|]. cbn [d_ext d_map d_hypot dedup_table d_btf].
    split; [by rewrite (sv_ext _ Hs)|]. split; [done|]. split; [done|]. split; [done|]. exists w', set'.
    split; [|split; [done|split; [done|]]].
    + split; [|by eexists _, _; rewrite <- Hdl|done].
      destruct Hb' as [(h1 & sl1 & c1 & s1 & Hr1) ? ? ? ? ? ?]. rewrite Hr' in Hr1. injection Hr1 as <- -> -> <-.
      split; try done. by eexists _, _, _, _.
    + intros id ws Hid Hws. pose proof (rec_of_range _ _ _ Hws). destruct (Hd id ws ltac:(lia) Hws) as (ws' & Hw1 & Hw2).
      exists ws'. split; [done|]. eapply rewritten_mono; [|done]. intros u u' (s1 & t & E & Ht & Ht'). exists t. split; [done|].
      congruence.
Qed.
End Strings.

(** ** Well-formed objects *)

(** A split object with the types [w] and the string section [l], as adding
    types leaves it: every name is a string of the section. *)
Record obj_ok (b : bobj) (w : list (list Z)) (l : list Z) : Prop := {
  ob_rep : exists set, hrep b w (Z.of_nat (length l)) set /\ in_use set = l;
  ob_sec : section_ok l;
  ob_strs : forall id ws j u, 1 <= id -> rec_of w id = Some ws -> j ∈ str_off_words (winfo ws) ->
    aref ws j = Some u -> is_Some (cstr l u);
}.
