(* ===== verification/DedupCheck.v ===== *)
(** * BTF deduplication: checking what the theorem assumes

    The hypotheses about an object are decidable: references lead to types,
    the references of pointers and the like descend, and a declaration stands
    for one definition (here: for types with the same record).  [object_of]
    is the split object that holds given types and strings. *)

From S2P Require Import Prelude Hashmap StrSet Btf BtfBuild BtfVisit BtfExt Dedup TypeGraph.
From S2P Require Import DedupTypes DedupEquiv DedupPasses DedupRefs DedupCompact DedupStrings.

(** ** Declarations *)

Definition head_of (v : list cell) : option (list Z * Z * option cell) :=
  match v with
  | CName n :: CNum i :: [] => Some (n, i, None)
  | CName n :: CNum i :: c :: _ => Some (n, i, Some c)
  | _ => None
  end.

Definition enum_kindb (k : kind) : bool := bool_decide (k ∈ [KIND_ENUM; KIND_ENUM64]).

(** An over-approximation of [decl]. *)
Definition declb (v w : list cell) : bool :=
  match head_of v, head_of w with
  | Some (n, i, _), Some (n', i', _) =>
      bool_decide (n = n') &&
      (bool_decide (kind_of (BTF_INFO_KIND i) = KIND_FWD) ||
       enum_kindb (kind_of (BTF_INFO_KIND i)) && (BTF_INFO_VLEN i =? 0)
         && bool_decide (kind_of (BTF_INFO_KIND i') = kind_of (BTF_INFO_KIND i)))
  | _, _ => false
  end.

Definition incompleteb (v : list cell) : bool :=
  match head_of v with
  | Some (_, i, _) => bool_decide (kind_of (BTF_INFO_KIND i) = KIND_FWD) ||
                      enum_kindb (kind_of (BTF_INFO_KIND i)) && (BTF_INFO_VLEN i =? 0)
  | None => false
  end.

Lemma enum_kindb_ok k : is_enum_kind k <-> enum_kindb k = true.
Proof.
  unfold is_enum_kind, enum_kindb. rewrite bool_decide_eq_true, elem_of_cons, list_elem_of_singleton. done.
Qed.

Lemma head_of_cons n i r : exists c, head_of (CName n :: CNum i :: r) = Some (n, i, c).
Proof. destruct r; by eexists. Qed.

Lemma declb_ok v w : decl v w -> declb v w = true.
Proof.
  intros [n i r i' r' Hk H|n i s r i' r' Hk Hv Hk' Hn]; unfold declb.
  - destruct (head_of_cons n i r) as [c ->], (head_of_cons n i' r') as [c' ->].
    rewrite (bool_decide_eq_true_2 (n = n)) by done. by rewrite (bool_decide_eq_true_2 _ Hk).
  - destruct (head_of_cons n i (CNum s :: r)) as [c ->], (head_of_cons n i' (CNum s :: r')) as [c' ->].
    apply enum_kindb_ok in Hk. rewrite Hk, Hv, (bool_decide_eq_true_2 (n = n)), (bool_decide_eq_true_2 (_ = kind_of _)) by done.
    by rewrite orb_true_r.
Qed.

Lemma incompleteb_ok v : incompleteb v = true -> incomplete v.
Proof.
  unfold incompleteb. destruct (head_of v) as [[[n i] c]|] eqn:E; [|done]. intros H.
  assert (Hv : exists r, v = CName n :: CNum i :: r).
  { destruct v as [|[ | |] [|[ | |] [|? ?]]]; try done; cbn in E; simplify_eq; by eexists. }
  destruct Hv as [r ->]. apply orb_true_iff in H as [H%bool_decide_eq_true_1|[H1 H2]%andb_true_iff]; [by constructor|].
  apply inc_enum; [by apply enum_kindb_ok|lia].
Qed.

(** ** Objects *)

Section Check.
Context (w : list (list Z)) (l : list Z) (rank : Z -> nat).

Abbreviation n := (Z.of_nat (length w)) (only parsing).

(** The ids with their records. *)
Definition ids : list (Z * list Z) := (0, void_words) :: imap (fun k ws => (Z.of_nat k + 1, ws)) w.

Definition type_likeb (k : kind) : bool := negb (bool_decide (k ∈ [KIND_VAR; KIND_DATASEC; KIND_DECL_TAG])).

Definition ref_kindb (k : kind) : bool :=
  bool_decide (k ∉ [KIND_INT; KIND_ENUM; KIND_ENUM64; KIND_FWD; KIND_FLOAT; KIND_STRUCT; KIND_UNION; KIND_VAR; KIND_DATASEC]).

Definition ref_okb (x : Z * list Z) (j : Z) : bool :=
  match aref x.2 j with
  | None => true
  | Some u =>
      match rec_of w u with
      | None => false
      | Some wu =>
          (negb (type_likeb (wkind x.2)) || type_likeb (wkind wu)) &&
          (negb (ref_kindb (wkind x.2)) || negb (ref_kindb (wkind wu)) || (rank u <? rank x.1)%nat)
      end
  end.

Definition str_okb (x : Z * list Z) (j : Z) : bool :=
  match aref x.2 j with None => true | Some u => bool_decide (is_Some (cstr l u)) end.

Definition recb (ws : list Z) : bool :=
  forallb (fun u => (0 <=? u) && (u <=? UINT32_MAX)) ws && (3 <=? Z.of_nat (length ws))
    && (size_of_info (winfo ws) =? 4 * Z.of_nat (length ws)).

Definition one_defb : bool :=
  forallb (fun f => forallb (fun s => forallb (fun s' =>
    let v i := cells (str_at l) i in
    negb (declb (v f.2) (v s.2) && declb (v f.2) (v s'.2) && negb (incompleteb (v s.2)) && negb (incompleteb (v s'.2)))
    || bool_decide (s.2 = s'.2)) ids) ids) ids.

Definition sectionb : bool :=
  forallb (fun c => (0 <=? c) && (c <? 256)) l && bool_decide (l !! 0%nat = Some 0) && (Z.of_nat (length l) <=? INT_MAX).

Definition fieldsb : bool :=
  forallb (fun x => forallb (ref_okb x) (DedupTypes.ref_words (winfo x.2)) && forallb (str_okb x) (str_off_words (winfo x.2))) ids.

Definition object_okb : bool :=
  fieldsb && forallb recb w && one_defb && sectionb && (types_len w <=? UINT32_MAX) && (n <=? 2 ^ 29).

Lemma ids_spec id ws : (id, ws) ∈ ids <-> rec_of w id = Some ws.
Proof.
  unfold ids, rec_of. rewrite elem_of_cons, elem_of_lookup_imap. split.
  - intros [[= -> ->]|(k & ws' & [= -> ->] & Hk)]; [done|]. destruct (Z.eqb_spec (Z.of_nat k + 1) 0); [lia|].
    replace (Z.of_nat k + 1 - 1) with (Z.of_nat k) by lia. by rewrite aref_nat.
  - destruct (Z.eqb_spec id 0) as [->|Hne]; [intros [= <-]; by left|]. intros H%aref_lookup. right.
    destruct H as [H0 H]. exists (Z.to_nat (id - 1)), ws. split; [|done]. f_equal. lia.
Qed.

Lemma ref_kindb_ok k : ref_kind k <-> ref_kindb k = true.
Proof.
  unfold ref_kindb, ref_kind, prim_kind, struct_kind. rewrite bool_decide_eq_true, !not_elem_of_cons. pose proof (not_elem_of_nil k). tauto.
Qed.

Lemma type_likeb_ok k : type_like k <-> type_likeb k = true.
Proof.
  unfold type_likeb, type_like. rewrite negb_true_iff, bool_decide_eq_false, !not_elem_of_cons.
  pose proof (not_elem_of_nil k). tauto.
Qed.

Context (Hok : object_okb = true).

Lemma parts : fieldsb = true /\ forallb recb w = true /\ one_defb = true /\ sectionb = true /\
  types_len w <= UINT32_MAX /\ n <= 2 ^ 29.
Proof. unfold object_okb in Hok. rewrite !andb_true_iff in Hok. destruct Hok as (((((H1 & H2) & H3) & H4) & H5) & H6). split_and!; (done || lia). Qed.

Lemma checked id ws j u : rec_of w id = Some ws -> aref ws j = Some u ->
  (j ∈ DedupTypes.ref_words (winfo ws) -> ref_okb (id, ws) j = true) /\
  (j ∈ str_off_words (winfo ws) -> is_Some (cstr l u)).
Proof.
  intros Hws Hu. destruct parts as (Hf & _). unfold fieldsb in Hf.
  rewrite forallb_forall in Hf. specialize (Hf (id, ws) ltac:(by apply list_elem_of_In, ids_spec)).
  apply andb_true_iff in Hf as [H1 H2]. rewrite forallb_forall in H1, H2. cbn [snd] in *. split; intros Hj.
  - by apply H1, list_elem_of_In.
  - specialize (H2 j ltac:(by apply list_elem_of_In)). unfold str_okb in H2. cbn [snd] in H2. rewrite Hu in H2.
    by apply bool_decide_eq_true_1 in H2.
Qed.

Lemma check_refs : refs_closed w.
Proof.
  intros id ws j u Hws Hj Hu. destruct (checked id ws j u Hws Hu) as [H _]. specialize (H Hj). unfold ref_okb in H.
  cbn [snd fst] in H. rewrite Hu in H. destruct (rec_of w u) as [wu|] eqn:E; [|done]. by eapply rec_of_range.
Qed.

Lemma check_typed : refs_typed w.
Proof.
  intros id ws j u Hws Ht Hj Hu wu Hwu. destruct (checked id ws j u Hws Hu) as [H _]. specialize (H Hj). unfold ref_okb in H.
  cbn [snd fst] in H. rewrite Hu, Hwu in H. apply andb_true_iff in H as [H _]. apply type_likeb_ok in Ht. rewrite Ht in H.
  by apply type_likeb_ok.
Qed.

Lemma check_ranked : ranked w rank.
Proof.
  intros id ws j u Hws Hk Hj Hu (wu & Hwu & Hku). destruct (checked id ws j u Hws Hu) as [H _]. specialize (H Hj). unfold ref_okb in H.
  cbn [snd fst] in H. rewrite Hu, Hwu in H. apply andb_true_iff in H as [_ H]. apply ref_kindb_ok in Hk, Hku. rewrite Hk, Hku in H.
  by apply Nat.ltb_lt.
Qed.

Lemma check_one : one_definition (view (str_at l) w).
Proof.
  intros f s s' vf vs vs' Hf Hs Hs' D D' I I'. destruct (view_inv w (str_at l) f vf Hf) as (wf & Hwf & ->).
  destruct (view_inv w (str_at l) s vs Hs) as (ws & Hws & ->). destruct (view_inv w (str_at l) s' vs' Hs') as (ws' & Hws' & ->).
  destruct parts as (_ & _ & H3 & _). unfold one_defb in H3. rewrite forallb_forall in H3.
  specialize (H3 (f, wf) ltac:(by apply list_elem_of_In, ids_spec)). rewrite forallb_forall in H3.
  specialize (H3 (s, ws) ltac:(by apply list_elem_of_In, ids_spec)). rewrite forallb_forall in H3.
  specialize (H3 (s', ws') ltac:(by apply list_elem_of_In, ids_spec)). cbn [snd] in H3.
  rewrite (declb_ok _ _ D), (declb_ok _ _ D') in H3.
  assert (Hn : forall v, ~ incomplete v -> incompleteb v = false).
  { intros v Hv. destruct (incompleteb v) eqn:E; [|done]. by apply incompleteb_ok in E. }
  rewrite (Hn _ I), (Hn _ I') in H3. cbn in H3. apply bool_decide_eq_true_1 in H3. subst ws'.
  exact (same_words_equiv w (str_at l) check_refs s s' ws Hws Hws').
Qed.

Lemma check_rest : Forall rec_wf w /\ section_ok l /\ types_len w <= UINT32_MAX /\ n <= 2 ^ 29.
Proof.
  destruct parts as (_ & Hr & _ & Hs & Hl & Hn). split; [|split; [|done]].
  - apply Forall_forall. intros ws Hws. rewrite forallb_forall in Hr.
    specialize (Hr ws ltac:(by apply list_elem_of_In)). unfold recb in Hr. rewrite !andb_true_iff in Hr.
    destruct Hr as [[Hr Hr3] Hr4]. split_and!; [|lia|lia]. apply Forall_forall. intros u Hu. rewrite forallb_forall in Hr.
    specialize (Hr u ltac:(by apply list_elem_of_In)). unfold word_ok. pow2. lia.
  - unfold sectionb in Hs. rewrite !andb_true_iff in Hs. destruct Hs as [[Hs Hs0] Hs1]. split_and!.
    + by apply bytes_ok_dec.
    + by eapply bool_decide_eq_true_1.
    + lia.
Qed.

(** The object with these types and strings. *)
Definition object_of : bobj :=
  {| b_rep := RSplit (bhdr (types_len w) (Z.of_nat (length l))) (types_bytes w) (types_len w)
       {| StrSet.strs_data := l; strs_data_len := Z.of_nat (length l); strs_data_max_len := BTF_MAX_STR_OFFSET;
          strs_hash := hashmap__init |};
     b_raw := None; b_offs := bytes_of (offsets 0 (map bytes_of w)); b_offs_cap := n; b_nr := n; b_base := None;
     b_start_id := 1; b_start_str_off := 0 |}.

Lemma object_of_ok : obj_ok object_of w l.
Proof.
  destruct check_rest as (Hw & Hs & Hl & Hn). split; [|done|].
  - eexists. split; [split; [split|by eexists _, _|done]|]; cbn [object_of b_rep b_base b_start_id b_nr b_offs b_offs_cap]; try done.
    + exists (bhdr (types_len w) (Z.of_nat (length l))), []. rewrite app_nil_r. by eexists _, _.
    + assert (Hlen : length (offsets 0 (map bytes_of w)) = length w) by (by rewrite length_offsets, length_map).
      split; [rewrite bytes_of_length, Hlen; lia|done|by rewrite Hlen|done|pow2; lia|].
      intros i Hi. destruct (lookup_lt_is_Some_2 _ i Hi) as [o Ho]. rewrite Ho.
      apply (ld32_word0 _ i o); [done| |done]. rewrite Hlen in Hi.
      destruct (offsets_lookup (map bytes_of w) 0 i) as (r & Hr & Ho' & Hc); [by rewrite length_map|].
      rewrite Ho in Ho'. injection Ho' as ->. unfold types_len, types_bytes in Hl. unfold word_ok.
      apply (f_equal length) in Hc. rewrite !length_app in Hc. pow2. lia.
    + unfold in_use. cbn. rewrite Nat2Z.id. apply take_ge. lia.
  - intros id ws j u _ Hws Hj Hu. by apply (checked id ws j u Hws Hu).
Qed.
End Check.
