(* ===== verification/DedupSound.v ===== *)
(** * BTF deduplication loses no information

    [btf__dedup] on a well-formed object: it ends, fails only for lack of
    memory or of room for strings, and otherwise leaves a well-formed object
    and a map from the old types onto the new ones.  The new types are old
    ones, definitions are kept, and references describe what they did, in the
    sense of [TypeGraph]. *)

From S2P Require Import Prelude Hashmap StrSet Btf BtfBuild BtfVisit BtfExt Dedup TypeGraph.
From S2P Require Import DedupTypes DedupEquiv DedupTable DedupPasses DedupRefs DedupVisit.
From S2P Require Import DedupCompact DedupRemap DedupStrings DedupCheck.

(** ** The beginning *)

(** What [map] starts with. *)
Definition init_entry (w : list (list Z)) (i : Z) : Z :=
  match rec_of w i with
  | Some ws => if bool_decide (wkind ws ∈ [KIND_VAR; KIND_DATASEC]) then i else BTF_UNPROCESSED_ID
  | None => BTF_UNPROCESSED_ID
  end.

Lemma init_map_spec b w : trep b w -> forall n i, 1 <= i -> i + Z.of_nat n = Z.of_nat (length w) + 1 ->
  init_map b i n = Some (map (fun k => init_entry w (i + Z.of_nat k)) (seq 0 n)).
Proof.
  intros Hb. induction n as [|n IH]; intros i Hi Hn; cbn [init_map seq map]; [done|].
  destruct (rec_of_Some w i) as [ws Hws]; [lia|]. rewrite (b_kind_spec b w Hb i ws Hws). cbn [mbind option_bind].
  rewrite IH by lia. cbn [mbind option_bind]. f_equal. f_equal.
  - unfold init_entry. by rewrite Z.add_0_r, Hws.
  - rewrite <- seq_shift, map_map. apply map_ext. intros k. f_equal. lia.
Qed.

Section Start.
Context (force : bool) (w : list (list Z)) (names : Z -> list Z) (Hrefs : refs_closed w).

Abbreviation n := (Z.of_nat (length w)) (only parsing).

Definition start_map (w0 : list (list Z)) : list Z :=
  0 :: map (fun k => init_entry w0 (1 + Z.of_nat k)) (seq 0 (length w0)).

Lemma start_map_lookup w0 i v : aref (start_map w0) i = Some v ->
  i = 0 /\ v = 0 \/ 1 <= i <= Z.of_nat (length w0) /\ v = init_entry w0 i.
Proof.
  intros H. pose proof (aref_bounds _ _ _ H) as Hb. unfold start_map in *. cbn [length] in Hb.
  rewrite length_map, length_seq in Hb. destruct (Z.eqb_spec i 0) as [->|Hne]; [left; by injection H as <-|right].
  split; [lia|]. apply aref_lookup in H as [_ H]. replace (Z.to_nat i) with (S (Z.to_nat (i - 1))) in H by lia.
  change (((fun k => init_entry w0 (1 + Z.of_nat k)) <$> seq 0 (length w0)) !! Z.to_nat (i - 1) = Some v) in H.
  rewrite list_lookup_fmap, lookup_seq_lt in H by lia. injection H as <-. f_equal. lia.
Qed.

Lemma start_map_at w0 i : 1 <= i <= Z.of_nat (length w0) -> aref (start_map w0) i = Some (init_entry w0 i).
Proof.
  intros Hi. destruct (aref_Some (start_map w0) i) as [v Hv].
  - unfold start_map. cbn [length]. rewrite length_map, length_seq. lia.
  - rewrite Hv. destruct (start_map_lookup w0 i v Hv) as [[? _]|[_ ->]]; [lia|done].
Qed.

Lemma init_entry_cases w0 i : init_entry w0 i = i \/ init_entry w0 i = BTF_UNPROCESSED_ID.
Proof. unfold init_entry. destruct (rec_of w0 i); [case_bool_decide; [by left|by right]|by right]. Qed.

Lemma start_inv d w0 : (forall i ws, 1 <= i -> rec_of w i = Some ws -> exists ws0, rec_of w0 i = Some ws0 /\ winfo ws0 = winfo ws) ->
  length w0 = length w -> n <= 2 ^ 29 -> d_map d = start_map w0 -> dedup_table d = hashmap__init ->
  d_hypot d = {| hypot_map := replicate (Z.to_nat (n + 1)) BTF_UNPROCESSED_ID; hypot_list := []; hypot_cap := 0;
                 hypot_adjust_canon := false |} ->
  prim_inv force w names 1 d.
Proof.
  intros Hw0 Hl Hsm Hm Ht Hh.
  assert (Hlen : Z.of_nat (length (d_map d)) = n + 1).
  { rewrite Hm. unfold start_map. cbn [length]. rewrite length_map, length_seq. lia. }
  assert (Hcase : forall i v, aref (d_map d) i = Some v -> is_mapped v = true -> v = i /\ 0 <= i <= n).
  { intros i v Hv Hmv. rewrite Hm in Hv. apply start_map_lookup in Hv as [[-> ->]|[Hi ->]]; [split; [done|lia]|].
    destruct (init_entry_cases w0 i) as [->|E]; [split; [done|lia]|]. rewrite E in Hmv. done. }
  split.
  - split; rewrite ?Ht; [|apply table_init| | |].
    + split; [done|done|by rewrite Hm| |].
      * intros i v Hv Hmv. destruct (Hcase i v Hv Hmv) as [-> Hi]. split; [done|]. by apply replaces_refl'.
      * intros x Hx. exists 0%nat, x. constructor. destruct (aref_Some (d_map d) x Hx) as [v Hv]. exists v. split; [done|].
        destruct (is_mapped v) eqn:E; [right; by destruct (Hcase x v Hv E)|by left].
    + intros h v Hv. by apply not_elem_of_nil in Hv.
    + rewrite Hh. split; cbn [hypot_map hypot_list].
      * rewrite length_replicate. lia.
      * intros c a [Ha Hma]. cbn [hypot_map] in Ha. apply aref_lookup in Ha as [_ Ha]. apply lookup_replicate in Ha as [-> _]. done.
      * intros c Hc. by apply not_elem_of_nil in Hc.
    + cbn [sz hashmap__init]. pose proof (filter_length_le (fun v => negb (is_mapped v)) (d_map d)). unfold free. lia.
  - intros i m Hv Hmm. destruct (Hcase i m Hv Hmm) as [-> _]. by exists i.
  - intros i ws Hi Hws H1 H2 (v & Hv & Hmv). rewrite Hm, start_map_at in Hv by lia. injection Hv as <-.
    destruct (Hw0 i ws ltac:(lia) Hws) as (ws0 & Hw1 & E). unfold init_entry in Hmv. rewrite Hw1 in Hmv.
    rewrite bool_decide_eq_false_2 in Hmv; [done|]. unfold wkind. rewrite E. fold (wkind ws).
    intros [?|?%list_elem_of_singleton]%elem_of_cons; done.
  - intros i ws Hi Hws H. rewrite Hm, start_map_at by lia. destruct (Hw0 i ws ltac:(lia) Hws) as (ws0 & Hw1 & E).
    unfold init_entry. rewrite Hw1, bool_decide_eq_true_2; [done|]. unfold wkind. rewrite E. fold (wkind ws).
    destruct H as [->| ->]; [by left|by right; left].
  - intros i Hp. unfold prog in Hp. rewrite Hm in Hp. apply start_map_lookup in Hp as [[_ E]|[Hi E]]; [done|].
    destruct (init_entry_cases w0 i) as [E'|E']; rewrite E' in E; [lia|done].
  - intros. lia.
Qed.
End Start.

(** ** The same graph with other strings *)

Section Strings.
Context (l l1 : list Z) (w w1 : list (list Z)) (Hl : section_ok l) (Hl1 : section_ok l1) (Hlen : length w1 = length w).
Context (Hre : forall id ws, 1 <= id -> rec_of w id = Some ws ->
  exists ws', rec_of w1 id = Some ws' /\ rewritten (renamed l l1) (str_off_words (winfo ws)) ws ws').

Lemma str_at_0 l' : section_ok l' -> str_at l' 0 = [].
Proof. intros (H1 & H2 & H3). unfold str_at. by rewrite (empty_string l' H1 H2 H3). Qed.

Lemma renamed_cells ws ws' : rewritten (renamed l l1) (str_off_words (winfo ws)) ws ws' ->
  cells (str_at l1) ws' = cells (str_at l) ws.
Proof.
  intros (Hi & Hle & Hj). apply list_eq. intros k. rewrite !cells_lookup, Hi.
  destruct (ws' !! k) as [u'|] eqn:E', (ws !! k) as [u|] eqn:E; cbn [fmap option_fmap option_map].
  - f_equal. destruct (Hj (Z.of_nat k) u u') as [Ha Hb]; [by rewrite aref_nat..|]. unfold cell_of.
    case_bool_decide as Hs; [|by rewrite Hb]. destruct (Ha Hs) as (t & Ht & Ht'). unfold str_at. by rewrite Ht, Ht'.
  - apply lookup_lt_Some in E'. apply lookup_ge_None in E. lia.
  - apply lookup_lt_Some in E. apply lookup_ge_None in E'. lia.
  - done.
Qed.

Lemma renamed_view id : view (str_at l1) w1 id = view (str_at l) w id.
Proof.
  unfold view. destruct (Z.eqb_spec id 0) as [->|Hne].
  { assert (E : forall names, cells names void_words = [CName (names 0); CNum 0; CNum 0]) by reflexivity.
    change (rec_of w1 0) with (Some void_words). change (rec_of w 0) with (Some void_words). cbn [fmap option_fmap option_map].
    by rewrite !E, (str_at_0 l Hl), (str_at_0 l1 Hl1). }
  destruct (rec_of w id) as [ws|] eqn:E.
  - pose proof (rec_of_range _ _ _ E). destruct (Hre id ws ltac:(lia) E) as (ws' & -> & Hr). cbn. f_equal. by apply renamed_cells.
  - destruct (rec_of w1 id) as [ws'|] eqn:E'; [|done]. pose proof (rec_of_range _ _ _ E') as Hr.
    destruct (rec_of_Some w id) as [? H]; [lia|]. congruence.
Qed.

(** What the passes need to know about references. *)
Lemma renamed_ref ws ws' j u : rewritten (renamed l l1) (str_off_words (winfo ws)) ws ws' ->
  j ∈ DedupTypes.ref_words (winfo ws') -> aref ws' j = Some u -> aref ws j = Some u /\ j ∈ DedupTypes.ref_words (winfo ws).
Proof.
  intros (Hi & Hle & Hj) Hr Hu. rewrite Hi in Hr. split; [|done].
  destruct (aref_Some ws j) as [u0 Hu0]; [apply aref_bounds in Hu; lia|]. destruct (Hj j u0 u Hu0 Hu) as [_ Hb].
  rewrite Hu0, Hb; [done|]. by apply not_str_and_ref.
Qed.

Lemma renamed_back id ws' : rec_of w1 id = Some ws' -> 1 <= id ->
  exists ws, rec_of w id = Some ws /\ rewritten (renamed l l1) (str_off_words (winfo ws)) ws ws'.
Proof.
  intros H Hid. pose proof (rec_of_range _ _ _ H). destruct (rec_of_Some w id) as [ws Hws]; [lia|].
  destruct (Hre id ws Hid Hws) as (ws2 & H2 & Hr). exists ws. split; [done|]. congruence.
Qed.
End Strings.

(** ** The passes over types *)

(** [j] is the new type of an old one that describes the same as [i]. *)
Definition stands_for (g : graph) (n : Z) (f : Z -> Z) (i j : Z) : Prop :=
  exists r, 0 <= r <= n /\ equiv g i r /\ f r = j.

(** [j] is [i] again: the same names and numbers, and references that stand
    for those of [i]. *)
Definition same_type (g g' : graph) (n : Z) (f : Z -> Z) (i j : Z) : Prop :=
  exists v v', g i = Some v /\ g' j = Some v' /\ Forall2 (cell_rel (stands_for g n f)) v v'.

(** [f] maps the types [g] onto the types [g'].  Every type of [g'] is one of
    those that [f] maps to it, again; a type that is more than a declaration
    is mapped to itself again; and a declaration is mapped to a type it may
    stand for. *)
Record no_loss (g g' : graph) (n n' : Z) (f : Z -> Z) : Prop := {
  nl_void : f 0 = 0;
  nl_range i : 0 <= i <= n -> 0 <= f i <= n';
  nl_copies j : 0 <= j <= n' -> exists i, 0 <= i <= n /\ f i = j /\ same_type g g' n f i j;
  nl_whole i : 0 <= i <= n -> whole g i -> same_type g g' n f i (f i);
  nl_matches : simulation g g' (stands_for g n f) }.

(** Every new record is an old one with other references. *)
Definition copies (w w' : list (list Z)) : Prop := forall id ws', 1 <= id -> rec_of w' id = Some ws' ->
  exists r ws, 1 <= r /\ rec_of w r = Some ws /\ rewritten (fun _ _ => True) (DedupTypes.ref_words (winfo ws)) ws ws'.

Section Core.
Context (alloc_ok : Z -> bool) (force : bool) (w : list (list Z)) (names : Z -> list Z).
Context (Hrefs : refs_closed w) (Htyped : refs_typed w) (Hone : one_definition (view names w)).
Context (rank : Z -> nat) (Hrank : ranked w rank).

Abbreviation n := (Z.of_nat (length w)) (only parsing).
Abbreviation g := (view names w) (only parsing).

(** *** The graph of the result *)

Section Result.
Context (b b2 : bobj) (d2 : btf_dedup) (w2 kept w3 : list (list Z)) (roots new_ids : list Z).
Context (Hb : trep b w) (H2 : ref_inv force b w names d2 w2) (Hall : forall i, 0 <= i <= n -> mapped (d_map d2) i).
Context (Hst : stays (d_map d2) w2 n roots kept new_ids) (Hids : Z.of_nat (length new_ids) = n + 1).
Context (H3l : length w3 = length kept).
Context (H3 : forall id ws, 1 <= id -> rec_of kept id = Some ws ->
  exists ws', rec_of w3 id = Some ws' /\ rewritten (new_id (d_map d2) new_ids) (DedupTypes.ref_words (winfo ws)) ws ws').

Abbreviation dmap := (d_map d2) (only parsing).

Lemma result_map : map_ok g n dmap.
Proof. apply H2. Qed.

Definition new_of (i : Z) : Z := default 0 (r ← resolve_type_id dmap i; aref new_ids r).

Definition describes (i j : Z) : Prop := 0 <= i <= n /\ exists r, 0 <= r <= n /\ equiv g i r /\
  aref dmap r = Some r /\ aref new_ids r = Some j.

Lemma describes_equiv x y z : equiv g x y -> describes y z -> describes x z.
Proof.
  intros He (_ & r & Hr & He' & Hs & Hn). destruct (equiv_defined _ _ _ He) as [[v Hv] _].
  destruct (view_inv w names x v Hv) as (ws & Hws & _). split; [by eapply rec_of_range|]. exists r.
  split; [done|]. split; [by eapply equiv_trans'|done].
Qed.

Lemma new_id_describes x y : 0 <= x <= n -> new_id dmap new_ids x y -> describes x y.
Proof.
  intros Hx (k & r & Hl & Hn). split; [done|]. pose proof result_map as Hm.
  destruct (leads_equiv g n (view_closed w names Hrefs) Hone (view_dom w names) dmap k x r Hm Hl) as [Hr He].
  exists r. split; [done|]. split; [done|]. split; [|done].
  eapply root_self; [exact Hall|by eapply leads_end|done].
Qed.

Lemma new_of_spec i : 0 <= i <= n -> new_id dmap new_ids i (new_of i) /\ 0 <= new_of i <= Z.of_nat (length w3).
Proof.
  intros Hi. pose proof result_map as Hm.
  destruct (resolve_ok g n (view_closed w names Hrefs) Hone (view_dom w names) dmap i Hm Hi) as (k & r & Hl & Hres & Hr & _).
  destruct (new_id_root n dmap new_ids w2 roots kept Hst r) as (u' & Hu & Hb' & _); [|done|].
  { eapply root_self; [exact Hall|by eapply leads_end|done]. }
  unfold new_of. rewrite Hres. cbn [mbind option_bind]. rewrite Hu. cbn. rewrite H3l. split; [|done]. by exists k, r.
Qed.

(** The record of a type and the one of its new id. *)
Lemma new_record r j ws : aref dmap r = Some r -> 1 <= r <= n -> aref new_ids r = Some j -> rec_of w r = Some ws ->
  1 <= j /\ exists ws3, rec_of w3 j = Some ws3 /\ winfo ws3 = winfo ws /\ length ws3 = length ws /\
    forall k x y, aref ws k = Some x -> aref ws3 k = Some y ->
      if bool_decide (k ∈ DedupTypes.ref_words (winfo ws)) then describes x y else x = y.
Proof.
  intros Hr Hrn Hj Hws. destruct (new_id_root n dmap new_ids w2 roots kept Hst r Hr ltac:(lia)) as (u' & Hu & _ & Ho).
  rewrite Hj in Hu. injection Hu as <-. destruct Ho as [[? _]|(_ & Hj1 & ws2 & Hw2 & Hk)]; [lia|]. split; [done|].
  destruct (rf_sim _ _ _ _ _ _ H2 r ws Hws) as (ws2' & Hw2' & Hi & Hl & Hsim). rewrite Hw2 in Hw2'. injection Hw2' as <-.
  destruct (H3 j ws2 Hj1 Hk) as (ws3 & Hw3 & Hi3 & Hl3 & Hrw). exists ws3. split; [done|]. split; [congruence|]. split; [congruence|].
  intros k x y Hx Hy. destruct (aref_Some ws2 k) as [z Hz]; [apply aref_bounds in Hx; lia|].
  pose proof (Hsim k x z Hx Hz) as E. destruct (Hrw k z y Hz Hy) as [Ha Hb']. rewrite Hi in Ha, Hb'.
  case_bool_decide as Hk'; [|rewrite E; symmetry; by apply Hb'].
  destruct E as [Hzr He]. eapply describes_equiv; [exact He|]. apply new_id_describes; [done|by apply Ha].
Qed.

(** Where a new type comes from. *)
Lemma old_of j : 1 <= j <= Z.of_nat (length w3) -> exists r, 1 <= r <= n /\ aref dmap r = Some r /\ aref new_ids r = Some j.
Proof.
  intros Hj. destruct Hst as (_ & Hin & Hf & _ & Hj').
  destruct (lookup_lt_is_Some_2 roots (Z.to_nat (j - 1))) as [r Hr].
  { rewrite (Forall2_length _ _ _ Hf), <- H3l. lia. }
  exists r. assert (Hr' : r ∈ roots) by by eapply list_elem_of_lookup_2. apply Hin in Hr' as [Hrn Hs].
  split; [lia|]. split; [done|]. rewrite (Hj' _ _ Hr). f_equal. lia.
Qed.

Lemma old_record j ws3 : 1 <= j -> rec_of w3 j = Some ws3 -> exists r ws, 1 <= r /\ rec_of w r = Some ws /\
  winfo ws3 = winfo ws /\ length ws3 = length ws /\
  forall k x y, aref ws k = Some x -> aref ws3 k = Some y ->
    if bool_decide (k ∈ DedupTypes.ref_words (winfo ws)) then describes x y else x = y.
Proof.
  intros Hj Hw3. pose proof (rec_of_range _ _ _ Hw3) as Hr. destruct (old_of j) as (r & Hrn & Hs & Hn); [lia|].
  destruct (rec_of_Some w r) as [ws Hws]; [lia|].
  destruct (new_record r j ws Hs Hrn Hn Hws) as (_ & ws3' & Hw3' & Hrest). rewrite Hw3 in Hw3'. injection Hw3' as <-.
  exists r, ws. split; [lia|]. by split.
Qed.

Lemma new_of_root r : aref dmap r = Some r -> forall j, aref new_ids r = Some j -> new_of r = j.
Proof.
  intros Hs j Hj. unfold new_of. rewrite (resolve_spec dmap 0 r r); [|constructor; exists r; split; [done|by right]].
  cbn [mbind option_bind]. by rewrite Hj.
Qed.

Lemma describes_simulation : simulation g (view names w3) describes.
Proof.
  intros i j (Hi & r & Hr & He & Hs & Hn). destruct (equiv_simulation g i r He) as (v & u & Hv & Hu & Hm).
  destruct (view_inv w names r u Hu) as (ws & Hws & ->).
  assert (Hj : exists ws3, view names w3 j = Some (cells names ws3) /\ Forall2 (cell_rel describes) (cells names ws) (cells names ws3)).
  { destruct (Z.eqb_spec r 0) as [->|Hne].
    - destruct Hst as (_ & _ & _ & H0 & _). rewrite H0 in Hn. injection Hn as <-. injection Hws as <-.
      exists void_words. split; [done|]. apply full_refl. intros k Hk.
      assert (E : cells names void_words = [CName (names 0); CNum 0; CNum 0]) by reflexivity. rewrite E in Hk. by elem_inv.
    - destruct (new_record r j ws Hs ltac:(lia) Hn Hws) as (_ & ws3 & Hw3 & Hi3 & Hl3 & Hcell). exists ws3.
      split; [unfold view; by rewrite Hw3|]. by apply full_of_words. }
  destruct Hj as (ws3 & Hv3 & Hf). exists v, (cells names ws3). split; [done|]. split; [done|].
  eapply matches_mono; [|by eapply matches_full]. intros x z (y & Hxy & Hyz). by eapply describes_equiv.
Qed.

Lemma describes_stands i j : describes i j <-> 0 <= i <= n /\ stands_for g n new_of i j.
Proof.
  split.
  - intros (Hi & r & Hr & He & Hs & Hn). split; [done|]. exists r. split_and!; [lia|lia|done|by apply new_of_root].
  - intros (Hi & r & Hr & He & <-). eapply describes_equiv; [exact He|].
    apply new_id_describes; [done|by apply new_of_spec].
Qed.

Lemma stands_in i j : stands_for g n new_of i j -> describes i j.
Proof.
  intros H. apply describes_stands. split; [|done]. destruct H as (r & _ & He & _).
  destruct (equiv_defined _ _ _ He) as [[v (ws & Hws & _)%(view_inv w names)] _]. by eapply rec_of_range.
Qed.

(** A root and its new type. *)
Lemma root_again r : aref dmap r = Some r -> 0 <= r <= n -> same_type g (view names w3) n new_of r (new_of r).
Proof.
  intros Hs Hr. pose proof Hst as (_ & _ & _ & H0 & _). destruct (Z.eqb_spec r 0) as [->|Hne].
  - rewrite (new_of_root 0 Hs 0 H0). exists (cells names void_words), (cells names void_words).
    split; [done|]. split; [done|]. apply full_refl. intros k Hk.
    assert (E : cells names void_words = [CName (names 0); CNum 0; CNum 0]) by reflexivity. rewrite E in Hk. by elem_inv.
  - destruct (new_id_root n dmap new_ids w2 roots kept Hst r Hs Hr) as (j & Hj & _).
    rewrite (new_of_root r Hs j Hj). destruct (rec_of_Some w r Hr) as [ws Hws].
    destruct (new_record r j ws Hs ltac:(lia) Hj Hws) as (_ & ws3 & Hw3 & Hi3 & Hl3 & Hc).
    exists (cells names ws), (cells names ws3). split; [by apply view_Some|]. split; [unfold view; by rewrite Hw3|].
    apply full_of_words; [done|done|]. intros k x y Hx Hy. specialize (Hc k x y Hx Hy).
    case_bool_decide; [|done]. by apply describes_stands.
Qed.

Lemma result_no_loss : no_loss g (view names w3) n (Z.of_nat (length w3)) new_of.
Proof.
  pose proof (mo_void _ _ _ result_map) as Hv0. pose proof Hst as (_ & _ & _ & H0 & _).
  assert (Hsim : simulation g (view names w3) (stands_for g n new_of)).
  { intros i j Hij%stands_in. destruct (describes_simulation i j Hij) as (v & u & Hv & Hu & Hm). exists v, u.
    split_and!; [done..|]. eapply matches_mono; [|exact Hm]. intros x y Hxy. by apply describes_stands. }
  split; [by apply new_of_root| | | |done].
  - intros i Hi. by apply new_of_spec.
  - intros j Hj. destruct (Z.eqb_spec j 0) as [->|Hne].
    + exists 0. split; [lia|]. pose proof (new_of_root 0 Hv0 0 H0) as E. split; [done|].
      rewrite <- E at 2. apply root_again; [done|lia].
    + destruct (old_of j) as (r & Hr & Hs & Hn); [lia|]. exists r. pose proof (new_of_root r Hs j Hn) as E.
      split; [lia|]. split; [done|]. rewrite <- E. apply root_again; [done|lia].
  - intros i Hi Hw.
    destruct (resolve_ok g n (view_closed w names Hrefs) Hone (view_dom w names) dmap i result_map Hi)
      as (k & r & Hl & Hres & Hr & _).
    destruct (leads_replaces g n (view_closed w names Hrefs) Hone (view_dom w names) dmap k i r result_map Hl)
      as [_ [_ Hwr]]. specialize (Hwr Hw).
    assert (Hself : aref dmap r = Some r) by (eapply root_self; [exact Hall|by eapply leads_end|done]).
    assert (E : new_of i = new_of r).
    { unfold new_of. rewrite Hres, (resolve_spec dmap 0 r r); [done|]. constructor. exists r. split; [done|by right]. }
    destruct (root_again r Hself Hr) as (vr & v' & Hvr & Hv' & Hf).
    destruct (Hsim i (new_of i)) as (v & u & Hv & Hu & Hm).
    { exists i. split; [done|]. split; [|done]. by apply equiv_refl'. }
    rewrite E in Hu |- *. rewrite Hv' in Hu. injection Hu as <-. exists v, v'. split_and!; [done..|].
    destruct Hw as (v0 & Hv0' & Hnv). rewrite Hv in Hv0'. injection Hv0' as <-.
    destruct Hwr as (v1 & Hv1 & Hnr). rewrite Hvr in Hv1. injection Hv1 as <-.
    apply whole_matches; [done| |done]. intros Hi'. by eapply Hnr, incomplete_full.
Qed.

Lemma result_copies : copies w w3.
Proof.
  intros j ws3 Hj Hw3. destruct (old_record j ws3 Hj Hw3) as (r & ws & Hr & Hws & Hi & Hl & Hc). exists r, ws.
  split; [lia|]. split; [done|]. split_and!; [done|done|]. intros k x y Hx Hy. split; [done|]. intros Hk.
  specialize (Hc k x y Hx Hy). rewrite bool_decide_eq_false_2 in Hc by done. done.
Qed.

Lemma result_refs : refs_closed w3.
Proof.
  intros j ws3 k y Hw3 Hk Hy. destruct (Z.eqb_spec j 0) as [->|Hne].
  { injection Hw3 as <-. by apply not_elem_of_nil in Hk. }
  pose proof (rec_of_range _ _ _ Hw3) as Hr. destruct (old_record j ws3 ltac:(lia) Hw3) as (r & ws & _ & _ & Hi & Hl & Hc).
  destruct (aref_Some ws k) as [x Hx]; [apply aref_bounds in Hy; lia|]. specialize (Hc k x y Hx Hy).
  rewrite Hi in Hk. rewrite bool_decide_eq_true_2 in Hc by done. destruct Hc as (_ & r' & Hr' & _ & Hs' & Hn').
  destruct (new_id_root n dmap new_ids w2 roots kept Hst r' Hs' Hr') as (u' & Hu & Hb' & _).
  rewrite Hn' in Hu. injection Hu as <-. rewrite H3l. lia.
Qed.
End Result.

Lemma run_passes_cons p ps e d err d1 : p d = Some (err, d1) ->
  run_passes (p :: ps) e d = if err <? 0 then Some (err, d1) else run_passes ps err d1.
Proof. intros H. cbn [run_passes]. by rewrite H. Qed.

Definition core_passes : list (btf_dedup -> option (Z * btf_dedup)) :=
  [btf_dedup_prim_types alloc_ok force; btf_dedup_struct_types alloc_ok force; btf_dedup_ref_types alloc_ok force;
   btf_dedup_compact_types alloc_ok; btf_dedup_remap_types].

Definition core_result (sl : Z) (set : strset) (d' : btf_dedup) : Prop :=
  d_ext d' = None /\ exists w' f, hrep (d_btf d') w' sl set /\ (length w' <= length w)%nat /\
    no_loss g (view names w') n (Z.of_nat (length w')) f /\ copies w w' /\ refs_closed w'.

Lemma core_spec d sl set : hrep (d_btf d) w sl set -> d_ext d = None -> prim_inv force w names 1 d ->
  exists err d', run_passes core_passes 0 d = Some (err, d') /\
    (err < 0 /\ failed alloc_ok err \/ err = 0 /\ core_result sl set d').
Proof.
  intros Hb Hext Hp. pose proof (hr_rep _ _ _ _ Hb) as Htr. unfold core_passes.
  assert (Hneg : forall err, err < 0 -> (err <? 0) = true) by (intros; lia).
  destruct (prim_types_spec alloc_ok force (d_btf d) w names Htr Hrefs Hone d Hp eq_refl) as (err & d1 & E1 & (Eb1 & _ & Ee1 & _) & Ho).
  rewrite (run_passes_cons _ _ _ _ _ _ E1). destruct Ho as [[Hn Hf]|[-> Hp1]].
  { rewrite Hneg by done. exists err, d1. split; [done|]. by left. }
  cbn [Z.ltb Z.compare]. apply (prim_struct alloc_ok force (d_btf d) w names Htr) in Hp1.
  destruct (struct_types_spec alloc_ok force (d_btf d) w names Htr Hrefs Htyped Hone d1 Hp1 Eb1) as (err & d2 & E2 & (Eb2 & _ & Ee2 & _) & Ho).
  rewrite (run_passes_cons _ _ _ _ _ _ E2). destruct Ho as [[Hn Hf]|[-> Hp2]].
  { rewrite Hneg by done. exists err, d2. split; [done|]. by left. }
  cbn [Z.ltb Z.compare]. pose proof (st_prog _ _ _ _ _ Hp2) as Hnp.
  assert (Hi2 : ref_inv force (d_btf d) w names d2 w) by (apply struct_ref; [done|done|done|congruence]).
  destruct (ref_types_spec alloc_ok force (d_btf d) w names Htr Hrefs Hone rank Hrank d2 Hi2 Hnp) as (err & d3 & E3 & Ho).
  rewrite (run_passes_cons _ _ _ _ _ _ E3). destruct Ho as [[Hn Hf]|(-> & (_ & Ee3 & _) & w2 & Hi3 & Hall)].
  { rewrite Hneg by done. exists err, d3. split; [done|]. by left. }
  cbn [Z.ltb Z.compare]. pose proof (rf_len _ _ _ _ _ _ Hi3) as Hl2.
  assert (Hb3 : hrep (d_btf d3) w2 sl set).
  { eapply hrep_frame; [exact Hb|apply Hi3|apply Hi3|]. apply types_len_same_words; [done|].
    intros i ws Hws. destruct (rf_sim _ _ _ _ _ _ Hi3 i ws Hws) as (ws' & H & _ & Hl & _). by exists ws'. }
  assert (Hm3 : map_ok g n (d_map d3)) by apply Hi3.
  destruct (compact_spec alloc_ok d3 w2 sl set Hb3) as (err & d4 & E4 & Ho).
  { rewrite Hl2. apply (mo_len _ _ _ Hm3). }
  { rewrite Hl2. apply (hk_len _ _ (pi_hypot _ _ _ _ _ _ (rf_pass _ _ _ _ _ _ Hi3))). }
  rewrite (run_passes_cons _ _ _ _ _ _ E4). destruct Ho as [[-> Hoom]|(-> & Em4 & Ee4 & kept & roots & Hb4 & Hst & Hids)].
  { change (- ENOMEM <? 0) with true. cbn iota. exists (- ENOMEM), d4. split; [done|]. left. split; [lia|]. by split. }
  cbn [Z.ltb Z.compare]. rewrite Hl2 in Hst, Hids.
  destruct (remap_types_spec g n (d_map d4) (hypot_map (d_hypot d4)) w2 roots kept (view_closed w names Hrefs) Hone
    (view_dom w names)) with (d := d4) (sl := sl) (set := set) as (d5 & E5 & Ee5 & w3 & Hb5 & Hl3 & H3); rewrite ?Em4; try done.
  { intros id ws j u Hid Hws Hj Hu. destruct Hst as (_ & _ & Hf & _).
    pose proof (rec_of_range _ _ _ Hws) as Hr. destruct (rec_of_own _ _ _ Hws ltac:(lia)) as [_ Hk].
    destruct (Forall2_lookup_r _ _ _ _ _ Hf Hk) as (r & _ & Hw2). pose proof (rec_of_range _ _ _ Hw2) as Hr2.
    destruct (rec_of_Some w r) as [ws0 Hws0]; [lia|].
    destruct (rf_sim _ _ _ _ _ _ Hi3 r ws0 Hws0) as (ws' & Hws' & Hi & Hl & Hsim). rewrite Hw2 in Hws'. injection Hws' as <-.
    destruct (aref_Some ws0 j) as [u0 Hu0]; [apply aref_bounds in Hu; lia|]. specialize (Hsim j u0 u Hu0 Hu).
    rewrite <- Hi in Hsim. rewrite bool_decide_eq_true_2 in Hsim by done. apply Hsim. }
  { congruence. }
  rewrite (run_passes_cons _ _ _ _ _ _ E5). cbn [Z.ltb Z.compare run_passes]. exists 0, d5. split; [done|]. right. split; [done|].
  split; [done|]. exists w3. rewrite Em4 in H3.
  exists (new_of d3 (hypot_map (d_hypot d4))). split; [done|]. split.
  { pose proof (kept_le g n (d_map d3) (hypot_map (d_hypot d4)) w2 roots kept Hm3 Hst). lia. }
  split; [by eapply result_no_loss|]. split; [by eapply result_copies|by eapply result_refs].
Qed.
End Core.

(** ** The whole *)

Lemma copies_strs w w' l : copies w w' ->
  (forall id ws j u, 1 <= id -> rec_of w id = Some ws -> j ∈ str_off_words (winfo ws) -> aref ws j = Some u -> is_Some (cstr l u)) ->
  forall id ws j u, 1 <= id -> rec_of w' id = Some ws -> j ∈ str_off_words (winfo ws) -> aref ws j = Some u -> is_Some (cstr l u).
Proof.
  intros Hc Hs id ws' j u Hid Hws' Hj Hu. destruct (Hc id ws' Hid Hws') as (r & ws & Hr & Hws & Hi & Hl & Hw).
  rewrite Hi in Hj. destruct (aref_Some ws j) as [u0 Hu0]; [apply aref_bounds in Hu; lia|].
  destruct (Hw j u0 u Hu0 Hu) as [_ E]. rewrite E; [by eapply Hs|]. intros Hr'. by apply (not_str_and_ref _ _ Hr').
Qed.

Lemma stands_ext g g1 n f i j : (forall i, g1 i = g i) -> stands_for g1 n f i j -> stands_for g n f i j.
Proof. intros He (r & Hr & Hq & E). exists r. split_and!; [lia|lia|by eapply (equiv_ext g1 g)|done]. Qed.

Lemma same_type_ext g g1 g' n f i j : (forall i, g1 i = g i) -> same_type g1 g' n f i j -> same_type g g' n f i j.
Proof.
  intros He (v & v' & H1 & H2 & Hf). exists v, v'. rewrite <- He. split_and!; [done..|].
  eapply Forall2_impl; [exact Hf|]. intros c d Hc. eapply cell_rel_mono; [|exact Hc]. intros x y. by apply stands_ext.
Qed.

Lemma no_loss_ext g g1 g' n n' f : (forall i, g1 i = g i) -> no_loss g1 g' n n' f -> no_loss g g' n n' f.
Proof.
  intros He [H1 H2 H3 H4 H5]. split; [done|done| | |].
  - intros j Hj. destruct (H3 j Hj) as (i & Hi & E & Hs). exists i. split_and!; [lia|lia|done|by eapply same_type_ext].
  - intros i Hi (v & Hv & Hn). eapply same_type_ext; [done|]. apply H4; [done|]. exists v. by rewrite He.
  - intros x y Hxy. destruct (H5 x y) as (v & u & Hv & Hu & Hm); [eapply stands_ext; [|exact Hxy]; done|].
    exists v, u. rewrite <- He. split_and!; [done..|]. eapply matches_mono; [|exact Hm]. intros a b. by apply stands_ext.
Qed.

Section Whole.
Context (alloc_ok : Z -> bool) (force : bool) (w : list (list Z)) (l : list Z).
Context (Hrefs : refs_closed w) (Htyped : refs_typed w) (Hone : one_definition (view (str_at l) w)).
Context (rank : Z -> nat) (Hrank : ranked w rank) (Hsec : section_ok l).

(** The hypotheses do not depend on where the strings are. *)
Section Renamed.
Context (w1 : list (list Z)) (l1 : list Z) (Hl1 : section_ok l1) (Hlen : length w1 = length w).
Context (Hre : forall id ws, 1 <= id -> rec_of w id = Some ws ->
  exists ws', rec_of w1 id = Some ws' /\ rewritten (renamed l l1) (str_off_words (winfo ws)) ws ws').

Lemma renamed_of id ws' : rec_of w1 id = Some ws' -> exists ws, rec_of w id = Some ws /\ winfo ws' = winfo ws /\
  forall j u, j ∈ DedupTypes.ref_words (winfo ws') -> aref ws' j = Some u -> aref ws j = Some u.
Proof.
  intros H. destruct (Z.eqb_spec id 0) as [->|Hne].
  { injection H as <-. exists void_words. split; [done|]. split; [done|]. intros j u Hj. by apply not_elem_of_nil in Hj. }
  pose proof (rec_of_range _ _ _ H). destruct (renamed_back l l1 w w1 Hlen Hre id ws' H ltac:(lia)) as (ws & Hws & Hr).
  exists ws. split; [done|]. split; [apply Hr|]. intros j u Hj Hu. by destruct (renamed_ref l l1 w w1 Hlen ws ws' j u Hr Hj Hu).
Qed.

Lemma renamed_refs : refs_closed w1.
Proof.
  intros id ws' j u H Hj Hu. destruct (renamed_of id ws' H) as (ws & Hws & Hi & Hr). rewrite Hlen.
  apply (Hrefs id ws j u Hws); [by rewrite <- Hi|by apply Hr].
Qed.

Lemma renamed_typed : refs_typed w1.
Proof.
  intros id ws' j u H Ht Hj Hu wu' Hwu'. destruct (renamed_of id ws' H) as (ws & Hws & Hi & Hr).
  destruct (renamed_of u wu' Hwu') as (wu & Hwu & Hiu & _). unfold wkind in *. rewrite Hiu. rewrite Hi in Ht.
  apply (Htyped id ws j u Hws Ht); [by rewrite <- Hi|by apply Hr|done].
Qed.

Lemma renamed_ranked : ranked w1 rank.
Proof.
  intros id ws' j u H Hk Hj Hu (wu' & Hwu' & Hku). destruct (renamed_of id ws' H) as (ws & Hws & Hi & Hr).
  destruct (renamed_of u wu' Hwu') as (wu & Hwu & Hiu & _). unfold wkind in *. rewrite Hi in Hk. rewrite Hiu in Hku.
  apply (Hrank id ws j u Hws Hk); [by rewrite <- Hi|by apply Hr|by exists wu].
Qed.

Lemma renamed_graph i : view (str_at l1) w1 i = view (str_at l) w i.
Proof. by apply renamed_view. Qed.

Lemma renamed_one : one_definition (view (str_at l1) w1).
Proof. eapply one_definition_ext; [|exact Hone]. intros i. symmetry. apply renamed_graph. Qed.

Lemma renamed_strs id ws' j u : 1 <= id -> rec_of w1 id = Some ws' -> j ∈ str_off_words (winfo ws') ->
  aref ws' j = Some u -> is_Some (cstr l1 u).
Proof.
  intros Hid H Hj Hu. destruct (renamed_back l l1 w w1 Hlen Hre id ws' H Hid) as (ws & Hws & Hi & Hle & Hc).
  rewrite Hi in Hj. destruct (aref_Some ws j) as [u0 Hu0]; [apply aref_bounds in Hu; lia|].
  destruct (Hc j u0 u Hu0 Hu) as [Ha _]. destruct (Ha Hj) as (t & _ & Ht). by eexists.
Qed.

Definition dedup_result (b' : bobj) : Prop := exists w' l' f, obj_ok b' w' l' /\ refs_closed w' /\
  (length w' <= length w)%nat /\
  no_loss (view (str_at l) w) (view (str_at l') w') (Z.of_nat (length w)) (Z.of_nat (length w')) f.

(** The passes over types, after the strings. *)
Lemma core_renamed d set : hrep (d_btf d) w1 (Z.of_nat (length l1)) set -> in_use set = l1 -> d_ext d = None ->
  prim_inv force w1 (str_at l1) 1 d ->
  exists err d', run_passes (core_passes alloc_ok force) 0 d = Some (err, d') /\
    (err < 0 /\ oom alloc_ok \/ err = 0 /\ d_ext d' = None /\ dedup_result (d_btf d')).
Proof.
  intros Hb Hu Hext Hp.
  destruct (core_spec alloc_ok force w1 (str_at l1) renamed_refs renamed_typed renamed_one rank renamed_ranked d _ set Hb Hext Hp)
    as (err & d' & -> & Ho). exists err, d'. split; [done|]. destruct Ho as [[Hn [_ Hf]]|(-> & He & w' & f & Hb' & Hle & Hnl & Hc & Hr)]; [by left|right].
  split; [done|]. split; [done|]. exists w', l1, f. split; [|split; [done|split; [lia|]]].
  - split; [by exists set|done|]. eapply copies_strs; [done|]. apply renamed_strs.
  - rewrite <- Hlen. eapply no_loss_ext; [|exact Hnl]. apply renamed_graph.
Qed.
End Renamed.

(** No renaming at all. *)
Lemma renamed_refl b set : hrep b w (Z.of_nat (length l)) set ->
  (forall id ws j u, 1 <= id -> rec_of w id = Some ws -> j ∈ str_off_words (winfo ws) -> aref ws j = Some u -> is_Some (cstr l u)) ->
  forall id ws, 1 <= id -> rec_of w id = Some ws ->
    exists ws', rec_of w id = Some ws' /\ rewritten (renamed l l) (str_off_words (winfo ws)) ws ws'.
Proof.
  intros Hb Hs id ws Hid Hws. exists ws. split; [done|]. split_and!; [done|done|]. intros j u u' Hu Hu'.
  rewrite Hu in Hu'. injection Hu' as <-. split; [|done]. intros Hj.
  destruct (Hs id ws j u Hid Hws Hj Hu) as [t Ht]. by exists t.
Qed.

(** The state the passes start from. *)
Lemma dedup_new_spec b deduped : trep b w ->
  exists r, btf_dedup_new alloc_ok b deduped None = Some r /\
    match r with
    | inl err => oom alloc_ok
    | inr d => d_btf d = b /\ d_ext d = None /\ d_map d = start_map w /\ dedup_table d = hashmap__init /\
        strs_set d = None /\
        d_hypot d = {| hypot_map := replicate (Z.to_nat (Z.of_nat (length w) + 1)) BTF_UNPROCESSED_ID; hypot_list := [];
                       hypot_cap := 0; hypot_adjust_canon := false |}
    end.
Proof.
  intros Hb. unfold btf_dedup_new. rewrite (type_cnt_words b w Hb).
  destruct (negb (alloc_ok 104) || negb (alloc_ok 56) || negb (alloc_ok (4 * (Z.of_nat (length w) + 1)))) eqn:Ea.
  { eexists. split; [done|]. apply orb_true_iff in Ea as [[Ea|Ea]%orb_true_iff|Ea]; apply negb_true_iff in Ea; by eexists. }
  replace (Z.to_nat (Z.of_nat (length w) + 1 - 1)) with (length w) by lia.
  rewrite (init_map_spec b w Hb) by lia. cbn [mbind option_bind]. eexists. split; [done|]. by split_and!.
Qed.

(** The passes from the strings on. *)
Lemma passes_spec d : (exists set, hrep (d_btf d) w (Z.of_nat (length l)) set /\ in_use set = l) ->
  (forall id ws j u, 1 <= id -> rec_of w id = Some ws -> j ∈ str_off_words (winfo ws) -> aref ws j = Some u -> is_Some (cstr l u)) ->
  d_ext d = None -> d_map d = start_map w -> dedup_table d = hashmap__init ->
  d_hypot d = {| hypot_map := replicate (Z.to_nat (Z.of_nat (length w) + 1)) BTF_UNPROCESSED_ID; hypot_list := [];
                 hypot_cap := 0; hypot_adjust_canon := false |} ->
  exists err d', run_passes (btf_dedup_strings alloc_ok :: core_passes alloc_ok force) 0 d = Some (err, d') /\
    (err < 0 /\ (oom alloc_ok \/ too_long l) \/ err = 0 /\ d_ext d' = None /\ dedup_result (d_btf d')).
Proof.
  intros (set & Hb & Hu) Hs Hext Hm Ht Hh. pose proof (wss_small _ _ (hr_rep _ _ _ _ Hb)) as Hsm.
  destruct (strs_deduped d) eqn:Hd.
  - assert (E : btf_dedup_strings alloc_ok d = Some (0, d)) by (unfold btf_dedup_strings; by rewrite Hd).
    rewrite (run_passes_cons _ _ _ _ _ _ E). cbn [Z.ltb Z.compare].
    destruct (core_renamed w l Hsec eq_refl (renamed_refl _ _ Hb Hs) d set Hb Hu Hext) as (err & d' & -> & Ho).
    { eapply (start_inv force w (str_at l) Hrefs d w); try done. intros i ws _ Hws. by exists ws. }
    exists err, d'. split; [done|]. destruct Ho as [[? ?]|Ho]; [left; split; [done|by left]|by right].
  - destruct Hsec as (Hl1 & Hl2 & Hl3).
    destruct (strings_spec alloc_ok l Hl1 Hl2 Hl3 None d w set Hb Hu Hext eq_refl Hs Hd) as (err & d1 & E & Ho).
    rewrite (run_passes_cons _ _ _ _ _ _ E). destruct Ho as [[Hn [_ Hf]]|(-> & He & Em & Eh & Et & w1 & set1 & Hb1 & Hsec1 & Hl & Hre)].
    { destruct (Z.ltb_spec err 0); [|lia]. exists err, d1. split; [done|]. by left. }
    cbn [Z.ltb Z.compare].
    destruct (core_renamed w1 (in_use set1) Hsec1 Hl Hre d1 set1 Hb1 eq_refl He) as (err & d' & -> & Ho).
    { eapply (start_inv force w1 (str_at (in_use set1)) (renamed_refs w1 (in_use set1) Hl Hre) d1 w); rewrite ?Hl; try congruence.
      intros i ws' Hi Hws'. destruct (renamed_back l (in_use set1) w w1 Hl Hre i ws' Hws' Hi) as (ws & Hws & Hi' & _).
      by exists ws. }
    exists err, d'. split; [done|]. destruct Ho as [[? ?]|Ho]; [left; split; [done|by left]|by right].
Qed.

(** C3: deduplication loses no definition and invents nothing.  On a
    well-formed object whose references do not form cycles of pointers,
    modifiers and the like, and in which a declaration stands for one
    definition, [btf__dedup] ends and stays inside its memory.  It fails only
    when an allocation fails or the strings do not fit; otherwise the object is
    well-formed again, has no more types, and there is a map from the old ids
    onto the new ones.  Every new type is, word for word and strings included,
    an old one that is mapped to it, with other references.  A type that is
    more than a declaration is mapped to one with its name, its numbers and its
    members, and a declaration to one it may stand for.  References lead to
    new types of old ones that describe the same as the old target, a
    declaration and what it declares counting as the same
    ([reference_weakened] shows that the code needs this). *)
Theorem btf_dedup_sound b deduped : obj_ok b w l ->
  exists err b' e, btf__dedup alloc_ok force b deduped None = Some (err, b', e) /\
    (err < 0 /\ (oom alloc_ok \/ too_long l) \/ err = 0 /\ e = None /\ dedup_result b').
Proof.
  intros [(set & Hb & Hu) _ Hs]. pose proof (hr_rep _ _ _ _ Hb) as Htr. unfold btf__dedup.
  destruct (dedup_new_spec b deduped Htr) as (r & -> & Hr). cbn [mbind option_bind]. destruct r as [err|d].
  { eexists _, _, _. split; [done|]. left. split; [lia|by left]. }
  destruct Hr as (_ & _ & Em & Et & _ & Eh). destruct (hr_hdr _ _ _ _ Hb) as (ty & cap & Hrep).
  unfold no_strs, btf_ensure_modifiable. rewrite Hrep. cbn [mbind option_bind negb Z.eqb].
  assert (Hb' : hrep (with_rep b (RSplit (bhdr (types_len w) (Z.of_nat (length l))) ty cap set)) w (Z.of_nat (length l)) set).
  { destruct Htr as [Hr ? ? ? ? ? ?]. rewrite Hrep in Hr. split; [by split|by exists ty, cap|apply (hr_so _ _ _ _ Hb)]. }
  set (d0 := {| d_btf := with_rep b _; strs_deduped := deduped || false; d_ext := None; dedup_table := dedup_table d;
    d_map := d_map d; d_hypot := d_hypot d; strs_set := strs_set d |}).
  assert (Eprep : btf_dedup_prep alloc_ok force d0 = Some (0, d0)).
  { unfold btf_dedup_prep. change (b_base (d_btf d0)) with (b_base b). by rewrite (tr_base _ _ Htr). }
  rewrite Eprep. cbn [mbind option_bind negb Z.eqb].
  destruct (passes_spec d0) as (err & d' & E & Ho); [by exists set|done|done|done|done|done|].
  unfold core_passes in E. rewrite E. cbn [mbind option_bind]. eexists _, _, _. split; [done|].
  destruct Ho as [Ho|(-> & He & Hres)]; [by left|right]. by split_and!.
Qed.
End Whole.

(** ** Comparing two types *)

(** Merging a correspondence into [map] keeps every mapped type with types
    that may take its place. *)
Definition merges b w names map hy : Prop :=
  exists map', btf_dedup_merge_hypot_map b hy map = Some map' /\
    map_ok (view names w) (Z.of_nat (length w)) map'.

(** C12: comparing the graphs of two types with [btf_dedup_is_equiv], from a
    cleared correspondence.  It ends for all types, cyclic ones included, stays
    inside its arrays and fails only when an allocation fails.  When it
    answers yes, the two types describe the same, and merging the
    correspondence maps types only to types that describe the same, none of
    them to a mere declaration of it. *)
Theorem is_equiv_sound alloc_ok b w names map hy a c :
  trep b w -> refs_closed w -> refs_typed w -> one_definition (view names w) ->
  map_ok (view names w) (Z.of_nat (length w)) map -> hy_ok w hy ->
  0 <= a <= Z.of_nat (length w) -> 0 <= c <= Z.of_nat (length w) -> typed w a ->
  exists hy0 eq hy', btf_dedup_clear_hypot_map hy = Some hy0 /\
    btf_dedup_is_equiv b alloc_ok map (S (length map)) a c hy0 = Some (eq, hy') /\ hy_ok w hy' /\
    (eq = 1 /\ equiv (view names w) a c /\
       merges b w names map hy' \/
     eq = 0 \/ eq = - ENOMEM /\ oom alloc_ok).
Proof.
  intros Hb Hrefs Htyped Hone Hm Hhy Ha Hc Ht.
  destruct (clear_hypot_spec w hy Hhy) as (hy0 & E0 & Hhy0 & Hno).
  destruct (is_equiv_spec alloc_ok b w names Hb Hrefs Htyped Hone map Hm (S (length map)) a c hy0)
    as (eq & hy' & E & Hhy' & _ & Hans); [done..| |].
  { pose proof (unmapped_le w hy0 Hhy0). pose proof (mo_len _ _ _ Hm). lia. }
  exists hy0, eq, hy'. do 3 (split; [done|]). destruct Hans as [(-> & Hrel & Hcl)|Hans]; [left|by right].
  destruct (closes_equiv w names Hrefs Hone hy0 hy' Hno Hcl) as [Hh Hr].
  split; [done|]. split; [by apply Hr|].
  destruct (merge_spec alloc_ok b w names Hb Hrefs Hone hy' Hhy' Hh map Hm) as (map' & E' & Hm' & _). by exists map'.
Qed.

(** ** An example

    Two compilation units with [struct t { struct s *p; }]; the first only
    declares [struct s], the second defines it, and their strings differ in
    place. *)

Definition ex_strs : list Z := [0] ++ lit "int" ++ [0] ++ lit "s" ++ [0] ++ lit "t" ++ [0] ++ lit "p" ++ [0] ++ lit "int" ++ [0].

Definition ex_types : list (list Z) :=
  [[1; 16777216; 4; 32];                           (* 1: int *)
   [5; 117440512; 0];                              (* 2: struct s; *)
   [0; 33554432; 2];                               (* 3: struct s * *)
   [7; 67108865; 8; 9; 3; 0];                      (* 4: struct t *)
   [11; 16777216; 4; 32];                          (* 5: int *)
   [5; 67108865; 4; 9; 5; 0];                      (* 6: struct s { int p; } *)
   [0; 33554432; 6];                               (* 7: struct s * *)
   [7; 67108865; 8; 9; 7; 0]].                     (* 8: struct t *)

Definition ex_rank (i : Z) : nat := 0.

Lemma ex_ok : object_okb ex_types ex_strs ex_rank = true.
Proof. vm_compute. reflexivity. Qed.

(** Eight types become four: the integers are one, and the pointer to the
    declaration is the pointer to the definition. *)
Definition ex_result : option (Z * Z) :=
  '(err, b, e) ← btf__dedup (fun _ => true) false (object_of ex_types ex_strs) false None; Some (err, b_nr b).

Lemma btf_dedup_sound_witness : ex_result = Some (0, 4) /\
  exists err b' e, btf__dedup (fun _ => true) false (object_of ex_types ex_strs) false None = Some (err, b', e) /\
    (err < 0 /\ (oom (fun _ => true) \/ too_long ex_strs) \/ err = 0 /\ e = None /\ dedup_result ex_types ex_strs b').
Proof.
  split; [vm_compute; reflexivity|].
  apply (btf_dedup_sound (fun _ => true) false ex_types ex_strs (check_refs _ _ _ ex_ok) (check_typed _ _ _ ex_ok)
    (check_one _ _ _ ex_ok) ex_rank (check_ranked _ _ _ ex_ok) (ob_sec _ _ _ (object_of_ok _ _ _ ex_ok))).
  exact (object_of_ok _ _ _ ex_ok).
Defined.

(** The two definitions of [struct t], before any type is mapped. *)
Definition ex_hypot : hypot :=
  {| hypot_map := replicate 9 BTF_UNPROCESSED_ID; hypot_list := []; hypot_cap := 0; hypot_adjust_canon := false |}.

Definition ex_dedup : btf_dedup :=
  {| d_btf := object_of ex_types ex_strs; strs_deduped := true; d_ext := None; dedup_table := hashmap__init;
     d_map := start_map ex_types; d_hypot := ex_hypot; strs_set := None |}.

Lemma ex_start : prim_inv false ex_types (str_at ex_strs) 1 ex_dedup.
Proof.
  apply (start_inv false ex_types (str_at ex_strs) (check_refs _ _ _ ex_ok) ex_dedup ex_types); try done.
  intros i ws _ Hws. by exists ws.
Qed.

Lemma is_equiv_sound_witness :
  match btf_dedup_is_equiv (object_of ex_types ex_strs) (fun _ => true) (start_map ex_types) 10 8 4 ex_hypot with
  | Some (eq, hy) => eq = 1 /\ hypot_list hy = [4; 3; 2]
  | None => False
  end /\
  exists hy0 eq hy', btf_dedup_clear_hypot_map ex_hypot = Some hy0 /\
    btf_dedup_is_equiv (object_of ex_types ex_strs) (fun _ => true) (start_map ex_types) 10 8 4 hy0 = Some (eq, hy') /\
    hy_ok ex_types hy' /\
    (eq = 1 /\ equiv (view (str_at ex_strs) ex_types) 8 4 /\
       merges (object_of ex_types ex_strs) ex_types (str_at ex_strs) (start_map ex_types) hy' \/
     eq = 0 \/ eq = - ENOMEM /\ oom (fun _ => true)).
Proof.
  split; [vm_compute; split; reflexivity|].
  destruct (object_of_ok _ _ _ ex_ok) as [(set & Hb & _) _ _].
  apply (is_equiv_sound (fun _ => true) (object_of ex_types ex_strs) ex_types (str_at ex_strs) (start_map ex_types) ex_hypot 8 4
    (hr_rep _ _ _ _ Hb) (check_refs _ _ _ ex_ok) (check_typed _ _ _ ex_ok) (check_one _ _ _ ex_ok)
    (pi_map _ _ _ _ _ _ (pr_inv _ _ _ _ _ ex_start)) (pi_hypot _ _ _ _ _ _ (pr_inv _ _ _ _ _ ex_start))).
  - split; [apply Z.leb_le|apply Z.leb_le]; reflexivity.
  - split; [apply Z.leb_le|apply Z.leb_le]; reflexivity.
  - intros ws Hws. injection Hws as <-. unfold type_like. done.
Defined.

(** *** What deduplication does not keep *)

(** Deduplication succeeds and leaves these types. *)
Definition dedups_to (types types' : list (list Z)) (strs : list Z) : bool :=
  match btf__dedup (fun _ => true) false (object_of types strs) false None with
  | Some (err, b, _) =>
      (err =? 0) && (b_nr b =? Z.of_nat (length types')) &&
      match b_rep b with
      | RSplit _ t _ _ => bool_decide (take (length (types_bytes types')) t = types_bytes types')
      | _ => false
      end
  | None => false
  end.

Definition ex_merge_strs : list Z :=
  [0] ++ lit "int" ++ [0] ++ lit "b" ++ [0] ++ lit "s" ++ [0] ++ lit "p" ++ [0] ++ lit "t" ++ [0] ++ lit "u" ++ [0] ++
  lit "q" ++ [0].

(** Three compilation units.  The first defines [struct s] with the member [p]
    of type [m1]; the second only declares it, and uses it in [t] and [u]; the
    third defines it with the member at [nm] of type [m2], and uses it in [u]. *)
Definition ex_merge (m1 m2 nm : Z) : list (list Z) :=
  [[1; 16777216; 4; 32];             (* 1: int *)
   [5; 117440512; 0];                (* 2: struct b; *)
   [0; 33554432; 2];                 (* 3: struct b * *)
   [7; 67108865; 8; 9; m1; 0];      (* 4: struct s *)
   [0; 33554432; 4];                 (* 5: struct s * *)
   [11; 67108865; 8; 9; 5; 0];       (* 6: struct t { struct s *p; } *)
   [7; 117440512; 0];               (* 7: struct s; *)
   [0; 33554432; 7];                 (* 8: struct s * *)
   [13; 67108865; 8; 9; 8; 0];       (* 9: struct u { struct s *p; } *)
   [0; 33554432; 15];                (* 10: struct s * *)
   [13; 67108865; 8; 9; 10; 0];      (* 11: struct u { struct s *p; } *)
   [11; 67108865; 8; 9; 8; 0];       (* 12: struct t { struct s *p; } *)
   [5; 67108865; 4; 9; 1; 0];        (* 13: struct b { int p; } *)
   [0; 33554432; 13];                (* 14: struct b * *)
   [7; 67108865; 8; nm; m2; 0]].    (* 15: struct s *)

(** The declaration is resolved to the third unit's [struct s] when the two
    [u] are compared, and this to the first unit's when the two [t] are.  The
    two definitions are never compared, and the third unit's is dropped.  If it
    said more about the type of its member, as with the definition of [struct b],
    this is lost, and the pointer leads to the declaration (types 4, 3, 2); if it
    is another struct of that name, as with the member [int q], so is it. *)
Fact reference_weakened :
  dedups_to (ex_merge 3 14 9)
    [[1; 16777216; 4; 32]; [5; 117440512; 0]; [0; 33554432; 2]; [7; 67108865; 8; 9; 3; 0];
     [0; 33554432; 4]; [11; 67108865; 8; 9; 5; 0]; [13; 67108865; 8; 9; 5; 0];
     [5; 67108865; 4; 9; 1; 0]; [0; 33554432; 8]] ex_merge_strs = true.
Proof. vm_compute. reflexivity. Qed.

Fact definition_dropped :
  dedups_to (ex_merge 3 1 15)
    [[1; 16777216; 4; 32]; [5; 117440512; 0]; [0; 33554432; 2]; [7; 67108865; 8; 9; 3; 0];
     [0; 33554432; 4]; [11; 67108865; 8; 9; 5; 0]; [13; 67108865; 8; 9; 5; 0];
     [5; 67108865; 4; 9; 1; 0]; [0; 33554432; 8]] ex_merge_strs = true.
Proof. vm_compute. reflexivity. Qed.
