(* ===== verification/ProgLinfo.v ===== *)
(** * Line information of a loaded program (src/plugin/libbpf-test/libbpf/src/bpf_prog_linfo.c)

    The kernel hands out the lines of a program twice: by instruction, and by
    the address of the machine code.  [bpf_prog_linfo__new] copies both and
    finds out which of the latter belong to which function; the lookups find
    the line of an instruction or of an address.

    The arrays the kernel filled are lists: of bytes for the records, whose
    size the kernel chooses, of numbers for the functions.  A malloc'ed array
    holds [None] where nothing was stored.  Allocation is the parameter
    [alloc_ok].  The functions return [inl errno] for NULL; an outer [None] is
    undefined behaviour. *)

From S2P Require Import Prelude.

(** The fields of [struct bpf_prog_info] that are used. *)
Record bpf_prog_info := ProgInfo {
  nr_line_info : Z;
  line_info_rec_size : Z;
  line_info : list Z;
  nr_jited_ksyms : Z;
  jited_ksyms : option (list Z);
  nr_jited_func_lens : Z;
  jited_func_lens : option (list Z);
  nr_jited_line_info : Z;
  jited_line_info_rec_size : Z;
  jited_line_info : option (list Z);
}.

Record bpf_prog_linfo := ProgLinfo {
  raw_linfo : list Z;
  raw_jited_linfo : list Z;
  nr_jited_linfo_per_func : list (option Z);
  jited_linfo_func_idx : list (option Z);
  nr_linfo : Z;
  nr_jited_func : Z;
  rec_size : Z;
  jited_rec_size : Z;
}.

Definition ld64 (m : list Z) (off : Z) : option Z :=
  lo ← ld32 m off; hi ← ld32 m (off + 4); Some (lo + hi * 4294967296).

(** ** Finding the functions *)

(** The loop of [dissect_jited_func], for [n] more records from [i] on; [cur]
    is the address of the record before.  The result has the next function,
    its predecessor's first record and the two arrays. *)
Fixpoint dissect_loop (n : nat) (m : list Z) (jrec : Z) (ksym_func ksym_len : list Z) (nr_func : Z)
    (i f prev_i cur : Z) (idx per : list (option Z))
    : option (Z + Z * Z * list (option Z) * list (option Z)) :=
  match n with
  | O => Some (inr (f, prev_i, idx, per))
  | S n =>
      if negb (f <? nr_func) then Some (inr (f, prev_i, idx, per)) else
      let last := cur in
      cur ← ld64 m (i * jrec);
      k ← aref ksym_func f;
      if k =? cur then
        idx ← aset idx f (Some i);
        kp ← aref ksym_func (f - 1);
        kl ← aref ksym_len (f - 1);
        if u64 (last - kp + 1) >? kl then Some (inl (- EINVAL)) else
        per ← aset per (f - 1) (Some (i - prev_i));
        dissect_loop n m jrec ksym_func ksym_len nr_func (i + 1) (f + 1) i cur idx per
      else if cur <=? last then Some (inl (- EINVAL)) else
      dissect_loop n m jrec ksym_func ksym_len nr_func (i + 1) f prev_i cur idx per
  end.

Definition with_funcs (o : bpf_prog_linfo) (idx per : list (option Z)) : bpf_prog_linfo :=
  {| raw_linfo := raw_linfo o; raw_jited_linfo := raw_jited_linfo o; nr_jited_linfo_per_func := per;
     jited_linfo_func_idx := idx; nr_linfo := nr_linfo o; nr_jited_func := nr_jited_func o;
     rec_size := rec_size o; jited_rec_size := jited_rec_size o |}.

Definition dissect_jited_func (o : bpf_prog_linfo) (ksym_func ksym_len : list Z)
    : option (Z * bpf_prog_linfo) :=
  cur ← ld64 (raw_jited_linfo o) 0;
  k ← aref ksym_func 0;
  if negb (k =? cur) then Some (- EINVAL, o) else
  idx ← aset (jited_linfo_func_idx o) 0 (Some 0);
  r ← dissect_loop (Z.to_nat (nr_linfo o - 1)) (raw_jited_linfo o) (jited_rec_size o) ksym_func
        ksym_len (nr_jited_func o) 1 1 0 cur idx (nr_jited_linfo_per_func o);
  match r with
  | inl err => Some (err, o)
  | inr (f, prev_i, idx, per) =>
      if negb (f =? nr_jited_func o) then Some (- EINVAL, o) else
      per ← aset per (nr_jited_func o - 1) (Some (nr_linfo o - prev_i));
      Some (0, with_funcs o idx per)
  end.

Section New.
Context (alloc_ok : Z -> bool).

(** Whether the kernel gave the lines by address. *)
Definition jited_given (info : bpf_prog_info) : bool :=
  negb ((nr_jited_ksyms info =? 0) || bool_decide (jited_line_info info = None)
        || negb (nr_jited_line_info info =? nr_line_info info) || (jited_line_info_rec_size info <? 8)
        || negb (nr_jited_func_lens info =? nr_jited_ksyms info)
        || bool_decide (jited_ksyms info = None) || bool_decide (jited_func_lens info = None)).

Definition bpf_prog_linfo__new (info : bpf_prog_info) : option (Z + bpf_prog_linfo) :=
  let nr := nr_line_info info in
  if nr =? 0 then Some (inl EINVAL) else
  if line_info_rec_size info <? 4 then Some (inl EINVAL) else
  if negb (alloc_ok 48) then Some (inl ENOMEM) else
  let data_sz := nr * line_info_rec_size info in
  if negb (alloc_ok data_sz) then Some (inl EINVAL) else
  raw ← ld_bytes (line_info info) 0 (Z.to_nat data_sz);
  let o := {| raw_linfo := raw; raw_jited_linfo := []; nr_jited_linfo_per_func := [];
              jited_linfo_func_idx := []; nr_linfo := nr; nr_jited_func := 0;
              rec_size := line_info_rec_size info; jited_rec_size := 0 |} in
  if negb (jited_given info) then Some (inr o) else
  let nf := nr_jited_ksyms info in
  let jited_sz := nr * jited_line_info_rec_size info in
  if negb (alloc_ok jited_sz) then Some (inl EINVAL) else
  jl ← jited_line_info info;
  jited ← ld_bytes jl 0 (Z.to_nat jited_sz);
  if negb (alloc_ok (nf * 4)) then Some (inl EINVAL) else
  ksyms ← jited_ksyms info; lens ← jited_func_lens info;
  '(err, o) ← dissect_jited_func
     {| raw_linfo := raw; raw_jited_linfo := jited;
        nr_jited_linfo_per_func := replicate (Z.to_nat nf) None;
        jited_linfo_func_idx := replicate (Z.to_nat nf) None; nr_linfo := nr; nr_jited_func := nf;
        rec_size := line_info_rec_size info; jited_rec_size := jited_line_info_rec_size info |} ksyms lens;
  if negb (err =? 0) then Some (inl EINVAL) else Some (inr o).
End New.

(** ** Lookups

    The result is the offset of a record in [raw_linfo]. *)

Fixpoint addr_loop (n : nat) (m : list Z) (addr rec jrec raw jraw : Z) : option Z :=
  match n with
  | O => Some raw
  | S n =>
      a ← ld64 m jraw;
      if addr <? a then Some raw else addr_loop n m addr rec jrec (raw + rec) (jraw + jrec)
  end.

Definition bpf_prog_linfo__lfind_addr_func (o : bpf_prog_linfo) (addr func_idx nr_skip : Z)
    : option (Z + Z) :=
  if func_idx >=? nr_jited_func o then Some (inl ENOENT) else
  nr ← mjoin (aref (nr_jited_linfo_per_func o) func_idx);
  if nr_skip >=? nr then Some (inl ENOENT) else
  idx ← mjoin (aref (jited_linfo_func_idx o) func_idx);
  let start := u32 (idx + nr_skip) in
  let jraw := u32 (start * jited_rec_size o) in
  a ← ld64 (raw_jited_linfo o) jraw;
  if addr <? a then Some (inl ENOENT) else
  raw ← addr_loop (Z.to_nat (nr - nr_skip)) (raw_jited_linfo o) addr (rec_size o) (jited_rec_size o)
          (u32 (start * rec_size o)) jraw;
  Some (inr (raw - rec_size o)).

Fixpoint insn_loop (n : nat) (m : list Z) (insn_off rec raw : Z) : option Z :=
  match n with
  | O => Some raw
  | S n =>
      a ← ld32 m raw;
      if insn_off <? a then Some raw else insn_loop n m insn_off rec (raw + rec)
  end.

Definition bpf_prog_linfo__lfind (o : bpf_prog_linfo) (insn_off nr_skip : Z) : option (Z + Z) :=
  if nr_skip >=? nr_linfo o then Some (inl ENOENT) else
  let raw := u32 (nr_skip * rec_size o) in
  a ← ld32 (raw_linfo o) raw;
  if insn_off <? a then Some (inl ENOENT) else
  raw ← insn_loop (Z.to_nat (nr_linfo o - nr_skip)) (raw_linfo o) insn_off (rec_size o) raw;
  Some (inr (raw - rec_size o)).

(** ** What dissecting decides

    [J i] is the address of line [i], [K f] that of function [f], [L f] the
    length of its code. *)

Fixpoint diffs (l : list Z) : list Z :=
  match l with
  | a :: (b :: _) as l' => b - a :: diffs l'
  | _ => []
  end.

Lemma diffs_snoc l prev x : aref l (Z.of_nat (length l) - 1) = Some prev -> diffs (l ++ [x]) = diffs l ++ [x - prev].
Proof.
  induction l as [|a [|b l] IH]; [done| |].
  - cbn. by intros [= ->].
  - intros H. change (diffs ((a :: b :: l) ++ [x])) with (b - a :: diffs ((b :: l) ++ [x])). rewrite IH; [done|].
    rewrite <- H. unfold aref. cbn [length]. destruct (Z.ltb_spec (Z.of_nat (S (length l)) - 1) 0); [lia|].
    destruct (Z.ltb_spec (Z.of_nat (S (S (length l))) - 1) 0); [lia|].
    replace (Z.to_nat (Z.of_nat (S (S (length l))) - 1)) with (S (Z.to_nat (Z.of_nat (S (length l)) - 1))) by lia. done.
Qed.

Lemma diffs_length l : length (diffs l) = (length l - 1)%nat.
Proof. induction l as [|a [|b l] IH]; [done|done|]. cbn [diffs length] in *. rewrite IH. lia. Qed.

Lemma aset_fill (l : list Z) n x : (length l < n)%nat ->
  aset (map Some l ++ replicate (n - length l) None) (Z.of_nat (length l)) (Some x) =
  Some (map Some (l ++ [x]) ++ replicate (n - length (l ++ [x])) None).
Proof.
  intros H. rewrite aset_nat by (rewrite length_app, length_map, length_replicate; lia). f_equal.
  replace (n - length l)%nat with (S (n - length (l ++ [x]))) by (rewrite length_app; cbn; lia).
  rewrite insert_app_r_alt by (rewrite length_map; lia). rewrite length_map, Nat.sub_diag. cbn [replicate list_insert].
  by rewrite map_app, <- app_assoc.
Qed.

Lemma aref_snoc {A} (l : list A) x i v : aref (l ++ [x]) i = Some v ->
  aref l i = Some v \/ i = Z.of_nat (length l) /\ v = x.
Proof.
  intros H. rewrite aref_app in H. destruct (Z.ltb_spec i (Z.of_nat (length l))); [by left|right].
  pose proof (aref_bounds _ _ _ H). cbn in *. assert (i - Z.of_nat (length l) = 0) as E by lia.
  rewrite E in H. injection H as <-. split; [lia|done].
Qed.

Section Dissect.
Context (m : list Z) (jrec : Z) (K L : list Z) (nl : Z).

Definition J (i : Z) : option Z := ld64 m (i * jrec).

(** Functions [f], [f + 1] have their first lines at [s] and [t]: the lines
    between have increasing addresses, none of them that of the next function,
    and lie in the code of function [f]. *)
Record segment (f s t : Z) : Prop := {
  sg_lt : s < t;
  sg_inside i : s < i < t -> exists a a' k, J (i - 1) = Some a /\ J i = Some a' /\
    aref K (f + 1) = Some k /\ a < a' /\ a' <> k;
  sg_code : exists a k n, J (t - 1) = Some a /\ aref K f = Some k /\ aref L f = Some n /\ u64 (a - k + 1) <= n;
}.

(** [starts] are the first lines of the functions, as far as found. *)
Record segs (starts : list Z) : Prop := {
  di_head : aref starts 0 = Some 0;
  di_start f s : aref starts f = Some s -> 0 <= s < nl /\ exists a, J s = Some a /\ aref K f = Some a;
  di_seg f s t : aref starts f = Some s -> aref starts (f + 1) = Some t -> segment f s t;
}.

(** The lines of all [nf] functions. *)
Definition dissects (nf : Z) (starts : list Z) : Prop := segs starts /\ Z.of_nat (length starts) = nf.

Context (Hm : forall i, 0 <= i < nl -> is_Some (J i)).

Lemma segs_start : 0 < nl -> J 0 = aref K 0 -> is_Some (aref K 0) -> segs [0].
Proof.
  intros Hnl HJ [k Hk]. split; [done| |].
  - intros f s Hs. pose proof (aref_bounds _ _ _ Hs). cbn in *. assert (f = 0) as -> by lia. injection Hs as <-.
    split; [lia|]. exists k. by rewrite HJ.
  - intros f s t Hs%aref_bounds Ht%aref_bounds. cbn in *. exfalso. lia.
Qed.

Lemma segs_snoc l s t a : segs l -> aref l (Z.of_nat (length l) - 1) = Some s -> 0 <= t < nl ->
  J t = Some a -> aref K (Z.of_nat (length l)) = Some a -> segment (Z.of_nat (length l) - 1) s t -> segs (l ++ [t]).
Proof.
  intros [Hh Hst Hsg] Hlast Ht Ha Hk Hseg. split.
  - pose proof (aref_bounds _ _ _ Hh). rewrite aref_app. destruct (Z.ltb_spec 0 (Z.of_nat (length l))); [done|lia].
  - intros f u [Hu|[-> ->]]%aref_snoc; [by apply Hst|]. split; [done|by exists a].
  - intros f u v [Hu|[Hf ->]]%aref_snoc Hv.
    + apply aref_snoc in Hv as [Hv|[Hf ->]]; [by apply Hsg|]. assert (f = Z.of_nat (length l) - 1) as -> by lia. congruence.
    + apply aref_bounds in Hv. rewrite length_app in Hv. cbn in Hv. exfalso. lia.
Qed.

(** Two ways to dissect agree as far as both go. *)
Lemma segs_agree l l' : segs l -> segs l' -> forall f, f < Z.of_nat (length l) -> f < Z.of_nat (length l') ->
  aref l f = aref l' f.
Proof.
  intros Hl Hl'. assert (H : forall n : nat, forall f, f < Z.of_nat n -> f < Z.of_nat (length l) ->
    f < Z.of_nat (length l') -> aref l f = aref l' f); [|by intros; apply (H (length l))].
  induction n as [|n IH]; intros f Hn Hf Hf'.
  { unfold aref. destruct (Z.ltb_spec f 0); [done|lia]. }
  destruct (Z_lt_dec f 0); [unfold aref; by destruct (Z.ltb_spec f 0); [|lia]|].
  destruct (Z.eq_dec f 0) as [->|]; [by rewrite (di_head l), (di_head l')|].
  destruct (aref_Some l f) as [s Hs], (aref_Some l' f) as [s' Hs']; [lia..|].
  destruct (aref_Some l (f - 1)) as [p Hp]; [lia|]. assert (Hp' : aref l' (f - 1) = Some p) by (rewrite <- IH; done || lia).
  assert (Hs1 : aref l (f - 1 + 1) = Some s) by (by rewrite Z.sub_add).
  assert (Hs1' : aref l' (f - 1 + 1) = Some s') by (by rewrite Z.sub_add).
  destruct (di_start l Hl f s Hs) as (_ & a & Ha & Hk), (di_start l' Hl' f s' Hs') as (_ & a' & Ha' & Hk').
  assert (E : s = s'); [|by rewrite Hs, Hs', E].
  destruct (Z.lt_trichotomy s s') as [Hlt|[->|Hlt]]; [|done|]; exfalso.
  - destruct (sg_inside _ _ _ (di_seg l' Hl' (f - 1) p s' Hp' Hs1') s) as (? & a2 & k & _ & ? & ? & _ & ?);
      [pose proof (sg_lt _ _ _ (di_seg l Hl (f - 1) p s Hp Hs1)); lia|].
    rewrite Z.sub_add in *. congruence.
  - destruct (sg_inside _ _ _ (di_seg l Hl (f - 1) p s Hp Hs1) s') as (? & a2 & k & _ & ? & ? & _ & ?);
      [pose proof (sg_lt _ _ _ (di_seg l' Hl' (f - 1) p s' Hp' Hs1')); lia|].
    rewrite Z.sub_add in *. congruence.
Qed.

Context (nf : Z).

(** The arrays, with the functions of [l] found. *)
Definition idx_of (l : list Z) : list (option Z) :=
  map Some l ++ replicate (Z.to_nat nf - length l) None.

Definition per_of (l : list Z) : list (option Z) :=
  map Some (diffs l) ++ replicate (Z.to_nat nf - length (diffs l)) None.

Lemma idx_snoc l x : Z.of_nat (length l) < nf -> aset (idx_of l) (Z.of_nat (length l)) (Some x) = Some (idx_of (l ++ [x])).
Proof. intros. apply aset_fill. lia. Qed.

Lemma per_snoc l prev x : aref l (Z.of_nat (length l) - 1) = Some prev -> Z.of_nat (length l) <= nf ->
  aset (per_of l) (Z.of_nat (length l) - 1) (Some (x - prev)) =
  Some (map Some (diffs l ++ [x - prev]) ++ replicate (Z.to_nat nf - length (diffs l ++ [x - prev])) None).
Proof.
  intros Hp%aref_bounds Hf. replace (Z.of_nat (length l) - 1) with (Z.of_nat (length (diffs l))) by (rewrite diffs_length; lia).
  apply aset_fill. rewrite diffs_length. lia.
Qed.

Context (HK : nf <= Z.of_nat (length K)) (HL : nf <= Z.of_nat (length L)).

Record searching (l : list Z) (f i prev cur : Z) : Prop := {
  sr_segs : segs l;
  sr_len : Z.of_nat (length l) = f /\ 1 <= f <= nf;
  sr_prev : aref l (f - 1) = Some prev /\ prev < i <= nl;
  sr_cur : J (i - 1) = Some cur;
  sr_pending j : f < nf -> prev < j < i -> exists a a' k, J (j - 1) = Some a /\ J j = Some a' /\
    aref K f = Some k /\ a < a' /\ a' <> k;
}.

(** If more functions are to be found, none of the lines before [i] is the
    first of the next. *)
Lemma next_start l f i prev cur starts : searching l f i prev cur -> f < nf -> dissects nf starts ->
  aref starts (f - 1) = Some prev /\ exists s, aref starts f = Some s /\ i <= s /\ segment (f - 1) prev s.
Proof.
  intros [Hl [Hlen ?] [Hprev ?] _ Hpend] Hf [Hs Hns].
  assert (Hp : aref starts (f - 1) = Some prev) by (rewrite <- (segs_agree l starts Hl Hs); [done|lia..]).
  split; [done|]. destruct (aref_Some starts f) as [s Hsf]; [lia|]. exists s. split; [done|].
  assert (Hseg : segment (f - 1) prev s) by (apply (di_seg _ Hs); [done|by rewrite Z.sub_add]). split; [|done].
  destruct (Z_lt_dec s i); [|lia]. exfalso. pose proof (sg_lt _ _ _ Hseg).
  destruct (Hpend s) as (? & a & k & _ & ? & ? & _ & ?); [done|lia|].
  destruct (di_start _ Hs f s Hsf) as (_ & a' & ? & ?). congruence.
Qed.

Lemma searching_next l f i prev cur c k : searching l f i prev cur -> i < nl -> f < nf -> J i = Some c ->
  aref K f = Some k -> k <> c -> cur < c -> searching l f (i + 1) prev c.
Proof.
  intros [Hl Hlen Hprev Hcur Hpend] Hi Hf Hc Hk Hne Hlt. split; [done|done|split; [apply Hprev|lia]|by rewrite Z.add_simpl_r|].
  intros j _ Hj. destruct (Z.eq_dec j i) as [->|]; [|apply Hpend; lia]. by exists cur, c, k.
Qed.

Lemma searching_found l f i prev cur c : searching l f i prev cur -> i < nl -> f < nf -> J i = Some c ->
  aref K f = Some c -> segment (f - 1) prev i -> searching (l ++ [i]) (f + 1) (i + 1) i c.
Proof.
  intros [Hl [<- ?] [Hprev ?] Hcur Hpend] Hi Hf Hc Hk Hseg. pose proof (di_start l Hl _ _ Hprev) as [? _].
  split.
  - apply (segs_snoc l prev i c); [done|done|lia|done|done|done].
  - rewrite length_app. cbn. lia.
  - rewrite Z.add_simpl_r, aref_app, Z.ltb_irrefl, Z.sub_diag. split; [done|lia].
  - by rewrite Z.add_simpl_r.
  - intros j _ Hj. lia.
Qed.

Definition dissected_ok (r : Z + Z * Z * list (option Z) * list (option Z)) : Prop :=
  match r with
  | inl err => err = - EINVAL /\ forall starts, ~ dissects nf starts
  | inr (f, prev, idx, per) => exists l, idx = idx_of l /\ per = per_of l /\ segs l /\ Z.of_nat (length l) = f /\
      aref l (f - 1) = Some prev /\ (f = nf \/ forall starts, ~ dissects nf starts)
  end.

Lemma dissect_loop_spec n : forall l f i prev cur, searching l f i prev cur -> Z.of_nat n = nl - i ->
  exists r, dissect_loop n m jrec K L nf i f prev cur (idx_of l) (per_of l) = Some r /\ dissected_ok r.
Proof.
  induction n as [|n IH]; intros l f i prev cur Hsr Hn; cbn [dissect_loop].
  { eexists. split; [done|]. exists l. destruct Hsr as [Hl [Hlen ?] [Hprev ?] Hcur Hpend] eqn:E.
    do 5 (split; [done|]). destruct (Z.eq_dec f nf); [by left|right]. intros starts Hs.
    destruct (next_start l f i prev cur starts) as (_ & s & Hsf & ? & _); [done|lia|done|].
    destruct Hs as [Hs _]. destruct (di_start _ Hs f s Hsf). lia. }
  destruct (Z.ltb_spec f nf) as [Hf|Hf]; cbn [negb].
  2: { eexists. split; [done|]. exists l. destruct Hsr as [Hl [Hlen ?] [Hprev ?] Hcur Hpend].
       do 5 (split; [done|]). left. lia. }
  pose proof (sr_prev _ _ _ _ _ Hsr) as [Hprev Hpi]. pose proof (sr_len _ _ _ _ _ Hsr) as [Hlen Hf1].
  pose proof (di_start _ (sr_segs _ _ _ _ _ Hsr) _ _ Hprev) as (Hp0 & kp' & _ & Hkp).
  destruct (Hm i) as [c Hc]; [lia|]. fold (J i). rewrite Hc. cbn [mbind option_bind].
  destruct (aref_Some K f) as [k Hk]; [lia|]. rewrite Hk. cbn [mbind option_bind].
  destruct (Z.eqb_spec k c) as [->|Hne].
  - rewrite <- Hlen, idx_snoc by lia. cbn [mbind option_bind]. rewrite Hlen, Hkp. cbn [mbind option_bind].
    destruct (aref_Some L (f - 1)) as [kl Hkl]; [lia|]. rewrite Hkl. cbn [mbind option_bind].
    destruct (Z.gtb_spec (u64 (cur - kp' + 1)) kl) as [Hgt|Hle].
    + eexists. split; [done|]. split; [done|]. intros starts Hs.
      destruct (next_start l f i prev cur starts Hsr Hf Hs) as (Hsp & s & Hsf & Hge & Hseg).
      destruct (Z.eq_dec s i) as [->|].
      * destruct (sg_code _ _ _ Hseg) as (? & ? & ? & E1 & E2 & E3 & ?). rewrite (sr_cur _ _ _ _ _ Hsr) in E1. simplify_eq. lia.
      * destruct (sg_inside _ _ _ Hseg i) as (? & ? & ? & _ & ? & E & _ & ?); [lia|]. rewrite Z.sub_add in E. congruence.
    + rewrite <- Hlen, (per_snoc l prev) by (done || lia || by rewrite Hlen). cbn [mbind option_bind].
      rewrite <- (diffs_snoc l prev) by (by rewrite Hlen). fold (per_of (l ++ [i])). rewrite Hlen. apply IH; [|lia].
      apply (searching_found l f i prev cur); [done|lia|done|done|done|].
      split; [lia|intros j Hj; rewrite Z.sub_add; apply (sr_pending _ _ _ _ _ Hsr); lia|].
      exists cur, kp', kl. split; [apply (sr_cur _ _ _ _ _ Hsr)|done].
  - destruct (Z.leb_spec c cur).
    + eexists. split; [done|]. split; [done|]. intros starts Hs.
      destruct (next_start l f i prev cur starts Hsr Hf Hs) as (Hsp & s & Hsf & Hge & Hseg).
      destruct (Z.eq_dec s i) as [->|].
      * destruct Hs as [Hs _]. destruct (di_start _ Hs f i Hsf) as (_ & ? & ? & ?). congruence.
      * destruct (sg_inside _ _ _ Hseg i) as (? & ? & ? & E & ? & _ & ? & _); [lia|]. rewrite (sr_cur _ _ _ _ _ Hsr) in E.
        simplify_eq. lia.
    + apply IH; [|lia]. by apply (searching_next l f i prev cur c k); [|lia|..].
Qed.
End Dissect.

(** ** The new object *)

Record info_ok (info : bpf_prog_info) : Prop := {
  io_nr : 0 <= nr_line_info info < 2 ^ 32;
  io_lines : nr_line_info info * line_info_rec_size info <= Z.of_nat (length (line_info info));
  io_rec : 0 <= line_info_rec_size info;
  io_funcs : 0 <= nr_jited_ksyms info < 2 ^ 32;
  io_jited m : jited_line_info info = Some m ->
    nr_line_info info * jited_line_info_rec_size info <= Z.of_nat (length m);
  io_ksyms K : jited_ksyms info = Some K -> nr_jited_ksyms info <= Z.of_nat (length K);
  io_lens L : jited_func_lens info = Some L -> nr_jited_func_lens info <= Z.of_nat (length L);
}.

(** The functions of [o] start at the lines [starts]. *)
Record dissected (o : bpf_prog_linfo) (K L starts : list Z) : Prop := {
  ds_rec : 8 <= jited_rec_size o;
  ds_size : Z.of_nat (length (raw_jited_linfo o)) = nr_linfo o * jited_rec_size o;
  ds_segs : dissects (raw_jited_linfo o) (jited_rec_size o) K L (nr_linfo o) (nr_jited_func o) starts;
  ds_idx : jited_linfo_func_idx o = map Some starts;
  ds_per : nr_jited_linfo_per_func o = map Some (diffs (starts ++ [nr_linfo o]));
}.

Lemma ld64_Some m o : 0 <= o -> o + 8 <= Z.of_nat (length m) -> is_Some (ld64 m o).
Proof.
  intros. unfold ld64. destruct (ld32_Some m o) as [a Ha], (ld32_Some m (o + 4)) as [b Hb]; [lia..|].
  rewrite Ha. cbn [mbind option_bind]. rewrite Hb. by eexists.
Qed.

Lemma J_Some m jrec nl i : 8 <= jrec -> nl * jrec <= Z.of_nat (length m) -> 0 <= i < nl -> is_Some (J m jrec i).
Proof. intros. apply ld64_Some; nia. Qed.

Lemma fill_all (l : list Z) n : n = length l -> map Some l ++ replicate (n - length l) None = map Some l.
Proof. intros ->. by rewrite Nat.sub_diag, app_nil_r. Qed.

Lemma dissect_spec o K L nf : nr_jited_func o = nf -> 0 < nf -> 0 < nr_linfo o -> 8 <= jited_rec_size o ->
  Z.of_nat (length (raw_jited_linfo o)) = nr_linfo o * jited_rec_size o ->
  nf <= Z.of_nat (length K) -> nf <= Z.of_nat (length L) ->
  nr_jited_linfo_per_func o = replicate (Z.to_nat nf) None -> jited_linfo_func_idx o = replicate (Z.to_nat nf) None ->
  exists err o', dissect_jited_func o K L = Some (err, o') /\
    (err = - EINVAL /\ (forall starts, ~ dissects (raw_jited_linfo o) (jited_rec_size o) K L (nr_linfo o) nf starts) \/
     err = 0 /\ (exists idx per, o' = with_funcs o idx per) /\ exists starts, dissected o' K L starts).
Proof.
  intros Hnf Hpos Hnl Hrec Hsz HK HL Hper Hidx. set (m := raw_jited_linfo o) in *. set (nl := nr_linfo o) in *.
  assert (HJ : forall i, 0 <= i < nl -> is_Some (J m (jited_rec_size o) i)) by (intros; apply (J_Some _ _ nl); lia).
  destruct (HJ 0) as [c Hc]; [lia|]. unfold dissect_jited_func. fold m nl. assert (Hc0 : ld64 m 0 = Some c) by exact Hc. rewrite Hc0.
  cbn [mbind option_bind]. destruct (aref_Some K 0) as [k Hk]; [lia|]. rewrite Hk. cbn [mbind option_bind].
  destruct (Z.eqb_spec k c) as [->|Hne]; cbn [negb].
  2: { eexists _, _. split; [done|]. left. split; [done|]. intros starts [Hs _].
       destruct (di_start _ _ _ _ _ _ Hs 0 0 (di_head _ _ _ _ _ _ Hs)) as (_ & a & Ha & Hka). congruence. }
  assert (Hs0 : segs m (jited_rec_size o) K L nl [0]).
  { apply segs_start; [lia|by rewrite Hc, Hk|by eexists]. }
  replace (aset (jited_linfo_func_idx o) 0 (Some 0)) with (Some (idx_of nf [0])).
  2: { rewrite Hidx. symmetry. pose proof (idx_snoc nf [] 0) as E. unfold idx_of in E at 1. cbn [length map app] in E.
       rewrite Nat.sub_0_r in E. apply E. cbn. lia. }
  cbn [mbind option_bind]. rewrite Hper, Hnf. replace (replicate (Z.to_nat nf) None) with (per_of nf [0])
    by (unfold per_of; cbn; by rewrite Nat.sub_0_r).
  destruct (dissect_loop_spec m (jited_rec_size o) K L nl HJ nf HK HL (Z.to_nat (nl - 1)) [0] 1 1 0 c) as (r & -> & Hr).
  - split; [done|cbn; lia|split; [done|lia]|by rewrite Z.sub_diag|lia].
  - lia.
  - cbn [mbind option_bind]. destruct r as [err|[[[f prev] idx] per]].
    { destruct Hr as [-> Hr]. eexists _, _. split; [done|]. by left. }
    destruct Hr as (l & -> & -> & Hl & Hlen & Hprev & Hf). destruct (Z.eqb_spec f nf) as [->|Hne]; cbn [negb].
    2: { eexists _, _. split; [done|]. left. split; [done|]. by destruct Hf as [?|?]. }
    rewrite <- Hlen in Hprev |- *. rewrite (per_snoc (Z.of_nat (length l)) l prev) by (done || lia). cbn [mbind option_bind].
    eexists _, _. split; [done|]. right. split; [done|]. split; [by eexists _, _|]. exists l.
    split; cbn; [done|done|by rewrite Hnf|apply fill_all; lia|].
    fold nl. rewrite (diffs_snoc l prev nl) by done. apply fill_all. rewrite length_app, diffs_length. cbn.
    pose proof (aref_bounds _ _ _ Hprev). lia.
Qed.

Definition copied (info : bpf_prog_info) (o : bpf_prog_linfo) : Prop :=
  nr_linfo o = nr_line_info info /\ rec_size o = line_info_rec_size info /\
  raw_linfo o = take (Z.to_nat (nr_line_info info * line_info_rec_size info)) (line_info info).

Lemma ld_bytes_take m n : (n <= length m)%nat -> ld_bytes m 0 n = Some (take n m).
Proof.
  intros H. pose proof (ld_bytes_app (take n m) [] (drop n m)) as E. cbn [app length] in E.
  rewrite take_drop, length_take, Nat.min_l in E by lia. exact E.
Qed.

(** Why there is no object. *)
Definition refused (alloc_ok : Z -> bool) (info : bpf_prog_info) (err : Z) : Prop :=
  (err = ENOMEM \/ err = EINVAL) /\
  (nr_line_info info = 0 \/ line_info_rec_size info < 4 \/ (exists k, alloc_ok k = false) \/
   exists m K L, jited_line_info info = Some m /\ jited_ksyms info = Some K /\ jited_func_lens info = Some L /\
     forall starts, ~ dissects (take (Z.to_nat (nr_line_info info * jited_line_info_rec_size info)) m)
       (jited_line_info_rec_size info) K L (nr_line_info info) (nr_jited_ksyms info) starts).

(** The object has the lines by address, by function. *)
Definition has_funcs (info : bpf_prog_info) (o : bpf_prog_linfo) : Prop :=
  exists m K L starts, jited_line_info info = Some m /\ jited_ksyms info = Some K /\ jited_func_lens info = Some L /\
    raw_jited_linfo o = take (Z.to_nat (nr_line_info info * jited_line_info_rec_size info)) m /\
    jited_rec_size o = jited_line_info_rec_size info /\ nr_jited_func o = nr_jited_ksyms info /\ dissected o K L starts.

Lemma oom_refused alloc_ok info k err : alloc_ok k = false -> err = ENOMEM \/ err = EINVAL -> refused alloc_ok info err.
Proof. intros Hk He. split; [done|]. right. right. left. by exists k. Qed.

Lemma jited_given_spec info : jited_given info = true ->
  nr_jited_ksyms info <> 0 /\ 8 <= jited_line_info_rec_size info /\ nr_jited_func_lens info = nr_jited_ksyms info /\
  exists m K L, jited_line_info info = Some m /\ jited_ksyms info = Some K /\ jited_func_lens info = Some L.
Proof.
  unfold jited_given. rewrite negb_true_iff, !orb_false_iff, !bool_decide_eq_false, !negb_false_iff.
  intros ((((((H1 & H2) & H3) & H4) & H5) & H6) & H7). zbool.
  do 3 (split; [lia|]). destruct (jited_line_info info) as [m|], (jited_ksyms info) as [K|], (jited_func_lens info) as [L|]; try done.
  by exists m, K, L.
Qed.

(** C27: [bpf_prog_linfo__new] ends for any information the kernel can give,
    and decides whether the lines by address can be told apart by function.
    It returns the copied lines with the first line and the number of lines of
    every function, or without the lines by address where the kernel gave
    none; it fails for lack of memory, for lines that cannot be used, and when
    there is no way to dissect the lines by address.  What the lines of the
    last function are is left open: the code does not look at them. *)
Theorem prog_linfo_new_dissects alloc_ok info : info_ok info ->
  exists r, bpf_prog_linfo__new alloc_ok info = Some r /\
    match r with
    | inl err => refused alloc_ok info err
    | inr o => copied info o /\ (jited_given info = false /\ nr_jited_func o = 0 \/ has_funcs info o)
    end.
Proof.
  intros [Hnr Hlines Hrec Hfuncs Hjit HK HL]. unfold bpf_prog_linfo__new.
  destruct (Z.eqb_spec (nr_line_info info) 0) as [|Hnz]; [eexists; split; [done|]; split; [by right|by left]|].
  destruct (Z.ltb_spec (line_info_rec_size info) 4) as [|Hr4]; [eexists; split; [done|]; split; [by right|right; by left]|].
  destruct (alloc_ok 48) eqn:A1; cbn [negb]; [|eexists; split; [done|]; apply (oom_refused _ _ 48); [done|by left]].
  destruct (alloc_ok (nr_line_info info * line_info_rec_size info)) eqn:A2; cbn [negb];
    [|eexists; split; [done|]; eapply oom_refused; [exact A2|by right]].
  rewrite ld_bytes_take by lia. cbn [mbind option_bind].
  destruct (jited_given info) eqn:Hg; cbn [negb]; [|eexists; split; [done|]; split; [done|by left]].
  destruct (jited_given_spec info Hg) as (Hnf & Hj8 & Hlens & m & K & L & Em & EK & EL).
  specialize (Hjit m Em). specialize (HK K EK). specialize (HL L EL).
  destruct (alloc_ok (nr_line_info info * jited_line_info_rec_size info)) eqn:A3; cbn [negb];
    [|eexists; split; [done|]; eapply oom_refused; [exact A3|by right]].
  rewrite Em. cbn [mbind option_bind]. rewrite ld_bytes_take by lia. cbn [mbind option_bind].
  destruct (alloc_ok (nr_jited_ksyms info * 4)) eqn:A4; cbn [negb];
    [|eexists; split; [done|]; eapply oom_refused; [exact A4|by right]].
  rewrite EK, EL. cbn [mbind option_bind].
  match goal with |- context [dissect_jited_func ?o _ _] => set (o0 := o) end.
  destruct (dissect_spec o0 K L (nr_jited_ksyms info)) as (err & o' & E & Ho); [done|lia|cbn; lia|cbn; done| |lia|lia|done|done|].
  { cbn. rewrite length_take. lia. }
  rewrite E. cbn [mbind option_bind]. destruct Ho as [(-> & Hno)|(-> & (idx & per & ->) & starts & Hd)]; cbn [negb Z.eqb].
  - eexists. split; [done|]. split; [by right|]. right. right. right. by exists m, K, L.
  - eexists. split; [done|]. split; [done|]. right. by exists m, K, L, starts.
Qed.

(** ** Lookups *)

(** [i] is the last of the lines from [lo] on, before [hi], that are reached
    without passing one above [x]. *)
Definition last_reached (get : Z -> option Z) (lo hi x i : Z) : Prop :=
  lo <= i < hi /\ (forall j, lo <= j <= i -> exists a, get j = Some a /\ a <= x) /\
  (i + 1 = hi \/ exists a, get (i + 1) = Some a /\ x < a).

(** Both loops: [n] lines, the first at [s]. *)
Lemma loop_reached (get : Z -> option Z) (loop : nat -> Z -> option Z) x rec :
  (forall s, loop 0%nat s = Some (s * rec)) ->
  (forall n s, loop (S n) s = a ← get s; if x <? a then Some (s * rec) else loop n (s + 1)) ->
  forall n s a, (0 < n)%nat -> get s = Some a -> a <= x ->
  (forall j, s <= j < s + Z.of_nat n -> is_Some (get j)) ->
  exists i, loop n s = Some ((i + 1) * rec) /\ last_reached get s (s + Z.of_nat n) x i.
Proof.
  intros H0 HS. induction n as [|n IH]; intros s a Hn Ha Hle Hget; [lia|]. rewrite HS, Ha. cbn [mbind option_bind].
  destruct (Z.ltb_spec x a); [lia|]. destruct n as [|n].
  { rewrite H0. exists s. split; [done|]. split; [lia|]. split; [|left; lia]. intros j Hj. exists a. by replace j with s by lia. }
  destruct (Hget (s + 1)) as [b Hb]; [lia|]. destruct (Z_le_dec b x).
  - destruct (IH (s + 1) b) as (i & E & Hi & Hall & Hend); [lia|done|done|intros; apply Hget; lia|].
    exists i. split; [done|]. split; [lia|]. split; [|destruct Hend; [left; lia|by right]].
    intros j Hj. destruct (Z.eq_dec j s) as [->|]; [by exists a|apply Hall; lia].
  - rewrite HS, Hb. cbn [mbind option_bind]. destruct (Z.ltb_spec x b); [|lia]. exists s. split; [done|]. split; [lia|].
    split; [|right; exists b; split; [done|lia]]. intros j Hj. exists a. by replace j with s by lia.
Qed.

(** Lines [s] to [t - 1] are those of function [f]. *)
Definition func_lines (starts : list Z) (nl f s t : Z) : Prop :=
  aref starts f = Some s /\ aref (starts ++ [nl]) (f + 1) = Some t.

Lemma diffs_lookup l f s t : aref l f = Some s -> aref l (f + 1) = Some t -> aref (diffs l) f = Some (t - s).
Proof.
  revert f. induction l as [|a [|b l] IH]; intros f Hs Ht.
  - by rewrite aref_nil in Hs.
  - apply aref_bounds in Hs, Ht. cbn in *. lia.
  - pose proof (aref_bounds _ _ _ Hs) as Hf. destruct (Z.eq_dec f 0) as [->|].
    { injection Hs as <-. injection Ht as <-. done. }
    assert (Hc : forall i (v : list Z) w, 0 < i -> aref (w :: v) i = aref v (i - 1)).
    { intros i v w Hi. change (w :: v) with ([w] ++ v). rewrite aref_app. destruct (Z.ltb_spec i (Z.of_nat (length [w]))); [cbn in *; lia|done]. }
    change (diffs (a :: b :: l)) with (b - a :: diffs (b :: l)). rewrite Hc in Hs, Ht by lia. rewrite Hc by lia.
    apply IH; [done|]. by replace (f - 1 + 1) with (f + 1 - 1) by lia.
Qed.

Lemma func_lines_spec o K L starts f : dissected o K L starts -> 0 <= f < nr_jited_func o -> exists s t,
  func_lines starts (nr_linfo o) f s t /\ 0 <= s < t /\ t <= nr_linfo o /\
  mjoin (aref (jited_linfo_func_idx o) f) = Some s /\ mjoin (aref (nr_jited_linfo_per_func o) f) = Some (t - s) /\
  (t < nr_linfo o -> segment (raw_jited_linfo o) (jited_rec_size o) K L f s t).
Proof.
  intros [_ _ [Hs Hlen] Ei Ep] Hf. destruct (aref_Some starts f) as [s Hfs]; [lia|].
  destruct (aref_Some (starts ++ [nr_linfo o]) (f + 1)) as [t Ht]; [rewrite length_app; cbn; lia|].
  destruct (di_start _ _ _ _ _ _ Hs f s Hfs) as [Hsr _]. exists s, t. split; [done|].
  assert (Hfs' : aref (starts ++ [nr_linfo o]) f = Some s).
  { rewrite aref_app. destruct (Z.ltb_spec f (Z.of_nat (length starts))); [done|lia]. }
  assert (Hst : t = nr_linfo o \/ segment (raw_jited_linfo o) (jited_rec_size o) K L f s t /\ t < nr_linfo o).
  { apply aref_snoc in Ht as [Ht|[_ ->]]; [right|by left]. split; [by apply (di_seg _ _ _ _ _ _ Hs)|].
    destruct (di_start _ _ _ _ _ _ Hs (f + 1) t Ht) as [? _]. lia. }
  rewrite Ei, Ep, !aref_map, Hfs, (diffs_lookup _ f s t Hfs' Ht). cbn.
  split; [|split; [|do 2 (split; [done|])]].
  - destruct Hst as [->|[Hg _]]; [lia|]. pose proof (sg_lt _ _ _ _ _ _ _ Hg). lia.
  - destruct Hst as [->|[_ ?]]; lia.
  - intros Hlt. destruct Hst as [->|[Hg _]]; [lia|done].
Qed.

Definition line_addr (o : bpf_prog_linfo) (i : Z) : option Z := J (raw_jited_linfo o) (jited_rec_size o) i.

Lemma segment_increasing m jrec K L f s t : segment m jrec K L f s t -> forall i j a b, s <= i -> i < j < t ->
  J m jrec i = Some a -> J m jrec j = Some b -> a < b.
Proof.
  intros Hg i j a b Hi Hj Ha. assert (H : forall n : nat, forall b, i + 1 + Z.of_nat n < t ->
    J m jrec (i + 1 + Z.of_nat n) = Some b -> a < b).
  2: { intros Hb. apply (H (Z.to_nat (j - i - 1))); [lia|]. by replace (i + 1 + _) with j by lia. }
  induction n as [|n IH]; intros c Hn Hc.
  - rewrite Z.add_0_r in Hc, Hn. destruct (sg_inside _ _ _ _ _ _ _ Hg (i + 1)) as (x & y & _ & Hx & Hy & _ & Hlt & _); [lia|].
    rewrite Z.add_simpl_r in Hx. congruence.
  - destruct (sg_inside _ _ _ _ _ _ _ Hg (i + 1 + Z.of_nat (S n))) as (x & y & _ & Hx & Hy & _ & Hlt & _); [lia|].
    replace (i + 1 + Z.of_nat (S n) - 1) with (i + 1 + Z.of_nat n) in Hx by lia. apply IH in Hx; [|lia].
    rewrite Hc in Hy. injection Hy as ->. lia.
Qed.

(** The line of an address.  In a dissected object the lookup ends and
    finds, from line [nr_skip] of the function on, the last line reached
    without passing one above the address; but for the last function, whose
    lines are not checked to increase, no later line of the function is at or
    below the address.  It answers ENOENT only for a function or a line that
    is not there, or when that first line is above the address. *)
Theorem lfind_addr_func_line o K L starts addr f nr_skip : dissected o K L starts ->
  nr_linfo o * jited_rec_size o < 2 ^ 32 -> nr_linfo o * rec_size o < 2 ^ 32 -> 0 <= rec_size o -> 0 <= f -> 0 <= nr_skip ->
  exists r, bpf_prog_linfo__lfind_addr_func o addr f nr_skip = Some r /\
    match r with
    | inl err => err = ENOENT /\ (nr_jited_func o <= f \/ exists s t, func_lines starts (nr_linfo o) f s t /\
        (t <= s + nr_skip \/ exists a, line_addr o (s + nr_skip) = Some a /\ addr < a))
    | inr p => exists s t i, func_lines starts (nr_linfo o) f s t /\ p = i * rec_size o /\
        last_reached (line_addr o) (s + nr_skip) t addr i /\
        (f + 1 < nr_jited_func o -> forall j a, i < j < t -> line_addr o j = Some a -> addr < a)
    end.
Proof.
  intros Hd Hj32 Hr32 Hrec Hf Hskip. unfold bpf_prog_linfo__lfind_addr_func.
  destruct (Z.geb_spec f (nr_jited_func o)); [eexists; split; [done|]; split; [done|by left]|].
  destruct (func_lines_spec o K L starts f Hd) as (s & t & Hfl & Hst & Htn & Ei & Ep & Hg); [lia|].
  rewrite Ep. cbn [mbind option_bind]. destruct (Z.geb_spec nr_skip (t - s)).
  { eexists. split; [done|]. split; [done|]. right. exists s, t. split; [done|left; lia]. }
  rewrite Ei. cbn [mbind option_bind]. pose proof (ds_rec _ _ _ _ Hd). pose proof (ds_size _ _ _ _ Hd) as Hsz.
  assert (HJ : forall j, 0 <= j < nr_linfo o -> is_Some (line_addr o j)) by (intros; apply (J_Some _ _ (nr_linfo o)); lia).
  assert (Hu : forall i k, 0 <= k -> nr_linfo o * k < 2 ^ 32 -> 0 <= i < nr_linfo o -> u32 (i * k) = i * k)
    by (intros; apply wrap_small; pow2; nia).
  rewrite (wrap_small 32 (s + nr_skip)) by (pow2; nia). rewrite !Hu by lia.
  destruct (HJ (s + nr_skip)) as [a Ha]; [lia|]. unfold line_addr, J in Ha. rewrite Ha. cbn [mbind option_bind].
  destruct (Z.ltb_spec addr a).
  { eexists. split; [done|]. split; [done|]. right. exists s, t. split; [done|]. right. by exists a. }
  destruct (loop_reached (line_addr o) (fun n j => addr_loop n (raw_jited_linfo o) addr (rec_size o) (jited_rec_size o)
    (j * rec_size o) (j * jited_rec_size o)) addr (rec_size o)) with (n := Z.to_nat (t - s - nr_skip)) (s := s + nr_skip) (a := a)
    as (i & E & Hl); [done| |lia|done|lia|intros; apply HJ; lia|].
  { intros n j. cbn [addr_loop]. unfold line_addr, J. by rewrite !Z.mul_add_distr_r, !Z.mul_1_l. }
  cbv beta in E. rewrite E. cbn [mbind option_bind]. eexists. split; [done|]. exists s, t, i.
  replace (s + nr_skip + Z.of_nat (Z.to_nat (t - s - nr_skip))) with t in Hl by lia.
  split; [done|]. split; [lia|]. split; [done|]. intros Hlast j b Hj Hb. destruct Hl as (Hi & _ & [?|(c & Hc & Hlt)]); [lia|].
  destruct (Z.eq_dec j (i + 1)) as [->|]; [congruence|].
  assert (Hseg : segment (raw_jited_linfo o) (jited_rec_size o) K L f s t).
  { apply Hg. destruct Hfl as [_ Ht]. destruct (ds_segs _ _ _ _ Hd) as [Hs Hlen]. apply aref_snoc in Ht as [Ht|[? _]]; [|lia].
    destruct (di_start _ _ _ _ _ _ Hs _ _ Ht) as [? _]. lia. }
  pose proof (segment_increasing _ _ _ _ _ _ _ Hseg (i + 1) j c b ltac:(lia) ltac:(lia) Hc Hb). lia.
Qed.

(** The line of an instruction, by the same search over all lines. *)
Theorem lfind_line o insn_off nr_skip : 4 <= rec_size o -> Z.of_nat (length (raw_linfo o)) = nr_linfo o * rec_size o ->
  nr_linfo o * rec_size o < 2 ^ 32 -> 0 <= nr_skip ->
  exists r, bpf_prog_linfo__lfind o insn_off nr_skip = Some r /\
    match r with
    | inl err => err = ENOENT /\ (nr_linfo o <= nr_skip \/
        exists a, ld32 (raw_linfo o) (nr_skip * rec_size o) = Some a /\ insn_off < a)
    | inr p => exists i, p = i * rec_size o /\
        last_reached (fun i => ld32 (raw_linfo o) (i * rec_size o)) nr_skip (nr_linfo o) insn_off i
    end.
Proof.
  intros Hrec Hsz Hr32 Hskip. unfold bpf_prog_linfo__lfind.
  destruct (Z.geb_spec nr_skip (nr_linfo o)); [eexists; split; [done|]; split; [done|by left]|].
  assert (Hget : forall j, 0 <= j < nr_linfo o -> is_Some (ld32 (raw_linfo o) (j * rec_size o))) by (intros; apply ld32_Some; nia).
  rewrite wrap_small by (pow2; nia). destruct (Hget nr_skip) as [a Ha]; [lia|]. rewrite Ha. cbn [mbind option_bind].
  destruct (Z.ltb_spec insn_off a); [eexists; split; [done|]; split; [done|]; right; by exists a|].
  destruct (loop_reached (fun i => ld32 (raw_linfo o) (i * rec_size o)) (fun n j => insn_loop n (raw_linfo o) insn_off (rec_size o)
    (j * rec_size o)) insn_off (rec_size o)) with (n := Z.to_nat (nr_linfo o - nr_skip)) (s := nr_skip) (a := a)
    as (i & E & Hl); [done| |lia|done|lia|intros; apply Hget; lia|].
  { intros n j. cbn [insn_loop]. by rewrite Z.mul_add_distr_r, Z.mul_1_l. }
  cbv beta in E. rewrite E. cbn [mbind option_bind]. eexists. split; [done|]. exists i. split; [lia|].
  by replace (nr_skip + Z.of_nat (Z.to_nat (nr_linfo o - nr_skip))) with (nr_linfo o) in Hl by lia.
Qed.

(** ** An example

    Four lines of two functions, at 4096 and 8192. *)

Definition words64 (l : list Z) : list Z := flat_map (fun a => le32 a ++ le32 (a / 4294967296)) l.

Definition ex_prog_info (addrs ksyms lens : list Z) : bpf_prog_info :=
  {| nr_line_info := 4; line_info_rec_size := 4; line_info := concat (map le32 [0; 3; 5; 9]);
     nr_jited_ksyms := Z.of_nat (length ksyms); jited_ksyms := Some ksyms;
     nr_jited_func_lens := Z.of_nat (length ksyms); jited_func_lens := Some lens;
     nr_jited_line_info := 4; jited_line_info_rec_size := 8; jited_line_info := Some (words64 addrs) |}.

Definition ex_two : bpf_prog_info := ex_prog_info [4096; 4112; 8192; 8200] [4096; 8192] [32; 64].

Definition ex_linfo (addrs ksyms lens : list Z) : option bpf_prog_linfo :=
  r ← bpf_prog_linfo__new (fun _ => true) (ex_prog_info addrs ksyms lens);
  match r with inl _ => None | inr o => Some o end.

Lemma ex_two_ok : info_ok ex_two.
Proof. split; try (intros ? [= <-]); vm_compute; split_and?; congruence. Qed.

Lemma prog_linfo_new_dissects_witness :
  exists o, bpf_prog_linfo__new (fun _ => true) ex_two = Some (inr o) /\ copied ex_two o /\
    jited_linfo_func_idx o = [Some 0; Some 2] /\ nr_jited_linfo_per_func o = [Some 2; Some 2] /\ has_funcs ex_two o.
Proof.
  destruct (prog_linfo_new_dissects (fun _ => true) ex_two ex_two_ok) as (r & E & H).
  destruct r as [err|o]; [vm_compute in E; discriminate E|]. exists o. split; [exact E|].
  destruct H as [Hc [[Hg _]|Hf]]; [vm_compute in Hg; discriminate Hg|]. split; [exact Hc|].
  vm_compute in E. injection E as <-. split; [reflexivity|]. split; [reflexivity|exact Hf].
Defined.

(** Address 4120 belongs to the second line of the first function. *)
Lemma lfind_addr_func_line_witness : exists o, ex_linfo [4096; 4112; 8192; 8200] [4096; 8192] [32; 64] = Some o /\
  bpf_prog_linfo__lfind_addr_func o 4120 0 0 = Some (inr 4).
Proof.
  destruct (dissect_spec {| raw_linfo := concat (map le32 [0; 3; 5; 9]); raw_jited_linfo := words64 [4096; 4112; 8192; 8200];
    nr_jited_linfo_per_func := [None; None]; jited_linfo_func_idx := [None; None]; nr_linfo := 4; nr_jited_func := 2;
    rec_size := 4; jited_rec_size := 8 |} [4096; 8192] [32; 64] 2) as (err & o & E & Ho);
    [reflexivity|lia|cbn; lia|cbn; lia|reflexivity|cbn; lia|cbn; lia|reflexivity|reflexivity|].
  vm_compute in E. injection E as <- <-. destruct Ho as [[Ho _]|(_ & _ & starts & Hd)]; [discriminate Ho|].
  eexists. split; [vm_compute; reflexivity|].
  destruct (lfind_addr_func_line _ _ _ _ 4120 0 0 Hd) as (r & Hr & _); [cbn; lia|cbn; lia|cbn; lia|lia|lia|].
  rewrite Hr. vm_compute in Hr. congruence.
Defined.

Lemma lfind_line_witness : exists o, ex_linfo [4096; 4112; 8192; 8200] [4096; 8192] [32; 64] = Some o /\
  bpf_prog_linfo__lfind o 6 0 = Some (inr 8).
Proof.
  eexists. split; [vm_compute; reflexivity|].
  match goal with |- bpf_prog_linfo__lfind ?o _ _ = _ =>
    destruct (lfind_line o 6 0) as (r & Hr & _); [cbn; lia|reflexivity|cbn; lia|lia|] end.
  rewrite Hr. vm_compute in Hr. congruence.
Defined.

(** "Ensure the addr is increasing within a func": the lines of the last
    function are not looked at, since the loop ends when it is found. *)
Fact last_func_unchecked : exists o, ex_linfo [4096; 4112; 4104; 4100] [4096] [32] = Some o /\
  bpf_prog_linfo__lfind_addr_func o 4106 0 0 = Some (inr 0).
Proof. eexists. split; [vm_compute; reflexivity|]. vm_compute. reflexivity. Qed.
