(* ===== verification/BtfDump.v ===== *)
(** * Printing BTF as C declarations (src/plugin/libbpf-test/libbpf/src/btf_dump.c)

    The state of a dump, the order in which definitions are emitted, and the
    printing of types: names, definitions, forward and field declarations,
    padding.  Printing of typed data is not here.

    [printf_fn] appends to [output].  Allocation is the parameter [alloc_ok].
    Functions that recurse along types take fuel; an outer [None] is undefined
    behaviour (an access outside an array, a NULL string, a signed overflow, a
    read through a freed array) or a recursion that used up its fuel. *)

From S2P Require Import Prelude CString Hashmap StrSet Btf CoreTypes.

Abbreviation ELOOP := 40 (only parsing).

Definition NL : list Z := [10].

(** A result of [int] arithmetic. *)
Definition int_of (x : Z) : option Z := if (-2147483648 <=? x) && (x <=? 2147483647) then Some x else None.

Definition list_eqb (a b : list Z) : bool := strcmp a b =? 0.

(** ** The state *)

Inductive order_state := NOT_ORDERED | ORDERING | ORDERED.
Inductive emit_state := NOT_EMITTED | EMITTING | EMITTED.

#[global] Instance order_state_eq_dec : EqDecision order_state.
Proof. solve_decision. Defined.

#[global] Instance emit_state_eq_dec : EqDecision emit_state.
Proof. solve_decision. Defined.

Record btf_dump_type_aux_state := Aux {
  a_order : order_state;
  a_emit : emit_state;
  fwd_emitted : bool;
  name_resolved : bool;
  referenced : bool;
}.

Definition aux0 : btf_dump_type_aux_state :=
  {| a_order := NOT_ORDERED; a_emit := NOT_EMITTED; fwd_emitted := false; name_resolved := false;
     referenced := false |}.

(** A queue or stack is the list of its elements in use and its capacity;
    [decl_gen] counts the arrays that have held the declaration stack. *)
Record btf_dump := Dump {
  d_btf : btf;
  d_ptr_sz : Z;
  strip_mods : bool;
  skip_anon_defs : bool;
  last_id : Z;
  type_states : list btf_dump_type_aux_state;
  type_states_cap : Z;
  cached_names : list (option (list Z));
  cached_names_cap : Z;
  emit_queue : list Z;
  emit_queue_cap : Z;
  decl_stack : list Z;
  decl_stack_cap : Z;
  decl_gen : Z;
  type_names : hashmap (list Z) Z;
  ident_names : hashmap (list Z) Z;
  output : list Z;
}.

Definition set_states (d : btf_dump) (l : list btf_dump_type_aux_state) : btf_dump :=
  {| d_btf := d_btf d; d_ptr_sz := d_ptr_sz d; strip_mods := strip_mods d;
     skip_anon_defs := skip_anon_defs d; last_id := last_id d; type_states := l;
     type_states_cap := type_states_cap d; cached_names := cached_names d;
     cached_names_cap := cached_names_cap d; emit_queue := emit_queue d;
     emit_queue_cap := emit_queue_cap d; decl_stack := decl_stack d;
     decl_stack_cap := decl_stack_cap d; decl_gen := decl_gen d; type_names := type_names d;
     ident_names := ident_names d; output := output d |}.

Definition set_queue (d : btf_dump) (q : list Z) (cap : Z) : btf_dump :=
  {| d_btf := d_btf d; d_ptr_sz := d_ptr_sz d; strip_mods := strip_mods d;
     skip_anon_defs := skip_anon_defs d; last_id := last_id d; type_states := type_states d;
     type_states_cap := type_states_cap d; cached_names := cached_names d;
     cached_names_cap := cached_names_cap d; emit_queue := q; emit_queue_cap := cap;
     decl_stack := decl_stack d; decl_stack_cap := decl_stack_cap d; decl_gen := decl_gen d;
     type_names := type_names d; ident_names := ident_names d; output := output d |}.

Definition set_stack (d : btf_dump) (s : list Z) (cap gen : Z) : btf_dump :=
  {| d_btf := d_btf d; d_ptr_sz := d_ptr_sz d; strip_mods := strip_mods d;
     skip_anon_defs := skip_anon_defs d; last_id := last_id d; type_states := type_states d;
     type_states_cap := type_states_cap d; cached_names := cached_names d;
     cached_names_cap := cached_names_cap d; emit_queue := emit_queue d;
     emit_queue_cap := emit_queue_cap d; decl_stack := s; decl_stack_cap := cap; decl_gen := gen;
     type_names := type_names d; ident_names := ident_names d; output := output d |}.

Definition set_btf (d : btf_dump) (b : btf) : btf_dump :=
  {| d_btf := b; d_ptr_sz := d_ptr_sz d; strip_mods := strip_mods d;
     skip_anon_defs := skip_anon_defs d; last_id := last_id d; type_states := type_states d;
     type_states_cap := type_states_cap d; cached_names := cached_names d;
     cached_names_cap := cached_names_cap d; emit_queue := emit_queue d;
     emit_queue_cap := emit_queue_cap d; decl_stack := decl_stack d;
     decl_stack_cap := decl_stack_cap d; decl_gen := decl_gen d; type_names := type_names d;
     ident_names := ident_names d; output := output d |}.

Definition set_flags (d : btf_dump) (strip skip : bool) : btf_dump :=
  {| d_btf := d_btf d; d_ptr_sz := d_ptr_sz d; strip_mods := strip; skip_anon_defs := skip;
     last_id := last_id d; type_states := type_states d; type_states_cap := type_states_cap d;
     cached_names := cached_names d; cached_names_cap := cached_names_cap d;
     emit_queue := emit_queue d; emit_queue_cap := emit_queue_cap d; decl_stack := decl_stack d;
     decl_stack_cap := decl_stack_cap d; decl_gen := decl_gen d; type_names := type_names d;
     ident_names := ident_names d; output := output d |}.

Definition set_mem (d : btf_dump) (l : list btf_dump_type_aux_state) (lcap : Z)
    (names : list (option (list Z))) (ncap last : Z) : btf_dump :=
  {| d_btf := d_btf d; d_ptr_sz := d_ptr_sz d; strip_mods := strip_mods d;
     skip_anon_defs := skip_anon_defs d; last_id := last; type_states := l; type_states_cap := lcap;
     cached_names := names; cached_names_cap := ncap; emit_queue := emit_queue d;
     emit_queue_cap := emit_queue_cap d; decl_stack := decl_stack d;
     decl_stack_cap := decl_stack_cap d; decl_gen := decl_gen d; type_names := type_names d;
     ident_names := ident_names d; output := output d |}.

Definition set_cached (d : btf_dump) (names : list (option (list Z))) : btf_dump :=
  set_mem d (type_states d) (type_states_cap d) names (cached_names_cap d) (last_id d).

Definition set_names (d : btf_dump) (types idents : hashmap (list Z) Z) (out : list Z) : btf_dump :=
  {| d_btf := d_btf d; d_ptr_sz := d_ptr_sz d; strip_mods := strip_mods d;
     skip_anon_defs := skip_anon_defs d; last_id := last_id d; type_states := type_states d;
     type_states_cap := type_states_cap d; cached_names := cached_names d;
     cached_names_cap := cached_names_cap d; emit_queue := emit_queue d;
     emit_queue_cap := emit_queue_cap d; decl_stack := decl_stack d;
     decl_stack_cap := decl_stack_cap d; decl_gen := decl_gen d; type_names := types;
     ident_names := idents; output := out |}.

(** [btf_dump_printf] *)
Definition btf_dump_printf (d : btf_dump) (s : list Z) : btf_dump :=
  set_names d (type_names d) (ident_names d) (output d ++ s).

Definition upd_state (d : btf_dump) (id : Z)
    (f : btf_dump_type_aux_state -> btf_dump_type_aux_state) : option btf_dump :=
  a ← aref (type_states d) id; l ← aset (type_states d) id (f a); Some (set_states d l).

Definition set_order (o : order_state) (a : btf_dump_type_aux_state) : btf_dump_type_aux_state :=
  {| a_order := o; a_emit := a_emit a; fwd_emitted := fwd_emitted a;
     name_resolved := name_resolved a; referenced := referenced a |}.

Definition set_emit (e : emit_state) (a : btf_dump_type_aux_state) : btf_dump_type_aux_state :=
  {| a_order := a_order a; a_emit := e; fwd_emitted := fwd_emitted a;
     name_resolved := name_resolved a; referenced := referenced a |}.

Definition set_fwd (a : btf_dump_type_aux_state) : btf_dump_type_aux_state :=
  {| a_order := a_order a; a_emit := a_emit a; fwd_emitted := true;
     name_resolved := name_resolved a; referenced := referenced a |}.

Definition set_resolved (a : btf_dump_type_aux_state) : btf_dump_type_aux_state :=
  {| a_order := a_order a; a_emit := a_emit a; fwd_emitted := fwd_emitted a;
     name_resolved := true; referenced := referenced a |}.

Definition set_referenced (a : btf_dump_type_aux_state) : btf_dump_type_aux_state :=
  {| a_order := a_order a; a_emit := a_emit a; fwd_emitted := fwd_emitted a;
     name_resolved := name_resolved a; referenced := true |}.

(** The type [id]; a NULL pointer would be dereferenced. *)
Definition dtype (d : btf_dump) (id : Z) : option tptr := t ← btf__type_by_id (d_btf d) id; t.

Definition dkind (t : tptr) : option kind := k ← btf_kind t; Some (kind_of k).

(** [btf_name_of]: the string, NULL being no result. *)
Definition btf_name_of (d : btf_dump) (name_off : Z) : option (list Z) :=
  s ← name_at (d_btf d) name_off; s.

(** ** Setting up *)

(** The ids a type refers to, as [btf_dump_mark_referenced] goes over them
    ([t->type] of a function prototype is left out); [None] is -EINVAL. *)
Definition marked_ids (t : tptr) (k : kind) (vlen : Z) : option (list (option Z)) :=
  let elems sz off := map (fun j => t_word t (sz * j + off)) (seqZ 0 vlen) in
  match k with
  | KIND_INT | KIND_ENUM | KIND_ENUM64 | KIND_FWD | KIND_FLOAT => Some []
  | KIND_VOLATILE | KIND_CONST | KIND_RESTRICT | KIND_PTR | KIND_TYPEDEF | KIND_FUNC | KIND_VAR
  | KIND_DECL_TAG | KIND_TYPE_TAG => Some [t_size t]
  | KIND_ARRAY => Some [t_word t 4; t_word t 0]
  | KIND_STRUCT | KIND_UNION => Some (elems 12 4)
  | KIND_FUNC_PROTO => Some (elems 8 4)
  | KIND_DATASEC => Some (elems 12 0)
  | KIND_UNKN | KIND_OTHER => None
  end.

Fixpoint mark_ids (d : btf_dump) (ids : list (option Z)) : option btf_dump :=
  match ids with
  | [] => Some d
  | id :: ids => id ← id; d ← upd_state d id set_referenced; mark_ids d ids
  end.

Fixpoint mark_loop (d : btf_dump) (i : Z) (n : nat) : option (Z * btf_dump) :=
  match n with
  | O => Some (0, d)
  | S n =>
      t ← dtype d i; k ← dkind t; vlen ← btf_vlen t;
      match marked_ids t k vlen with
      | None => Some (- EINVAL, d)
      | Some ids => d ← mark_ids d ids; mark_loop d (i + 1) n
      end
  end.

Definition btf_dump_mark_referenced (d : btf_dump) : option (Z * btf_dump) :=
  mark_loop d (last_id d + 1) (Z.to_nat (btf__type_cnt (d_btf d) - (last_id d + 1))).

Section Dump.
Context (alloc_ok : Z -> bool).

Definition btf_dump_resize (d : btf_dump) : option (Z * btf_dump) :=
  let last := btf__type_cnt (d_btf d) - 1 in
  if last <=? last_id d then Some (0, d) else
  match libbpf_ensure_mem alloc_ok (type_states d) aux0 (type_states_cap d) 4 (last + 1) with
  | None => Some (- ENOMEM, d)
  | Some (ts, tcap) =>
      let d := set_mem d ts tcap (cached_names d) (cached_names_cap d) (last_id d) in
      match libbpf_ensure_mem alloc_ok (cached_names d) None (cached_names_cap d) 8 (last + 1) with
      | None => Some (- ENOMEM, d)
      | Some (ns, ncap) =>
          let d := set_mem d (type_states d) tcap ns ncap (last_id d) in
          d ← (if last_id d =? 0 then
                 upd_state d 0 (fun a => set_emit EMITTED (set_order ORDERED a)) else Some d);
          '(err, d) ← btf_dump_mark_referenced d;
          if negb (err =? 0) then Some (err, d) else
          Some (0, set_mem d (type_states d) (type_states_cap d) (cached_names d)
                     (cached_names_cap d) last)
      end
  end.

(** [btf_dump__new]; the result is an error or the new object. *)
Definition btf_dump__new (b : btf) : option (Z + btf_dump) :=
  if negb (alloc_ok 136) then Some (inl (- ENOMEM)) else
  '(sz, b) ← btf__pointer_size b;
  if negb (alloc_ok 56) then Some (inl (- ENOMEM)) else
  '(err, d) ← btf_dump_resize
     {| d_btf := b; d_ptr_sz := if sz =? 0 then 8 else sz; strip_mods := false;
        skip_anon_defs := false; last_id := 0; type_states := []; type_states_cap := 0;
        cached_names := []; cached_names_cap := 0; emit_queue := []; emit_queue_cap := 0;
        decl_stack := []; decl_stack_cap := 0; decl_gen := 0; type_names := hashmap__init;
        ident_names := hashmap__init; output := [] |};
  Some (if negb (err =? 0) then inl err else inr d).

(** ** Ordering *)

Definition btf_dump_add_emit_queue_id (d : btf_dump) (id : Z) : option (Z * btf_dump) :=
  if Z.of_nat (length (emit_queue d)) >=? emit_queue_cap d then
    let cap := Z.max 16 (emit_queue_cap d * 3 / 2) in
    if alloc_ok (cap * 4) then Some (0, set_queue d (emit_queue d ++ [id]) cap)
    else Some (- ENOMEM, d)
  else Some (0, set_queue d (emit_queue d ++ [id]) (emit_queue_cap d)).

(** Queue a definition, and mark it. *)
Definition queue_ordered (d : btf_dump) (id : Z) : option (Z * btf_dump) :=
  '(err, d) ← btf_dump_add_emit_queue_id d id;
  if err <? 0 then Some (err, d) else
  d ← upd_state d id (set_order ORDERED);
  Some (1, d).

(** The members of a composite type, and the parameters of a prototype:
    [strong] becomes 1 if one of the links is strong. *)
Fixpoint order_all (rec : btf_dump -> Z -> option (Z * btf_dump)) (d : btf_dump)
    (ids : list (option Z)) (strong : Z) : option (Z * btf_dump) :=
  match ids with
  | [] => Some (strong, d)
  | id :: ids =>
      id ← id; '(err, d) ← rec d id;
      if err <? 0 then Some (err, d) else
      order_all rec d ids (if err >? 0 then 1 else strong)
  end.

Fixpoint btf_dump_order_type (fuel : nat) (d : btf_dump) (id : Z) (through_ptr : bool)
    : option (Z * btf_dump) :=
  match fuel with
  | O => None
  | S fuel =>
      tstate ← aref (type_states d) id;
      if bool_decide (a_order tstate = ORDERED) then Some (1, d) else
      t ← dtype d id;
      k ← dkind t; name_off ← t_name_off t;
      if bool_decide (a_order tstate = ORDERING) then
        Some (if bool_decide (k ∈ [KIND_STRUCT; KIND_UNION]) && through_ptr && negb (name_off =? 0)
              then 0 else - ELOOP, d)
      else
      match k with
      | KIND_INT | KIND_FLOAT => d ← upd_state d id (set_order ORDERED); Some (0, d)
      | KIND_PTR =>
          id' ← t_size t;
          '(err, d) ← btf_dump_order_type fuel d id' true;
          d ← upd_state d id (set_order ORDERED);
          Some (err, d)
      | KIND_ARRAY => id' ← t_word t 0; btf_dump_order_type fuel d id' false
      | KIND_STRUCT | KIND_UNION =>
          if through_ptr && negb (name_off =? 0) then Some (0, d) else
          d ← upd_state d id (set_order ORDERING);
          vlen ← btf_vlen t;
          '(err, d) ← order_all (fun d m => btf_dump_order_type fuel d m false) d
                        (map (member_type t) (seqZ 0 vlen)) 0;
          if err <? 0 then Some (err, d) else
          if negb (name_off =? 0) then queue_ordered d id
          else d ← upd_state d id (set_order ORDERED); Some (1, d)
      | KIND_ENUM | KIND_ENUM64 | KIND_FWD =>
          if negb (name_off =? 0) || negb (referenced tstate) then queue_ordered d id
          else d ← upd_state d id (set_order ORDERED); Some (1, d)
      | KIND_TYPEDEF =>
          id' ← t_size t;
          '(is_strong, d) ← btf_dump_order_type fuel d id' through_ptr;
          if is_strong <? 0 then Some (is_strong, d) else
          if through_ptr && (is_strong =? 0) then Some (0, d) else queue_ordered d id
      | KIND_VOLATILE | KIND_CONST | KIND_RESTRICT | KIND_TYPE_TAG =>
          id' ← t_size t; btf_dump_order_type fuel d id' through_ptr
      | KIND_FUNC_PROTO =>
          id' ← t_size t;
          '(err, d) ← btf_dump_order_type fuel d id' through_ptr;
          if err <? 0 then Some (err, d) else
          vlen ← btf_vlen t;
          order_all (fun d p => btf_dump_order_type fuel d p through_ptr) d
            (map (fun i => t_word t (8 * i + 4)) (seqZ 0 vlen)) (if err >? 0 then 1 else 0)
      | KIND_FUNC | KIND_VAR | KIND_DATASEC | KIND_DECL_TAG =>
          d ← upd_state d id (set_order ORDERED); Some (0, d)
      | KIND_UNKN | KIND_OTHER => Some (- EINVAL, d)
      end
  end.

(** ** Names *)

(** The number of times a name was met, this one included; whether it could be
    stored is not looked at. *)
Definition btf_dump_name_dups (m : hashmap (list Z) Z) (name : list Z) : option (Z * hashmap (list Z) Z) :=
  found ← hashmap__find str_hash list_eqb m name;
  let dup_cnt := u64 (default 0 found + 1) in
  '(_, _, m) ← hashmap__insert alloc_ok str_hash list_eqb m name dup_cnt HASHMAP_SET;
  Some (dup_cnt, m).

(** [btf_dump_resolve_name], for the identifiers or the types. *)
Definition btf_dump_resolve_name (idents : bool) (d : btf_dump) (id : Z) : option (list Z * btf_dump) :=
  s ← aref (type_states d) id;
  t ← dtype d id; name_off ← t_name_off t;
  cached ← aref (cached_names d) id;
  if name_off =? 0 then Some ([], d) else
  orig_name ← btf_name_of d name_off;
  if name_resolved s then Some (default orig_name cached, d) else
  k ← dkind t; vlen ← btf_vlen t;
  if bool_decide (k = KIND_FWD) || bool_decide (k = KIND_ENUM) && (vlen =? 0) then
    d ← upd_state d id set_resolved; Some (orig_name, d)
  else
    '(dup_cnt, m) ← btf_dump_name_dups (if idents then ident_names d else type_names d) orig_name;
    let d := if idents then set_names d (type_names d) m (output d)
             else set_names d m (ident_names d) (output d) in
    let new_name := take 255 (orig_name ++ lit "___" ++ dec_u dup_cnt) in
    let cached := if (dup_cnt >? 1) then
                    if alloc_ok (Z.of_nat (length new_name) + 1) then Some new_name else None
                  else cached in
    names ← aset (cached_names d) id cached;
    d ← upd_state (set_cached d names) id set_resolved;
    Some (default orig_name cached, d).

Definition btf_dump_type_name := btf_dump_resolve_name false.
Definition btf_dump_ident_name := btf_dump_resolve_name true.

(** ** Layout *)

Definition btf_align_of (fuel : nat) (d : btf_dump) (id : Z) : option (Z * btf_dump) :=
  '(a, b) ← btf__align_of fuel (d_btf d) id; Some (a, set_btf d b).

(** Whether a member that is no bit-field is misaligned, from [i] on. *)
Fixpoint misaligned (fuel : nat) (d : btf_dump) (t : tptr) (i : Z) (n : nat) : option (bool * btf_dump) :=
  match n with
  | O => Some (false, d)
  | S n =>
      m ← member_type t i;
      '(align, d) ← btf_align_of fuel d m;
      bit_sz ← btf_member_bitfield_size t i;
      off ← member_offset t i;
      if negb (align =? 0) && (bit_sz =? 0) && negb (off mod u32 (8 * align) =? 0) then Some (true, d)
      else misaligned fuel d t (i + 1) n
  end.

Definition btf_is_struct_packed (fuel : nat) (d : btf_dump) (id : Z) (t : tptr) : option (bool * btf_dump) :=
  '(align, d) ← btf_align_of fuel d id;
  size ← t_size t;
  if negb (align =? 0) && negb (size mod u32 align =? 0) then Some (true, d) else
  vlen ← btf_vlen t; misaligned fuel d t 0 (Z.to_nat vlen).

Definition chip_away_bits (total at_most : Z) : Z :=
  if total mod at_most =? 0 then at_most else total mod at_most.

(** The type and the width of the next bit-field of padding. *)
Definition pad_piece (ptr_bits off_diff : Z) : string * Z :=
  if (ptr_bits >? 32) && (off_diff >? 32) then ("long"%string, chip_away_bits off_diff ptr_bits)
  else if off_diff >? 16 then ("int"%string, chip_away_bits off_diff 32)
  else if off_diff >? 8 then ("short"%string, chip_away_bits off_diff 16)
  else ("char"%string, chip_away_bits off_diff 8).

Definition pfx (lvl : Z) : list Z := repeat 9 (Z.to_nat (Z.min lvl 13)).

Fixpoint pad_loop (fuel : nat) (d : btf_dump) (off_diff lvl : Z) : option btf_dump :=
  if off_diff <=? 0 then Some d else
  match fuel with
  | O => None
  | S fuel =>
      let '(pad_type, pad_bits) := pad_piece (d_ptr_sz d * 8) off_diff in
      pad_loop fuel (btf_dump_printf d (NL ++ pfx lvl ++ lit pad_type ++ lit ": " ++ dec_s pad_bits ++ lit ";"))
        (off_diff - pad_bits) lvl
  end.

Definition btf_dump_emit_bit_padding (d : btf_dump) (cur_off m_off m_bit_sz align lvl : Z) : option btf_dump :=
  off_diff ← int_of (m_off - cur_off);
  if off_diff <=? 0 then Some d else
  if (m_bit_sz =? 0) && (off_diff <? align * 8) then Some d else
  pad_loop (Z.to_nat off_diff) d off_diff lvl.

(** ** Definitions

    [rec d id fname lvl] is [btf_dump_emit_type_decl]. *)

Definition comp_word (k : kind) : list Z := lit (if bool_decide (k = KIND_STRUCT) then "struct" else "union").

Definition btf_dump_emit_struct_fwd (d : btf_dump) (id : Z) (t : tptr) : option btf_dump :=
  k ← dkind t; name_off ← t_name_off t;
  '(name, d) ← btf_dump_type_name d id;
  Some (btf_dump_printf d (comp_word k ++ (if name_off =? 0 then [] else lit " ") ++ name)).

Section Rec.
Context (fuel : nat) (rec : btf_dump -> Z -> list Z -> Z -> option btf_dump).

(** The members from [i] on, [off] being the end of the last. *)
Fixpoint emit_members (d : btf_dump) (t : tptr) (packed : bool) (lvl i off : Z) (n : nat)
    : option (Z * btf_dump) :=
  match n with
  | O => Some (off, d)
  | S n =>
      name_off ← member_name_off t i; fname ← btf_name_of d name_off;
      m_sz ← btf_member_bitfield_size t i; m_off ← btf_member_bit_offset t i;
      m ← member_type t i;
      '(align, d) ← (if packed then Some (1, d) else btf_align_of fuel d m);
      let m_off := swrap 32 m_off in
      d ← btf_dump_emit_bit_padding d off m_off m_sz align (lvl + 1);
      d ← rec (btf_dump_printf d (NL ++ pfx (lvl + 1))) m fname (lvl + 1);
      if negb (m_sz =? 0) then
        off ← int_of (m_off + m_sz);
        emit_members (btf_dump_printf d (lit ": " ++ dec_s m_sz ++ lit ";")) t packed lvl (i + 1) off n
      else
        '(sz, b) ← btf__resolve_size (d_btf d) m;
        bits ← int_of (swrap 32 (Z.max 0 sz) * 8); off ← int_of (m_off + bits);
        emit_members (btf_dump_printf (set_btf d b) (lit ";")) t packed lvl (i + 1) off n
  end.

Definition btf_dump_emit_struct_def (d : btf_dump) (id : Z) (t : tptr) (lvl : Z) : option btf_dump :=
  k ← dkind t; vlen ← btf_vlen t; name_off ← t_name_off t;
  let is_struct := bool_decide (k = KIND_STRUCT) in
  '(packed, d) ← (if is_struct then btf_is_struct_packed fuel d id t else Some (false, d));
  '(name, d) ← btf_dump_type_name d id;
  let d := btf_dump_printf d (comp_word k ++ (if name_off =? 0 then [] else lit " ") ++ name ++ lit " {") in
  '(off, d) ← emit_members d t packed lvl 0 0 (Z.to_nat vlen);
  d ← (if is_struct then
         '(align, d) ← (if packed : bool then Some (1, d) else btf_align_of fuel d id);
         size ← t_size t;
         btf_dump_emit_bit_padding d off (swrap 32 (u32 (size * 8))) 0 align (lvl + 1)
       else Some d);
  Some (btf_dump_printf d ((if vlen =? 0 then [] else NL) ++ pfx lvl ++ lit "}"
          ++ if packed : bool then lit " __attribute__((packed))" else [])).

Definition missing_base_types : list (string * string) :=
  [("__Poly8_t", "unsigned char"); ("__Poly16_t", "unsigned short");
   ("__Poly64_t", "unsigned long long"); ("__Poly128_t", "unsigned __int128")]%string.

Definition btf_dump_emit_missing_aliases (d : btf_dump) (id : Z) : option btf_dump :=
  '(name, d) ← btf_dump_type_name d id;
  Some match List.find (fun p => list_eqb name (lit p.1)) missing_base_types with
       | Some p => btf_dump_printf d (lit "typedef " ++ lit p.2 ++ lit " " ++ name ++ lit ";" ++ NL ++ NL)
       | None => d
       end.

Definition btf_dump_emit_enum_fwd (d : btf_dump) (id : Z) : option btf_dump :=
  '(name, d) ← btf_dump_type_name d id; Some (btf_dump_printf d (lit "enum " ++ name)).

(** The enumerators from [i] on, of [sz] bytes; [val] is the text of a value. *)
Fixpoint emit_enumerators (d : btf_dump) (t : tptr) (sz : Z) (val : Z -> option (list Z)) (lvl i : Z)
    (n : nat) : option btf_dump :=
  match n with
  | O => Some d
  | S n =>
      name_off ← t_word t (sz * i); name ← btf_name_of d name_off;
      '(dup_cnt, m) ← btf_dump_name_dups (ident_names d) name;
      let d := set_names d (type_names d) m (output d) in
      v ← val i;
      emit_enumerators
        (btf_dump_printf d (NL ++ pfx (lvl + 1) ++ name
           ++ (if dup_cnt >? 1 then lit "___" ++ dec_s (swrap 64 dup_cnt) else [])
           ++ lit " = " ++ v ++ lit ","))
        t sz val lvl (i + 1) n
  end.

Definition btf_dump_emit_enum32_val (d : btf_dump) (t : tptr) (lvl vlen : Z) : option btf_dump :=
  is_signed ← btf_kflag t;
  emit_enumerators d t 8
    (fun i => v ← t_word t (8 * i + 4); Some (if is_signed : bool then dec_s (s32 v) else dec_u v))
    lvl 0 (Z.to_nat vlen).

Definition btf_dump_emit_enum64_val (d : btf_dump) (t : tptr) (lvl vlen : Z) : option btf_dump :=
  is_signed ← btf_kflag t;
  emit_enumerators d t 12
    (fun i =>
       lo ← t_word t (12 * i + 4); hi ← t_word t (12 * i + 8);
       let v := Z.lor (Z.shiftl hi 32) lo in
       Some (if is_signed : bool then dec_s (s64 v) ++ lit "LL" else dec_u v ++ lit "ULL"))
    lvl 0 (Z.to_nat vlen).

Definition btf_dump_emit_enum_def (d : btf_dump) (id : Z) (t : tptr) (lvl : Z) : option btf_dump :=
  vlen ← btf_vlen t; name_off ← t_name_off t; k ← dkind t;
  '(name, d) ← btf_dump_type_name d id;
  let d := btf_dump_printf d (lit "enum" ++ (if name_off =? 0 then [] else lit " ") ++ name) in
  if vlen =? 0 then Some d else
  let d := btf_dump_printf d (lit " {") in
  d ← (if bool_decide (k = KIND_ENUM) then btf_dump_emit_enum32_val d t lvl vlen
       else btf_dump_emit_enum64_val d t lvl vlen);
  Some (btf_dump_printf d (NL ++ pfx lvl ++ lit "}")).

Definition btf_dump_emit_fwd_def (d : btf_dump) (id : Z) (t : tptr) : option btf_dump :=
  '(name, d) ← btf_dump_type_name d id;
  kflag ← btf_kflag t;
  Some (btf_dump_printf d (lit (if kflag : bool then "union " else "struct ") ++ name)).

Definition btf_dump_emit_typedef_def (d : btf_dump) (id : Z) (t : tptr) (lvl : Z) : option btf_dump :=
  '(name, d) ← btf_dump_ident_name d id;
  ty ← t_size t;
  if (ty =? 0) && list_eqb name (lit "__gnuc_va_list") then
    Some (btf_dump_printf d (lit "typedef __builtin_va_list __gnuc_va_list"))
  else rec (btf_dump_printf d (lit "typedef ")) ty name lvl.

(** ** Declarations

    A view of the declaration stack: the array it was taken from, and the ids,
    the last one first. *)

Definition view : Type := Z * list Z.

(** [decls->ids[decls->cnt - 1]] *)
Definition view_top (d : btf_dump) (v : view) (id : Z) : option Z :=
  if v.1 =? decl_gen d then Some id else None.

Definition btf_is_mod (k : kind) : bool :=
  bool_decide (k ∈ [KIND_VOLATILE; KIND_CONST; KIND_RESTRICT; KIND_TYPE_TAG]).

Fixpoint btf_dump_emit_mods (d : btf_dump) (gen : Z) (ids : list Z) : option (list Z * btf_dump) :=
  match ids with
  | [] => Some ([], d)
  | id :: ids' =>
      id ← view_top d (gen, ids) id; t ← dtype d id; k ← dkind t;
      match k with
      | KIND_VOLATILE => btf_dump_emit_mods (btf_dump_printf d (lit "volatile ")) gen ids'
      | KIND_CONST => btf_dump_emit_mods (btf_dump_printf d (lit "const ")) gen ids'
      | KIND_RESTRICT => btf_dump_emit_mods (btf_dump_printf d (lit "restrict ")) gen ids'
      | _ => Some (ids, d)
      end
  end.

Fixpoint btf_dump_drop_mods (d : btf_dump) (gen : Z) (ids : list Z) : option (list Z) :=
  match ids with
  | [] => Some []
  | id :: ids' =>
      id ← view_top d (gen, ids) id; t ← dtype d id; k ← dkind t;
      if btf_is_mod k then btf_dump_drop_mods d gen ids' else Some ids
  end.

Definition btf_dump_emit_name (d : btf_dump) (name : list Z) (last_was_ptr : bool) : btf_dump :=
  btf_dump_printf d ((if bool_decide (name <> []) && negb last_was_ptr then lit " " else []) ++ name).

(** The parameters of a prototype, from [i] on. *)
Fixpoint emit_params (d : btf_dump) (t : tptr) (vlen lvl i : Z) (n : nat) : option btf_dump :=
  match n with
  | O => Some d
  | S n =>
      let d := if i >? 0 then btf_dump_printf d (lit ", ") else d in
      p ← t_word t (8 * i + 4);
      if (i =? vlen - 1) && (p =? 0) then Some (btf_dump_printf d (lit "...")) else
      name_off ← t_word t (8 * i); name ← btf_name_of d name_off;
      d ← rec d p name lvl;
      emit_params d t vlen lvl (i + 1) n
  end.

(** [n] bounds the ids still on the view. *)
Fixpoint btf_dump_emit_type_chain (n : nat) (d : btf_dump) (gen : Z) (decls : list Z) (fname : list Z)
    (lvl : Z) (last_was_ptr : bool) : option btf_dump :=
  match n, decls with
  | _, [] => Some (btf_dump_emit_name d fname last_was_ptr)
  | O, _ => None
  | S n, id :: decls =>
      id ← view_top d (gen, decls) id;
      let next d decls last := btf_dump_emit_type_chain n d gen decls fname lvl last in
      let after_mods (print : btf_dump -> option btf_dump) :=
        '(decls, d) ← btf_dump_emit_mods d gen decls; d ← print d; next d decls false in
      if id =? 0 then after_mods (fun d => Some (btf_dump_printf d (lit "void"))) else
      t ← dtype d id; k ← dkind t; name_off ← t_name_off t;
      let inline := (name_off =? 0) && negb (skip_anon_defs d) in
      match k with
      | KIND_INT | KIND_FLOAT =>
          after_mods (fun d => name ← btf_name_of d name_off; Some (btf_dump_printf d name))
      | KIND_STRUCT | KIND_UNION =>
          after_mods (fun d => if inline then btf_dump_emit_struct_def d id t lvl
                               else btf_dump_emit_struct_fwd d id t)
      | KIND_ENUM | KIND_ENUM64 =>
          after_mods (fun d => if inline then btf_dump_emit_enum_def d id t lvl
                               else btf_dump_emit_enum_fwd d id)
      | KIND_FWD => after_mods (fun d => btf_dump_emit_fwd_def d id t)
      | KIND_TYPEDEF =>
          after_mods (fun d => '(name, d) ← btf_dump_ident_name d id; Some (btf_dump_printf d name))
      | KIND_PTR => next (btf_dump_printf d (lit (if last_was_ptr then "*" else " *"))) decls true
      | KIND_VOLATILE => next (btf_dump_printf d (lit " volatile")) decls false
      | KIND_CONST => next (btf_dump_printf d (lit " const")) decls false
      | KIND_RESTRICT => next (btf_dump_printf d (lit " restrict")) decls false
      | KIND_TYPE_TAG =>
          after_mods (fun d => name ← btf_name_of d name_off;
            Some (btf_dump_printf d (lit " __attribute__((btf_type_tag(" ++ [34] ++ name ++ [34] ++ lit ")))")))
      | KIND_ARRAY =>
          nelems ← t_word t 8;
          decls ← btf_dump_drop_mods d gen decls;
          let dims := lit "[" ++ dec_u nelems ++ lit "]" in
          match decls with
          | [] => Some (btf_dump_printf (btf_dump_emit_name d fname last_was_ptr) dims)
          | next_id :: _ =>
              next_id ← view_top d (gen, decls) next_id;
              next_t ← dtype d next_id; next_k ← dkind next_t;
              let multidim := bool_decide (next_k = KIND_ARRAY) in
              let d := if bool_decide (fname <> []) && negb last_was_ptr
                       then btf_dump_printf d (lit " ") else d in
              d ← btf_dump_emit_type_chain n (if multidim then d else btf_dump_printf d (lit "(")) gen
                    decls fname lvl true;
              Some (btf_dump_printf d ((if multidim then [] else lit ")") ++ dims))
          end
      | KIND_FUNC_PROTO =>
          vlen ← btf_vlen t;
          decls ← btf_dump_drop_mods d gen decls;
          d ← match decls with
              | [] => Some (btf_dump_emit_name d fname last_was_ptr)
              | _ =>
                  d ← btf_dump_emit_type_chain n (btf_dump_printf d (lit " (")) gen decls fname lvl true;
                  Some (btf_dump_printf d (lit ")"))
              end;
          let d := btf_dump_printf d (lit "(") in
          no_args ← (if vlen =? 1 then p ← t_word t 4; Some (p =? 0) else Some false);
          if no_args : bool then Some (btf_dump_printf d (lit ")")) else
          d ← emit_params d t vlen lvl 0 (Z.to_nat vlen);
          Some (btf_dump_printf d (lit ")"))
      | _ => Some d
      end
  end.
End Rec.

Definition btf_dump_push_decl_stack_id (d : btf_dump) (id : Z) : Z * btf_dump :=
  if Z.of_nat (length (decl_stack d)) >=? decl_stack_cap d then
    let cap := Z.max 16 (decl_stack_cap d * 3 / 2) in
    if alloc_ok (cap * 4) then (0, set_stack d (decl_stack d ++ [id]) cap (decl_gen d + 1))
    else (- ENOMEM, d)
  else (0, set_stack d (decl_stack d ++ [id]) (decl_stack_cap d) (decl_gen d)).

(** The chain of types from [id] on is pushed; [Some (Some _)] is an error. *)
Fixpoint push_chain (n : nat) (d : btf_dump) (id : Z) : option (bool * btf_dump) :=
  match n with
  | O => None
  | S n =>
      t ← dtype d id; k ← dkind t;
      let '(err, d) := if strip_mods d && btf_is_mod k then (0, d) else btf_dump_push_decl_stack_id d id in
      if err <? 0 then Some (false, d) else
      if id =? 0 then Some (true, d) else
      match k with
      | KIND_PTR | KIND_VOLATILE | KIND_CONST | KIND_RESTRICT | KIND_FUNC_PROTO | KIND_TYPE_TAG =>
          id ← t_size t; push_chain n d id
      | KIND_ARRAY => id ← t_word t 0; push_chain n d id
      | _ => Some (true, d)
      end
  end.

Fixpoint btf_dump_emit_type_decl (fuel : nat) (d : btf_dump) (id : Z) (fname : list Z) (lvl : Z)
    : option btf_dump :=
  match fuel with
  | O => None
  | S fuel =>
      let start := length (decl_stack d) in
      '(ok, d) ← push_chain fuel d id;
      let reset d := set_stack d (take start (decl_stack d)) (decl_stack_cap d) (decl_gen d) in
      if negb ok then Some (reset d) else
      let ids := rev (drop start (decl_stack d)) in
      d ← btf_dump_emit_type_chain fuel (btf_dump_emit_type_decl fuel) (length ids) d (decl_gen d) ids
            fname lvl true;
      Some (reset d)
  end.

(** [btf_dump__emit_type_decl], with its options. *)
Definition btf_dump__emit_type_decl (fuel : nat) (d : btf_dump) (id : Z) (field_name : list Z)
    (indent_level : Z) (strip : bool) : option (Z * btf_dump) :=
  '(err, d) ← btf_dump_resize d;
  if negb (err =? 0) then Some (err, d) else
  d ← btf_dump_emit_type_decl fuel (set_flags d strip (skip_anon_defs d)) id field_name indent_level;
  Some (0, set_flags d false (skip_anon_defs d)).

(** ** Emitting *)

Definition btf_dump_is_blacklisted (d : btf_dump) (id : Z) : option bool :=
  t ← dtype d id; name_off ← t_name_off t;
  if name_off =? 0 then Some false else
  name ← btf_name_of d name_off; Some (list_eqb name (lit "__builtin_va_list")).

Definition end_def (d : btf_dump) : btf_dump := btf_dump_printf d (lit ";" ++ NL ++ NL).

(** The definition of a typedef, if it is not a builtin. *)
Definition emit_typedef (fuel : nat) (d : btf_dump) (id : Z) (t : tptr) : option btf_dump :=
  skip ← btf_dump_is_blacklisted d id;
  if skip : bool then Some d else
  d ← btf_dump_emit_typedef_def (btf_dump_emit_type_decl fuel) d id t 0; Some (end_def d).

Fixpoint emit_all (rec : btf_dump -> Z -> option btf_dump) (d : btf_dump) (ids : list (option Z))
    : option btf_dump :=
  match ids with
  | [] => Some d
  | id :: ids => id ← id; d ← rec d id; emit_all rec d ids
  end.

Fixpoint btf_dump_emit_type (fuel : nat) (d : btf_dump) (id cont_id : Z) : option btf_dump :=
  match fuel with
  | O => None
  | S fuel =>
      tstate ← aref (type_states d) id;
      let top_level_def := cont_id =? 0 in
      if bool_decide (a_emit tstate = EMITTED) then Some d else
      t ← dtype d id; k ← dkind t; name_off ← t_name_off t;
      if bool_decide (a_emit tstate = EMITTING) then
        if fwd_emitted tstate then Some d else
        match k with
        | KIND_STRUCT | KIND_UNION =>
            if (id =? cont_id) || (name_off =? 0) then Some d else
            d ← btf_dump_emit_struct_fwd d id t; upd_state (end_def d) id set_fwd
        | KIND_TYPEDEF => d ← emit_typedef fuel d id t; upd_state d id set_fwd
        | _ => Some d
        end
      else
      match k with
      | KIND_INT => d ← btf_dump_emit_missing_aliases d id; upd_state d id (set_emit EMITTED)
      | KIND_ENUM | KIND_ENUM64 =>
          d ← (if top_level_def then d ← btf_dump_emit_enum_def d id t 0; Some (end_def d) else Some d);
          upd_state d id (set_emit EMITTED)
      | KIND_PTR | KIND_VOLATILE | KIND_CONST | KIND_RESTRICT | KIND_TYPE_TAG =>
          ty ← t_size t; btf_dump_emit_type fuel d ty cont_id
      | KIND_ARRAY => ty ← t_word t 0; btf_dump_emit_type fuel d ty cont_id
      | KIND_FWD => d ← btf_dump_emit_fwd_def d id t; upd_state (end_def d) id (set_emit EMITTED)
      | KIND_TYPEDEF =>
          d ← upd_state d id (set_emit EMITTING);
          ty ← t_size t; d ← btf_dump_emit_type fuel d ty id;
          s ← aref (type_states d) id;
          d ← (if fwd_emitted s then Some d else emit_typedef fuel d id t);
          upd_state d id (set_emit EMITTED)
      | KIND_STRUCT | KIND_UNION =>
          d ← upd_state d id (set_emit EMITTING);
          d ← (if top_level_def || (name_off =? 0) then
                 vlen ← btf_vlen t;
                 emit_all (fun d m => btf_dump_emit_type fuel d m (if name_off =? 0 then cont_id else id)) d
                   (map (member_type t) (seqZ 0 vlen))
               else if negb (fwd_emitted tstate) && negb (id =? cont_id) then
                 d ← btf_dump_emit_struct_fwd d id t; upd_state (end_def d) id set_fwd
               else Some d);
          if top_level_def then
            d ← btf_dump_emit_struct_def fuel (btf_dump_emit_type_decl fuel) d id t 0;
            upd_state (end_def d) id (set_emit EMITTED)
          else upd_state d id (set_emit NOT_EMITTED)
      | KIND_FUNC_PROTO =>
          ty ← t_size t; d ← btf_dump_emit_type fuel d ty cont_id;
          vlen ← btf_vlen t;
          emit_all (fun d p => btf_dump_emit_type fuel d p cont_id) d
            (map (fun i => t_word t (8 * i + 4)) (seqZ 0 vlen))
      | _ => Some d
      end
  end.

Definition btf_dump__dump_type (fuel : nat) (d : btf_dump) (id : Z) : option (Z * btf_dump) :=
  if id >=? btf__type_cnt (d_btf d) then Some (- EINVAL, d) else
  '(err, d) ← btf_dump_resize d;
  if negb (err =? 0) then Some (err, d) else
  '(err, d) ← btf_dump_order_type fuel (set_queue d [] (emit_queue_cap d)) id false;
  if err <? 0 then Some (err, d) else
  d ← emit_all (fun d id => btf_dump_emit_type fuel d id 0) d (map Some (emit_queue d));
  Some (0, d).
End Dump.
