(* ===== verification/DumpOrder.v ===== *)
(** * The order in which definitions are emitted

    [btf_dump_order_type] of [BtfDump] queues the definitions a type needs.
    Here the types are read as a graph of kinds, names and references; what a
    type needs defined before itself is a relation on that graph, and the queue
    is proved to be sorted by it. *)

From S2P Require Import Prelude Hashmap StrSet Btf CoreTypes BtfDump.

(** ** The graph *)

Record node := Node { n_kind : kind; n_named : bool; n_refs : list Z }.

Definition order_refs (t : tptr) (k : kind) (vlen : Z) : list (option Z) :=
  match k with
  | KIND_PTR | KIND_TYPEDEF | KIND_VOLATILE | KIND_CONST | KIND_RESTRICT | KIND_TYPE_TAG => [t_size t]
  | KIND_ARRAY => [t_word t 0]
  | KIND_STRUCT | KIND_UNION => map (member_type t) (seqZ 0 vlen)
  | KIND_FUNC_PROTO => t_size t :: map (fun i => t_word t (8 * i + 4)) (seqZ 0 vlen)
  | _ => []
  end.

Definition node_at (b : btf) (id : Z) : option node :=
  p ← btf__type_by_id b id; t ← p;
  k ← dkind t; name_off ← t_name_off t; vlen ← btf_vlen t;
  refs ← mapM (fun x : option Z => x) (order_refs t k vlen);
  Some {| n_kind := k; n_named := negb (name_off =? 0); n_refs := refs |}.

Definition composite (k : kind) : bool := bool_decide (k ∈ [KIND_STRUCT; KIND_UNION]).

Definition leaf_def (k : kind) : bool := bool_decide (k ∈ [KIND_ENUM; KIND_ENUM64; KIND_FWD]).

(** A modifier or a typedef. *)
Definition transparent (k : kind) : bool :=
  bool_decide (k ∈ [KIND_VOLATILE; KIND_CONST; KIND_RESTRICT; KIND_TYPE_TAG; KIND_TYPEDEF]).

(** Decide the tests on a given kind. *)
Ltac kind_tests :=
  repeat match goal with
  | |- context [composite ?k] => let b := eval vm_compute in (composite k) in change (composite k) with b
  | |- context [leaf_def ?k] => let b := eval vm_compute in (leaf_def k) in change (leaf_def k) with b
  | |- context [transparent ?k] => let b := eval vm_compute in (transparent k) in change (transparent k) with b
  end.

(** One call of [btf_dump_order_type], on the graph. *)
Definition order_node (alloc_ok : Z -> bool) (rec : btf_dump -> Z -> bool -> option (Z * btf_dump))
    (d : btf_dump) (id : Z) (tp : bool) (a : btf_dump_type_aux_state) (n : node) : option (Z * btf_dump) :=
  let done r d := d ← upd_state d id (set_order ORDERED); Some (r, d) in
  if bool_decide (a_order a = ORDERED) then Some (1, d) else
  if bool_decide (a_order a = ORDERING) then
    Some (if composite (n_kind n) && tp && n_named n then 0 else - ELOOP, d)
  else
  if composite (n_kind n) then
    if tp && n_named n then Some (0, d) else
    d ← upd_state d id (set_order ORDERING);
    '(err, d) ← order_all (fun d m => rec d m false) d (map Some (n_refs n)) 0;
    if err <? 0 then Some (err, d) else
    if n_named n then queue_ordered alloc_ok d id else done 1 d
  else
  if leaf_def (n_kind n) then
    if n_named n || negb (referenced a) then queue_ordered alloc_ok d id else done 1 d
  else
  match n_kind n, n_refs n with
  | KIND_PTR, m :: _ => '(err, d) ← rec d m true; done err d
  | KIND_ARRAY, m :: _ => rec d m false
  | KIND_TYPEDEF, m :: _ =>
      '(s, d) ← rec d m tp;
      if s <? 0 then Some (s, d) else
      if tp && (s =? 0) then Some (0, d) else queue_ordered alloc_ok d id
  | (KIND_VOLATILE | KIND_CONST | KIND_RESTRICT | KIND_TYPE_TAG), m :: _ => rec d m tp
  | KIND_FUNC_PROTO, m :: ms =>
      '(err, d) ← rec d m tp;
      if err <? 0 then Some (err, d) else
      order_all (fun d p => rec d p tp) d (map Some ms) (if err >? 0 then 1 else 0)
  | (KIND_UNKN | KIND_OTHER), _ => Some (- EINVAL, d)
  | _, _ => done 0 d
  end.

Lemma mapM_map_Some {A} (l : list (option A)) r : mapM (fun x => x) l = Some r -> l = map Some r.
Proof.
  revert r. induction l as [|x l IH]; intros r; cbn; [by intros [= <-]|].
  intros (y & Hy & (rs & Hrs & [= <-])%bind_Some)%bind_Some. cbn. rewrite Hy. f_equal. by apply IH.
Qed.

Lemma order_step alloc_ok fuel d id tp a n : aref (type_states d) id = Some a -> node_at (d_btf d) id = Some n ->
  btf_dump_order_type alloc_ok (S fuel) d id tp =
  order_node alloc_ok (fun d m tp => btf_dump_order_type alloc_ok fuel d m tp) d id tp a n.
Proof.
  intros Ha Hn. unfold node_at in Hn. cbn [btf_dump_order_type]. rewrite Ha. cbn [mbind option_bind].
  unfold order_node. case_bool_decide as Eo; [done|]. unfold dtype.
  destruct (btf__type_by_id (d_btf d) id) as [p|]; [|done]. cbn [mbind option_bind] in *.
  destruct p as [t|]; [|done]. cbn [mbind option_bind] in *.
  destruct (dkind t) as [k|]; [|done]. cbn [mbind option_bind] in *.
  destruct (t_name_off t) as [no|]; [|done]. cbn [mbind option_bind] in *.
  destruct (btf_vlen t) as [vlen|]; [|done]. cbn [mbind option_bind] in *.
  destruct (mapM _ _) as [refs|] eqn:Er; [|done]. cbn [mbind option_bind] in Hn. injection Hn as <-. cbn [n_kind n_named n_refs].
  apply mapM_map_Some in Er. case_bool_decide; [done|].
  destruct k; cbn [order_refs] in Er; kind_tests;
    try (destruct refs as [|m ms]; [discriminate Er|]; injection Er as E1 E2; rewrite E1);
    try rewrite Er; try rewrite E2; reflexivity.
Qed.

(** ** What must be defined before what *)

Section Graph.
Context (G : Z -> option node) (isref : Z -> bool).

(** [needs tp id y]: whoever refers to [id], behind a pointer if [tp], needs
    the definition of [y] first.  Behind a pointer a name can be declared; the
    types of a prototype can be, always. *)
Inductive needs : bool -> Z -> Z -> Prop :=
| nd_composite id n : G id = Some n -> composite (n_kind n) = true -> n_named n = true -> needs false id id
| nd_anonymous tp id n m y : G id = Some n -> composite (n_kind n) = true -> n_named n = false ->
    m ∈ n_refs n -> needs false m y -> needs tp id y
| nd_leaf tp id n : G id = Some n -> leaf_def (n_kind n) = true -> n_named n || negb (isref id) = true -> needs tp id id
| nd_typedef id n : G id = Some n -> n_kind n = KIND_TYPEDEF -> needs false id id
| nd_through tp id n m y : G id = Some n -> transparent (n_kind n) = true -> m ∈ n_refs n -> needs tp m y -> needs tp id y
| nd_ptr tp id n m y : G id = Some n -> n_kind n = KIND_PTR -> m ∈ n_refs n -> needs true m y -> needs tp id y
| nd_array tp id n m y : G id = Some n -> n_kind n = KIND_ARRAY -> m ∈ n_refs n -> needs false m y -> needs tp id y
| nd_proto tp id n m y : G id = Some n -> n_kind n = KIND_FUNC_PROTO -> m ∈ n_refs n -> needs true m y -> needs tp id y.

(** What the definition of [y] itself needs: the members of a composite type,
    the type a typedef names. *)
Definition def_needs (y z : Z) : Prop := exists n m, G y = Some n /\ m ∈ n_refs n /\
  (composite (n_kind n) = true \/ n_kind n = KIND_TYPEDEF) /\ needs false m z.

(** The types with a definition of their own. *)
Definition defining (id : Z) : Prop := exists n, G id = Some n /\
  (composite (n_kind n) = true /\ n_named n = true \/
   leaf_def (n_kind n) = true /\ n_named n || negb (isref id) = true \/ n_kind n = KIND_TYPEDEF).

Lemma needs_defining tp id y : needs tp id y -> defining y.
Proof. induction 1; try done; eexists; (split; [done|]); tauto. Qed.

Lemma needs_weaken id y : needs true id y -> needs false id y.
Proof.
  intros H. remember true as tp eqn:E. induction H; try discriminate.
  - by eapply nd_anonymous.
  - by eapply nd_leaf.
  - subst. by eapply nd_through; [| | |apply IHneeds].
  - by eapply nd_ptr.
  - by eapply nd_array.
  - by eapply nd_proto.
Qed.

Lemma needs_any tp id y : needs tp id y -> needs false id y.
Proof. destruct tp; [apply needs_weaken|done]. Qed.

(** The types met on the way from the members of [x], with whether a pointer
    was passed since the last composite type or array. *)
Inductive within (x : Z) : bool -> Z -> Prop :=
| wi_member n m : G x = Some n -> composite (n_kind n) = true -> m ∈ n_refs n -> within x false m
| wi_composite tp id n m : within x tp id -> G id = Some n -> composite (n_kind n) = true ->
    tp && n_named n = false -> m ∈ n_refs n -> within x false m
| wi_through tp id n m : within x tp id -> G id = Some n -> transparent (n_kind n) = true -> m ∈ n_refs n -> within x tp m
| wi_ptr tp id n m : within x tp id -> G id = Some n -> n_kind n = KIND_PTR -> m ∈ n_refs n -> within x true m
| wi_array tp id n m : within x tp id -> G id = Some n -> n_kind n = KIND_ARRAY -> m ∈ n_refs n -> within x false m
| wi_proto tp id n m : within x tp id -> G id = Some n -> n_kind n = KIND_FUNC_PROTO -> m ∈ n_refs n -> within x tp m.

(** [x] contains itself where it would have to be complete: no order of
    definitions will do. *)
Definition contains_itself (x : Z) : Prop := exists tp n, G x = Some n /\ composite (n_kind n) = true /\
  within x tp x /\ tp && n_named n = false.

(** A queue behind the definitions [hist]: every definition comes after those
    it needs. *)
Definition sorted_behind (hist q : list Z) : Prop := forall q1 y q2, q = q1 ++ y :: q2 ->
  forall z, def_needs y z -> z ∈ hist ++ q1.

Lemma sorted_snoc hist q y : sorted_behind hist q -> (forall z, def_needs y z -> z ∈ hist ++ q) -> sorted_behind hist (q ++ [y]).
Proof.
  intros Hs Hy q1 x q2 E z Hz. destruct q2 as [|w q2 _] using rev_ind.
  - apply app_inj_tail in E as [-> ->]. by apply Hy.
  - rewrite app_comm_cons, app_assoc in E. apply app_inj_tail in E as [-> _]. by apply (Hs q1 x q2).
Qed.
End Graph.

(** ** The invariant *)

Definition ord (d : btf_dump) (id : Z) : option order_state := a_order <$> aref (type_states d) id.

Section Order.
Context (alloc_ok : Z -> bool) (b : btf) (cnt : Z) (rank : Z -> nat) (top : nat) (isref : Z -> bool).

Abbreviation G := (node_at b) (only parsing).

(** Every type can be read and refers to types; outside composite types
    references do not go round in circles. *)
Record graph_ok : Prop := {
  go_node id : 0 <= id < cnt -> is_Some (G id);
  go_known id n : 0 < id < cnt -> G id = Some n -> n_kind n <> KIND_UNKN /\ n_kind n <> KIND_OTHER;
  go_refs id n m : 0 <= id < cnt -> G id = Some n -> m ∈ n_refs n -> 0 <= m < cnt;
  go_rank id n m : 0 <= id < cnt -> G id = Some n -> composite (n_kind n) = false -> m ∈ n_refs n -> (rank m < rank id)%nat;
  go_top id : (rank id < top)%nat;
}.

Record order_inv (hist : list Z) (d : btf_dump) : Prop := {
  oi_btf : d_btf d = b;
  oi_len : cnt <= Z.of_nat (length (type_states d));
  oi_ref id a : 0 <= id < cnt -> aref (type_states d) id = Some a -> referenced a = isref id;
  oi_void : ord d 0 = Some ORDERED;
  oi_done id z : 0 <= id < cnt -> ord d id = Some ORDERED -> needs G isref false id z -> ord d z = Some ORDERED;
  oi_queue id : 0 <= id < cnt -> defining G isref id -> ord d id = Some ORDERED <-> id ∈ hist ++ emit_queue d;
  oi_sorted : sorted_behind G isref hist (emit_queue d);
  oi_ordering id : ord d id = Some ORDERING -> exists n, G id = Some n /\ composite (n_kind n) = true;
}.

Record grows (d d' : btf_dump) : Prop := {
  gr_ordering id : ord d id = Some ORDERING <-> ord d' id = Some ORDERING;
  gr_done id : ord d id = Some ORDERED -> ord d' id = Some ORDERED;
  gr_new id : ord d' id = Some NOT_ORDERED -> ord d id = Some NOT_ORDERED;
}.

Lemma grows_same d : grows d d.
Proof. by split. Qed.

Lemma grows_chain d1 d2 d3 : grows d1 d2 -> grows d2 d3 -> grows d1 d3.
Proof.
  intros [H1 H2 H3] [H4 H5 H6]. split; [intros id; by rewrite H1|intros id ?; by apply H5, H2|intros id ?; by apply H3, H6].
Qed.

(** The types not yet taken up. *)
Definition left_over (d : btf_dump) : nat :=
  length (filter (fun i => ord d i = Some NOT_ORDERED) (seqZ 0 cnt)).

Lemma left_le d d' : (forall id, ord d' id = Some NOT_ORDERED -> ord d id = Some NOT_ORDERED) -> (left_over d' <= left_over d)%nat.
Proof.
  intros H. unfold left_over. induction (seqZ 0 cnt) as [|x l IH]; [done|]. rewrite !filter_cons.
  repeat case_decide; cbn; try lia. exfalso. by auto.
Qed.

Lemma left_lt d d' id : 0 <= id < cnt -> ord d id = Some NOT_ORDERED -> ord d' id <> Some NOT_ORDERED ->
  (forall id, ord d' id = Some NOT_ORDERED -> ord d id = Some NOT_ORDERED) -> (left_over d' < left_over d)%nat.
Proof.
  intros Hid H1 H2 H. unfold left_over. assert (Hin : id ∈ seqZ 0 cnt) by (apply elem_of_seqZ; lia).
  induction (seqZ 0 cnt) as [|x l IH]; [by apply elem_of_nil in Hin|]. rewrite !filter_cons.
  assert (Hle : (length (filter (fun i => ord d' i = Some NOT_ORDERED) l) <= length (filter (fun i => ord d i = Some NOT_ORDERED) l))%nat).
  { clear -H. induction l as [|y l IH]; [done|]. rewrite !filter_cons. repeat case_decide; cbn; try lia. exfalso. by auto. }
  apply elem_of_cons in Hin as [->|Hin].
  - destruct (decide (ord d' x = _)); [done|]. destruct (decide (ord d x = _)); [cbn; lia|done].
  - specialize (IH Hin). repeat case_decide; cbn; try lia. exfalso. by auto.
Qed.

Lemma upd_state_spec d id f a : aref (type_states d) id = Some a -> exists l, upd_state d id f = Some (set_states d l) /\
  length l = length (type_states d) /\ aref l id = Some (f a) /\ (forall j, j <> id -> aref l j = aref (type_states d) j).
Proof.
  intros Ha. unfold upd_state. rewrite Ha. cbn [mbind option_bind].
  destruct (aset_defined (type_states d) id a (f a) Ha) as [l Hl]. rewrite Hl. cbn [mbind option_bind]. exists l.
  split; [done|]. pose proof (aset_inv _ _ _ _ Hl) as [_ E].
  split; [rewrite E; apply length_insert|]. split; [by apply (aref_aset_eq _ _ _ _ Hl)|]. intros j Hj. by apply (aref_aset_ne _ _ _ _ _ Hl).
Qed.

Lemma set_order_spec d id o : is_Some (ord d id) -> exists d', upd_state d id (set_order o) = Some d' /\
  d_btf d' = d_btf d /\ emit_queue d' = emit_queue d /\ emit_queue_cap d' = emit_queue_cap d /\
  length (type_states d') = length (type_states d) /\
  ord d' id = Some o /\ (forall j, j <> id -> ord d' j = ord d j) /\
  (forall j a', aref (type_states d') j = Some a' -> exists a, aref (type_states d) j = Some a /\ referenced a = referenced a').
Proof.
  unfold ord. intros [x Hx]. destruct (aref (type_states d) id) as [a|] eqn:Ha; [|done].
  destruct (upd_state_spec d id (set_order o) a Ha) as (l & E & Hl & Hid & Hne). exists (set_states d l).
  split; [done|]. cbn. do 4 (split; [done|]). rewrite Hid. split; [done|]. split; [intros j Hj; by rewrite Hne|].
  intros j a' Ha'. destruct (Z.eq_dec j id) as [->|Hj]; [|rewrite Hne in Ha' by done; by exists a'].
  rewrite Hid in Ha'. injection Ha' as <-. by exists a.
Qed.

(** Taking up a composite type. *)
Lemma inv_ordering hist d id n : order_inv hist d -> 0 <= id < cnt -> ord d id = Some NOT_ORDERED ->
  G id = Some n -> composite (n_kind n) = true ->
  exists d', upd_state d id (set_order ORDERING) = Some d' /\ order_inv hist d' /\
    length (type_states d') = length (type_states d) /\ ord d' id = Some ORDERING /\ (forall j, j <> id -> ord d' j = ord d j).
Proof.
  intros [Hb Hl Hr Hv Hd Hq Hs Ho] Hid Hno Hn Hc. destruct (set_order_spec d id ORDERING) as (d' & E & Eb & Eq & _ & El & Eid & Ene & Er); [by eexists|].
  exists d'. split; [done|]. split; [|done].
  assert (Hord : forall j, ord d' j = Some ORDERED <-> ord d j = Some ORDERED).
  { intros j. destruct (Z.eq_dec j id) as [->|]; [|by rewrite Ene]. rewrite Eid, Hno. split; congruence. }
  split; [by rewrite Eb|by rewrite El| |by apply Hord| | |by rewrite Eq|].
  - intros j a Hj Ha. destruct (Er j a Ha) as (a' & Ha' & <-). by apply Hr.
  - intros j z Hj Hjd Hz. apply Hord. apply (Hd j); [done|by apply Hord|done].
  - intros j Hj Hdef. by rewrite Hord, Eq, Hq.
  - intros j Hj. destruct (Z.eq_dec j id) as [->|Hne]; [by exists n|apply Ho; by rewrite <- Ene].
Qed.

(** Marking a type as ordered whose needs are met and whose definition, if it
    has one, is queued. *)
Lemma inv_done hist d id : order_inv hist d -> 0 <= id < cnt -> is_Some (ord d id) ->
  (forall z, needs G isref false id z -> z = id \/ ord d z = Some ORDERED) -> (defining G isref id -> id ∈ hist ++ emit_queue d) ->
  exists d', upd_state d id (set_order ORDERED) = Some d' /\ order_inv hist d' /\
    length (type_states d') = length (type_states d) /\ ord d' id = Some ORDERED /\ (forall j, j <> id -> ord d' j = ord d j).
Proof.
  intros [Hb Hl Hr Hv Hd Hq Hs Ho] Hid Hsome Hneeds Hdef. destruct (set_order_spec d id ORDERED) as (d' & E & Eb & Eq & _ & El & Eid & Ene & Er); [done|].
  exists d'. split; [done|]. split; [|done].
  assert (Hord : forall j, ord d j = Some ORDERED -> ord d' j = Some ORDERED).
  { intros j Hj. destruct (Z.eq_dec j id) as [->|]; [done|by rewrite Ene]. }
  split; [by rewrite Eb|by rewrite El| |by apply Hord| | |by rewrite Eq|].
  - intros j a Hj Ha. destruct (Er j a Ha) as (a' & Ha' & <-). by apply Hr.
  - intros j z Hj Hjd Hz. destruct (Z.eq_dec j id) as [->|Hne].
    + destruct (Hneeds z Hz) as [->|Hzd]; [done|by apply Hord].
    + rewrite Ene in Hjd by done. by apply Hord, (Hd j).
  - intros j Hj Hjdef. rewrite Eq. destruct (Z.eq_dec j id) as [->|Hne]; [split; [by intros _; apply Hdef|done]|].
    rewrite Ene by done. by apply Hq.
  - intros j Hj. destruct (Z.eq_dec j id) as [->|Hne]; [congruence|apply Ho; by rewrite <- Ene].
Qed.

Context (Hg : graph_ok).

Lemma needs_range tp id z : needs G isref tp id z -> 0 <= id < cnt -> 0 <= z < cnt.
Proof.
  induction 1 as [id n Hn|tp id n m y Hn ? ? Hm ? IH|tp id n Hn|id n Hn|tp id n m y Hn ? Hm ? IH|tp id n m y Hn ? Hm ? IH|
    tp id n m y Hn ? Hm ? IH|tp id n m y Hn ? Hm ? IH]; intros Hid; try done; by apply IH, (go_refs Hg id n m).
Qed.

Lemma def_needs_range y z : def_needs G isref y z -> 0 <= y < cnt -> 0 <= z < cnt /\ defining G isref z.
Proof.
  intros (n & m & Hn & Hm & _ & Hz) Hy. split; [|by eapply needs_defining].
  eapply needs_range; [exact Hz|]. by apply (go_refs Hg y n m).
Qed.

Lemma queue_spec hist d id : order_inv hist d -> 0 <= id < cnt -> is_Some (ord d id) -> defining G isref id ->
  (forall z, def_needs G isref id z -> ord d z = Some ORDERED) ->
  (forall z, needs G isref false id z -> z = id \/ ord d z = Some ORDERED) ->
  exists r d', queue_ordered alloc_ok d id = Some (r, d') /\
    (r = - ENOMEM /\ (exists k, alloc_ok k = false) /\ length (type_states d') = length (type_states d) \/
     r = 1 /\ order_inv hist d' /\ length (type_states d') = length (type_states d) /\
     ord d' id = Some ORDERED /\ (forall j, j <> id -> ord d' j = ord d j)).
Proof.
  intros Hi Hid Hsome Hdef Hdn Hneeds. unfold queue_ordered.
  assert (Hadd : exists r d1, btf_dump_add_emit_queue_id alloc_ok d id = Some (r, d1) /\
    (r = - ENOMEM /\ (exists k, alloc_ok k = false) /\ d1 = d \/ r = 0 /\ exists cap, d1 = set_queue d (emit_queue d ++ [id]) cap)).
  { unfold btf_dump_add_emit_queue_id. destruct (_ >=? _); [|eexists _, _; split; [done|right; split; [done|by eexists]]].
    set (cap := Z.max _ _). destruct (alloc_ok (cap * 4)) eqn:Ha.
    - eexists _, _. split; [done|right]. split; [done|by eexists].
    - eexists _, _. split; [done|left]. split; [done|]. split; [by eexists|done]. }
  destruct Hadd as (r & d1 & -> & [(-> & Hoom & ->)|(-> & cap & ->)]); cbn [mbind option_bind].
  { eexists _, _. split; [done|]. by left. }
  cbn [Z.ltb Z.compare]. destruct Hi as [Hb Hl Hr Hv Hd Hq Hs Ho].
  destruct (set_order_spec (set_queue d (emit_queue d ++ [id]) cap) id ORDERED) as (d' & E & Eb & Eq & _ & El & Eid & Ene & Er); [done|].
  rewrite E. cbn [mbind option_bind]. eexists _, _. split; [done|]. right. split; [done|].
  change (forall j, j <> id -> ord d' j = ord d j) in Ene. cbn in Eb, Eq, El.
  assert (Hord : forall j, ord d j = Some ORDERED -> ord d' j = Some ORDERED).
  { intros j Hj. destruct (Z.eq_dec j id) as [->|]; [done|by rewrite Ene]. }
  split; [|done].
  split; [by rewrite Eb|by rewrite El| |by apply Hord| | | |].
  - intros j a Hj Ha. destruct (Er j a Ha) as (a' & Ha' & <-). by apply Hr.
  - intros j z Hj Hjd Hz. destruct (Z.eq_dec j id) as [->|Hne].
    + destruct (Hneeds z Hz) as [->|Hzd]; [done|by apply Hord].
    + rewrite Ene in Hjd by done. by apply Hord, (Hd j).
  - intros j Hj Hjdef. rewrite Eq, app_assoc. destruct (Z.eq_dec j id) as [->|Hne].
    + split; [intros _; apply elem_of_app; right; by apply list_elem_of_singleton|done].
    + rewrite Ene, Hq by done. rewrite (elem_of_app _ [id]), list_elem_of_singleton. naive_solver.
  - rewrite Eq. apply sorted_snoc; [done|]. intros z Hz. destruct (def_needs_range id z Hz Hid) as [Hzr Hzd].
    apply Hq; [done|done|]. by apply Hdn.
  - intros j Hj. destruct (Z.eq_dec j id) as [->|Hne]; [congruence|apply Ho; by rewrite <- Ene].
Qed.

(** ** The recursion *)

Definition failed (r : Z) : Prop := r < 0 /\
  (r = - ENOMEM /\ (exists k, alloc_ok k = false) \/ r = - ELOOP /\ exists x, contains_itself G x).

Definition order_post (hist : list Z) (d : btf_dump) (id : Z) (tp : bool) (r : Z) (d' : btf_dump) : Prop :=
  length (type_states d') = length (type_states d) /\
  (failed r \/
   (r = 0 \/ r = 1) /\ order_inv hist d' /\ grows d d' /\
   (forall z, needs G isref tp id z -> ord d' z = Some ORDERED) /\
   (r = 1 -> forall z, needs G isref false id z -> ord d' z = Some ORDERED)).

(** Everything being worked on contains [id]. *)
Definition on_the_way (d : btf_dump) (tp : bool) (id : Z) : Prop :=
  forall x, ord d x = Some ORDERING -> within G x tp id.

Lemma order_all_spec hist rec tp ms : forall d s,
  (forall d1 m, m ∈ ms -> order_inv hist d1 -> grows d d1 -> exists r d2, rec d1 m = Some (r, d2) /\ order_post hist d1 m tp r d2) ->
  order_inv hist d -> s = 0 \/ s = 1 ->
  exists r d', order_all rec d (map Some ms) s = Some (r, d') /\ length (type_states d') = length (type_states d) /\
    (failed r \/ (r = 0 \/ r = 1) /\ order_inv hist d' /\ grows d d' /\
       forall m z, m ∈ ms -> needs G isref tp m z -> ord d' z = Some ORDERED).
Proof.
  induction ms as [|m ms IH]; intros d s Hrec Hi Hs; cbn [order_all map].
  { eexists _, _. split; [done|]. split; [done|]. right. split; [done|]. split; [done|]. split; [apply grows_same|]. by intros m z ?%elem_of_nil. }
  cbn [mbind option_bind]. destruct (Hrec d m) as (r & d1 & -> & Hlen & Hr); [by left|done|apply grows_same|]. cbn [mbind option_bind].
  destruct Hr as [Hf|(Hr & Hi1 & Hg1 & Hz1 & _)].
  { pose proof Hf as [Hneg _]. destruct (Z.ltb_spec r 0); [|lia]. eexists _, _. split; [done|]. split; [done|]. by left. }
  destruct (Z.ltb_spec r 0); [lia|].
  destruct (IH d1 (if r >? 0 then 1 else s)) as (r' & d2 & -> & Hlen' & Hr').
  - intros d2 m' Hm' Hi2 Hg2. apply Hrec; [by right|done|by eapply grows_chain].
  - done.
  - destruct (r >? 0); [by right|done].
  - eexists _, _. split; [done|]. split; [congruence|]. destruct Hr' as [?|(Hr' & Hi2 & Hg2 & Hz2)]; [by left|right].
    split; [done|]. split; [done|]. split; [by eapply grows_chain|]. intros m' z [->|Hm']%elem_of_cons Hz; [|by eapply Hz2].
    by apply (gr_done _ _ Hg2), Hz1.
Qed.

Lemma needs_cases tp id y n : G id = Some n -> needs G isref tp id y ->
  composite (n_kind n) = true /\
    (n_named n = true /\ tp = false /\ y = id \/ n_named n = false /\ exists m, m ∈ n_refs n /\ needs G isref false m y) \/
  leaf_def (n_kind n) = true /\ n_named n || negb (isref id) = true /\ y = id \/
  n_kind n = KIND_TYPEDEF /\ tp = false /\ y = id \/
  (exists m tp', m ∈ n_refs n /\ needs G isref tp' m y /\
     (transparent (n_kind n) = true /\ tp' = tp \/ n_kind n = KIND_PTR /\ tp' = true \/
      n_kind n = KIND_ARRAY /\ tp' = false \/ n_kind n = KIND_FUNC_PROTO /\ tp' = true)).
Proof.
  intros Hn H. inversion H as [? n' Hn'|? ? n' m ? Hn'|? ? n' Hn'|? n' Hn'|? ? n' m ? Hn'|? ? n' m ? Hn'|? ? n' m ? Hn'|? ? n' m ? Hn'];
    subst; assert (n' = n) as -> by congruence.
  - left. split; [done|]. by left.
  - left. split; [done|]. right. split; [done|]. by exists m.
  - right. left. done.
  - right. right. left. done.
  - right. right. right. exists m, tp. split; [done|]. split; [done|]. by left.
  - right. right. right. exists m, true. split; [done|]. split; [done|]. right. by left.
  - right. right. right. exists m, false. split; [done|]. split; [done|]. right. right. by left.
  - right. right. right. exists m, true. split; [done|]. split; [done|]. by do 3 right.
Qed.

(** How many references a type has. *)
Lemma node_refs id n : G id = Some n ->
  (transparent (n_kind n) = true \/ n_kind n = KIND_PTR \/ n_kind n = KIND_ARRAY -> exists m, n_refs n = [m]) /\
  (n_kind n = KIND_FUNC_PROTO -> exists m ms, n_refs n = m :: ms).
Proof.
  unfold node_at. intros H. destruct (btf__type_by_id b id) as [[t|]|]; [|done|done]. cbn [mbind option_bind] in H.
  destruct (dkind t) as [k|]; [|done]. cbn [mbind option_bind] in H. destruct (t_name_off t) as [no|]; [|done]. cbn [mbind option_bind] in H.
  destruct (btf_vlen t) as [vlen|]; [|done]. cbn [mbind option_bind] in H. destruct (mapM _ _) as [refs|] eqn:E; [|done].
  cbn [mbind option_bind] in H. injection H as <-. cbn. apply mapM_map_Some in E. split.
  - intros Hk. destruct k; try (exfalso; vm_compute in Hk; intuition congruence);
      (destruct refs as [|m [|m' ms]]; [discriminate E|by exists m|discriminate E]).
  - intros ->. destruct refs as [|m ms]; [discriminate E|by exists m, ms].
Qed.

(** The three things [order_node] does on its own. *)
Lemma post_ordered hist d id tp : order_inv hist d -> 0 <= id < cnt -> ord d id = Some ORDERED -> order_post hist d id tp 1 d.
Proof.
  intros Hi Hid Ho. split; [done|]. right. split; [by right|]. split; [done|]. split; [apply grows_same|].
  assert (H : forall z, needs G isref false id z -> ord d z = Some ORDERED) by (intros z; by apply (oi_done _ _ Hi)).
  split; [intros z ?%needs_any; by apply H|by intros _].
Qed.

Definition grows_but (id : Z) (d d' : btf_dump) : Prop := forall j, j <> id ->
  (ord d j = Some ORDERING <-> ord d' j = Some ORDERING) /\ (ord d j = Some ORDERED -> ord d' j = Some ORDERED) /\
  (ord d' j = Some NOT_ORDERED -> ord d j = Some NOT_ORDERED).

Lemma grows_grows_but id d d' : grows d d' -> grows_but id d d'.
Proof. intros [H1 H2 H3] j _. split; [apply H1|]. split; [apply H2|apply H3]. Qed.

(** The type at hand is finished. *)
Lemma post_finish hist d0 d d' id tp r : order_inv hist d' -> length (type_states d') = length (type_states d0) -> 0 <= id < cnt ->
  ord d0 id = Some NOT_ORDERED -> grows_but id d0 d -> ord d' id = Some ORDERED -> (forall j, j <> id -> ord d' j = ord d j) ->
  r = 0 \/ r = 1 -> order_post hist d0 id tp r d'.
Proof.
  intros Hi Hl Hid H0 Hgb Hd Hne Hr. split; [done|]. right. split; [done|]. split; [done|].
  destruct (post_ordered hist d' id tp Hi Hid Hd) as (_ & [[? _]|(_ & _ & _ & Hz & Hz1)]); [lia|].
  split; [|split; [done|by intros _; apply Hz1]].
  split; intros j; (destruct (Z.eq_dec j id) as [->|Hj]; [rewrite ?H0, ?Hd; split || intros; congruence|rewrite Hne by done; by apply Hgb]).
Qed.

Lemma failed_neg r : failed r -> (r <? 0) = true.
Proof. intros [H _]. by apply Z.ltb_lt. Qed.

Lemma node_ord hist d id : order_inv hist d -> 0 <= id < cnt -> exists a, aref (type_states d) id = Some a /\ ord d id = Some (a_order a).
Proof.
  intros Hi Hid. destruct (aref_Some (type_states d) id) as [a Ha]; [pose proof (oi_len _ _ Hi); lia|]. exists a.
  split; [done|]. unfold ord. by rewrite Ha.
Qed.

Section Step.
Context (hist : list Z) (rec : btf_dump -> Z -> bool -> option (Z * btf_dump)) (d : btf_dump) (id : Z) (tp : bool).
Context (a : btf_dump_type_aux_state) (n : node) (Hn : G id = Some n) (Hid : 0 <= id < cnt).
Context (Hi : order_inv hist d) (Ha : aref (type_states d) id = Some a) (Hway : on_the_way d tp id).

Definition rec_ok (d1 : btf_dump) (m : Z) (tp1 : bool) : Prop :=
  exists r d2, rec d1 m tp1 = Some (r, d2) /\ order_post hist d1 m tp1 r d2.

(** What the recursive calls do, for members of a composite type taken up, and
    for the references of another. *)
Context (Hmember : forall d1 m, composite (n_kind n) = true -> m ∈ n_refs n -> order_inv hist d1 ->
  (left_over d1 < left_over d)%nat -> on_the_way d1 false m -> rec_ok d1 m false).
Context (Hnext : forall d1 m tp1, composite (n_kind n) = false -> m ∈ n_refs n -> order_inv hist d1 -> grows d d1 ->
  on_the_way d1 tp1 m -> rec_ok d1 m tp1).

Lemma step_composite : composite (n_kind n) = true -> a_order a = NOT_ORDERED ->
  exists r d', order_node alloc_ok rec d id tp a n = Some (r, d') /\ order_post hist d id tp r d'.
Proof.
  intros Hc Hno. assert (Hord : ord d id = Some NOT_ORDERED) by (unfold ord; rewrite Ha; cbn; by rewrite Hno).
  unfold order_node. rewrite Hno, Hc. cbn [bool_decide]. rewrite !bool_decide_false by done.
  destruct (tp && n_named n) eqn:Etp.
  { apply andb_true_iff in Etp as [-> Hnm]. eexists _, _. split; [done|]. split; [done|]. right. split; [by left|].
    split; [done|]. split; [apply grows_same|]. split; [|lia]. intros z Hz. exfalso.
    destruct (needs_cases _ _ _ n Hn Hz) as [(_ & [(_ & ? & _)|(? & _)])|[(? & _)|[(? & _)|(m & tp' & _ & _ & Hk)]]]; try congruence.
    - destruct (n_kind n); vm_compute in Hc, H; congruence.
    - rewrite H in Hc. vm_compute in Hc. congruence.
    - destruct (n_kind n); vm_compute in Hc, Hk; intuition congruence. }
  destruct (inv_ordering hist d id n Hi Hid Hord Hn Hc) as (d1 & E1 & Hi1 & Hl1 & Ho1 & Hne1). rewrite E1. cbn [mbind option_bind].
  assert (Hleft : (left_over d1 < left_over d)%nat).
  { apply (left_lt d d1 id); [done|done|congruence|]. intros j Hj. destruct (Z.eq_dec j id) as [->|]; [congruence|by rewrite <- Hne1]. }
  destruct (order_all_spec hist (fun d m => rec d m false) false (n_refs n) d1 0) as (r & d2 & -> & Hl2 & Hr); [|done|by left|].
  { intros d2 m Hm Hi2 Hg2. apply Hmember; [done|done|done| |].
    - pose proof (left_le d1 d2 (gr_new _ _ Hg2)). lia.
    - intros x Hx. apply (gr_ordering _ _ Hg2) in Hx. destruct (Z.eq_dec x id) as [->|Hxi]; [by eapply wi_member|].
      rewrite Hne1 in Hx by done. eapply (wi_composite _ _ tp id); [by apply Hway|done..]. }
  cbn [mbind option_bind]. destruct Hr as [Hf|(Hr & Hi2 & Hg2 & Hz2)].
  { rewrite (failed_neg _ Hf). eexists _, _. split; [done|]. split; [congruence|by left]. }
  destruct (Z.ltb_spec r 0); [lia|].
  assert (Hgb : grows_but id d d2).
  { intros j Hj. rewrite <- (Hne1 j Hj). by apply (grows_grows_but id d1 d2). }
  assert (Hsome : is_Some (ord d2 id)) by (eexists; apply (gr_ordering _ _ Hg2), Ho1).
  assert (Hmem : forall z, def_needs G isref id z -> ord d2 z = Some ORDERED).
  { intros z (n' & m & Hn' & Hm & _ & Hz). assert (n' = n) as -> by congruence. by eapply Hz2. }
  assert (Hself : forall z, needs G isref false id z -> z = id \/ ord d2 z = Some ORDERED).
  { intros z Hz. destruct (needs_cases _ _ _ n Hn Hz) as [(_ & [(_ & _ & ->)|(_ & m & Hm & Hmz)])|[(Hl & _ & ->)|[(_ & _ & ->)|(m & tp' & Hm & Hmz & _)]]];
      [by left|right; by eapply Hz2|by left|by left|right]. apply (Hz2 m); [done|by eapply needs_any]. }
  destruct (n_named n) eqn:Hnm.
  - destruct (queue_spec hist d2 id) as (r' & d3 & -> & Hq); [done|done|done| |done|done|].
    { exists n. split; [done|]. by left. }
    eexists _, _. split; [done|]. destruct Hq as [(-> & Hoom & Hl3)|(-> & Hi3 & Hl3 & Ho3 & Hne3)].
    + split; [congruence|]. left. split; [lia|by left].
    + apply (post_finish hist d d2 d3); [done|congruence|done..|by right].
  - destruct (inv_done hist d2 id Hi2 Hid Hsome Hself) as (d3 & -> & Hi3 & Hl3 & Ho3 & Hne3).
    { intros (n' & Hn' & Hd). assert (n' = n) as -> by congruence. exfalso. destruct Hd as [[_ ?]|[[Hl _]|Ht]]; [congruence| |].
      - destruct (n_kind n); vm_compute in Hc, Hl; congruence.
      - rewrite Ht in Hc. vm_compute in Hc. congruence. }
    cbn [mbind option_bind]. eexists _, _. split; [done|]. apply (post_finish hist d d2 d3); [done|congruence|done..|by right].
Qed.

Lemma step_leaf : composite (n_kind n) = false -> leaf_def (n_kind n) = true -> a_order a = NOT_ORDERED ->
  exists r d', order_node alloc_ok rec d id tp a n = Some (r, d') /\ order_post hist d id tp r d'.
Proof.
  intros Hc Hl Hno. assert (Hord : ord d id = Some NOT_ORDERED) by (unfold ord; rewrite Ha; cbn; by rewrite Hno).
  unfold order_node. rewrite Hno, Hc, Hl, !bool_decide_false by done. rewrite (oi_ref _ _ Hi id a Hid Ha).
  assert (Hself : forall z, needs G isref false id z -> z = id \/ ord d z = Some ORDERED).
  { intros z Hz. left. destruct (needs_cases _ _ _ n Hn Hz) as [(? & _)|[(_ & _ & ->)|[(_ & _ & ->)|(m & tp' & _ & _ & Hk)]]];
      [congruence|done|done|]. exfalso. destruct (n_kind n); vm_compute in Hl, Hk; intuition congruence. }
  destruct (n_named n || negb (isref id)) eqn:Hdef.
  - destruct (queue_spec hist d id) as (r' & d3 & -> & Hq); [done|done|by eexists| | |done|].
    { exists n. split; [done|]. right. by left. }
    { intros z (n' & m & Hn' & Hm & Hk & _). assert (n' = n) as -> by congruence. exfalso.
      destruct Hk as [?|Hk]; [congruence|rewrite Hk in Hl; by vm_compute in Hl]. }
    eexists _, _. split; [done|]. destruct Hq as [(-> & Hoom & Hl3)|(-> & Hi3 & Hl3 & Ho3 & Hne3)].
    + split; [done|]. left. split; [lia|by left].
    + apply (post_finish hist d d d3); [done|congruence|done|done|apply grows_grows_but, grows_same|done|done|by right].
  - destruct (inv_done hist d id Hi Hid) as (d3 & -> & Hi3 & Hl3 & Ho3 & Hne3); [by eexists|done| |].
    { intros (n' & Hn' & Hd). assert (n' = n) as -> by congruence. exfalso. destruct Hd as [[? _]|[[_ ?]|Ht]]; [congruence|congruence|].
      rewrite Ht in Hl. by vm_compute in Hl. }
    cbn [mbind option_bind]. eexists _, _. split; [done|].
    apply (post_finish hist d d d3); [done|congruence|done|done|apply grows_grows_but, grows_same|done|done|by right].
Qed.

(** Passing through to the reference, with the weaker or the same flag. *)
Lemma step_next m tp1 : composite (n_kind n) = false -> m ∈ n_refs n -> (forall x, within G x tp id -> within G x tp1 m) -> rec_ok d m tp1.
Proof.
  intros Hc Hm Hw. apply Hnext; [done|done|done|apply grows_same|]. intros x Hx. apply Hw, Hway, Hx.
Qed.

(** The needs of a type that is neither composite nor a definition of its own
    are those of its references. *)
Lemma needs_refs tp1 z : composite (n_kind n) = false -> leaf_def (n_kind n) = false ->
  needs G isref tp1 id z -> n_kind n = KIND_TYPEDEF /\ tp1 = false /\ z = id \/
  exists m tp2, m ∈ n_refs n /\ needs G isref tp2 m z /\
    (transparent (n_kind n) = true /\ tp2 = tp1 \/ n_kind n = KIND_PTR /\ tp2 = true \/
     n_kind n = KIND_ARRAY /\ tp2 = false \/ n_kind n = KIND_FUNC_PROTO /\ tp2 = true).
Proof.
  intros Hc Hl Hz. destruct (needs_cases _ _ _ n Hn Hz) as [(? & _)|[(? & _)|[H|H]]]; [congruence|congruence|by left|by right].
Qed.

Lemma not_defining : composite (n_kind n) = false -> leaf_def (n_kind n) = false -> n_kind n <> KIND_TYPEDEF -> ~ defining G isref id.
Proof. intros Hc Hl Ht (n' & Hn' & Hd). assert (n' = n) as -> by congruence. destruct Hd as [[? _]|[[? _]|?]]; congruence. Qed.

Lemma post_pass m tp1 : rec_ok d m tp1 -> (forall z, needs G isref tp id z -> needs G isref tp1 m z) ->
  (forall z, needs G isref false id z -> needs G isref false m z) ->
  exists r d', rec d m tp1 = Some (r, d') /\ order_post hist d id tp r d'.
Proof.
  intros (r & d' & E & Hl & Hr) H1 H2. exists r, d'. split; [done|]. split; [done|].
  destruct Hr as [Hr|(Hr & Hi' & Hg' & Hz & Hz1)]; [by left|right]. do 3 (split; [done|]).
  split; [intros z Hz'; by apply Hz, H1|intros E1 z Hz'; by apply Hz1, H2].
Qed.

Context (Hc : composite (n_kind n) = false) (Hl : leaf_def (n_kind n) = false).
Context (Hord : ord d id = Some NOT_ORDERED).

Lemma step_nothing : n_refs n = [] \/ transparent (n_kind n) = false /\ n_kind n <> KIND_PTR /\ n_kind n <> KIND_ARRAY /\ n_kind n <> KIND_FUNC_PROTO ->
  n_kind n <> KIND_TYPEDEF ->
  exists r d', (d ← upd_state d id (set_order ORDERED); Some (0, d)) = Some (r, d') /\ order_post hist d id tp r d'.
Proof.
  intros Hk Ht. destruct (inv_done hist d id Hi Hid) as (d1 & -> & Hi1 & Hl1 & Ho1 & Hne1); [by eexists| | |].
  - intros z Hz. exfalso. destruct (needs_refs false z Hc Hl Hz) as [(? & _)|(m & tp2 & Hm & _ & Hx)]; [done|].
    destruct Hk as [Hk|(? & ? & ? & ?)]; [rewrite Hk in Hm; by apply elem_of_nil in Hm|]. destruct Hx as [[? _]|[[? _]|[[? _]|[? _]]]]; congruence.
  - intros Hd. by destruct (not_defining Hc Hl Ht).
  - cbn [mbind option_bind]. eexists _, _. split; [done|].
    apply (post_finish hist d d d1); [done|congruence|done|done|apply grows_grows_but, grows_same|done|done|by left].
Qed.

Lemma step_ptr m : n_kind n = KIND_PTR -> n_refs n = [m] ->
  exists r d', ('(err, d) ← rec d m true; d ← upd_state d id (set_order ORDERED); Some (err, d)) = Some (r, d') /\
    order_post hist d id tp r d'.
Proof.
  intros Hk Hr. assert (Hm : m ∈ n_refs n) by (rewrite Hr; by apply list_elem_of_singleton).
  destruct (step_next m true Hc Hm) as (r & d1 & -> & Hl1 & Hp); [intros x Hx; by eapply wi_ptr|]. cbn [mbind option_bind].
  destruct Hp as [Hf|(Hr1 & Hi1 & Hg1 & Hz1 & _)].
  { destruct (set_order_spec d1 id ORDERED) as (d2 & -> & _ & _ & _ & Hl2 & _).
    { unfold ord. destruct (aref_Some (type_states d1) id) as [a1 ->]; [rewrite Hl1; by apply aref_bounds in Ha|by eexists]. }
    cbn [mbind option_bind]. eexists _, _. split; [done|]. split; [congruence|by left]. }
  destruct (node_ord hist d1 id Hi1 Hid) as (a1 & _ & Ho1).
  destruct (inv_done hist d1 id Hi1 Hid) as (d2 & -> & Hi2 & Hl2 & Ho2 & Hne2); [by eexists| | |].
  - intros z Hz. right. destruct (needs_refs false z Hc Hl Hz) as [(? & _)|(m' & tp2 & Hm' & Hz' & Hx)]; [congruence|].
    rewrite Hr in Hm'. apply list_elem_of_singleton in Hm' as ->. rewrite Hk in Hx.
    destruct Hx as [[Hx _]|[[_ ->]|[[? _]|[? _]]]]; [by vm_compute in Hx|by apply Hz1|done|done].
  - intros Hd. exfalso. apply (not_defining Hc Hl); [congruence|done].
  - cbn [mbind option_bind]. eexists _, _. split; [done|].
    apply (post_finish hist d d1 d2); [done|congruence|done|done|by apply grows_grows_but|done|done|done].
Qed.

Lemma step_typedef m : n_kind n = KIND_TYPEDEF -> n_refs n = [m] ->
  exists r d', ('(s, d) ← rec d m tp; if s <? 0 then Some (s, d) else
      if tp && (s =? 0) then Some (0, d) else queue_ordered alloc_ok d id) = Some (r, d') /\ order_post hist d id tp r d'.
Proof.
  intros Hk Hr. assert (Hm : m ∈ n_refs n) by (rewrite Hr; by apply list_elem_of_singleton).
  assert (Htr : transparent (n_kind n) = true) by (by rewrite Hk).
  destruct (step_next m tp Hc Hm) as (r & d1 & -> & Hl1 & Hp); [intros x Hx; by eapply wi_through|]. cbn [mbind option_bind].
  destruct Hp as [Hf|(Hr1 & Hi1 & Hg1 & Hz1 & Hs1)].
  { rewrite (failed_neg _ Hf). eexists _, _. split; [done|]. split; [done|by left]. }
  destruct (Z.ltb_spec r 0); [lia|].
  assert (Hin : forall tp1 z, needs G isref tp1 id z -> tp1 = false /\ z = id \/ needs G isref tp1 m z).
  { intros tp1 z Hz. destruct (needs_refs tp1 z Hc Hl Hz) as [(_ & ? & ?)|(m' & tp2 & Hm' & Hz' & Hx)]; [by left|right].
    rewrite Hr in Hm'. apply list_elem_of_singleton in Hm' as ->. rewrite Hk in Hx. by destruct Hx as [[_ ->]|[[? _]|[[? _]|[? _]]]]. }
  destruct (tp && (r =? 0)) eqn:Eb.
  { apply andb_true_iff in Eb as [-> Er]. zbool. eexists _, _. split; [done|]. split; [done|]. right. split; [by left|]. split; [done|].
    split; [done|]. split; [|lia]. intros z [[? _]|Hz]%Hin; [done|by apply Hz1]. }
  assert (Hstrong : forall z, needs G isref false m z -> ord d1 z = Some ORDERED).
  { destruct tp; [apply Hs1|done]. cbn in Eb. zbool. lia. }
  destruct (node_ord hist d1 id Hi1 Hid) as (a1 & _ & Ho1).
  destruct (queue_spec hist d1 id) as (r' & d2 & -> & Hq); [done|done|by eexists| | | |].
  - exists n. split; [done|]. by right; right.
  - intros z (n' & m' & Hn' & Hm' & _ & Hz). assert (n' = n) as -> by congruence. rewrite Hr in Hm'. apply list_elem_of_singleton in Hm' as ->.
    by apply Hstrong.
  - intros z [[_ ->]|Hz]%Hin; [by left|right; by apply Hstrong].
  - eexists _, _. split; [done|]. destruct Hq as [(-> & Hoom & Hl3)|(-> & Hi3 & Hl3 & Ho3 & Hne3)].
    + split; [congruence|]. left. split; [lia|by left].
    + apply (post_finish hist d d1 d2); [done|congruence|done|done|by apply grows_grows_but|done|done|by right].
Qed.

Lemma step_proto m ms : n_kind n = KIND_FUNC_PROTO -> n_refs n = m :: ms ->
  exists r d', ('(err, d) ← rec d m tp; if err <? 0 then Some (err, d) else
      order_all (fun d p => rec d p tp) d (map Some ms) (if err >? 0 then 1 else 0)) = Some (r, d') /\ order_post hist d id tp r d'.
Proof.
  intros Hk Hr. assert (Hm : m ∈ n_refs n) by (rewrite Hr; by left).
  destruct (step_next m tp Hc Hm) as (r & d1 & -> & Hl1 & Hp); [intros x Hx; by eapply wi_proto|]. cbn [mbind option_bind].
  destruct Hp as [Hf|(Hr1 & Hi1 & Hg1 & Hz1 & Hs1)].
  { rewrite (failed_neg _ Hf). eexists _, _. split; [done|]. split; [done|by left]. }
  destruct (Z.ltb_spec r 0); [lia|].
  destruct (order_all_spec hist (fun d p => rec d p tp) tp ms d1 (if r >? 0 then 1 else 0)) as (r' & d2 & -> & Hl2 & Hp2).
  - intros d2 m' Hm' Hi2 Hg2. apply Hnext; [done|rewrite Hr; by right|done|by eapply grows_chain|].
    intros x Hx. apply (gr_ordering _ _ Hg2), (gr_ordering _ _ Hg1) in Hx. eapply wi_proto; [by apply Hway|done|done|rewrite Hr; by right].
  - done.
  - destruct (r >? 0); [by right|by left].
  - eexists _, _. split; [done|]. split; [congruence|]. destruct Hp2 as [?|(Hr2 & Hi2 & Hg2 & Hz2)]; [by left|right].
    split; [done|]. split; [done|]. split; [by eapply grows_chain|].
    assert (Hall : forall tp1 z, needs G isref tp1 id z -> ord d2 z = Some ORDERED).
    { intros tp1 z Hz. destruct (needs_refs tp1 z Hc Hl Hz) as [(? & _)|(m' & tp2 & Hm' & Hz' & Hx)]; [congruence|]. rewrite Hk in Hx.
      destruct Hx as [[Hx _]|[[? _]|[[? _]|[_ ->]]]]; [by vm_compute in Hx|done|done|].
      assert (Hz'' : needs G isref tp m' z) by (destruct tp; [done|by apply needs_weaken]).
      rewrite Hr in Hm'. apply elem_of_cons in Hm' as [->|Hm']; [by apply (gr_done _ _ Hg2), Hz1|by eapply Hz2]. }
    split; [intros z; apply Hall|intros _ z; apply Hall].
Qed.

Lemma needs_single m tp1 z : n_refs n = [m] -> n_kind n <> KIND_TYPEDEF -> n_kind n <> KIND_PTR -> n_kind n <> KIND_FUNC_PROTO ->
  needs G isref tp1 id z -> needs G isref (if bool_decide (n_kind n = KIND_ARRAY) then false else tp1) m z.
Proof.
  intros Hr Ht Hp Hf Hz. destruct (needs_refs tp1 z Hc Hl Hz) as [(? & _)|(m' & tp2 & Hm' & Hz' & Hx)]; [done|].
  rewrite Hr in Hm'. apply list_elem_of_singleton in Hm' as ->. destruct Hx as [[Hx ->]|[[? _]|[[Hx ->]|[? _]]]]; [|done| |done].
  - rewrite bool_decide_false; [done|]. intros E. rewrite E in Hx. by vm_compute in Hx.
  - by rewrite bool_decide_true.
Qed.

Lemma step_other : a_order a = NOT_ORDERED -> id <> 0 ->
  exists r d', order_node alloc_ok rec d id tp a n = Some (r, d') /\ order_post hist d id tp r d'.
Proof.
  intros Hno Hnz. unfold order_node. rewrite Hno, Hc, Hl, !bool_decide_false by done.
  destruct (go_known Hg id n ltac:(lia) Hn) as [Hk1 Hk2]. destruct (node_refs id n Hn) as [Hone Hproto].
  assert (Hself : forall m, n_refs n = [m] -> m ∈ n_refs n) by (intros m ->; by apply list_elem_of_singleton).
  assert (Hmod : transparent (n_kind n) = true -> n_kind n <> KIND_TYPEDEF -> n_kind n <> KIND_PTR -> n_kind n <> KIND_ARRAY ->
    n_kind n <> KIND_FUNC_PROTO -> exists m ms, n_refs n = m :: ms /\
      exists r d', rec d m tp = Some (r, d') /\ order_post hist d id tp r d').
  { intros Ht H1 H2 H3 H4. destruct Hone as [m Hm]; [by left|]. exists m, []. split; [done|].
    apply (post_pass m tp); [apply step_next; [done|by apply Hself|intros x Hx; eapply wi_through; [done|done|done|by apply Hself]]|..];
      intros z Hz; (apply (needs_single m _ z) in Hz; [|done..]); by rewrite bool_decide_false in Hz. }
  case_eq (n_kind n); intros Ek; rewrite Ek in Hk1, Hk2; try done; try (by rewrite Ek in Hc; vm_compute in Hc); try (by rewrite Ek in Hl; vm_compute in Hl);
    try (apply step_nothing; [right; rewrite Ek; repeat split; discriminate|by rewrite Ek]);
    try (destruct Hmod as (m & ms & -> & Hm); [by rewrite Ek|by rewrite Ek..|exact Hm]).
  - destruct Hone as [m Hm]; [tauto|]. rewrite Hm. by apply step_ptr.
  - destruct Hone as [m Hm]; [tauto|]. rewrite Hm.
    apply (post_pass m false); [apply step_next; [done|by apply Hself|intros x Hx; eapply wi_array; [done|done|done|by apply Hself]]|..];
      intros z Hz; (apply (needs_single m _ z) in Hz; [|done || congruence..]); by rewrite bool_decide_true in Hz.
  - destruct Hone as [m Hm]; [left; by rewrite Ek|]. rewrite Hm. by apply step_typedef.
  - destruct Hproto as (m & ms & Hm); [done|]. rewrite Hm. by apply step_proto.
Qed.
End Step.

Lemma named_needs_nothing id n z : G id = Some n -> composite (n_kind n) = true -> n_named n = true -> ~ needs G isref true id z.
Proof.
  intros Hn Hc Hnm Hz.
  destruct (needs_cases _ _ _ n Hn Hz) as [(_ & [(_ & ? & _)|(? & _)])|[(Hl & _)|[(Ht & _)|(m & tp' & _ & _ & Hk)]]]; try congruence;
    destruct (n_kind n); vm_compute in Hc; try congruence; try (by vm_compute in Hl); vm_compute in Hk; intuition congruence.
Qed.

Lemma order_spec hist fuel : forall d id tp, order_inv hist d -> 0 <= id < cnt -> on_the_way d tp id ->
  (left_over d * top + rank id < fuel)%nat ->
  exists r d', btf_dump_order_type alloc_ok fuel d id tp = Some (r, d') /\ order_post hist d id tp r d'.
Proof.
  induction fuel as [|fuel IH]; intros d id tp Hi Hid Hway Hf; [lia|].
  destruct (node_ord hist d id Hi Hid) as (a & Ha & Ho). destruct (go_node Hg id Hid) as [n Hn].
  rewrite (order_step _ _ _ _ _ a n Ha) by (by rewrite (oi_btf _ _ Hi)).
  destruct (a_order a) eqn:Ea.
  2: { unfold order_node. rewrite Ea. destruct (oi_ordering _ _ Hi id Ho) as (n' & Hn' & Hc). assert (n' = n) as -> by congruence.
       rewrite Hc, bool_decide_false, bool_decide_true by done. cbn [andb]. eexists _, _. split; [done|]. split; [done|].
       destruct (tp && n_named n) eqn:Eb.
       - apply andb_true_iff in Eb as [-> Hnm]. right. split; [by left|]. split; [done|]. split; [apply grows_same|]. split; [|lia].
         intros z Hz. by destruct (named_needs_nothing id n z Hn Hc Hnm).
       - left. split; [lia|]. right. split; [done|]. exists id, tp, n. split; [done|]. split; [done|]. split; [by apply Hway|done]. }
  2: { unfold order_node. rewrite Ea, bool_decide_true by done. eexists _, _. split; [done|]. by apply post_ordered. }
  assert (Hmember : forall d1 m, composite (n_kind n) = true -> m ∈ n_refs n -> order_inv hist d1 ->
    (left_over d1 < left_over d)%nat -> on_the_way d1 false m ->
    rec_ok hist (fun d m tp => btf_dump_order_type alloc_ok fuel d m tp) d1 m false).
  { intros d1 m Hc Hm Hi1 Hlt Hw. apply IH; [done|by apply (go_refs Hg id n m)|done|]. pose proof (go_top Hg m). nia. }
  assert (Hnext : forall d1 m tp1, composite (n_kind n) = false -> m ∈ n_refs n -> order_inv hist d1 -> grows d d1 ->
    on_the_way d1 tp1 m -> rec_ok hist (fun d m tp => btf_dump_order_type alloc_ok fuel d m tp) d1 m tp1).
  { intros d1 m tp1 Hc Hm Hi1 Hg1 Hw. apply IH; [done|by apply (go_refs Hg id n m)|done|].
    pose proof (go_rank Hg id n m Hid Hn Hc Hm). pose proof (left_le d d1 (gr_new _ _ Hg1)). nia. }
  case_eq (composite (n_kind n)); intros Hc; [by eapply step_composite|].
  case_eq (leaf_def (n_kind n)); intros Hl; [by eapply step_leaf|].
  eapply step_other; try done. intros ->. rewrite (oi_void _ _ Hi) in Ho. congruence.
Qed.
End Order.

(** ** From a new object on *)

(** The ordering of [btf_dump__dump_type] for a sequence of types, up to the
    first error: what is queued, one call after the other. *)
Fixpoint order_run (alloc_ok : Z -> bool) (fuel : nat) (d : btf_dump) (ids : list Z)
    : option (Z * list Z) :=
  match ids with
  | [] => Some (0, [])
  | id :: ids =>
      '(err, d) ← btf_dump_order_type alloc_ok fuel (set_queue d [] (emit_queue_cap d)) id false;
      if err <? 0 then Some (err, []) else
      '(r, q) ← order_run alloc_ok fuel d ids; Some (r, emit_queue d ++ q)
  end.

(** Whether another type refers to a type, as noted in [d]. *)
Definition is_ref (d : btf_dump) (id : Z) : bool :=
  match aref (type_states d) id with Some a => referenced a | None => false end.

Lemma ensure_mem_spec alloc_ok {A} (zero : A) elem_sz need : 0 < need < 2 ^ 63 -> libbpf_ensure_mem alloc_ok [] zero 0 elem_sz need = None /\ (exists k, alloc_ok k = false) \/
  exists cap, libbpf_ensure_mem alloc_ok [] zero 0 elem_sz need = Some (replicate (Z.to_nat cap) zero, cap) /\ need <= cap.
Proof.
  intros Hn. unfold libbpf_ensure_mem, libbpf_add_mem. destruct (Z.leb_spec need 0); [lia|].
  rewrite Z.sub_0_r, Z.add_0_l, (wrap_small 64 need) by (pow2; lia). destruct (Z.leb_spec need 0); [lia|].
  destruct (Z.gtb_spec need SIZE_MAX); [pow2; lia|]. change (u64 (0 + 0 / 4)) with 0. cbn [Z.ltb Z.compare].
  change (16 >? SIZE_MAX) with false. cbv iota.
  set (c := if 16 <? need then need else 16). assert (need <= c) by (unfold c; destruct (Z.ltb_spec 16 need); lia).
  destruct (alloc_ok (c * elem_sz)) eqn:E; [right|left; split; [done|by eexists]]. exists c. by rewrite Z.sub_0_r.
Qed.

Lemma ord_fresh (n : nat) j : a_order <$> aref (replicate n aux0) j = Some NOT_ORDERED \/ a_order <$> aref (replicate n aux0) j = None.
Proof.
  destruct (aref (replicate n aux0) j) as [a|] eqn:E; [left|by right]. cbn.
  assert (Ha : a ∈ replicate n aux0) by (apply aref_elem; by exists j). by apply elem_of_replicate in Ha as [-> _].
Qed.

Section Run.
Context (alloc_ok : Z -> bool) (b : btf) (rank : Z -> nat) (top : nat).

Abbreviation cnt := (btf__type_cnt b) (only parsing).
Abbreviation G := (node_at b) (only parsing).

(** What [btf_dump_mark_referenced] goes over can be read and exists. *)
Definition marks_ok : Prop := forall id, 0 < id < cnt -> exists t k vlen ids,
  btf__type_by_id b id = Some (Some t) /\ dkind t = Some k /\ btf_vlen t = Some vlen /\
  marked_ids t k vlen = Some (map Some ids) /\ Forall (fun x => 0 <= x < cnt) ids.

Context (Hg : graph_ok b cnt rank top) (Hmarks : marks_ok) (Hcnt : 1 < cnt).

Lemma upd_mark d id : 0 <= id < Z.of_nat (length (type_states d)) -> exists l, upd_state d id set_referenced = Some (set_states d l) /\
  length l = length (type_states d) /\ forall j, a_order <$> aref l j = ord d j.
Proof.
  intros Hid. destruct (aref_Some (type_states d) id) as [a Ha]; [lia|].
  destruct (upd_state_spec d id set_referenced a Ha) as (l & E & Hl & Hi & Hne). exists l. split; [done|]. split; [done|].
  intros j. unfold ord. destruct (Z.eq_dec j id) as [->|]; [by rewrite Hi, Ha|by rewrite Hne].
Qed.

Definition marked (d d' : btf_dump) : Prop := exists l, d' = set_states d l /\
  length l = length (type_states d) /\ forall j, a_order <$> aref l j = ord d j.

Lemma marked_refl d : marked d d.
Proof. exists (type_states d). split; [by destruct d|done]. Qed.

Lemma marked_trans d1 d2 d3 : marked d1 d2 -> marked d2 d3 -> marked d1 d3.
Proof.
  intros (l & -> & Hl & H) (l' & -> & Hl' & H'). exists l'. split; [done|]. split; [cbn in *; congruence|].
  intros j. rewrite H'. apply H.
Qed.

Lemma mark_ids_spec ids : forall d, Forall (fun x => 0 <= x < Z.of_nat (length (type_states d))) ids ->
  exists d', mark_ids d (map Some ids) = Some d' /\ marked d d'.
Proof.
  induction ids as [|id ids IH]; intros d H; cbn [mark_ids map]; [eexists; split; [done|apply marked_refl]|].
  inversion H as [|? ? Hid Hids]; subst. cbn [mbind option_bind]. destruct (upd_mark d id Hid) as (l & -> & Hl & Ho). cbn [mbind option_bind].
  destruct (IH (set_states d l)) as (d' & -> & Hd'); [cbn; by rewrite Hl|]. eexists. split; [done|].
  eapply marked_trans; [|done]. by exists l.
Qed.

Lemma mark_loop_spec n : forall d i, d_btf d = b -> cnt <= Z.of_nat (length (type_states d)) -> 0 < i -> i + Z.of_nat n <= cnt ->
  exists d', mark_loop d i n = Some (0, d') /\ marked d d'.
Proof.
  induction n as [|n IH]; intros d i Hb Hl Hi Hn; cbn [mark_loop]; [eexists; split; [done|apply marked_refl]|].
  destruct (Hmarks i) as (t & k & vlen & ids & Ht & Hk & Hv & Hm & Hids); [lia|].
  unfold dtype. rewrite Hb, Ht. cbn [mbind option_bind]. rewrite Hk. cbn [mbind option_bind]. rewrite Hv. cbn [mbind option_bind]. rewrite Hm.
  destruct (mark_ids_spec ids d) as (d1 & -> & Hd1); [eapply Forall_impl; [exact Hids|cbn; lia]|]. cbn [mbind option_bind].
  destruct Hd1 as (l & -> & Hl1 & Ho1). destruct (IH (set_states d l) (i + 1)) as (d' & -> & Hd'); [done|cbn; lia|lia|lia|].
  eexists. split; [done|]. eapply marked_trans; [|done]. by exists l.
Qed.

Definition ready (isref : Z -> bool) (hist : list Z) (d : btf_dump) : Prop :=
  order_inv b cnt isref hist (set_queue d [] (emit_queue_cap d)) /\ forall x, ord d x <> Some ORDERING.

Lemma left_all d : (left_over cnt d <= Z.to_nat cnt)%nat.
Proof. unfold left_over. etrans; [apply length_filter|]. by rewrite length_seqZ. Qed.

(** The state of a new object. *)
Lemma resize_fresh d : d_btf d = b -> last_id d = 0 -> type_states d = [] -> type_states_cap d = 0 ->
  cached_names d = [] -> cached_names_cap d = 0 -> exists r d', btf_dump_resize alloc_ok d = Some (r, d') /\
    (r = - ENOMEM /\ (exists k, alloc_ok k = false) \/
     r = 0 /\ d_btf d' = b /\ emit_queue d' = emit_queue d /\ cnt <= Z.of_nat (length (type_states d')) /\ ord d' 0 = Some ORDERED /\
     forall j, j <> 0 -> ord d' j = Some NOT_ORDERED \/ ord d' j = None).
Proof.
  intros Hb Hlast Hts Htc Hcn Hcc. unfold btf_dump_resize. rewrite Hb, Hlast, Hts, Htc, Hcn, Hcc.
  destruct (Z.leb_spec (cnt - 1) 0); [lia|]. assert (cnt < 2 ^ 32) by (unfold btf__type_cnt; apply wrap_range; lia).
  destruct (ensure_mem_spec alloc_ok aux0 4 (cnt - 1 + 1)) as [(-> & Hoom)|(tcap & -> & Htcap)]; [lia|eexists _, _; split; [done|by left]|].
  cbn [cached_names set_mem cached_names_cap]. rewrite ?Hcn, ?Hcc.
  destruct (ensure_mem_spec alloc_ok (@None (list Z)) 8 (cnt - 1 + 1)) as [(-> & Hoom)|(ncap & -> & Hncap)]; [lia|eexists _, _; split; [done|by left]|].
  cbn [last_id set_mem]. rewrite Z.eqb_refl. set (d0 := set_mem _ _ _ _ _ _).
  destruct (aref_Some (type_states d0) 0) as [a0 Ha0]; [cbn; rewrite length_replicate; lia|].
  destruct (upd_state_spec d0 0 (fun a => set_emit EMITTED (set_order ORDERED a)) a0 Ha0) as (l & -> & Hl & Hl0 & Hne).
  cbn [mbind option_bind]. unfold btf_dump_mark_referenced. cbn [last_id set_states d0 set_mem d_btf]. rewrite Hb.
  destruct (mark_loop_spec (Z.to_nat (cnt - (0 + 1))) (set_states d0 l) (0 + 1)) as (d1 & -> & (l1 & -> & Hl1 & Ho1));
    [done|cbn in *; rewrite Hl, length_replicate; lia|lia|lia|].
  cbn [mbind option_bind negb Z.eqb]. eexists _, _. split; [done|]. right. split; [done|]. cbn in *.
  split; [done|]. split; [done|]. split; [rewrite Hl1, Hl, length_replicate; lia|].
  split; [change (a_order <$> aref l1 0 = Some ORDERED); rewrite Ho1; change (a_order <$> aref l 0 = Some ORDERED);
    change (aref l 0 = Some (set_emit EMITTED (set_order ORDERED a0))) in Hl0; by rewrite Hl0|].
  intros j Hj. match goal with |- ord ?x j = _ \/ _ => change (ord x j) with (a_order <$> aref l1 j) end.
  rewrite Ho1. change (ord (set_states d0 l) j) with (a_order <$> aref l j). rewrite Hne by done. apply ord_fresh.
Qed.

Lemma fresh_ready d : d_btf d = b -> emit_queue d = [] -> cnt <= Z.of_nat (length (type_states d)) -> ord d 0 = Some ORDERED ->
  (forall j, j <> 0 -> ord d j = Some NOT_ORDERED \/ ord d j = None) -> ready (is_ref d) [] d.
Proof.
  intros Hb Hq Hl H0 Hj.
  assert (Hno : forall z, ~ needs G (is_ref d) false 0 z).
  { assert (Hv : exists n, G 0 = Some n /\ n_kind n = KIND_UNKN /\ n_refs n = []).
    { destruct (go_node b cnt rank top Hg 0) as [n Hn]; [lia|]. exists n. split; [done|]. unfold node_at in Hn.
      assert (E : btf__type_by_id b 0 = Some (Some TVoid)).
      { unfold btf__type_by_id. fold (btf__type_cnt b). destruct (Z.geb_spec 0 cnt); [lia|]. by destruct b. }
      rewrite E in Hn. cbn in Hn. by injection Hn as <-. }
    destruct Hv as (n & Hn & Hk & Hr). intros z Hz.
    destruct (needs_cases b (is_ref d) false 0 z n Hn Hz) as [(Hc & _)|[(Hc & _)|[(Hc & _)|(m & tp' & Hm & _)]]].
    - rewrite Hk in Hc. by vm_compute in Hc.
    - rewrite Hk in Hc. by vm_compute in Hc.
    - congruence.
    - rewrite Hr in Hm. by apply elem_of_nil in Hm. }
  assert (Hnd : ~ defining G (is_ref d) 0).
  { intros (n & Hn & Hd). apply (Hno 0). destruct Hd as [[Hc Hnm]|[[Hlf Hx]|Ht]];
      [by eapply nd_composite|by eapply nd_leaf|by eapply nd_typedef]. }
  assert (Hord : forall j, ord d j = Some ORDERED -> j = 0).
  { intros j E. destruct (Z.eq_dec j 0); [done|]. destruct (Hj j n); congruence. }
  split.
  - split; cbn; [done|done| |done| | |by intros [|? ?] ? ? ?|].
    + intros id a _ Ha. unfold is_ref. by rewrite Ha.
    + intros id z _ Hid Hz. apply Hord in Hid as ->. by destruct (Hno z).
    + intros id _ Hd. split; [|by intros ?%elem_of_nil]. intros Hid%Hord. subst. by destruct Hnd.
    + intros id Hid. change (ord d id = Some ORDERING) in Hid. destruct (Z.eq_dec id 0) as [->|Hne]; [congruence|]. destruct (Hj id Hne); congruence.
  - intros x Hx. destruct (Z.eq_dec x 0) as [->|Hne]; [congruence|]. destruct (Hj x Hne); congruence.
Qed.

Lemma order_run_spec fuel isref : forall ids d hist, ready isref hist d -> Forall (fun id => 0 <= id < cnt) ids ->
  ((Z.to_nat cnt + 1) * top < fuel)%nat ->
  exists r q, order_run alloc_ok fuel d ids = Some (r, q) /\
    (failed alloc_ok b r \/
     r = 0 /\ sorted_behind G isref hist q /\ forall id z, id ∈ ids -> needs G isref false id z -> z ∈ hist ++ q).
Proof.
  induction ids as [|id ids IH]; intros d hist [Hi Hno] Hids Hf; cbn [order_run].
  { eexists _, _. split; [done|]. right. split; [done|]. split; [by intros [|? ?] ? ? ?|]. by intros id z ?%elem_of_nil. }
  inversion Hids as [|? ? Hid Hids']; subst. set (d0 := set_queue d [] _) in *.
  destruct (order_spec alloc_ok b cnt rank top isref Hg hist fuel d0 id false Hi Hid) as (r & d1 & -> & Hl1 & Hp).
  { intros x Hx. by destruct (Hno x). }
  { pose proof (left_all d0). pose proof (go_top _ _ _ _ Hg id). nia. }
  cbn [mbind option_bind]. destruct Hp as [Hfail|(Hr & Hi1 & Hg1 & Hz1 & _)].
  { rewrite (failed_neg _ _ _ Hfail). eexists _, _. split; [done|]. by left. }
  destruct (Z.ltb_spec r 0); [lia|].
  assert (Hready : ready isref (hist ++ emit_queue d1) d1).
  { destruct Hi1 as [Hb' Hl' Hr' Hv' Hd' Hq' Hs' Ho']. split.
    - split; cbn; [done|done|done|done|done| |by intros [|? ?] ? ? ?|done].
      intros j Hj Hjd. rewrite app_nil_r. by apply Hq'.
    - intros x Hx. apply (gr_ordering _ _ Hg1) in Hx. by destruct (Hno x). }
  destruct (IH d1 (hist ++ emit_queue d1) Hready Hids' Hf) as (r' & q & -> & Hr'). cbn [mbind option_bind]. eexists _, _. split; [done|].
  destruct Hr' as [?|(-> & Hsort & Hall)]; [by left|right]. split; [done|]. split.
  - intros q1 y q2 E z Hz. pose proof (oi_sorted _ _ _ _ _ Hi1) as Hs1.
    apply app_eq_app in E as (k & [[E1 E2]|[E1 E2]]).
    + destruct k as [|w k]; [rewrite app_nil_r in E1; cbn in E2; subst q1|].
      * specialize (Hsort [] y q2 (eq_sym E2) z Hz). by rewrite app_nil_r in Hsort.
      * injection E2 as -> ->. by apply (Hs1 q1 w k).
    + subst q1. rewrite app_assoc. by apply (Hsort k y q2).
  - intros id' z [->|Hid']%elem_of_cons Hz.
    + apply elem_of_app. destruct (elem_of_app hist (emit_queue d1) z) as [Hza _].
      assert (Hin : z ∈ hist ++ emit_queue d1).
      { apply (oi_queue _ _ _ _ _ Hi1); [by eapply needs_range|by eapply needs_defining|by apply Hz1]. }
      apply Hza in Hin as [?|?]; [by left|right; apply elem_of_app; by left].
    + specialize (Hall id' z Hid' Hz). by rewrite app_assoc.
Qed.
End Run.

Lemma node_at_ptr_sz b s : node_at (with_ptr_sz b s) = node_at b.
Proof. by destruct b. Qed.

Lemma new_fresh alloc_ok b rank top : graph_ok b (btf__type_cnt b) rank top -> marks_ok b -> 1 < btf__type_cnt b ->
  is_Some (guess_ptr_sz b) -> exists r, btf_dump__new alloc_ok b = Some r /\
  match r with
  | inl e => e = - ENOMEM /\ exists k, alloc_ok k = false
  | inr d => exists s, ready (with_ptr_sz b s) (is_ref d) [] d /\
      graph_ok (with_ptr_sz b s) (btf__type_cnt (with_ptr_sz b s)) rank top
  end.
Proof.
  intros Hg Hm Hc [b1 Hp]. unfold btf_dump__new, btf__pointer_size. rewrite Hp. cbn [mbind option_bind].
  destruct (alloc_ok 136) eqn:E1; cbn [negb]; [|eexists; split; [done|split; [done|by eexists]]].
  destruct (alloc_ok 56) eqn:E2; cbn [negb]; [|eexists; split; [done|split; [done|by eexists]]].
  assert (exists s, b1 = with_ptr_sz b s) as [s ->].
  { unfold guess_ptr_sz in Hp. destruct (_ =? _).
    - apply bind_Some in Hp as (s & _ & [= <-]). by exists s.
    - injection Hp as <-. exists (ptr_sz b). by destruct b. }
  set (d0 := {| d_btf := _ |}).
  assert (Hg' : graph_ok (with_ptr_sz b s) (btf__type_cnt (with_ptr_sz b s)) rank top) by (destruct b; destruct Hg; by split).
  assert (Hm' : marks_ok (with_ptr_sz b s)) by (destruct b; exact Hm).
  assert (Hc' : 1 < btf__type_cnt (with_ptr_sz b s)) by (destruct b; exact Hc).
  destruct (resize_fresh alloc_ok (with_ptr_sz b s) Hm' Hc' d0) as (r & d & -> & H); [done..|].
  cbn [mbind option_bind]. eexists. split; [done|]. destruct H as [[-> Hoom]|(-> & Hb & Hq & Hl & H0 & Hj)]; [done|]. cbn.
  exists s. split; [|done]. by apply (fresh_ready (with_ptr_sz b s) rank top).
Qed.

(** C29: the definitions are emitted in an order a compiler accepts.  For a BTF
    that has types, which can be read, refer to types and form no cycle of pointers,
    arrays, typedefs and prototypes without a structure in it, a new printer
    asked for any sequence of types queues, call after call, every definition
    behind all those it needs: the members of a structure that are embedded
    in it, what a typedef names, enumerations; a named structure behind a
    pointer is not needed.  Everything a type asked for needs is in the queue.
    The recursion ends; it fails only without memory, or with -ELOOP if
    a type contains itself. *)
Theorem dump_order_sorted alloc_ok b rank top fuel ids : graph_ok b (btf__type_cnt b) rank top -> marks_ok b ->
  1 < btf__type_cnt b -> is_Some (guess_ptr_sz b) -> Forall (fun id => 0 <= id < btf__type_cnt b) ids ->
  ((Z.to_nat (btf__type_cnt b) + 1) * top < fuel)%nat ->
  exists r, btf_dump__new alloc_ok b = Some r /\
  match r with
  | inl e => e = - ENOMEM /\ exists k, alloc_ok k = false
  | inr d => exists e q, order_run alloc_ok fuel d ids = Some (e, q) /\
      (e = - ENOMEM /\ (exists k, alloc_ok k = false) \/
       e = - ELOOP /\ (exists x, contains_itself (node_at b) x) \/
       e = 0 /\ sorted_behind (node_at b) (is_ref d) [] q /\
       forall id z, id ∈ ids -> needs (node_at b) (is_ref d) false id z -> z ∈ q)
  end.
Proof.
  intros Hg Hm Hc Hp Hids Hf. destruct (new_fresh alloc_ok b rank top Hg Hm Hc Hp) as (r & -> & Hr).
  exists r. split; [done|]. destruct r as [e|d]; [done|]. destruct Hr as (s & Hready & Hg').
  destruct (order_run_spec alloc_ok (with_ptr_sz b s) rank top Hg' ltac:(by destruct b) fuel (is_ref d) ids d [] Hready) as (e & q & -> & H);
    [by destruct b..|].
  exists e, q. split; [done|]. destruct H as [[_ [[-> ?]|[-> Hx]]]|(-> & Hs & Ha)].
  - by left.
  - right; left. by rewrite <- (node_at_ptr_sz b s).
  - right; right. by rewrite <- (node_at_ptr_sz b s).
Qed.

(** ** Deciding the hypotheses *)

Definition node_check (b : btf) (ranks : list nat) (id : Z) : bool :=
  let rank x := nth (Z.to_nat x) ranks O in
  match node_at b id with
  | None => false
  | Some n =>
      ((id =? 0) || negb (bool_decide (n_kind n ∈ [KIND_UNKN; KIND_OTHER]))) &&
      forallb (fun m => (0 <=? m) && (m <? btf__type_cnt b) && (composite (n_kind n) || Nat.ltb (rank m) (rank id))) (n_refs n)
  end.

Definition marks_check (b : btf) (id : Z) : bool :=
  match (p ← btf__type_by_id b id; t ← p; k ← dkind t; vlen ← btf_vlen t; l ← marked_ids t k vlen; mapM (fun x : option Z => x) l) with
  | Some ids => forallb (fun x => (0 <=? x) && (x <? btf__type_cnt b)) ids
  | None => false
  end.

Definition order_check (b : btf) (ranks : list nat) (top : nat) : bool :=
  forallb (node_check b ranks) (seqZ 0 (btf__type_cnt b)) && forallb (marks_check b) (seqZ 1 (btf__type_cnt b - 1)) &&
  Nat.ltb 0 top && forallb (fun r => Nat.ltb r top) ranks.

Lemma order_check_ok b ranks top : order_check b ranks top = true ->
  graph_ok b (btf__type_cnt b) (fun x => nth (Z.to_nat x) ranks O) top /\ marks_ok b.
Proof.
  unfold order_check. rewrite !andb_true_iff, !forallb_forall. intros [[[Hn Hm] Ht] Hr].
  apply Nat.ltb_lt in Ht.
  assert (Hnode : forall id, 0 <= id < btf__type_cnt b -> node_check b ranks id = true).
  { intros id H. apply Hn, list_elem_of_In, elem_of_seqZ. lia. }
  split; [split|].
  - intros id H. specialize (Hnode id H). unfold node_check in Hnode. by destruct (node_at b id).
  - intros id n H E. specialize (Hnode id ltac:(lia)). unfold node_check in Hnode. rewrite E in Hnode.
    apply andb_true_iff in Hnode as [[H0|H0]%orb_true_iff _]; [lia|]. apply negb_true_iff, bool_decide_eq_false in H0.
    split; intros Hk; apply H0; rewrite Hk; repeat constructor.
  - intros id n m H E Hm'. specialize (Hnode id H). unfold node_check in Hnode. rewrite E in Hnode.
    apply andb_true_iff in Hnode as [_ Hf]. rewrite forallb_forall in Hf. specialize (Hf m (proj1 (list_elem_of_In _ _) Hm')). lia.
  - intros id n m H E Hc Hm'. specialize (Hnode id H). unfold node_check in Hnode. rewrite E in Hnode.
    apply andb_true_iff in Hnode as [_ Hf]. rewrite forallb_forall in Hf. specialize (Hf m (proj1 (list_elem_of_In _ _) Hm')).
    rewrite Hc in Hf. apply andb_true_iff in Hf as [_ Hf]. by apply Nat.ltb_lt.
  - intros id. destruct (nth_in_or_default (Z.to_nat id) ranks O) as [Hin| ->]; [|done].
    by apply Nat.ltb_lt, Hr.
  - intros id H. specialize (Hm id ltac:(apply list_elem_of_In, elem_of_seqZ; lia)). unfold marks_check in Hm.
    destruct (btf__type_by_id b id) as [[t|]|]; [|done..]. cbn [mbind option_bind] in Hm.
    destruct (dkind t) as [k|] eqn:Ek; [|done]. cbn [mbind option_bind] in Hm.
    destruct (btf_vlen t) as [v|] eqn:Ev; [|done]. cbn [mbind option_bind] in Hm.
    destruct (marked_ids t k v) as [l|] eqn:El; [|done]. cbn [mbind option_bind] in Hm.
    destruct (mapM _ l) as [ids|] eqn:Ei; [|done]. apply mapM_map_Some in Ei as ->. exists t, k, v, ids.
    split_and!; [done..|]. rewrite forallb_forall in Hm. apply Forall_forall. intros x Hx%list_elem_of_In.
    specialize (Hm x Hx). lia.
Qed.

(** ** Examples *)

Definition ex_kind (kind vlen flag : Z) : Z := flag * 2 ^ 31 + kind * 2 ^ 24 + vlen.

(** [int]; [struct node] with a pointer to itself, one to a function and a bit
    field; [const char] arrays and [typedef struct node node_t]. *)
Definition ex_dump_types : list Z := concat (map le32 (concat [
  [1; ex_kind 1 0 0; 4; 16777248];
  [5; ex_kind 4 4 1; 48; 10; 3; 0; 15; 5; 64; 1; 1; 3 * 2 ^ 24 + 128; 18; 8; 192];
  [0; ex_kind 2 0 0; 2];
  [0; ex_kind 13 2 0; 1; 0; 1; 0; 0];
  [0; ex_kind 2 0 0; 4];
  [23; ex_kind 1 0 0; 1; 16777224];
  [0; ex_kind 10 0 0; 6];
  [0; ex_kind 3 0 0; 0; 7; 1; 16];
  [28; ex_kind 8 0 0; 2]])).

Definition ex_dump_strs : list Z :=
  [0] ++ lit "int" ++ [0] ++ lit "node" ++ [0] ++ lit "next" ++ [0] ++ lit "fn" ++ [0] ++
  lit "name" ++ [0] ++ lit "char" ++ [0] ++ lit "node_t" ++ [0].

Definition ex_image (types strs : list Z) : list Z :=
  ex_hdr (Z.of_nat (length types)) (Z.of_nat (length types)) (Z.of_nat (length strs)) ++ types ++ strs.

Definition ex_dump : btf := loaded (ex_image ex_dump_types ex_dump_strs) None.

Definition ex_ranks : list nat := [0; 0; 0; 1; 1; 2; 0; 1; 2; 1]%nat.

Lemma dump_order_sorted_witness : order_check ex_dump ex_ranks 3 = true /\
  exists r, btf_dump__new always ex_dump = Some r /\
  match r with
  | inl e => e = - ENOMEM /\ exists k, always k = false
  | inr d => exists e q, order_run always 40 d [9; 8] = Some (e, q) /\
      (e = - ENOMEM /\ (exists k, always k = false) \/
       e = - ELOOP /\ (exists x, contains_itself (node_at ex_dump) x) \/
       e = 0 /\ sorted_behind (node_at ex_dump) (is_ref d) [] q /\
       forall id z, id ∈ [9; 8] -> needs (node_at ex_dump) (is_ref d) false id z -> z ∈ q)
  end.
Proof.
  split; [vm_compute; reflexivity|].
  destruct (order_check_ok ex_dump ex_ranks 3) as [Hg Hm]; [vm_compute; reflexivity|].
  apply (dump_order_sorted always ex_dump (fun x => nth (Z.to_nat x) ex_ranks O) 3 40 [9; 8] Hg Hm).
  - apply Z.ltb_lt. vm_compute. reflexivity.
  - eexists. vm_compute. reflexivity.
  - repeat constructor; vm_compute; congruence.
  - apply Nat.ltb_lt. vm_compute. reflexivity.
Defined.

(** The text for [node_t]. *)
Definition ex_text (b : btf) (id : Z) : option (Z * list Z) :=
  r ← btf_dump__new always b;
  match r with
  | inl e => Some (e, [])
  | inr d => '(e, d) ← btf_dump__dump_type always 50 d id; Some (e, output d)
  end.

(** [struct s { struct s s; }] *)
Definition ex_self : btf :=
  loaded (ex_image (concat (map le32 [1; ex_kind 4 1 0; 4; 1; 1; 0])) ([0] ++ lit "s" ++ [0])) None.

Fact self_containing_rejected : ex_text ex_self 1 = Some (- ELOOP, []).
Proof. vm_compute. reflexivity. Qed.

(** A BTF without types: the arrays of the object are not allocated, and
    [void], which exists in every BTF, is looked up in them. *)
Definition ex_empty : btf := loaded (ex_image [] [0]) None.

Fact dump_void_of_empty : (exists d, btf_dump__new always ex_empty = Some (inr d) /\ type_states d = []) /\
  0 < btf__type_cnt ex_empty /\ ex_text ex_empty 0 = None.
Proof. split; [eexists; split|]; [vm_compute; reflexivity..|]. split; vm_compute; reflexivity. Qed.

Fact node_t_printed : ex_text ex_dump 9 = Some (0,
  lit "struct node {" ++ [10; 9] ++ lit "struct node *next;" ++ [10; 9] ++ lit "int (*fn)(int, ...);" ++ [10; 9] ++
  lit "int int: 3;" ++ [10; 9] ++ lit "long: 61;" ++ [10; 9] ++ lit "const char name[16];" ++ [10; 9] ++ lit "long: 64;" ++
  [10] ++ lit "};" ++ [10; 10] ++ lit "typedef struct node node_t;" ++ [10; 10]).
Proof. vm_compute. reflexivity. Qed.

(** A typedef [t] of [n] pointers to an anonymous [struct { int a; }], type
    [n + 3]. *)
Definition ex_pointers (n : Z) : btf :=
  loaded (ex_image (concat (map le32 (concat ([[1; ex_kind 1 0 0; 4; 16777248]; [0; ex_kind 4 1 0; 4; 5; 1; 0]] ++
      map (fun i => [0; ex_kind 2 0 0; i + 2]) (seqZ 0 n) ++ [[7; ex_kind 8 0 0; n + 2]]))))
    ([0] ++ lit "int" ++ [0] ++ lit "a" ++ [0] ++ lit "t" ++ [0])) None.

(** With fifteen pointers the chain fills the 16 entries of the stack of
    declarations; printing the structure, first in the chain, moves the stack,
    and the pointers are read from where it was. *)
Fact stack_moved_under_view : ex_text (ex_pointers 15) 18 = None /\
  (e ← ex_text (ex_pointers 14) 17; Some (fst e)) = Some 0 /\ (e ← ex_text (ex_pointers 16) 19; Some (fst e)) = Some 0.
Proof. split_and!; vm_compute; reflexivity. Qed.

(** Members [struct s], another [struct s] and a [union s___2]: the tag
    made up for the second [struct s] is that of the union. *)
Definition ex_tags : btf :=
  loaded (ex_image (concat (map le32 (concat [[1; ex_kind 4 0 0; 0]; [3; ex_kind 5 0 0; 0]; [1; ex_kind 4 0 0; 0];
      [9; ex_kind 4 3 0; 0; 9; 1; 0; 11; 2; 0; 13; 3; 0]])))
    ([0] ++ lit "s" ++ [0] ++ lit "s___2" ++ [0] ++ lit "a" ++ [0] ++ lit "b" ++ [0] ++ lit "c" ++ [0])) None.

Fact made_up_tag_taken : ex_text ex_tags 4 = Some (0,
  lit "struct s {};" ++ [10; 10] ++ lit "union s___2 {};" ++ [10; 10] ++ lit "struct s___2 {};" ++ [10; 10] ++
  lit "struct a {" ++ [10; 9] ++ lit "struct s a;" ++ [10; 9] ++ lit "union s___2 b;" ++ [10; 9] ++ lit "struct s___2 c;" ++
  [10] ++ lit "};" ++ [10; 10]).
Proof. vm_compute. reflexivity. Qed.
