(* ===== verification/DumpPad.v ===== *)
(** * The padding between members

    [btf_dump_emit_bit_padding] of [BtfDump] fills the gap before a member with
    unnamed bit-fields.  Here the C rule for the place of a bit-field says where
    the member after them ends up. *)

From S2P Require Import Prelude CString Hashmap StrSet Btf CoreTypes BtfDump DumpOrder.

(** ** The place of a bit-field

    A bit-field of [w] bits does not straddle a unit of its type, which has
    [unit] bits: it starts where the last member ended if it fits there, and in
    the next unit otherwise (System V ABI). *)

Definition align_up (off unit : Z) : Z := (off + unit - 1) / unit * unit.

Definition place (off : Z) (f : Z * Z) : Z :=
  let '(unit, w) := f in
  if off mod unit + w <=? unit then off + w else align_up off unit + w.

(** Bits of a padding type on a target with pointers of [ptr_bits]. *)
Definition unit_bits (ptr_bits : Z) (name : string) : Z :=
  if bool_decide (name = "long"%string) then ptr_bits
  else if bool_decide (name = "int"%string) then 32
  else if bool_decide (name = "short"%string) then 16 else 8.

(** The type used for a whole gap. *)
Definition gap_type (ptr_bits gap : Z) : string := fst (pad_piece ptr_bits gap).

Definition gap_unit (ptr_bits gap : Z) : Z := unit_bits ptr_bits (gap_type ptr_bits gap).

Definition print_piece (lvl : Z) (name : string) (w : Z) : list Z :=
  NL ++ pfx lvl ++ lit name ++ lit ": " ++ dec_s w ++ lit ";".

(** The widths for a gap: what is left over of a unit, then whole units. *)
Definition gap_widths (unit gap : Z) : list Z :=
  chip_away_bits gap unit :: repeat unit (Z.to_nat ((gap - chip_away_bits gap unit) / unit)).

Lemma chip_spec total unit : 0 < total -> 0 < unit ->
  0 < chip_away_bits total unit <= unit /\ chip_away_bits total unit <= total /\
  exists q, 0 <= q /\ total = chip_away_bits total unit + q * unit.
Proof.
  intros Ht Hu. unfold chip_away_bits. pose proof (Z.mod_pos_bound total unit Hu). pose proof (Z.div_mod total unit).
  pose proof (Z.div_pos total unit). destruct (Z.eqb_spec (total mod unit) 0).
  - split; [lia|]. assert (1 <= total / unit) by (apply Z.div_le_lower_bound; [lia|]; destruct (Z.eq_dec (total / unit) 0); nia).
    split; [nia|]. exists (total / unit - 1). split; [lia|nia].
  - split; [lia|]. split; [nia|]. exists (total / unit). split; [lia|nia].
Qed.

Lemma pad_piece_spec ptr_bits gap : pad_piece ptr_bits gap =
  (gap_type ptr_bits gap, chip_away_bits gap (gap_unit ptr_bits gap)).
Proof. unfold gap_unit, gap_type, pad_piece. repeat case_match; reflexivity. Qed.

Lemma gap_unit_cases ptr_bits gap : ptr_bits = 32 \/ ptr_bits = 64 -> 0 < gap ->
  gap_unit ptr_bits gap = 8 /\ gap <= 8 \/ gap_unit ptr_bits gap = 16 /\ gap <= 16 \/
  gap_unit ptr_bits gap = 32 \/ gap_unit ptr_bits gap = 64 /\ ptr_bits = 64.
Proof.
  intros Hp Hg. unfold gap_unit, gap_type, pad_piece.
  destruct (Z.gtb_spec ptr_bits 32), (Z.gtb_spec gap 32), (Z.gtb_spec gap 16), (Z.gtb_spec gap 8);
    cbn [fst andb]; unfold unit_bits; repeat case_bool_decide; try done; lia.
Qed.

(** After the first piece the type stays. *)
Lemma gap_type_stays ptr_bits gap k : ptr_bits = 32 \/ ptr_bits = 64 -> 0 < gap ->
  let unit := gap_unit ptr_bits gap in gap = chip_away_bits gap unit + k * unit -> 0 < k ->
  gap_type ptr_bits (k * unit) = gap_type ptr_bits gap.
Proof.
  intros Hp Hg unit Hgap Hk. assert (Hu := gap_unit_cases ptr_bits gap Hp Hg). fold unit in Hu.
  assert (Hc := chip_spec gap unit Hg ltac:(lia)). revert Hc Hgap. generalize (chip_away_bits gap unit). intros c Hc Hgap.
  unfold unit, gap_unit in *. clear unit. unfold gap_type, pad_piece in *.
  destruct (Z.gtb_spec ptr_bits 32), (Z.gtb_spec gap 32), (Z.gtb_spec gap 16), (Z.gtb_spec gap 8);
    cbn [fst andb] in *; unfold unit_bits in *; repeat (case_bool_decide; try discriminate); try lia;
    repeat match goal with |- context [?x >? ?y] => destruct (Z.gtb_spec x y); try lia end; reflexivity.
Qed.

Lemma printf_app d s1 s2 : btf_dump_printf (btf_dump_printf d s1) s2 = btf_dump_printf d (s1 ++ s2).
Proof. unfold btf_dump_printf, set_names. cbn. by rewrite app_assoc. Qed.

(** ** What is printed *)

Lemma widths_units unit k : 0 < unit -> 0 < k -> gap_widths unit (k * unit) = repeat unit (Z.to_nat k).
Proof.
  intros Hu Hk. unfold gap_widths, chip_away_bits. rewrite Z.mod_mul by lia. cbn [Z.eqb].
  replace (k * unit - unit) with ((k - 1) * unit) by lia. rewrite Z.div_mul by lia.
  by replace (Z.to_nat k) with (S (Z.to_nat (k - 1))) by lia.
Qed.

Lemma widths_cons unit gap k : 0 < unit -> 0 <= k -> gap = chip_away_bits gap unit + k * unit ->
  gap_widths unit gap = chip_away_bits gap unit :: repeat unit (Z.to_nat k).
Proof.
  intros Hu Hk E. unfold gap_widths. do 3 f_equal. replace (gap - chip_away_bits gap unit) with (k * unit) by lia.
  apply Z.div_mul. lia.
Qed.

Lemma pad_loop_spec lvl fuel : forall d gap, d_ptr_sz d = 4 \/ d_ptr_sz d = 8 -> 0 < gap -> (Z.to_nat gap <= fuel)%nat ->
  let p := d_ptr_sz d * 8 in
  pad_loop fuel d gap lvl = Some (btf_dump_printf d (concat (map (print_piece lvl (gap_type p gap)) (gap_widths (gap_unit p gap) gap)))).
Proof.
  induction fuel as [|fuel IH]; intros d gap Hp Hg Hf p; [lia|]. cbn [pad_loop]. destruct (Z.leb_spec gap 0); [lia|].
  fold p. rewrite pad_piece_spec. set (ty := gap_type p gap). set (unit := gap_unit p gap).
  assert (Hp' : p = 32 \/ p = 64) by lia. assert (Hu : 0 < unit) by (pose proof (gap_unit_cases p gap Hp' Hg); lia).
  destruct (chip_spec gap unit Hg Hu) as (Hc & Hle & k & Hk & E). rewrite (widths_cons unit gap k Hu Hk E). cbn [map concat].
  set (d1 := btf_dump_printf d _). replace (gap - chip_away_bits gap unit) with (k * unit) by lia.
  destruct (Z.eq_dec k 0) as [->|Hk0].
  - rewrite Z.mul_0_l. cbn [Z.to_nat repeat map concat]. rewrite app_nil_r. by destruct fuel.
  - rewrite (IH d1 (k * unit)); [|done|nia|lia]. change (d_ptr_sz d1 * 8) with p.
    assert (Hty : gap_type p (k * unit) = ty) by (apply (gap_type_stays p gap k Hp' Hg E); lia).
    unfold gap_unit. rewrite Hty. fold (gap_unit p gap). change (unit_bits p ty) with unit.
    rewrite widths_units by lia. unfold d1. by rewrite printf_app.
Qed.

Lemma printf_nil d : btf_dump_printf d [] = d.
Proof. unfold btf_dump_printf. rewrite app_nil_r. by destruct d. Qed.

Lemma widths_spec unit gap : 0 < unit -> 0 < gap ->
  Forall (fun w => 0 < w <= unit) (gap_widths unit gap) /\ foldr Z.add 0 (gap_widths unit gap) = gap.
Proof.
  intros Hu Hg. destruct (chip_spec gap unit Hg Hu) as (Hc & Hle & k & Hk & E). rewrite (widths_cons unit gap k Hu Hk E).
  split; [constructor; [done|apply Forall_forall; intros w ->%list_elem_of_In%repeat_spec; lia]|].
  cbn [foldr]. assert (H : forall n, foldr Z.add 0 (repeat unit n) = Z.of_nat n * unit) by (induction n; cbn [repeat foldr]; lia).
  rewrite H. lia.
Qed.

(** ** Where the next member ends up *)

Lemma place_units unit k : 0 < unit -> forall off, off mod unit = 0 ->
  fold_left place (map (pair unit) (repeat unit k)) off = off + Z.of_nat k * unit.
Proof.
  intros Hu. induction k as [|k IH]; intros off Ho; cbn [repeat map fold_left]; [lia|].
  unfold place at 2. rewrite Ho. destruct (Z.leb_spec (0 + unit) unit); [|lia]. rewrite IH; [lia|].
  replace (off + unit) with (off + 1 * unit) by lia. by rewrite Z.mod_add by lia.
Qed.

Lemma place_gap unit cur m_off : 0 < unit -> cur < m_off -> m_off mod unit = 0 ->
  fold_left place (map (pair unit) (gap_widths unit (m_off - cur))) cur = m_off.
Proof.
  intros Hu Hg Hm. destruct (chip_spec (m_off - cur) unit ltac:(lia) Hu) as (Hc & Hle & k & Hk & E).
  rewrite (widths_cons unit _ k Hu Hk E). revert Hc Hle E. generalize (chip_away_bits (m_off - cur) unit). intros c Hc Hle E.
  cbn [map fold_left]. unfold place at 2.
  assert (Hcur : cur mod unit = (unit - c) mod unit).
  { replace cur with ((unit - c) + (m_off / unit - k - 1) * unit); [apply Z.mod_add; lia|].
    pose proof (Z.div_mod m_off unit). lia. }
  assert (Hfit : cur mod unit + c <= unit).
  { rewrite Hcur. destruct (Z.eq_dec c unit) as [->|]; [rewrite Z.sub_diag, Z.mod_0_l by lia; lia|].
    rewrite Z.mod_small by lia. lia. }
  destruct (Z.leb_spec (cur mod unit + c) unit); [|lia]. rewrite place_units; [lia|done|].
  replace (cur + c) with (m_off + (- k) * unit) by lia. by rewrite Z.mod_add by lia.
Qed.

Lemma align_up_spec off unit m_off : 0 < unit -> off <= m_off -> m_off mod unit = 0 -> m_off - off < unit ->
  align_up off unit = m_off.
Proof.
  intros Hu Ho Hm Hd. unfold align_up. pose proof (Z.div_mod m_off unit).
  replace (off + unit - 1) with ((unit - 1 - (m_off - off)) + m_off / unit * unit) by lia.
  rewrite Z.div_add by lia. rewrite Z.div_small by lia. lia.
Qed.

(** C30: padding puts the next member where BTF says.  For a gap that is not
    negative, the printed text is a list of unnamed bit-fields, each of at
    most the width of its type.  If the member's offset is a multiple of the
    unit of the type used, the C layout rule for bit-fields takes the end of
    the last member to that offset; a gap nothing is printed for is closed by
    the member's own alignment. *)
Theorem padding_reaches_member d cur m_off m_bit_sz align lvl :
  d_ptr_sz d = 4 \/ d_ptr_sz d = 8 -> 0 <= cur <= m_off -> m_off < 2 ^ 31 -> 0 < align ->
  exists name ws, let unit := unit_bits (d_ptr_sz d * 8) name in
    btf_dump_emit_bit_padding d cur m_off m_bit_sz align lvl =
      Some (btf_dump_printf d (concat (map (print_piece lvl name) ws))) /\
    Forall (fun w => 0 < w <= unit) ws /\ foldr Z.add 0 ws <= m_off - cur /\
    (ws <> [] -> foldr Z.add 0 ws = m_off - cur /\
       (m_off mod unit = 0 -> fold_left place (map (pair unit) ws) cur = m_off)) /\
    (ws = [] -> cur = m_off \/ m_bit_sz = 0 /\ (m_off mod (align * 8) = 0 -> align_up cur (align * 8) = m_off)).
Proof.
  intros Hp Hc Hm Ha. unfold btf_dump_emit_bit_padding, int_of.
  replace ((-2147483648 <=? m_off - cur) && (m_off - cur <=? 2147483647)) with true by lia. cbn [mbind option_bind].
  destruct (Z.leb_spec (m_off - cur) 0).
  { exists "char"%string, []. cbn. rewrite printf_nil. split_and!; [done|constructor|lia|done|left; lia]. }
  destruct ((m_bit_sz =? 0) && _) eqn:En.
  { exists "char"%string, []. cbn. rewrite printf_nil. split_and!; [done|constructor|lia|done|].
    intros _. right. split; [lia|]. intros Hal. apply align_up_spec; lia. }
  set (p := d_ptr_sz d * 8). set (gap := m_off - cur) in *. assert (Hp' : p = 32 \/ p = 64) by lia.
  assert (Hu : 0 < gap_unit p gap) by (pose proof (gap_unit_cases p gap Hp'); lia).
  exists (gap_type p gap), (gap_widths (gap_unit p gap) gap). cbv zeta. change (unit_bits p (gap_type p gap)) with (gap_unit p gap).
  destruct (widths_spec (gap_unit p gap) gap) as [Hw Hs]; [done|lia|].
  split; [apply pad_loop_spec; lia|]. split; [done|]. split; [lia|]. split; [|done].
  intros _. split; [done|]. intros Hal. apply place_gap; lia.
Qed.

(** ** Examples *)

Lemma padding_reaches_member_witness : exists d, btf_dump__new always ex_dump = Some (inr d) /\ d_ptr_sz d = 8 /\
  exists name ws, let unit := unit_bits (d_ptr_sz d * 8) name in
    btf_dump_emit_bit_padding d 131 192 0 1 1 = Some (btf_dump_printf d (concat (map (print_piece 1 name) ws))) /\
    Forall (fun w => 0 < w <= unit) ws /\ foldr Z.add 0 ws <= 192 - 131 /\
    (ws <> [] -> foldr Z.add 0 ws = 192 - 131 /\
       (192 mod unit = 0 -> fold_left place (map (pair unit) ws) 131 = 192)) /\
    (ws = [] -> 131 = 192 \/ 0 = 0 /\ (192 mod (1 * 8) = 0 -> align_up 131 (1 * 8) = 192)).
Proof.
  eexists. split; [vm_compute; reflexivity|]. split; [vm_compute; reflexivity|].
  apply padding_reaches_member; [by right|lia|lia|lia].
Defined.

(** [struct s { int a; int b; }] with [b] at byte 12: the text puts it at
    byte 16, since the 64 bits of padding start a new unit. *)
Definition ex_gap : btf := loaded (ex_image (concat (map le32 (concat [
  [1; ex_kind 1 0 0; 4; 16777248]; [5; ex_kind 4 2 0; 16; 7; 1; 0; 9; 1; 96]])))
  ([0] ++ lit "int" ++ [0] ++ lit "s" ++ [0] ++ lit "a" ++ [0] ++ lit "b" ++ [0])) None.

Fact padding_overshoots : ex_text ex_gap 2 = Some (0,
    lit "struct s {" ++ [10; 9] ++ lit "int a;" ++ [10; 9] ++ lit "long: 64;" ++ [10; 9] ++ lit "int b;" ++ [10] ++ lit "};" ++ [10; 10]) /\
  place 32 (64, 64) = 128.
Proof. split; vm_compute; reflexivity. Qed.
