(* ===== verification/UsdtArg.v ===== *)
(** * User statically defined trace points: arguments (src/plugin/libbpf-test/libbpf/src/usdt.c, usdt.bpf.h)

    The text of a note says where each argument of a trace point is; libbpf
    turns it into specifications (x86-64 here), and the BPF side reads the
    argument a specification describes.  [sscanf] is the C standard's on the
    formats used.

    [None] is undefined behaviour: an access outside a buffer, a number a
    variable cannot hold, or the value of a variable never set. *)

From S2P Require Import Prelude CString BpfMap.

Abbreviation ESRCH := 3 (only parsing).

(** ** [sscanf]

    A format as the list of its directives: white space, a character, [%%],
    [%d] or [%ld] into a signed variable of [w] bits, [%m[^c]], [%ms] and [%n]. *)

Inductive directive :=
  | Space | Char (c : Z) | Percent | Int (w : Z) | Until (c : Z) | Word | Count.

Inductive scanned := SInt (v : Z) | SStr (s : list Z).

(** The longest prefix of characters with a property, and the rest. *)
Fixpoint prefix_of (p : Z -> bool) (s : list Z) : list Z * list Z :=
  match s with
  | c :: s' => if p c then let '(a, b) := prefix_of p s' in (c :: a, b) else ([], s)
  | [] => ([], [])
  end.

(** The values converted, as many as there is input for, and what [%n] stored,
    [total] being the length of the whole string.  Memory for the strings of
    [%m] is taken to be there. *)
Fixpoint sscanf (total : Z) (fmt : list directive) (s : list Z) : option (list scanned * option Z) :=
  match fmt with
  | [] => Some ([], None)
  | Space :: fmt => sscanf total fmt (skip_space s)
  | Char c :: fmt =>
      match s with
      | x :: s => if x =? c then sscanf total fmt s else Some ([], None)
      | [] => Some ([], None)
      end
  | Percent :: fmt =>
      match skip_space s with
      | x :: s => if x =? 37 then sscanf total fmt s else Some ([], None)
      | [] => Some ([], None)
      end
  | Int w :: fmt =>
      let '(neg, s2) := sign (skip_space s) in
      let '(v, n, rest) := digits 0 0 s2 in
      if bool_decide (n = 0%nat) then Some ([], None) else
      let v := if neg : bool then - v else v in
      if (- 2 ^ (w - 1) <=? v) && (v <? 2 ^ (w - 1)) then
        '(r, l) ← sscanf total fmt rest; Some (SInt v :: r, l)
      else None
  | Until c :: fmt =>
      let '(tok, rest) := prefix_of (fun x => negb (x =? c)) s in
      if bool_decide (tok = []) then Some ([], None) else
      '(r, l) ← sscanf total fmt rest; Some (SStr tok :: r, l)
  | Word :: fmt =>
      let '(tok, rest) := prefix_of (fun x => negb (isspace x)) (skip_space s) in
      if bool_decide (tok = []) then Some ([], None) else
      '(r, l) ← sscanf total fmt rest; Some (SStr tok :: r, l)
  | Count :: fmt =>
      '(r, l) ← sscanf total fmt s;
      Some (r, Some (default (total - Z.of_nat (length s)) l))
  end.

(** " %d @ %ld ( %%%m[^)] ) %n", " %d @ %%%ms %n", " %d @ $%ld %n" *)
Definition fmt_deref : list directive :=
  [Space; Int 32; Space; Char 64; Space; Int 64; Space; Char 40; Space; Percent; Until 41; Space; Char 41; Space; Count].
Definition fmt_reg : list directive := [Space; Int 32; Space; Char 64; Space; Percent; Word; Space; Count].
Definition fmt_const : list directive := [Space; Int 32; Space; Char 64; Space; Char 36; Int 64; Space; Count].

(** ** Specifications of arguments *)

Inductive usdt_arg_type := USDT_ARG_CONST | USDT_ARG_REG | USDT_ARG_REG_DEREF.

Record usdt_arg_spec := ArgSpec {
  val_off : Z;
  arg_type : usdt_arg_type;
  reg_off : Z;
  arg_signed : bool;
  arg_bitshift : Z;
}.

Definition USDT_MAX_ARG_CNT : Z := 12.

Record usdt_spec := Spec { args : list usdt_arg_spec; usdt_cookie : Z; arg_cnt : Z }.

(** A zeroed specification. *)
Definition arg0 : usdt_arg_spec := ArgSpec 0 USDT_ARG_CONST 0 false 0.
Definition spec0 : usdt_spec := Spec (replicate 12 arg0) 0 0.

(** The registers' names, and their offsets in [struct pt_regs]. *)
Definition reg_map : list (list string * Z) := [
  (["rip"; "eip"; ""; ""], 128); (["rax"; "eax"; "ax"; "al"], 80); (["rbx"; "ebx"; "bx"; "bl"], 40);
  (["rcx"; "ecx"; "cx"; "cl"], 88); (["rdx"; "edx"; "dx"; "dl"], 96); (["rsi"; "esi"; "si"; "sil"], 104);
  (["rdi"; "edi"; "di"; "dil"], 112); (["rbp"; "ebp"; "bp"; "bpl"], 32); (["rsp"; "esp"; "sp"; "spl"], 152);
  (["r8"; "r8d"; "r8w"; "r8b"], 72); (["r9"; "r9d"; "r9w"; "r9b"], 64); (["r10"; "r10d"; "r10w"; "r10b"], 56);
  (["r11"; "r11d"; "r11w"; "r11b"], 48); (["r12"; "r12d"; "r12w"; "r12b"], 24);
  (["r13"; "r13d"; "r13w"; "r13b"], 16); (["r14"; "r14d"; "r14w"; "r14b"], 8); (["r15"; "r15d"; "r15w"; "r15b"], 0)]%string.

Fixpoint find_reg (m : list (list string * Z)) (reg_name : list Z) : option Z :=
  match m with
  | [] => None
  | (names, off) :: m =>
      if existsb (fun n => strcmp reg_name (lit n) =? 0) names then Some off else find_reg m reg_name
  end.

Definition calc_pt_regs_off (reg_name : list Z) : Z := default (- ENOENT) (find_reg reg_map reg_name).

(** The size and what follows from it; [len] is what [%n] stored, if it did. *)
Definition set_size (a : usdt_arg_spec) (arg_sz : Z) (len : option Z) : option (Z * usdt_arg_spec) :=
  let a := ArgSpec (val_off a) (arg_type a) (reg_off a) (arg_sz <? 0) (arg_bitshift a) in
  if arg_sz =? - 2 ^ 31 then None else
  let arg_sz := Z.abs arg_sz in
  if bool_decide (arg_sz ∈ [1; 2; 4; 8]) then
    len ← len; Some (len, ArgSpec (val_off a) (arg_type a) (reg_off a) (arg_signed a) (64 - arg_sz * 8))
  else Some (- EINVAL, a).

Definition set_reg (a : usdt_arg_spec) (ty : usdt_arg_type) (off : Z) (reg_name : list Z)
    (arg_sz : Z) (len : option Z) : option (Z * usdt_arg_spec) :=
  let a := ArgSpec (u64 off) ty (reg_off a) (arg_signed a) (arg_bitshift a) in
  let reg := calc_pt_regs_off reg_name in
  if reg <? 0 then Some (reg, a) else
  set_size (ArgSpec (val_off a) (arg_type a) reg (arg_signed a) (arg_bitshift a)) arg_sz len.

(** Error or number of characters read, and the specification. *)
Definition parse_usdt_arg (arg_str : list Z) (a : usdt_arg_spec) : option (Z * usdt_arg_spec) :=
  let scan fmt := sscanf (Z.of_nat (length arg_str)) fmt arg_str in
  r ← scan fmt_deref;
  match r with
  | ([SInt arg_sz; SInt off; SStr reg_name], len) => set_reg a USDT_ARG_REG_DEREF off reg_name arg_sz len
  | _ =>
      r ← scan fmt_reg;
      match r with
      | ([SInt arg_sz; SStr reg_name], len) => set_reg a USDT_ARG_REG 0 reg_name arg_sz len
      | _ =>
          r ← scan fmt_const;
          match r with
          | ([SInt arg_sz; SInt off], len) =>
              set_size (ArgSpec (u64 off) USDT_ARG_CONST 0 (arg_signed a) (arg_bitshift a)) arg_sz len
          | _ => Some (- EINVAL, a)
          end
      end
  end.

Fixpoint spec_loop (fuel : nat) (spec : usdt_spec) (s : list Z) : option (Z * usdt_spec) :=
  match s with
  | [] => Some (0, spec)
  | _ =>
      if arg_cnt spec >=? USDT_MAX_ARG_CNT then Some (- E2BIG, spec) else
      match fuel with
      | O => None
      | S fuel =>
          a ← aref (args spec) (arg_cnt spec);
          '(len, a) ← parse_usdt_arg s a;
          l ← aset (args spec) (arg_cnt spec) a;
          if len <? 0 then Some (len, Spec l (usdt_cookie spec) (arg_cnt spec)) else
          spec_loop fuel (Spec l (usdt_cookie spec) (arg_cnt spec + 1)) (drop (Z.to_nat len) s)
      end
  end.

(** At most twelve arguments are read. *)
Definition parse_usdt_spec (spec : usdt_spec) (note_args : list Z) (cookie : Z) : option (Z * usdt_spec) :=
  spec_loop 13 (Spec (args spec) cookie 0) note_args.

(** ** The BPF side (usdt.bpf.h)

    A probe's event: the instruction pointer in [ctx], the cookie of the
    attachment, the address of the saved registers, and the memory of the
    kernel and of the traced process, eight bytes at a time. *)

Record event := Event {
  ev_ip : Z;
  ev_cookie : Z;
  ev_ctx : Z;
  read_kernel : Z -> Z + Z;
  read_user : Z -> Z + Z;
}.

Section Bpf.
Context {S I : Type} `{!BpfMapOps Z usdt_spec S} `{!BpfMapOps Z Z I}.
Context (has_bpf_cookie : bool) (specs : S) (ips : I).

Definition __bpf_usdt_spec_id (e : event) : Z :=
  if negb has_bpf_cookie then default (- ESRCH) (bpf_map_lookup_elem ips (ev_ip e))
  else s32 (ev_cookie e).

Definition event_spec (e : event) : option usdt_spec :=
  let spec_id := __bpf_usdt_spec_id e in
  if spec_id <? 0 then None else bpf_map_lookup_elem specs spec_id.

Definition bpf_usdt_arg_cnt (e : event) : Z :=
  match event_spec e with None => - ESRCH | Some spec => arg_cnt spec end.

Definition bpf_usdt_cookie (e : event) : Z :=
  match event_spec e with None => 0 | Some spec => s64 (usdt_cookie spec) end.

(** The value before its cast: an error or eight bytes. *)
Definition fetch (e : event) (a : usdt_arg_spec) : Z + Z :=
  match arg_type a with
  | USDT_ARG_CONST => inr (val_off a)
  | USDT_ARG_REG => read_kernel e (ev_ctx e + reg_off a)
  | USDT_ARG_REG_DEREF =>
      match read_kernel e (ev_ctx e + reg_off a) with
      | inl err => inl err
      | inr val => read_user e (u64 (val + val_off a))
      end
  end.

(** The casts by shifting; a shift by 64 bits or more is undefined. *)
Definition cast (a : usdt_arg_spec) (val : Z) : option Z :=
  let shift := arg_bitshift a in
  if (0 <=? shift) && (shift <? 64) then
    let val := u64 (Z.shiftl val shift) in
    Some (s64 (if arg_signed a then Z.shiftr (s64 val) shift else Z.shiftr val shift))
  else None.

(** Error, and [*res]. *)
Definition bpf_usdt_arg (e : event) (arg_num : Z) : option (Z * Z) :=
  match event_spec e with
  | None => Some (- ESRCH, 0)
  | Some spec =>
      if (arg_num >=? USDT_MAX_ARG_CNT) || (arg_num >=? u64 (arg_cnt spec)) then Some (- ENOENT, 0) else
      a ← aref (args spec) arg_num;
      match fetch e a with
      | inl err => Some (err, 0)
      | inr val => v ← cast a val; Some (0, v)
      end
  end.
End Bpf.

(** ** What a note says

    The place of an argument as the text names it: a constant, a register, or
    the memory behind a register. *)

Inductive location := InConst (v : Z) | InReg (r : list Z) | InMem (off : Z) (r : list Z).

Record argument := Argument { a_size : Z; a_signed : bool; a_loc : location }.

Definition known_reg (r : list Z) : bool := bool_decide (r <> []) && (0 <=? calc_pt_regs_off r).

Definition in_long (v : Z) : bool := (- 2 ^ 63 <=? v) && (v <? 2 ^ 63).

Definition valid_arg (a : argument) : bool :=
  bool_decide (a_size a ∈ [1; 2; 4; 8]) &&
  match a_loc a with
  | InConst v => in_long v
  | InReg r => known_reg r
  | InMem off r => in_long off && known_reg r
  end.

(** The text of an argument, as [sys/sdt.h] writes it: [-4@-20(%rbp)]. *)
Definition print_loc (l : location) : list Z :=
  match l with
  | InConst v => 36 :: dec_s v
  | InReg r => 37 :: r
  | InMem off r => dec_s off ++ 40 :: 37 :: r ++ [41]
  end.

Definition print_arg (a : argument) : list Z :=
  dec_s (if a_signed a then - a_size a else a_size a) ++ 64 :: print_loc (a_loc a).

Fixpoint print_args (l : list argument) : list Z :=
  match l with
  | [] => []
  | [a] => print_arg a
  | a :: l => print_arg a ++ 32 :: print_args l
  end.

(** Its specification. *)
Definition spec_of (a : argument) : usdt_arg_spec :=
  let '(off, ty, reg) := match a_loc a with
    | InConst v => (v, USDT_ARG_CONST, 0)
    | InReg r => (0, USDT_ARG_REG, calc_pt_regs_off r)
    | InMem off r => (off, USDT_ARG_REG_DEREF, calc_pt_regs_off r)
    end in
  ArgSpec (u64 off) ty reg (a_signed a) (64 - 8 * a_size a).

(** ** Scanning *)

Lemma isspace_not c : 32 < c -> isspace c = false.
Proof. unfold isspace. lia. Qed.

Lemma skip_space_head c s : isspace c = false -> skip_space (c :: s) = c :: s.
Proof. intros H. cbn. by rewrite H. Qed.

(** The head of a number is no white space. *)
Lemma dec_s_head v : - 10 ^ 20 < v < 10 ^ 20 -> exists c s, dec_s v = c :: s /\ (c = 45 \/ 48 <= c <= 57).
Proof.
  intros Hv. unfold dec_s. destruct (Z.ltb_spec v 0); [eexists _, _; split; [done|by left]|].
  destruct (dec_u_spec v ltac:(lia)) as [[Hne Hd] _]. destruct (dec_u v) as [|c s]; [done|].
  inversion Hd as [|? ? Hc]; subst. apply isdigit_range in Hc. eexists _, _. split; [done|lia].
Qed.

Lemma skip_dec_s v rest : - 10 ^ 20 < v < 10 ^ 20 -> skip_space (dec_s v ++ rest) = dec_s v ++ rest.
Proof. intros (c & s & -> & Hc)%dec_s_head. apply skip_space_head, isspace_not. lia. Qed.

(** A number printed is the number read. *)
Lemma sscanf_int total w fmt v rest : - 2 ^ (w - 1) <= v < 2 ^ (w - 1) -> - 2 ^ 63 <= v < 2 ^ 63 -> stops rest ->
  sscanf total (Int w :: fmt) (dec_s v ++ rest) = ('(r, l) ← sscanf total fmt rest; Some (SInt v :: r, l)).
Proof.
  intros Hw Hv Hr. cbn [sscanf]. rewrite skip_dec_s by lia.
  assert (H : forall n, 0 <= n < 10 ^ 20 -> digits 0 0 (dec_u n ++ rest) = (n, length (dec_u n), rest) /\ length (dec_u n) <> 0%nat).
  { intros n Hn. destruct (dec_u_spec n Hn) as [[Hne Hd] Hval]. rewrite digits_app by done. unfold dec_value in Hval.
    rewrite Hval. split; [done|]. by destruct (dec_u n). }
  unfold dec_s. destruct (Z.ltb_spec v 0).
  - cbn [app sign Z.eqb Pos.eqb]. destruct (H (- v) ltac:(lia)) as [-> Hn]. rewrite bool_decide_false by done.
    rewrite Z.opp_involutive. replace ((- 2 ^ (w - 1) <=? v) && (v <? 2 ^ (w - 1))) with true by lia. done.
  - destruct (dec_u_spec v ltac:(lia)) as [Hnum _].
    assert (Hs' : sign (dec_u v ++ rest) = (false, dec_u v ++ rest)).
    { destruct Hnum as [Hne Hd]. destruct (dec_u v) as [|c s]; [done|]. inversion Hd as [|? ? Hc]; subst. apply isdigit_range in Hc.
      cbn. zcase; [lia|]. zcase; [lia|done]. }
    rewrite Hs'. destruct (H v ltac:(lia)) as [-> Hn]. rewrite bool_decide_false by done.
    replace ((- 2 ^ (w - 1) <=? v) && (v <? 2 ^ (w - 1))) with true by lia. done.
Qed.

Lemma sscanf_char total c fmt s : sscanf total (Char c :: fmt) (c :: s) = sscanf total fmt s.
Proof. cbn. by rewrite Z.eqb_refl. Qed.

Lemma sscanf_space total fmt c s : isspace c = false -> sscanf total (Space :: fmt) (c :: s) = sscanf total fmt (c :: s).
Proof. intros H. cbn [sscanf]. by rewrite skip_space_head. Qed.

Lemma sscanf_space_int total fmt v rest : - 2 ^ 63 <= v < 2 ^ 63 ->
  sscanf total (Space :: fmt) (dec_s v ++ rest) = sscanf total fmt (dec_s v ++ rest).
Proof. intros H. cbn [sscanf]. rewrite skip_dec_s by lia. done. Qed.

Lemma sscanf_no_int total w fmt c s : isspace c = false -> isdigit c = false -> c <> 43 -> c <> 45 ->
  sscanf total (Int w :: fmt) (c :: s) = Some ([], None).
Proof. intros Hs Hd H1 H2. cbn [sscanf]. rewrite skip_space_head by done. cbn [sign]. zcase; [done|]. zcase; [done|]. cbn. by rewrite Hd. Qed.

Lemma prefix_of_app p a b : Forall (fun c => p c = true) a -> match b with [] => True | c :: _ => p c = false end ->
  prefix_of p (a ++ b) = (a, b).
Proof.
  intros Ha Hb. induction Ha as [|c a Hc Ha IH]; cbn; [|by rewrite Hc, IH].
  destruct b as [|c b]; [done|]. cbn. by rewrite Hb.
Qed.

(** ** Registers *)

Definition reg_names : list (list Z) := filter (fun r => r <> []) (concat (map (fun m => map lit (fst m)) reg_map)).

Lemma find_reg_in m r off : find_reg m r = Some off -> r ∈ concat (map (fun m => map lit (fst m)) m).
Proof.
  induction m as [|[names o] m IH]; cbn [find_reg]; [done|]. destruct (existsb _ names) eqn:E.
  - intros _. apply existsb_exists in E as (n & Hn & Hr%Z.eqb_eq%strcmp_eq). subst. cbn [map concat fst].
    apply elem_of_app. left. apply list_elem_of_In, in_map, Hn.
  - intros H. cbn [map concat]. apply elem_of_app. right. by apply IH.
Qed.

(** Register names have no white space and no bracket. *)
Lemma known_reg_chars r : known_reg r = true ->
  r <> [] /\ 0 <= calc_pt_regs_off r /\ Forall (fun c => negb (isspace c) = true) r /\ Forall (fun c => negb (c =? 41) = true) r.
Proof.
  unfold known_reg. intros [Hne%bool_decide_eq_true Hr%Z.leb_le]%andb_true_iff. split; [done|]. split; [done|].
  assert (Hin : r ∈ concat (map (fun m => map lit (fst m)) reg_map)).
  { unfold calc_pt_regs_off in Hr. destruct (find_reg reg_map r) as [off|] eqn:E; [by eapply find_reg_in|cbn in Hr; lia]. }
  assert (H : Forall (fun r => Forall (fun c => negb (isspace c) = true) r /\ Forall (fun c => negb (c =? 41) = true) r)
                (concat (map (fun m => map lit (fst m)) reg_map))) by (cbn; repeat constructor).
  rewrite Forall_forall in H. by apply H.
Qed.

(** ** Parsing what was printed *)

(** What follows an argument: nothing, or white space. *)
Definition tail_ok (t : list Z) : Prop := match t with [] => True | c :: _ => isspace c = true end.

Lemma tail_stops t : tail_ok t -> stops t.
Proof. destruct t as [|c t]; [done|]. cbn. unfold isspace, isdigit. lia. Qed.

Lemma size_range a : valid_arg a = true -> a_size a ∈ [1; 2; 4; 8] /\ 1 <= a_size a <= 8.
Proof.
  unfold valid_arg. intros [H%bool_decide_eq_true _]%andb_true_iff. split; [done|].
  rewrite !elem_of_cons, elem_of_nil in H. lia.
Qed.

Lemma set_size_print o ty r sg sh a len : valid_arg a = true ->
  set_size (ArgSpec o ty r sg sh) (if a_signed a then - a_size a else a_size a) (Some len) =
  Some (len, ArgSpec o ty r (a_signed a) (64 - 8 * a_size a)).
Proof.
  intros [Hin Hr]%size_range. unfold set_size. cbn [val_off arg_type reg_off arg_bitshift arg_signed].
  set (z := if a_signed a then _ else _).
  assert (Hz : (z <? 0) = a_signed a) by (unfold z; destruct (a_signed a); lia).
  assert (Ha : Z.abs z = a_size a) by (unfold z; destruct (a_signed a); lia).
  rewrite Hz, Ha. destruct (Z.eqb_spec z (- 2 ^ 31)); [unfold z in *; destruct (a_signed a); lia|].
  rewrite bool_decide_true by done. cbn [mbind option_bind]. by rewrite (Z.mul_comm 8).
Qed.

(** The formats' common start. *)
Lemma sscanf_size total fmt a rest : valid_arg a = true ->
  sscanf total (Space :: Int 32 :: Space :: Char 64 :: fmt) (dec_s (if a_signed a then - a_size a else a_size a) ++ 64 :: rest) =
  ('(r, l) ← sscanf total fmt rest; Some (SInt (if a_signed a then - a_size a else a_size a) :: r, l)).
Proof.
  intros [Hin Hr]%size_range. set (z := if a_signed a then _ else _).
  assert (- 8 <= z <= 8) by (unfold z; destruct (a_signed a); lia).
  rewrite sscanf_space_int by lia. rewrite sscanf_int by (try done; lia).
  by rewrite sscanf_space, sscanf_char.
Qed.

Lemma sscanf_end total t : sscanf total [Space; Count] t = Some ([], Some (total - Z.of_nat (length (skip_space t)))).
Proof. done. Qed.

(** The formats' end, on the place of the argument [a] in front of [t]. *)
Lemma scan_deref total off r t : in_long off = true -> known_reg r = true -> tail_ok t ->
  sscanf total [Space; Int 64; Space; Char 40; Space; Percent; Until 41; Space; Char 41; Space; Count]
    (print_loc (InMem off r) ++ t) =
  Some ([SInt off; SStr r], Some (total - Z.of_nat (length (skip_space t)))).
Proof.
  unfold in_long. intros Ho (Hne & _ & _ & Hc)%known_reg_chars Ht. cbn [print_loc]. rewrite <- app_assoc.
  rewrite sscanf_space_int by lia. rewrite sscanf_int by (try done; lia). cbn [app].
  rewrite sscanf_space, sscanf_char, sscanf_space by done. cbn [sscanf]. rewrite (skip_space_head 37) by done. cbn [Z.eqb Pos.eqb].
  rewrite <- app_assoc, prefix_of_app by done. rewrite bool_decide_false by done. cbn [app].
  rewrite skip_space_head by done. cbn [Z.eqb Pos.eqb mbind option_bind default]. done.
Qed.

Lemma scan_reg total r t : known_reg r = true -> tail_ok t ->
  sscanf total [Space; Percent; Word; Space; Count] (print_loc (InReg r) ++ t) =
  Some ([SStr r], Some (total - Z.of_nat (length (skip_space t)))).
Proof.
  intros (Hne & _ & Hs & _)%known_reg_chars Ht. cbn [print_loc app]. rewrite sscanf_space by done. cbn [sscanf].
  rewrite skip_space_head by done. cbn [Z.eqb Pos.eqb].
  assert (Hk : skip_space (r ++ t) = r ++ t).
  { destruct r as [|c r]; [done|]. inversion Hs as [|? ? Hc]; subst. apply skip_space_head. by apply negb_true_iff. }
  rewrite Hk, prefix_of_app; [|done|destruct t as [|c t]; [done|cbn in *; by rewrite Ht]].
  by rewrite bool_decide_false.
Qed.

Lemma scan_const total v t : in_long v = true -> tail_ok t ->
  sscanf total [Space; Char 36; Int 64; Space; Count] (print_loc (InConst v) ++ t) =
  Some ([SInt v], Some (total - Z.of_nat (length (skip_space t)))).
Proof.
  unfold in_long. intros Hv Ht. cbn [print_loc app]. rewrite sscanf_space, sscanf_char by done.
  rewrite sscanf_int by (try (by apply tail_stops); lia). done.
Qed.

Lemma parse_usdt_arg_print a t a0 : valid_arg a = true -> tail_ok t ->
  parse_usdt_arg (print_arg a ++ t) a0 = Some (Z.of_nat (length (print_arg a ++ t)) - Z.of_nat (length (skip_space t)), spec_of a).
Proof.
  intros Hv Ht. unfold parse_usdt_arg, print_arg. rewrite <- app_assoc. cbn [app].
  set (total := Z.of_nat (length _)). unfold fmt_deref, fmt_reg, fmt_const. rewrite !(sscanf_size total _ a) by done.
  assert (Hl := Hv). unfold valid_arg in Hl. apply andb_true_iff in Hl as [_ Hl]. unfold spec_of.
  destruct (a_loc a) as [v|r|off r].
  - replace (sscanf total [Space; Int 64; Space; Char 40; Space; Percent; Until 41; Space; Char 41; Space; Count] (print_loc (InConst v) ++ t))
      with (Some (@nil scanned, @None Z)) by (cbn [print_loc app]; by rewrite sscanf_space, sscanf_no_int).
    cbn [mbind option_bind].
    replace (sscanf total [Space; Percent; Word; Space; Count] (print_loc (InConst v) ++ t)) with (Some (@nil scanned, @None Z)) by done.
    cbn [mbind option_bind]. rewrite scan_const by done. cbn [mbind option_bind]. by apply set_size_print.
  - replace (sscanf total [Space; Int 64; Space; Char 40; Space; Percent; Until 41; Space; Char 41; Space; Count] (print_loc (InReg r) ++ t))
      with (Some (@nil scanned, @None Z)) by (cbn [print_loc app]; by rewrite sscanf_space, sscanf_no_int).
    cbn [mbind option_bind]. rewrite scan_reg by done. cbn [mbind option_bind]. unfold set_reg.
    apply known_reg_chars in Hl as (_ & Hr & _). destruct (Z.ltb_spec (calc_pt_regs_off r) 0); [lia|]. by apply set_size_print.
  - apply andb_true_iff in Hl as [Ho Hr]. rewrite scan_deref by done. cbn [mbind option_bind]. unfold set_reg.
    apply known_reg_chars in Hr as (_ & Hr & _). destruct (Z.ltb_spec (calc_pt_regs_off r) 0); [lia|]. by apply set_size_print.
Qed.

Lemma print_args_cons a l : print_args (a :: l) = print_arg a ++ match l with [] => [] | _ => 32 :: print_args l end.
Proof. destruct l; [by rewrite app_nil_r|done]. Qed.

Lemma print_arg_head a : valid_arg a = true -> exists c s, print_arg a = c :: s /\ isspace c = false.
Proof.
  intros [_ Hr]%size_range. set (z := if a_signed a then - a_size a else a_size a).
  destruct (dec_s_head z) as (c & s & E & Hc); [unfold z; destruct (a_signed a); lia|].
  unfold print_arg. fold z. rewrite E. eexists _, _. split; [done|]. apply isspace_not. lia.
Qed.

(** One argument of several. *)
Lemma parse_first a l a0 : valid_arg a = true -> forallb valid_arg l = true -> exists len,
  parse_usdt_arg (print_args (a :: l)) a0 = Some (len, spec_of a) /\ 0 <= len /\
  drop (Z.to_nat len) (print_args (a :: l)) = print_args l.
Proof.
  intros Ha Hl. rewrite print_args_cons. set (t := match l with [] => [] | _ => 32 :: print_args l end).
  assert (Ht : tail_ok t /\ skip_space t = print_args l /\ exists p, t = p ++ print_args l).
  { unfold t. destruct l as [|a' l]; [split_and!; [done|done|by exists []]|]. split; [done|]. split; [|by exists [32]].
    cbn [skip_space]. change (isspace 32) with true. cbv iota. cbn in Hl. apply andb_true_iff in Hl as [Ha' _].
    rewrite print_args_cons. destruct (print_arg_head a' Ha') as (c & s & -> & Hc). by apply skip_space_head. }
  destruct Ht as (Hok & Hskip & p & Hp). eexists. split; [by apply parse_usdt_arg_print|].
  rewrite Hskip, length_app, Hp, length_app. split; [lia|].
  replace (Z.to_nat _) with (length (print_arg a ++ p)) by (rewrite length_app; lia).
  rewrite app_assoc. apply drop_app_length.
Qed.

Lemma print_args_nonnil a l : valid_arg a = true -> exists c s, print_args (a :: l) = c :: s.
Proof. intros Ha. rewrite print_args_cons. destruct (print_arg_head a Ha) as (c & s & -> & _). by eexists _, _. Qed.

Lemma aref_middle {A} (l1 l2 : list A) x : aref (l1 ++ x :: l2) (Z.of_nat (length l1)) = Some x.
Proof. rewrite aref_nat. by apply list_lookup_middle. Qed.

Lemma aset_middle {A} (l1 l2 : list A) x y : aset (l1 ++ x :: l2) (Z.of_nat (length l1)) y = Some (l1 ++ y :: l2).
Proof.
  rewrite aset_nat by (rewrite length_app; cbn; lia). f_equal. by rewrite insert_app_r_alt, Nat.sub_diag by lia.
Qed.

Lemma spec_loop_print cookie fuel : forall l pre n, forallb valid_arg l = true -> (length pre + n = 12)%nat -> (n < fuel)%nat ->
  exists l', length l' = 12%nat /\
  spec_loop fuel (Spec (pre ++ replicate n arg0) cookie (Z.of_nat (length pre))) (print_args l) =
    Some (if Nat.ltb n (length l) then - E2BIG else 0, Spec l' cookie (Z.of_nat (Nat.min 12 (length pre + length l)))) /\
  ((length l <= n)%nat -> l' = pre ++ map spec_of l ++ replicate (n - length l) arg0).
Proof.
  induction fuel as [|fuel IH]; intros l pre n Hv Hlen Hf; [lia|]. destruct l as [|a l].
  - cbn [print_args spec_loop length map]. exists (pre ++ replicate n arg0).
    split; [rewrite length_app, length_replicate; lia|]. split; [|intros _; by rewrite Nat.sub_0_r].
    replace (Nat.ltb n 0) with false by (symmetry; apply Nat.ltb_ge; lia). do 3 f_equal. lia.
  - cbn in Hv. apply andb_true_iff in Hv as [Ha Hv]. destruct (parse_first a l arg0 Ha Hv) as (len & Hp & Hl0 & Hd).
    destruct (print_args_nonnil a l Ha) as (c & s & E). cbn [spec_loop]. rewrite E. rewrite <- E. cbn [arg_cnt args usdt_cookie].
    unfold USDT_MAX_ARG_CNT. destruct (Z.geb_spec (Z.of_nat (length pre)) 12) as [Hge|Hlt].
    + assert (n = 0%nat) as -> by lia. exists (pre ++ replicate 0 arg0). cbn [length replicate].
      split; [rewrite app_nil_r; lia|]. split; [|lia].
      by replace (Nat.min 12 (length pre + S (length l))) with (length pre) by lia.
    + destruct n as [|n]; [lia|]. cbn [replicate]. rewrite aref_middle. cbn [mbind option_bind]. rewrite Hp. cbn [mbind option_bind].
      rewrite aset_middle. cbn [mbind option_bind]. destruct (Z.ltb_spec len 0); [lia|]. rewrite Hd.
      destruct (IH l (pre ++ [spec_of a]) n Hv) as (l' & Hl' & Hr & Hs); [rewrite length_app; cbn; lia|lia|].
      rewrite <- app_assoc in Hr. cbn [app] in Hr.
      replace (Z.of_nat (length (pre ++ [spec_of a]))) with (Z.of_nat (length pre) + 1) in Hr by (rewrite length_app; cbn; lia).
      exists l'. split; [done|]. split.
      * rewrite Hr, length_app. cbn [length].
        by replace (length pre + 1 + length l)%nat with (length pre + S (length l))%nat by lia.
      * intros Hle. rewrite Hs by (cbn in Hle; lia). cbn [map length Nat.sub]. by rewrite <- app_assoc.
Qed.

Lemma parse_usdt_spec_print l cookie : forallb valid_arg l = true -> (length l <= 12)%nat ->
  parse_usdt_spec spec0 (print_args l) cookie =
  Some (0, Spec (map spec_of l ++ replicate (12 - length l) arg0) cookie (Z.of_nat (length l))).
Proof.
  intros Hv Hl. destruct (spec_loop_print cookie 13 l [] 12 Hv ltac:(done) ltac:(lia)) as (l' & _ & H & Hs).
  unfold parse_usdt_spec. cbn [app length] in *. change (args spec0) with (replicate 12 arg0). change (Z.of_nat 0) with 0 in H.
  rewrite H, Hs by done. destruct (Nat.ltb_spec 12 (length l)); [lia|]. do 3 f_equal. lia.
Qed.

(** ** The cast *)

Lemma shift_up w val : 0 < w <= 64 -> u64 (Z.shiftl val (64 - w)) = wrap w val * 2 ^ (64 - w).
Proof.
  intros Hw. unfold wrap. rewrite Z.shiftl_mul_pow2 by lia.
  replace 64 with (w + (64 - w)) at 2 by lia. rewrite Z.pow_add_r by lia. apply Zmult_mod_distr_r.
Qed.

Lemma signed_up w val : 0 < w <= 64 -> s64 (wrap w val * 2 ^ (64 - w)) = swrap w val * 2 ^ (64 - w).
Proof.
  intros Hw. unfold swrap, wrap.
  assert (E1 : 2 ^ (64 - 1) = 2 ^ (w - 1) * 2 ^ (64 - w)) by (rewrite <- Z.pow_add_r by lia; f_equal; lia).
  assert (E2 : 2 ^ 64 = 2 ^ w * 2 ^ (64 - w)) by (rewrite <- Z.pow_add_r by lia; f_equal; lia).
  rewrite E1, E2, <- Z.mul_add_distr_r, Zmult_mod_distr_r, Zplus_mod_idemp_l. lia.
Qed.

Lemma cast_bits w val (signed : bool) : 0 < w <= 64 ->
  let up := u64 (Z.shiftl val (64 - w)) in
  (if signed then Z.shiftr (s64 up) (64 - w) else Z.shiftr up (64 - w)) = if signed then swrap w val else wrap w val.
Proof.
  intros Hw up. unfold up. rewrite shift_up, signed_up by done. rewrite !Z.shiftr_div_pow2 by lia.
  rewrite !Z.div_mul by (apply Z.pow_nonzero; lia). done.
Qed.

Lemma cast_spec a val : valid_arg a = true ->
  cast (spec_of a) val = Some (s64 (if a_signed a then swrap (8 * a_size a) val else wrap (8 * a_size a) val)).
Proof.
  intros [_ Hr]%size_range. rewrite <- (cast_bits (8 * a_size a) val (a_signed a)) by lia. unfold spec_of, cast.
  destruct (a_loc a); cbn [arg_bitshift arg_signed];
    replace ((0 <=? 64 - 8 * a_size a) && (64 - 8 * a_size a <? 64)) with true by lia; done.
Qed.

(** ** From the text to the value

    What is at a place when a probe fires. *)
Definition located (e : event) (l : location) : Z + Z :=
  let register r := read_kernel e (ev_ctx e + calc_pt_regs_off r) in
  match l with
  | InConst v => inr (u64 v)
  | InReg r => register r
  | InMem off r => match register r with inl err => inl err | inr base => read_user e (u64 (base + u64 off)) end
  end.

Lemma fetch_spec e a : fetch e (spec_of a) = located e (a_loc a).
Proof. unfold fetch, spec_of, located. by destruct (a_loc a). Qed.

(** The value of an argument of [a_size] bytes, as [long]. *)
Definition argument_value (a : argument) (val : Z) : Z :=
  s64 (if a_signed a then swrap (8 * a_size a) val else wrap (8 * a_size a) val).

(** C14: an argument is read where and as its note says.  For the text of at
    most twelve arguments, each with a size of one, two, four or eight bytes,
    signed or not, in a constant, a known register or memory at a written
    offset behind one, parsing succeeds, and a probe that finds the specification has that many
    arguments and the cookie given; for each of them [bpf_usdt_arg] gives the
    low bytes of what is at its place, extended with zeros or the sign, or the
    error of the read; beyond them it gives -ENOENT.  A text with more
    arguments is refused with -E2BIG. *)
Theorem usdt_args_read (l : list argument) (cookie : Z) : forallb valid_arg l = true ->
  if Nat.leb (length l) 12 then
    exists spec, parse_usdt_spec spec0 (print_args l) cookie = Some (0, spec) /\
    forall {S I} `{!BpfMapOps Z usdt_spec S} `{!BpfMapOps Z Z I} has_bpf_cookie (specs : S) (ips : I) e,
      event_spec has_bpf_cookie specs ips e = Some spec ->
      bpf_usdt_arg_cnt has_bpf_cookie specs ips e = Z.of_nat (length l) /\
      bpf_usdt_cookie has_bpf_cookie specs ips e = s64 cookie /\
      forall n, 0 <= n -> bpf_usdt_arg has_bpf_cookie specs ips e n =
        match aref l n with
        | None => Some (- ENOENT, 0)
        | Some a => match located e (a_loc a) with
                    | inl err => Some (err, 0)
                    | inr val => Some (0, argument_value a val)
                    end
        end
  else exists spec, parse_usdt_spec spec0 (print_args l) cookie = Some (- E2BIG, spec).
Proof.
  intros Hv. destruct (Nat.leb_spec (length l) 12) as [Hl|Hl].
  - eexists. split; [by apply parse_usdt_spec_print|]. intros S I ? ? hc specs ips e He.
    unfold bpf_usdt_arg_cnt, bpf_usdt_cookie, bpf_usdt_arg. rewrite He. cbn [arg_cnt usdt_cookie args].
    split; [done|]. split; [done|]. intros n Hn. rewrite wrap_small by (pow2; lia). unfold USDT_MAX_ARG_CNT.
    rewrite aref_app, aref_map, length_map. destruct (aref l n) as [a|] eqn:Ea.
    + pose proof (aref_bounds _ _ _ Ea). replace ((n >=? 12) || (n >=? Z.of_nat (length l))) with false by lia.
      assert (Ha : valid_arg a = true).
      { rewrite forallb_forall in Hv. apply Hv, list_elem_of_In, aref_elem. by exists n. }
      replace (n <? Z.of_nat (length l)) with true by lia. cbn [fmap option_fmap option_map mbind option_bind].
      rewrite (fetch_spec e a). destruct (located e (a_loc a)); [done|]. by rewrite cast_spec.
    + replace ((n >=? 12) || (n >=? Z.of_nat (length l))) with true; [done|].
      destruct (Z.ltb_spec n (Z.of_nat (length l))); [|lia]. destruct (aref_Some l n ltac:(lia)) as [? ?]. congruence.
  - destruct (spec_loop_print cookie 13 l [] 12 Hv ltac:(done) ltac:(lia)) as (l' & _ & H & _).
    unfold parse_usdt_spec. cbn [app length] in H. change (args spec0) with (replicate 12 arg0). change (Z.of_nat 0) with 0 in H.
    rewrite H. destruct (Nat.ltb_spec 12 (length l)); [by eexists|lia].
Qed.

(** ** Examples *)

Definition ex_args : list argument := [Argument 4 true (InMem (-20) (lit "rbp")); Argument 8 false (InReg (lit "rdi")); Argument 2 true (InConst (-7))].

Definition ex_event : event := Event 4096 0 1000 (fun a => inr (if a =? 1032 then 5000 else 77))
  (fun a => if a =? 4980 then inr (2 ^ 33 + 2 ^ 32 - 3) else inl (-14)).

Fact ex_args_printed : print_args ex_args = lit "-4@-20(%rbp) 8@%rdi -2@$-7".
Proof. reflexivity. Qed.

Lemma usdt_args_read_witness : forallb valid_arg ex_args = true /\
  exists spec, parse_usdt_spec spec0 (lit "-4@-20(%rbp) 8@%rdi -2@$-7") 99 = Some (0, spec) /\
    let ips := mkHmap 4 {[ 4096 := 0 ]} : Hmap Z Z in let specs := mkHmap 4 {[ 0 := spec ]} : Hmap Z usdt_spec in
    bpf_usdt_arg false specs ips ex_event 0 = Some (0, -3) /\ bpf_usdt_arg false specs ips ex_event 1 = Some (0, 77) /\
    bpf_usdt_arg false specs ips ex_event 2 = Some (0, -7) /\ bpf_usdt_arg false specs ips ex_event 3 = Some (- ENOENT, 0).
Proof.
  split; [reflexivity|]. destruct (usdt_args_read ex_args 99) as (spec & Hp & H); [reflexivity|]. exists spec. split; [exact Hp|].
  intros ips specs. destruct (H _ _ _ _ false specs ips ex_event) as (_ & _ & Hr); [reflexivity|].
  rewrite !Hr by lia. repeat split; reflexivity.
Defined.

(** Memory behind a register without an offset, as compilers write it for an
    offset of zero, is not understood. *)
Fact no_offset_refused : parse_usdt_spec spec0 (lit "8@(%rax)") 0 = Some (- EINVAL, Spec (replicate 12 arg0) 0 0) /\
  exists spec, parse_usdt_spec spec0 (lit "8@0(%rax)") 0 = Some (0, spec).
Proof. split; [reflexivity|]. eexists. reflexivity. Qed.

(** Without the closing bracket the three conversions succeed, and the length
    the function returns was never set. *)
Fact unclosed_bracket : parse_usdt_spec spec0 (lit "8@0(%rax") 0 = None.
Proof. reflexivity. Qed.
