(* ===== verification/UsdtManager.v ===== *)
(** * User statically defined trace points: attaching (src/plugin/libbpf-test/libbpf/src/usdt.c)

    The manager of an object hands out ids of specifications, fills the map of
    specifications, attaches a uprobe for every place a trace point was found
    at, and takes everything back when a link is detached.

    The maps are those of [BpfMap].  Attaching a uprobe is a system call: its
    error is an argument.  Allocation is the parameter [alloc_ok].  [None] is
    undefined behaviour: the use of freed memory. *)

From S2P Require Import Prelude CString Hashmap StrSet BpfMap UsdtArg.

(** ** The state *)

(** A place to attach to. *)
Record usdt_target := Target {
  abs_ip : Z;
  rel_ip : Z;
  sema_off : Z;
  t_spec : usdt_spec;
  spec_str : list Z;
}.

(** A pointer to an array of ids, with the ids in use; [Freed] is a pointer to
    an array that [realloc] freed. *)
Inductive id_array := Null | Ids (l : list Z) | Freed.

Definition ids_in (a : id_array) : list Z := match a with Ids l => l | _ => [] end.

(** [realloc] of an array to [n] elements: freed if that is none. *)
Definition realloc_ids (alloc_ok : Z -> bool) (a : id_array) (n : Z) : option (bool * id_array) :=
  match a with
  | Freed => None
  | Null => Some (if alloc_ok (4 * n) then (true, Ids []) else (false, Null))
  | Ids l =>
      if n =? 0 then Some (false, Freed)
      else Some (if alloc_ok (4 * n) then (true, Ids l) else (false, Ids l))
  end.

(** An attached uprobe: where, and what its events carry. *)
Record uprobe := Uprobe { u_abs_ip : Z; u_rel_ip : Z; u_ref_ctr_offset : Z; u_bpf_cookie : Z }.

Record bpf_link_usdt := UsdtLink { spec_ids : id_array; uprobes : list uprobe }.

Section Manager.
Context {S I : Type} `{!BpfMapOps Z usdt_spec S} `{!BpfMapOps Z Z I}.
Context (alloc_ok : Z -> bool) (max_entries : Z).

Record usdt_manager := Manager {
  specs_map : S;
  ip_to_spec_id_map : I;
  free_spec_ids : id_array;
  next_free_spec_id : Z;
  has_bpf_cookie : bool;
}.

Definition set_maps (man : usdt_manager) (s : S) (i : I) : usdt_manager :=
  Manager s i (free_spec_ids man) (next_free_spec_id man) (has_bpf_cookie man).

Definition set_ids (man : usdt_manager) (free : id_array) (next : Z) : usdt_manager :=
  Manager (specs_map man) (ip_to_spec_id_map man) free next (has_bpf_cookie man).

(** ** Detaching *)

Fixpoint delete_ips (ips : I) (us : list uprobe) : I :=
  match us with
  | [] => ips
  | u :: us => delete_ips (snd (bpf_map_delete_elem ips (u_abs_ip u))) us
  end.

(** The ids go back to the manager; without memory they are lost. *)
Definition return_ids (man : usdt_manager) (link : bpf_link_usdt) : option usdt_manager :=
  match free_spec_ids man with
  | Null => Some (set_ids man (spec_ids link) (next_free_spec_id man))
  | free =>
      let new_cnt := Z.of_nat (length (ids_in free) + length (ids_in (spec_ids link))) in
      '(ok, new_free_ids) ← realloc_ids alloc_ok free new_cnt;
      Some (set_ids man
              (if ok : bool then Ids (ids_in new_free_ids ++ ids_in (spec_ids link)) else new_free_ids)
              (next_free_spec_id man))
  end.

Definition bpf_link_usdt_detach (man : usdt_manager) (link : bpf_link_usdt) : option usdt_manager :=
  let man :=
    if negb (has_bpf_cookie man)
    then set_maps man (specs_map man) (delete_ips (ip_to_spec_id_map man) (uprobes link)) else man in
  return_ids man link.

(** ** Attaching *)

Abbreviation spec_hash := (hashmap (list Z) Z) (only parsing).

Definition specs_hash_fn : list Z -> Z := str_hash.
Definition specs_equal_fn (s1 s2 : list Z) : bool := strcmp s1 s2 =? 0.

(** The id of a new specification: the last free one, or the next. *)
Definition next_id (man : usdt_manager) : option (Z * usdt_manager) :=
  let cnt := length (ids_in (free_spec_ids man)) in
  match last (ids_in (free_spec_ids man)) with
  | Some id => Some (id, set_ids man (Ids (take (cnt - 1) (ids_in (free_spec_ids man)))) (next_free_spec_id man))
  | None =>
      if next_free_spec_id man >=? max_entries then None
      else Some (next_free_spec_id man, set_ids man (free_spec_ids man) (next_free_spec_id man + 1))
  end.

(** An error, or the id and whether it is new. *)
Definition allocate_spec_id (man : usdt_manager) (specs_hash : spec_hash) (link : bpf_link_usdt) (target : usdt_target)
    : option ((Z + Z * bool) * usdt_manager * spec_hash * bpf_link_usdt) :=
  found ← hashmap__find specs_hash_fn specs_equal_fn specs_hash (spec_str target);
  match found with
  | Some id => Some (inr (id, false), man, specs_hash, link)
  | None =>
      '(ok, ids) ← realloc_ids alloc_ok (spec_ids link) (Z.of_nat (length (ids_in (spec_ids link))) + 1);
      if negb ok then Some (inl (- ENOMEM), man, specs_hash, link) else
      let link := UsdtLink ids (uprobes link) in
      match next_id man with
      | None => Some (inl (- E2BIG), man, specs_hash, link)
      | Some (spec_id, man') =>
          '(err, _, specs_hash) ← hashmap__insert alloc_ok specs_hash_fn specs_equal_fn specs_hash (spec_str target) spec_id HASHMAP_ADD;
          if negb (err =? 0) then Some (inl err, man, specs_hash, link) else
          Some (inr (spec_id, true), man', specs_hash, UsdtLink (Ids (ids_in ids ++ [spec_id])) (uprobes link))
      end
  end.

(** The uprobe of a target whose specification has the id [spec_id];
    [uprobe_err] is the result of attaching it. *)
Definition attach_uprobe (uprobe_err : Z) (man : usdt_manager) (link : bpf_link_usdt) (target : usdt_target) (spec_id : Z)
    : Z * usdt_manager * bpf_link_usdt :=
  let '(err, ips) := if negb (has_bpf_cookie man)
                     then bpf_map_update_elem (ip_to_spec_id_map man) (abs_ip target) spec_id BPF_NOEXIST
                     else (0, ip_to_spec_id_map man) in
  let man := set_maps man (specs_map man) ips in
  if negb (err =? 0) then (err, man, link) else
  if negb (uprobe_err =? 0) then (uprobe_err, man, link) else
  let u := Uprobe (abs_ip target) (rel_ip target) (sema_off target) (if has_bpf_cookie man then spec_id else 0) in
  (0, man, UsdtLink (spec_ids link) (uprobes link ++ [u])).

(** One target. *)
Definition attach_target (uprobe_err : Z) (man : usdt_manager) (specs_hash : spec_hash) (link : bpf_link_usdt) (target : usdt_target)
    : option (Z * usdt_manager * spec_hash * bpf_link_usdt) :=
  '(r, man, specs_hash, link) ← allocate_spec_id man specs_hash link target;
  match r with
  | inl err => Some (err, man, specs_hash, link)
  | inr (spec_id, is_new) =>
      let '(err, specs) := if is_new : bool then bpf_map_update_elem (specs_map man) spec_id (t_spec target) BPF_ANY
                           else (0, specs_map man) in
      let man := set_maps man specs (ip_to_spec_id_map man) in
      if negb (err =? 0) then Some (err, man, specs_hash, link) else
      let '(err, man, link) := attach_uprobe uprobe_err man link target spec_id in
      Some (err, man, specs_hash, link)
  end.

Fixpoint attach_targets (uprobe_err : usdt_target -> Z) (man : usdt_manager) (specs_hash : spec_hash) (link : bpf_link_usdt)
    (targets : list usdt_target) : option (Z * usdt_manager * spec_hash * bpf_link_usdt) :=
  match targets with
  | [] => Some (0, man, specs_hash, link)
  | target :: targets =>
      '(err, man, specs_hash, link) ← attach_target (uprobe_err target) man specs_hash link target;
      if negb (err =? 0) then Some (err, man, specs_hash, link)
      else attach_targets uprobe_err man specs_hash link targets
  end.

(** [usdt_manager_attach_usdt] from the targets found on: an error or a link. *)
Definition usdt_manager_attach_usdt (uprobe_err : usdt_target -> Z) (man : usdt_manager) (targets : list usdt_target)
    : option ((Z + bpf_link_usdt) * usdt_manager) :=
  if bool_decide (targets = []) then Some (inl (- ENOENT), man) else
  if negb (alloc_ok 56) then Some (inl (- ENOMEM), man) else
  if negb (alloc_ok 72) then Some (inl (- ENOMEM), man) else
  let link := UsdtLink Null [] in
  let failed err man link := man ← bpf_link_usdt_detach man link; Some (inl err, man) in
  if negb (alloc_ok (16 * Z.of_nat (length targets))) then failed (- ENOMEM) man link else
  '(err, man, _, link) ← attach_targets uprobe_err man hashmap__init link targets;
  if negb (err =? 0) then failed err man link else Some (inr link, man).
End Manager.
Arguments usdt_manager : clear implicits.
Arguments Manager {S I} _ _ _ _ _.

(** ** The manager and its links *)

Section Links.
Context {S I : Type} `{!BpfMapOps Z usdt_spec S} `{!BpfMapOps Z Z I}.
Context (alloc_ok : Z -> bool) (max_entries : Z).
Context `{!BpfArrayLaws max_entries usdt_spec S} `{!BpfHashLaws Z Z I}.
Context (Hmax : 0 <= max_entries < 2 ^ 31).

Implicit Types (man : usdt_manager S I) (link : bpf_link_usdt) (links : list (bpf_link_usdt * list usdt_target)).

(** An event of the uprobe [u]. *)
Definition fires (cookies : bool) (u : uprobe) (e : event) : Prop :=
  if cookies then ev_cookie e = u_bpf_cookie u else ev_ip e = u_abs_ip u.

Definition uprobe_ok man link (u : uprobe) (t : usdt_target) : Prop :=
  u_abs_ip u = abs_ip t /\ u_rel_ip u = rel_ip t /\ u_ref_ctr_offset u = sema_off t /\
  exists id, id ∈ ids_in (spec_ids link) /\ bpf_map_lookup_elem (specs_map man) id = Some (t_spec t) /\
    if has_bpf_cookie man then u_bpf_cookie u = id else bpf_map_lookup_elem (ip_to_spec_id_map man) (u_abs_ip u) = Some id.

Definition link_ok man (l : bpf_link_usdt * list usdt_target) : Prop :=
  spec_ids l.1 <> Freed /\ Forall2 (uprobe_ok man l.1) (uprobes l.1) l.2.

Definition link_ids links : list Z := concat (map (fun l => ids_in (spec_ids l.1)) links).
Definition link_ips links : list Z := concat (map (fun l => map u_abs_ip (uprobes l.1)) links).

(** No id is given out twice. *)
Definition ids_ok man (used : list Z) : Prop :=
  NoDup (ids_in (free_spec_ids man) ++ used) /\
  Forall (fun id => 0 <= id < next_free_spec_id man) (ids_in (free_spec_ids man) ++ used) /\
  0 <= next_free_spec_id man <= max_entries.

Definition manager_ok man links : Prop :=
  ids_ok man (link_ids links) /\ (has_bpf_cookie man = false -> NoDup (link_ips links)) /\ Forall (link_ok man) links.

Lemma link_ids_app l1 l2 : link_ids (l1 ++ l2) = link_ids l1 ++ link_ids l2.
Proof. unfold link_ids. by rewrite map_app, concat_app. Qed.

Lemma link_ips_app l1 l2 : link_ips (l1 ++ l2) = link_ips l1 ++ link_ips l2.
Proof. unfold link_ips. by rewrite map_app, concat_app. Qed.

Lemma in_link_ids links l id : l ∈ links -> id ∈ ids_in (spec_ids l.1) -> id ∈ link_ids links.
Proof. intros Hl Hid. apply list_elem_of_In, in_concat. eexists. split; [apply in_map, list_elem_of_In, Hl|by apply list_elem_of_In]. Qed.

Lemma in_link_ips links l u : l ∈ links -> u ∈ uprobes l.1 -> u_abs_ip u ∈ link_ips links.
Proof.
  intros Hl Hu. apply list_elem_of_In, in_concat. eexists. split; [apply in_map, list_elem_of_In, Hl|].
  by apply in_map, list_elem_of_In.
Qed.

Lemma Forall2_impl_in {A B} (P Q : A -> B -> Prop) l1 l2 :
  Forall2 P l1 l2 -> (forall x y, x ∈ l1 -> P x y -> Q x y) -> Forall2 Q l1 l2.
Proof.
  induction 1 as [|x y l1 l2 Hxy H IH]; intros HI; constructor; [by apply HI; [left|]|].
  apply IH. intros x' y' Hx. apply HI. by right.
Qed.

(** A link stays good while its entries in the maps do. *)
Lemma link_ok_maps man man' l : link_ok man l -> has_bpf_cookie man' = has_bpf_cookie man ->
  (forall id, id ∈ ids_in (spec_ids l.1) -> bpf_map_lookup_elem (specs_map man') id = bpf_map_lookup_elem (specs_map man) id) ->
  (has_bpf_cookie man = false -> forall u, u ∈ uprobes l.1 ->
     bpf_map_lookup_elem (ip_to_spec_id_map man') (u_abs_ip u) = bpf_map_lookup_elem (ip_to_spec_id_map man) (u_abs_ip u)) ->
  link_ok man' l.
Proof.
  intros [Hf Hu] Hc Hs Hi. split; [done|]. apply (Forall2_impl_in _ _ _ _ Hu). intros u t Hin (H1 & H2 & H3 & id & Hid & Hsp & Hck).
  split_and!; [done..|]. exists id. split; [done|]. split; [by rewrite Hs|]. rewrite Hc. destruct (has_bpf_cookie man) eqn:E; [done|].
  by rewrite Hi.
Qed.

(** ** Ids *)

Lemma ids_ok_perm man used used' : used ≡ₚ used' -> ids_ok man used -> ids_ok man used'.
Proof. intros Hp (Hn & Hr & Hx). by rewrite Hp in Hn, Hr. Qed.

Lemma ids_ok_used man used id : ids_ok man used -> id ∈ used -> 0 <= id < max_entries.
Proof.
  intros (_ & Hr & Hx) Hid. rewrite Forall_forall in Hr. specialize (Hr id ltac:(apply elem_of_app; by right)). lia.
Qed.

Lemma next_id_spec man used id man' : ids_ok man used -> next_id max_entries man = Some (id, man') ->
  ids_ok man' (id :: used) /\ specs_map man' = specs_map man /\ ip_to_spec_id_map man' = ip_to_spec_id_map man /\
  has_bpf_cookie man' = has_bpf_cookie man /\ (free_spec_ids man' = Freed <-> free_spec_ids man = Freed).
Proof.
  intros (Hn & Hr & Hx). unfold next_id. destruct (last _) as [x|] eqn:El.
  - destruct (free_spec_ids man) as [|l0|] eqn:Ef; [done| |done]. cbn [ids_in] in *.
    intros [= -> <-]. split; [|by split_and!]. apply last_Some in El as [l ->]. unfold ids_ok. cbn.
    rewrite length_app, Nat.add_sub, take_app_length.
    assert (Hp : l ++ id :: used = (l ++ [id]) ++ used) by by rewrite <- app_assoc. by rewrite Hp.
  - destruct (Z.geb_spec (next_free_spec_id man) max_entries); [done|]. intros [= <- <-]. split; [|done]. unfold ids_ok. cbn.
    assert (Hp : ids_in (free_spec_ids man) ++ next_free_spec_id man :: used ≡ₚ next_free_spec_id man :: ids_in (free_spec_ids man) ++ used)
      by (by rewrite Permutation_middle). rewrite Hp. split; [|split; [|lia]].
    + constructor; [|done]. intros Hin. rewrite Forall_forall in Hr. specialize (Hr _ Hin). lia.
    + constructor; [lia|]. eapply Forall_impl; [exact Hr|]. cbn. lia.
Qed.

Lemma realloc_grow a n : a <> Freed -> 0 <= n -> exists ok a', realloc_ids alloc_ok a (n + 1) = Some (ok, a') /\
  a' <> Freed /\ ids_in a' = ids_in a /\ (ok = true -> a' <> Null).
Proof.
  intros Ha Hn. destruct a as [|l|]; [| |done]; cbn [realloc_ids].
  - destruct (alloc_ok _); eexists _, _; (split; [done|]); by split_and!.
  - destruct (Z.eqb_spec (n + 1) 0); [lia|]. destruct (alloc_ok _); eexists _, _; (split; [done|]); by split_and!.
Qed.

(** ** One target *)

(** What the hash of the specifications of a link holds. *)
Definition hash_ok (f : list Z -> usdt_spec) (k : Z) man (hash : hashmap (list Z) Z) link : Prop :=
  exists g, repr (fun s : list Z => s) specs_hash_fn hash g /\ Z.of_nat (size g) <= k /\
    forall s e, g !! s = Some e -> e.2 ∈ ids_in (spec_ids link) /\ bpf_map_lookup_elem (specs_map man) e.2 = Some (f s).

Lemma specs_equal_canon s1 s2 : specs_equal_fn s1 s2 = bool_decide (s1 = s2).
Proof. unfold specs_equal_fn. apply eq_true_iff_eq. rewrite Z.eqb_eq, bool_decide_eq_true. apply strcmp_eq. Qed.

Abbreviation same_maps man man' := (specs_map man' = specs_map man /\ ip_to_spec_id_map man' = ip_to_spec_id_map man /\
  has_bpf_cookie man' = has_bpf_cookie man /\ (free_spec_ids man' = Freed <-> free_spec_ids man = Freed)) (only parsing).

Lemma allocate_spec f k man hash link t used : ids_ok man (used ++ ids_in (spec_ids link)) -> spec_ids link <> Freed ->
  hash_ok f k man hash link -> k < 2 ^ 59 ->
  exists r man' hash' link', allocate_spec_id alloc_ok max_entries man hash link t = Some (r, man', hash', link') /\
    same_maps man man' /\ uprobes link' = uprobes link /\ spec_ids link' <> Freed /\
    match r with
    | inl err => err <> 0 /\ ids_in (spec_ids link') = ids_in (spec_ids link) /\ ids_ok man' (used ++ ids_in (spec_ids link'))
    | inr (id, false) => man' = man /\ link' = link /\ hash_ok f k man hash' link /\ id ∈ ids_in (spec_ids link) /\
        bpf_map_lookup_elem (specs_map man) id = Some (f (spec_str t))
    | inr (id, true) => ids_in (spec_ids link') = ids_in (spec_ids link) ++ [id] /\ ids_ok man' (used ++ ids_in (spec_ids link')) /\
        exists g e, repr (fun s : list Z => s) specs_hash_fn hash' (<[spec_str t := e]> g) /\ e.2 = id /\
          Z.of_nat (size g) <= k /\ g !! spec_str t = None /\
          forall s e, g !! s = Some e -> e.2 ∈ ids_in (spec_ids link) /\ bpf_map_lookup_elem (specs_map man) e.2 = Some (f s)
    end.
Proof.
  intros Hids Hfr (g & Hr & Hsz & Hg) Hk. unfold allocate_spec_id.
  rewrite (hashmap_find_spec (fun s => s) _ _ specs_equal_canon ltac:(by intros ? ? ->) hash g _ Hr). cbn [mbind option_bind].
  destruct (g !! spec_str t) as [[s0 id]|] eqn:Eg; cbn [fmap option_fmap option_map snd].
  { eexists _, _, _, _. split; [done|]. split; [done|]. split; [done|]. split; [done|]. cbn.
    destruct (Hg _ _ Eg) as [Hin Hl]. split_and!; [done|done|by exists g|done|done]. }
  destruct (realloc_grow (spec_ids link) (Z.of_nat (length (ids_in (spec_ids link)))) Hfr ltac:(lia)) as (ok & a & -> & Ha & Hin & Hnn).
  cbn [mbind option_bind]. destruct ok; cbn [negb];
    [|eexists _, _, _, _; split; [done|]; split; [done|]; split; [done|]; split; [done|]; by split_and!].
  destruct (next_id max_entries man) as [[id man']|] eqn:En.
  2:{ eexists _, _, _, _; split; [done|]; split; [done|]; split; [done|]; split; [done|]; cbn; rewrite Hin; by split_and!. }
  destruct (next_id_spec man _ id man' Hids En) as (Hids' & Hmaps).
  pose proof (repr_size _ _ hash g Hr) as Hs.
  destruct (hashmap_add_spec (fun s => s) alloc_ok specs_hash_fn specs_equal_fn specs_equal_canon ltac:(by intros ? ? ->) hash g
    (spec_str t) id Hr ltac:(lia)) as (err & old & hash' & -> & Hc). cbn [mbind option_bind].
  destruct Hc as [(-> & _ & e & _ & He)|[(-> & _ & Hr')|(-> & _ & _ & _)]]; [congruence| |]; cbn [negb Z.eqb Z.opp].
  - eexists _, _, _, _. split; [done|]. split; [done|]. split; [done|]. split; [done|]. cbn. rewrite Hin.
    split; [done|]. split; [|by exists g, (spec_str t, id)].
    eapply ids_ok_perm; [|exact Hids']. rewrite app_assoc. by rewrite Permutation_cons_append.
  - eexists _, _, _, _; split; [done|]; split; [done|]; split; [done|]; split; [done|]; cbn; rewrite Hin; by split_and!.
Qed.

Lemma link_ids_snoc links l : link_ids (links ++ [l]) = link_ids links ++ ids_in (spec_ids l.1).
Proof. rewrite link_ids_app. unfold link_ids at 2. cbn. by rewrite app_nil_r. Qed.

Lemma link_ips_snoc links l : link_ips (links ++ [l]) = link_ips links ++ map u_abs_ip (uprobes l.1).
Proof. rewrite link_ips_app. unfold link_ips at 2. cbn. by rewrite app_nil_r. Qed.

(** More ids do not harm a link. *)
Lemma link_ok_ids man link link' ts : link_ok man (link, ts) -> uprobes link' = uprobes link -> spec_ids link' <> Freed ->
  (forall id, id ∈ ids_in (spec_ids link) -> id ∈ ids_in (spec_ids link')) -> link_ok man (link', ts).
Proof.
  intros [_ Hu] Hup Hf Hin. split; [done|]. cbn in *. rewrite Hup. eapply Forall2_impl; [exact Hu|].
  intros u t (H1 & H2 & H3 & id & Hid & Hsp & Hck). split_and!; [done..|]. exists id. split; [by apply Hin|done].
Qed.

(** What is in the map of addresses for a link of a good manager. *)
Lemma ip_known man links l u : manager_ok man links -> has_bpf_cookie man = false -> l ∈ links -> u ∈ uprobes l.1 ->
  is_Some (bpf_map_lookup_elem (ip_to_spec_id_map man) (u_abs_ip u)).
Proof.
  intros (_ & _ & Hl) Hc Hin Hu. rewrite Forall_forall in Hl. destruct (Hl l Hin) as [_ H2].
  apply list_elem_of_lookup in Hu as [i Hi]. destruct (Forall2_lookup_l _ _ _ _ _ H2 Hi) as (t & _ & _ & _ & _ & id & _ & _ & Hk).
  rewrite Hc in Hk. by eexists.
Qed.

Lemma attach_uprobe_spec uerr man links link ts t id : manager_ok man (links ++ [(link, ts)]) ->
  id ∈ ids_in (spec_ids link) -> bpf_map_lookup_elem (specs_map man) id = Some (t_spec t) ->
  let '(err, man', link') := attach_uprobe uerr man link t id in
  specs_map man' = specs_map man /\ has_bpf_cookie man' = has_bpf_cookie man /\ free_spec_ids man' = free_spec_ids man /\
  spec_ids link' = spec_ids link /\ manager_ok man' (links ++ [(link', if err =? 0 then ts ++ [t] else ts)]).
Proof.
  intros Hm Hid Hsp. unfold attach_uprobe. pose proof (fun l u H => ip_known man _ l u Hm H) as Hk. destruct Hm as (Hids & Hips & Hl).
  set (upd := if negb (has_bpf_cookie man) then _ else _).
  assert (Hupd : (has_bpf_cookie man = true -> upd = (0, ip_to_spec_id_map man)) /\
    (has_bpf_cookie man = false ->
      (fst upd = 0 -> ~ is_Some (bpf_map_lookup_elem (ip_to_spec_id_map man) (abs_ip t)) /\ bpf_map_lookup_elem (snd upd) (abs_ip t) = Some id) /\
      forall a, is_Some (bpf_map_lookup_elem (ip_to_spec_id_map man) a) -> bpf_map_lookup_elem (snd upd) a = bpf_map_lookup_elem (ip_to_spec_id_map man) a)).
  { unfold upd. split; intros ->; [done|]. cbn [negb]. split.
    - intros H0. split; [intros Hs; by rewrite hash_update_noexist in H0|]. by rewrite hash_update_ok, decide_True.
    - intros a Ha. destruct (Z.eq_dec (fst (bpf_map_update_elem (ip_to_spec_id_map man) (abs_ip t) id BPF_NOEXIST)) 0) as [E|E].
      + rewrite hash_update_ok by done. rewrite decide_False; [done|]. intros <-. by rewrite hash_update_noexist in E.
      + by rewrite hash_update_err. }
  destruct upd as [err ips]. cbn [fst snd] in Hupd. destruct Hupd as [Hcookie Hno].
  assert (Hlinks : Forall (link_ok (set_maps man (specs_map man) ips)) (links ++ [(link, ts)])).
  { rewrite Forall_forall in Hl |- *. intros l Hin. apply (link_ok_maps man _ l (Hl l Hin)); [done|done|].
    intros Hc u Hu. apply (Hno Hc). by eapply Hk. }
  destruct (Z.eqb_spec err 0) as [->|He]; cbn [negb]; [|split_and!; [done..|]; by destruct (Z.eqb_spec err 0)].
  destruct (Z.eqb_spec uerr 0) as [->|Hu]; cbn [negb]; [|split_and!; [done..|]; by destruct (Z.eqb_spec uerr 0)].
  split_and!; [done..|]. cbn [Z.eqb]. split; [by rewrite link_ids_snoc in *|]. rewrite !link_ips_snoc in *. cbn [fst uprobes] in *.
  apply Forall_app in Hlinks as [Hothers Hlast]. rewrite Forall_singleton in Hlast. split.
  - cbn. intros Hc. rewrite map_app, app_assoc. apply NoDup_app. split; [by apply Hips|]. split; [|apply NoDup_singleton].
    intros a Ha Ha'. apply list_elem_of_singleton in Ha'. subst a. destruct (Hno Hc) as [Hnew _]. destruct (Hnew eq_refl) as [Hnone _]. apply Hnone.
    change (link_ips links ++ map u_abs_ip (uprobes link)) with (link_ips links ++ map u_abs_ip (uprobes (link, ts).1)) in Ha.
    change (abs_ip t ∈ link_ips links ++ map u_abs_ip (uprobes (link, ts).1)) in Ha.
    rewrite <- link_ips_snoc in Ha. apply list_elem_of_In, in_concat in Ha as (us & (l & <- & Hl')%in_map_iff & (u & <- & Hu)%in_map_iff).
    eapply Hk; [done|by apply list_elem_of_In|by apply list_elem_of_In].
  - apply Forall_app. split; [done|]. apply Forall_singleton. destruct Hlast as [Hfr H2]. split; [done|]. cbn in *.
    apply Forall2_app; [exact H2|]. constructor; [|constructor]. split_and!; [done..|]. exists id. split; [done|]. split; [done|]. cbn.
    destruct (has_bpf_cookie man) eqn:Hc; [done|]. by apply Hno.
Qed.

(** Maps changed only at a new id. *)
Lemma links_after_new man man' links link link' ts : manager_ok man (links ++ [(link, ts)]) ->
  has_bpf_cookie man' = has_bpf_cookie man -> ip_to_spec_id_map man' = ip_to_spec_id_map man ->
  uprobes link' = uprobes link -> spec_ids link' <> Freed ->
  (forall id, id ∈ ids_in (spec_ids link) -> id ∈ ids_in (spec_ids link')) ->
  ids_ok man' (link_ids links ++ ids_in (spec_ids link')) ->
  (forall id, id ∈ link_ids (links ++ [(link, ts)]) -> bpf_map_lookup_elem (specs_map man') id = bpf_map_lookup_elem (specs_map man) id) ->
  manager_ok man' (links ++ [(link', ts)]).
Proof.
  intros (Hids & Hips & Hl) Hc Hi Hup Hfr Hin Hids' Hsp. split; [by rewrite link_ids_snoc|]. split.
  { rewrite Hc, link_ips_snoc in *. cbn in *. by rewrite Hup. }
  assert (H : Forall (link_ok man') (links ++ [(link, ts)])).
  { rewrite Forall_forall in Hl |- *. intros l Hin'. apply (link_ok_maps man _ l (Hl l Hin')); [done| |by rewrite Hi].
    intros id Hid. apply Hsp. by eapply in_link_ids. }
  apply Forall_app in H as [H1 H2]. apply Forall_app. split; [done|]. rewrite Forall_singleton in H2 |- *. by apply (link_ok_ids man' link).
Qed.

(** The specification of a new id written. *)
Lemma new_spec_spec f k man man1 hash1 links link link1 ts t g e : manager_ok man (links ++ [(link, ts)]) ->
  t_spec t = f (spec_str t) -> specs_map man1 = specs_map man -> ip_to_spec_id_map man1 = ip_to_spec_id_map man ->
  has_bpf_cookie man1 = has_bpf_cookie man -> uprobes link1 = uprobes link -> spec_ids link1 <> Freed ->
  ids_in (spec_ids link1) = ids_in (spec_ids link) ++ [e.2] -> ids_ok man1 (link_ids links ++ ids_in (spec_ids link1)) ->
  repr (fun s : list Z => s) specs_hash_fn hash1 (<[spec_str t := e]> g) -> Z.of_nat (size g) <= k -> g !! spec_str t = None ->
  (forall s e, g !! s = Some e -> e.2 ∈ ids_in (spec_ids link) /\ bpf_map_lookup_elem (specs_map man) e.2 = Some (f s)) ->
  let s2 := snd (bpf_map_update_elem (specs_map man1) e.2 (t_spec t) BPF_ANY) in
  let man2 := set_maps man1 s2 (ip_to_spec_id_map man1) in
  manager_ok man2 (links ++ [(link1, ts)]) /\ bpf_map_lookup_elem s2 e.2 = Some (t_spec t) /\ e.2 ∈ ids_in (spec_ids link1) /\
  hash_ok f (k + 1) man2 hash1 link1.
Proof.
  intros Hm Hf Hs1 Hi1 Hc1 Hup Hfr1 Hin Hids1 Hrep Hsz Hgn Hg s2 man2.
  assert (Hlast : e.2 ∈ ids_in (spec_ids link1)) by (rewrite Hin; apply elem_of_app; right; by apply list_elem_of_singleton).
  assert (Hid : 0 <= e.2 < max_entries) by (eapply ids_ok_used; [exact Hids1|]; apply elem_of_app; by right).
  assert (Hlook : forall j, bpf_map_lookup_elem s2 j = if decide (e.2 = j) then Some (t_spec t) else bpf_map_lookup_elem (specs_map man1) j)
    by (intros j; apply (array_update (specs_map man1) e.2 j (t_spec t) Hid)).
  assert (Hnew : e.2 ∉ link_ids (links ++ [(link, ts)])).
  { rewrite link_ids_snoc. cbn. destruct Hids1 as (Hn & _). apply NoDup_app in Hn as (_ & _ & Hn). rewrite Hin, app_assoc in Hn.
    apply NoDup_app in Hn as (_ & Hn & _). intros H. apply (Hn _ H). by apply list_elem_of_singleton. }
  split; [|split; [by rewrite Hlook, decide_True|split; [done|]]].
  - apply (links_after_new man man2 links link link1); try done.
    + intros j Hj. rewrite Hin. apply elem_of_app. by left.
    + intros j Hj. cbn. rewrite Hlook, decide_False, Hs1; [done|]. intros <-. by apply Hnew.
  - exists (<[spec_str t := e]> g). split; [done|]. split; [rewrite map_size_insert_None by done; lia|]. cbn.
    intros str e'. destruct (decide (str = spec_str t)) as [->|Hne].
    + rewrite lookup_insert_eq. intros [= <-]. by rewrite Hlook, decide_True, <- Hf by done.
    + rewrite lookup_insert_ne by done. intros E. destruct (Hg _ _ E) as [Hj Hjl]. split; [rewrite Hin; apply elem_of_app; by left|].
      rewrite Hlook, decide_False, Hs1; [done|]. intros Heq. apply Hnew. rewrite link_ids_snoc, Heq. apply elem_of_app. by right.
Qed.

Lemma attach_target_spec f k uerr man hash links link ts t : manager_ok man (links ++ [(link, ts)]) ->
  hash_ok f k man hash link -> k < 2 ^ 59 -> t_spec t = f (spec_str t) ->
  exists err man' hash' link', attach_target alloc_ok max_entries uerr man hash link t = Some (err, man', hash', link') /\
    has_bpf_cookie man' = has_bpf_cookie man /\ (free_spec_ids man' = Freed <-> free_spec_ids man = Freed) /\
    manager_ok man' (links ++ [(link', if err =? 0 then ts ++ [t] else ts)]) /\
    (err = 0 -> hash_ok f (k + 1) man' hash' link').
Proof.
  intros Hm Hh Hk Hf. assert (Hids := Hm). destruct Hids as (Hids & _ & Hl). rewrite link_ids_snoc in Hids.
  apply Forall_app in Hl as [_ Hl]. rewrite Forall_singleton in Hl. destruct Hl as [Hfr _]. cbn in Hids, Hfr.
  destruct (allocate_spec f k man hash link t _ Hids Hfr Hh Hk) as (r & man1 & hash1 & link1 & Ha & (Hs1 & Hi1 & Hc1 & Hf1) & Hup & Hfr1 & Hr).
  unfold attach_target. rewrite Ha. cbn [mbind option_bind]. destruct r as [err|[id isnew]].
  { destruct Hr as (He & Hin & Hids1). eexists err, man1, hash1, link1. split; [done|]. split; [done|]. split; [done|].
    split; [|done]. destruct (Z.eqb_spec err 0); [done|]. by apply (links_after_new man man1 links link link1); try done; rewrite ?Hin, ?Hs1. }
  set (upd := if isnew then _ else _).
  assert (Hupd : exists err s, upd = (err, s) /\ let man2 := set_maps man1 s (ip_to_spec_id_map man1) in
    manager_ok man2 (links ++ [(link1, ts)]) /\ (err = 0 -> bpf_map_lookup_elem s id = Some (t_spec t) /\ id ∈ ids_in (spec_ids link1) /\
      hash_ok f (k + 1) man2 hash1 link1)).
  { destruct isnew.
    - destruct Hr as (Hin & Hids1 & g & e & Hrep & <- & Hsz & Hgn & Hg).
      destruct (new_spec_spec f k man man1 hash1 links link link1 ts t g e Hm Hf Hs1 Hi1 Hc1 Hup Hfr1 Hin Hids1 Hrep Hsz Hgn Hg) as [H1 H2].
      exists (fst upd), (snd upd). split; [by destruct upd|]. by split.
    - destruct Hr as (-> & -> & Hh1 & Hid & Hlk). exists 0, (specs_map man). split; [done|].
      assert (Em : set_maps man (specs_map man) (ip_to_spec_id_map man) = man) by (by destruct man). rewrite Em. split; [done|].
      intros _. rewrite Hf. split; [done|]. split; [done|]. destruct Hh1 as (g & Hg1 & Hg2 & Hg3). exists g. split; [done|]. split; [lia|done]. }
  destruct Hupd as (err & s2 & -> & Hm2 & Hok). destruct (Z.eqb_spec err 0) as [->|He]; cbn [negb].
  2:{ eexists _, _, _, _. split; [done|]. split; [done|]. split; [done|]. by destruct (Z.eqb_spec err 0). }
  destruct (Hok eq_refl) as (Hlk & Hid & Hh2).
  pose proof (attach_uprobe_spec uerr _ links link1 ts t id Hm2 Hid Hlk) as Hau. destruct (attach_uprobe _ _ _ _ _) as [[err man3] link3].
  destruct Hau as (Hs3 & Hc3 & Hf3 & Hi3 & Hm3). eexists _, _, _, _. split; [done|]. split; [by rewrite Hc3|]. split; [by rewrite Hf3|].
  split; [done|]. intros _. destruct Hh2 as (g & Hg1 & Hg2 & Hg3). exists g. split; [done|]. split; [done|]. intros str e E. rewrite Hi3, Hs3. by apply (Hg3 str).
Qed.

Lemma attach_targets_spec f uerr targets : forall k man hash links link ts, manager_ok man (links ++ [(link, ts)]) ->
  hash_ok f k man hash link -> k + Z.of_nat (length targets) < 2 ^ 59 -> Forall (fun t => t_spec t = f (spec_str t)) targets ->
  exists err man' hash' link' ts', attach_targets alloc_ok max_entries uerr man hash link targets = Some (err, man', hash', link') /\
    has_bpf_cookie man' = has_bpf_cookie man /\ (free_spec_ids man' = Freed <-> free_spec_ids man = Freed) /\
    manager_ok man' (links ++ [(link', ts')]) /\ (err = 0 -> ts' = ts ++ targets).
Proof.
  induction targets as [|t targets IH]; intros k man hash links link ts Hm Hh Hk Hf.
  { eexists _, _, _, _, ts. split; [done|]. split_and!; [done..|]. intros _. by rewrite app_nil_r. }
  inversion Hf as [|? ? Ht Hf']; subst. cbn [length] in Hk.
  destruct (attach_target_spec f k (uerr t) man hash links link ts t Hm Hh ltac:(lia) Ht) as (err & man1 & hash1 & link1 & E & Hc1 & Hf1 & Hm1 & Hh1).
  cbn [attach_targets]. rewrite E. cbn [mbind option_bind]. destruct (Z.eqb_spec err 0) as [->|He]; cbn [negb].
  - destruct (IH (k + 1) man1 hash1 links link1 (ts ++ [t]) Hm1 (Hh1 eq_refl) ltac:(lia) Hf') as (err & man2 & hash2 & link2 & ts2 & E2 & Hc2 & Hf2 & Hm2 & Ht2).
    exists err, man2, hash2, link2, ts2. split; [done|]. split; [by rewrite Hc2|]. split; [by rewrite Hf2|]. split; [done|].
    intros H0. rewrite Ht2 by done. by rewrite <- app_assoc.
  - exists err, man1, hash1, link1, ts. by split_and!.
Qed.

(** ** Detaching *)

Lemma delete_ips_spec us : forall ips a, bpf_map_lookup_elem (delete_ips ips us) a =
  if decide (a ∈ map u_abs_ip us) then None else bpf_map_lookup_elem ips a.
Proof.
  induction us as [|u us IH]; intros ips a; cbn [delete_ips map]; [done|]. rewrite IH, hash_delete.
  destruct (decide (a ∈ map u_abs_ip us)) as [H|H]; [rewrite decide_True; [done|by right]|].
  destruct (decide (u_abs_ip u = a)) as [->|Hne]; [rewrite decide_True; [done|by left]|].
  rewrite decide_False; [done|]. intros [->|?]%elem_of_cons; done.
Qed.

Lemma return_ids_spec man link : spec_ids link <> Freed -> free_spec_ids man <> Freed ->
  exists man', return_ids alloc_ok man link = Some man' /\ specs_map man' = specs_map man /\
    ip_to_spec_id_map man' = ip_to_spec_id_map man /\ has_bpf_cookie man' = has_bpf_cookie man /\
    next_free_spec_id man' = next_free_spec_id man /\
    (ids_in (free_spec_ids man') = ids_in (free_spec_ids man) ++ ids_in (spec_ids link) \/
     ids_in (free_spec_ids man') = ids_in (free_spec_ids man)).
Proof.
  intros Hl Hf. unfold return_ids. destruct (free_spec_ids man) as [|l|]; [by eexists; split_and!; [|..|left]| |done].
  cbn [ids_in realloc_ids]. destruct (Z.eqb_spec (Z.of_nat (length l + length (ids_in (spec_ids link)))) 0).
  - assert (l = []) as -> by (destruct l; [done|cbn in *; lia]). eexists. split; [done|]. by split_and!; [..|right].
  - destruct (alloc_ok _); eexists; (split; [done|]); split_and!; try done; [by left|by right].
Qed.

Lemma detach_spec man l1 link ts l2 : manager_ok man (l1 ++ (link, ts) :: l2) -> free_spec_ids man <> Freed ->
  exists man', bpf_link_usdt_detach alloc_ok man link = Some man' /\ has_bpf_cookie man' = has_bpf_cookie man /\ manager_ok man' (l1 ++ l2).
Proof.
  intros (Hids & Hips & Hl) Hf. unfold bpf_link_usdt_detach.
  set (man1 := if negb (has_bpf_cookie man) then _ else _).
  assert (Hm1 : specs_map man1 = specs_map man /\ has_bpf_cookie man1 = has_bpf_cookie man /\ free_spec_ids man1 = free_spec_ids man /\
    next_free_spec_id man1 = next_free_spec_id man /\ (has_bpf_cookie man = false -> ip_to_spec_id_map man1 = delete_ips (ip_to_spec_id_map man) (uprobes link))).
  { unfold man1. destruct (has_bpf_cookie man) eqn:E; cbn; rewrite ?E; by split_and!. }
  destruct Hm1 as (Hs1 & Hc1 & Hf1 & Hn1 & Hi1).
  assert (Hfr : spec_ids link <> Freed) by (apply Forall_app in Hl as [_ Hl]; by inversion Hl as [|? ? [? _] _]).
  destruct (return_ids_spec man1 link) as (man2 & -> & Hs2 & Hi2 & Hc2 & Hn2 & Hr2); [done|congruence|].
  exists man2. split; [done|]. split; [congruence|].
  assert (Hp : link_ids (l1 ++ (link, ts) :: l2) ≡ₚ ids_in (spec_ids link) ++ link_ids (l1 ++ l2)).
  { rewrite !link_ids_app. unfold link_ids. cbn. by rewrite (Permutation_app_comm (ids_in _)), app_assoc, Permutation_app_comm. }
  assert (Hpi : link_ips (l1 ++ (link, ts) :: l2) ≡ₚ map u_abs_ip (uprobes link) ++ link_ips (l1 ++ l2)).
  { rewrite !link_ips_app. unfold link_ips. cbn. by rewrite (Permutation_app_comm (map u_abs_ip _)), app_assoc, Permutation_app_comm. }
  apply (ids_ok_perm _ _ _ Hp) in Hids. split; [|split].
  - destruct Hids as (Hn & Hr & Hx). unfold ids_ok. rewrite Hn2, Hn1. rewrite app_assoc in Hn, Hr. rewrite Hf1 in Hr2.
    destruct Hr2 as [->|Er]; [done|]. rewrite Er. split; [|split; [|done]].
    + rewrite <- app_assoc in Hn. apply NoDup_app in Hn as (N1 & N2 & N3). apply NoDup_app in N3 as (_ & _ & N3). apply NoDup_app.
      split; [done|]. split; [|done]. intros x Hx1 Hx2. apply (N2 x Hx1), elem_of_app. by right.
    + rewrite <- app_assoc in Hr. apply Forall_app in Hr as [R1 R2]. apply Forall_app in R2 as [_ R2]. by apply Forall_app.
  - rewrite Hc2, Hc1. intros Hc. specialize (Hips Hc). rewrite Hpi in Hips. by apply NoDup_app in Hips as (_ & _ & ?).
  - assert (Hin : forall l, l ∈ l1 ++ l2 -> l ∈ l1 ++ (link, ts) :: l2).
    { intros l [?|?]%elem_of_app; apply elem_of_app; [by left|right; by right]. }
    rewrite Forall_forall in Hl |- *. intros l Hin'. apply (link_ok_maps man _ l (Hl l (Hin l Hin'))); [congruence|by rewrite Hs2, Hs1|].
    intros Hc u Hu. rewrite Hi2, Hi1, delete_ips_spec by done. rewrite decide_False; [done|]. intros Hdel.
    specialize (Hips Hc). rewrite Hpi in Hips. apply NoDup_app in Hips as (_ & Hd & _). apply (Hd _ Hdel). by eapply in_link_ips.
Qed.

(** Detaching with a freed list of ids uses it. *)
Lemma detach_freed man link : free_spec_ids man = Freed -> bpf_link_usdt_detach alloc_ok man link = None.
Proof. intros Hf. unfold bpf_link_usdt_detach, return_ids. destruct (has_bpf_cookie man); cbn; by rewrite Hf. Qed.

(** ** Attaching *)

(** The specifications of the targets are those of their texts. *)
Definition targets_ok (ts : list usdt_target) : Prop := Z.of_nat (length ts) < 2 ^ 58 /\
  exists cookie, Forall (fun t => parse_usdt_spec spec0 (spec_str t) cookie = Some (0, t_spec t)) ts.

Lemma attach_spec uerr man links ts : manager_ok man links -> targets_ok ts ->
  free_spec_ids man = Freed /\ usdt_manager_attach_usdt alloc_ok max_entries uerr man ts = None \/
  exists r man', usdt_manager_attach_usdt alloc_ok max_entries uerr man ts = Some (r, man') /\ has_bpf_cookie man' = has_bpf_cookie man /\
    manager_ok man' (match r with inl _ => links | inr link => links ++ [(link, ts)] end).
Proof.
  intros Hm (Hlen & cookie & Hts). unfold usdt_manager_attach_usdt.
  case_bool_decide; [right; by eexists _, _|]. destruct (alloc_ok 56); cbn [negb]; [|right; by eexists _, _].
  destruct (alloc_ok 72); cbn [negb]; [|right; by eexists _, _].
  assert (Hm0 : manager_ok man (links ++ [(UsdtLink Null [], [])])).
  { destruct Hm as (Hids & Hips & Hl). split; [by rewrite link_ids_snoc, app_nil_r|]. split; [by rewrite link_ips_snoc, app_nil_r|].
    apply Forall_app. split; [done|]. by repeat constructor. }
  assert (Hfail : forall err man1 link1 ts1, has_bpf_cookie man1 = has_bpf_cookie man -> (free_spec_ids man1 = Freed <-> free_spec_ids man = Freed) ->
    manager_ok man1 (links ++ [(link1, ts1)]) ->
    free_spec_ids man = Freed /\ (man' ← bpf_link_usdt_detach alloc_ok man1 link1; Some (@inl Z bpf_link_usdt err, man')) = None \/
    exists r man', (man' ← bpf_link_usdt_detach alloc_ok man1 link1; Some (inl err, man')) = Some (r, man') /\
      has_bpf_cookie man' = has_bpf_cookie man /\ manager_ok man' (match (r : Z + bpf_link_usdt) with inl _ => links | inr link => links ++ [(link, ts)] end)).
  { intros err man1 link1 ts1 Hc1 Hf1 Hm1.
    assert (Hdec : free_spec_ids man1 = Freed \/ free_spec_ids man1 <> Freed) by (destruct (free_spec_ids man1); auto).
    destruct Hdec as [Hf|Hf]; [left; split; [by apply Hf1|by rewrite detach_freed]|right].
    destruct (detach_spec man1 links link1 ts1 [] Hm1 Hf) as (man2 & -> & Hc2 & Hm2).
    eexists _, _. split; [done|]. split; [congruence|]. by rewrite app_nil_r in Hm2. }
  destruct (alloc_ok (16 * Z.of_nat (length ts))); cbn [negb]; [|by eapply Hfail].
  set (f := fun str => match parse_usdt_spec spec0 str cookie with Some (_, sp) => sp | None => spec0 end).
  assert (Hh : hash_ok f 0 man hashmap__init (UsdtLink Null [])).
  { exists ∅. split; [apply repr_init|]. split; [by rewrite map_size_empty|]. intros str e. by rewrite lookup_empty. }
  destruct (attach_targets_spec f uerr ts 0 man hashmap__init links (UsdtLink Null []) [] Hm0 Hh) as (err & man1 & hash1 & link1 & ts1 & -> & Hc1 & Hf1 & Hm1 & Hts1).
  { lia. }
  { eapply Forall_impl; [exact Hts|]. intros t Ht. unfold f. cbv beta in Ht. by rewrite Ht. }
  cbn [mbind option_bind]. destruct (Z.eqb_spec err 0) as [->|He]; cbn [negb].
  - right. eexists _, _. split; [done|]. split; [done|]. by rewrite (Hts1 eq_refl) in Hm1.
  - by eapply Hfail.
Qed.
End Links.

(** ** Requests *)

Section Requests.
Context {S I : Type} `{!BpfMapOps Z usdt_spec S} `{!BpfMapOps Z Z I}.
Context (max_entries : Z).
Context `{!BpfArrayLaws max_entries usdt_spec S} `{!BpfHashLaws Z Z I}.
Context (Hmax : 0 <= max_entries < 2 ^ 31).

Implicit Types (man : usdt_manager S I) (link : bpf_link_usdt) (links : list (bpf_link_usdt * list usdt_target)).

(** What is asked for, with the errors of the system calls and the
    allocations that fail while it is served. *)
Inductive request :=
  | Attach (ts : list usdt_target) (uprobe_err : usdt_target -> Z) (alloc_ok : Z -> bool)
  | Detach (n : nat) (alloc_ok : Z -> bool).

Definition request_ok (r : request) : Prop := match r with Attach ts _ _ => targets_ok ts | Detach _ _ => True end.

(** The links in use, with the targets they were asked for. *)
Definition serve (st : usdt_manager S I * list (bpf_link_usdt * list usdt_target)) (r : request) :
    option (usdt_manager S I * list (bpf_link_usdt * list usdt_target)) :=
  let '(man, links) := st in
  match r with
  | Attach ts uerr alloc_ok =>
      '(r, man) ← usdt_manager_attach_usdt alloc_ok max_entries uerr man ts;
      Some (man, match r with inl _ => links | inr link => links ++ [(link, ts)] end)
  | Detach n alloc_ok =>
      match links !! n with
      | None => Some st
      | Some (link, _) => man ← bpf_link_usdt_detach alloc_ok man link; Some (man, delete n links)
      end
  end.

Fixpoint serve_all st (rs : list request) : option (usdt_manager S I * list (bpf_link_usdt * list usdt_target)) :=
  match rs with [] => Some st | r :: rs => st ← serve st r; serve_all st rs end.

Lemma serve_all_app rs1 rs2 : forall st, serve_all st (rs1 ++ rs2) = (st ← serve_all st rs1; serve_all st rs2).
Proof. induction rs1 as [|r rs1 IH]; intros st; [done|]. cbn [serve_all app]. destruct (serve st r); cbn [mbind option_bind]; [apply IH|done]. Qed.

Lemma serve_spec man links r : manager_ok max_entries man links -> request_ok r ->
  free_spec_ids man = Freed /\ serve (man, links) r = None \/
  exists man' links', serve (man, links) r = Some (man', links') /\ has_bpf_cookie man' = has_bpf_cookie man /\
    manager_ok max_entries man' links'.
Proof.
  intros Hm Hr. destruct r as [ts uerr alloc_ok|n alloc_ok]; cbn [serve].
  - destruct (attach_spec alloc_ok max_entries uerr man links ts Hm Hr) as [[Hf ->]|(r & man' & -> & Hc & Hm')]; [by left|].
    right. by eexists _, _.
  - destruct (links !! n) as [[link ts]|] eqn:El; [|right; by eexists _, _].
    assert (Hdec : free_spec_ids man = Freed \/ free_spec_ids man <> Freed) by (destruct (free_spec_ids man); auto).
    destruct Hdec as [Hf|Hf]; [left; split; [done|by rewrite detach_freed]|right].
    rewrite <- (take_drop_middle _ _ _ El) in Hm.
    destruct (detach_spec alloc_ok max_entries _ _ _ _ _ Hm Hf) as (man' & -> & Hc & Hm').
    eexists _, _. split; [done|]. split; [done|]. by rewrite delete_take_drop.
Qed.

(** What the events of a good manager's uprobes find. *)
Lemma event_finds_spec man links l u t e : manager_ok max_entries man links -> l ∈ links -> uprobe_ok man l.1 u t ->
  fires (has_bpf_cookie man) u e ->
  event_spec (has_bpf_cookie man) (specs_map man) (ip_to_spec_id_map man) e = Some (t_spec t).
Proof.
  intros (Hids & _ & _) Hl (_ & _ & _ & id & Hid & Hsp & Hk) He.
  pose proof (ids_ok_used max_entries man _ id Hids (in_link_ids _ _ _ Hl Hid)). unfold event_spec, __bpf_usdt_spec_id, fires in *.
  destruct (has_bpf_cookie man); cbn [negb].
  - rewrite He, Hk, swrap_small by lia. destruct (Z.ltb_spec id 0); [lia|done].
  - rewrite He, Hk. cbn. destruct (Z.ltb_spec id 0); [lia|done].
Qed.

(** Every uprobe is at the place of its target and its events lead to the
    target's specification; no id of a specification is in two places of the
    links or both in use and free, and without cookies no address is. *)
Definition probes_ok man links : Prop :=
  Forall (fun l => Forall2 (fun u t => u_abs_ip u = abs_ip t /\ u_rel_ip u = rel_ip t /\ u_ref_ctr_offset u = sema_off t /\
    forall e, fires (has_bpf_cookie man) u e ->
      event_spec (has_bpf_cookie man) (specs_map man) (ip_to_spec_id_map man) e = Some (t_spec t)) (uprobes l.1) l.2) links /\
  NoDup (ids_in (free_spec_ids man) ++ link_ids links) /\
  (has_bpf_cookie man = false -> NoDup (link_ips links)).

Lemma manager_probes man links : manager_ok max_entries man links -> probes_ok man links.
Proof.
  intros Hm. pose proof Hm as (H1 & H2 & H3). split; [|split; [apply H1|done]]. rewrite Forall_forall. intros l Hl.
  pose proof (proj1 (Forall_forall _ _) H3 l Hl) as [_ Hu]. eapply Forall2_impl; [exact Hu|]. intros u t Hut.
  destruct Hut as (U1 & U2 & U3 & U4). do 3 (split; [done|]). intros e He. by apply (event_finds_spec man links l u t e).
Qed.

(** C15: a probe finds the specification of its own trace point.  From a new
    manager on, whatever is attached and detached, and whichever allocations,
    map updates and uprobes fail, after every request served each uprobe of a
    link in use is at the place of its target, and its events, found by cookie
    or by address, lead [bpf_usdt_arg] to the specification parsed from the
    target's text.  No id of a specification is given to two links, and where
    events are found by address no address is in two uprobes.  All requests are
    served, unless the list of free ids was freed by resizing it to nothing:
    then all are served up to the first that uses the freed list. *)
Theorem usdt_probes_find_specs man (rs : list request) : free_spec_ids man = Null -> next_free_spec_id man = 0 ->
  Forall request_ok rs ->
  exists rs1 rs2 man' links, rs = rs1 ++ rs2 /\ serve_all (man, []) rs1 = Some (man', links) /\
    has_bpf_cookie man' = has_bpf_cookie man /\ probes_ok man' links /\
    (rs2 = [] \/ free_spec_ids man' = Freed /\ exists r rs3, rs2 = r :: rs3 /\ serve (man', links) r = None).
Proof.
  intros Hfree Hnext Hrs.
  assert (Hm : manager_ok max_entries man []).
  { split; [|split; [|constructor]]; [|intros; constructor]. unfold ids_ok. rewrite Hfree, Hnext. cbn. split; [constructor|]. split; [constructor|lia]. }
  clear Hfree Hnext. revert Hm. generalize (@nil (bpf_link_usdt * list usdt_target)) as links. revert man.
  induction rs as [|r rs IH]; intros man links Hm.
  { exists [], [], man, links. do 3 (split; [done|]). split; [by apply manager_probes|by left]. }
  inversion Hrs as [|? ? H1 H2]; subst.
  destruct (serve_spec man links r Hm H1) as [[Hf Hn]|(man1 & links1 & E & Hc1 & Hm1)].
  { exists [], (r :: rs), man, links. do 3 (split; [done|]). split; [by apply manager_probes|]. right. split; [done|]. by exists r, rs. }
  destruct (IH H2 man1 links1 Hm1) as (rs1 & rs2 & man2 & links2 & -> & E2 & Hc2 & Hp & Hend).
  exists (r :: rs1), rs2, man2, links2. split; [done|]. split; [cbn [serve_all]; by rewrite E|]. split; [congruence|done].
Qed.
End Requests.

(** ** Examples *)

Definition ex_specs (n : nat) : Amap n usdt_spec := mkAmap (vreplicate n spec0).

Definition ex_manager (n : nat) : usdt_manager (Amap n usdt_spec) (Hmap Z Z) := Manager (ex_specs n) (mkHmap 8 ∅) Null 0 false.

(** A target whose text is one argument in a register. *)
Definition ex_target (ip : Z) (reg : string) : usdt_target :=
  let str := lit "8@%" ++ lit reg in
  Target ip (ip - 4096) 0 (match parse_usdt_spec spec0 str 7 with Some (_, sp) => sp | None => spec0 end) str.

Definition works : usdt_target -> Z := fun _ => 0.

Definition always : Z -> bool := fun _ => true.

(** Two links, the first given up, and a third that takes its id. *)
Definition ex_requests : list request :=
  [Attach [ex_target 5000 "rdi"; ex_target 5100 "rsi"] works always; Attach [ex_target 5200 "rax"] works always; Detach 0 always;
   Attach [ex_target 5000 "rdi"; ex_target 5400 "rdi"] works always].

Lemma ex_requests_ok : Forall request_ok ex_requests.
Proof. repeat constructor; exists 7; repeat constructor. Qed.

Fact ex_served : (st ← serve_all 4 (ex_manager 4, []) ex_requests;
    Some (map (fun l => (spec_ids l.1, map u_abs_ip (uprobes l.1))) st.2, free_spec_ids st.1)) =
  Some ([(Ids [2], [5200]); (Ids [1], [5000; 5400])], Ids [0]).
Proof. vm_compute. reflexivity. Qed.

Lemma usdt_probes_find_specs_witness :
  exists man' links, serve_all (Z.of_nat 4) (ex_manager 4, []) ex_requests = Some (man', links) /\
    probes_ok man' links /\ length links = 2%nat.
Proof.
  destruct (usdt_probes_find_specs (Z.of_nat 4) ltac:(lia) (ex_manager 4) ex_requests eq_refl eq_refl ex_requests_ok)
    as (rs1 & rs2 & man' & links & E & Hs & _ & Hp & Hend).
  assert (Hall : exists man0 links0, serve_all (Z.of_nat 4) (ex_manager 4, []) ex_requests = Some (man0, links0) /\ length links0 = 2%nat)
    by (eexists _, _; split; [vm_compute; reflexivity|reflexivity]).
  destruct Hall as (man0 & links0 & E0 & Hl). rewrite E, serve_all_app, Hs in E0. cbn [mbind option_bind] in E0.
  destruct Hend as [->|(_ & r & rs3 & -> & Hn)].
  - injection E0 as <- <-. exists man', links. rewrite app_nil_r in E. rewrite E. by split_and!.
  - cbn [serve_all] in E0. rewrite Hn in E0. discriminate.
Defined.

(** After a uprobe could not be attached its address stays in the map: the
    same trace point can never be attached again. *)
Fact address_not_removed : exists man, usdt_manager_attach_usdt (fun _ => true) 4 (fun _ => -1) (ex_manager 4) [ex_target 5000 "rdi"] = Some (inl (-1), man) /\
  (r ← usdt_manager_attach_usdt (fun _ => true) 4 works man [ex_target 5000 "rdi"]; Some (fst r)) = Some (inl (- EEXIST)).
Proof. eexists. split; vm_compute; reflexivity. Qed.

(** One specification fits in the map: with the only id given out again, the
    failing third attachment resizes the list of free ids to nothing, and the
    next link given up uses the freed list. *)
Fact free_list_freed :
  let at_ ip := Attach [ex_target ip "rdi"] works always in
  (st ← serve_all 1 (ex_manager 1, []) [at_ 5000; Detach 0 always; at_ 5100; at_ 5200]; Some (free_spec_ids st.1)) = Some Freed /\
  serve_all 1 (ex_manager 1, []) [at_ 5000; Detach 0 always; at_ 5100; at_ 5200; Detach 0 always] = None.
Proof. split; vm_compute; reflexivity. Qed.
