(* ===== verification/UsdtTargets.v ===== *)
(** * User statically defined trace points: notes and targets (src/plugin/libbpf-test/libbpf/src/usdt.c)

    Trace points are described by ELF notes.  [collect_usdt_targets] finds the
    notes of one trace point and turns link-time addresses into the addresses
    the kernel attaches to and the addresses of a running process.

    libelf is not part of this repository: what it says about a file, and the
    scanned lines of /proc/PID/maps, are arguments.  [None] is undefined
    behaviour: a read outside the section's data or an overflow of a [long]. *)

From stdpp Require Import sorting.
From S2P Require Import Prelude CString BpfMap UsdtArg UsdtManager.

(** ** What libelf says *)

Record nhdr := Nhdr { n_namesz : Z; n_descsz : Z; n_type : Z }.

Record phdr := Phdr { p_type : Z; p_flags : Z; p_offset : Z; p_vaddr : Z; p_memsz : Z }.

(** A file: the note section's type, its data and the notes in it (header and
    the offsets of name and description), or an error; the type of the file;
    the program headers or an error; and the address of .stapsdt.base. *)
Record usdt_elf := UsdtElf {
  notes_sec : Z + Z * list Z * list (nhdr * Z * Z);
  e_type : option Z;
  phdrs : Z + list phdr;
  base_sec : option Z;
}.

Abbreviation SHT_NOTE := 7 (only parsing).
Abbreviation ET_EXEC := 2 (only parsing).
Abbreviation PT_LOAD := 1 (only parsing).
Abbreviation PF_X := 1 (only parsing).

(** A result of [long] arithmetic. *)
Definition long_of (x : Z) : option Z := if (- 2 ^ 63 <=? x) && (x <? 2 ^ 63) then Some x else None.

(** ** Segments *)

Record elf_seg := ElfSeg { seg_start : Z; seg_end : Z; seg_offset : Z; is_exec : bool }.

Definition seg_le (a b : elf_seg) : Prop := seg_start a <= seg_start b.

#[export] Instance seg_le_dec a b : Decision (seg_le a b).
Proof. unfold seg_le. apply _. Defined.

Definition elf_seg_of (p : phdr) : elf_seg :=
  ElfSeg (s64 (p_vaddr p)) (s64 (p_vaddr p + p_memsz p)) (s64 (p_offset p)) (negb (Z.land (p_flags p) PF_X =? 0)).

Section Alloc.
Context (alloc_ok : Z -> bool).

(** The array grows by one segment at a time. *)
Fixpoint load_segs (ps : list phdr) (segs : list elf_seg) : Z + list elf_seg :=
  match ps with
  | [] => inr segs
  | p :: ps =>
      if negb (p_type p =? PT_LOAD) then load_segs ps segs
      else if negb (alloc_ok (32 * (Z.of_nat (length segs) + 1))) then inl (- ENOMEM)
      else load_segs ps (segs ++ [elf_seg_of p])
  end.

Definition parse_elf_segs (elf : usdt_elf) : Z + list elf_seg :=
  match phdrs elf with
  | inl err => inl err
  | inr ps =>
      match load_segs ps [] with
      | inl err => inl err
      | inr [] => inl (- ESRCH)
      | inr segs => inr (merge_sort seg_le segs)
      end
  end.

(** A scanned line of the maps file: addresses, mode, offset and the rest.
    [fscanf] stores the mode, with %s, in 16 bytes and the rest, with %[^\n], in
    PATH_MAX bytes, neither with a bound. *)
Record map_line := MapLine { l_start : Z; l_end : Z; l_mode : list Z; l_off : Z; l_rest : list Z }.

Fixpoint skip_blank (s : list Z) : list Z :=
  match s with
  | c :: s' => if (c =? 32) || (c =? 9) then skip_blank s' else s
  | [] => []
  end.

Definition line_fits (l : map_line) : bool :=
  (2 <=? Z.of_nat (length (l_mode l))) && (Z.of_nat (length (l_mode l)) <=? 15) &&
  (Z.of_nat (length (l_rest l)) <=? 4095).

Fixpoint load_lib_segs (path : list Z) (ls : list map_line) (segs : list elf_seg) : option (Z + list elf_seg) :=
  match ls with
  | [] => Some (inr segs)
  | l :: ls =>
      if negb (line_fits l) then None
      else if negb (strcmp (skip_blank (l_rest l)) path =? 0) then load_lib_segs path ls segs
      else if negb (nth 2 (l_mode l) 0 =? 120) then load_lib_segs path ls segs
      else if negb (alloc_ok (32 * (Z.of_nat (length segs) + 1))) then Some (inl (- ENOMEM))
      else load_lib_segs path ls (segs ++ [ElfSeg (s64 (l_start l)) (s64 (l_end l)) (s64 (l_off l)) true])
  end.

(** [path] is the resolved path; [maps] the lines or the error of opening the
    file. *)
Definition parse_lib_segs (path : list Z) (maps : Z + list map_line) : option (Z + list elf_seg) :=
  match maps with
  | inl err => Some (inl err)
  | inr ls =>
      r ← load_lib_segs path ls [];
      Some match r with
        | inl err => inl err
        | inr [] => inl (- ESRCH)
        | inr segs => inr (merge_sort seg_le segs)
        end
  end.

Fixpoint find_elf_seg (segs : list elf_seg) (addr : Z) (relative : bool) : option (option elf_seg) :=
  match segs with
  | [] => Some None
  | seg :: segs =>
      if relative then
        if negb (seg_offset seg <=? addr) then find_elf_seg segs addr relative else
        d ← long_of (seg_end seg - seg_start seg); e ← long_of (seg_offset seg + d);
        if addr <? e then Some (Some seg) else find_elf_seg segs addr relative
      else
        if (seg_start seg <=? addr) && (addr <? seg_end seg) then Some (Some seg) else find_elf_seg segs addr relative
  end.

(** ** Notes *)

Record usdt_note := Note {
  provider : list Z;
  name : list Z;
  note_args : option Z; (* where the text is in the data; [None] is "" *)
  loc_addr : Z;
  note_base : Z;
  sema_addr : Z;
}.

(** [strncmp] of the memory [a] with the bytes of a literal and its NUL. *)
Fixpoint strncmp_eq (a b : list Z) (n : Z) : option bool :=
  if n <=? 0 then Some true else
  match a, b with
  | x :: a, y :: b => if negb (x =? y) then Some false else if x =? 0 then Some true else strncmp_eq a b (n - 1)
  | _, _ => None
  end.

(** [memchr] for NUL in [n] bytes: how many bytes precede it. *)
Fixpoint memchr_nul (m : list Z) (n : nat) : option (option nat) :=
  match n with
  | O => Some None
  | S n =>
      match m with
      | [] => None
      | c :: m => if c =? 0 then Some (Some O) else k ← memchr_nul m n; Some (option_map S k)
      end
  end.

Definition ld_long (m : list Z) (off : Z) : option Z :=
  lo ← ld32 m off; hi ← ld32 m (off + 4); Some (s64 (lo + hi * 2 ^ 32)).

Definition mem_at (m : list Z) (off : Z) : list Z := drop (Z.to_nat off) m.

Definition parse_usdt_note (data : list Z) (h : nhdr) (name_off desc_off : Z) : option (Z + usdt_note) :=
  same ← strncmp_eq (mem_at data name_off) (lit "stapsdt" ++ [0]) (n_namesz h);
  if negb same then Some (inl (- EINVAL)) else
  if negb (n_type h =? 3) then Some (inl (- EINVAL)) else
  let len := n_descsz h in
  if len <? 24 + 3 then Some (inl (- EINVAL)) else
  loc ← ld_long data desc_off; base ← ld_long data (desc_off + 8); sema ← ld_long data (desc_off + 16);
  let p := desc_off + 24 in
  let fin := desc_off + len in
  plen ← memchr_nul (mem_at data p) (Z.to_nat (fin - p));
  match plen with
  | None => Some (inl (- EINVAL))
  | Some plen =>
      let n := p + Z.of_nat plen + 1 in
      if n >=? fin then Some (inl (- EINVAL)) else
      c ← ld8 data n;
      if c =? 0 then Some (inl (- EINVAL)) else
      nlen ← memchr_nul (mem_at data n) (Z.to_nat (fin - n));
      match nlen with
      | None => Some (inl (- EINVAL))
      | Some nlen =>
          let a := n + Z.of_nat nlen + 1 in
          if a >=? fin then Some (inl (- EINVAL)) else
          c ← ld8 data a;
          Some (inr (Note (take plen (mem_at data p)) (take nlen (mem_at data n))
                       (if (c =? 0) || (c =? 58) then None else Some a) loc base sema))
      end
  end.

(** ** Targets *)

Record request_env := Env {
  env_elf : usdt_elf;
  env_pid : Z;
  env_path : list Z;             (* resolved *)
  env_maps : Z + list map_line;
  env_provider : list Z;
  env_name : list Z;
  env_cookie : Z;
  env_has_bpf_cookie : bool;
  env_has_sema_refcnt : bool;
}.

(** The addresses of the probe: an error, or absolute and relative one, and
    the segments of the library once they were read. *)
Definition probe_ips (env : request_env) (segs : list elf_seg) (lib_segs : list elf_seg) (et : Z) (ip : Z)
    : option (Z + Z * Z * list elf_seg) :=
  if et =? ET_EXEC then
    seg ← find_elf_seg segs ip false;
    match seg with
    | None => Some (inl (- ESRCH))
    | Some seg =>
        if negb (is_exec seg) then Some (inl (- ESRCH)) else
        d ← long_of (seg_start seg - seg_offset seg); rel ← long_of (ip - d); Some (inr (ip, rel, lib_segs))
    end
  else if negb (env_has_bpf_cookie env) then
    if env_pid env <? 0 then Some (inl (- ENOTSUP)) else
    r ← (match lib_segs with [] => parse_lib_segs (env_path env) (env_maps env) | _ => Some (inr lib_segs) end);
    match r with
    | inl err => Some (inl err)
    | inr lib_segs =>
        seg ← find_elf_seg lib_segs ip true;
        match seg with
        | None => Some (inl (- ESRCH))
        | Some seg => d ← long_of (ip - seg_offset seg); abs ← long_of (seg_start seg + d); Some (inr (abs, ip, lib_segs))
        end
    end
  else Some (inr (ip, ip, lib_segs)).

(** The offset of the semaphore in the file; 0 is none. *)
Definition sema_offset (env : request_env) (segs : list elf_seg) (sema : Z) : option (Z + Z) :=
  if sema =? 0 then Some (inr 0) else
  if negb (env_has_sema_refcnt env) then Some (inl (- ENOTSUP)) else
  seg ← find_elf_seg segs sema false;
  match seg with
  | None => Some (inl (- ESRCH))
  | Some seg =>
      if is_exec seg then Some (inl (- ESRCH)) else
      d ← long_of (seg_start seg - seg_offset seg); off ← long_of (sema - d); Some (inr off)
  end.

(** Compensation for prelink. *)
Definition prelinked (base_addr : Z) (note : usdt_note) : option Z :=
  if base_addr =? 0 then Some (loc_addr note) else
  d ← long_of (base_addr - note_base note); long_of (loc_addr note + d).

Fixpoint collect_notes (env : request_env) (data : list Z) (base_addr et : Z) (segs : list elf_seg)
    (notes : list (nhdr * Z * Z)) (lib_segs : list elf_seg) (targets : list usdt_target) : option (Z + list usdt_target) :=
  match notes with
  | [] => Some (inr targets)
  | (h, name_off, desc_off) :: notes =>
      r ← parse_usdt_note data h name_off desc_off;
      match r with
      | inl err => Some (inl err)
      | inr note =>
          if negb (strcmp (provider note) (env_provider env) =? 0) || negb (strcmp (name note) (env_name env) =? 0)
          then collect_notes env data base_addr et segs notes lib_segs targets else
          ip ← prelinked base_addr note;
          r ← probe_ips env segs lib_segs et ip;
          match r with
          | inl err => Some (inl err)
          | inr (abs, rel, lib_segs) =>
              r ← sema_offset env segs (sema_addr note);
              match r with
              | inl err => Some (inl err)
              | inr sema =>
                  if negb (alloc_ok (240 * (Z.of_nat (length targets) + 1))) then Some (inl (- ENOMEM)) else
                  str ← (match note_args note with None => Some [] | Some a => cstr data a end);
                  '(err, spec) ← parse_usdt_spec spec0 str (env_cookie env);
                  if negb (err =? 0) then Some (inl err) else
                  collect_notes env data base_addr et segs notes lib_segs (targets ++ [Target abs rel sema spec str])
              end
          end
      end
  end.

(** An error or the targets. *)
Definition collect_usdt_targets (env : request_env) : option (Z + list usdt_target) :=
  match notes_sec (env_elf env) with
  | inl err => Some (inl err)
  | inr (sh_type, data, notes) =>
      if negb (sh_type =? SHT_NOTE) then Some (inl (- EINVAL)) else
      match e_type (env_elf env) with
      | None => Some (inl (- EINVAL))
      | Some et =>
          match parse_elf_segs (env_elf env) with
          | inl err => Some (inl err)
          | inr segs => collect_notes env data (s64 (default 0 (base_sec (env_elf env)))) et segs notes [] []
          end
      end
  end.
End Alloc.

(** ** Notes as they are written *)

Record note_text := NoteText {
  nt_provider : list Z;
  nt_name : list Z;
  nt_args : list Z;
  nt_loc : Z;
  nt_base : Z;
  nt_sema : Z;
}.

Definition le64 (x : Z) : list Z := le32 (u32 x) ++ le32 (u32 (x / 2 ^ 32)).

Definition descriptor (nt : note_text) : list Z :=
  le64 (nt_loc nt) ++ le64 (nt_base nt) ++ le64 (nt_sema nt) ++
  nt_provider nt ++ 0 :: nt_name nt ++ 0 :: nt_args nt ++ [0].

(** A text that starts with a colon stands for no arguments. *)
Definition args_text (nt : note_text) : list Z :=
  match nt_args nt with c :: _ => if c =? 58 then [] else nt_args nt | [] => [] end.

Definition is_long (x : Z) : Prop := - 2 ^ 63 <= x < 2 ^ 63.

Record note_ok (nt : note_text) : Prop := {
  no_strings : strneq0 (nt_provider nt) /\ strneq0 (nt_name nt) /\ strneq0 (nt_args nt);
  no_name : nt_name nt <> [];
  no_longs : is_long (nt_loc nt) /\ is_long (nt_base nt) /\ is_long (nt_sema nt);
}.

(** The note [nt] at its place in the data of the section. *)
Definition noted (data : list Z) (e : nhdr * Z * Z) (nt : note_text) : Prop :=
  let '(h, name_off, desc_off) := e in
  n_namesz h = 8 /\ n_type h = 3 /\ n_descsz h = Z.of_nat (length (descriptor nt)) /\ 0 <= desc_off /\
  (exists rest, mem_at data name_off = lit "stapsdt" ++ 0 :: rest) /\
  (exists rest, mem_at data desc_off = descriptor nt ++ rest).

Lemma mem_at_app m off a b : 0 <= off -> mem_at m off = a ++ b -> mem_at m (off + Z.of_nat (length a)) = b.
Proof.
  intros Ho E. unfold mem_at in *. rewrite Z2Nat.inj_add, Nat2Z.id by lia. rewrite <- drop_drop, E. apply drop_app_length.
Qed.

Lemma ld8_mem m off k : 0 <= off -> 0 <= k -> ld8 m (off + k) = mem_at m off !! Z.to_nat k.
Proof.
  intros Ho Hk. unfold ld8, mem_at. destruct (Z.ltb_spec (off + k) 0); [lia|]. rewrite lookup_drop. f_equal. lia.
Qed.

Lemma ld32_mem m off v rest : 0 <= off -> mem_at m off = le32 v ++ rest -> 0 <= v < 2 ^ 32 -> ld32 m off = Some v.
Proof.
  intros Ho E Hv. pose proof (fun k => ld8_mem m off k Ho) as H. rewrite E in H. unfold ld32, ld16. rewrite <- Z.add_assoc.
  rewrite <- (Z.add_0_r off) at 1. rewrite (H 0), (H 1), (H 2), (H (2 + 1)) by lia. unfold le32. simpl. f_equal. width_lia.
Qed.

Lemma ld_long_mem m off v rest : 0 <= off -> mem_at m off = le64 v ++ rest -> is_long v -> ld_long m off = Some v.
Proof.
  intros Ho E Hv. unfold le64 in E. rewrite <- app_assoc in E. unfold ld_long. rewrite (ld32_mem _ _ _ _ Ho E) by (apply wrap_range; lia).
  cbn [mbind option_bind]. apply mem_at_app in E; [|done]. change (Z.of_nat (length _)) with 4 in E.
  rewrite (ld32_mem _ (off + 4) _ _ ltac:(lia) E) by (apply wrap_range; lia). cbn [mbind option_bind]. f_equal.
  unfold is_long, swrap, wrap in *. Z.to_euclidean_division_equations. lia.
Qed.

Lemma memchr_nul_at s rest n : strneq0 s -> (length s < n)%nat -> memchr_nul (s ++ 0 :: rest) n = Some (Some (length s)).
Proof.
  revert n. induction s as [|c s IH]; intros [|n] Hs Hn; cbn in Hn; try lia; [done|].
  inversion Hs as [|? ? Hc Hs']; subst. cbn. destruct (Z.eqb_spec c 0); [done|]. by rewrite (IH n Hs' ltac:(lia)).
Qed.

Lemma strncmp_same b rest : forall n, strneq0 b -> strncmp_eq (b ++ 0 :: rest) (b ++ [0]) n = Some true.
Proof.
  induction b as [|c b IH]; intros n Hb; cbn.
  - by destruct (n <=? 0).
  - inversion Hb as [|? ? Hc Hb']; subst. destruct (n <=? 0); [done|]. rewrite Z.eqb_refl. cbn. destruct (Z.eqb_spec c 0); [done|]. by apply IH.
Qed.

Lemma length_le64 x : length (le64 x) = 8%nat.
Proof. done. Qed.

(** Reading the note that was written. *)
Lemma parse_note_noted data h name_off desc_off nt : note_ok nt -> noted data (h, name_off, desc_off) nt -> exists a,
  parse_usdt_note data h name_off desc_off = Some (inr (Note (nt_provider nt) (nt_name nt) a (nt_loc nt) (nt_base nt) (nt_sema nt))) /\
  (match a with None => Some [] | Some a => cstr data a end) = Some (args_text nt).
Proof.
  intros [(Hsp & Hsn & Hsa) Hnn (Hl & Hb & Hs)] (Hns & Hty & Hds & Hdo & (r1 & Hname) & (r2 & Hd)).
  unfold parse_usdt_note. rewrite Hname, (strncmp_same (lit "stapsdt")) by (repeat constructor; done). cbn [mbind option_bind negb].
  rewrite Hty. cbn [Z.eqb Pos.eqb negb]. unfold descriptor in *. rewrite !length_app, !length_le64 in Hds. cbn [length] in Hds. rewrite !length_app in Hds. cbn [length] in Hds. rewrite !length_app in Hds. cbn [length] in Hds.
  destruct (Z.ltb_spec (n_descsz h) (24 + 3)); [lia|]. rewrite <- !app_assoc in Hd.
  rewrite (ld_long_mem _ _ _ _ Hdo Hd Hl). cbn [mbind option_bind]. apply mem_at_app in Hd; [|done]. rewrite length_le64 in Hd. change (Z.of_nat 8) with 8 in Hd.
  rewrite (ld_long_mem _ (desc_off + 8) _ _ ltac:(lia) Hd Hb). cbn [mbind option_bind]. apply mem_at_app in Hd; [|lia]. rewrite length_le64, <- Z.add_assoc in Hd. change (8 + Z.of_nat 8) with 16 in Hd.
  rewrite (ld_long_mem _ (desc_off + 16) _ _ ltac:(lia) Hd Hs). cbn [mbind option_bind]. apply mem_at_app in Hd; [|lia]. rewrite length_le64, <- Z.add_assoc in Hd. change (16 + Z.of_nat 8) with 24 in Hd.
  set (p := desc_off + 24) in *. set (fin := desc_off + n_descsz h) in *. cbn [app] in Hd. rewrite <- !app_assoc in Hd.
  rewrite Hd, memchr_nul_at by (try done; lia). cbn [mbind option_bind]. rewrite take_app_length.
  set (n := p + Z.of_nat (length (nt_provider nt)) + 1).
  assert (Hd1 : mem_at data n = nt_name nt ++ 0 :: nt_args nt ++ 0 :: r2).
  { change (nt_provider nt ++ 0 :: ?x) with (nt_provider nt ++ [0] ++ x) in Hd. cbn [app] in Hd.
    pose proof (mem_at_app data p (nt_provider nt ++ [0]) (nt_name nt ++ 0 :: nt_args nt ++ 0 :: r2) ltac:(lia)) as H1.
    rewrite length_app in H1. cbn [length] in H1. unfold n. rewrite <- Z.add_assoc. rewrite Nat2Z.inj_add in H1. apply H1.
    rewrite Hd, <- app_assoc. cbn [app]. by rewrite <- ?app_assoc. }
  assert (Hd2 : mem_at data (n + Z.of_nat (length (nt_name nt)) + 1) = nt_args nt ++ 0 :: r2).
  { pose proof (mem_at_app data n (nt_name nt ++ [0]) (nt_args nt ++ 0 :: r2) ltac:(lia)) as H1.
    rewrite length_app in H1. cbn [length] in H1. rewrite <- Z.add_assoc. rewrite Nat2Z.inj_add in H1. apply H1. by rewrite Hd1, <- app_assoc. }
  destruct (Z.geb_spec n fin); [lia|].
  assert (Hc : ld8 data n = hd_error (nt_name nt)).
  { rewrite <- (Z.add_0_r n), ld8_mem, Hd1 by lia. by destruct (nt_name nt). }
  rewrite Hc. destruct (nt_name nt) as [|c0 nm] eqn:Enm; [done|]. cbn [hd_error mbind option_bind]. inversion Hsn as [|? ? Hc0 _]; subst.
  destruct (Z.eqb_spec c0 0); [done|]. rewrite Hd1, memchr_nul_at by (try done; cbn in *; lia). cbn [mbind option_bind]. rewrite take_app_length.
  set (a := n + Z.of_nat (length (c0 :: nm)) + 1) in *. destruct (Z.geb_spec a fin); [cbn in *; lia|].
  assert (Ha : ld8 data a = Some (hd 0 (nt_args nt))).
  { rewrite <- (Z.add_0_r a), ld8_mem, Hd2 by lia. by destruct (nt_args nt). }
  rewrite Ha. cbn [mbind option_bind]. eexists. split; [done|]. unfold args_text.
  destruct (nt_args nt) as [|c ar] eqn:Ear; [done|]. cbn [hd]. inversion Hsa as [|? ? Hcz _]; subst. destruct (Z.eqb_spec c 0); [done|]. cbn [orb].
  destruct (Z.eqb_spec c 58); [done|]. unfold cstr. destruct (Z.ltb_spec a 0); [lia|]. fold (mem_at data a). rewrite Hd2. by apply until_nul_app.
Qed.

(** ** Finding segments *)

Definition inside (seg : elf_seg) (a : Z) : Prop := seg_start seg <= a < seg_end seg.
Definition inside_file (seg : elf_seg) (a : Z) : Prop := seg_offset seg <= a < seg_offset seg + (seg_end seg - seg_start seg).

Definition seg_ok (seg : elf_seg) : Prop := 0 <= seg_start seg <= seg_end seg /\ seg_end seg < 2 ^ 62 /\ 0 <= seg_offset seg < 2 ^ 62.

Lemma long_of_in x : is_long x -> long_of x = Some x.
Proof. unfold is_long, long_of. intros H. by replace ((- 2 ^ 63 <=? x) && (x <? 2 ^ 63)) with true by lia. Qed.

Lemma find_elf_seg_spec segs a (rel : bool) : Forall seg_ok segs -> exists r, find_elf_seg segs a rel = Some r /\
  match r with
  | Some seg => seg ∈ segs /\ (if rel then inside_file seg a else inside seg a)
  | None => forall seg, seg ∈ segs -> ~ (if rel then inside_file seg a else inside seg a)
  end.
Proof.
  induction 1 as [|seg segs Hs H (r & IH & Hr)].
  { exists None. split; [done|]. intros seg Hin. by apply not_elem_of_nil in Hin. } cbn [find_elf_seg]. unfold seg_ok, inside, inside_file in *.
  assert (Hrest : ~ (if rel then seg_offset seg <= a < seg_offset seg + (seg_end seg - seg_start seg) else seg_start seg <= a < seg_end seg) ->
    match r with
    | Some s => s ∈ seg :: segs /\ (if rel then seg_offset s <= a < seg_offset s + (seg_end s - seg_start s) else seg_start s <= a < seg_end s)
    | None => forall s, s ∈ seg :: segs -> ~ (if rel then seg_offset s <= a < seg_offset s + (seg_end s - seg_start s) else seg_start s <= a < seg_end s)
    end).
  { intros Hno. destruct r as [s|]; [destruct Hr; split; [by right|done]|]. intros s [->|Hin]%elem_of_cons; [done|by apply Hr]. }
  destruct rel.
  - destruct (Z.leb_spec (seg_offset seg) a); cbn [negb]; [|exists r; split; [done|apply Hrest; lia]]. rewrite !long_of_in by (unfold is_long; lia). cbn [mbind option_bind].
    rewrite long_of_in by (unfold is_long; lia). cbn [mbind option_bind].
    destruct (Z.ltb_spec a (seg_offset seg + (seg_end seg - seg_start seg))); [|exists r; split; [done|apply Hrest; lia]]. eexists. split; [done|]. split; [by left|lia].
  - destruct (Z.leb_spec (seg_start seg) a), (Z.ltb_spec a (seg_end seg)); cbn [andb]; try (exists r; split; [done|apply Hrest; lia]). eexists. split; [done|]. split; [by left|lia].
Qed.

(** A program header, and a line of the maps file, within 62 bits; the line
    also fits the buffers it is read into. *)
Definition phdr_ok (p : phdr) : Prop := 0 <= p_vaddr p /\ 0 <= p_memsz p /\ p_vaddr p + p_memsz p < 2 ^ 62 /\ 0 <= p_offset p < 2 ^ 62.
Definition line_ok (l : map_line) : Prop := line_fits l = true /\ 0 <= l_start l <= l_end l /\ l_end l < 2 ^ 62 /\ 0 <= l_off l < 2 ^ 62.

Lemma seg_of_phdr p : phdr_ok p -> elf_seg_of p =
  ElfSeg (p_vaddr p) (p_vaddr p + p_memsz p) (p_offset p) (negb (Z.land (p_flags p) PF_X =? 0)).
Proof. unfold phdr_ok, elf_seg_of. intros H. by rewrite !swrap_small by lia. Qed.

Section Spec.
Context (alloc_ok : Z -> bool).

(** The loaded segments of a file. *)
Definition loaded_seg (ps : list phdr) (seg : elf_seg) : Prop := exists p, p ∈ ps /\ p_type p = PT_LOAD /\
  seg = ElfSeg (p_vaddr p) (p_vaddr p + p_memsz p) (p_offset p) (negb (Z.land (p_flags p) PF_X =? 0)).

(** The executable mappings of the library in the process. *)
Definition mapped_seg (path : list Z) (ls : list map_line) (seg : elf_seg) : Prop := exists l, l ∈ ls /\
  skip_blank (l_rest l) = path /\ nth 2 (l_mode l) 0 = 120 /\ seg = ElfSeg (l_start l) (l_end l) (l_off l) true.

Lemma load_segs_spec ps : forall segs, Forall phdr_ok ps ->
  match load_segs alloc_ok ps segs with
  | inl e => e = - ENOMEM /\ exists k, alloc_ok k = false
  | inr segs' => forall seg, seg ∈ segs' <-> seg ∈ segs \/ loaded_seg ps seg
  end.
Proof.
  induction ps as [|p ps IH]; intros segs Hps; cbn [load_segs].
  { intros seg. split; [by left|]. intros [?|(p & Hp & _)]; [done|by apply not_elem_of_nil in Hp]. }
  inversion Hps as [|? ? Hp Hps']; subst.
  assert (Hup : forall seg, loaded_seg (p :: ps) seg <->
    loaded_seg ps seg \/ p_type p = PT_LOAD /\ seg = elf_seg_of p).
  { intros seg. split.
    - intros (q & [->|Hq]%elem_of_cons & Ht & ->); [right; split; [done|by rewrite seg_of_phdr]|left; by exists q].
    - intros [(q & Hq & H)|[Ht ->]]; [exists q; split; [by right|done]|]. exists p. split; [by left|]. split; [done|by apply seg_of_phdr]. }
  destruct (Z.eqb_spec (p_type p) PT_LOAD) as [Ht|Ht]; cbn [negb].
  - destruct (alloc_ok _) eqn:Ea; cbn [negb]; [|split; [done|by eexists]]. specialize (IH (segs ++ [elf_seg_of p]) Hps').
    destruct (load_segs alloc_ok ps _); [done|]. intros seg. rewrite IH, Hup, elem_of_app, list_elem_of_singleton. tauto.
  - specialize (IH segs Hps'). destruct (load_segs alloc_ok ps segs); [done|]. intros seg. rewrite IH, Hup. tauto.
Qed.

Lemma load_lib_segs_spec path ls : forall segs, Forall line_ok ls -> exists r, load_lib_segs alloc_ok path ls segs = Some r /\
  match r with
  | inl e => e = - ENOMEM /\ exists k, alloc_ok k = false
  | inr segs' => forall seg, seg ∈ segs' <-> seg ∈ segs \/ mapped_seg path ls seg
  end.
Proof.
  induction ls as [|l ls IH]; intros segs Hls; cbn [load_lib_segs].
  { eexists. split; [done|]. intros seg. split; [by left|]. intros [?|(l & Hl & _)]; [done|by apply not_elem_of_nil in Hl]. }
  inversion Hls as [|? ? Hl Hls']; subst. destruct Hl as [-> Hl]. cbn [negb].
  assert (Hup : forall seg, mapped_seg path (l :: ls) seg <-> mapped_seg path ls seg \/
    skip_blank (l_rest l) = path /\ nth 2 (l_mode l) 0 = 120 /\ seg = ElfSeg (s64 (l_start l)) (s64 (l_end l)) (s64 (l_off l)) true).
  { rewrite !swrap_small by lia. intros seg. split.
    - intros (q & [->|Hq]%elem_of_cons & H); [by right|left; by exists q].
    - intros [(q & Hq & H)|H]; [exists q; split; [by right|done]|exists l; split; [by left|done]]. }
  destruct (Z.eqb_spec (strcmp (skip_blank (l_rest l)) path) 0) as [Hp%strcmp_eq|Hp]; cbn [negb].
  2: { destruct (IH segs Hls') as (r & -> & Hr). exists r. split; [done|]. destruct r; [done|]. intros seg. rewrite Hr, Hup.
       rewrite strcmp_eq in Hp. tauto. }
  destruct (Z.eqb_spec (nth 2 (l_mode l) 0) 120) as [Hx|Hx]; cbn [negb].
  2: { destruct (IH segs Hls') as (r & -> & Hr). exists r. split; [done|]. destruct r; [done|]. intros seg. rewrite Hr, Hup. tauto. }
  destruct (alloc_ok _) eqn:Ea; cbn [negb]; [|eexists; split; [done|split; [done|by eexists]]].
  destruct (IH (segs ++ [ElfSeg (s64 (l_start l)) (s64 (l_end l)) (s64 (l_off l)) true]) Hls') as (r & -> & Hr).
  exists r. split; [done|]. destruct r; [done|]. intros seg. rewrite Hr, Hup, elem_of_app, list_elem_of_singleton. tauto.
Qed.

#[local] Instance seg_le_trans : Transitive seg_le.
Proof. intros a b c. unfold seg_le. lia. Qed.
#[local] Instance seg_le_total : Total seg_le.
Proof. intros a b. unfold seg_le. lia. Qed.

Lemma sorted_elem segs seg : seg ∈ merge_sort seg_le segs <-> seg ∈ segs.
Proof. by rewrite (merge_sort_Permutation seg_le segs). Qed.

Definition file_segs_ok (elf : usdt_elf) : Prop := match phdrs elf with inr ps => Forall phdr_ok ps | inl _ => True end.
Definition map_lines_ok (maps : Z + list map_line) : Prop := match maps with inr ls => Forall line_ok ls | inl _ => True end.

(** Why the segments cannot be had. *)
Definition no_memory (e : Z) : Prop := e = - ENOMEM /\ exists k, alloc_ok k = false.

Lemma parse_elf_segs_spec elf : file_segs_ok elf ->
  match parse_elf_segs alloc_ok elf with
  | inl e => no_memory e \/ phdrs elf = inl e \/
      e = - ESRCH /\ exists ps, phdrs elf = inr ps /\ forall seg, ~ loaded_seg ps seg
  | inr segs => exists ps, phdrs elf = inr ps /\ Forall phdr_ok ps /\ forall seg, seg ∈ segs <-> loaded_seg ps seg
  end.
Proof.
  unfold file_segs_ok, parse_elf_segs. destruct (phdrs elf) as [e|ps]; [by right; left|]. intros Hps.
  pose proof (load_segs_spec ps [] Hps) as H. destruct (load_segs alloc_ok ps []) as [e|segs]; [by left|].
  assert (Hs : forall seg, seg ∈ segs <-> loaded_seg ps seg).
  { intros seg. rewrite H. split; [intros [Hn|?]; [by apply not_elem_of_nil in Hn|done]|by right]. }
  destruct segs as [|s segs].
  - right. right. split; [done|]. exists ps. split; [done|]. intros seg Hl%Hs. by apply not_elem_of_nil in Hl.
  - exists ps. split; [done|]. split; [done|]. intros seg. rewrite sorted_elem. apply Hs.
Qed.

Lemma parse_lib_segs_spec path maps : map_lines_ok maps -> exists r, parse_lib_segs alloc_ok path maps = Some r /\
  match r with
  | inl e => no_memory e \/ maps = inl e \/
      e = - ESRCH /\ exists ls, maps = inr ls /\ forall seg, ~ mapped_seg path ls seg
  | inr segs => segs <> [] /\ exists ls, maps = inr ls /\ Forall line_ok ls /\ forall seg, seg ∈ segs <-> mapped_seg path ls seg
  end.
Proof.
  unfold map_lines_ok, parse_lib_segs. destruct maps as [e|ls]; [eexists; split; [done|by right; left]|]. intros Hls.
  destruct (load_lib_segs_spec path ls [] Hls) as (r & -> & H). cbn [mbind option_bind]. eexists. split; [done|].
  destruct r as [e|segs]; [by left|].
  assert (Hs : forall seg, seg ∈ segs <-> mapped_seg path ls seg).
  { intros seg. rewrite H. split; [intros [Hn|?]; [by apply not_elem_of_nil in Hn|done]|by right]. }
  destruct segs as [|s segs].
  - right. right. split; [done|]. exists ls. split; [done|]. intros seg Hl%Hs. by apply not_elem_of_nil in Hl.
  - split.
    + intros E. pose proof (sorted_elem (s :: segs) s) as He. rewrite E in He. assert (Hn : s ∈ @nil elf_seg) by (apply He; by left).
      by apply not_elem_of_nil in Hn.
    + exists ls. split; [done|]. split; [done|]. intros seg. rewrite sorted_elem. apply Hs.
Qed.

Lemma loaded_seg_ok ps seg : Forall phdr_ok ps -> loaded_seg ps seg -> seg_ok seg.
Proof.
  intros Hps (p & Hp & _ & ->). rewrite Forall_forall in Hps. specialize (Hps p Hp). unfold phdr_ok, seg_ok in *. cbn. lia.
Qed.

Lemma mapped_seg_ok path ls seg : Forall line_ok ls -> mapped_seg path ls seg -> seg_ok seg.
Proof.
  intros Hls (l & Hl & _ & _ & ->). rewrite Forall_forall in Hls. specialize (Hls l Hl). unfold line_ok, seg_ok in *. cbn. lia.
Qed.

(** ** Addresses *)

(** Where the probe of a trace point at the (prelinked) address [ip] is: in an
    executable the file offset of its instruction, in a library [ip] itself,
    together with the address in the process if that is what identifies it. *)
Definition placed_at (env : request_env) (et ip abs rel : Z) : Prop :=
  if et =? ET_EXEC then
    exists ps seg, phdrs (env_elf env) = inr ps /\ loaded_seg ps seg /\ is_exec seg = true /\ inside seg ip /\
      abs = ip /\ rel = ip - seg_start seg + seg_offset seg
  else if env_has_bpf_cookie env then abs = ip /\ rel = ip
  else exists ls seg, env_maps env = inr ls /\ mapped_seg (env_path env) ls seg /\ inside_file seg ip /\
      rel = ip /\ abs = seg_start seg + (ip - seg_offset seg).

(** Where its semaphore is in the file. *)
Definition sema_at (env : request_env) (sema off : Z) : Prop :=
  if sema =? 0 then off = 0 else
  exists ps seg, phdrs (env_elf env) = inr ps /\ loaded_seg ps seg /\ is_exec seg = false /\ inside seg sema /\
    off = sema - seg_start seg + seg_offset seg.

(** Why the place of a probe cannot be had: in an executable, no segment holds
    the address, or one that is not executable; in a library whose process
    matters, there is no process, its mappings cannot be read, or none of those
    of the library holds the offset. *)
Definition unplaced (env : request_env) (et ip e : Z) : Prop :=
  if et =? ET_EXEC then
    e = - ESRCH /\ exists ps, phdrs (env_elf env) = inr ps /\
      ((forall seg, loaded_seg ps seg -> ~ inside seg ip) \/
       exists seg, loaded_seg ps seg /\ is_exec seg = false /\ inside seg ip)
  else env_has_bpf_cookie env = false /\
    (env_pid env < 0 /\ e = - ENOTSUP \/
     0 <= env_pid env /\
     (env_maps env = inl e \/
      e = - ESRCH /\ exists ls, env_maps env = inr ls /\
        forall seg, mapped_seg (env_path env) ls seg -> ~ inside_file seg ip)).

(** Why that of a semaphore cannot: the kernel does not support them, no
    segment holds the address, or an executable one. *)
Definition sema_unplaced (env : request_env) (sema e : Z) : Prop :=
  sema <> 0 /\
  (env_has_sema_refcnt env = false /\ e = - ENOTSUP \/
   e = - ESRCH /\ exists ps, phdrs (env_elf env) = inr ps /\
     ((forall seg, loaded_seg ps seg -> ~ inside seg sema) \/
      exists seg, loaded_seg ps seg /\ is_exec seg = true /\ inside seg sema)).

(** The segments of the library read so far are the mapped ones. *)
Definition lib_ok (env : request_env) (lib_segs : list elf_seg) : Prop := lib_segs = [] \/
  exists ls, env_maps env = inr ls /\ Forall line_ok ls /\ forall seg, seg ∈ lib_segs <-> mapped_seg (env_path env) ls seg.

Context (env : request_env) (segs : list elf_seg) (ps : list phdr).
Context (Hps : phdrs (env_elf env) = inr ps) (Hpsok : Forall phdr_ok ps) (Hsegs : forall seg, seg ∈ segs <-> loaded_seg ps seg).
Context (Hmaps : map_lines_ok (env_maps env)).

Lemma segs_ok : Forall seg_ok segs.
Proof using Hpsok Hsegs. apply Forall_forall. intros seg H. eapply loaded_seg_ok; [done|by apply Hsegs]. Qed.

Lemma probe_ips_spec lib_segs et ip : lib_ok env lib_segs -> is_long ip -> exists r, probe_ips alloc_ok env segs lib_segs et ip = Some r /\
  match r with
  | inl e => no_memory e \/ unplaced env et ip e
  | inr (abs, rel, lib_segs') => placed_at env et ip abs rel /\ lib_ok env lib_segs'
  end.
Proof using Hps Hpsok Hsegs Hmaps.
  intros Hlib Hip. unfold probe_ips, placed_at, unplaced. destruct (Z.eqb_spec et ET_EXEC).
  - destruct (find_elf_seg_spec segs ip false segs_ok) as (r & -> & Hr). cbn [mbind option_bind]. destruct r as [seg|].
    2: { eexists. split; [done|]. right. split; [done|]. exists ps. split; [done|]. left. intros seg Hl. by apply Hr, Hsegs. }
    destruct Hr as [Hin Hi]. pose proof (proj1 (Hsegs _) Hin) as Hl. destruct (is_exec seg) eqn:Ex; cbn [negb].
    2: { eexists. split; [done|]. right. split; [done|]. exists ps. split; [done|]. right. by exists seg. }
    pose proof (loaded_seg_ok _ _ Hpsok Hl) as Hok. unfold seg_ok, inside, is_long in *.
    rewrite long_of_in by (unfold is_long; lia). cbn [mbind option_bind]. rewrite long_of_in by (unfold is_long; lia). cbn [mbind option_bind].
    eexists. split; [done|]. split; [|done]. exists ps, seg. split_and!; try done; lia.
  - destruct (env_has_bpf_cookie env) eqn:Eck; cbn [negb]; [by eexists|].
    destruct (Z.ltb_spec (env_pid env) 0) as [Hpid|Hpid]; [eexists; split; [done|]; right; split; [done|by left]|].
    assert (Hr : exists r, (match lib_segs with [] => parse_lib_segs alloc_ok (env_path env) (env_maps env) | _ => Some (inr lib_segs) end) = Some r /\
      match r with
      | inl e => no_memory e \/ env_maps env = inl e \/
          e = - ESRCH /\ exists ls, env_maps env = inr ls /\ forall seg, ~ mapped_seg (env_path env) ls seg
      | inr segs' => lib_ok env segs' /\ exists ls, env_maps env = inr ls /\ Forall line_ok ls /\
          forall seg, seg ∈ segs' <-> mapped_seg (env_path env) ls seg
      end).
    { destruct lib_segs as [|s0 lib].
      - destruct (parse_lib_segs_spec (env_path env) (env_maps env) Hmaps) as (r & -> & H). exists r. split; [done|].
        destruct r as [e|lib]; [done|]. destruct H as (_ & ls & H). split; [by right; exists ls|by exists ls].
      - eexists. split; [done|]. destruct Hlib as [?|(ls & H)]; [done|]. split; [by right; exists ls|by exists ls]. }
    destruct Hr as (r & -> & Hr). cbn [mbind option_bind]. destruct r as [e|lib'].
    { eexists. split; [done|]. destruct Hr as [H|[H|(He & ls & H1 & H2)]]; [by left|right..]; (split; [done|]); right; (split; [done|]);
        [by left|]. right. split; [done|]. exists ls. split; [done|]. intros seg Hm. by destruct (H2 seg). }
    destruct Hr as (Hlib' & ls & Hm & Hlsok & Hls).
    destruct (find_elf_seg_spec lib' ip true) as (r & -> & Hr); [apply Forall_forall; intros seg H; eapply mapped_seg_ok; [done|by apply Hls]|].
    cbn [mbind option_bind]. destruct r as [seg|].
    2: { eexists. split; [done|]. right. split; [done|]. right. split; [done|]. right. split; [done|]. exists ls. split; [done|].
         intros seg Hl. by apply Hr, Hls. }
    destruct Hr as [Hin Hi].
    pose proof (mapped_seg_ok _ _ _ Hlsok (proj1 (Hls _) Hin)) as Hok. unfold seg_ok, inside_file, is_long in *.
    rewrite long_of_in by (unfold is_long; lia). cbn [mbind option_bind]. rewrite long_of_in by (unfold is_long; lia). cbn [mbind option_bind].
    eexists. split; [done|]. split; [|done]. exists ls, seg. split_and!; try done; try lia. by apply Hls.
Qed.

Lemma sema_offset_spec sema : is_long sema -> exists r, sema_offset env segs sema = Some r /\
  match r with inl e => sema_unplaced env sema e | inr off => sema_at env sema off end.
Proof using Hps Hpsok Hsegs.
  intros Hs. unfold sema_offset, sema_at, sema_unplaced. destruct (Z.eqb_spec sema 0); [by eexists|].
  destruct (env_has_sema_refcnt env); cbn [negb]; [|eexists; split; [done|]; split; [done|by left]].
  destruct (find_elf_seg_spec segs sema false segs_ok) as (r & -> & Hr). cbn [mbind option_bind]. destruct r as [seg|].
  2: { eexists. split; [done|]. split; [done|]. right. split; [done|]. exists ps. split; [done|]. left. intros seg Hl. by apply Hr, Hsegs. }
  destruct Hr as [Hin Hi]. pose proof (proj1 (Hsegs _) Hin) as Hl. destruct (is_exec seg) eqn:Ex.
  { eexists. split; [done|]. split; [done|]. right. split; [done|]. exists ps. split; [done|]. right. by exists seg. }
  pose proof (loaded_seg_ok _ _ Hpsok Hl) as Hok. unfold seg_ok, inside, is_long in *.
  rewrite long_of_in by (unfold is_long; lia). cbn [mbind option_bind]. rewrite long_of_in by (unfold is_long; lia). cbn [mbind option_bind].
  eexists. split; [done|]. exists ps, seg. split_and!; try done; lia.
Qed.

(** ** The notes of a file *)

Definition asked_for (nt : note_text) : bool :=
  (strcmp (nt_provider nt) (env_provider env) =? 0) && (strcmp (nt_name nt) (env_name env) =? 0).

(** The prelinked address of the probe. *)
Definition probe_address (base_addr : Z) (nt : note_text) : Z :=
  nt_loc nt + (if base_addr =? 0 then 0 else base_addr - nt_base nt).

Definition target_of (base_addr et : Z) (nt : note_text) (t : usdt_target) : Prop :=
  placed_at env et (probe_address base_addr nt) (abs_ip t) (rel_ip t) /\ sema_at env (nt_sema nt) (sema_off t) /\
  spec_str t = args_text nt /\ parse_usdt_spec spec0 (args_text nt) (env_cookie env) = Some (0, t_spec t).

(** Why the notes [nts] cannot be collected. *)
Definition failed_with (base_addr et : Z) (nts : list note_text) (e : Z) : Prop :=
  no_memory e \/ phdrs (env_elf env) = inl e \/
  e = - ESRCH /\ (exists ps, phdrs (env_elf env) = inr ps /\ forall seg, ~ loaded_seg ps seg) \/
  exists nt, nt ∈ filter asked_for nts /\
    (unplaced env et (probe_address base_addr nt) e \/ sema_unplaced env (nt_sema nt) e).

Lemma failed_with_next base_addr et nt nts e : failed_with base_addr et nts e -> failed_with base_addr et (nt :: nts) e.
Proof using Type.
  intros [H|[H|[H|(t & Ht & H)]]]; [by left|by right; left|by right; right; left|]. right. right. right.
  exists t. split; [|done]. rewrite list_elem_of_filter in Ht |- *. destruct Ht. split; [done|by right].
Qed.

(** A note with addresses within 61 bits, and arguments that can be parsed if
    it is asked for. *)
Definition good_note (nt : note_text) : Prop := note_ok nt /\ - 2 ^ 61 <= nt_loc nt < 2 ^ 61 /\ - 2 ^ 61 <= nt_base nt < 2 ^ 61 /\
  (asked_for nt = true -> exists spec, parse_usdt_spec spec0 (args_text nt) (env_cookie env) = Some (0, spec)).

Lemma prelinked_spec base_addr nt a : 0 <= base_addr < 2 ^ 61 -> good_note nt ->
  prelinked base_addr (Note (nt_provider nt) (nt_name nt) a (nt_loc nt) (nt_base nt) (nt_sema nt)) = Some (probe_address base_addr nt) /\
  is_long (probe_address base_addr nt).
Proof using Type.
  intros Hb (_ & Hl & Hn & _). unfold prelinked, probe_address, is_long. cbn [loc_addr note_base].
  destruct (Z.eqb_spec base_addr 0); [split; [f_equal; lia|lia]|]. rewrite long_of_in by (unfold is_long; lia). cbn [mbind option_bind].
  rewrite long_of_in by (unfold is_long; lia). split; [done|lia].
Qed.

Lemma collect_notes_spec data base_addr et entries nts : Forall2 (noted data) entries nts -> Forall good_note nts -> 0 <= base_addr < 2 ^ 61 ->
  forall lib_segs acc, lib_ok env lib_segs -> exists r, collect_notes alloc_ok env data base_addr et segs entries lib_segs acc = Some r /\
  match r with
  | inl e => failed_with base_addr et nts e
  | inr ts => exists ts', ts = acc ++ ts' /\ Forall2 (target_of base_addr et) (filter asked_for nts) ts'
  end.
Proof using Hps Hpsok Hsegs Hmaps.
  intros HF Hgood Hbase. induction HF as [|[[h no] do_] nt entries nts Hnt HF IH]; intros lib_segs acc Hlib; cbn [collect_notes].
  { eexists. split; [done|]. exists []. by rewrite app_nil_r. }
  inversion Hgood as [|? ? Hg Hgood']; subst. specialize (IH Hgood'). assert (Hok := Hg). destruct Hok as (Hok & _ & _ & Hspec).
  destruct (parse_note_noted data h no do_ nt Hok Hnt) as (a & -> & Ha). cbn [mbind option_bind provider name sema_addr note_args].
  assert (Hask : asked_for nt = negb (negb (strcmp (nt_provider nt) (env_provider env) =? 0) || negb (strcmp (nt_name nt) (env_name env) =? 0)))
    by (unfold asked_for; by rewrite negb_orb, !negb_involutive).
  destruct (negb (strcmp (nt_provider nt) (env_provider env) =? 0) || negb (strcmp (nt_name nt) (env_name env) =? 0)); cbn in Hask.
  { rewrite filter_cons_False by (rewrite Hask; intros []). destruct (IH lib_segs acc Hlib) as (r & -> & Hr). exists r. split; [done|].
    destruct r; [by apply failed_with_next|done]. }
  assert (Hfail : forall e, unplaced env et (probe_address base_addr nt) e \/ sema_unplaced env (nt_sema nt) e ->
    failed_with base_addr et (nt :: nts) e).
  { intros e He. right. right. right. exists nt. split; [|done]. rewrite list_elem_of_filter, Hask. split; [done|by left]. }
  rewrite filter_cons_True by (by rewrite Hask). destruct (Hspec Hask) as (spec & Hs).
  destruct (prelinked_spec base_addr nt a Hbase Hg) as [-> Hip]. cbn [mbind option_bind].
  destruct (probe_ips_spec lib_segs et _ Hlib Hip) as (r & -> & Hr). cbn [mbind option_bind]. destruct r as [e|[[abs rel] lib']].
  { eexists. split; [done|]. destruct Hr as [H|H]; [by left|]. apply Hfail. by left. }
  destruct Hr as [Hplace Hlib']. destruct Hok as [_ _ (_ & _ & Hsl)].
  destruct (sema_offset_spec (nt_sema nt) Hsl) as (r & -> & Hr). cbn [mbind option_bind]. destruct r as [e|off].
  { eexists. split; [done|]. apply Hfail. by right. }
  destruct (alloc_ok _) eqn:Ea; cbn [negb]; [|eexists; split; [done|left; split; [done|by eexists]]].
  rewrite Ha. cbn [mbind option_bind]. rewrite Hs. cbn [mbind option_bind Z.eqb negb].
  destruct (IH lib' (acc ++ [Target abs rel off spec (args_text nt)]) Hlib') as (r & -> & Hres). eexists. split; [done|].
  destruct r as [e|ts]; [by apply failed_with_next|]. destruct Hres as (ts' & -> & HF2). eexists. split; [by rewrite <- app_assoc|]. constructor; [|done]. by split_and!.
Qed.
End Spec.


(** ** Example

    An executable with the notes of two trace points; one has a semaphore. *)

Definition ex_note1 : note_text := NoteText (lit "libc") (lit "setjmp") (lit "8@%rdi -4@%esi") 4198406 0 0.
Definition ex_note2 : note_text := NoteText (lit "app") (lit "start") (lit "-4@-20(%rbp)") 4198500 0 6295600.

Definition ex_note_bytes (nt : note_text) : list Z := repeat 0 12 ++ lit "stapsdt" ++ 0 :: descriptor nt.

Definition ex_data : list Z := ex_note_bytes ex_note1 ++ ex_note_bytes ex_note2.

Definition ex_nhdr (nt : note_text) : nhdr := Nhdr 8 (Z.of_nat (length (descriptor nt))) 3.

Definition ex_entries : list (nhdr * Z * Z) :=
  [(ex_nhdr ex_note1, 12, 20);
   (ex_nhdr ex_note2, Z.of_nat (length (ex_note_bytes ex_note1)) + 12, Z.of_nat (length (ex_note_bytes ex_note1)) + 20)].

Definition ex_elf : usdt_elf := UsdtElf (inr (SHT_NOTE, ex_data, ex_entries)) (Some ET_EXEC)
  (inr [Phdr 1 6 4096 6295552 256; Phdr 1 5 0 4194304 8192]) None.

Definition ex_env : request_env := Env ex_elf 77 (lit "/bin/app") (inr []) (lit "app") (lit "start") 5 false true.

Fact ex_target_found : (r ← collect_usdt_targets (fun _ => true) ex_env;
    Some (match r with inr ts => map (fun t => (abs_ip t, rel_ip t, sema_off t, arg_cnt (t_spec t))) ts | inl _ => [] end)) =
  Some [(4198500, 4196, 4144, 1)].
Proof. vm_compute. reflexivity. Qed.


(** After prelink has moved the program by 4096 the probe is found where it is
    now, and its semaphore is looked for where it was. *)
Fact semaphore_not_prelinked :
  let moved := UsdtElf (notes_sec ex_elf) (Some ET_EXEC) (inr [Phdr 1 6 4096 6299648 256; Phdr 1 5 0 4198400 8192]) (Some 5000) in
  let note := NoteText (lit "app") (lit "start") (lit "-4@-20(%rbp)") 4198500 904 6295600 in
  let elf := UsdtElf (inr (SHT_NOTE, ex_note_bytes note, [(ex_nhdr note, 12, 20)])) (e_type moved) (phdrs moved) (base_sec moved) in
  let env ps := Env (UsdtElf (notes_sec elf) (e_type elf) ps (base_sec elf)) 77 (lit "/bin/app") (inr []) (lit "app") (lit "start") 5 false true in
  collect_usdt_targets (fun _ => true) (env (phdrs moved)) = Some (inl (- ESRCH)) /\
  (r ← collect_usdt_targets (fun _ => true) (env (inr [Phdr 1 6 4096 6295552 8192; Phdr 1 5 0 4198400 8192]));
   Some (match r with inr ts => map (fun t => (abs_ip t, sema_off t)) ts | inl _ => [] end)) = Some [(4202596, 4144)].
Proof. vm_compute. split; reflexivity. Qed.

(** The text of the arguments is not checked to end inside the note: this one
    runs on to the end of the data, and past it. *)
Fact arguments_not_terminated :
  let bytes := ex_note_bytes ex_note2 in
  let data := take (length bytes - 1) bytes in
  let elf := UsdtElf (inr (SHT_NOTE, data, [(Nhdr 8 (Z.of_nat (length (descriptor ex_note2)) - 1) 3, 12, 20)])) (Some ET_EXEC) (phdrs ex_elf) None in
  collect_usdt_targets (fun _ => true) (Env elf 77 (lit "/bin/app") (inr []) (lit "app") (lit "start") 5 false true) = None.
Proof. vm_compute. reflexivity. Qed.
