(* ===== verification/RingLive.v ===== *)
(** * The ring buffer's consumer makes progress

    [RingBuf] shows that what the consumer delivers is right at every moment.
    Here it is shown that it gets there: whatever the producer does in between,
    a bounded number of the consumer's own steps delivers every record that is
    finished now and has no unfinished record before it. *)

From S2P Require Import Prelude RingBuf.

Section Live.
Context (sample_cb : list (list Z) -> list Z -> Z) (Hcb : forall h x, 0 <= sample_cb h x).

(** What only the consumer changes. *)
Definition local (s : conf) : cpc * Z * list (list Z) := (c_pc s, c_cons s, c_dl s).

Definition consumer_step (s s' : conf) : Prop := step sample_cb s s' /\ local s' <> local s.

(** Any interleaving in which the consumer takes [n] steps. *)
Inductive run : nat -> conf -> conf -> Prop :=
  | run_none s : run 0 s s
  | run_producer n s s1 s2 : run n s s1 -> step sample_cb s1 s2 -> run n s s2
  | run_consumer n s s1 s2 : run n s s1 -> consumer_step s1 s2 -> run (S n) s s2.

(** The log when [k] records, all finished, come first. *)
Definition finished_upto (k : nat) (s : conf) : Prop :=
  (k <= length (c_log s))%nat /\ Forall (fun r => rec_state_of r <> RecBusy) (take k (c_log s)).

(** The consumer's steps up to the next record. *)
Definition need (s : conf) : nat :=
  match c_pc s with
  | AtInner => if c_cons s <? c_prod s then 1 else 4
  | AtOuter => 2
  | Returned _ => 3
  end.

(** And up to record [k], [k'] being consumed. *)
Definition distance (k k' : nat) (s : conf) : nat := if Nat.ltb k' k then 4 * (k - k' - 1) + need s else 0.

Lemma need_bound s : (1 <= need s <= 4)%nat.
Proof. unfold need. destruct (c_pc s); try lia. destruct (c_cons s <? c_prod s); lia. Qed.

(** The log of a later moment starts with the same finished records. *)
Lemma finished_evolves k s rg' log' : producer_step (c_ring s) rg' (c_log s) log' -> finished_upto k s ->
  (k <= length log')%nat /\ take k log' = take k (c_log s).
Proof using Type.
  intros (_ & _ & (old & new & -> & Hev) & _) [Hk Hf]. pose proof (Forall2_length _ _ _ Hev) as Hl. rewrite length_app.
  split; [lia|]. rewrite take_app_le by lia. by apply evolves_done.
Qed.

(** Any step keeps the finished records, and what is consumed. *)
Lemma step_keeps k k' s s' : agree s k' -> finished_upto k s -> step sample_cb s s' ->
  finished_upto k s' /\ take k (c_log s') = take k (c_log s).
Proof using Type.
  intros Ha Hf Hs. destruct Hs as [s rg' log' Hps| | | | | |]; try done.
  destruct (finished_evolves k s rg' log' Hps Hf) as [Hl Ht]. split; [|done]. split; [done|]. cbn. rewrite Ht. apply Hf.
Qed.

(** The consumer's steps still needed before and after a step. *)
Ltac needs Hpc a b :=
  match goal with |- context [need (upd ?s0 ?x ?y ?z ?u ?v ?w ?t)] =>
    let Ha := fresh in let Hb := fresh in
    assert (Ha : (need s0 = a)%nat) by (unfold need; rewrite Hpc; repeat case_match; zbool; lia);
    assert (Hb : (need (upd s0 x y z u v w t) <= b)%nat) by (unfold need; cbn; repeat case_match; zbool; lia)
  end.

(** Progress: a step of the consumer brings it closer, one of the producer
    leaves it where it is. *)
Lemma step_progress k k' s s' : agree s k' -> finished_upto k s -> step sample_cb s s' -> exists k'', agree s' k'' /\
  (distance k k'' s' <= distance k k' s)%nat /\ (local s' <> local s -> (k' < k)%nat -> (distance k k'' s' < distance k k' s)%nat).
Proof using Hcb.
  intros Ha [Hk Hf] Hs.
  assert (Hrec : forall r, c_log s !! k' = Some r -> (k' < k)%nat -> rec_state_of r <> RecBusy).
  { intros r Hr Hlt. rewrite Forall_lookup in Hf. apply (Hf k'). by rewrite lookup_take_lt. }
  assert (Hprod : (k' < k)%nat -> c_pc s <> AtInner -> match c_pc s with Returned _ => True | _ => c_cons s < producer_pos (c_ring s) end).
  { destruct Ha as (Hk' & Hc & _ & _ & _ & Hp & _ & _ & Hcons). intros Hlt Hpc. destruct (c_pc s); [|done|done]. rewrite Hcons, Hc, Hp.
    destruct (lookup_lt_is_Some_2 (c_log s) k' ltac:(lia)) as [r Hr].
    pose proof (total_take_mono (c_log s) (S k') (length (c_log s)) ltac:(apply lookup_lt_Some in Hr; lia)) as Hm.
    rewrite firstn_all, (total_take_S _ _ _ Hr) in Hm. pose proof (rec_tot_bounds r). unfold rec_len in *. lia. }
  unfold distance. destruct (agree_step sample_cb s s' k' Ha Hs) as [k0 Hk0].
  destruct Hs as [s rg' log' Hps|s ret Hpc|s Hpc|s Hpc Hge|s Hpc Hlt Hrd|s pos Hpc Hlt Hrd|s pos x Hpc Hlt Hrd].
  - exists k'. split; [by apply agree_env|]. split; [done|]. by intros [].
  - exists k'. split.
    { destruct Ha as (H1 & H2 & H3 & H4 & H5 & H6 & H7 & H8 & _). split_and!; try done. by left. }
    needs Hpc 3%nat 2%nat. destruct (Nat.ltb_spec k' k); lia.
  - exists k'. split.
    { destruct Ha as (H1 & H2 & H3 & H4 & H5 & H6 & H7 & H8 & H9). rewrite Hpc in H9. split_and!; try done. right. exists (length (c_log s)).
      cbn. split; [done|]. by rewrite firstn_all. }
    destruct (Nat.ltb_spec k' k) as [Hkk|]; [|lia]. specialize (Hprod Hkk). rewrite Hpc in Hprod. specialize (Hprod ltac:(done)).
    needs Hpc 2%nat 1%nat. lia.
  - exists k'. split.
    { destruct Ha as (H1 & H2 & H3 & H4 & H5 & H6 & H7 & H8 & H9). rewrite Hpc in H9. split_and!; try done; cbn; destruct (c_got s); try done; by left. }
    needs Hpc 4%nat 3%nat. destruct (Nat.ltb_spec k' k); lia.
  - exists k'. split.
    { destruct Ha as (H1 & H2 & H3 & H4 & H5 & H6 & H7 & H8 & H9). split_and!; try done. by left. }
    destruct (agree_record s k' Ha Hpc Hlt) as (r & Hr & Hrr & _). rewrite Hrd in Hrr.
    destruct (Nat.ltb_spec k' k) as [Hkk|Hkk]; [|lia]. specialize (Hrec r Hr Hkk). by destruct (rec_state_of r).
  - destruct (agree_record s k' Ha Hpc Hlt) as (r & Hr & Hrr & Hh'). rewrite Hrd in Hrr.
    destruct (rec_state_of r) eqn:Es; [done|done|]. injection Hrr as ->. exists (S k'). split.
    { apply (agree_consume s k' r); try done; [congruence|]. destruct Ha as (_ & _ & _ & Hdl & _). rewrite (samples_take_S _ _ _ Hr), Es, app_nil_r. done. }
    match goal with |- context [need (upd ?a ?b ?c ?d ?e ?f ?g ?h)] => pose proof (need_bound (upd a b c d e f g h)) end. pose proof (need_bound s).
    destruct (Nat.ltb_spec (S k') k), (Nat.ltb_spec k' k); lia.
  - destruct (agree_record s k' Ha Hpc Hlt) as (r & Hr & Hrr & Hh'). rewrite Hrd in Hrr.
    destruct (rec_state_of r) eqn:Es; [done| |done]. injection Hrr as -> ->. exists (S k'). split.
    { apply (agree_consume s k' r); try done; [congruence|]. destruct Ha as (_ & _ & _ & Hdl & _). by rewrite (samples_take_S _ _ _ Hr), Es, Hdl. }
    match goal with |- context [need (upd ?a ?b ?c ?d ?e ?f ?g ?h)] => pose proof (need_bound (upd a b c d e f g h)) end. pose proof (need_bound s).
    destruct (Nat.ltb_spec (S k') k), (Nat.ltb_spec k' k); lia.
Qed.

(** The consumer is never stuck. *)
Lemma consumer_enabled s k : agree s k -> exists s', consumer_step s s'.
Proof using Type.
  intros Ha. destruct (c_pc s) as [| |ret] eqn:Hpc.
  - eexists. split; [by apply step_outer|]. unfold local. cbn. rewrite Hpc. by intros [=].
  - destruct (Z.ltb_spec (c_cons s) (c_prod s)) as [Hlt|Hge].
    + destruct (agree_record s k Ha Hpc Hlt) as (r & Hr & Hrr & _). destruct (rec_state_of r).
      * eexists. split; [by apply step_busy|]. unfold local. cbn. rewrite Hpc. by intros [=].
      * eexists. split; [by eapply step_deliver|]. unfold local. cbn. intros [= _ _ E]. apply (f_equal length) in E. rewrite length_app in E. cbn in E. lia.
      * eexists. split; [by eapply step_skip|]. unfold local. cbn. intros [= _ E]. destruct Ha as (_ & Hc & _ & _ & _ & _ & _ & _ & Hcons).
        rewrite Hpc in Hcons. rewrite (total_take_S _ _ _ Hr) in E. pose proof (rec_tot_bounds r). unfold rec_len in *. lia.
    + eexists. split; [by apply step_caught_up|]. unfold local. cbn. rewrite Hpc. destruct (c_got s); by intros [=].
  - eexists. split; [by eapply step_call|]. unfold local. cbn. rewrite Hpc. by intros [=].
Qed.

Lemma consumer_run_spec k n s s' : run n s s' -> forall k', agree s k' -> finished_upto k s -> exists k'', agree s' k'' /\
  finished_upto k s' /\ take k (c_log s') = take k (c_log s) /\ (distance k k'' s' <= distance k k' s - n)%nat.
Proof using Hcb.
  induction 1 as [s|n s s1 s2 Hr IH Hs|n s s1 s2 Hr IH [Hs Hl]]; intros k' Ha Hf.
  - exists k'. split_and!; try done. lia.
  - destruct (IH k' Ha Hf) as (k1 & Ha1 & Hf1 & Ht1 & Hd1). destruct (step_keeps k k1 s1 s2 Ha1 Hf1 Hs) as [Hf2 Ht2].
    destruct (step_progress k k1 s1 s2 Ha1 Hf1 Hs) as (k2 & Ha2 & Hd2 & _). exists k2. split_and!; try done; [congruence|lia].
  - destruct (IH k' Ha Hf) as (k1 & Ha1 & Hf1 & Ht1 & Hd1). destruct (step_keeps k k1 s1 s2 Ha1 Hf1 Hs) as [Hf2 Ht2].
    destruct (step_progress k k1 s1 s2 Ha1 Hf1 Hs) as (k2 & Ha2 & Hd2 & Hd3). exists k2. split_and!; try done; [congruence|].
    specialize (Hd3 Hl). destruct (Nat.ltb_spec k1 k) as [Hlt|Hge]; [lia|]. unfold distance in *.
    destruct (Nat.ltb_spec k1 k); [lia|]. lia.
Qed.

Lemma samples_prefix l i j : (i <= j)%nat -> samples (take i l) `prefix_of` samples (take j l).
Proof.
  intros H. exists (samples (drop i (take j l))). unfold samples. rewrite <- omap_app. f_equal.
  rewrite <- (take_drop i (take j l)) at 1. rewrite take_take. by replace (i `min` j)%nat with i by lia.
Qed.

(** C8: every finished record is delivered in the end.  At any moment of any
    interleaving with the producer the consumer can take a step; and for the
    first [k] records of the log, if they are all finished now, [4 k] steps of
    the consumer, the producer doing what it likes in between, bring the
    consumer position behind them and deliver their samples, unless the
    callback fails. *)
Theorem ring_delivers_eventually s0 s : agree s0 0 -> reachable sample_cb s0 s ->
  (exists s', consumer_step s s') /\
  forall k n s', finished_upto k s -> run n s s' -> (4 * k <= n)%nat ->
    total (take k (c_log s)) <= consumer_pos (c_ring s') /\ samples (take k (c_log s)) `prefix_of` c_dl s'.
Proof using Hcb.
  intros H0 Hr. assert (exists k, agree s k) as [k' Hk'].
  { induction Hr as [s|s s1 s2 _ IH Hs]; [by exists 0%nat|]. destruct (IH H0) as [k Hk]. by eapply agree_step. }
  split; [by eapply consumer_enabled|]. intros k n s' Hf Hrun Hn.
  destruct (consumer_run_spec k n s s' Hrun k' Hk' Hf) as (k2 & Ha & _ & Ht & Hd).
  assert (Hkk : (k <= k2)%nat).
  { pose proof (need_bound s). pose proof (need_bound s'). unfold distance in Hd. destruct (Nat.ltb_spec k' k), (Nat.ltb_spec k2 k); lia. }
  destruct Ha as (_ & Hc & _ & Hdl & _). rewrite Hc, Hdl, <- Ht. split; [by apply total_take_mono|by apply samples_prefix].
Qed.
End Live.

(** ** Example

    The ring of [RingBuf] with a committed, a discarded and an unfinished
    record: two records are finished. *)

Lemma ring_delivers_eventually_witness : finished_upto 2 ex_conf /\
  (exists s', consumer_step (fun _ _ => 0) ex_conf s') /\
  (forall n s', run (fun _ _ => 0) n ex_conf s' -> (8 <= n)%nat -> 32 <= consumer_pos (c_ring s') /\ [[1; 2; 3]] `prefix_of` c_dl s').
Proof.
  assert (Hf : finished_upto 2 ex_conf) by (split; [cbn; lia|repeat constructor; discriminate]).
  destruct (ring_delivers_eventually (fun _ _ => 0) ltac:(lia) ex_conf ex_conf) as [H1 H2]; [exact ex_agree|apply reach_refl|].
  split; [exact Hf|]. split; [exact H1|]. intros n s' Hr Hn. apply (H2 2%nat n s' Hf Hr). lia.
Defined.
