(* ===== verification/Kconfig.v ===== *)
(** * Kernel configuration values for programs: .kconfig externs
    (src/plugin/libbpf-test/libbpf/src/libbpf.c)

    A program declares the configuration options it wants to know as
    external variables.  libbpf reads the kernel's configuration line by
    line and stores the value of every option that is wanted in the memory
    of a map: a tristate, a string or a number, as the type of the variable
    asks.

    A line is read into a buffer of PATH_MAX bytes that is used again for the
    next line, so the buffer is part of the state: what an earlier line left
    behind its end is still there.  The memory of the map is a byte memory;
    the pointer [ext_val] is an offset in it.  Files are the bytes they hold,
    opening them is an argument. *)

From S2P Require Import Prelude CString StrSet Btf CoreTypes.

Abbreviation ENAMETOOLONG := 36 (only parsing).
Abbreviation PATH_MAX := 4096 (only parsing).

(** ** External variables *)

Inductive kcfg_type :=
  | KCFG_UNKNOWN | KCFG_CHAR | KCFG_BOOL | KCFG_INT | KCFG_TRISTATE | KCFG_CHAR_ARR.

#[export] Instance kcfg_type_eq_dec : EqDecision kcfg_type.
Proof. solve_decision. Defined.

Definition kcfg_type_of (v : Z) : kcfg_type :=
  match v with
  | 1 => KCFG_CHAR | 2 => KCFG_BOOL | 3 => KCFG_INT | 4 => KCFG_TRISTATE | 5 => KCFG_CHAR_ARR
  | _ => KCFG_UNKNOWN
  end.

Record kcfg := Kcfg {
  kc_type : kcfg_type; kc_sz : Z; kc_align : Z; kc_data_off : Z; kc_is_signed : bool }.

Record ksym := Ksym {
  ks_addr : Z; ks_kernel_btf_obj_fd : Z; ks_kernel_btf_id : Z; ks_type_id : Z; ks_btf_fd_idx : Z }.

(** The type and the member of the union that belongs to it. *)
Inductive ext_union := EXT_UNKNOWN | EXT_KCFG (k : kcfg) | EXT_KSYM (s : ksym).

Record extern_desc := {
  x_sym_idx : Z; x_btf_id : Z; x_sec_btf_id : Z; x_name : list Z;
  x_is_set : bool; x_is_weak : bool; x_u : ext_union }.

(** [ext->kcfg], which the code also reads of a symbol: the bytes of the
    other member of the union. *)
Definition ext_kcfg (x : extern_desc) : kcfg :=
  match x_u x with
  | EXT_UNKNOWN => Kcfg KCFG_UNKNOWN 0 0 0 false
  | EXT_KCFG k => k
  | EXT_KSYM s =>
      Kcfg (kcfg_type_of (u32 (ks_addr s))) (s32 (ks_addr s / 2 ^ 32)) (ks_kernel_btf_obj_fd s)
        (ks_kernel_btf_id s) (negb (u8 (ks_type_id s) =? 0))
  end.

Definition set_ext (x : extern_desc) : extern_desc :=
  {| x_sym_idx := x_sym_idx x; x_btf_id := x_btf_id x; x_sec_btf_id := x_sec_btf_id x;
     x_name := x_name x; x_is_set := true; x_is_weak := x_is_weak x; x_u := x_u x |}.

(** The index of the external variable; [None] is NULL. *)
Fixpoint find_extern_by_name (xs : list extern_desc) (name : list Z) : option nat :=
  match xs with
  | [] => None
  | x :: xs => if strcmp (x_name x) name =? 0 then Some 0%nat else S <$> find_extern_by_name xs name
  end.

(** The type of configuration value a variable of type [id] takes, and
    whether it is signed; the recursion for the elements of an array is as
    deep as arrays are nested. *)
Fixpoint find_kcfg_type (fuel : nat) (b : btf) (id : Z) : option (kcfg_type * bool) :=
  match fuel with
  | O => None
  | S fuel =>
      '(t, _) ← skip_mods_and_typedefs b id;
      off ← t_name_off t;
      name ← name_at b off;
      let tristate (n : list Z) :=
        if negb (strcmp n (lit "libbpf_tristate") =? 0) then KCFG_UNKNOWN else KCFG_TRISTATE in
      k ← btf_kind t;
      match kind_of k with
      | KIND_INT =>
          enc ← btf_int_encoding t; size ← t_size t;
          if negb (Z.land enc 4 =? 0)
          then Some (if size =? 1 then KCFG_BOOL else KCFG_UNKNOWN, false)
          else
          Some (if size =? 1 then KCFG_CHAR
                else if (size <? 1) || (size >? 8) || negb (Z.land size (u32 (size - 1)) =? 0)
                then KCFG_UNKNOWN else KCFG_INT,
                negb (Z.land enc 1 =? 0))
      | KIND_ENUM =>
          size ← t_size t;
          if negb (size =? 4) then Some (KCFG_UNKNOWN, false)
          else n ← name; Some (tristate n, false)
      | KIND_ENUM64 => n ← name; Some (tristate n, false)
      | KIND_ARRAY =>
          n ← array_nelems t;
          if n =? 0 then Some (KCFG_UNKNOWN, false) else
          elem ← array_type t;
          '(ty, _) ← find_kcfg_type fuel b elem;
          Some (if negb (bool_decide (ty = KCFG_CHAR)) then KCFG_UNKNOWN else KCFG_CHAR_ARR, false)
      | _ => Some (KCFG_UNKNOWN, false)
      end
  end.

(** ** Storing a value

    Each function returns the error, the variable and the memory. *)

Definition TRI_NO : Z := 0.
Definition TRI_YES : Z := 1.
Definition TRI_MODULE : Z := 2.

Definition set_kcfg_value_tri (ext : extern_desc) (data : list Z) (ext_val value : Z)
    : option (Z * extern_desc * list Z) :=
  match kc_type (ext_kcfg ext) with
  | KCFG_BOOL =>
      if value =? 109 then Some (- EINVAL, ext, data) else
      data ← st8 data ext_val (bool_to_Z (value =? 121));
      Some (0, set_ext ext, data)
  | KCFG_TRISTATE =>
      let tri := if value =? 121 then TRI_YES else if value =? 109 then TRI_MODULE else TRI_NO in
      data ← st_bytes data ext_val (le32 tri);
      Some (0, set_ext ext, data)
  | KCFG_CHAR => data ← st8 data ext_val value; Some (0, set_ext ext, data)
  | KCFG_UNKNOWN | KCFG_INT | KCFG_CHAR_ARR => Some (- EINVAL, ext, data)
  end.

(** [value] is an offset in the buffer. *)
Definition set_kcfg_value_str (ext : extern_desc) (data : list Z) (ext_val : Z)
    (buf : list Z) (value : Z) : option (Z * extern_desc * list Z) :=
  if negb (bool_decide (kc_type (ext_kcfg ext) = KCFG_CHAR_ARR)) then Some (- EINVAL, ext, data) else
  s ← cstr buf value;
  let len := Z.of_nat (length s) in
  c ← ld8 buf (value + (len - 1));
  if negb (c =? 34) then Some (- EINVAL, ext, data) else
  (* strip quotes *)
  let len := u64 (len - 2) in
  let len := if len >=? u64 (kc_sz (ext_kcfg ext)) then u64 (kc_sz (ext_kcfg ext) - 1) else len in
  bytes ← ld_bytes buf (value + 1) (Z.to_nat len);
  data ← st_bytes data ext_val bytes;
  data ← st8 data (ext_val + len) 0;
  Some (0, set_ext ext, data).

(** [strtoull] in base 0: the base is that of the prefix. *)
Definition digit_of (c : Z) : option Z :=
  if isdigit c then Some (c - 48)
  else if (97 <=? c) && (c <=? 122) then Some (c - 87)
  else if (65 <=? c) && (c <=? 90) then Some (c - 55)
  else None.

Definition is_digit_in (base c : Z) : bool :=
  match digit_of c with Some d => d <? base | None => false end.

Fixpoint digits_in (base acc : Z) (s : list Z) : Z * list Z :=
  match s with
  | c :: s' =>
      match digit_of c with
      | Some d => if d <? base then digits_in base (acc * base + d) s' else (acc, s)
      | None => (acc, s)
      end
  | [] => (acc, [])
  end.

(** Value and end of a number without its sign; [None] is no number. *)
Definition number (s : list Z) : option (Z * list Z) :=
  match s with
  | 48 :: x :: c :: s' =>
      if ((x =? 120) || (x =? 88)) && is_digit_in 16 c then Some (digits_in 16 0 (c :: s'))
      else Some (digits_in 8 0 s)
  | 48 :: _ => Some (digits_in 8 0 s)
  | c :: _ => if isdigit c then Some (digits_in 10 0 s) else None
  | [] => None
  end.

Definition strtoull (s : list Z) : Z * list Z * Z :=
  let '(neg, s2) := sign (skip_space s) in
  match number s2 with
  | None => (0, s, 0)
  | Some (v, rest) =>
      if v >? ULONG_MAX then (ULONG_MAX, rest, ERANGE)
      else (u64 (if neg : bool then - v else v), rest, 0)
  end.

(** The error and the number. *)
Definition parse_u64 (value : list Z) : Z * Z :=
  let '(res, value_end, errno) := strtoull value in
  if negb (errno =? 0) then (- errno, res)
  else match value_end with _ :: _ => (- EINVAL, res) | [] => (0, res) end.

(** A shift by a negative number of bits or by 64 has no result. *)
Definition is_kcfg_value_in_range (ext : extern_desc) (v : Z) : option bool :=
  let bit_sz := kc_sz (ext_kcfg ext) * 8 in
  if kc_sz (ext_kcfg ext) =? 8 then Some true
  else if kc_is_signed (ext_kcfg ext) then
    if (1 <=? bit_sz) && (bit_sz <? 64)
    then Some (u64 (v + u64 (Z.shiftl 1 (bit_sz - 1))) <? u64 (Z.shiftl 1 bit_sz)) else None
  else if (0 <=? bit_sz) && (bit_sz <? 64) then Some (Z.shiftr v bit_sz =? 0) else None.

(** The bytes of an integer in memory. *)
Fixpoint le_bytes (n : nat) (v : Z) : list Z :=
  match n with O => [] | S n => u8 v :: le_bytes n (v / 256) end.

Definition set_kcfg_value_num (ext : extern_desc) (data : list Z) (ext_val value : Z)
    : option (Z * extern_desc * list Z) :=
  let ty := kc_type (ext_kcfg ext) in
  if negb (bool_decide (ty = KCFG_INT)) && negb (bool_decide (ty = KCFG_CHAR))
  then Some (- EINVAL, ext, data) else
  ok ← is_kcfg_value_in_range ext value;
  if negb ok then Some (- ERANGE, ext, data) else
  let sz := kc_sz (ext_kcfg ext) in
  if (sz =? 1) || (sz =? 2) || (sz =? 4) || (sz =? 8) then
    data ← st_bytes data ext_val (le_bytes (Z.to_nat sz) value);
    Some (0, set_ext ext, data)
  else Some (- EINVAL, ext, data).

(** ** Lines *)

Definition str_has_pfx (s pfx : list Z) : bool :=
  strcmp (take (length pfx) s) (take (length pfx) pfx) =? 0.

(** The index of the first [c]. *)
Fixpoint strchr (s : list Z) (c : Z) : option nat :=
  match s with
  | [] => None
  | x :: s => if x =? c then Some 0%nat else S <$> strchr s c
  end.

(** The switch over the first character of the value. *)
Definition set_kcfg_value (ext : extern_desc) (data : list Z) (ext_val : Z) (buf : list Z) (value : Z)
    : option (Z * extern_desc * list Z) :=
  c ← ld8 buf value;
  if (c =? 121) || (c =? 110) || (c =? 109) then set_kcfg_value_tri ext data ext_val c
  else if c =? 34 then set_kcfg_value_str ext data ext_val buf value
  else
    (* assume integer *)
    v ← cstr buf value;
    let '(err, num) := parse_u64 v in
    if negb (err =? 0) then Some (err, ext, data)
    else set_kcfg_value_num ext data ext_val num.

(** The error, the buffer, the external variables and the memory. *)
Definition process_kconfig_line (xs : list extern_desc) (buf data : list Z)
    : option (Z * list Z * list extern_desc * list Z) :=
  s ← cstr buf 0;
  if negb (str_has_pfx s (lit "CONFIG_")) then Some (0, buf, xs, data) else
  match strchr s 61 with
  | None => Some (- EINVAL, buf, xs, data)
  | Some sep =>
      let sep := Z.of_nat sep in
      (* Trim ending '\n' *)
      let len := Z.of_nat (length s) in
      last ← ld8 buf (len - 1);
      buf ← if last =? 10 then st8 buf (len - 1) 0 else Some buf;
      (* Split on '=' and ensure that a value is present. *)
      buf ← st8 buf sep 0;
      c ← ld8 buf (sep + 1);
      if c =? 0 then buf ← st8 buf sep 61; Some (- EINVAL, buf, xs, data) else
      name ← cstr buf 0;
      match find_extern_by_name xs name with
      | None => Some (0, buf, xs, data)
      | Some i =>
          ext ← xs !! i;
          if x_is_set ext then Some (0, buf, xs, data) else
          let ext_val := kc_data_off (ext_kcfg ext) in
          let value := sep + 1 in
          '(err, ext, data) ← set_kcfg_value ext data ext_val buf value;
          Some (err, buf, <[i := ext]> xs, data)
      end
  end.

(** [fgets] and [gzgets]: at most [size - 1] bytes, up to and with a newline,
    and a NUL behind them; what follows in the buffer stays.  [None] is NULL,
    at the end of the file. *)
Fixpoint fgets_len (n : nat) (file : list Z) : nat :=
  match n, file with
  | S n, c :: file => if c =? 10 then 1%nat else S (fgets_len n file)
  | _, _ => 0%nat
  end.

Definition fgets (buf file : list Z) : option (list Z * list Z) :=
  match file with
  | [] => None
  | _ :: _ =>
      let n := fgets_len (length buf - 1) file in
      Some (take n file ++ 0 :: drop (n + 1) buf, drop n file)
  end.

(** The loop over the lines; every round takes a byte at least. *)
Fixpoint read_lines (fuel : nat) (xs : list extern_desc) (buf data file : list Z)
    : option (Z * list extern_desc * list Z) :=
  match fuel with
  | O => None
  | S fuel =>
      match fgets buf file with
      | None => Some (0, xs, data)
      | Some (buf, file) =>
          '(err, buf, xs, data) ← process_kconfig_line xs buf data;
          if negb (err =? 0) then Some (err, xs, data) else read_lines fuel xs buf data file
      end
  end.

Section Files.
(** [gzopen] by name, [None] being NULL; [uts.release]; the errno of
    [fmemopen], 0 when it succeeds; what is in a buffer that is not initialised. *)
Context (gzopen : list Z -> option (list Z)) (release : list Z) (fmemopen : list Z -> Z) (junk : list Z).

Definition bpf_object__read_kconfig_file (xs : list extern_desc) (data : list Z)
    : option (Z * list extern_desc * list Z) :=
  let path := lit "/boot/config-" ++ release in
  if Z.of_nat (length path) >=? PATH_MAX then Some (- ENAMETOOLONG, xs, data) else
  let buf := path ++ 0 :: drop (length path + 1) junk in
  match (match gzopen path with Some f => Some f | None => gzopen (lit "/proc/config.gz") end) with
  | None => Some (- ENOENT, xs, data)
  | Some file => read_lines (S (length file)) xs buf data file
  end.

Definition bpf_object__read_kconfig_mem (xs : list extern_desc) (config data : list Z)
    : option (Z * list extern_desc * list Z) :=
  if negb (fmemopen config =? 0) then Some (- fmemopen config, xs, data)
  else read_lines (S (length config)) xs junk data config.
End Files.

(** ** What a configuration says

    The lines of a file, without their newlines, in pieces of at most [n]
    bytes (a newline is one of them); the current one has room for [k]. *)
Fixpoint pieces (n k : nat) (file : list Z) : list (list Z) :=
  match file with
  | [] => []
  | c :: file =>
      if c =? 10 then [] :: pieces n n file
      else match k with
           | 0%nat | 1%nat => [c] :: pieces n n file
           | S k => match pieces n k file with [] => [[c]] | l :: ls => (c :: l) :: ls end
           end
  end.

(** As the buffer takes them: a line that does not fit is several. *)
Definition lines_of (file : list Z) : list (list Z) :=
  pieces (Z.to_nat (PATH_MAX - 1)) (Z.to_nat (PATH_MAX - 1)) file.

Definition is_option_line (line : list Z) : bool := str_has_pfx line (lit "CONFIG_").

(** Name and value of a line. *)
Definition assignment (line : list Z) : option (list Z * list Z) :=
  if is_option_line line
  then sep ← strchr line 61; Some (take sep line, drop (S sep) line) else None.

Fixpoint first_value (name : list Z) (lines : list (list Z)) : option (list Z) :=
  match lines with
  | [] => None
  | line :: lines =>
      match assignment line with
      | Some (n, v) => if bool_decide (n = name) then Some v else first_value name lines
      | None => first_value name lines
      end
  end.

(** The number a text says, modulo 2^64, or the error: blanks, a sign, and the
    digits of base 8 behind a 0, of base 16 behind 0x, else of base 10; nothing
    may follow them, and they must not exceed 64 bits. *)
Fixpoint run (p : Z -> bool) (s : list Z) : list Z :=
  match s with c :: s => if p c then c :: run p s else [] | [] => [] end.

Definition digits_value (base : Z) (ds : list Z) : Z :=
  foldl (fun n c => n * base + default 0 (digit_of c)) 0 ds.

Definition int_value (v : list Z) : Z + Z :=
  let s := drop (length (run isspace v)) v in
  let neg := bool_decide (head s = Some 45) in
  let s := if bool_decide (head s = Some 45 \/ head s = Some 43) then tail s else s in
  let hex := bool_decide (s !! 0%nat = Some 48 /\ (s !! 1%nat = Some 120 \/ s !! 1%nat = Some 88)) &&
             match s !! 2%nat with Some c => is_digit_in 16 c | None => false end in
  let base := if hex then 16 else if bool_decide (head s = Some 48) then 8 else 10 in
  let s := if hex then drop 2 s else s in
  let ds := run (is_digit_in base) s in
  if bool_decide (ds = []) then inl (- EINVAL)
  else if digits_value base ds >? ULONG_MAX then inl (- ERANGE)
  else if negb (bool_decide (ds = s)) then inl (- EINVAL)
  else inr ((if neg then - digits_value base ds else digits_value base ds) mod 2 ^ 64).

(** The bytes a value is stored as in a variable, or the error.  Of a value
    that begins with y, n or m nothing but that letter counts; what begins with
    a quote must end with one and is cut to fit, with its NUL; a number must be
    one that the variable can hold, as signed or unsigned. *)
Definition kcfg_value (k : kcfg) (v : list Z) : Z + list Z :=
  match v with
  | [] => inl (- EINVAL)
  | c :: v' =>
      if bool_decide (c ∈ [121; 110; 109]) then
        match kc_type k with
        | KCFG_BOOL => if c =? 109 then inl (- EINVAL) else inr [bool_to_Z (c =? 121)]
        | KCFG_TRISTATE =>
            inr (le32 (if c =? 121 then TRI_YES else if c =? 109 then TRI_MODULE else TRI_NO))
        | KCFG_CHAR => inr [c]
        | _ => inl (- EINVAL)
        end
      else if c =? 34 then
        if bool_decide (kc_type k = KCFG_CHAR_ARR /\ last v = Some 34)
        then inr (take (Z.to_nat (kc_sz k - 1)) (removelast v') ++ [0]) else inl (- EINVAL)
      else
        match int_value v with
        | inl err => inl err
        | inr n =>
            if bool_decide (kc_type k ∈ [KCFG_INT; KCFG_CHAR]) then
              let bits := 8 * kc_sz k in
              if (if kc_is_signed k then (- 2 ^ (bits - 1) <=? s64 n) && (s64 n <? 2 ^ (bits - 1))
                  else n <? 2 ^ bits)
              then inr (le_bytes (Z.to_nat (kc_sz k)) n) else inl (- ERANGE)
            else inl (- EINVAL)
        end
  end.

(** The variable of a name that no line has set yet. *)
Definition unset_ext (xs : list extern_desc) (done : list (list Z)) (name : list Z) : option extern_desc :=
  i ← find_extern_by_name xs name;
  x ← xs !! i;
  if x_is_set x then None else
  match first_value name done with Some _ => None | None => Some x end.

(** The error a line stops the reading with, 0 if it does not, after the
    lines [done]. *)
Definition line_error (xs : list extern_desc) (done : list (list Z)) (line : list Z) : Z :=
  if is_option_line line then
    match assignment line with
    | None | Some (_, []) => - EINVAL
    | Some (name, v) =>
        match unset_ext xs done name with
        | Some x => match kcfg_value (ext_kcfg x) v with inl err => err | inr _ => 0 end
        | None => 0
        end
    end
  else 0.

(** The bytes of a variable. *)
Definition area (data : list Z) (k : kcfg) : list Z :=
  take (Z.to_nat (kc_sz k)) (drop (Z.to_nat (kc_data_off k)) data).

Definition overwrite (old bs : list Z) : list Z := bs ++ drop (length bs) old.

(** The state after the lines [done]: a variable is set if it was, or if a
    line names it, and then it holds the value of the first such line. *)
Definition ext_after (done : list (list Z)) (x : extern_desc) : extern_desc :=
  match first_value (x_name x) done with Some _ => set_ext x | None => x end.

Definition area_after (done : list (list Z)) (x : extern_desc) (k : kcfg) (old : list Z) : list Z :=
  match first_value (x_name x) done with
  | Some v => if x_is_set x then old else
              match kcfg_value k v with inr bs => overwrite old bs | inl _ => old end
  | None => old
  end.

(** Variables as [bpf_object__collect_externs] leaves them: the size suits the
    type, the places lie in the map and are apart, symbols have no address. *)
Definition kcfg_ok (k : kcfg) : Prop :=
  0 <= kc_data_off k /\ 1 <= kc_sz k < 2 ^ 31 /\
  match kc_type k with
  | KCFG_CHAR | KCFG_BOOL => kc_sz k = 1
  | KCFG_INT => kc_sz k ∈ [2; 4; 8]
  | KCFG_TRISTATE => 4 <= kc_sz k
  | KCFG_CHAR_ARR => True
  | KCFG_UNKNOWN => False
  end.

Definition apart (k1 k2 : kcfg) : Prop :=
  kc_data_off k1 + kc_sz k1 <= kc_data_off k2 \/ kc_data_off k2 + kc_sz k2 <= kc_data_off k1.

Record externs_ok (xs : list extern_desc) (map_sz : Z) : Prop := {
  xo_names : NoDup (map x_name xs);
  xo_kcfg i x k : xs !! i = Some x -> x_u x = EXT_KCFG k ->
    kcfg_ok k /\ kc_data_off k + kc_sz k <= map_sz;
  xo_ksym i x s : xs !! i = Some x -> x_u x = EXT_KSYM s -> ks_addr s = 0;
  xo_apart i j x y k1 k2 : i <> j -> xs !! i = Some x -> xs !! j = Some y ->
    x_u x = EXT_KCFG k1 -> x_u y = EXT_KCFG k2 -> apart k1 k2 }.

(** A text without NUL in which no value is a single quote. *)
Definition config_ok (config : list Z) : Prop :=
  Forall (fun b => 0 < b < 256) config /\
  Forall (fun line => forall name, assignment line <> Some (name, [34])) (lines_of config).

(** What this means for a line: it fits the buffer. *)
Definition line_ok (line : list Z) : Prop :=
  Z.of_nat (length line) <= PATH_MAX - 1 /\ Forall (fun b => 0 < b < 256) line /\
  forall name, assignment line <> Some (name, [34]).

(** ** Lemmas *)

(** *** Memory *)

Lemma st_bytes_seq a : forall b m off,
  st_bytes m off (a ++ b) = (m1 ← st_bytes m off a; st_bytes m1 (off + Z.of_nat (length a)) b).
Proof.
  induction a as [|x a IH]; intros b m off; cbn [app length st_bytes].
  { cbn [mbind option_bind]. f_equal. lia. }
  destruct (st8 m off x) as [m1|]; [|done]. cbn [mbind option_bind]. rewrite IH.
  destruct (st_bytes m1 (off + 1) a) as [m2|]; [|done]. cbn [mbind option_bind]. f_equal. lia.
Qed.

Definition write (data : list Z) (off : Z) (bs : list Z) : list Z :=
  take (Z.to_nat off) data ++ bs ++ drop (Z.to_nat off + length bs) data.

Lemma st_bytes_write data off bs : 0 <= off -> off + Z.of_nat (length bs) <= Z.of_nat (length data) ->
  bytes_ok bs -> st_bytes data off bs = Some (write data off bs).
Proof.
  intros H0 H1 Hb. unfold write.
  pose proof (st_bytes_app bs (take (Z.to_nat off) data) (take (length bs) (drop (Z.to_nat off) data))
    (drop (Z.to_nat off + length bs) data)) as E.
  rewrite <- drop_drop, (take_drop (length bs)), take_drop, length_take, length_take, length_drop in E.
  rewrite !Nat.min_l in E by lia. rewrite Z2Nat.id in E by lia. rewrite <- drop_drop. apply E; [lia|done].
Qed.

Lemma length_write data off bs : 0 <= off -> off + Z.of_nat (length bs) <= Z.of_nat (length data) ->
  length (write data off bs) = length data.
Proof. intros. unfold write. rewrite !length_app, length_take, length_drop. lia. Qed.

Lemma area_length data k : 0 <= kc_data_off k -> kc_data_off k + kc_sz k <= Z.of_nat (length data) ->
  length (area data k) = Z.to_nat (kc_sz k).
Proof. intros. unfold area. rewrite length_take, length_drop. lia. Qed.

Lemma area_lookup data k j : (j < Z.to_nat (kc_sz k))%nat ->
  area data k !! j = data !! (Z.to_nat (kc_data_off k) + j)%nat.
Proof. intros. unfold area. rewrite lookup_take_lt by done. by rewrite lookup_drop. Qed.

Lemma write_lookup data off bs j : 0 <= off -> off + Z.of_nat (length bs) <= Z.of_nat (length data) ->
  write data off bs !! j =
  if (Z.of_nat j <? off) then data !! j
  else if Z.of_nat j <? off + Z.of_nat (length bs) then bs !! (j - Z.to_nat off)%nat else data !! j.
Proof.
  intros H0 H1. unfold write. destruct (Z.ltb_spec (Z.of_nat j) off).
  { rewrite lookup_app_l by (rewrite length_take; lia). apply lookup_take_lt. lia. }
  rewrite lookup_app_r by (rewrite length_take; lia). rewrite length_take, Nat.min_l by lia.
  destruct (Z.ltb_spec (Z.of_nat j) (off + Z.of_nat (length bs))).
  { apply lookup_app_l. lia. }
  rewrite lookup_app_r by lia. rewrite lookup_drop. f_equal. lia.
Qed.

(** Writing into a place replaces the beginning of its bytes, and leaves those
    of a place apart from it. *)
Lemma area_write_same data k bs : 0 <= kc_data_off k -> kc_data_off k + kc_sz k <= Z.of_nat (length data) ->
  Z.of_nat (length bs) <= kc_sz k ->
  area (write data (kc_data_off k) bs) k = overwrite (area data k) bs.
Proof.
  intros H0 H1 H2. apply list_eq. intros j. unfold overwrite.
  destruct (Nat.lt_ge_cases j (Z.to_nat (kc_sz k))) as [Hj|Hj].
  - rewrite area_lookup, write_lookup by lia.
    destruct (Z.ltb_spec (Z.of_nat (Z.to_nat (kc_data_off k) + j)) (kc_data_off k)); [lia|].
    destruct (Z.ltb_spec (Z.of_nat (Z.to_nat (kc_data_off k) + j)) (kc_data_off k + Z.of_nat (length bs))).
    + rewrite lookup_app_l by lia. f_equal. lia.
    + rewrite lookup_app_r, lookup_drop, area_lookup by lia. f_equal. lia.
  - rewrite (lookup_ge_None_2 (area _ k)), lookup_ge_None_2; [done| |].
    + rewrite length_app, length_drop, area_length; lia.
    + rewrite area_length by (rewrite ?length_write; lia). lia.
Qed.

Lemma area_write_apart data k1 k2 bs : 0 <= kc_data_off k1 -> 0 <= kc_data_off k2 ->
  kc_data_off k1 + kc_sz k1 <= Z.of_nat (length data) -> Z.of_nat (length bs) <= kc_sz k1 -> apart k1 k2 ->
  area (write data (kc_data_off k1) bs) k2 = area data k2.
Proof.
  intros H1 H2 H3 H4 Hap. apply list_eq. intros j.
  destruct (Nat.lt_ge_cases j (Z.to_nat (kc_sz k2))) as [Hj|Hj].
  - rewrite !area_lookup, write_lookup by lia.
    destruct (Z.ltb_spec (Z.of_nat (Z.to_nat (kc_data_off k2) + j)) (kc_data_off k1)); [done|].
    destruct (Z.ltb_spec (Z.of_nat (Z.to_nat (kc_data_off k2) + j)) (kc_data_off k1 + Z.of_nat (length bs))); [|done].
    unfold apart in Hap. lia.
  - unfold area. rewrite !lookup_ge_None_2; [done| |]; rewrite length_take; lia.
Qed.

(** *** Numbers *)

Lemma length_le_bytes n : forall v, length (le_bytes n v) = n.
Proof. induction n; intros v; cbn; [done|]. by rewrite IHn. Qed.

Lemma le_bytes_ok n : forall v, bytes_ok (le_bytes n v).
Proof. induction n; intros v; cbn; constructor; [|apply IHn]. apply (wrap_range 8); lia. Qed.

Lemma strtoull_range' s : 0 <= (strtoull s).1.1 <= ULONG_MAX.
Proof.
  unfold strtoull. destruct (sign _) as [neg s2]. destruct (number s2) as [[v rest]|]; [|done].
  destruct (Z.gtb_spec v ULONG_MAX); cbn; [unfold ULONG_MAX; lia|].
  pose proof (wrap_range 64 (if neg then - v else v)). unfold ULONG_MAX. pow2. lia.
Qed.

Lemma parse_u64_range v err n : parse_u64 v = (err, n) -> 0 <= n < 2 ^ 64 /\ (err = 0 \/ err = - EINVAL \/ err = - ERANGE).
Proof.
  unfold parse_u64. pose proof (strtoull_range' v) as H.
  assert (He : (strtoull v).2 = 0 \/ (strtoull v).2 = ERANGE).
  { unfold strtoull. destruct (sign _) as [neg s2]. destruct (number s2) as [[x rest]|]; [|by left].
    destruct (x >? ULONG_MAX); [by right|by left]. }
  destruct (strtoull v) as [[res e] errno]. cbn in *. unfold ULONG_MAX in H. pow2.
  destruct (Z.eqb_spec errno 0); cbn.
  - destruct e; intros [= <- <-]; split; try lia; auto.
  - intros [= <- <-]. split; [lia|]. right. right. destruct He; congruence.
Qed.

Lemma skip_space_run s : skip_space s = drop (length (run isspace s)) s.
Proof. induction s as [|c s IH]; [done|]. cbn [skip_space run]. destruct (isspace c); [exact IH|done]. Qed.

Lemma digits_in_run base s : forall acc, digits_in base acc s =
  (foldl (fun n c => n * base + default 0 (digit_of c)) acc (run (is_digit_in base) s),
   drop (length (run (is_digit_in base) s)) s).
Proof.
  induction s as [|c s IH]; intros acc; [done|]. cbn [digits_in run]. unfold is_digit_in at 1 3.
  destruct (digit_of c) as [d|] eqn:E; [|done]. destruct (d <? base); [|done]. cbn [foldl length drop]. by rewrite IH, E.
Qed.

Lemma run_length p s : (length (run p s) <= length s)%nat.
Proof. induction s as [|c s IH]; cbn; [lia|]. destruct (p c); cbn; lia. Qed.

Lemma run_all p s : drop (length (run p s)) s = [] <-> run p s = s.
Proof.
  induction s as [|c s IH]; [done|]. cbn [run]. destruct (p c); [|done]. cbn [length drop]. rewrite IH.
  split; [by intros ->|by intros [=]].
Qed.

(** Base and digits of a number. *)
Definition based (s : list Z) : Z * list Z :=
  let hex := bool_decide (s !! 0%nat = Some 48 /\ (s !! 1%nat = Some 120 \/ s !! 1%nat = Some 88)) &&
             match s !! 2%nat with Some c => is_digit_in 16 c | None => false end in
  (if hex then 16 else if bool_decide (head s = Some 48) then 8 else 10, if hex then drop 2 s else s).

Lemma number_based s : let '(base, s') := based s in
  number s = if bool_decide (run (is_digit_in base) s' = []) then None
             else Some (digits_value base (run (is_digit_in base) s'), drop (length (run (is_digit_in base) s')) s').
Proof.
  unfold based, digits_value. destruct s as [|c0 s]; [done|]. destruct (Z.eqb_spec c0 48) as [->|H0].
  - assert (H8 : digits_in 8 0 (48 :: s) = (foldl (fun n c => n * 8 + default 0 (digit_of c)) 0 (run (is_digit_in 8) (48 :: s)),
      drop (length (run (is_digit_in 8) (48 :: s))) (48 :: s))) by apply digits_in_run.
    destruct s as [|c1 [|c2 s]].
    + done.
    + cbn [lookup list_lookup]. rewrite andb_false_r. cbn [head].
      rewrite (bool_decide_eq_true_2 (Some 48 = Some 48)) by done. by rewrite <- H8.
    + cbn [lookup list_lookup head].
      replace (bool_decide (Some 48 = Some 48 /\ (Some c1 = Some 120 \/ Some c1 = Some 88))) with ((c1 =? 120) || (c1 =? 88)).
      2: { apply eq_true_iff_eq. rewrite bool_decide_eq_true, orb_true_iff, !Z.eqb_eq. naive_solver. }
      cbn [number]. destruct ((c1 =? 120) || (c1 =? 88)) eqn:Ex; cbn [andb].
      * destruct (is_digit_in 16 c2) eqn:E16.
        -- change (drop 2 (48 :: c1 :: c2 :: s)) with (c2 :: s). rewrite bool_decide_eq_false_2.
           2: { cbn [run]. by rewrite E16. }
           by rewrite digits_in_run.
        -- rewrite (bool_decide_eq_true_2 (Some 48 = Some 48)) by done. by rewrite <- H8.
      * rewrite (bool_decide_eq_true_2 (Some 48 = Some 48)) by done. by rewrite <- H8.
  - rewrite (bool_decide_eq_false_2 (_ /\ _)) by (cbn; naive_solver). cbn [andb].
    rewrite (bool_decide_eq_false_2 (head _ = _)) by (cbn; naive_solver).
    assert (Hd : is_digit_in 10 c0 = isdigit c0).
    { unfold is_digit_in, digit_of. destruct (isdigit c0) eqn:Ed.
      - apply isdigit_range in Ed. lia.
      - unfold isdigit in Ed. destruct ((97 <=? c0) && (c0 <=? 122)) eqn:E1; [lia|].
        destruct ((65 <=? c0) && (c0 <=? 90)) eqn:E2; [lia|done]. }
    replace (number (c0 :: s)) with (if isdigit c0 then Some (digits_in 10 0 (c0 :: s)) else None).
    2: { unfold number. destruct c0 as [|p|p]; try done. repeat (destruct p as [p|p|]; try done). }
    cbn [run]. rewrite Hd. destruct (isdigit c0) eqn:Ed; [|done].
    rewrite bool_decide_eq_false_2 by done. rewrite digits_in_run. cbn [run]. by rewrite Hd.
Qed.

(** The code reads the number a text says. *)
Lemma parse_int v : v <> [] -> match int_value v with
  | inl err => (parse_u64 v).1 = err /\ err <> 0
  | inr n => parse_u64 v = (0, n)
  end.
Proof.
  intros Hne. unfold int_value, parse_u64, strtoull. rewrite skip_space_run.
  set (s1 := drop _ v).
  assert (Hs : sign s1 = (bool_decide (head s1 = Some 45),
    if bool_decide (head s1 = Some 45 \/ head s1 = Some 43) then tail s1 else s1)).
  { unfold sign. destruct s1 as [|c s1]; [done|]. cbn [head tail].
    destruct (Z.eqb_spec c 43) as [->|?]; [done|]. destruct (Z.eqb_spec c 45) as [->|?]; [done|].
    rewrite !bool_decide_eq_false_2 by naive_solver. done. }
  rewrite Hs. set (s2 := if bool_decide (_ \/ _) then _ else _). pose proof (number_based s2) as Hn. unfold based in Hn.
  set (hex := bool_decide (s2 !! 0%nat = Some 48 /\ _) && _) in *. cbv zeta.
  set (base := if hex then 16 else _) in *. set (s3 := if hex then drop 2 s2 else s2) in *.
  rewrite Hn. destruct (bool_decide (run (is_digit_in base) s3 = [])) eqn:Hds.
  { cbn [negb Z.eqb]. destruct v; [done|]. by split. }
  destruct (Z.gtb_spec (digits_value base (run (is_digit_in base) s3)) ULONG_MAX); [by split|].
  cbn [negb Z.eqb]. destruct (bool_decide (run (is_digit_in base) s3 = s3)) eqn:Hall; cbn [negb].
  - apply bool_decide_eq_true in Hall. apply run_all in Hall. rewrite Hall. by destruct (bool_decide _).
  - apply bool_decide_eq_false in Hall. destruct (drop _ s3) as [|] eqn:Ed; [by apply run_all in Ed|]. by split.
Qed.

(** The test of the code, an unsigned comparison, is that of the value. *)
Lemma value_in_range x n : kc_sz (ext_kcfg x) ∈ [1; 2; 4; 8] -> 0 <= n < 2 ^ 64 ->
  let k := ext_kcfg x in let bits := 8 * kc_sz k in
  is_kcfg_value_in_range x n =
  Some (if kc_is_signed k then (- 2 ^ (bits - 1) <=? s64 n) && (s64 n <? 2 ^ (bits - 1)) else n <? 2 ^ bits).
Proof.
  intros Hsz Hn k bits. unfold is_kcfg_value_in_range. fold k. fold k in Hsz. unfold bits. clear bits.
  rewrite !list_elem_of_In in Hsz. cbn [In] in Hsz.
  destruct Hsz as [E|[E|[E|[E|[]]]]]; rewrite <- E; destruct (kc_is_signed k); cbn -[Z.pow s64 u64 Z.shiftr Z.ltb Z.leb Z.eqb];
    f_equal; rewrite ?Z.shiftr_div_pow2 by lia;
    repeat match goal with |- context [Z.shiftl 1 ?b] => let v := eval vm_compute in (Z.shiftl 1 b) in change (Z.shiftl 1 b) with v end;
    repeat match goal with |- context [2 ^ ?b] => let v := eval vm_compute in (2 ^ b) in change (2 ^ b) with v end;
    repeat match goal with |- context [u64 (Zpos ?p)] => let v := eval vm_compute in (u64 (Zpos p)) in change (u64 (Zpos p)) with v end;
    try (symmetry; apply andb_true_iff; rewrite Z.leb_le, Z.ltb_lt; width_lia);
    try (symmetry; apply Z.ltb_lt; pow2; lia).
  all: apply eq_true_iff_eq; rewrite ?andb_true_iff, ?Z.eqb_eq, ?Z.leb_le, ?Z.ltb_lt; width_lia.
Qed.

(** *** Values *)

(** Membership in a list of literals, as a disjunction. *)
Ltac lits := repeat match goal with
  | H : context [_ ∈ _ :: _] |- _ => rewrite elem_of_cons in H
  | H : context [_ ∈ []] |- _ => rewrite elem_of_nil in H
  | |- context [_ ∈ _ :: _] => rewrite elem_of_cons
  | |- context [_ ∈ []] => rewrite elem_of_nil
  end; naive_solver lia.

Lemma ld8_at pre (c : Z) post : ld8 (pre ++ c :: post) (Z.of_nat (length pre)) = Some c.
Proof.
  unfold ld8. destruct (Z.ltb_spec (Z.of_nat (length pre)) 0); [lia|].
  by rewrite Nat2Z.id, lookup_app_r, Nat.sub_diag by lia.
Qed.

Lemma cstr_off0 s rest : strneq0 s -> cstr (s ++ 0 :: rest) 0 = Some s.
Proof. intros H. unfold cstr. cbn [Z.ltb]. by apply until_nul_app. Qed.

Lemma st8_write data off b : 0 <= off -> off + 1 <= Z.of_nat (length data) -> is_byte b ->
  st8 data off b = Some (write data off [b]).
Proof.
  intros. rewrite <- st_bytes_write; [|lia|cbn; lia|by constructor]. cbn [st_bytes].
  by destruct (st8 data off b).
Qed.

Lemma le32_ok v : bytes_ok (le32 v).
Proof. unfold le32. repeat constructor; apply (wrap_range 8); lia. Qed.

(** What is wanted of a variable while its value is stored. *)
Definition place_ok (data : list Z) (k : kcfg) : Prop :=
  kcfg_ok k /\ kc_data_off k + kc_sz k <= Z.of_nat (length data).

Definition stored (k : kcfg) (x : extern_desc) (data : list Z) (r : Z + list Z) : Z * extern_desc * list Z :=
  match r with inl err => (err, x, data) | inr bs => (0, set_ext x, write data (kc_data_off k) bs) end.

Lemma set_tri_spec x data c v' : let k := ext_kcfg x in
  c ∈ [121; 110; 109] -> kc_type k = KCFG_UNKNOWN \/ place_ok data k ->
  set_kcfg_value_tri x data (kc_data_off k) c = Some (stored k x data (kcfg_value k (c :: v'))).
Proof.
  intros k Hc Hk. unfold set_kcfg_value_tri, kcfg_value, stored. fold k.
  rewrite bool_decide_eq_true_2 by done.
  destruct Hk as [->|[(H0 & H1 & Ht) H2]]; [done|].
  destruct (kc_type k); try done.
  - rewrite st8_write; [done|lia|lia|]. rewrite !elem_of_cons in Hc. unfold is_byte.
    destruct Hc as [-> | [-> | [-> | Hc]]]; try lia. by apply not_elem_of_nil in Hc.
  - destruct (c =? 109); [done|]. rewrite st8_write; [done|lia|lia|].
    destruct (c =? 121); cbn; unfold is_byte; lia.
  - rewrite st_bytes_write; [done|lia|cbn; lia|apply le32_ok].
Qed.

Lemma removelast_snoc {A} (l : list A) x : removelast (l ++ [x]) = l.
Proof. rewrite removelast_app by done. apply app_nil_r. Qed.

Lemma set_str_spec x data pre v' post : let k := ext_kcfg x in
  Z.of_nat (length v') < PATH_MAX ->
  Forall (fun b => 0 < b < 256) v' -> v' <> [] -> kc_type k = KCFG_UNKNOWN \/ place_ok data k ->
  set_kcfg_value_str x data (kc_data_off k) (pre ++ (34 :: v') ++ 0 :: post) (Z.of_nat (length pre))
  = Some (stored k x data (kcfg_value k (34 :: v'))).
Proof.
  intros k Hlen Hv Hne Hk. unfold set_kcfg_value_str. fold k.
  assert (Hn0 : strneq0 (34 :: v')).
  { constructor; [done|]. eapply Forall_impl; [exact Hv|]. cbn. lia. }
  destruct (exists_last Hne) as (w & c & E). subst v'. clear Hne.
  unfold kcfg_value. change (bool_decide (34 ∈ [121; 110; 109])) with false. cbn [Z.eqb Pos.eqb].
  rewrite removelast_snoc. replace (last (34 :: w ++ [c])) with (Some c) by (rewrite app_comm_cons; by rewrite last_snoc).
  destruct (decide (kc_type k = KCFG_CHAR_ARR)) as [Ht|Ht].
  2: { rewrite bool_decide_eq_false_2 by done. by rewrite bool_decide_eq_false_2 by naive_solver. }
  rewrite bool_decide_eq_true_2 by done. cbn [negb].
  destruct Hk as [E|[(H0 & H1 & _) H2]]; [congruence|].
  rewrite cstr_at by done. cbn [mbind option_bind].
  apply Forall_app in Hv as [Hw Hc]. rewrite length_app in Hlen. cbn [length] in Hlen.
  replace (pre ++ (34 :: w ++ [c]) ++ 0 :: post) with ((pre ++ 34 :: w) ++ c :: 0 :: post)
    by (rewrite <- !app_assoc; cbn; by rewrite <- !app_assoc).
  replace (Z.of_nat (length pre) + (Z.of_nat (length (34 :: w ++ [c])) - 1))
    with (Z.of_nat (length (pre ++ 34 :: w))) by (rewrite !length_app; cbn; rewrite length_app; cbn; lia).
  rewrite ld8_at. cbn [mbind option_bind].
  destruct (Z.eqb_spec c 34) as [->|Hc34]; [|cbn [negb]; by rewrite bool_decide_eq_false_2 by naive_solver].
  cbn [negb]. rewrite bool_decide_eq_true_2 by done.
  set (n := Nat.min (length w) (Z.to_nat (kc_sz k - 1))).
  match goal with |- context [if ?a >=? ?b then ?d else ?e] => replace (if a >=? b then d else e) with (Z.of_nat n) end.
  2: { cbn [length]. rewrite length_app. cbn [length]. rewrite !wrap_small by (pow2; lia).
       destruct (Z.geb_spec (Z.of_nat (S (length w + 1)) - 2) (kc_sz k)); lia. }
  rewrite Nat2Z.id.
  assert (Eld : ld_bytes ((pre ++ 34 :: w) ++ 34 :: 0 :: post) (Z.of_nat (length pre) + 1) n = Some (take n w)).
  { pose proof (ld_bytes_app (take n w) (pre ++ [34]) (drop n w ++ 34 :: 0 :: post)) as E.
    rewrite length_app, length_take_le in E by lia. cbn [length] in E.
    rewrite <- E. f_equal; [|lia]. rewrite <- !app_assoc. cbn. do 2 f_equal. rewrite app_assoc. by rewrite take_drop. }
  rewrite Eld. cbn [mbind option_bind].
  assert (Hbs : bytes_ok (take n w ++ [0])).
  { apply Forall_app. split; [|repeat constructor; lia]. apply Forall_take.
    eapply Forall_impl; [exact Hw|]. unfold is_byte. lia. }
  assert (Hlt : length (take n w) = n) by (rewrite length_take; lia).
  pose proof (st_bytes_seq (take n w) [0] data (kc_data_off k)) as E.
  rewrite st_bytes_write in E; [|lia|rewrite length_app, Hlt; cbn; lia|done].
  rewrite Hlt in E. cbn [st_bytes] in E.
  destruct (st_bytes data (kc_data_off k) (take n w)) as [d1|]; [|done]. cbn [mbind option_bind] in E |- *.
  destruct (st8 d1 (kc_data_off k + Z.of_nat n) 0) as [d2|]; [|done]. cbn [mbind option_bind] in E |- *.
  injection E as <-. unfold stored. do 4 f_equal. unfold n.
  destruct (Nat.le_ge_cases (length w) (Z.to_nat (kc_sz k - 1))).
  - by rewrite Nat.min_l, firstn_all, (take_ge w) by lia.
  - by rewrite Nat.min_r by lia.
Qed.

Lemma set_num_spec x data n : let k := ext_kcfg x in
  0 <= n < 2 ^ 64 -> kc_type k = KCFG_UNKNOWN \/ place_ok data k ->
  set_kcfg_value_num x data (kc_data_off k) n =
  Some (stored k x data
    (if bool_decide (kc_type k ∈ [KCFG_INT; KCFG_CHAR]) then
       let bits := 8 * kc_sz k in
       if (if kc_is_signed k then (- 2 ^ (bits - 1) <=? s64 n) && (s64 n <? 2 ^ (bits - 1)) else n <? 2 ^ bits)
       then inr (le_bytes (Z.to_nat (kc_sz k)) n) else inl (- ERANGE)
     else inl (- EINVAL))).
Proof.
  intros k Hn Hk. unfold set_kcfg_value_num. fold k.
  destruct (decide (kc_type k ∈ [KCFG_INT; KCFG_CHAR])) as [Ht|Ht].
  2: { rewrite (bool_decide_eq_false_2 (kc_type k ∈ _)) by done.
       rewrite !bool_decide_eq_false_2 by lits. done. }
  rewrite (bool_decide_eq_true_2 (kc_type k ∈ _)) by done.
  assert (Hsz : kc_sz k ∈ [1; 2; 4; 8]).
  { destruct Hk as [E|[(_ & _ & Hk) _]]; [rewrite E in Ht; lits|].
    rewrite !elem_of_cons in Ht. destruct Ht as [E|[E|Ht]]; [| |by apply not_elem_of_nil in Ht]; rewrite E in Hk; lits. }
  replace (negb (bool_decide (kc_type k = KCFG_INT)) && negb (bool_decide (kc_type k = KCFG_CHAR))) with false.
  2: { symmetry. rewrite !elem_of_cons in Ht.
       destruct Ht as [->|[->|Ht]]; [done|done|by apply not_elem_of_nil in Ht]. }
  unfold k at 1. rewrite value_in_range by done. cbn [mbind option_bind]. fold k.
  cbn zeta. destruct (if kc_is_signed k then _ else _); [|done]. cbn [negb].
  destruct Hk as [E|[(H0 & H1 & _) H2]]; [rewrite E in Ht; lits|].
  replace ((kc_sz k =? 1) || (kc_sz k =? 2) || (kc_sz k =? 4) || (kc_sz k =? 8)) with true.
  2: { rewrite !elem_of_cons in Hsz. destruct Hsz as [->|[->|[->|[->|Hsz]]]]; [done..|by apply not_elem_of_nil in Hsz]. }
  rewrite st_bytes_write; [done|lia|rewrite length_le_bytes; lia|apply le_bytes_ok].
Qed.

(** Storing a value that is a string in the buffer. *)
Lemma set_value_spec x data pre v post : let k := ext_kcfg x in
  Z.of_nat (length v) <= PATH_MAX -> Forall (fun b => 0 < b < 256) v -> v <> [] -> v <> [34] ->
  kc_type k = KCFG_UNKNOWN \/ place_ok data k ->
  set_kcfg_value x data (kc_data_off k) (pre ++ v ++ 0 :: post) (Z.of_nat (length pre))
  = Some (stored k x data (kcfg_value k v)).
Proof.
  intros k Hlen Hv Hne Hq Hk. destruct v as [|c v']; [done|]. unfold set_kcfg_value.
  replace (ld8 (pre ++ (c :: v') ++ 0 :: post) (Z.of_nat (length pre))) with (Some c) by (symmetry; apply ld8_at).
  cbn [mbind option_bind].
  destruct ((c =? 121) || (c =? 110) || (c =? 109)) eqn:Ec.
  { apply set_tri_spec; [|done]. rewrite !orb_true_iff, !Z.eqb_eq in Ec. lits. }
  assert (Hc : c ∉ [121; 110; 109]).
  { rewrite !orb_false_iff, !Z.eqb_neq in Ec. lits. }
  destruct (Z.eqb_spec c 34) as [->|Hc34].
  { apply Forall_cons in Hv as [_ Hv]. apply set_str_spec; [cbn in Hlen; lia|done|congruence|done]. }
  rewrite cstr_at by (eapply Forall_impl; [exact Hv|]; cbn; lia). cbn [mbind option_bind].
  unfold kcfg_value. rewrite bool_decide_eq_false_2 by done. rewrite (proj2 (Z.eqb_neq c 34)) by done.
  pose proof (parse_int (c :: v') Hne) as Hi.
  destruct (parse_u64 (c :: v')) as [err n] eqn:Ep. apply parse_u64_range in Ep as [Hn _].
  destruct (int_value (c :: v')) as [e|m].
  - destruct Hi as [<- He]. apply Z.eqb_neq in He. cbn [fst] in *. by rewrite He.
  - injection Hi as -> ->. by apply set_num_spec.
Qed.

Lemma int_value_error v : (exists err, int_value v = inl err /\ err < 0) \/ exists n, int_value v = inr n.
Proof.
  unfold int_value. cbv zeta. case_bool_decide; [left; eexists; split; [done|lia]|].
  destruct (_ >? _); [left; eexists; split; [done|unfold ERANGE; lia]|].
  destruct (negb _); [left; eexists; split; [done|lia]|right; by eexists].
Qed.

(** A value of a variable fits its place, and an error is one. *)
Lemma kcfg_value_fits k v : kcfg_ok k ->
  match kcfg_value k v with inl err => err < 0 | inr bs => Z.of_nat (length bs) <= kc_sz k end.
Proof.
  intros (H0 & H1 & Ht). destruct v as [|c v']; [cbn; lia|]. cbn [kcfg_value].
  destruct (bool_decide (c ∈ _)).
  { destruct (kc_type k); try destruct (c =? 109); cbn -[Z.add]; try lia. }
  destruct (c =? 34).
  { case_bool_decide; [|lia]. rewrite length_app, length_take. cbn. lia. }
  destruct (int_value_error (c :: v')) as [(e & -> & He)|(n & ->)]; [done|].
  case_bool_decide; [|lia]. cbn zeta. destruct (if kc_is_signed k then _ else _); [|unfold ERANGE; lia].
  rewrite length_le_bytes. lia.
Qed.

Lemma kcfg_value_unknown k v : kc_type k = KCFG_UNKNOWN -> exists err, kcfg_value k v = inl err /\ err < 0.
Proof.
  intros Ht. destruct v as [|c v']; [eexists; split; [done|lia]|]. cbn [kcfg_value]. rewrite Ht.
  destruct (bool_decide (c ∈ _)); [eexists; split; [done|lia]|].
  destruct (c =? 34).
  { rewrite bool_decide_eq_false_2 by naive_solver. eexists; split; [done|lia]. }
  destruct (int_value_error (c :: v')) as [(e & -> & He)|(n & ->)]; [by eexists|].
  rewrite bool_decide_eq_false_2 by lits. eexists; split; [done|lia].
Qed.

(** *** Lines *)

Lemma str_has_pfx_spec s p : str_has_pfx s p = bool_decide (take (length p) s = p).
Proof.
  unfold str_has_pfx. rewrite firstn_all. apply eq_true_iff_eq.
  by rewrite Z.eqb_eq, bool_decide_eq_true, strcmp_eq.
Qed.

Lemma strchr_Some s c : forall i, strchr s c = Some i ->
  s = take i s ++ c :: drop (S i) s /\ c ∉ take i s /\ length (take i s) = i.
Proof.
  induction s as [|x s IH]; intros i H; [done|]. cbn in H. destruct (Z.eqb_spec x c) as [->|Hx].
  - injection H as <-. cbn. split_and!; [done|apply not_elem_of_nil|done].
  - apply fmap_Some in H as (j & Hj & ->). destruct (IH j Hj) as (E & Hn & Hl). cbn [take drop app length].
    split_and!; [by f_equal| |by f_equal]. apply not_elem_of_cons. by split.
Qed.

Lemma strchr_app_l s t c i : strchr s c = Some i -> strchr (s ++ t) c = Some i.
Proof.
  revert i. induction s as [|x s IH]; intros i H; [done|]. cbn in *. destruct (x =? c); [done|].
  apply fmap_Some in H as (j & Hj & ->). by rewrite (IH j Hj).
Qed.

Lemma strchr_app_r s t c : strchr s c = None -> strchr t c = None -> strchr (s ++ t) c = None.
Proof.
  intros H Ht. induction s as [|x s IH]; [done|]. cbn in *. destruct (x =? c); [done|].
  apply fmap_None in H. by rewrite IH.
Qed.

(** A newline ends a line and is no part of it. *)
Inductive newline : list Z -> Prop := newline_none : newline [] | newline_nl : newline [10].

Lemma strchr_newline line nl : newline nl -> strchr (line ++ nl) 61 = strchr line 61.
Proof.
  intros Hnl. destruct (strchr line 61) eqn:E; [by apply strchr_app_l|].
  apply strchr_app_r; [done|]. by destruct Hnl.
Qed.

Lemma pfx_newline line nl : 10 ∉ line -> newline nl ->
  str_has_pfx (line ++ nl) (lit "CONFIG_") = is_option_line line.
Proof.
  intros H10 Hnl. unfold is_option_line. rewrite !str_has_pfx_spec. apply bool_decide_ext.
  destruct Hnl; [by rewrite app_nil_r|]. set (p := lit "CONFIG_").
  destruct (Nat.le_gt_cases (length p) (length line)) as [Hle|Hgt].
  - by rewrite take_app_le.
  - split; intros E; exfalso.
    + assert (Hin : 10 ∈ take (length p) (line ++ [10])).
      { rewrite take_ge by (rewrite length_app; cbn [length]; lia). apply elem_of_app. right. by constructor. }
      rewrite E in Hin. unfold p in Hin. cbn in Hin. lits.
    + apply (f_equal length) in E. rewrite length_take in E. lia.
Qed.

Lemma option_line_length line : is_option_line line = true -> (7 <= length line)%nat.
Proof.
  unfold is_option_line. rewrite str_has_pfx_spec, bool_decide_eq_true. intros E.
  apply (f_equal length) in E. rewrite length_take in E. change (length (lit "CONFIG_")) with 7%nat in E. lia.
Qed.

Lemma st8_at pre (c : Z) post b : is_byte b ->
  st8 (pre ++ c :: post) (Z.of_nat (length pre)) b = Some (pre ++ b :: post).
Proof.
  intros Hb. rewrite st8_Some by (rewrite length_app; cbn; lia).
  rewrite Nat2Z.id, insert_app_r_alt, Nat.sub_diag by lia. cbn. by rewrite (wrap_small 8).
Qed.

(** The newline is cut off. *)
Lemma trim_spec line nl stale : line <> [] -> 10 ∉ line -> newline nl ->
  let buf := (line ++ nl) ++ 0 :: stale in let len := Z.of_nat (length (line ++ nl)) in
  exists last stale', ld8 buf (len - 1) = Some last /\
    (if last =? 10 then st8 buf (len - 1) 0 else Some buf) = Some (line ++ 0 :: stale') /\
    length (line ++ 0 :: stale') = length buf.
Proof.
  intros Hne H10 [].
  - destruct (exists_last Hne) as (w & c & ->). exists c, stale. cbn zeta. rewrite app_nil_r.
    replace (Z.of_nat (length (w ++ [c])) - 1) with (Z.of_nat (length w)) by (rewrite length_app; cbn; lia).
    rewrite <- !app_assoc. cbn [app]. rewrite ld8_at.
    destruct (Z.eqb_spec c 10) as [->|]; [|done]. destruct H10. apply elem_of_app. right. by constructor.
  - exists 10, (0 :: stale). cbn zeta.
    replace (Z.of_nat (length (line ++ [10])) - 1) with (Z.of_nat (length line)) by (rewrite length_app; cbn; lia).
    rewrite <- !app_assoc. cbn [app]. rewrite ld8_at, st8_at by (unfold is_byte; lia).
    split_and!; [done|done|]. by rewrite !length_app.
Qed.

(** *** The variables and lines already read *)

Lemma first_value_app name l1 l2 : first_value name (l1 ++ l2) =
  match first_value name l1 with Some v => Some v | None => first_value name l2 end.
Proof.
  induction l1 as [|l l1 IH]; [done|]. cbn [app first_value]. destruct (assignment l) as [[n v]|]; [|done].
  by case_bool_decide.
Qed.

Lemma set_ext_id x : x_is_set x = true -> set_ext x = x.
Proof. destruct x. cbn. by intros ->. Qed.

Lemma find_extern_Some xs name : forall i, find_extern_by_name xs name = Some i ->
  exists x, xs !! i = Some x /\ x_name x = name.
Proof.
  induction xs as [|y xs IH]; intros i H; [done|]. cbn in H.
  destruct (Z.eqb_spec (strcmp (x_name y) name) 0) as [E|].
  - injection H as <-. apply strcmp_eq in E. by exists y.
  - apply fmap_Some in H as (j & Hj & ->). by apply IH.
Qed.

Lemma find_extern_None xs name x : find_extern_by_name xs name = None -> x ∈ xs -> x_name x <> name.
Proof.
  induction xs as [|y xs IH]; intros H Hx; [by apply not_elem_of_nil in Hx|]. cbn in H.
  destruct (Z.eqb_spec (strcmp (x_name y) name) 0) as [E|E]; [done|]. apply fmap_None in H.
  apply elem_of_cons in Hx as [->|Hx]; [|by apply IH]. intros E'. by apply E, strcmp_eq.
Qed.

Lemma ext_after_name done_ x : x_name (ext_after done_ x) = x_name x.
Proof. unfold ext_after. by destruct (first_value _ _). Qed.

Lemma ext_after_kcfg done_ x : ext_kcfg (ext_after done_ x) = ext_kcfg x.
Proof. unfold ext_after. by destruct (first_value _ _). Qed.

Lemma ext_after_u done_ x : x_u (ext_after done_ x) = x_u x.
Proof. unfold ext_after. by destruct (first_value _ _). Qed.

Lemma find_extern_after done_ xs name :
  find_extern_by_name (map (ext_after done_) xs) name = find_extern_by_name xs name.
Proof. induction xs as [|x xs IH]; [done|]. cbn [map find_extern_by_name]. by rewrite ext_after_name, IH. Qed.

(** A byte of no variable. *)
Definition outside (xs : list extern_desc) (j : nat) : Prop :=
  forall i x k, xs !! i = Some x -> x_u x = EXT_KCFG k ->
    ~ kc_data_off k <= Z.of_nat j < kc_data_off k + kc_sz k.

Record read_inv (xs0 : list extern_desc) (data0 : list Z) (done : list (list Z))
    (xs : list extern_desc) (data : list Z) : Prop := {
  ri_xs : xs = map (ext_after done) xs0;
  ri_len : length data = length data0;
  ri_area i x k : xs0 !! i = Some x -> x_u x = EXT_KCFG k ->
    area data k = area_after done x k (area data0 k);
  ri_else j : outside xs0 j -> data !! j = data0 !! j }.

Lemma read_inv_start xs data : read_inv xs data [] xs data.
Proof. constructor; [|done..]. rewrite <- (map_id xs) at 1. by apply map_ext. Qed.

(** A line that assigns nothing to a variable still unset changes nothing. *)
Lemma read_inv_skip xs0 data0 done_ xs data line : read_inv xs0 data0 done_ xs data ->
  (forall x, x ∈ xs0 -> x_is_set x = true \/ is_Some (first_value (x_name x) done_) \/
    first_value (x_name x) [line] = None) ->
  read_inv xs0 data0 (done_ ++ [line]) xs data.
Proof.
  intros [E Hl Ha Ho] H. constructor; [|done| |done].
  - rewrite E. apply map_ext_in. intros x Hx. apply list_elem_of_In in Hx. unfold ext_after.
    rewrite first_value_app. destruct (first_value (x_name x) done_) eqn:Ed; [done|].
    destruct (H x Hx) as [Hs|[[? Hs]|Hs]]; [|by rewrite Ed in Hs|by rewrite Hs].
    rewrite set_ext_id by done. by destruct (first_value (x_name x) [line]).
  - intros i x k Hi Hk. rewrite (Ha i x k Hi Hk). unfold area_after. rewrite first_value_app.
    destruct (first_value (x_name x) done_) eqn:Ed; [done|].
    destruct (H x (list_elem_of_lookup_2 _ _ _ Hi)) as [Hs|[[? Hs]|Hs]]; [|by rewrite Ed in Hs|by rewrite Hs].
    rewrite Hs. by destruct (first_value (x_name x) [line]).
Qed.

Lemma names_inj xs i j x y : NoDup (map x_name xs) -> xs !! i = Some x -> xs !! j = Some y ->
  x_name x = x_name y -> i = j.
Proof.
  intros Hn Hi Hj E. apply (NoDup_lookup _ _ _ (x_name x) Hn); rewrite list_lookup_fmap.
  - by rewrite Hi.
  - rewrite Hj. cbn. by rewrite E.
Qed.

(** Storing the value of a line. *)
Lemma read_inv_store xs0 data0 done_ xs data line name v i x k bs :
  externs_ok xs0 (Z.of_nat (length data0)) -> read_inv xs0 data0 done_ xs data ->
  assignment line = Some (name, v) -> xs0 !! i = Some x -> x_name x = name -> x_is_set x = false ->
  first_value name done_ = None -> x_u x = EXT_KCFG k -> kcfg_value k v = inr bs ->
  read_inv xs0 data0 (done_ ++ [line]) (<[i := set_ext x]> xs) (write data (kc_data_off k) bs).
Proof.
  intros Hok [E Hl Ha Ho] Has Hi Hn Hs Hd Hk Hv.
  destruct (xo_kcfg _ _ Hok i x k Hi Hk) as [Hkc Hfit].
  pose proof (kcfg_value_fits k v Hkc) as Hbs. rewrite Hv in Hbs. destruct Hkc as (H0 & H1 & _).
  assert (Hne : forall j y, xs0 !! j = Some y -> j <> i -> first_value (x_name y) [line] = None).
  { intros j y Hj Hji. cbn. rewrite Has. rewrite bool_decide_eq_false_2; [done|]. intros Heq. apply Hji.
    eapply (names_inj xs0 j i y x (xo_names _ _ Hok) Hj Hi). congruence. }
  constructor.
  - apply list_eq. intros j. rewrite E. destruct (decide (j = i)) as [->|Hji].
    + rewrite list_lookup_insert_eq.
      2: { rewrite length_map. apply lookup_lt_is_Some. eauto. }
      rewrite list_lookup_fmap, Hi. cbn. unfold ext_after. rewrite first_value_app, Hn, Hd. cbn. rewrite Has.
      by rewrite bool_decide_eq_true_2.
    + rewrite list_lookup_insert_ne by done. rewrite !list_lookup_fmap.
      destruct (xs0 !! j) as [y|] eqn:Hj; [|done]. cbn. unfold ext_after. rewrite first_value_app, (Hne j y Hj Hji).
      by destruct (first_value (x_name y) done_).
  - rewrite length_write; lia.
  - intros j y k' Hj Hk'. destruct (decide (j = i)) as [->|Hji].
    + assert (y = x) as -> by congruence. assert (k' = k) as -> by congruence.
      rewrite area_write_same by lia. rewrite (Ha i x k Hi Hk).
      unfold area_after. rewrite first_value_app, Hn, Hd. cbn. rewrite Has, bool_decide_eq_true_2 by done.
      by rewrite Hs, Hv.
    + destruct (xo_kcfg _ _ Hok j y k' Hj Hk') as [(? & _) _].
      rewrite area_write_apart by (try lia; by eapply (xo_apart _ _ Hok i j)). rewrite (Ha j y k' Hj Hk').
      unfold area_after. rewrite first_value_app, (Hne j y Hj Hji). by destruct (first_value (x_name y) done_).
  - intros j Hj. rewrite <- (Ho j Hj). pose proof (Hj i x k Hi Hk). rewrite write_lookup by lia.
    destruct (Z.ltb_spec (Z.of_nat j) (kc_data_off k)); [done|].
    destruct (Z.ltb_spec (Z.of_nat j) (kc_data_off k + Z.of_nat (length bs))); [lia|done].
Qed.

(** *** A line, and a file *)

Lemma assignment_parts line sep : is_option_line line = true -> strchr line 61 = Some sep ->
  exists name v, assignment line = Some (name, v) /\ line = name ++ 61 :: v /\ length name = sep.
Proof.
  intros Ho Hs. destruct (strchr_Some _ _ _ Hs) as (E & _ & Hl). exists (take sep line), (drop (S sep) line).
  unfold assignment. rewrite Ho, Hs. done.
Qed.

Lemma first_value_line name line :
  first_value name [line] =
  match assignment line with Some (n, v) => if bool_decide (n = name) then Some v else None | None => None end.
Proof. done. Qed.

Section Step.
Context (xs0 : list extern_desc) (data0 : list Z).
Context (Hok : externs_ok xs0 (Z.of_nat (length data0))).

Definition step_ok (done_ : list (list Z)) (line : list Z) (r : option (Z * list Z * list extern_desc * list Z))
    (n : nat) : Prop :=
  exists buf xs data, r = Some (line_error xs0 done_ line, buf, xs, data) /\ length buf = n /\
    (line_error xs0 done_ line = 0 -> read_inv xs0 data0 (done_ ++ [line]) xs data) /\
    (line_error xs0 done_ line <> 0 -> read_inv xs0 data0 done_ xs data).

(** The line names a variable that is still unset. *)
Lemma store_step done_ xs data line name v i x stale :
  read_inv xs0 data0 done_ xs data -> line_ok line -> is_option_line line = true ->
  assignment line = Some (name, v) -> line = name ++ 61 :: v -> v <> [] ->
  find_extern_by_name xs0 name = Some i -> xs0 !! i = Some x -> x_name x = name ->
  x_is_set x = false -> first_value name done_ = None ->
  let buf := (name ++ [0]) ++ v ++ 0 :: stale in
  step_ok done_ line
    ('(err, ext, data) ← set_kcfg_value x data (kc_data_off (ext_kcfg x)) buf (Z.of_nat (length name) + 1);
     Some (err, buf, <[i := ext]> xs, data)) (length buf).
Proof.
  intros Hinv (Hlen & Hb & Hq) Ho Has Hline Hv Hf Hi Hn Hs Hd buf.
  assert (Hbv : Forall (fun b => 0 < b < 256) v).
  { rewrite Hline in Hb. apply Forall_app in Hb as [_ Hb]. by apply Forall_cons in Hb as [_ Hb]. }
  assert (Hlv : Z.of_nat (length v) <= PATH_MAX).
  { rewrite Hline, length_app in Hlen. cbn [length] in Hlen. lia. }
  assert (Hcase : (exists k, x_u x = EXT_KCFG k /\ ext_kcfg x = k /\ place_ok data k) \/
    kc_type (ext_kcfg x) = KCFG_UNKNOWN).
  { unfold ext_kcfg. destruct (x_u x) as [|k|s] eqn:Eu.
    - by right.
    - left. exists k. destruct (xo_kcfg _ _ Hok i x k Hi Eu) as [Hk Hfit]. split_and!; [done|done|].
      split; [done|]. by rewrite (ri_len _ _ _ _ _ Hinv).
    - right. cbn. by rewrite (xo_ksym _ _ Hok i x s Hi Eu). }
  unfold buf. replace (Z.of_nat (length name) + 1) with (Z.of_nat (length (name ++ [0])))
    by (rewrite length_app; cbn; lia).
  rewrite set_value_spec; [|done|done|done|by intros ->; apply (Hq name)|].
  2: { destruct Hcase as [(k & _ & -> & Hk)|]; auto. }
  assert (Herr : line_error xs0 done_ line =
    match kcfg_value (ext_kcfg x) v with inl err => err | inr _ => 0 end).
  { unfold line_error, unset_ext. rewrite Ho, Has. destruct v as [|c v']; [done|]. rewrite Hf.
    cbn [mbind option_bind]. rewrite Hi. cbn [mbind option_bind]. by rewrite Hs, Hd. }
  unfold step_ok. rewrite Herr. cbn [mbind option_bind]. unfold stored.
  assert (Hxi : xs !! i = Some x).
  { rewrite (ri_xs _ _ _ _ _ Hinv), list_lookup_fmap, Hi. cbn. unfold ext_after. by rewrite Hn, Hd. }
  destruct Hcase as [(k & Hu & Hk & Hp)|Hunk].
  - rewrite Hk. pose proof (kcfg_value_fits k v (proj1 Hp)) as Hfits.
    destruct (kcfg_value k v) as [err|bs] eqn:Ev.
    + eexists _, _, _. split; [done|]. split; [done|]. split; [lia|]. intros _. by rewrite list_insert_id.
    + eexists _, _, _. split; [done|]. split; [done|]. split; [|done]. intros _.
      by eapply read_inv_store.
  - destruct (kcfg_value_unknown (ext_kcfg x) v Hunk) as (err & Ev & Hneg). rewrite Ev.
    eexists _, _, _. split; [done|]. split; [done|]. split; [lia|]. intros _. by rewrite list_insert_id.
Qed.

Lemma process_step done_ xs data line nl stale :
  read_inv xs0 data0 done_ xs data -> line_ok line -> 10 ∉ line -> newline nl ->
  let buf := (line ++ nl) ++ 0 :: stale in
  step_ok done_ line (process_kconfig_line xs buf data) (length buf).
Proof.
  intros Hinv Hl H10 Hnl buf. unfold process_kconfig_line. unfold buf.
  assert (Hn0 : strneq0 (line ++ nl)).
  { apply Forall_app. split; [|by destruct Hnl; repeat constructor].
    eapply Forall_impl; [exact (proj1 (proj2 Hl))|]. cbn. lia. }
  rewrite cstr_off0 by done. cbn [mbind option_bind]. rewrite pfx_newline by done.
  destruct (is_option_line line) eqn:Ho; cbn [negb].
  2: { exists buf, xs, data. unfold line_error. rewrite Ho. split_and!; [done|done| |done]. intros _.
       apply read_inv_skip; [done|]. intros x _. right. right. rewrite first_value_line. unfold assignment.
       by rewrite Ho. }
  rewrite strchr_newline by done. destruct (strchr line 61) as [sep|] eqn:Es.
  2: { exists buf, xs, data. unfold line_error, assignment. rewrite Ho, Es. cbn. by split_and!. }
  destruct (assignment_parts line sep Ho Es) as (name & v & Has & Hline & Hsep).
  assert (Hne : line <> []) by (intros ->; done).
  destruct (trim_spec line nl stale Hne H10 Hnl) as (last & stale' & E1 & E2 & E3).
  cbv zeta. rewrite E1. cbn [mbind option_bind]. rewrite E2. cbn [mbind option_bind].
  fold buf. fold buf in E3. rewrite <- E3. clear E1 E2 E3 buf.
  remember (length (line ++ 0 :: stale')) as n eqn:En. rewrite Hline, !length_app in En. cbn [length] in En.
  rewrite <- Hsep, Hline, <- app_assoc.
  cbn [app]. rewrite st8_at by (unfold is_byte; lia). cbn [mbind option_bind].
  replace (Z.of_nat (length name) + 1) with (Z.of_nat (length (name ++ [0]))) by (rewrite length_app; cbn; lia).
  replace (name ++ 0 :: v ++ 0 :: stale') with ((name ++ [0]) ++ v ++ 0 :: stale') by (by rewrite <- app_assoc).
  destruct v as [|c v'].
  { cbn [app]. rewrite ld8_at. cbn [mbind option_bind]. rewrite Z.eqb_refl, <- app_assoc. cbn [app].
    rewrite st8_at by (unfold is_byte; lia). cbn [mbind option_bind]. rewrite <- Hline.
    eexists _, _, _. unfold line_error. rewrite Ho, Has. split; [done|].
    split; [rewrite En, length_app; cbn; lia|]. by split. }
  cbn [app]. rewrite ld8_at. cbn [mbind option_bind].
  assert (Hbl : Forall (fun b => 0 < b < 256) (name ++ 61 :: c :: v')) by (rewrite <- Hline; apply Hl).
  apply Forall_app in Hbl as [Hbn Hbv]. apply Forall_cons in Hbv as [_ Hbv]. apply Forall_cons in Hbv as [Hbc _].
  rewrite (proj2 (Z.eqb_neq c 0)) by lia.
  replace ((name ++ [0]) ++ c :: v' ++ 0 :: stale') with (name ++ 0 :: c :: v' ++ 0 :: stale') at 1
    by (by rewrite <- app_assoc).
  rewrite cstr_off0 by (eapply Forall_impl; [exact Hbn|]; cbn; lia). cbn [mbind option_bind].
  rewrite (ri_xs _ _ _ _ _ Hinv) at 1. rewrite find_extern_after.
  assert (Elen : n = length ((name ++ [0]) ++ c :: v' ++ 0 :: stale'))
    by (rewrite En, !length_app; cbn; rewrite !length_app; cbn; lia).
  rewrite <- Hline. destruct (find_extern_by_name xs0 name) as [i|] eqn:Ef.
  2: { eexists _, _, _. unfold line_error, unset_ext. rewrite Ho, Has, Ef. split; [done|].
       split; [by rewrite Elen|]. split; [|done]. intros _. apply read_inv_skip; [done|]. intros x Hx. right. right.
       rewrite first_value_line, Has, bool_decide_eq_false_2; [done|]. intros E.
       exact (find_extern_None xs0 name x Ef Hx (eq_sym E)). }
  destruct (find_extern_Some _ _ _ Ef) as (x & Hi & Hn).
  assert (Hxi : xs !! i = Some (ext_after done_ x)) by (by rewrite (ri_xs _ _ _ _ _ Hinv), list_lookup_fmap, Hi).
  rewrite Hxi. cbn [mbind option_bind].
  destruct (x_is_set (ext_after done_ x)) eqn:Eset.
  - assert (E : unset_ext xs0 done_ name = None).
    { unfold unset_ext. rewrite Ef. cbn [mbind option_bind]. rewrite Hi. cbn [mbind option_bind].
      unfold ext_after in Eset. rewrite Hn in Eset.
      destruct (first_value name done_); [by destruct (x_is_set x)|by rewrite Eset]. }
    eexists _, _, _. unfold line_error. rewrite Ho, Has, E. split; [done|]. split; [by rewrite Elen|].
    split; [|done]. intros _. apply read_inv_skip; [done|]. intros y Hy.
    destruct (decide (x_name y = name)) as [Hyn|Hyn].
    + apply list_elem_of_lookup in Hy as [j Hj]. assert (j = i) as ->.
      { eapply (names_inj xs0 j i y x (xo_names _ _ Hok) Hj Hi). congruence. }
      assert (y = x) as -> by congruence. unfold ext_after in Eset.
      destruct (first_value (x_name x) done_); [right; left; eauto|by left].
    + right. right. by rewrite first_value_line, Has, bool_decide_eq_false_2 by congruence.
  - unfold ext_after in Eset. destruct (first_value (x_name x) done_) eqn:Ed; [done|].
    assert (Ex : ext_after done_ x = x) by (unfold ext_after; by rewrite Ed). rewrite Ex, Elen.
    rewrite length_app. change (length [0]) with 1%nat. rewrite Nat2Z.inj_add. change (Z.of_nat 1) with 1.
    apply (store_step done_ xs data line name (c :: v') i x stale'); try done. congruence.
Qed.
End Step.

(** What a configuration is read as: the error, and the lines that were
    taken in. *)
Fixpoint config_result (xs : list extern_desc) (done : list (list Z)) (lines : list (list Z))
    : Z * list (list Z) :=
  match lines with
  | [] => (0, done)
  | line :: lines =>
      if line_error xs done line =? 0 then config_result xs (done ++ [line]) lines
      else (line_error xs done line, done)
  end.

(** The first piece, and what follows it. *)
Lemma pieces_cons n file : forall k, file <> [] -> (0 < k)%nat -> exists line nl rest, file = (line ++ nl) ++ rest /\
  newline nl /\ 10 ∉ line /\ line ++ nl <> [] /\ (length (line ++ nl) <= k)%nat /\
  (nl = [] -> rest = [] \/ length line = k) /\ pieces n k file = line :: pieces n n rest.
Proof.
  induction file as [|c file IH]; intros k Hne Hk; [done|]. cbn [pieces].
  destruct (Z.eqb_spec c 10) as [->|Hc].
  { exists [], [10], file. split_and!; [done|constructor|apply not_elem_of_nil|done|cbn; lia|done|done]. }
  assert (Hc1 : 10 ∉ [c]) by (apply not_elem_of_cons; split; [congruence|apply not_elem_of_nil]).
  destruct k as [|[|k]]; [lia| |].
  { exists [c], [], file. split_and!; [done|constructor|done|done|cbn; lia|by right|done]. }
  destruct (decide (file = [])) as [->|Hf].
  { exists [c], [], []. split_and!; [done|constructor|done|done|cbn; lia|by left|done]. }
  destruct (IH (S k) Hf ltac:(lia)) as (line & nl & rest & E & Hnl & H10 & Hn & Hl & Hr & El). rewrite El.
  exists (c :: line), nl, rest. split_and!; [by rewrite E|done| |done|cbn in *; lia| |done].
  - apply not_elem_of_cons. split; [congruence|done].
  - intros H. destruct (Hr H) as [->|<-]; [by left|by right].
Qed.

Lemma fgets_len_line line nl rest : forall n, 10 ∉ line -> newline nl -> (length (line ++ nl) <= n)%nat ->
  (nl = [] -> rest = [] \/ length line = n) -> fgets_len n ((line ++ nl) ++ rest) = length (line ++ nl).
Proof.
  induction line as [|c line IH]; intros n H10 Hnl Hn Hr.
  - destruct Hnl; [|destruct n; [cbn in Hn; lia|done]]. destruct (Hr eq_refl) as [->|<-]; [by destruct n|done].
  - destruct n; [cbn in Hn; lia|]. apply not_elem_of_cons in H10 as [Hc H10]. cbn [app fgets_len length].
    rewrite (proj2 (Z.eqb_neq c 10)) by congruence. f_equal. apply IH; [done..|cbn in Hn; lia|].
    intros H. destruct (Hr H) as [?|[= ?]]; auto.
Qed.

Lemma fgets_spec buf line nl rest : (length buf > 0)%nat -> 10 ∉ line -> newline nl ->
  line ++ nl <> [] -> (length (line ++ nl) <= length buf - 1)%nat ->
  (nl = [] -> rest = [] \/ length line = (length buf - 1)%nat) ->
  exists stale, fgets buf ((line ++ nl) ++ rest) = Some ((line ++ nl) ++ 0 :: stale, rest) /\
    length ((line ++ nl) ++ 0 :: stale) = length buf.
Proof.
  intros Hb H10 Hnl Hne Hl Hr. unfold fgets. destruct ((line ++ nl) ++ rest) as [|c f] eqn:E.
  { apply app_eq_nil in E as [E _]. done. }
  rewrite <- E. rewrite fgets_len_line by done. rewrite take_app_length, drop_app_length.
  eexists. split; [done|]. rewrite length_app. cbn. rewrite length_drop. lia.
Qed.

Section Loop.
Context (xs0 : list extern_desc) (data0 : list Z).
Context (Hok : externs_ok xs0 (Z.of_nat (length data0))).

Lemma read_lines_spec fuel : forall done_ xs data buf file, (length file < fuel)%nat ->
  Z.of_nat (length buf) = PATH_MAX -> Forall line_ok (lines_of file) -> read_inv xs0 data0 done_ xs data ->
  let '(err, taken) := config_result xs0 done_ (lines_of file) in
  exists xs' data', read_lines fuel xs buf data file = Some (err, xs', data') /\
    read_inv xs0 data0 taken xs' data'.
Proof.
  induction fuel as [|fuel IH]; intros done_ xs data buf file Hf Hb Hl Hinv; [lia|].
  destruct (decide (file = [])) as [->|Hne]; [by exists xs, data|].
  unfold lines_of in *. replace (Z.to_nat (PATH_MAX - 1)) with (length buf - 1)%nat in * by lia.
  destruct (pieces_cons (length buf - 1) file (length buf - 1) Hne ltac:(lia)) as (line & nl & rest & E & Hnl & H10 & Hn & Hlen & Hr & El).
  rewrite El in Hl |- *. apply Forall_cons in Hl as [Hline Hl]. cbn [config_result read_lines].
  destruct (fgets_spec buf line nl rest ltac:(lia) H10 Hnl Hn Hlen Hr) as (stale & Eg & Elen).
  rewrite E, Eg.
  destruct (process_step xs0 data0 Hok done_ xs data line nl stale Hinv Hline H10 Hnl)
    as (buf' & xs' & data' & Ep & Elen' & H0 & H1).
  rewrite Ep. cbn [mbind option_bind].
  destruct (Z.eqb_spec (line_error xs0 done_ line) 0) as [Ee|Ee]; cbn [negb]; [|by exists xs', data'; auto].
  assert (length (line ++ nl) <> 0)%nat by (intros E0; by apply length_zero_iff_nil in E0).
  apply IH; [|lia|done|by apply H0]. rewrite E, !length_app in Hf. rewrite length_app in H. lia.
Qed.
End Loop.

Lemma pieces_ok (P : Z -> Prop) n : forall m file, (length file <= m)%nat -> (0 < n)%nat -> Forall P file ->
  Forall (fun line => (length line <= n)%nat /\ Forall P line) (pieces n n file).
Proof.
  induction m as [|m IH]; intros file Hm Hn Hf; [by destruct file; [|cbn in Hm; lia]|].
  destruct (decide (file = [])) as [->|Hne]; [done|].
  destruct (pieces_cons n file n Hne Hn) as (line & nl & rest & -> & _ & _ & Hln & Hlen & _ & ->).
  rewrite <- app_assoc in Hf. apply Forall_app in Hf as [H1 H2]. apply Forall_app in H2 as [_ H2].
  assert (length (line ++ nl) <> 0%nat) by (intros E0; by apply length_zero_iff_nil in E0).
  rewrite length_app in Hlen, Hm. constructor; [split; [lia|done]|]. apply IH; [lia|done..].
Qed.

Lemma config_lines_ok config : config_ok config -> Forall line_ok (lines_of config).
Proof.
  intros [Hb Hq]. apply Forall_forall. intros line Hl. rewrite Forall_forall in Hq.
  assert (H : (length line <= Z.to_nat (PATH_MAX - 1))%nat /\ Forall (fun b => 0 < b < 256) line).
  { pose proof (pieces_ok _ (Z.to_nat (PATH_MAX - 1)) _ config ltac:(done) ltac:(lia) Hb) as Hp.
    rewrite Forall_forall in Hp. by apply Hp. }
  destruct H as [H1 H2]. split_and!; [lia|done|by apply Hq].
Qed.

(** C16: the first line that names an option decides.  A configuration is a
    text without NUL bytes, of lines (those of more than 4095 bytes count as
    several), in which no value is a single quote.  Reading it ends for every set of variables whose
    places lie apart in the map; it stops at the first line that names an
    option without a value, or an option of a variable still unset with a value
    [kcfg_value] refuses for it, with the error of that line.  Afterwards the
    variables set are those that were and those a line taken in names; each of
    these holds the value of the first such line, as [kcfg_value] gives it
    (that of its first letter if this is y, n or m, whatever follows, a string
    cut to fit, or a number only if the variable can hold it); no other byte of the map has changed. *)
Theorem kconfig_first_value fmemopen junk xs config data :
  externs_ok xs (Z.of_nat (length data)) -> Z.of_nat (length junk) = PATH_MAX ->
  config_ok config -> fmemopen config = 0 ->
  let '(err, taken) := config_result xs [] (lines_of config) in
  exists xs' data',
    bpf_object__read_kconfig_mem fmemopen junk xs config data = Some (err, xs', data') /\
    xs' = map (ext_after taken) xs /\ length data' = length data /\
    (forall i x k, xs !! i = Some x -> x_u x = EXT_KCFG k ->
       area data' k = area_after taken x k (area data k)) /\
    (forall j, outside xs j -> data' !! j = data !! j).
Proof.
  intros Hok Hj Hl%config_lines_ok Hf. unfold bpf_object__read_kconfig_mem. rewrite Hf. cbn [Z.eqb negb].
  pose proof (read_lines_spec xs data Hok (S (length config)) [] xs data junk config ltac:(lia) Hj Hl
    (read_inv_start xs data)) as H.
  destruct (config_result xs [] (lines_of config)) as [err taken].
  destruct H as (xs' & data' & E & [Hx Hd Ha Ho]). by exists xs', data'.
Qed.

(** ** Examples *)

Definition ex_ext (name : list Z) (u : ext_union) : extern_desc :=
  {| x_sym_idx := 1; x_btf_id := 2; x_sec_btf_id := 3; x_name := name; x_is_set := false;
     x_is_weak := false; x_u := u |}.

Definition ex_externs : list extern_desc :=
  [ex_ext (lit "CONFIG_HZ") (EXT_KCFG (Kcfg KCFG_INT 4 4 0 true));
   ex_ext (lit "CONFIG_BPF") (EXT_KCFG (Kcfg KCFG_TRISTATE 4 4 4 false));
   ex_ext (lit "CONFIG_NAME") (EXT_KCFG (Kcfg KCFG_CHAR_ARR 6 1 8 false));
   ex_ext (lit "jiffies") (EXT_KSYM (Ksym 0 0 0 0 0))].

Definition ex_line (s : string) : list Z := lit s ++ [10].

(** CONFIG_NAME="kernel", in quotes. *)
Definition ex_quoted (s v : string) : list Z := lit s ++ [34] ++ lit v ++ [34; 10].

Definition ex_config : list Z :=
  ex_line "# a comment" ++ ex_line "CONFIG_BPF=m" ++ ex_quoted "CONFIG_NAME=" "kernel" ++
  ex_line "CONFIG_HZ=-0x3e8" ++ ex_line "CONFIG_BPF=y".

Definition ex_data : list Z := replicate 14 0.
Definition ex_buf : list Z := replicate 4096 0.

Lemma ex_externs_ok : externs_ok ex_externs 14.
Proof.
  constructor.
  - apply (bool_decide_unpack (NoDup (map x_name ex_externs))). vm_compute. exact I.
  - intros i x k Hi Hk. destruct i as [|[|[|[|i]]]]; cbn in Hi; try injection Hi as <-; try done;
      cbn in Hk; try done; injection Hk as <-; unfold kcfg_ok; cbn; (split; [split_and!; try done; lits|lia]).
  - intros i x s Hi Hs. destruct i as [|[|[|[|i]]]]; cbn in Hi; try injection Hi as <-; try done; cbn in Hs; try done.
    by injection Hs as <-.
  - intros i j x y k1 k2 Hij Hi Hj Hk1 Hk2.
    destruct i as [|[|[|[|i]]]]; cbn in Hi; try injection Hi as <-; try done; cbn in Hk1; try done; injection Hk1 as <-;
    destruct j as [|[|[|[|j]]]]; cbn in Hj; try injection Hj as <-; try done; cbn in Hk2; try done; injection Hk2 as <-;
      unfold apart; cbn; lia.
Qed.

(** A decision procedure for [config_ok]. *)
Definition config_check (config : list Z) : bool :=
  forallb (fun b => (0 <? b) && (b <? 256)) config &&
  forallb (fun line => match assignment line with Some (_, [34]) => false | _ => true end) (lines_of config).

Lemma config_check_ok config : config_check config = true -> config_ok config.
Proof.
  unfold config_check. intros [H1 H2]%andb_true_iff. rewrite forallb_forall in H1, H2. split; apply Forall_forall.
  - intros b Hb%list_elem_of_In. specialize (H1 b Hb). zbool. lia.
  - intros line Hl%list_elem_of_In name E. specialize (H2 line Hl). by rewrite E in H2.
Qed.

Lemma kconfig_first_value_witness : exists xs' data',
  bpf_object__read_kconfig_mem (fun _ => 0) ex_buf ex_externs ex_config ex_data = Some (0, xs', data') /\
  map x_is_set xs' = [true; true; true; false] /\
  area data' (Kcfg KCFG_TRISTATE 4 4 4 false) = le32 TRI_MODULE /\
  area data' (Kcfg KCFG_CHAR_ARR 6 1 8 false) = lit "kerne" ++ [0].
Proof.
  pose proof (kconfig_first_value (fun _ => 0) ex_buf ex_externs ex_config ex_data ex_externs_ok
    eq_refl (config_check_ok ex_config ltac:(vm_compute; reflexivity)) eq_refl) as H.
  destruct (config_result ex_externs [] (lines_of ex_config)) as [err taken] eqn:Er.
  destruct H as (xs' & data' & E & Hx & _ & Ha & _).
  vm_compute in Er. injection Er as <- <-. exists xs', data'. split; [exact E|].
  split; [by rewrite Hx|].
  rewrite (Ha 1%nat _ _ eq_refl eq_refl), (Ha 2%nat _ _ eq_refl eq_refl). by split.
Defined.

(** The number in decimal, octal and hexadecimal; a sign wraps around. *)
Fact parse_u64_bases :
  map parse_u64 [lit "250"; lit "0372"; lit "0xfa"; lit "-1"; lit "12y"; lit "18446744073709551616"]
  = [(0, 250); (0, 250); (0, 250); (0, 18446744073709551615); (- EINVAL, 12); (- ERANGE, 18446744073709551615)].
Proof. reflexivity. Qed.

(** A value that is a single quote: its length less the two quotes wraps
    around, is taken for too long, and the variable is filled with what an
    earlier line left in the buffer. *)
Fact lone_quote_copies_buffer :
  let buf := lit "CONFIG_NAME=" ++ [34; 10; 0] ++ lit "secret" ++ [0] in
  (r ← process_kconfig_line ex_externs buf ex_data; Some (r.1.1.1, area r.2 (Kcfg KCFG_CHAR_ARR 6 1 8 false)))
  = Some (0, [0; 0] ++ lit "sec" ++ [0]).
Proof. reflexivity. Qed.

(** Only the first letter of a tristate counts. *)
Fact first_letter_decides :
  (r ← process_kconfig_line ex_externs (lit "CONFIG_BPF=maybe not" ++ [10; 0]) ex_data;
   Some (r.1.1.1, area r.2 (Kcfg KCFG_TRISTATE 4 4 4 false))) = Some (0, le32 TRI_MODULE).
Proof. reflexivity. Qed.

(** A line that does not fit is read in two pieces, and the second is a line
    of its own. *)
Fact long_line_split : lines_of (lit "CONFIG_A=" ++ replicate (Z.to_nat 4086) 32 ++ lit "CONFIG_B=y" ++ [10])
  = [lit "CONFIG_A=" ++ replicate (Z.to_nat 4086) 32; lit "CONFIG_B=y"].
Proof. vm_compute. reflexivity. Qed.
