(* ===== verification/Externs.v ===== *)
(** * External variables of an object file
    (src/plugin/libbpf-test/libbpf/src/libbpf.c)

    The external symbols of an object file are collected with what its BTF
    says of them, sorted, and the configuration values among them ([Kconfig])
    given places in the .kconfig map.

    The symbol table is what libelf reads, the list of its entries.  The
    pointer size that BTF queries remember in the object does not show in later
    queries. *)

From stdpp Require Import sorting.
From S2P Require Import Prelude CString StrSet Btf CoreTypes Kconfig.

Abbreviation ESRCH := 3 (only parsing).
Abbreviation LIBBPF_ERRNO__FORMAT := 4001 (only parsing).

(** ** Collecting *)

(** A symbol; the name is NULL for an offset outside the string table. *)
Record elf_sym := { st_info : Z; st_shndx : Z; st_name : option (list Z) }.

Definition elf64_st_bind (info : Z) : Z := Z.shiftr info 4.

Definition sym_is_extern (s : elf_sym) : bool :=
  let bind := elf64_st_bind (st_info s) in
  (* externs are symbols w/ type=NOTYPE, bind=GLOBAL|WEAK, section=UND *)
  (st_shndx s =? 0) && ((bind =? 1) || (bind =? 2)) && (Z.land (st_info s) 15 =? 0).

Definition btf_is_var (t : tptr) := kind_is t [KIND_VAR].
Definition btf_is_func (t : tptr) := kind_is t [KIND_FUNC].
Definition btf_is_datasec (t : tptr) := kind_is t [KIND_DATASEC].

(** The first variable or function of the name, from [i] on. *)
Fixpoint extern_btf_id_loop (b : btf) (ext_name : list Z) (i : Z) (n : nat) : option Z :=
  match n with
  | O => Some (- ENOENT)
  | S n =>
      t ← btf__type_by_id b i; t ← t;
      var ← btf_is_var t; func ← btf_is_func t;
      if negb var && negb func then extern_btf_id_loop b ext_name (i + 1) n else
      off ← t_name_off t; tname ← name_at b off; tname ← tname;
      if negb (strcmp tname ext_name =? 0) then extern_btf_id_loop b ext_name (i + 1) n else
      linkage ← (if var : bool then t_word t 0 else btf_vlen t);
      Some (if negb (linkage =? 2) then - EINVAL else i)
  end.

Definition find_extern_btf_id (b : option btf) (ext_name : list Z) : option Z :=
  match b with
  | None => Some (- ESRCH)
  | Some b => extern_btf_id_loop b ext_name 1 (Z.to_nat (btf__type_cnt b - 1))
  end.

Fixpoint secinfo_has (t : tptr) (ext_btf_id j : Z) (n : nat) : option bool :=
  match n with
  | O => Some false
  | S n =>
      ty ← t_word t (12 * j);
      if ty =? ext_btf_id then Some true else secinfo_has t ext_btf_id (j + 1) n
  end.

Fixpoint extern_sec_loop (b : btf) (ext_btf_id i : Z) (n : nat) : option Z :=
  match n with
  | O => Some (- ENOENT)
  | S n =>
      t ← btf__type_by_id b i; t ← t;
      sec ← btf_is_datasec t;
      if negb sec then extern_sec_loop b ext_btf_id (i + 1) n else
      vlen ← btf_vlen t;
      found ← secinfo_has t ext_btf_id 0 (Z.to_nat vlen);
      if found : bool then Some i else extern_sec_loop b ext_btf_id (i + 1) n
  end.

Definition find_extern_sec_btf_id (b : option btf) (ext_btf_id : Z) : option Z :=
  match b with
  | None => Some (- ESRCH)
  | Some b => extern_sec_loop b ext_btf_id 1 (Z.to_nat (btf__type_cnt b - 1))
  end.

(** A chain of types longer than there are types does not end. *)
Definition depth (b : btf) : nat := S (Z.to_nat (btf__type_cnt b)).

Definition align_of (b : btf) (id : Z) : option Z := '(a, _) ← btf__align_of (depth b) b id; Some a.

(** What becomes of a symbol: a descriptor, or the function returns.  With an
    error the object is closed and the descriptor under construction given up;
    a variable of size 0 makes the function return 0, with its descriptor. *)
Inductive collected := Collected (x : extern_desc) | Returned (err : Z) (x : option extern_desc).

(** The part of the loop of [bpf_object__collect_externs] behind the name of
    a symbol.  Without BTF the first search fails. *)
Definition collect_extern (obj_btf : option btf) (i : Z) (sym : elf_sym) (ext_name : list Z)
    : option collected :=
  btf_id ← find_extern_btf_id obj_btf ext_name;
  if btf_id <=? 0 then Some (Returned btf_id None) else
  b ← obj_btf;
  t ← btf__type_by_id b btf_id; t ← t;
  off ← t_name_off t; name ← name_at b off; name ← name;
  sec_btf_id ← find_extern_sec_btf_id (Some b) btf_id;
  if sec_btf_id <=? 0 then Some (Returned sec_btf_id None) else
  sec ← btf__type_by_id b sec_btf_id; sec ← sec;
  sec_off ← t_name_off sec; sec_name ← name_at b sec_off; sec_name ← sec_name;
  let desc u := {| x_sym_idx := i; x_btf_id := btf_id; x_sec_btf_id := sec_btf_id; x_name := name;
                   x_is_set := false; x_is_weak := elf64_st_bind (st_info sym) =? 2; x_u := u |} in
  type_id ← t_size t;
  if strcmp sec_name (lit ".kconfig") =? 0 then
    func ← btf_is_func t;
    if func : bool then Some (Returned (- ENOTSUP) None) else
    sz ← resolve_size b type_id;
    let sz := s32 sz in
    if sz <=? 0 then Some (Returned sz (Some (desc (EXT_KCFG (Kcfg KCFG_UNKNOWN sz 0 0 false))))) else
    align ← align_of b type_id;
    let align := s32 align in
    if align <=? 0 then Some (Returned (- EINVAL) None) else
    '(ty, is_signed) ← find_kcfg_type (depth b) b type_id;
    if bool_decide (ty = KCFG_UNKNOWN) then Some (Returned (- ENOTSUP) None) else
    Some (Collected (desc (EXT_KCFG (Kcfg ty sz align 0 is_signed))))
  else if strcmp sec_name (lit ".ksyms") =? 0 then
    '(_, id) ← skip_mods_and_typedefs b type_id;
    Some (Collected (desc (EXT_KSYM (Ksym 0 0 0 id 0))))
  else Some (Returned (- ENOTSUP) None).

Section Collect.
Context (alloc_ok : Z -> bool) (obj_btf : option btf).

(** [sizeof(struct extern_desc)] *)
Definition extern_desc_size : Z := 56.

(** The loop over the symbols, [i] being the index of the first; [None] in the
    table is a symbol libelf does not find.  On the left, what the function
    returns from within the loop. *)
Fixpoint collect_loop (i : Z) (syms : list (option elf_sym)) (xs : list extern_desc)
    : option (Z * list extern_desc + list extern_desc) :=
  match syms with
  | [] => Some (inr xs)
  | None :: _ => Some (inl (- LIBBPF_ERRNO__FORMAT, xs))
  | Some sym :: syms =>
      if negb (sym_is_extern sym) then collect_loop (i + 1) syms xs else
      match st_name sym with
      | None | Some [] => collect_loop (i + 1) syms xs
      | Some ext_name =>
          if negb (alloc_ok ((Z.of_nat (length xs) + 1) * extern_desc_size)) then Some (inl (- ENOMEM, xs)) else
          r ← collect_extern obj_btf i sym ext_name;
          match r with
          | Returned err x => Some (inl (err, xs ++ (match x with Some x => [x] | None => [] end)))
          | Collected x => collect_loop (i + 1) syms (xs ++ [x])
          end
      end
  end.
End Collect.

(** ** Order and places *)

Definition ext_type (x : extern_desc) : Z :=
  match x_u x with EXT_UNKNOWN => 0 | EXT_KCFG _ => 1 | EXT_KSYM _ => 2 end.

Definition cmp_externs (a b : extern_desc) : Z :=
  if negb (ext_type a =? ext_type b) then if ext_type a <? ext_type b then -1 else 1
  else
    match x_u a, x_u b with
    | EXT_KCFG ka, EXT_KCFG kb =>
        (* descending order by alignment requirements *)
        if negb (kc_align ka =? kc_align kb) then if kc_align ka >? kc_align kb then -1 else 1
        (* ascending order by size, within same alignment class *)
        else if negb (kc_sz ka =? kc_sz kb) then if kc_sz ka <? kc_sz kb then -1 else 1
        else strcmp (x_name a) (x_name b)
    | _, _ => strcmp (x_name a) (x_name b)
    end.

Definition extern_le (a b : extern_desc) : Prop := cmp_externs a b <= 0.
#[export] Instance extern_le_dec a b : Decision (extern_le a b).
Proof. unfold extern_le. apply _. Defined.

(** A signed result beyond 32 bits has no value. *)
Definition int_ok (v : Z) : option Z := if v <=? INT_MAX then Some v else None.

(** [roundup] of linux/kernel.h, on integers that are not negative. *)
Definition roundup (x y : Z) : option Z :=
  s ← int_ok (x + (y - 1)); Some (s / y * y).

Definition with_data_off (x : extern_desc) (k : kcfg) (off : Z) : extern_desc :=
  {| x_sym_idx := x_sym_idx x; x_btf_id := x_btf_id x; x_sec_btf_id := x_sec_btf_id x;
     x_name := x_name x; x_is_set := x_is_set x; x_is_weak := x_is_weak x;
     x_u := EXT_KCFG (Kcfg (kc_type k) (kc_sz k) (kc_align k) off (kc_is_signed k)) |}.

(** The offsets of the configuration values within the map, from [off] on. *)
Fixpoint place_externs (off : Z) (xs : list extern_desc) : option (list extern_desc) :=
  match xs with
  | [] => Some []
  | x :: xs =>
      match x_u x with
      | EXT_UNKNOWN | EXT_KSYM _ => xs ← place_externs off xs; Some (x :: xs)
      | EXT_KCFG k =>
          data_off ← roundup off (kc_align k);
          off ← int_ok (data_off + kc_sz k);
          xs ← place_externs off xs; Some (with_data_off x k data_off :: xs)
      end
  end.

(** [bpf_object__collect_externs], less the rewriting of the BTF sections. *)
Definition bpf_object__collect_externs (alloc_ok : Z -> bool) (obj_btf : option btf)
    (syms : list (option elf_sym)) : option (Z * list extern_desc) :=
  r ← collect_loop alloc_ok obj_btf 0 syms [];
  match r with
  | inl (err, xs) => Some (err, xs)
  | inr xs => xs ← place_externs 0 (merge_sort extern_le xs); Some (0, xs)
  end.

(** The size of the .kconfig map, that of the last configuration value's end. *)
Definition kconfig_map_sz (xs : list extern_desc) : option Z :=
  foldl (fun last x => match x_u x with EXT_KCFG k => Some (kc_data_off k + kc_sz k) | _ => last end)
    None xs.

(** ** The order of external variables *)

Lemma strcmp_le_trans a : forall b c, strcmp a b <= 0 -> strcmp b c <= 0 -> strcmp a c <= 0.
Proof.
  induction a as [|x a IH]; intros [|y b] [|z c]; cbn; try lia.
  destruct (Z.eqb_spec x y), (Z.eqb_spec y z), (Z.eqb_spec x z), (Z.ltb_spec x y), (Z.ltb_spec y z),
    (Z.ltb_spec x z); try lia. apply IH.
Qed.

Lemma strcmp_le_total a : forall b, strcmp a b <= 0 \/ strcmp b a <= 0.
Proof.
  induction a as [|x a IH]; intros [|y b]; cbn; try lia.
  destruct (Z.eqb_spec x y), (Z.eqb_spec y x), (Z.ltb_spec x y), (Z.ltb_spec y x); try lia. apply IH.
Qed.

(** [cmp_externs] is lexicographic in the type, two keys and the name. *)
Definition key1 (x : extern_desc) : Z := match x_u x with EXT_KCFG k => - kc_align k | _ => 0 end.
Definition key2 (x : extern_desc) : Z := match x_u x with EXT_KCFG k => kc_sz k | _ => 0 end.

Lemma extern_le_keys a b : extern_le a b <->
  ext_type a < ext_type b \/ ext_type a = ext_type b /\
  (key1 a < key1 b \/ key1 a = key1 b /\
   (key2 a < key2 b \/ key2 a = key2 b /\ strcmp (x_name a) (x_name b) <= 0)).
Proof.
  unfold extern_le, cmp_externs, key1, key2, ext_type.
  destruct (x_u a) as [|ka|sa], (x_u b) as [|kb|sb]; cbn -[strcmp]; try lia.
  destruct (Z.eqb_spec (kc_align ka) (kc_align kb)); cbn -[strcmp].
  2: { destruct (Z.gtb_spec (kc_align ka) (kc_align kb)); lia. }
  destruct (Z.eqb_spec (kc_sz ka) (kc_sz kb)); cbn -[strcmp]; [lia|].
  destruct (Z.ltb_spec (kc_sz ka) (kc_sz kb)); lia.
Qed.

#[export] Instance extern_le_trans : Transitive extern_le.
Proof.
  intros a b c. rewrite !extern_le_keys.
  pose proof (strcmp_le_trans (x_name a) (x_name b) (x_name c)). lia.
Qed.

#[export] Instance extern_le_total : Total extern_le.
Proof. intros a b. rewrite !extern_le_keys. pose proof (strcmp_le_total (x_name a) (x_name b)). lia. Qed.

Lemma sorted_externs xs : StronglySorted extern_le (merge_sort extern_le xs).
Proof. apply (StronglySorted_merge_sort extern_le). Qed.

(** ** Places *)

Definition unplaced (x : extern_desc) : extern_desc :=
  match x_u x with EXT_KCFG k => with_data_off x k 0 | _ => x end.

(** The bytes the values take at most, padding included. *)
Fixpoint room (xs : list extern_desc) : Z :=
  match xs with
  | [] => 0
  | x :: xs => match x_u x with EXT_KCFG k => kc_sz k + (kc_align k - 1) + room xs | _ => room xs end
  end.

Fixpoint total_size (xs : list extern_desc) : Z :=
  match xs with
  | [] => 0
  | x :: xs => match x_u x with EXT_KCFG k => kc_sz k + total_size xs | _ => total_size xs end
  end.

Definition sized (x : extern_desc) : Prop :=
  match x_u x with EXT_KCFG k => 1 <= kc_sz k /\ 1 <= kc_align k | _ => True end.

Lemma room_nonneg xs : Forall sized xs -> 0 <= room xs.
Proof.
  induction 1 as [|x xs Hx _ IH]; [done|]. cbn. unfold sized in Hx. destruct (x_u x); lia.
Qed.

Lemma room_perm xs ys : xs ≡ₚ ys -> room xs = room ys.
Proof.
  induction 1 as [|x l l' _ IH|x y l|l l' l'' _ IH1 _ IH2]; [done| | |lia]; cbn.
  - destruct (x_u x); lia.
  - destruct (x_u x), (x_u y); lia.
Qed.

Lemma total_size_perm xs ys : xs ≡ₚ ys -> total_size xs = total_size ys.
Proof.
  induction 1 as [|x l l' _ IH|x y l|l l' l'' _ IH1 _ IH2]; [done| | |lia]; cbn.
  - destruct (x_u x); lia.
  - destruct (x_u x), (x_u y); lia.
Qed.

(** The end of the last value, [off] if there is none. *)
Fixpoint places_end (off : Z) (xs : list extern_desc) : Z :=
  match xs with
  | [] => off
  | x :: xs => match x_u x with EXT_KCFG k => places_end (kc_data_off k + kc_sz k) xs | _ => places_end off xs end
  end.

Lemma map_sz_end xs : forall off, foldl (fun last x => match x_u x with
    EXT_KCFG k => Some (kc_data_off k + kc_sz k) | _ => last end) (Some off) xs = Some (places_end off xs).
Proof. induction xs as [|x xs IH]; intros off; [done|]. cbn. destruct (x_u x); apply IH. Qed.

Lemma map_sz_places xs i x k : xs !! i = Some x -> x_u x = EXT_KCFG k ->
  kconfig_map_sz xs = Some (places_end 0 xs).
Proof.
  unfold kconfig_map_sz. revert i. induction xs as [|y xs IH]; intros i Hi Hk; [done|]. cbn.
  destruct (x_u y) as [|k'|s] eqn:Ey.
  - destruct i; cbn in Hi; [congruence|]. by apply (IH i).
  - apply map_sz_end.
  - destruct i; cbn in Hi; [congruence|]. by apply (IH i).
Qed.

Lemma roundup_spec x y : 0 <= x -> 1 <= y -> x + (y - 1) <= INT_MAX ->
  exists r, roundup x y = Some r /\ (y | r) /\ x <= r <= x + (y - 1) /\ ((y | x) -> r = x).
Proof.
  intros Hx Hy Hm. unfold roundup, int_ok. destruct (Z.leb_spec (x + (y - 1)) INT_MAX); [|lia].
  cbn [mbind option_bind]. eexists. split; [done|]. split; [apply Z.divide_factor_r|].
  assert (E : x + (y - 1) = y * ((x + (y - 1)) / y) + (x + (y - 1)) mod y) by (apply Z.div_mod; lia).
  pose proof (Z.mod_pos_bound (x + (y - 1)) y ltac:(lia)). split; [nia|]. intros [q ->].
  replace (q * y + (y - 1)) with ((y - 1) + q * y) by lia. rewrite Z.div_add, Z.div_small by lia. lia.
Qed.

(** What [place_externs] makes of a list, from [off] on. *)
Record placed (off : Z) (xs ys : list extern_desc) : Prop := {
  pl_same : map unplaced ys = map unplaced xs;
  pl_end : off <= places_end off ys <= off + room xs;
  pl_place i x k : ys !! i = Some x -> x_u x = EXT_KCFG k ->
    (kc_align k | kc_data_off k) /\ off <= kc_data_off k /\ kc_data_off k + kc_sz k <= places_end off ys;
  pl_apart i j x y k1 k2 : (i < j)%nat -> ys !! i = Some x -> ys !! j = Some y ->
    x_u x = EXT_KCFG k1 -> x_u y = EXT_KCFG k2 -> kc_data_off k1 + kc_sz k1 <= kc_data_off k2 }.

Lemma placed_skip off x xs ys : x_u x <> EXT_KCFG (ext_kcfg x) -> placed off xs ys -> placed off (x :: xs) (x :: ys).
Proof.
  intros Hx [Hs He Hp Ha]. assert (Hno : forall k, x_u x <> EXT_KCFG k).
  { intros k E. apply Hx. unfold ext_kcfg. by rewrite E. }
  constructor; cbn.
  - by rewrite Hs.
  - destruct (x_u x) as [|k|s] eqn:E; [lia|by destruct (Hno k)|lia].
  - intros [|i] y k Hi Hk; cbn in Hi; [injection Hi as ->; by destruct (Hno k)|].
    destruct (x_u x) as [|k'|s] eqn:E; [by eapply Hp|by destruct (Hno k')|by eapply Hp].
  - intros [|i] [|j] y z k1 k2 Hij Hi Hj Hk1 Hk2; cbn in Hi, Hj; try lia.
    + injection Hi as ->. by destruct (Hno k1).
    + by eapply (Ha i j); [lia|..].
Qed.

Lemma unplaced_off x k off : x_u x = EXT_KCFG k -> unplaced (with_data_off x k off) = unplaced x.
Proof. intros E. unfold unplaced. cbn. rewrite E. done. Qed.

Lemma placed_cons off x k d xs ys : x_u x = EXT_KCFG k -> 1 <= kc_sz k -> 1 <= kc_align k ->
  (kc_align k | d) -> off <= d <= off + (kc_align k - 1) -> placed (d + kc_sz k) xs ys ->
  placed off (x :: xs) (with_data_off x k d :: ys).
Proof.
  intros E Hsz Hal Hdiv Hd [Hs He Hp Ha]. constructor; cbn [map places_end room].
  - by rewrite Hs, unplaced_off.
  - rewrite E. cbn. lia.
  - intros [|i] y k' Hi Hk; cbn in Hi.
    + injection Hi as <-. cbn in Hk. injection Hk as <-. cbn. split_and!; [done|lia|lia].
    + destruct (Hp i y k' Hi Hk) as (H1 & H2 & H3). cbn. split_and!; [done|lia|lia].
  - intros [|i] [|j] y z k1 k2 Hij Hi Hj Hk1 Hk2; cbn in Hi, Hj; try lia.
    + injection Hi as <-. cbn in Hk1. injection Hk1 as <-. cbn.
      by destruct (Hp j z k2 Hj Hk2) as (_ & H2 & _).
    + by eapply (Ha i j); [lia|..].
Qed.

Lemma place_externs_spec xs : forall off, Forall sized xs -> 0 <= off -> off + room xs <= INT_MAX ->
  exists ys, place_externs off xs = Some ys /\ placed off xs ys.
Proof.
  induction xs as [|x xs IH]; intros off Hs Hoff Hroom.
  { exists []. split; [done|]. constructor; cbn; [done|lia|done|done]. }
  apply Forall_cons in Hs as [Hx Hs]. pose proof (room_nonneg xs Hs) as Hr. cbn [place_externs].
  unfold sized in Hx. cbn in Hroom. destruct (x_u x) as [|k|s] eqn:E.
  - destruct (IH off Hs Hoff) as (ys & -> & Hp); [lia|]. eexists. split; [done|]. apply placed_skip; [by rewrite E|done].
  - destruct (roundup_spec off (kc_align k)) as (d & -> & Hdiv & Hd & _); [lia..|]. cbn [mbind option_bind].
    unfold int_ok. destruct (Z.leb_spec (d + kc_sz k) INT_MAX); [|lia]. cbn [mbind option_bind].
    destruct (IH (d + kc_sz k) Hs) as (ys & -> & Hp); [lia|lia|]. eexists. split; [done|].
    by apply placed_cons; try lia.
  - destruct (IH off Hs Hoff) as (ys & -> & Hp); [lia|]. eexists. split; [done|]. apply placed_skip; [by rewrite E|done].
Qed.

(** Types as C compilers make them: the alignment is a power of two that
    divides the size. *)
Definition natural (x : extern_desc) : Prop :=
  match x_u x with
  | EXT_KCFG k => (exists n, 0 <= n /\ kc_align k = 2 ^ n) /\ (kc_align k | kc_sz k)
  | _ => True
  end.

Lemma pow2_divide n m : 0 <= n -> 2 ^ n <= 2 ^ m -> (2 ^ n | 2 ^ m).
Proof.
  intros Hn H. destruct (Z.le_gt_cases n m) as [Hle|Hgt].
  - exists (2 ^ (m - n)). rewrite <- Z.pow_add_r by lia. f_equal. lia.
  - assert (2 ^ m < 2 ^ n) by (destruct (Z.le_gt_cases 0 m); [apply Z.pow_lt_mono_r; lia|
      rewrite (Z.pow_neg_r 2 m) by lia; apply Z.pow_pos_nonneg; lia]). lia.
Qed.

(** In the order of [cmp_externs] no padding is needed. *)
Lemma place_externs_tight xs : forall off ys, Forall sized xs -> Forall natural xs -> 0 <= off ->
  StronglySorted extern_le xs -> off + room xs <= INT_MAX ->
  (forall x k, x ∈ xs -> x_u x = EXT_KCFG k -> (kc_align k | off)) ->
  place_externs off xs = Some ys -> places_end off ys = off + total_size xs.
Proof.
  induction xs as [|x xs IH]; intros off ys Hs Hn Hoff Hsort Hroom Hdiv H.
  { injection H as <-. cbn. lia. }
  apply Forall_cons in Hs as [Hx Hs], Hn as [Hnx Hn]. apply StronglySorted_inv in Hsort as [Hsort Hle].
  pose proof (room_nonneg xs Hs) as Hr. cbn [place_externs] in H. unfold sized in Hx. cbn in Hroom.
  destruct (x_u x) as [|k|s] eqn:E.
  1,3: destruct (place_externs off xs) as [ys'|] eqn:Ep; [|done]; injection H as <-; cbn; rewrite E;
    eapply IH; try done; intros y k' Hy; apply Hdiv; by constructor.
  destruct (roundup_spec off (kc_align k)) as (d & Er & _ & Hd & Hdx); [lia..|]. rewrite Er in H.
  rewrite (Hdx (Hdiv x k ltac:(by constructor) E)) in *. clear Er Hdx Hd. cbn [mbind option_bind] in H.
  unfold int_ok in H. destruct (Z.leb_spec (off + kc_sz k) INT_MAX); [|lia]. cbn [mbind option_bind] in H.
  destruct (place_externs (off + kc_sz k) xs) as [ys'|] eqn:Ep; [|done]. injection H as <-. cbn. rewrite E.
  rewrite (IH (off + kc_sz k) ys'); [lia|done|done|lia|done|lia| |done].
  intros y k' Hy Ey. unfold natural in Hnx. rewrite E in Hnx. destruct Hnx as ((n & Hn0 & En) & Hsz).
  rewrite Forall_forall in Hn, Hle. specialize (Hn y Hy). unfold natural in Hn. rewrite Ey in Hn.
  destruct Hn as ((m & Hm0 & Em) & _). specialize (Hle y Hy). apply extern_le_keys in Hle.
  unfold ext_type, key1 in Hle. rewrite E, Ey in Hle.
  apply Z.divide_trans with (kc_align k).
  - rewrite En, Em. apply pow2_divide; [done|]. rewrite <- En, <- Em. lia.
  - apply Z.divide_add_r; [|done]. apply (Hdiv x); [by constructor|done].
Qed.

(** ** Collected variables *)

(** The size of a configuration value is that of its type. *)
Lemma skip_resolve b : forall f id t t' id' n nelems r b',
  skip_loop f b id t = Some (t', id') -> resolve_loop n b t nelems = Some (r, b') -> 0 < s32 r ->
  exists n', resolve_loop (S n') b (Some t') nelems = Some (r, b').
Proof.
  induction f as [|f IH]; intros id t t' id' n nelems r b' Hs Hr Hpos; [done|].
  assert (Hbad : forall m, 0 < s32 (resolve_done (-1) m) -> False) by (intros m; vm_compute; done).
  destruct n as [|n]; cbn [resolve_loop] in Hr.
  { injection Hr as <- <-. by destruct (Hbad nelems). }
  cbn [skip_loop] in Hs. destruct t as [t|]; [|done]. cbn [mbind option_bind] in Hs.
  unfold btf_is_mod_or_typedef, kind_is in Hs. destruct (btf_kind t) as [k|] eqn:Ek; [|done].
  cbn [mbind option_bind] in Hs. case_bool_decide as Hk.
  2: { injection Hs as <- <-. by exists n. }
  destruct (btf_type_is_void_or_null (Some t)) as [[|]|] eqn:Ev; [| |done].
  { cbn [mbind option_bind] in Hr. injection Hr as <- <-. by destruct (Hbad nelems). }
  cbn [mbind option_bind] in Hr. rewrite Ek in Hr. cbn [mbind option_bind] in Hr.
  destruct (t_size t) as [ty|] eqn:Et; [|done]. cbn [mbind option_bind] in Hs, Hr.
  destruct (btf__type_by_id b ty) as [t1|] eqn:E1; [|done]. cbn [mbind option_bind] in Hs.
  apply (IH ty t1 t' id' n nelems r b' Hs); [|done].
  rewrite !elem_of_cons in Hk. destruct Hk as [Hk|[Hk|[Hk|[Hk|[Hk|Hk]]]]]; try (by apply not_elem_of_nil in Hk);
    rewrite Hk in Hr; exact Hr.
Qed.

Lemma resolve_int n b t k sz r b' : btf_kind t = Some k -> kind_of k = KIND_INT \/ kind_of k = KIND_ENUM ->
  t_size t = Some sz -> resolve_loop (S n) b (Some t) 1 = Some (r, b') -> 0 <= sz <= 8 -> 0 < s32 r -> r = sz.
Proof.
  intros Hk Hki Hsz Hr Hrange Hpos. cbn [resolve_loop] in Hr.
  destruct (btf_type_is_void_or_null (Some t)) as [[|]|]; [| |done]; cbn [mbind option_bind] in Hr.
  { injection Hr as <- <-. vm_compute in Hpos. done. }
  rewrite Hk in Hr. cbn [mbind option_bind] in Hr.
  assert (E : Some (resolve_done sz 1, b) = Some (r, b')).
  { destruct Hki as [E|E]; rewrite E, Hsz in Hr; exact Hr. }
  injection E as <- _. unfold resolve_done. destruct (Z.ltb_spec sz 0); [lia|]. cbn [Z.eqb negb andb].
  change (UINT32_MAX / 1) with UINT32_MAX. destruct (Z.gtb_spec sz UINT32_MAX); lia.
Qed.

(** The sizes the tests of [find_kcfg_type] let pass. *)
Lemma int_size size : (size <? 1) || (size >? 8) || negb (Z.land size (u32 (size - 1)) =? 0) = false ->
  size = 1 \/ size ∈ [2; 4; 8].
Proof.
  intros H. apply orb_false_iff in H as [H Hl]. apply orb_false_iff in H as [H1 H2].
  apply Z.ltb_ge in H1. rewrite Z.gtb_ltb in H2. apply Z.ltb_ge in H2.
  assert (size ∈ [1; 2; 3; 4; 5; 6; 7; 8]) as Hin by (rewrite !elem_of_cons; lia).
  rewrite !elem_of_cons in Hin.
  destruct Hin as [->|[->|[->|[->|[->|[->|[->|[->|Hin]]]]]]]]; [| | | | | | | |by apply not_elem_of_nil in Hin];
    vm_compute in Hl; try discriminate; [by left|right; rewrite !elem_of_cons; lia..].
Qed.

Lemma kcfg_type_size fuel b id ty sg r :
  find_kcfg_type fuel b id = Some (ty, sg) -> resolve_size b id = Some r -> 0 < s32 r ->
  match ty with
  | KCFG_CHAR | KCFG_BOOL => s32 r = 1
  | KCFG_INT => s32 r ∈ [2; 4; 8]
  | _ => True
  end.
Proof.
  destruct fuel as [|fuel]; [done|]. intros Hf Hr Hpos. cbn [find_kcfg_type] in Hf.
  destruct (skip_mods_and_typedefs b id) as [[t id']|] eqn:Es; [|done]. cbn [mbind option_bind] in Hf.
  unfold skip_mods_and_typedefs in Es. unfold resolve_size, btf__resolve_size in Hr.
  revert Hr. generalize MAX_RESOLVE_DEPTH as levels. intros levels Hr.
  destruct (btf__type_by_id b id) as [t0|]; [|done]. cbn [mbind option_bind] in Es, Hr.
  destruct (resolve_loop levels b t0 1) as [[r' b']|] eqn:Er; [|done]. cbn [mbind option_bind] in Hr.
  injection Hr as ->. destruct (skip_resolve _ _ _ _ _ _ _ _ _ _ Es Er Hpos) as [n Hn]. clear Es Er.
  destruct (t_name_off t); [|done]. cbn [mbind option_bind] in Hf.
  destruct (name_at b z) as [name|]; [|done]. cbn [mbind option_bind] in Hf.
  destruct (btf_kind t) as [k|] eqn:Ek; [|done]. cbn [mbind option_bind] in Hf.
  destruct (kind_of k) eqn:Eki; try (by injection Hf as <- <-).
  - destruct (btf_int_encoding t) as [enc|]; [|done]. cbn [mbind option_bind] in Hf.
    destruct (t_size t) as [size|] eqn:Esz; [|done]. cbn [mbind option_bind] in Hf.
    pose proof (fun H => resolve_int n b t k size r b' Ek (or_introl Eki) Esz Hn H Hpos) as Hsz.
    destruct (negb (Z.land enc 4 =? 0)).
    + injection Hf as <- <-. destruct (Z.eqb_spec size 1) as [->|]; [|done]. by rewrite Hsz by lia.
    + destruct (Z.eqb_spec size 1) as [->|Hne]; [injection Hf as <- <-; by rewrite Hsz by lia|].
      destruct ((size <? 1) || _ || _) eqn:Et; injection Hf as <- <-; [done|].
      apply int_size in Et as [->|Et]; [done|]. rewrite !elem_of_cons in Et.
      destruct Et as [->|[->|[->|Et]]]; [..|by apply not_elem_of_nil in Et];
        rewrite Hsz by lia; vm_compute; by repeat constructor.
  - destruct (array_nelems t) as [ne|]; [|done]. cbn [mbind option_bind] in Hf.
    destruct (ne =? 0); [by injection Hf as <- <-|]. destruct (array_type t) as [el|]; [|done].
    cbn [mbind option_bind] in Hf. destruct (find_kcfg_type fuel b el) as [[ty' sg']|]; [|done].
    cbn [mbind option_bind] in Hf. injection Hf as <- <-. by destruct (negb _).
  - destruct (t_size t) as [size|]; [|done]. cbn [mbind option_bind] in Hf.
    destruct (negb (size =? 4)); [by injection Hf as <- <-|]. destruct name as [nm|]; [|done].
    cbn [mbind option_bind] in Hf. injection Hf as <- <-. by destruct (negb _).
  - destruct name as [nm|]; [|done]. cbn [mbind option_bind] in Hf. injection Hf as <- <-. by destruct (negb _).
Qed.

(** A variable as it is collected: not set, not placed, of a known type whose
    size it has; only the size of a 64-bit enumeration is not looked at. *)
Definition kcfg_typed (k : kcfg) : Prop :=
  1 <= kc_sz k < 2 ^ 31 /\ kc_type k <> KCFG_UNKNOWN /\
  match kc_type k with
  | KCFG_CHAR | KCFG_BOOL => kc_sz k = 1
  | KCFG_INT => kc_sz k ∈ [2; 4; 8]
  | _ => True
  end.

Definition fresh (x : extern_desc) : Prop :=
  x_is_set x = false /\
  match x_u x with
  | EXT_UNKNOWN => False
  | EXT_KCFG k => kc_data_off k = 0 /\ 1 <= kc_align k /\ kcfg_typed k
  | EXT_KSYM s => ks_addr s = 0
  end.

Lemma s32_max r : s32 r < 2 ^ 31.
Proof. width_lia. Qed.

Lemma collect_extern_fresh b i sym name x : collect_extern b i sym name = Some (Collected x) -> fresh x.
Proof.
  intros H. unfold collect_extern in H. apply bind_Some in H as (id & _ & H).
  destruct (id <=? 0); [done|]. apply bind_Some in H as (b' & _ & H).
  inv_bind H. destruct (_ <=? 0) in H; [done|]. inv_bind H.
  destruct (strcmp _ (lit ".kconfig") =? 0) in H.
  - apply bind_Some in H as (func & _ & H). destruct func; [done|].
    apply bind_Some in H as (sz & Hsz & H). destruct (Z.leb_spec (s32 sz) 0); [done|].
    apply bind_Some in H as (al & _ & H). destruct (Z.leb_spec (s32 al) 0); [done|].
    apply bind_Some in H as ([ty sg] & Hty & H). case_bool_decide as Hu; [done|].
    injection H as <-. split; [done|]. cbn. split_and!; [done|lia|].
    pose proof (kcfg_type_size _ _ _ _ _ _ Hty Hsz ltac:(lia)) as Hs. pose proof (s32_max sz).
    unfold kcfg_typed. cbn. split_and!; [lia|lia|done|by destruct ty].
  - destruct (strcmp _ (lit ".ksyms") =? 0) in H; [|done].
    apply bind_Some in H as ([? ?] & _ & H). injection H as <-. by split.
Qed.

Lemma collect_loop_fresh alloc_ok b syms : forall i xs ys, Forall fresh xs ->
  collect_loop alloc_ok b i syms xs = Some (inr ys) -> Forall fresh ys.
Proof.
  induction syms as [|[sym|] syms IH]; intros i xs ys Hx H; cbn in H; [by injection H as <-| |done].
  destruct (negb (sym_is_extern sym)); [by eapply IH|].
  destruct (st_name sym) as [[|c n]|]; [by eapply IH| |by eapply IH].
  destruct (negb (alloc_ok _)); [done|]. apply bind_Some in H as (r & Hr & H).
  destruct r as [x|e x]; [|done]. eapply IH; [|exact H]. apply Forall_app. split; [done|].
  constructor; [|done]. by eapply collect_extern_fresh.
Qed.

Lemma unplaced_fresh x : fresh x -> unplaced x = x.
Proof.
  intros [_ H]. unfold unplaced. destruct x as [a b c d e f u]. cbn in *. destruct u as [|k|s]; [done| |done].
  destruct H as [H _]. destruct k as [ty sz al off sg]. cbn in H. unfold with_data_off. cbn. by rewrite H.
Qed.

Lemma map_unplaced xs : Forall fresh xs -> map unplaced xs = xs.
Proof. induction 1 as [|x xs Hx _ IH]; [done|]. cbn [map]. by rewrite unplaced_fresh, IH. Qed.

Lemma unplaced_name x : x_name (unplaced x) = x_name x.
Proof. unfold unplaced. by destruct (x_u x). Qed.

Lemma fresh_sized x : fresh x -> sized x.
Proof. intros [_ H]. unfold sized. destruct (x_u x) as [|k|s]; [done| |done]. destruct H as (_ & ? & ? & _). lia. Qed.

(** A tristate must have room for the four bytes of its enumeration. *)
Definition tristates_fit (xs : list extern_desc) : Prop :=
  forall x k, x ∈ xs -> x_u x = EXT_KCFG k -> kc_type k = KCFG_TRISTATE -> 4 <= kc_sz k.

Lemma placed_externs_ok xs ys : Forall fresh xs -> NoDup (map x_name xs) -> tristates_fit xs ->
  map unplaced ys ≡ₚ xs -> placed 0 (map unplaced ys) ys -> externs_ok ys (places_end 0 ys).
Proof.
  intros Hf Hn Ht Hperm [_ He Hp Ha].
  assert (Hy : forall i y, ys !! i = Some y -> unplaced y ∈ xs).
  { intros i y Hi. rewrite <- Hperm. apply list_elem_of_In, in_map. by apply list_elem_of_In, (list_elem_of_lookup_2 ys i). }
  constructor.
  - assert (E : map x_name ys = map x_name (map unplaced ys)).
    { rewrite map_map. apply map_ext. intros y. by rewrite unplaced_name. }
    rewrite E. by rewrite (Permutation_map x_name Hperm).
  - intros i y k Hi Hk. destruct (Hp i y k Hi Hk) as (_ & H1 & H2). split; [|done].
    pose proof (Hy i y Hi) as Hin. rewrite Forall_forall in Hf. pose proof (Hf _ Hin) as [_ Hfy].
    assert (Eu : x_u (unplaced y) = EXT_KCFG (Kcfg (kc_type k) (kc_sz k) (kc_align k) 0 (kc_is_signed k)))
      by (unfold unplaced; by rewrite Hk).
    rewrite Eu in Hfy. destruct Hfy as (_ & _ & Hsz & Hun & Hty). cbn in Hsz, Hun, Hty.
    unfold kcfg_ok. split_and!; [done|lia|lia|].
    destruct (kc_type k) eqn:Et; [done|done|done|done| |done]. eapply (Ht _ _ Hin Eu). done.
  - intros i y s Hi Hs. pose proof (Hy i y Hi) as Hin. rewrite Forall_forall in Hf.
    pose proof (Hf _ Hin) as [_ Hfy]. unfold unplaced in Hfy. by rewrite Hs, Hs in Hfy.
  - intros i j y z k1 k2 Hij Hi Hj H1 H2. unfold apart. destruct (Nat.lt_ge_cases i j).
    + left. by eapply (Ha i j).
    + right. eapply (Ha j i); [lia|done..].
Qed.

Lemma map_sz_default ys : default 0 (kconfig_map_sz ys) = places_end 0 ys.
Proof.
  unfold kconfig_map_sz. induction ys as [|y ys IH]; [done|]. cbn. destruct (x_u y); [done| |done].
  by rewrite map_sz_end.
Qed.

Lemma collect_externs_spec alloc_ok b syms xs :
  collect_loop alloc_ok b 0 syms [] = Some (inr xs) -> room xs <= INT_MAX ->
  exists ys, bpf_object__collect_externs alloc_ok b syms = Some (0, ys) /\ Forall fresh xs /\
    place_externs 0 (merge_sort extern_le xs) = Some ys /\ map unplaced ys = merge_sort extern_le xs /\
    placed 0 (map unplaced ys) ys.
Proof.
  intros Hc Hroom. pose proof (collect_loop_fresh _ _ _ _ _ _ (List.Forall_nil _) Hc) as Hf.
  set (zs := merge_sort extern_le xs). assert (Hzp : zs ≡ₚ xs) by apply merge_sort_Permutation.
  assert (Hfz : Forall fresh zs) by (by rewrite Hzp).
  assert (Hsz : Forall sized zs) by (eapply Forall_impl; [exact Hfz|apply fresh_sized]).
  rewrite <- (room_perm _ _ Hzp) in Hroom.
  destruct (place_externs_spec zs 0 Hsz ltac:(lia) Hroom) as (ys & Ey & Hpl). exists ys.
  assert (Hsame : map unplaced ys = zs) by (rewrite (pl_same _ _ _ Hpl); by apply map_unplaced).
  split_and!; [|done|done|done|by rewrite Hsame].
  unfold bpf_object__collect_externs. rewrite Hc. cbn [mbind option_bind]. fold zs. by rewrite Ey.
Qed.

(** C31: the layout of the .kconfig map.  For collected variables that fit the
    integers the code counts with, placing ends and changes nothing but the
    order and the offsets: every configuration value lies at a multiple of
    its alignment within the map made for it, in order and without overlap.
    Where the types have their natural alignment, a power of two that divides
    the size, sorting leaves no padding: the map is as large as the values
    together.  With distinct names, and tristates of four bytes or more, the
    result is what reading a configuration wants. *)
Theorem externs_placed alloc_ok b syms xs :
  collect_loop alloc_ok b 0 syms [] = Some (inr xs) -> room xs <= INT_MAX ->
  exists ys, bpf_object__collect_externs alloc_ok b syms = Some (0, ys) /\
    map unplaced ys ≡ₚ xs /\
    (forall i x k, ys !! i = Some x -> x_u x = EXT_KCFG k ->
       (kc_align k | kc_data_off k) /\ 0 <= kc_data_off k /\
       exists sz, kconfig_map_sz ys = Some sz /\ kc_data_off k + kc_sz k <= sz) /\
    (forall i j x y k1 k2, (i < j)%nat -> ys !! i = Some x -> ys !! j = Some y ->
       x_u x = EXT_KCFG k1 -> x_u y = EXT_KCFG k2 -> kc_data_off k1 + kc_sz k1 <= kc_data_off k2) /\
    (Forall natural xs -> default 0 (kconfig_map_sz ys) = total_size xs) /\
    (NoDup (map x_name xs) -> tristates_fit xs -> externs_ok ys (default 0 (kconfig_map_sz ys))).
Proof.
  intros Hc Hroom. destruct (collect_externs_spec _ _ _ _ Hc Hroom) as (ys & Ey & Hf & Ep & Hsame & Hpl).
  assert (Hzp : merge_sort extern_le xs ≡ₚ xs) by apply merge_sort_Permutation.
  exists ys. rewrite map_sz_default. split_and!; [done|by rewrite Hsame| |apply (pl_apart _ _ _ Hpl)| |].
  - intros i x k Hi Hk. destruct (pl_place _ _ _ Hpl i x k Hi Hk) as (H1 & H2 & H3). split_and!; [done|done|].
    exists (places_end 0 ys). split; [by eapply map_sz_places|done].
  - intros Hn. rewrite <- (total_size_perm _ _ Hzp).
    rewrite (place_externs_tight (merge_sort extern_le xs) 0 ys); [lia| |by rewrite Hzp|lia|apply sorted_externs| | |done].
    + rewrite Hzp. eapply Forall_impl; [exact Hf|apply fresh_sized].
    + by rewrite (room_perm _ _ Hzp).
    + intros. apply Z.divide_0_r.
  - intros Hn Ht. apply (placed_externs_ok xs); [done|done|done|by rewrite Hsame|done].
Qed.

(** ** Examples *)

Definition ex_info (kind vlen : Z) : Z := kind * 16777216 + vlen.

Definition ex_strings (l : list string) : list Z := 0 :: concat (map (fun s => lit s ++ [0]) l).

Definition ex_object (types : list (list Z)) (strs : list string) : btf :=
  let t := concat (map le32 (concat types)) in let s := ex_strings strs in
  loaded (ex_hdr (Z.of_nat (length t)) (Z.of_nat (length t)) (Z.of_nat (length s)) ++ t ++ s) None.

(** [unsigned int], [char], [char[6]] and [enum libbpf_tristate]; the variables
    CONFIG_HZ, CONFIG_BPF, CONFIG_NAME and LINUX_KERNEL_VERSION in .kconfig,
    jiffies, without a type, and the function kfn in .ksyms. *)
Definition ex_obj : btf := ex_object [
  [1; ex_info 1 0; 4; 32]; [10; ex_info 1 0; 1; 16777224]; [0; ex_info 3 0; 0; 2; 1; 6];
  [15; ex_info 6 3; 4; 31; 0; 31; 1; 31; 2];
  [33; ex_info 14 0; 1; 2]; [43; ex_info 14 0; 4; 2]; [54; ex_info 14 0; 3; 2]; [66; ex_info 14 0; 1; 2];
  [87; ex_info 14 0; 0; 2]; [0; ex_info 13 0; 0]; [95; ex_info 12 2; 10];
  [99; ex_info 15 4; 0; 5; 0; 4; 6; 0; 4; 7; 0; 6; 8; 0; 4];
  [108; ex_info 15 2; 0; 9; 0; 0; 11; 0; 0]]
  ["unsigned"; "char"; "libbpf_tristate"; "T"; "CONFIG_HZ"; "CONFIG_BPF"; "CONFIG_NAME";
   "LINUX_KERNEL_VERSION"; "jiffies"; "kfn"; ".kconfig"; ".ksyms"]%string.

Definition ex_sym (info : Z) (name : string) : option elf_sym :=
  Some {| st_info := info; st_shndx := 0; st_name := Some (lit name) |}.

(** The names as the symbol table may have them; the last is weak. *)
Definition ex_syms : list (option elf_sym) :=
  [ex_sym 0 ""; ex_sym 16 "CONFIG_NAME"; ex_sym 16 "jiffies"; ex_sym 16 "CONFIG_HZ"; ex_sym 16 "kfn";
   ex_sym 16 "LINUX_KERNEL_VERSION"; ex_sym 32 "CONFIG_BPF"]%string.

Definition ex_collected : list extern_desc :=
  match collect_loop always (Some ex_obj) 0 ex_syms [] with Some (inr xs) => xs | _ => [] end.

(** The variables in their order with offset and size. *)
Definition places (xs : list extern_desc) : list (list Z * option (Z * Z)) :=
  map (fun x => (x_name x, match x_u x with EXT_KCFG k => Some (kc_data_off k, kc_sz k) | _ => None end)) xs.

Definition ex_placed : list extern_desc := default [] (place_externs 0 (merge_sort extern_le ex_collected)).

Lemma ex_natural : Forall natural ex_collected.
Proof.
  change ex_collected with (match collect_loop always (Some ex_obj) 0 ex_syms [] with Some (inr xs) => xs | _ => [] end).
  vm_compute collect_loop. repeat constructor; cbn.
  all: try (exists 0; split; [lia|reflexivity]); try (exists 2; split; [lia|reflexivity]).
  all: try (exists 1; reflexivity); try (exists 6; reflexivity).
Qed.

Definition tristates_check (xs : list extern_desc) : bool :=
  forallb (fun x => match x_u x with
    EXT_KCFG k => negb (bool_decide (kc_type k = KCFG_TRISTATE)) || (4 <=? kc_sz k) | _ => true end) xs.

Lemma tristates_check_ok xs : tristates_check xs = true -> tristates_fit xs.
Proof.
  unfold tristates_check. rewrite forallb_forall. intros H x k Hx Hk Ht. apply list_elem_of_In in Hx.
  specialize (H x Hx). rewrite Hk, bool_decide_eq_true_2 in H by done. cbn in H. by apply Z.leb_le.
Qed.

Lemma ex_names : NoDup (map x_name ex_collected).
Proof. apply (bool_decide_unpack (NoDup (map x_name ex_collected))). vm_compute. exact I. Qed.

Lemma ex_tristates : tristates_fit ex_collected.
Proof. apply tristates_check_ok. vm_compute. reflexivity. Qed.

Lemma ex_placed_ok : externs_ok ex_placed 18.
Proof.
  destruct (collect_externs_spec always (Some ex_obj) ex_syms ex_collected) as (ys & _ & Hf & Ep & Hs & Hp).
  { vm_compute. reflexivity. }
  { vm_compute. discriminate. }
  unfold ex_placed. rewrite Ep. cbn [default]. assert (E : places_end 0 ys = 18).
  { rewrite <- map_sz_default. replace ys with ex_placed by (unfold ex_placed; by rewrite Ep). vm_compute. reflexivity. }
  rewrite <- E. apply (placed_externs_ok ex_collected); [done|apply ex_names|apply ex_tristates| |done].
  rewrite Hs. apply merge_sort_Permutation.
Qed.

Lemma externs_placed_witness : exists ys,
  bpf_object__collect_externs always (Some ex_obj) ex_syms = Some (0, ys) /\
  map unplaced ys ≡ₚ ex_collected /\ default 0 (kconfig_map_sz ys) = 18 /\ externs_ok ys 18.
Proof.
  destruct (externs_placed always (Some ex_obj) ex_syms ex_collected) as (ys & H1 & H2 & _ & _ & H3 & H4).
  { vm_compute. reflexivity. }
  { vm_compute. discriminate. }
  assert (Hsz : default 0 (kconfig_map_sz ys) = 18) by (rewrite (H3 ex_natural); reflexivity).
  exists ys. split; [exact H1|]. split; [exact H2|]. split; [exact Hsz|]. rewrite <- Hsz. apply H4.
  - exact ex_names.
  - exact ex_tristates.
Defined.

Fact ex_places : places ex_placed =
  [(lit "CONFIG_BPF", Some (0, 4)); (lit "CONFIG_HZ", Some (4, 4)); (lit "LINUX_KERNEL_VERSION", Some (8, 4));
   (lit "CONFIG_NAME", Some (12, 6)); (lit "jiffies", None); (lit "kfn", None)].
Proof. vm_compute. reflexivity. Qed.

(** ** Where the code departs from what it means to do *)

(** A value of size 0, [unsigned CONFIG_E[0]], makes the function return the
    size it has resolved, 0, which is success: the variables behind it are not
    collected, and none gets a place. *)
Definition ex_zero : btf := ex_object [
  [1; ex_info 1 0; 4; 32]; [0; ex_info 3 0; 0; 1; 1; 0];
  [10; ex_info 14 0; 1; 2]; [19; ex_info 14 0; 2; 2]; [28; ex_info 14 0; 1; 2];
  [38; ex_info 15 3; 0; 3; 0; 4; 4; 0; 0; 5; 0; 4]]
  ["unsigned"; "CONFIG_A"; "CONFIG_E"; "CONFIG_HZ"; ".kconfig"]%string.

Fact zero_size_ends_collection :
  (r ← bpf_object__collect_externs always (Some ex_zero)
         [ex_sym 16 "CONFIG_A"; ex_sym 16 "CONFIG_E"; ex_sym 16 "CONFIG_HZ"];
   Some (r.1, places r.2))
  = Some (0, [(lit "CONFIG_A", Some (0, 4)); (lit "CONFIG_E", Some (0, 0))]).
Proof. vm_compute. reflexivity. Qed.

(** An enumeration [libbpf_tristate] of one byte, as a 64-bit enumeration,
    passes for a tristate, but four bytes are stored: those of the variable
    behind it are overwritten. *)
Definition ex_narrow : btf := ex_object [
  [1; ex_info 19 0; 1]; [17; ex_info 14 0; 1; 2]; [28; ex_info 1 0; 1; 8]; [33; ex_info 14 0; 3; 2];
  [42; ex_info 15 2; 0; 2; 0; 1; 4; 0; 1]]
  ["libbpf_tristate"; "CONFIG_BPF"; "char"; "CONFIG_C"; ".kconfig"]%string.

Fact narrow_tristate_overruns :
  (r ← bpf_object__collect_externs always (Some ex_narrow) [ex_sym 16 "CONFIG_BPF"; ex_sym 16 "CONFIG_C"];
   let data := replicate 8 0 in
   s ← bpf_object__read_kconfig_mem (fun _ => 0) ex_buf r.2
         (ex_line "CONFIG_C=7" ++ ex_line "CONFIG_BPF=y") data;
   Some (places r.2, kconfig_map_sz r.2, s.1.1, s.2))
  = Some ([(lit "CONFIG_BPF", Some (0, 1)); (lit "CONFIG_C", Some (1, 1))], Some 2, 0, [1; 0; 0; 0; 0; 0; 0; 0]).
Proof. vm_compute. reflexivity. Qed.
