(* ===== verification/ExternsLoad.v ===== *)
(** * Resolving external variables and kernel symbols
    (src/plugin/libbpf-test/libbpf/src/libbpf.c)

    When an object is loaded each external variable ([Externs]) is resolved:
    the kernel's version and configuration values ([Kconfig]) are stored in the
    .kconfig map, symbols get their addresses from /proc/kallsyms, or their
    ids from the BTF of the kernel and its modules.

    The lines of /proc/kallsyms are what [fscanf] stores; the BTF of modules is
    what [load_module_btfs] has loaded. *)

From stdpp Require Import sorting.
From S2P Require Import Prelude CString StrSet Btf CoreTypes Kconfig Externs.

(** ** Resolving *)

Definition with_ksym (x : extern_desc) (s : ksym) : extern_desc :=
  {| x_sym_idx := x_sym_idx x; x_btf_id := x_btf_id x; x_sec_btf_id := x_sec_btf_id x;
     x_name := x_name x; x_is_set := true; x_is_weak := x_is_weak x; x_u := EXT_KSYM s |}.

(** *** Addresses from /proc/kallsyms *)

Definition kallsyms_cb (b : btf) (sym_addr : Z) (sym_name : list Z) (xs : list extern_desc)
    : option (Z * list extern_desc) :=
  match find_extern_by_name xs sym_name with
  | None => Some (0, xs)
  | Some i =>
      ext ← xs !! i;
      match x_u ext with
      | EXT_KSYM s =>
          t ← btf__type_by_id b (x_btf_id ext); t ← t;
          var ← btf_is_var t;
          if negb var then Some (0, xs)
          else if x_is_set ext && negb (ks_addr s =? sym_addr) then Some (- EINVAL, xs)
          else if negb (x_is_set ext)
          then Some (0, <[i := with_ksym ext (Ksym sym_addr (ks_kernel_btf_obj_fd s) (ks_kernel_btf_id s)
                                               (ks_type_id s) (ks_btf_fd_idx s))]> xs)
          else Some (0, xs)
      | _ => Some (0, xs)
      end
  end.

(** The loop of [libbpf_kallsyms_parse]: a line is the address and the name
    [fscanf] stored, [None] when it did not store three values. *)
Fixpoint kallsyms_parse (b : btf) (lines : list (option (Z * list Z))) (xs : list extern_desc)
    : option (Z * list extern_desc) :=
  match lines with
  | [] => Some (0, xs)
  | None :: _ => Some (- EINVAL, xs)
  | Some (sym_addr, sym_name) :: lines =>
      '(err, xs) ← kallsyms_cb b sym_addr sym_name xs;
      if negb (err =? 0) then Some (err, xs) else kallsyms_parse b lines xs
  end.

(** *** Types from the BTF of the kernel and its modules *)

(** The indices of the modules' descriptors in [fd_array], 0 for none yet, and
    the array. *)
Record fd_table := { fd_array_idx : list Z; fd_array : list Z; fd_array_cnt : Z; fd_array_cap : Z }.

Section Kernel.
(** The object's BTF, that of the kernel, and its modules' with their
    descriptors, unless [load_module_btfs] fails. *)
Context (alloc_ok : Z -> bool) (obj_btf btf_vmlinux : btf) (load_module_btfs : Z + list (btf * Z)).

Definition btf_modules : list (btf * Z) := match load_module_btfs with inl _ => [] | inr l => l end.

Fixpoint find_in_modules (ksym_name : list Z) (kind i : Z) (mods : list (btf * Z)) : option (Z * option Z) :=
  match mods with
  | [] => Some (- ENOENT, None)
  | (b, _) :: mods =>
      id ← btf__find_by_name_kind_own b ksym_name kind;
      if negb (id =? - ENOENT) then Some (id, Some i) else find_in_modules ksym_name kind (i + 1) mods
  end.

(** The id, or an error, and the module. *)
Definition find_ksym_btf_id (ksym_name : list Z) (kind : Z) : option (Z * option Z) :=
  id ← btf__find_by_name_kind btf_vmlinux ksym_name kind;
  '(id, mod_btf, err) ←
    (if id =? - ENOENT then
       match load_module_btfs with
       | inl err => Some (id, None, err)
       | inr mods => '(id, m) ← find_in_modules ksym_name kind 0 mods; Some (id, m, 0)
       end
     else Some (id, None, 0));
  if negb (err =? 0) then Some (err, None)
  else if id <=? 0 then Some (- ESRCH, None) else Some (id, mod_btf).

Definition ksym_btf (mod_btf : option Z) : option btf :=
  match mod_btf with None => Some btf_vmlinux | Some i => fst <$> aref btf_modules i end.

Definition types_are_compat (targ : btf) (lid tid : Z) : option Z :=
  bpf_core_types_are_compat obj_btf targ (depth obj_btf) lid tid.

Definition resolve_ksym_var_btf_id (ext : extern_desc) (s : ksym) : option (Z * extern_desc) :=
  '(id, mod_btf) ← find_ksym_btf_id (x_name ext) 14;
  if id <? 0 then Some (if (id =? - ESRCH) && x_is_weak ext then 0 else id, ext) else
  b ← ksym_btf mod_btf;
  (* find target type_id *)
  targ_var ← btf__type_by_id b id; targ_var ← targ_var;
  ty ← t_size targ_var;
  '(_, targ_type_id) ← skip_mods_and_typedefs b ty;
  err ← types_are_compat b (ks_type_id s) targ_type_id;
  if err <=? 0 then Some (- EINVAL, ext) else
  fd ← match mod_btf with None => Some 0 | Some i => snd <$> aref btf_modules i end;
  Some (0, with_ksym ext (Ksym (ks_addr s) fd id (ks_type_id s) (ks_btf_fd_idx s))).

(** The index for a module's descriptor, which is put into the array the
    first time: the error, the index and the table. *)
Definition module_fd_idx (i fd : Z) (tbl : fd_table) : option (Z * Z * fd_table) :=
  idx ← aref (fd_array_idx tbl) i;
  if negb (idx =? 0) then Some (0, idx, tbl)
  (* insn->off is s16 *)
  else if fd_array_cnt tbl =? 32767 then Some (- E2BIG, 0, tbl)
  else
    (* Cannot use index 0 for module BTF fd *)
    let cnt := if fd_array_cnt tbl =? 0 then 1 else fd_array_cnt tbl in
    match libbpf_ensure_mem alloc_ok (fd_array tbl) 0 (fd_array_cap tbl) 4 (cnt + 1) with
    | None => Some (- ENOMEM, 0, {| fd_array_idx := fd_array_idx tbl; fd_array := fd_array tbl;
                                    fd_array_cnt := cnt; fd_array_cap := fd_array_cap tbl |})
    | Some (arr, cap) =>
        idxs ← aset (fd_array_idx tbl) i cnt;
        arr ← aset arr cnt fd;
        Some (0, cnt, {| fd_array_idx := idxs; fd_array := arr; fd_array_cnt := cnt + 1;
                         fd_array_cap := cap |})
    end.

Definition resolve_ksym_func_btf_id (ext : extern_desc) (s : ksym) (tbl : fd_table)
    : option (Z * extern_desc * fd_table) :=
  '(kfunc_id, mod_btf) ← find_ksym_btf_id (x_name ext) 12;
  if kfunc_id <? 0
  then Some (if (kfunc_id =? - ESRCH) && x_is_weak ext then 0 else kfunc_id, ext, tbl) else
  b ← ksym_btf mod_btf;
  kern_func ← btf__type_by_id b kfunc_id; kern_func ← kern_func;
  kfunc_proto_id ← t_size kern_func;
  ret ← types_are_compat b (ks_type_id s) kfunc_proto_id;
  if ret <=? 0 then Some (- EINVAL, ext, tbl) else
  (* set index for module BTF fd in fd_array, if unset *)
  '(err, idx, tbl) ←
    match mod_btf with
    | None => Some (0, 0, tbl)
    | Some i => fd ← snd <$> aref btf_modules i; module_fd_idx i fd tbl
    end;
  if negb (err =? 0) then Some (err, ext, tbl) else
  Some (0, with_ksym ext (Ksym (ks_addr s) (ks_kernel_btf_obj_fd s) kfunc_id (ks_type_id s) idx), tbl).

(** One round of [bpf_object__resolve_ksyms_btf_id]. *)
Definition resolve_ksym (gen_loader : bool) (ext : extern_desc) (tbl : fd_table)
    : option (Z * extern_desc * fd_table) :=
  match x_u ext with
  | EXT_KSYM s =>
      if ks_type_id s =? 0 then Some (0, ext, tbl) else
      if gen_loader
      then Some (0, with_ksym ext (Ksym (ks_addr s) 0 0 (ks_type_id s) (ks_btf_fd_idx s)), tbl) else
      t ← btf__type_by_id obj_btf (x_btf_id ext); t ← t;
      var ← btf_is_var t;
      if var : bool then '(err, ext) ← resolve_ksym_var_btf_id ext s; Some (err, ext, tbl)
      else resolve_ksym_func_btf_id ext s tbl
  | _ => Some (0, ext, tbl)
  end.

Fixpoint bpf_object__resolve_ksyms_btf_id (gen_loader : bool) (xs : list extern_desc) (tbl : fd_table)
    : option (Z * list extern_desc * fd_table) :=
  match xs with
  | [] => Some (0, [], tbl)
  | x :: xs =>
      '(err, x, tbl) ← resolve_ksym gen_loader x tbl;
      if negb (err =? 0) then Some (err, x :: xs, tbl) else
      '(err, xs, tbl) ← bpf_object__resolve_ksyms_btf_id gen_loader xs tbl;
      Some (err, x :: xs, tbl)
  end.
End Kernel.

(** *** All of them *)

(** What the first loop finds out. *)
Record needs := { need_config : bool; need_kallsyms : bool; need_vmlinux_btf : bool }.

Definition needs0 : needs := {| need_config := false; need_kallsyms := false; need_vmlinux_btf := false |}.

Section Resolve.
(** The environment of the object: [kver] is [get_kernel_version()], [kallsyms]
    the errno of opening /proc/kallsyms or its lines. *)
Context (alloc_ok : Z -> bool) (obj_btf btf_vmlinux : btf) (load_module_btfs : Z + list (btf * Z)).
Context (gen_loader : bool) (kver : Z) (kallsyms : Z + list (option (Z * list Z))).
Context (gzopen : list Z -> option (list Z)) (release : list Z) (fmemopen : list Z -> Z) (junk : list Z).

(** A round of the first loop: the error, the variable, the memory of the map,
    which is empty where there is no map, and what is needed. *)
Definition scan_extern (ext : extern_desc) (kcfg_data : list Z) (nd : needs)
    : option (Z * extern_desc * list Z * needs) :=
  match x_u ext with
  | EXT_KCFG k =>
      if strcmp (x_name ext) (lit "LINUX_KERNEL_VERSION") =? 0 then
        if kver =? 0 then Some (- EINVAL, ext, kcfg_data, nd) else
        '(err, ext, kcfg_data) ← set_kcfg_value_num ext kcfg_data (kc_data_off k) kver;
        Some (err, ext, kcfg_data, nd)
      else if str_has_pfx (x_name ext) (lit "CONFIG_") then
        Some (0, ext, kcfg_data, {| need_config := true; need_kallsyms := need_kallsyms nd;
                                    need_vmlinux_btf := need_vmlinux_btf nd |})
      else Some (- EINVAL, ext, kcfg_data, nd)
  | EXT_KSYM s =>
      let typed := negb (ks_type_id s =? 0) in
      Some (0, ext, kcfg_data, {| need_config := need_config nd;
                                  need_kallsyms := need_kallsyms nd || negb typed;
                                  need_vmlinux_btf := need_vmlinux_btf nd || typed |})
  | EXT_UNKNOWN => Some (- EINVAL, ext, kcfg_data, nd)
  end.

Fixpoint scan_externs (xs : list extern_desc) (kcfg_data : list Z) (nd : needs)
    : option (Z * list extern_desc * list Z * needs) :=
  match xs with
  | [] => Some (0, [], kcfg_data, nd)
  | ext :: xs =>
      '(err, ext, kcfg_data, nd) ← scan_extern ext kcfg_data nd;
      if negb (err =? 0) then Some (err, ext :: xs, kcfg_data, nd) else
      '(err, xs, kcfg_data, nd) ← scan_externs xs kcfg_data nd;
      Some (err, ext :: xs, kcfg_data, nd)
  end.

Definition is_kcfg (x : extern_desc) : bool := match x_u x with EXT_KCFG _ => true | _ => false end.

(** The configuration given by the user, and the system's where it is needed. *)
Definition resolve_config (extra_kconfig : option (list Z)) (xs : list extern_desc) (kcfg_data : list Z)
    (nd : needs) : option (Z * list extern_desc * list Z) :=
  '(err, xs, kcfg_data, need) ←
    match extra_kconfig with
    | Some extra =>
        if need_config nd then
          '(err, xs, kcfg_data) ← bpf_object__read_kconfig_mem fmemopen junk xs extra kcfg_data;
          if negb (err =? 0) then Some (- EINVAL, xs, kcfg_data, false)
          else Some (0, xs, kcfg_data, existsb (fun x => is_kcfg x && negb (x_is_set x)) xs)
        else Some (0, xs, kcfg_data, need_config nd)
    | None => Some (0, xs, kcfg_data, need_config nd)
    end;
  if negb (err =? 0) then Some (err, xs, kcfg_data) else
  if need : bool then
    '(err, xs, kcfg_data) ← bpf_object__read_kconfig_file gzopen release junk xs kcfg_data;
    Some (if negb (err =? 0) then - EINVAL else 0, xs, kcfg_data)
  else Some (0, xs, kcfg_data).

(** Addresses and types of kernel symbols. *)
Definition resolve_syms (xs : list extern_desc) (tbl : fd_table) (nd : needs)
    : option (Z * list extern_desc * fd_table) :=
  '(err, xs) ←
    (if need_kallsyms nd then
       match kallsyms with
       | inl errno => Some (- EINVAL, xs)
       | inr lines => '(err, xs) ← kallsyms_parse obj_btf lines xs;
                      Some (if negb (err =? 0) then - EINVAL else 0, xs)
       end
     else Some (0, xs));
  if negb (err =? 0) then Some (err, xs, tbl) else
  if need_vmlinux_btf nd then
    '(err, xs, tbl) ← bpf_object__resolve_ksyms_btf_id alloc_ok obj_btf btf_vmlinux load_module_btfs
                        gen_loader xs tbl;
    Some (if negb (err =? 0) then - EINVAL else 0, xs, tbl)
  else Some (0, xs, tbl).

(** Every variable that is not weak must be set. *)
Definition unresolved (x : extern_desc) : bool := negb (x_is_set x) && negb (x_is_weak x).

Definition bpf_object__resolve_externs (xs : list extern_desc) (kcfg_data : list Z) (tbl : fd_table)
    (extra_kconfig : option (list Z)) : option (Z * list extern_desc * list Z * fd_table) :=
  if bool_decide (xs = []) then Some (0, xs, kcfg_data, tbl) else
  '(err, xs, kcfg_data, nd) ← scan_externs xs kcfg_data needs0;
  if negb (err =? 0) then Some (err, xs, kcfg_data, tbl) else
  '(err, xs, kcfg_data) ← resolve_config extra_kconfig xs kcfg_data nd;
  if negb (err =? 0) then Some (err, xs, kcfg_data, tbl) else
  '(err, xs, tbl) ← resolve_syms xs tbl nd;
  if negb (err =? 0) then Some (err, xs, kcfg_data, tbl) else
  Some (if existsb unresolved xs then - ESRCH else 0, xs, kcfg_data, tbl).
End Resolve.

(** ** What resolving promises *)

(** The first address of a name in the lines of /proc/kallsyms. *)
Fixpoint first_addr (name : list Z) (lines : list (option (Z * list Z))) : option Z :=
  match lines with
  | Some (addr, n) :: lines => if bool_decide (n = name) then Some addr else first_addr name lines
  | None :: lines => first_addr name lines
  | [] => None
  end.

Definition with_addr (s : ksym) (addr : Z) : ksym :=
  Ksym addr (ks_kernel_btf_obj_fd s) (ks_kernel_btf_id s) (ks_type_id s) (ks_btf_fd_idx s).

Section Kallsyms.
Context (b : btf).

Definition sym_is_var (x : extern_desc) : bool :=
  match btf__type_by_id b (x_btf_id x) with
  | Some (Some t) => bool_decide (btf_is_var t = Some true)
  | _ => false
  end.

(** A symbol after the lines [done]: a variable has the first address. *)
Definition sym_after (done : list (option (Z * list Z))) (x : extern_desc) : extern_desc :=
  match x_u x with
  | EXT_KSYM s =>
      if sym_is_var x then
        match first_addr (x_name x) done with Some a => with_ksym x (with_addr s a) | None => x end
      else x
  | _ => x
  end.

Definition sym_known (x : extern_desc) : Prop :=
  match x_u x with
  | EXT_KSYM s => exists t var, btf__type_by_id b (x_btf_id x) = Some (Some t) /\ btf_is_var t = Some var
  | _ => True
  end.

(** No two lines give a variable different addresses. *)
Definition addrs_agree (xs : list extern_desc) (lines : list (option (Z * list Z))) : Prop :=
  forall x s a, x ∈ xs -> x_u x = EXT_KSYM s -> sym_is_var x = true ->
    Some (a, x_name x) ∈ lines -> first_addr (x_name x) lines = Some a.

Lemma sym_after_name done_ x : x_name (sym_after done_ x) = x_name x.
Proof. unfold sym_after. destruct (x_u x); [done..|]. destruct (sym_is_var x); [|done]. by destruct (first_addr _ _). Qed.

Lemma first_addr_app name l1 l2 : first_addr name (l1 ++ l2) =
  match first_addr name l1 with Some v => Some v | None => first_addr name l2 end.
Proof.
  induction l1 as [|[[a n]|] l1 IH]; [done| |done]. cbn [app first_addr]. by case_bool_decide.
Qed.

Lemma find_extern_sym_after done_ xs name :
  find_extern_by_name (map (sym_after done_) xs) name = find_extern_by_name xs name.
Proof. induction xs as [|x xs IH]; [done|]. cbn [map find_extern_by_name]. by rewrite sym_after_name, IH. Qed.

(** A line that names no variable changes no symbol. *)
Lemma sym_after_skip done_ xs addr n :
  (forall x s, x ∈ xs -> x_u x = EXT_KSYM s -> sym_is_var x = true ->
     x_name x = n -> is_Some (first_addr n done_)) ->
  map (sym_after (done_ ++ [Some (addr, n)])) xs = map (sym_after done_) xs.
Proof.
  intros H. apply map_ext_in. intros x Hx. apply list_elem_of_In in Hx. unfold sym_after.
  destruct (x_u x) as [|k|s] eqn:Eu; [done..|]. destruct (sym_is_var x) eqn:Ev; [|done].
  rewrite first_addr_app. destruct (first_addr (x_name x) done_) eqn:Ed; [done|]. cbn.
  case_bool_decide as En; [|done]. destruct (H x s Hx Eu Ev (eq_sym En)) as [a Ha]. congruence.
Qed.

Lemma agree_skip done_ xs addr n : addrs_agree xs done_ ->
  (forall x s, x ∈ xs -> x_u x = EXT_KSYM s -> sym_is_var x = true ->
     x_name x = n -> first_addr n done_ = Some addr) ->
  addrs_agree xs (done_ ++ [Some (addr, n)]).
Proof.
  intros Ha H x s a Hx Hu Hv Hin. rewrite first_addr_app.
  rewrite elem_of_app, list_elem_of_singleton in Hin. destruct Hin as [Hin|E].
  - by rewrite (Ha x s a Hx Hu Hv Hin).
  - injection E as -> E. by rewrite E, (H x s Hx Hu Hv E).
Qed.

Lemma kallsyms_step xs done_ addr n : NoDup (map x_name xs) ->
  (forall x s, x ∈ xs -> x_u x = EXT_KSYM s -> x_is_set x = false) -> Forall sym_known xs ->
  addrs_agree xs done_ ->
  exists err ys, kallsyms_cb b addr n (map (sym_after done_) xs) = Some (err, ys) /\
    (err = 0 -> ys = map (sym_after (done_ ++ [Some (addr, n)])) xs /\ addrs_agree xs (done_ ++ [Some (addr, n)])).
Proof.
  intros Hn Hset Hk Hag. unfold kallsyms_cb. rewrite find_extern_sym_after.
  destruct (find_extern_by_name xs n) as [i|] eqn:Ef.
  2: { exists 0, (map (sym_after done_) xs). split; [done|]. intros _.
       assert (Hno : forall x, x ∈ xs -> x_name x <> n) by (intros x Hx; by eapply find_extern_None).
       split; [symmetry; apply sym_after_skip|apply agree_skip; [done|]]; intros x s Hx _ _ E; by destruct (Hno x Hx). }
  destruct (find_extern_Some _ _ _ Ef) as (x & Hi & Hxn). rewrite list_lookup_fmap, Hi. cbn [fmap option_fmap option_map mbind option_bind].
  assert (Hxin : x ∈ xs) by (by eapply list_elem_of_lookup_2).
  assert (Huniq : forall y, y ∈ xs -> x_name y = n -> y = x).
  { intros y Hy En. apply list_elem_of_lookup in Hy as [j Hj].
    assert (j = i) as -> by (eapply (names_inj xs j i y x Hn Hj Hi); congruence). congruence. }
  assert (Hskip : (forall s, x_u x = EXT_KSYM s -> sym_is_var x = false) ->
    map (sym_after done_) xs = map (sym_after (done_ ++ [Some (addr, n)])) xs /\
    addrs_agree xs (done_ ++ [Some (addr, n)])).
  { intros Hno. split; [symmetry; apply sym_after_skip|apply agree_skip; [done|]];
      intros y s Hy Hu Hv En; rewrite (Huniq y Hy En) in Hu, Hv; rewrite (Hno s Hu) in Hv; done. }
  assert (Eid : x_btf_id (sym_after done_ x) = x_btf_id x).
  { unfold sym_after. destruct (x_u x); [done..|]. destruct (sym_is_var x); [|done]. by destruct (first_addr _ _). }
  destruct (x_u x) as [|k|s] eqn:Eu.
  1,2: assert (Ey : x_u (sym_after done_ x) = x_u x) by (unfold sym_after; by rewrite Eu);
    rewrite Ey, Eu; eexists _, _; split; [done|]; intros _; by apply Hskip.
  rewrite Forall_forall in Hk. pose proof (Hk x Hxin) as Hkx. unfold sym_known in Hkx. rewrite Eu in Hkx.
  destruct Hkx as (t & var & Et & Ev).
  assert (Esv : sym_is_var x = var) by (unfold sym_is_var; rewrite Et, Ev; by destruct var).
  destruct var.
  2: { assert (Ey : x_u (sym_after done_ x) = x_u x) by (unfold sym_after; by rewrite Eu, Esv).
       rewrite Ey, Eu, Eid, Et. cbn [mbind option_bind]. rewrite Ev. cbn [mbind option_bind negb].
       eexists _, _. split; [done|]. intros _. by apply Hskip. }
  destruct (first_addr n done_) as [a|] eqn:Ea.
  - assert (Ey : x_u (sym_after done_ x) = EXT_KSYM (with_addr s a) /\ x_is_set (sym_after done_ x) = true)
      by (unfold sym_after; by rewrite Eu, Esv, Hxn, Ea).
    destruct Ey as [Ey1 Ey2]. rewrite Ey1, Eid, Et. cbn [mbind option_bind]. rewrite Ev, Ey2.
    cbn [mbind option_bind negb andb with_addr ks_addr].
    destruct (Z.eqb_spec a addr) as [->|Hne]; cbn [negb]; [|by eexists _, _].
    eexists _, _. split; [done|]. intros _. split.
    + symmetry. apply sym_after_skip. by intros y s' Hy Hu Hv En.
    + apply agree_skip; [done|]. by intros y s' Hy Hu Hv En.
  - assert (Ey : sym_after done_ x = x) by (unfold sym_after; by rewrite Eu, Esv, Hxn, Ea).
    rewrite Ey, Eu, Et. cbn [mbind option_bind]. rewrite Ev, (Hset x s Hxin Eu).
    cbn [mbind option_bind negb andb]. eexists _, _. split; [done|]. intros _. split.
    + apply list_eq. intros j. destruct (decide (j = i)) as [->|Hji].
      * rewrite list_lookup_insert_eq by (rewrite length_map; by eapply lookup_lt_Some).
        rewrite list_lookup_fmap, Hi. cbn. unfold sym_after. rewrite Eu, Esv, first_addr_app, Hxn, Ea. cbn.
        by rewrite bool_decide_eq_true_2.
      * rewrite list_lookup_insert_ne by done. rewrite !list_lookup_fmap.
        destruct (xs !! j) as [y|] eqn:Hj; [|done]. cbn. f_equal. unfold sym_after.
        rewrite first_addr_app. destruct (x_u y); [done..|]. destruct (sym_is_var y); [|done].
        destruct (first_addr (x_name y) done_); [done|]. cbn. rewrite bool_decide_eq_false_2; [done|].
        intros En. apply Hji. eapply (names_inj xs j i y x Hn Hj Hi). congruence.
    + intros y s' a Hy Hu Hv Hin. rewrite first_addr_app.
      rewrite elem_of_app, list_elem_of_singleton in Hin. destruct Hin as [Hin|E].
      * by rewrite (Hag y s' a Hy Hu Hv Hin).
      * injection E as -> E. rewrite E, Ea. cbn. by rewrite bool_decide_eq_true_2.
Qed.

Lemma kallsyms_parse_spec xs lines : forall done_, NoDup (map x_name xs) ->
  (forall x s, x ∈ xs -> x_u x = EXT_KSYM s -> x_is_set x = false) -> Forall sym_known xs ->
  addrs_agree xs done_ ->
  exists err ys, kallsyms_parse b lines (map (sym_after done_) xs) = Some (err, ys) /\
    (err = 0 -> ys = map (sym_after (done_ ++ lines)) xs /\ addrs_agree xs (done_ ++ lines)).
Proof.
  induction lines as [|[[addr n]|] lines IH]; intros done_ Hn Hs Hk Hag; cbn [kallsyms_parse].
  - eexists _, _. split; [done|]. intros _. by rewrite app_nil_r.
  - destruct (kallsyms_step xs done_ addr n Hn Hs Hk Hag) as (err & ys & -> & H). cbn [mbind option_bind].
    destruct (Z.eqb_spec err 0) as [->|Hne]; cbn [negb]; [|by eexists _, _].
    destruct (H eq_refl) as [-> Hag']. destruct (IH _ Hn Hs Hk Hag') as (err & ys & E & H').
    exists err, ys. split; [done|]. intros E0. rewrite <- app_assoc in H'. by apply H'.
  - by eexists _, _.
Qed.
End Kallsyms.

(** *** Descriptors of modules *)

Section Typed.
Context (alloc_ok : Z -> bool) (obj_btf btf_vmlinux : btf) (load_module_btfs : Z + list (btf * Z)).

Let modules := btf_modules load_module_btfs.

Record tbl_ok (tbl : fd_table) : Prop := {
  to_idx : length (fd_array_idx tbl) = length modules;
  to_cap : fd_array_cap tbl = Z.of_nat (length (fd_array tbl));
  to_cnt : 0 <= fd_array_cnt tbl <= fd_array_cap tbl;
  to_max : fd_array_cnt tbl <= 32767 /\ fd_array_cap tbl < 2 ^ 20;
  to_fd i idx : aref (fd_array_idx tbl) i = Some idx -> idx <> 0 ->
    1 <= idx < fd_array_cnt tbl /\ exists b fd, aref modules i = Some (b, fd) /\ aref (fd_array tbl) idx = Some fd }.

(** Descriptors stay where they are. *)
Definition tbl_grows (tbl tbl' : fd_table) : Prop :=
  fd_array_cnt tbl <= fd_array_cnt tbl' /\
  forall j, 1 <= j < fd_array_cnt tbl -> aref (fd_array tbl') j = aref (fd_array tbl) j.

Lemma tbl_grows_refl tbl : tbl_grows tbl tbl.
Proof. split; [lia|done]. Qed.

Lemma tbl_grows_trans t1 t2 t3 : tbl_grows t1 t2 -> tbl_grows t2 t3 -> tbl_grows t1 t3.
Proof. intros [H1 H2] [H3 H4]. split; [lia|]. intros j Hj. rewrite H4, H2 by lia. done. Qed.

Lemma ensure_mem_grow (l : list Z) zero need : 0 < need <= 32768 -> Z.of_nat (length l) < 2 ^ 20 ->
  match libbpf_ensure_mem alloc_ok l zero (Z.of_nat (length l)) 4 need with
  | None => True
  | Some (l', cap) => (exists ext, l' = l ++ ext) /\ cap = Z.of_nat (length l') /\ need <= cap < 2 ^ 20
  end.
Proof.
  intros Hn Hl. unfold libbpf_ensure_mem, libbpf_add_mem. destruct (Z.leb_spec need (Z.of_nat (length l))).
  { split; [exists []; by rewrite app_nil_r|lia]. }
  replace (Z.of_nat (length l) + (need - Z.of_nat (length l))) with need by lia.
  rewrite !(wrap_small 64) by (pow2; Z.to_euclidean_division_equations; lia).
  destruct (Z.leb_spec need (Z.of_nat (length l))); [lia|].
  destruct (Z.gtb_spec need SIZE_MAX); [lia|].
  set (c := Z.of_nat (length l) + Z.of_nat (length l) / 4).
  assert (Hc : 0 <= c <= 40960) by (unfold c; Z.to_euclidean_division_equations; lia).
  match goal with |- context [Some (_, _, ?n)] => set (cap := n) end.
  assert (Hcap : need <= cap < 2 ^ 20).
  { unfold cap. destruct (Z.ltb_spec c 16); [destruct (Z.gtb_spec 16 SIZE_MAX), (Z.ltb_spec 16 need); lia|].
    destruct (Z.gtb_spec c SIZE_MAX); [lia|]. destruct (Z.ltb_spec c need); lia. }
  destruct (alloc_ok _); [|done]. split; [eauto|]. split; [|done]. rewrite length_app, length_replicate. lia.
Qed.

Lemma aref_app_l {A} (l1 l2 : list A) i v : aref l1 i = Some v -> aref (l1 ++ l2) i = Some v.
Proof. intros H. rewrite aref_app. pose proof (aref_bounds _ _ _ H). destruct (Z.ltb_spec i (Z.of_nat (length l1))); [done|lia]. Qed.

Lemma module_fd_idx_spec i b fd tbl : tbl_ok tbl -> aref modules i = Some (b, fd) ->
  exists err idx tbl', module_fd_idx alloc_ok i fd tbl = Some (err, idx, tbl') /\
    (err = 0 -> tbl_ok tbl' /\ tbl_grows tbl tbl' /\ 1 <= idx < fd_array_cnt tbl' /\
       aref (fd_array tbl') idx = Some fd).
Proof.
  intros Hok Hm. pose proof (aref_bounds _ _ _ Hm) as Hi. rewrite <- (to_idx _ Hok) in Hi.
  destruct (aref_Some (fd_array_idx tbl) i Hi) as [idx Hidx]. unfold module_fd_idx. rewrite Hidx.
  cbn [mbind option_bind]. destruct (Z.eqb_spec idx 0) as [->|Hne]; cbn [negb].
  2: { exists 0, idx, tbl. split; [done|]. intros _. destruct (to_fd _ Hok i idx Hidx Hne) as (Hr & b' & fd' & E1 & E2).
       assert (fd' = fd) as -> by congruence. split_and!; [done|apply tbl_grows_refl|lia|lia|done]. }
  destruct (Z.eqb_spec (fd_array_cnt tbl) 32767) as [|Hmax]; [by eexists _, _, _|].
  set (cnt := if fd_array_cnt tbl =? 0 then 1 else fd_array_cnt tbl).
  pose proof (to_cnt _ Hok) as Hcnt. pose proof (to_max _ Hok) as [Hc1 Hc2].
  assert (Hcn : fd_array_cnt tbl <= cnt /\ 1 <= cnt <= 32766) by (unfold cnt; destruct (Z.eqb_spec (fd_array_cnt tbl) 0); lia).
  pose proof (ensure_mem_grow (fd_array tbl) 0 (cnt + 1) ltac:(lia)) as He. rewrite <- (to_cap _ Hok) in He.
  specialize (He Hc2). destruct (libbpf_ensure_mem _ _ _ _ _ _) as [[arr cap]|]; [|by eexists _, _, _].
  destruct He as ([ext ->] & Ecap & Hcap). rewrite aset_Some by lia. cbn [mbind option_bind].
  rewrite aset_Some by lia. cbn [mbind option_bind]. eexists _, _, _. split; [done|]. intros _. cbn [fd_array fd_array_cnt].
  assert (Eq : aref (<[Z.to_nat cnt:=fd]> (fd_array tbl ++ ext)) cnt = Some fd).
  { apply (aref_aset_eq (fd_array tbl ++ ext)). apply aset_Some. lia. }
  assert (Ne : forall j, j <> cnt -> aref (<[Z.to_nat cnt:=fd]> (fd_array tbl ++ ext)) j = aref (fd_array tbl ++ ext) j).
  { intros j Hj. eapply aref_aset_ne; [apply aset_Some; lia|congruence]. }
  assert (Hold : forall j v, j < cnt -> aref (fd_array tbl) j = Some v -> aref (<[Z.to_nat cnt:=fd]> (fd_array tbl ++ ext)) j = Some v).
  { intros j v Hj E. rewrite Ne by lia. by apply aref_app_l. }
  split_and!; [|split; [cbn; lia|]|lia|lia|done].
  - constructor; cbn [fd_array fd_array_cnt fd_array_cap fd_array_idx].
    + by rewrite length_insert, (to_idx _ Hok).
    + by rewrite length_insert.
    + lia.
    + lia.
    + intros j idx Hj Hne. destruct (Z.eq_dec j i) as [->|Hji].
      * rewrite (aref_aset_eq (fd_array_idx tbl) i cnt) in Hj by (by apply aset_Some). injection Hj as <-.
        split; [lia|]. by exists b, fd.
      * rewrite (aref_aset_ne (fd_array_idx tbl) i j cnt) in Hj; [|by apply aset_Some|congruence].
        destruct (to_fd _ Hok j idx Hj Hne) as (Hr & b' & fd' & E1 & E2). split; [lia|]. exists b', fd'.
        split; [done|]. apply Hold; [lia|done].
  - intros j Hj. cbn [fd_array]. destruct (aref_Some (fd_array tbl) j) as [v Hv]; [rewrite <- (to_cap _ Hok); lia|].
    rewrite Hv. apply Hold; [lia|done].
Qed.

(** *** Typed symbols *)

(** The comparison of the types, for the id and the module found. *)
Definition ksym_compat (s : ksym) (var : bool) (id : Z) (m : option Z) : option Z :=
  b ← ksym_btf btf_vmlinux load_module_btfs m;
  targ ← btf__type_by_id b id; targ ← targ;
  ty ← t_size targ;
  if var then '(_, tid) ← skip_mods_and_typedefs b ty; types_are_compat obj_btf b (ks_type_id s) tid
  else types_are_compat obj_btf b (ks_type_id s) ty.

Definition ksym_kind (var : bool) : Z := if var then 14 else 12.

Definition find_ksym := find_ksym_btf_id btf_vmlinux load_module_btfs.

(** The first type of a kind and name among an object's own types, those from
    the id [lo] on. *)
Definition has_type (b : btf) (lo kind : Z) (name : list Z) (id : Z) : Prop :=
  lo <= id < btf__type_cnt b /\ of_kind b id kind /\ named b id name.

Definition absent (b : btf) (lo kind : Z) (name : list Z) : Prop := forall id, ~ has_type b lo kind name id.

Definition first_type (b : btf) (lo kind : Z) (name : list Z) (id : Z) : Prop :=
  has_type b lo kind name id /\ forall j, j < id -> ~ has_type b lo kind name j.

(** Where the type of a symbol is: in the kernel's BTF, or in the first module
    that has one. *)
Definition ksym_found (name : list Z) (kind id : Z) (m : option Z) : Prop :=
  match m with
  | None => first_type btf_vmlinux 1 kind name id
  | Some i => absent btf_vmlinux 1 kind name /\
      (exists b fd, aref modules i = Some (b, fd) /\ first_type b (start_id b) kind name id) /\
      forall j b fd, j < i -> aref modules j = Some (b, fd) -> absent b (start_id b) kind name
  end.

(** That there is none: the search by name never finds the name void. *)
Definition ksym_missing (name : list Z) (kind : Z) : Prop :=
  name = lit "void" \/
  absent btf_vmlinux 1 kind name /\
  match load_module_btfs with
  | inl err => err = - ESRCH
  | inr mods => forall b fd, (b, fd) ∈ mods -> absent b (start_id b) kind name
  end.

(** The type [ty] of a variable or function of the kernel, without the
    modifiers of a variable's. *)
Definition ksym_target (b : btf) (var : bool) (id tid : Z) : Prop :=
  exists t ty, type_at b id t (ksym_kind var) /\ t_size t = Some ty /\
    if var then exists n t', skips b n ty t' tid else tid = ty.

(** The BTF of the kernel and its modules is as loaded, of finite types. *)
Record kernel_ok : Prop := {
  kk_obj : types_wf obj_btf;
  kk_vmlinux : btf_ok btf_vmlinux /\ types_wf btf_vmlinux;
  kk_modules b fd : (b, fd) ∈ modules -> btf_ok b /\ types_wf b;
  kk_error err : load_module_btfs = inl err -> err < 0 }.

(** A symbol with a type has one of the object's. *)
Definition typed_ok (x : extern_desc) : Prop :=
  match x_u x with EXT_KSYM s => 0 <= ks_type_id s < btf__type_cnt obj_btf | _ => True end.

(** What the lookups in BTF find out. *)
Definition typed_known (x : extern_desc) : Prop :=
  match x_u x with
  | EXT_KSYM s => ks_type_id s <> 0 -> exists t var id m,
      btf__type_by_id obj_btf (x_btf_id x) = Some (Some t) /\ btf_is_var t = Some var /\
      find_ksym (x_name x) (ksym_kind var) = Some (id, m) /\
      (id = - ESRCH -> ksym_missing (x_name x) (ksym_kind var)) /\
      (0 <= id -> ksym_found (x_name x) (ksym_kind var) id m /\
         exists b c, ksym_btf btf_vmlinux load_module_btfs m = Some b /\ ksym_compat s var id m = Some c /\
           (0 < c -> exists tid, ksym_target b var id tid /\ compatible obj_btf b (ks_type_id s) tid))
  | _ => True
  end.

(** A typed symbol resolved: a weak one for which the kernel has no type of
    its kind and name, or one whose type is compatible with the first such
    type, whose id it gets, with the descriptor of the module. *)
Definition typed_result (name : list Z) (btf_id : Z) (weak : bool) (s : ksym) (x' : extern_desc) (tbl : fd_table)
    : Prop :=
  exists t var s', btf__type_by_id obj_btf btf_id = Some (Some t) /\ btf_is_var t = Some var /\
    x_u x' = EXT_KSYM s' /\
    (ksym_missing name (ksym_kind var) /\ weak = true /\ ks_kernel_btf_id s' = ks_kernel_btf_id s \/
     exists id m b tid, ksym_found name (ksym_kind var) id m /\ x_is_set x' = true /\ ks_kernel_btf_id s' = id /\
     ksym_btf btf_vmlinux load_module_btfs m = Some b /\ ksym_target b var id tid /\
     compatible obj_btf b (ks_type_id s) tid /\
     match m with
     | None => if var then ks_kernel_btf_obj_fd s' = 0 else ks_btf_fd_idx s' = 0
     | Some i => exists fd, aref modules i = Some (b, fd) /\
         if var then ks_kernel_btf_obj_fd s' = fd
         else 1 <= ks_btf_fd_idx s' < fd_array_cnt tbl /\ aref (fd_array tbl) (ks_btf_fd_idx s') = Some fd
     end).

(** **** The lookups *)

Lemma first_id_absent b lo kind name :
  (forall i, lo <= i < btf__type_cnt b -> ~ (of_kind b i kind /\ named b i name)) -> absent b lo kind name.
Proof. intros H id (Hr & Hk & Hn). by apply (H id Hr). Qed.

Lemma first_id_first b lo kind name r : lo <= r < btf__type_cnt b -> of_kind b r kind /\ named b r name ->
  (forall i, lo <= i < r -> ~ (of_kind b i kind /\ named b i name)) -> first_type b lo kind name r.
Proof.
  intros Hr [Hk Hn] H. split; [done|]. intros j Hj (Hr' & Hk' & Hn').
  apply (H j); [lia|by split].
Qed.

Lemma find_in_modules_spec name kind mods : kind <> 0 -> name <> lit "void" ->
  (forall b fd, (b, fd) ∈ mods -> btf_ok b) -> forall i, exists id m,
    find_in_modules name kind i mods = Some (id, m) /\
    (id = - ENOENT /\ (forall b fd, (b, fd) ∈ mods -> absent b (start_id b) kind name) \/
     0 < id /\ exists n b fd, m = Some (i + Z.of_nat n) /\ mods !! n = Some (b, fd) /\
       first_type b (start_id b) kind name id /\
       forall k b' fd', (k < n)%nat -> mods !! k = Some (b', fd') -> absent b' (start_id b') kind name).
Proof.
  intros Hk Hv. induction mods as [|[b fd] mods IH]; intros Hok i; cbn [find_in_modules].
  { eexists _, _. split; [done|]. left. split; [done|]. intros b fd Hin. by apply not_elem_of_nil in Hin. }
  assert (Hb : btf_ok b) by (eapply Hok; by constructor).
  destruct (btf_find_by_name_first b name kind Hb Hk Hv) as (_ & _ & r & -> & Hr). cbn [mbind option_bind].
  destruct Hr as [[-> Hn]|(Hr & Hp & Hn)].
  - cbn [Z.eqb negb]. rewrite Z.eqb_refl. cbn [negb].
    destruct (IH ltac:(intros b' fd' Hin; eapply Hok; by constructor) (i + 1)) as (id & m & -> & H).
    pose proof (first_id_absent b _ kind name Hn) as Hab. eexists _, _. split; [done|].
    destruct H as [[-> H]|(H0 & n & b' & fd' & -> & Hl & Hf & Hbef)].
    + left. split; [done|]. intros b' fd' [[= -> ->]|Hin]%elem_of_cons; [done|by eapply H].
    + right. split; [done|]. exists (S n), b', fd'. split_and!; [f_equal; lia|done|done|].
      intros [|k] b2 fd2 Hlt Hk2; [by injection Hk2 as <- _|]. eapply Hbef; [|exact Hk2]. lia.
  - destruct (proj1 (btf_ok_unfold b) Hb) as (_ & H1 & _).
    rewrite (proj2 (Z.eqb_neq r (- ENOENT))) by lia. cbn [negb]. eexists _, _. split; [done|].
    right. split; [lia|]. exists 0%nat, b, fd. split_and!; [f_equal; lia|done|by apply first_id_first|lia].
Qed.

Lemma find_ksym_spec name kind : kernel_ok -> kind <> 0 -> exists id m, find_ksym name kind = Some (id, m) /\
  (id = - ESRCH -> ksym_missing name kind) /\ (0 <= id -> 0 < id /\ ksym_found name kind id m).
Proof.
  intros Hok Hk. unfold find_ksym, find_ksym_btf_id.
  destruct (decide (name = lit "void")) as [->|Hv].
  { assert (E : btf__find_by_name_kind btf_vmlinux (lit "void") kind = Some 0).
    { unfold btf__find_by_name_kind, btf_find_by_name_kind. by rewrite orb_true_r. }
    rewrite E. cbn. eexists _, _. split; [done|]. split; [by left|lia]. }
  destruct (btf_find_by_name_first btf_vmlinux name kind (proj1 (kk_vmlinux Hok)) Hk Hv) as (_ & (r & -> & Hr) & _).
  cbn [mbind option_bind]. destruct Hr as [[-> Hn]|(Hr & Hp & Hn)].
  2: { rewrite (proj2 (Z.eqb_neq r (- ENOENT))) by lia. cbn [mbind option_bind Z.eqb negb].
       rewrite (proj2 (Z.leb_gt r 0)) by lia. eexists _, _. split; [done|]. split; [lia|].
       intros _. split; [lia|]. by apply first_id_first. }
  apply first_id_absent in Hn. rewrite Z.eqb_refl.
  pose proof (kk_error Hok) as He. pose proof (kk_modules Hok) as Hm. unfold ksym_missing, ksym_found.
  unfold modules, btf_modules in Hm |- *. revert He Hm. case_eq load_module_btfs; [intros err Elm He _|intros mods Elm _ Hm].
  { specialize (He err eq_refl). cbn [mbind option_bind]. rewrite (proj2 (Z.eqb_neq err 0)) by lia. cbn [negb].
    eexists _, _. split; [done|]. split; [|lia]. intros ->. by right. }
  destruct (find_in_modules_spec name kind mods Hk Hv (fun b fd Hin => proj1 (Hm b fd Hin)) 0) as (id & m & -> & H).
  cbn [mbind option_bind Z.eqb negb]. destruct H as [[-> H]|(H0 & n & b & fd & -> & Hl & Hf & Hbef)].
  - cbn. eexists _, _. split; [done|]. split; [|lia]. intros _. right. by split.
  - rewrite (proj2 (Z.leb_gt id 0)) by lia. eexists _, _. split; [done|]. split; [lia|].
    intros _. split; [lia|]. split; [done|]. split.
    + exists b, fd. split; [|done]. unfold aref. rewrite (proj2 (Z.ltb_ge _ _)) by lia. by rewrite Z.add_0_l, Nat2Z.id.
    + intros j b' fd' Hj E. pose proof (aref_bounds _ _ _ E). unfold aref in E.
      rewrite (proj2 (Z.ltb_ge _ _)) in E by lia. eapply Hbef; [|exact E]. lia.
Qed.

(** The BTF a symbol is found in. *)
Lemma ksym_found_in name kind id m : kernel_ok -> ksym_found name kind id m -> 0 < id ->
  exists b, ksym_btf btf_vmlinux load_module_btfs m = Some b /\ btf_ok b /\ types_wf b /\
    of_kind b id kind /\ 0 < id < btf__type_cnt b.
Proof.
  intros Hok Hf H0. destruct m as [i|]; cbn [ksym_found ksym_btf] in *.
  - destruct Hf as (_ & (b & fd & E & (Hr & Hk & _) & _) & _). fold modules. rewrite E. exists b.
    assert (Hin : (b, fd) ∈ modules).
    { unfold aref in E. destruct (i <? 0); [done|]. by eapply list_elem_of_lookup_2. }
    destruct (kk_modules Hok b fd Hin). by split_and!; try lia.
  - destruct Hf as [(Hr & Hk & _) _], (kk_vmlinux Hok). exists btf_vmlinux. by split_and!; try lia.
Qed.

Lemma ksym_compat_spec s var id m b : kernel_ok -> 0 <= ks_type_id s < btf__type_cnt obj_btf ->
  ksym_btf btf_vmlinux load_module_btfs m = Some b -> btf_ok b -> types_wf b ->
  of_kind b id (ksym_kind var) -> 0 < id < btf__type_cnt b ->
  exists c, ksym_compat s var id m = Some c /\
    (0 < c -> exists tid, ksym_target b var id tid /\ compatible obj_btf b (ks_type_id s) tid).
Proof.
  intros Hok Hs Hb Hbok Hwf (t & Ht & Hk) Hid. unfold ksym_compat. rewrite Hb. cbn [mbind option_bind].
  rewrite Ht. cbn [mbind option_bind].
  destruct (type_ptr_cases b id Hbok) as [E|[[-> _]|(_ & p & off & r & E & Hp)]]; [lia|congruence|lia|].
  assert (t = TAt p off) as -> by congruence.
  destruct (type_fields _ _ _ Hp) as (_ & _ & ty & _ & _ & Hty & _). rewrite Hty. cbn [mbind option_bind].
  assert (Hat : type_at b id (TAt p off) (ksym_kind var)) by (by split).
  assert (Hr : 0 <= ty < btf__type_cnt b).
  { eapply (tw_entity b Hwf); [exact Hat| |exact Hty]. destruct var; [by right|by left]. }
  assert (Hfin : forall tid, 0 <= tid < btf__type_cnt b -> exists c,
    types_are_compat obj_btf b (ks_type_id s) tid = Some c /\ (0 < c -> compatible obj_btf b (ks_type_id s) tid)).
  { intros tid Htid. unfold types_are_compat. apply types_compat_total; [apply Hok|done..|unfold depth; lia]. }
  destruct var.
  - destruct (tw_finite b Hwf ty Hr) as [c Hc]. destruct (denotes_inv _ _ _ Hc) as (n & t' & tid & k & Hsk & _).
    rewrite (skip_mods_spec _ _ _ _ _ Hsk). cbn [mbind option_bind].
    destruct (skips_kind _ _ _ _ _ Hsk) as (k' & Hk' & _).
    destruct (Hfin tid (type_at_range _ _ _ _ Hk')) as (r' & Er & Hpos). exists r'. split; [done|].
    intros Hgt. exists tid. split; [|auto]. exists (TAt p off), ty. split_and!; [done..|eauto].
  - destruct (Hfin ty Hr) as (r' & Er & Hpos). exists r'. split; [done|]. intros Hgt. exists ty.
    split; [|auto]. by exists (TAt p off), ty.
Qed.

Lemma typed_known_ok x : kernel_ok -> sym_known obj_btf x -> typed_ok x -> typed_known x.
Proof.
  intros Hok Hs Ht. unfold typed_known, sym_known, typed_ok in *. destruct (x_u x) as [|k|s]; [done..|]. intros _.
  destruct Hs as (t & var & Et & Ev).
  destruct (find_ksym_spec (x_name x) (ksym_kind var) Hok ltac:(by destruct var)) as (id & m & Ef & Hmiss & Hf).
  exists t, var, id, m. split_and!; [done..|]. intros Hid. destruct (Hf Hid) as [H0 Hfound]. split; [done|].
  destruct (ksym_found_in _ _ _ _ Hok Hfound H0) as (b & Eb & Hbok & Hwf & Hk & Hr).
  destruct (ksym_compat_spec s var id m b Hok Ht Eb Hbok Hwf Hk Hr) as (c & Ec & Hc). by exists b, c.
Qed.

Lemma typed_result_grows name btf_id weak s x' tbl tbl' :
  tbl_grows tbl tbl' -> typed_result name btf_id weak s x' tbl -> typed_result name btf_id weak s x' tbl'.
Proof.
  intros [Hg1 Hg2] (t & var & s' & H1 & H2 & H3 & H). exists t, var, s'. split_and!; try done.
  destruct H as [H|(id & m & b & tid & Ha & Hb & Hc & Hd & He & Hf & Hm)]; [by left|right].
  exists id, m, b, tid. split_and!; try done. destruct m as [i|]; [|done]. destruct Hm as (fd & E & Hv).
  exists fd. split; [done|].
  destruct var; [done|]. destruct Hv as [Hr Hv]. split; [lia|]. by rewrite Hg2.
Qed.

Definition sym_resolved (x x' : extern_desc) (tbl : fd_table) : Prop :=
  match x_u x with
  | EXT_KSYM s =>
      if ks_type_id s =? 0 then x' = x
      else typed_result (x_name x) (x_btf_id x) (x_is_weak x) s x' tbl
  | _ => x' = x
  end.

Lemma sym_resolved_grows x x' tbl tbl' : tbl_grows tbl tbl' -> sym_resolved x x' tbl -> sym_resolved x x' tbl'.
Proof.
  intros Hg. unfold sym_resolved. destruct (x_u x); [done..|]. destruct (ks_type_id s =? 0); [done|].
  by apply typed_result_grows.
Qed.

Let resolve := resolve_ksym alloc_ok obj_btf btf_vmlinux load_module_btfs false.

(** What the two functions promise of a symbol [x] with the types [s]. *)
Definition resolves (x : extern_desc) (s : ksym) (r : Z * extern_desc * fd_table) (tbl : fd_table) : Prop :=
  let '(err, x', tbl') := r in
  x_name x' = x_name x /\ x_is_weak x' = x_is_weak x /\
  (err = 0 -> tbl_ok tbl' /\ tbl_grows tbl tbl' /\
     typed_result (x_name x) (x_btf_id x) (x_is_weak x) s x' tbl').

Lemma resolves_miss x s tbl t var id : tbl_ok tbl -> x_u x = EXT_KSYM s ->
  btf__type_by_id obj_btf (x_btf_id x) = Some (Some t) -> btf_is_var t = Some var ->
  id < 0 -> (id = - ESRCH -> ksym_missing (x_name x) (ksym_kind var)) ->
  resolves x s (if (id =? - ESRCH) && x_is_weak x then 0 else id, x, tbl) tbl.
Proof.
  intros Hok Hu Ht Hv Hneg Hm. split_and!; [done..|]. intros E0.
  destruct (Z.eqb_spec id (- ESRCH)) as [->|]; [|cbn in E0; lia].
  destruct (x_is_weak x) eqn:Ew; [|cbn in E0; lia]. split_and!; [done|apply tbl_grows_refl|].
  exists t, var, s. split_and!; try done. left. by split_and!; [apply Hm|..].
Qed.

Lemma resolves_error x s tbl err tbl' : err <> 0 -> resolves x s (err, x, tbl') tbl.
Proof. intros H. by split_and!. Qed.

(** What is known of a symbol with a type: the end of [typed_known]. *)
Definition found_known (name : list Z) (s : ksym) (var : bool) (id : Z) (m : option Z) : Prop :=
  (id = - ESRCH -> ksym_missing name (ksym_kind var)) /\
  (0 <= id -> ksym_found name (ksym_kind var) id m /\
     exists b c, ksym_btf btf_vmlinux load_module_btfs m = Some b /\ ksym_compat s var id m = Some c /\
       (0 < c -> exists tid, ksym_target b var id tid /\ compatible obj_btf b (ks_type_id s) tid)).

Lemma resolve_var_spec x s tbl t id m : tbl_ok tbl -> x_u x = EXT_KSYM s ->
  btf__type_by_id obj_btf (x_btf_id x) = Some (Some t) -> btf_is_var t = Some true ->
  find_ksym (x_name x) 14 = Some (id, m) -> found_known (x_name x) s true id m ->
  exists err x', resolve_ksym_var_btf_id obj_btf btf_vmlinux load_module_btfs x s = Some (err, x') /\
    resolves x s (err, x', tbl) tbl.
Proof.
  intros Hok Hu Ht Hv Hf [Hmiss Hc]. unfold resolve_ksym_var_btf_id. unfold find_ksym in Hf. rewrite Hf.
  cbn [mbind option_bind]. destruct (Z.ltb_spec id 0) as [Hneg|Hpos].
  { eexists _, _. split; [done|]. by eapply (resolves_miss x s tbl t true). }
  destruct (Hc Hpos) as (Hfound & b & c & Eb & Ec & Hcomp). clear Hc. unfold ksym_compat in Ec. rewrite Eb in Ec |- *.
  cbn [mbind option_bind] in Ec |- *.
  destruct (btf__type_by_id b id) as [[targ|]|]; [|done..]. cbn [mbind option_bind] in Ec |- *.
  destruct (t_size targ) as [ty|]; [|done]. cbn [mbind option_bind] in Ec |- *.
  destruct (skip_mods_and_typedefs b ty) as [[tt tid]|]; [|done]. cbn [mbind option_bind] in Ec |- *.
  rewrite Ec. cbn [mbind option_bind]. destruct (Z.leb_spec c 0).
  { eexists _, _. split; [done|]. by apply resolves_error. }
  assert (Hm : exists fd, match m with None => Some 0 | Some i => snd <$> aref modules i end = Some fd /\
    match m with None => fd = 0 | Some i => exists b fd', aref modules i = Some (b, fd') /\ fd = fd' end).
  { destruct m as [i|]; [|by exists 0]. cbn in Eb. fold modules in Eb.
    destruct (aref modules i) as [[b' fd]|]; [|done]. exists fd. split; [done|]. by exists b', fd. }
  destruct Hm as (fd & Efd & Hm). fold modules. rewrite Efd. cbn [mbind option_bind].
  eexists _, _. split; [done|]. split_and!; [done..|]. intros _. split_and!; [done|apply tbl_grows_refl|].
  destruct (Hcomp ltac:(lia)) as (ttid & Htarg & Hcm).
  exists t, true. eexists. split_and!; [done..|]. right. exists id, m, b, ttid. split_and!; try done.
  destruct m as [i|]; [|done]. destruct Hm as (b' & fd' & Em & ->). exists fd'. split; [|done].
  cbn in Eb. fold modules in Eb. rewrite Em in Eb. cbn in Eb. congruence.
Qed.

Lemma resolve_func_spec x s tbl t id m : tbl_ok tbl -> x_u x = EXT_KSYM s ->
  btf__type_by_id obj_btf (x_btf_id x) = Some (Some t) -> btf_is_var t = Some false ->
  find_ksym (x_name x) 12 = Some (id, m) -> found_known (x_name x) s false id m ->
  exists r, resolve_ksym_func_btf_id alloc_ok obj_btf btf_vmlinux load_module_btfs x s tbl = Some r /\
    resolves x s r tbl.
Proof.
  intros Hok Hu Ht Hv Hf [Hmiss Hc]. unfold resolve_ksym_func_btf_id. unfold find_ksym in Hf. rewrite Hf.
  cbn [mbind option_bind]. destruct (Z.ltb_spec id 0) as [Hneg|Hpos].
  { eexists. split; [done|]. by eapply (resolves_miss x s tbl t false). }
  destruct (Hc Hpos) as (Hfound & b & c & Eb & Ec & Hcomp). clear Hc. unfold ksym_compat in Ec. rewrite Eb in Ec |- *.
  cbn [mbind option_bind] in Ec |- *.
  destruct (btf__type_by_id b id) as [[targ|]|]; [|done..]. cbn [mbind option_bind] in Ec |- *.
  destruct (t_size targ) as [ty|]; [|done]. cbn [mbind option_bind] in Ec |- *.
  rewrite Ec. cbn [mbind option_bind]. destruct (Z.leb_spec c 0).
  { eexists. split; [done|]. by apply resolves_error. }
  destruct (Hcomp ltac:(lia)) as (ttid & Htarg & Hcm). destruct m as [i|].
  2: { cbn [mbind option_bind Z.eqb negb]. eexists. split; [done|]. split_and!; [done..|]. intros _.
       split_and!; [done|apply tbl_grows_refl|]. exists t, false. eexists. split_and!; [done..|]. right.
       exists id, None, b, ttid. by split_and!. }
  cbn in Eb. fold modules in Eb |- *. destruct (aref modules i) as [[b' fd]|] eqn:Em; [|done].
  cbn [mbind option_bind fmap option_fmap option_map snd].
  destruct (module_fd_idx_spec i b' fd tbl Hok Em) as (err & idx & tbl' & -> & Hmf). cbn [mbind option_bind].
  destruct (Z.eqb_spec err 0) as [->|Hne]; cbn [negb].
  2: { eexists. split; [done|]. by apply resolves_error. }
  destruct (Hmf eq_refl) as (Hok' & Hg & Hidx & Hfd). eexists. split; [done|]. split_and!; [done..|]. intros _.
  split_and!; [done|done|]. exists t, false. eexists. split_and!; [done..|]. right.
  exists id, (Some i), b, ttid. split_and!; try done; [by cbn; fold modules; rewrite Em|].
  exists fd. cbn in Eb. injection Eb as ->. by split.
Qed.

Lemma resolve_ksym_spec x tbl : typed_known x -> tbl_ok tbl ->
  exists err x' tbl', resolve x tbl = Some (err, x', tbl') /\ x_name x' = x_name x /\ x_is_weak x' = x_is_weak x /\
    (err = 0 -> tbl_ok tbl' /\ tbl_grows tbl tbl' /\ sym_resolved x x' tbl').
Proof.
  intros Hk Hok. unfold resolve, resolve_ksym, sym_resolved. unfold typed_known in Hk.
  destruct (x_u x) as [|k|s] eqn:Eu.
  1,2: eexists _, _, _; split_and!; [done..|]; intros _; split_and!; [done|apply tbl_grows_refl|done].
  destruct (Z.eqb_spec (ks_type_id s) 0) as [|Hty].
  { eexists _, _, _; split_and!; [done..|]; intros _; split_and!; [done|apply tbl_grows_refl|done]. }
  destruct (Hk Hty) as (t & var & id & m & Et & Ev & Ef & Hc). clear Hk.
  rewrite Et. cbn [mbind option_bind]. rewrite Ev. cbn [mbind option_bind]. destruct var.
  - destruct (resolve_var_spec x s tbl t id m Hok Eu Et Ev Ef Hc) as (err & x' & -> & Hr).
    cbn [mbind option_bind]. destruct Hr as (Hn & Hw & Hr). eexists _, _, _. by split_and!.
  - destruct (resolve_func_spec x s tbl t id m Hok Eu Et Ev Ef Hc) as ([[err x'] tbl'] & -> & Hr).
    destruct Hr as (Hn & Hw & Hr). eexists _, _, _. by split_and!.
Qed.

Lemma resolve_ksyms_spec xs : forall tbl, Forall typed_known xs -> tbl_ok tbl ->
  exists err ys tbl', bpf_object__resolve_ksyms_btf_id alloc_ok obj_btf btf_vmlinux load_module_btfs false xs tbl
    = Some (err, ys, tbl') /\
    (err = 0 -> tbl_ok tbl' /\ tbl_grows tbl tbl' /\ Forall2 (fun x x' => x_name x' = x_name x /\
       x_is_weak x' = x_is_weak x /\ sym_resolved x x' tbl') xs ys).
Proof.
  induction xs as [|x xs IH]; intros tbl Hk Hok; cbn [bpf_object__resolve_ksyms_btf_id].
  { eexists _, _, _. split; [done|]. intros _. split_and!; [done|apply tbl_grows_refl|constructor]. }
  apply Forall_cons in Hk as [Hx Hk]. destruct (resolve_ksym_spec x tbl Hx Hok) as (err & x' & tbl1 & E & Hn & Hw & H).
  unfold resolve in E. rewrite E. cbn [mbind option_bind].
  destruct (Z.eqb_spec err 0) as [->|Hne]; cbn [negb]; [|by eexists _, _, _].
  destruct (H eq_refl) as (Hok1 & Hg1 & Hr). destruct (IH tbl1 Hk Hok1) as (err & ys & tbl2 & -> & H2).
  cbn [mbind option_bind]. eexists _, _, _. split; [done|]. intros ->. destruct (H2 eq_refl) as (Hok2 & Hg2 & Hall).
  split_and!; [done|by eapply tbl_grows_trans|]. constructor; [|done]. split_and!; [done..|].
  by eapply sym_resolved_grows.
Qed.
End Typed.

(** *** The configuration *)

Lemma config_result_all xs lines : forall done_ taken, config_result xs done_ lines = (0, taken) ->
  taken = done_ ++ lines.
Proof.
  induction lines as [|line lines IH]; intros done_ taken H; cbn in H.
  { injection H as <-. by rewrite app_nil_r. }
  destruct (Z.eqb_spec (line_error xs done_ line) 0) as [E|E]; [|injection H; congruence].
  rewrite (IH _ _ H). by rewrite <- app_assoc.
Qed.

Lemma config_result_app xs l1 l2 : forall done_ t1 t2, config_result xs done_ l1 = (0, t1) ->
  config_result xs t1 l2 = (0, t2) -> config_result xs done_ (l1 ++ l2) = (0, t2).
Proof.
  induction l1 as [|line l1 IH]; intros done_ t1 t2 H1 H2; cbn in *; [by injection H1 as ->|].
  destruct (Z.eqb_spec (line_error xs done_ line) 0) as [E|E]; [by eapply IH|injection H1; congruence].
Qed.

Lemma find_extern_at xs i x : NoDup (map x_name xs) -> xs !! i = Some x ->
  find_extern_by_name xs (x_name x) = Some i.
Proof.
  intros Hn Hi. destruct (find_extern_by_name xs (x_name x)) as [j|] eqn:E.
  - destruct (find_extern_Some _ _ _ E) as (y & Hj & Hy). f_equal. exact (names_inj xs j i y x Hn Hj Hi Hy).
  - by destruct (find_extern_None _ _ x E (list_elem_of_lookup_2 _ _ _ Hi)).
Qed.

(** A configuration read to its end gives every variable a value it can take. *)
Lemma taken_values xs i x v lines : forall done_ taken, NoDup (map x_name xs) -> xs !! i = Some x ->
  x_is_set x = false -> first_value (x_name x) done_ = None -> config_result xs done_ lines = (0, taken) ->
  first_value (x_name x) taken = Some v -> exists bs, kcfg_value (ext_kcfg x) v = inr bs.
Proof.
  induction lines as [|line lines IH]; intros done_ taken Hn Hi Hs Hd Hr Hv; cbn in Hr.
  { injection Hr as <-. congruence. }
  destruct (Z.eqb_spec (line_error xs done_ line) 0) as [El|El]; [|by injection Hr as E; congruence].
  destruct (first_value (x_name x) (done_ ++ [line])) as [w|] eqn:Ew; [|by eapply IH].
  pose proof (config_result_all _ _ _ _ Hr) as ->. rewrite first_value_app, Ew in Hv. injection Hv as <-.
  rewrite first_value_app, Hd, first_value_line in Ew. destruct (assignment line) as [[n u]|] eqn:Ea; [|done].
  case_bool_decide as En; [|done]. injection Ew as <-. unfold line_error in El. rewrite Ea in El.
  assert (Ho : is_option_line line = true) by (unfold assignment in Ea; by destruct (is_option_line line)).
  rewrite Ho in El. destruct u as [|c u]; [done|]. unfold unset_ext in El. rewrite En, (find_extern_at xs i x Hn Hi) in El.
  cbn [mbind option_bind] in El. rewrite Hi in El. cbn [mbind option_bind] in El. rewrite Hs, Hd in El.
  destruct (kcfg_value (ext_kcfg x) (c :: u)) as [err|bs] eqn:Ev; [|eauto].
  (* an error is not 0 *)
  exfalso. clear -Ev El. subst err. destruct c as [|c|c]; cbn [kcfg_value] in Ev.
  all: destruct (bool_decide (_ ∈ [121; 110; 109])); [destruct (kc_type _); try destruct (_ =? 109); discriminate|].
  all: destruct (_ =? 34); [by case_bool_decide|].
  all: match type of Ev with context [int_value ?l] => destruct (int_value_error l) as [(e & E & He)|(n & E)] end;
    rewrite E in Ev; [injection Ev as ->; lia|].
  all: case_bool_decide; [|done]; cbn zeta in Ev; by destruct (if kc_is_signed _ then _ else _).
Qed.

Section Resolved.
Context (alloc_ok : Z -> bool) (obj_btf btf_vmlinux : btf) (load_module_btfs : Z + list (btf * Z)).
Context (kver : Z) (kallsyms : Z + list (option (Z * list Z))).
Context (gzopen : list Z -> option (list Z)) (release : list Z) (fmemopen : list Z -> Z) (junk : list Z).

(** The configuration of the running kernel, and all lines in the order they
    count. *)
Definition system_config : list Z :=
  match gzopen (lit "/boot/config-" ++ release) with
  | Some f => f
  | None => default [] (gzopen (lit "/proc/config.gz"))
  end.

Definition config_lines (extra : option (list Z)) : list (list Z) :=
  match extra with Some e => lines_of e | None => [] end ++ lines_of system_config.

Lemma read_file_spec xs0 data0 done_ xs data :
  externs_ok xs0 (Z.of_nat (length data0)) -> Z.of_nat (length junk) = PATH_MAX ->
  config_ok system_config -> read_inv xs0 data0 done_ xs data ->
  exists err xs' data', bpf_object__read_kconfig_file gzopen release junk xs data = Some (err, xs', data') /\
    (err = 0 -> read_inv xs0 data0 (done_ ++ lines_of system_config) xs' data' /\
       config_result xs0 done_ (lines_of system_config) = (0, done_ ++ lines_of system_config)).
Proof.
  intros Hok Hj Hl Hinv. unfold bpf_object__read_kconfig_file. set (path := lit "/boot/config-" ++ release).
  destruct (Z.geb_spec (Z.of_nat (length path)) PATH_MAX); [by eexists _, _, _|].
  assert (Hsys : match (match gzopen path with Some f => Some f | None => gzopen (lit "/proc/config.gz") end) with
    | Some f => f | None => [] end = system_config).
  { unfold system_config. fold path. by destruct (gzopen path); [|destruct (gzopen _)]. }
  destruct (match gzopen path with Some f => Some f | None => _ end) as [f|]; [|by eexists _, _, _]. subst f.
  clearbody path. set (buf := path ++ 0 :: drop (length path + 1) junk).
  assert (Hb : Z.of_nat (length buf) = PATH_MAX).
  { unfold buf. rewrite length_app. cbn [length]. rewrite length_drop. lia. }
  pose proof (read_lines_spec xs0 data0 Hok (S (length system_config)) done_ xs data buf system_config
    ltac:(lia) Hb (config_lines_ok _ Hl) Hinv) as H0.
  destruct (config_result xs0 done_ (lines_of system_config)) as [err taken] eqn:Er.
  destruct H0 as (xs' & data' & -> & Hi). eexists _, _, _. split; [done|]. intros ->.
  pose proof (config_result_all _ _ _ _ Er) as ->. by split.
Qed.

Lemma existsb_false {A} (f : A -> bool) l x : existsb f l = false -> x ∈ l -> f x = false.
Proof.
  intros H Hx. destruct (f x) eqn:E; [|done]. assert (existsb f l = true); [|congruence].
  apply existsb_exists. exists x. split; [by apply list_elem_of_In|done].
Qed.

(** The variables among [xs], unset at first, have the values of the
    configuration: of its first line that names them. *)
Record config_read (xs : list extern_desc) (data : list Z) (lines : list (list Z))
    (xs' : list extern_desc) (data' : list Z) : Prop := {
  cr_len : length data' = length data;
  cr_names : map x_name xs' = map x_name xs;
  cr_ext i x : xs !! i = Some x -> x_is_set x = false ->
    match x_u x, first_value (x_name x) lines with
    | EXT_KCFG k, Some v => xs' !! i = Some (set_ext x) /\
        exists bs, kcfg_value k v = inr bs /\ area data' k = overwrite (area data k) bs
    | EXT_KCFG k, None => xs' !! i = Some x /\ area data' k = area data k
    | _, _ => xs' !! i = Some x
    end;
  cr_set i x : xs !! i = Some x -> x_is_set x = true ->
    xs' !! i = Some x /\ forall k, x_u x = EXT_KCFG k -> area data' k = area data k }.

Lemma config_read_inv xs data lines xs' data' : externs_ok xs (Z.of_nat (length data)) ->
  (forall x, x ∈ xs -> x_u x <> EXT_UNKNOWN) ->
  config_result xs [] lines = (0, lines) -> read_inv xs data lines xs' data' -> config_read xs data lines xs' data'.
Proof.
  intros Hok Hun Hr [Ex El Ea _]. constructor; [done| | |].
  - rewrite Ex, map_map. apply map_ext. intros x. apply ext_after_name.
  - intros i x Hi Hs. pose proof (fun v => taken_values xs i x v lines [] lines (xo_names _ _ Hok) Hi Hs eq_refl Hr) as Hv.
    assert (Hi' : xs' !! i = Some (ext_after lines x)) by (by rewrite Ex, list_lookup_fmap, Hi).
    unfold ext_after in Hi'. destruct (x_u x) as [|k|s] eqn:Eu.
    + by destruct (Hun x (list_elem_of_lookup_2 _ _ _ Hi)).
    + pose proof (Ea i x k Hi Eu) as Hk. unfold area_after in Hk. rewrite Hs in Hk.
      assert (Ek : ext_kcfg x = k) by (unfold ext_kcfg; by rewrite Eu). rewrite Ek in Hv.
      destruct (first_value (x_name x) lines) as [v|]; [|done]. split; [done|].
      destruct (Hv v eq_refl) as [bs E]. rewrite E in Hk. eauto.
    + destruct (first_value (x_name x) lines) as [v|]; [|done]. destruct (Hv v eq_refl) as [bs E].
      destruct (kcfg_value_unknown (ext_kcfg x) v) as (e & E' & _); [|congruence].
      unfold ext_kcfg. rewrite Eu. cbn. by rewrite (xo_ksym _ _ Hok i x s Hi Eu).
  - intros i x Hi Hs. assert (Hi' : xs' !! i = Some (ext_after lines x)) by (by rewrite Ex, list_lookup_fmap, Hi).
    unfold ext_after in Hi'. rewrite set_ext_id in Hi' by done. split; [by destruct (first_value (x_name x) lines)|].
    intros k Hk. rewrite (Ea i x k Hi Hk). unfold area_after. rewrite Hs. by destruct (first_value (x_name x) lines).
Qed.

(** Lines behind those that set every variable change nothing. *)
Lemma config_read_app xs data l1 l2 xs' data' : config_read xs data l1 xs' data' ->
  (forall x, x ∈ xs' -> is_kcfg x = true -> x_is_set x = true) -> config_read xs data (l1 ++ l2) xs' data'.
Proof.
  intros [Hl Hn He Hs] Hall. constructor; [done|done| |done]. intros i x Hi Hx. pose proof (He i x Hi Hx) as H.
  rewrite first_value_app. destruct (x_u x) as [|k|s] eqn:Eu; [done| |done].
  destruct (first_value (x_name x) l1) as [v|]; [done|]. destruct H as [Hx' _].
  assert (is_kcfg x = true) as Hk by (unfold is_kcfg; by rewrite Eu).
  rewrite (Hall x (list_elem_of_lookup_2 _ _ _ Hx') Hk) in Hx. done.
Qed.

Lemma config_read_none xs data lines :
  (forall x, x ∈ xs -> is_kcfg x = true -> x_is_set x = true) -> config_read xs data lines xs data.
Proof.
  intros Hall. constructor; [done|done| |done]. intros i x Hi Hx. destruct (x_u x) as [|k|s] eqn:Eu; [done| |done].
  assert (is_kcfg x = true) as Hk by (unfold is_kcfg; by rewrite Eu).
  rewrite (Hall x (list_elem_of_lookup_2 _ _ _ Hi) Hk) in Hx. done.
Qed.

Lemma resolve_config_spec extra xs data nd : externs_ok xs (Z.of_nat (length data)) ->
  (forall x, x ∈ xs -> x_u x <> EXT_UNKNOWN) ->
  Z.of_nat (length junk) = PATH_MAX -> config_ok (default [] extra) -> config_ok system_config ->
  (forall x, x ∈ xs -> is_kcfg x = true -> x_is_set x = true \/ need_config nd = true) ->
  exists err xs' data', resolve_config gzopen release fmemopen junk extra xs data nd = Some (err, xs', data') /\
    (err = 0 -> config_read xs data (config_lines extra) xs' data').
Proof.
  intros Hok Hun Hj Hl1 Hl2 Hnd. unfold resolve_config.
  destruct (need_config nd) eqn:End.
  2: { assert (Hall : forall x, x ∈ xs -> is_kcfg x = true -> x_is_set x = true)
         by (intros x Hx Hk; by destruct (Hnd x Hx Hk)).
       exists 0, xs, data. split; [by destruct extra|]. intros _. by apply config_read_none. }
  destruct extra as [e|].
  - unfold bpf_object__read_kconfig_mem. destruct (Z.eqb_spec (fmemopen e) 0) as [Ef|Ef]; cbn [negb].
    2: { cbn [mbind option_bind]. rewrite (proj2 (Z.eqb_neq (- fmemopen e) 0)) by lia. cbn. by eexists _, _, _. }
    pose proof (read_lines_spec xs data Hok (S (length e)) [] xs data junk e ltac:(lia) Hj (config_lines_ok _ Hl1)
      (read_inv_start xs data)) as H0.
    destruct (config_result xs [] (lines_of e)) as [err taken] eqn:Er. destruct H0 as (xs1 & data1 & -> & Hi).
    cbn [mbind option_bind]. destruct (Z.eqb_spec err 0) as [->|Hne]; cbn [negb mbind option_bind]; [|by eexists _, _, _].
    pose proof (config_result_all _ _ _ _ Er) as ->. cbn [app] in *.
    destruct (existsb (fun x => is_kcfg x && negb (x_is_set x)) xs1) eqn:Eex; cbn [Z.eqb negb].
    + destruct (read_file_spec xs data (lines_of e) xs1 data1 Hok Hj Hl2 Hi) as (err & xs2 & data2 & -> & H2).
      cbn [mbind option_bind]. eexists _, _, _. split; [done|].
      destruct (Z.eqb_spec err 0) as [->|]; cbn [negb]; [|done]. intros _. destruct (H2 eq_refl) as [Hi2 Er2].
      apply config_read_inv; [done..| |done]. by eapply config_result_app.
    + eexists _, _, _. split; [done|]. intros _. apply config_read_app; [by apply config_read_inv|].
      intros x Hx Hk. pose proof (existsb_false _ _ x Eex Hx) as E. cbn in E. rewrite Hk in E. by destruct (x_is_set x).
  - cbn [mbind option_bind Z.eqb negb].
    destruct (read_file_spec xs data [] xs data Hok Hj Hl2 (read_inv_start xs data)) as (err & xs2 & data2 & -> & H2).
    cbn [mbind option_bind]. eexists _, _, _. split; [done|].
    destruct (Z.eqb_spec err 0) as [->|]; cbn [negb]; [|done]. intros _. destruct (H2 eq_refl) as [Hi2 Er2].
    by apply config_read_inv.
Qed.
End Resolved.

(** *** The first loop *)

Definition is_version (x : extern_desc) : bool :=
  is_kcfg x && (strcmp (x_name x) (lit "LINUX_KERNEL_VERSION") =? 0).

Definition scanned (x : extern_desc) : extern_desc := if is_version x then set_ext x else x.

Definition apart_exts (x y : extern_desc) : Prop :=
  forall k1 k2, x_u x = EXT_KCFG k1 -> x_u y = EXT_KCFG k2 -> apart k1 k2.

Definition placed_in (data : list Z) (x : extern_desc) : Prop :=
  forall k, x_u x = EXT_KCFG k -> place_ok data k.

Lemma externs_apart xs sz : externs_ok xs sz -> StronglySorted apart_exts xs.
Proof.
  intros H. assert (Hap : forall i j x y, (i < j)%nat -> xs !! i = Some x -> xs !! j = Some y -> apart_exts x y).
  { intros i j x y Hij Hi Hj k1 k2. apply (xo_apart _ _ H i j); [lia|done..]. }
  clear H. induction xs as [|x xs IH]; constructor.
  - apply IH. intros i j y z Hij. apply (Hap (S i) (S j)). lia.
  - apply Forall_forall. intros y Hy. apply list_elem_of_lookup in Hy as [j Hj].
    apply (Hap 0%nat (S j) x y); [lia|done..].
Qed.

Lemma externs_placed_in xs data : externs_ok xs (Z.of_nat (length data)) -> Forall (placed_in data) xs.
Proof.
  intros H. apply Forall_forall. intros x Hx k Hk. apply list_elem_of_lookup in Hx as [i Hi].
  apply (xo_kcfg _ _ H i x k Hi Hk).
Qed.

Section Scan.
Context (kver : Z).

Definition needs_le (n1 n2 : needs) : Prop :=
  (need_config n1 = true -> need_config n2 = true) /\ (need_kallsyms n1 = true -> need_kallsyms n2 = true) /\
  (need_vmlinux_btf n1 = true -> need_vmlinux_btf n2 = true).

(** What the loop has found out and done for a variable. *)
Definition scan_result (data data' : list Z) (nd : needs) (x : extern_desc) : Prop :=
  match x_u x with
  | EXT_KCFG k =>
      if is_version x then area data' k = overwrite (area data k) (le_bytes (Z.to_nat (kc_sz k)) kver)
      else area data' k = area data k /\ need_config nd = true
  | EXT_KSYM s => if ks_type_id s =? 0 then need_kallsyms nd = true else need_vmlinux_btf nd = true
  | EXT_UNKNOWN => False
  end.

(** A place apart from those of [xs] keeps its bytes. *)
Definition keeps (data data' : list Z) (xs : list extern_desc) : Prop :=
  forall k0, 0 <= kc_data_off k0 -> (forall x k, x ∈ xs -> x_u x = EXT_KCFG k -> apart k k0) ->
    area data' k0 = area data k0.

Lemma scan_extern_spec x data nd : placed_in data x -> 0 <= kver < 2 ^ 32 ->
  exists err x' data' nd', scan_extern kver x data nd = Some (err, x', data', nd') /\
    length data' = length data /\
    (err = 0 -> x' = scanned x /\ needs_le nd nd' /\ scan_result data data' nd' x /\ keeps data data' [x]).
Proof.
  intros Hp Hkv. unfold scan_extern, scan_result, scanned, is_version, is_kcfg.
  assert (Hkeep : keeps data data [x]) by (intros k0 _ _; done).
  destruct (x_u x) as [|k|s] eqn:Eu; cbn [andb]; [by eexists _, _, _, _| |].
  2: { eexists _, _, _, _. split; [done|]. split; [done|]. intros _.
       split_and!; [done|unfold needs_le; cbn; split_and!; [done|by intros ->..]| |done].
       destruct (ks_type_id s =? 0); cbn; by rewrite orb_true_r. }
  assert (Ek : ext_kcfg x = k) by (unfold ext_kcfg; by rewrite Eu).
  destruct (Z.eqb_spec (strcmp (x_name x) (lit "LINUX_KERNEL_VERSION")) 0) as [Ev|Ev].
  2: { destruct (str_has_pfx (x_name x) (lit "CONFIG_")); [|by eexists _, _, _, _].
       eexists _, _, _, _. split; [done|]. split; [done|]. intros _. by split_and!. }
  destruct (Z.eqb_spec kver 0) as [|Hk0]; [by eexists _, _, _, _|].
  pose proof (set_num_spec x data kver ltac:(pow2; lia) ltac:(right; rewrite Ek; by apply Hp)) as Hs.
  cbn zeta in Hs. rewrite Ek in Hs. rewrite Hs. clear Hs. cbn [mbind option_bind]. unfold stored.
  destruct (Hp k Eu) as [(H0 & H1 & _) H2].
  destruct (bool_decide _); [destruct (if kc_is_signed k then _ else _)|]; [|by eexists _, _, _, _..].
  eexists _, _, _, _. split; [done|]. split; [apply length_write; rewrite ?length_le_bytes; lia|].
  intros _. split_and!; [done|by unfold needs_le|..].
  - rewrite area_write_same; [done|lia|lia|rewrite length_le_bytes; lia].
  - intros k0 Hk00 Hap. apply area_write_apart; [lia|done|lia|rewrite length_le_bytes; lia|].
    apply (Hap x); [by constructor|done].
Qed.

Lemma needs_le_trans n1 n2 n3 : needs_le n1 n2 -> needs_le n2 n3 -> needs_le n1 n3.
Proof. unfold needs_le. tauto. Qed.

Lemma scan_result_later data d1 d2 n1 n2 x xs : scan_result data d1 n1 x -> needs_le n1 n2 ->
  (forall k, x_u x = EXT_KCFG k -> 0 <= kc_data_off k) -> Forall (apart_exts x) xs -> keeps d1 d2 xs ->
  scan_result data d2 n2 x.
Proof.
  intros Hr (L1 & L2 & L3) Hoff Hap Hk. unfold scan_result in *. destruct (x_u x) as [|k|s] eqn:Eu; [done| |].
  - assert (E : area d2 k = area d1 k).
    { apply Hk; [by apply Hoff|]. intros y ky Hy Ey. rewrite Forall_forall in Hap.
      pose proof (Hap y Hy k ky Eu Ey) as H. unfold apart in *. lia. }
    rewrite E. destruct (is_version x); [done|]. destruct Hr. auto.
  - destruct (ks_type_id s =? 0); auto.
Qed.

Lemma scan_externs_spec xs : forall data nd, Forall (placed_in data) xs -> StronglySorted apart_exts xs ->
  0 <= kver < 2 ^ 32 ->
  exists err ys data' nd', scan_externs kver xs data nd = Some (err, ys, data', nd') /\
    length data' = length data /\
    (err = 0 -> ys = map scanned xs /\ needs_le nd nd' /\ Forall (scan_result data data' nd') xs /\
       keeps data data' xs).
Proof.
  induction xs as [|x xs IH]; intros data nd Hp Hs Hkv; cbn [scan_externs].
  { eexists _, _, _, _. split; [done|]. split; [done|]. intros _. split_and!; [done|done|constructor|]. by intros k0 _ _. }
  apply Forall_cons in Hp as [Hpx Hp]. apply StronglySorted_inv in Hs as [Hs Hap].
  destruct (scan_extern_spec x data nd Hpx Hkv) as (err & x' & d1 & n1 & -> & Hl1 & H1). cbn [mbind option_bind].
  destruct (Z.eqb_spec err 0) as [->|Hne]; cbn [negb]; [|by eexists _, _, _, _].
  destruct (H1 eq_refl) as (-> & Hle1 & Hr1 & Hk1). clear H1.
  assert (Hp1 : Forall (placed_in d1) xs).
  { eapply Forall_impl; [exact Hp|]. intros y Hy k Hk. destruct (Hy k Hk) as [Hok Hfit]. split; [done|]. by rewrite Hl1. }
  destruct (IH d1 n1 Hp1 Hs Hkv) as (err & ys & d2 & n2 & -> & Hl2 & H2). cbn [mbind option_bind].
  eexists _, _, _, _. split; [done|]. split; [congruence|]. intros ->. destruct (H2 eq_refl) as (-> & Hle2 & Hr2 & Hk2).
  assert (Hkeep1 : forall y k, y ∈ xs -> x_u y = EXT_KCFG k -> area d1 k = area data k).
  { intros y k Hy Ey. apply Hk1.
    - rewrite Forall_forall in Hp. destruct (Hp y Hy k Ey) as [(? & _) _]. done.
    - intros z kz Hz Ez. apply list_elem_of_singleton in Hz as ->. rewrite Forall_forall in Hap. by apply (Hap y Hy). }
  split_and!; [done|by eapply needs_le_trans|..].
  - constructor.
    + eapply scan_result_later; [exact Hr1|done| |exact Hap|exact Hk2]. intros k Ek. by destruct (Hpx k Ek) as [(? & _) _].
    + rewrite Forall_forall in Hr2 |- *. intros y Hy. pose proof (Hr2 y Hy) as H. unfold scan_result in *.
      destruct (x_u y) as [|k|s] eqn:Ey; [done| |done]. by rewrite (Hkeep1 y k Hy Ey) in H.
  - intros k0 H0 Hap0. rewrite Hk2; [|done|intros y k Hy; apply (Hap0 y); by constructor].
    apply Hk1; [done|]. intros y k Hy. apply list_elem_of_singleton in Hy as ->. apply (Hap0 x). by constructor.
Qed.
End Scan.

(** *** All variables *)

Lemma scanned_name x : x_name (scanned x) = x_name x.
Proof. unfold scanned. by destruct (is_version x). Qed.

Lemma scanned_u x : x_u (scanned x) = x_u x.
Proof. unfold scanned. by destruct (is_version x). Qed.

Lemma scanned_other x : is_version x = false -> scanned x = x.
Proof. unfold scanned. by intros ->. Qed.

Lemma scanned_ok xs sz : externs_ok xs sz -> externs_ok (map scanned xs) sz.
Proof.
  intros [Hn Hk Hs Ha].
  assert (Hl : forall i y, map scanned xs !! i = Some y -> exists x, xs !! i = Some x /\ x_u y = x_u x).
  { intros i y Hy. rewrite list_lookup_fmap in Hy. apply fmap_Some in Hy as (x & Hx & ->).
    exists x. split; [done|apply scanned_u]. }
  constructor.
  - rewrite map_map, (map_ext _ x_name); [done|apply scanned_name].
  - intros i y k Hy Hu. destruct (Hl i y Hy) as (x & Hx & E). apply (Hk i x); [done|congruence].
  - intros i y s Hy Hu. destruct (Hl i y Hy) as (x & Hx & E). apply (Hs i x); [done|congruence].
  - intros i j y z k1 k2 Hij Hy Hz Hu1 Hu2. destruct (Hl i y Hy) as (x & Hx & E1), (Hl j z Hz) as (w & Hw & E2).
    apply (Ha i j x w); [done..|congruence|congruence].
Qed.

Lemma sym_after_nil b x : sym_after b [] x = x.
Proof. unfold sym_after. destruct (x_u x); [done..|]. by destruct (sym_is_var b x). Qed.

Section All.
Context (alloc_ok : Z -> bool) (obj_btf btf_vmlinux : btf) (load_module_btfs : Z + list (btf * Z)).
Context (kver : Z) (kallsyms : Z + list (option (Z * list Z))).
Context (gzopen : list Z -> option (list Z)) (release : list Z) (fmemopen : list Z -> Z) (junk : list Z).

Definition kallsyms_lines : list (option (Z * list Z)) := match kallsyms with inl _ => [] | inr l => l end.

(** What a variable [x] is resolved to: [x'], with its place in the memory of
    the map and the descriptors of modules. *)
Definition extern_resolved (extra : option (list Z)) (data data' : list Z) (tbl' : fd_table)
    (x x' : extern_desc) : Prop :=
  x_name x' = x_name x /\ (x_is_set x' = true \/ x_is_weak x = true) /\
  match x_u x with
  | EXT_UNKNOWN => False
  | EXT_KCFG k =>
      if is_version x then area data' k = overwrite (area data k) (le_bytes (Z.to_nat (kc_sz k)) kver)
      else match first_value (x_name x) (config_lines gzopen release extra) with
           | Some v => exists bs, kcfg_value k v = inr bs /\ area data' k = overwrite (area data k) bs
           | None => x_is_set x' = false /\ area data' k = area data k
           end
  | EXT_KSYM s =>
      if ks_type_id s =? 0 then
        match first_addr (x_name x) kallsyms_lines with
        | Some a => if sym_is_var obj_btf x then x' = with_ksym x (with_addr s a) /\
            forall a', Some (a', x_name x) ∈ kallsyms_lines -> a' = a else x' = x
        | None => x' = x
        end
      else typed_result obj_btf btf_vmlinux load_module_btfs (x_name x) (x_btf_id x) (x_is_weak x) s x' tbl'
  end.

Lemma kallsyms_stage xs nd : NoDup (map x_name xs) ->
  (forall x s, x ∈ xs -> x_u x = EXT_KSYM s -> x_is_set x = false) -> Forall (sym_known obj_btf) xs ->
  exists err zs, (if need_kallsyms nd then match kallsyms with
       | inl errno => Some (- EINVAL, xs)
       | inr lines => '(err, xs) ← kallsyms_parse obj_btf lines xs; Some (if negb (err =? 0) then - EINVAL else 0, xs)
       end else Some (0, xs)) = Some (err, zs) /\
    (err = 0 -> exists lines, (need_kallsyms nd = true -> lines = kallsyms_lines) /\ addrs_agree obj_btf xs lines /\
       zs = map (sym_after obj_btf lines) xs).
Proof.
  intros Hn Hset Hk. assert (E0 : map (sym_after obj_btf []) xs = xs).
  { rewrite (map_ext _ (fun x => x)); [apply map_id|apply sym_after_nil]. }
  assert (Hag : addrs_agree obj_btf xs []) by (intros x s a _ _ _ Hin; by apply not_elem_of_nil in Hin).
  unfold kallsyms_lines. destruct (need_kallsyms nd).
  - destruct kallsyms as [e|lines]; [by eexists _, _|].
    destruct (kallsyms_parse_spec obj_btf xs lines [] Hn Hset Hk Hag) as (err & zs & E & H). rewrite E0 in E.
    rewrite E. cbn [mbind option_bind]. eexists _, _. split; [done|].
    destruct (Z.eqb_spec err 0) as [->|]; cbn [negb]; [|done]. intros _. destruct (H eq_refl) as [-> Hag'].
    exists lines. by split_and!.
  - eexists _, _. split; [done|]. intros _. exists []. by split_and!.
Qed.

Lemma sym_after_typed lines x : typed_known obj_btf btf_vmlinux load_module_btfs x ->
  typed_known obj_btf btf_vmlinux load_module_btfs (sym_after obj_btf lines x).
Proof.
  intros Hx. unfold typed_known, sym_after in *. destruct (x_u x) as [|k|s] eqn:Eu; rewrite ?Eu; try done.
  destruct (sym_is_var obj_btf x); [|by rewrite Eu]. destruct (first_addr (x_name x) lines); [|by rewrite Eu]. exact Hx.
Qed.

(** Kallsyms change no type. *)
Lemma sym_after_type lines x : match x_u (sym_after obj_btf lines x), x_u x with
  | EXT_KSYM s', EXT_KSYM s => ks_type_id s' = ks_type_id s
  | u', u => u' = u
  end.
Proof.
  unfold sym_after. destruct (x_u x) as [|k|s] eqn:Eu; rewrite ?Eu; try done.
  destruct (sym_is_var obj_btf x); [|by rewrite Eu]. by destruct (first_addr (x_name x) lines); [|rewrite Eu].
Qed.

Definition sym_resolved_ext (tbl : fd_table) (x x' : extern_desc) : Prop :=
  x_name x' = x_name x /\ x_is_weak x' = x_is_weak x /\
  sym_resolved obj_btf btf_vmlinux load_module_btfs x x' tbl.

Lemma untyped_resolved lines tbl xs :
  (forall x s, x ∈ xs -> x_u x = EXT_KSYM s -> ks_type_id s = 0) ->
  Forall2 (sym_resolved_ext tbl) (map (sym_after obj_btf lines) xs) (map (sym_after obj_btf lines) xs).
Proof.
  intros H. induction xs as [|x xs IH]; constructor; [|apply IH; intros y s Hy; apply H; by constructor].
  split_and!; [done|done|]. pose proof (sym_after_type lines x) as Ht. unfold sym_resolved.
  destruct (x_u (sym_after obj_btf lines x)) as [|k|s']; [done..|]. destruct (x_u x) as [|k|s] eqn:Eu; [done..|].
  rewrite Ht, (H x s); [done|by constructor|done].
Qed.

(** The stage of the symbols. *)
Lemma resolve_syms_spec xs tbl nd : NoDup (map x_name xs) ->
  (forall x s, x ∈ xs -> x_u x = EXT_KSYM s -> x_is_set x = false) ->
  Forall (sym_known obj_btf) xs -> Forall (typed_known obj_btf btf_vmlinux load_module_btfs) xs ->
  tbl_ok load_module_btfs tbl ->
  (forall x s, x ∈ xs -> x_u x = EXT_KSYM s ->
     if ks_type_id s =? 0 then need_kallsyms nd = true else need_vmlinux_btf nd = true) ->
  exists err ys tbl', resolve_syms alloc_ok obj_btf btf_vmlinux load_module_btfs false kallsyms xs tbl nd
    = Some (err, ys, tbl') /\
    (err = 0 -> exists lines, (need_kallsyms nd = true -> lines = kallsyms_lines) /\
       addrs_agree obj_btf xs lines /\ Forall2 (sym_resolved_ext tbl') (map (sym_after obj_btf lines) xs) ys).
Proof.
  intros Hn Hset Hk Hty Hok Hnd. unfold resolve_syms.
  destruct (kallsyms_stage xs nd Hn Hset Hk) as (err & zs & -> & Hz). cbn [mbind option_bind].
  destruct (Z.eqb_spec err 0) as [->|Hne]; cbn [negb]; [|by eexists _, _, _].
  destruct (Hz eq_refl) as (lines & Hlines & Hag & ->). clear Hz.
  assert (Hty' : Forall (typed_known obj_btf btf_vmlinux load_module_btfs) (map (sym_after obj_btf lines) xs)).
  { apply Forall_map. eapply Forall_impl; [exact Hty|]. intros x Hx. by apply sym_after_typed. }
  destruct (need_vmlinux_btf nd) eqn:Ev.
  - destruct (resolve_ksyms_spec alloc_ok obj_btf btf_vmlinux load_module_btfs _ tbl Hty' Hok)
      as (err & ys & tbl' & -> & H). cbn [mbind option_bind]. eexists _, _, _. split; [done|].
    destruct (Z.eqb_spec err 0) as [->|]; cbn [negb]; [|done]. intros _. destruct (H eq_refl) as (_ & _ & Hall).
    exists lines. by split_and!.
  - eexists _, _, _. split; [done|]. intros _. exists lines. split_and!; [done|done|]. apply untyped_resolved.
    intros x s Hx Eu. pose proof (Hnd x s Hx Eu) as H. destruct (Z.eqb_spec (ks_type_id s) 0); [done|congruence].
Qed.
End All.

Section Load.
Context (alloc_ok : Z -> bool) (obj_btf btf_vmlinux : btf) (load_module_btfs : Z + list (btf * Z)).
Context (kver : Z) (kallsyms : Z + list (option (Z * list Z))).
Context (gzopen : list Z -> option (list Z)) (release : list Z) (fmemopen : list Z -> Z) (junk : list Z).

(** The variable at an index after the configuration has been read. *)
Lemma config_read_at xs data lines xs' data' i x : config_read xs data lines xs' data' -> xs !! i = Some x ->
  exists x', xs' !! i = Some x' /\ (x' = x \/ x' = set_ext x /\ is_kcfg x = true).
Proof.
  intros H Hi. destruct (x_is_set x) eqn:Es.
  - destruct (cr_set _ _ _ _ _ H i x Hi Es) as [E _]. eauto.
  - pose proof (cr_ext _ _ _ _ _ H i x Hi Es) as E. unfold is_kcfg. destruct (x_u x) as [|k|s]; [eauto| |eauto].
    destruct (first_value (x_name x) lines); destruct E as [E _]; eauto.
Qed.

(** From the stages to the variable. *)
Lemma stages_resolved extra xs data data1 data2 nd xs2 tbl' lines i x x3 x4 :
  externs_ok xs (Z.of_nat (length data)) -> xs !! i = Some x -> x_is_set x = false ->
  scan_result kver data data1 nd x ->
  config_read (map scanned xs) data1 (config_lines gzopen release extra) xs2 data2 ->
  (need_kallsyms nd = true -> lines = kallsyms_lines kallsyms) -> addrs_agree obj_btf xs2 lines ->
  xs2 !! i = Some x3 ->
  sym_resolved_ext obj_btf btf_vmlinux load_module_btfs tbl' (sym_after obj_btf lines x3) x4 ->
  unresolved x4 = false ->
  extern_resolved obj_btf btf_vmlinux load_module_btfs kver kallsyms gzopen release extra data data2 tbl' x x4.
Proof.
  intros Hok Hi Hset Hsc Hcr Hlines Hag H3 (Hn4 & Hw4 & Hr4) Hun.
  assert (Hi1 : map scanned xs !! i = Some (scanned x)) by (by rewrite list_lookup_fmap, Hi).
  destruct (config_read_at _ _ _ _ _ i _ Hcr Hi1) as (x3' & H3' & Hx3).
  assert (x3' = x3) as -> by congruence. clear H3'.
  assert (Hs4 : x_is_set x4 = true \/ x_is_weak x4 = true).
  { unfold unresolved in Hun. destruct (x_is_set x4), (x_is_weak x4); auto; done. }
  assert (Hsame : x_name x3 = x_name x /\ x_is_weak x3 = x_is_weak x /\ x_u x3 = x_u x /\ x_btf_id x3 = x_btf_id x).
  { unfold scanned in Hx3. destruct Hx3 as [->|[-> _]]; destruct (is_version x); done. }
  destruct Hsame as (En & Ew & Eu & Eb).
  assert (Hw3 : x_is_weak (sym_after obj_btf lines x3) = x_is_weak x3).
  { unfold sym_after. destruct (x_u x3); [done..|]. destruct (sym_is_var obj_btf x3); [|done]. by destruct (first_addr _ _). }
  unfold extern_resolved. rewrite Hn4, sym_after_name, En. split; [done|].
  split; [rewrite <- Ew, <- Hw3, <- Hw4; exact Hs4|]. unfold scan_result in Hsc.
  destruct (x_u x) as [|k|s] eqn:Eux; [done| |].
  - unfold sym_resolved in Hr4. unfold sym_after in Hr4. rewrite Eu, Eu in Hr4. subst x4.
    destruct (is_version x) eqn:Ev.
    + destruct (cr_set _ _ _ _ _ Hcr i (scanned x) Hi1) as [_ Ha]; [unfold scanned; by rewrite Ev|].
      rewrite Ha by (by rewrite scanned_u). exact Hsc.
    + destruct Hsc as [Ha Hc]. rewrite scanned_other in Hi1 by done.
      pose proof (cr_ext _ _ _ _ _ Hcr i x Hi1 Hset) as He. rewrite Eux in He.
      destruct (first_value (x_name x) (config_lines gzopen release extra)) as [v|].
      * destruct He as [_ (bs & E1 & E2)]. exists bs. by rewrite E2, Ha.
      * destruct He as [E1 E2]. rewrite E2, Ha. split; [|done]. congruence.
  - assert (x3 = x) as ->.
    { assert (Ev : is_version x = false) by (unfold is_version, is_kcfg; by rewrite Eux).
      rewrite (scanned_other x Ev) in Hx3. destruct Hx3 as [->|[_ Hk]]; [done|]. unfold is_kcfg in Hk. by rewrite Eux in Hk. }
    unfold sym_resolved in Hr4. destruct (Z.eqb_spec (ks_type_id s) 0) as [Et|Et].
    + assert (Hr : x4 = sym_after obj_btf lines x).
      { pose proof (sym_after_type obj_btf lines x) as Ht. rewrite Eux in Ht.
        destruct (x_u (sym_after obj_btf lines x)) as [|k'|s']; [done..|]. by rewrite Ht, Et in Hr4. }
      rewrite Hr, <- (Hlines Hsc). unfold sym_after. rewrite Eux.
      destruct (first_addr (x_name x) lines) as [a|] eqn:Ea; [|by destruct (sym_is_var obj_btf x)].
      destruct (sym_is_var obj_btf x) eqn:Ev; [|done]. split; [done|]. intros a' Hin.
      pose proof (Hag x s a' (list_elem_of_lookup_2 _ _ _ H3) Eux Ev Hin) as E. congruence.
    + unfold sym_after in Hr4. rewrite Eux in Hr4. apply Z.eqb_neq in Et.
      destruct (sym_is_var obj_btf x); [destruct (first_addr (x_name x) lines)|]; cbn [with_ksym x_u with_addr ks_type_id] in Hr4;
        rewrite ?Eux, Et in Hr4; exact Hr4.
Qed.

(** What the first loop leaves for the configuration. *)
Lemma scanned_needs xs data data1 nd : (forall x, x ∈ xs -> scan_result kver data data1 nd x) ->
  forall y, y ∈ map scanned xs ->
    x_u y <> EXT_UNKNOWN /\ (is_kcfg y = true -> x_is_set y = true \/ need_config nd = true).
Proof.
  intros Hsc y Hy. apply list_elem_of_In, in_map_iff in Hy as (x & <- & Hx). apply list_elem_of_In in Hx.
  pose proof (Hsc x Hx) as H. unfold scan_result in H. unfold is_kcfg. rewrite scanned_u.
  destruct (x_u x); [done| |done]. split; [done|]. intros _. unfold scanned. destruct (is_version x); [by left|].
  right. tauto.
Qed.

(** The variables behind it, one by one: symbols have not changed. *)
Lemma config_read_back xs data1 lines xs2 data2 : config_read (map scanned xs) data1 lines xs2 data2 ->
  length xs2 = length xs /\
  forall i y, xs2 !! i = Some y -> exists x, xs !! i = Some x /\ x_u y = x_u x /\ x_btf_id y = x_btf_id x /\
    x_name y = x_name x /\ (is_kcfg x = false -> y = x).
Proof.
  intros H. assert (Hlen : length xs2 = length xs).
  { pose proof (f_equal length (cr_names _ _ _ _ _ H)) as E. by rewrite !length_map in E. }
  split; [done|]. intros i y Hy.
  destruct (lookup_lt_is_Some_2 xs i) as [x Hx]; [rewrite <- Hlen; by eapply lookup_lt_Some|].
  exists x. split; [done|].
  destruct (config_read_at _ _ _ _ _ i (scanned x) H) as (y' & Hy' & E); [by rewrite list_lookup_fmap, Hx|].
  assert (y' = y) as -> by congruence. unfold scanned, is_version in E.
  destruct (is_kcfg x) eqn:Ek; cbn [andb] in E; destruct E as [->|[-> E]];
    repeat match goal with |- context [if ?c then _ else _] => destruct c end; try done; congruence.
Qed.

End Load.

(** *** Loading the example *)

(** The kernel's BTF has [int] only; a module has [void kfn(void)]. *)
Definition ex_vmlinux : btf := ex_object [[1; ex_info 1 0; 4; 16777248]] ["int"]%string.
Definition ex_module : btf := ex_object [[0; ex_info 13 0; 0]; [1; ex_info 12 1; 1]] ["kfn"]%string.

Definition ex_modules : Z + list (btf * Z) := inr [(ex_vmlinux, 8); (ex_module, 9)].
Definition ex_table : fd_table := {| fd_array_idx := [0; 0]; fd_array := []; fd_array_cnt := 0; fd_array_cap := 0 |}.

Definition ex_kallsyms : Z + list (option (Z * list Z)) :=
  inr [Some (1000, lit "_text"); Some (2000, lit "jiffies"); Some (3000, lit "kfn")].

Definition ex_gzopen (path : list Z) : option (list Z) :=
  if bool_decide (path = lit "/boot/config-5.15.0")
  then Some (ex_quoted "CONFIG_NAME=" "linux" ++ ex_line "CONFIG_HZ=250" ++ ex_line "CONFIG_BPF=y") else None.

Definition ex_extra : option (list Z) := Some (ex_line "CONFIG_BPF=m").


(** Decision procedures for what the theorem wants of the lookups. *)
Definition sym_check (b : btf) (x : extern_desc) : bool :=
  match x_u x with
  | EXT_KSYM _ =>
      match btf__type_by_id b (x_btf_id x) with
      | Some (Some t) => match btf_is_var t with Some _ => true | None => false end
      | _ => false
      end
  | _ => true
  end.

Lemma sym_check_ok b xs : forallb (sym_check b) xs = true -> Forall (sym_known b) xs.
Proof.
  rewrite forallb_forall, Forall_forall. intros H x Hx. apply list_elem_of_In in Hx. specialize (H x Hx).
  unfold sym_check, sym_known in *. destruct (x_u x); [done..|].
  destruct (btf__type_by_id b (x_btf_id x)) as [[t|]|]; [|done..].
  destruct (btf_is_var t) as [var|] eqn:E; [eauto|done].
Qed.

Lemma unset_check_ok xs : forallb (fun x => negb (x_is_set x)) xs = true -> Forall (fun x => x_is_set x = false) xs.
Proof.
  rewrite forallb_forall, Forall_forall. intros H x Hx. apply list_elem_of_In in Hx. apply negb_true_iff. by apply H.
Qed.

Lemma typed_check_ok b xs :
  forallb (fun x => match x_u x with
    | EXT_KSYM s => (0 <=? ks_type_id s) && (ks_type_id s <? btf__type_cnt b)
    | _ => true
    end) xs = true -> Forall (typed_ok b) xs.
Proof.
  rewrite forallb_forall, Forall_forall. intros H x Hx. apply list_elem_of_In in Hx. specialize (H x Hx).
  unfold typed_ok. destruct (x_u x) as [|k|s]; [done..|]. apply andb_true_iff in H. lia.
Qed.

Lemma loaded_ok data : bytes_ok data -> Z.of_nat (length data) < 2 ^ 32 ->
  (match btf_new always data (Z.of_nat (length data)) None with Some (inr _) => true | _ => false end) = true ->
  btf_ok (loaded data None).
Proof.
  intros Hb Hl H. destruct (btf_new_spec always data None Hb Hl I) as (r & Hr & Hp).
  unfold loaded. rewrite Hr in H |- *. destruct r as [e|b]; [done|apply Hp].
Qed.

Lemma ex_kernel_ok : kernel_ok ex_obj ex_vmlinux ex_modules.
Proof.
  constructor.
  - apply types_check_ok. vm_compute. reflexivity.
  - split; [by apply loaded_ok; [apply bytes_ok_dec| |]; vm_compute|]. apply types_check_ok. vm_compute. reflexivity.
  - intros b fd [[= -> ->]|[[= -> ->]|Hin%not_elem_of_nil]%elem_of_cons]%elem_of_cons; [..|done];
      (split; [by apply loaded_ok; [apply bytes_ok_dec| |]; vm_compute|]; apply types_check_ok; vm_compute; reflexivity).
  - done.
Qed.

Lemma ex_table_ok : tbl_ok ex_modules ex_table.
Proof.
  constructor; try (cbn; lia); try done. intros i idx H Hne. unfold aref in H. cbn in H.
  destruct (i <? 0); [done|]. destruct (Z.to_nat i) as [|[|n]]; [by injection H as <-..|done].
Qed.


(** A weak variable with a type that the kernel's BTF lacks counts as resolved
    when /proc/kallsyms, read for some other symbol, lists it: it is set, with
    the id 0 of no type. *)
Definition ex_weak : btf := ex_object [
  [1; ex_info 1 0; 4; 16777248]; [5; ex_info 14 0; 0; 2]; [13; ex_info 14 0; 1; 2];
  [18; ex_info 15 2; 0; 2; 0; 0; 3; 0; 4]] ["int"; "jiffies"; "prio"; ".ksyms"]%string.

Fact weak_typed_half_resolved :
  let syms := [ex_sym 16 "jiffies"; ex_sym 32 "prio"] in
  let run lines :=
    r ← bpf_object__collect_externs always (Some ex_weak) syms;
    s ← bpf_object__resolve_externs always ex_weak ex_vmlinux ex_modules false 331520 (inr lines) ex_gzopen
          (lit "5.15.0") (fun _ => 0) ex_buf r.2 [] ex_table None;
    Some (s.1.1.1, map (fun x => (x_is_set x, match x_u x with EXT_KSYM k => (ks_type_id k, ks_kernel_btf_id k) | _ => (0, 0) end))
            s.1.1.2) in
  run [Some (2000, lit "jiffies")] = Some (0, [(true, (0, 0)); (false, (1, 0))]) /\
  run [Some (2000, lit "jiffies"); Some (3000, lit "prio")] = Some (0, [(true, (0, 0)); (true, (1, 0))]).
Proof. vm_compute. split; reflexivity. Qed.
